(* ===== verification/_CoqProject ===== *)
-Q . S2P
Prelude.v
JsStrings.v
JsNumbers.v
JsDecimals.v
Processes.v
Errors.v
BigintMoney.v
MoneyAmounts.v
CutoverStateMachine.v
CutoverAmounts.v
World.v
Ibex.v
Repos.v
CutoverRepo.v
CutoverServices.v
CutoverWorker.v
CutoverRunner.v
CutoverRollback.v
CutoverRetry.v
CutoverLifecycle.v
CutoverPrepare.v
CutoverRouting.v
FygaroGate.v
CreatedAt.v
FygaroCheckout.v
Json.v
PaymentAmounts.v
PaymentFlows.v
LightningFlow.v
OnChainFlow.v
DisplayAmounts.v
LedgerEntries.v
LedgerFacade.v
LedgerBalance.v
LedgerService.v
Lightning.v
PendingPayments.v
TopupWorld.v
LightningSends.v
SendSettlement.v
FygaroIntents.v
TransferRequests.v
FygaroAuthorize.v
FygaroReservations.v
FygaroAllowance.v
PaymentIdempotency.v
PaymentOnce.v
FygaroWebhook.v
FygaroDelivery.v
BridgeWorld.v
BridgeRepo.v
BridgeFees.v
IbexCrypto.v
BridgeService.v
Referrals.v
Invites.v
BridgeReconciliation.v
BridgeWebhooks.v
BridgeReplay.v
BridgeGates.v
BridgeWithdrawals.v
ReferralRewards.v
BridgeSettlement.v
Cashouts.v
CashoutOffers.v
AccountUpgrades.v
Simulation.v
TopupSimulation.v
BridgeSimulation.v
GraphqlErrors.v
ApiKeys.v
ApiKeyAccess.v
RequestGuards.v
Witnesses.v
TopupWitnesses.v
BridgeWitnesses.v
PaymentWitnesses.v
ApiKeyWitnesses.v
CashoutWitnesses.v
