(* ===== verification/Prelude.v ===== *)
(** * Flash: verification of a wallet backend

    Flash is a wallet backend in TypeScript. This development models the parts
    of it that move money on their own: the migration of every account from its
    legacy USD wallet to a USDT wallet (the cash wallet cutover) with its
    rollback; the card top-ups, from the authorisation of a checkout to the
    credit of the captured payment; the integration of Bridge, through which
    customers receive bank deposits and withdraw to their banks, with the
    referral rewards its approvals trigger; the pricing of payments, the ledger
    they are recorded in and the sends over Lightning; cashouts to bank accounts
    and the requests accounts make to operators; API keys and the guards of
    requests; and the money arithmetic and the stores they stand on.

    ** The program

    A cutover is a run over accounts. Preparation classifies the accounts and
    inserts one migration document per account. Starting the run sets the
    configuration to in progress. Batches then take each migration through
    thirteen statuses: provision the USDT wallet, read the balance, create an
    invoice, pay it from the legacy wallet, verify, let the treasury reimburse
    the routing fee, flip the account's default wallet, verify the legacy wallet
    is empty, complete. Failures are parked as [failed] or, where money may have
    moved, as [requires_operator_review]. An operator can retry failed
    migrations, or roll back one account or the run: restore the pointer, pay
    the balance back, top up a shortfall from the treasury. The rest of the
    application asks a guard which wallet an account uses meanwhile.

    A card top-up begins with an authorisation: settings, fees and the sum of
    the last day give an allowance, the amount is reserved in Redis, and a signed
    link is handed out. The provider then posts the captured payment to a
    webhook, possibly several times: it is attributed to an account, passed
    through the credit gate, recorded in ERPNext, and credited from the treasury
    by an intraledger send under an idempotency key. What cannot be credited is
    recorded and raised with operators; the app asks for the status meanwhile.

    A customer of Bridge is approved by a KYC webhook, which gives the account a
    virtual bank account and pays the referral reward of the invite it redeemed,
    to both parties. A withdrawal is requested, with an estimate of its fees from
    the gas market, and initiated: a transfer is created at Bridge, its row is
    submitted, and IBEX sends the USDT to the address of the transfer. Webhooks
    of Bridge report how transfers and deposits end, one of IBEX reports USDT
    that arrive, operators may replay an event, and sweeps look for transfers and
    receipts without their counterpart.

    A payment is priced by a builder, step by step, into a flow that is stored
    until it is sent. The facade of the ledger turns it into a journal of debits
    and credits; a send over Lightning is recorded as pending, settled or
    reverted by the answer of the node, and a fee that was not used is paid back.

    A cashout is offered, with a fee and a rate, kept for an hour, and executed:
    its conditions are checked again, a draft is made in ERPNext, the invoice of
    the offer is paid from the wallet of the user, and the draft is submitted.
    Through ERPNext an account also asks for a higher level and for new bank
    details, which operators review.

    An API key is created, shown once, and stored as a hash. A request with a key
    is checked for the gateway, which makes a token of the answer; the session
    and the rules on the fields of the schema confine it to its scopes. Other
    guards look at the idempotency key of a request and at the wallet it names.
    What is returned as an error becomes an answer of the API by one long switch.

    ** Files, in dependency order

    - [Prelude]: outcomes of a call ([Ok], a returned [Error] value, a
      rejection), the handler monad [M], two-state guarantees, automation.
    - [JsStrings], [JsNumbers]: the string, [BigInt] and number operations the
      code uses. Doubles are exact dyadic rationals, and their arithmetic is
      rounded to 53 bits, with error bounds.
    - [Processes]: handlers as sequences of atomic actions, pools of them under
      a schedule, the logic [safe] for what every schedule keeps, and [yields]
      and [upholds] for what a process answers from the worlds it acts in
      ([acts]).
    - [Errors]: error values.
    - [BigintMoney]: src/src/domain/shared/bigint-money, fixed-point money.
    - [MoneyAmounts]: src/src/domain/shared/money, amounts with a currency.
    - [CutoverStateMachine]: state-machine.ts, the statuses and their table.
    - [CutoverAmounts]: amount-conversion.ts and the decimal helpers of
      runtime-services.ts.
    - [World]: the collections, caches and log of payments ([world]); the class
      [External] of everything outside the repository; mongoose/utils.ts.
    - [Ibex]: src/src/services/ibex errors and client, decodeInvoice.
    - [Repos]: the accounts and wallets repositories, app/accounts, the funder
      cache; the relation [quiet].
    - [CutoverRepo]: src/src/services/mongoose/cash-wallet-cutover.ts, its invariant
      [migrations_ok], a program logic [mtriple] for it, [evolves], and [frames]
      for the documents a call leaves alone.
    - [CutoverServices]: the interface [MigrationServices] with its laws
      [ServicesLaws], and runtime-services.ts, which meets them.
    - [CutoverWorker]: worker.ts, handlers.ts, executor.ts.
    - [CutoverRunner]: runner.ts and orchestrator.ts.
    - [CutoverRollback]: rollback-worker.ts and rollback.ts.
    - [CutoverRetry]: retry-failed.ts. [CutoverLifecycle]: lifecycle.ts.
    - [CutoverPrepare]: discovery, preflight, planner, migration-records,
      prepare, preview, provision-usdt-wallets, audit-accounts.
    - [CutoverRouting]: guard, presentation, presentation-for-account,
      cashout-routing, recipient-routing, client-capability.
    - [FygaroGate]: coerce.ts, fees.ts and the validation of
      fygaro-settings.ts. [CreatedAt]: created-at.ts. [FygaroCheckout]:
      checkout.ts.
    - [TopupWorld]: the world of the top-ups over [world], the class
      [TopupExternal] of what is outside, the Redis cache and the locks.
    - [FygaroIntents]: checkout-intent-store.ts. [TransferRequests]: ErpNext.ts,
      its row model and the writers, as far as transfer requests go.
    - [FygaroAuthorize]: authorize-topup.ts, topup-allowance.ts, topup-status.ts
      and the cached settings; [FygaroReservations] and [FygaroAllowance] are
      theorems on them.
    - [PaymentIdempotency]: idempotency.ts, send-intraledger.ts and the status
      readers of ibex/payment-status.ts; [PaymentOnce] is a theorem on them.
    - [FygaroWebhook]: routes/payment.ts and credit-topup.ts; [FygaroDelivery]
      has the theorems on them.
    - [JsDecimals]: numbers as text, [parseFloat] and [toFixed]. [Json]: JSON
      values as handlers read them, and the exception of a value that has no
      text ([coerce]).
    - [BridgeWorld]: the documents, the world of the integration over that of the
      top-ups, the class [BridgeExternal] of what is outside, and client.ts.
      [BridgeRepo]: bridge-accounts.ts and the logs, with the filters and unique
      indexes of their schemas. [BridgeFees]: withdrawal-fees.ts and
      ethereum-gas-estimate.ts. [IbexCrypto]: the crypto calls of ibex/client.ts.
      [BridgeService]: services/bridge/index.ts and plaid-link-token-store.ts.
    - [Referrals]: award-referral-reward.ts and referral-reward.ts. [Invites]:
      the rest of app/invite, the resolvers that redeem and preview an invite,
      and the operators' calls on invites.
    - [BridgeReconciliation]: reconciliation.ts. [BridgeWebhooks]: the middlewares
      and routes of the webhook server and crypto-receive.ts. [BridgeReplay]:
      replay.ts and transfer-direction.ts.
    - [BridgeGates], [BridgeWithdrawals], [ReferralRewards], [BridgeSettlement]:
      the theorems on them.
    - [PaymentAmounts]: amounts, price ratios, fees and limits of
      src/src/domain. [PaymentFlows]: payment-flow.ts and its documents.
      [LightningFlow], [OnChainFlow]: the two builders. [DisplayAmounts]:
      display-currency.ts and display-amounts-converter.ts.
    - [LedgerEntries]: entry-builder.ts, fee-only-entry-builder.ts and
      tx-metadata.ts. [LedgerFacade]: the rest of services/ledger/facade.
      [LedgerBalance]: its books balance. [LedgerService]: the queries of
      services/ledger, and what they see of the facade's rows.
    - [Lightning]: services/lnd. [LightningSends]: executePaymentViaLn of
      send-lightning.ts, the reimbursements and update-pending-payments.ts.
      [PendingPayments]: translations.ts. [SendSettlement]: how a send ends.
    - [Cashouts]: src/src/app/offers; [CashoutOffers] has theorems on it.
      [AccountUpgrades]: the requests of src/src/app/accounts and
      domain/accounts/capabilities.ts.
    - [GraphqlErrors]: error-map.ts and the classes it names.
    - [ApiKeys]: domain/api-keys, its repository and app/api-keys.
      [ApiKeyAccess]: api-key-check.ts, session.ts, the rules of the GraphQL
      servers, scope-map.ts and the rate limit. [RequestGuards]: idempotency.ts
      and wallet-id.ts of servers/middlewares.
    - [Simulation], [Witnesses]: a concrete outside world, a whole run of a
      cutover forward and back on it, and instances of the theorems.
      [TopupSimulation], [TopupWitnesses]: the same for the top-ups, with runs
      under faults and interleavings that go wrong. [BridgeSimulation],
      [BridgeWitnesses]: the same for the Bridge integration. [PaymentWitnesses]:
      a simulated book and node. [ApiKeyWitnesses], [CashoutWitnesses]: keys,
      guards, cashouts and account requests, with runs that go wrong.

    The cutover files are in src/src/app/cash-wallet-cutover, those of the
    top-ups in src/src/app/fygaro, src/src/services/fygaro and
    src/src/services/frappe, those of the integration in
    src/src/services/bridge, src/src/app/bridge and src/src/app/invite. Functions
    keep their names; a long function is split where its comments split it.

    ** How the code is represented

    A handler is a function on the world returning its outcome and the world it
    leaves, also on failure: a write before an early return stays. [let!] is the
    idiom "await, return if it is an Error". Each MongoDB call is one atomic
    operation which, according to the parameter [mongo_fault], may fail before
    or after taking effect. IBEX, the BOLT11 parser, the clock, identifiers and
    MongoDB's sort are parameters; theorems hold for all of them, or under
    [ExternalLaws], which says that sorting sorts. [w_paid] logs the payments
    IBEX acknowledged; one that IBEX made but answered with an error is not in
    it, so bounds on payments are bounds on acknowledged ones.

    The top-ups race with themselves, so their handlers are processes: every
    Redis command, ERPNext request and database call is one atomic step, other
    processes run in between, and any step may fail before or after taking
    effect ([redis_fault], [erp_fault]). A call of a handler of the first kind
    is one step of a process. Configuration, random bytes, hashes, Kratos, the
    comparison of usernames and dates in no standard format are parameters.
    Alerts and pushes are events of the world.

    The handlers of the Bridge integration are processes of the same kind. Bridge's
    API and IBEX answer as their parameters say, with an error, a timeout or an
    answer that is lost; [b_sent] logs the sends IBEX acknowledged. A check that a
    webhook starts and does not await is put on a list of tasks, which any process
    may take up later. Bodies of webhooks, also of the top-ups, are JSON values of
    any shape: where the code makes a text of one, an object with a [toString] of
    its own is a TypeError ([coerce]), and where it calls a method of texts, so is
    every value that is not a text ([text_or]).

    The ledger is a list of rows. The bookkeeping library is a parameter: entries
    ([MediciEntry]) and the calls of its book ([LedgerExternal]), with the laws
    that commits store the transactions of an entry under a new journal, voids
    reverse one, queries filter, and sums that fit a double are exact
    ([MediciEntryLaws], [BookLaws]). The Lightning
    nodes ([LightningExternal]), prices and limits ([PriceExternal]) and the
    digits of currencies ([CurrencyData]) are parameters without laws. Handlers on
    the ledger are functions on the world, since their theorems are about one
    call after the other.

    API keys, cashouts and account requests are processes. Random bytes, SHA-256
    and the address library are parameters of the keys ([KeyExternal]), with the
    lengths of the bytes as the only law a theorem needs beside that sorting
    permutes ([KeyLaws]); nothing is assumed of the hash. What ERPNext does
    with a draft, its rates, its bank accounts and the settings of cashouts are
    parameters ([CashoutExternal]), and so are the names it gives to requests
    ([UpgradeExternal]), which are distinct and start as pending ([UpgradeLaws]).

    ** What is proved

    - Safety of the pipeline: every batch, forward or back, with any failures,
      keeps [migrations_ok] (no status without the fields it relies on; unique
      accounts, ids and keys). A forward batch only moves a status further along
      the pipeline or into a failure status ([forward_rel]); a rollback batch
      changes only documents of its run that are [rollback_started], and resolves
      them or leaves them to an operator ([rollback_rel]).
    - Payments: a forward step pays at most once, the recorded balance or fee,
      and a batch at most once for each of the documents it found stored; a rollback step makes at most one reverse payment, bounded by what was
      moved and what is spendable, and at most one top-up, the exact shortfall.
      A rollback finishes only if the user is whole to a cent.
    - Operator commands: start, complete, request, complete rollback, retry and
      prepare do what their reports say; locks exclude; upserts are idempotent.
    - Routing: what the guard, the presentations and the cashout selection
      return, with two theorems on where they depart from their comments.
    - Top-ups under every schedule: racing checkouts never hand out more than
      the daily cap; racing deliveries of a payment send it at most once;
      racing sends under one key pay at most once and report the same status; an
      authorisation is redeemed once; stamps on a record are linearizable.
      The first three assume that Redis answers and keeps its keys meanwhile
      ([calm], [steady]); ERPNext, MongoDB and IBEX may fail in any way.
    - Top-ups whatever fails: a delivery is answered unless its currency or custom
      reference is no text or its id or amount has none, and one the provider must
      retry leaves the dedupe lock alone.
    - Top-ups one at a time: the allowance shown is the one granted, but for the
      gate on the fees, which it does not show; the gate
      and the fees; the sum of the last day and the guards of a row; the
      reference and the amount of a link survive the way to the webhook.
    - Withdrawals under every schedule of all calls, webhooks, replays and sweeps
      of the integration: a send that is acknowledged belongs to a withdrawal of
      its own and is of its amount; rows only move forward. One at a time: an
      event that is acknowledged has settled its row and its audit row.
    - Referrals under every schedule: at most two payments for each invite, which
      is claimed.
    - Webhooks: nothing passes without a signature, nor a replay without its
      secret and address; which deliveries are answered, and on which the handler
      throws; a replayed transfer is always refused.
    - Fees: the estimate shown adds up to the cent in floating point.
    - Payments: a flow the builders finish is well formed, its fees are within
      their caps, a flow that is stored reads back, and sending everything on
      chain takes exactly the balance.
    - The ledger: every journal of the facade balances in each currency; a
      refused Lightning send gives back what it took; the row of a
      recorded one has its amounts. Three theorems show where the code departs from
      its purpose: the flow is not rebuilt from that row, the service sees no row
      of the facade, and a USDT sender's journal does not balance.
    - Cashouts under every schedule: nothing is submitted that was not paid for;
      what is executed was checked in its own execution; fees and payouts of an
      offer are fair, and an offer reads back for an hour.
    - Account requests under every schedule: what reaches the operators was asked
      for an account of the level it names and is worth a review, and an open request for new bank details is replaced, not lost.
    - API keys: a key is accepted exactly when it is genuine; once revoked it is
      never accepted again under any schedule; a rotation replaces it; a request
      with a key reaches the fields its scopes grant and no other.
    - Guards: a wallet-level field runs only for the owner of the wallet; the
      guard on idempotency keys refuses no repeated request.
    - Errors: which error classes hide the text of a library, and that the mapping
      throws on those no arm names.
    - Arithmetic: rounding division, rendering and parsing, conversions between
      cents, USDT millionths and IBEX numbers, shortfalls.

    ** Bounds

    The only fuel is [withIbexRateLimitRetry] and [provision_attempts], whose
    argument is the number of attempts the code allows, and digit printing,
    whose fuel is the size of the number; the compare-and-set of an outcome
    makes the attempts the code makes; everything else is structural. A process
    is a finite tree of actions, so every handler modelled as one terminates.

    ** Not modelled

    Interleaving of two workers inside one handler of the cutover (each call on
    the database is atomic, and the lock theorem covers what another worker may
    do); pauses and sleeps; the extension of a lock that is held; tracing,
    logging, webhook addresses and secrets; the operator dashboard; the webhook
    servers, the signature check of the top-ups and the float monitor; the
    delivery of alerts, pushes, mails and invites, and the pruning of device
    tokens: input and output, or reports that change nothing. Text formatting by
    Intl. The validation and the intraledger path of send-lightning.ts: the
    balance check before the send reads accounts the facade does not post on, so
    little after it can be reached. LNURL payments, fee probes, invoices and
    histories of wallets, the operators' journal entries, the on-chain service,
    authentication, merchants, swaps, the other resolvers and the adapters of
    external services are outside the modelled flows. *)

From stdpp Require Import base gmap list strings.
From Stdlib Require Import ZArith Lia.

(** The scope of the development's notations. *)
Declare Scope flash_scope.
Delimit Scope flash_scope with flash.
Open Scope flash_scope.

(** ** Outcomes of a JavaScript call

    The application layer never throws on purpose: a failing call resolves
    with an [Error] value which the caller tests with [instanceof Error].
    Exceptions exist all the same (a rejected promise of a client library, a
    [BigInt] conversion), so a call has three outcomes. *)

Inductive outcome (E A : Type) : Type :=
| Ok (a : A)
| Err (e : E)
| Throw (e : E).
Arguments Ok {E A} a.
Arguments Err {E A} e.
Arguments Throw {E A} e.

Definition is_ok {E A} (o : outcome E A) : bool :=
  match o with Ok _ => true | _ => false end.

Definition is_inl {A B} (x : A + B) : bool := match x with inl _ => true | inr _ => false end.

Definition outcome_map {E A B} (f : A -> B) (o : outcome E A) : outcome E B :=
  match o with Ok a => Ok (f a) | Err e => Err e | Throw e => Throw e end.

(** ** The monad of effectful handlers

    [M W E A] is a handler on the world [W]: it returns its outcome and the
    world it leaves, also when it fails, since a write made before an early
    return is not undone. *)

Definition M (W E A : Type) : Type := W -> outcome E A * W.

Section Monad.
Context {W E : Type}.

Definition ret {A} (a : A) : M W E A := fun w => (Ok a, w).
Definition fail {A} (e : E) : M W E A := fun w => (Err e, w).
Definition throw {A} (e : E) : M W E A := fun w => (Throw e, w).
Definition lift {A} (o : outcome E A) : M W E A := fun w => (o, w).

(** [const x = await c; if (x instanceof Error) return x; k(x)] *)
Definition bind {A B} (c : M W E A) (k : A -> M W E B) : M W E B :=
  fun w =>
    match c w with
    | (Ok a, w') => k a w'
    | (Err e, w') => (Err e, w')
    | (Throw e, w') => (Throw e, w')
    end.

(** The value of a call whose [Error] result the caller inspects itself;
    an exception still escapes. *)
Definition attempt {A} (c : M W E A) : M W E (E + A) :=
  fun w =>
    match c w with
    | (Ok a, w') => (Ok (inr a), w')
    | (Err e, w') => (Ok (inl e), w')
    | (Throw e, w') => (Throw e, w')
    end.

(** [try { return await c } catch (err) { return h(err) }] *)
Definition catch {A} (c : M W E A) (h : E -> M W E A) : M W E A :=
  fun w =>
    match c w with
    | (Throw e, w') => h e w'
    | r => r
    end.

Definition gets {A} (f : W -> A) : M W E A := fun w => (Ok (f w), w).
Definition modify (f : W -> W) : M W E unit := fun w => (Ok tt, f w).

(** [for (const x of l) s = await f(s, x)], left at the first failure. *)
Fixpoint fold_m {S A} (f : S -> A -> M W E S) (s : S) (l : list A) : M W E S :=
  match l with
  | [] => ret s
  | x :: l' => bind (f s x) (fun s' => fold_m f s' l')
  end.
End Monad.

Notation "'let!' x := c 'in' k" := (bind c (fun x => k))
  (at level 10, x pattern, c at level 100, k at level 200) : flash_scope.
Notation "c ;; k" := (bind c (fun _ => k))
  (at level 100, k at level 200, right associativity) : flash_scope.

(** What one changed element does to the values a list is read as. *)
Lemma omap_insert_same {A B} (f : A -> option B) (l : list A) (i : nat) a b :
  l !! i = Some a -> f b = f a -> omap f (<[i := b]> l) = omap f l.
Proof.
  intros Hi Hf. revert i Hi. induction l as [|x l IH]; intros [|i] Hi; simplify_eq/=.
  - by rewrite Hf.
  - by rewrite (IH i Hi).
Qed.

Lemma omap_insert_new {A B} (f : A -> option B) (l : list A) (i : nat) a b y :
  l !! i = Some a -> f a = None -> f b = Some y -> omap f (<[i := b]> l) ≡ₚ y :: omap f l.
Proof.
  intros Hi Ha Hb. revert i Hi. induction l as [|x l IH]; intros [|i] Hi; simplify_eq/=.
  - by rewrite Ha, Hb.
  - destruct (f x); rewrite (IH i Hi); [by rewrite Permutation_swap|done].
Qed.

(** ** Two-state guarantees

    [guarantees R m]: however [m] ends, the world it leaves is related by [R]
    to the world it started in. For a preorder [R] the property composes along
    [bind], so a handler has it as soon as its primitive effects do. *)

Definition guarantees {W E A} (R : relation W) (m : M W E A) : Prop :=
  forall w, R w (m w).2.

(** [ensures Q m]: every result [m] returns normally satisfies [Q]. *)
Definition ensures {W E A} (Q : W -> A -> W -> Prop) (m : M W E A) : Prop :=
  forall w a w', m w = (Ok a, w') -> Q w a w'.

Create HintDb flash.

Section Guarantees.
Context {W E : Type} (R : relation W) `{!PreOrder R}.

Lemma guarantees_ret {A} (a : A) : guarantees (E:=E) R (ret a).
Proof. intros w. reflexivity. Qed.
Lemma guarantees_fail {A} (e : E) : guarantees (A:=A) R (fail e).
Proof. intros w. reflexivity. Qed.
Lemma guarantees_throw {A} (e : E) : guarantees (A:=A) R (throw e).
Proof. intros w. reflexivity. Qed.
Lemma guarantees_lift {A} (o : outcome E A) : guarantees R (lift o).
Proof. intros w. reflexivity. Qed.
Lemma guarantees_gets {A} (f : W -> A) : guarantees (E:=E) R (gets f).
Proof. intros w. reflexivity. Qed.

Lemma guarantees_bind {A B} (c : M W E A) (k : A -> M W E B) :
  guarantees R c -> (forall a, guarantees R (k a)) -> guarantees R (bind c k).
Proof.
  intros Hc Hk w. specialize (Hc w). unfold bind.
  destruct (c w) as [[a|e|e] w']; cbn in *; [|done..].
  etrans; [exact Hc|apply Hk].
Qed.

Lemma guarantees_attempt {A} (c : M W E A) :
  guarantees R c -> guarantees R (attempt c).
Proof.
  intros Hc w. specialize (Hc w). unfold attempt.
  by destruct (c w) as [[a|e|e] w'].
Qed.

Lemma guarantees_catch {A} (c : M W E A) h :
  guarantees R c -> (forall e, guarantees R (h e)) -> guarantees R (catch c h).
Proof.
  intros Hc Hh w. specialize (Hc w). unfold catch.
  destruct (c w) as [[a|e|e] w']; cbn in *; [done..|].
  etrans; [exact Hc|apply Hh].
Qed.

Lemma guarantees_fold_m {S A} (f : S -> A -> M W E S) s l :
  (forall s x, guarantees R (f s x)) -> guarantees R (fold_m f s l).
Proof.
  intros Hf. revert s. induction l as [|x l IH]; intros s; cbn.
  - apply guarantees_ret.
  - apply guarantees_bind; [apply Hf|intros s'; apply IH].
Qed.

Lemma guarantees_if {A} (b : bool) (c d : M W E A) :
  guarantees R c -> guarantees R d -> guarantees R (if b then c else d).
Proof. by destruct b. Qed.
End Guarantees.

#[export] Hint Resolve guarantees_ret guarantees_fail guarantees_throw
  guarantees_lift guarantees_gets guarantees_bind guarantees_attempt
  guarantees_catch guarantees_fold_m guarantees_if : flash.

(** Inversion of a [bind] that returned normally. *)
Lemma bind_Ok {W E A B} (c : M W E A) (k : A -> M W E B) w b w2 :
  bind c k w = (Ok b, w2) <->
  exists a w1, c w = (Ok a, w1) /\ k a w1 = (Ok b, w2).
Proof.
  unfold bind. split.
  - destruct (c w) as [[a|e|e] w'] eqn:Hc; intros H; simplify_eq; eauto.
  - by intros (a & w1 & -> & ?).
Qed.

(** Step through a run: split every [bind] of a hypothesis [_ = (Ok _, _)]. *)
Ltac step_Ok :=
  repeat match goal with
  | H : bind _ _ _ = (Ok _, _) |- _ =>
      let a := fresh "a" in let w := fresh "w" in
      let H1 := fresh "Hc" in let H2 := fresh "Hk" in
      apply bind_Ok in H as (a & w & H1 & H2)
  | H : ret _ _ = (Ok _, _) |- _ => unfold ret in H; simplify_eq
  | H : gets _ _ = (Ok _, _) |- _ => unfold gets in H; simplify_eq
  | H : modify _ _ = (Ok _, _) |- _ => unfold modify in H; simplify_eq
  | H : lift _ _ = (Ok _, _) |- _ => unfold lift in H; simplify_eq
  | H : fail _ _ = (Ok _, _) |- _ => unfold fail in H; discriminate H
  | H : throw _ _ = (Ok _, _) |- _ => unfold throw in H; discriminate H
  end.

(** ** Decisions *)

(** A decidable statement whose decision computes to true. *)
Lemma by_compute (P : Prop) `{!Decision P} : bool_decide P = true -> P.
Proof. apply bool_decide_eq_true. Qed.

Ltac by_computation := refine (by_compute _ _).

(** ** Integers *)

Open Scope Z_scope.

(** JavaScript's [BigInt] division and remainder truncate towards zero. *)
Notation "a 'quot' b" := (Z.quot a b) (at level 40, left associativity, only parsing) : flash_scope.

Lemma quot_rem_bound (a b : Z) : b ≠ 0 -> Z.abs (Z.rem a b) < Z.abs b.
Proof. intros. pose proof (Z.rem_bound_abs a b). lia. Qed.

Lemma pow10_pos (n : Z) : 0 <= n -> 0 < 10 ^ n.
Proof. intros. apply Z.pow_pos_nonneg; lia. Qed.

#[export] Hint Resolve pow10_pos : flash.
