(* ===== verification/JsStrings.v ===== *)
(** * JavaScript decimal strings

    The pieces of the language's string and [BigInt] library the modelled code
    uses on decimal amounts: digit tests (the regular expressions [/^\d+$/]
    and [/^\d+(\.\d+)?$/]), [BigInt(s)] and [toString()], [split], [padStart],
    [slice], and the replacements [/0+$/] and [/\.?0+$/], with the lemmas that
    give the numeric value of the strings they build. *)

From stdpp Require Import base list strings.
From Stdlib Require Import ZArith Lia Ascii.
From S2P Require Import Prelude.

Open Scope Z_scope.

(** ** Characters *)

Definition is_digit (c : ascii) : bool :=
  (48 <=? Z.of_nat (nat_of_ascii c)) && (Z.of_nat (nat_of_ascii c) <=? 57).

Definition digit_val (c : ascii) : Z := Z.of_nat (nat_of_ascii c) - 48.

Definition digit_char (d : Z) : ascii := ascii_of_nat (Z.to_nat (d + 48)).

Lemma digit_val_bound c : is_digit c = true -> 0 <= digit_val c < 10.
Proof.
  unfold is_digit, digit_val. intros [H1 H2]%andb_true_iff.
  apply Z.leb_le in H1. apply Z.leb_le in H2. lia.
Qed.

Lemma digit_char_code d : 0 <= d < 10 ->
  nat_of_ascii (digit_char d) = Z.to_nat (d + 48).
Proof. intros. unfold digit_char. apply nat_ascii_embedding. lia. Qed.

Lemma digit_char_digit d : 0 <= d < 10 -> is_digit (digit_char d) = true.
Proof.
  intros. unfold is_digit. rewrite digit_char_code by done.
  apply andb_true_iff; split; apply Z.leb_le; lia.
Qed.

Lemma digit_char_val d : 0 <= d < 10 -> digit_val (digit_char d) = d.
Proof. intros. unfold digit_val. rewrite digit_char_code by done. lia. Qed.

Lemma digit_val_char c : is_digit c = true -> digit_char (digit_val c) = c.
Proof.
  intros H. pose proof (digit_val_bound c H). unfold digit_char, digit_val in *.
  rewrite Z.sub_add, Nat2Z.id. apply ascii_nat_embedding.
Qed.

(** ** Strings of digits *)

Fixpoint all_digits (s : string) : bool :=
  match s with
  | EmptyString => true
  | String c s' => is_digit c && all_digits s'
  end.

Definition nonempty (s : string) : bool :=
  match s with EmptyString => false | _ => true end.

(** [/^\d+$/.test(s)] *)
Definition re_digits (s : string) : bool := nonempty s && all_digits s.

Fixpoint dval (acc : Z) (s : string) : Z :=
  match s with
  | EmptyString => acc
  | String c s' => dval (acc * 10 + digit_val c) s'
  end.

(** The number a string of digits denotes. *)
Definition digits_val (s : string) : Z := dval 0 s.

Definition slen (s : string) : Z := Z.of_nat (String.length s).

Lemma slen_nonneg s : 0 <= slen s.
Proof. unfold slen. lia. Qed.

Lemma slen_cons c s : slen (String c s) = slen s + 1.
Proof. unfold slen. cbn [String.length]. lia. Qed.

Lemma app_cons c s t : String c s +:+ t = String c (s +:+ t).
Proof. done. Qed.

Lemma app_nil_str t : EmptyString +:+ t = t.
Proof. done. Qed.

Lemma app_nil_r_str s : s +:+ "" = s.
Proof. induction s as [|c s IH]; [done|]. by rewrite app_cons, IH. Qed.

Lemma app_assoc_str s t u : (s +:+ t) +:+ u = s +:+ (t +:+ u).
Proof. induction s as [|c s IH]; [done|]. by rewrite !app_cons, IH. Qed.

Lemma slen_app s t : slen (s +:+ t) = slen s + slen t.
Proof.
  induction s as [|c s IH]; [done|].
  rewrite app_cons, !slen_cons, IH. lia.
Qed.

Lemma all_digits_app s t : all_digits (s +:+ t) = all_digits s && all_digits t.
Proof.
  induction s as [|c s IH]; [done|]. rewrite app_cons. cbn [all_digits].
  by rewrite IH, andb_assoc.
Qed.

Lemma dval_app a s t : dval a (s +:+ t) = dval (dval a s) t.
Proof.
  revert a. induction s as [|c s IH]; intros a; [done|].
  rewrite app_cons. cbn [dval]. apply IH.
Qed.

Lemma dval_acc a s : dval a s = a * 10 ^ slen s + digits_val s.
Proof.
  unfold digits_val. revert a. induction s as [|c s IH]; intros a.
  - cbn. unfold slen. cbn. lia.
  - cbn [dval]. rewrite IH, (IH (0 * 10 + _)), slen_cons, Z.pow_add_r
      by (try lia; apply slen_nonneg). lia.
Qed.

Lemma digits_val_app s t :
  digits_val (s +:+ t) = digits_val s * 10 ^ slen t + digits_val t.
Proof. unfold digits_val at 1. by rewrite dval_app, dval_acc. Qed.

Lemma digits_val_bound s : all_digits s = true -> 0 <= digits_val s < 10 ^ slen s.
Proof.
  induction s as [|c s IH]; intros H.
  - unfold slen. cbn. lia.
  - cbn [all_digits] in H. apply andb_true_iff in H as [Hc Hs].
    specialize (IH Hs). pose proof (digit_val_bound c Hc).
    unfold digits_val. cbn [dval]. rewrite dval_acc, slen_cons.
    rewrite Z.pow_add_r by (try lia; apply slen_nonneg).
    change (10 ^ 1) with 10. pose proof (pow10_pos (slen s) (slen_nonneg s)). nia.
Qed.

(** ** [BigInt.prototype.toString] *)

Fixpoint print_go (fuel : nat) (n : Z) (acc : string) : string :=
  match fuel with
  | O => acc
  | S fuel' =>
      let acc' := String (digit_char (n mod 10)) acc in
      if n <? 10 then acc' else print_go fuel' (n / 10) acc'
  end.

Definition print_nonneg (n : Z) : string :=
  print_go (S (Z.to_nat (Z.log2 n))) n "".

Definition bigint_toString (n : Z) : string :=
  if n <? 0 then String "-" (print_nonneg (- n)) else print_nonneg n.

(** The digits [print_go] puts before its accumulator. *)
Lemma print_go_spec fuel n acc :
  0 <= n < 2 ^ Z.of_nat fuel ->
  exists ds, print_go fuel n acc = ds +:+ acc /\ all_digits ds = true /\
    digits_val ds = n /\
    (0 < Z.of_nat fuel -> 1 <= slen ds /\ (n = 0 -> slen ds = 1) /\
       (0 < n -> 10 ^ (slen ds - 1) <= n)).
Proof.
  revert n acc. induction fuel as [|fuel IH]; intros n acc Hn.
  { exists "". cbn in Hn. repeat split; try done; unfold slen, digits_val; cbn; lia. }
  cbn [print_go].
  pose proof (Z.mod_pos_bound n 10 ltac:(lia)) as Hm.
  destruct (Z.ltb_spec n 10) as [Hlt|Hge].
  - exists (String (digit_char (n mod 10)) "").
    rewrite Z.mod_small by lia.
    split; [by rewrite app_cons|].
    split; [cbn; by rewrite digit_char_digit by lia|].
    unfold digits_val. cbn [dval]. rewrite digit_char_val by lia.
    change (slen (String (digit_char n) "")) with 1.
    split; [lia|]. intros _. split; [lia|]. split; [lia|].
    intros. change (10 ^ (1 - 1)) with 1. lia.
  - rewrite Nat2Z.inj_succ, Z.pow_succ_r in Hn by lia.
    pose proof (Z.div_mod n 10 ltac:(lia)) as Hdm.
    assert (1 <= n / 10 < 2 ^ Z.of_nat fuel) as Hq.
    { split; [apply Z.div_le_lower_bound; lia|].
      apply Z.div_lt_upper_bound; lia. }
    destruct (IH (n / 10) (String (digit_char (n mod 10)) acc)) as
      (ds & -> & Hds & Hval & Hlen); [lia|].
    assert (0 < Z.of_nat fuel) as Hf.
    { destruct fuel; [|lia]. cbn in Hq. lia. }
    destruct (Hlen Hf) as (Hl1 & _ & Hl2).
    exists (ds +:+ String (digit_char (n mod 10)) "").
    split; [by rewrite app_assoc_str, app_cons|].
    split; [rewrite all_digits_app, Hds; cbn; by rewrite digit_char_digit by lia|].
    rewrite digits_val_app, Hval, slen_app.
    change (slen (String (digit_char (n mod 10)) "")) with 1.
    unfold digits_val. cbn [dval]. rewrite digit_char_val by lia.
    split; [lia|]. intros _. split; [lia|]. split; [lia|]. intros _.
    replace (slen ds + 1 - 1) with (Z.succ (slen ds - 1)) by lia.
    rewrite Z.pow_succ_r by lia. specialize (Hl2 ltac:(lia)). lia.
Qed.

Lemma print_fuel n : 0 <= n -> n < 2 ^ Z.of_nat (S (Z.to_nat (Z.log2 n))).
Proof.
  intros Hn. rewrite Nat2Z.inj_succ, Z2Nat.id by apply Z.log2_nonneg.
  destruct (decide (n = 0)) as [->|]; [done|]. apply Z.log2_spec. lia.
Qed.

Lemma print_nonneg_spec n : 0 <= n ->
  all_digits (print_nonneg n) = true /\ digits_val (print_nonneg n) = n /\
  1 <= slen (print_nonneg n) /\ (n = 0 -> slen (print_nonneg n) = 1) /\
  (0 < n -> 10 ^ (slen (print_nonneg n) - 1) <= n).
Proof.
  intros Hn. unfold print_nonneg.
  destruct (print_go_spec (S (Z.to_nat (Z.log2 n))) n "") as
    (ds & Heq & Hd & Hv & Hl).
  { split; [done|]. by apply print_fuel. }
  rewrite Heq, app_nil_r_str. specialize (Hl ltac:(lia)). tauto.
Qed.

Lemma print_nonneg_digits n : 0 <= n -> all_digits (print_nonneg n) = true.
Proof. apply print_nonneg_spec. Qed.

Lemma print_nonneg_val n : 0 <= n -> digits_val (print_nonneg n) = n.
Proof. apply print_nonneg_spec. Qed.

(** A number has at most [p] digits exactly when it is below [10 ^ p]. *)
Lemma print_nonneg_len n p : 0 <= n -> 1 <= p ->
  slen (print_nonneg n) <= p <-> n < 10 ^ p.
Proof.
  intros Hn Hp. destruct (print_nonneg_spec n Hn) as (Hd & Hv & Hl & H0 & Hl2).
  split; intros H.
  - pose proof (digits_val_bound _ Hd) as Hb. rewrite Hv in Hb.
    assert (10 ^ slen (print_nonneg n) <= 10 ^ p); [|lia].
    apply Z.pow_le_mono_r; lia.
  - destruct (decide (n = 0)) as [E|]; [rewrite H0 by done; lia|].
    specialize (Hl2 ltac:(lia)).
    destruct (Z.le_gt_cases (slen (print_nonneg n)) p); [done|].
    assert (10 ^ p <= 10 ^ (slen (print_nonneg n) - 1)); [|lia].
    apply Z.pow_le_mono_r; lia.
Qed.

Lemma nonempty_slen s : nonempty s = true <-> 1 <= slen s.
Proof. destruct s; [unfold slen; cbn|rewrite slen_cons; pose proof (slen_nonneg s); cbn]; split; done || lia. Qed.

Lemma print_nonneg_re n : 0 <= n -> re_digits (print_nonneg n) = true.
Proof.
  intros Hn. destruct (print_nonneg_spec n Hn) as (Hd & _ & Hl & _).
  unfold re_digits. apply andb_true_iff. split; [by apply nonempty_slen|done].
Qed.

Lemma bigint_toString_nonneg n : 0 <= n -> bigint_toString n = print_nonneg n.
Proof. intros. unfold bigint_toString. destruct (Z.ltb_spec n 0); [lia|done]. Qed.

(** ** [BigInt(s)] on a string

    White space is trimmed; the empty string is zero; a decimal literal may
    carry a sign; the prefixes [0x], [0o] and [0b] may not. [None] is the
    [SyntaxError] the conversion throws. *)

Definition js_space (c : ascii) : bool :=
  let n := nat_of_ascii c in (9 <=? n)%nat && (n <=? 13)%nat || (n =? 32)%nat.

Fixpoint strip_start (p : ascii -> bool) (s : string) : string :=
  match s with
  | EmptyString => EmptyString
  | String c s' => if p c then strip_start p s' else s
  end.

Fixpoint strip_end (p : ascii -> bool) (s : string) : string :=
  match s with
  | EmptyString => EmptyString
  | String c s' =>
      match strip_end p s' with
      | EmptyString => if p c then EmptyString else String c EmptyString
      | t => String c t
      end
  end.

Definition radix_digit (c : ascii) : Z :=
  let n := Z.of_nat (nat_of_ascii c) in
  if (48 <=? n) && (n <=? 57) then n - 48
  else if (97 <=? n) && (n <=? 102) then n - 87
  else if (65 <=? n) && (n <=? 70) then n - 55
  else 99.

Fixpoint radix_val (r : Z) (acc : Z) (s : string) : option Z :=
  match s with
  | EmptyString => Some acc
  | String c s' =>
      if radix_digit c <? r then radix_val r (acc * r + radix_digit c) s' else None
  end.

Definition radix_literal (r : Z) (s : string) : option Z :=
  if nonempty s then radix_val r 0 s else None.

Definition decimal_literal (s : string) : option Z :=
  if re_digits s then Some (digits_val s) else None.

Definition js_BigInt (s : string) : option Z :=
  let t := strip_end js_space (strip_start js_space s) in
  match t with
  | EmptyString => Some 0
  | String "-" s' => Z.opp <$> decimal_literal s'
  | String "+" s' => decimal_literal s'
  | String "0" (String "x" s') | String "0" (String "X" s') => radix_literal 16 s'
  | String "0" (String "o" s') | String "0" (String "O" s') => radix_literal 8 s'
  | String "0" (String "b" s') | String "0" (String "B" s') => radix_literal 2 s'
  | _ => decimal_literal t
  end.

Lemma is_digit_not_space c : is_digit c = true -> js_space c = false.
Proof.
  unfold is_digit, js_space. intros [H1 H2]%andb_true_iff.
  apply Z.leb_le in H1. apply Z.leb_le in H2.
  apply orb_false_iff. split; [apply andb_false_iff; right|].
  - apply Nat.leb_gt. lia.
  - apply Nat.eqb_neq. lia.
Qed.

Lemma strip_start_digits s :
  all_digits s = true -> strip_start js_space s = s.
Proof.
  destruct s as [|c s]; [done|]. cbn [all_digits strip_start].
  intros [Hc _]%andb_true_iff. by rewrite is_digit_not_space.
Qed.

Lemma strip_end_digits s : all_digits s = true -> strip_end js_space s = s.
Proof.
  induction s as [|c s IH]; [done|]. cbn [all_digits strip_end].
  intros [Hc Hs]%andb_true_iff. rewrite IH, is_digit_not_space by done.
  by destruct s.
Qed.

(** The code only converts strings of digits, where [BigInt] is plain decimal. *)
Lemma js_BigInt_digits s : all_digits s = true -> js_BigInt s = Some (digits_val s).
Proof.
  intros H. unfold js_BigInt.
  rewrite strip_start_digits, strip_end_digits by done.
  destruct s as [|c s]; [done|].
  assert (decimal_literal (String c s) = Some (digits_val (String c s))) as E.
  { unfold decimal_literal, re_digits. cbn [nonempty]. by rewrite H. }
  cbn [all_digits] in H. apply andb_true_iff in H as [Hc Hs].
  destruct c as [[] [] [] [] [] [] [] []]; try discriminate Hc; try exact E.
  destruct s as [|c' s]; [exact E|]. cbn [all_digits] in Hs.
  apply andb_true_iff in Hs as [Hc' _].
  destruct c' as [[] [] [] [] [] [] [] []]; try discriminate Hc'; exact E.
Qed.

Lemma js_BigInt_print n : 0 <= n -> js_BigInt (print_nonneg n) = Some n.
Proof.
  intros. rewrite js_BigInt_digits by by apply print_nonneg_digits.
  by rewrite print_nonneg_val.
Qed.

(** ** [split], [slice], [repeat], [padStart] *)

(** [s.split(c)] for a one-character separator. *)
Fixpoint split_on (c : ascii) (s : string) : list string :=
  match s with
  | EmptyString => [EmptyString]
  | String d s' =>
      if Ascii.eqb c d then EmptyString :: split_on c s'
      else match split_on c s' with
           | [] => [String d EmptyString]
           | t :: ts => String d t :: ts
           end
  end.

Fixpoint str_take (n : nat) (s : string) : string :=
  match n, s with
  | S n', String c s' => String c (str_take n' s')
  | _, _ => EmptyString
  end.

Fixpoint str_drop (n : nat) (s : string) : string :=
  match n, s with
  | S n', String _ s' => str_drop n' s'
  | _, _ => s
  end.

(** ["0".repeat(n)] *)
Fixpoint zeros (n : nat) : string :=
  match n with O => EmptyString | S n' => String "0" (zeros n') end.

(** [s.padStart(n, "0")] *)
Definition pad_start (n : nat) (s : string) : string :=
  zeros (n - String.length s) +:+ s.

Fixpoint no_char (c : ascii) (s : string) : bool :=
  match s with
  | EmptyString => true
  | String d s' => negb (Ascii.eqb c d) && no_char c s'
  end.

Lemma split_on_none c s : no_char c s = true -> split_on c s = [s].
Proof.
  induction s as [|d s IH]; [done|]. cbn [no_char split_on].
  intros [Hd Hs]%andb_true_iff. apply negb_true_iff in Hd.
  by rewrite Hd, (IH Hs).
Qed.

Lemma split_on_app c s t :
  no_char c s = true -> split_on c (s +:+ String c t) = s :: split_on c t.
Proof.
  induction s as [|d s IH]; intros H.
  - rewrite app_nil_str. cbn [split_on]. by rewrite Ascii.eqb_refl.
  - rewrite app_cons. cbn [no_char split_on] in *.
    apply andb_true_iff in H as [Hd Hs]. apply negb_true_iff in Hd.
    by rewrite Hd, (IH Hs).
Qed.

Lemma digits_no_char c s :
  is_digit c = false -> all_digits s = true -> no_char c s = true.
Proof.
  intros Hc. induction s as [|d s IH]; [done|]. cbn [all_digits no_char].
  intros [Hd Hs]%andb_true_iff. rewrite (IH Hs), andb_true_r.
  destruct (Ascii.eqb_spec c d); [congruence|done].
Qed.

Lemma zeros_digits n : all_digits (zeros n) = true.
Proof. by induction n. Qed.

Lemma zeros_val n : digits_val (zeros n) = 0.
Proof.
  unfold digits_val. induction n as [|n IH]; [done|]. cbn [zeros dval].
  by change (0 * 10 + digit_val "0") with 0.
Qed.

Lemma zeros_len n : slen (zeros n) = Z.of_nat n.
Proof. induction n as [|n IH]; [done|]. cbn [zeros]. rewrite slen_cons. lia. Qed.

Lemma pad_start_digits n s :
  all_digits s = true -> all_digits (pad_start n s) = true.
Proof. intros H. unfold pad_start. by rewrite all_digits_app, zeros_digits. Qed.

Lemma pad_start_val n s : digits_val (pad_start n s) = digits_val s.
Proof. unfold pad_start. rewrite digits_val_app, zeros_val. lia. Qed.

Lemma pad_start_len n s :
  slen (pad_start n s) = Z.max (Z.of_nat n) (slen s).
Proof. unfold pad_start. rewrite slen_app, zeros_len. unfold slen. lia. Qed.

Lemma take_drop_str n s : str_take n s +:+ str_drop n s = s.
Proof.
  revert s. induction n as [|n IH]; intros s; [done|].
  destruct s as [|c s]; [done|]. cbn. rewrite app_cons. by rewrite IH.
Qed.

Lemma str_take_len n s : slen (str_take n s) = Z.min (Z.of_nat n) (slen s).
Proof.
  revert s. induction n as [|n IH]; intros s.
  - cbn [str_take]. pose proof (slen_nonneg s). unfold slen at 1. cbn. lia.
  - destruct s as [|c s]; [unfold slen; cbn; lia|].
    cbn [str_take]. rewrite !slen_cons, IH. lia.
Qed.

Lemma str_take_digits n s :
  all_digits s = true -> all_digits (str_take n s) = true.
Proof.
  intros H. rewrite <- (take_drop_str n s), all_digits_app in H.
  by apply andb_true_iff in H as [??].
Qed.

Lemma str_drop_digits n s :
  all_digits s = true -> all_digits (str_drop n s) = true.
Proof.
  intros H. rewrite <- (take_drop_str n s), all_digits_app in H.
  by apply andb_true_iff in H as [??].
Qed.

Lemma str_drop_len n s : slen (str_drop n s) = Z.max 0 (slen s - Z.of_nat n).
Proof.
  pose proof (slen_app (str_take n s) (str_drop n s)) as H.
  rewrite take_drop_str, str_take_len in H. lia.
Qed.

(** Taking the leading [n] digits divides by a power of ten. *)
Lemma digits_val_take n s : all_digits s = true -> Z.of_nat n <= slen s ->
  digits_val (str_take n s) = digits_val s / 10 ^ (slen s - Z.of_nat n).
Proof.
  intros H Hn.
  pose proof (digits_val_app (str_take n s) (str_drop n s)) as E.
  rewrite take_drop_str in E.
  pose proof (digits_val_bound _ (str_drop_digits n s H)) as Hb.
  rewrite str_drop_len, Z.max_r in E, Hb by lia.
  rewrite E. symmetry. rewrite Z.div_add_l by lia.
  rewrite Z.div_small by lia. lia.
Qed.

Lemma str_take_app_l n s t : Z.of_nat n <= slen s ->
  str_take n (s +:+ t) = str_take n s.
Proof.
  revert s. induction n as [|n IH]; intros s H; [done|].
  destruct s as [|c s]; [unfold slen in H; cbn in H; lia|].
  rewrite app_cons. cbn [str_take]. rewrite slen_cons in H. f_equal. apply IH. lia.
Qed.

(** ** [replace(/0+$/, "")] and [replace(/\.?0+$/, "")] *)

Definition is_zero (c : ascii) : bool := Ascii.eqb c "0".
Definition is_dot (c : ascii) : bool := Ascii.eqb c ".".

Definition strip_zeros (s : string) : string := strip_end is_zero s.

(** Remove one trailing dot. *)
Fixpoint strip_one_dot (s : string) : string :=
  match s with
  | EmptyString => EmptyString
  | String c EmptyString => if is_dot c then EmptyString else s
  | String c s' => String c (strip_one_dot s')
  end.

(** The match of [\.?0+$] starts at the maximal run of trailing zeros, or at a
    dot just before it; without a trailing zero there is no match. *)
Definition strip_dot_zeros (s : string) : string :=
  let t := strip_zeros s in
  if (String.length t =? String.length s)%nat then s else strip_one_dot t.

Lemma strip_zeros_spec s : exists n, s = strip_zeros s +:+ zeros n.
Proof.
  unfold strip_zeros. induction s as [|c s [n IH]]; [by exists O|].
  cbn [strip_end]. destruct (strip_end is_zero s) as [|d t] eqn:E.
  - destruct (is_zero c) eqn:Hc.
    + apply Ascii.eqb_eq in Hc as ->. exists (S n). rewrite IH. done.
    + exists n. rewrite IH at 1. done.
  - exists n. rewrite IH at 1. by rewrite !app_cons.
Qed.

Lemma strip_end_zeros s n : strip_zeros (s +:+ zeros n) = strip_zeros s.
Proof.
  unfold strip_zeros. induction s as [|c s IH].
  - rewrite app_nil_str. induction n as [|n IH]; [done|]. cbn. by rewrite IH.
  - rewrite app_cons. cbn [strip_end]. by rewrite IH.
Qed.

Lemma strip_end_app_ne p s t :
  strip_end p t ≠ "" -> strip_end p (s +:+ t) = s +:+ strip_end p t.
Proof.
  intros Ht. induction s as [|c s IH]; [done|].
  rewrite !app_cons. cbn [strip_end]. rewrite IH.
  destruct (s +:+ strip_end p t) eqn:E; [|done].
  destruct s; [by rewrite app_nil_str in E|discriminate E].
Qed.

Lemma strip_one_dot_app s c t :
  strip_one_dot (s +:+ String c t) = s +:+ strip_one_dot (String c t).
Proof.
  induction s as [|d s IH]; [done|]. rewrite !app_cons.
  cbn [strip_one_dot]. rewrite IH. destruct (s +:+ String c t) eqn:E; [|done].
  destruct s; discriminate E.
Qed.

Lemma strip_one_dot_digits s : all_digits s = true -> strip_one_dot s = s.
Proof.
  induction s as [|c s IH]; [done|]. cbn [all_digits strip_one_dot].
  intros [Hc Hs]%andb_true_iff. rewrite IH by done. destruct s; [|done].
  unfold is_dot. destruct (Ascii.eqb_spec c "."); [by subst|done].
Qed.

(** On a rendered decimal [w.f], stripping keeps the value: either a fraction
    with fewer trailing zeros remains, or the point goes too. *)
Lemma strip_dot_zeros_decimal w f :
  all_digits f = true -> nonempty f = true ->
  exists f' n, f = f' +:+ zeros n /\ all_digits f' = true /\
    ((nonempty f' = true /\ strip_dot_zeros (w +:+ String "." f) = w +:+ String "." f') \/
     (f' = "" /\ strip_dot_zeros (w +:+ String "." f) = w)).
Proof.
  intros Hf Hne. destruct (strip_zeros_spec f) as [n Hn].
  exists (strip_zeros f), n. split; [done|].
  assert (all_digits (strip_zeros f) = true) as Hd.
  { rewrite Hn, all_digits_app in Hf. by apply andb_true_iff in Hf as [??]. }
  split; [done|]. unfold strip_dot_zeros.
  assert (strip_zeros (w +:+ String "." f) = w +:+ String "." (strip_zeros f)) as ->.
  { unfold strip_zeros. rewrite strip_end_app_ne; cbn [strip_end is_zero Ascii.eqb];
      destruct (strip_end is_zero f) eqn:E; done. }
  destruct (strip_zeros f) as [|d t] eqn:E.
  - right. split; [done|].
    assert (n ≠ O) as Hn0 by (intros ->; rewrite Hn in Hne; done).
    assert (slen (w +:+ String "." "") ≠ slen (w +:+ String "." f)) as Hlen.
    { rewrite !slen_app, !slen_cons, Hn, app_nil_str, zeros_len. unfold slen at 2. cbn. lia. }
    destruct (Nat.eqb_spec (String.length (w +:+ String "." ""))
      (String.length (w +:+ String "." f))) as [El|_]; [unfold slen in Hlen; lia|].
    rewrite strip_one_dot_app. apply app_nil_r_str.
  - left. split; [done|].
    destruct (Nat.eqb_spec (String.length (w +:+ String "." (String d t)))
      (String.length (w +:+ String "." f))) as [El|_].
    + f_equal. f_equal. rewrite Hn. destruct n; [by rewrite app_nil_r_str|].
      assert (slen (w +:+ String "." (String d t)) = slen (w +:+ String "." f)) as Hl
        by (unfold slen; lia).
      rewrite !slen_app, !slen_cons, Hn, slen_app, zeros_len, slen_cons in Hl. lia.
    + rewrite strip_one_dot_app. f_equal. cbn [strip_one_dot]. f_equal.
      change (strip_one_dot (String d t) = String d t). by apply strip_one_dot_digits.
Qed.

(** ** Leading digits and the decimal pattern *)

(** The longest prefix of digits, and the rest. *)
Fixpoint span_digits (s : string) : string * string :=
  match s with
  | EmptyString => ("", "")
  | String c s' =>
      if is_digit c then let '(d, r) := span_digits s' in (String c d, r)
      else ("", s)
  end.

Lemma span_digits_app ds rest :
  all_digits ds = true ->
  match rest with String c _ => is_digit c = false | _ => True end ->
  span_digits (ds +:+ rest) = (ds, rest).
Proof.
  intros Hd Hr. induction ds as [|c ds IH].
  - rewrite app_nil_str. destruct rest as [|c rest]; [done|]. cbn. by rewrite Hr.
  - cbn [all_digits] in Hd. apply andb_true_iff in Hd as [Hc Hd].
    rewrite app_cons. cbn [span_digits]. by rewrite Hc, (IH Hd).
Qed.

(** [/^\d+(\.\d+)?$/.test(s)] *)
Definition re_decimal (s : string) : bool :=
  let '(d, rest) := span_digits s in
  nonempty d &&
  match rest with
  | EmptyString => true
  | String "." f => re_digits f
  | _ => false
  end.

Lemma span_digits_spec s :
  let '(d, r) := span_digits s in
  s = d +:+ r /\ all_digits d = true /\
  match r with String c _ => is_digit c = false | _ => True end.
Proof.
  induction s as [|c s IH]; [done|]. cbn [span_digits].
  destruct (is_digit c) eqn:Hc; [|done].
  destruct (span_digits s) as [d r]. destruct IH as (-> & Hd & Hr).
  split; [done|]. cbn [all_digits]. by rewrite Hc, Hd.
Qed.

(** A string of the decimal pattern is [w] or [w.f], [w] and [f] of digits. *)
Lemma re_decimal_spec s : re_decimal s = true ->
  exists w f, re_digits w = true /\ all_digits f = true /\
    split_on "." s = w :: (if nonempty f then [f] else []) /\
    s = (if nonempty f then w +:+ String "." f else w).
Proof.
  unfold re_decimal. pose proof (span_digits_spec s) as Hs.
  destruct (span_digits s) as [w r]. destruct Hs as (-> & Hd & Hr).
  intros [Hne H]%andb_true_iff.
  assert (no_char "." w = true) as Hn by (by apply digits_no_char).
  assert (re_digits w = true) as Hw by (unfold re_digits; by rewrite Hne, Hd).
  destruct r as [|c f].
  - exists w, "". rewrite app_nil_r_str. split_and!; try done. by apply split_on_none.
  - destruct c as [[] [] [] [] [] [] [] []]; try discriminate H.
    exists w, f. apply andb_true_iff in H as [Hfn Hfd]. rewrite Hfn.
    split_and!; try done. rewrite split_on_app by done. f_equal.
    apply split_on_none. by apply digits_no_char.
Qed.

Lemma re_decimal_int w : re_digits w = true -> re_decimal w = true.
Proof.
  intros [Hne Hd]%andb_true_iff. unfold re_decimal.
  rewrite <- (app_nil_r_str w), span_digits_app by done. by rewrite Hne.
Qed.

Lemma re_decimal_frac w f : re_digits w = true -> re_digits f = true ->
  re_decimal (w +:+ String "." f) = true.
Proof.
  intros [Hne Hd]%andb_true_iff Hf. unfold re_decimal.
  rewrite span_digits_app by done. by rewrite Hne, Hf.
Qed.

(** ** Searching *)

(** [s.toLowerCase()] on the ASCII letters. *)
Definition lower_char (c : ascii) : ascii :=
  let n := nat_of_ascii c in
  if (65 <=? n)%nat && (n <=? 90)%nat then ascii_of_nat (n + 32) else c.

Fixpoint str_lower (s : string) : string :=
  match s with
  | EmptyString => EmptyString
  | String c s' => String (lower_char c) (str_lower s')
  end.

(** [s.toUpperCase()] on the ASCII letters. *)
Definition upper_char (c : ascii) : ascii :=
  let n := nat_of_ascii c in
  if (97 <=? n)%nat && (n <=? 122)%nat then ascii_of_nat (n - 32) else c.

Fixpoint str_upper (s : string) : string :=
  match s with
  | EmptyString => EmptyString
  | String c s' => String (upper_char c) (str_upper s')
  end.

(** What is left of [s] after the prefix [p]. *)
Fixpoint after_prefix (p s : string) : option string :=
  match p, s with
  | EmptyString, _ => Some s
  | String c p', String d s' => if Ascii.eqb c d then after_prefix p' s' else None
  | _, _ => None
  end.

(** The rests of [s] after each occurrence of [p]. *)
Fixpoint occurrences (p s : string) : list string :=
  (match after_prefix p s with Some r => [r] | None => [] end) ++
  match s with EmptyString => [] | String _ s' => occurrences p s' end.

(** [s.includes(p)] *)
Definition str_includes (p s : string) : bool :=
  match occurrences p s with [] => false | _ => true end.

(** The first line of a text. *)
Fixpoint first_line (s : string) : string :=
  match s with
  | EmptyString => EmptyString
  | String c s' =>
      let n := nat_of_ascii c in
      if (n =? 10)%nat || (n =? 13)%nat then EmptyString else String c (first_line s')
  end.

(** Where the pattern is [a.+b.+c], [a], [b] and [c] texts: the wildcards stay
    on a line and match at least one character. *)
Definition re_gaps (a b c s : string) : bool :=
  existsb (fun r1 =>
    existsb (fun r2 => str_includes c (str_drop 1 r2))
      (occurrences b (str_drop 1 (first_line r1))))
    (occurrences a s).
