(* ===== verification/JsNumbers.v ===== *)
(** * JavaScript numbers and their arithmetic

    A finite double is a dyadic rational [mant * 2 ^ expo]; the model keeps
    the exact value. [NaN] and the infinities never reach the modelled code:
    IBEX balances come from JSON, which cannot carry them. First comes what
    the code asks of numbers: [Number.isInteger], [Number.isSafeInteger],
    [BigInt(n)], [toFixed] and comparison with a decimal constant. Then their
    arithmetic: the result of an operation is the exact result rounded to 53
    significant bits, ties to even ([rnd]). The exponent is not bounded:
    dollars and percentages are nowhere near the ends of its range.
    [Number(s)] rounds the decimal in the same way, and is not finite from
    [2 ^ 1024] on. The lemmas bound the error, show that rounding is monotone
    and exact on integers, and so that dollars and cents convert faithfully. *)

From stdpp Require Import base list strings.
From Stdlib Require Import ZArith Lia Ascii QArith Lqa Qpower Qabs.
From S2P Require Import Prelude JsStrings.

Close Scope Q_scope.
Open Scope Z_scope.

Record js_num := JsNum { mant : Z; expo : Z }.

Definition num_of_Z (z : Z) : js_num := JsNum z 0.

Definition num_isInteger (x : js_num) : bool :=
  if 0 <=? expo x then true else mant x mod 2 ^ (- expo x) =? 0.

(** [BigInt(x)] of an integral number. *)
Definition num_to_Z (x : js_num) : Z :=
  if 0 <=? expo x then mant x * 2 ^ expo x else mant x / 2 ^ (- expo x).

Definition MAX_SAFE_INTEGER : Z := 2 ^ 53 - 1.

Definition num_isSafeInteger (x : js_num) : bool :=
  num_isInteger x && (Z.abs (num_to_Z x) <=? MAX_SAFE_INTEGER).

(** [n] with [n / 10 ^ f] closest to [|x|], the larger one of two. *)
Definition fixed_scaled (f : nat) (x : js_num) : Z :=
  let a := Z.abs (mant x) * 10 ^ Z.of_nat f in
  if 0 <=? expo x then a * 2 ^ expo x
  else (2 * a + 2 ^ (- expo x)) / (2 * 2 ^ (- expo x)).

(** [|x| < 10 ^ 21], below which [toFixed] does not use an exponent. *)
Definition num_fixed_range (x : js_num) : bool :=
  if 0 <=? expo x then Z.abs (mant x) * 2 ^ expo x <? 10 ^ 21
  else Z.abs (mant x) <? 10 ^ 21 * 2 ^ (- expo x).

(** Decimal rendering of [n / 10 ^ f], [f] digits after the point. *)
Definition render_fixed (f : nat) (n : Z) : string :=
  let s := pad_start (S f) (print_nonneg n) in
  let k := (String.length s - f)%nat in
  match f with
  | O => s
  | _ => str_take k s +:+ String "." (str_drop k s)
  end.

(** [x.toFixed(f)]; [None] stands for the exponent notation of numbers from
    [10 ^ 21] on, which no decimal pattern of the code accepts. *)
Definition num_toFixed (f : nat) (x : js_num) : option string :=
  if num_fixed_range x then
    let s := render_fixed f (fixed_scaled f x) in
    Some (if mant x <? 0 then String "-" s else s)
  else None.

(** The exact comparison [x < p / 10 ^ k]. *)
Definition num_ltb_dec (x : js_num) (p k : Z) : bool :=
  if 0 <=? expo x then mant x * 2 ^ expo x * 10 ^ k <? p
  else mant x * 10 ^ k <? p * 2 ^ (- expo x).

Lemma num_of_Z_safe z :
  Z.abs z <= MAX_SAFE_INTEGER -> num_isSafeInteger (num_of_Z z) = true.
Proof.
  intros H. unfold num_isSafeInteger, num_isInteger, num_to_Z, num_of_Z. cbn.
  rewrite Z.mul_1_r. by apply Z.leb_le.
Qed.

Lemma num_of_Z_val z : num_to_Z (num_of_Z z) = z.
Proof. unfold num_to_Z, num_of_Z. cbn. lia. Qed.

Lemma fixed_scaled_nonneg f x : 0 <= fixed_scaled f x.
Proof.
  unfold fixed_scaled. pose proof (pow10_pos (Z.of_nat f) ltac:(lia)).
  destruct (Z.leb_spec 0 (expo x)).
  - pose proof (Z.pow_nonneg 2 (expo x)). nia.
  - apply Z.div_pos; [|pose proof (Z.pow_pos_nonneg 2 (- expo x)); lia].
    pose proof (Z.pow_nonneg 2 (- expo x)). nia.
Qed.

(** A rendering with a fraction is [w.f'] with its parts made of digits, and
    read back as digits it is the number rendered. *)
Lemma render_fixed_spec f n : 0 <= n -> (0 < f)%nat ->
  exists w fr, render_fixed f n = w +:+ String "." fr /\
    all_digits w = true /\ nonempty w = true /\ all_digits fr = true /\
    slen fr = Z.of_nat f /\ digits_val w * 10 ^ Z.of_nat f + digits_val fr = n.
Proof.
  intros Hn Hf. unfold render_fixed.
  set (s := pad_start (S f) (print_nonneg n)).
  set (k := (String.length s - f)%nat).
  assert (all_digits s = true) as Hs
    by (apply pad_start_digits, print_nonneg_digits; done).
  assert (Z.of_nat f + 1 <= slen s) as Hlen
    by (subst s; rewrite pad_start_len; lia).
  assert (Z.of_nat k = slen s - Z.of_nat f) as Hk by (subst k; unfold slen in *; lia).
  assert (slen (str_drop k s) = Z.of_nat f) as Hd by (rewrite str_drop_len; lia).
  exists (str_take k s), (str_drop k s).
  split; [by destruct f; [lia|]|].
  split; [by apply str_take_digits|].
  split; [apply nonempty_slen; rewrite str_take_len; lia|].
  split; [by apply str_drop_digits|]. split; [done|].
  rewrite <- Hd, <- digits_val_app, take_drop_str. subst s.
  rewrite pad_start_val. by apply print_nonneg_val.
Qed.

(** ** Rounding *)

(** The integer closest to [n / m], the even one of two. *)
Definition rne (n m : Z) : Z :=
  let q := n / m in
  let r := n mod m in
  if 2 * r <? m then q
  else if m <? 2 * r then q + 1
  else if Z.even q then q else q + 1.

(** The exponent of [a / d]: [2 ^ k <= a / d < 2 ^ (k + 1)]. *)
Definition ilog2 (a d : Z) : Z :=
  let k := Z.log2 a - Z.log2 d in
  if (if 0 <=? k then d * 2 ^ k <=? a else d <=? a * 2 ^ (- k)) then k else k - 1.

Definition rnd_pos (a d : Z) : js_num :=
  let e := ilog2 a d - 52 in
  JsNum (rne (if 0 <=? e then a else a * 2 ^ (- e)) (if 0 <=? e then d * 2 ^ e else d)) e.

(** The double closest to [n / d], for [d] positive. *)
Definition rnd (n d : Z) : js_num :=
  if n =? 0 then JsNum 0 0
  else if 0 <? n then rnd_pos n d
  else let x := rnd_pos (- n) d in JsNum (- mant x) (expo x).

(** [m * 2 ^ e / d] rounded. *)
Definition rnd_dyadic (m e d : Z) : js_num :=
  if 0 <=? e then rnd (m * 2 ^ e) d else rnd m (d * 2 ^ (- e)).

(** ** Operators *)

(** [x * y] *)
Definition num_mul (x y : js_num) : js_num := rnd_dyadic (mant x * mant y) (expo x + expo y) 1.

(** [x / k], [k] a positive integer. *)
Definition num_div_int (x : js_num) (k : Z) : js_num := rnd_dyadic (mant x) (expo x) k.

(** [x - y] *)
Definition num_sub (x y : js_num) : js_num :=
  let e := Z.min (expo x) (expo y) in
  rnd_dyadic (mant x * 2 ^ (expo x - e) - mant y * 2 ^ (expo y - e)) e 1.

(** [x < y] *)
Definition num_ltb (x y : js_num) : bool :=
  let e := Z.min (expo x) (expo y) in
  mant x * 2 ^ (expo x - e) <? mant y * 2 ^ (expo y - e).

(** [Math.min(x, y)] and [Math.max(x, y)] *)
Definition num_min (x y : js_num) : js_num := if num_ltb y x then y else x.
Definition num_max (x y : js_num) : js_num := if num_ltb x y then y else x.

(** [Math.round(x)]: the closest integer, the larger one of two. *)
Definition Math_round (x : js_num) : Z :=
  if 0 <=? expo x then mant x * 2 ^ expo x
  else (2 * mant x + 2 ^ (- expo x)) / (2 * 2 ^ (- expo x)).

(** ** [Number(s)] *)

Definition js_trim (s : string) : string := strip_end js_space (strip_start js_space s).

(** A text that is an optional sign and digits. *)
Definition signed_int (s : string) : option Z :=
  match s with
  | String "-" r => Z.opp <$> decimal_literal r
  | String "+" r => decimal_literal r
  | _ => decimal_literal s
  end.

(** The exponent part of a decimal, or nothing. *)
Definition exponent_part (s : string) : option Z :=
  match s with
  | EmptyString => Some 0
  | String "e" r | String "E" r => signed_int r
  | _ => None
  end.

(** [digits * 10 ^ k] *)
Definition decimal_rnd (n k : Z) : js_num :=
  if 0 <=? k then rnd (n * 10 ^ k) 1 else rnd n (10 ^ (- k)).

(** An unsigned decimal literal, with a fraction and an exponent. *)
Definition unsigned_decimal (s : string) : option js_num :=
  let '(w, r) := span_digits s in
  let '(f, r') := match r with String "." r1 => span_digits r1 | _ => (EmptyString, r) end in
  if nonempty (w +:+ f) then
    (fun e => decimal_rnd (digits_val (w +:+ f)) (e - slen f)) <$> exponent_part r'
  else None.

Definition num_opp (x : js_num) : js_num := JsNum (- mant x) (expo x).

(** Below [2 ^ 1024]. *)
Definition num_isFinite (x : js_num) : bool :=
  (mant x =? 0) || (Z.log2 (Z.abs (mant x)) + expo x <? 1024).

Definition finite (x : js_num) : option js_num := if num_isFinite x then Some x else None.

(** [Number(s)] where it is finite; [None] is [NaN] or an infinity. *)
Definition js_Number (s : string) : option js_num :=
  let t := js_trim s in
  match t with
  | EmptyString => Some (num_of_Z 0)
  | String "-" r => x ← unsigned_decimal r; finite (num_opp x)
  | String "+" r => x ← unsigned_decimal r; finite x
  | String "0" (String "x" r) | String "0" (String "X" r) =>
      n ← radix_literal 16 r; finite (rnd n 1)
  | String "0" (String "o" r) | String "0" (String "O" r) =>
      n ← radix_literal 8 r; finite (rnd n 1)
  | String "0" (String "b" r) | String "0" (String "B" r) =>
      n ← radix_literal 2 r; finite (rnd n 1)
  | _ => x ← unsigned_decimal t; finite x
  end.

(** ** Values *)

Definition num_val (x : js_num) : Q := (inject_Z (mant x) * (2 # 1) ^ expo x)%Q.

Notation "'two^' e" := ((2 # 1)%Q ^ e)%Q (at level 29, e at level 9, only parsing).

Lemma two_pow_pos e : (0 < two^ e)%Q.
Proof. by apply Qpower_0_lt. Qed.

Lemma two_pow_Z e : 0 <= e -> (inject_Z (2 ^ e) == two^ e)%Q.
Proof. intros. change (2 # 1)%Q with (inject_Z 2). by rewrite Zpower_Qpower. Qed.

Lemma two_pow_plus a b : (two^ (a + b) == two^ a * two^ b)%Q.
Proof. by apply Qpower_plus. Qed.

Lemma two_pow_opp e : (two^ (- e) * two^ e == 1)%Q.
Proof. rewrite <- two_pow_plus. replace (- e + e) with 0 by lia. reflexivity. Qed.

Lemma two_pow_le a b : a <= b -> (two^ a <= two^ b)%Q.
Proof. intros. by apply Qpower_le_compat_l. Qed.

(** ** Rounding to an integer *)

Lemma rne_close n m : 0 < m -> Z.abs (2 * (rne n m * m - n)) <= m.
Proof.
  intros Hm. unfold rne. pose proof (Z.div_mod n m ltac:(lia)) as E.
  pose proof (Z.mod_pos_bound n m Hm). set (q := n / m) in *. set (r := n mod m) in *.
  destruct (Z.ltb_spec (2 * r) m), (Z.ltb_spec m (2 * r)), (Z.even q); nia.
Qed.

(** A tie goes to the even side. *)
Lemma rne_tie n m q : 0 < m -> 2 * n = (2 * q + 1) * m -> rne n m = if Z.even q then q else q + 1.
Proof.
  intros Hm E. unfold rne.
  assert (n / m = q) as Eq by (symmetry; apply (Z.div_unique_pos n m q (n - q * m)); lia).
  assert (2 * (n mod m) = m) as Er by (pose proof (Z.div_mod n m ltac:(lia)); nia).
  rewrite Eq, Er, !Z.ltb_irrefl. done.
Qed.

Lemma rne_mono n1 m1 n2 m2 : 0 < m1 -> 0 < m2 -> n1 * m2 <= n2 * m1 -> rne n1 m1 <= rne n2 m2.
Proof.
  intros H1 H2 Hle. destruct (Z.le_gt_cases (rne n1 m1) (rne n2 m2)) as [|Hgt]; [done|exfalso].
  pose proof (rne_close n1 m1 H1) as C1. pose proof (rne_close n2 m2 H2) as C2.
  set (q2 := rne n2 m2) in *. set (q1 := rne n1 m1) in *.
  assert (2 * n1 >= (2 * q1 - 1) * m1) by nia. assert (2 * n2 <= (2 * q2 + 1) * m2) by nia.
  assert ((2 * q1 - 1) * (m1 * m2) <= (2 * q2 + 1) * (m1 * m2)) as Hc by nia.
  apply Z.mul_le_mono_pos_r in Hc; [|nia]. assert (q1 = q2 + 1) as Eq by lia.
  assert (2 * n1 = (2 * q2 + 1) * m1) as T1 by nia.
  assert (2 * n2 = (2 * q2 + 1) * m2) as T2 by nia.
  apply rne_tie in T1, T2; [|lia..]. subst q1 q2. rewrite T1, T2 in Eq. lia.
Qed.

Lemma rne_int q m : 0 < m -> rne (q * m) m = q.
Proof.
  intros. unfold rne. rewrite Z.div_mul, Z.mod_mul by lia.
  destruct (Z.ltb_spec (2 * 0) m); [done|lia].
Qed.

(** ** The exponent *)

Lemma ilog2_spec a d : 0 < a -> 0 < d ->
  (two^ (ilog2 a d) * inject_Z d <= inject_Z a)%Q /\
  (inject_Z a < two^ (ilog2 a d + 1) * inject_Z d)%Q.
Proof.
  intros Ha Hd. unfold ilog2. set (k := Z.log2 a - Z.log2 d).
  destruct (Z.log2_spec a Ha) as [A1 A2]. destruct (Z.log2_spec d Hd) as [D1 D2].
  assert (forall b, (b = true <-> (two^ k * inject_Z d <= inject_Z a)%Q) ->
    (two^ (k - 1) * inject_Z d <= inject_Z a)%Q -> (inject_Z a < two^ (k + 1) * inject_Z d)%Q ->
    (two^ (if b then k else k - 1) * inject_Z d <= inject_Z a)%Q /\
    (inject_Z a < two^ ((if b then k else k - 1) + 1) * inject_Z d)%Q) as Hb.
  { intros [] H L U.
    - split; [by apply H|done].
    - split; [done|]. replace (k - 1 + 1) with k by lia. apply Qnot_le_lt.
      intros Hle. by apply H in Hle. }
  assert (inject_Z (2 ^ Z.log2 a) <= inject_Z a)%Q as A1' by by rewrite <- Zle_Qle.
  assert (inject_Z a < inject_Z (2 ^ Z.succ (Z.log2 a)))%Q as A2' by by rewrite <- Zlt_Qlt.
  assert (inject_Z (2 ^ Z.log2 d) <= inject_Z d)%Q as D1' by by rewrite <- Zle_Qle.
  assert (inject_Z d < inject_Z (2 ^ Z.succ (Z.log2 d)))%Q as D2' by by rewrite <- Zlt_Qlt.
  pose proof (Z.log2_nonneg a). pose proof (Z.log2_nonneg d).
  rewrite two_pow_Z in A1', A2', D1', D2' by lia.
  apply Hb.
  - destruct (Z.leb_spec 0 k) as [Hk|Hk].
    + rewrite Z.leb_le, Zle_Qle, inject_Z_mult, two_pow_Z, Qmult_comm by done. done.
    + rewrite Z.leb_le, Zle_Qle, inject_Z_mult, two_pow_Z by lia.
      pose proof (two_pow_opp (- k)) as E. rewrite Z.opp_involutive in E.
      assert (two^ k * (inject_Z a * two^ (- k)) == inject_Z a)%Q as E'
        by (transitivity (inject_Z a * (two^ k * two^ (- k)))%Q; [ring|rewrite E; ring]).
      rewrite <- E' at 2. rewrite Qmult_le_l by apply two_pow_pos. done.
  - pose proof (two_pow_pos (k - 1)). apply Qle_trans with (two^ (k - 1) * two^ (Z.succ (Z.log2 d)))%Q.
    + apply Qmult_le_l; [done|]. by apply Qlt_le_weak.
    + rewrite <- two_pow_plus. by replace (k - 1 + Z.succ (Z.log2 d)) with (Z.log2 a) by lia.
  - apply Qlt_le_trans with (1 := A2'). replace (Z.succ (Z.log2 a)) with (k + 1 + Z.log2 d) by lia.
    rewrite two_pow_plus. apply Qmult_le_l; [apply two_pow_pos|done].
Qed.

(** ** Rationals *)

Lemma Qeq_le (x y : Q) : (x == y)%Q -> (x <= y)%Q.
Proof. intros ->. apply Qle_refl. Qed.

Lemma inject_Z_pos z : 0 < z -> (0 < inject_Z z)%Q.
Proof. intros. change 0%Q with (inject_Z 0). by rewrite <- Zlt_Qlt. Qed.

Lemma rne_close_Q n m : 0 < m -> (Qabs (inject_Z (rne n m) - inject_Z n / inject_Z m) <= 1 # 2)%Q.
Proof.
  intros Hm. pose proof (rne_close n m Hm) as C. set (q := rne n m) in *.
  pose proof (inject_Z_pos m Hm) as Hm'. apply Z.abs_le in C.
  assert (2 * (q * m) <= 2 * n + m) as C1 by lia. assert (2 * n <= 2 * (q * m) + m) as C2 by lia.
  rewrite Zle_Qle, !inject_Z_plus, !inject_Z_mult in C1, C2. change (inject_Z 2) with (2 # 1)%Q in *.
  assert (inject_Z n == inject_Z n / inject_Z m * inject_Z m)%Q as E by (field; lra).
  set (x := (inject_Z n / inject_Z m)%Q) in *. rewrite E in C1, C2.
  apply Qabs_Qle_condition. split; nra.
Qed.

(** ** Rounding of a positive rational *)

Section RndPos.
Variables a d : Z.
Hypothesis Ha : 0 < a.
Hypothesis Hd : 0 < d.

Let e := ilog2 a d - 52.
Let n := if 0 <=? e then a else a * 2 ^ (- e).
Let m := if 0 <=? e then d * 2 ^ e else d.

Lemma rnd_pos_eq : rnd_pos a d = JsNum (rne n m) e.
Proof. done. Qed.

Lemma rnd_pos_den : 0 < m.
Proof.
  unfold m. destruct (Z.leb_spec 0 e); [|done]. pose proof (Z.pow_pos_nonneg 2 e). nia.
Qed.

(** [n / m] is [a / d] in units of [2 ^ e]. *)
Lemma rnd_pos_scaled : (inject_Z n * (two^ e * inject_Z d) == inject_Z a * inject_Z m)%Q.
Proof.
  unfold n, m. destruct (Z.leb_spec 0 e).
  - rewrite inject_Z_mult, two_pow_Z by done. ring.
  - rewrite inject_Z_mult, two_pow_Z by lia.
    transitivity (inject_Z a * inject_Z d * (two^ (- e) * two^ e))%Q; [ring|].
    rewrite two_pow_opp. ring.
Qed.

Lemma rnd_pos_ratio : (inject_Z a / inject_Z d == inject_Z n / inject_Z m * two^ e)%Q.
Proof.
  pose proof (inject_Z_pos d Hd). pose proof (inject_Z_pos m rnd_pos_den).
  pose proof rnd_pos_scaled as E. apply (Qmult_inj_r _ _ (inject_Z d * inject_Z m)); [nra|].
  transitivity (inject_Z a * inject_Z m)%Q; [field; lra|]. rewrite <- E. field. lra.
Qed.

(** The significand has 53 bits. *)
Lemma rnd_pos_range : (two^ 52 <= inject_Z n / inject_Z m)%Q /\ (inject_Z n / inject_Z m <= two^ 53)%Q.
Proof.
  destruct (ilog2_spec a d Ha Hd) as [L U]. pose proof (inject_Z_pos d Hd) as Hd'.
  replace (ilog2 a d) with (52 + e) in L by (unfold e; lia).
  replace (ilog2 a d + 1) with (53 + e) in U by (unfold e; lia).
  rewrite two_pow_plus in L, U. pose proof (two_pow_pos e) as Hp. pose proof rnd_pos_ratio as E.
  split; apply (Qmult_le_r _ _ (two^ e)); [done| |done|]; rewrite <- E.
  - by apply Qle_shift_div_l.
  - apply Qle_shift_div_r; [done|]. by apply Qlt_le_weak.
Qed.

Lemma rnd_pos_mant : 2 ^ 52 <= mant (rnd_pos a d) <= 2 ^ 53.
Proof.
  rewrite rnd_pos_eq. cbn [mant]. pose proof rnd_pos_den as Hm. pose proof (inject_Z_pos m Hm) as Hm'.
  destruct rnd_pos_range as [L U]. rewrite <- two_pow_Z in L, U by lia.
  assert (inject_Z n / inject_Z m * inject_Z m == inject_Z n)%Q as E by (field; lra).
  assert (2 ^ 52 * m <= n) by (rewrite Zle_Qle, inject_Z_mult, <- E; by apply Qmult_le_r).
  assert (n <= 2 ^ 53 * m) by (rewrite Zle_Qle, inject_Z_mult, <- E; by apply Qmult_le_r).
  split; [rewrite <- (rne_int (2 ^ 52) m) by done|rewrite <- (rne_int (2 ^ 53) m) by done];
    apply rne_mono; nia.
Qed.

(** The relative error is at most [2 ^ -53]. *)
Lemma rnd_pos_error :
  (Qabs (num_val (rnd_pos a d) - inject_Z a / inject_Z d)
    <= (inject_Z a / inject_Z d) * two^ (-53))%Q.
Proof.
  rewrite rnd_pos_eq. unfold num_val. cbn [mant expo]. rewrite rnd_pos_ratio.
  pose proof (rne_close_Q n m rnd_pos_den) as C. destruct rnd_pos_range as [L _].
  pose proof (two_pow_pos e) as Hp. set (x := (inject_Z n / inject_Z m)%Q) in *.
  assert (inject_Z (rne n m) * two^ e - x * two^ e == (inject_Z (rne n m) - x) * two^ e)%Q as ->
    by ring.
  rewrite Qabs_Qmult, (Qabs_pos (two^ e)) by lra.
  apply Qle_trans with ((x * two^ (-53)) * two^ e)%Q; [|apply Qeq_le; ring].
  apply Qmult_le_r; [done|]. apply Qle_trans with (1 := C).
  apply Qle_trans with (two^ 52 * two^ (-53))%Q; [by apply Qeq_le|].
  apply Qmult_le_r; [apply two_pow_pos|done].
Qed.
End RndPos.

Lemma num_val_rnd_pos_range a d : 0 < a -> 0 < d ->
  (two^ (ilog2 a d) <= num_val (rnd_pos a d))%Q /\ (num_val (rnd_pos a d) <= two^ (ilog2 a d + 1))%Q.
Proof.
  intros Ha Hd. destruct (rnd_pos_mant a d Ha Hd) as [L U]. unfold num_val.
  change (expo (rnd_pos a d)) with (ilog2 a d - 52). set (e := ilog2 a d - 52).
  replace (ilog2 a d) with (52 + e) by lia. replace (52 + e + 1) with (53 + e) by lia.
  rewrite !two_pow_plus. pose proof (two_pow_pos e). rewrite Zle_Qle, two_pow_Z in L, U by lia.
  split; by apply Qmult_le_r.
Qed.

Lemma rnd_pos_mono a1 d1 a2 d2 : 0 < a1 -> 0 < d1 -> 0 < a2 -> 0 < d2 ->
  a1 * d2 <= a2 * d1 -> (num_val (rnd_pos a1 d1) <= num_val (rnd_pos a2 d2))%Q.
Proof.
  intros Ha1 Hd1 Ha2 Hd2 Hle.
  pose proof (inject_Z_pos d1 Hd1) as Hd1'. pose proof (inject_Z_pos d2 Hd2) as Hd2'.
  destruct (ilog2_spec a1 d1 Ha1 Hd1) as [L1 U1]. destruct (ilog2_spec a2 d2 Ha2 Hd2) as [L2 U2].
  destruct (num_val_rnd_pos_range a1 d1 Ha1 Hd1) as [_ V1].
  destruct (num_val_rnd_pos_range a2 d2 Ha2 Hd2) as [V2 _].
  destruct (Z.lt_trichotomy (ilog2 a1 d1) (ilog2 a2 d2)) as [Hlt|[E|Hgt]].
  - apply Qle_trans with (1 := V1). apply Qle_trans with (2 := V2). apply two_pow_le. lia.
  - clear V1 V2. rewrite !rnd_pos_eq. unfold num_val. cbn [mant expo]. rewrite <- E.
    apply Qmult_le_r; [apply two_pow_pos|]. rewrite <- Zle_Qle. apply rne_mono.
    + pose proof (rnd_pos_den a1 d1 Ha1 Hd1) as H. by rewrite E in H |- *.
    + pose proof (rnd_pos_den a2 d2 Ha2 Hd2) as H. by rewrite <- E in H.
    + set (e := ilog2 a1 d1 - 52). destruct (Z.leb_spec 0 e).
      * pose proof (Z.pow_pos_nonneg 2 e). nia.
      * pose proof (Z.pow_pos_nonneg 2 (- e)). nia.
  - exfalso. assert (two^ (ilog2 a2 d2 + 1) <= two^ (ilog2 a1 d1))%Q as Hp by (apply two_pow_le; lia).
    rewrite Zle_Qle, !inject_Z_mult in Hle.
    pose proof (two_pow_pos (ilog2 a1 d1)). set (p1 := two^ (ilog2 a1 d1)) in *.
    set (p2 := two^ (ilog2 a2 d2 + 1)) in *. clearbody p1 p2.
    assert (p1 * (inject_Z d1 * inject_Z d2) <= inject_Z a1 * inject_Z d2)%Q by nra.
    assert (inject_Z a2 * inject_Z d1 < p2 * (inject_Z d1 * inject_Z d2))%Q by nra.
    assert (p2 * (inject_Z d1 * inject_Z d2) <= p1 * (inject_Z d1 * inject_Z d2))%Q
      by (apply Qmult_le_r; [nra|done]). lra.
Qed.

(** Integers of 53 bits are doubles. *)
Lemma rnd_pos_int a : 0 < a <= 2 ^ 53 -> (num_val (rnd_pos a 1) == inject_Z a)%Q.
Proof.
  intros Ha. destruct (decide (a = 2 ^ 53)) as [->|Hne]; [by vm_compute|].
  assert (ilog2 a 1 = Z.log2 a) as El.
  { unfold ilog2. rewrite Z.log2_1, Z.sub_0_r. pose proof (Z.log2_nonneg a).
    destruct (Z.leb_spec 0 (Z.log2 a)); [|lia].
    destruct (Z.leb_spec (1 * 2 ^ Z.log2 a) a); [done|]. pose proof (Z.log2_spec a). lia. }
  assert (Z.log2 a < 53) by (apply Z.log2_lt_pow2; lia).
  rewrite rnd_pos_eq, El. set (e := Z.log2 a - 52). unfold num_val. cbn [mant expo].
  destruct (Z.leb_spec 0 e) as [He|He].
  - assert (e = 0) as -> by lia. replace (1 * 2 ^ 0) with 1 by done.
    rewrite <- (Z.mul_1_r a) at 1. rewrite rne_int by done. change (two^ 0)%Q with 1%Q. ring.
  - rewrite <- (Z.mul_1_r (a * 2 ^ (- e))), rne_int by done.
    rewrite inject_Z_mult, two_pow_Z by lia.
    transitivity (inject_Z a * (two^ (- e) * two^ e))%Q; [ring|]. rewrite two_pow_opp. ring.
Qed.

(** ** Rounding of a rational *)

Lemma num_val_opp x : (num_val (num_opp x) == - num_val x)%Q.
Proof. unfold num_val, num_opp. cbn. rewrite inject_Z_opp. ring. Qed.

Lemma rnd_neg n d : n < 0 -> rnd n d = num_opp (rnd_pos (- n) d).
Proof.
  intros. unfold rnd. destruct (Z.eqb_spec n 0); [lia|]. by destruct (Z.ltb_spec 0 n); [lia|].
Qed.
Lemma rnd_posE n d : 0 < n -> rnd n d = rnd_pos n d.
Proof.
  intros. unfold rnd. destruct (Z.eqb_spec n 0); [lia|]. by destruct (Z.ltb_spec 0 n); [|lia].
Qed.

Lemma num_val_rnd_pos_pos a d : 0 < a -> 0 < d -> (0 < num_val (rnd_pos a d))%Q.
Proof.
  intros Ha Hd. destruct (num_val_rnd_pos_range a d Ha Hd) as [L _].
  pose proof (two_pow_pos (ilog2 a d)). lra.
Qed.

Lemma rnd_error n d : 0 < d ->
  (Qabs (num_val (rnd n d) - inject_Z n / inject_Z d) <= Qabs (inject_Z n / inject_Z d) * two^ (-53))%Q.
Proof.
  intros Hd. pose proof (inject_Z_pos d Hd) as Hd'. pose proof (two_pow_pos (-53)).
  destruct (Z.lt_trichotomy n 0) as [Hn|[->|Hn]].
  - rewrite rnd_neg, num_val_opp by done. pose proof (rnd_pos_error (- n) d ltac:(lia) Hd) as H'.
    rewrite inject_Z_opp in H'. set (x := num_val (rnd_pos (- n) d)) in *.
    assert (- inject_Z n / inject_Z d == - (inject_Z n / inject_Z d))%Q as E by (field; lra).
    rewrite E in H'. set (y := (inject_Z n / inject_Z d)%Q) in *.
    rewrite <- (Qabs_opp (- x - y)). apply Qle_trans with (- y * two^ (-53))%Q.
    + apply Qle_trans with (2 := H'). apply Qeq_le, Qabs_wd. ring.
    + apply Qmult_le_r; [done|]. rewrite <- Qabs_opp. apply Qle_Qabs.
  - assert (inject_Z 0 / inject_Z d == 0)%Q as -> by (field; lra).
    assert (num_val (rnd 0 d) == 0)%Q as -> by done. apply Qeq_le.
    change (Qabs 0)%Q with 0%Q. by rewrite Qmult_0_l.
  - rewrite rnd_posE by done. apply Qle_trans with (1 := rnd_pos_error n d Hn Hd).
    apply Qmult_le_r; [done|]. apply Qle_Qabs.
Qed.

Lemma rnd_mono n1 d1 n2 d2 : 0 < d1 -> 0 < d2 -> n1 * d2 <= n2 * d1 ->
  (num_val (rnd n1 d1) <= num_val (rnd n2 d2))%Q.
Proof.
  intros Hd1 Hd2 Hle.
  assert (forall d, num_val (rnd 0 d) == 0)%Q as H0 by done.
  destruct (Z.lt_trichotomy n1 0) as [H1|[->|H1]], (Z.lt_trichotomy n2 0) as [H2|[->|H2]]; try nia;
    rewrite ?H0; rewrite ?rnd_neg, ?num_val_opp by done; rewrite ?(rnd_posE n1), ?(rnd_posE n2) by done.
  1: pose proof (rnd_pos_mono (- n2) d2 (- n1) d1 ltac:(lia) ltac:(lia) ltac:(lia) ltac:(lia) ltac:(nia)); lra.
  1: pose proof (num_val_rnd_pos_pos (- n1) d1 ltac:(lia) ltac:(lia)); lra.
  1: pose proof (num_val_rnd_pos_pos (- n1) d1 ltac:(lia) ltac:(lia));
     pose proof (num_val_rnd_pos_pos n2 d2 ltac:(lia) ltac:(lia)); lra.
  1: apply Qle_refl.
  1: apply Qlt_le_weak; by apply num_val_rnd_pos_pos.
  by apply rnd_pos_mono.
Qed.

Lemma rnd_int z : Z.abs z <= 2 ^ 53 -> (num_val (rnd z 1) == inject_Z z)%Q.
Proof.
  intros Hz. destruct (Z.lt_trichotomy z 0) as [H|[->|H]]; [|done|].
  - rewrite rnd_neg, num_val_opp, rnd_pos_int, inject_Z_opp by lia. ring.
  - rewrite rnd_posE, rnd_pos_int by lia. done.
Qed.

(** [rnd_dyadic] rounds [m * 2 ^ e / d]. *)
Lemma rnd_dyadic_rnd m e d : 0 < d -> exists n' d', 0 < d' /\ rnd_dyadic m e d = rnd n' d' /\
  (inject_Z n' / inject_Z d' == inject_Z m * two^ e / inject_Z d)%Q.
Proof.
  intros Hd. pose proof (inject_Z_pos d Hd). unfold rnd_dyadic. destruct (Z.leb_spec 0 e).
  - exists (m * 2 ^ e), d. split_and!; [done..|]. by rewrite inject_Z_mult, two_pow_Z by done.
  - pose proof (Z.pow_pos_nonneg 2 (- e) ltac:(lia) ltac:(lia)).
    exists m, (d * 2 ^ (- e)). split_and!; [nia|done|]. rewrite inject_Z_mult, two_pow_Z by lia.
    pose proof (two_pow_pos (- e)). pose proof (two_pow_opp e) as E.
    transitivity (inject_Z m * (two^ (- e) * two^ e) / (inject_Z d * two^ (- e)))%Q.
    + rewrite E. field. split; lra.
    + field. split; lra.
Qed.

Lemma rnd_dyadic_error m e d : 0 < d -> let x := (inject_Z m * two^ e / inject_Z d)%Q in
  (Qabs (num_val (rnd_dyadic m e d) - x) <= Qabs x * two^ (-53))%Q.
Proof.
  intros Hd. cbn zeta. destruct (rnd_dyadic_rnd m e d Hd) as (n' & d' & Hd' & -> & <-).
  by apply rnd_error.
Qed.

Lemma rnd_dyadic_mono m1 e1 d1 m2 e2 d2 : 0 < d1 -> 0 < d2 ->
  (inject_Z m1 * two^ e1 / inject_Z d1 <= inject_Z m2 * two^ e2 / inject_Z d2)%Q ->
  (num_val (rnd_dyadic m1 e1 d1) <= num_val (rnd_dyadic m2 e2 d2))%Q.
Proof.
  intros H1 H2. destruct (rnd_dyadic_rnd m1 e1 d1 H1) as (n1 & k1 & K1 & -> & <-).
  destruct (rnd_dyadic_rnd m2 e2 d2 H2) as (n2 & k2 & K2 & -> & <-). intros H.
  apply rnd_mono; [done..|]. rewrite Zle_Qle, !inject_Z_mult.
  apply inject_Z_pos in K1, K2.
  apply (Qmult_le_r _ _ (inject_Z k1 * inject_Z k2)) in H; [|nra].
  assert (inject_Z n1 / inject_Z k1 * (inject_Z k1 * inject_Z k2) == inject_Z n1 * inject_Z k2)%Q
    as E1 by (field; lra).
  assert (inject_Z n2 / inject_Z k2 * (inject_Z k1 * inject_Z k2) == inject_Z n2 * inject_Z k1)%Q
    as E2 by (field; lra).
  by rewrite E1, E2 in H.
Qed.

(** Rounding stays between the integers the exact value is between. *)
Lemma rnd_dyadic_ub m e d z : 0 < d -> Z.abs z <= 2 ^ 53 ->
  (inject_Z m * two^ e / inject_Z d <= inject_Z z)%Q -> (num_val (rnd_dyadic m e d) <= inject_Z z)%Q.
Proof.
  intros Hd Hz H. rewrite <- (rnd_int z) by done.
  apply Qle_trans with (num_val (rnd_dyadic z 0 1)).
  - apply rnd_dyadic_mono; [done..|]. apply Qle_trans with (1 := H). apply Qeq_le.
    change (two^ 0)%Q with 1%Q. field.
  - unfold rnd_dyadic. cbn -[rnd num_val]. rewrite Z.mul_1_r. apply Qle_refl.
Qed.

Lemma rnd_dyadic_lb m e d z : 0 < d -> Z.abs z <= 2 ^ 53 ->
  (inject_Z z <= inject_Z m * two^ e / inject_Z d)%Q -> (inject_Z z <= num_val (rnd_dyadic m e d))%Q.
Proof.
  intros Hd Hz H. rewrite <- (rnd_int z) by done.
  apply Qle_trans with (num_val (rnd_dyadic z 0 1)).
  - unfold rnd_dyadic. cbn -[rnd num_val]. rewrite Z.mul_1_r. apply Qle_refl.
  - apply rnd_dyadic_mono; [done..|]. apply Qle_trans with (2 := H). apply Qeq_le.
    change (two^ 0)%Q with 1%Q. field.
Qed.

(** ** [Math.round] *)

Lemma Math_round_spec x z :
  Math_round x = z <-> (inject_Z z - (1 # 2) <= num_val x)%Q /\ (num_val x < inject_Z z + (1 # 2))%Q.
Proof.
  unfold Math_round, num_val. destruct (Z.leb_spec 0 (expo x)) as [He|He].
  - rewrite <- two_pow_Z, <- inject_Z_mult by done. set (v := mant x * 2 ^ expo x). split.
    + intros ->. split; lra.
    + intros [L U]. assert (inject_Z v < inject_Z (z + 1))%Q as U'
        by (rewrite inject_Z_plus; change (inject_Z 1) with 1%Q; lra).
      assert (inject_Z z < inject_Z (v + 1))%Q as L'
        by (rewrite inject_Z_plus; change (inject_Z 1) with 1%Q; lra).
      rewrite <- Zlt_Qlt in U', L'. lia.
  - set (D := 2 ^ (- expo x)). assert (0 < D) as HD by (apply Z.pow_pos_nonneg; lia).
    assert (inject_Z D * two^ (expo x) == 1)%Q as ED
      by (unfold D; rewrite two_pow_Z by lia; apply two_pow_opp).
    pose proof (two_pow_pos (expo x)) as Hp. pose proof (inject_Z_pos D HD) as HD'.
    set (p := two^ (expo x)) in *. clearbody p.
    transitivity (z * (2 * D) <= 2 * mant x + D < (z + 1) * (2 * D)).
    { split.
      - intros <-. pose proof (Z.div_mod (2 * mant x + D) (2 * D)).
        pose proof (Z.mod_pos_bound (2 * mant x + D) (2 * D)). nia.
      - intros [H1 H2]. symmetry. apply (Z.div_unique_pos _ _ z (2 * mant x + D - z * (2 * D))); lia. }
    rewrite Zle_Qle, Zlt_Qlt, !inject_Z_mult, !inject_Z_plus, !inject_Z_mult.
    change (inject_Z 2) with (2 # 1)%Q. change (inject_Z 1) with 1%Q.
    set (M := inject_Z (mant x)). set (zz := inject_Z z). set (DD := inject_Z D) in *.
    assert (M * p * DD == M)%Q as E by (transitivity (M * (DD * p))%Q; [ring|rewrite ED; ring]).
    split; intros [H1 H2]; split.
    + apply (Qmult_le_r _ _ DD); [done|]. rewrite E. lra.
    + apply (Qmult_lt_r _ _ DD); [done|]. rewrite E. lra.
    + apply (Qmult_le_r _ _ DD) in H1; [|done]. rewrite E in H1. lra.
    + apply (Qmult_lt_r _ _ DD) in H2; [|done]. rewrite E in H2. lra.
Qed.

Lemma Math_round_close x : (inject_Z (Math_round x) - (1 # 2) <= num_val x)%Q /\
  (num_val x < inject_Z (Math_round x) + (1 # 2))%Q.
Proof. by apply Math_round_spec. Qed.

Lemma Math_round_le x z : (num_val x <= inject_Z z)%Q -> Math_round x <= z.
Proof.
  intros H. destruct (Math_round_close x) as [L _].
  assert (inject_Z (Math_round x) < inject_Z (z + 1))%Q as H'
    by (rewrite inject_Z_plus; change (inject_Z 1) with 1%Q; lra).
  rewrite <- Zlt_Qlt in H'. lia.
Qed.

Lemma Math_round_ge x z : (inject_Z z <= num_val x)%Q -> z <= Math_round x.
Proof.
  intros H. destruct (Math_round_close x) as [_ U].
  assert (inject_Z z < inject_Z (Math_round x + 1))%Q as H'
    by (rewrite inject_Z_plus; change (inject_Z 1) with 1%Q; lra).
  rewrite <- Zlt_Qlt in H'. lia.
Qed.

(** ** Operators on values *)

(** The significand of [x] in units of [2 ^ e]. *)
Lemma num_align x e : e <= expo x -> (inject_Z (mant x * 2 ^ (expo x - e)) * two^ e == num_val x)%Q.
Proof.
  intros. unfold num_val. rewrite inject_Z_mult, two_pow_Z by lia.
  transitivity (inject_Z (mant x) * (two^ (expo x - e) * two^ e))%Q; [ring|].
  rewrite <- two_pow_plus. by replace (expo x - e + e) with (expo x) by lia.
Qed.

Lemma num_ltb_val x y : num_ltb x y = true <-> (num_val x < num_val y)%Q.
Proof.
  unfold num_ltb. rewrite Z.ltb_lt, Zlt_Qlt. set (e := Z.min (expo x) (expo y)).
  rewrite <- (num_align x e), <- (num_align y e) by lia. by rewrite Qmult_lt_r by apply two_pow_pos.
Qed.

Lemma num_ltb_val_false x y : num_ltb x y = false <-> (num_val y <= num_val x)%Q.
Proof. rewrite <- not_true_iff_false, num_ltb_val. split; [apply Qnot_lt_le|apply Qle_not_lt]. Qed.

Lemma num_mul_range x y lo hi : Z.abs lo <= 2 ^ 53 -> Z.abs hi <= 2 ^ 53 ->
  (inject_Z lo <= num_val x * num_val y)%Q -> (num_val x * num_val y <= inject_Z hi)%Q ->
  (inject_Z lo <= num_val (num_mul x y))%Q /\ (num_val (num_mul x y) <= inject_Z hi)%Q.
Proof.
  intros Hlo Hhi L U.
  assert (inject_Z (mant x * mant y) * two^ (expo x + expo y) / inject_Z 1 == num_val x * num_val y)%Q
    as E. { unfold num_val. rewrite inject_Z_mult, two_pow_plus. field. }
  rewrite <- E in L, U. split; [by apply rnd_dyadic_lb|by apply rnd_dyadic_ub].
Qed.

Lemma num_div_int_range x k lo hi : 0 < k -> Z.abs lo <= 2 ^ 53 -> Z.abs hi <= 2 ^ 53 ->
  (inject_Z (lo * k) <= num_val x)%Q -> (num_val x <= inject_Z (hi * k))%Q ->
  (inject_Z lo <= num_val (num_div_int x k))%Q /\ (num_val (num_div_int x k) <= inject_Z hi)%Q.
Proof.
  intros Hk Hlo Hhi L U. pose proof (inject_Z_pos k Hk). rewrite inject_Z_mult in L, U.
  split; [apply rnd_dyadic_lb|apply rnd_dyadic_ub]; try done.
  - by apply Qle_shift_div_l.
  - by apply Qle_shift_div_r.
Qed.

Lemma num_sub_range x y lo hi : Z.abs lo <= 2 ^ 53 -> Z.abs hi <= 2 ^ 53 ->
  (inject_Z lo <= num_val x - num_val y)%Q -> (num_val x - num_val y <= inject_Z hi)%Q ->
  (inject_Z lo <= num_val (num_sub x y))%Q /\ (num_val (num_sub x y) <= inject_Z hi)%Q.
Proof.
  intros Hlo Hhi L U. unfold num_sub. set (e := Z.min (expo x) (expo y)). cbn zeta.
  assert (inject_Z (mant x * 2 ^ (expo x - e) - mant y * 2 ^ (expo y - e)) * two^ e / inject_Z 1 ==
    num_val x - num_val y)%Q as E.
  { rewrite <- (num_align x e), <- (num_align y e) by lia. unfold Z.sub at 1.
    rewrite inject_Z_plus, inject_Z_opp. field. }
  rewrite <- E in L, U. split; [by apply rnd_dyadic_lb|by apply rnd_dyadic_ub].
Qed.

Lemma Math_round_range x lo hi : (inject_Z lo <= num_val x)%Q -> (num_val x <= inject_Z hi)%Q ->
  lo <= Math_round x <= hi.
Proof. intros. split; [by apply Math_round_ge|by apply Math_round_le]. Qed.

(** ** Dollars and cents *)

(** [cents / 100] *)
Definition dollars (cents : Z) : js_num := num_div_int (num_of_Z cents) 100.

(** [Math.round(x * 100)] *)
Definition to_cents (x : js_num) : Z := Math_round (num_mul x (num_of_Z 100)).

(** The bound under which the conversions are exact: about 11 trillion dollars. *)
Definition MAX_CENTS_EXACT : Z := 2 ^ 50.

Lemma num_of_Z_value z : (num_val (num_of_Z z) == inject_Z z)%Q.
Proof. unfold num_val, num_of_Z. cbn [mant expo]. change (two^ 0)%Q with 1%Q. ring. Qed.

Lemma num_div_int_error x k : 0 < k ->
  (Qabs (num_val (num_div_int x k) - num_val x / inject_Z k)
    <= Qabs (num_val x / inject_Z k) * two^ (-53))%Q.
Proof. apply rnd_dyadic_error. Qed.

Lemma num_mul_error x y :
  (Qabs (num_val (num_mul x y) - num_val x * num_val y) <= Qabs (num_val x * num_val y) * two^ (-53))%Q.
Proof.
  pose proof (rnd_dyadic_error (mant x * mant y) (expo x + expo y) 1 ltac:(lia)) as H. cbn zeta in H.
  assert (inject_Z (mant x * mant y) * two^ (expo x + expo y) / inject_Z 1 == num_val x * num_val y)%Q
    as E. { unfold num_val. rewrite inject_Z_mult, two_pow_plus. field. }
  by rewrite E in H.
Qed.

Lemma dollars_close c : 0 <= c <= MAX_CENTS_EXACT ->
  (Qabs (num_val (dollars c) * (100 # 1) - inject_Z c) <= inject_Z c * two^ (-53))%Q.
Proof.
  intros [H0 Hc]. pose proof (num_div_int_error (num_of_Z c) 100 ltac:(lia)) as H.
  fold (dollars c) in H. rewrite num_of_Z_value in H. change (inject_Z 100) with (100 # 1)%Q in H.
  rewrite Zle_Qle in H0. change (inject_Z 0) with 0%Q in H0. pose proof (two_pow_pos (-53)) as Hp.
  set (x := num_val (dollars c)) in *. set (y := inject_Z c) in *.
  assert (0 <= y / (100 # 1))%Q as Hy by (apply Qle_shift_div_l; lra).
  rewrite (Qabs_pos (y / (100 # 1))) in H by done.
  assert (x * (100 # 1) - y == (x - y / (100 # 1)) * (100 # 1))%Q as -> by field.
  rewrite Qabs_Qmult. change (Qabs (100 # 1))%Q with (100 # 1)%Q.
  apply Qle_trans with (y / (100 # 1) * two^ (-53) * (100 # 1))%Q; [by apply Qmult_le_r|].
  apply Qeq_le. field.
Qed.

Lemma Math_round_near x z : (Qabs (num_val x - inject_Z z) <= 3 # 8)%Q -> Math_round x = z.
Proof. intros H%Qabs_Qle_condition. apply Math_round_spec. lra. Qed.

(** The double next to [c / 100], times a hundred, rounds to [c]. *)
Lemma to_cents_near x c : 0 <= c <= MAX_CENTS_EXACT ->
  (Qabs (num_val x * (100 # 1) - inject_Z c) <= inject_Z c * two^ (-53))%Q -> to_cents x = c.
Proof.
  intros Hc Hx. apply Math_round_near.
  assert (0 <= inject_Z c)%Q as H0 by (change 0%Q with (inject_Z 0); rewrite <- Zle_Qle; lia).
  assert (inject_Z c <= inject_Z (2 ^ 50))%Q as H1 by (rewrite <- Zle_Qle; apply Hc).
  pose proof (num_mul_error x (num_of_Z 100)) as Hm. rewrite num_of_Z_value in Hm.
  change (inject_Z 100) with (100 # 1)%Q in Hm.
  set (p := num_val (num_mul x (num_of_Z 100))) in *. set (v := (num_val x * (100 # 1))%Q) in *.
  set (y := inject_Z c) in *. change (inject_Z (2 ^ 50)) with (1125899906842624 # 1)%Q in H1.
  change (two^ (-53))%Q with (1 # 9007199254740992)%Q in *.
  apply Qabs_Qle_condition in Hx. assert (Qabs v <= y + y * (1 # 9007199254740992))%Q as Hv
    by (apply Qabs_Qle_condition; lra).
  assert (Qabs (p - v) <= (y + y * (1 # 9007199254740992)) * (1 # 9007199254740992))%Q as Hpv
    by (apply Qle_trans with (1 := Hm); by apply Qmult_le_r).
  apply Qabs_Qle_condition in Hpv. apply Qabs_Qle_condition. lra.
Qed.

(** Dividing cents by a hundred and back is the identity. *)
Lemma to_cents_dollars c : 0 <= c <= MAX_CENTS_EXACT -> to_cents (dollars c) = c.
Proof. intros. apply to_cents_near; [done|]. by apply dollars_close. Qed.

Lemma rnd_mant_nonneg n d : 0 <= n -> 0 < d -> 0 <= mant (rnd n d).
Proof.
  intros Hn Hd. destruct (Z.eq_dec n 0) as [->|]; [done|]. rewrite rnd_posE by lia.
  pose proof (rnd_pos_mant n d ltac:(lia) Hd). lia.
Qed.

Lemma dollars_mant_nonneg c : 0 <= c -> 0 <= mant (dollars c).
Proof.
  intros. unfold dollars, num_div_int, rnd_dyadic. cbn -[rnd]. apply rnd_mant_nonneg; lia.
Qed.

(** [toFixed(f)] is [Math.round] at the scale of the digits. *)
Lemma fixed_scaled_round f x : 0 <= mant x ->
  fixed_scaled f x = Math_round (JsNum (mant x * 10 ^ Z.of_nat f) (expo x)).
Proof. intros. unfold fixed_scaled, Math_round. cbn [mant expo]. by rewrite Z.abs_eq by done. Qed.

Lemma num_fixed_range_val x : 0 <= mant x -> (num_val x < inject_Z (10 ^ 21))%Q ->
  num_fixed_range x = true.
Proof.
  intros Hm H. unfold num_fixed_range, num_val in *. rewrite Z.abs_eq by done.
  destruct (Z.leb_spec 0 (expo x)) as [He|He]; apply Z.ltb_lt; rewrite Zlt_Qlt, inject_Z_mult.
  - by rewrite two_pow_Z by done.
  - rewrite two_pow_Z by lia. pose proof (two_pow_pos (- expo x)) as Hp.
    pose proof (two_pow_opp (expo x)) as E. apply (Qmult_lt_r _ _ _ Hp) in H.
    apply Qle_lt_trans with (2 := H). apply Qeq_le.
    transitivity (inject_Z (mant x) * (two^ (- expo x) * two^ (expo x)))%Q; [rewrite E|]; ring.
Qed.

(** Cents rendered as dollars with two digits are rendered exactly. *)
Lemma dollars_toFixed c : 0 <= c <= MAX_CENTS_EXACT ->
  num_toFixed 2 (dollars c) = Some (render_fixed 2 c).
Proof.
  intros Hc. pose proof (dollars_mant_nonneg c ltac:(lia)) as Hm.
  pose proof (dollars_close c Hc) as H.
  assert (0 <= inject_Z c)%Q as H0 by (change 0%Q with (inject_Z 0); rewrite <- Zle_Qle; lia).
  assert (inject_Z c <= inject_Z (2 ^ 50))%Q as H1 by (rewrite <- Zle_Qle; apply Hc).
  change (inject_Z (2 ^ 50)) with (1125899906842624 # 1)%Q in H1.
  change (two^ (-53))%Q with (1 # 9007199254740992)%Q in H. pose proof H as H'.
  apply Qabs_Qle_condition in H'. unfold num_toFixed.
  rewrite num_fixed_range_val; [|done|change (inject_Z (10 ^ 21)) with (1000000000000000000000 # 1)%Q; lra].
  destruct (Z.ltb_spec (mant (dollars c)) 0); [lia|]. do 2 f_equal.
  rewrite fixed_scaled_round by done. apply Math_round_near.
  assert (num_val (JsNum (mant (dollars c) * 10 ^ Z.of_nat 2) (expo (dollars c))) ==
    num_val (dollars c) * (100 # 1))%Q as ->.
  { unfold num_val. cbn [mant expo]. rewrite inject_Z_mult. change (inject_Z (10 ^ Z.of_nat 2)) with (100 # 1)%Q. ring. }
  apply Qle_trans with (1 := H). lra.
Qed.

(** ** Reading a decimal *)

Lemma strip_start_digit c s : is_digit c = true -> strip_start js_space (String c s) = String c s.
Proof. intros H. cbn. by rewrite is_digit_not_space. Qed.

Lemma strip_end_cons p c s : strip_end p s ≠ "" -> strip_end p (String c s) = String c (strip_end p s).
Proof. intros H. cbn. by destruct (strip_end p s). Qed.

Lemma strip_end_app_digits s d : all_digits d = true -> nonempty d = true ->
  strip_end js_space (s +:+ d) = s +:+ d.
Proof.
  intros Hd Hn. induction s as [|c s IH]; [by apply strip_end_digits|].
  rewrite app_cons, strip_end_cons; rewrite IH; [done|]. destruct s; [by destruct d|done].
Qed.

(** A decimal with a fraction, made of digits. *)
Lemma js_Number_decimal w f : re_digits w = true -> re_digits f = true ->
  js_Number (w +:+ String "." f) = finite (decimal_rnd (digits_val (w +:+ f)) (0 - slen f)).
Proof.
  intros [Hw Hwd]%andb_true_iff [Hf Hfd]%andb_true_iff. destruct w as [|c w]; [done|].
  assert (js_trim (String c w +:+ String "." f) = String c w +:+ String "." f) as Ht.
  { unfold js_trim. rewrite app_cons, strip_start_digit by (by apply andb_true_iff in Hwd as []).
    rewrite <- app_cons.
    replace (String c w +:+ String "." f) with ((String c w +:+ ".") +:+ f)
      by (rewrite app_assoc_str; done).
    by apply strip_end_app_digits. }
  assert (unsigned_decimal (String c w +:+ String "." f) =
    Some (decimal_rnd (digits_val (String c w +:+ f)) (0 - slen f))) as Hu.
  { unfold unsigned_decimal. rewrite span_digits_app by done. cbv beta iota.
    rewrite <- (app_nil_r_str f) at 1. rewrite span_digits_app by done. done. }
  unfold js_Number. rewrite Ht.
  apply andb_true_iff in Hwd as [Hc Hwd].
  destruct c as [[] [] [] [] [] [] [] []]; try discriminate Hc;
    rewrite app_cons in *; cbv beta iota; try (rewrite Hu; done).
  destruct w as [|c' w]; [rewrite app_nil_str in *; rewrite Hu; done|].
  apply andb_true_iff in Hwd as [Hc' _]. rewrite app_cons in *.
  destruct c' as [[] [] [] [] [] [] [] []]; try discriminate Hc'; rewrite Hu; done.
Qed.

Lemma ilog2_lt a d k : 0 < a -> 0 < d -> a < 2 ^ k * d -> 0 <= k -> ilog2 a d < k.
Proof.
  intros Ha Hd H Hk. destruct (ilog2_spec a d Ha Hd) as [L _].
  destruct (Z.lt_ge_cases (ilog2 a d) k) as [|Hge]; [done|exfalso].
  pose proof (two_pow_le k (ilog2 a d) Hge) as Hp. rewrite <- two_pow_Z in Hp by done.
  rewrite Zlt_Qlt, inject_Z_mult in H. pose proof (inject_Z_pos d Hd). nra.
Qed.

Lemma rnd_finite a d : 0 <= a -> 0 < d -> a < 2 ^ 1000 * d -> finite (rnd a d) = Some (rnd a d).
Proof.
  intros Ha Hd H. unfold finite, num_isFinite. destruct (Z.eq_dec a 0) as [->|]; [done|].
  rewrite rnd_posE by lia. destruct (rnd_pos_mant a d ltac:(lia) Hd) as [L U].
  destruct (Z.eqb_spec (mant (rnd_pos a d)) 0); [done|].
  assert (Z.log2 (Z.abs (mant (rnd_pos a d))) < 54) by (apply Z.log2_lt_pow2; lia).
  pose proof (ilog2_lt a d 1000 ltac:(lia) Hd H ltac:(lia)).
  change (expo (rnd_pos a d)) with (ilog2 a d - 52).
  destruct (Z.ltb_spec (Z.log2 (Z.abs (mant (rnd_pos a d))) + (ilog2 a d - 52)) 1024); [done|lia].
Qed.

(** Reading a price of two digits gives back its cents. *)
Lemma js_Number_fixed c : 0 <= c <= MAX_CENTS_EXACT ->
  exists x, js_Number (render_fixed 2 c) = Some x /\ to_cents x = c.
Proof.
  intros Hc. destruct (render_fixed_spec 2 c ltac:(lia) ltac:(lia)) as (w & f & -> & Hw & Hwn & Hf & Hl & Hv).
  rewrite js_Number_decimal; cycle 1.
  { unfold re_digits. by rewrite Hwn, Hw. }
  { unfold re_digits. rewrite Hf, andb_true_r. apply nonempty_slen. lia. }
  rewrite digits_val_app, Hl, Hv. change (decimal_rnd c (0 - Z.of_nat 2)) with (rnd c (10 ^ 2)).
  change (10 ^ 2) with 100. unfold MAX_CENTS_EXACT in Hc. assert (c < 2 ^ 1000 * 100).
  { apply Z.le_lt_trans with (2 ^ 50); [lia|]. by vm_compute. }
  rewrite rnd_finite by lia. exists (rnd c 100). split; [done|].
  replace (rnd c 100) with (dollars c). { by apply to_cents_dollars. }
  unfold dollars, num_div_int, rnd_dyadic. cbn -[rnd]. by rewrite Z.mul_1_r.
Qed.

(** What a price in cents renders to, read back, is the price. *)
Theorem cents_roundtrip (c : Z) : 0 <= c <= MAX_CENTS_EXACT ->
  exists s x, num_toFixed 2 (dollars c) = Some s /\ js_Number s = Some x /\ to_cents x = c.
Proof.
  intros Hc. destruct (js_Number_fixed c Hc) as (x & Hx & Ht). exists (render_fixed 2 c), x.
  split_and!; [by apply dollars_toFixed|done..].
Qed.

(** ** Whole numbers *)

(** A number is an integer when its value is. *)
Lemma num_to_Z_val x z : (num_val x == inject_Z z)%Q -> num_isInteger x = true /\ num_to_Z x = z.
Proof.
  destruct x as [m e]. unfold num_val, num_isInteger, num_to_Z. cbn [mant expo]. intros H.
  destruct (Z.leb_spec 0 e) as [He|He].
  - split; [done|]. rewrite <- two_pow_Z, <- inject_Z_mult in H by done. by apply inject_Z_injective.
  - assert (m = z * 2 ^ (- e)) as ->.
    { apply inject_Z_injective. rewrite inject_Z_mult, two_pow_Z by lia. rewrite <- H.
      rewrite <- Qmult_assoc, (Qmult_comm (two^ e)), two_pow_opp. by rewrite Qmult_1_r. }
    assert (0 < 2 ^ (- e)) by (apply Z.pow_pos_nonneg; lia).
    rewrite Z.mod_mul, Z.div_mul by lia. done.
Qed.

Lemma js_Number_digits s : re_digits s = true -> js_Number s = finite (rnd (digits_val s) 1).
Proof.
  intros [Hn Hd]%andb_true_iff. destruct s as [|c s]; [done|].
  assert (js_trim (String c s) = String c s) as Ht.
  { unfold js_trim. rewrite strip_start_digit by (by apply andb_true_iff in Hd as []).
    rewrite <- (app_nil_str (String c s)). by apply strip_end_app_digits. }
  assert (unsigned_decimal (String c s) = Some (rnd (digits_val (String c s)) 1)) as Hu.
  { unfold unsigned_decimal. rewrite <- (app_nil_r_str (String c s)) at 1.
    rewrite span_digits_app by done. rewrite app_nil_r_str, Hn. cbn -[rnd digits_val].
    unfold decimal_rnd. cbn -[rnd digits_val]. by rewrite Z.mul_1_r. }
  unfold js_Number. rewrite Ht. apply andb_true_iff in Hd as [Hc Hs].
  destruct c as [[] [] [] [] [] [] [] []]; try discriminate Hc;
    cbv beta iota; try (rewrite Hu; done).
  destruct s as [|c' s]; [rewrite Hu; done|]. apply andb_true_iff in Hs as [Hc' _].
  destruct c' as [[] [] [] [] [] [] [] []]; try discriminate Hc'; rewrite Hu; done.
Qed.

(** Printing a whole number and reading it gives it back. *)
Lemma js_Number_print a : 0 <= a <= 2 ^ 53 ->
  exists x, js_Number (print_nonneg a) = Some x /\ num_isInteger x = true /\ num_to_Z x = a.
Proof.
  intros Ha. rewrite js_Number_digits by (apply print_nonneg_re; lia).
  rewrite print_nonneg_val by lia. assert (a < 2 ^ 1000 * 1).
  { apply Z.le_lt_trans with (2 ^ 53); [lia|]. by vm_compute. }
  rewrite rnd_finite by lia. exists (rnd a 1). split; [done|]. apply num_to_Z_val.
  apply rnd_int. lia.
Qed.
