(* ===== verification/JsDecimals.v ===== *)
(** * Numbers read from and written to text

    [JsNumbers] has the finite doubles and their arithmetic. Here are the numbers
    code may also meet when it parses a text that is not one ([NaN], the
    infinities), and the two conversions the Bridge code applies: [parseFloat]
    and [String(x)], which prints the shortest decimal that reads back as [x]. *)

From stdpp Require Import base list strings.
From Stdlib Require Import ZArith Lia Ascii QArith Lqa Qabs Qpower.
From S2P Require Import Prelude JsStrings JsNumbers.

Close Scope Q_scope.
Open Scope Z_scope.

(** ** Numbers that may not be finite *)

Inductive js_float := Fin (x : js_num) | Infinity (negative : bool) | NaN.

(** A result too large for a double is an infinity. *)
Definition fl (x : js_num) : js_float :=
  if num_isFinite x then Fin x else Infinity (mant x <? 0).

Definition fl_isNaN (x : js_float) : bool := match x with NaN => true | _ => false end.
Definition fl_isFinite (x : js_float) : bool := match x with Fin _ => true | _ => false end.

(** [x + y] of finite numbers *)
Definition num_add (x y : js_num) : js_num := num_sub x (num_opp y).

Definition fl_opp (x : js_float) : js_float :=
  match x with Fin a => Fin (num_opp a) | Infinity b => Infinity (negb b) | NaN => NaN end.

Definition fl_add (x y : js_float) : js_float :=
  match x, y with
  | Fin a, Fin b => fl (num_add a b)
  | NaN, _ | _, NaN => NaN
  | Infinity b, Infinity b' => if Bool.eqb b b' then Infinity b else NaN
  | Infinity b, _ | _, Infinity b => Infinity b
  end.

Definition fl_sub (x y : js_float) : js_float :=
  match x, y with
  | Fin a, Fin b => fl (num_sub a b)
  | _, _ => fl_add x (fl_opp y)
  end.

(** The sign of a number: negative, zero or positive. *)
Definition num_sgn (x : js_num) : Z := Z.sgn (mant x).

Definition fl_mul (x y : js_float) : js_float :=
  match x, y with
  | Fin a, Fin b => fl (num_mul a b)
  | NaN, _ | _, NaN => NaN
  | Infinity b, Infinity b' => Infinity (xorb b b')
  | Infinity b, Fin a | Fin a, Infinity b =>
      if num_sgn a =? 0 then NaN else Infinity (xorb b (num_sgn a <? 0))
  end.

(** [x / k], [k] a positive integer. *)
Definition fl_div_int (x : js_float) (k : Z) : js_float :=
  match x with Fin a => fl (num_div_int a k) | _ => x end.

(** [x < y] and [x <= y]: a comparison with [NaN] is false. *)
Definition fl_ltb (x y : js_float) : bool :=
  match x, y with
  | NaN, _ | _, NaN => false
  | Fin a, Fin b => num_ltb a b
  | Infinity b, Infinity b' => b && negb b'
  | Infinity b, Fin _ => b
  | Fin _, Infinity b => negb b
  end.

Definition fl_leb (x y : js_float) : bool :=
  match x, y with
  | NaN, _ | _, NaN => false
  | _, _ => negb (fl_ltb y x)
  end.

(** [Math.max(0, x)] *)
Definition fl_max0 (x : js_float) : js_float :=
  match x with
  | NaN => NaN
  | _ => if fl_ltb (Fin (num_of_Z 0)) x then x else Fin (num_of_Z 0)
  end.

(** ** [parseFloat(s)] *)

(** The exponent at the head of a text, when there is one; the rest is ignored. *)
Definition exponent_prefix (s : string) : Z :=
  let digits sign r := match span_digits r with
    | (EmptyString, _) => 0
    | (d, _) => sign * digits_val d
    end in
  match s with
  | String "e" r | String "E" r =>
      match r with
      | String "-" r' => digits (-1) r'
      | String "+" r' => digits 1 r'
      | _ => digits 1 r
      end
  | _ => 0
  end.

(** The longest decimal literal at the head of a text. *)
Definition decimal_prefix (s : string) : option js_num :=
  let '(w, r) := span_digits s in
  let '(f, r') := match r with String "." r1 => span_digits r1 | _ => (EmptyString, r) end in
  if nonempty (w +:+ f)
  then Some (decimal_rnd (digits_val (w +:+ f)) (exponent_prefix r' - slen f))
  else None.

Definition unsigned_prefix (s : string) : js_float :=
  match after_prefix "Infinity" s with
  | Some _ => Infinity false
  | None => match decimal_prefix s with Some x => fl x | None => NaN end
  end.

Definition parseFloat (s : string) : js_float :=
  match strip_start js_space s with
  | String "-" r => fl_opp (unsigned_prefix r)
  | String "+" r => unsigned_prefix r
  | t => unsigned_prefix t
  end.

(** ** [String(x)] *)

(** [10 ^ p <= x], for [x] positive. *)
Definition pow10_leb (p : Z) (x : js_num) : bool :=
  let num := mant x * (if 0 <=? expo x then 2 ^ expo x else 1) * (if 0 <=? p then 1 else 10 ^ (- p)) in
  let den := (if 0 <=? expo x then 1 else 2 ^ (- expo x)) * (if 0 <=? p then 10 ^ p else 1) in
  den <=? num.

(** The number of digits before the point: [10 ^ (n - 1) <= x < 10 ^ n]. The
    logarithm to base two gives it up to one. *)
Definition num_digits (x : js_num) : Z :=
  let n0 := (Z.log2 (mant x) + expo x) * 30103 / 100000 in
  if pow10_leb (n0 + 1) x then n0 + 2 else if pow10_leb n0 x then n0 + 1 else n0.

(** [x / 10 ^ p] rounded down, with whether the part cut off is above half. *)
Definition scaled_down (p : Z) (x : js_num) : Z * bool :=
  let num := mant x * (if 0 <=? expo x then 2 ^ expo x else 1) * (if 0 <=? p then 1 else 10 ^ (- p)) in
  let den := (if 0 <=? expo x then 1 else 2 ^ (- expo x)) * (if 0 <=? p then 10 ^ p else 1) in
  (num / den, den <=? 2 * (num mod den)).

Definition num_same (x y : js_num) : bool := negb (num_ltb x y) && negb (num_ltb y x).

(** The [k] digits that read back as [x], if any; the closer one of two. *)
Definition digits_at (n k : Z) (x : js_num) : option Z :=
  let '(s, up) := scaled_down (n - k) x in
  let back d := num_same (decimal_rnd d (n - k)) x in
  match back s, back (s + 1) with
  | true, true => Some (if up then s + 1 else s)
  | true, false => Some s
  | false, true => Some (s + 1)
  | false, false => None
  end.

(** The fewest digits that do; seventeen are always enough. *)
Fixpoint shortest (fuel : nat) (n k : Z) (x : js_num) : Z * Z :=
  match digits_at n k x, fuel with
  | Some s, _ => (s, k)
  | None, O => ((scaled_down (n - k) x).1, k)
  | None, S fuel' => shortest fuel' n (k + 1) x
  end.

Definition exponent_text (e : Z) : string :=
  "e" +:+ (if e <? 0 then "-" else "+") +:+ print_nonneg (Z.abs e).

(** [s], of [k] digits, with the point after [n] of them. *)
Definition render_number (s k n : Z) : string :=
  let d := print_nonneg s in
  if (k <=? n) && (n <=? 21) then d +:+ zeros (Z.to_nat (n - k))
  else if (0 <? n) && (n <=? 21) then str_take (Z.to_nat n) d +:+ "." +:+ str_drop (Z.to_nat n) d
  else if (-6 <? n) && (n <=? 0) then "0." +:+ zeros (Z.to_nat (- n)) +:+ d
  else if k =? 1 then d +:+ exponent_text (n - 1)
  else str_take 1 d +:+ "." +:+ str_drop 1 d +:+ exponent_text (n - 1).

Definition print_pos (x : js_num) : string :=
  let n := num_digits x in
  let '(s, k) := shortest 16 n 1 x in
  if s =? 10 ^ k then render_number 1 1 (n + 1) else render_number s k n.

Definition num_toString (x : js_num) : string :=
  if mant x =? 0 then "0"
  else if mant x <? 0 then "-" +:+ print_pos (num_opp x)
  else print_pos x.

Definition fl_toString (x : js_float) : string :=
  match x with
  | Fin a => num_toString a
  | Infinity false => "Infinity"
  | Infinity true => "-Infinity"
  | NaN => "NaN"
  end.

(** [x.toFixed(f)] *)
Definition fl_toFixed (f : nat) (x : js_float) : string :=
  match x with
  | Fin a => default (num_toString a) (num_toFixed f a)
  | _ => fl_toString x
  end.

(** ** Cents *)

Lemma num_add_error x y :
  (Qabs (num_val (num_add x y) - (num_val x + num_val y)) <= Qabs (num_val x + num_val y) * two^ (-53))%Q.
Proof.
  unfold num_add, num_sub. set (e := Z.min (expo x) (expo (num_opp y))). cbn zeta.
  pose proof (rnd_dyadic_error (mant x * 2 ^ (expo x - e) - mant (num_opp y) * 2 ^ (expo (num_opp y) - e))
    e 1 ltac:(lia)) as H. cbn zeta in H.
  assert (inject_Z (mant x * 2 ^ (expo x - e) - mant (num_opp y) * 2 ^ (expo (num_opp y) - e)) * two^ e
    / inject_Z 1 == num_val x + num_val y)%Q as E.
  { rewrite <- (num_align x e) by lia. transitivity
      (inject_Z (mant x * 2 ^ (expo x - e)) * two^ e - num_val (num_opp y))%Q;
      [|rewrite num_val_opp; ring].
    rewrite <- (num_align (num_opp y) e) by lia. unfold Zminus. rewrite inject_Z_plus, inject_Z_opp.
    change (inject_Z 1) with 1%Q. field. }
  rewrite E in H. exact H.
Qed.

Lemma mant_nonneg x : (0 <= num_val x)%Q -> 0 <= mant x.
Proof.
  unfold num_val. intros H. pose proof (two_pow_pos (expo x)).
  destruct (Z.lt_ge_cases (mant x) 0) as [Hn|]; [|done]. exfalso.
  rewrite Zlt_Qlt in Hn. change (inject_Z 0) with 0%Q in Hn. nra.
Qed.

(** A number of dollars close to a number of cents prints as them. *)
Lemma toFixed_cents x c : (0 <= num_val x)%Q -> (num_val x < inject_Z (10 ^ 21))%Q ->
  (Qabs (num_val x * (100 # 1) - inject_Z c) <= 3 # 8)%Q -> num_toFixed 2 x = Some (render_fixed 2 c).
Proof.
  intros H0 Hr Hc. pose proof (mant_nonneg x H0) as Hm. unfold num_toFixed.
  rewrite num_fixed_range_val by done. destruct (Z.ltb_spec (mant x) 0); [lia|]. do 2 f_equal.
  rewrite fixed_scaled_round by done. apply Math_round_near.
  assert (num_val (JsNum (mant x * 10 ^ Z.of_nat 2) (expo x)) == num_val x * (100 # 1))%Q as ->; [|done].
  unfold num_val. cbn [mant expo]. rewrite inject_Z_mult.
  change (inject_Z (10 ^ Z.of_nat 2)) with (100 # 1)%Q. ring.
Qed.

Lemma dollars_rnd c : dollars c = rnd c 100.
Proof. unfold dollars, num_div_int, rnd_dyadic. cbn -[rnd]. by rewrite Z.mul_1_r. Qed.

Lemma after_prefix_digit p c s s' : is_digit c = true -> is_digit p = false ->
  after_prefix (String p s') (String c s) = None.
Proof.
  intros Hc Hp. cbn. destruct (Ascii.eqb_spec p c) as [->|]; [congruence|done].
Qed.

(** The text of a number of cents reads as the dollars they are. *)
Lemma parseFloat_cents c : 0 <= c <= MAX_CENTS_EXACT -> parseFloat (render_fixed 2 c) = Fin (dollars c).
Proof.
  intros Hc. destruct (render_fixed_spec 2 c ltac:(lia) ltac:(lia)) as (w & f & -> & Hw & Hwn & Hf & Hl & Hv).
  destruct w as [|d w]; [done|]. pose proof Hw as Hw'. cbn [all_digits] in Hw'.
  apply andb_true_iff in Hw' as [Hd _].
  assert (decimal_prefix (String d w +:+ String "." f) = Some (dollars c)) as Hdp.
  { unfold decimal_prefix. rewrite span_digits_app by done. cbv beta iota.
    rewrite <- (app_nil_r_str f) at 1. rewrite span_digits_app by done.
    rewrite app_cons. cbn [nonempty]. rewrite <- app_cons, digits_val_app, Hl, Hv.
    cbn [exponent_prefix]. f_equal. rewrite dollars_rnd. done. }
  assert (unsigned_prefix (String d w +:+ String "." f) = Fin (dollars c)) as Hu.
  { unfold unsigned_prefix. rewrite Hdp. rewrite app_cons, after_prefix_digit by done.
    unfold MAX_CENTS_EXACT in Hc. assert (c < 2 ^ 1000 * 100).
    { apply Z.le_lt_trans with (2 ^ 50); [lia|]. by vm_compute. }
    pose proof (rnd_finite c 100 ltac:(lia) ltac:(lia) ltac:(lia)) as Hfin. rewrite dollars_rnd.
    unfold fl, finite in *. by destruct (num_isFinite (rnd c 100)). }
  unfold parseFloat. rewrite app_cons, strip_start_digit by done. rewrite app_cons in Hu.
  destruct d as [[] [] [] [] [] [] [] []]; try discriminate Hd; exact Hu.
Qed.

Lemma num_isFinite_val x : (0 <= num_val x)%Q -> (num_val x < two^ 1000)%Q -> num_isFinite x = true.
Proof.
  intros H0 H. pose proof (mant_nonneg x H0) as Hm. unfold num_isFinite.
  destruct (Z.eqb_spec (mant x) 0) as [|Hne]; [done|]. cbn [orb].
  rewrite Z.abs_eq by done. apply Z.ltb_lt.
  destruct (Z.lt_ge_cases (Z.log2 (mant x) + expo x) 1024) as [|Hge]; [done|exfalso].
  pose proof (Z.log2_spec (mant x) ltac:(lia)) as [L _]. rewrite Zle_Qle, two_pow_Z in L by apply Z.log2_nonneg.
  assert (two^ (Z.log2 (mant x) + expo x) <= num_val x)%Q as Hle.
  { rewrite two_pow_plus. unfold num_val. pose proof (two_pow_pos (expo x)). by apply Qmult_le_r. }
  pose proof (two_pow_le 1000 (Z.log2 (mant x) + expo x) ltac:(lia)). lra.
Qed.

(** Adding two amounts of dollars is exact enough to stay within a hundredth of a
    cent, far below the range where doubles get coarse. *)
Lemma num_add_cents x y (a b : Q) (e f : Q) :
  (0 <= a)%Q -> (0 <= b)%Q -> (a + b <= inject_Z (2 ^ 46))%Q -> (e <= 1 # 50)%Q -> (f <= 1 # 50)%Q ->
  (Qabs (num_val x * (100 # 1) - a) <= e)%Q -> (Qabs (num_val y * (100 # 1) - b) <= f)%Q ->
  (Qabs (num_val (num_add x y) * (100 # 1) - (a + b)) <= e + f + (1 # 100))%Q.
Proof.
  intros Ha Hb Hab He Hf Hx Hy. pose proof (num_add_error x y) as H.
  apply Qabs_Qle_condition in Hx, Hy. set (vx := num_val x) in *. set (vy := num_val y) in *.
  set (v := num_val (num_add x y)) in *. change (inject_Z (2 ^ 46)) with (70368744177664 # 1)%Q in Hab.
  change (two^ (-53))%Q with (1 # 9007199254740992)%Q in H.
  assert (Qabs (vx + vy) <= 800000000000 # 1)%Q as Hs by (apply Qabs_Qle_condition; lra).
  assert (Qabs (v - (vx + vy)) <= (800000000000 # 1) * (1 # 9007199254740992))%Q as Hv
    by (apply Qle_trans with (1 := H); by apply Qmult_le_r).
  apply Qabs_Qle_condition in Hv. apply Qabs_Qle_condition. lra.
Qed.

Definition MAX_FEE_CENTS : Z := 2 ^ 40.

Lemma dollars_within c : 0 <= c <= MAX_FEE_CENTS ->
  (Qabs (num_val (dollars c) * (100 # 1) - inject_Z c) <= 1 # 1000)%Q.
Proof.
  intros Hc. apply Qle_trans with (1 := dollars_close c ltac:(unfold MAX_FEE_CENTS, MAX_CENTS_EXACT in *; lia)).
  assert (inject_Z c <= inject_Z (2 ^ 40))%Q as H1 by (rewrite <- Zle_Qle; apply Hc).
  change (inject_Z (2 ^ 40)) with (1099511627776 # 1)%Q in H1.
  change (two^ (-53))%Q with (1 # 9007199254740992)%Q. lra.
Qed.

Lemma num_add_nonneg x y : (0 <= num_val x)%Q -> (0 <= num_val y)%Q -> (0 <= num_val (num_add x y))%Q.
Proof.
  intros Hx Hy. pose proof (num_add_error x y) as H. rewrite (Qabs_pos (num_val x + num_val y)) in H by lra.
  change (two^ (-53))%Q with (1 # 9007199254740992)%Q in H. apply Qabs_Qle_condition in H. lra.
Qed.

Lemma num_val_dollars_nonneg c : 0 <= c -> (0 <= num_val (dollars c))%Q.
Proof.
  intros Hc. unfold num_val. pose proof (dollars_mant_nonneg c Hc) as Hm. pose proof (two_pow_pos (expo (dollars c))).
  rewrite Zle_Qle in Hm. change (inject_Z 0) with 0%Q in Hm. by apply Qmult_le_0_compat; [|lra].
Qed.
