(* ===== verification/Processes.v ===== *)
(** * Handlers as sequences of atomic actions

    An async handler runs without interruption between two awaits, and other
    requests run in between. A process is such a handler: it is finished, or it
    performs one atomic action on the world and goes on. [run] executes a
    process alone; [exec] runs a pool of processes under a schedule; [safe] is
    a way to prove what holds under every schedule, by an invariant of the world
    and of the ghost states of the processes. *)

From stdpp Require Import base list.
From Stdlib Require Import ZArith Lia.
From S2P Require Import Prelude.

(** ** Processes *)

Section Proc.
Context {W E : Type}.

(** [Act u k]: in the world [w], leave [u w] and continue as [k w]. *)
Inductive proc (A : Type) : Type :=
| Done (o : outcome E A)
| Act (u : W -> W) (k : W -> proc A).
Arguments Done {A} o.
Arguments Act {A} u k.

Definition pret {A} (a : A) : proc A := Done (Ok a).
Definition pfail {A} (e : E) : proc A := Done (Err e).
Definition pthrow {A} (e : E) : proc A := Done (Throw e).

(** [const x = await c; if (x instanceof Error) return x; k(x)] *)
Fixpoint pbind {A B} (c : proc A) (k : A -> proc B) : proc B :=
  match c with
  | Done (Ok a) => k a
  | Done (Err e) => Done (Err e)
  | Done (Throw e) => Done (Throw e)
  | Act u n => Act u (fun w => pbind (n w) k)
  end.

(** The value of a call whose [Error] result the caller inspects itself. *)
Fixpoint pattempt {A} (c : proc A) : proc (E + A) :=
  match c with
  | Done (Ok a) => Done (Ok (inr a))
  | Done (Err e) => Done (Ok (inl e))
  | Done (Throw e) => Done (Throw e)
  | Act u n => Act u (fun w => pattempt (n w))
  end.

(** [try { return await c } catch (err) { return h(err) }] *)
Fixpoint pcatch {A} (c : proc A) (h : E -> proc A) : proc A :=
  match c with
  | Done (Throw e) => h e
  | Done o => Done o
  | Act u n => Act u (fun w => pcatch (n w) h)
  end.

(** The outcome of a call as a value, for a caller that always goes on. *)
Fixpoint pcapture {A} (c : proc A) : proc (outcome E A) :=
  match c with
  | Done o => Done (Ok o)
  | Act u n => Act u (fun w => pcapture (n w))
  end.

(** A call that is one atomic action. *)
Definition atomic {A} (c : M W E A) : proc A := Act (fun w => (c w).2) (fun w => Done (c w).1).

(** Left to itself, a process is a handler. *)
Fixpoint run {A} (p : proc A) : M W E A :=
  match p with
  | Done o => fun w => (o, w)
  | Act u k => fun w => run (k w) (u w)
  end.

Lemma run_bind {A B} (c : proc A) (k : A -> proc B) w :
  run (pbind c k) w = bind (run c) (fun a => run (k a)) w.
Proof.
  revert w. induction c as [[a|e|e]|u n IH]; intros w; try done. cbn. by rewrite IH.
Qed.

Lemma run_bind_Ok {A B} (c : proc A) (k : A -> proc B) w b w' :
  run (pbind c k) w = (Ok b, w') <-> exists a w1, run c w = (Ok a, w1) /\ run (k a) w1 = (Ok b, w').
Proof. rewrite run_bind. apply bind_Ok. Qed.

Lemma run_attempt {A} (c : proc A) w : run (pattempt c) w = attempt (run c) w.
Proof. revert w. induction c as [[a|e|e]|u n IH]; intros w; try done. cbn. by rewrite IH. Qed.

Lemma run_catch {A} (c : proc A) h w :
  run (pcatch c h) w = catch (run c) (fun e => run (h e)) w.
Proof. revert w. induction c as [[a|e|e]|u n IH]; intros w; try done. cbn. by rewrite IH. Qed.

Lemma run_capture {A} (c : proc A) w :
  run (pcapture c) w = (Ok (run c w).1, (run c w).2).
Proof. revert w. induction c as [o|u n IH]; intros w; [done|]. cbn. by rewrite IH. Qed.

Lemma run_atomic {A} (c : M W E A) w : run (atomic c) w = c w.
Proof. cbn. by destruct (c w). Qed.

(** ** Pools *)

(** One action of the [i]-th process; a finished one does nothing. *)
Definition step {A} (i : nat) (ps : list (proc A)) (w : W) : list (proc A) * W :=
  match ps !! i with
  | Some (Act u k) => (<[i := k w]> ps, u w)
  | _ => (ps, w)
  end.

Fixpoint exec {A} (sched : list nat) (ps : list (proc A)) (w : W) : list (proc A) * W :=
  match sched with
  | [] => (ps, w)
  | i :: s => let '(ps', w') := step i ps w in exec s ps' w'
  end.

Lemma exec_length {A} sched (ps : list (proc A)) w : length (exec sched ps w).1 = length ps.
Proof.
  revert ps w. induction sched as [|i s IH]; intros ps w; [done|]. cbn [exec].
  destruct (step i ps w) as [ps' w'] eqn:Hst. rewrite IH. unfold step in Hst.
  repeat case_match; simplify_eq; by rewrite ?length_insert.
Qed.

(** The results of the finished processes. *)
Definition results {A} (ps : list (proc A)) : list (outcome E A) :=
  omap (fun p => match p with Done o => Some o | _ => None end) ps.

(** ** Safety under every schedule

    Each process has a ghost state; [Inv] relates the world to all of them. A
    process is safe when each of its actions, from any world of the invariant,
    restores the invariant by changing its own ghost state alone, and its result
    fits the ghost state it ends in. *)

Section Safe.
Context {S A : Type}.
Variable Inv : W -> list S -> Prop.
Variable Post : S -> outcome E A -> Prop.

Fixpoint safe (i : nat) (p : proc A) (s : S) : Prop :=
  match p with
  | Done o => Post s o
  | Act u k => forall w ss, Inv w ss -> ss !! i = Some s ->
      exists s', Inv (u w) (<[i := s']> ss) /\ safe i (k w) s'
  end.

Definition pool_safe (ps : list (proc A)) (w : W) : Prop :=
  exists ss, Inv w ss /\ length ss = length ps /\
    forall i p s, ps !! i = Some p -> ss !! i = Some s -> safe i p s.

Lemma step_safe i ps w : pool_safe ps w -> pool_safe (step i ps w).1 (step i ps w).2.
Proof.
  intros (ss & HI & Hl & Hs). unfold step. destruct (ps !! i) as [[o|u k]|] eqn:Hi;
    [by exists ss| |by exists ss].
  assert (i < length ss)%nat as Hlt by (rewrite Hl; by eapply lookup_lt_Some).
  destruct (lookup_lt_is_Some_2 ss i Hlt) as [s Es].
  destruct (Hs i _ s Hi Es w ss HI Es) as (s' & HI' & Hk). exists (<[i := s']> ss).
  split; [done|]. split; [cbn; by rewrite !length_insert|]. intros j p sj Hp Hsj. cbn in Hp.
  destruct (decide (i = j)) as [<-|Hne].
  - rewrite list_lookup_insert_eq in Hp by (rewrite <- Hl; done).
    rewrite list_lookup_insert_eq in Hsj by done. by simplify_eq.
  - rewrite list_lookup_insert_ne in Hp by done. rewrite list_lookup_insert_ne in Hsj by done.
    by apply (Hs j).
Qed.

Theorem exec_safe sched ps w :
  pool_safe ps w -> pool_safe (exec sched ps w).1 (exec sched ps w).2.
Proof.
  revert ps w. induction sched as [|i s IH]; intros ps w H; [done|]. cbn [exec].
  pose proof (step_safe i ps w H) as H'. destruct (step i ps w) as [ps' w']. by apply IH.
Qed.
End Safe.

(** ** What a process answers from the worlds it meets

    [acts sched ps w i u]: in the run of the pool [ps] from [w], the [i]-th process
    takes one of its actions in the world [u]. [yields V phi p]: if every world
    in which [p] acts is one of [V], then its result is one of [phi]. *)

Definition acts {A} (sched : list nat) (ps : list (proc A)) (w : W) (i : nat) (u : W) : Prop :=
  exists s1 s2 v k, sched = s1 ++ i :: s2 /\ (exec s1 ps w).1 !! i = Some (Act v k) /\ (exec s1 ps w).2 = u.

Section Yields.
Variable V : W -> Prop.

Fixpoint yields {A} (phi : outcome E A -> Prop) (p : proc A) : Prop :=
  match p with
  | Done o => phi o
  | Act u k => forall w, V w -> yields phi (k w)
  end.

Lemma acts_later {A} j s (ps : list (proc A)) w i u :
  acts s (step j ps w).1 (step j ps w).2 i u -> acts (j :: s) ps w i u.
Proof.
  intros (s1 & s2 & v & k & -> & Ha & Hu). exists (j :: s1), s2, v, k.
  cbn [exec]. by destruct (step j ps w).
Qed.

Lemma exec_yields {A} (phi : outcome E A -> Prop) sched ps w i p o :
  ps !! i = Some p -> yields phi p -> (forall u, acts sched ps w i u -> V u) ->
  (exec sched ps w).1 !! i = Some (Done o) -> phi o.
Proof.
  revert ps w p. induction sched as [|j s IH]; intros ps w p Hi Hp HV Hend.
  { cbn in Hend. rewrite Hi in Hend. injection Hend as ->. exact Hp. }
  cbn [exec] in Hend. destruct (step j ps w) as [ps' w'] eqn:Hst.
  assert (forall u, acts s ps' w' i u -> V u) as HV'.
  { intros u Hu. apply HV, acts_later. by rewrite Hst. }
  assert (exists p', ps' !! i = Some p' /\ yields phi p') as (p' & Hi' & Hp'); [|by eapply IH].
  unfold step in Hst. destruct (ps !! j) as [[o'|u k]|] eqn:Hj; injection Hst as <- <-; [by exists p| |by exists p].
  destruct (decide (j = i)) as [->|Hne].
  - rewrite Hi in Hj. injection Hj as ->. exists (k w). split; [by apply list_lookup_insert_eq; eapply lookup_lt_Some|].
    apply Hp, HV. by exists [], s, u, k.
  - exists p. by rewrite list_lookup_insert_ne.
Qed.

Lemma yields_any {A} (phi : outcome E A -> Prop) p : (forall o, phi o) -> yields phi p.
Proof. intros H. induction p; cbn; auto. Qed.

Lemma yields_mono {A} (phi psi : outcome E A -> Prop) p :
  (forall o, phi o -> psi o) -> yields phi p -> yields psi p.
Proof. intros H. induction p; cbn; auto. Qed.

Lemma yields_bind {A B} (phi : outcome E A -> Prop) (psi : outcome E B -> Prop) c k :
  yields phi c -> (forall e, psi (Err e)) -> (forall e, psi (Throw e)) ->
  (forall a, phi (Ok a) -> yields psi (k a)) -> yields psi (pbind c k).
Proof. intros Hc He Ht Hk. induction c as [[]|]; cbn in *; auto. Qed.

(** After a call of which nothing is known. *)
Lemma yields_after {A B} (psi : outcome E B -> Prop) (c : proc A) k :
  (forall e, psi (Err e)) -> (forall e, psi (Throw e)) ->
  (forall a, yields psi (k a)) -> yields psi (pbind c k).
Proof. intros He Ht Hk. apply (yields_bind (fun _ => True)); auto. by apply yields_any. Qed.

Lemma yields_attempt {A} (phi : outcome E A -> Prop) (psi : outcome E (E + A) -> Prop) c :
  yields phi c ->
  (forall o, phi o -> psi (match o with
     | Ok a => Ok (inr a) | Err e => Ok (inl e) | Throw e => Throw e end)) ->
  yields psi (pattempt c).
Proof. intros Hc H. induction c as [o|]; cbn in *; [|auto]. specialize (H o Hc). by destruct o. Qed.

Lemma yields_catch {A} (phi psi : outcome E A -> Prop) c h :
  yields phi c -> (forall o, phi o -> match o with Throw e => yields psi (h e) | o => psi o end) ->
  yields psi (pcatch c h).
Proof. intros Hc H. induction c as [o|]; cbn in *; [|auto]. specialize (H o Hc). by destruct o. Qed.

Lemma yields_atomic {A} (phi : outcome E A -> Prop) (c : M W E A) :
  (forall w, V w -> phi (c w).1) -> yields phi (atomic c).
Proof. intros H w Hw. cbn. by apply H. Qed.
End Yields.

(** Rules of the logic. *)
Section Rules.
Context {S : Type}.
Variable Inv : W -> list S -> Prop.

Lemma safe_mono {A} (P Q : S -> outcome E A -> Prop) i p s :
  (forall s o, P s o -> Q s o) -> safe Inv P i p s -> safe Inv Q i p s.
Proof.
  intros H. revert s. induction p as [o|u k IH]; intros s; cbn; [apply H|].
  intros Hp w ss HI Hs. destruct (Hp w ss HI Hs) as (s' & HI' & Hk). eauto.
Qed.

Lemma safe_bind {A B} (Q : S -> outcome E A -> Prop) (P : S -> outcome E B -> Prop) i c k s :
  safe Inv Q i c s ->
  (forall s o, Q s o -> match o with
     | Ok a => safe Inv P i (k a) s | Err e => P s (Err e) | Throw e => P s (Throw e) end) ->
  safe Inv P i (pbind c k) s.
Proof.
  intros Hc Hk. revert s Hc. induction c as [o|u n IH]; intros s Hc; cbn in *.
  - specialize (Hk s o Hc). by destruct o.
  - intros w ss HI Hs. destruct (Hc w ss HI Hs) as (s' & HI' & Hn). eauto.
Qed.

Lemma safe_attempt {A} (P : S -> outcome E (E + A) -> Prop) i c s :
  safe Inv (fun s o => P s (match o with
     | Ok a => Ok (inr a) | Err e => Ok (inl e) | Throw e => Throw e end)) i c s ->
  safe Inv P i (pattempt c) s.
Proof.
  revert s. induction c as [[]|u n IH]; intros s Hc; cbn in *; try done.
  intros w ss HI Hs. destruct (Hc w ss HI Hs) as (s' & HI' & Hn). eauto.
Qed.

Lemma safe_catch {A} (Q P : S -> outcome E A -> Prop) i c h s :
  safe Inv Q i c s ->
  (forall s o, Q s o -> match o with Throw e => safe Inv P i (h e) s | o => P s o end) ->
  safe Inv P i (pcatch c h) s.
Proof.
  intros Hc Hk. revert s Hc. induction c as [o|u n IH]; intros s Hc; cbn in *.
  - specialize (Hk s o Hc). by destruct o.
  - intros w ss HI Hs. destruct (Hc w ss HI Hs) as (s' & HI' & Hn). eauto.
Qed.

Lemma safe_capture {A} (P : S -> outcome E (outcome E A) -> Prop) i c s :
  safe Inv (fun s o => P s (Ok o)) i c s -> safe Inv P i (pcapture c) s.
Proof.
  revert s. induction c as [o|u n IH]; intros s Hc; cbn in *; [done|].
  intros w ss HI Hs. destruct (Hc w ss HI Hs) as (s' & HI' & Hn). eauto.
Qed.

Lemma safe_atomic {A} (P : S -> outcome E A -> Prop) i (c : M W E A) s :
  (forall w ss, Inv w ss -> ss !! i = Some s ->
     exists s', Inv (c w).2 (<[i := s']> ss) /\ P s' (c w).1) ->
  safe Inv P i (atomic c) s.
Proof. intros H. exact H. Qed.

(** A call that leaves its ghost state alone, with what it may answer. *)
Definition keeps {A} (phi : outcome E A -> Prop) (c : proc A) : Prop :=
  forall i s, safe Inv (fun s' o => s' = s /\ phi o) i c s.

Lemma keeps_mono {A} (phi psi : outcome E A -> Prop) c :
  (forall o, phi o -> psi o) -> keeps phi c -> keeps psi c.
Proof. intros H Hc i s. eapply safe_mono; [|apply Hc]. intros s' o [-> Ho]. auto. Qed.

Lemma keeps_done {A} (phi : outcome E A -> Prop) o : phi o -> keeps phi (Done o).
Proof. intros H i s. by split. Qed.

Lemma keeps_atomic {A} (phi : outcome E A -> Prop) (c : M W E A) :
  (forall w ss, Inv w ss -> Inv (c w).2 ss /\ phi (c w).1) -> keeps phi (atomic c).
Proof.
  intros H i s. apply safe_atomic. intros w ss HI Hs. exists s. rewrite list_insert_id by done.
  by destruct (H w ss HI).
Qed.

Lemma keeps_bind {A B} (phi : outcome E A -> Prop) (psi : outcome E B -> Prop) c k :
  keeps phi c ->
  (forall o, phi o -> match o with
     | Ok a => keeps psi (k a) | Err e => psi (Err e) | Throw e => psi (Throw e) end) ->
  keeps psi (pbind c k).
Proof.
  intros Hc Hk i s. eapply safe_bind; [apply Hc|]. intros s' o [-> Ho]. specialize (Hk o Ho).
  destruct o; [apply Hk|by split..].
Qed.

Lemma keeps_attempt {A} (phi : outcome E A -> Prop) (psi : outcome E (E + A) -> Prop) c :
  keeps phi c ->
  (forall o, phi o -> psi (match o with
     | Ok a => Ok (inr a) | Err e => Ok (inl e) | Throw e => Throw e end)) ->
  keeps psi (pattempt c).
Proof.
  intros Hc H i s. apply safe_attempt. eapply safe_mono; [|apply Hc]. intros s' o [-> Ho].
  split; [done|]. auto.
Qed.

Lemma keeps_catch {A} (phi psi : outcome E A -> Prop) c h :
  keeps phi c ->
  (forall o, phi o -> match o with Throw e => keeps psi (h e) | o => psi o end) ->
  keeps psi (pcatch c h).
Proof.
  intros Hc H i s. eapply safe_catch; [apply Hc|]. intros s' o [-> Ho]. specialize (H o Ho).
  destruct o; [by split|by split|apply H].
Qed.

(** A call of which only the invariant matters. *)
Definition quietly {A} (c : proc A) : Prop := keeps (fun _ => True) c.

Lemma quietly_done {A} (o : outcome E A) : quietly (Done o).
Proof. by apply keeps_done. Qed.

Lemma quietly_bind {A B} (c : proc A) (k : A -> proc B) :
  quietly c -> (forall a, quietly (k a)) -> quietly (pbind c k).
Proof. intros Hc Hk. eapply keeps_bind; [exact Hc|]. intros [a|e|e] _; [apply Hk|done..]. Qed.

Lemma quietly_attempt {A} (c : proc A) : quietly c -> quietly (pattempt c).
Proof. intros Hc. by eapply keeps_attempt. Qed.

Lemma quietly_catch {A} (c : proc A) h : quietly c -> (forall e, quietly (h e)) -> quietly (pcatch c h).
Proof. intros Hc Hh. eapply keeps_catch; [exact Hc|]. intros [] _; [done..|apply Hh]. Qed.

Lemma quietly_capture {A} (c : proc A) : quietly c -> quietly (pcapture c).
Proof. intros Hc i s. apply safe_capture. eapply safe_mono; [|apply Hc]. by intros s' o [-> _]. Qed.

Lemma quietly_keeps {A} (phi : outcome E A -> Prop) c : keeps phi c -> quietly c.
Proof. intros Hc. by eapply keeps_mono; [|exact Hc]. Qed.

(** After a quiet call, a process goes on where it was. *)
Lemma safe_quietly {A B} (P : S -> outcome E B -> Prop) i (c : proc A) k s :
  quietly c -> (forall a, safe Inv P i (k a) s) -> (forall e, P s (Err e)) ->
  (forall e, P s (Throw e)) -> safe Inv P i (pbind c k) s.
Proof.
  intros Hc Hk He Ht. eapply safe_bind; [apply Hc|]. intros s' [a|e|e] [-> _]; auto.
Qed.

Lemma safe_keeps {A B} (phi : outcome E A -> Prop) (P : S -> outcome E B -> Prop) i (c : proc A) k s :
  keeps phi c -> (forall a, phi (Ok a) -> safe Inv P i (k a) s) -> (forall e, P s (Err e)) ->
  (forall e, P s (Throw e)) -> safe Inv P i (pbind c k) s.
Proof.
  intros Hc Hk He Ht. eapply safe_bind; [apply Hc|]. intros s' [a|e|e] [-> Ho]; auto.
Qed.
End Rules.
End Proc.

(** What a call keeps under every schedule, it keeps alone. *)
Lemma keeps_run {W E A} (Inv : W -> list unit -> Prop) (phi : outcome E A -> Prop) (c : @proc W E A) w :
  keeps Inv phi c -> Inv w [tt] -> Inv (run c w).2 [tt] /\ phi (run c w).1.
Proof.
  intros Hc. specialize (Hc O tt). revert w. induction c as [o|u k IH]; intros w HI; [by split; [|apply Hc]|].
  destruct (Hc w [tt] HI eq_refl) as ([] & HI' & Hk). cbn. by apply IH.
Qed.

(** The same for a call that moves its ghost state. *)
Lemma safe_run {W E A S} (Inv : W -> list S -> Prop) (Post : S -> outcome E A -> Prop) (c : @proc W E A) s w :
  safe Inv Post O c s -> Inv w [s] -> exists s', Inv (run c w).2 [s'] /\ Post s' (run c w).1.
Proof.
  revert s w. induction c as [o|u k IH]; intros s w Hc HI; [by exists s|].
  destruct (Hc w [s] HI eq_refl) as (s' & HI' & Hk). cbn. by apply (IH w s').
Qed.

(** What every process of a pool keeps, the pool keeps. *)
Lemma exec_quietly {W E A} (I : W -> Prop) sched (ps : list (@proc W E A)) w :
  I w -> (forall p, p ∈ ps -> quietly (fun w (_ : list unit) => I w) p) -> I (exec sched ps w).2.
Proof.
  intros Hw Hp. assert (pool_safe (fun w (_ : list unit) => I w) (fun _ _ => True) ps w) as Hs.
  { exists (replicate (length ps) tt). split; [done|]. split; [by rewrite length_replicate|].
    intros i p [] Hi _. eapply safe_mono; [|apply Hp]; [done|by eapply list_elem_of_lookup_2]. }
  apply (exec_safe _ _ sched) in Hs as (ss & HI & _). done.
Qed.

(** *** An invariant of the worlds a process meets

    [upholds V I phi p]: in the worlds of [V] each action of [p] keeps [I], and its
    result is one of [phi]. *)

Section Upholds.
Context {W E : Type}.

Fixpoint upholds {A} (V I : W -> Prop) (phi : outcome E A -> Prop) (p : @proc W E A) : Prop :=
  match p with
  | Done _ o => phi o
  | Act _ u k => forall w, V w -> I w -> I (u w) /\ upholds V I phi (k w)
  end.

Lemma exec_upholds {A} (V : nat -> W -> Prop) (I : W -> Prop) (phi : outcome E A -> Prop) sched ps w :
  I w -> (forall i p, ps !! i = Some p -> upholds (V i) I phi p) ->
  (forall i u, acts sched ps w i u -> V i u) -> I (exec sched ps w).2.
Proof.
  revert ps w. induction sched as [|j s IH]; intros ps w Hw Hps HV; [done|]. cbn [exec].
  assert (forall i u, acts s (step j ps w).1 (step j ps w).2 i u -> V i u) as HV'
    by (intros i u Hu; by apply HV, acts_later).
  unfold step in HV' |- *. destruct (ps !! j) as [[o|u k]|] eqn:Hj; [by apply IH| |by apply IH].
  destruct (Hps j _ Hj w) as [Hu Hk]; [apply HV; by exists [], s, u, k|done|]. apply IH; [done| |done].
  intros i p Hi. destruct (decide (j = i)) as [<-|Hne].
  - rewrite list_lookup_insert_eq in Hi by (by eapply lookup_lt_Some). by injection Hi as <-.
  - rewrite list_lookup_insert_ne in Hi by done. by apply Hps.
Qed.

Lemma upholds_yields {A} (V I : W -> Prop) (phi : outcome E A -> Prop) p :
  quietly (fun w (_ : list unit) => I w) p -> yields V phi p -> upholds V I phi p.
Proof.
  intros Hq. specialize (Hq O tt). induction p as [o|u k IH]; [done|]. intros Hy w HV HI.
  destruct (Hq w [tt] HI eq_refl) as ([] & HI' & Hk). split; [done|]. apply IH; [done|by apply Hy].
Qed.

Lemma upholds_quietly {A} (V I : W -> Prop) (p : @proc W E A) :
  quietly (fun w (_ : list unit) => I w) p -> upholds V I (fun _ => True) p.
Proof. intros Hq. apply upholds_yields; [done|by apply yields_any]. Qed.

Lemma upholds_bind {A B} (V I : W -> Prop) (phi : outcome E A -> Prop) c (k : A -> @proc W E B) :
  upholds V I phi c -> (forall a, phi (Ok a) -> upholds V I (fun _ => True) (k a)) ->
  upholds V I (fun _ => True) (pbind c k).
Proof.
  intros Hc Hk. induction c as [[a|e|e]|u n IH]; cbn in *; [auto..|]. intros w HV HI.
  destruct (Hc w HV HI) as [HI' Hn]. split; [done|]. by apply IH.
Qed.

Lemma upholds_after {A B} (V I : W -> Prop) (c : @proc W E A) (k : A -> @proc W E B) :
  quietly (fun w (_ : list unit) => I w) c -> (forall a, upholds V I (fun _ => True) (k a)) ->
  upholds V I (fun _ => True) (pbind c k).
Proof. intros Hc Hk. eapply upholds_bind; [by apply upholds_quietly|]. auto. Qed.
End Upholds.

(** ** A process on a part of the world

    [get] and [put] are that part; the rest of the world is left alone. *)

Section Focus.
Context {W V E : Type}.
Variable get : W -> V.
Variable put : V -> W -> W.

Fixpoint focus {A} (p : @proc V E A) : @proc W E A :=
  match p with
  | Done _ o => Done _ o
  | Act _ u k => Act _ (fun w => put (u (get w)) w) (fun w => focus (k (get w)))
  end.

Hypothesis put_get : forall w, put (get w) w = w.
Hypothesis get_put : forall v w, get (put v w) = v.
Hypothesis put_put : forall v v' w, put v (put v' w) = put v w.

Lemma run_focus {A} (p : @proc V E A) w :
  run (focus p) w = ((run p (get w)).1, put (run p (get w)).2 w).
Proof.
  revert w. induction p as [o|u k IH]; intros w; [by rewrite <- (put_get w) at 1|]. cbn.
  rewrite IH, get_put, put_put. done.
Qed.
End Focus.

Lemma yields_focus {W V E A} (get : W -> V) (put : V -> W -> W) (P : W -> Prop) (phi : outcome E A -> Prop)
    (p : @proc V E A) :
  yields (fun v => exists w, P w /\ get w = v) phi p -> yields P phi (focus get put p).
Proof. induction p as [o|u k IH]; cbn; [done|]. intros Hp w Hw. apply IH, Hp. by exists w. Qed.

(** An invariant that does not look at that part. *)
Lemma quietly_focus {W V E A S} (get : W -> V) (put : V -> W -> W) (Inv : W -> list S -> Prop)
    (p : @proc V E A) :
  (forall v w ss, Inv w ss -> Inv (put v w) ss) -> quietly Inv (focus get put p).
Proof.
  intros Hput. induction p as [o|u k IH]; [by apply quietly_done|].
  intros i s w ss HI Hs. exists s. rewrite list_insert_id by done. split; [by apply Hput|].
  apply IH.
Qed.

(** An invariant of that part alone. *)
Lemma safe_focus {W V E A S} (get : W -> V) (put : V -> W -> W) (Inv : V -> list S -> Prop)
    (Post : S -> outcome E A -> Prop) i (p : @proc V E A) s :
  (forall v w, get (put v w) = v) ->
  safe Inv Post i p s -> safe (fun w ss => Inv (get w) ss) Post i (focus get put p) s.
Proof.
  intros Hgp. revert s. induction p as [o|u k IH]; intros s Hp; [done|].
  intros w ss HI Hs. destruct (Hp (get w) ss HI Hs) as (s' & HI' & Hk). exists s'.
  rewrite Hgp. split; [done|]. by apply IH.
Qed.

Arguments proc W E A : clear implicits.
Arguments Done {W E A} o.
Arguments Act {W E A} u k.

Notation "'let*' x := c 'in' k" := (pbind c (fun x => k))
  (at level 10, x pattern, c at level 100, k at level 200) : flash_scope.
Notation "c ;;; k" := (pbind c (fun _ => k))
  (at level 100, k at level 200, right associativity) : flash_scope.

Create HintDb quiet_calls.
#[export] Hint Resolve quietly_done quietly_bind quietly_attempt quietly_catch : quiet_calls.
#[export] Hint Extern 1 (quietly _ (pret _)) => apply quietly_done : quiet_calls.
#[export] Hint Extern 1 (quietly _ (pfail _)) => apply quietly_done : quiet_calls.
#[export] Hint Extern 1 (quietly _ (pthrow _)) => apply quietly_done : quiet_calls.
#[export] Hint Extern 2 (quietly _ (match ?x with _ => _ end)) => destruct x : quiet_calls.
#[export] Hint Extern 2 (quietly _ (if ?x then _ else _)) => destruct x : quiet_calls.

(** ** What the ghost states of a pool add up to *)

Open Scope Z_scope.

Definition total {S} (f : S -> Z) (ss : list S) : Z := foldr (fun g n => f g + n) 0 ss.

Lemma total_insert {S} (f : S -> Z) ss i g g' : ss !! i = Some g ->
  total f (<[i := g']> ss) = total f ss - f g + f g'.
Proof.
  revert i. induction ss as [|x ss IH]; intros [|i] Hi; [done|done| |].
  - injection Hi as ->. cbn. lia.
  - change (f x + total f (<[i := g']> ss) = f x + total f ss - f g + f g').
    rewrite (IH i Hi). lia.
Qed.

Lemma total_le {S} (f f' : S -> Z) ss : (forall g, f g <= f' g) -> total f ss <= total f' ss.
Proof. intros Hf. unfold total. induction ss as [|g ss IH]; cbn; [done|]. specialize (Hf g). lia. Qed.

Lemma total_nonneg {S} (f : S -> Z) ss : (forall g, 0 <= f g) -> 0 <= total f ss.
Proof. intros Hf. unfold total. induction ss as [|g ss IH]; cbn; [done|]. specialize (Hf g). lia. Qed.

Lemma total_elem {S} (f : S -> Z) ss i g : (forall g, 0 <= f g) -> ss !! i = Some g -> f g <= total f ss.
Proof.
  intros Hf. revert i. induction ss as [|x ss IH]; intros [|i] Hi; [done|done| |]; cbn in *.
  - injection Hi as ->. pose proof (total_nonneg f ss Hf). unfold total in *. lia.
  - specialize (IH i Hi). specialize (Hf x). unfold total in *. lia.
Qed.
