(* ===== verification/Errors.v ===== *)
(** * Error values

    The application returns errors as values of classes derived from [Error].
    An error of the model is its class, its message and the HTTP status an
    IBEX error carries ([httpCode], or [status] on a raw fetch error). *)

From stdpp Require Import base strings.
From Stdlib Require Import ZArith.
From S2P Require Import Prelude.

Open Scope Z_scope.

Inductive error_class :=
(* domain/shared/errors.ts *)
| DomainError | ValidationError | BigIntConversionError | BigIntFloatConversionError
| BtcAmountTooLargeError | UsdAmountTooLargeError
| InvalidBtcPaymentAmountError | InvalidUsdPaymentAmountError | UnsupportedCurrencyError
(* domain/errors.ts *)
| RepositoryError | UnknownRepositoryError | CouldNotUpdateError
| DuplicateKeyForPersistError | CannotConnectToDbError | DbConnectionClosedError
| InvalidDocumentIdForDbError
| CouldNotFindAccountError | CouldNotFindWalletFromIdError | InvalidWalletId
(* domain/bitcoin/lightning/errors.ts *)
| LnInvoiceDecodeError | LnInvoiceMissingPaymentSecretError
| InvalidChecksumForLnInvoiceError | UnknownLnInvoiceDecodeError
(* app/cash-wallet-cutover/errors.ts *)
| InvalidCashWalletCutoverAmountError | InvalidCashWalletMigrationTransitionError
| InvalidCashWalletCutoverStateTransitionError | CashWalletCutoverInProgressError
| CashWalletMigrationFailedError | CashWalletMissingLegacyUsdWalletError
| CashWalletMissingUsdtWalletError | CashWalletCutoverPreflightError
| CashWalletCutoverTreasuryInsufficientBalanceError
(* services/ibex/errors.ts *)
| IbexError | UnexpectedIbexResponse | InsufficientIbexBalance | CompletedInvoice
(* domain/errors.ts *)
| MismatchedCurrencyForWalletError | InactiveAccountError | InsufficientBalanceError
| CouldNotFindAccountFromUsernameError | CouldNotFindAccountFromKratosIdError
| IdempotencyKeyReuseError | InvalidIdempotencyKeyError
(* domain/cache, domain/lock *)
| CacheNotAvailableError | CacheUndefinedError | UnknownCacheServiceError
| ResourceAttemptsLockServiceError | UnknownLockServiceError
(* services/fygaro, services/frappe *)
| FygaroReservationWriteError | FygaroTopupHistoryQueryError | FygaroSettingsQueryError
| FeeDiscountQueryError | BridgeTransferRequestUpsertError
(* services/bridge/errors.ts *)
| BridgeError | BridgeApiError | BridgeTimeoutError | BridgeRateLimitError
| BridgeCustomerNotFoundError | BridgeKycPendingError | BridgeKycRejectedError
| BridgeKycOffboardedError | BridgeKycTierCeilingExceededError | BridgeInsufficientFundsError
| BridgeWithdrawalNetAmountTooLowError | BridgeAccountLevelError | BridgeDisabledError
| BridgeDepositInstructionsMissingError | BridgeWithdrawalNotFoundError
| BridgeWithdrawalAlreadyInitiatedError | BridgePlaidNotAvailableError
| BridgeInvalidPlaidTokenError
(* domain/invite, domain/rate-limit *)
| CouldNotFindError | InviteAlreadyAcceptedError | InvalidExpirationDateError
| InviteCreateRateLimiterExceededError | InviteTargetRateLimiterExceededError
| UnknownRateLimitServiceError | RateLimiterExceededError
(* domain/ledger, domain/ipfetcher, domain/notifications *)
| UnknownLedgerError | UnknownIpFetcherServiceError | InvalidAccountIdError
| UnknownNotificationsServiceError | DeviceTokensNotRegisteredNotificationsServiceError
(* domain/shared, domain/payments *)
| UnknownBigIntConversionError | InvalidZeroAmountPriceRatioInputError
| SubOneCentSatAmountForUsdSelfSendError | LnPaymentRequestNonZeroAmountRequiredError
| LnPaymentRequestZeroAmountRequiredError | LnPaymentRequestInTransitError
| LnHashPresentInIntraLedgerFlowError | IntraLedgerHashPresentInLnFlowError
| SkipProbeForPubkeyError | MissingPropsInTransactionForPaymentFlowError
| NonLnPaymentTransactionForPaymentFlowError | InvalidLightningPaymentFlowBuilderStateError
| InvalidLightningPaymentFlowStateError | InvalidOnChainPaymentFlowBuilderStateError
(* domain/errors.ts *)
| SelfPaymentError | AlreadyPaidError | LessThanDustThresholdError
| InvalidCurrencyForWalletError | BadAmountForRouteError
| CouldNotFindWalletFromAccountIdAndCurrencyError | CouldNotFindBtcWalletForAccountError
| CouldNotFindLightningPaymentFlowError | IntraledgerLimitsExceededError
| WithdrawalLimitsExceededError | TradeIntraAccountLimitsExceededError
| NoTransactionToUpdateError | InvalidLedgerTransactionStateError | InconsistentDataError
| InvalidDisplayCurrencyError
(* domain/ledger, services/ledger, domain/lock *)
| FeeDifferenceError | NoTransactionToSettleError | CouldNotFindTransactionError
| CouldNotFindTransactionMetadataError | InvalidPaginationArgumentsError | DuplicateError
| CouldNotUpdateLightningPaymentFlowError | NoExpiredLightningPaymentFlowsError
| CouldNotFindLnPaymentFromHashError | PaymentNotFoundError | InvalidLedgerTransactionId
| MissingExpectedDisplayAmountsForTransactionError | MultiplePendingPaymentsForHashError
| ResourceExpiredLockServiceError
(* domain/bitcoin/lightning, domain/dealer-price *)
| LightningServiceError | LnPaymentPendingError | LnAlreadyPaidError
| MaxFeeTooLargeForRoutelessPaymentError | DealerPriceServiceError
| OffChainServiceUnavailableError | OffChainServiceBusyError | UnknownLightningServiceError
| NoValidNodeForPubkeyError | RouteNotFoundError | UnknownNextPeerError
| PaymentRejectedByDestinationError | InvoiceExpiredOrBadPaymentHashError
| PaymentAttemptsTimedOutError | PaymentInTransitionError | TemporaryChannelFailureError
| TemporaryNodeFailureError | InsufficientBalanceForLnPaymentError | LookupPaymentTimedOutError
| BadPaymentDataError | InvoiceNotFoundError | SecretDoesNotMatchAnyExistingHodlInvoiceError
| OnChainServiceUnavailableError | UnknownRouteNotFoundError
| DestinationMissingDependentFeatureError | CorruptLndDbError
| CouldNotDecodeReturnedPaymentRequest
(* domain/api-keys/errors.ts *)
| InvalidApiKeyNameError | InvalidApiKeyScopeError | InvalidApiKeyIpConstraintError
| InvalidApiKeyRateLimitError | MaxApiKeysPerAccountError | InvalidApiKeyFormatError
| ApiKeyExpiredError | ApiKeySecretMismatchError | ApiKeyIpNotAllowedError
| ApiKeyCannotManageApiKeysError | InsufficientApiKeyScopeError
(* domain/errors.ts *)
| CouldNotFindWalletInvoiceError
(* app/offers, services/frappe, services/ibex *)
| CashoutDraftError | CashoutSubmitError | BankAccountQueryError | ExchangeRateQueryError
| OfferNotFound | FailedIbexPayment
(* services/frappe *)
| UpgradeRequestCreateError | UpgradeRequestQueryError | SetDocTypeValueError
| BankAccountUpdateRequestCreateError | BankAccountUpdateRequestQueryError
(* domain/accounts, requests *)
| InvalidAccountError | InvalidWalletForAccountError
(* errors of libraries *)
| ExecutionError | AxiosError
(* exceptions of the language *)
| JsSyntaxError | JsTypeError | JsError.

#[global] Instance error_class_eq_dec : EqDecision error_class.
Proof. solve_decision. Defined.

(** [error.name]: the class name. *)
Definition error_name (c : error_class) : string :=
  match c with
  | DomainError => "DomainError"
  | ValidationError => "ValidationError"
  | BigIntConversionError => "BigIntConversionError"
  | BigIntFloatConversionError => "BigIntFloatConversionError"
  | BtcAmountTooLargeError => "BtcAmountTooLargeError"
  | UsdAmountTooLargeError => "UsdAmountTooLargeError"
  | InvalidBtcPaymentAmountError => "InvalidBtcPaymentAmountError"
  | InvalidUsdPaymentAmountError => "InvalidUsdPaymentAmountError"
  | UnsupportedCurrencyError => "UnsupportedCurrencyError"
  | RepositoryError => "RepositoryError"
  | UnknownRepositoryError => "UnknownRepositoryError"
  | CouldNotUpdateError => "CouldNotUpdateError"
  | DuplicateKeyForPersistError => "DuplicateKeyForPersistError"
  | CannotConnectToDbError => "CannotConnectToDbError"
  | DbConnectionClosedError => "DbConnectionClosedError"
  | InvalidDocumentIdForDbError => "InvalidDocumentIdForDbError"
  | CouldNotFindAccountError => "CouldNotFindAccountError"
  | CouldNotFindWalletFromIdError => "CouldNotFindWalletFromIdError"
  | InvalidWalletId => "InvalidWalletId"
  | LnInvoiceDecodeError => "LnInvoiceDecodeError"
  | LnInvoiceMissingPaymentSecretError => "LnInvoiceMissingPaymentSecretError"
  | InvalidChecksumForLnInvoiceError => "InvalidChecksumForLnInvoiceError"
  | UnknownLnInvoiceDecodeError => "UnknownLnInvoiceDecodeError"
  | InvalidCashWalletCutoverAmountError => "InvalidCashWalletCutoverAmountError"
  | InvalidCashWalletMigrationTransitionError => "InvalidCashWalletMigrationTransitionError"
  | InvalidCashWalletCutoverStateTransitionError => "InvalidCashWalletCutoverStateTransitionError"
  | CashWalletCutoverInProgressError => "CashWalletCutoverInProgressError"
  | CashWalletMigrationFailedError => "CashWalletMigrationFailedError"
  | CashWalletMissingLegacyUsdWalletError => "CashWalletMissingLegacyUsdWalletError"
  | CashWalletMissingUsdtWalletError => "CashWalletMissingUsdtWalletError"
  | CashWalletCutoverPreflightError => "CashWalletCutoverPreflightError"
  | CashWalletCutoverTreasuryInsufficientBalanceError => "CashWalletCutoverTreasuryInsufficientBalanceError"
  | IbexError => "IbexError"
  | UnexpectedIbexResponse => "UnexpectedIbexResponse"
  | InsufficientIbexBalance => "InsufficientIbexBalance"
  | CompletedInvoice => "CompletedInvoice"
  | MismatchedCurrencyForWalletError => "MismatchedCurrencyForWalletError"
  | InactiveAccountError => "InactiveAccountError"
  | InsufficientBalanceError => "InsufficientBalanceError"
  | CouldNotFindAccountFromUsernameError => "CouldNotFindAccountFromUsernameError"
  | CouldNotFindAccountFromKratosIdError => "CouldNotFindAccountFromKratosIdError"
  | IdempotencyKeyReuseError => "IdempotencyKeyReuseError"
  | InvalidIdempotencyKeyError => "InvalidIdempotencyKeyError"
  | CacheNotAvailableError => "CacheNotAvailableError"
  | CacheUndefinedError => "CacheUndefinedError"
  | UnknownCacheServiceError => "UnknownCacheServiceError"
  | ResourceAttemptsLockServiceError => "ResourceAttemptsLockServiceError"
  | UnknownLockServiceError => "UnknownLockServiceError"
  | FygaroReservationWriteError => "FygaroReservationWriteError"
  | FygaroTopupHistoryQueryError => "FygaroTopupHistoryQueryError"
  | FygaroSettingsQueryError => "FygaroSettingsQueryError"
  | FeeDiscountQueryError => "FeeDiscountQueryError"
  | BridgeTransferRequestUpsertError => "BridgeTransferRequestUpsertError"
  | BridgeError => "BridgeError"
  | BridgeApiError => "BridgeApiError"
  | BridgeTimeoutError => "BridgeTimeoutError"
  | BridgeRateLimitError => "BridgeRateLimitError"
  | BridgeCustomerNotFoundError => "BridgeCustomerNotFoundError"
  | BridgeKycPendingError => "BridgeKycPendingError"
  | BridgeKycRejectedError => "BridgeKycRejectedError"
  | BridgeKycOffboardedError => "BridgeKycOffboardedError"
  | BridgeKycTierCeilingExceededError => "BridgeKycTierCeilingExceededError"
  | BridgeInsufficientFundsError => "BridgeInsufficientFundsError"
  | BridgeWithdrawalNetAmountTooLowError => "BridgeWithdrawalNetAmountTooLowError"
  | BridgeAccountLevelError => "BridgeAccountLevelError"
  | BridgeDisabledError => "BridgeDisabledError"
  | BridgeDepositInstructionsMissingError => "BridgeDepositInstructionsMissingError"
  | BridgeWithdrawalNotFoundError => "BridgeWithdrawalNotFoundError"
  | BridgeWithdrawalAlreadyInitiatedError => "BridgeWithdrawalAlreadyInitiatedError"
  | BridgePlaidNotAvailableError => "BridgePlaidNotAvailableError"
  | BridgeInvalidPlaidTokenError => "BridgeInvalidPlaidTokenError"
  | UnknownLedgerError => "UnknownLedgerError"
  | UnknownIpFetcherServiceError => "UnknownIpFetcherServiceError"
  | InvalidAccountIdError => "InvalidAccountIdError"
  | UnknownNotificationsServiceError => "UnknownNotificationsServiceError"
  | DeviceTokensNotRegisteredNotificationsServiceError => "DeviceTokensNotRegisteredNotificationsServiceError"
  | CouldNotFindError => "CouldNotFindError"
  | InviteAlreadyAcceptedError => "InviteAlreadyAcceptedError"
  | InvalidExpirationDateError => "InvalidExpirationDateError"
  | InviteCreateRateLimiterExceededError => "InviteCreateRateLimiterExceededError"
  | InviteTargetRateLimiterExceededError => "InviteTargetRateLimiterExceededError"
  | UnknownRateLimitServiceError => "UnknownRateLimitServiceError"
  | RateLimiterExceededError => "RateLimiterExceededError"
  | UnknownBigIntConversionError => "UnknownBigIntConversionError"
  | InvalidZeroAmountPriceRatioInputError => "InvalidZeroAmountPriceRatioInputError"
  | SubOneCentSatAmountForUsdSelfSendError => "SubOneCentSatAmountForUsdSelfSendError"
  | LnPaymentRequestNonZeroAmountRequiredError => "LnPaymentRequestNonZeroAmountRequiredError"
  | LnPaymentRequestZeroAmountRequiredError => "LnPaymentRequestZeroAmountRequiredError"
  | LnPaymentRequestInTransitError => "LnPaymentRequestInTransitError"
  | LnHashPresentInIntraLedgerFlowError => "LnHashPresentInIntraLedgerFlowError"
  | IntraLedgerHashPresentInLnFlowError => "IntraLedgerHashPresentInLnFlowError"
  | SkipProbeForPubkeyError => "SkipProbeForPubkeyError"
  | MissingPropsInTransactionForPaymentFlowError => "MissingPropsInTransactionForPaymentFlowError"
  | NonLnPaymentTransactionForPaymentFlowError => "NonLnPaymentTransactionForPaymentFlowError"
  | InvalidLightningPaymentFlowBuilderStateError => "InvalidLightningPaymentFlowBuilderStateError"
  | InvalidLightningPaymentFlowStateError => "InvalidLightningPaymentFlowStateError"
  | InvalidOnChainPaymentFlowBuilderStateError => "InvalidOnChainPaymentFlowBuilderStateError"
  | SelfPaymentError => "SelfPaymentError"
  | AlreadyPaidError => "AlreadyPaidError"
  | LessThanDustThresholdError => "LessThanDustThresholdError"
  | InvalidCurrencyForWalletError => "InvalidCurrencyForWalletError"
  | BadAmountForRouteError => "BadAmountForRouteError"
  | CouldNotFindWalletFromAccountIdAndCurrencyError => "CouldNotFindWalletFromAccountIdAndCurrencyError"
  | CouldNotFindBtcWalletForAccountError => "CouldNotFindBtcWalletForAccountError"
  | CouldNotFindLightningPaymentFlowError => "CouldNotFindLightningPaymentFlowError"
  | IntraledgerLimitsExceededError => "IntraledgerLimitsExceededError"
  | WithdrawalLimitsExceededError => "WithdrawalLimitsExceededError"
  | TradeIntraAccountLimitsExceededError => "TradeIntraAccountLimitsExceededError"
  | NoTransactionToUpdateError => "NoTransactionToUpdateError"
  | InvalidLedgerTransactionStateError => "InvalidLedgerTransactionStateError"
  | InconsistentDataError => "InconsistentDataError"
  | InvalidDisplayCurrencyError => "InvalidDisplayCurrencyError"
  | FeeDifferenceError => "FeeDifferenceError"
  | NoTransactionToSettleError => "NoTransactionToSettleError"
  | CouldNotFindTransactionError => "CouldNotFindTransactionError"
  | MissingExpectedDisplayAmountsForTransactionError => "MissingExpectedDisplayAmountsForTransactionError"
  | MultiplePendingPaymentsForHashError => "MultiplePendingPaymentsForHashError"
  | ResourceExpiredLockServiceError => "ResourceExpiredLockServiceError"
  | LightningServiceError => "LightningServiceError"
  | LnPaymentPendingError => "LnPaymentPendingError"
  | LnAlreadyPaidError => "LnAlreadyPaidError"
  | MaxFeeTooLargeForRoutelessPaymentError => "MaxFeeTooLargeForRoutelessPaymentError"
  | DealerPriceServiceError => "DealerPriceServiceError"
  | CouldNotFindTransactionMetadataError => "CouldNotFindTransactionMetadataError"
  | InvalidPaginationArgumentsError => "InvalidPaginationArgumentsError"
  | DuplicateError => "DuplicateError"
  | CouldNotUpdateLightningPaymentFlowError => "CouldNotUpdateLightningPaymentFlowError"
  | NoExpiredLightningPaymentFlowsError => "NoExpiredLightningPaymentFlowsError"
  | CouldNotFindLnPaymentFromHashError => "CouldNotFindLnPaymentFromHashError"
  | PaymentNotFoundError => "PaymentNotFoundError"
  | InvalidLedgerTransactionId => "InvalidLedgerTransactionId"
  | OffChainServiceUnavailableError => "OffChainServiceUnavailableError"
  | OffChainServiceBusyError => "OffChainServiceBusyError"
  | UnknownLightningServiceError => "UnknownLightningServiceError"
  | NoValidNodeForPubkeyError => "NoValidNodeForPubkeyError"
  | RouteNotFoundError => "RouteNotFoundError"
  | UnknownNextPeerError => "UnknownNextPeerError"
  | PaymentRejectedByDestinationError => "PaymentRejectedByDestinationError"
  | InvoiceExpiredOrBadPaymentHashError => "InvoiceExpiredOrBadPaymentHashError"
  | PaymentAttemptsTimedOutError => "PaymentAttemptsTimedOutError"
  | PaymentInTransitionError => "PaymentInTransitionError"
  | TemporaryChannelFailureError => "TemporaryChannelFailureError"
  | TemporaryNodeFailureError => "TemporaryNodeFailureError"
  | InsufficientBalanceForLnPaymentError => "InsufficientBalanceForLnPaymentError"
  | LookupPaymentTimedOutError => "LookupPaymentTimedOutError"
  | BadPaymentDataError => "BadPaymentDataError"
  | InvoiceNotFoundError => "InvoiceNotFoundError"
  | SecretDoesNotMatchAnyExistingHodlInvoiceError => "SecretDoesNotMatchAnyExistingHodlInvoiceError"
  | OnChainServiceUnavailableError => "OnChainServiceUnavailableError"
  | UnknownRouteNotFoundError => "UnknownRouteNotFoundError"
  | DestinationMissingDependentFeatureError => "DestinationMissingDependentFeatureError"
  | CorruptLndDbError => "CorruptLndDbError"
  | CouldNotDecodeReturnedPaymentRequest => "CouldNotDecodeReturnedPaymentRequest"
  | InvalidApiKeyNameError => "InvalidApiKeyNameError"
  | InvalidApiKeyScopeError => "InvalidApiKeyScopeError"
  | InvalidApiKeyIpConstraintError => "InvalidApiKeyIpConstraintError"
  | InvalidApiKeyRateLimitError => "InvalidApiKeyRateLimitError"
  | MaxApiKeysPerAccountError => "MaxApiKeysPerAccountError"
  | InvalidApiKeyFormatError => "InvalidApiKeyFormatError"
  | ApiKeyExpiredError => "ApiKeyExpiredError"
  | ApiKeySecretMismatchError => "ApiKeySecretMismatchError"
  | ApiKeyIpNotAllowedError => "ApiKeyIpNotAllowedError"
  | ApiKeyCannotManageApiKeysError => "ApiKeyCannotManageApiKeysError"
  | InsufficientApiKeyScopeError => "InsufficientApiKeyScopeError"
  | CouldNotFindWalletInvoiceError => "CouldNotFindWalletInvoiceError"
  | CashoutDraftError => "CashoutDraftError"
  | CashoutSubmitError => "CashoutSubmitError"
  | BankAccountQueryError => "BankAccountQueryError"
  | ExchangeRateQueryError => "ExchangeRateQueryError"
  | OfferNotFound => "OfferNotFound"
  | FailedIbexPayment => "FailedIbexPayment"
  | UpgradeRequestCreateError => "UpgradeRequestCreateError"
  | UpgradeRequestQueryError => "UpgradeRequestQueryError"
  | SetDocTypeValueError => "SetDocTypeValueError"
  | BankAccountUpdateRequestCreateError => "BankAccountUpdateRequestCreateError"
  | BankAccountUpdateRequestQueryError => "BankAccountUpdateRequestQueryError"
  | InvalidAccountError => "InvalidAccountError"
  | InvalidWalletForAccountError => "InvalidWalletForAccountError"
  | ExecutionError => "ExecutionError"
  | AxiosError => "AxiosError"
  | JsSyntaxError => "SyntaxError"
  | JsTypeError => "TypeError"
  | JsError => "Error"
  end.

(** [error instanceof BridgeError], and [instanceof RepositoryError]: the class or
    one derived from it. *)
Definition is_BridgeError (c : error_class) : bool :=
  match c with
  | BridgeError | BridgeApiError | BridgeTimeoutError | BridgeRateLimitError
  | BridgeCustomerNotFoundError | BridgeKycPendingError | BridgeKycRejectedError
  | BridgeKycOffboardedError | BridgeKycTierCeilingExceededError | BridgeInsufficientFundsError
  | BridgeWithdrawalNetAmountTooLowError | BridgeAccountLevelError | BridgeDisabledError
  | BridgeDepositInstructionsMissingError | BridgeWithdrawalNotFoundError
  | BridgeWithdrawalAlreadyInitiatedError | BridgePlaidNotAvailableError
  | BridgeInvalidPlaidTokenError => true
  | _ => false
  end.

Definition is_RepositoryError (c : error_class) : bool :=
  match c with
  | RepositoryError | UnknownRepositoryError | CouldNotUpdateError | DuplicateKeyForPersistError
  | CannotConnectToDbError | DbConnectionClosedError | InvalidDocumentIdForDbError
  | CouldNotFindError | CouldNotFindAccountError | CouldNotFindWalletFromIdError
  | CouldNotFindAccountFromUsernameError | CouldNotFindAccountFromKratosIdError => true
  | _ => false
  end.

(** [err_httpCode] is the code an error of ours carries; [err_status] the property
    [status] of an error thrown by a library. *)
Record error := mkError {
  err_class : error_class;
  err_message : string;
  err_httpCode : option Z;
  err_status : option Z
}.

#[global] Instance error_eq_dec : EqDecision error.
Proof. solve_decision. Defined.

(** An error built from a message alone. *)
Definition new_error (c : error_class) (msg : string) : error := mkError c msg None None.

(** An error built without a message: [DomainError] fills it in. *)
Definition new_error0 (c : error_class) : error := new_error c "Unknown error".
