(* ===== verification/BigintMoney.v ===== *)
(** * The fixed-point money library

    Model of [src/src/domain/shared/bigint-money]: [utils.ts] (rounding
    division, the conversion of a value to the internal integer, rendering)
    and the class [Money] of [money.ts]. A [Money] holds an integer that is its
    value times [10 ^ 20]. *)

From stdpp Require Import base list strings.
From Stdlib Require Import ZArith Lia Ascii.
From S2P Require Import Prelude JsStrings JsNumbers.

Open Scope Z_scope.

(** ** utils.ts *)

Definition PRECISION_I : nat := 20.
Definition PRECISION : Z := 20.
Definition PRECISION_M : Z := 10 ^ PRECISION.

(** [BANKERS] and [TRUNCATE]/[TOWARDS_0] are aliases of the enum's values. *)
Inductive Round := HALF_TO_EVEN | HALF_AWAY_FROM_0 | HALF_TOWARDS_0 | TRUNCATE.

(** The exceptions the library throws. *)
Inductive money_error :=
| MoneyTypeError
| UnsafeIntegerError
| IncompatibleCurrencyError
| DivisionByZero
| PowWholeNumbers.

Definition divide (a b : Z) (round : Round) : outcome money_error Z :=
  let aAbs := if 0 <? a then a else - a in
  let bAbs := if 0 <? b then b else - b in
  if bAbs =? 0 then Throw DivisionByZero
  else
    let result := Z.quot aAbs bAbs in
    let rem := Z.rem aAbs bAbs in
    let result :=
      if bAbs <? rem * 2 then
        match round with TRUNCATE => result | _ => result + 1 end
      else if rem * 2 =? bAbs then
        match round with
        | HALF_TO_EVEN => if Z.rem result 2 =? 1 then result + 1 else result
        | HALF_AWAY_FROM_0 => result + 1
        | TRUNCATE | HALF_TOWARDS_0 => result
        end
      else result in
    Ok (if xorb (0 <? a) (0 <? b) then - result else result).

(** The argument of the constructor and of the arithmetic methods. *)
Inductive money_input :=
| InMoney (source : Z)
| InString (s : string)
| InBigint (z : Z)
| InNumber (n : js_num).

(** The groups of the pattern "optional minus, optional digits, optional point
    followed by digits": the sign, the whole part ([None] when it has no digit)
    and the fraction after a point. *)
Definition money_match (s : string) : option (bool * option string * option string) :=
  let '(neg, body) := match s with String "-" s' => (true, s') | _ => (false, s) end in
  let '(whole, rest) := span_digits body in
  let wholePart := if nonempty whole then Some whole else None in
  match rest with
  | EmptyString => Some (neg, wholePart, None)
  | String "." frac => if all_digits frac then Some (neg, wholePart, Some frac) else None
  | _ => None
  end.

Definition moneyValueToBigInt (input : money_input) (round : Round) : outcome money_error Z :=
  match input with
  | InMoney source => Ok source
  | InString s =>
      match money_match s with
      | None => Throw MoneyTypeError
      | Some (neg, wholePart, fracPart) =>
          let output :=
            match wholePart with None => 0 | Some w => digits_val w * PRECISION_M end in
          let output :=
            match fracPart with
            | None => Ok output
            | Some frac =>
                let precisionDifference := PRECISION - slen frac in
                if 0 <=? precisionDifference
                then Ok (output + digits_val frac * 10 ^ precisionDifference)
                else outcome_map (fun q => output + q)
                       (divide (digits_val frac) (10 ^ (- precisionDifference)) round)
            end in
          outcome_map (fun z => if neg then z * -1 else z) output
      end
  | InBigint z => Ok (z * PRECISION_M)
  | InNumber n =>
      if num_isSafeInteger n then Ok (num_to_Z n * PRECISION_M)
      else Throw UnsafeIntegerError
  end.

Definition bigintToFixed (value : Z) (precision : nat) (round : Round) : outcome money_error string :=
  match precision with
  | O => outcome_map bigint_toString (divide value PRECISION_M round)
  | _ =>
      let wholePart := Z.quot value PRECISION_M in
      let negative := value <? 0 in
      let remainder := Z.rem value PRECISION_M in
      let p := Z.of_nat precision in
      let remainder :=
        if PRECISION <? p then Ok (remainder * 10 ^ (p - PRECISION))
        else divide remainder (10 ^ (PRECISION - p)) round in
      outcome_map (fun remainder =>
        let remainder := if remainder <? 0 then remainder * -1 else remainder in
        let remainderStr := pad_start precision (bigint_toString remainder) in
        let carry := (precision <? String.length remainderStr)%nat in
        let wholePart :=
          if carry then wholePart + (if negative then -1 else 1) else wholePart in
        let remainderStr := if carry then zeros precision else remainderStr in
        let wholePartStr := bigint_toString wholePart in
        let wholePartStr :=
          if String.eqb wholePartStr "0" && negative then "-0" else wholePartStr in
        wholePartStr +:+ String "." remainderStr) remainder
  end.

(** ** money.ts *)

Record Money := mkMoney { currency : string; value : Z; round : Round }.

Definition Money_new (v : money_input) (cur : string) (r : Round) : outcome money_error Money :=
  outcome_map (fun z => mkMoney cur z r) (moneyValueToBigInt v r).

Definition fromSource (v : Z) (cur : string) (r : Round) : Money := mkMoney cur v r.
Definition toSource (m : Money) : Z := value m.

(** An argument that is itself a [Money], or a plain value. *)
Inductive operand := OpMoney (m : Money) | OpValue (v : money_input).

Definition operand_input (o : operand) : money_input :=
  match o with OpMoney m => InMoney (toSource m) | OpValue v => v end.

Definition incompatible (m : Money) (o : operand) : bool :=
  match o with
  | OpMoney n => negb (String.eqb (currency n) (currency m))
  | OpValue _ => false
  end.

Definition toFixed (m : Money) (precision : nat) : outcome money_error string :=
  bigintToFixed (value m) precision (round m).

Definition add (m : Money) (o : operand) : outcome money_error Money :=
  if incompatible m o then Throw IncompatibleCurrencyError
  else outcome_map (fun v => fromSource (v + value m) (currency m) (round m))
         (moneyValueToBigInt (operand_input o) (round m)).

Definition subtract (m : Money) (o : operand) : outcome money_error Money :=
  if incompatible m o then Throw IncompatibleCurrencyError
  else outcome_map (fun v => fromSource (value m - v) (currency m) (round m))
         (moneyValueToBigInt (operand_input o) (round m)).

(** The dividend is scaled by [PRECISION_M] once more, since both operands
    already carry that factor. *)
Definition Money_divide (m : Money) (o : operand) : outcome money_error Money :=
  match moneyValueToBigInt (InBigint (value m)) (round m),
        moneyValueToBigInt (operand_input o) (round m) with
  | Ok val1, Ok val2 =>
      outcome_map (fun q => fromSource q (currency m) (round m)) (divide val1 val2 (round m))
  | Ok _, (Err e | Throw e) => Throw e
  | (Err e | Throw e), _ => Throw e
  end.

Definition multiply (m : Money) (o : operand) : outcome money_error Money :=
  match moneyValueToBigInt (operand_input o) (round m) with
  | Ok valBig =>
      outcome_map (fun q => fromSource q (currency m) (round m))
        (divide (valBig * value m) PRECISION_M (round m))
  | Err e | Throw e => Throw e
  end.

Definition compare (m : Money) (o : operand) : outcome money_error Z :=
  if incompatible m o then Throw IncompatibleCurrencyError
  else outcome_map (fun bigVal =>
         if bigVal =? value m then 0 else if value m <? bigVal then -1 else 1)
         (moneyValueToBigInt (operand_input o) (round m)).

Definition sign (m : Money) : outcome money_error Z :=
  compare m (OpValue (InNumber (num_of_Z 0))).

Definition abs (m : Money) : outcome money_error Money :=
  match sign m with
  | Ok s => multiply m (OpValue (InNumber (num_of_Z s)))
  | Err e | Throw e => Throw e
  end.

Definition isLesserThan (m : Money) (o : operand) : outcome money_error bool :=
  outcome_map (fun c => c =? -1) (compare m o).
Definition isGreaterThan (m : Money) (o : operand) : outcome money_error bool :=
  outcome_map (fun c => c =? 1) (compare m o).
Definition isEqual (m : Money) (o : operand) : outcome money_error bool :=
  outcome_map (fun c => c =? 0) (compare m o).
Definition isLesserThanOrEqual (m : Money) (o : operand) : outcome money_error bool :=
  outcome_map (fun c => c <? 1) (compare m o).
Definition isGreaterThanOrEqual (m : Money) (o : operand) : outcome money_error bool :=
  outcome_map (fun c => -1 <? c) (compare m o).

(** [pow] takes a number or a bigint; [===] tells the two apart. *)
Inductive pow_exponent := PowNumber (n : js_num) | PowBigint (z : Z).

Definition pow_invalid (e : pow_exponent) : bool :=
  match e with PowNumber n => negb (num_isInteger n) | PowBigint _ => false end.
Definition pow_Z (e : pow_exponent) : Z :=
  match e with PowNumber n => num_to_Z n | PowBigint z => z end.
Definition pow_is_number_one (e : pow_exponent) : bool :=
  match e with PowNumber n => num_to_Z n =? 1 | PowBigint _ => false end.
Definition pow_negate (e : pow_exponent) : pow_exponent :=
  match e with
  | PowNumber n => PowNumber (JsNum (- mant n) (expo n))
  | PowBigint z => PowBigint (- z)
  end.

(** The branches for exponents that are not negative. *)
Definition pow_nonneg (m : Money) (e : pow_exponent) : outcome money_error Money :=
  if pow_invalid e then Throw PowWholeNumbers
  else if 1 <? pow_Z e then
    outcome_map (fun q => fromSource q (currency m) (round m))
      (divide (value m ^ pow_Z e) (PRECISION_M ^ (pow_Z e - 1)) (round m))
  else if pow_is_number_one e then Ok m
  else Money_new (InNumber (num_of_Z 1)) (currency m) (round m).

Definition pow (m : Money) (e : pow_exponent) : outcome money_error Money :=
  if pow_invalid e then Throw PowWholeNumbers
  else if pow_Z e <? 0 then
    match Money_new (InNumber (num_of_Z 1)) (currency m) (round m),
          pow_nonneg m (pow_negate e) with
    | Ok one, Ok p => Money_divide one (OpMoney p)
    | Ok _, (Err x | Throw x) => Throw x
    | (Err x | Throw x), _ => Throw x
    end
  else pow_nonneg m e.

(** [result[i] += add] for [i] below [n]; writing past the end of the array
    adds a bigint to [undefined], which throws. *)
Fixpoint add_first (n : nat) (d : Z) (l : list Z) : option (list Z) :=
  match n, l with
  | O, _ => Some l
  | S n', x :: l' => (fun r => (x + d) :: r) <$> add_first n' d l'
  | S _, [] => None
  end.

Definition allocate (m : Money) (parts precision : nat) : outcome money_error (list Money) :=
  let bParts := Z.of_nat parts in
  if bParts =? 0 then Throw DivisionByZero
  else if PRECISION <? Z.of_nat precision then Throw MoneyTypeError
  else
    let fraction := Z.quot (value m) bParts in
    let remainder := Z.rem (value m) bParts in
    let precisionRounder := 10 ^ (PRECISION - Z.of_nat precision) in
    let roundedFraction := Z.quot fraction precisionRounder in
    let roundedRemainder := Z.rem fraction precisionRounder in
    let totalRoundedRemainder :=
      Z.quot ((roundedRemainder + remainder) * bParts) precisionRounder in
    let d := if 0 <? totalRoundedRemainder then 1 else -1 in
    match add_first (Z.abs_nat totalRoundedRemainder) d (repeat roundedFraction parts) with
    | None => Throw MoneyTypeError
    | Some l => Ok (map (fun item => fromSource (item * precisionRounder) (currency m) (round m)) l)
    end.

(** [this.toFixed(PRECISION_I).replace(/\.?0+$/, "")] *)
Definition format (m : Money) : outcome money_error string :=
  outcome_map strip_dot_zeros (toFixed m PRECISION_I).

Definition toJSON (m : Money) : outcome money_error (string * string) :=
  outcome_map (fun s => (s, currency m)) (format m).

(** ** Rounding division

    The reference: [q] is a nearest integer to [a / b], and on a tie the one
    the mode asks for; [TRUNCATE] drops the fraction. *)

Definition tie_rule (r : Round) (a b q : Z) : Prop :=
  match r with
  | HALF_TO_EVEN => Z.Even q
  | HALF_AWAY_FROM_0 => Z.abs a < Z.abs (q * b)
  | HALF_TOWARDS_0 | TRUNCATE => Z.abs (q * b) < Z.abs a
  end.

Definition rounds_to (r : Round) (a b q : Z) : Prop :=
  match r with
  | TRUNCATE => q = Z.quot a b
  | _ => 2 * Z.abs (a - q * b) <= Z.abs b /\
         (2 * Z.abs (a - q * b) = Z.abs b -> tie_rule r a b q)
  end.

(** The rounding [divide] applies to absolute values. *)
Definition round_abs (A B : Z) (r : Round) : Z :=
  let k := A / B in
  let s := A mod B in
  if B <? s * 2 then match r with TRUNCATE => k | _ => k + 1 end
  else if s * 2 =? B then
    match r with
    | HALF_TO_EVEN => if Z.even k then k else k + 1
    | HALF_AWAY_FROM_0 => k + 1
    | TRUNCATE | HALF_TOWARDS_0 => k
    end
  else k.

Lemma if_pos_abs a : (if 0 <? a then a else - a) = Z.abs a.
Proof. destruct (Z.ltb_spec 0 a); lia. Qed.

Lemma rem2_even k : 0 <= k -> (Z.rem k 2 =? 1) = negb (Z.even k).
Proof.
  intros. rewrite Z.rem_mod_nonneg by lia. rewrite Zmod_even.
  by destruct (Z.even k).
Qed.

Lemma divide_round_abs a b r : b ≠ 0 ->
  divide a b r =
    Ok (if xorb (0 <? a) (0 <? b) then - round_abs (Z.abs a) (Z.abs b) r
        else round_abs (Z.abs a) (Z.abs b) r).
Proof.
  intros Hb. unfold divide. rewrite !if_pos_abs.
  destruct (Z.eqb_spec (Z.abs b) 0); [lia|].
  rewrite Z.quot_div_nonneg, Z.rem_mod_nonneg by lia.
  assert (0 <= Z.abs a / Z.abs b) by (apply Z.div_pos; lia).
  rewrite rem2_even by done. unfold round_abs.
  do 2 f_equal; destruct (Z.even (Z.abs a / Z.abs b)); reflexivity.
Qed.

Lemma round_abs_spec A B r : 0 <= A -> 0 < B -> rounds_to r A B (round_abs A B r).
Proof.
  intros HA HB. unfold round_abs.
  pose proof (Z.div_mod A B ltac:(lia)) as Hdm.
  pose proof (Z.mod_pos_bound A B HB) as Hs.
  assert (0 <= A / B) as Hk by (apply Z.div_pos; lia).
  set (k := A / B) in *. set (s := A mod B) in *.
  assert (A - k * B = s) as E0 by lia.
  assert (A - (k + 1) * B = s - B) as E1 by lia.
  assert (0 <= k * B) by nia.
  destruct (Z.ltb_spec B (s * 2)), (Z.eqb_spec (s * 2) B); try lia; destruct r; cbn;
    rewrite ?E0, ?E1; try (by rewrite Z.quot_div_nonneg by lia);
    try (split; [lia|intros]; nia || lia).
  destruct (Z.even k) eqn:Ev.
  - rewrite E0. split; [lia|]. intros _. by apply Z.even_spec.
  - rewrite E1. split; [lia|]. intros _. apply Z.even_spec.
    rewrite Z.add_1_r, Z.even_succ, <- Z.negb_even, Ev. done.
Qed.

Lemma rounds_to_opp_a r a b q : b ≠ 0 -> rounds_to r a b q -> rounds_to r (- a) b (- q).
Proof.
  intros Hb. assert (- a - - q * b = - (a - q * b)) as E by lia.
  destruct r; cbn; rewrite ?E, ?Z.abs_opp; rewrite ?Z.mul_opp_l, ?Z.abs_opp; try done.
  - intros [? H]. split; [done|]. intros Ht. specialize (H Ht).
    apply Z.even_spec. rewrite Z.even_opp. by apply Z.even_spec.
  - intros ->. by rewrite Z.quot_opp_l.
Qed.

Lemma rounds_to_opp_b r a b q : b ≠ 0 -> rounds_to r a b q -> rounds_to r a (- b) (- q).
Proof.
  intros Hb. assert (a - - q * - b = a - q * b) as E by lia.
  assert (- q * - b = q * b) as E' by lia.
  destruct r; cbn; rewrite ?E, ?E', ?Z.abs_opp; try done.
  - intros [? H]. split; [done|]. intros Ht. specialize (H Ht).
    apply Z.even_spec. rewrite Z.even_opp. by apply Z.even_spec.
  - intros ->. by rewrite Z.quot_opp_r.
Qed.

Lemma divide_rounds a b r : b ≠ 0 ->
  exists q, divide a b r = Ok q /\ rounds_to r a b q.
Proof.
  intros Hb. rewrite divide_round_abs by done. eexists; split; [done|].
  pose proof (round_abs_spec (Z.abs a) (Z.abs b) r ltac:(lia) ltac:(lia)) as H.
  set (q := round_abs _ _ _) in *. clearbody q.
  destruct (Z.ltb_spec 0 a), (Z.ltb_spec 0 b); cbn [xorb].
  - by rewrite !Z.abs_eq in H by lia.
  - rewrite Z.abs_eq, Z.abs_neq in H by lia.
    apply rounds_to_opp_b in H; [|lia]. by rewrite Z.opp_involutive in H.
  - rewrite Z.abs_neq, Z.abs_eq in H by lia.
    apply rounds_to_opp_a in H; [|lia]. by rewrite Z.opp_involutive in H.
  - rewrite !Z.abs_neq in H by lia.
    apply rounds_to_opp_a in H; [|lia]. apply rounds_to_opp_b in H; [|lia].
    by rewrite !Z.opp_involutive in H.
Qed.

Lemma midpoint_between a b q :
  b ≠ 0 -> 2 * a = 2 * (q * b) + b ->
  (Z.abs a < Z.abs (q * b) /\ Z.abs a < Z.abs ((q + 1) * b)) \/
  (Z.abs (q * b) < Z.abs a /\ Z.abs ((q + 1) * b) < Z.abs a) -> False.
Proof.
  intros Hb Ha. rewrite Z.mul_add_distr_r, Z.mul_1_l.
  assert (0 <= q * b * b \/ q * b * b + b * b <= 0) as Hs.
  { destruct (Z.le_gt_cases 0 q); [left|right]; nia. }
  assert (0 < b /\ (0 <= q * b \/ q * b + b <= 0) \/
          b < 0 /\ (q * b <= 0 \/ 0 <= q * b + b)) as Hc by nia.
  lia.
Qed.

(** The mode decides between two nearest integers, so the result is unique. *)
Lemma rounds_to_unique a b r q q' : b ≠ 0 ->
  rounds_to r a b q -> rounds_to r a b q' -> q = q'.
Proof.
  intros Hb. destruct r; cbn; [| | |congruence].
  all: intros [H1 T1] [H2 T2].
  all: assert (Z.abs (q - q') * Z.abs b <= Z.abs b)
         by (rewrite <- Z.abs_mul; lia).
  all: assert (Z.abs (q - q') <= 1) by nia.
  all: destruct (decide (q = q')) as [|Hne]; [done|exfalso].
  all: assert (q = q' + 1 \/ q = q' - 1) as [-> | ->] by lia.
  all: specialize (T1 ltac:(lia)); specialize (T2 ltac:(lia)).
  1,2: destruct T1 as [x ?], T2 as [y ?]; lia.
  all: first [ solve [apply (midpoint_between a b q'); lia]
             | solve [apply (midpoint_between a b (q' - 1)); lia] ].
Qed.

(** ** Rendering and parsing *)

Lemma PRECISION_M_split p : 0 <= p <= PRECISION ->
  PRECISION_M = 10 ^ p * 10 ^ (PRECISION - p).
Proof.
  intros. unfold PRECISION_M. rewrite <- Z.pow_add_r by lia. f_equal. lia.
Qed.

(** A multiple of an even multiple of the divisor passes through rounding. *)
Lemma round_abs_shift W E R D r : 0 <= W -> 0 <= R -> 0 < D -> Z.even E = true ->
  round_abs (W * (E * D) + R) D r = W * E + round_abs R D r.
Proof.
  intros. unfold round_abs.
  replace (W * (E * D) + R) with (W * E * D + R) by lia.
  rewrite Z.div_add_l by lia.
  replace ((W * E * D + R) mod D) with (R mod D)
    by (rewrite Z.add_comm, Z_mod_plus_full; done).
  rewrite Z.even_add, (Z.even_mul W E).
  replace (Z.even E) with true by done. rewrite orb_true_r. cbn [xorb eqb].
  destruct (D <? R mod D * 2), (R mod D * 2 =? D), r, (Z.even (R / D)); cbn; lia.
Qed.

Lemma round_abs_nonneg A B r : 0 <= A -> 0 < B -> 0 <= round_abs A B r.
Proof.
  intros. unfold round_abs. assert (0 <= A / B) by (apply Z.div_pos; lia).
  repeat case_match; lia.
Qed.

Lemma round_abs_1 A r : round_abs A 1 r = A.
Proof.
  unfold round_abs. rewrite Z.div_1_r, Z.mod_1_r. done.
Qed.

Definition sgn_str (neg : bool) : string := if neg then "-" else "".

Lemma bigint_toString_signed (neg : bool) n : 0 <= n ->
  (let s := bigint_toString (if neg then - n else n) in
   if String.eqb s "0" && neg then "-0" else s) = sgn_str neg +:+ print_nonneg n.
Proof.
  intros Hn. destruct neg; cbn [sgn_str].
  - destruct (decide (n = 0)) as [->|Hz]; [done|].
    unfold bigint_toString. destruct (Z.ltb_spec (- n) 0); [|lia].
    rewrite Z.opp_involutive. done.
  - rewrite andb_false_r. by apply bigint_toString_nonneg.
Qed.

(** Sign and magnitude of the value a non-negative number of decimals shows. *)
Lemma bigintToFixed_shape v p r : (0 < p)%nat -> Z.of_nat p <= PRECISION ->
  exists w fr,
    bigintToFixed v p r = Ok (sgn_str (v <? 0) +:+ (print_nonneg w +:+ String "." fr)) /\
    0 <= w /\ all_digits fr = true /\ slen fr = Z.of_nat p /\
    w * 10 ^ Z.of_nat p + digits_val fr =
      round_abs (Z.abs v) (10 ^ (PRECISION - Z.of_nat p)) r.
Proof.
  intros Hp0 Hp. set (P := 10 ^ Z.of_nat p). set (D := 10 ^ (PRECISION - Z.of_nat p)).
  assert (0 < P) as HP by (apply pow10_pos; lia).
  assert (0 < D) as HD by (apply pow10_pos; lia).
  assert (PRECISION_M = P * D) as HM by (apply PRECISION_M_split; lia).
  assert (Z.even P = true) as HPe.
  { subst P. rewrite Z.even_pow by lia. done. }
  set (W := Z.abs v / PRECISION_M). set (R := Z.abs v mod PRECISION_M).
  assert (Z.abs v = W * (P * D) + R) as Hv.
  { rewrite <- HM. subst W R. pose proof (Z.div_mod (Z.abs v) PRECISION_M). lia. }
  assert (0 <= W) by (apply Z.div_pos; lia).
  assert (0 <= R < PRECISION_M) by (apply Z.mod_pos_bound; lia).
  set (rho := round_abs R D r).
  assert (0 <= rho) by (apply round_abs_nonneg; lia).
  assert (round_abs (Z.abs v) D r = W * P + rho) as Hr.
  { rewrite Hv. apply round_abs_shift; lia || done. }
  assert (Z.quot v PRECISION_M = if v <? 0 then - W else W) as Hq.
  { destruct (Z.ltb_spec v 0); subst W.
    - rewrite Z.abs_neq by lia. rewrite <- (Z.opp_involutive v) at 1.
      rewrite Z.quot_opp_l, Z.quot_div_nonneg by lia. done.
    - rewrite Z.abs_eq by lia. apply Z.quot_div_nonneg; lia. }
  assert (Z.rem v PRECISION_M = if v <? 0 then - R else R) as Hrem.
  { destruct (Z.ltb_spec v 0); subst R.
    - rewrite Z.abs_neq by lia. rewrite <- (Z.opp_involutive v) at 1.
      rewrite Z.rem_opp_l, Z.rem_mod_nonneg by lia. done.
    - rewrite Z.abs_eq by lia. apply Z.rem_mod_nonneg; lia. }
  assert (exists q, divide (Z.rem v PRECISION_M) D r = Ok q /\
            (if q <? 0 then q * -1 else q) = rho) as (q & Hdiv & Habs).
  { rewrite divide_round_abs by lia. eexists; split; [done|].
    assert (Z.abs (Z.rem v PRECISION_M) = R) as -> by (rewrite Hrem; destruct (v <? 0); lia).
    rewrite (Z.abs_eq D) by lia. fold rho.
    destruct (xorb _ _); [destruct (Z.ltb_spec (- rho) 0)|destruct (Z.ltb_spec rho 0)]; lia. }
  unfold bigintToFixed. destruct p as [|p']; [lia|]. set (p := S p') in *.
  destruct (Z.ltb_spec PRECISION (Z.of_nat p)); [lia|]. fold D.
  rewrite Hdiv. cbn [outcome_map]. rewrite Habs, (bigint_toString_nonneg rho) by done.
  assert ((p <? String.length (pad_start p (print_nonneg rho)))%nat = (P <=? rho)) as ->.
  { pose proof (pad_start_len p (print_nonneg rho)) as Hl.
    pose proof (print_nonneg_len rho (Z.of_nat p) ltac:(done) ltac:(lia)) as Hi.
    fold P in Hi. unfold slen in *.
    destruct (Nat.ltb_spec p (String.length (pad_start p (print_nonneg rho)))),
      (Z.leb_spec P rho); try done; lia. }
  destruct (Z.leb_spec P rho) as [Hge|Hlt].
  - exists (W + 1), (zeros p).
    assert (rho = P) as Hrho.
    { assert (rho <= P); [|lia]. subst rho. unfold round_abs.
      assert (R / D < P) by (apply Z.div_lt_upper_bound; lia).
      repeat case_match; lia. }
    rewrite zeros_val, zeros_len. split; [|split; [lia|split; [apply zeros_digits|lia]]].
    rewrite Hq. rewrite <- app_assoc_str, <- bigint_toString_signed by lia. cbn zeta.
    assert ((if v <? 0 then - W else W) + (if v <? 0 then -1 else 1) =
            if v <? 0 then - (W + 1) else W + 1) as -> by (destruct (v <? 0); lia).
    done.
  - exists W, (pad_start p (print_nonneg rho)).
    rewrite pad_start_val, print_nonneg_val by done.
    split; [|split; [done|split; [by apply pad_start_digits, print_nonneg_digits|]]].
    + rewrite Hq, <- app_assoc_str, <- bigint_toString_signed by lia. done.
    + split; [|lia]. rewrite pad_start_len.
      pose proof (proj2 (print_nonneg_len rho (Z.of_nat p) ltac:(done) ltac:(lia)) Hlt). lia.
Qed.

(** The pattern's groups on a rendered number. *)
Lemma money_match_render neg w rest :
  all_digits w = true -> nonempty w = true ->
  match rest with String c _ => is_digit c = false | _ => True end ->
  money_match (sgn_str neg +:+ (w +:+ rest)) =
    match rest with
    | EmptyString => Some (neg, Some w, None)
    | String "." frac => if all_digits frac then Some (neg, Some w, Some frac) else None
    | _ => None
    end.
Proof.
  intros Hw Hne Hr. unfold money_match.
  assert ((match sgn_str neg +:+ (w +:+ rest) with
           | String "-" s' => (true, s') | _ => (false, sgn_str neg +:+ (w +:+ rest)) end)
          = (neg, w +:+ rest)) as ->.
  { destruct neg; cbn [sgn_str]; [done|]. rewrite app_nil_str.
    destruct w as [|c w]; [done|]. rewrite app_cons. cbn [all_digits] in Hw.
    apply andb_true_iff in Hw as [Hc _].
    destruct c as [[] [] [] [] [] [] [] []]; done. }
  rewrite span_digits_app by done. by rewrite Hne.
Qed.

Lemma sign_apply (neg : bool) z :
  (if neg then z * -1 else z) = if neg then - z else z.
Proof. destruct neg; lia. Qed.

(** Reading back a rendered decimal with at most twenty decimals. *)
Lemma parse_render neg w fr r :
  0 <= w -> all_digits fr = true -> slen fr <= PRECISION ->
  moneyValueToBigInt (InString (sgn_str neg +:+ (print_nonneg w +:+ String "." fr))) r =
    Ok (let z := (w * 10 ^ slen fr + digits_val fr) * 10 ^ (PRECISION - slen fr) in
        if neg then - z else z).
Proof.
  intros Hw Hfr Hlen. unfold moneyValueToBigInt.
  rewrite money_match_render by
    first [by apply print_nonneg_digits | apply nonempty_slen, print_nonneg_spec; done | done].
  rewrite Hfr, print_nonneg_val by done.
  destruct (Z.leb_spec 0 (PRECISION - slen fr)); [|lia].
  cbn [outcome_map]. rewrite sign_apply. cbn zeta. do 2 f_equal.
  all: rewrite (PRECISION_M_split (slen fr)) by (pose proof (slen_nonneg fr); lia); destruct neg; lia.
Qed.

Lemma parse_render_int neg w r : 0 <= w ->
  moneyValueToBigInt (InString (sgn_str neg +:+ print_nonneg w)) r =
    Ok (if neg then - (w * PRECISION_M) else w * PRECISION_M).
Proof.
  intros Hw. rewrite <- (app_nil_r_str (print_nonneg w)). unfold moneyValueToBigInt.
  rewrite money_match_render by
    first [by apply print_nonneg_digits | apply nonempty_slen, print_nonneg_spec; done | done].
  cbn [outcome_map]. rewrite print_nonneg_val by done. by rewrite sign_apply.
Qed.

Lemma toFixed_parse v p r r' : (p <= PRECISION_I)%nat ->
  exists s q, bigintToFixed v p r = Ok s /\
    divide v (10 ^ (PRECISION - Z.of_nat p)) r = Ok q /\
    moneyValueToBigInt (InString s) r' = Ok (q * 10 ^ (PRECISION - Z.of_nat p)).
Proof.
  intros Hp. assert (Z.of_nat p <= PRECISION) as Hp'
    by (unfold PRECISION_I in Hp; unfold PRECISION; lia).
  set (D := 10 ^ (PRECISION - Z.of_nat p)).
  assert (0 < D) as HD by (apply pow10_pos; lia).
  destruct p as [|p'].
  - unfold bigintToFixed. change PRECISION_M with D.
    destruct (divide_rounds v D r) as (q & Hq & _); [lia|].
    rewrite Hq. eexists _, q. split; [done|]. split; [done|].
    assert (bigint_toString q = sgn_str (q <? 0) +:+ print_nonneg (Z.abs q)) as ->.
    { unfold bigint_toString. destruct (Z.ltb_spec q 0); cbn [sgn_str].
      - by rewrite Z.abs_neq by lia.
      - by rewrite Z.abs_eq by lia. }
    rewrite parse_render_int by lia. change PRECISION_M with D. f_equal.
    destruct (Z.ltb_spec q 0); lia.
  - destruct (bigintToFixed_shape v (S p') r) as (w & fr & -> & Hw & Hfr & Hlen & Hval);
      [lia..|].
    fold D in Hval. eexists _, _. split; [done|].
    split; [apply divide_round_abs; lia|].
    rewrite parse_render by (try done; lia). rewrite Hlen, Hval. fold D.
    rewrite (Z.abs_eq D) by lia. f_equal. cbn zeta.
    pose proof (round_abs_1 0 r).
    destruct (Z.ltb_spec v 0), (Z.ltb_spec 0 v), (Z.ltb_spec 0 D); cbn [xorb]; try lia.
    assert (v = 0) as -> by lia. change (Z.abs 0) with 0.
    assert (round_abs 0 D r = 0) as ->; [|lia].
    unfold round_abs. rewrite Z.div_0_l, Z.mod_0_l by lia.
    destruct (Z.ltb_spec D (0 * 2)), (Z.eqb_spec (0 * 2) D); lia.
Qed.

Lemma format_parse m :
  exists s, format m = Ok s /\ moneyValueToBigInt (InString s) (round m) = Ok (value m).
Proof.
  unfold format, toFixed.
  destruct (bigintToFixed_shape (value m) PRECISION_I (round m)) as
    (w & fr & -> & Hw & Hfr & Hlen & Hval); [unfold PRECISION_I, PRECISION; lia..|].
  change (PRECISION - Z.of_nat PRECISION_I) with 0 in Hval.
  change (10 ^ 0) with 1 in Hval. rewrite round_abs_1 in Hval.
  cbn [outcome_map]. rewrite <- app_assoc_str.
  assert (nonempty fr = true) as Hne by (apply nonempty_slen; rewrite Hlen; done).
  destruct (strip_dot_zeros_decimal (sgn_str (value m <? 0) +:+ print_nonneg w) fr Hfr Hne)
    as (f' & n & -> & Hf' & [[_ Hs]|[-> Hs]]); rewrite Hs; eexists; (split; [done|]).
  - rewrite slen_app, zeros_len in Hlen.
    pose proof (slen_nonneg f'). change (Z.of_nat PRECISION_I) with PRECISION in *.
    rewrite app_assoc_str, parse_render by (try done; lia). f_equal. cbn zeta.
    rewrite digits_val_app, zeros_val, zeros_len in Hval.
    assert (Z.of_nat n = PRECISION - slen f') as Hn by lia. rewrite Hn in Hval.
    fold PRECISION_M in Hval.
    rewrite (PRECISION_M_split (slen f')) in Hval by lia.
    destruct (Z.ltb_spec (value m) 0); lia.
  - rewrite parse_render_int by done. f_equal.
    rewrite app_nil_str, zeros_val in Hval.
    change (10 ^ Z.of_nat PRECISION_I) with PRECISION_M in Hval.
    destruct (Z.ltb_spec (value m) 0); lia.
Qed.

(** ** The library's contract *)

(** The rounding division of the money library is the reference rounding:
    a zero divisor throws, and for any other divisor the result is exactly the
    nearest integer to the quotient, a tie broken as the mode says (towards the
    even neighbour for bankers' rounding), or the truncated quotient. *)
Theorem divide_correct (a b : Z) (r : Round) :
  (b = 0 -> divide a b r = Throw DivisionByZero) /\
  (b ≠ 0 -> forall q, divide a b r = Ok q <-> rounds_to r a b q).
Proof.
  split; [by intros ->; unfold divide|].
  intros Hb q. destruct (divide_rounds a b r Hb) as (q' & -> & Hq').
  split; [by intros [= <-]|].
  intros Hq. f_equal. by eapply rounds_to_unique.
Qed.

(** The string [toFixed] renders at a precision of up to twenty decimals,
    read back by the constructor, is the value rounded by [divide] to that
    many decimals: no digit, sign or carry into the whole part is lost. *)
Theorem toFixed_value (v : Z) (p : nat) (r r' : Round) :
  (p <= PRECISION_I)%nat ->
  exists s q, bigintToFixed v p r = Ok s /\
    rounds_to r v (10 ^ (PRECISION - Z.of_nat p)) q /\
    moneyValueToBigInt (InString s) r' = Ok (q * 10 ^ (PRECISION - Z.of_nat p)).
Proof.
  intros Hp. destruct (toFixed_parse v p r r' Hp) as (s & q & Hs & Hq & Hparse).
  exists s, q. split; [done|]. split; [|done].
  assert (10 ^ (PRECISION - Z.of_nat p) ≠ 0) as Hd.
  { unfold PRECISION_I in Hp. unfold PRECISION.
    pose proof (pow10_pos (20 - Z.of_nat p)). lia. }
  destruct (divide_rounds v _ r Hd) as (q' & Hq' & ?). congruence.
Qed.

Lemma toFixed_value_witness :
  exists s q, bigintToFixed (-199999999999999999999) 2 HALF_TO_EVEN = Ok s /\
    rounds_to HALF_TO_EVEN (-199999999999999999999) (10 ^ (PRECISION - Z.of_nat 2)) q /\
    moneyValueToBigInt (InString s) HALF_TO_EVEN = Ok (q * 10 ^ (PRECISION - Z.of_nat 2)).
Proof.
  apply (toFixed_value (-199999999999999999999) 2 HALF_TO_EVEN HALF_TO_EVEN).
  unfold PRECISION_I. lia.
Defined.

(** Serialising an amount to JSON (all decimals, trailing zeros removed)
    and constructing a [Money] from the result gives back the same object. *)
Theorem toJSON_roundtrip (m : Money) :
  exists s, toJSON m = Ok (s, currency m) /\
    Money_new (InString s) (currency m) (round m) = Ok m.
Proof.
  destruct (format_parse m) as (s & Hf & Hp). exists s. split.
  - unfold toJSON. by rewrite Hf.
  - unfold Money_new. rewrite Hp. by destruct m.
Qed.

Example divide_half_even : divide 25 10 HALF_TO_EVEN = Ok 2 /\ divide 35 10 HALF_TO_EVEN = Ok 4.
Proof. done. Qed.
Example toFixed_carry : bigintToFixed 199999999999999999999 2 HALF_TO_EVEN = Ok "2.00".
Proof. vm_compute. done. Qed.
Example parse_fraction :
  moneyValueToBigInt (InString "-.04") HALF_TO_EVEN = Ok (-4000000000000000000).
Proof. vm_compute. done. Qed.

(** [allocate] multiplies the remainder of the division by the number of
    parts, which it already counts once per part: at full precision, splitting
    the smallest amount in three hands out three times the amount, and
    splitting twice that amount runs past the array. *)
Theorem allocate_remainder_overcounted :
  allocate (mkMoney "USD" 1 HALF_TO_EVEN) 3 20 =
    Ok [mkMoney "USD" 1 HALF_TO_EVEN; mkMoney "USD" 1 HALF_TO_EVEN; mkMoney "USD" 1 HALF_TO_EVEN] /\
  allocate (mkMoney "USD" 2 HALF_TO_EVEN) 3 20 = Throw MoneyTypeError.
Proof. done. Qed.

(** [exponent === 1] never holds of the bigint [1n]: raising to it gives one,
    while the number [1] gives the amount itself. *)
Theorem pow_bigint_one (m : Money) :
  pow m (PowBigint 1) = Ok (mkMoney (currency m) PRECISION_M (round m)) /\
  pow m (PowNumber (num_of_Z 1)) = Ok m.
Proof. done. Qed.
