(* ===== verification/MoneyAmounts.v ===== *)
(** * Amounts in a currency

    Model of the amount classes of [src/src/domain/shared]: the two abstract
    bases [MoneyAmount] ([money/MoneyAmount.ts], and the one of
    [MoneyAmount.ts] that only [USDTAmount] extends), [USDAmount], [JMDAmount],
    [BtcAmount], [USDTAmount] and [toMoneyAmount]. An amount is its class and
    the [Money] it holds, in the smallest unit of the currency: cents, sats,
    or millionths of a dollar for USDT. *)

From stdpp Require Import base list strings.
From Stdlib Require Import ZArith Lia Ascii.
From S2P Require Import Prelude JsStrings JsNumbers BigintMoney Errors.

Open Scope Z_scope.

Inductive WalletCurrency := Usd | Jmd | Btc | Usdt.

#[global] Instance WalletCurrency_eq_dec : EqDecision WalletCurrency.
Proof. solve_decision. Defined.

Definition currency_name (c : WalletCurrency) : string :=
  match c with Usd => "USD" | Jmd => "JMD" | Btc => "BTC" | Usdt => "USDT" end.

(** The subclass of an amount is its currency code. *)
Record MoneyAmount := mkAmount { currencyCode : WalletCurrency; money : Money }.

(** [super(amount, currency)]: [new Money(amount, currency, HALF_TO_EVEN)]. *)
Definition amount_new (c : WalletCurrency) (v : money_input) : outcome money_error MoneyAmount :=
  outcome_map (mkAmount c) (Money_new v (currency_name c) HALF_TO_EVEN).

(** [getInstance]: the same class around another [Money]. *)
Definition getInstance (a : MoneyAmount) (m : Money) : MoneyAmount :=
  mkAmount (currencyCode a) m.

Definition bindo {E A B} (o : outcome E A) (k : A -> outcome E B) : outcome E B :=
  match o with Ok a => k a | Err e => Err e | Throw e => Throw e end.

(** ** The base classes *)

Definition multiplyBips (a : MoneyAmount) (bips : Z) : outcome money_error MoneyAmount :=
  bindo (multiply (money a) (OpValue (InString (bigint_toString bips)))) (fun p =>
  bindo (Money_divide p (OpValue (InNumber (num_of_Z 10000)))) (fun q =>
  Ok (getInstance a q))).

Definition amount_subtract (a b : MoneyAmount) : outcome money_error MoneyAmount :=
  outcome_map (getInstance a) (subtract (money a) (OpMoney (money b))).

Definition amount_isLesserThan (a b : MoneyAmount) : outcome money_error bool :=
  isLesserThan (money a) (OpMoney (money b)).
Definition amount_isGreaterThan (a b : MoneyAmount) : outcome money_error bool :=
  isGreaterThan (money a) (OpMoney (money b)).
Definition isZero (a : MoneyAmount) : outcome money_error bool :=
  isEqual (money a) (OpValue (InNumber (num_of_Z 0))).

(** The bigint division truncates the fraction of the smallest unit. *)
Definition asPaymentAmount (a : MoneyAmount) : Z * WalletCurrency :=
  (Z.quot (toSource (money a)) PRECISION_M, currencyCode a).

Definition toJson (a : MoneyAmount) : outcome money_error (string * string) :=
  toJSON (money a).

(** ** Construction

    The factories turn the exception of a malformed value into a returned
    [BigIntConversionError]. *)

Definition money_error_message (e : money_error) : string :=
  match e with
  | MoneyTypeError => "Input string must follow the pattern (-)##.## or -##"
  | UnsafeIntegerError => "not a safe integer"
  | IncompatibleCurrencyError => "You cannot combine different currencies."
  | DivisionByZero => "Division by zero"
  | PowWholeNumbers => "You can currently only use pow() with whole numbers"
  end.

Definition caught {A} (o : outcome money_error A) : outcome error A :=
  match o with
  | Ok a => Ok a
  | Err e | Throw e => Err (new_error BigIntConversionError (money_error_message e))
  end.

Definition USD_cents (cents : money_input) : outcome error MoneyAmount :=
  caught (amount_new Usd cents).
Definition JMD_cents (c : string) : outcome error MoneyAmount :=
  caught (amount_new Jmd (InString c)).
Definition BTC_sats (c : string) : outcome error MoneyAmount :=
  caught (amount_new Btc (InString c)).
Definition USDT_smallestUnits (units : money_input) : outcome error MoneyAmount :=
  caught (amount_new Usdt units).

(** [unit.multiply(new Money(d)).toFixed(p)], constructed again: how dollars
    and whole USDT become the smallest unit. *)
Definition from_major (c : WalletCurrency) (unit_value : Z) (name : string) (d : string) (p : nat)
    : outcome money_error MoneyAmount :=
  bindo (Money_new (InString d) name HALF_TO_EVEN) (fun dm =>
  bindo (amount_new c (InBigint unit_value)) (fun u =>
  bindo (multiply (money u) (OpMoney dm)) (fun prod =>
  bindo (toFixed prod p) (fun s =>
  amount_new c (InString s))))).

Definition USD_dollars (d : string) : outcome error MoneyAmount :=
  caught (from_major Usd 100 "USDollars" d 2).
Definition JMD_dollars (d : string) : outcome error MoneyAmount :=
  caught (from_major Jmd 100 "JMDollars" d 2).

Definition USDT_MICROS_PER_MAJOR_UNIT : Z := 1000000.
Definition USDT_MICROS_PER_USD_CENT : Z := 10000.

Definition USDT_usdCents (cents : string) : outcome error MoneyAmount :=
  caught (from_major Usdt USDT_MICROS_PER_USD_CENT "USDTUsdCents" cents 0).
Definition USDT_fromNumber (d : string) : outcome error MoneyAmount :=
  caught (from_major Usdt USDT_MICROS_PER_MAJOR_UNIT "USDT" d 0).

(** ** Reading *)

Definition asSmallest (a : MoneyAmount) (p : nat) : outcome money_error string :=
  toFixed (money a) p.

Definition asDollars (a : MoneyAmount) (p : nat) : outcome money_error string :=
  bindo (Money_divide (money a) (OpValue (InNumber (num_of_Z 100)))) (fun m => toFixed m p).

Definition asUsdCents (a : MoneyAmount) : outcome money_error string :=
  bindo (Money_divide (money a) (OpValue (InString (bigint_toString USDT_MICROS_PER_USD_CENT))))
    (fun m => toFixed m 0).

Definition asNumber (a : MoneyAmount) (p : nat) : outcome money_error string :=
  bindo (Money_divide (money a) (OpValue (InString (bigint_toString USDT_MICROS_PER_MAJOR_UNIT))))
    (fun m => toFixed m p).

(** [Number(this.asDollars(8))] and [Number(this.asNumber(8))]: the numeral IBEX
    receives. *)
Definition toIbex (a : MoneyAmount) : outcome money_error string :=
  match currencyCode a with
  | Usdt => asNumber a 8
  | _ => asDollars a 8
  end.

Definition convertAtRate (a rate : MoneyAmount) : outcome money_error MoneyAmount :=
  bindo (multiply (money rate) (OpMoney (money a))) (fun p =>
  bindo (Money_divide p (OpValue (InNumber (num_of_Z 100)))) (fun q =>
  Ok (getInstance rate q))).

Definition toMoneyAmount (amount : string) (c : WalletCurrency) : outcome error MoneyAmount :=
  match c with
  | Usd => USD_cents (InString amount)
  | Jmd => JMD_cents amount
  | _ => Err (new_error UnsupportedCurrencyError ("Could not read currency: " +:+ currency_name c))
  end.

(** [MoneyAmount.from] of the USDT base. *)
Definition from_usdt (amount : string) (c : WalletCurrency) : outcome error MoneyAmount :=
  match c with
  | Usdt => USDT_smallestUnits (InString amount)
  | _ => Err (new_error UnsupportedCurrencyError ("Could not read currency: " +:+ currency_name c))
  end.

(** ** Exactness of the arithmetic *)

Lemma PRECISION_M_pos : 0 < PRECISION_M.
Proof. done. Qed.

Lemma divide_exact q b r : b ≠ 0 -> divide (q * b) b r = Ok q.
Proof.
  intros Hb. destruct (divide_rounds (q * b) b r Hb) as (q' & -> & Hq'). f_equal.
  apply (rounds_to_unique (q * b) b r); [done..|].
  destruct r; cbn; rewrite ?Z.sub_diag; try (split; lia). by rewrite Z.quot_mul.
Qed.

Lemma divide_scale a b c r : b ≠ 0 -> 0 < c -> divide (a * c) (b * c) r = divide a b r.
Proof.
  intros Hb Hc. rewrite !divide_round_abs by lia.
  rewrite !Z.abs_mul, (Z.abs_eq c) by lia.
  assert (round_abs (Z.abs a * c) (Z.abs b * c) r = round_abs (Z.abs a) (Z.abs b) r) as ->.
  { unfold round_abs. rewrite Z.div_mul_cancel_r, Z.mul_mod_distr_r by lia.
    set (s := Z.abs a mod Z.abs b). set (B := Z.abs b).
    assert ((B * c <? s * c * 2) = (B <? s * 2)) as ->
      by (destruct (Z.ltb_spec (B * c) (s * c * 2)), (Z.ltb_spec B (s * 2)); try done; nia).
    assert ((s * c * 2 =? B * c) = (s * 2 =? B)) as ->
      by (destruct (Z.eqb_spec (s * c * 2) (B * c)), (Z.eqb_spec (s * 2) B); try done; nia).
    done. }
  do 2 f_equal; [f_equal|..];
    (destruct (Z.ltb_spec 0 (a * c)), (Z.ltb_spec 0 (b * c)), (Z.ltb_spec 0 a), (Z.ltb_spec 0 b);
     try done; nia).
Qed.

Lemma bigint_toString_sgn q : bigint_toString q = sgn_str (q <? 0) +:+ print_nonneg (Z.abs q).
Proof.
  unfold bigint_toString. destruct (Z.ltb_spec q 0); cbn [sgn_str].
  - by rewrite Z.abs_neq by lia.
  - by rewrite Z.abs_eq by lia.
Qed.

Lemma parse_bigint_toString q r :
  moneyValueToBigInt (InString (bigint_toString q)) r = Ok (q * PRECISION_M).
Proof.
  rewrite bigint_toString_sgn, parse_render_int by lia. f_equal.
  destruct (Z.ltb_spec q 0); lia.
Qed.

Lemma parse_num z r : Z.abs z <= MAX_SAFE_INTEGER ->
  moneyValueToBigInt (InNumber (num_of_Z z)) r = Ok (z * PRECISION_M).
Proof.
  intros H. cbn [moneyValueToBigInt]. by rewrite num_of_Z_safe, num_of_Z_val.
Qed.

(** Multiplying by a whole number is exact. *)
Lemma multiply_whole m o k :
  moneyValueToBigInt (operand_input o) (round m) = Ok (k * PRECISION_M) ->
  multiply m o = Ok (fromSource (k * value m) (currency m) (round m)).
Proof.
  intros H. unfold multiply. rewrite H.
  replace (k * PRECISION_M * value m) with (k * value m * PRECISION_M) by lia.
  by rewrite divide_exact.
Qed.

(** Dividing by a whole number rounds once. *)
Lemma Money_divide_whole m o k : k ≠ 0 ->
  moneyValueToBigInt (operand_input o) (round m) = Ok (k * PRECISION_M) ->
  exists q, Money_divide m o = Ok (fromSource q (currency m) (round m)) /\
    rounds_to (round m) (value m) k q.
Proof.
  intros Hk H. unfold Money_divide. cbn [moneyValueToBigInt]. rewrite H.
  rewrite divide_scale by (done || apply PRECISION_M_pos).
  destruct (divide_rounds (value m) k (round m) Hk) as (q & -> & Hq). eauto.
Qed.

Lemma rounds_to_exact r q b q' : b ≠ 0 -> rounds_to r (q * b) b q' -> q' = q.
Proof.
  intros Hb H. apply (rounds_to_unique (q * b) b r); [done..|].
  destruct r; cbn; rewrite ?Z.sub_diag; try (split; lia). by rewrite Z.quot_mul.
Qed.

(** ** Well-formed amounts *)

(** The [Money] of an amount is in the amount's currency and rounds to even. *)
Definition wf_amount (a : MoneyAmount) : Prop :=
  currency (money a) = currency_name (currencyCode a) /\ round (money a) = HALF_TO_EVEN.

Lemma amount_new_wf c v a : amount_new c v = Ok a -> wf_amount a /\ currencyCode a = c.
Proof.
  unfold amount_new, Money_new. destruct (moneyValueToBigInt _ _); cbn; [|done..].
  intros [= <-]. done.
Qed.

Lemma bindo_Ok {E A B} (o : outcome E A) (k : A -> outcome E B) b :
  bindo o k = Ok b -> exists a, o = Ok a /\ k a = Ok b.
Proof. destruct o; cbn; eauto; done. Qed.

Lemma caught_Ok {A} (o : outcome money_error A) a : caught o = Ok a -> o = Ok a.
Proof. by destruct o; cbn; intros [= ->]. Qed.

Lemma from_major_wf c u n d p a :
  from_major c u n d p = Ok a -> wf_amount a /\ currencyCode a = c.
Proof.
  unfold from_major. intros (x & _ & H)%bindo_Ok.
  apply bindo_Ok in H as (y & _ & H). apply bindo_Ok in H as (z & _ & H).
  apply bindo_Ok in H as (t & _ & H). by eapply amount_new_wf.
Qed.

Lemma multiply_keeps m o m' : multiply m o = Ok m' ->
  currency m' = currency m /\ round m' = round m.
Proof.
  unfold multiply. destruct (moneyValueToBigInt _ _); [|done..].
  destruct (divide _ _ _); cbn; [|done..]. by intros [= <-].
Qed.

Lemma Money_divide_keeps m o m' : Money_divide m o = Ok m' ->
  currency m' = currency m /\ round m' = round m.
Proof.
  unfold Money_divide. cbn [moneyValueToBigInt].
  destruct (moneyValueToBigInt (operand_input o) _); [|done..].
  destruct (divide _ _ _); cbn; [|done..]. by intros [= <-].
Qed.

Lemma subtract_keeps m o m' : subtract m o = Ok m' ->
  currency m' = currency m /\ round m' = round m.
Proof.
  unfold subtract. destruct (incompatible m o); [done|].
  destruct (moneyValueToBigInt _ _); cbn; [|done..]. by intros [= <-].
Qed.

(** Every factory and every operation of the amount classes yields an
    amount whose [Money] carries the currency of its class and rounds to even;
    an amount is therefore never compared or subtracted across currencies once
    its class is known. *)
Theorem amounts_wf :
  (forall v a, USD_cents v = Ok a -> wf_amount a) /\
  (forall s a, USD_dollars s = Ok a -> wf_amount a) /\
  (forall s a, JMD_cents s = Ok a -> wf_amount a) /\
  (forall s a, JMD_dollars s = Ok a -> wf_amount a) /\
  (forall s a, BTC_sats s = Ok a -> wf_amount a) /\
  (forall v a, USDT_smallestUnits v = Ok a -> wf_amount a) /\
  (forall s a, USDT_usdCents s = Ok a -> wf_amount a) /\
  (forall s a, USDT_fromNumber s = Ok a -> wf_amount a) /\
  (forall s c a, toMoneyAmount s c = Ok a -> wf_amount a) /\
  (forall a bips b, wf_amount a -> multiplyBips a bips = Ok b -> wf_amount b) /\
  (forall a x b, wf_amount a -> amount_subtract a x = Ok b -> wf_amount b) /\
  (forall a rate b, wf_amount rate -> convertAtRate a rate = Ok b -> wf_amount b).
Proof.
  assert (forall c v a, caught (amount_new c v) = Ok a -> wf_amount a) as Hnew
    by (intros ??? H%caught_Ok; by apply amount_new_wf in H as [? _]).
  assert (forall c u n d p a, caught (from_major c u n d p) = Ok a -> wf_amount a) as Hmaj
    by (intros ?????? H%caught_Ok; by apply from_major_wf in H as [? _]).
  repeat split_and; try (intros ??; apply Hnew); try (intros ??; apply Hmaj).
  - intros s [] a; cbn; (done || apply Hnew).
  - intros a bips b [Hc Hr] (p & Hp & H)%bindo_Ok. apply bindo_Ok in H as (q & Hq & [= <-]).
    apply multiply_keeps in Hp as [??]. apply Money_divide_keeps in Hq as [??].
    split; cbn; congruence.
  - intros a x b [Hc Hr]. unfold amount_subtract.
    destruct (subtract _ _) as [m|e|e] eqn:Hs; cbn; [|done..]. intros [= <-].
    apply subtract_keeps in Hs as [??]. split; cbn; congruence.
  - intros a rate b [Hc Hr] (p & Hp & H)%bindo_Ok. apply bindo_Ok in H as (q & Hq & [= <-]).
    apply multiply_keeps in Hp as [??]. apply Money_divide_keeps in Hq as [??].
    split; cbn; congruence.
Qed.

(** ** Fees *)

Lemma multiplyBips_value a bips :
  exists q, multiplyBips a bips =
      Ok (getInstance a (fromSource q (currency (money a)) (round (money a)))) /\
    rounds_to (round (money a)) (bips * value (money a)) 10000 q.
Proof.
  unfold multiplyBips. rewrite (multiply_whole _ _ bips) by apply parse_bigint_toString.
  cbn [bindo].
  destruct (Money_divide_whole
    (fromSource (bips * value (money a)) (currency (money a)) (round (money a)))
    (OpValue (InNumber (num_of_Z 10000))) 10000) as (q & -> & Hq);
    [done|by apply parse_num|]. eauto.
Qed.

(** The service fee is [bips] ten-thousandths of the payment, rounded once
    to the nearest twentieth decimal, between zero and the payment, and the
    payout is exactly the rest: no part of the payment is lost or created. *)
Theorem fee_split (a : MoneyAmount) (bips : Z) :
  wf_amount a -> 0 <= value (money a) -> 0 <= bips <= 10000 ->
  exists fee rest,
    multiplyBips a bips = Ok fee /\ amount_subtract a fee = Ok rest /\
    currencyCode fee = currencyCode a /\ currencyCode rest = currencyCode a /\
    value (money fee) + value (money rest) = value (money a) /\
    0 <= value (money fee) <= value (money a) /\ 0 <= value (money rest) /\
    2 * Z.abs (bips * value (money a) - value (money fee) * 10000) <= 10000.
Proof.
  intros [Hc Hr] Hv Hb. destruct (multiplyBips_value a bips) as (q & -> & Hq).
  rewrite Hr in Hq. cbn in Hq. destruct Hq as [Hq _].
  assert (0 <= q <= value (money a)) as Hbound by nia.
  eexists _, (mkAmount (currencyCode a)
    (fromSource (value (money a) - q) (currency (money a)) (round (money a)))).
  split; [done|]. split.
  - unfold amount_subtract, subtract. cbn. rewrite (proj2 (String.eqb_eq _ _) eq_refl). done.
  - cbn. repeat split; try done; lia.
Qed.

Lemma fee_split_witness :
  exists a, USD_cents (InString "1234") = Ok a /\
    exists fee rest, multiplyBips a 250 = Ok fee /\ amount_subtract a fee = Ok rest /\
      currencyCode fee = currencyCode a /\ currencyCode rest = currencyCode a /\
      value (money fee) + value (money rest) = value (money a) /\
      0 <= value (money fee) <= value (money a) /\ 0 <= value (money rest) /\
      2 * Z.abs (250 * value (money a) - value (money fee) * 10000) <= 10000.
Proof.
  eexists; split; [vm_compute; reflexivity|].
  apply fee_split; [done|vm_compute; congruence|lia].
Defined.

(** ** USDT amounts *)

(** Scaling a decimal with at most [p] surplus decimals into whole units. *)
Lemma from_major_exact c u n d p z :
  moneyValueToBigInt (InString d) HALF_TO_EVEN = Ok z ->
  (p <= PRECISION_I)%nat -> (10 ^ (PRECISION - Z.of_nat p) | z * u) ->
  from_major c u n d p = Ok (mkAmount c (fromSource (z * u) (currency_name c) HALF_TO_EVEN)).
Proof.
  intros Hd Hp [k Hk]. unfold from_major, Money_new. rewrite Hd. cbn [outcome_map bindo].
  unfold amount_new at 1, Money_new. cbn [moneyValueToBigInt outcome_map bindo money].
  assert (multiply {| currency := currency_name c; value := u * PRECISION_M; round := HALF_TO_EVEN |}
     (OpMoney {| currency := n; value := z; round := HALF_TO_EVEN |}) =
     Ok (fromSource (z * u) (currency_name c) HALF_TO_EVEN)) as ->.
  { unfold multiply. cbn. rewrite Z.mul_assoc. by rewrite divide_exact. }
  cbn [bindo]. unfold toFixed. cbn [value round fromSource].
  destruct (toFixed_parse (z * u) p HALF_TO_EVEN HALF_TO_EVEN Hp) as (s & q & -> & Hq & Hs).
  cbn [bindo]. unfold amount_new, Money_new. rewrite Hs. cbn. do 2 f_equal.
  unfold fromSource. f_equal. rewrite Hk in Hq |- *.
  rewrite divide_exact in Hq; [congruence|].
  unfold PRECISION_I in Hp. pose proof (pow10_pos (PRECISION - Z.of_nat p)).
  unfold PRECISION in *. lia.
Qed.

Definition usdt_micros (n : Z) : MoneyAmount :=
  mkAmount Usdt (fromSource (n * PRECISION_M) (currency_name Usdt) HALF_TO_EVEN).

Lemma smallestUnits_whole n : USDT_smallestUnits (InBigint n) = Ok (usdt_micros n).
Proof. done. Qed.

Lemma USDT_usdCents_whole n :
  USDT_usdCents (bigint_toString n) = Ok (usdt_micros (n * USDT_MICROS_PER_USD_CENT)).
Proof.
  unfold USDT_usdCents.
  rewrite (from_major_exact _ _ _ _ _ (n * PRECISION_M)); [|apply parse_bigint_toString| |].
  - unfold usdt_micros. cbn. do 3 f_equal. lia.
  - unfold PRECISION_I. lia.
  - exists (n * USDT_MICROS_PER_USD_CENT). change (10 ^ (PRECISION - Z.of_nat 0)) with PRECISION_M. lia.
Qed.

(** A [Money] of [n] units divided by [k], rendered without decimals, when [k]
    divides [n]. *)
Lemma toFixed0_whole n cur :
  toFixed (fromSource (n * PRECISION_M) cur HALF_TO_EVEN) 0 = Ok (bigint_toString n).
Proof. unfold toFixed, bigintToFixed. cbn [value round fromSource]. by rewrite divide_exact. Qed.

Lemma usdt_divide n k : k ≠ 0 -> (k | n * PRECISION_M) ->
  Money_divide (money (usdt_micros n)) (OpValue (InString (bigint_toString k))) =
    Ok (fromSource (n * PRECISION_M / k) (currency_name Usdt) HALF_TO_EVEN).
Proof.
  intros Hk [j Hj].
  destruct (Money_divide_whole (money (usdt_micros n)) (OpValue (InString (bigint_toString k))) k)
    as (q & -> & Hq); [done|apply parse_bigint_toString|].
  cbn [usdt_micros money value round fromSource currency] in *.
  rewrite Hj in *. apply rounds_to_exact in Hq; [|done]. subst q.
  by rewrite Z.div_mul.
Qed.

(** A whole number of US cents becomes ten thousand USDT millionths per
    cent exactly, and reading the amount back in cents gives the same number. *)
Theorem usdt_cents_roundtrip (n : Z) :
  exists a, USDT_usdCents (bigint_toString n) = Ok a /\
    asPaymentAmount a = (n * 10000, Usdt) /\
    asUsdCents a = Ok (bigint_toString n).
Proof.
  eexists. split; [apply USDT_usdCents_whole|]. split.
  - unfold asPaymentAmount, toSource, usdt_micros, fromSource. cbn [money value currencyCode].
    rewrite Z.quot_mul by done. done.
  - unfold asUsdCents. rewrite usdt_divide; [|done|].
    + cbn [bindo]. replace (n * USDT_MICROS_PER_USD_CENT * PRECISION_M / USDT_MICROS_PER_USD_CENT)
        with (n * PRECISION_M); [apply toFixed0_whole|].
      rewrite <- Z.mul_assoc, (Z.mul_comm USDT_MICROS_PER_USD_CENT), Z.mul_assoc.
      by rewrite Z.div_mul.
    + exists (n * PRECISION_M). lia.
Qed.

(** The decimal numeral a USDT amount of whole millionths is sent to IBEX
    as (eight decimals of a dollar) denotes exactly that amount: parsing it
    back as USDT yields the same amount. *)
Theorem usdt_ibex_exact (n : Z) :
  exists s, toIbex (usdt_micros n) = Ok s /\ USDT_fromNumber s = Ok (usdt_micros n).
Proof.
  unfold toIbex. cbn [currencyCode usdt_micros]. unfold asNumber.
  rewrite usdt_divide; [|done|exists (n * 10 ^ 14); unfold PRECISION_M, PRECISION,
    USDT_MICROS_PER_MAJOR_UNIT; lia].
  cbn [bindo]. unfold toFixed. cbn [value round fromSource].
  replace (n * PRECISION_M / USDT_MICROS_PER_MAJOR_UNIT) with (n * 10 ^ 14).
  2:{ change PRECISION_M with (10 ^ 14 * USDT_MICROS_PER_MAJOR_UNIT).
      by rewrite Z.mul_assoc, Z.div_mul. }
  destruct (toFixed_parse (n * 10 ^ 14) 8 HALF_TO_EVEN HALF_TO_EVEN)
    as (s & q & -> & Hq & Hs); [unfold PRECISION_I; lia|].
  exists s. split; [done|]. unfold USDT_fromNumber.
  change (10 ^ (PRECISION - Z.of_nat 8)) with (10 ^ 12) in *.
  replace (n * 10 ^ 14) with (n * 100 * 10 ^ 12) in Hq by lia.
  rewrite divide_exact in Hq by done. injection Hq as <-.
  rewrite (from_major_exact _ _ _ _ _ _ Hs).
  - cbn [caught]. unfold usdt_micros.
    assert (n * 100 * 10 ^ 12 * USDT_MICROS_PER_MAJOR_UNIT = n * PRECISION_M) as ->;
      [|reflexivity].
    unfold USDT_MICROS_PER_MAJOR_UNIT, PRECISION_M, PRECISION. lia.
  - unfold PRECISION_I. lia.
  - exists n. change (10 ^ (PRECISION - Z.of_nat 0)) with (10 ^ 20).
    unfold USDT_MICROS_PER_MAJOR_UNIT. lia.
Qed.

Example dollars_to_cents :
  match USD_dollars "12.345" with Ok a => asSmallest a 2 | _ => Ok "" end = Ok "1234.50".
Proof. vm_compute. reflexivity. Qed.
