(* ===== verification/CutoverStateMachine.v ===== *)
(** * Cash wallet cutover: statuses and the transition table

    Model of [src/src/app/cash-wallet-cutover/state-machine.ts], of the types of
    [index.types.d.ts], of the terminal statuses of [executor.ts] and of the
    failure classification of [runner.ts]. A migration of one account moves its
    balance from the legacy USD wallet to the USDT wallet and then flips the
    account's default wallet; its progress is a status. *)

From stdpp Require Import base gmap list strings relations.
From Stdlib Require Import ZArith Lia.
From S2P Require Import Prelude Errors.

Open Scope Z_scope.

(** ** Types *)

Inductive CutoverState :=
| state_pre | state_in_progress | state_complete | state_rolled_back.

Inductive MigrationStatus :=
| not_started | started | provisioned | balance_read | invoice_created
| balance_move_sending | balance_move_sent | balance_move_verified
| fee_reimbursement_invoice_created | fee_reimbursement_sending | fee_reimbursed
| pointer_flipped | legacy_zero_verified | complete | failed
| requires_operator_review | skipped_already_migrated | rollback_started | rolled_back.

#[global] Instance CutoverState_eq_dec : EqDecision CutoverState.
Proof. solve_decision. Defined.
#[global] Instance MigrationStatus_eq_dec : EqDecision MigrationStatus.
Proof. solve_decision. Defined.

Definition all_statuses : list MigrationStatus :=
  [not_started; started; provisioned; balance_read; invoice_created;
   balance_move_sending; balance_move_sent; balance_move_verified;
   fee_reimbursement_invoice_created; fee_reimbursement_sending; fee_reimbursed;
   pointer_flipped; legacy_zero_verified; complete; failed;
   requires_operator_review; skipped_already_migrated; rollback_started; rolled_back].

Lemma all_statuses_complete s : s ∈ all_statuses.
Proof. by_computation. by destruct s. Qed.

Definition status_name (s : MigrationStatus) : string :=
  match s with
  | not_started => "not_started" | started => "started" | provisioned => "provisioned"
  | balance_read => "balance_read" | invoice_created => "invoice_created"
  | balance_move_sending => "balance_move_sending" | balance_move_sent => "balance_move_sent"
  | balance_move_verified => "balance_move_verified"
  | fee_reimbursement_invoice_created => "fee_reimbursement_invoice_created"
  | fee_reimbursement_sending => "fee_reimbursement_sending"
  | fee_reimbursed => "fee_reimbursed" | pointer_flipped => "pointer_flipped"
  | legacy_zero_verified => "legacy_zero_verified" | complete => "complete"
  | failed => "failed" | requires_operator_review => "requires_operator_review"
  | skipped_already_migrated => "skipped_already_migrated"
  | rollback_started => "rollback_started" | rolled_back => "rolled_back"
  end.

(** [list.includes(status)] *)
Definition includes (l : list MigrationStatus) (s : MigrationStatus) : bool :=
  bool_decide (s ∈ l).

(** ** The table *)

Definition ROLLBACKABLE_STATUSES : list MigrationStatus :=
  [not_started; started; provisioned; balance_read; invoice_created;
   balance_move_sending; balance_move_sent; balance_move_verified;
   fee_reimbursement_invoice_created; fee_reimbursement_sending; fee_reimbursed;
   pointer_flipped; legacy_zero_verified; complete; failed; requires_operator_review].

Definition transitions (from : MigrationStatus) : list MigrationStatus :=
  match from with
  | not_started => [started; rollback_started]
  | started => [provisioned; failed; rollback_started]
  | provisioned => [balance_read; failed; skipped_already_migrated; rollback_started]
  | balance_read => [invoice_created; pointer_flipped; failed; rollback_started]
  | invoice_created =>
      [invoice_created; balance_move_sending; failed; requires_operator_review; rollback_started]
  | balance_move_sending => [balance_move_sent; failed; requires_operator_review; rollback_started]
  | balance_move_sent =>
      [balance_move_verified; failed; requires_operator_review; rollback_started]
  | balance_move_verified =>
      [fee_reimbursement_invoice_created; fee_reimbursed; failed; requires_operator_review;
       rollback_started]
  | fee_reimbursement_invoice_created =>
      [fee_reimbursement_invoice_created; fee_reimbursement_sending; failed;
       requires_operator_review; rollback_started]
  | fee_reimbursement_sending =>
      [fee_reimbursed; failed; requires_operator_review; rollback_started]
  | fee_reimbursed => [pointer_flipped; failed; rollback_started]
  | pointer_flipped => [legacy_zero_verified; failed; rollback_started]
  | legacy_zero_verified => [complete; failed; rollback_started]
  | complete => [rollback_started]
  | failed => [rollback_started; not_started; pointer_flipped]
  | requires_operator_review => [rollback_started]
  | rollback_started => [rollback_started; rolled_back; failed; requires_operator_review]
  | skipped_already_migrated => []
  | rolled_back => []
  end.

Definition assertCanTransition (from to : MigrationStatus) : outcome error unit :=
  if includes (transitions from) to then Ok tt
  else Err (new_error InvalidCashWalletMigrationTransitionError
              ("Invalid migration transition: " +:+ status_name from +:+ " -> " +:+ status_name to)).

Definition nextResumeStatus (status : MigrationStatus) : MigrationStatus := status.

(** ** Classifications by status *)

(** [terminalStatuses] of the executor, and the repository's list of the same
    content: statuses the forward pipeline does not advance. *)
Definition terminalStatuses : list MigrationStatus :=
  [complete; failed; requires_operator_review; skipped_already_migrated;
   rollback_started; rolled_back].

(** Statuses in which a failing step may have moved money. *)
Definition AMBIGUOUS_SIDE_EFFECT_STATUSES : list MigrationStatus :=
  [invoice_created; balance_move_sending; balance_move_sent; balance_move_verified;
   fee_reimbursement_invoice_created; fee_reimbursement_sending; fee_reimbursed;
   pointer_flipped].

Definition failureStatusForMigration (status : MigrationStatus) : MigrationStatus :=
  if includes AMBIGUOUS_SIDE_EFFECT_STATUSES status then requires_operator_review else failed.

(** ** The table as a relation *)

Definition can_step (s t : MigrationStatus) : Prop := t ∈ transitions s.

#[global] Instance can_step_dec : RelDecision can_step.
Proof. intros s t. unfold can_step. apply _. Defined.

Lemma assertCanTransition_Ok s t : assertCanTransition s t = Ok tt <-> can_step s t.
Proof.
  unfold assertCanTransition, includes, can_step.
  destruct (bool_decide_reflect (t ∈ transitions s)); split; done.
Qed.

Lemma assertCanTransition_lift s t :
  assertCanTransition s t = Ok tt \/ exists e, assertCanTransition s t = Err e.
Proof. unfold assertCanTransition. destruct (includes _ _); eauto. Qed.

(** A boolean property of statuses holds of all of them when it computes. *)
Lemma status_forall (P : MigrationStatus -> bool) :
  forallb P all_statuses = true -> forall s, P s = true.
Proof.
  rewrite forallb_forall. intros H s. apply H, list_elem_of_In, all_statuses_complete.
Qed.

Lemma status_forall2 (P : MigrationStatus -> MigrationStatus -> bool) :
  forallb (fun s => forallb (P s) all_statuses) all_statuses = true ->
  forall s t, P s t = true.
Proof. intros H s t. by apply status_forall, (status_forall _ H). Qed.

(** Close a goal whose statuses contradict each other. *)
Ltac status_absurd :=
  try discriminate;
  match goal with
  | H : _ ∈ _ |- _ => apply (bool_decide_eq_true_2 _) in H; discriminate H
  end.

(** Position of a status in the forward pipeline. *)
Definition stage (s : MigrationStatus) : Z :=
  match s with
  | not_started => 0 | started => 1 | provisioned => 2 | balance_read => 3
  | invoice_created => 4 | balance_move_sending => 5 | balance_move_sent => 6
  | balance_move_verified => 7 | fee_reimbursement_invoice_created => 8
  | fee_reimbursement_sending => 9 | fee_reimbursed => 10 | pointer_flipped => 11
  | legacy_zero_verified => 12 | complete => 13 | skipped_already_migrated => 13
  | failed => 14 | requires_operator_review => 15 | rollback_started => 16 | rolled_back => 17
  end.

(** Outside the operator's retry of [failed], every allowed transition
    moves a migration strictly forward, except the self-loops that refresh an
    invoice or record rollback progress, and the two exits of a rollback that
    fails closed: a migration cannot be walked through the pipeline twice. *)
Theorem transitions_progress (s t : MigrationStatus) :
  can_step s t ->
  stage s < stage t \/
  (s = t /\ (s = invoice_created \/ s = fee_reimbursement_invoice_created \/ s = rollback_started)) \/
  (s = rollback_started /\ (t = failed \/ t = requires_operator_review)) \/
  (s = failed /\ (t = not_started \/ t = pointer_flipped)).
Proof.
  intros H. apply (bool_decide_eq_true_2 (can_step s t)) in H. by_computation.
  destruct s, t; first [reflexivity | discriminate H].
Qed.

Lemma transitions_progress_witness :
  can_step failed pointer_flipped /\
  (stage failed < stage pointer_flipped \/
   (failed = pointer_flipped /\ (failed = invoice_created \/
      failed = fee_reimbursement_invoice_created \/ failed = rollback_started)) \/
   (failed = rollback_started /\ (pointer_flipped = failed \/ pointer_flipped = requires_operator_review)) \/
   (failed = failed /\ (pointer_flipped = not_started \/ pointer_flipped = pointer_flipped))).
Proof.
  assert (can_step failed pointer_flipped) as H by (by_computation; reflexivity).
  split; [exact H|]. exact (transitions_progress failed pointer_flipped H).
Defined.

(** ** Where a run may take a migration

    The forward runs: a status stays, moves further along the pipeline from a
    status the executor advances, or ends in one of the two failure statuses. In
    particular nothing leaves a terminal status for the pipeline, and nothing
    enters a rollback. *)
Definition forward_rel (s t : MigrationStatus) : Prop :=
  s = t \/ t ∈ [failed; requires_operator_review] \/
  ((s ∉ terminalStatuses) /\ stage s < stage t <= stage complete).

#[global] Instance forward_rel_dec : RelDecision forward_rel.
Proof. intros s t. unfold forward_rel. apply _. Defined.

(** The rollback runs: a status stays, or [rollback_started] becomes [rolled_back]
    or a matter for an operator. *)
Definition rollback_rel (s t : MigrationStatus) : Prop :=
  s = t \/ (s = rollback_started /\ t ∈ [rolled_back; requires_operator_review]).

(** What the calls of a rollback run do to a status, each on its own: the call that
    records a failure does not look at the status. *)
Definition fallible_rel (s t : MigrationStatus) : Prop :=
  s = t \/ t = requires_operator_review \/ (s = rollback_started /\ t = rolled_back).

Lemma fallible_started t : fallible_rel rollback_started t -> rollback_rel rollback_started t.
Proof. intros [?|[->|[_ ->]]]; [by left|right; by by_computation..]. Qed.

Lemma forward_rel_failure s t : t ∈ [failed; requires_operator_review] -> forward_rel s t.
Proof. intros H. by right; left. Qed.

#[export] Instance forward_rel_preorder : PreOrder forward_rel.
Proof.
  split; [by left|]. intros s t u [->|[Ht|[Hs Ht]]] [<-|[Hu|[Hs' Hu]]]; unfold forward_rel; auto.
  - destruct t; status_absurd || (exfalso; apply Hs'; by_computation; reflexivity).
  - right; right. split; [done|lia].
Qed.

#[export] Instance fallible_rel_preorder : PreOrder fallible_rel.
Proof. split; [by left|]. unfold fallible_rel. intros s t u H1 H2. naive_solver. Qed.

(** From a status the executor advances, a transition of the table that does
    not enter a rollback is such a move. *)
Lemma can_step_forward s t :
  s ∉ terminalStatuses -> can_step s t -> t ∉ [rollback_started; rolled_back] -> forward_rel s t.
Proof.
  intros H1 H2 H3. apply (bool_decide_eq_true_2 (can_step s t)) in H2.
  apply (bool_decide_eq_false_2 (t ∈ _)) in H3. apply (bool_decide_eq_false_2 (s ∈ _)) in H1.
  by_computation. destruct s, t; reflexivity || discriminate.
Qed.

(** The list of statuses an operator may pull into rollback is exactly the
    set of statuses, other than [rollback_started] itself, from which the table
    allows a step to [rollback_started]; what is left out are the accounts that
    were on USDT before the run and the ones already rolled back. *)
Theorem rollbackable_agrees (s : MigrationStatus) :
  includes ROLLBACKABLE_STATUSES s = true <->
  can_step s rollback_started /\ s ≠ rollback_started.
Proof.
  by_computation. by destruct s.
Qed.
