(* ===== verification/CutoverAmounts.v ===== *)
(** * Cash wallet cutover: decimal amounts

    Model of [src/src/app/cash-wallet-cutover/amount-conversion.ts] and of the
    decimal helpers at the top of [runtime-services.ts]. The cutover keeps
    amounts as strings: US cents with up to six decimals, and whole USDT
    millionths ("micros", ten thousand to a cent). The theorems give the value
    of each conversion as an integer division, so rounding directions and the
    never-over-reporting claims of the code can be read off. *)

From stdpp Require Import base list strings.
From Stdlib Require Import ZArith Lia Ascii.
From S2P Require Import Prelude JsStrings JsNumbers Errors BigintMoney MoneyAmounts.

Open Scope Z_scope.

(** [BigInt(s)], which throws a [SyntaxError] on anything but an integer. *)
Definition bigint_of (s : string) : outcome error Z :=
  match js_BigInt s with
  | Some n => Ok n
  | None => Throw (new_error JsSyntaxError ("Cannot convert " +:+ s +:+ " to a BigInt"))
  end.

(** ** amount-conversion.ts *)

Definition parseNonNegativeInteger (value : string) : outcome error Z :=
  if re_digits value then bigint_of value
  else Err (new_error InvalidCashWalletCutoverAmountError
              ("Invalid non-negative integer amount: " +:+ value)).

(** The body both [decimalToScaledInteger] functions share: the decimal [value]
    times [10 ^ scale], rounded half up on the next digit, or truncated. *)
Definition scale_decimal (value : string) (scale : nat) (rnd : bool) : outcome error string :=
  if negb (re_decimal value) then
    Err (new_error InvalidCashWalletCutoverAmountError
           ("Invalid non-negative decimal amount: " +:+ value))
  else
    let '(whole, fraction) :=
      match split_on "." value with
      | w :: f :: _ => (w, f)
      | [w] => (w, "")
      | [] => ("", "")
      end in
    let scaleFactor := 10 ^ Z.of_nat scale in
    let paddedFraction := str_take (S scale) (fraction +:+ zeros (S scale)) in
    let scaledFraction := str_take scale paddedFraction in
    let roundingDigit :=
      match str_drop scale paddedFraction with
      | String c _ => digit_val c
      | EmptyString => 0
      end in
    bindo (bigint_of whole) (fun w =>
    bindo (bigint_of (if nonempty scaledFraction then scaledFraction else "0")) (fun f =>
    Ok (bigint_toString (w * scaleFactor + f + (if rnd && (5 <=? roundingDigit) then 1 else 0))))).

Definition decimalToScaledInteger (value : string) (scale : nat) : outcome error string :=
  scale_decimal value scale true.

Definition usdCentsToUsdtMicros (usdCents : string) : outcome error string :=
  decimalToScaledInteger usdCents 4.

(** [/^0+$/] *)
Definition re_zeros (s : string) : bool := nonempty s && negb (nonempty (strip_zeros s)).

(** The result is the numeral the code passes to [Number] and whether it
    negates the number read. *)
Definition usdtMicrosToUsdCents (usdtMicros : string) : outcome error (bool * string) :=
  let '(wholeMicros, fractionalMicros) :=
    match split_on "." usdtMicros with
    | w :: f :: _ => (w, f)
    | [w] => (w, "")
    | [] => ("", "")
    end in
  if nonempty fractionalMicros && negb (re_zeros fractionalMicros) then
    Err (new_error InvalidCashWalletCutoverAmountError
           ("Cannot convert fractional USDT micros " +:+ usdtMicros +:+ " to USD cents"))
  else
    let '(negative, digits) :=
      match wholeMicros with
      | String "-" rest => (true, rest)
      | _ => (false, wholeMicros)
      end in
    match parseNonNegativeInteger digits with
    | Err _ => Err (new_error InvalidCashWalletCutoverAmountError
                      ("Invalid USDT micros amount: " +:+ usdtMicros))
    | Throw e => Throw e
    | Ok magnitude =>
        let wholeCents := Z.quot magnitude USDT_MICROS_PER_USD_CENT in
        let fracMicros := Z.rem magnitude USDT_MICROS_PER_USD_CENT in
        let cents := bigint_toString wholeCents +:+ String "." (pad_start 4 (bigint_toString fracMicros)) in
        Ok (negative && negb (magnitude =? 0), cents)
    end.

Definition usdtMicrosToUsdCentsCeil (usdtMicros : string) : outcome error string :=
  bindo (parseNonNegativeInteger usdtMicros) (fun parsed =>
  if parsed =? 0 then Ok "0"
  else Ok (bigint_toString
             (Z.quot (parsed + USDT_MICROS_PER_USD_CENT - 1) USDT_MICROS_PER_USD_CENT))).

Definition legacyShortfallUsdtMicros (sourceUsdCents currentUsdCents : string) :
    outcome error string :=
  bindo (usdCentsToUsdtMicros sourceUsdCents) (fun source =>
  bindo (usdCentsToUsdtMicros currentUsdCents) (fun current =>
  bindo (bigint_of source) (fun sourceMicros =>
  bindo (bigint_of current) (fun currentMicros =>
  if sourceMicros <=? currentMicros then Ok "0"
  else Ok (bigint_toString (sourceMicros - currentMicros)))))).

Definition destinationShortfallUsdtMicros
    (targetUsdtMicros startingUsdtMicros currentUsdtMicros : string) : outcome error string :=
  bindo (parseNonNegativeInteger targetUsdtMicros) (fun target =>
  bindo (parseNonNegativeInteger startingUsdtMicros) (fun starting =>
  bindo (parseNonNegativeInteger currentUsdtMicros) (fun current =>
  let received := if starting <? current then current - starting else 0 in
  if target <=? received then Ok "0"
  else Ok (bigint_toString (target - received))))).

(** ** Decimal helpers of runtime-services.ts *)

(** [number | string] *)
Inductive ibex_amount := AmtNumber (x : js_num) | AmtString (s : string).

Definition or_zero (s : string) : string := if nonempty s then s else "0".

(** [None]: a number from [10 ^ 21] on, printed with an exponent. *)
Definition normalizeDecimalString (amount : ibex_amount) : option string :=
  match amount with
  | AmtNumber x => or_zero ∘ strip_dot_zeros <$> num_toFixed 12 x
  | AmtString s => Some (or_zero (strip_dot_zeros s))
  end.

(** The exponent notation fails the decimal pattern like any other text; the
    message then lacks the notation itself. *)
Definition decimalToScaledInteger_rt (amount : ibex_amount) (scale : nat) (rnd : bool) :
    outcome error string :=
  match normalizeDecimalString amount with
  | Some normalized => scale_decimal normalized scale rnd
  | None => Err (new_error InvalidCashWalletCutoverAmountError
                   "Invalid non-negative decimal amount: ")
  end.

Definition scaledIntegerToDecimal (amount : string) (scale : nat) : string :=
  match scale with
  | O => amount
  | _ =>
      let padded := pad_start (S scale) amount in
      let k := (String.length padded - scale)%nat in
      let whole := str_take k padded in
      let fraction := strip_zeros (str_drop k padded) in
      if nonempty fraction then whole +:+ String "." fraction else whole
  end.

Definition ibexUsdDollarsToPreciseCents (amount : ibex_amount) : outcome error string :=
  bindo (decimalToScaledInteger_rt amount 8 false) (fun dollarsScaledToEightDecimals =>
  Ok (scaledIntegerToDecimal dollarsScaledToEightDecimals 6)).

Definition ibexMajorUnitsToUsdtMicros (amount : ibex_amount) : outcome error string :=
  decimalToScaledInteger_rt amount 6 true.

(** The value of a decimal numeral is [dec_mant s / 10 ^ dec_scale s]. *)
Definition dec_mant (s : string) : Z :=
  match split_on "." s with
  | w :: f :: _ => digits_val (w +:+ f)
  | [w] => digits_val w
  | [] => 0
  end.
Definition dec_scale (s : string) : Z :=
  match split_on "." s with _ :: f :: _ => slen f | _ => 0 end.

(** Balances are JSON numbers. A negative numeral is below the bound, one in
    exponent notation is above it or negative. *)
Definition hasOnlySubMicroMajorUnitDust (amount : option js_num) : bool :=
  match amount with
  | None => true
  | Some x =>
      match normalizeDecimalString (AmtNumber x) with
      | Some (String "-" _) => true
      | Some s => dec_mant s * 10 ^ 6 <? 10 ^ dec_scale s
      | None => mant x <? 0
      end
  end.

(** ** Values of decimals *)

Lemma bigint_of_digits s : all_digits s = true -> bigint_of s = Ok (digits_val s).
Proof. intros H. unfold bigint_of. by rewrite js_BigInt_digits. Qed.

Lemma bigint_of_print n : 0 <= n -> bigint_of (bigint_toString n) = Ok n.
Proof.
  intros H. unfold bigint_of. by rewrite bigint_toString_nonneg, js_BigInt_print.
Qed.

Lemma dec_frac w f : all_digits w = true -> all_digits f = true ->
  dec_mant (w +:+ String "." f) = digits_val (w +:+ f) /\
  dec_scale (w +:+ String "." f) = slen f.
Proof.
  intros Hw Hf. unfold dec_mant, dec_scale.
  rewrite split_on_app, split_on_none by by apply digits_no_char. done.
Qed.

Lemma dec_int w : all_digits w = true -> dec_mant w = digits_val w /\ dec_scale w = 0.
Proof.
  intros Hw. unfold dec_mant, dec_scale.
  by rewrite split_on_none by by apply digits_no_char.
Qed.

Lemma dec_nonneg s : re_decimal s = true -> 0 <= dec_mant s /\ 0 <= dec_scale s.
Proof.
  intros (w & f & Hw & Hf & Hs & _)%re_decimal_spec.
  apply andb_true_iff in Hw as [_ Hw]. unfold dec_mant, dec_scale. rewrite Hs.
  destruct (nonempty f); split; try apply slen_nonneg; try lia.
  - apply digits_val_bound. by rewrite all_digits_app, Hw.
  - by apply digits_val_bound.
Qed.

(** The digit after the scaled ones decides the rounding of the whole rest. *)
Lemma half_up_by_digit X D : 0 <= X -> 0 < D ->
  X / D + (if 5 <=? 10 * X / D - 10 * (X / D) then 1 else 0) = (2 * X + D) / (2 * D).
Proof.
  intros HX HD. pose proof (Z.div_mod X D ltac:(lia)) as E.
  pose proof (Z.mod_pos_bound X D HD) as Hm. set (q := X / D) in *. set (m := X mod D) in *.
  assert (10 * X / D = 10 * q + 10 * m / D) as ->.
  { rewrite E. replace (10 * (D * q + m)) with (10 * m + 10 * q * D) by ring.
    rewrite Z.div_add by lia. ring. }
  pose proof (Z.div_mod (10 * m) D ltac:(lia)) as E2.
  pose proof (Z.mod_pos_bound (10 * m) D HD) as Hm2. set (d := 10 * m / D) in *.
  destruct (Z.leb_spec 5 (10 * q + d - 10 * q)).
  - apply Z.div_unique with (2 * m - D); [left; nia|nia].
  - apply Z.div_unique with (2 * m + D); [left; nia|nia].
Qed.

(** The fraction padded to [S scale] digits: its first [scale] digits and the
    next one. *)
Lemma padded_fraction f scale : all_digits f = true ->
  let p := str_take (S scale) (f +:+ zeros (S scale)) in
  let X := digits_val f * 10 ^ Z.of_nat scale in
  let D := 10 ^ slen f in
  all_digits (str_take scale p) = true /\ digits_val (str_take scale p) = X / D /\
  match str_drop scale p with String c _ => digit_val c | EmptyString => 0 end =
    10 * X / D - 10 * (X / D).
Proof.
  intros Hf p X D. set (g := f +:+ zeros (S scale)) in *.
  assert (all_digits g = true) as Hg by (subst g; by rewrite all_digits_app, Hf, zeros_digits).
  assert (slen g = slen f + Z.of_nat (S scale)) as Lg by (subst g; by rewrite slen_app, zeros_len).
  assert (slen p = Z.of_nat (S scale)) as Lp.
  { subst p. rewrite str_take_len. pose proof (slen_nonneg f). lia. }
  assert (all_digits p = true) as Hp by by apply str_take_digits.
  assert (digits_val p = 10 * X / D) as Vp.
  { subst p. rewrite digits_val_take by (done || (pose proof (slen_nonneg f); lia)).
    rewrite Lg. subst g. rewrite digits_val_app, zeros_val, zeros_len. f_equal; [|unfold D; f_equal; lia].
    subst X. rewrite Nat2Z.inj_succ, Z.pow_succ_r by lia. ring. }
  assert (0 < D) as HD by (apply pow10_pos, slen_nonneg).
  pose proof (digits_val_app (str_take scale p) (str_drop scale p)) as E.
  rewrite take_drop_str in E.
  assert (slen (str_drop scale p) = 1) as Ld by (rewrite str_drop_len; lia).
  assert (digits_val (str_take scale p) = X / D) as Vt.
  { rewrite digits_val_take, Vp, Lp by (done || lia).
    replace (Z.of_nat (S scale) - Z.of_nat scale) with 1 by lia.
    rewrite Z.pow_1_r, Z.div_div, (Z.mul_comm D), Z.div_mul_cancel_l by lia. done. }
  split; [by apply str_take_digits|]. split; [done|].
  destruct (str_drop scale p) as [|c [|c' s']].
  - done.
  - rewrite Vt, Ld in E. unfold digits_val in E at 2. cbn [dval] in E. rewrite <- Vp. lia.
  - rewrite !slen_cons in Ld. pose proof (slen_nonneg s'). lia.
Qed.

Definition scaled_value (n : Z) (s : string) (rnd : bool) : Z :=
  let D := 10 ^ dec_scale s in
  if rnd then (2 * (dec_mant s * n) + D) / (2 * D) else dec_mant s * n / D.

Lemma scale_decimal_spec value scale rnd : re_decimal value = true ->
  scale_decimal value scale rnd =
    Ok (bigint_toString (scaled_value (10 ^ Z.of_nat scale) value rnd)).
Proof.
  intros H. unfold scale_decimal. rewrite H. cbn [negb].
  destruct (re_decimal_spec value H) as (w & f & Hw & Hf & Hs & Hv).
  apply andb_true_iff in Hw as [_ Hw].
  assert (dec_mant value = digits_val w * 10 ^ slen f + digits_val f /\
          dec_scale value = slen f) as [EN ED].
  { unfold dec_mant, dec_scale. rewrite Hs. destruct f; cbn [nonempty].
    - change (slen "") with 0. change (digits_val "") with 0. lia.
    - by rewrite digits_val_app. }
  assert ((match split_on "." value with
           | w :: f :: _ => (w, f) | [w] => (w, "") | [] => ("", "") end) = (w, f)) as ->
    by (rewrite Hs; by destruct f).
  cbn zeta beta iota.
  destruct (padded_fraction f scale Hf) as (P1 & P2 & P3). rewrite P3.
  set (sf := str_take scale (str_take (S scale) (f +:+ zeros (S scale)))) in *.
  rewrite bigint_of_digits by done. cbn [bindo].
  assert (bigint_of (if nonempty sf then sf else "0") = Ok (digits_val sf)) as ->
    by (destruct sf; [done|by apply bigint_of_digits]).
  cbn [bindo]. do 2 f_equal. rewrite P2. unfold scaled_value. rewrite EN, ED.
  set (D := 10 ^ slen f). set (K := 10 ^ Z.of_nat scale). set (F := digits_val f).
  assert (0 < D) by (apply pow10_pos, slen_nonneg).
  assert (0 <= F) by (by apply digits_val_bound).
  assert (0 < K) by (apply pow10_pos; lia).
  destruct rnd; cbn [andb].
  - replace (2 * ((digits_val w * D + F) * K) + D)
      with (2 * (F * K) + D + (digits_val w * K) * (2 * D)) by ring.
    rewrite Z.div_add, <- half_up_by_digit by nia. lia.
  - replace ((digits_val w * D + F) * K) with (F * K + (digits_val w * K) * D) by ring.
    rewrite Z.div_add by lia. lia.
Qed.

(** ** Numbers read from IBEX *)

Lemma div_cross a b a' b' : 0 < b -> 0 < b' -> a * b' = a' * b -> a / b = a' / b'.
Proof.
  intros Hb Hb' E. rewrite <- (Z.div_mul_cancel_r a b b') by lia.
  rewrite <- (Z.div_mul_cancel_r a' b' b) by lia. by rewrite E, (Z.mul_comm b b').
Qed.

(** Scaling depends on the value of the decimal alone. *)
Lemma scaled_value_of K s rnd N D : 0 <= dec_scale s -> 0 < D ->
  dec_mant s * D = N * 10 ^ dec_scale s ->
  scaled_value K s rnd = if rnd then (2 * (N * K) + D) / (2 * D) else N * K / D.
Proof.
  intros Hs HD E. unfold scaled_value. pose proof (pow10_pos _ Hs).
  assert (dec_mant s * K * D = N * K * 10 ^ dec_scale s) by
    (rewrite <- Z.mul_assoc, (Z.mul_comm K), Z.mul_assoc, E; ring).
  destruct rnd; (apply div_cross; [lia..|]); [|done]. rewrite !Z.mul_add_distr_r. lia.
Qed.

(** A non-negative number is normalised to a decimal with the value
    [toFixed(12)] gives it. *)
Lemma normalize_number x : 0 <= mant x -> num_fixed_range x = true ->
  exists s, normalizeDecimalString (AmtNumber x) = Some s /\ re_decimal s = true /\
    dec_mant s * 10 ^ 12 = fixed_scaled 12 x * 10 ^ dec_scale s.
Proof.
  intros Hx Hr. unfold normalizeDecimalString, num_toFixed. rewrite Hr.
  destruct (Z.ltb_spec (mant x) 0) as [|_]; [lia|]. cbn [fmap option_fmap option_map]. unfold compose.
  destruct (render_fixed_spec 12 (fixed_scaled 12 x) (fixed_scaled_nonneg _ _) ltac:(lia))
    as (w & fr & -> & Hw & Hwn & Hfr & Lfr & <-).
  assert (re_digits w = true) as Hrw by (unfold re_digits; by rewrite Hwn, Hw).
  destruct (strip_dot_zeros_decimal w fr Hfr) as (f & n & Ef & Hf & Hcase).
  { apply nonempty_slen. rewrite Lfr. lia. }
  change (Z.of_nat 12) with 12 in *. subst fr.
  rewrite slen_app, zeros_len in Lfr. pose proof (slen_nonneg f) as Hl.
  assert (10 ^ 12 = 10 ^ slen f * 10 ^ Z.of_nat n) as E12
    by (rewrite <- Z.pow_add_r, Lfr by lia; done).
  rewrite digits_val_app, zeros_val, zeros_len.
  destruct Hcase as [[Hne ->]|[-> ->]]; [exists (w +:+ String "." f)|exists w]; (split; [unfold or_zero|split]).
  - destruct w; [done|]. reflexivity.
  - apply re_decimal_frac; [done|]. unfold re_digits. by rewrite Hne, Hf.
  - destruct (dec_frac w f Hw Hf) as [-> ->]. rewrite digits_val_app, E12. ring.
  - rewrite Hwn. reflexivity.
  - by apply re_decimal_int.
  - destruct (dec_int w Hw) as [-> ->]. change (digits_val "") with 0. ring.
Qed.

Lemma scale_number x scale rnd : 0 <= mant x -> num_fixed_range x = true ->
  let N := fixed_scaled 12 x in let K := 10 ^ Z.of_nat scale in
  decimalToScaledInteger_rt (AmtNumber x) scale rnd =
    Ok (bigint_toString (if rnd then (2 * (N * K) + 10 ^ 12) / (2 * 10 ^ 12)
                         else N * K / 10 ^ 12)).
Proof.
  intros Hx Hr N K. destruct (normalize_number x Hx Hr) as (s & Es & Hs & Ev).
  unfold decimalToScaledInteger_rt. rewrite Es, scale_decimal_spec by done. do 2 f_equal.
  apply scaled_value_of; [by apply dec_nonneg|lia|done].
Qed.

(** The decimal text of a scaled integer has the value [amount / 10 ^ scale]. *)
Lemma scaledIntegerToDecimal_value n scale : 0 <= n ->
  let s := scaledIntegerToDecimal (print_nonneg n) scale in
  re_decimal s = true /\ dec_mant s * 10 ^ Z.of_nat scale = n * 10 ^ dec_scale s.
Proof.
  intros Hn. pose proof (print_nonneg_re n Hn) as Hre. pose proof (print_nonneg_digits n Hn) as Hd.
  destruct scale as [|k]; cbn zeta.
  { cbn [scaledIntegerToDecimal]. split; [by apply re_decimal_int|].
    destruct (dec_int _ Hd) as [-> ->]. by rewrite print_nonneg_val. }
  destruct (render_fixed_spec (S k) n Hn ltac:(lia)) as (w & fr & E & Hw & Hwn & Hfr & Lfr & Hv).
  unfold render_fixed in E. unfold scaledIntegerToDecimal. cbn zeta.
  set (p := pad_start (S (S k)) (print_nonneg n)) in *.
  set (j := (String.length p - S k)%nat) in *.
  assert (str_take j p = w /\ str_drop j p = fr) as [-> ->].
  { assert (no_char "." (str_take j p) = true) as H1.
    { apply digits_no_char; [done|]. by apply str_take_digits, pad_start_digits. }
    assert (no_char "." w = true) as H2 by by apply digits_no_char.
    pose proof (f_equal (split_on ".") E) as E'. rewrite !split_on_app in E' by done.
    rewrite !split_on_none in E' by
      (apply digits_no_char; [done|]; done || by apply str_drop_digits, pad_start_digits).
    by simplify_eq. }
  destruct (strip_zeros_spec fr) as [z Ez]. set (f := strip_zeros fr) in *.
  assert (all_digits f = true) as Hf.
  { rewrite Ez, all_digits_app in Hfr. by apply andb_true_iff in Hfr as [??]. }
  assert (re_digits w = true) as Hrw by (unfold re_digits; by rewrite Hwn, Hw).
  rewrite Ez, slen_app, zeros_len in Lfr. pose proof (slen_nonneg f) as Hl.
  assert (10 ^ Z.of_nat (S k) = 10 ^ slen f * 10 ^ Z.of_nat z) as ES
    by (rewrite <- Z.pow_add_r, Lfr by lia; done).
  rewrite Ez, digits_val_app, zeros_val, zeros_len in Hv.
  destruct (nonempty f) eqn:Hfn.
  - split; [apply re_decimal_frac; unfold re_digits; by rewrite ?Hfn, ?Hf, ?Hwn, ?Hw|].
    destruct (dec_frac w f Hw Hf) as [-> ->]. rewrite digits_val_app, <- Hv, ES. ring.
  - split; [by apply re_decimal_int|]. destruct (dec_int w Hw) as [-> ->].
    destruct f; [|done]. change (digits_val "") with 0 in Hv. rewrite <- Hv. ring.
Qed.

(** ** What the conversions compute *)

(** USDT millionths of a decimal number of cents, rounded half up. *)
Definition micros_of_cents (s : string) : Z := scaled_value (10 ^ 4) s true.

Lemma usdCentsToUsdtMicros_value s : re_decimal s = true ->
  usdCentsToUsdtMicros s = Ok (bigint_toString (micros_of_cents s)).
Proof. intros H. by apply (scale_decimal_spec s 4 true). Qed.

Lemma micros_of_cents_nonneg s : re_decimal s = true -> 0 <= micros_of_cents s.
Proof.
  intros H. destruct (dec_nonneg s H) as [? Hk]. pose proof (pow10_pos _ Hk).
  unfold micros_of_cents, scaled_value. apply Z.div_pos; lia.
Qed.

Lemma parse_print n : 0 <= n -> parseNonNegativeInteger (bigint_toString n) = Ok n.
Proof.
  intros H. unfold parseNonNegativeInteger. rewrite bigint_of_print by done.
  by rewrite bigint_toString_nonneg, print_nonneg_re.
Qed.

(** [usdCentsToUsdtMicros] accepts exactly the decimal numerals; on one of
    value [v] cents it returns the integer nearest to [10000 * v], a half
    rounded up, and on anything else an invalid-amount error. *)
Theorem usdCentsToUsdtMicros_correct (s : string) :
  match usdCentsToUsdtMicros s with
  | Ok m => re_decimal s = true /\
      exists n, m = bigint_toString n /\ 0 <= n /\
        2 * dec_mant s * 10 ^ 4 - 10 ^ dec_scale s < 2 * n * 10 ^ dec_scale s
          <= 2 * dec_mant s * 10 ^ 4 + 10 ^ dec_scale s
  | Err e => re_decimal s = false /\ err_class e = InvalidCashWalletCutoverAmountError
  | Throw _ => False
  end.
Proof.
  destruct (re_decimal s) eqn:H.
  - rewrite usdCentsToUsdtMicros_value by done. split; [done|]. eexists.
    split; [done|]. split; [by apply micros_of_cents_nonneg|].
    destruct (dec_nonneg s H) as [? Hk]. pose proof (pow10_pos _ Hk) as HD.
    unfold micros_of_cents, scaled_value.
    pose proof (Z.div_mod (2 * (dec_mant s * 10 ^ 4) + 10 ^ dec_scale s)
                  (2 * 10 ^ dec_scale s) ltac:(lia)) as E.
    pose proof (Z.mod_pos_bound (2 * (dec_mant s * 10 ^ 4) + 10 ^ dec_scale s)
                  (2 * 10 ^ dec_scale s) ltac:(lia)). lia.
  - unfold usdCentsToUsdtMicros, decimalToScaledInteger, scale_decimal. by rewrite H.
Qed.

(** The shortfalls. What a rollback still owes the legacy wallet is the
    difference of the two balances in millionths, never below zero; what the
    cutover owes the destination is the target less what arrived since the
    starting balance, never below zero. *)
Theorem shortfalls_correct (source current : string) (target starting now : Z) :
  re_decimal source = true -> re_decimal current = true ->
  0 <= target -> 0 <= starting -> 0 <= now ->
  legacyShortfallUsdtMicros source current =
    Ok (bigint_toString (Z.max 0 (micros_of_cents source - micros_of_cents current))) /\
  destinationShortfallUsdtMicros (bigint_toString target) (bigint_toString starting)
    (bigint_toString now) =
    Ok (bigint_toString (Z.max 0 (target - Z.max 0 (now - starting)))).
Proof.
  intros Hs Hc Ht Hst Hn. split.
  - unfold legacyShortfallUsdtMicros.
    rewrite !usdCentsToUsdtMicros_value by done. cbn [bindo].
    rewrite !bigint_of_print by by apply micros_of_cents_nonneg. cbn [bindo].
    destruct (Z.leb_spec (micros_of_cents source) (micros_of_cents current));
      [rewrite Z.max_l by lia|rewrite Z.max_r by lia]; done.
  - unfold destinationShortfallUsdtMicros. rewrite !parse_print by done. cbn [bindo].
    assert ((if starting <? now then now - starting else 0) = Z.max 0 (now - starting)) as ->
      by (destruct (Z.ltb_spec starting now); lia).
    destruct (Z.leb_spec target (Z.max 0 (now - starting)));
      [rewrite (Z.max_l 0) by lia|rewrite (Z.max_r 0 (target - _)) by lia]; done.
Qed.

Lemma shortfalls_correct_witness :
  legacyShortfallUsdtMicros "150.5" "100.25" = Ok "502500" /\
  destinationShortfallUsdtMicros "1000" "50" "550" = Ok "500".
Proof.
  exact (shortfalls_correct "150.5" "100.25" 1000 50 550
           ltac:(reflexivity) ltac:(reflexivity) ltac:(lia) ltac:(lia) ltac:(lia)).
Defined.

(** Cents covering [n] millionths. *)
Definition ceil_cents (n : Z) : Z := Z.quot (n + 10000 - 1) 10000.

Lemma ceil_cents_bounds n : 0 <= n -> (ceil_cents n - 1) * 10000 < n <= ceil_cents n * 10000.
Proof.
  intros Hn. unfold ceil_cents. rewrite Z.quot_div_nonneg by lia.
  pose proof (Z.div_mod (n + 10000 - 1) 10000 ltac:(lia)).
  pose proof (Z.mod_pos_bound (n + 10000 - 1) 10000 ltac:(lia)). lia.
Qed.

Lemma usdtMicrosToUsdCentsCeil_value n : 0 <= n ->
  usdtMicrosToUsdCentsCeil (bigint_toString n) = Ok (bigint_toString (ceil_cents n)).
Proof.
  intros Hn. unfold usdtMicrosToUsdCentsCeil. rewrite parse_print by done. cbn [bindo].
  by destruct (Z.eqb_spec n 0) as [->|Hne].
Qed.

(** The cents that cover an amount of millionths: [usdtMicrosToUsdCentsCeil]
    returns the least number of whole cents worth at least the amount. *)
Theorem usdtMicrosToUsdCentsCeil_least (n : Z) : 0 <= n ->
  exists c, usdtMicrosToUsdCentsCeil (bigint_toString n) = Ok (bigint_toString c) /\
    (c - 1) * 10000 < n <= c * 10000.
Proof.
  intros Hn. exists (ceil_cents n). split.
  - by apply usdtMicrosToUsdCentsCeil_value.
  - by apply ceil_cents_bounds.
Qed.

Lemma usdtMicrosToUsdCentsCeil_least_witness :
  exists c, usdtMicrosToUsdCentsCeil "12345" = Ok (bigint_toString c) /\
    (c - 1) * 10000 < 12345 <= c * 10000.
Proof. exact (usdtMicrosToUsdCentsCeil_least 12345 ltac:(lia)). Defined.

(** The sign test on the text of an integer. *)
Lemma strip_minus n :
  match bigint_toString n with
  | String "-" rest => (true, rest)
  | _ => (false, bigint_toString n)
  end = (n <? 0, print_nonneg (Z.abs n)).
Proof.
  unfold bigint_toString. destruct (Z.ltb_spec n 0); [by rewrite Z.abs_neq by lia|].
  rewrite Z.abs_eq by done. pose proof (print_nonneg_digits n ltac:(lia)) as Hd.
  destruct (print_nonneg n) as [|[[] [] [] [] [] [] [] []] s]; done.
Qed.

Lemma split_toString n : split_on "." (bigint_toString n) = [bigint_toString n].
Proof.
  apply split_on_none. unfold bigint_toString.
  destruct (Z.ltb_spec n 0); cbn [no_char]; [apply andb_true_iff; split; [done|]|];
    (apply digits_no_char; [done|]); apply print_nonneg_digits; lia.
Qed.

(** Balance reporting loses nothing: for every signed number of millionths
    the numeral handed to [Number] is a decimal of four places with exactly the
    magnitude, negated exactly for the negative amounts. *)
Theorem usdtMicrosToUsdCents_exact (n : Z) :
  exists s, usdtMicrosToUsdCents (bigint_toString n) = Ok (n <? 0, s) /\
    re_decimal s = true /\ dec_mant s = Z.abs n /\ dec_scale s = 4.
Proof.
  set (q := Z.abs n / 10000). set (r := Z.abs n mod 10000).
  assert (0 <= q) as Hq by (apply Z.div_pos; lia).
  assert (0 <= r < 10000) as Hr by (apply Z.mod_pos_bound; lia).
  set (f := pad_start 4 (print_nonneg r)).
  assert (all_digits f = true) as Hf by (apply pad_start_digits, print_nonneg_digits; lia).
  assert (slen f = 4) as Lf.
  { subst f. rewrite pad_start_len.
    pose proof (proj2 (print_nonneg_len r 4 ltac:(lia) ltac:(lia))). lia. }
  exists (print_nonneg q +:+ String "." f).
  pose proof (print_nonneg_digits q Hq) as Hqd. pose proof (print_nonneg_re q Hq) as Hqr.
  destruct (dec_frac _ f Hqd Hf) as [-> ->].
  split; [|split; [apply re_decimal_frac; [done|]|split; [|done]]].
  - unfold usdtMicrosToUsdCents. rewrite split_toString. cbn [nonempty andb].
    rewrite strip_minus, <- (bigint_toString_nonneg (Z.abs n)), parse_print by lia.
    unfold USDT_MICROS_PER_USD_CENT. rewrite Z.quot_div_nonneg, Z.rem_mod_nonneg by lia.
    fold q r. rewrite !bigint_toString_nonneg by lia. do 2 f_equal.
    destruct (Z.ltb_spec n 0), (Z.eqb_spec (Z.abs n) 0); done || lia.
  - unfold re_digits. rewrite Hf, andb_true_r. apply nonempty_slen. lia.
  - rewrite digits_val_app, Lf. subst f. rewrite pad_start_val, !print_nonneg_val by lia.
    pose proof (Z.div_mod (Z.abs n) 10000). lia.
Qed.

(** The exact value of a number is [num_n x / num_d x]. *)
Definition num_n (x : js_num) : Z := mant x * 2 ^ Z.max 0 (expo x).
Definition num_d (x : js_num) : Z := 2 ^ Z.max 0 (- expo x).

Lemma num_d_pos x : 0 < num_d x.
Proof. apply Z.pow_pos_nonneg; lia. Qed.

(** [toFixed(12)] is within half a unit of the twelfth decimal. *)
Lemma fixed_scaled_near f x : 0 <= mant x ->
  let K := 10 ^ Z.of_nat f in
  2 * num_n x * K - num_d x <= 2 * fixed_scaled f x * num_d x <= 2 * num_n x * K + num_d x.
Proof.
  intros Hx K. unfold fixed_scaled, num_n. rewrite Z.abs_eq by done. fold K.
  pose proof (num_d_pos x) as Hd. unfold num_d in *.
  destruct (Z.leb_spec 0 (expo x)).
  - rewrite (Z.max_r 0 (expo x)), (Z.max_l 0 (- expo x)) in * by lia. change (2 ^ 0) with 1. nia.
  - rewrite (Z.max_l 0 (expo x)), (Z.max_r 0 (- expo x)) in * by lia.
    change (2 ^ 0) with 1. set (d := 2 ^ (- expo x)) in *.
    pose proof (Z.div_mod (2 * (mant x * K) + d) (2 * d) ltac:(lia)) as E.
    pose proof (Z.mod_pos_bound (2 * (mant x * K) + d) (2 * d) ltac:(lia)). lia.
Qed.

(** A balance read from IBEX, taken at twelve decimals, is truncated and
    never rounded up: the source balance is [floor] at eight decimals of a
    dollar, written as a decimal of cents, and the spendable destination
    balance is [floor] at six, a whole number of millionths. *)
Theorem ibex_reads_floor (x : js_num) :
  0 <= mant x -> num_fixed_range x = true ->
  (exists s, ibexUsdDollarsToPreciseCents (AmtNumber x) = Ok s /\ re_decimal s = true /\
     dec_mant s * 10 ^ 6 = fixed_scaled 12 x / 10 ^ 4 * 10 ^ dec_scale s) /\
  decimalToScaledInteger_rt (AmtNumber x) 6 false =
    Ok (bigint_toString (fixed_scaled 12 x / 10 ^ 6)).
Proof.
  intros Hx Hr. pose proof (fixed_scaled_nonneg 12 x) as HN. split.
  - unfold ibexUsdDollarsToPreciseCents. rewrite (scale_number x 8 false Hx Hr). cbn [bindo].
    assert (fixed_scaled 12 x * 10 ^ Z.of_nat 8 / 10 ^ 12 = fixed_scaled 12 x / 10 ^ 4) as ->
      by (apply div_cross; lia).
    assert (0 <= fixed_scaled 12 x / 10 ^ 4) as Hq by (apply Z.div_pos; lia).
    eexists. split; [done|]. rewrite bigint_toString_nonneg by done.
    exact (scaledIntegerToDecimal_value _ 6 Hq).
  - rewrite (scale_number x 6 false Hx Hr). do 2 f_equal. apply div_cross; lia.
Qed.

Lemma ibex_reads_floor_witness :
  decimalToScaledInteger_rt (AmtNumber (JsNum 3 (-2))) 6 false = Ok "750000".
Proof.
  exact (proj2 (ibex_reads_floor (JsNum 3 (-2)) ltac:(done) ltac:(reflexivity))).
Defined.

(** The spendable balance reported for a wallet is at most half a
    trillionth of a dollar above the balance IBEX returned, and less than a
    millionth (and that half) below it. *)
Theorem spendable_close (x : js_num) : 0 <= mant x -> num_fixed_range x = true ->
  exists m, decimalToScaledInteger_rt (AmtNumber x) 6 false = Ok (bigint_toString m) /\
    2 * m * 10 ^ 6 * num_d x <= 2 * num_n x * 10 ^ 12 + num_d x /\
    2 * num_n x * 10 ^ 12 - num_d x < 2 * (m + 1) * 10 ^ 6 * num_d x.
Proof.
  intros Hx Hr. exists (fixed_scaled 12 x / 10 ^ 6). split.
  { rewrite (scale_number x 6 false Hx Hr). do 2 f_equal. apply div_cross; lia. }
  pose proof (fixed_scaled_near 12 x Hx) as H. cbn zeta in H.
  change (Z.of_nat 12) with 12 in H. pose proof (num_d_pos x).
  pose proof (Z.div_mod (fixed_scaled 12 x) (10 ^ 6) ltac:(lia)) as E.
  pose proof (Z.mod_pos_bound (fixed_scaled 12 x) (10 ^ 6) ltac:(lia)).
  set (m := fixed_scaled 12 x / 10 ^ 6) in *. nia.
Qed.

Lemma spendable_close_witness : exists m,
  decimalToScaledInteger_rt (AmtNumber (JsNum 3 (-2))) 6 false = Ok (bigint_toString m) /\
  2 * m * 10 ^ 6 * 4 <= 2 * 3 * 10 ^ 12 + 4 /\ 2 * 3 * 10 ^ 12 - 4 < 2 * (m + 1) * 10 ^ 6 * 4.
Proof. exact (spendable_close (JsNum 3 (-2)) ltac:(done) ltac:(reflexivity)). Defined.

(** The truncation acts on twelve decimals already rounded to nearest: of a
    balance just below a dollar, a whole dollar is reported spendable. *)
Example spendable_exceeds_balance :
  decimalToScaledInteger_rt (AmtNumber (JsNum (2 ^ 50 - 1) (-50))) 6 false = Ok "1000000" /\
  num_n (JsNum (2 ^ 50 - 1) (-50)) * 10 ^ 6 < 1000000 * num_d (JsNum (2 ^ 50 - 1) (-50)).
Proof. split; [vm_compute; reflexivity|reflexivity]. Qed.

(** A string amount without a point loses its trailing zeros. *)
Example normalize_string_integer : normalizeDecimalString (AmtString "100") = Some "1".
Proof. reflexivity. Qed.

(** The dust test of the verifiers passes exactly for an absent balance,
    for a negative one, and for one that is below a millionth of a dollar when
    rounded to twelve decimals. *)
Theorem dust_below_micro (b : option js_num) :
  hasOnlySubMicroMajorUnitDust b =
    match b with
    | None => true
    | Some x => (mant x <? 0) || num_fixed_range x && (fixed_scaled 12 x <? 10 ^ 6)
    end.
Proof.
  destruct b as [x|]; [|done]. unfold hasOnlySubMicroMajorUnitDust.
  destruct (Z.ltb_spec (mant x) 0) as [Hx|Hx]; cbn [orb].
  - unfold normalizeDecimalString, num_toFixed.
    destruct (num_fixed_range x); cbn [fmap option_fmap option_map];
      destruct (Z.ltb_spec (mant x) 0); try lia.
    destruct (render_fixed_spec 12 (fixed_scaled 12 x) (fixed_scaled_nonneg _ _) ltac:(lia))
      as (w & fr & -> & _ & _ & Hfr & Lfr & _).
    unfold compose. rewrite <- app_cons.
    destruct (strip_dot_zeros_decimal (String "-" w) fr Hfr) as (f & n & _ & _ & Hcase).
    { apply nonempty_slen. rewrite Lfr. lia. }
    by destruct Hcase as [[_ ->]|[_ ->]].
  - destruct (num_fixed_range x) eqn:Hr; cbn [andb].
    + destruct (normalize_number x Hx Hr) as (s & -> & Hs & Ev).
      assert ((dec_mant s * 10 ^ 6 <? 10 ^ dec_scale s) = (fixed_scaled 12 x <? 10 ^ 6)) as E.
      { pose proof (pow10_pos _ (proj2 (dec_nonneg s Hs))) as HD.
        destruct (Z.ltb_spec (dec_mant s * 10 ^ 6) (10 ^ dec_scale s)),
          (Z.ltb_spec (fixed_scaled 12 x) (10 ^ 6)); try done; nia. }
      destruct s as [|[[] [] [] [] [] [] [] []] s]; done.
    + unfold normalizeDecimalString, num_toFixed. rewrite Hr. cbn.
      destruct (Z.ltb_spec (mant x) 0); [lia|done].
Qed.
