(* ===== verification/World.v ===== *)
(** * The world of the application

    State shared by the modelled services: the MongoDB collections the cutover
    reads and writes, the module-level caches, and the state of the outside
    world. What lies outside the repository is a parameter, collected in the
    class [External]: the IBEX client library, the BOLT11 parser of the
    [invoices] package, MongoDB's failures and sort, the clock, random
    identifiers and the configuration. Also here: the error conversion of
    [src/src/services/mongoose/utils.ts], which every repository shares. *)

From stdpp Require Import base gmap list strings finite sorting.
From Stdlib Require Import ZArith Lia Ascii.
From S2P Require Import Prelude JsStrings JsNumbers Errors BigintMoney MoneyAmounts.
From S2P Require Import CutoverStateMachine.

Open Scope Z_scope.

(** ** Documents *)

(** The optional text fields of a migration. *)
Inductive str_field :=
| previousDefaultWalletId
| sourceBalanceUsdCents | destinationAmountUsdtMicros | destinationStartingBalanceUsdtMicros
| feeAmountUsdCents | feeAmountUsdtMicros
| balanceMoveInvoicePaymentRequest | balanceMoveInvoicePaymentHash
| balanceMovePaymentTransactionId
| feeReimbursementInvoicePaymentRequest | feeReimbursementInvoicePaymentHash
| feeReimbursementPaymentTransactionId
| lastError | rollbackRequestedBy | rollbackReason
| rollbackInvoicePaymentRequest | rollbackInvoicePaymentHash | rollbackPaymentTransactionId
| rollbackShortfallUsdtMicros | rollbackShortfallInvoicePaymentRequest
| rollbackShortfallInvoicePaymentHash | rollbackShortfallPaymentTransactionId.

Inductive date_field :=
| startedAt | completedAt | rollbackRequestedAt | rollbackPointerRestoredAt | rolledBackAt.

#[global] Instance str_field_eq_dec : EqDecision str_field.
Proof. solve_decision. Defined.
#[global] Instance date_field_eq_dec : EqDecision date_field.
Proof. solve_decision. Defined.

#[global] Program Instance str_field_finite : Finite str_field := {|
  enum := [previousDefaultWalletId; sourceBalanceUsdCents; destinationAmountUsdtMicros;
    destinationStartingBalanceUsdtMicros; feeAmountUsdCents; feeAmountUsdtMicros;
    balanceMoveInvoicePaymentRequest; balanceMoveInvoicePaymentHash;
    balanceMovePaymentTransactionId; feeReimbursementInvoicePaymentRequest;
    feeReimbursementInvoicePaymentHash; feeReimbursementPaymentTransactionId; lastError;
    rollbackRequestedBy; rollbackReason; rollbackInvoicePaymentRequest;
    rollbackInvoicePaymentHash; rollbackPaymentTransactionId; rollbackShortfallUsdtMicros;
    rollbackShortfallInvoicePaymentRequest; rollbackShortfallInvoicePaymentHash;
    rollbackShortfallPaymentTransactionId] |}.
Next Obligation. by_computation. vm_compute. reflexivity. Qed.
Next Obligation. intros []; by_computation; vm_compute; reflexivity. Qed.

#[global] Program Instance date_field_finite : Finite date_field := {|
  enum := [startedAt; completedAt; rollbackRequestedAt; rollbackPointerRestoredAt;
    rolledBackAt] |}.
Next Obligation. by_computation. vm_compute. reflexivity. Qed.
Next Obligation. intros []; by_computation; vm_compute; reflexivity. Qed.

(** [CashWalletMigration]. Dates are milliseconds. *)
Record migration := mkMigration {
  m_id : string;
  m_accountId : string;
  m_accountUuid : option string;
  m_legacyUsdWalletId : string;
  m_destinationUsdtWalletId : string;
  m_cutoverVersion : Z;
  m_runId : string;
  m_status : MigrationStatus;
  m_idempotencyKey : string;
  m_attempts : Z;
  m_lockedAt : option Z;
  m_lockedBy : option string;
  m_updatedAt : Z;
  m_rollbackFromStatus : option MigrationStatus;
  m_str : gmap str_field string;
  m_date : gmap date_field Z
}.

#[global] Instance migration_eq_dec : EqDecision migration.
Proof. solve_decision. Defined.

(** [CashWalletCutoverConfig] *)
Record config := mkConfig {
  c_state : CutoverState;
  c_scheduledAt : option Z;
  c_startedAt : option Z;
  c_completedAt : option Z;
  c_pausedAt : option Z;
  c_pauseReason : option string;
  c_updatedBy : option string;
  c_cutoverVersion : Z;
  c_runId : option string;
  c_updatedAt : Z
}.

#[global] Instance config_eq_dec : EqDecision config.
Proof. solve_decision. Defined.

(** The part of an account the modelled code uses. *)
Inductive AccountStatus := StatusNew | StatusPending | StatusActive | StatusLocked | StatusClosed.
#[global] Instance AccountStatus_eq_dec : EqDecision AccountStatus.
Proof. solve_decision. Defined.

Record account := mkAccount {
  a_id : string;
  a_uuid : string;
  a_status : AccountStatus;
  a_defaultWalletId : string;
  a_username : option string;
  a_level : Z;
  a_role : option string;
  a_kratosUserId : string;
  a_bridgeCustomerId : option string;
  a_bridgeKycStatus : option string;
  a_bridgeEthereumAddress : option string;
  a_createdAt : Z
}.

Inductive WalletType := Checking | ExternalType.
#[global] Instance WalletType_eq_dec : EqDecision WalletType.
Proof. solve_decision. Defined.

Record wallet := mkWallet {
  wl_id : string;
  wl_accountId : string;
  wl_type : WalletType;
  wl_currency : WalletCurrency;
  wl_lnurlp : option string
}.

(** ** The outside world *)

(** An error object of the IBEX client library, and the parsed body a raw
    fetch error carries. *)
Inductive sdk_data := DataText (s : string) | DataRecord (err msg : option string).
Inductive sdk_error :=
| AuthenticationError (msg : string)
| ApiError (msg : string) (httpCode : Z) (ibexMessage : option string) (data : option sdk_data)
| IbexClientError (msg : string).

(** A library call answers, returns an error object, or rejects. *)
Inductive sdk_result (A : Type) :=
| Resp (a : A) | RespError (e : sdk_error) | Reject (e : error).
Arguments Resp {A} a.
Arguments RespError {A} e.
Arguments Reject {A} e.

Record invoice_body := mkInvoiceBody {
  ib_accountId : string;
  ib_amount : option string;
  ib_memo : string;
  ib_expiration : option Z
}.

(** A code of the IBEX schema: a number, or a text. *)
Inductive ibex_code := CodeNumber (n : Z) | CodeText (s : string).

(** The answer to a payment: the transaction id, the three places its status
    may be in, and the two failure codes. *)
Record pay_response := mkPayResponse {
  pr_transactionId : option string;
  pr_status : option Z;
  pr_failureReason : option ibex_code;
  pr_payment_statusId : option Z;
  pr_payment_status_id : option Z;
  pr_payment_failureId : option ibex_code
}.

(** What [parsePaymentRequest] returns, as far as the code reads it. *)
Record decoded_request := mkDecoded {
  d_payment : option string;
  d_cltv_delta : option Z;
  d_expires_at : Z;
  d_is_expired : bool;
  d_safe_tokens : option Z;
  d_description : option string;
  d_id : string;
  d_destination : string
}.

(** A MongoDB call that fails does so before or after it takes effect. *)
Inductive mongo_failure := FaultBefore (msg : string) | FaultAfter (msg : string).

Class External := {
  ibex_state : Type;
  sdk_getAccountDetails : string -> ibex_state -> sdk_result (option js_num) * ibex_state;
  sdk_addInvoice : invoice_body -> ibex_state -> sdk_result (option string) * ibex_state;
  sdk_payInvoiceV2 :
    string -> string -> option string -> ibex_state -> sdk_result pay_response * ibex_state;
  sdk_createAccount : string -> Z -> ibex_state -> sdk_result (option string) * ibex_state;
  sdk_createLnurlPay : string -> Z -> ibex_state -> sdk_result (option string) * ibex_state;
  parsePaymentRequest : string -> outcome error decoded_request;
  mongo_fault : nat -> option mongo_failure;
  sort_updatedAt : list migration -> list migration;
  valid_object_id : string -> bool;
  clock : nat -> Z;
  uuid : nat -> string;
  funder_resolver : outcome error string;
  mockIbexEnabled : bool
}.

(** [sort({ updatedAt: 1 })] reorders its input by increasing date; MongoDB
    does not say in which order documents of the same date come. *)
Class ExternalLaws `{External} := {
  sort_permutes : forall l, sort_updatedAt l ≡ₚ l;
  sort_sorts : forall l,
    Sorted (fun m m' => m_updatedAt m <= m_updatedAt m') (sort_updatedAt l)
}.

(** A payment IBEX acknowledged, in the terms of the payment service. *)
Record payment := mkPayment {
  p_sender : string;
  p_request : string;
  p_usdCents : option string;
  p_usdtMicros : option string
}.

Record world `{External} := mkWorld {
  w_config : option config;
  w_migrations : gmap string migration;
  w_accounts : gmap string account;
  w_wallets : list wallet;
  w_ibex : ibex_state;
  w_paid : list payment;
  w_ops : nat;
  w_reads : nat;
  w_uuids : nat;
  w_funder : option string;
  w_treasury : option string
}.

Section World.
Context `{X : External}.

Definition set_config c (w : world) : world :=
  mkWorld _ c (w_migrations w) (w_accounts w) (w_wallets w) (w_ibex w) (w_paid w) (w_ops w)
    (w_reads w) (w_uuids w) (w_funder w) (w_treasury w).
Definition set_migrations ms (w : world) : world :=
  mkWorld _ (w_config w) ms (w_accounts w) (w_wallets w) (w_ibex w) (w_paid w) (w_ops w)
    (w_reads w) (w_uuids w) (w_funder w) (w_treasury w).
Definition set_accounts a (w : world) : world :=
  mkWorld _ (w_config w) (w_migrations w) a (w_wallets w) (w_ibex w) (w_paid w) (w_ops w)
    (w_reads w) (w_uuids w) (w_funder w) (w_treasury w).
Definition set_wallets l (w : world) : world :=
  mkWorld _ (w_config w) (w_migrations w) (w_accounts w) l (w_ibex w) (w_paid w) (w_ops w)
    (w_reads w) (w_uuids w) (w_funder w) (w_treasury w).
Definition set_ibex s (w : world) : world :=
  mkWorld _ (w_config w) (w_migrations w) (w_accounts w) (w_wallets w) s (w_paid w) (w_ops w)
    (w_reads w) (w_uuids w) (w_funder w) (w_treasury w).
Definition log_payment p (w : world) : world :=
  mkWorld _ (w_config w) (w_migrations w) (w_accounts w) (w_wallets w) (w_ibex w)
    (w_paid w ++ [p]) (w_ops w) (w_reads w) (w_uuids w) (w_funder w) (w_treasury w).
Definition next_op (w : world) : world :=
  mkWorld _ (w_config w) (w_migrations w) (w_accounts w) (w_wallets w) (w_ibex w) (w_paid w)
    (S (w_ops w)) (w_reads w) (w_uuids w) (w_funder w) (w_treasury w).
Definition next_read (w : world) : world :=
  mkWorld _ (w_config w) (w_migrations w) (w_accounts w) (w_wallets w) (w_ibex w) (w_paid w)
    (w_ops w) (S (w_reads w)) (w_uuids w) (w_funder w) (w_treasury w).
Definition next_uuid (w : world) : world :=
  mkWorld _ (w_config w) (w_migrations w) (w_accounts w) (w_wallets w) (w_ibex w) (w_paid w)
    (w_ops w) (w_reads w) (S (w_uuids w)) (w_funder w) (w_treasury w).
Definition set_funder f (w : world) : world :=
  mkWorld _ (w_config w) (w_migrations w) (w_accounts w) (w_wallets w) (w_ibex w) (w_paid w)
    (w_ops w) (w_reads w) (w_uuids w) f (w_treasury w).
Definition set_treasury t (w : world) : world :=
  mkWorld _ (w_config w) (w_migrations w) (w_accounts w) (w_wallets w) (w_ibex w) (w_paid w)
    (w_ops w) (w_reads w) (w_uuids w) (w_funder w) t.

(** [App A]: a call of the application on this world. *)
Definition App (A : Type) : Type := M world error A.

(** [new Date()] *)
Definition new_Date : App Z := fun w => (Ok (clock (w_reads w)), next_read w).

(** [randomUUID()] *)
Definition randomUUID : App string := fun w => (Ok (uuid (w_uuids w)), next_uuid w).

(** ** MongoDB calls *)

(** One call on the database: an atomic operation on the collections, which
    may fail (a unique index), at the mercy of the connection. *)
Definition mongo {A} (op : world -> outcome error A * world) : App A :=
  fun w =>
    let w1 := next_op w in
    match mongo_fault (w_ops w) with
    | None => op w1
    | Some (FaultBefore msg) => (Throw (new_error JsError msg), w1)
    | Some (FaultAfter msg) => (Throw (new_error JsError msg), (op w1).2)
    end.

Definition read {A} (f : world -> A) (w : world) : outcome error A * world := (Ok (f w), w).

(** [parseRepositoryError]: the message decides the class. *)
Definition parseRepositoryError (err : error) : error :=
  let errMsg := err_message err in
  if str_includes "MongoNetworkTimeoutError: connection timed out" errMsg
     || str_includes "MongooseServerSelectionError: connection timed out" errMsg
     || str_includes "MongooseServerSelectionError: getaddrinfo ENOTFOUND" errMsg
     || str_includes "MongooseServerSelectionError: connect ECONNREFUSED" errMsg
  then new_error0 CannotConnectToDbError
  else if re_gaps "connection " " to " " closed" errMsg then new_error0 DbConnectionClosedError
  else if str_includes "Argument passed in must be a string of 12 bytes or a string of 24 hex characters or an integer" errMsg
  then new_error0 InvalidDocumentIdForDbError
  else if str_includes "E11000 duplicate key error collection" errMsg
  then new_error0 DuplicateKeyForPersistError
  else new_error UnknownRepositoryError errMsg.

(** [try { ... } catch (err) { return parseRepositoryError(err) }] *)
Definition guarded {A} (c : App A) : App A :=
  catch c (fun e => fail (parseRepositoryError e)).

(** [toObjectId(id)], which throws on a malformed id. *)
Definition toObjectId (id : string) : App string :=
  if valid_object_id id then ret id
  else throw (new_error JsError
    "Argument passed in must be a string of 12 bytes or a string of 24 hex characters or an integer").

End World.
