(* ===== verification/Ibex.v ===== *)
(** * The IBEX client wrapper and invoice decoding

    Model of the calls of [src/src/services/ibex/client.ts] the cutover makes,
    of the error classification of [services/ibex/errors.ts], and of
    [decodeInvoice] and the expiration cap of [domain/bitcoin/lightning]. The
    client library and the BOLT11 parser are parameters ([World.External]).
    Tracing attributes, webhook addresses and secrets have no effect on the
    results and are left out. *)

From stdpp Require Import base gmap list strings.
From Stdlib Require Import ZArith Lia Ascii.
From S2P Require Import Prelude JsStrings JsNumbers Errors BigintMoney MoneyAmounts World.

Open Scope Z_scope.

(** ** Error classification *)

Definition nonempty_opt (o : option string) : option string :=
  match o with Some s => if nonempty s then Some s else None | None => None end.

Definition ibexErrorDetail (ibexMessage : option string) (data : option sdk_data) : option string :=
  match nonempty_opt ibexMessage with
  | Some s => Some s
  | None =>
      match data with
      | Some (DataText s) => nonempty_opt (Some s)
      | Some (DataRecord err msg) =>
          match nonempty_opt err with Some s => Some s | None => nonempty_opt msg end
      | None => None
      end
  end.

Definition classifyIbexErrorText (text : string) : option error_class :=
  let haystack := str_lower text in
  if str_includes "insufficient balance" haystack then Some InsufficientIbexBalance
  else if str_includes "payment already prepared" haystack then Some CompletedInvoice
  else None.

Definition skip_spaces (s : string) : string := strip_start js_space s.

(** [/[.,]?\s*account:\s*\S+\s*$/i] anchored at the start of [s]. *)
Definition account_suffix_at (s : string) : bool :=
  let s1 := match s with
            | String "." r => r
            | String "," r => r
            | _ => s
            end in
  match after_prefix "account:" (str_lower (skip_spaces s1)) with
  | Some r =>
      let id := skip_spaces r in
      nonempty id &&
      negb (nonempty (skip_spaces (strip_start (fun c => negb (js_space c)) id)))
  | None => false
  end.

(** Remove the first match of the pattern, which runs to the end. *)
Fixpoint strip_account_suffix (s : string) : string :=
  if account_suffix_at s then EmptyString
  else match s with
       | EmptyString => EmptyString
       | String c s' => String c (strip_account_suffix s')
       end.

Definition newline : ascii := ascii_of_nat 10.

(** The three classes of the library's errors all derive from its
    [IbexClientError]; only an [ApiError] carries a status code. *)
Definition errorHandler (e : sdk_error) : error :=
  match e with
  | AuthenticationError msg => mkError IbexError msg None None
  | IbexClientError msg => mkError IbexError msg None None
  | ApiError msg code ibexMessage data =>
      let detail := ibexErrorDetail ibexMessage data in
      match classifyIbexErrorText (default msg detail) with
      | Some InsufficientIbexBalance =>
          mkError InsufficientIbexBalance
            (match detail with
             | Some d => strip_account_suffix d
             | None => "insufficient balance"
             end) (Some code) None
      | Some c => mkError c msg (Some code) None
      | None =>
          match detail with
          | Some d =>
              mkError IbexError
                (if str_includes d msg then msg else d +:+ String newline msg) (Some code) None
          | None => mkError IbexError msg (Some code) None
          end
      end
  end.

(** ** Client calls *)

(** An amount conversion that throws inside an async function rejects it. *)
Definition thrown {A} (o : outcome money_error A) : outcome error A :=
  match o with
  | Ok a => Ok a
  | Err e | Throw e => Throw (new_error JsError (money_error_message e))
  end.

Section Ibex.
Context `{X : External}.

(** [Ibex.call(...).then(errorHandler)] *)
Definition sdk {A} (f : ibex_state -> sdk_result A * ibex_state) : App A :=
  fun w =>
    let '(r, s) := f (w_ibex w) in
    (match r with
     | Resp a => Ok a
     | RespError e => Err (errorHandler e)
     | Reject e => Throw e
     end, set_ibex s w).

(** The balance of an account, absent when IBEX does not report one. *)
Definition getRawAccountDetails (accountId : string) : App (option js_num) :=
  sdk (sdk_getAccountDetails accountId).

Definition IBEX_RECEIVE_MAX_EXPIRATION_SECONDS : Z := 60.

Definition cappedIbexReceiveExpiration (expiration : option Z) : option Z :=
  match expiration with
  | None => None
  | Some e => Some (if IBEX_RECEIVE_MAX_EXPIRATION_SECONDS <? e
                    then IBEX_RECEIVE_MAX_EXPIRATION_SECONDS else e)
  end.

(** [amount?.toIbex()] *)
Definition toIbex_opt (amount : option MoneyAmount) : App (option string) :=
  match amount with
  | None => ret None
  | Some a => let! s := lift (thrown (toIbex a)) in ret (Some s)
  end.

(** The BOLT11 text of a new invoice. *)
Definition addInvoice (accountId : string) (amount : option MoneyAmount) (memo : string)
    (expiration : option Z) : App (option string) :=
  let! amt := toIbex_opt amount in
  sdk (sdk_addInvoice (mkInvoiceBody accountId amt memo (cappedIbexReceiveExpiration expiration))).

Definition payInvoice (accountId invoice : string) (send : option MoneyAmount) :
    App pay_response :=
  let! amt := toIbex_opt send in
  sdk (sdk_payInvoiceV2 accountId invoice amt).

Definition createAccount (name : string) (currencyId : Z) : App (option string) :=
  if mockIbexEnabled then
    ret (Some ("quickstart-" +:+ name +:+ "-" +:+ bigint_toString currencyId))
  else sdk (sdk_createAccount name currencyId).

Definition mockLnurl : string :=
  "lnurl1dp68gurn8ghj7um9dej8xct5w3skccne9e3k7mf0d3h82unvwqhkxun0wa5kgct5v93kzmmfd3skjmn0wvhxcmmv9u".

Definition createLnurlPay (accountId : string) (currencyId : Z) : App (option string) :=
  if mockIbexEnabled then ret (Some mockLnurl)
  else sdk (sdk_createLnurlPay accountId currencyId).

(** ** Invoices *)

(** [LnInvoice] without its route hints and features. *)
Record LnInvoice := mkInvoice {
  inv_amount : option Z;
  inv_paymentSecret : string;
  inv_expiresAt : Z;
  inv_isExpired : bool;
  inv_cltvDelta : option Z;
  inv_paymentRequest : string;
  inv_description : string;
  inv_paymentHash : string;
  inv_destination : string;
  inv_milliSatsAmount : Z
}.

(** [x ? x : null] on numbers. *)
Definition truthy (o : option Z) : option Z :=
  match o with Some n => if n =? 0 then None else Some n | None => None end.

Definition safeDecode (bolt11 : string) : outcome error decoded_request :=
  match parsePaymentRequest bolt11 with
  | Ok d => Ok d
  | Err err | Throw err =>
      if str_includes "Invalid checksum" (err_message err)
      then Err (new_error0 InvalidChecksumForLnInvoiceError)
      else Err (new_error UnknownLnInvoiceDecodeError (err_message err))
  end.

(** [safe_tokens] counts whole satoshis, so its conversion to a payment amount
    cannot fail and is left out with the route hints and the features. *)
Definition decodeInvoice (uncheckedBolt11EncodedInvoice : string) : outcome error LnInvoice :=
  let bolt11 := str_lower uncheckedBolt11EncodedInvoice in
  bindo (safeDecode bolt11) (fun d =>
  match nonempty_opt (d_payment d) with
  | None => Err (new_error0 LnInvoiceMissingPaymentSecretError)
  | Some secret =>
      let amount := truthy (d_safe_tokens d) in
      Ok {| inv_amount := amount;
            inv_paymentSecret := secret;
            inv_expiresAt := d_expires_at d;
            inv_isExpired := d_is_expired d;
            inv_cltvDelta := truthy (d_cltv_delta d);
            inv_paymentRequest := bolt11;
            inv_description := default "" (d_description d);
            inv_paymentHash := d_id d;
            inv_destination := d_destination d;
            inv_milliSatsAmount := match amount with Some a => a * 1000 | None => 0 end |}
  end).

End Ibex.

(** ** What the classification promises *)

(** Whatever the IBEX library reports, the application sees an error of the
    IBEX family with the status code of the response, and the text decides the
    class: an insufficient balance wins over a payment already prepared, and
    the body's own text is looked at before the message. *)
Theorem errorHandler_classifies (msg : string) (code : Z) (im : option string) (data : option sdk_data) :
  let e := errorHandler (ApiError msg code im data) in
  let text := str_lower (default msg (ibexErrorDetail im data)) in
  err_httpCode e = Some code /\
  (err_class e = InsufficientIbexBalance <-> str_includes "insufficient balance" text = true) /\
  (err_class e = CompletedInvoice <->
     str_includes "insufficient balance" text = false /\
     str_includes "payment already prepared" text = true) /\
  (err_class e = IbexError <->
     str_includes "insufficient balance" text = false /\
     str_includes "payment already prepared" text = false).
Proof.
  cbn zeta. unfold errorHandler, classifyIbexErrorText.
  destruct (str_includes "insufficient balance" _);
    [|destruct (str_includes "payment already prepared" _);
      [|destruct (ibexErrorDetail im data); cbn [default from_option]]].
  all: cbn; split_and!; naive_solver.
Qed.

(** An end user never sees the account id IBEX appends to its message. *)
Example insufficient_balance_message :
  err_message (errorHandler
    (ApiError "Bad Request" 400 (Some "insufficient balance. Account: 7f3a-11  ") None)) =
  "insufficient balance".
Proof. vm_compute. reflexivity. Qed.
