(* ===== verification/Repos.v ===== *)
(** * Accounts and wallets

    Model of the parts of [src/src/services/mongoose/accounts.ts] and
    [wallets.ts] the cutover uses, of [app/accounts/update-default-walletid.ts]
    and [app/accounts/add-wallet.ts], and of the funder cache of
    [services/ledger/caching.ts]. *)

From stdpp Require Import base gmap list strings.
From Stdlib Require Import ZArith Lia.
From S2P Require Import Prelude JsStrings Errors MoneyAmounts CutoverStateMachine World Ibex.

Open Scope Z_scope.

Section Repos.
Context `{X : External}.

(** ** AccountsRepository *)

Definition accounts_findById (accountId : string) : App account :=
  guarded (
    let! id := toObjectId accountId in
    let! result := mongo (read (fun w => w_accounts w !! id)) in
    match result with
    | None => fail (new_error0 CouldNotFindAccountError)
    | Some a => ret a
    end).

(** [findOneAndUpdate] writes back the fields of the account given; the ones it
    does not have ([undefined]) stay as they are, among them always the role,
    which [translateToAccount] does not read. The Bridge fields are not among
    those written. *)
Definition accounts_update (a : account) : App account :=
  guarded (
    let! id := toObjectId (a_id a) in
    let! result := mongo (fun w =>
      match w_accounts w !! id with
      | None => (Ok None, w)
      | Some old =>
          let a' := mkAccount (a_id old) (a_uuid old) (a_status a) (a_defaultWalletId a)
                      (match a_username a with Some u => Some u | None => a_username old end)
                      (a_level a) (a_role old) (a_kratosUserId a) (a_bridgeCustomerId old)
                      (a_bridgeKycStatus old) (a_bridgeEthereumAddress old) (a_createdAt old) in
          (Ok (Some a'), set_accounts (<[id := a']> (w_accounts w)) w)
      end) in
    match result with
    | None => fail (new_error RepositoryError "Couldn't update account")
    | Some a' => ret a'
    end).

(** [listUnlockedAccounts] yields the active accounts; the query runs when the
    generator is consumed, outside its [try]. *)
Definition listUnlockedAccounts : App (list account) :=
  mongo (read (fun w =>
    filter (fun a => a_status a = StatusActive) ((map_to_list (w_accounts w)).*2))).

(** ** WalletsRepository *)

Definition wallets_findById (walletId : string) : App wallet :=
  guarded (
    let! result := mongo (read (fun w => list_find (fun wl => wl_id wl = walletId) (w_wallets w))) in
    match result with
    | None => fail (new_error0 CouldNotFindWalletFromIdError)
    | Some (_, wl) => ret wl
    end).

Definition listByAccountId (accountId : string) : App (list wallet) :=
  guarded (
    let! id := toObjectId accountId in
    mongo (read (fun w => filter (fun wl => wl_accountId wl = id) (w_wallets w)))).

Definition getIbexCurrencyId (currency : WalletCurrency) : outcome error Z :=
  match currency with
  | Usd => Ok 3
  | Usdt => Ok 29
  | _ => Err (new_error UnsupportedCurrencyError
                ("Unsupported IBEX wallet currency: " +:+ currency_name currency))
  end.

(** [wallet.save()]: the wallet id is a unique index. *)
Definition save_wallet (wl : wallet) : App unit :=
  mongo (fun w =>
    if bool_decide (Exists (fun wl' => wl_id wl' = wl_id wl) (w_wallets w))
    then (Throw (new_error JsError "E11000 duplicate key error collection"), w)
    else (Ok tt, set_wallets (w_wallets w ++ [wl]) w)).

(** A failed LNURL request is only recorded; without an id of IBEX the schema
    draws a random one. *)
Definition wallets_persistNew (accountId : string) (type : WalletType) (currency : WalletCurrency) :
    App wallet :=
  accounts_findById accountId ;;
  guarded (
    let! currencyId := lift (getIbexCurrencyId currency) in
    let! ibexAccountId := createAccount accountId currencyId in
    let! lnurlp :=
      match ibexAccountId with
      | None => ret None
      | Some id =>
          let! r := attempt (createLnurlPay id currencyId) in
          ret (match r with inr l => l | inl _ => None end)
      end in
    let! id := match ibexAccountId with Some id => ret id | None => randomUUID end in
    let! acc := toObjectId accountId in
    let wl := mkWallet id acc type currency lnurlp in
    save_wallet wl ;;
    ret wl).

(** ** app/accounts *)

Definition updateDefaultWalletId (accountId walletId : string) : App account :=
  let! acc := accounts_findById accountId in
  let! wallets := listByAccountId (a_id acc) in
  if negb (existsb (fun wl => bool_decide (wl_id wl = walletId)) wallets)
  then fail (new_error0 InvalidWalletId)
  else accounts_update (mkAccount (a_id acc) (a_uuid acc) (a_status acc) walletId
         (a_username acc) (a_level acc) (a_role acc) (a_kratosUserId acc) (a_bridgeCustomerId acc)
         (a_bridgeKycStatus acc) (a_bridgeEthereumAddress acc) (a_createdAt acc)).

Definition addWallet (accountId : string) (type : WalletType) (currency : WalletCurrency) :
    App wallet :=
  wallets_persistNew accountId type currency.

Definition addWalletIfNonexistent (accountId : string) (type : WalletType)
    (currency : WalletCurrency) : App wallet :=
  let! wallets := listByAccountId accountId in
  match list_find (fun wl => wl_currency wl = currency /\ wl_type wl = type) wallets with
  | Some (_, wl) => ret wl
  | None => wallets_persistNew accountId type currency
  end.

(** ** services/ledger/caching.ts *)

Definition getFunderWalletId : App string :=
  let! cached := gets w_funder in
  match nonempty_opt cached with
  | Some id => ret id
  | None =>
      let! funderId := lift (match funder_resolver with Err e => Throw e | o => o end) in
      modify (set_funder (Some funderId)) ;;
      ret funderId
  end.

End Repos.

(** ** What these calls leave alone *)

(** Neither the migrations nor the configuration nor the payments made. *)
Definition quiet `{X : External} (w w' : world) : Prop :=
  w_migrations w' = w_migrations w /\ w_config w' = w_config w /\ w_paid w' = w_paid w.

#[export] Instance quiet_preorder `{X : External} : PreOrder quiet.
Proof.
  split; [done|]. intros w1 w2 w3 (? & ? & ?) (? & ? & ?). split_and!; congruence.
Qed.

Section Quiet.
Context `{X : External}.

Lemma quiet_run {A} (c : App A) w o w' :
  guarantees quiet c -> c w = (o, w') -> quiet w w'.
Proof. intros H E. specialize (H w). by rewrite E in H. Qed.

Lemma quiet_mongo {A} (op : world -> outcome error A * world) :
  (forall w, quiet w (op w).2) -> guarantees quiet (mongo op).
Proof.
  intros H w. unfold mongo. pose proof (H (next_op w)) as H'.
  destruct (mongo_fault (w_ops w)) as [[]|]; done.
Qed.

Lemma quiet_read {A} (f : world -> A) : guarantees quiet (mongo (read f)).
Proof. by apply quiet_mongo. Qed.

Lemma quiet_guarded {A} (c : App A) : guarantees quiet c -> guarantees quiet (guarded c).
Proof. intros. unfold guarded. eauto with flash typeclass_instances. Qed.

Lemma quiet_toObjectId id : guarantees quiet (toObjectId id).
Proof. unfold toObjectId. eauto with flash typeclass_instances. Qed.

Lemma quiet_sdk {A} (f : ibex_state -> sdk_result A * ibex_state) : guarantees quiet (sdk f).
Proof. intros w. unfold sdk. by destruct (f (w_ibex w)) as [[] s]. Qed.

Lemma quiet_new_Date : guarantees quiet new_Date.
Proof. by intros w. Qed.
Lemma quiet_randomUUID : guarantees quiet randomUUID.
Proof. by intros w. Qed.

Lemma quiet_modify f : (forall w, quiet w (f w)) -> guarantees quiet (modify (E:=error) f).
Proof. intros H w. apply H. Qed.
End Quiet.

#[export] Hint Resolve quiet_preorder quiet_read quiet_guarded quiet_toObjectId quiet_sdk
  quiet_new_Date quiet_randomUUID : flash.

(** Prove that a handler composed of quiet calls is quiet. *)
Ltac quiet_tac :=
  repeat first
    [ match goal with |- forall _, _ => intros ? end
    | match goal with H : _ |- _ => solve [apply H] end
    | apply quiet_guarded | apply quiet_toObjectId | apply quiet_read | apply quiet_sdk
    | apply quiet_new_Date | apply quiet_randomUUID
    | (apply guarantees_ret; exact _) | (apply guarantees_fail; exact _)
    | (apply guarantees_throw; exact _) | (apply guarantees_lift; exact _)
    | (apply guarantees_gets; exact _)
    | (apply guarantees_bind; [exact _| |])
    | (apply guarantees_attempt)
    | (apply guarantees_catch; [exact _| |])
    | (progress case_match)
    | solve [eauto with flash typeclass_instances] ].

Section QuietCalls.
Context `{X : External}.

Lemma quiet_toIbex_opt a : guarantees quiet (toIbex_opt a).
Proof. unfold toIbex_opt. quiet_tac. Qed.
Lemma quiet_getRawAccountDetails a : guarantees quiet (getRawAccountDetails a).
Proof. apply quiet_sdk. Qed.
Lemma quiet_addInvoice a b c d : guarantees quiet (addInvoice a b c d).
Proof. unfold addInvoice. pose proof quiet_toIbex_opt. quiet_tac. Qed.
Lemma quiet_payInvoice a b c : guarantees quiet (payInvoice a b c).
Proof. unfold payInvoice. pose proof quiet_toIbex_opt. quiet_tac. Qed.
Lemma quiet_createAccount a b : guarantees quiet (createAccount a b).
Proof. unfold createAccount. quiet_tac. Qed.
Lemma quiet_createLnurlPay a b : guarantees quiet (createLnurlPay a b).
Proof. unfold createLnurlPay. quiet_tac. Qed.

Lemma quiet_accounts_findById a : guarantees quiet (accounts_findById a).
Proof. unfold accounts_findById. quiet_tac. Qed.

Lemma quiet_accounts_update a : guarantees quiet (accounts_update a).
Proof.
  unfold accounts_update. quiet_tac; apply quiet_mongo; intros w; by case_match.
Qed.

Lemma quiet_wallets_findById a : guarantees quiet (wallets_findById a).
Proof. unfold wallets_findById. quiet_tac. Qed.
Lemma quiet_listByAccountId a : guarantees quiet (listByAccountId a).
Proof. unfold listByAccountId. quiet_tac. Qed.

Lemma quiet_save_wallet wl : guarantees quiet (save_wallet wl).
Proof. apply quiet_mongo. intros w. by case_match. Qed.

Lemma quiet_wallets_persistNew a b c : guarantees quiet (wallets_persistNew a b c).
Proof.
  pose proof quiet_accounts_findById. pose proof quiet_createAccount.
  pose proof quiet_createLnurlPay. pose proof quiet_save_wallet.
  unfold wallets_persistNew. quiet_tac.
Qed.

Lemma quiet_updateDefaultWalletId a b : guarantees quiet (updateDefaultWalletId a b).
Proof.
  pose proof quiet_accounts_findById. pose proof quiet_listByAccountId.
  pose proof quiet_accounts_update. unfold updateDefaultWalletId. quiet_tac.
Qed.

Lemma quiet_addWalletIfNonexistent a b c : guarantees quiet (addWalletIfNonexistent a b c).
Proof.
  pose proof quiet_listByAccountId. pose proof quiet_wallets_persistNew.
  unfold addWalletIfNonexistent. quiet_tac.
Qed.

Lemma quiet_getFunderWalletId : guarantees quiet getFunderWalletId.
Proof. unfold getFunderWalletId. quiet_tac. Qed.
End QuietCalls.

#[export] Hint Resolve quiet_getRawAccountDetails quiet_addInvoice quiet_payInvoice
  quiet_createAccount quiet_createLnurlPay quiet_accounts_findById quiet_accounts_update
  quiet_wallets_findById quiet_listByAccountId quiet_wallets_persistNew
  quiet_updateDefaultWalletId quiet_addWalletIfNonexistent quiet_getFunderWalletId : flash.
