(* ===== verification/CutoverRepo.v ===== *)
(** * Cash wallet cutover: the repository

    Model of [src/src/services/mongoose/cash-wallet-cutover.ts]: the cutover
    configuration and the collection of migrations. Every update is one atomic
    MongoDB call guarded by a filter; the unique indexes of the schema make an
    insertion fail. The second half proves what each call does to the
    collection, for any behaviour of the database connection. *)

From stdpp Require Import base gmap list strings sorting.
From Stdlib Require Import ZArith Lia.
From S2P Require Import Prelude JsStrings Errors CutoverStateMachine CutoverAmounts World Repos.

Open Scope Z_scope.

(** ** Updates of a document *)

Definition with_status (s : MigrationStatus) (m : migration) : migration :=
  mkMigration (m_id m) (m_accountId m) (m_accountUuid m) (m_legacyUsdWalletId m)
    (m_destinationUsdtWalletId m) (m_cutoverVersion m) (m_runId m) s (m_idempotencyKey m)
    (m_attempts m) (m_lockedAt m) (m_lockedBy m) (m_updatedAt m) (m_rollbackFromStatus m)
    (m_str m) (m_date m).
Definition with_attempts (n : Z) (m : migration) : migration :=
  mkMigration (m_id m) (m_accountId m) (m_accountUuid m) (m_legacyUsdWalletId m)
    (m_destinationUsdtWalletId m) (m_cutoverVersion m) (m_runId m) (m_status m)
    (m_idempotencyKey m) n (m_lockedAt m) (m_lockedBy m) (m_updatedAt m)
    (m_rollbackFromStatus m) (m_str m) (m_date m).
Definition with_lock (at_ : option Z) (by_ : option string) (m : migration) : migration :=
  mkMigration (m_id m) (m_accountId m) (m_accountUuid m) (m_legacyUsdWalletId m)
    (m_destinationUsdtWalletId m) (m_cutoverVersion m) (m_runId m) (m_status m)
    (m_idempotencyKey m) (m_attempts m) at_ by_ (m_updatedAt m) (m_rollbackFromStatus m)
    (m_str m) (m_date m).
Definition with_updatedAt (t : Z) (m : migration) : migration :=
  mkMigration (m_id m) (m_accountId m) (m_accountUuid m) (m_legacyUsdWalletId m)
    (m_destinationUsdtWalletId m) (m_cutoverVersion m) (m_runId m) (m_status m)
    (m_idempotencyKey m) (m_attempts m) (m_lockedAt m) (m_lockedBy m) t
    (m_rollbackFromStatus m) (m_str m) (m_date m).
Definition with_rollbackFrom (s : MigrationStatus) (m : migration) : migration :=
  mkMigration (m_id m) (m_accountId m) (m_accountUuid m) (m_legacyUsdWalletId m)
    (m_destinationUsdtWalletId m) (m_cutoverVersion m) (m_runId m) (m_status m)
    (m_idempotencyKey m) (m_attempts m) (m_lockedAt m) (m_lockedBy m) (m_updatedAt m)
    (Some s) (m_str m) (m_date m).
Definition with_str (g : gmap str_field string) (m : migration) : migration :=
  mkMigration (m_id m) (m_accountId m) (m_accountUuid m) (m_legacyUsdWalletId m)
    (m_destinationUsdtWalletId m) (m_cutoverVersion m) (m_runId m) (m_status m)
    (m_idempotencyKey m) (m_attempts m) (m_lockedAt m) (m_lockedBy m) (m_updatedAt m)
    (m_rollbackFromStatus m) g (m_date m).
Definition with_date (g : gmap date_field Z) (m : migration) : migration :=
  mkMigration (m_id m) (m_accountId m) (m_accountUuid m) (m_legacyUsdWalletId m)
    (m_destinationUsdtWalletId m) (m_cutoverVersion m) (m_runId m) (m_status m)
    (m_idempotencyKey m) (m_attempts m) (m_lockedAt m) (m_lockedBy m) (m_updatedAt m)
    (m_rollbackFromStatus m) (m_str m) g.

(** One entry of a [$set]. *)
Inductive patch_entry :=
| PStr (f : str_field) (v : string)
| PDate (f : date_field) (v : Z)
| PRollbackFrom (s : MigrationStatus)
| PAttempts (n : Z).

Definition apply_entry (m : migration) (p : patch_entry) : migration :=
  match p with
  | PStr f v => with_str (<[f := v]> (m_str m)) m
  | PDate f v => with_date (<[f := v]> (m_date m)) m
  | PRollbackFrom s => with_rollbackFrom s m
  | PAttempts n => with_attempts n m
  end.

Definition apply_patch (ps : list patch_entry) (m : migration) : migration :=
  foldl apply_entry m ps.

(** [$unset] of the fields listed. *)
Definition clear_fields (fs : list str_field) (m : migration) : migration :=
  with_str (foldr delete (m_str m) fs) m.

(** Which fields of the configuration a patch sets; an undefined value unsets. *)
Inductive config_entry :=
| CState (s : CutoverState)
| CVersion (v : Z)
| CRunId (r : string)
| CScheduledAt (t : option Z)
| CStartedAt (t : option Z)
| CCompletedAt (t : option Z)
| CPausedAt (t : option Z)
| CPauseReason (r : option string).

Definition apply_config (c : config) (e : config_entry) : config :=
  match e with
  | CState s => mkConfig s (c_scheduledAt c) (c_startedAt c) (c_completedAt c) (c_pausedAt c)
      (c_pauseReason c) (c_updatedBy c) (c_cutoverVersion c) (c_runId c) (c_updatedAt c)
  | CVersion v => mkConfig (c_state c) (c_scheduledAt c) (c_startedAt c) (c_completedAt c)
      (c_pausedAt c) (c_pauseReason c) (c_updatedBy c) v (c_runId c) (c_updatedAt c)
  | CRunId r => mkConfig (c_state c) (c_scheduledAt c) (c_startedAt c) (c_completedAt c)
      (c_pausedAt c) (c_pauseReason c) (c_updatedBy c) (c_cutoverVersion c) (Some r) (c_updatedAt c)
  | CScheduledAt t => mkConfig (c_state c) t (c_startedAt c) (c_completedAt c) (c_pausedAt c)
      (c_pauseReason c) (c_updatedBy c) (c_cutoverVersion c) (c_runId c) (c_updatedAt c)
  | CStartedAt t => mkConfig (c_state c) (c_scheduledAt c) t (c_completedAt c) (c_pausedAt c)
      (c_pauseReason c) (c_updatedBy c) (c_cutoverVersion c) (c_runId c) (c_updatedAt c)
  | CCompletedAt t => mkConfig (c_state c) (c_scheduledAt c) (c_startedAt c) t (c_pausedAt c)
      (c_pauseReason c) (c_updatedBy c) (c_cutoverVersion c) (c_runId c) (c_updatedAt c)
  | CPausedAt t => mkConfig (c_state c) (c_scheduledAt c) (c_startedAt c) (c_completedAt c) t
      (c_pauseReason c) (c_updatedBy c) (c_cutoverVersion c) (c_runId c) (c_updatedAt c)
  | CPauseReason r => mkConfig (c_state c) (c_scheduledAt c) (c_startedAt c) (c_completedAt c)
      (c_pausedAt c) r (c_updatedBy c) (c_cutoverVersion c) (c_runId c) (c_updatedAt c)
  end.

Definition stamp_config (actor : string) (now : Z) (c : config) : config :=
  mkConfig (c_state c) (c_scheduledAt c) (c_startedAt c) (c_completedAt c) (c_pausedAt c)
    (c_pauseReason c) (Some actor) (c_cutoverVersion c) (c_runId c) now.

Definition defaultConfig : config :=
  mkConfig state_pre None None None None None None 1 None 0.

Record upsert_args := mkUpsert {
  u_accountId : string;
  u_accountUuid : option string;
  u_legacyUsdWalletId : string;
  u_destinationUsdtWalletId : string;
  u_previousDefaultWalletId : option string;
  u_cutoverVersion : Z;
  u_runId : string;
  u_idempotencyKey : string
}.

Section CutoverRepo.
Context `{X : External}.

(** ** Configuration *)

Definition getConfig : App config :=
  guarded (
    let! result := mongo (read w_config) in
    ret (default defaultConfig result)).

(** The upsert starts from the schema's defaults; every patch of the
    application sets the state and the version. *)
Definition updateConfig (patch : list config_entry) (actor : string) : App config :=
  guarded (
    let! now := new_Date in
    mongo (fun w =>
      let c := foldl apply_config (stamp_config actor now (default defaultConfig (w_config w))) patch in
      (Ok c, set_config (Some c) w))).

(** ** Migrations *)

Definition matches_key (accountId runId : string) (m : migration) : bool :=
  bool_decide (m_accountId m = accountId) && bool_decide (m_runId m = runId).

Definition in_run (cutoverVersion : Z) (runId : string) (m : migration) : bool :=
  bool_decide (m_cutoverVersion m = cutoverVersion) && bool_decide (m_runId m = runId).

(** The documents, in the order of the collection. *)
Definition docs (w : world) : list migration := (map_to_list (w_migrations w)).*2.

Definition find_doc (p : migration -> bool) (w : world) : option migration :=
  snd <$> list_find (fun m => p m = true) (docs w).

Definition new_migration (id : string) (now : Z) (args : upsert_args) : migration :=
  mkMigration id (u_accountId args) (u_accountUuid args) (u_legacyUsdWalletId args)
    (u_destinationUsdtWalletId args) (u_cutoverVersion args) (u_runId args) not_started
    (u_idempotencyKey args) 0 None None now None
    (match u_previousDefaultWalletId args with
     | Some p => {[previousDefaultWalletId := p]}
     | None => ∅
     end) ∅.

(** [findOneAndUpdate({ accountId, runId }, { $setOnInsert }, { upsert })]; the
    id and the idempotency key are unique. *)
Definition upsert_op (id : string) (now : Z) (args : upsert_args) (w : world) :
    outcome error migration * world :=
  match find_doc (matches_key (u_accountId args) (u_runId args)) w with
  | Some m => (Ok m, w)
  | None =>
      if bool_decide (is_Some (w_migrations w !! id)) ||
         match find_doc (fun m => bool_decide (m_idempotencyKey m = u_idempotencyKey args)) w with
         | Some _ => true | None => false end
      then (Throw (new_error JsError "E11000 duplicate key error collection"), w)
      else
        let m := new_migration id now args in
        (Ok m, set_migrations (<[id := m]> (w_migrations w)) w)
  end.

Definition upsertMigration (args : upsert_args) : App migration :=
  guarded (
    let! now := new_Date in
    let! id := randomUUID in
    mongo (upsert_op id now args)).

Definition findMigrationByAccountId (accountId : string) (cutoverVersion : Z) (runId : string) :
    App (option migration) :=
  guarded (mongo (read (find_doc (fun m =>
    bool_decide (m_accountId m = accountId) && in_run cutoverVersion runId m)))).

(** [findOneAndUpdate({ _id: id, ... }, ..., { new: true })] *)
Definition find_and_update (id : string) (filter : migration -> bool) (upd : migration -> migration)
    (w : world) : outcome error (option migration) * world :=
  match w_migrations w !! id with
  | Some m =>
      if filter m
      then (Ok (Some (upd m)), set_migrations (<[id := upd m]> (w_migrations w)) w)
      else (Ok None, w)
  | None => (Ok None, w)
  end.

(** The common end of the guarded updates. *)
Definition updated_or (msg : string) (result : option migration) : App migration :=
  match result with
  | None => fail (new_error CouldNotUpdateError msg)
  | Some m => ret m
  end.

Definition transition_upd (to : MigrationStatus) (patch : list patch_entry)
    (clear : list str_field) (now : Z) (m : migration) : migration :=
  clear_fields clear (with_updatedAt now (with_status to (apply_patch patch m))).

Definition transitionMigration (id : string) (from to : MigrationStatus) (cutoverVersion : Z)
    (runId : string) (patch : list patch_entry) (clear : list str_field) : App migration :=
  guarded (
    let! now := new_Date in
    let! result := mongo (find_and_update id
      (fun m => bool_decide (m_status m = from) && in_run cutoverVersion runId m)
      (transition_upd to patch clear now)) in
    updated_or "Could not transition cash wallet migration" result).

Definition lock_free (staleBefore : Z) (m : migration) : bool :=
  match m_lockedAt m with None => true | Some t => t <? staleBefore end.

Definition acquireMigrationLock (id workerId : string) (staleBefore cutoverVersion : Z)
    (runId : string) : App migration :=
  guarded (
    let! lockedAt := new_Date in
    let! now := new_Date in
    let! result := mongo (find_and_update id
      (fun m => in_run cutoverVersion runId m && lock_free staleBefore m)
      (fun m => with_updatedAt now (with_lock (Some lockedAt) (Some workerId) m))) in
    updated_or "Could not acquire cash wallet migration lock" result).

Definition held_by (workerId : string) (cutoverVersion : Z) (runId : string) (m : migration) : bool :=
  bool_decide (m_lockedBy m = Some workerId) && in_run cutoverVersion runId m.

Definition releaseMigrationLock (id workerId : string) (cutoverVersion : Z) (runId : string) :
    App migration :=
  guarded (
    let! now := new_Date in
    let! result := mongo (find_and_update id (held_by workerId cutoverVersion runId)
      (fun m => with_updatedAt now (with_lock None None m))) in
    updated_or "Could not release cash wallet migration lock" result).

Definition failed_upd (status : MigrationStatus) (msg : string) (now : Z) (m : migration) : migration :=
  with_attempts (m_attempts m + 1) (with_updatedAt now (with_lock None None
    (with_str (<[lastError := msg]> (m_str m)) (with_status status m)))).

Definition markMigrationFailed (id workerId : string) (cutoverVersion : Z) (runId : string)
    (err : error) (status : MigrationStatus) : App migration :=
  guarded (
    let! now := new_Date in
    let! result := mongo (find_and_update id (held_by workerId cutoverVersion runId)
      (failed_upd status (err_message err) now)) in
    updated_or "Could not mark cash wallet migration failed" result).

(** [limit(0)] is no limit. *)
Definition limited (limit : option nat) (l : list migration) : list migration :=
  match limit with Some (S n) => take (S n) l | _ => l end.

Definition listRunnableMigrations (cutoverVersion : Z) (runId : string) (limit : option nat) :
    App (list migration) :=
  guarded (mongo (read (fun w => limited limit (sort_updatedAt
    (List.filter (fun m => in_run cutoverVersion runId m && negb (includes terminalStatuses (m_status m)))
       (docs w)))))).

Definition listMigrationsByStatuses (cutoverVersion : Z) (runId : string)
    (statuses : list MigrationStatus) (limit : option nat) : App (list migration) :=
  guarded (mongo (read (fun w => limited limit (sort_updatedAt
    (List.filter (fun m => in_run cutoverVersion runId m && includes statuses (m_status m))
       (docs w)))))).

(** The promise is returned, not awaited, inside the [try]: a rejection is not
    caught there. *)
Definition countByStatus (cutoverVersion : Z) (runId : string) (status : MigrationStatus) : App Z :=
  mongo (read (fun w => Z.of_nat (length
    (List.filter (fun m => in_run cutoverVersion runId m && bool_decide (m_status m = status))
       (docs w))))).

End CutoverRepo.

(** ** Well-formed migrations *)

Definition has (f : str_field) (m : migration) : Prop := is_Some (m_str m !! f).
Definition dated (f : date_field) (m : migration) : Prop := is_Some (m_date m !! f).

(** The fields a status relies on. From [balance_read] on the source balance
    and its conversion are recorded, from [balance_move_sending] on the payment
    of the balance move, and so on; a finished rollback has restored the
    pointer and has paid back a balance that had been moved. *)
Record migration_wf (m : migration) : Prop := {
  wf_balance :
    m_status m ∈ [balance_read; invoice_created; balance_move_sending; balance_move_sent;
      balance_move_verified; fee_reimbursement_invoice_created; fee_reimbursement_sending;
      fee_reimbursed] ->
    exists s, m_str m !! sourceBalanceUsdCents = Some s /\ re_decimal s = true /\
      m_str m !! destinationAmountUsdtMicros = Some (bigint_toString (micros_of_cents s)) /\
      has destinationStartingBalanceUsdtMicros m;
  wf_invoice :
    m_status m ∈ [invoice_created; balance_move_sending; balance_move_sent;
      balance_move_verified; fee_reimbursement_invoice_created; fee_reimbursement_sending;
      fee_reimbursed] -> has balanceMoveInvoicePaymentRequest m;
  wf_moved :
    m_status m ∈ [balance_move_sending; balance_move_sent; balance_move_verified;
      fee_reimbursement_invoice_created; fee_reimbursement_sending; fee_reimbursed] ->
    has balanceMovePaymentTransactionId m;
  wf_fee :
    m_status m ∈ [fee_reimbursement_invoice_created; fee_reimbursement_sending; fee_reimbursed] ->
    has feeAmountUsdtMicros m /\ has feeAmountUsdCents m;
  wf_fee_invoice :
    m_status m ∈ [fee_reimbursement_invoice_created; fee_reimbursement_sending] ->
    has feeReimbursementInvoicePaymentRequest m;
  wf_fee_paid :
    m_status m = fee_reimbursement_sending -> has feeReimbursementPaymentTransactionId m;
  wf_flipped :
    m_status m ∈ [pointer_flipped; legacy_zero_verified; complete] ->
    has previousDefaultWalletId m;
  wf_requested :
    m_status m ∈ [rollback_started; rolled_back] ->
    has rollbackRequestedBy m /\ has rollbackReason m /\ dated rollbackRequestedAt m /\
    exists s, m_rollbackFromStatus m = Some s /\ s ∈ ROLLBACKABLE_STATUSES;
  wf_rolled_back :
    m_status m = rolled_back ->
    dated rollbackPointerRestoredAt m /\ dated rolledBackAt m /\
    (has balanceMovePaymentTransactionId m ->
       m_str m !! destinationAmountUsdtMicros = Some "0" \/ has rollbackPaymentTransactionId m)
}.

(** The same as an executable check. *)
Definition hasb (f : str_field) (m : migration) : bool := bool_decide (is_Some (m_str m !! f)).
Definition datedb (f : date_field) (m : migration) : bool := bool_decide (is_Some (m_date m !! f)).
Definition impliesb (a b : bool) : bool := if a then b else true.

Definition balanceb (m : migration) : bool :=
  match m_str m !! sourceBalanceUsdCents with
  | Some s =>
      re_decimal s &&
      bool_decide (m_str m !! destinationAmountUsdtMicros = Some (bigint_toString (micros_of_cents s))) &&
      hasb destinationStartingBalanceUsdtMicros m
  | None => false
  end.

Definition requestedb (m : migration) : bool :=
  hasb rollbackRequestedBy m && hasb rollbackReason m && datedb rollbackRequestedAt m &&
  match m_rollbackFromStatus m with Some s => includes ROLLBACKABLE_STATUSES s | None => false end.

Definition rolled_backb (m : migration) : bool :=
  datedb rollbackPointerRestoredAt m && datedb rolledBackAt m &&
  impliesb (hasb balanceMovePaymentTransactionId m)
    (bool_decide (m_str m !! destinationAmountUsdtMicros = Some "0") ||
     hasb rollbackPaymentTransactionId m).

Definition migration_wfb (m : migration) : bool :=
  let on l b := impliesb (includes l (m_status m)) b in
  on [balance_read; invoice_created; balance_move_sending; balance_move_sent;
      balance_move_verified; fee_reimbursement_invoice_created; fee_reimbursement_sending;
      fee_reimbursed] (balanceb m) &&
  on [invoice_created; balance_move_sending; balance_move_sent; balance_move_verified;
      fee_reimbursement_invoice_created; fee_reimbursement_sending; fee_reimbursed]
     (hasb balanceMoveInvoicePaymentRequest m) &&
  on [balance_move_sending; balance_move_sent; balance_move_verified;
      fee_reimbursement_invoice_created; fee_reimbursement_sending; fee_reimbursed]
     (hasb balanceMovePaymentTransactionId m) &&
  on [fee_reimbursement_invoice_created; fee_reimbursement_sending; fee_reimbursed]
     (hasb feeAmountUsdtMicros m && hasb feeAmountUsdCents m) &&
  on [fee_reimbursement_invoice_created; fee_reimbursement_sending]
     (hasb feeReimbursementInvoicePaymentRequest m) &&
  on [fee_reimbursement_sending] (hasb feeReimbursementPaymentTransactionId m) &&
  on [pointer_flipped; legacy_zero_verified; complete] (hasb previousDefaultWalletId m) &&
  on [rollback_started; rolled_back] (requestedb m) &&
  on [rolled_back] (rolled_backb m).

Lemma on_true l s b : impliesb (includes l s) b = true -> s ∈ l -> b = true.
Proof. unfold impliesb, includes. intros H Hs. by rewrite bool_decide_true in H. Qed.

Lemma migration_wfb_sound m : migration_wfb m = true -> migration_wf m.
Proof.
  unfold migration_wfb. rewrite !andb_true_iff. intros H. destruct_and! H.
  split; intros Hs; try apply (list_elem_of_singleton _ _) in Hs;
    match goal with Hb : impliesb _ _ = true |- _ => pose proof (on_true _ _ _ Hb Hs) as K end.
  - unfold balanceb in K. destruct (m_str m !! sourceBalanceUsdCents) as [s|]; [|done].
    rewrite !andb_true_iff in K. destruct K as [[? ?%bool_decide_eq_true] ?%bool_decide_eq_true].
    by exists s.
  - by apply bool_decide_eq_true in K.
  - by apply bool_decide_eq_true in K.
  - apply andb_true_iff in K as [?%bool_decide_eq_true ?%bool_decide_eq_true]. done.
  - by apply bool_decide_eq_true in K.
  - by apply bool_decide_eq_true in K.
  - by apply bool_decide_eq_true in K.
  - unfold requestedb in K. rewrite !andb_true_iff in K.
    destruct K as [[[?%bool_decide_eq_true ?%bool_decide_eq_true] ?%bool_decide_eq_true] Hf].
    destruct (m_rollbackFromStatus m) as [s|]; [|done]. apply bool_decide_eq_true in Hf.
    split_and!; eauto.
  - unfold rolled_backb in K. rewrite !andb_true_iff in K.
    destruct K as [[?%bool_decide_eq_true ?%bool_decide_eq_true] Hp]. split_and!; [done..|].
    intros Hb. unfold impliesb, hasb in Hp. rewrite bool_decide_true in Hp by done.
    by apply orb_true_iff in Hp as [?%bool_decide_eq_true|?%bool_decide_eq_true]; [left|right].
Qed.

(** What never changes after the insertion. *)
Definition identity (m : migration) :=
  (m_id m, m_accountId m, m_accountUuid m, m_legacyUsdWalletId m, m_destinationUsdtWalletId m,
   m_cutoverVersion m, m_runId m, m_idempotencyKey m).

(** The collection: keyed by id, the unique indexes hold, all well formed. *)
Record migrations_ok (ms : gmap string migration) : Prop := {
  ok_id : forall id m, ms !! id = Some m -> m_id m = id;
  ok_key : forall id id' m m', ms !! id = Some m -> ms !! id' = Some m' ->
    m_accountId m = m_accountId m' -> m_runId m = m_runId m' -> id = id';
  ok_idempotency : forall id id' m m', ms !! id = Some m -> ms !! id' = Some m' ->
    m_idempotencyKey m = m_idempotencyKey m' -> id = id';
  ok_wf : forall id m, ms !! id = Some m -> migration_wf m
}.

(** The invariant of the collection as an executable check. *)
Definition migrations_okb (ms : gmap string migration) : bool :=
  let l := map_to_list ms in
  forallb (fun x => bool_decide (m_id x.2 = x.1) && migration_wfb x.2 &&
    forallb (fun y => bool_decide (x.1 = y.1) ||
      negb (bool_decide (m_accountId x.2 = m_accountId y.2 /\ m_runId x.2 = m_runId y.2)) &&
      negb (bool_decide (m_idempotencyKey x.2 = m_idempotencyKey y.2))) l) l.

Lemma migrations_okb_sound ms : migrations_okb ms = true -> migrations_ok ms.
Proof.
  unfold migrations_okb. rewrite forallb_forall. intros H.
  assert (forall id m, ms !! id = Some m -> In (id, m) (map_to_list ms)) as Hin.
  { intros id m Hm. by apply list_elem_of_In, elem_of_map_to_list. }
  assert (forall id m, ms !! id = Some m -> m_id m = id /\ migration_wf m /\
    forall id' m', ms !! id' = Some m' -> id = id' \/
      ~ (m_accountId m = m_accountId m' /\ m_runId m = m_runId m') /\
      m_idempotencyKey m ≠ m_idempotencyKey m') as K.
  { intros id m Hm%Hin%H. cbn in Hm. rewrite !andb_true_iff, forallb_forall in Hm.
    destruct Hm as [[?%bool_decide_eq_true ?%migration_wfb_sound] Hu]. split_and!; [done..|].
    intros id' m' Hm'%Hin%Hu. cbn in Hm'. apply orb_true_iff in Hm' as [?%bool_decide_eq_true|Hm'];
      [by left|]. rewrite andb_true_iff, !negb_true_iff, !bool_decide_eq_false in Hm'. by right. }
  split.
  - intros id m Hm. by apply K.
  - intros id id' m m' Hm Hm' ? ?. by destruct (proj2 (proj2 (K id m Hm)) id' m' Hm') as [|[[]]].
  - intros id id' m m' Hm Hm' ?. by destruct (proj2 (proj2 (K id m Hm)) id' m' Hm') as [|[? []]].
  - intros id m Hm. by apply (K id m Hm).
Qed.

Lemma identity_apply_entry p m : identity (apply_entry m p) = identity m.
Proof. by destruct p. Qed.

Lemma identity_apply_patch ps m : identity (apply_patch ps m) = identity m.
Proof.
  revert m. induction ps as [|p ps IH]; intros m; [done|].
  cbn. unfold apply_patch in IH. by rewrite IH, identity_apply_entry.
Qed.

Lemma identity_transition to patch clear now m :
  identity (transition_upd to patch clear now m) = identity m.
Proof. transitivity (identity (apply_patch patch m)); [done|apply identity_apply_patch]. Qed.

(** Replacing a document by a well-formed one with the same identity. *)
Lemma migrations_ok_insert ms id m m' :
  migrations_ok ms -> ms !! id = Some m -> identity m' = identity m -> migration_wf m' ->
  migrations_ok (<[id := m']> ms).
Proof.
  intros H Hm Hi Hwf. unfold identity in Hi. simplify_eq/=.
  assert (forall k a, <[id := m']> ms !! k = Some a ->
    exists b, ms !! k = Some b /\ m_id a = m_id b /\ m_accountId a = m_accountId b /\
      m_runId a = m_runId b /\ m_idempotencyKey a = m_idempotencyKey b) as Hback.
  { intros k a [[-> ->]|[? ?]]%lookup_insert_Some; eauto 10. }
  split.
  - intros k a Ha. destruct (Hback k a Ha) as (b & Hb & -> & _). by eapply ok_id.
  - intros k k' a a' Ha Ha' E1 E2.
    destruct (Hback k a Ha) as (b & Hb & _ & ? & ? & _).
    destruct (Hback k' a' Ha') as (b' & Hb' & _ & ? & ? & _).
    eapply (ok_key ms H k k' b b'); congruence.
  - intros k k' a a' Ha Ha' E.
    destruct (Hback k a Ha) as (b & Hb & _ & _ & _ & ?).
    destruct (Hback k' a' Ha') as (b' & Hb' & _ & _ & _ & ?).
    eapply (ok_idempotency ms H k k' b b'); congruence.
  - intros k a [[-> ->]|[? ?]]%lookup_insert_Some; [done|by eapply ok_wf].
Qed.

(** ** A program logic for the collection

    [mtriple P c Q]: from a well-formed collection that satisfies [P], the call
    [c] leaves a well-formed collection however it ends, and if it returns
    normally then [Q] holds of its result and the collection. *)

Definition mtriple `{X : External} {A} (P : gmap string migration -> Prop) (c : App A)
    (Q : A -> gmap string migration -> Prop) : Prop :=
  forall w, migrations_ok (w_migrations w) -> P (w_migrations w) ->
    migrations_ok (w_migrations (c w).2) /\
    forall a, (c w).1 = Ok a -> Q a (w_migrations (c w).2).

Section Logic.
Context `{X : External}.

Lemma mt_conseq {A} (P P' : gmap string migration -> Prop) (c : App A) Q Q' :
  mtriple P' c Q' -> (forall ms, P ms -> P' ms) -> (forall a ms, Q' a ms -> Q a ms) ->
  mtriple P c Q.
Proof. intros H HP HQ w Hok Hp. destruct (H w Hok) as [? ?]; eauto. Qed.

Lemma mt_ret {A} (a : A) (P : gmap string migration -> Prop) (Q : A -> gmap string migration -> Prop) :
  (forall ms, P ms -> Q a ms) -> mtriple P (ret a) Q.
Proof. intros H w Hok Hp. split; [done|]. intros ? [= <-]. by apply H. Qed.

Lemma mt_fail {A} e P Q : mtriple (A:=A) P (fail e) Q.
Proof. intros w Hok Hp. by split. Qed.
Lemma mt_throw {A} e P Q : mtriple (A:=A) P (throw e) Q.
Proof. intros w Hok Hp. by split. Qed.

Lemma mt_lift {A} (o : outcome error A) (P : gmap string migration -> Prop) Q :
  (forall a ms, o = Ok a -> P ms -> Q a ms) -> mtriple P (lift o) Q.
Proof. intros H w Hok Hp. split; [done|]. intros a Ha. by apply H. Qed.

Lemma mt_bind {A B} (c : App A) (k : A -> App B) P Q R :
  mtriple P c Q -> (forall a, mtriple (Q a) (k a) R) -> mtriple P (bind c k) R.
Proof.
  intros Hc Hk w Hok Hp. destruct (Hc w Hok Hp) as [Hok' Hq]. unfold bind.
  destruct (c w) as [[a|e|e] w']; cbn in *; [|by split..].
  by apply Hk; [|apply Hq].
Qed.

Lemma mt_attempt {A} (c : App A) P Q :
  mtriple P c Q ->
  mtriple P (attempt c) (fun r ms => match r with inr a => Q a ms | inl _ => True end).
Proof.
  intros Hc w Hok Hp. destruct (Hc w Hok Hp) as [Hok' Hq]. unfold attempt.
  destruct (c w) as [[a|e|e] w']; cbn in *; (split; [done|]); intros r [= <-]; auto.
Qed.

Lemma mt_guarded {A} (c : App A) P Q : mtriple P c Q -> mtriple P (guarded c) Q.
Proof.
  intros Hc w Hok Hp. destruct (Hc w Hok Hp) as [Hok' Hq]. unfold guarded, catch, fail.
  destruct (c w) as [[a|e|e] w']; cbn in *; by split.
Qed.

(** A call that does not touch the collection keeps what is known of it. *)
Lemma mt_quiet {A} (c : App A) (P : gmap string migration -> Prop) :
  guarantees quiet c -> mtriple P c (fun _ => P).
Proof. intros H w Hok Hp. destruct (H w) as [-> _]. by split. Qed.

Lemma mt_quiet_bind {A B} (c : App A) (k : A -> App B) P Q :
  guarantees quiet c -> (forall a, mtriple P (k a) Q) -> mtriple P (bind c k) Q.
Proof. intros Hc Hk. eapply mt_bind; [by apply mt_quiet|]. intros a. apply Hk. Qed.

Lemma mt_lift_bind {A B} (o : outcome error A) (k : A -> App B) P Q :
  (forall a, o = Ok a -> mtriple P (k a) Q) -> mtriple P (bind (lift o) k) Q.
Proof.
  intros H w Hok Hp. unfold bind, lift. destruct o as [a|e|e]; [|by split..].
  by apply H.
Qed.

Lemma mt_pure {A} (P : gmap string migration -> Prop) (phi : Prop) (c : App A) Q :
  (phi -> mtriple P c Q) -> mtriple (fun ms => P ms /\ phi) c Q.
Proof. intros H w Hok [Hp Hphi]. by apply H. Qed.

Lemma mt_mongo {A} (op : world -> outcome error A * world) P Q :
  mtriple P op Q -> mtriple P (mongo op) Q.
Proof.
  intros H w Hok Hp. unfold mongo. destruct (H (next_op w) Hok Hp) as [? ?].
  by destruct (mongo_fault (w_ops w)) as [[]|].
Qed.

Lemma mt_fold {S A} (f : S -> A -> App S) (I : list A -> S -> gmap string migration -> Prop) l :
  (forall x l s, mtriple (I (x :: l) s) (f s x) (fun s' => I l s')) ->
  forall s, mtriple (I l s) (fold_m f s l) (I []).
Proof.
  intros H. induction l as [|x l IH]; intros s; cbn [fold_m].
  - by apply mt_ret.
  - eapply mt_bind; [apply H|]. intros s'. apply IH.
Qed.

(** The guarded update of one document. *)
Lemma mt_find_and_update id filter upd (P : gmap string migration -> Prop) :
  (forall ms m, P ms -> ms !! id = Some m -> migration_wf m -> filter m = true ->
     identity (upd m) = identity m /\ migration_wf (upd m)) ->
  mtriple P (find_and_update id filter upd) (fun r ms' =>
    match r with
    | None => P ms'
    | Some m' => exists ms m, P ms /\ ms !! id = Some m /\ filter m = true /\ m' = upd m /\
        ms' = <[id := m']> ms /\ m_id m' = id
    end).
Proof.
  intros H w Hok Hp. unfold find_and_update.
  destruct (w_migrations w !! id) as [m|] eqn:Hm; cbn; [|split; [done|by intros ? [= <-]]].
  destruct (filter m) eqn:Hf; cbn; [|split; [done|by intros ? [= <-]]].
  destruct (H _ m Hp Hm (ok_wf _ Hok _ _ Hm) Hf) as [Hi Hw]. split.
  - by eapply migrations_ok_insert.
  - intros r [= <-]. exists (w_migrations w), m. split_and!; try done.
    assert (m_id (upd m) = m_id m) as -> by (unfold identity in Hi; congruence).
    by apply (ok_id _ Hok).
Qed.

(** The document with this id is [m]. *)
Definition stored (m : migration) (ms : gmap string migration) : Prop := ms !! m_id m = Some m.

Lemma mt_updated_or msg r (P : gmap string migration -> Prop) (Q : migration -> gmap string migration -> Prop) :
  (forall m ms, r = Some m -> P ms -> Q m ms) -> mtriple P (updated_or msg r) Q.
Proof. intros H. destruct r; cbn; [apply mt_ret; eauto|apply mt_fail]. Qed.

(** A transition: if it keeps the document well formed, the one it returns is
    stored, updated from a document in the status [from]. *)
Lemma mt_transition id from to v r patch clear (P : gmap string migration -> Prop) :
  (forall ms m now, P ms -> ms !! id = Some m -> migration_wf m -> m_status m = from ->
     migration_wf (transition_upd to patch clear now m)) ->
  mtriple P (transitionMigration id from to v r patch clear) (fun m' ms' =>
    exists ms m now, P ms /\ ms !! id = Some m /\ m_status m = from /\
      m' = transition_upd to patch clear now m /\ ms' = <[id := m']> ms /\ stored m' ms').
Proof.
  intros H. apply mt_guarded. eapply mt_bind; [apply (mt_quiet _ P), quiet_new_Date|]. intros now.
  eapply mt_bind.
  - apply mt_mongo, mt_find_and_update. intros ms m Hp Hm Hwf [Hs _]%andb_true_iff.
    apply bool_decide_eq_true in Hs. split; [apply identity_transition|]. by eapply H.
  - intros res. apply mt_updated_or. intros m' ms' -> (ms & m & Hp & Hm & Hf & -> & -> & Hid).
    apply andb_true_iff in Hf as [Hs _]. apply bool_decide_eq_true in Hs.
    exists ms, m, now. split_and!; try done. unfold stored. rewrite Hid. apply lookup_insert_eq.
Qed.

(** Changing only the lock, the attempts, the error text or the dates. *)
Lemma wf_irrelevant (m m' : migration) :
  m_status m' = m_status m -> m_rollbackFromStatus m' = m_rollbackFromStatus m ->
  m_str m' = m_str m -> m_date m' = m_date m -> migration_wf m -> migration_wf m'.
Proof.
  intros E1 E2 E3 E4 []. split; unfold has, dated in *; rewrite ?E1, ?E2, ?E3, ?E4; done.
Qed.

Lemma mt_acquire id workerId stale v r (P : gmap string migration -> Prop) :
  mtriple P (acquireMigrationLock id workerId stale v r) (fun m' ms' =>
    stored m' ms' /\ m_id m' = id /\ m_lockedBy m' = Some workerId).
Proof.
  apply mt_guarded. eapply mt_bind; [apply (mt_quiet _ P), quiet_new_Date|]. intros t.
  eapply mt_bind; [apply (mt_quiet _ P), quiet_new_Date|]. intros now.
  eapply mt_bind.
  - apply mt_mongo, mt_find_and_update. intros ms m Hp Hm Hwf _. split; [done|].
    by apply (wf_irrelevant m).
  - intros res. apply mt_updated_or. intros m' ms' -> (ms & m & _ & _ & _ & -> & -> & Hid).
    split_and!; [|done..]. unfold stored. rewrite Hid. apply lookup_insert_eq.
Qed.

Lemma mt_release id workerId v r (P : gmap string migration -> Prop) :
  mtriple P (releaseMigrationLock id workerId v r) (fun _ _ => True).
Proof.
  apply mt_guarded. eapply mt_bind; [apply (mt_quiet _ P), quiet_new_Date|]. intros now.
  eapply mt_bind; [|intros res; by apply mt_updated_or].
  apply mt_mongo, mt_find_and_update. intros ms m Hp Hm Hwf _. split; [done|].
  by apply (wf_irrelevant m).
Qed.

(** A migration that failed or waits for an operator carries no obligations. *)
Lemma wf_parked m :
  m_status m ∈ [not_started; started; provisioned; failed; requires_operator_review;
                skipped_already_migrated] -> migration_wf m.
Proof.
  intros H. split; intros Hs; exfalso; destruct (m_status m); status_absurd.
Qed.

Lemma mt_mark id workerId v r e s (P : gmap string migration -> Prop) :
  s ∈ [failed; requires_operator_review] ->
  mtriple P (markMigrationFailed id workerId v r e s) (fun _ _ => True).
Proof.
  intros Hs. apply mt_guarded.
  eapply mt_bind; [apply (mt_quiet _ P), quiet_new_Date|]. intros now.
  eapply mt_bind; [|intros res; by apply mt_updated_or].
  apply mt_mongo, mt_find_and_update. intros ms m Hp Hm Hwf _. split; [done|].
  apply wf_parked. cbn. by_computation. destruct s; done || status_absurd.
Qed.
End Logic.

(** ** A logic of frames

    [frames ids c Q]: the call [c] changes no document but those of [ids], however
    it ends, leaves every document under its own id, and if it returns normally
    then [Q] holds of its result. *)

Definition keyed (ms : gmap string migration) : Prop := forall id m, ms !! id = Some m -> m_id m = id.

Definition frames `{X : External} {A} (ids : list string) (c : App A) (Q : A -> Prop) : Prop :=
  forall w, keyed (w_migrations w) ->
    keyed (w_migrations (c w).2) /\
    (forall j, j ∉ ids -> w_migrations (c w).2 !! j = w_migrations w !! j) /\
    forall a, (c w).1 = Ok a -> Q a.

Section Frames.
Context `{X : External}.

Lemma fr_conseq {A} ids ids' (c : App A) (Q Q' : A -> Prop) :
  frames ids' c Q' -> (forall j, j ∈ ids' -> j ∈ ids) -> (forall a, Q' a -> Q a) -> frames ids c Q.
Proof. intros H Hi HQ w Hk. destruct (H w Hk) as (? & Hf & ?). split_and!; [done| |auto]. intros j Hj. apply Hf. auto. Qed.

Lemma fr_ret {A} ids (a : A) (Q : A -> Prop) : Q a -> frames ids (ret a) Q.
Proof. intros H w Hk. split_and!; [done..|]. by intros ? [= <-]. Qed.

Lemma fr_fail {A} ids e (Q : A -> Prop) : frames ids (fail e) Q.
Proof. intros w Hk. by split_and!. Qed.

Lemma fr_throw {A} ids e (Q : A -> Prop) : frames ids (throw e) Q.
Proof. intros w Hk. by split_and!. Qed.

Lemma fr_bind {A B} ids (c : App A) (k : A -> App B) (Q : A -> Prop) (R : B -> Prop) :
  frames ids c Q -> (forall a, Q a -> frames ids (k a) R) -> frames ids (bind c k) R.
Proof.
  intros Hc Hk w Hw. destruct (Hc w Hw) as (Hw1 & Hf & Hq). unfold bind.
  destruct (c w) as [[a|e|e] w1]; cbn in *; [|by split_and!..].
  destruct (Hk a (Hq a eq_refl) w1 Hw1) as (Hw2 & Hf2 & Hr). split_and!; [done| |done].
  intros j Hj. by rewrite Hf2, Hf.
Qed.

Lemma fr_fold {S A} (key : A -> string) (f : S -> A -> App S) l :
  (forall s x, frames [key x] (f s x) (fun _ => True)) ->
  forall s, frames (key <$> l) (fold_m f s l) (fun _ => True).
Proof.
  intros Hf. induction l as [|x l IH]; intros s; cbn [fold_m]; [by apply fr_ret|].
  eapply fr_bind; [eapply fr_conseq; [apply Hf|set_solver|done]|]. intros s' _.
  eapply fr_conseq; [apply IH|set_solver|done].
Qed.

Lemma fr_quiet {A} ids (c : App A) : guarantees quiet c -> frames ids c (fun _ => True).
Proof. intros H w Hk. destruct (H w) as [E _]. rewrite E. by split_and!. Qed.

Lemma fr_quiet_bind {A B} ids (c : App A) (k : A -> App B) R :
  guarantees quiet c -> (forall a, frames ids (k a) R) -> frames ids (bind c k) R.
Proof. intros Hc Hk. eapply fr_bind; [by apply fr_quiet|]. intros a _. apply Hk. Qed.

Lemma fr_lift_bind {A B} ids (o : outcome error A) (k : A -> App B) R :
  (forall a, o = Ok a -> frames ids (k a) R) -> frames ids (bind (lift o) k) R.
Proof.
  intros H w Hk. unfold bind, lift. destruct o as [a|e|e]; [|by split_and!..]. by apply H.
Qed.

Lemma fr_attempt {A} ids (c : App A) Q :
  frames ids c Q -> frames ids (attempt c) (fun r => match r with inr a => Q a | inl _ => True end).
Proof.
  intros Hc w Hk. destruct (Hc w Hk) as (Hw & Hf & Hq). unfold attempt.
  destruct (c w) as [[a|e|e] w']; cbn in *; (split_and!; [done..|]); intros r [= <-]; auto.
Qed.

Lemma fr_guarded {A} ids (c : App A) Q : frames ids c Q -> frames ids (guarded c) Q.
Proof.
  intros Hc w Hk. destruct (Hc w Hk) as (Hw & Hf & Hq). unfold guarded, catch, fail.
  destruct (c w) as [[a|e|e] w']; cbn in *; by split_and!.
Qed.

Lemma fr_update id filter upd msg : (forall m, identity (upd m) = identity m) ->
  frames [id] (let! result := mongo (find_and_update id filter upd) in updated_or msg result)
    (fun m' => m_id m' = id).
Proof.
  intros Hu.
  assert (frames [id] (find_and_update id filter upd)
    (fun r => match r with Some m' => m_id m' = id | None => True end)) as Hop.
  { intros w Hk. unfold find_and_update. destruct (w_migrations w !! id) as [m|] eqn:Hm; cbn;
      [|split_and!; [done..|by intros ? [= <-]]].
    destruct (filter m); cbn; [|split_and!; [done..|by intros ? [= <-]]].
    assert (m_id (upd m) = id) as Hid.
    { rewrite <- (Hk id m Hm). specialize (Hu m). unfold identity in Hu. congruence. }
    split_and!.
    - intros k a [[<- <-]|[? Ha]]%lookup_insert_Some; [done|by apply Hk].
    - intros j Hj. apply lookup_insert_ne. set_solver.
    - by intros ? [= <-]. }
  apply (fr_bind _ _ _ (fun r => match r with Some m' => m_id m' = id | None => True end)).
  - intros w Hk. unfold mongo. destruct (Hop (next_op w) Hk) as (H1 & H2 & H3).
    destruct (mongo_fault (w_ops w)) as [[]|]; by split_and!.
  - intros [m'|] Hm'; [by apply fr_ret|apply fr_fail].
Qed.

Lemma fr_transition id from to v r patch clear :
  frames [id] (transitionMigration id from to v r patch clear) (fun m' => m_id m' = id).
Proof.
  apply fr_guarded, fr_quiet_bind; [apply quiet_new_Date|]. intros t. apply fr_update.
  intros m. apply identity_transition.
Qed.

Lemma fr_acquire id worker stale v r :
  frames [id] (acquireMigrationLock id worker stale v r) (fun m' => m_id m' = id).
Proof.
  apply fr_guarded. do 2 (apply fr_quiet_bind; [apply quiet_new_Date|]; intros ?). by apply fr_update.
Qed.

Lemma fr_release id worker v r :
  frames [id] (releaseMigrationLock id worker v r) (fun m' => m_id m' = id).
Proof. apply fr_guarded, fr_quiet_bind; [apply quiet_new_Date|]. intros t. by apply fr_update. Qed.

Lemma fr_mark id worker v r e s :
  frames [id] (markMigrationFailed id worker v r e s) (fun m' => m_id m' = id).
Proof. apply fr_guarded, fr_quiet_bind; [apply quiet_new_Date|]. intros t. by apply fr_update. Qed.
End Frames.

(** ** Lookups and the upsert *)

Section Upsert.
Context `{X : External}.

Lemma elem_of_docs (w : world) m : m ∈ docs w <-> exists id, w_migrations w !! id = Some m.
Proof.
  unfold docs. rewrite list_elem_of_fmap. split.
  - intros ([id m'] & -> & H%elem_of_map_to_list). eauto.
  - intros (id & H). exists (id, m). by rewrite elem_of_map_to_list.
Qed.

Lemma find_doc_Some p (w : world) m : find_doc p w = Some m ->
  p m = true /\ exists id, w_migrations w !! id = Some m.
Proof.
  unfold find_doc. rewrite fmap_Some. intros ([i m'] & H & ->).
  apply list_find_Some in H as (H & Hp & _). split; [done|].
  apply elem_of_docs. by eapply list_elem_of_lookup_2.
Qed.

Lemma find_doc_None p (w : world) id m :
  find_doc p w = None -> w_migrations w !! id = Some m -> p m = false.
Proof.
  unfold find_doc. rewrite fmap_None, list_find_None. intros H Hm.
  rewrite Forall_forall in H. apply not_true_is_false. apply H, elem_of_docs. eauto.
Qed.

Lemma migrations_ok_fresh ms id m :
  migrations_ok ms -> ms !! id = None -> m_id m = id -> m_status m = not_started ->
  (forall k m', ms !! k = Some m' -> m_accountId m' = m_accountId m -> m_runId m' ≠ m_runId m) ->
  (forall k m', ms !! k = Some m' -> m_idempotencyKey m' ≠ m_idempotencyKey m) ->
  migrations_ok (<[id := m]> ms).
Proof.
  intros H Hf Hid Hs Hk Hi. split.
  - intros k a [[<- <-]|[? Ha]]%lookup_insert_Some; [done|by eapply ok_id].
  - intros k k' a a' [[<- <-]|[? Ha]]%lookup_insert_Some [[<- <-]|[? Ha']]%lookup_insert_Some E1 E2;
      [done| | |by eapply (ok_key ms H)]; exfalso; by eapply Hk.
  - intros k k' a a' [[<- <-]|[? Ha]]%lookup_insert_Some [[<- <-]|[? Ha']]%lookup_insert_Some E;
      [done| | |by eapply (ok_idempotency ms H)]; exfalso; by eapply Hi.
  - intros k a [[<- <-]|[? Ha]]%lookup_insert_Some; [|by eapply ok_wf].
    apply wf_parked. rewrite Hs. by_computation. done.
Qed.

Lemma mt_upsert args (P : gmap string migration -> Prop) :
  mtriple P (upsertMigration args) (fun m ms' =>
    stored m ms' /\ m_accountId m = u_accountId args /\ m_runId m = u_runId args).
Proof.
  apply mt_guarded. eapply mt_bind; [apply (mt_quiet _ P), quiet_new_Date|]. intros now.
  eapply mt_bind; [apply (mt_quiet _ P), quiet_randomUUID|]. intros id.
  apply mt_mongo. intros w Hok Hp. unfold upsert_op.
  destruct (find_doc (matches_key _ _) w) as [m|] eqn:Hfind; cbn.
  { split; [done|]. intros a [= <-]. apply find_doc_Some in Hfind as [Hk [id' Hm]].
    apply andb_true_iff in Hk as [E1%bool_decide_eq_true E2%bool_decide_eq_true].
    split; [|done]. unfold stored. by rewrite (ok_id _ Hok _ _ Hm). }
  destruct (bool_decide_reflect (is_Some (w_migrations w !! id))) as [|Hid]; cbn; [done|].
  destruct (find_doc (fun m => bool_decide (m_idempotencyKey m = _)) w) as [|] eqn:Hidem;
    cbn; [done|]. split.
  - apply migrations_ok_fresh; try done.
    + by apply eq_None_not_Some.
    + intros k m' Hm' E1 E2. pose proof (find_doc_None _ _ _ _ Hfind Hm') as Hf.
      unfold matches_key in Hf. cbn in E1, E2. by rewrite !bool_decide_true in Hf.
    + intros k m' Hm' E. pose proof (find_doc_None _ _ _ _ Hidem Hm') as Hf.
      cbn in E, Hf. by rewrite bool_decide_true in Hf.
  - intros a [= <-]. split; [|done]. apply lookup_insert_eq.
Qed.
End Upsert.

(** ** Evolution of statuses

    Whatever happens, a document keeps its identity, and its status moves along
    a relation [R] that depends on who writes. *)

Definition evolves (R : relation MigrationStatus) (ms ms' : gmap string migration) : Prop :=
  forall id m, ms !! id = Some m ->
  exists m', ms' !! id = Some m' /\ identity m' = identity m /\ R (m_status m) (m_status m').

Lemma evolves_refl R `{!Reflexive R} ms : evolves R ms ms.
Proof. intros id m Hm. exists m. split_and!; done || reflexivity. Qed.

Lemma evolves_trans R `{!Transitive R} ms1 ms2 ms3 :
  evolves R ms1 ms2 -> evolves R ms2 ms3 -> evolves R ms1 ms3.
Proof.
  intros H1 H2 id m Hm. destruct (H1 id m Hm) as (m2 & Hm2 & I2 & S2).
  destruct (H2 id m2 Hm2) as (m3 & Hm3 & I3 & S3). exists m3.
  split_and!; [done|congruence|by etrans].
Qed.

(** A step of the pipeline also adds no document. *)
Definition evolving `{X : External} (R : relation MigrationStatus) (w w' : world) : Prop :=
  evolves R (w_migrations w) (w_migrations w') /\
  forall id, is_Some (w_migrations w' !! id) -> is_Some (w_migrations w !! id).

#[export] Instance evolving_preorder `{X : External} R `{!PreOrder R} : PreOrder (evolving R).
Proof.
  split.
  - intros w. split; [by apply evolves_refl, _|done].
  - intros w1 w2 w3 [E1 D1] [E2 D2]. split; [by eapply evolves_trans; [exact _|..]|auto].
Qed.

Lemma evolving_same `{X : External} R `{!PreOrder R} (w w' : world) :
  w_migrations w' = w_migrations w -> evolving R w w'.
Proof. intros E. unfold evolving. rewrite E. apply (reflexivity (R:=evolving R) w). Qed.

(** The document an evolved one comes from. *)
Lemma evolving_back `{X : External} R (w w' : world) id m' :
  evolving R w w' -> w_migrations w' !! id = Some m' ->
  exists m, w_migrations w !! id = Some m /\ identity m' = identity m.
Proof.
  intros [E D] Hm'. destruct (D id ltac:(eauto)) as [m Hm]. exists m. split; [done|].
  destruct (E id m Hm) as (m2 & Hm2 & Hi & _). congruence.
Qed.

Lemma quiet_evolving `{X : External} R `{!PreOrder R} {A} (c : App A) :
  guarantees quiet c -> guarantees (evolving R) c.
Proof. intros H w. apply evolving_same, (H w); exact _. Qed.

Section Evolving.
Context `{X : External} (R : relation MigrationStatus) `{!PreOrder R}.

Lemma evolving_mongo {A} (op : world -> outcome error A * world) :
  (forall w, evolving R w (op w).2) -> guarantees (evolving R) (mongo op).
Proof.
  intros H w. unfold mongo. pose proof (H (next_op w)) as H'.
  destruct (mongo_fault (w_ops w)) as [[]|]; done || by apply evolving_same.
Qed.

Lemma evolving_find_and_update id filter upd :
  (forall m, filter m = true -> identity (upd m) = identity m /\
     R (m_status m) (m_status (upd m))) ->
  guarantees (evolving R) (mongo (find_and_update id filter upd)).
Proof.
  intros H. apply evolving_mongo. intros w. unfold find_and_update.
  destruct (w_migrations w !! id) as [m|] eqn:Hm; [|reflexivity].
  destruct (filter m) eqn:Hf; [|reflexivity]. split; cbn.
  - intros k a Ha. destruct (decide (k = id)) as [->|Hk].
    + rewrite Hm in Ha. injection Ha as <-. exists (upd m). rewrite lookup_insert_eq.
      by destruct (H m Hf).
    + exists a. rewrite lookup_insert_ne by done. split_and!; done || reflexivity.
  - intros k. destruct (decide (k = id)) as [->|Hk]; [eauto|by rewrite lookup_insert_ne].
Qed.

Lemma evolving_dated {A} (k : Z -> App A) :
  (forall t, guarantees (evolving R) (k t)) -> guarantees (evolving R) (bind new_Date k).
Proof.
  intros H. apply guarantees_bind; [exact _|apply (quiet_evolving R), quiet_new_Date|done].
Qed.

Lemma evolving_guarded {A} (c : App A) : guarantees (evolving R) c -> guarantees (evolving R) (guarded c).
Proof. intros H. unfold guarded. apply guarantees_catch; [exact _|done|]. intros e. apply guarantees_fail, _. Qed.

Lemma evolving_updated_or msg r : guarantees (evolving R) (updated_or msg r).
Proof. destruct r; [apply guarantees_ret|apply guarantees_fail]; exact _. Qed.

(** The common shape of the guarded updates. *)
Lemma evolving_update id filter (upd : Z -> migration -> migration) msg :
  (forall now m, filter m = true -> identity (upd now m) = identity m /\
     R (m_status m) (m_status (upd now m))) ->
  guarantees (evolving R) (guarded (
    let! now := new_Date in
    let! result := mongo (find_and_update id filter (upd now)) in
    updated_or msg result)).
Proof.
  intros H. apply evolving_guarded, evolving_dated. intros now.
  apply guarantees_bind; [exact _|apply evolving_find_and_update; intros m; apply H|].
  intros r. apply evolving_updated_or.
Qed.

Lemma status_apply_patch ps m : m_status (apply_patch ps m) = m_status m.
Proof.
  revert m. induction ps as [|p ps IH]; intros m; [done|].
  cbn. unfold apply_patch in IH. rewrite IH. by destruct p.
Qed.

Lemma evolving_transition id from to v r patch clear :
  R from to -> guarantees (evolving R) (transitionMigration id from to v r patch clear).
Proof.
  intros H. apply evolving_update. intros now m [Hs _]%andb_true_iff.
  apply bool_decide_eq_true in Hs. split; [apply identity_transition|]. cbn.
  by rewrite Hs.
Qed.

Lemma evolving_acquire id w s v r : guarantees (evolving R) (acquireMigrationLock id w s v r).
Proof.
  apply evolving_guarded, evolving_dated. intros t. apply evolving_dated. intros now.
  apply guarantees_bind; [exact _| |intros res; apply evolving_updated_or].
  apply evolving_find_and_update. intros m _. split; done || reflexivity.
Qed.

Lemma evolving_release id w v r : guarantees (evolving R) (releaseMigrationLock id w v r).
Proof. apply evolving_update. intros now m _. split; done || reflexivity. Qed.

Lemma evolving_mark id w v r e s : (forall s0, R s0 s) ->
  guarantees (evolving R) (markMigrationFailed id w v r e s).
Proof.
  intros Hs. apply evolving_update. intros now m _. split; [done|]. cbn. apply Hs.
Qed.

Lemma upsert_evolves args w :
  evolves eq (w_migrations w) (w_migrations (upsertMigration args w).2).
Proof.
  assert (forall id t w, evolves eq (w_migrations w) (w_migrations (upsert_op id t args w).2)) as H.
  { intros id t w0. unfold upsert_op. case_match; [apply evolves_refl, _|].
    case_match eqn:E; [apply evolves_refl, _|].
    apply orb_false_iff in E as [E%bool_decide_eq_false _]. intros k a Ha. cbn.
    exists a. rewrite lookup_insert_ne by (intros ->; apply E; eauto).
    split_and!; done || reflexivity. }
  unfold upsertMigration, guarded, catch, bind, new_Date, randomUUID, mongo. cbn.
  pose proof (H (uuid (w_uuids (next_read w))) (clock (w_reads w))
    (next_op (next_uuid (next_read w)))) as Hu.
  destruct (mongo_fault _) as [[]|]; cbn in *; [apply evolves_refl, _|done|].
  by destruct (upsert_op _ _ _ _) as [[] ?].
Qed.

Lemma quiet_getConfig : guarantees quiet getConfig.
Proof. unfold getConfig. quiet_tac. Qed.
Lemma quiet_listRunnable v r l : guarantees quiet (listRunnableMigrations v r l).
Proof. unfold listRunnableMigrations. quiet_tac. Qed.
Lemma quiet_listByStatuses v r ss l : guarantees quiet (listMigrationsByStatuses v r ss l).
Proof. unfold listMigrationsByStatuses. quiet_tac. Qed.
Lemma quiet_findByAccount a v r : guarantees quiet (findMigrationByAccountId a v r).
Proof. unfold findMigrationByAccountId. quiet_tac. Qed.
Lemma quiet_countByStatus v r s : guarantees quiet (countByStatus v r s).
Proof. unfold countByStatus. quiet_tac. Qed.
End Evolving.

#[export] Hint Resolve quiet_getConfig quiet_listRunnable quiet_listByStatuses quiet_findByAccount
  quiet_countByStatus : flash.

(** ** What a successful call did *)

Section Results.
Context `{X : External}.

Lemma guarded_Ok {A} (c : App A) w a w' : guarded c w = (Ok a, w') -> c w = (Ok a, w').
Proof. unfold guarded, catch, fail. by destruct (c w) as [[]]. Qed.

Lemma mongo_Ok {A} (op : world -> outcome error A * world) w a w' :
  mongo op w = (Ok a, w') -> op (next_op w) = (Ok a, w').
Proof. unfold mongo. by destruct (mongo_fault (w_ops w)) as [[]|]. Qed.

Lemma new_Date_Ok w t w' : new_Date w = (Ok t, w') -> w_migrations w' = w_migrations w.
Proof. unfold new_Date. intros [= <- <-]. done. Qed.

Lemma updated_or_Ok msg r w m w' : updated_or msg r w = (Ok m, w') -> r = Some m /\ w' = w.
Proof. destruct r; cbn; [intros [= <- <-]|]; done. Qed.

Lemma find_and_update_Some id filter upd w m' w' :
  find_and_update id filter upd w = (Ok (Some m'), w') ->
  exists m, w_migrations w !! id = Some m /\ filter m = true /\ m' = upd m /\
    w_migrations w' = <[id := m']> (w_migrations w).
Proof.
  unfold find_and_update. destruct (w_migrations w !! id) as [m|]; [|done].
  destruct (filter m) eqn:Hf; [|done]. intros [= <- <-]. by exists m.
Qed.

Lemma transition_Ok id from to v r patch clear w m' w' :
  transitionMigration id from to v r patch clear w = (Ok m', w') ->
  exists m now, w_migrations w !! id = Some m /\ m_status m = from /\
    m' = transition_upd to patch clear now m /\
    w_migrations w' = <[id := m']> (w_migrations w).
Proof.
  intros H%guarded_Ok. apply bind_Ok in H as (now & w1 & Hn%new_Date_Ok & H).
  apply bind_Ok in H as (res & w2 & Hc%mongo_Ok & [-> ->]%updated_or_Ok).
  apply find_and_update_Some in Hc as (m & Hm & Hf & -> & ->). cbn in *.
  apply andb_true_iff in Hf as [Hs%bool_decide_eq_true _].
  exists m, now. rewrite Hn in *. done.
Qed.

Lemma acquire_Ok id workerId stale v r w m' w' :
  acquireMigrationLock id workerId stale v r w = (Ok m', w') ->
  exists m t now, w_migrations w !! id = Some m /\ lock_free stale m = true /\
    m' = with_updatedAt now (with_lock (Some t) (Some workerId) m) /\
    w_migrations w' = <[id := m']> (w_migrations w).
Proof.
  intros H%guarded_Ok. apply bind_Ok in H as (t & w1 & Ht%new_Date_Ok & H).
  apply bind_Ok in H as (now & w2 & Hn%new_Date_Ok & H).
  apply bind_Ok in H as (res & w3 & Hc%mongo_Ok & [-> ->]%updated_or_Ok).
  apply find_and_update_Some in Hc as (m & Hm & Hf & -> & ->). cbn in *.
  apply andb_true_iff in Hf as [_ Hl]. exists m, t, now. rewrite Hn, Ht in *. done.
Qed.

Lemma upsert_Ok args w m w' : upsertMigration args w = (Ok m, w') ->
  exists id now w0, w_migrations w0 = w_migrations w /\ upsert_op id now args w0 = (Ok m, w').
Proof.
  intros H%guarded_Ok. apply bind_Ok in H as (now & w1 & Hn%new_Date_Ok & H).
  apply bind_Ok in H as (id & w2 & Hu & H%mongo_Ok).
  exists id, now, (next_op w2). split; [|done]. unfold randomUUID in Hu. by simplify_eq/=.
Qed.

(** Upserting is idempotent. Once an account has a migration in a run,
    every further upsert for that account and run returns the stored document
    and changes nothing, whatever else it is asked to write. *)
Theorem upsert_idempotent (args args' : upsert_args) (w w1 w2 : world) (m m' : migration) :
  migrations_ok (w_migrations w) ->
  upsertMigration args w = (Ok m, w1) ->
  u_accountId args' = u_accountId args -> u_runId args' = u_runId args ->
  upsertMigration args' w1 = (Ok m', w2) ->
  m' = m /\ w_migrations w2 = w_migrations w1.
Proof.
  intros Hok H1 Ea Er (id & now & w0 & Ew & H2)%upsert_Ok.
  destruct (mt_upsert args (fun _ => True) w Hok I) as [Hok1 Hq]. rewrite H1 in Hok1, Hq.
  destruct (Hq m eq_refl) as (Hm & Ka & Kr). cbn in *. unfold upsert_op in H2.
  destruct (find_doc (matches_key _ _) w0) as [m2|] eqn:Hf.
  - simplify_eq. split; [|done]. apply find_doc_Some in Hf as [Hk [id2 Hm2]].
    apply andb_true_iff in Hk as [E1%bool_decide_eq_true E2%bool_decide_eq_true].
    rewrite Ew in Hm2. assert (id2 = m_id m) as -> by (eapply (ok_key _ Hok1); eauto; congruence).
    unfold stored in Hm. congruence.
  - unfold stored in Hm. rewrite <- Ew in Hm.
    pose proof (find_doc_None _ _ _ _ Hf Hm) as Hn. unfold matches_key in Hn.
    rewrite !bool_decide_true in Hn by congruence. done.
Qed.

(** An update whose filter rejects the document does nothing. *)
Lemma update_rejected id filter upd msg w m :
  w_migrations w !! id = Some m -> filter m = false ->
  let c := guarded (let! result := mongo (find_and_update id filter upd) in
                    updated_or msg result) in
  is_ok (c w).1 = false /\ w_migrations (c w).2 = w_migrations w.
Proof.
  intros Hm Hf. cbn. unfold guarded, catch, bind, mongo, find_and_update. cbn.
  rewrite Hm, Hf. by destruct (mongo_fault _) as [[]|].
Qed.

(** The lock is exclusive until it goes stale. While a worker holds the
    lock it took at [t], another worker that considers locks older than [t]
    stale (or an earlier bound) cannot take it, and cannot release it or mark
    the migration failed; the collection stays as it is. *)
Theorem lock_exclusive (id A B : string) (stale stale' v v' : Z) (r r' : string) (w w1 : world)
    (m : migration) (t : Z) (e : error) (s : MigrationStatus) :
  acquireMigrationLock id A stale v r w = (Ok m, w1) -> m_lockedAt m = Some t ->
  stale' <= t -> B ≠ A ->
  let taken := acquireMigrationLock id B stale' v' r' w1 in
  let released := releaseMigrationLock id B v' r' w1 in
  let marked := markMigrationFailed id B v' r' e s w1 in
  is_ok taken.1 = false /\ w_migrations taken.2 = w_migrations w1 /\
  is_ok released.1 = false /\ w_migrations released.2 = w_migrations w1 /\
  is_ok marked.1 = false /\ w_migrations marked.2 = w_migrations w1.
Proof.
  intros (m0 & t0 & now & _ & _ & -> & Ew)%acquire_Ok Ht Hle Hne. cbn zeta.
  cbn in Ht. injection Ht as ->.
  set (m := with_updatedAt now (with_lock (Some t) (Some A) m0)) in *.
  assert (w_migrations w1 !! id = Some m) as Hm by (rewrite Ew; apply lookup_insert_eq).
  assert (held_by B v' r' m = false) as Hh
    by (unfold held_by; rewrite bool_decide_false; [done|intros [= ->]; done]).
  assert (in_run v' r' m && lock_free stale' m = false) as Hl.
  { apply andb_false_intro2. unfold lock_free, m. cbn. apply Z.ltb_ge. lia. }
  pose proof (fun upd msg => update_rejected id (fun m => in_run v' r' m && lock_free stale' m) upd msg
    (next_read (next_read w1)) m Hm Hl) as H1.
  pose proof (fun upd msg => update_rejected id (held_by B v' r') upd msg (next_read w1) m Hm Hh) as H2.
  split_and!; [apply H1|apply H1|apply H2..].
Qed.
End Results.

(** ** Listings *)

Section Listings.
Context `{X : External} {L : ExternalLaws}.

Lemma limited_sub limit l m : m ∈ limited limit l -> m ∈ l.
Proof. destruct limit as [[|n]|]; cbn; [done| |done]. apply subseteq_take. Qed.

Lemma limited_nil limit l : limited limit l = [] -> l = [].
Proof. destruct limit as [[|n]|]; cbn; [done| |done]. by destruct l. Qed.

Lemma sorted_elem l m : m ∈ sort_updatedAt l <-> m ∈ l.
Proof. by rewrite sort_permutes. Qed.

Lemma listing_elem p limit w m :
  m ∈ limited limit (sort_updatedAt (List.filter p (docs w))) ->
  p m = true /\ exists id, w_migrations w !! id = Some m.
Proof.
  intros H%limited_sub%sorted_elem%list_elem_of_In%filter_In.
  destruct H as [H Hp]. split; [done|]. by apply elem_of_docs, list_elem_of_In.
Qed.

(** The documents are distinct, and so are those of a listing. *)
Lemma docs_distinct (w : world) : migrations_ok (w_migrations w) -> NoDup (m_id <$> docs w).
Proof.
  intros Hok. unfold docs. rewrite <- list_fmap_compose.
  rewrite (list_fmap_ext _ fst); [apply NoDup_fst_map_to_list|].
  intros i [id m] Hi%list_elem_of_lookup_2%elem_of_map_to_list. cbn. by apply (ok_id _ Hok).
Qed.

Lemma listing_distinct p limit w : migrations_ok (w_migrations w) ->
  NoDup (m_id <$> limited limit (sort_updatedAt (List.filter p (docs w)))).
Proof.
  intros Hok. assert (NoDup (m_id <$> sort_updatedAt (List.filter p (docs w)))) as Hall.
  { rewrite sort_permutes. eapply sublist_NoDup; [by apply docs_distinct|]. apply fmap_sublist.
    induction (docs w) as [|m ms IH]; cbn; [done|]. case_match; by constructor. }
  destruct limit as [[|n]|]; cbn [limited]; [done| |done].
  eapply sublist_NoDup; [exact Hall|]. apply fmap_sublist, sublist_take.
Qed.

Lemma listing_nil p limit w id m :
  limited limit (sort_updatedAt (List.filter p (docs w))) = [] ->
  w_migrations w !! id = Some m -> p m = false.
Proof.
  intros H%limited_nil Hm. destruct (p m) eqn:Hp; [|done].
  assert (m ∈ sort_updatedAt (List.filter p (docs w))) as Hin.
  { apply sorted_elem, list_elem_of_In, filter_In. split; [|done].
    apply list_elem_of_In, elem_of_docs. eauto. }
  rewrite H in Hin. by apply elem_of_nil in Hin.
Qed.

(** Every document listed is stored, of the run and in a listed status; an
    empty answer means there is none. *)
Lemma listByStatuses_Ok v r ss limit w l w' :
  listMigrationsByStatuses v r ss limit w = (Ok l, w') ->
  w_migrations w' = w_migrations w /\
  (forall m, m ∈ l -> in_run v r m = true /\ m_status m ∈ ss /\
     exists id, w_migrations w !! id = Some m) /\
  (l = [] -> forall id m, w_migrations w !! id = Some m -> in_run v r m = true ->
     m_status m ∉ ss).
Proof.
  intros H%guarded_Ok%mongo_Ok. unfold read in H. injection H as <- <-. split; [done|]. split.
  - intros m [[Hr Hs]%andb_true_iff Hm]%listing_elem. split; [done|].
    by apply bool_decide_eq_true in Hs.
  - intros H id m Hm Hr Hs. pose proof (listing_nil _ _ (next_op w) id m H Hm) as Hp.
    cbn in Hp. unfold includes in Hp. by rewrite Hr, bool_decide_true in Hp.
Qed.

(** Without a limit the listing has every document asked for. *)
Lemma listByStatuses_all v r ss w l w' :
  listMigrationsByStatuses v r ss None w = (Ok l, w') ->
  forall id m, w_migrations w !! id = Some m -> in_run v r m = true -> m_status m ∈ ss -> m ∈ l.
Proof.
  intros H%guarded_Ok%mongo_Ok id m Hm Hr Hs. unfold read in H. injection H as <- <-. cbn.
  apply sorted_elem, list_elem_of_In, filter_In. split.
  - apply list_elem_of_In, elem_of_docs. by exists id.
  - unfold includes. by rewrite Hr, bool_decide_true.
Qed.

Lemma listRunnable_Ok v r limit w l w' :
  listRunnableMigrations v r limit w = (Ok l, w') ->
  w_migrations w' = w_migrations w /\
  (forall m, m ∈ l -> in_run v r m = true /\ (m_status m ∉ terminalStatuses) /\
     exists id, w_migrations w !! id = Some m) /\
  (l = [] -> forall id m, w_migrations w !! id = Some m -> in_run v r m = true ->
     m_status m ∈ terminalStatuses).
Proof.
  intros H%guarded_Ok%mongo_Ok. unfold read in H. injection H as <- <-. split; [done|]. split.
  - intros m [[Hr Hs]%andb_true_iff Hm]%listing_elem. split; [done|]. split; [|done].
    apply negb_true_iff in Hs. by apply bool_decide_eq_false in Hs.
  - intros H id m Hm Hr. pose proof (listing_nil _ _ (next_op w) id m H Hm) as Hp.
    cbn in Hp. rewrite Hr in Hp. cbn in Hp. apply negb_false_iff in Hp.
    by apply bool_decide_eq_true in Hp.
Qed.

Lemma countByStatus_Ok v r s w n w' : countByStatus v r s w = (Ok n, w') ->
  w_migrations w' = w_migrations w /\ 0 <= n /\
  (n = 0 -> forall id m, w_migrations w !! id = Some m -> in_run v r m = true -> m_status m ≠ s).
Proof.
  intros H%mongo_Ok. unfold read in H. injection H as <- <-. split; [done|]. split; [lia|].
  intros Hn id m Hm Hr Hs.
  assert (m ∈ docs (next_op w)) as Hin by (apply elem_of_docs; eauto).
  assert (In m (List.filter (fun m => in_run v r m && bool_decide (m_status m = s))
    (docs (next_op w)))) as Hin2.
  { apply filter_In. split; [by apply list_elem_of_In|]. by rewrite Hr, bool_decide_true. }
  destruct (List.filter _ _) in Hn, Hin2; [done|]. cbn in Hn. lia.
Qed.
End Listings.
