(* ===== verification/CutoverServices.v ===== *)
(** * Cash wallet cutover: the services

    The interface the worker, the handlers and the rollback are written
    against ([MigrationServices], the parameters [services] of the source), its
    laws ([ServicesLaws]), and the implementation
    [createCashWalletMigrationRuntimeServices] of
    [src/src/app/cash-wallet-cutover/runtime-services.ts], which meets them. *)

From stdpp Require Import base gmap list strings.
From Stdlib Require Import ZArith Lia.
From S2P Require Import Prelude JsStrings JsNumbers Errors BigintMoney MoneyAmounts.
From S2P Require Import CutoverStateMachine CutoverAmounts World Ibex Repos.

Open Scope Z_scope.

(** ** The interface *)

Record MigrationServices `{External} := mkServices {
  now : App Z;
  getDefaultWalletId : string -> App string;
  ensureDestinationWallet : string -> string -> App unit;
  readSourceBalanceUsdCents : migration -> App string;
  readDestinationBalanceUsdtMicros : migration -> App string;
  readDestinationSpendableUsdtMicros : migration -> App string;
  createInvoice : string -> string -> string -> App LnInvoice;
  createNoAmountInvoice : string -> string -> App LnInvoice;
  servicePayInvoice : string -> string -> option string -> option string -> App string;
  verifyBalanceMove : string -> App unit;
  readFeeAmountUsdtMicros : migration -> App string;
  getTreasuryWalletId : App string;
  flipDefaultWallet : string -> string -> App string;
  verifyLegacyWalletZero : string -> App unit
}.

(** Services never touch the migrations or the configuration, and only the
    payment service makes payments: at most the one it was asked for, and that
    one whenever it returns a transaction. *)
Class ServicesLaws `{X : External} (s : MigrationServices) := {
  law_now : guarantees quiet (now s);
  law_getDefaultWalletId a : guarantees quiet (getDefaultWalletId s a);
  law_ensureDestinationWallet a b : guarantees quiet (ensureDestinationWallet s a b);
  law_readSource m : guarantees quiet (readSourceBalanceUsdCents s m);
  law_readDestination m : guarantees quiet (readDestinationBalanceUsdtMicros s m);
  law_readSpendable m : guarantees quiet (readDestinationSpendableUsdtMicros s m);
  law_createInvoice a b c : guarantees quiet (createInvoice s a b c);
  law_createNoAmountInvoice a b : guarantees quiet (createNoAmountInvoice s a b);
  law_verifyBalanceMove a : guarantees quiet (verifyBalanceMove s a);
  law_readFee m : guarantees quiet (readFeeAmountUsdtMicros s m);
  law_getTreasury : guarantees quiet (getTreasuryWalletId s);
  law_flip a b : guarantees quiet (flipDefaultWallet s a b);
  law_verifyLegacy a : guarantees quiet (verifyLegacyWalletZero s a);
  law_pay a r c m (w : world) :
    let '(o, w') := servicePayInvoice s a r c m w in
    w_migrations w' = w_migrations w /\ w_config w' = w_config w /\
    (w_paid w' = w_paid w /\ is_ok o = false \/ w_paid w' = w_paid w ++ [mkPayment a r c m])
}.

(** ** Retrying on rate limits *)

Definition CUTOVER_IBEX_INVOICE_EXPIRATION_SECONDS : Z := 15 * 60.
Definition CUTOVER_IBEX_RATE_LIMIT_MAX_ATTEMPTS : nat := 5.

(** [error.message || String(error)]: without a message the text is the name. *)
Definition errorMessage (e : error) : string :=
  if nonempty (err_message e) then err_message e else error_name (err_class e).

Definition isIbexRateLimitError (e : error) : bool :=
  bool_decide (err_httpCode e = Some 429) || bool_decide (err_status e = Some 429) ||
  str_includes "too many requests" (str_lower (errorMessage e)).

(** [left]: how many attempts may follow the current one. Between attempts the
    source sleeps, which changes nothing here. *)
Fixpoint withIbexRateLimitRetry `{External} {A} (left : nat) (operation : App A) : App A :=
  fun w =>
    match operation w with
    | (Ok a, w') => (Ok a, w')
    | (Err e, w') =>
        match left with
        | S left' =>
            if isIbexRateLimitError e then withIbexRateLimitRetry left' operation w'
            else (Err e, w')
        | O => (Err e, w')
        end
    | (Throw e, w') =>
        match left with
        | S left' =>
            if isIbexRateLimitError e then withIbexRateLimitRetry left' operation w'
            else (Throw e, w')
        | O => (Throw e, w')
        end
    end.

Section Runtime.
Context `{X : External}.

Definition retrying {A} (operation : App A) : App A :=
  withIbexRateLimitRetry (CUTOVER_IBEX_RATE_LIMIT_MAX_ATTEMPTS - 1) operation.

Definition readRawAccountDetails (accountId : string) : App (option js_num) :=
  retrying (getRawAccountDetails accountId).

(** [account.balance ?? 0] *)
Definition balance_or_zero (b : option js_num) : ibex_amount :=
  AmtNumber (default (num_of_Z 0) b).

Definition ibexInvoiceToDomainInvoice (bolt11 : option string) : outcome error LnInvoice :=
  match nonempty_opt bolt11 with
  | None => Err (new_error UnexpectedIbexResponse "Could not find invoice.")
  | Some s => decodeInvoice s
  end.

(** ** The runtime services *)

Definition rt_getDefaultWalletId (accountId : string) : App string :=
  let! acc := accounts_findById accountId in
  ret (a_defaultWalletId acc).

Definition rt_ensureDestinationWallet (accountId destinationUsdtWalletId : string) : App unit :=
  let! wl := addWalletIfNonexistent accountId Checking Usdt in
  if bool_decide (wl_id wl = destinationUsdtWalletId) then ret tt
  else fail (new_error0 InvalidWalletId).

Definition rt_readSourceBalanceUsdCents (m : migration) : App string :=
  let! balance := readRawAccountDetails (m_legacyUsdWalletId m) in
  lift (ibexUsdDollarsToPreciseCents (balance_or_zero balance)).

Definition rt_readDestinationBalanceUsdtMicros (m : migration) : App string :=
  let! balance := readRawAccountDetails (m_destinationUsdtWalletId m) in
  lift (ibexMajorUnitsToUsdtMicros (balance_or_zero balance)).

Definition rt_readDestinationSpendableUsdtMicros (m : migration) : App string :=
  let! balance := readRawAccountDetails (m_destinationUsdtWalletId m) in
  lift (decimalToScaledInteger_rt (balance_or_zero balance) 6 false).

Definition rt_createInvoice (recipientWalletId amount memo : string) : App LnInvoice :=
  let! usdtAmount := lift (USDT_smallestUnits (InString amount)) in
  let! bolt11 := retrying (addInvoice recipientWalletId (Some usdtAmount) memo
                             (Some CUTOVER_IBEX_INVOICE_EXPIRATION_SECONDS)) in
  lift (ibexInvoiceToDomainInvoice bolt11).

(** [USDTAmount.ZERO] *)
Definition USDT_ZERO : outcome error MoneyAmount := USDT_smallestUnits (InNumber (num_of_Z 0)).

Definition rt_createNoAmountInvoice (recipientWalletId memo : string) : App LnInvoice :=
  let! zero := lift USDT_ZERO in
  let! bolt11 := retrying (addInvoice recipientWalletId (Some zero) memo
                             (Some CUTOVER_IBEX_INVOICE_EXPIRATION_SECONDS)) in
  lift (ibexInvoiceToDomainInvoice bolt11).

(** The amount a payment is sent with, if any. *)
Definition sender_amount (senderAmountUsdCents senderAmountUsdtMicros : option string) :
    outcome error (option MoneyAmount) :=
  match senderAmountUsdCents, senderAmountUsdtMicros with
  | Some _, Some _ =>
      Err (new_error InvalidCashWalletCutoverAmountError
             "Only one explicit sender amount can be provided")
  | Some cents, None => outcome_map Some (USD_cents (InString cents))
  | None, Some micros => outcome_map Some (USDT_smallestUnits (InString micros))
  | None, None => Ok None
  end.

(** [w_paid] records the payment once IBEX has acknowledged it. *)
Definition rt_payInvoice (senderWalletId paymentRequest : string)
    (senderAmountUsdCents senderAmountUsdtMicros : option string) : App string :=
  let! send := lift (sender_amount senderAmountUsdCents senderAmountUsdtMicros) in
  let! resp := retrying (payInvoice senderWalletId paymentRequest send) in
  modify (log_payment (mkPayment senderWalletId paymentRequest senderAmountUsdCents
                         senderAmountUsdtMicros)) ;;
  match nonempty_opt (pr_transactionId resp) with
  | None => fail (new_error UnexpectedIbexResponse "Payment transaction id not found")
  | Some id => ret id
  end.

(** Both verifiers read the legacy wallet and accept dust only. *)
Definition rt_verifyLegacyDust (legacyUsdWalletId : string) : App unit :=
  let! balance := readRawAccountDetails legacyUsdWalletId in
  if hasOnlySubMicroMajorUnitDust balance then ret tt
  else fail (new_error CashWalletMigrationFailedError "Legacy USD wallet is not zero").

Definition required (f : str_field) (msg : string) (m : migration) : App string :=
  match m_str m !! f with
  | Some v => ret v
  | None => fail (new_error InvalidCashWalletMigrationTransitionError msg)
  end.

Definition rt_readFeeAmountUsdtMicros (m : migration) : App string :=
  required balanceMovePaymentTransactionId
    "balanceMovePaymentTransactionId is required before reading fee amount" m ;;
  let! target := required destinationAmountUsdtMicros
    "destinationAmountUsdtMicros is required before reading fee amount" m in
  let! starting := required destinationStartingBalanceUsdtMicros
    "destinationStartingBalanceUsdtMicros is required before reading fee amount" m in
  let! balance := readRawAccountDetails (m_destinationUsdtWalletId m) in
  let! current := lift (ibexMajorUnitsToUsdtMicros (balance_or_zero balance)) in
  lift (destinationShortfallUsdtMicros target starting current).

(** [funderWallets.filter((wallet) => wallet.currency === Usdt)] *)
Definition usdt_wallets (ws : list wallet) : list wallet :=
  List.filter (fun wl => bool_decide (wl_currency wl = Usdt)) ws.

Definition cache_treasury (id : string) : App string :=
  modify (set_treasury (Some id)) ;; ret id.

Definition rt_getTreasuryWalletId : App string :=
  let! cached := gets w_treasury in
  match cached with
  | Some id => ret id
  | None =>
      let! funderDefaultWalletId := getFunderWalletId in
      let! funderWallet := wallets_findById funderDefaultWalletId in
      if bool_decide (wl_currency funderWallet = Usdt) then cache_treasury (wl_id funderWallet)
      else
        let! funderWallets := listByAccountId (wl_accountId funderWallet) in
        match usdt_wallets funderWallets with
        | [] => fail (new_error CashWalletMigrationFailedError
            "Funder account has no USDT wallet — create and fund the cutover treasury before running the cutover (ENG-482)")
        | [wl] => cache_treasury (wl_id wl)
        | l => fail (new_error CashWalletMigrationFailedError
            ("Funder account has " +:+ bigint_toString (Z.of_nat (length l)) +:+
             " USDT wallets — resolve the duplicate before running the cutover (ENG-482)"))
        end
  end.

Definition rt_flipDefaultWallet (accountId destinationWalletId : string) : App string :=
  let! acc := accounts_findById accountId in
  updateDefaultWalletId accountId destinationWalletId ;;
  ret (a_defaultWalletId acc).

Definition createCashWalletMigrationRuntimeServices : MigrationServices := {|
  now := new_Date;
  getDefaultWalletId := rt_getDefaultWalletId;
  ensureDestinationWallet := rt_ensureDestinationWallet;
  readSourceBalanceUsdCents := rt_readSourceBalanceUsdCents;
  readDestinationBalanceUsdtMicros := rt_readDestinationBalanceUsdtMicros;
  readDestinationSpendableUsdtMicros := rt_readDestinationSpendableUsdtMicros;
  createInvoice := rt_createInvoice;
  createNoAmountInvoice := rt_createNoAmountInvoice;
  servicePayInvoice := rt_payInvoice;
  verifyBalanceMove := rt_verifyLegacyDust;
  readFeeAmountUsdtMicros := rt_readFeeAmountUsdtMicros;
  getTreasuryWalletId := rt_getTreasuryWalletId;
  flipDefaultWallet := rt_flipDefaultWallet;
  verifyLegacyWalletZero := rt_verifyLegacyDust
|}.

End Runtime.

(** ** The retry loop *)

(** The outcome and the world after the [k]-th attempt in a row, from 0. *)
Fixpoint nth_attempt `{External} {A} (k : nat) (operation : App A) (w : world) :
    outcome error A * world :=
  match k with
  | O => operation w
  | S k' => nth_attempt k' operation (operation w).2
  end.

Definition rate_limited {A} (o : outcome error A) : bool :=
  match o with Ok _ => false | Err e | Throw e => isIbexRateLimitError e end.

(** The rate-limit retry makes at most the allowed attempts and stops at
    the first one that is not refused for the rate limit: its result, returned
    or thrown, is that of the last attempt it made. *)
Theorem retry_bounded `{External} {A} (left : nat) (operation : App A) (w : world) :
  exists k, (k <= left)%nat /\
    withIbexRateLimitRetry left operation w = nth_attempt k operation w /\
    (forall j, (j < k)%nat -> rate_limited (nth_attempt j operation w).1 = true) /\
    (k = left \/ rate_limited (nth_attempt k operation w).1 = false).
Proof.
  revert w. induction left as [|left IH]; intros w.
  { exists 0%nat. split_and!; [lia| |lia|by left].
    cbn. by destruct (operation w) as [[] ?]. }
  destruct (rate_limited (operation w).1) eqn:Hr.
  - destruct (IH (operation w).2) as (k & Hk & E & Hj & Hend). exists (S k).
    split_and!; [lia| | |].
    + cbn [nth_attempt]. rewrite <- E. cbn. by destruct (operation w) as [[] ?]; cbn in Hr; rewrite ?Hr.
    + intros [|j] Hlt; [done|]. apply Hj. lia.
    + destruct Hend as [->|]; auto.
  - exists 0%nat. split_and!; [lia| |lia|by right].
    cbn. by destruct (operation w) as [[] ?]; cbn in Hr; rewrite ?Hr.
Qed.

(** ** The runtime services meet the laws *)

Section RuntimeLaws.
Context `{X : External}.

Lemma quiet_retry {A} n (c : App A) :
  guarantees quiet c -> guarantees quiet (withIbexRateLimitRetry n c).
Proof.
  intros Hc. induction n as [|n IH]; intros w; cbn; pose proof (Hc w) as H;
    destruct (c w) as [[] w']; cbn in *; try done.
  all: case_match; [etrans; [exact H|apply IH]|done].
Qed.

Lemma quiet_readRaw a : guarantees quiet (readRawAccountDetails a).
Proof. apply quiet_retry, quiet_getRawAccountDetails. Qed.

Lemma quiet_required f msg m : guarantees quiet (required f msg m).
Proof. unfold required. quiet_tac. Qed.

Lemma quiet_invoice {A} (o : outcome error A) a (f : A -> option MoneyAmount) b c :
  guarantees quiet (
    let! x := lift o in
    let! bolt11 := retrying (addInvoice a (f x) b c) in
    lift (ibexInvoiceToDomainInvoice bolt11)).
Proof.
  apply guarantees_bind; [exact _|apply guarantees_lift, _|]. intros x.
  apply guarantees_bind; [exact _|apply quiet_retry, quiet_addInvoice|].
  intros bolt11. apply guarantees_lift, _.
Qed.

Lemma quiet_getTreasury : guarantees quiet rt_getTreasuryWalletId.
Proof.
  assert (forall id, guarantees quiet (cache_treasury id)) by (intros id w; done).
  pose proof quiet_getFunderWalletId. pose proof quiet_wallets_findById.
  pose proof quiet_listByAccountId. unfold rt_getTreasuryWalletId. quiet_tac.
Qed.

(** The payment service logs what IBEX acknowledged, and nothing else. *)
Lemma rt_payInvoice_log a r c m (w : world) :
  let '(o, w') := rt_payInvoice a r c m w in
  w_migrations w' = w_migrations w /\ w_config w' = w_config w /\
  (w_paid w' = w_paid w /\ is_ok o = false \/ w_paid w' = w_paid w ++ [mkPayment a r c m]).
Proof.
  unfold rt_payInvoice, bind, lift.
  destruct (sender_amount c m) as [send|e|e]; cbn -[retrying]; [|auto..].
  assert (guarantees quiet (retrying (payInvoice a r send))) as Hq
    by apply quiet_retry, quiet_payInvoice.
  destruct (Hq w) as (E1 & E2 & E3). clear Hq.
  destruct (retrying _ w) as [[t|e|e] w']; cbn in *; [|auto..].
  destruct (nonempty_opt (pr_transactionId t)); cbn; rewrite E1, E2, E3; auto.
Qed.

#[export] Instance runtime_services_laws :
  ServicesLaws createCashWalletMigrationRuntimeServices.
Proof.
  pose proof quiet_readRaw. pose proof quiet_required. pose proof quiet_accounts_findById.
  pose proof quiet_addWalletIfNonexistent. pose proof quiet_updateDefaultWalletId.
  pose proof quiet_getTreasury.
  split; cbn; intros.
  - apply quiet_new_Date.
  - unfold rt_getDefaultWalletId. quiet_tac.
  - unfold rt_ensureDestinationWallet. quiet_tac.
  - unfold rt_readSourceBalanceUsdCents. quiet_tac.
  - unfold rt_readDestinationBalanceUsdtMicros. quiet_tac.
  - unfold rt_readDestinationSpendableUsdtMicros. quiet_tac.
  - exact (quiet_invoice (USDT_smallestUnits (InString b)) a Some c _).
  - exact (quiet_invoice USDT_ZERO a Some b _).
  - unfold rt_verifyLegacyDust. quiet_tac.
  - unfold rt_readFeeAmountUsdtMicros. quiet_tac.
  - done.
  - unfold rt_flipDefaultWallet. quiet_tac.
  - unfold rt_verifyLegacyDust. quiet_tac.
  - apply rt_payInvoice_log.
Qed.
End RuntimeLaws.
