(* ===== verification/CutoverWorker.v ===== *)
(** * Cash wallet cutover: the forward pipeline

    Model of [src/src/app/cash-wallet-cutover/worker.ts] (one function per
    step), [handlers.ts] (which step a status takes) and [executor.ts]. Each
    step checks the transition, does its work through the services and records
    it with a guarded transition. The theorems hold for any services that meet
    the laws and for any failures of the database. *)

From stdpp Require Import base gmap list strings relations.
From Stdlib Require Import ZArith Lia.
From S2P Require Import Prelude JsStrings Errors CutoverStateMachine CutoverAmounts World Ibex.
From S2P Require Import Repos CutoverRepo CutoverServices.

Open Scope Z_scope.

(** ** worker.ts *)

Definition CUTOVER_INVOICE_PAYMENT_SAFETY_WINDOW_MS : Z := 30 * 1000.
Definition CUTOVER_MIN_FIXED_USDT_INVOICE_MICROS : Z := 10000.
Definition CUTOVER_MIN_PAYABLE_USDT_MICROS : Z := 2500.

(** [BigInt(amount) < bound] after the digits test. *)
Definition below_micros (bound : Z) (feeAmountUsdtMicros : string) : outcome error bool :=
  outcome_map (fun n => n <? bound) (parseNonNegativeInteger feeAmountUsdtMicros).

Definition usesNoAmountFeeReimbursementInvoice (feeAmountUsdtMicros : string) : outcome error bool :=
  below_micros CUTOVER_MIN_FIXED_USDT_INVOICE_MICROS feeAmountUsdtMicros.

Definition isSubMinimumFeeReimbursementAmount (feeAmountUsdtMicros : string) : outcome error bool :=
  below_micros CUTOVER_MIN_PAYABLE_USDT_MICROS feeAmountUsdtMicros.

Section Worker.
Context `{X : External}.

Definition isInvoicePaymentRequestStale (paymentRequest : string) (now safetyWindowMs : Z) : bool :=
  match decodeInvoice paymentRequest with
  | Ok invoice => inv_expiresAt invoice <=? now + safetyWindowMs
  | Err _ | Throw _ => true
  end.

(** [migrationsRepo.transitionMigration] on the migration's own keys. *)
Definition transition_to (m : migration) (to : MigrationStatus) (patch : list patch_entry) :
    App migration :=
  transitionMigration (m_id m) (m_status m) to (m_cutoverVersion m) (m_runId m) patch [].

Definition startCashWalletMigration (m : migration) (startedAt_ : Z) : App migration :=
  lift (assertCanTransition (m_status m) started) ;;
  transition_to m started [PDate startedAt startedAt_].

Section Services.
Variable services : MigrationServices.

Definition provisionCashWalletMigrationDestination (m : migration) : App migration :=
  lift (assertCanTransition (m_status m) provisioned) ;;
  ensureDestinationWallet services (m_accountId m) (m_destinationUsdtWalletId m) ;;
  transition_to m provisioned [].

Definition recordCashWalletMigrationBalance (m : migration)
    (sourceBalance destinationStartingBalance : string) : App migration :=
  let! destinationAmount := lift (usdCentsToUsdtMicros sourceBalance) in
  lift (assertCanTransition (m_status m) balance_read) ;;
  transition_to m balance_read
    [PStr sourceBalanceUsdCents sourceBalance;
     PStr destinationAmountUsdtMicros destinationAmount;
     PStr destinationStartingBalanceUsdtMicros destinationStartingBalance].

(** An undefined field before it is needed. *)
Definition need (f : str_field) (c : error_class) (msg : string) (m : migration) : App string :=
  match m_str m !! f with
  | Some v => ret v
  | None => fail (new_error c msg)
  end.

Definition createCashWalletMigrationBalanceMoveInvoice (m : migration) : App migration :=
  lift (assertCanTransition (m_status m) invoice_created) ;;
  need destinationAmountUsdtMicros InvalidCashWalletCutoverAmountError
    "destinationAmountUsdtMicros is required before balance move invoice creation" m ;;
  let! invoice := createNoAmountInvoice services (m_destinationUsdtWalletId m)
                    ("cwco:" +:+ m_runId m +:+ ":" +:+ m_id m +:+ ":move") in
  transition_to m invoice_created
    [PStr balanceMoveInvoicePaymentRequest (inv_paymentRequest invoice);
     PStr balanceMoveInvoicePaymentHash (inv_paymentHash invoice)].

Definition move_request (m : migration) : App string :=
  need balanceMoveInvoicePaymentRequest InvalidCashWalletMigrationTransitionError
    "balanceMoveInvoicePaymentRequest is required before balance move payment sending" m.
Definition move_source (m : migration) : App string :=
  need sourceBalanceUsdCents InvalidCashWalletMigrationTransitionError
    "sourceBalanceUsdCents is required before balance move payment sending" m.

Definition sendCashWalletMigrationBalanceMovePayment (m : migration) : App migration :=
  lift (assertCanTransition (m_status m) balance_move_sending) ;;
  let! request := move_request m in
  move_source m ;;
  let! t := now services in
  let! payable :=
    (if isInvoicePaymentRequestStale request t CUTOVER_INVOICE_PAYMENT_SAFETY_WINDOW_MS
     then createCashWalletMigrationBalanceMoveInvoice m
     else ret m) in
  let! request := move_request payable in
  let! source := move_source payable in
  let! transactionId := servicePayInvoice services (m_legacyUsdWalletId payable) request
                          (Some source) None in
  transition_to payable balance_move_sending [PStr balanceMovePaymentTransactionId transactionId].

Definition markCashWalletMigrationBalanceMoveSent (m : migration) : App migration :=
  lift (assertCanTransition (m_status m) balance_move_sent) ;;
  need balanceMovePaymentTransactionId InvalidCashWalletMigrationTransitionError
    "balanceMovePaymentTransactionId is required before marking balance move sent" m ;;
  transition_to m balance_move_sent [].

Definition verifyCashWalletMigrationBalanceMove (m : migration) : App migration :=
  lift (assertCanTransition (m_status m) balance_move_verified) ;;
  need balanceMovePaymentTransactionId InvalidCashWalletMigrationTransitionError
    "balanceMovePaymentTransactionId is required before verifying balance move" m ;;
  verifyBalanceMove services (m_legacyUsdWalletId m) ;;
  transition_to m balance_move_verified [].

Definition createCashWalletMigrationFeeReimbursementInvoice (m : migration)
    (feeAmount : string) : App migration :=
  let! feeCents := lift (usdtMicrosToUsdCentsCeil feeAmount) in
  lift (assertCanTransition (m_status m) fee_reimbursement_invoice_created) ;;
  let! useNoAmountInvoice := lift (usesNoAmountFeeReimbursementInvoice feeAmount) in
  let memo := "cwco:" +:+ m_runId m +:+ ":" +:+ m_id m +:+ ":fee" in
  let! invoice :=
    (if useNoAmountInvoice : bool
     then createNoAmountInvoice services (m_destinationUsdtWalletId m) memo
     else createInvoice services (m_destinationUsdtWalletId m) feeAmount memo) in
  transition_to m fee_reimbursement_invoice_created
    [PStr feeAmountUsdCents feeCents; PStr feeAmountUsdtMicros feeAmount;
     PStr feeReimbursementInvoicePaymentRequest (inv_paymentRequest invoice);
     PStr feeReimbursementInvoicePaymentHash (inv_paymentHash invoice)].

Definition skipCashWalletMigrationFeeReimbursement (m : migration) (feeAmount : string) :
    App migration :=
  lift (assertCanTransition (m_status m) fee_reimbursed) ;;
  transition_to m fee_reimbursed [PStr feeAmountUsdCents "0"; PStr feeAmountUsdtMicros feeAmount].

Definition fee_request (m : migration) : App string :=
  need feeReimbursementInvoicePaymentRequest InvalidCashWalletMigrationTransitionError
    "feeReimbursementInvoicePaymentRequest is required before fee reimbursement sending" m.

Definition sendCashWalletMigrationFeeReimbursementPayment (m : migration)
    (treasuryWalletId : string) : App migration :=
  lift (assertCanTransition (m_status m) fee_reimbursement_sending) ;;
  let! request := fee_request m in
  let! t := now services in
  let! payable :=
    (if isInvoicePaymentRequestStale request t CUTOVER_INVOICE_PAYMENT_SAFETY_WINDOW_MS
     then
       let! feeAmount := need feeAmountUsdtMicros InvalidCashWalletMigrationTransitionError
         "feeAmountUsdtMicros is required before fee reimbursement invoice refresh" m in
       createCashWalletMigrationFeeReimbursementInvoice m feeAmount
     else ret m) in
  let! request := fee_request payable in
  let! feeAmount := need feeAmountUsdtMicros InvalidCashWalletMigrationTransitionError
    "feeAmountUsdtMicros is required before fee reimbursement sending" payable in
  let! useNoAmountInvoice := lift (usesNoAmountFeeReimbursementInvoice feeAmount) in
  let! transactionId := servicePayInvoice services treasuryWalletId request None
                          (if useNoAmountInvoice : bool then Some feeAmount else None) in
  transition_to payable fee_reimbursement_sending
    [PStr feeReimbursementPaymentTransactionId transactionId].

Definition markCashWalletMigrationFeeReimbursed (m : migration) : App migration :=
  lift (assertCanTransition (m_status m) fee_reimbursed) ;;
  need feeReimbursementPaymentTransactionId InvalidCashWalletMigrationTransitionError
    "feeReimbursementPaymentTransactionId is required before marking fee reimbursed" m ;;
  transition_to m fee_reimbursed [].

Definition flipCashWalletMigrationDefaultPointer (m : migration) : App migration :=
  lift (assertCanTransition (m_status m) pointer_flipped) ;;
  let! previous := flipDefaultWallet services (m_accountId m) (m_destinationUsdtWalletId m) in
  transition_to m pointer_flipped [PStr previousDefaultWalletId previous].

Definition verifyCashWalletMigrationLegacyZero (m : migration) : App migration :=
  lift (assertCanTransition (m_status m) legacy_zero_verified) ;;
  verifyLegacyWalletZero services (m_legacyUsdWalletId m) ;;
  transition_to m legacy_zero_verified [].

Definition completeCashWalletMigration (m : migration) (completedAt_ : Z) : App migration :=
  lift (assertCanTransition (m_status m) complete) ;;
  transition_to m complete [PDate completedAt completedAt_].

(** ** handlers.ts *)

Definition handle_provisioned (m : migration) : App migration :=
  let! source := readSourceBalanceUsdCents services m in
  let! starting := readDestinationBalanceUsdtMicros services m in
  recordCashWalletMigrationBalance m source starting.

Definition handle_balance_read (m : migration) : App migration :=
  if bool_decide (m_str m !! destinationAmountUsdtMicros = Some "0")
  then flipCashWalletMigrationDefaultPointer m
  else createCashWalletMigrationBalanceMoveInvoice m.

Definition handle_balance_move_verified (m : migration) : App migration :=
  let! feeAmount := readFeeAmountUsdtMicros services m in
  let! subMinimum := lift (isSubMinimumFeeReimbursementAmount feeAmount) in
  if subMinimum : bool then skipCashWalletMigrationFeeReimbursement m feeAmount
  else createCashWalletMigrationFeeReimbursementInvoice m feeAmount.

Definition handle_fee_invoice_created (m : migration) : App migration :=
  let! treasuryWalletId := getTreasuryWalletId services in
  sendCashWalletMigrationFeeReimbursementPayment m treasuryWalletId.

(** The handler of a runnable status. *)
Definition createCashWalletMigrationStepHandlers (s : MigrationStatus) :
    option (migration -> App migration) :=
  match s with
  | not_started => Some (fun m => let! t := now services in startCashWalletMigration m t)
  | started => Some provisionCashWalletMigrationDestination
  | provisioned => Some handle_provisioned
  | balance_read => Some handle_balance_read
  | invoice_created => Some sendCashWalletMigrationBalanceMovePayment
  | balance_move_sending => Some markCashWalletMigrationBalanceMoveSent
  | balance_move_sent => Some verifyCashWalletMigrationBalanceMove
  | balance_move_verified => Some handle_balance_move_verified
  | fee_reimbursement_invoice_created => Some handle_fee_invoice_created
  | fee_reimbursement_sending => Some markCashWalletMigrationFeeReimbursed
  | fee_reimbursed => Some flipCashWalletMigrationDefaultPointer
  | pointer_flipped => Some verifyCashWalletMigrationLegacyZero
  | legacy_zero_verified =>
      Some (fun m => let! t := now services in completeCashWalletMigration m t)
  | _ => None
  end.

(** ** executor.ts: [handlers[status](migration)] *)

Definition executeCashWalletMigrationStep (m : migration) : App migration :=
  if includes terminalStatuses (m_status m) then ret m
  else match createCashWalletMigrationStepHandlers (m_status m) with
       | Some handler => handler m
       | None => throw (new_error JsTypeError "handlers[migration.status] is not a function")
       end.

End Services.
End Worker.

(** ** Automation *)

(** Specialise the well-formedness of a document to its status [Hs]. *)
Ltac use_wf Hs :=
  repeat match goal with
  | H : m_status _ ∈ _ -> _ |- _ =>
      first [specialize (H ltac:(rewrite Hs; by_computation; reflexivity)) | clear H]
  | H : m_status _ = _ -> _ |- _ => first [specialize (H Hs) | clear H]
  end;
  destruct_and?; repeat match goal with H : exists _, _ |- _ => destruct H as [? H] end;
  destruct_and?.

(** A patch keeps a document well formed: clause by clause, from the document
    before and the entries of the patch. *)
Ltac wf_patch :=
  let Hw := fresh "Hw" in let Hs := fresh "Hs" in
  intros ? ? Hw Hs; destruct Hw; use_wf Hs; split; cbn; unfold has, dated in *; cbn;
  intros ?; try (exfalso; status_absurd); simplify_map_eq; eauto 10.

Section WorkerProofs.
Context `{X : External}.

Lemma guarantees_assert {A} (R : relation world) `{!PreOrder R} s t (k : App A) :
  (can_step s t -> guarantees R k) ->
  guarantees R (lift (assertCanTransition s t) ;; k).
Proof.
  intros H w. unfold bind, lift.
  destruct (assertCanTransition_lift s t) as [E|[e E]]; rewrite E; [|done].
  apply H. by apply assertCanTransition_Ok.
Qed.

Lemma mt_assert {A} s t (k : App A) P Q :
  (can_step s t -> mtriple P k Q) -> mtriple P (lift (assertCanTransition s t) ;; k) Q.
Proof.
  intros H w Hok Hp. unfold bind, lift.
  destruct (assertCanTransition_lift s t) as [E|[e E]]; rewrite E; [|by split].
  apply H; [by apply assertCanTransition_Ok|done..].
Qed.

(** A transition of the migration at hand. *)
Lemma mt_transition_to m to patch (P : gmap string migration -> Prop) :
  (forall m0 t, migration_wf m0 -> m_status m0 = m_status m ->
     migration_wf (transition_upd to patch [] t m0)) ->
  mtriple P (transition_to m to patch)
    (fun m' ms => stored m' ms /\ m_status m' = to).
Proof.
  intros H. eapply mt_conseq; [apply mt_transition| |].
  - intros ms m0 t Hp Hm Hwf Hs. by apply H.
  - exact (fun ms (Hp : P ms) => Hp).
  - intros m' ms' (ms & m0 & t & _ & _ & _ & -> & -> & Hst). cbn.
    done.
Qed.

Section Steps.
Variable services : MigrationServices.
Context {L : ServicesLaws services}.

(** What a step promises: from a stored migration in the status it handles, it
    keeps the collection well formed and returns the stored result. *)
Definition step_ok (m : migration) (c : App migration) : Prop := mtriple (stored m) c stored.

Lemma step_transition m to patch :
  (forall m0 t, migration_wf m0 -> m_status m0 = m_status m ->
     migration_wf (transition_upd to patch [] t m0)) ->
  forall P, mtriple P (transition_to m to patch) stored.
Proof.
  intros H P. eapply mt_conseq; [by apply mt_transition_to| |].
  - exact (fun ms (Hp : P ms) => Hp).
  - by intros m' ms [? _].
Qed.

Lemma mt_need {B} f c msg m (k : string -> App B) P Q :
  (forall v, m_str m !! f = Some v -> mtriple P (k v) Q) ->
  mtriple P (bind (need f c msg m) k) Q.
Proof.
  intros H. unfold need. destruct (m_str m !! f) as [v|].
  - intros w. by apply (H v).
  - intros w Hok Hp. by split.
Qed.

Lemma mt_pay {B} a r c mi (k : string -> App B) P Q :
  (forall t, mtriple P (k t) Q) -> mtriple P (bind (servicePayInvoice services a r c mi) k) Q.
Proof.
  intros H. eapply mt_bind; [|exact H]. intros w Hok Hp.
  pose proof (law_pay a r c mi w) as Hl.
  destruct (servicePayInvoice services a r c mi w) as [o w']. cbn in *.
  destruct Hl as (-> & _). by split.
Qed.

Lemma start_ok m t : m_status m = not_started -> step_ok m (startCashWalletMigration m t).
Proof. intros Hs. apply mt_assert. intros _. apply step_transition. rewrite Hs. wf_patch. Qed.

Lemma provision_ok m : m_status m = started ->
  step_ok m (provisionCashWalletMigrationDestination services m).
Proof.
  intros Hs. apply mt_assert. intros _. apply mt_quiet_bind; [apply law_ensureDestinationWallet|].
  intros _. apply step_transition. rewrite Hs. wf_patch.
Qed.

Lemma record_ok m s d : m_status m = provisioned ->
  step_ok m (recordCashWalletMigrationBalance m s d).
Proof.
  intros Hs. apply mt_lift_bind. intros amount Ha. apply mt_assert. intros _.
  apply step_transition. rewrite Hs. destruct (re_decimal s) eqn:Hd.
  - rewrite usdCentsToUsdtMicros_value in Ha by done. injection Ha as <-. wf_patch.
  - unfold usdCentsToUsdtMicros, decimalToScaledInteger, scale_decimal in Ha. by rewrite Hd in Ha.
Qed.

Lemma move_invoice_ok m : m_status m ∈ [balance_read; invoice_created] ->
  mtriple (stored m) (createCashWalletMigrationBalanceMoveInvoice services m)
    (fun m' ms => stored m' ms /\ m_status m' = invoice_created).
Proof.
  intros Hs. apply mt_assert. intros _. apply mt_need. intros _ _.
  apply mt_quiet_bind; [apply law_createNoAmountInvoice|]. intros inv.
  apply mt_transition_to.
  destruct (m_status m); status_absurd || idtac; wf_patch.
Qed.

Lemma send_move_ok m : m_status m = invoice_created ->
  step_ok m (sendCashWalletMigrationBalanceMovePayment services m).
Proof.
  intros Hs. apply mt_assert. intros _. apply mt_need. intros request _.
  apply mt_need. intros _ _. apply mt_quiet_bind; [apply law_now|]. intros t.
  eapply mt_bind with (Q := fun m' ms => stored m' ms /\ m_status m' = invoice_created).
  { case_match; [apply move_invoice_ok; rewrite Hs; by_computation; reflexivity|].
    by apply mt_ret. }
  intros m'. apply mt_need. intros request' _. apply mt_need. intros source _.
  apply mt_pay. intros tx. apply mt_pure. intros Hs'.
  apply step_transition. rewrite Hs'. wf_patch.
Qed.

Lemma mark_sent_ok m : m_status m = balance_move_sending ->
  step_ok m (markCashWalletMigrationBalanceMoveSent m).
Proof.
  intros Hs. apply mt_assert. intros _. apply mt_need. intros _ _.
  apply step_transition. rewrite Hs. wf_patch.
Qed.

Lemma verify_move_ok m : m_status m = balance_move_sent ->
  step_ok m (verifyCashWalletMigrationBalanceMove services m).
Proof.
  intros Hs. apply mt_assert. intros _. apply mt_need. intros _ _.
  apply mt_quiet_bind; [apply law_verifyBalanceMove|]. intros _.
  apply step_transition. rewrite Hs. wf_patch.
Qed.

Lemma fee_invoice_ok m fee :
  m_status m ∈ [balance_move_verified; fee_reimbursement_invoice_created] ->
  mtriple (stored m) (createCashWalletMigrationFeeReimbursementInvoice services m fee)
    (fun m' ms => stored m' ms /\ m_status m' = fee_reimbursement_invoice_created).
Proof.
  intros Hs. apply mt_lift_bind. intros cents _. apply mt_assert. intros _.
  apply mt_lift_bind. intros b _.
  apply mt_quiet_bind; [destruct b; [apply law_createNoAmountInvoice|apply law_createInvoice]|].
  intros inv. apply mt_transition_to.
  destruct (m_status m); status_absurd || idtac; wf_patch.
Qed.

Lemma send_fee_ok m tr : m_status m = fee_reimbursement_invoice_created ->
  step_ok m (sendCashWalletMigrationFeeReimbursementPayment services m tr).
Proof.
  intros Hs. apply mt_assert. intros _. apply mt_need. intros request _.
  apply mt_quiet_bind; [apply law_now|]. intros t.
  eapply mt_bind with
    (Q := fun m' ms => stored m' ms /\ m_status m' = fee_reimbursement_invoice_created).
  { case_match; [|by apply mt_ret]. apply mt_need. intros fee _.
    apply fee_invoice_ok. rewrite Hs. by_computation. reflexivity. }
  intros m'. apply mt_need. intros request' _. apply mt_need. intros fee _.
  apply mt_lift_bind. intros b _. apply mt_pay. intros tx. apply mt_pure. intros Hs'.
  apply step_transition. rewrite Hs'. wf_patch.
Qed.

Lemma mark_fee_ok m : m_status m = fee_reimbursement_sending ->
  step_ok m (markCashWalletMigrationFeeReimbursed m).
Proof.
  intros Hs. apply mt_assert. intros _. apply mt_need. intros _ _.
  apply step_transition. rewrite Hs. wf_patch.
Qed.

Lemma skip_fee_ok m fee : m_status m = balance_move_verified ->
  step_ok m (skipCashWalletMigrationFeeReimbursement m fee).
Proof. intros Hs. apply mt_assert. intros _. apply step_transition. rewrite Hs. wf_patch. Qed.

Lemma flip_ok m : m_status m ∈ [balance_read; fee_reimbursed] ->
  step_ok m (flipCashWalletMigrationDefaultPointer services m).
Proof.
  intros Hs. apply mt_assert. intros _. apply mt_quiet_bind; [apply law_flip|]. intros prev.
  apply step_transition. destruct (m_status m); status_absurd || idtac; wf_patch.
Qed.

Lemma verify_legacy_ok m : m_status m = pointer_flipped ->
  step_ok m (verifyCashWalletMigrationLegacyZero services m).
Proof.
  intros Hs. apply mt_assert. intros _. apply mt_quiet_bind; [apply law_verifyLegacy|]. intros _.
  apply step_transition. rewrite Hs. wf_patch.
Qed.

Lemma complete_ok m t : m_status m = legacy_zero_verified ->
  step_ok m (completeCashWalletMigration m t).
Proof. intros Hs. apply mt_assert. intros _. apply step_transition. rewrite Hs. wf_patch. Qed.

Lemma drop_status m c s :
  mtriple (stored m) c (fun m' ms => stored m' ms /\ m_status m' = s) -> step_ok m c.
Proof. intros H. eapply mt_conseq; [exact H|done|]. by intros m' ms [? _]. Qed.

Lemma handler_ok m h :
  createCashWalletMigrationStepHandlers services (m_status m) = Some h -> step_ok m (h m).
Proof.
  destruct (m_status m) eqn:Hs; cbn; intros [= <-].
  - apply mt_quiet_bind; [apply law_now|]. intros t. by apply start_ok.
  - by apply provision_ok.
  - apply mt_quiet_bind; [apply law_readSource|]. intros s.
    apply mt_quiet_bind; [apply law_readDestination|]. intros d. by apply record_ok.
  - unfold handle_balance_read. case_match.
    + apply flip_ok. rewrite Hs. by_computation. reflexivity.
    + eapply drop_status, move_invoice_ok. rewrite Hs. by_computation. reflexivity.
  - by apply send_move_ok.
  - by apply mark_sent_ok.
  - by apply verify_move_ok.
  - apply mt_quiet_bind; [apply law_readFee|]. intros fee. apply mt_lift_bind. intros [] _.
    + by apply skip_fee_ok.
    + eapply drop_status, fee_invoice_ok. rewrite Hs. by_computation. reflexivity.
  - apply mt_quiet_bind; [apply law_getTreasury|]. intros tr. by apply send_fee_ok.
  - by apply mark_fee_ok.
  - apply flip_ok. rewrite Hs. by_computation. reflexivity.
  - by apply verify_legacy_ok.
  - apply mt_quiet_bind; [apply law_now|]. intros t. by apply complete_ok.
Qed.

(** One step of the executor keeps the collection well formed. *)
Lemma execute_ok m : step_ok m (executeCashWalletMigrationStep services m).
Proof.
  unfold executeCashWalletMigrationStep. case_match; [by apply mt_ret|].
  destruct (createCashWalletMigrationStepHandlers services (m_status m)) as [h|] eqn:Hh.
  - by apply handler_ok.
  - apply mt_throw.
Qed.
End Steps.
End WorkerProofs.

(** ** Statuses follow the table *)

Section Evolution.
Context `{X : External}.
Variable services : MigrationServices.
Context {L : ServicesLaws services}.

Lemma guarantees_bind_result {A B} (R : relation world) `{!PreOrder R} (c : App A) (k : A -> App B) :
  guarantees R c -> (forall a w w', c w = (Ok a, w') -> guarantees R (k a)) ->
  guarantees R (bind c k).
Proof.
  intros Hc Hk w. specialize (Hc w). unfold bind.
  destruct (c w) as [[a|e|e] w'] eqn:E; cbn in *; [|done..].
  etrans; [exact Hc|by eapply Hk].
Qed.

Lemma evolving_quiet_bind R `{!PreOrder R} {A B} (c : App A) (k : A -> App B) :
  guarantees quiet c -> (forall a, guarantees (evolving R) (k a)) -> guarantees (evolving R) (bind c k).
Proof. intros Hc Hk. apply guarantees_bind; [exact _|by apply (quiet_evolving R)|done]. Qed.

Lemma evolving_lift_bind R `{!PreOrder R} {A B} (o : outcome error A) (k : A -> App B) :
  (forall a, o = Ok a -> guarantees (evolving R) (k a)) -> guarantees (evolving R) (bind (lift o) k).
Proof.
  intros H w. unfold bind, lift. destruct o as [a|e|e]; [|reflexivity..]. by apply H.
Qed.

Lemma quiet_need f c msg m : guarantees quiet (need f c msg m).
Proof. unfold need. quiet_tac. Qed.

Lemma evolving_pay R `{!PreOrder R} a r c mi : guarantees (evolving R) (servicePayInvoice services a r c mi).
Proof.
  intros w. pose proof (law_pay a r c mi w) as Hl.
  destruct (servicePayInvoice services a r c mi w) as [o w']. cbn in *.
  destruct Hl as (E & _). by apply (evolving_same R).
Qed.

Lemma evolving_transition_to m to patch :
  m_status m ∉ terminalStatuses -> to ∉ [rollback_started; rolled_back] ->
  can_step (m_status m) to -> guarantees (evolving forward_rel) (transition_to m to patch).
Proof. intros H1 H2 H3. by apply (evolving_transition forward_rel), can_step_forward. Qed.

(** Close the transition of an advanced migration to a status of the pipeline. *)
Ltac forward_transition :=
  apply evolving_transition_to; [assumption|by_computation; reflexivity|assumption].

Lemma transition_to_status m to patch w m' w' :
  transition_to m to patch w = (Ok m', w') -> m_status m' = to.
Proof. intros (m0 & t & _ & _ & -> & _)%transition_Ok. done. Qed.

Lemma move_invoice_status m w m' w' :
  createCashWalletMigrationBalanceMoveInvoice services m w = (Ok m', w') ->
  m_status m' = invoice_created.
Proof.
  unfold createCashWalletMigrationBalanceMoveInvoice. intros H.
  repeat (apply bind_Ok in H as (? & ? & ? & H)). by eapply transition_to_status.
Qed.

Lemma fee_invoice_status m fee w m' w' :
  createCashWalletMigrationFeeReimbursementInvoice services m fee w = (Ok m', w') ->
  m_status m' = fee_reimbursement_invoice_created.
Proof.
  unfold createCashWalletMigrationFeeReimbursementInvoice. intros H.
  repeat (apply bind_Ok in H as (? & ? & ? & H)). by eapply transition_to_status.
Qed.

Lemma evolving_move_invoice m : m_status m ∉ terminalStatuses ->
  guarantees (evolving forward_rel) (createCashWalletMigrationBalanceMoveInvoice services m).
Proof.
  intros Hs. apply guarantees_assert; [exact _|]. intros Hc. apply (evolving_quiet_bind forward_rel); [apply quiet_need|].
  intros _. apply (evolving_quiet_bind forward_rel); [apply law_createNoAmountInvoice|]. intros inv.
  forward_transition.
Qed.

Lemma evolving_fee_invoice m fee : m_status m ∉ terminalStatuses ->
  guarantees (evolving forward_rel) (createCashWalletMigrationFeeReimbursementInvoice services m fee).
Proof.
  intros Hs. apply (evolving_lift_bind forward_rel). intros c _. apply guarantees_assert; [exact _|]. intros Hc.
  apply (evolving_lift_bind forward_rel). intros b _.
  apply (evolving_quiet_bind forward_rel); [destruct b; [apply law_createNoAmountInvoice|apply law_createInvoice]|].
  intros inv. forward_transition.
Qed.

Lemma evolving_send_move m : m_status m ∉ terminalStatuses ->
  guarantees (evolving forward_rel) (sendCashWalletMigrationBalanceMovePayment services m).
Proof.
  intros Hs. apply guarantees_assert; [exact _|]. intros Hc. apply (evolving_quiet_bind forward_rel); [apply quiet_need|].
  intros request. apply (evolving_quiet_bind forward_rel); [apply quiet_need|]. intros _.
  apply (evolving_quiet_bind forward_rel); [apply law_now|]. intros t.
  apply guarantees_bind_result; [exact _|case_match; [by apply evolving_move_invoice|apply guarantees_ret, _]|].
  intros m' w w' Hm'. assert ((m_status m' ∉ terminalStatuses) /\ can_step (m_status m') balance_move_sending) as [Hs' Hc'].
  { case_match; [rewrite (move_invoice_status _ _ _ _ Hm'); by_computation; reflexivity|].
    unfold ret in Hm'. by simplify_eq. }
  apply (evolving_quiet_bind forward_rel); [apply quiet_need|]. intros request'.
  apply (evolving_quiet_bind forward_rel); [apply quiet_need|]. intros source.
  apply guarantees_bind; [exact _|apply (evolving_pay forward_rel)|]. intros tx. forward_transition.
Qed.

Lemma evolving_send_fee m tr : m_status m ∉ terminalStatuses ->
  guarantees (evolving forward_rel) (sendCashWalletMigrationFeeReimbursementPayment services m tr).
Proof.
  intros Hs. apply guarantees_assert; [exact _|]. intros Hc. apply (evolving_quiet_bind forward_rel); [apply quiet_need|].
  intros request. apply (evolving_quiet_bind forward_rel); [apply law_now|]. intros t.
  apply guarantees_bind_result; [exact _| |].
  { case_match; [|apply guarantees_ret, _]. apply (evolving_quiet_bind forward_rel); [apply quiet_need|].
    intros fee. by apply evolving_fee_invoice. }
  intros m' w w' Hm'. assert ((m_status m' ∉ terminalStatuses) /\ can_step (m_status m') fee_reimbursement_sending) as [Hs' Hc'].
  { case_match; [|unfold ret in Hm'; by simplify_eq].
    apply bind_Ok in Hm' as (? & ? & _ & Hm'). rewrite (fee_invoice_status _ _ _ _ _ Hm').
    by_computation. reflexivity. }
  apply (evolving_quiet_bind forward_rel); [apply quiet_need|]. intros request'.
  apply (evolving_quiet_bind forward_rel); [apply quiet_need|]. intros fee.
  apply (evolving_lift_bind forward_rel). intros b _.
  apply guarantees_bind; [exact _|apply (evolving_pay forward_rel)|]. intros tx. forward_transition.
Qed.

(** Steps that assert, do quiet work and transition. *)
Ltac evolving_step :=
  repeat first
    [ progress cbv zeta
    | match goal with |- forall _, _ => intros ? end
    | apply guarantees_assert; [exact _|]
    | (apply (evolving_quiet_bind forward_rel); [first [apply quiet_need | apply law_now
        | apply law_ensureDestinationWallet | apply law_verifyBalanceMove | apply law_flip
        | apply law_verifyLegacy | apply law_readSource | apply law_readDestination
        | apply law_readFee | apply law_getTreasury]|])
    | apply (evolving_lift_bind forward_rel)
    | forward_transition ].

Lemma evolving_flip m : m_status m ∉ terminalStatuses -> guarantees (evolving forward_rel) (flipCashWalletMigrationDefaultPointer services m).
Proof. intros Hs. unfold flipCashWalletMigrationDefaultPointer. evolving_step. Qed.

Lemma evolving_handler s h m : m_status m ∉ terminalStatuses ->
  createCashWalletMigrationStepHandlers services s = Some h -> guarantees (evolving forward_rel) (h m).
Proof.
  intros Hs. destruct s; cbn; intros [= <-].
  - unfold startCashWalletMigration. evolving_step.
  - unfold provisionCashWalletMigrationDestination. evolving_step.
  - unfold handle_provisioned, recordCashWalletMigrationBalance. evolving_step.
  - unfold handle_balance_read. case_match; [by apply evolving_flip|by apply evolving_move_invoice].
  - by apply evolving_send_move.
  - unfold markCashWalletMigrationBalanceMoveSent. evolving_step.
  - unfold verifyCashWalletMigrationBalanceMove. evolving_step.
  - unfold handle_balance_move_verified, skipCashWalletMigrationFeeReimbursement. evolving_step.
    case_match; [evolving_step|by apply evolving_fee_invoice].
  - apply (evolving_quiet_bind forward_rel); [apply law_getTreasury|]. intros tr. by apply evolving_send_fee.
  - unfold markCashWalletMigrationFeeReimbursed. evolving_step.
  - by apply evolving_flip.
  - unfold verifyCashWalletMigrationLegacyZero. evolving_step.
  - unfold completeCashWalletMigration. evolving_step.
Qed.

Lemma evolving_execute m : guarantees (evolving forward_rel) (executeCashWalletMigrationStep services m).
Proof.
  unfold executeCashWalletMigrationStep, includes.
  destruct (bool_decide_reflect (m_status m ∈ terminalStatuses)) as [|Hs]; [apply guarantees_ret, _|].
  destruct (createCashWalletMigrationStepHandlers services (m_status m)) as [h|] eqn:Hh.
  - by eapply evolving_handler.
  - apply guarantees_throw, _.
Qed.
End Evolution.

(** ** A step changes its own document only *)

Section StepFrames.
Context `{X : External}.
Variable services : MigrationServices.
Context {L : ServicesLaws services}.

Lemma fr_pay_bind {B} ids a r c mi (k : string -> App B) R :
  (forall t, frames ids (k t) R) -> frames ids (bind (servicePayInvoice services a r c mi) k) R.
Proof.
  intros Hk. apply (fr_bind _ _ _ (fun _ => True)); [|by intros t _]. intros w Hw.
  pose proof (law_pay a r c mi w) as Hl. destruct (servicePayInvoice services a r c mi w) as [o w'].
  destruct Hl as (E & _). cbn. rewrite E. by split_and!.
Qed.

Definition own_document (m : migration) (c : App migration) : Prop :=
  frames [m_id m] c (fun m' => m_id m' = m_id m).

Lemma own_transition m m' to patch : m_id m' = m_id m -> own_document m (transition_to m' to patch).
Proof. intros E. unfold own_document. rewrite <- E. apply fr_transition. Qed.

(** The steps read, assert, pay and make transitions of their document. *)
Ltac own_step :=
  repeat first
    [ progress cbv zeta
    | match goal with |- forall _, _ => intros ? end
    | apply own_transition; congruence
    | apply fr_lift_bind
    | apply fr_pay_bind
    | (apply fr_quiet_bind; [first [apply quiet_need | apply law_now
        | apply law_ensureDestinationWallet | apply law_verifyBalanceMove | apply law_flip
        | apply law_verifyLegacy | apply law_readSource | apply law_readDestination
        | apply law_readFee | apply law_getTreasury | apply law_createNoAmountInvoice
        | apply law_createInvoice]|]) ].

Lemma own_move_invoice m : own_document m (createCashWalletMigrationBalanceMoveInvoice services m).
Proof. unfold createCashWalletMigrationBalanceMoveInvoice. own_step. Qed.

Lemma own_fee_invoice m fee : own_document m (createCashWalletMigrationFeeReimbursementInvoice services m fee).
Proof.
  unfold createCashWalletMigrationFeeReimbursementInvoice. own_step.
  apply fr_quiet_bind; [case_match; [apply law_createNoAmountInvoice|apply law_createInvoice]|]. own_step.
Qed.

Lemma own_send_move m : own_document m (sendCashWalletMigrationBalanceMovePayment services m).
Proof.
  unfold sendCashWalletMigrationBalanceMovePayment, move_request, move_source. own_step.
  apply (fr_bind _ _ _ (fun m' => m_id m' = m_id m)); [case_match; [apply own_move_invoice|by apply fr_ret]|].
  own_step.
Qed.

Lemma own_send_fee m tr : own_document m (sendCashWalletMigrationFeeReimbursementPayment services m tr).
Proof.
  unfold sendCashWalletMigrationFeeReimbursementPayment, fee_request. own_step.
  apply (fr_bind _ _ _ (fun m' => m_id m' = m_id m)); [case_match; [|by apply fr_ret]|own_step].
  apply fr_quiet_bind; [apply quiet_need|]. intros fee. apply own_fee_invoice.
Qed.

Lemma own_handler s h m : createCashWalletMigrationStepHandlers services s = Some h -> own_document m (h m).
Proof.
  destruct s; cbn; intros [= <-].
  - unfold startCashWalletMigration. own_step.
  - unfold provisionCashWalletMigrationDestination. own_step.
  - unfold handle_provisioned, recordCashWalletMigrationBalance. own_step.
  - unfold handle_balance_read, flipCashWalletMigrationDefaultPointer.
    case_match; [own_step|apply own_move_invoice].
  - apply own_send_move.
  - unfold markCashWalletMigrationBalanceMoveSent. own_step.
  - unfold verifyCashWalletMigrationBalanceMove. own_step.
  - unfold handle_balance_move_verified, skipCashWalletMigrationFeeReimbursement. own_step.
    case_match; [own_step|apply own_fee_invoice].
  - apply fr_quiet_bind; [apply law_getTreasury|]. intros tr. apply own_send_fee.
  - unfold markCashWalletMigrationFeeReimbursed. own_step.
  - unfold flipCashWalletMigrationDefaultPointer. own_step.
  - unfold verifyCashWalletMigrationLegacyZero. own_step.
  - unfold completeCashWalletMigration. own_step.
Qed.

Lemma own_execute m : own_document m (executeCashWalletMigrationStep services m).
Proof.
  unfold executeCashWalletMigrationStep. case_match; [by apply fr_ret|].
  destruct (createCashWalletMigrationStepHandlers services (m_status m)) as [h|] eqn:Hh.
  - by eapply own_handler.
  - apply fr_throw.
Qed.
End StepFrames.

(** ** Payments *)

Definition same_paid `{X : External} (w w' : world) : Prop := w_paid w' = w_paid w.

#[export] Instance same_paid_preorder `{X : External} : PreOrder same_paid.
Proof. split; [done|]. unfold same_paid. intros w1 w2 w3 H1 H2. congruence. Qed.

(** From a collection satisfying [Pre], [c] makes at most one payment, one of
    those [P] allows. *)
Definition pays `{X : External} {A} (Pre : gmap string migration -> Prop) (c : App A)
    (P : payment -> Prop) : Prop :=
  forall w, Pre (w_migrations w) ->
    w_paid (c w).2 = w_paid w \/ exists p, P p /\ w_paid (c w).2 = w_paid w ++ [p].

Section Pays.
Context `{X : External}.
Variable services : MigrationServices.
Context {L : ServicesLaws services}.

Lemma quiet_same_paid {A} (c : App A) : guarantees quiet c -> guarantees same_paid c.
Proof. intros H w. by destruct (H w) as (_ & _ & ?). Qed.

Lemma same_paid_mongo {A} (op : world -> outcome error A * world) :
  (forall w, same_paid w (op w).2) -> guarantees same_paid (mongo op).
Proof.
  intros H w. unfold mongo. pose proof (H (next_op w)) as H'.
  destruct (mongo_fault (w_ops w)) as [[]|]; done.
Qed.

Lemma same_paid_update id filter upd : guarantees same_paid (mongo (find_and_update id filter upd)).
Proof.
  apply same_paid_mongo. intros w. unfold find_and_update. by repeat case_match.
Qed.

Lemma same_paid_transition id from to v r patch clear :
  guarantees same_paid (transitionMigration id from to v r patch clear).
Proof.
  unfold transitionMigration, guarded. apply guarantees_catch; [exact _| |intros; apply guarantees_fail, _].
  apply guarantees_bind; [exact _|apply quiet_same_paid, quiet_new_Date|]. intros t.
  apply guarantees_bind; [exact _|apply same_paid_update|]. intros res.
  unfold updated_or. case_match; [apply guarantees_ret, _|apply guarantees_fail, _].
Qed.

Lemma pays_none {A} Pre (c : App A) P : guarantees same_paid c -> pays Pre c P.
Proof. intros H w _. left. apply H. Qed.

Lemma pays_quiet_bind {A B} Pre (c : App A) (k : A -> App B) P :
  guarantees quiet c -> (forall a, pays Pre (k a) P) -> pays Pre (bind c k) P.
Proof.
  intros Hc Hk w Hp. destruct (Hc w) as (E1 & _ & E3). unfold bind.
  destruct (c w) as [[a|e|e] w']; cbn in *; [|by left..].
  rewrite <- E3. apply Hk. by rewrite E1.
Qed.

Lemma pays_lift_bind {A B} Pre (o : outcome error A) (k : A -> App B) P :
  (forall a, o = Ok a -> pays Pre (k a) P) -> pays Pre (bind (lift o) k) P.
Proof.
  intros H w Hp. unfold bind, lift. destruct o as [a|e|e]; [|by left..]. by apply H.
Qed.

Lemma pays_need {B} Pre f c msg m (k : string -> App B) P :
  (forall v, m_str m !! f = Some v -> pays Pre (k v) P) -> pays Pre (bind (need f c msg m) k) P.
Proof.
  intros H w Hp. unfold need. destruct (m_str m !! f) as [v|]; [|by left].
  by apply (H v).
Qed.

(** A call before the payment whose result matters. *)
Lemma pays_bind {A B} (Pre : gmap string migration -> Prop) (c : App A) (k : A -> App B) P :
  guarantees same_paid c ->
  (forall a w w', Pre (w_migrations w) -> c w = (Ok a, w') -> pays (fun _ => True) (k a) P) ->
  pays Pre (bind c k) P.
Proof.
  intros Hc Hk w Hp. specialize (Hc w). unfold bind.
  destruct (c w) as [[a|e|e] w'] eqn:E; cbn in *; [|by left..].
  rewrite <- Hc. by apply (Hk a w w').
Qed.

Lemma pays_pay {B} Pre a r c m (k : string -> App B) (P : payment -> Prop) :
  P (mkPayment a r c m) -> (forall t, guarantees same_paid (k t)) ->
  pays Pre (bind (servicePayInvoice services a r c m) k) P.
Proof.
  intros HP Hk w _. pose proof (law_pay a r c m w) as Hl. unfold bind.
  destruct (servicePayInvoice services a r c m w) as [o w'].
  destruct Hl as (_ & _ & [[E Ho]|E]).
  - left. by destruct o.
  - right. exists (mkPayment a r c m). split; [done|].
    destruct o as [t|e|e]; cbn; [|done..]. rewrite <- E. apply Hk.
Qed.

Lemma same_paid_move_invoice m :
  guarantees same_paid (createCashWalletMigrationBalanceMoveInvoice services m).
Proof.
  apply guarantees_assert; [exact _|]. intros _.
  apply guarantees_bind; [exact _|apply quiet_same_paid, quiet_need|]. intros _.
  apply guarantees_bind; [exact _|apply quiet_same_paid, law_createNoAmountInvoice|]. intros inv.
  apply same_paid_transition.
Qed.

Lemma same_paid_fee_invoice m fee :
  guarantees same_paid (createCashWalletMigrationFeeReimbursementInvoice services m fee).
Proof.
  apply guarantees_bind; [exact _|apply guarantees_lift, _|]. intros c.
  apply guarantees_assert; [exact _|]. intros _.
  apply guarantees_bind; [exact _|apply guarantees_lift, _|]. intros b.
  apply guarantees_bind; [exact _| |intros inv; apply same_paid_transition].
  apply quiet_same_paid. destruct b; [apply law_createNoAmountInvoice|apply law_createInvoice].
Qed.

(** Refreshing the invoice of a stored migration changes neither its wallets
    nor its amounts. *)
Lemma move_invoice_keeps m w m' w' : stored m (w_migrations w) ->
  createCashWalletMigrationBalanceMoveInvoice services m w = (Ok m', w') ->
  m_legacyUsdWalletId m' = m_legacyUsdWalletId m /\
  m_str m' !! sourceBalanceUsdCents = m_str m !! sourceBalanceUsdCents.
Proof.
  intros Hm H. unfold createCashWalletMigrationBalanceMoveInvoice in H.
  apply bind_Ok in H as (? & w1 & H1 & H). unfold lift in H1. injection H1 as _ <-.
  apply bind_Ok in H as (? & w2 & H2 & H).
  pose proof (quiet_run _ _ _ _ (quiet_need _ _ _ _) H2) as [Q2 _].
  apply bind_Ok in H as (inv & w3 & H3 & H).
  pose proof (quiet_run _ _ _ _ (law_createNoAmountInvoice _ _) H3) as [Q3 _].
  apply transition_Ok in H as (m0 & t & Hm0 & _ & -> & _).
  cbn in *. unfold stored in Hm.
  assert (m0 = m) as -> by congruence. cbn. split; [done|]. by simplify_map_eq.
Qed.

Lemma fee_invoice_keeps m fee w m' w' :
  createCashWalletMigrationFeeReimbursementInvoice services m fee w = (Ok m', w') ->
  m_str m' !! feeAmountUsdtMicros = Some fee.
Proof.
  intros H. unfold createCashWalletMigrationFeeReimbursementInvoice in H.
  repeat (apply bind_Ok in H as (? & ? & ? & H)).
  apply transition_Ok in H as (m0 & t & _ & _ & -> & _). cbn. by simplify_map_eq.
Qed.
End Pays.

(** The payment a step may make: the balance move, from the legacy wallet and
    for exactly the balance recorded, or the fee reimbursement, for the fee
    recorded, with an explicit amount exactly when the invoice carries none. *)
Definition forward_payment (m : migration) (p : payment) : Prop :=
  (m_status m = invoice_created /\ p_sender p = m_legacyUsdWalletId m /\
   p_usdCents p = m_str m !! sourceBalanceUsdCents /\ has sourceBalanceUsdCents m /\
   p_usdtMicros p = None) \/
  (m_status m = fee_reimbursement_invoice_created /\ p_usdCents p = None /\
   exists fee n, m_str m !! feeAmountUsdtMicros = Some fee /\
     parseNonNegativeInteger fee = Ok n /\
     p_usdtMicros p = if n <? CUTOVER_MIN_FIXED_USDT_INVOICE_MICROS then Some fee else None).

Section ForwardPayments.
Context `{X : External}.
Variable services : MigrationServices.
Context {L : ServicesLaws services}.

Lemma pays_send_move m : m_status m = invoice_created ->
  pays (stored m) (sendCashWalletMigrationBalanceMovePayment services m) (forward_payment m).
Proof.
  intros Hs. apply pays_lift_bind. intros _ _. apply pays_need. intros request _.
  apply pays_need. intros src Hsrc. apply pays_quiet_bind; [apply law_now|]. intros t.
  apply pays_bind.
  { case_match; [by apply same_paid_move_invoice|apply guarantees_ret, _]. }
  intros m' w w' Hm E.
  assert (m_legacyUsdWalletId m' = m_legacyUsdWalletId m /\
          m_str m' !! sourceBalanceUsdCents = m_str m !! sourceBalanceUsdCents) as [K1 K2].
  { case_match; [by eapply move_invoice_keeps|]. unfold ret in E. by simplify_eq. }
  apply pays_need. intros request' _. apply pays_need. intros src' Hsrc'.
  apply pays_pay; [exact _| |intros tx; apply same_paid_transition].
  left. cbn. split_and!; try done; [congruence|]. unfold has. eauto.
Qed.

Lemma pays_send_fee m tr : m_status m = fee_reimbursement_invoice_created ->
  pays (stored m) (sendCashWalletMigrationFeeReimbursementPayment services m tr) (forward_payment m).
Proof.
  intros Hs. apply pays_lift_bind. intros _ _. apply pays_need. intros request _.
  apply pays_quiet_bind; [apply law_now|]. intros t.
  apply pays_bind.
  { case_match; [|apply guarantees_ret, _].
    apply guarantees_bind; [exact _|apply quiet_same_paid, quiet_need|].
    intros fee. by apply same_paid_fee_invoice. }
  intros m' w w' Hm E.
  assert (forall fee, m_str m' !! feeAmountUsdtMicros = Some fee ->
            m_str m !! feeAmountUsdtMicros = Some fee) as K.
  { case_match; [|unfold ret in E; by simplify_eq]. intros fee Hfee.
    apply bind_Ok in E as (fee' & w1 & H1 & E). apply fee_invoice_keeps in E.
    unfold need in H1. case_match; [|done]. unfold ret in H1. by simplify_eq. }
  apply pays_need. intros request' _. apply pays_need. intros fee Hfee.
  apply pays_lift_bind. intros b Hb.
  apply pays_pay; [exact _| |intros tx; apply same_paid_transition].
  right. cbn. split; [done|]. split; [done|]. exists fee.
  unfold usesNoAmountFeeReimbursementInvoice, below_micros, outcome_map in Hb.
  destruct (parseNonNegativeInteger fee) as [n|e|e]; [|done..]. exists n.
  split_and!; [by apply K|done|]. by injection Hb as <-.
Qed.

(** Every other handler asserts, does quiet work and transitions. *)
Ltac unpaid_step :=
  apply pays_none;
  repeat first
    [ progress cbv zeta
    | match goal with |- forall _, _ => intros ? end
    | by apply same_paid_move_invoice
    | by apply same_paid_fee_invoice
    | apply guarantees_assert; [exact _|]
    | apply same_paid_transition
    | (apply guarantees_bind; [exact _|apply quiet_same_paid; first [apply quiet_need | apply law_now
        | apply law_ensureDestinationWallet | apply law_verifyBalanceMove | apply law_flip
        | apply law_verifyLegacy | apply law_readSource | apply law_readDestination
        | apply law_readFee]|])
    | (apply guarantees_bind; [exact _|apply guarantees_lift, _|])
    | progress case_match ].

Lemma pays_execute m :
  pays (stored m) (executeCashWalletMigrationStep services m) (forward_payment m).
Proof.
  unfold executeCashWalletMigrationStep. case_match; [apply pays_none, guarantees_ret, _|].
  destruct (m_status m) eqn:Hs; cbn; try (apply pays_none, guarantees_throw, _).
  5: by apply pays_send_move.
  8: { apply pays_quiet_bind; [apply law_getTreasury|]. intros tr. by apply pays_send_fee. }
  all: unfold startCashWalletMigration, provisionCashWalletMigrationDestination,
    handle_provisioned, recordCashWalletMigrationBalance, handle_balance_read,
    flipCashWalletMigrationDefaultPointer, markCashWalletMigrationBalanceMoveSent,
    verifyCashWalletMigrationBalanceMove, handle_balance_move_verified,
    skipCashWalletMigrationFeeReimbursement, markCashWalletMigrationFeeReimbursed,
    verifyCashWalletMigrationLegacyZero, completeCashWalletMigration, transition_to.
  all: unpaid_step.
Qed.
(** What one step of the pipeline pays. A step makes at most one payment,
    and only the two sending steps make one: the balance move pays the
    recorded balance out of the legacy wallet, and the fee step pays the
    recorded fee. *)
Theorem forward_step_payments (m : migration) (w : world) :
  w_migrations w !! m_id m = Some m ->
  let w' := (executeCashWalletMigrationStep services m w).2 in
  w_paid w' = w_paid w \/ exists p, forward_payment m p /\ w_paid w' = w_paid w ++ [p].
Proof. intros Hm. exact (pays_execute m w Hm). Qed.
End ForwardPayments.

(** ** Progress *)

Section Progress.
Context `{X : External}.
Variable services : MigrationServices.

(** The last bind of a step is its transition. *)
Ltac step_status :=
  match goal with
  | H : bind _ _ _ = (Ok _, _) |- _ =>
      apply bind_Ok in H as (? & ? & _ & H); step_status
  | H : transition_to _ _ _ _ = (Ok _, _) |- _ => apply transition_to_status in H
  | H : (if ?b then _ else _) _ = (Ok _, _) |- _ => destruct b; step_status
  | _ => idtac
  end.

(** C26: every step that succeeds moves its migration strictly forward in the
    pipeline, so a migration completes after at most thirteen of them; a
    terminal migration is returned as it is. *)
Theorem step_advances (m m' : migration) (w w' : world) :
  executeCashWalletMigrationStep services m w = (Ok m', w') ->
  if includes terminalStatuses (m_status m) then m' = m /\ w' = w
  else stage (m_status m) < stage (m_status m') <= 13.
Proof.
  unfold executeCashWalletMigrationStep.
  destruct (includes terminalStatuses (m_status m)) eqn:Ht.
  { unfold ret. by intros [= -> ->]. }
  intros H. destruct (m_status m); cbn [createCashWalletMigrationStepHandlers] in H;
    try discriminate H; clear Ht.
  all: unfold startCashWalletMigration, provisionCashWalletMigrationDestination,
    handle_provisioned, recordCashWalletMigrationBalance, handle_balance_read,
    sendCashWalletMigrationBalanceMovePayment, createCashWalletMigrationBalanceMoveInvoice,
    flipCashWalletMigrationDefaultPointer, markCashWalletMigrationBalanceMoveSent,
    verifyCashWalletMigrationBalanceMove, handle_balance_move_verified,
    handle_fee_invoice_created, sendCashWalletMigrationFeeReimbursementPayment,
    createCashWalletMigrationFeeReimbursementInvoice,
    skipCashWalletMigrationFeeReimbursement, markCashWalletMigrationFeeReimbursed,
    verifyCashWalletMigrationLegacyZero, completeCashWalletMigration in H.
  all: step_status; rewrite H; cbn; lia.
Qed.

(** The fee policy. With a fee of [n] millionths to reimburse, the step
    after the balance move absorbs it below the payable minimum of 2500,
    recording it and leaving nothing to pay, and otherwise prepares its
    reimbursement, recording the fee and the least whole cents covering it. *)
Theorem fee_policy (m m' : migration) (n : Z) (w w1 w' : world) :
  0 <= n ->
  readFeeAmountUsdtMicros services m w = (Ok (bigint_toString n), w1) ->
  handle_balance_move_verified services m w = (Ok m', w') ->
  m_str m' !! feeAmountUsdtMicros = Some (bigint_toString n) /\
  if n <? 2500
  then m_status m' = fee_reimbursed /\ m_str m' !! feeAmountUsdCents = Some "0"
  else m_status m' = fee_reimbursement_invoice_created /\
       exists c, m_str m' !! feeAmountUsdCents = Some (bigint_toString c) /\
         (c - 1) * 10000 < n <= c * 10000.
Proof.
  intros Hn Hr H. unfold handle_balance_move_verified in H.
  apply bind_Ok in H as (fee & w2 & Hfee & H). rewrite Hr in Hfee. injection Hfee as <- <-.
  unfold isSubMinimumFeeReimbursementAmount, below_micros in H.
  rewrite parse_print in H by done. cbn [outcome_map] in H.
  apply bind_Ok in H as (b & w3 & Hb & H). unfold lift in Hb. injection Hb as <- <-.
  unfold CUTOVER_MIN_PAYABLE_USDT_MICROS in H. destruct (n <? 2500).
  - apply bind_Ok in H as (? & w4 & _ & H).
    apply transition_Ok in H as (m0 & t & _ & _ & -> & _). cbn. by simplify_map_eq.
  - apply bind_Ok in H as (c & w4 & Hc & H). unfold lift in Hc. injection Hc as Hc _.
    apply bind_Ok in H as (? & w5 & _ & H). apply bind_Ok in H as (? & w6 & _ & H).
    apply bind_Ok in H as (inv & w7 & _ & H).
    apply transition_Ok in H as (m0 & t & _ & _ & -> & _). cbn.
    split; [by simplify_map_eq|]. split; [done|].
    rewrite usdtMicrosToUsdCentsCeil_value in Hc by done. injection Hc as <-.
    exists (ceil_cents n). split; [by simplify_map_eq|]. by apply ceil_cents_bounds.
Qed.
End Progress.
