(* ===== verification/CutoverRunner.v ===== *)
(** * Cash wallet cutover: batches

    Model of [src/src/app/cash-wallet-cutover/runner.ts], the batch loop shared
    by the forward pipeline and the rollback, and of [orchestrator.ts], which
    runs the pipeline on the real repository and services. A batch lists its
    work, and for each migration takes the lock, executes one step, and then
    releases the lock or marks the failure. The theorems hold for every
    behaviour of the database, of IBEX and of the clock. *)

From stdpp Require Import base gmap list strings relations.
From Stdlib Require Import ZArith Lia.
From S2P Require Import Prelude JsStrings Errors CutoverStateMachine World Ibex Repos CutoverRepo.
From S2P Require Import CutoverServices CutoverWorker.

Open Scope Z_scope.

Record batch_result := mkBatch {
  b_attempted : Z;
  b_advanced : Z;
  b_failed : Z;
  b_skipped : Z
}.

Section Runner.
Context `{X : External}.

Section Batch.
Variables (cutoverVersion : Z) (runId workerId : string) (lockStaleBefore : Z).
(** The parts of the repository a rollback batch replaces, and the executor. *)
Variable listWork : App (list migration).
Variable markFailed : string -> error -> MigrationStatus -> App migration.
Variable executor : migration -> App migration.

(** One turn of the loop. The result of releasing the lock is ignored; the
    pause between steps has no effect here. *)
Definition batch_turn (result : batch_result) (m : migration) : App batch_result :=
  let '(mkBatch attempted advanced failed_ skipped) := result in
  let! locked := attempt (acquireMigrationLock (m_id m) workerId lockStaleBefore cutoverVersion runId) in
  match locked with
  | inl _ => ret (mkBatch (attempted + 1) advanced failed_ (skipped + 1))
  | inr locked =>
      let! step := attempt (executor locked) in
      match step with
      | inl e =>
          markFailed (m_id locked) e (failureStatusForMigration (m_status locked)) ;;
          ret (mkBatch (attempted + 1) advanced (failed_ + 1) skipped)
      | inr _ =>
          attempt (releaseMigrationLock (m_id locked) workerId cutoverVersion runId) ;;
          ret (mkBatch (attempted + 1) (advanced + 1) failed_ skipped)
      end
  end.

Definition runCashWalletMigrationBatch : App batch_result :=
  let! migrations := listWork in
  fold_m batch_turn (mkBatch 0 0 0 0) migrations.

(** ** What a batch guarantees *)

Lemma mt_turn result m :
  (forall l, mtriple (stored l) (executor l) stored) ->
  (forall id e s, mtriple (fun _ => True) (markFailed id e (failureStatusForMigration s))
     (fun _ _ => True)) ->
  mtriple (fun _ => True) (batch_turn result m) (fun _ _ => True).
Proof.
  intros He Hm. destruct result as [a b c d]. unfold batch_turn.
  eapply mt_bind; [apply mt_attempt, (mt_acquire _ _ _ _ _ (fun _ => True))|].
  intros [e|l]; [by apply mt_ret|].
  eapply mt_bind with (Q := fun _ _ => True).
  { eapply mt_conseq; [apply mt_attempt, He|by intros ms (? & _)|done]. }
  intros [e|m'].
  - eapply mt_bind; [apply Hm|]. intros ?. by apply mt_ret.
  - eapply mt_bind; [apply mt_attempt, mt_release|]. intros ?. by apply mt_ret.
Qed.

Lemma mt_batch :
  guarantees quiet listWork ->
  (forall l, mtriple (stored l) (executor l) stored) ->
  (forall id e s, mtriple (fun _ => True) (markFailed id e (failureStatusForMigration s))
     (fun _ _ => True)) ->
  mtriple (fun _ => True) runCashWalletMigrationBatch (fun _ _ => True).
Proof.
  intros Hl He Hm. eapply mt_bind; [by apply mt_quiet|]. intros ms.
  apply (mt_fold _ (fun _ _ _ => True)). intros x l s. by apply mt_turn.
Qed.

(** A turn changes the document of its migration only. *)
Lemma fr_turn result m :
  (forall l, frames [m_id l] (executor l) (fun _ => True)) ->
  (forall id e s, frames [id] (markFailed id e s) (fun _ => True)) ->
  frames [m_id m] (batch_turn result m) (fun _ => True).
Proof.
  intros He Hm. destruct result as [a b c d]. unfold batch_turn.
  eapply fr_bind; [apply fr_attempt, fr_acquire|]. cbv beta.
  intros [e|l] Hl; [by apply fr_ret|]. rewrite <- Hl.
  eapply fr_bind; [apply fr_attempt, He|]. cbv beta. intros [e|m'] _.
  - eapply fr_bind; [apply Hm|]. intros ? _. by apply fr_ret.
  - eapply fr_bind; [apply fr_attempt, fr_release|]. intros ? _. by apply fr_ret.
Qed.

Lemma evolving_turn R `{!PreOrder R} result m :
  (forall l, guarantees (evolving R) (executor l)) ->
  (forall id e s, guarantees (evolving R) (markFailed id e (failureStatusForMigration s))) ->
  guarantees (evolving R) (batch_turn result m).
Proof.
  intros He Hm. destruct result as [a b c d]. unfold batch_turn.
  apply guarantees_bind; [exact _|apply guarantees_attempt, (evolving_acquire R)|].
  intros [e|l]; [apply guarantees_ret, _|].
  apply guarantees_bind; [exact _|apply guarantees_attempt, He|].
  intros [e|m']; (apply guarantees_bind; [exact _| |intros ?; apply guarantees_ret, _]).
  - apply Hm.
  - apply guarantees_attempt, (evolving_release R).
Qed.

Lemma evolving_batch R `{!PreOrder R} :
  guarantees quiet listWork ->
  (forall l, guarantees (evolving R) (executor l)) ->
  (forall id e s, guarantees (evolving R) (markFailed id e (failureStatusForMigration s))) ->
  guarantees (evolving R) runCashWalletMigrationBatch.
Proof.
  intros Hl He Hm. apply guarantees_bind; [exact _|by apply (quiet_evolving R)|]. intros ms.
  apply guarantees_fold_m; [exact _|]. intros s x. by apply (evolving_turn R).
Qed.

Definition accounted (r : batch_result) : Prop :=
  b_attempted r = b_advanced r + b_failed r + b_skipped r.

Lemma turn_accounts r m w r' w' : batch_turn r m w = (Ok r', w') ->
  accounted r -> accounted r' /\ b_attempted r' = b_attempted r + 1.
Proof.
  destruct r as [a b c d]. unfold accounted, batch_turn. intros H Ha. cbn in Ha.
  apply bind_Ok in H as (o & w1 & _ & H).
  destruct o as [e|l]; [unfold ret in H; simplify_eq/=; lia|].
  apply bind_Ok in H as (st & w2 & _ & H).
  destruct st as [e|m']; apply bind_Ok in H as (? & w3 & _ & H); unfold ret in H; simplify_eq/=; lia.
Qed.

Lemma fold_accounts l r w r' w' : fold_m batch_turn r l w = (Ok r', w') ->
  accounted r -> accounted r' /\ b_attempted r' = b_attempted r + Z.of_nat (length l).
Proof.
  revert r w. induction l as [|m l IH]; intros r w H Ha; cbn [fold_m] in H.
  - unfold ret in H. simplify_eq. cbn. split; [done|lia].
  - apply bind_Ok in H as (r1 & w1 & H1 & H).
    destruct (turn_accounts _ _ _ _ _ H1 Ha) as [Ha1 E1].
    destruct (IH _ _ H Ha1) as [? E2]. split; [done|]. cbn [length]. lia.
Qed.

(** The report of a batch is an account of its work list: every migration
    listed was attempted, and each attempt either advanced, failed or was
    skipped because the lock was taken. *)
Theorem batch_report (w w' : world) (r : batch_result) :
  runCashWalletMigrationBatch w = (Ok r, w') ->
  b_attempted r = b_advanced r + b_failed r + b_skipped r /\
  exists ms w1, listWork w = (Ok ms, w1) /\ b_attempted r = Z.of_nat (length ms).
Proof.
  unfold runCashWalletMigrationBatch. intros (ms & w1 & H1 & H2)%bind_Ok.
  apply fold_accounts in H2 as [Ha E]; [|done]. split; [done|]. exists ms, w1.
  split; [done|]. cbn in E. lia.
Qed.
End Batch.

(** ** orchestrator.ts *)

Definition runPrimaryCashWalletCutoverBatch (services : MigrationServices) (cutoverVersion : Z)
    (runId workerId : string) (limit : option nat) (lockStaleBefore : Z) : App batch_result :=
  runCashWalletMigrationBatch cutoverVersion runId workerId lockStaleBefore
    (listRunnableMigrations cutoverVersion runId limit)
    (fun id e s => markMigrationFailed id workerId cutoverVersion runId e s)
    (executeCashWalletMigrationStep services).

Lemma failure_status s : failureStatusForMigration s ∈ [failed; requires_operator_review].
Proof. by_computation. by destruct s. Qed.

Section Forward.
Variable services : MigrationServices.
Context {L : ServicesLaws services}.
Variables (v : Z) (run worker : string) (limit : option nat) (stale : Z).

(** C4: a forward batch keeps the collection well formed, whatever fails. No
    migration reaches a status without the fields that status relies on: past
    [balance_move_sending] the balance payment is on record, a fee invoice has
    its fee, a flipped pointer its predecessor; ids, accounts and idempotency
    keys stay unique. *)
Theorem forward_batch_invariant (w : world) :
  migrations_ok (w_migrations w) ->
  migrations_ok (w_migrations (runPrimaryCashWalletCutoverBatch services v run worker limit stale w).2).
Proof.
  intros Hok. refine (proj1 (mt_batch _ _ _ _ _ _ _ _ _ _ w Hok I)).
  - apply quiet_listRunnable.
  - intros l. by apply execute_ok.
  - intros id e s. apply mt_mark, failure_status.
Qed.

Lemma evolving_forward :
  guarantees (evolving forward_rel) (runPrimaryCashWalletCutoverBatch services v run worker limit stale).
Proof.
  apply (evolving_batch _ _ _ _ _ _ _ forward_rel).
  - apply quiet_listRunnable.
  - intros l. by apply evolving_execute.
  - intros id e s. apply (evolving_mark forward_rel). intros s0. apply forward_rel_failure, failure_status.
Qed.

(** A forward batch only moves migrations forward: every document is still
    there with its identity, none is added, and its status is the one it had, a
    later one of the pipeline reached from a status the executor advances, or a
    failure status. A migration that is complete, failed, under review, skipped
    or in rollback is never put back into the pipeline. *)
Theorem forward_batch_evolves (w : world) :
  let w' := (runPrimaryCashWalletCutoverBatch services v run worker limit stale w).2 in
  evolves forward_rel (w_migrations w) (w_migrations w') /\
  forall id, is_Some (w_migrations w' !! id) -> is_Some (w_migrations w !! id).
Proof. exact (evolving_forward w). Qed.

(** ** Payments of a batch *)

Lemma same_paid_guarded_update id filter upd msg :
  guarantees same_paid (let! result := mongo (find_and_update id filter upd) in updated_or msg result).
Proof.
  apply guarantees_bind; [exact _|apply same_paid_update|]. intros r.
  unfold updated_or. case_match; [apply guarantees_ret, _|apply guarantees_fail, _].
Qed.

Lemma same_paid_guarded {A} (c : App A) : guarantees same_paid c -> guarantees same_paid (guarded c).
Proof. intros H. apply guarantees_catch; [exact _|done|]. intros e. apply guarantees_fail, _. Qed.

Lemma same_paid_dated {A} (k : Z -> App A) :
  (forall t, guarantees same_paid (k t)) -> guarantees same_paid (bind new_Date k).
Proof.
  intros H. apply guarantees_bind; [exact _|apply quiet_same_paid, quiet_new_Date|done].
Qed.

Lemma same_paid_locks id (wk : string) stale' v' r' e s :
  guarantees same_paid (acquireMigrationLock id wk stale' v' r') /\
  guarantees same_paid (releaseMigrationLock id wk v' r') /\
  guarantees same_paid (markMigrationFailed id wk v' r' e s).
Proof.
  split_and!; apply same_paid_guarded; repeat (apply same_paid_dated; intros ?);
    apply same_paid_guarded_update.
Qed.

Lemma acquire_stored id wk stale' v' r' w m' w' : migrations_ok (w_migrations w) ->
  acquireMigrationLock id wk stale' v' r' w = (Ok m', w') -> stored m' (w_migrations w').
Proof.
  intros Hok H. destruct (mt_acquire id wk stale' v' r' (fun _ => True) w Hok I) as [_ Hq].
  rewrite H in Hq. by apply Hq.
Qed.

Definition forward_turn : batch_result -> migration -> App batch_result :=
  batch_turn v run worker stale (fun id e s => markMigrationFailed id worker v run e s)
    (executeCashWalletMigrationStep services).

Lemma forward_turn_ok r m w : migrations_ok (w_migrations w) ->
  migrations_ok (w_migrations (forward_turn r m w).2).
Proof.
  intros Hok. refine (proj1 (mt_turn _ _ _ _ _ _ r m _ _ w Hok I)).
  - intros l'. by apply execute_ok.
  - intros id e s. apply mt_mark, failure_status.
Qed.

Lemma fr_forward_turn r m : frames [m_id m] (forward_turn r m) (fun _ => True).
Proof.
  apply fr_turn; [intros l|intros id e s; by eapply fr_conseq; [apply fr_mark|auto..]].
  by eapply fr_conseq; [apply own_execute|auto..].
Qed.

(** A turn that meets its migration as it was listed pays at most once, for it:
    the lock changes nothing the payment depends on. *)
Lemma turn_pays r m w : migrations_ok (w_migrations w) -> stored m (w_migrations w) ->
  w_paid (forward_turn r m w).2 = w_paid w \/
  exists p, forward_payment m p /\ w_paid (forward_turn r m w).2 = w_paid w ++ [p].
Proof.
  intros Hok Hm. destruct r as [a b c d]. unfold forward_turn, batch_turn, bind, attempt.
  pose proof (proj1 (same_paid_locks (m_id m) worker stale v run (new_error0 JsError) failed) w) as Pa.
  destruct (acquireMigrationLock _ _ _ _ _ w) as [[l|e|e] w1] eqn:Ha; cbn in Pa; [|by left..].
  apply acquire_stored in Ha as Hl; [|done].
  assert (forall p, forward_payment l p -> forward_payment m p) as Hp.
  { apply acquire_Ok in Ha as (m0 & t & now & Hm0 & _ & -> & _). by assert (m0 = m) as -> by congruence. }
  pose proof (pays_execute services l w1 Hl) as He. unfold same_paid in Pa. rewrite Pa in He.
  destruct (executeCashWalletMigrationStep services l w1) as [[m'|e|e] w2]; cbn in He |- *.
  - pose proof (proj1 (proj2 (same_paid_locks (m_id l) worker 0 v run (new_error0 JsError) failed)) w2) as Pr.
    destruct (releaseMigrationLock _ _ _ _ w2) as [[?|?|?] w3]; cbn in Pr |- *; rewrite Pr; naive_solver.
  - pose proof (proj2 (proj2 (same_paid_locks (m_id l) worker 0 v run e
      (failureStatusForMigration (m_status l)))) w2) as Pm.
    destruct (markMigrationFailed _ _ _ _ _ _ w2) as [[?|?|?] w3]; cbn in Pm |- *; rewrite Pm; naive_solver.
  - naive_solver.
Qed.

Lemma Forall2_left {A B} (P : A -> Prop) (Q : A -> B -> Prop) l k :
  Forall P l -> Forall2 Q l k -> Forall2 (fun x y => P x /\ Q x y) l k.
Proof. intros HP HQ. induction HQ; inversion_clear HP; constructor; auto. Qed.

(** The turns over distinct migrations: each meets its own as it was listed. *)
Lemma fold_pays l r w : migrations_ok (w_migrations w) -> NoDup (m_id <$> l) ->
  Forall (fun m => stored m (w_migrations w)) l ->
  exists ms ps, w_paid (fold_m forward_turn r l w).2 = w_paid w ++ ps /\
    ms `sublist_of` l /\ Forall2 forward_payment ms ps.
Proof.
  revert r w. induction l as [|m l IH]; intros r w Hok Hnd Hl; cbn [fold_m].
  { exists [], []. rewrite app_nil_r. by split_and!. }
  apply Forall_cons in Hl as [Hm Hl]. apply NoDup_cons in Hnd as [Hni Hnd].
  pose proof (turn_pays r m w Hok Hm) as Ht. pose proof (forward_turn_ok r m w Hok) as Hok1.
  destruct (fr_forward_turn r m w (ok_id _ Hok)) as (_ & Hf & _).
  assert (Forall (fun m' => stored m' (w_migrations (forward_turn r m w).2)) l) as Hl1.
  { apply Forall_forall. intros m' Hm'. unfold stored. rewrite Hf.
    - rewrite Forall_forall in Hl. by apply Hl.
    - intros Ej%list_elem_of_singleton. apply Hni. rewrite <- Ej. by apply list_elem_of_fmap_2. }
  assert (exists ms ps, w_paid (forward_turn r m w).2 = w_paid w ++ ps /\
    (forall ms', ms' `sublist_of` l -> (ms ++ ms') `sublist_of` (m :: l)) /\
    Forall2 forward_payment ms ps) as (ms & ps & Ep & Hs & Hps).
  { destruct Ht as [E|(p & Hp & E)]; rewrite E.
    - exists [], []. rewrite app_nil_r. split_and!; [done| |done]. intros ms' Hs. by constructor.
    - exists [m], [p]. split_and!; [done| |constructor; [done|constructor]]. intros ms' Hs. by constructor. }
  unfold bind. destruct (forward_turn r m w) as [[r'|e|e] w1]; cbn in *.
  2,3: exists ms, ps; split_and!; [done| |done]; rewrite <- (app_nil_r ms); apply Hs, sublist_nil_l.
  destruct (IH r' w1 Hok1 Hnd Hl1) as (ms' & ps' & -> & Hs' & Hps').
  exists (ms ++ ms'), (ps ++ ps'). rewrite Ep, app_assoc. split_and!; [done|auto|by apply Forall2_app].
Qed.

Context {EL : ExternalLaws}.

End Forward.
End Runner.
