(* ===== verification/CutoverRollback.v ===== *)
(** * Cash wallet cutover: rollback

    Model of [src/src/app/cash-wallet-cutover/rollback-worker.ts], the rollback
    of one migration, and of [rollback.ts], the operator's commands on a run:
    request, batch, completion. The step is resumable: each part records what
    it did in a field and is skipped when the field is set. *)

From stdpp Require Import base gmap list strings relations.
From Stdlib Require Import ZArith Lia.
From S2P Require Import Prelude JsStrings Errors MoneyAmounts CutoverStateMachine CutoverAmounts.
From S2P Require Import World Ibex Repos CutoverRepo CutoverServices CutoverWorker CutoverRunner.

Open Scope Z_scope.

(** ** rollback-worker.ts *)

Definition ROLLBACK_SHORTFALL_TOLERANCE_USDT_MICROS : Z := 10000.

Definition isRollbackableCashWalletMigrationStatus (s : MigrationStatus) : bool :=
  includes ROLLBACKABLE_STATUSES s.

Definition unset (f : str_field) (m : migration) : bool := bool_decide (m_str m !! f = None).

Section Rollback.
Context `{X : External}.

Definition requestCashWalletMigrationRollback (m : migration) (requestedBy reason : string)
    (requestedAt : Z) : App migration :=
  lift (assertCanTransition (m_status m) rollback_started) ;;
  transition_to m rollback_started
    [PDate rollbackRequestedAt requestedAt; PStr rollbackRequestedBy requestedBy;
     PStr rollbackReason reason; PRollbackFrom (m_status m)].

Definition patchRollbackProgress (m : migration) (patch : list patch_entry) : App migration :=
  transitionMigration (m_id m) rollback_started rollback_started (m_cutoverVersion m) (m_runId m)
    patch [].

Section Step.
Variable services : MigrationServices.

(** 1. Pointer restore. *)
Definition restore_pointer (current : migration) : App migration :=
  (match m_str current !! previousDefaultWalletId with
   | Some previous =>
       let! defaultWalletId := getDefaultWalletId services (m_accountId current) in
       if bool_decide (defaultWalletId = m_destinationUsdtWalletId current)
       then flipDefaultWallet services (m_accountId current) previous ;; ret tt
       else ret tt
   | None => ret tt
   end) ;;
  let! t := now services in
  patchRollbackProgress current [PDate rollbackPointerRestoredAt t].

(** [request === undefined || isInvoicePaymentRequestStale(...)]: the clock is
    read only when there is a request. *)
Definition needs_invoice (request : option string) : App bool :=
  match request with
  | None => ret true
  | Some r =>
      let! t := now services in
      ret (isInvoicePaymentRequestStale r t CUTOVER_INVOICE_PAYMENT_SAFETY_WINDOW_MS)
  end.

Definition reverse_invoice (current : migration) : App migration :=
  let! b := needs_invoice (m_str current !! rollbackInvoicePaymentRequest) in
  if b : bool then
    let! invoice := createNoAmountInvoice services (m_legacyUsdWalletId current)
      ("cwco-rb:" +:+ m_runId current +:+ ":" +:+ m_id current +:+ ":move") in
    patchRollbackProgress current
      [PStr rollbackInvoicePaymentRequest (inv_paymentRequest invoice);
       PStr rollbackInvoicePaymentHash (inv_paymentHash invoice)]
  else ret current.

(** 2. Reverse balance move. *)
Definition reverse_move (current : migration) : App migration :=
  let! destinationAmount := need destinationAmountUsdtMicros InvalidCashWalletMigrationTransitionError
    "destinationAmountUsdtMicros is required to reverse a sent balance move" current in
  if bool_decide (destinationAmount = "0") then ret current
  else
    let! target := lift (bigint_of destinationAmount) in
    let! spendableStr := readDestinationSpendableUsdtMicros services current in
    let! spendable := lift (bigint_of spendableStr) in
    let reverseAmount := if spendable <? target then spendable else target in
    let shortfall := target - reverseAmount in
    if ROLLBACK_SHORTFALL_TOLERANCE_USDT_MICROS <? shortfall then
      fail (new_error CashWalletMigrationFailedError
        ("USDT balance " +:+ spendableStr +:+ " is short of reverse target " +:+
         bigint_toString target +:+ " by " +:+ bigint_toString shortfall +:+
         " micros (> tolerance) — likely spent post-cutover"))
    else if reverseAmount <? CUTOVER_MIN_PAYABLE_USDT_MICROS then
      fail (new_error CashWalletMigrationFailedError
        ("Reverse amount " +:+ bigint_toString reverseAmount +:+
         " micros is below IBEX's minimum payable — target " +:+ bigint_toString target +:+
         ", spendable " +:+ spendableStr +:+ "; resolve manually"))
    else
      let! current := reverse_invoice current in
      let! request := need rollbackInvoicePaymentRequest InvalidCashWalletMigrationTransitionError
        "rollbackInvoicePaymentRequest is required before reverse payment sending" current in
      let! transactionId := servicePayInvoice services (m_destinationUsdtWalletId current) request
                              None (Some (bigint_toString reverseAmount)) in
      patchRollbackProgress current [PStr rollbackPaymentTransactionId transactionId].

Definition shortfall_invoice (current : migration) (shortfall : string) : App migration :=
  let! b := needs_invoice (m_str current !! rollbackShortfallInvoicePaymentRequest) in
  if b : bool then
    let! invoice := createNoAmountInvoice services (m_legacyUsdWalletId current)
      ("cwco-rb:" +:+ m_runId current +:+ ":" +:+ m_id current +:+ ":shortfall") in
    patchRollbackProgress current
      [PStr rollbackShortfallUsdtMicros shortfall;
       PStr rollbackShortfallInvoicePaymentRequest (inv_paymentRequest invoice);
       PStr rollbackShortfallInvoicePaymentHash (inv_paymentHash invoice)]
  else ret current.

(** 3 + 4. Shortfall top-up and verification: the migration to return when the
    treasury paid, nothing when the user is whole. *)
Definition settle_shortfall (current : migration) : App (option migration) :=
  let! source := need sourceBalanceUsdCents InvalidCashWalletMigrationTransitionError
    "sourceBalanceUsdCents is required to verify a rollback" current in
  let! currentUsdCents := readSourceBalanceUsdCents services current in
  let! shortfall := lift (legacyShortfallUsdtMicros source currentUsdCents) in
  let! short := lift (bigint_of shortfall) in
  if ROLLBACK_SHORTFALL_TOLERANCE_USDT_MICROS <? short then
    if negb (unset rollbackShortfallPaymentTransactionId current) then
      fail (new_error CashWalletMigrationFailedError
        ("Legacy wallet still short " +:+ shortfall +:+ " USDT micros after treasury top-up"))
    else
      let! treasuryWalletId := getTreasuryWalletId services in
      let! current := shortfall_invoice current shortfall in
      let! request := need rollbackShortfallInvoicePaymentRequest
        InvalidCashWalletMigrationTransitionError
        "rollbackShortfallInvoicePaymentRequest is required before shortfall payment" current in
      let! transactionId := servicePayInvoice services treasuryWalletId request None (Some shortfall) in
      let! patched := patchRollbackProgress current
        [PStr rollbackShortfallPaymentTransactionId transactionId] in
      ret (Some patched)
  else ret None.

Definition executeCashWalletMigrationRollbackStep (m : migration) : App migration :=
  if negb (bool_decide (m_status m = rollback_started)) then
    fail (new_error InvalidCashWalletMigrationTransitionError
      ("Rollback step requires status rollback_started, got: " +:+ status_name (m_status m)))
  else
    let! current :=
      (if bool_decide (m_date m !! rollbackPointerRestoredAt = None)
       then restore_pointer m else ret m) in
    let forwardMovedFunds := negb (unset balanceMovePaymentTransactionId current) in
    let! current :=
      (if forwardMovedFunds && unset rollbackPaymentTransactionId current
       then reverse_move current else ret current) in
    let! early := (if forwardMovedFunds then settle_shortfall current else ret None) in
    match early with
    | Some patched => ret patched
    | None =>
        let! t := now services in
        transitionMigration (m_id current) rollback_started rolled_back (m_cutoverVersion current)
          (m_runId current) [PDate rolledBackAt t] []
    end.

End Step.

(** ** rollback.ts *)

Record rollback_report := mkRollbackReport {
  rr_dryRun : bool;
  rr_eligible : Z;
  rr_requested : Z;
  rr_skipped : list (MigrationStatus * Z);
  rr_migrationIds : list string
}.

(** [skipped[status] = (skipped[status] ?? 0) + 1] *)
Fixpoint bump (s : MigrationStatus) (l : list (MigrationStatus * Z)) : list (MigrationStatus * Z) :=
  match l with
  | [] => [(s, 1)]
  | (t, n) :: l' => if bool_decide (t = s) then (t, n + 1) :: l' else (t, n) :: bump s l'
  end.

(** The work list: one account's migration, or all of the run in a status that
    can be rolled back or already is. *)
Definition rollback_candidates (cutoverVersion : Z) (runId : string) (accountId : option string) :
    App (list migration) :=
  match accountId with
  | Some a =>
      let! m := findMigrationByAccountId a cutoverVersion runId in
      match m with
      | None => fail (new_error CashWalletMigrationFailedError
                        ("No migration found for accountId=" +:+ a +:+ " runId=" +:+ runId))
      | Some m => ret [m]
      end
  | None =>
      listMigrationsByStatuses cutoverVersion runId
        (ROLLBACKABLE_STATUSES ++ [rollback_started; rolled_back]) None
  end.

Definition request_turn (reason requestedBy : string) (dryRun : bool) (t : Z)
    (r : rollback_report) (m : migration) : App rollback_report :=
  let '(mkRollbackReport d eligible requested skipped ids) := r in
  if negb (isRollbackableCashWalletMigrationStatus (m_status m))
  then ret (mkRollbackReport d eligible requested (bump (m_status m) skipped) ids)
  else if dryRun then ret (mkRollbackReport d (eligible + 1) requested skipped (ids ++ [m_id m]))
  else
    requestCashWalletMigrationRollback m requestedBy reason t ;;
    ret (mkRollbackReport d (eligible + 1) (requested + 1) skipped (ids ++ [m_id m])).

Definition requestPrimaryCashWalletRollback (cutoverVersion : Z) (runId : string)
    (accountId : option string) (reason requestedBy : string) (dryRun : bool) :
    App rollback_report :=
  let! t := new_Date in
  let! candidates := rollback_candidates cutoverVersion runId accountId in
  fold_m (request_turn reason requestedBy dryRun t) (mkRollbackReport dryRun 0 0 [] []) candidates.

Definition runPrimaryCashWalletRollbackBatch (services : MigrationServices) (cutoverVersion : Z)
    (runId workerId : string) (limit : option nat) (lockStaleBefore : Z) : App batch_result :=
  runCashWalletMigrationBatch cutoverVersion runId workerId lockStaleBefore
    (listMigrationsByStatuses cutoverVersion runId [rollback_started] limit)
    (fun id e _ => markMigrationFailed id workerId cutoverVersion runId e requires_operator_review)
    (executeCashWalletMigrationRollbackStep services).

Definition unresolved_statuses : list MigrationStatus :=
  [not_started; started; provisioned; balance_read; invoice_created; balance_move_sending;
   balance_move_sent; balance_move_verified; fee_reimbursement_invoice_created;
   fee_reimbursement_sending; fee_reimbursed; pointer_flipped; legacy_zero_verified; complete;
   failed; requires_operator_review; rollback_started].

Definition opt_str (o : option string) : string := default "undefined" o.

Definition completePrimaryCashWalletRollback (cutoverVersion : Z) (runId actor : string) : App config :=
  let! t := new_Date in
  let! cfg := getConfig in
  if bool_decide (c_state cfg = state_rolled_back) then ret cfg
  else if negb (bool_decide (c_runId cfg = Some runId)) ||
          negb (bool_decide (c_cutoverVersion cfg = cutoverVersion)) then
    fail (new_error InvalidCashWalletCutoverStateTransitionError
      ("Cutover config is tracking runId=" +:+ opt_str (c_runId cfg) +:+ " cutoverVersion=" +:+
       bigint_toString (c_cutoverVersion cfg) +:+ ", not the requested rollback run"))
  else
    let! unresolved := listMigrationsByStatuses cutoverVersion runId unresolved_statuses (Some 1%nat) in
    match unresolved with
    | m :: _ =>
        fail (new_error CashWalletCutoverInProgressError
          ("Migration " +:+ m_id m +:+ " is still '" +:+ status_name (m_status m) +:+
           "'; run-level rollback completion requires every migration to be rolled_back or skipped_already_migrated. Single-account rollbacks do not complete the run."))
    | [] =>
        updateConfig [CState state_rolled_back; CVersion cutoverVersion; CRunId runId;
                      CCompletedAt (Some t)] actor
    end.

End Rollback.

(** ** The step keeps the collection well formed *)

(** Entries that record progress: they only add to a document. *)
Definition progress_entry (p : patch_entry) : Prop :=
  match p with PStr _ _ | PDate _ _ => True | PRollbackFrom _ | PAttempts _ => False end.

(** [m'] is [m] with more fields written and nothing of its history lost. *)
Record extends (m m' : migration) : Prop := {
  ext_identity : identity m' = identity m;
  ext_status : m_status m' = m_status m;
  ext_from : m_rollbackFromStatus m' = m_rollbackFromStatus m;
  ext_has : forall f, has f m -> has f m';
  ext_dated : forall f, dated f m -> dated f m'
}.

Lemma extends_refl m : extends m m.
Proof. by split. Qed.

Lemma extends_trans m1 m2 m3 : extends m1 m2 -> extends m2 m3 -> extends m1 m3.
Proof. intros [] []. split; first [congruence|auto]. Qed.

Lemma insert_is_Some `{Countable K} {A} (g : gmap K A) k k' v :
  is_Some (g !! k) -> is_Some (<[k' := v]> g !! k).
Proof. rewrite lookup_insert_is_Some. destruct (decide (k' = k)); auto. Qed.

Lemma extends_entry m p : progress_entry p -> extends m (apply_entry m p).
Proof.
  destruct p; cbn; intros []; split; try done; intros g; apply insert_is_Some.
Qed.

Lemma extends_patch ps m : Forall progress_entry ps -> extends m (apply_patch ps m).
Proof.
  intros H. revert m. induction H as [|p ps Hp _ IH]; intros m; [apply extends_refl|].
  eapply extends_trans; [by apply extends_entry|apply IH].
Qed.

(** The patch of a document in rollback. *)
Definition patched (ps : list patch_entry) (t : Z) (m : migration) : migration :=
  transition_upd rollback_started ps [] t m.

Lemma extends_patched ps t m :
  Forall progress_entry ps -> m_status m = rollback_started -> extends m (patched ps t m).
Proof. intros H Hs. destruct (extends_patch ps m H). by split. Qed.

(** What a document in rollback must keep, and a finished one has in addition. *)
Lemma wf_extends m m' :
  migration_wf m -> m_status m = rollback_started -> extends m m' -> migration_wf m'.
Proof.
  intros Hw Hs [Hi Hs' Hf Hh Hd]. rewrite Hs in Hs'.
  split; rewrite Hs'; intros Hin; try (exfalso; status_absurd).
  destruct (wf_requested m Hw) as (H1 & H2 & H3 & H4);
    [rewrite Hs; by_computation; reflexivity|].
  rewrite Hf. auto.
Qed.

Definition settled (m : migration) : Prop :=
  dated rollbackPointerRestoredAt m /\
  (has balanceMovePaymentTransactionId m ->
     m_str m !! destinationAmountUsdtMicros = Some "0" \/ has rollbackPaymentTransactionId m).

Lemma wf_finished m t t' :
  migration_wf m -> m_status m = rollback_started -> settled m ->
  migration_wf (transition_upd rolled_back [PDate rolledBackAt t] [] t' m).
Proof.
  intros Hw Hs [Hd Hm].
  destruct (wf_requested m Hw) as (H1 & H2 & H3 & H4);
    [rewrite Hs; by_computation; reflexivity|].
  split; cbn; intros Hin; try (exfalso; status_absurd).
  - split_and!; try done. by apply insert_is_Some.
  - split_and!; [by apply insert_is_Some| |done]. unfold dated. cbn.
    rewrite lookup_insert_eq. eauto.
Qed.

Section RollbackStep.
Context `{X : External}.
Variable services : MigrationServices.
Context {L : ServicesLaws services}.

Lemma mt_patch c ps : m_status c = rollback_started -> Forall progress_entry ps ->
  mtriple (stored c) (patchRollbackProgress c ps)
    (fun c' ms => stored c' ms /\ exists t, c' = patched ps t c).
Proof.
  intros Hs Hp. eapply mt_conseq; [apply (mt_transition _ _ _ _ _ _ _ (stored c))|done|].
  - intros ms m t Hst Hm Hw Hsm. unfold stored in Hst.
    assert (m = c) as -> by congruence. by eapply wf_extends, extends_patched.
  - intros m' ms' (ms & m & t & Hst & Hm & _ & -> & _ & Hst'). split; [done|].
    exists t. unfold stored in Hst. assert (m = c) as -> by congruence. done.
Qed.

(** The pieces of the step: each returns a stored document that extends the
    one it was given, its status unchanged. *)
Definition progresses (c : migration) (k : App migration) (Q : migration -> Prop) : Prop :=
  mtriple (stored c) k (fun c' ms => stored c' ms /\ extends c c' /\ Q c').

Lemma progresses_patch c ps (Q : migration -> Prop) :
  m_status c = rollback_started -> Forall progress_entry ps -> (forall t, Q (patched ps t c)) ->
  progresses c (patchRollbackProgress c ps) Q.
Proof.
  intros Hs Hp HQ. eapply mt_conseq; [by apply mt_patch|done|].
  intros c' ms [Hst [t ->]]. split_and!; [done| |done]. by apply extends_patched.
Qed.

Lemma quiet_restore a d o : guarantees quiet (
  match o with
  | Some previous =>
      let! defaultWalletId := getDefaultWalletId services a in
      if bool_decide (defaultWalletId = d)
      then flipDefaultWallet services a previous ;; ret tt
      else ret tt
  | None => ret tt
  end).
Proof.
  destruct o as [previous|]; [|apply guarantees_ret, _].
  apply guarantees_bind; [exact _|apply law_getDefaultWalletId|]. intros w.
  case_match; [|apply guarantees_ret, _].
  apply guarantees_bind; [exact _|apply law_flip|]. intros ?. apply guarantees_ret, _.
Qed.

Lemma restore_ok c : m_status c = rollback_started ->
  progresses c (restore_pointer services c) (fun c' =>
    dated rollbackPointerRestoredAt c' /\ m_str c' = m_str c).
Proof.
  intros Hs. apply mt_quiet_bind; [apply quiet_restore|]. intros _.
  apply mt_quiet_bind; [apply law_now|]. intros t.
  apply progresses_patch; [done|by repeat constructor|].
  intros t'. split; [|done]. unfold dated. cbn. rewrite lookup_insert_eq. eauto.
Qed.

Lemma quiet_needs_invoice o : guarantees quiet (needs_invoice services o).
Proof.
  destruct o; [|apply guarantees_ret, _].
  apply guarantees_bind; [exact _|apply law_now|]. intros t. apply guarantees_ret, _.
Qed.

Lemma reverse_invoice_ok c : m_status c = rollback_started ->
  progresses c (reverse_invoice services c) (fun _ => True).
Proof.
  intros Hs. apply mt_quiet_bind; [apply quiet_needs_invoice|]. intros [].
  - apply mt_quiet_bind; [apply law_createNoAmountInvoice|]. intros inv.
    apply progresses_patch; [done|by repeat constructor|done].
  - apply mt_ret. intros ms Hst. split_and!; [done|apply extends_refl|done].
Qed.

Lemma shortfall_invoice_ok c s : m_status c = rollback_started ->
  progresses c (shortfall_invoice services c s) (fun _ => True).
Proof.
  intros Hs. apply mt_quiet_bind; [apply quiet_needs_invoice|]. intros [].
  - apply mt_quiet_bind; [apply law_createNoAmountInvoice|]. intros inv.
    apply progresses_patch; [done|by repeat constructor|done].
  - apply mt_ret. intros ms Hst. split_and!; [done|apply extends_refl|done].
Qed.

(** Pay, then record the transaction in [f]. *)
Lemma pay_record_ok c a r am f : m_status c = rollback_started ->
  progresses c (let! tx := servicePayInvoice services a r None am in
                patchRollbackProgress c [PStr f tx]) (has f).
Proof.
  intros Hs. apply mt_pay; [done|]. intros tx.
  apply progresses_patch; [done|by repeat constructor|].
  intros t. unfold has. cbn. rewrite lookup_insert_eq. eauto.
Qed.

Lemma progresses_bind c k1 (k2 : migration -> App migration) (Q Q' : migration -> Prop) :
  m_status c = rollback_started -> progresses c k1 Q ->
  (forall c', m_status c' = rollback_started -> Q c' -> progresses c' (k2 c') Q') ->
  progresses c (bind k1 k2) Q'.
Proof.
  intros Hs H1 H2. eapply mt_bind; [exact H1|]. intros c'.
  eapply mt_conseq with (P' := fun ms => stored c' ms /\ (extends c c' /\ Q c'));
    [|done|intros a ms H; exact H].
  apply mt_pure. intros [E HQ]. eapply mt_conseq; [apply H2; [|exact HQ]|done|].
  - rewrite (ext_status _ _ E). done.
  - intros c2 ms (Hst & E2 & HQ2). split_and!; [done| |done]. by eapply extends_trans.
Qed.

Lemma reverse_ok c : m_status c = rollback_started ->
  progresses c (reverse_move services c) (fun c' =>
    m_str c' !! destinationAmountUsdtMicros = Some "0" \/ has rollbackPaymentTransactionId c').
Proof.
  intros Hs. apply mt_need. intros d Hd. case_bool_decide as Hz.
  { apply mt_ret. intros ms Hst. split_and!; [done|apply extends_refl|]. left. congruence. }
  apply mt_lift_bind. intros target _. apply mt_quiet_bind; [apply law_readSpendable|]. intros s.
  apply mt_lift_bind. intros sp _. cbn zeta.
  set (ra := if sp <? target then sp else target).
  destruct (_ <? target - ra); [apply mt_fail|]. destruct (ra <? _); [apply mt_fail|].
  eapply progresses_bind; [done|by apply reverse_invoice_ok|]. intros c' Hs' _.
  apply mt_need. intros req _. eapply mt_conseq; [by apply pay_record_ok|done|].
  intros c2 ms (? & ? & ?). auto.
Qed.

Lemma settle_ok c : m_status c = rollback_started ->
  mtriple (stored c) (settle_shortfall services c) (fun o ms =>
    match o with Some p => stored p ms | None => stored c ms end).
Proof.
  intros Hs. apply mt_need. intros src _. apply mt_quiet_bind; [apply law_readSource|]. intros cur.
  apply mt_lift_bind. intros sf _. apply mt_lift_bind. intros n _.
  case_match; [|by apply mt_ret]. case_match; [apply mt_fail|].
  apply mt_quiet_bind; [apply law_getTreasury|]. intros tr.
  eapply mt_bind; [by apply (shortfall_invoice_ok c sf)|]. intros c'.
  eapply mt_conseq with (P' := fun ms => stored c' ms /\ extends c c'); [|by intros ms (? & ? & _)|
    intros a ms Ha; exact Ha].
  apply mt_pure. intros E. apply mt_need. intros req _. apply mt_pay; [done|]. intros tx.
  eapply mt_bind; [apply mt_patch; [rewrite (ext_status _ _ E); done|by repeat constructor]|].
  intros p. apply mt_ret. by intros ms [? _].
Qed.

(** Between the steps: the pointer is dealt with, then the balance. *)
Lemma rollback_step_ok m :
  mtriple (stored m) (executeCashWalletMigrationRollbackStep services m) stored.
Proof.
  unfold executeCashWalletMigrationRollbackStep.
  case_bool_decide as Hs; cbn [negb]; [|apply mt_fail].
  eapply mt_bind with (Q := fun c ms => stored c ms /\
    (m_status c = rollback_started /\ dated rollbackPointerRestoredAt c)).
  { case_bool_decide as Hd.
    - eapply mt_conseq; [by apply restore_ok|done|]. intros c ms (? & E & ? & _).
      rewrite (ext_status _ _ E). done.
    - apply mt_ret. intros ms ?. split_and!; try done. unfold dated.
      by apply not_eq_None_Some. }
  intros c. apply mt_pure. intros [Hs1 Hd1]. cbn zeta.
  eapply mt_bind with (Q := fun c' ms => stored c' ms /\ (m_status c' = rollback_started /\ settled c' )).
  { unfold unset. destruct (bool_decide_reflect (m_str c !! balanceMovePaymentTransactionId = None)) as [Hb|Hb];
      cbn; [apply mt_ret; intros ms ?; unfold settled; split_and!; try done; intros [? ?]; congruence|].
    case_bool_decide as Hr.
    - eapply mt_conseq; [by apply reverse_ok|done|]. intros c' ms (? & E & HQ).
      rewrite (ext_status _ _ E). unfold settled. split_and!; try done. by apply (ext_dated _ _ E).
    - apply mt_ret. intros ms ?. unfold settled. split_and!; try done. intros _. right. by apply not_eq_None_Some. }
  intros c2. apply mt_pure. intros [Hs2 Hset].
  eapply mt_bind with (Q := fun o ms => match o with Some p => stored p ms | None => stored c2 ms end).
  { case_match; [by apply settle_ok|by apply mt_ret]. }
  intros [p|]; [by apply mt_ret|]. apply mt_quiet_bind; [apply law_now|]. intros t.
  eapply mt_conseq; [apply (mt_transition _ _ _ _ _ _ _ (stored c2))|done|].
  - intros ms m0 t' Hst Hm0 Hw Hsm. unfold stored in Hst.
    assert (m0 = c2) as -> by congruence. by apply wf_finished.
  - by intros m' ms' (? & ? & ? & _ & _ & _ & _ & _ & ?).
Qed.
End RollbackStep.

(** ** Payments of a rollback *)

(** [request] pays the user's legacy wallet: it was on record in [m], or an
    invoice of that wallet has just been created. *)
Definition request_for `{X : External} (services : MigrationServices) (m : migration)
    (f : str_field) (part request : string) : Prop :=
  m_str m !! f = Some request \/
  exists w inv w',
    createNoAmountInvoice services (m_legacyUsdWalletId m)
      ("cwco-rb:" +:+ m_runId m +:+ ":" +:+ m_id m +:+ part) w = (Ok inv, w') /\
    request = inv_paymentRequest inv.

(** The reverse move: out of the USDT wallet into the legacy wallet, at most
    once, for the spendable balance capped by the amount moved forward, which
    it misses by a cent at most. *)
Definition reverse_payment `{X : External} (services : MigrationServices) (m : migration)
    (p : payment) : Prop :=
  m_str m !! rollbackPaymentTransactionId = None /\
  has balanceMovePaymentTransactionId m /\
  p_sender p = m_destinationUsdtWalletId m /\ p_usdCents p = None /\
  request_for services m rollbackInvoicePaymentRequest ":move" (p_request p) /\
  exists moved target c w spendableStr w' spendable r,
    m_str m !! destinationAmountUsdtMicros = Some moved /\ bigint_of moved = Ok target /\
    identity c = identity m /\
    readDestinationSpendableUsdtMicros services c w = (Ok spendableStr, w') /\
    bigint_of spendableStr = Ok spendable /\
    p_usdtMicros p = Some (bigint_toString r) /\
    r = Z.min spendable target /\ target - 10000 <= r /\ 2500 <= r.

(** The treasury's top-up: at most once, for the shortfall of the legacy wallet
    against the original balance, when that is more than a cent. *)
Definition topup_payment `{X : External} (services : MigrationServices) (m : migration)
    (p : payment) : Prop :=
  m_str m !! rollbackShortfallPaymentTransactionId = None /\
  has balanceMovePaymentTransactionId m /\
  p_usdCents p = None /\
  request_for services m rollbackShortfallInvoicePaymentRequest ":shortfall" (p_request p) /\
  (exists w w', getTreasuryWalletId services w = (Ok (p_sender p), w')) /\
  exists source c w current w' shortfall n,
    m_str m !! sourceBalanceUsdCents = Some source /\ identity c = identity m /\
    readSourceBalanceUsdCents services c w = (Ok current, w') /\
    legacyShortfallUsdtMicros source current = Ok shortfall /\
    bigint_of shortfall = Ok n /\ 10000 < n /\ p_usdtMicros p = Some shortfall.

(** The fields neither the pointer restore nor the reverse move writes. *)
Definition forward_fields : list str_field :=
  [sourceBalanceUsdCents; destinationAmountUsdtMicros; balanceMovePaymentTransactionId;
   rollbackShortfallPaymentTransactionId; rollbackShortfallInvoicePaymentRequest].

Definition untouched (m m' : migration) : Prop :=
  identity m' = identity m /\ forall f, f ∈ forward_fields -> m_str m' !! f = m_str m !! f.

Lemma untouched_trans m1 m2 m3 : untouched m1 m2 -> untouched m2 m3 -> untouched m1 m3.
Proof. intros [I1 H1] [I2 H2]. split; [congruence|]. intros f Hf. by rewrite H2, H1. Qed.

(** Writing fields outside that list. *)
Lemma untouched_patched ps t m :
  Forall (fun p => match p with PStr f _ => f ∉ forward_fields | PDate _ _ => True | _ => False end) ps ->
  untouched m (patched ps t m).
Proof.
  intros H. split; [apply identity_transition|]. intros f Hf. cbn. revert m.
  induction H as [|p ps Hp _ IH]; intros m; [done|]. cbn. unfold apply_patch in IH. rewrite IH.
  destruct p; try done. cbn. apply lookup_insert_ne. intros ->. done.
Qed.

Ltac outside_fields :=
  repeat match goal with
  | |- Forall _ _ => constructor
  | |- _ ∉ _ => by_computation; reflexivity
  | |- True => exact I
  end.

Section RollbackPayments.
Context `{X : External}.
Variable services : MigrationServices.
Context {L : ServicesLaws services}.

Lemma patch_run c ps w c' w' : stored c (w_migrations w) ->
  patchRollbackProgress c ps w = (Ok c', w') ->
  (exists t, c' = patched ps t c) /\ stored c' (w_migrations w').
Proof.
  intros Hst (m0 & t & Hm0 & _ & -> & Ew)%transition_Ok. unfold stored in *.
  assert (m0 = c) as -> by congruence. split; [by exists t|]. rewrite Ew.
  assert (m_id (transition_upd rollback_started ps [] t c) = m_id c) as ->; [|apply lookup_insert_eq].
  pose proof (identity_transition rollback_started ps [] t c) as E. unfold identity in E. congruence.
Qed.

Lemma quiet_stored {A} (k : App A) c w o w' :
  guarantees quiet k -> k w = (o, w') -> stored c (w_migrations w) -> stored c (w_migrations w').
Proof. intros Hq E Hst. destruct (quiet_run _ _ _ _ Hq E) as [Ew _]. by rewrite Ew. Qed.

Lemma restore_run c w c' w' : stored c (w_migrations w) ->
  restore_pointer services c w = (Ok c', w') ->
  stored c' (w_migrations w') /\ identity c' = identity c /\ m_str c' = m_str c.
Proof.
  intros Hst H. apply bind_Ok in H as (u & w1 & H1 & H). apply bind_Ok in H as (t & w2 & H2 & H).
  apply patch_run in H as [[t' ->] Hst']; [by split_and!; [| apply identity_transition |]|].
  eapply quiet_stored; [apply law_now|exact H2|].
  eapply quiet_stored; [|exact H1|done]. apply quiet_restore, _.
Qed.

(** Creating an invoice for [f] unless a fresh one is on record. *)
Lemma invoice_run c (f : str_field) part (ps : LnInvoice -> list patch_entry) w c' w' :
  stored c (w_migrations w) ->
  (forall inv t, m_str (patched (ps inv) t c) !! f = Some (inv_paymentRequest inv)) ->
  (let! b := needs_invoice services (m_str c !! f) in
   if b : bool then
     let! invoice := createNoAmountInvoice services (m_legacyUsdWalletId c)
       ("cwco-rb:" +:+ m_runId c +:+ ":" +:+ m_id c +:+ part) in
     patchRollbackProgress c (ps invoice)
   else ret c) w = (Ok c', w') ->
  stored c' (w_migrations w') /\ (c' = c \/ exists inv t, c' = patched (ps inv) t c) /\
  forall request, m_str c' !! f = Some request -> request_for services c f part request.
Proof.
  intros Hst Hf H. apply bind_Ok in H as (b & w1 & H1 & H).
  assert (stored c (w_migrations w1)) as Hst1
    by (eapply quiet_stored; [|exact H1|done]; apply quiet_needs_invoice, _).
  destruct b.
  - apply bind_Ok in H as (inv & w2 & H2 & H).
    apply patch_run in H as [[t ->] Hst'];
      [|eapply quiet_stored; [apply law_createNoAmountInvoice|exact H2|done]].
    split_and!; [done|eauto|]. intros request. rewrite Hf. intros [= <-]. right. eauto.
  - unfold ret in H. simplify_eq. split_and!; [done|auto|]. intros request Hr. by left.
Qed.

Lemma same_paid_patch c ps : guarantees same_paid (patchRollbackProgress c ps).
Proof. apply same_paid_transition. Qed.

Lemma same_paid_restore c : guarantees same_paid (restore_pointer services c).
Proof.
  apply guarantees_bind; [exact _|apply quiet_same_paid, quiet_restore, _|]. intros _.
  apply guarantees_bind; [exact _|apply quiet_same_paid, law_now|]. intros t. apply same_paid_patch.
Qed.

Lemma same_paid_invoice o a memo (k : LnInvoice -> App migration) c :
  (forall inv, guarantees same_paid (k inv)) ->
  guarantees same_paid (
    let! b := needs_invoice services o in
    if b : bool then let! invoice := createNoAmountInvoice services a memo in k invoice else ret c).
Proof.
  intros Hk. apply guarantees_bind; [exact _|apply quiet_same_paid, quiet_needs_invoice, _|].
  intros []; [|apply guarantees_ret, _].
  apply guarantees_bind; [exact _|apply quiet_same_paid, law_createNoAmountInvoice|done].
Qed.

Lemma same_paid_reverse_invoice c : guarantees same_paid (reverse_invoice services c).
Proof. apply same_paid_invoice. intros inv. apply same_paid_patch. Qed.

Lemma same_paid_shortfall_invoice c s : guarantees same_paid (shortfall_invoice services c s).
Proof. apply same_paid_invoice. intros inv. apply same_paid_patch. Qed.

Lemma reverse_invoice_run c w c' w' : stored c (w_migrations w) ->
  reverse_invoice services c w = (Ok c', w') ->
  stored c' (w_migrations w') /\ untouched c c' /\
  forall request, m_str c' !! rollbackInvoicePaymentRequest = Some request ->
    request_for services c rollbackInvoicePaymentRequest ":move" request.
Proof.
  intros Hst H.
  destruct (invoice_run c rollbackInvoicePaymentRequest ":move"
    (fun inv => [PStr rollbackInvoicePaymentRequest (inv_paymentRequest inv);
                 PStr rollbackInvoicePaymentHash (inv_paymentHash inv)]) w c' w' Hst)
    as (Hst' & Hc & Hr); [intros inv t; cbn; by simplify_map_eq|exact H|].
  split_and!; [done| |done]. destruct Hc as [->|(inv & t & ->)]; [done|].
  apply untouched_patched. outside_fields.
Qed.

Lemma shortfall_invoice_run c s w c' w' : stored c (w_migrations w) ->
  shortfall_invoice services c s w = (Ok c', w') ->
  forall request, m_str c' !! rollbackShortfallInvoicePaymentRequest = Some request ->
    request_for services c rollbackShortfallInvoicePaymentRequest ":shortfall" request.
Proof.
  intros Hst H.
  apply (invoice_run c rollbackShortfallInvoicePaymentRequest ":shortfall"
    (fun inv => [PStr rollbackShortfallUsdtMicros s;
                 PStr rollbackShortfallInvoicePaymentRequest (inv_paymentRequest inv);
                 PStr rollbackShortfallInvoicePaymentHash (inv_paymentHash inv)]) w c' w' Hst);
    [intros inv t; cbn; by simplify_map_eq|exact H].
Qed.

(** A quiet call whose result matters. *)
Lemma pays_read {A B} (Pre : gmap string migration -> Prop) (c : App A) (k : A -> App B) P :
  guarantees quiet c -> (forall a w w', c w = (Ok a, w') -> pays Pre (k a) P) ->
  pays Pre (bind c k) P.
Proof.
  intros Hc Hk w Hp. destruct (Hc w) as (E1 & _ & E3). unfold bind.
  destruct (c w) as [[a|e|e] w'] eqn:E; cbn in *; [|by left..].
  rewrite <- E3. apply (Hk a w w' E). by rewrite E1.
Qed.

Lemma pays_fail {A} Pre e P : pays (A:=A) Pre (fail e) P.
Proof. apply pays_none, guarantees_fail, _. Qed.

Lemma pays_reverse c :
  m_str c !! rollbackPaymentTransactionId = None -> has balanceMovePaymentTransactionId c ->
  pays (stored c) (reverse_move services c) (reverse_payment services c).
Proof.
  intros Hn Hb. apply pays_need. intros moved Hmoved.
  case_bool_decide; [apply pays_none, guarantees_ret, _|].
  apply pays_lift_bind. intros target Ht. apply pays_read; [apply law_readSpendable|].
  intros s w1 w2 Hread. apply pays_lift_bind. intros sp Hsp. cbn zeta.
  set (ra := if sp <? target then sp else target).
  destruct (Z.ltb_spec ROLLBACK_SHORTFALL_TOLERANCE_USDT_MICROS (target - ra)) as [|H1];
    [apply pays_fail|].
  destruct (Z.ltb_spec ra CUTOVER_MIN_PAYABLE_USDT_MICROS) as [|H2]; [apply pays_fail|].
  apply pays_bind; [apply same_paid_reverse_invoice|]. intros c' w3 w4 Hst Hinv.
  destruct (reverse_invoice_run c w3 c' w4 Hst Hinv) as (_ & [Hid _] & Hreq).
  apply pays_need. intros request Hr. apply pays_pay; [exact _| |intros tx; apply same_paid_patch].
  unfold identity in Hid. unfold reverse_payment. cbn [p_sender p_usdCents p_request p_usdtMicros].
  split_and!; try done; [congruence|by apply Hreq|].
  exists moved, target, c, w1, s, w2, sp, ra. split_and!; try done.
  - subst ra. destruct (Z.ltb_spec sp target); lia.
  - unfold ROLLBACK_SHORTFALL_TOLERANCE_USDT_MICROS in H1. lia.
Qed.

Lemma reverse_run c w c' w' : stored c (w_migrations w) ->
  reverse_move services c w = (Ok c', w') -> stored c' (w_migrations w') /\ untouched c c'.
Proof.
  intros Hst H. apply bind_Ok in H as (moved & w1 & H1 & H).
  assert (stored c (w_migrations w1)) as Hst1
    by (eapply quiet_stored; [apply quiet_need|exact H1|done]).
  case_bool_decide; [unfold ret in H; by simplify_eq|].
  apply bind_Ok in H as (target & w2 & H2 & H). unfold lift in H2. injection H2 as _ <-.
  apply bind_Ok in H as (s & w3 & H3 & H).
  assert (stored c (w_migrations w3)) as Hst3
    by (eapply quiet_stored; [apply law_readSpendable|exact H3|done]).
  apply bind_Ok in H as (sp & w4 & H4 & H). unfold lift in H4. injection H4 as _ <-.
  cbn zeta in H. set (ra := if sp <? target then sp else target) in H.
  destruct (_ <? target - ra); [done|]. destruct (ra <? _); [done|].
  apply bind_Ok in H as (c1 & w5 & H5 & H).
  apply reverse_invoice_run in H5 as (Hst5 & U5 & _); [|done].
  apply bind_Ok in H as (request & w6 & H6 & H).
  assert (stored c1 (w_migrations w6)) as Hst6
    by (eapply quiet_stored; [apply quiet_need|exact H6|done]).
  apply bind_Ok in H as (tx & w7 & H7 & H).
  pose proof (law_pay (m_destinationUsdtWalletId c1) request None (Some (bigint_toString ra)) w6) as Hl.
  rewrite H7 in Hl. destruct Hl as (Ew & _).
  apply patch_run in H as [[t ->] Hst']; [|by rewrite Ew].
  split; [done|]. eapply untouched_trans; [exact U5|]. apply untouched_patched. outside_fields.
Qed.

Lemma pays_settle c : has balanceMovePaymentTransactionId c ->
  pays (stored c) (settle_shortfall services c) (topup_payment services c).
Proof.
  intros Hb. apply pays_need. intros src Hsrc. apply pays_read; [apply law_readSource|].
  intros cur w1 w2 Hread. apply pays_lift_bind. intros sf Hsf. apply pays_lift_bind. intros n Hn.
  destruct (Z.ltb_spec ROLLBACK_SHORTFALL_TOLERANCE_USDT_MICROS n) as [Hlt|];
    [|apply pays_none, guarantees_ret, _].
  unfold unset. case_bool_decide as Hu; cbn [negb]; [|apply pays_fail].
  apply pays_read; [apply law_getTreasury|]. intros tr w3 w4 Htr.
  apply pays_bind; [apply same_paid_shortfall_invoice|]. intros c' w5 w6 Hst Hinv.
  pose proof (shortfall_invoice_run c sf w5 c' w6 Hst Hinv) as Hreq.
  apply pays_need. intros request Hr. apply pays_pay; [exact _| |].
  - unfold topup_payment. cbn [p_sender p_usdCents p_request p_usdtMicros].
    split_and!; try done; [by apply Hreq|by exists w3, w4|].
    exists src, c, w1, cur, w2, sf, n. split_and!; done.
  - intros tx. apply guarantees_bind; [exact _|apply same_paid_patch|].
    intros ?. apply guarantees_ret, _.
Qed.
End RollbackPayments.

Section RollbackTheorems.
Context `{X : External}.
Variable services : MigrationServices.
Context {L : ServicesLaws services}.

Lemma request_for_same c m f part request :
  identity c = identity m -> m_str c !! f = m_str m !! f ->
  request_for services c f part request -> request_for services m f part request.
Proof.
  unfold identity, request_for. intros Hi E. simplify_eq. rewrite E.
  replace (m_legacyUsdWalletId c) with (m_legacyUsdWalletId m) by congruence.
  replace (m_runId c) with (m_runId m) by congruence.
  by replace (m_id c) with (m_id m) by congruence.
Qed.

Lemma reverse_payment_same c m p : identity c = identity m -> m_str c = m_str m ->
  reverse_payment services c p -> reverse_payment services m p.
Proof.
  intros Hi Hs (H1 & H2 & H3 & H4 & H5 & moved & target & c' & w & s & w' & sp & r & Hr).
  unfold reverse_payment, has in *. rewrite <- Hs. split_and!; try done.
  - unfold identity in Hi. congruence.
  - eapply request_for_same; [done|by rewrite Hs|done].
  - exists moved, target, c', w, s, w', sp, r. rewrite <- Hi. done.
Qed.

Lemma topup_payment_same c m p : untouched m c ->
  topup_payment services c p -> topup_payment services m p.
Proof.
  intros [Hi Hs] (H1 & H2 & H3 & H4 & H5 & src & c' & w & cur & w' & sf & n & Hr).
  unfold topup_payment, has in *.
  rewrite (Hs rollbackShortfallPaymentTransactionId) in H1 by (by_computation; reflexivity).
  rewrite (Hs balanceMovePaymentTransactionId) in H2 by (by_computation; reflexivity).
  rewrite (Hs sourceBalanceUsdCents) in Hr by (by_computation; reflexivity).
  split_and!; try done.
  - eapply request_for_same; [done|apply Hs; by_computation; reflexivity|done].
  - exists src, c', w, cur, w', sf, n. rewrite <- Hi. done.
Qed.

(** The documents the three parts of a step work on. *)
Definition restored (m : migration) : App migration :=
  if bool_decide (m_date m !! rollbackPointerRestoredAt = None)
  then restore_pointer services m else ret m.
Definition reversed (c : migration) : App migration :=
  if negb (unset balanceMovePaymentTransactionId c) && unset rollbackPaymentTransactionId c
  then reverse_move services c else ret c.
Definition settling (moved : bool) (c : migration) : App (option migration) :=
  if moved then settle_shortfall services c else ret None.
Definition finishing (c : migration) (early : option migration) : App migration :=
  match early with
  | Some p => ret p
  | None =>
      let! t := now services in
      transitionMigration (m_id c) rollback_started rolled_back (m_cutoverVersion c)
        (m_runId c) [PDate rolledBackAt t] []
  end.

Lemma step_parts m : m_status m = rollback_started ->
  executeCashWalletMigrationRollbackStep services m =
  (let! c := restored m in
   let! c' := reversed c in
   let! early := settling (negb (unset balanceMovePaymentTransactionId c)) c' in
   finishing c' early).
Proof.
  intros Hs. unfold executeCashWalletMigrationRollbackStep. by rewrite bool_decide_true.
Qed.

Lemma restored_run m w c w' : stored m (w_migrations w) -> restored m w = (Ok c, w') ->
  stored c (w_migrations w') /\ identity c = identity m /\ m_str c = m_str m.
Proof.
  intros Hst. unfold restored. case_bool_decide.
  - by apply restore_run.
  - unfold ret. intros [= <- <-]. done.
Qed.

Lemma reversed_run c w c' w' : stored c (w_migrations w) -> reversed c w = (Ok c', w') ->
  stored c' (w_migrations w') /\ untouched c c'.
Proof.
  intros Hst. unfold reversed. case_match.
  - by apply reverse_run.
  - unfold ret. intros [= <- <-]. done.
Qed.

Lemma unset_false f m : negb (unset f m) = true <-> has f m.
Proof.
  unfold unset, has. rewrite negb_true_iff, bool_decide_eq_false. apply not_eq_None_Some.
Qed.

Lemma pays_reversed c : pays (stored c) (reversed c) (reverse_payment services c).
Proof.
  unfold reversed. case_match eqn:E; [|apply pays_none, guarantees_ret, _].
  apply andb_true_iff in E as [E1%unset_false E2]. unfold unset in E2.
  apply bool_decide_eq_true in E2. by apply pays_reverse.
Qed.

Lemma pays_finish moved c : (moved = true -> has balanceMovePaymentTransactionId c) ->
  pays (stored c) (let! early := settling moved c in finishing c early) (topup_payment services c).
Proof.
  intros Hm w Hst. unfold settling, bind.
  assert (forall early, guarantees same_paid (finishing c early)) as Hf.
  { intros [p|]; [apply guarantees_ret, _|].
    apply guarantees_bind; [exact _|apply quiet_same_paid, law_now|]. intros t.
    apply same_paid_transition. }
  destruct moved; [|left; apply Hf].
  pose proof (pays_settle services c (Hm eq_refl) w Hst) as Hp.
  destruct (settle_shortfall services c w) as [[early|e|e] w1]; cbn in Hp |- *; [|done..].
  specialize (Hf early w1). unfold same_paid in Hf. by rewrite Hf.
Qed.

(** C5: what one step of a rollback pays. It makes at most one reverse payment
    and at most one treasury top-up, in this order, and only where none is on
    record. The reverse payment leaves the user's USDT wallet for the user's
    legacy wallet, never exceeds what was moved forward nor what the wallet can
    spend, misses the former by at most one cent and is payable; the top-up
    is exactly the shortfall of the legacy wallet, and more than one cent. *)
Theorem rollback_step_payments (m : migration) (w : world) :
  w_migrations w !! m_id m = Some m ->
  exists rev top,
    w_paid (executeCashWalletMigrationRollbackStep services m w).2 = w_paid w ++ rev ++ top /\
    (length rev <= 1)%nat /\ (length top <= 1)%nat /\
    Forall (reverse_payment services m) rev /\ Forall (topup_payment services m) top.
Proof.
  intros Hm. destruct (decide (m_status m = rollback_started)) as [Hs|Hs].
  2: { exists [], []. unfold executeCashWalletMigrationRollbackStep. rewrite bool_decide_false by done.
       cbn. rewrite app_nil_r. split_and!; done || lia. }
  rewrite step_parts by done. unfold bind at 1.
  assert (same_paid w (restored m w).2) as P1.
  { unfold restored. case_match; [by apply same_paid_restore|done]. }
  destruct (restored m w) as [[c|e|e] w1] eqn:E1; cbn in P1 |- *; unfold same_paid in P1;
    [|exists [], []; rewrite P1, app_nil_r; split_and!; done || (cbn; lia)..].
  destruct (restored_run m w c w1 Hm E1) as (Hst1 & I1 & S1).
  pose proof (pays_reversed c w1 Hst1) as P2. unfold bind at 1.
  assert (exists rev, w_paid (reversed c w1).2 = w_paid w ++ rev /\ (length rev <= 1)%nat /\
    Forall (reverse_payment services m) rev) as (rev & E & Hl & HF).
  { rewrite <- P1. destruct P2 as [->|(p & Hp & ->)]; [exists []|exists [p]].
    - rewrite app_nil_r. split_and!; done || (cbn; lia).
    - split_and!; [done|cbn; lia|]. apply Forall_singleton. by eapply reverse_payment_same. }
  exists rev. destruct (reversed c w1) as [[c'|e|e] w2] eqn:E2; cbn in E |- *;
    [|exists []; rewrite E, app_nil_r; split_and!; done || (cbn; lia)..].
  destruct (reversed_run c w1 c' w2 Hst1 E2) as (Hst2 & U2).
  assert (untouched m c') as Um.
  { eapply untouched_trans; [|exact U2]. split; [done|]. intros f _. by rewrite S1. }
  destruct (pays_finish (negb (unset balanceMovePaymentTransactionId c)) c') with (w := w2)
    as [->|(p & Hp & ->)]; [|done|exists []|exists [p]]; rewrite ?E, ?app_nil_r.
  - intros Hb%unset_false. unfold has in *. destruct U2 as [_ ->]; [done|by_computation; reflexivity].
  - split_and!; done || (cbn; lia).
  - rewrite <- app_assoc. split_and!; try done. apply Forall_singleton.
    by eapply topup_payment_same.
Qed.

(** How the settlement ends: the user is whole within a cent, or the treasury
    has just paid. *)
Lemma settle_run c w early w' : settle_shortfall services c w = (Ok early, w') ->
  (exists p, early = Some p /\ m_status p = rollback_started) \/
  (early = None /\ w_migrations w' = w_migrations w /\ exists source w1 current w2 shortfall n,
    m_str c !! sourceBalanceUsdCents = Some source /\
    readSourceBalanceUsdCents services c w1 = (Ok current, w2) /\
    legacyShortfallUsdtMicros source current = Ok shortfall /\
    bigint_of shortfall = Ok n /\ n <= 10000).
Proof.
  intros H. apply bind_Ok in H as (src & w1 & E1 & H). unfold need in E1.
  destruct (m_str c !! sourceBalanceUsdCents) as [src'|]; [|done].
  unfold ret in E1. injection E1 as -> <-.
  apply bind_Ok in H as (cur & w2 & E2 & H).
  apply bind_Ok in H as (sf & w3 & E3 & H). unfold lift in E3. injection E3 as E3 <-.
  apply bind_Ok in H as (n & w4 & E4 & H). unfold lift in E4. injection E4 as E4 <-.
  destruct (Z.ltb_spec ROLLBACK_SHORTFALL_TOLERANCE_USDT_MICROS n) as [_|Hn].
  - left. destruct (negb _); [done|]. repeat (apply bind_Ok in H as (? & ? & ? & H)).
    unfold ret in H. injection H as <- <-. eexists. split; [done|].
    by match goal with K : patchRollbackProgress _ _ _ = _ |- _ =>
      apply transition_Ok in K as (? & ? & _ & _ & -> & _) end.
  - right. unfold ret in H. injection H as <- <-. split; [done|].
    split; [by destruct (quiet_run _ _ _ _ (law_readSource c) E2)|].
    exists src, w, cur, w2, sf, n. done.
Qed.

(** C6: a rollback finishes only when the user is whole. If the step leaves a
    migration whose balance had been moved in [rolled_back], then the pointer
    restore is on record, the balance was paid back (unless it was zero), and
    the balance read last from the legacy wallet is short of the original one
    by at most one cent. *)
Theorem rollback_makes_whole (m m' : migration) (w w' : world) :
  migrations_ok (w_migrations w) -> w_migrations w !! m_id m = Some m ->
  has balanceMovePaymentTransactionId m ->
  executeCashWalletMigrationRollbackStep services m w = (Ok m', w') ->
  m_status m' = rolled_back ->
  dated rollbackPointerRestoredAt m' /\
  (m_str m' !! destinationAmountUsdtMicros = Some "0" \/ has rollbackPaymentTransactionId m') /\
  exists source c w1 current w2 shortfall n,
    m_str m !! sourceBalanceUsdCents = Some source /\ identity c = identity m /\
    readSourceBalanceUsdCents services c w1 = (Ok current, w2) /\
    legacyShortfallUsdtMicros source current = Ok shortfall /\
    bigint_of shortfall = Ok n /\ n <= 10000.
Proof.
  intros Hok Hm Hb H Hrb.
  destruct (rollback_step_ok services m w Hok Hm) as [Hok' Hst']. rewrite H in Hok', Hst'. cbn in *.
  pose proof (wf_rolled_back _ (ok_wf _ Hok' _ _ (Hst' m' eq_refl)) Hrb) as (Hd & _ & Hset).
  assert (m_status m = rollback_started) as Hs.
  { unfold executeCashWalletMigrationRollbackStep in H. by case_bool_decide. }
  rewrite step_parts in H by done.
  apply bind_Ok in H as (c & w1 & E1 & H). destruct (restored_run m w c w1 Hm E1) as (Hst1 & I1 & S1).
  apply bind_Ok in H as (c' & w2 & E2 & H). destruct (reversed_run c w1 c' w2 Hst1 E2) as (Hst2 & I2 & S2).
  apply bind_Ok in H as (early & w3 & E3 & H).
  assert (negb (unset balanceMovePaymentTransactionId c) = true) as Hmv
    by (apply unset_false; unfold has; rewrite S1; done).
  rewrite Hmv in E3. unfold settling in E3.
  apply settle_run in E3 as [(p & -> & Hp)|(-> & Ew & src & wa & cur & wb & sf & n & Hsrc & Hr)].
  { cbn in H. unfold ret in H. simplify_eq. congruence. }
  apply bind_Ok in H as (t & w4 & E4 & H).
  apply transition_Ok in H as (m0 & t' & Hm0 & _ & -> & _).
  destruct (quiet_run _ _ _ _ law_now E4) as [Ew4 _]. unfold stored in Hst2.
  assert (m0 = c') as -> by congruence.
  split_and!; [done| |].
  - apply Hset. unfold has. cbn. rewrite S2, S1 by (by_computation; reflexivity). done.
  - rewrite S2, S1 in Hsrc by (by_computation; reflexivity).
    exists src, c', wa, cur, wb, sf, n. split_and!; try done; try apply Hr. congruence.
Qed.
End RollbackTheorems.

(** ** The operator's commands *)

Section Commands.
Context `{X : External}.

(** Pulling a migration into rollback. *)
Lemma request_ok m by_ reason t (P : gmap string migration -> Prop) :
  isRollbackableCashWalletMigrationStatus (m_status m) = true ->
  mtriple P (requestCashWalletMigrationRollback m by_ reason t) (fun m' ms' =>
    exists ms, P ms /\ ms' = <[m_id m := m']> ms /\ m_status m' = rollback_started).
Proof.
  intros Hr. apply mt_assert. intros _. apply bool_decide_eq_true in Hr.
  eapply mt_conseq; [apply (mt_transition _ _ _ _ _ _ _ P)|done|].
  - intros ms m0 t' _ _ Hw Hs.
    split; cbn; intros Hin; try (exfalso; status_absurd).
    split_and!; unfold has, dated; cbn; simplify_map_eq; eauto.
  - intros m' ms' (ms & m0 & t' & Hp & _ & _ & -> & -> & _). by exists ms.
Qed.

(** The collection left is well formed. *)
Lemma mt_keeps_ok {A} P (c : App A) Q :
  mtriple P c Q -> mtriple P c (fun a ms => migrations_ok ms /\ Q a ms).
Proof. intros H w Hok Hp. destruct (H w Hok Hp). auto. Qed.

(** Where a whole-run request leaves the migrations of its run. *)
Definition in_rollback (s : MigrationStatus) : Prop :=
  s ∈ [rollback_started; rolled_back; skipped_already_migrated].

(** Every migration of the run is in rollback or still to come. *)
Definition pending (v : Z) (run : string) (l : list migration) (ms : gmap string migration) : Prop :=
  (forall id m, ms !! id = Some m -> m_id m = id) /\
  forall id m, ms !! id = Some m -> in_run v run m = true -> in_rollback (m_status m) \/ m ∈ l.

Lemma not_rollbackable s :
  isRollbackableCashWalletMigrationStatus s = false -> in_rollback s.
Proof. unfold in_rollback. intros H. by_computation. by destruct s. Qed.

Lemma request_turn_ok v run reason by_ t r m l :
  mtriple (pending v run (m :: l)) (request_turn reason by_ false t r m) (fun _ => pending v run l).
Proof.
  destruct r as [d el rq sk ids]. unfold request_turn.
  destruct (isRollbackableCashWalletMigrationStatus (m_status m)) eqn:Hr; cbn [negb].
  - eapply mt_bind.
    { apply mt_keeps_ok, (request_ok m by_ reason t (pending v run (m :: l)) Hr). }
    intros m'. apply mt_ret. intros ms' (Hok' & ms & [Hid Hp] & -> & Hs).
    split; [apply (ok_id _ Hok')|]. intros id m0 [[<- <-]|[Hne Hm0]]%lookup_insert_Some Hrun.
    + left. rewrite Hs. unfold in_rollback. by_computation. reflexivity.
    + destruct (Hp id m0 Hm0 Hrun) as [?|Hin]; [by left|]. right.
      apply elem_of_cons in Hin as [->|]; [|done]. by rewrite (Hid _ _ Hm0) in Hne.
  - apply mt_ret. intros ms [Hid Hp]. split; [done|]. intros id m0 Hm0 Hrun.
    destruct (Hp id m0 Hm0 Hrun) as [?|Hin]; [by left|].
    apply elem_of_cons in Hin as [->|]; [|by right]. left. by apply not_rollbackable.
Qed.

(** C22: a whole-run rollback request that returns has pulled in the entire
    run: every migration of the run is in rollback, rolled back, or was on USDT
    before the run; and the collection stays well formed. *)
Theorem rollback_request_covers_run {LX : ExternalLaws} (v : Z) (run reason by_ : string)
    (w w' : world) (r : rollback_report) :
  migrations_ok (w_migrations w) ->
  requestPrimaryCashWalletRollback v run None reason by_ false w = (Ok r, w') ->
  migrations_ok (w_migrations w') /\
  forall id m, w_migrations w' !! id = Some m -> in_run v run m = true -> in_rollback (m_status m).
Proof.
  intros Hok H. apply bind_Ok in H as (t & w1 & Ht%new_Date_Ok & H).
  apply bind_Ok in H as (l & w2 & Hl & H). cbn in Hl.
  destruct (quiet_run _ _ _ _ (quiet_listByStatuses _ _ _ _) Hl) as [Ew _].
  pose proof (listByStatuses_all _ _ _ _ _ _ Hl) as Hall. rewrite <- Ht, <- Ew in Hok.
  destruct (mt_fold (request_turn reason by_ false t) (fun l _ => pending v run l) l
    (fun x l s => request_turn_ok v run reason by_ t s x l) (mkRollbackReport false 0 0 [] []) w2 Hok)
    as [Hok' Hq].
  { split; [apply (ok_id _ Hok)|]. intros id m Hm Hrun. rewrite Ew in Hm.
    destruct (decide (in_rollback (m_status m))) as [|Hn]; [by left|]. right.
    apply (Hall id); [done..|]. apply (bool_decide_eq_false_2 _) in Hn. by_computation.
    by destruct (m_status m). }
  rewrite H in Hok', Hq. split; [done|]. intros id m Hm Hrun.
  destruct (Hq r eq_refl) as [_ Hp]. destruct (Hp id m Hm Hrun) as [?|Hin]; [done|].
  by apply elem_of_nil in Hin.
Qed.

Lemma unresolved_complement s :
  s ∉ unresolved_statuses -> s = rolled_back \/ s = skipped_already_migrated.
Proof. intros H. apply (bool_decide_eq_true_2 _) in H. destruct s; try discriminate H; auto. Qed.

(** C33: the run is declared rolled back only when all of it is. A completion
    that returns found the configuration already rolled back and left it, or
    found it tracking this run with every migration of the run rolled back or
    skipped, and then wrote the state [rolled_back]. *)
Theorem rollback_completion_sound {LX : ExternalLaws} (v : Z) (run actor : string)
    (w w' : world) (c : config) :
  completePrimaryCashWalletRollback v run actor w = (Ok c, w') ->
  w_migrations w' = w_migrations w /\ c_state c = state_rolled_back /\
  ((w_config w' = w_config w /\ c = default defaultConfig (w_config w)) \/
   (w_config w' = Some c /\ c_runId c = Some run /\ c_cutoverVersion c = v /\
    c_runId (default defaultConfig (w_config w)) = Some run /\
    c_cutoverVersion (default defaultConfig (w_config w)) = v /\
    forall id m, w_migrations w !! id = Some m -> in_run v run m = true ->
      m_status m = rolled_back \/ m_status m = skipped_already_migrated)).
Proof.
  intros H. apply bind_Ok in H as (t & w1 & Ht & H). unfold new_Date in Ht. injection Ht as <- <-.
  apply bind_Ok in H as (cfg & w2 & Hc & H).
  destruct (quiet_run _ _ _ _ quiet_getConfig Hc) as (Em & Ec & _).
  apply guarded_Ok, bind_Ok in Hc as (o & w3 & Hc%mongo_Ok & Hret). unfold read in Hc.
  injection Hc as <- <-. unfold ret in Hret. injection Hret as <- <-. cbn in Em, Ec, H.
  case_bool_decide as Hst.
  { unfold ret in H. injection H as <- <-. split_and!; [done..|]. by left. }
  destruct (bool_decide_reflect (c_runId (default defaultConfig (w_config w)) = Some run)) as [Hr|];
    [|done].
  destruct (bool_decide_reflect (c_cutoverVersion (default defaultConfig (w_config w)) = v)) as [Hv|];
    [|done]. cbn [negb orb] in H.
  apply bind_Ok in H as (l & w4 & Hl & H).
  destruct (listByStatuses_Ok _ _ _ _ _ _ _ Hl) as (E4 & _ & Hnil). cbn in E4, Hnil.
  destruct l as [|m l]; [|done].
  apply guarded_Ok, bind_Ok in H as (t2 & w5 & Ht2 & H%mongo_Ok). unfold new_Date in Ht2.
  injection Ht2 as <- <-. injection H as <- <-. cbn. split_and!; [done..|].
  right. split_and!; [done..|]. intros id m Hm Hrun.
  apply unresolved_complement. by apply (Hnil eq_refl id m).
Qed.
End Commands.

(** ** Batches *)

Section RollbackBatch.
Context `{X : External}.
Variable services : MigrationServices.
Context {L : ServicesLaws services}.

Lemma evolving_patch c ps : guarantees (evolving fallible_rel) (patchRollbackProgress c ps).
Proof. by apply (evolving_transition fallible_rel); left. Qed.

Lemma evolving_invoice o a memo (k : LnInvoice -> App migration) c :
  (forall inv, guarantees (evolving fallible_rel) (k inv)) ->
  guarantees (evolving fallible_rel) (
    let! b := needs_invoice services o in
    if b : bool then let! invoice := createNoAmountInvoice services a memo in k invoice else ret c).
Proof.
  intros Hk. apply (evolving_quiet_bind fallible_rel); [apply quiet_needs_invoice, _|].
  intros []; [|apply guarantees_ret, _].
  apply (evolving_quiet_bind fallible_rel); [apply law_createNoAmountInvoice|done].
Qed.

Lemma evolving_reverse c : guarantees (evolving fallible_rel) (reverse_move services c).
Proof.
  apply (evolving_quiet_bind fallible_rel); [apply quiet_need|]. intros d.
  destruct (bool_decide (d = "0")); [apply guarantees_ret, _|].
  apply (evolving_lift_bind fallible_rel). intros target _. apply (evolving_quiet_bind fallible_rel); [apply law_readSpendable|].
  intros s. apply (evolving_lift_bind fallible_rel). intros sp _. cbn zeta.
  set (ra := if sp <? target then sp else target).
  destruct (_ <? target - ra); [apply guarantees_fail, _|].
  destruct (ra <? _); [apply guarantees_fail, _|].
  apply guarantees_bind; [exact _|apply evolving_invoice; intros; apply evolving_patch|].
  intros c'. apply (evolving_quiet_bind fallible_rel); [apply quiet_need|]. intros request.
  apply guarantees_bind; [exact _|by apply (evolving_pay _ fallible_rel)|]. intros tx. apply evolving_patch.
Qed.

Lemma evolving_settle c : guarantees (evolving fallible_rel) (settle_shortfall services c).
Proof.
  apply (evolving_quiet_bind fallible_rel); [apply quiet_need|]. intros src.
  apply (evolving_quiet_bind fallible_rel); [apply law_readSource|]. intros cur.
  apply (evolving_lift_bind fallible_rel). intros sf _. apply (evolving_lift_bind fallible_rel). intros n _.
  destruct (_ <? n); [|apply guarantees_ret, _]. destruct (negb _); [apply guarantees_fail, _|].
  apply (evolving_quiet_bind fallible_rel); [apply law_getTreasury|]. intros tr.
  apply guarantees_bind; [exact _|apply evolving_invoice; intros; apply evolving_patch|].
  intros c'. apply (evolving_quiet_bind fallible_rel); [apply quiet_need|]. intros request.
  apply guarantees_bind; [exact _|by apply (evolving_pay _ fallible_rel)|]. intros tx.
  apply guarantees_bind; [exact _|apply evolving_patch|]. intros p. apply guarantees_ret, _.
Qed.

Lemma evolving_rollback_step m :
  guarantees (evolving fallible_rel) (executeCashWalletMigrationRollbackStep services m).
Proof.
  destruct (decide (m_status m = rollback_started)) as [Hs|Hs].
  2: { unfold executeCashWalletMigrationRollbackStep. rewrite bool_decide_false by done.
       apply guarantees_fail, _. }
  rewrite step_parts by done. apply guarantees_bind; [exact _| |intros c].
  { unfold restored. case_match; [|apply guarantees_ret, _].
    apply (evolving_quiet_bind fallible_rel); [apply quiet_restore, _|]. intros _.
    apply (evolving_quiet_bind fallible_rel); [apply law_now|]. intros t. apply evolving_patch. }
  apply guarantees_bind; [exact _| |intros c'].
  { unfold reversed. case_match; [apply evolving_reverse|apply guarantees_ret, _]. }
  apply guarantees_bind; [exact _| |intros [p|]; [apply guarantees_ret, _|]].
  { unfold settling. case_match; [apply evolving_settle|apply guarantees_ret, _]. }
  apply (evolving_quiet_bind fallible_rel); [apply law_now|]. intros t.
  apply (evolving_transition fallible_rel). right; right. done.
Qed.

(** A rollback step makes the transitions of its own document only. *)
Lemma own_patch m c ps : m_id c = m_id m -> own_document m (patchRollbackProgress c ps).
Proof. intros E. unfold own_document. rewrite <- E. apply fr_transition. Qed.

Lemma own_invoice m o a memo (k : LnInvoice -> App migration) c : m_id c = m_id m ->
  (forall inv, own_document m (k inv)) ->
  own_document m (
    let! b := needs_invoice services o in
    if b : bool then let! invoice := createNoAmountInvoice services a memo in k invoice else ret c).
Proof.
  intros Hc Hk. apply fr_quiet_bind; [apply quiet_needs_invoice, _|].
  intros []; [|by apply fr_ret]. apply fr_quiet_bind; [apply law_createNoAmountInvoice|done].
Qed.

Lemma own_reverse m c : m_id c = m_id m -> own_document m (reverse_move services c).
Proof.
  intros Hc. apply fr_quiet_bind; [apply quiet_need|]. intros d.
  destruct (bool_decide (d = "0")); [by apply fr_ret|].
  apply fr_lift_bind. intros target _. apply fr_quiet_bind; [apply law_readSpendable|].
  intros s. apply fr_lift_bind. intros sp _. cbn zeta.
  destruct (_ <? _); [apply fr_fail|]. destruct (_ <? _); [apply fr_fail|].
  apply (fr_bind _ _ _ (fun c' => m_id c' = m_id m));
    [apply own_invoice; [done|]; intros; by apply own_patch|].
  intros c' Hc'. apply fr_quiet_bind; [apply quiet_need|]. intros request.
  apply fr_pay_bind; [exact _|]. intros tx. by apply own_patch.
Qed.

Lemma own_settle m c : m_id c = m_id m ->
  frames [m_id m] (settle_shortfall services c) (fun _ => True).
Proof.
  intros Hc. apply fr_quiet_bind; [apply quiet_need|]. intros src.
  apply fr_quiet_bind; [apply law_readSource|]. intros cur.
  apply fr_lift_bind. intros sf _. apply fr_lift_bind. intros n _.
  destruct (_ <? n); [|by apply fr_ret]. destruct (negb _); [apply fr_fail|].
  apply fr_quiet_bind; [apply law_getTreasury|]. intros tr.
  apply (fr_bind _ _ _ (fun c' => m_id c' = m_id m));
    [apply own_invoice; [done|]; intros; by apply own_patch|].
  intros c' Hc'. apply fr_quiet_bind; [apply quiet_need|]. intros request.
  apply fr_pay_bind; [exact _|]. intros tx.
  apply (fr_bind _ _ _ (fun c' => m_id c' = m_id m)); [by apply own_patch|]. intros p _. by apply fr_ret.
Qed.

Lemma own_rollback_step m :
  frames [m_id m] (executeCashWalletMigrationRollbackStep services m) (fun _ => True).
Proof.
  destruct (decide (m_status m = rollback_started)) as [Hs|Hs].
  2: { unfold executeCashWalletMigrationRollbackStep. rewrite bool_decide_false by done. apply fr_fail. }
  rewrite step_parts by done. apply (fr_bind _ _ _ (fun c => m_id c = m_id m)); [|intros c Hc].
  { unfold restored. case_match; [|by apply fr_ret].
    apply fr_quiet_bind; [apply quiet_restore, _|]. intros _.
    apply fr_quiet_bind; [apply law_now|]. intros t. by apply own_patch. }
  apply (fr_bind _ _ _ (fun c => m_id c = m_id m)); [|intros c' Hc'].
  { unfold reversed. case_match; [by apply own_reverse|by apply fr_ret]. }
  apply (fr_bind _ _ _ (fun _ => True)); [|intros [p|] _; [by apply fr_ret|]].
  { unfold settling. case_match; [by apply own_settle|by apply fr_ret]. }
  apply fr_quiet_bind; [apply law_now|]. intros t.
  rewrite <- Hc'. by eapply fr_conseq; [apply fr_transition|auto..].
Qed.

Context {EL : ExternalLaws}.

(** The documents a rollback batch may change are those of its run whose rollback
    has started. *)
Lemma batch_changes v run worker limit stale w :
  migrations_ok (w_migrations w) ->
  forall id, match w_migrations w !! id with
    | Some m => m_status m = rollback_started /\ in_run v run m = true
    | None => False
    end \/
    w_migrations (runPrimaryCashWalletRollbackBatch services v run worker limit stale w).2 !! id =
      w_migrations w !! id.
Proof.
  intros Hok id. unfold runPrimaryCashWalletRollbackBatch, runCashWalletMigrationBatch, bind.
  pose proof (quiet_listByStatuses v run [rollback_started] limit w) as Hq.
  destruct (listMigrationsByStatuses _ _ _ _ w) as [[l|e|e] w1] eqn:Hl; cbn in Hq |- *;
    destruct Hq as (Em & _); [|by right; rewrite Em..].
  destruct (listByStatuses_Ok _ _ _ _ _ _ _ Hl) as (_ & Hin & _).
  destruct (decide (id ∈ m_id <$> l)) as [(m & -> & Hm)%list_elem_of_fmap|Hni].
  - left. destruct (Hin m Hm) as (Hr & Hs%list_elem_of_singleton & id & Hid).
    by rewrite (ok_id _ Hok _ _ Hid), Hid.
  - right. rewrite <- Em.
    refine (proj1 (proj2 (fr_fold m_id _ l _ _ w1 _)) id Hni); [|rewrite Em; exact (ok_id _ Hok)].
    intros r m. apply fr_turn; [exact own_rollback_step|].
    intros id' e s. by eapply fr_conseq; [apply fr_mark|auto..].
Qed.

(** C10: a rollback batch keeps the collection well formed, whatever fails: no
    migration whose balance had been moved is [rolled_back] without its pointer
    restore and its reverse payment on record. It adds no document, keeps every
    document and its identity, and changes only documents of its run whose status
    is [rollback_started]; such a status stays, or becomes [rolled_back] or
    [requires_operator_review]. A sorted listing has the documents it sorts
    ([ExternalLaws]). *)
Theorem rollback_batch_invariant (v : Z) (run worker : string) (limit : option nat) (stale : Z)
    (w : world) :
  migrations_ok (w_migrations w) ->
  let w' := (runPrimaryCashWalletRollbackBatch services v run worker limit stale w).2 in
  migrations_ok (w_migrations w') /\
  evolves rollback_rel (w_migrations w) (w_migrations w') /\
  forall id, match w_migrations w !! id with
    | Some m => m_status m = rollback_started /\ in_run v run m = true \/ w_migrations w' !! id = Some m
    | None => w_migrations w' !! id = None
    end.
Proof.
  intros Hok. cbn zeta. pose proof (batch_changes v run worker limit stale w Hok) as Hc.
  assert (evolves fallible_rel (w_migrations w) (w_migrations
    (runPrimaryCashWalletRollbackBatch services v run worker limit stale w).2)) as Hev.
  { refine (proj1 (evolving_batch _ _ _ _ _ _ _ fallible_rel _ _ _ w)).
    - apply quiet_listByStatuses.
    - intros l. apply evolving_rollback_step.
    - intros id e s. apply (evolving_mark fallible_rel). intros s0. by right; left. }
  split_and!.
  - refine (proj1 (mt_batch _ _ _ _ _ _ _ _ _ _ w Hok I)).
    + apply quiet_listByStatuses.
    + intros l. by apply rollback_step_ok.
    + intros id e s. apply mt_mark. by_computation. reflexivity.
  - intros id m Hm. destruct (Hev id m Hm) as (m' & Hm' & Hi & Hs). exists m'. split_and!; [done..|].
    specialize (Hc id). rewrite Hm in Hc. destruct Hc as [[Hst _]|E].
    + rewrite Hst in Hs |- *. by apply fallible_started.
    + left. congruence.
  - intros id. specialize (Hc id). destruct (w_migrations w !! id) as [m|]; naive_solver.
Qed.
End RollbackBatch.
