(* ===== verification/CutoverRetry.v ===== *)
(** * Cash wallet cutover: retrying failed migrations

    Model of [src/src/app/cash-wallet-cutover/retry-failed.ts]: an operator puts
    [failed] migrations back on the pipeline, unless a payment is on record. *)

From stdpp Require Import base gmap list strings.
From Stdlib Require Import ZArith Lia.
From S2P Require Import Prelude JsStrings Errors CutoverStateMachine CutoverAmounts World Repos.
From S2P Require Import CutoverRepo CutoverWorker CutoverRollback.

Open Scope Z_scope.

Record retry_report := mkRetry {
  rt_dryRun : bool;
  rt_eligible : Z;
  rt_retried : Z;
  rt_skippedMoneyMoved : Z;
  rt_conflicts : Z;
  rt_resumedAt : list (MigrationStatus * Z);
  rt_migrationIds : list string
}.

(** [resumedAt[status] = (resumedAt[status] ?? 1) - 1] *)
Fixpoint unbump (s : MigrationStatus) (l : list (MigrationStatus * Z)) : list (MigrationStatus * Z) :=
  match l with
  | [] => [(s, 0)]
  | (t, n) :: l' => if bool_decide (t = s) then (t, n - 1) :: l' else (t, n) :: unbump s l'
  end.

(** A payment is on record. *)
Definition money_moved (m : migration) : bool :=
  negb (unset balanceMovePaymentTransactionId m) ||
  negb (unset feeReimbursementPaymentTransactionId m).

Definition resume_status (m : migration) : MigrationStatus :=
  if unset previousDefaultWalletId m then not_started else pointer_flipped.

Definition cleared_fields (resumeStatus : MigrationStatus) : list str_field :=
  if bool_decide (resumeStatus = not_started) then
    [lastError; sourceBalanceUsdCents; destinationAmountUsdtMicros;
     destinationStartingBalanceUsdtMicros; feeAmountUsdCents; feeAmountUsdtMicros;
     balanceMoveInvoicePaymentRequest; balanceMoveInvoicePaymentHash;
     feeReimbursementInvoicePaymentRequest; feeReimbursementInvoicePaymentHash]
  else [lastError].

Section Retry.
Context `{X : External}.

Definition retry_candidates (cutoverVersion : Z) (runId : string) (accountId : option string) :
    App (list migration) :=
  match accountId with
  | Some a =>
      let! m := findMigrationByAccountId a cutoverVersion runId in
      match m with
      | None => fail (new_error CashWalletMigrationFailedError
                        ("No migration found for accountId=" +:+ a +:+ " runId=" +:+ runId))
      | Some m =>
          if negb (bool_decide (m_status m = failed)) then
            fail (new_error CashWalletMigrationFailedError
              ("Migration for accountId=" +:+ a +:+ " is " +:+ status_name (m_status m) +:+
               ", not failed"))
          else ret [m]
      end
  | None => listMigrationsByStatuses cutoverVersion runId [failed] None
  end.

Section Turn.
Variables (cutoverVersion : Z) (runId : string) (dryRun : bool).

(** One turn of the loop. A transition that fails counts as a conflict and
    takes the migration back out of the report. *)
Definition retry_turn (r : retry_report) (m : migration) : App retry_report :=
  let '(mkRetry d eligible retried moved conflicts resumed ids) := r in
  if money_moved m then ret (mkRetry d eligible retried (moved + 1) conflicts resumed ids)
  else
    let s := resume_status m in
    if dryRun then
      ret (mkRetry d (eligible + 1) retried moved conflicts (bump s resumed) (ids ++ [m_id m]))
    else
      let! transitioned := attempt (transitionMigration (m_id m) failed s cutoverVersion runId
                                      [PAttempts 0] (cleared_fields s)) in
      match transitioned with
      | inl _ =>
          ret (mkRetry d eligible retried moved (conflicts + 1) (unbump s (bump s resumed)) ids)
      | inr _ =>
          ret (mkRetry d (eligible + 1) (retried + 1) moved conflicts (bump s resumed)
                 (ids ++ [m_id m]))
      end.
End Turn.

Definition retryFailedCashWalletMigrations (cutoverVersion : Z) (runId : string)
    (accountId : option string) (dryRun : bool) : App retry_report :=
  let! candidates := retry_candidates cutoverVersion runId accountId in
  fold_m (retry_turn cutoverVersion runId dryRun) (mkRetry dryRun 0 0 0 0 [] []) candidates.

(** ** What a retry leaves alone *)

(** The documents a retry works on are those stored. *)
Lemma candidates_run {LX : ExternalLaws} v run a w l w' :
  retry_candidates v run a w = (Ok l, w') ->
  w_migrations w' = w_migrations w /\
  forall m, m ∈ l -> m_status m = failed /\ exists id, w_migrations w !! id = Some m.
Proof.
  unfold retry_candidates. destruct a as [a|].
  - intros H. apply bind_Ok in H as (o & w1 & H1 & H).
    destruct (quiet_run _ _ _ _ (quiet_findByAccount _ _ _) H1) as [Ew _].
    apply guarded_Ok, mongo_Ok in H1. unfold read in H1. injection H1 as E _.
    destruct o as [m|]; [|done]. case_bool_decide as Hs; cbn [negb] in H; [|done].
    unfold ret in H. injection H as <- <-. split; [done|].
    intros m' ->%list_elem_of_singleton. split; [done|]. by apply find_doc_Some in E as [_ ?].
  - intros (E & H & _)%listByStatuses_Ok. split; [done|]. intros m Hm.
    destruct (H m Hm) as (_ & Hs & ?). split; [|done]. by apply list_elem_of_singleton in Hs.
Qed.

Lemma quiet_candidates v run a : guarantees quiet (retry_candidates v run a).
Proof.
  unfold retry_candidates. destruct a; [|apply quiet_listByStatuses].
  apply guarantees_bind; [exact _|apply quiet_findByAccount|]. intros [m|]; [|apply guarantees_fail, _].
  case_match; [apply guarantees_fail, _|apply guarantees_ret, _].
Qed.

(** A transition changes no document but its own. *)
Lemma transition_frame id from to v run patch clear w id' : id' ≠ id ->
  w_migrations (transitionMigration id from to v run patch clear w).2 !! id' = w_migrations w !! id'.
Proof.
  intros Hne.
  set (op := find_and_update id (fun m => bool_decide (m_status m = from) && in_run v run m)
               (transition_upd to patch clear (clock (w_reads w)))).
  assert (forall w0, w_migrations (op w0).2 !! id' = w_migrations w0 !! id') as H.
  { intros w0. unfold op, find_and_update. repeat case_match; cbn; [|done..].
    by apply lookup_insert_ne. }
  unfold transitionMigration, guarded, catch, bind, new_Date, mongo. fold op. cbn -[op].
  specialize (H (next_op (next_read w))).
  destruct (mongo_fault _) as [[]|]; cbn in *; [done..|].
  destruct (op _) as [[[m|]|e|e] w1]; cbn in *; done.
Qed.

Lemma turn_frame v run dry r m w id : (m_id m = id -> money_moved m = true) ->
  w_migrations (retry_turn v run dry r m w).2 !! id = w_migrations w !! id /\
  exists r', (retry_turn v run dry r m w).1 = Ok r'.
Proof.
  intros Hm. destruct r as [d el rt mv cf rs ids]. unfold retry_turn.
  destruct (money_moved m); [by eauto|]. destruct dry; [by eauto|]. unfold bind, attempt.
  pose proof (transition_frame (m_id m) failed (resume_status m) v run [PAttempts 0]
    (cleared_fields (resume_status m)) w id) as Hf.
  destruct (transitionMigration _ _ _ _ _ _ _ w) as [[m'|e|e] w1] eqn:E; cbn in *.
  1,2: split; [apply Hf; intros ->; by discriminate (Hm eq_refl)|eauto].
  exfalso. unfold transitionMigration, guarded, catch, fail in E. case_match. by case_match.
Qed.

Lemma fold_frame v run dry l r w id :
  (forall m, m ∈ l -> m_id m = id -> money_moved m = true) ->
  w_migrations (fold_m (retry_turn v run dry) r l w).2 !! id = w_migrations w !! id.
Proof.
  revert r w. induction l as [|m l IH]; intros r w H; cbn [fold_m]; [done|].
  destruct (turn_frame v run dry r m w id) as [E [r' E']]; [apply H; by left|].
  unfold bind. destruct (retry_turn v run dry r m w) as [o w1]. cbn in *. subst o.
  rewrite <- E. apply IH. intros m' Hm'. apply H. by right.
Qed.

End Retry.

(** ** What a retry does *)

Section RetryProofs.
Context `{X : External} {LX : ExternalLaws}.

(** A document put back on the pipeline. *)
Definition resumed (t : Z) (m : migration) : migration :=
  transition_upd (resume_status m) [PAttempts 0] (cleared_fields (resume_status m)) t m.

Lemma resumed_wf t m : migration_wf (resumed t m).
Proof.
  unfold resumed, resume_status, unset. case_bool_decide as Hp.
  - apply wf_parked. cbn. by_computation. reflexivity.
  - split; cbn; intros Hs; try (exfalso; status_absurd).
    unfold has. change (cleared_fields pointer_flipped) with [lastError]. cbn.
    rewrite lookup_delete_ne by done. by apply not_eq_None_Some.
Qed.

Lemma transition_throws id from to v run patch clear w e w' :
  transitionMigration id from to v run patch clear w ≠ (Throw e, w').
Proof. unfold transitionMigration, guarded, catch, fail. repeat case_match; congruence. Qed.

(** The columns of a report known explicitly. *)
Ltac report_column :=
  eexists; split; [reflexivity|]; cbn; rewrite ?length_app; cbn; split_and!; intros; lia || done.

(** Each turn adds its migration to one column of the report. *)
Lemma turn_report v run dry r m w : exists r',
  (retry_turn v run dry r m w).1 = Ok r' /\
  rt_eligible r' + rt_skippedMoneyMoved r' + rt_conflicts r' =
    rt_eligible r + rt_skippedMoneyMoved r + rt_conflicts r + 1 /\
  rt_conflicts r <= rt_conflicts r' /\
  (Z.of_nat (length (rt_migrationIds r)) = rt_eligible r ->
     Z.of_nat (length (rt_migrationIds r')) = rt_eligible r') /\
  (dry = false -> rt_retried r = rt_eligible r -> rt_retried r' = rt_eligible r').
Proof.
  destruct r as [d el rt mv cf rs ids]. unfold retry_turn.
  destruct (money_moved m); [report_column|].
  destruct dry; [report_column|].
  unfold bind, attempt.
  destruct (transitionMigration _ _ _ _ _ _ _ w) as [[m'|e|e] w1] eqn:E; cbn.
  1,2: report_column.
  by apply transition_throws in E.
Qed.

Lemma fold_report v run dry l r w : exists r',
  (fold_m (retry_turn v run dry) r l w).1 = Ok r' /\
  rt_eligible r' + rt_skippedMoneyMoved r' + rt_conflicts r' =
    rt_eligible r + rt_skippedMoneyMoved r + rt_conflicts r + Z.of_nat (length l) /\
  rt_conflicts r <= rt_conflicts r' /\
  (Z.of_nat (length (rt_migrationIds r)) = rt_eligible r ->
     Z.of_nat (length (rt_migrationIds r')) = rt_eligible r') /\
  (dry = false -> rt_retried r = rt_eligible r -> rt_retried r' = rt_eligible r').
Proof.
  revert r w. induction l as [|m l IH]; intros r w; cbn [fold_m].
  { exists r. cbn. split_and!; lia || done. }
  destruct (turn_report v run dry r m w) as (r1 & E1 & H1 & H2 & H3 & H4). unfold bind.
  destruct (retry_turn v run dry r m w) as [o w1]. cbn in E1. subst o.
  destruct (IH r1 w1) as (r2 & E2 & K1 & K2 & K3 & K4). exists r2. cbn [length].
  split_and!; [done|lia|lia|auto|auto].
Qed.

(** The turn of an eligible migration that is stored. *)
Lemma turn_resumes v run r m w :
  migrations_ok (w_migrations w) -> stored m (w_migrations w) ->
  let w' := (retry_turn v run false r m w).2 in
  migrations_ok (w_migrations w') /\
  forall r', (retry_turn v run false r m w).1 = Ok r' -> rt_conflicts r' = rt_conflicts r ->
    money_moved m = true \/ exists t, w_migrations w' !! m_id m = Some (resumed t m).
Proof.
  intros Hok Hst. cbn zeta. destruct r as [d el rt mv cf rs ids]. unfold retry_turn.
  destruct (money_moved m); [by split; auto|]. unfold bind, attempt.
  destruct (mt_transition (m_id m) failed (resume_status m) v run [PAttempts 0]
    (cleared_fields (resume_status m)) (stored m)) with (w := w) as [Hok' Hq]; [|done|done|].
  { intros ms m0 t Hs Hm0 _ _. unfold stored in Hs. assert (m0 = m) as -> by congruence.
    apply resumed_wf. }
  destruct (transitionMigration _ _ _ _ _ _ _ w) as [[m'|e|e] w1] eqn:E; cbn in *.
  - split; [done|]. intros _ _ _. right.
    destruct (Hq m' eq_refl) as (ms & m0 & t & Hs & Hm0 & _ & -> & -> & _).
    unfold stored in Hs. assert (m0 = m) as -> by congruence. exists t. apply lookup_insert_eq.
  - split; [done|]. intros r' [= <-]. cbn. lia.
  - by apply transition_throws in E.
Qed.

Lemma turn_other v run dry r m w id : id ≠ m_id m ->
  w_migrations (retry_turn v run dry r m w).2 !! id = w_migrations w !! id.
Proof. intros Hne. apply turn_frame. intros <-. done. Qed.

Lemma fold_resumes v run l r w :
  migrations_ok (w_migrations w) -> (forall m, m ∈ l -> stored m (w_migrations w)) ->
  NoDup (m_id <$> l) ->
  let w' := (fold_m (retry_turn v run false) r l w).2 in
  migrations_ok (w_migrations w') /\
  forall r', (fold_m (retry_turn v run false) r l w).1 = Ok r' -> rt_conflicts r' = rt_conflicts r ->
    forall m, m ∈ l ->
      money_moved m = true \/ exists t, w_migrations w' !! m_id m = Some (resumed t m).
Proof.
  revert r w. induction l as [|x l IH]; intros r w Hok Hst Hnd; cbn [fold_m].
  { split; [done|]. intros ? _ _ m Hm. by apply elem_of_nil in Hm. }
  cbn in Hnd. apply NoDup_cons in Hnd as [Hx Hnd].
  destruct (turn_resumes v run r x w Hok (Hst x ltac:(by left))) as [Hok1 Hr1].
  destruct (turn_report v run false r x w) as (r1 & E1 & _ & C1 & _).
  assert (forall id, id ≠ m_id x ->
    w_migrations (retry_turn v run false r x w).2 !! id = w_migrations w !! id) as Hf
    by (intros id; apply turn_other).
  unfold bind. destruct (retry_turn v run false r x w) as [o w1]. cbn in *. subst o.
  assert (forall m, m ∈ l -> m_id m ≠ m_id x) as Hne.
  { intros m Hm E. apply Hx. rewrite <- E. by apply list_elem_of_fmap_2. }
  destruct (IH r1 w1) as [Hok2 Hr2]; [done| |done|].
  { intros m Hm. unfold stored. rewrite Hf by auto. apply Hst. by right. }
  destruct (fold_report v run false l r1 w1) as (r2 & E2 & _ & C2 & _).
  split; [done|]. intros r' E Hc m Hm. rewrite E in E2. injection E2 as <-.
  apply elem_of_cons in Hm as [->|Hm]; [|apply (Hr2 r' E); [lia|done]].
  destruct (Hr1 r1 eq_refl) as [|[t Ht]]; [lia|by left|]. right. exists t.
  rewrite fold_frame; [done|]. intros m Hm Hid. by destruct (Hne m Hm).
Qed.

(** The candidates are distinct. *)
Lemma candidates_distinct v run a w l w' : migrations_ok (w_migrations w) ->
  retry_candidates v run a w = (Ok l, w') -> NoDup (m_id <$> l).
Proof.
  intros Hok. unfold retry_candidates. destruct a as [a|].
  - intros H. apply bind_Ok in H as (o & w1 & H1 & H). destruct o as [m|]; [|done].
    case_bool_decide; cbn [negb] in H; [|done]. unfold ret in H. injection H as <- <-.
    apply NoDup_singleton.
  - intros H%guarded_Ok%mongo_Ok. unfold read in H. injection H as <- _.
    by apply (listing_distinct _ None (next_op w)).
Qed.

(** What a transition out of [failed] leaves of a stored document. *)
Lemma transition_effect m to v run patch clear w : stored m (w_migrations w) ->
  let w' := (transitionMigration (m_id m) failed to v run patch clear w).2 in
  w_migrations w' !! m_id m = Some m \/
  (m_status m = failed /\ exists t, w_migrations w' !! m_id m = Some (transition_upd to patch clear t m)).
Proof.
  intros Hm. unfold stored in Hm. cbv zeta.
  set (op := find_and_update (m_id m) (fun m => bool_decide (m_status m = failed) && in_run v run m)
               (transition_upd to patch clear (clock (w_reads w)))).
  assert (forall w0, w_migrations w0 !! m_id m = Some m ->
    w_migrations (op w0).2 !! m_id m = Some m \/
    (m_status m = failed /\ exists t, w_migrations (op w0).2 !! m_id m = Some (transition_upd to patch clear t m)))
    as H.
  { intros w0 H0. unfold op, find_and_update. rewrite H0. destruct (bool_decide _ && _) eqn:E; [|by left].
    apply andb_true_iff in E as [Hs%bool_decide_eq_true _]. right. split; [done|].
    exists (clock (w_reads w)). cbn. apply lookup_insert_eq. }
  unfold transitionMigration, guarded, catch, bind, new_Date, mongo. fold op. cbn -[op].
  specialize (H (next_op (next_read w)) Hm).
  destruct (mongo_fault _) as [[]|]; cbn in *; [by left|done|].
  destruct (op _) as [[[m'|]|e|e] w1]; cbn in *; done.
Qed.

(** What a run of turns leaves of a document. *)
Definition retried_or_kept (dry : bool) (before after : option migration) : Prop :=
  after = before \/
  exists m t, before = Some m /\ dry = false /\ m_status m = failed /\
    m_str m !! balanceMovePaymentTransactionId = None /\
    m_str m !! feeReimbursementPaymentTransactionId = None /\ after = Some (resumed t m).

Lemma turn_effect v run dry r m w : stored m (w_migrations w) ->
  retried_or_kept dry (w_migrations w !! m_id m) (w_migrations (retry_turn v run dry r m w).2 !! m_id m).
Proof.
  intros Hm. destruct r as [d el rt mv cf rs ids]. unfold retry_turn.
  destruct (money_moved m) eqn:Hmv; [by left|]. destruct dry; [by left|]. unfold bind, attempt.
  pose proof (transition_effect m (resume_status m) v run [PAttempts 0] (cleared_fields (resume_status m)) w Hm) as Hf.
  unfold money_moved, unset in Hmv. apply orb_false_iff in Hmv as [H1 H2].
  apply negb_false_iff, bool_decide_eq_true in H1, H2. unfold stored in Hm. rewrite Hm.
  destruct (transitionMigration _ _ _ _ _ _ _ w) as [[m'|e|e] w1]; cbn in *;
    (destruct Hf as [Hf|(Hs & t & Hf)]; [by left|right; exists m, t; by split_and!]).
Qed.

Lemma fold_effect v run dry l r w id :
  (forall m, m ∈ l -> stored m (w_migrations w)) -> NoDup (m_id <$> l) ->
  retried_or_kept dry (w_migrations w !! id) (w_migrations (fold_m (retry_turn v run dry) r l w).2 !! id).
Proof.
  revert r w. induction l as [|x l IH]; intros r w Hst Hnd; cbn [fold_m]; [by left|].
  cbn in Hnd. apply NoDup_cons in Hnd as [Hx Hnd].
  pose proof (turn_effect v run dry r x w (Hst x ltac:(by left))) as He.
  assert (forall id, id ≠ m_id x ->
    w_migrations (retry_turn v run dry r x w).2 !! id = w_migrations w !! id) as Hf
    by (intros id'; apply turn_other).
  destruct (turn_report v run dry r x w) as (r1 & E1 & _).
  unfold bind. destruct (retry_turn v run dry r x w) as [o w1]. cbn in *. subst o.
  assert (forall m, m ∈ l -> m_id m ≠ m_id x) as Hne.
  { intros m Hm E. apply Hx. rewrite <- E. by apply list_elem_of_fmap_2. }
  destruct (decide (id = m_id x)) as [->|Hid].
  - rewrite fold_frame; [done|]. intros m Hm Hid. by destruct (Hne m Hm).
  - rewrite <- (Hf id Hid). apply IH; [|done]. intros m Hm. unfold stored. rewrite Hf by auto.
    apply Hst. by right.
Qed.

(** C35: a retry changes no document but those of failed migrations with neither a
    balance move nor a fee reimbursement on record, and of these it makes what
    [resumed] says, unless it is a dry run: whatever the mode, however the
    database fails and however the call ends. *)
Theorem retry_leaves_money_moved (v : Z) (run : string) (accountId : option string) (dryRun : bool)
    (w : world) (id : string) :
  migrations_ok (w_migrations w) ->
  let before := w_migrations w !! id in
  let after := w_migrations (retryFailedCashWalletMigrations v run accountId dryRun w).2 !! id in
  after = before \/
  exists m t, before = Some m /\ dryRun = false /\ m_status m = failed /\
    m_str m !! balanceMovePaymentTransactionId = None /\
    m_str m !! feeReimbursementPaymentTransactionId = None /\ after = Some (resumed t m).
Proof.
  intros Hok. cbv zeta. unfold retryFailedCashWalletMigrations, bind.
  destruct (quiet_candidates v run accountId w) as [Ew _].
  destruct (retry_candidates v run accountId w) as [[l|e|e] w1] eqn:E; cbn in Ew |- *;
    [|left; by rewrite Ew..].
  rewrite <- Ew. apply fold_effect; [|by eapply candidates_distinct].
  intros m Hm. apply candidates_run in E as [_ Hl]. destruct (Hl m Hm) as (_ & id' & Hm').
  unfold stored. by rewrite Ew, (ok_id _ Hok _ _ Hm').
Qed.

(** What a retry does. It keeps the collection well formed; its report
    puts every candidate in exactly one of the columns eligible, money moved
    and conflict; and when there was no conflict, every candidate without a
    payment on record is back on the pipeline, with its attempts reset: at
    [pointer_flipped] if a previous default wallet is on record, else at
    [not_started] with its recorded amounts and invoices cleared. *)
Theorem retry_correct (v : Z) (run : string) (accountId : option string) (w w' : world)
    (r : retry_report) :
  migrations_ok (w_migrations w) ->
  retryFailedCashWalletMigrations v run accountId false w = (Ok r, w') ->
  migrations_ok (w_migrations w') /\
  exists l w1, retry_candidates v run accountId w = (Ok l, w1) /\
    rt_eligible r + rt_skippedMoneyMoved r + rt_conflicts r = Z.of_nat (length l) /\
    rt_retried r = rt_eligible r /\ Z.of_nat (length (rt_migrationIds r)) = rt_eligible r /\
    (rt_conflicts r = 0 -> forall m, m ∈ l -> money_moved m = false ->
       exists t, w_migrations w' !! m_id m = Some (resumed t m)).
Proof.
  intros Hok H. apply bind_Ok in H as (l & w1 & Hl & H).
  pose proof (candidates_distinct _ _ _ _ _ _ Hok Hl) as Hnd.
  destruct (candidates_run _ _ _ _ _ _ Hl) as [Ew Hc].
  assert (migrations_ok (w_migrations w1)) as Hok1 by (by rewrite Ew).
  destruct (fold_resumes v run l (mkRetry false 0 0 0 0 [] []) w1 Hok1) as [Hok' Hr]; [|done|].
  { intros m Hm. destruct (Hc m Hm) as (_ & id & Hid). unfold stored.
    by rewrite Ew, (ok_id _ Hok _ _ Hid). }
  destruct (fold_report v run false l (mkRetry false 0 0 0 0 [] []) w1) as (r' & E & H1 & _ & H3 & H4).
  rewrite H in Hok', Hr, E. cbn in *. injection E as <-. split; [done|].
  exists l, w1. split_and!; [done|lia|auto|auto|]. intros Hz m Hm Hmv.
  destruct (Hr r eq_refl Hz m Hm) as [?|?]; [congruence|done].
Qed.
End RetryProofs.
