(* ===== verification/CutoverLifecycle.v ===== *)
(** * Cash wallet cutover: the lifecycle of a run

    Model of [src/src/app/cash-wallet-cutover/lifecycle.ts]: starting a run,
    completing it and reporting on it. The state of the cutover is the
    configuration document. *)

From stdpp Require Import base gmap list strings.
From Stdlib Require Import ZArith Lia.
From S2P Require Import Prelude JsStrings Errors CutoverStateMachine CutoverAmounts World Repos.
From S2P Require Import CutoverRepo.

Open Scope Z_scope.

Section Lifecycle.
Context `{X : External}.

Definition startPrimaryCashWalletCutover (cutoverVersion : Z) (runId actor : string) : App config :=
  let! t := new_Date in
  let! cfg := getConfig in
  if bool_decide (c_state cfg = state_complete) then
    fail (new_error InvalidCashWalletCutoverStateTransitionError
      "Cash wallet cutover is already complete")
  else if bool_decide (c_state cfg = state_in_progress) then
    if bool_decide (c_runId cfg = Some runId) && bool_decide (c_cutoverVersion cfg = cutoverVersion)
    then ret cfg
    else fail (new_error CashWalletCutoverInProgressError
      "Cash wallet cutover is already in progress")
  else
    let! runnable := listRunnableMigrations cutoverVersion runId (Some 1%nat) in
    match runnable with
    | [] => fail (new_error CashWalletCutoverPreflightError
        ("Cash wallet cutover has no runnable migrations for runId=" +:+ runId +:+
         " cutoverVersion=" +:+ bigint_toString cutoverVersion +:+
         ". Run 'prepare' before starting."))
    | _ :: _ =>
        updateConfig [CState state_in_progress; CVersion cutoverVersion; CRunId runId;
                      CStartedAt (Some t); CScheduledAt None; CPausedAt None; CPauseReason None]
          actor
    end.

Definition completePrimaryCashWalletCutover (cutoverVersion : Z) (runId actor : string) : App config :=
  let! t := new_Date in
  let! failedCount := countByStatus cutoverVersion runId failed in
  if 0 <? failedCount then fail (new_error0 CashWalletMigrationFailedError)
  else
    let! reviewCount := countByStatus cutoverVersion runId requires_operator_review in
    if 0 <? reviewCount then fail (new_error0 CashWalletMigrationFailedError)
    else
      let! runnable := listRunnableMigrations cutoverVersion runId (Some 1%nat) in
      match runnable with
      | _ :: _ => fail (new_error0 CashWalletCutoverInProgressError)
      | [] =>
          updateConfig [CState state_complete; CVersion cutoverVersion; CRunId runId;
                        CCompletedAt (Some t)] actor
      end.

(** [countsByStatus] keeps the statuses with a positive count, in order. *)
Definition status_turn (cutoverVersion : Z) (runId : string) (counts : list (MigrationStatus * Z))
    (s : MigrationStatus) : App (list (MigrationStatus * Z)) :=
  let! count := countByStatus cutoverVersion runId s in
  ret (if 0 <? count then counts ++ [(s, count)] else counts).

Definition getPrimaryCashWalletCutoverStatus (cutoverVersion : Z) (runId : string) :
    App (config * list (MigrationStatus * Z)) :=
  let! cfg := getConfig in
  let! counts := fold_m (status_turn cutoverVersion runId) [] all_statuses in
  ret (cfg, counts).

(** ** Theorems *)

Lemma getConfig_Ok w c w' : getConfig w = (Ok c, w') ->
  c = default defaultConfig (w_config w) /\ w_migrations w' = w_migrations w /\
  w_config w' = w_config w.
Proof.
  intros H%guarded_Ok. apply bind_Ok in H as (o & w1 & Hc%mongo_Ok & Hret). unfold read in Hc.
  injection Hc as <- <-. unfold ret in Hret. by injection Hret as <- <-.
Qed.

Lemma updateConfig_Ok patch actor w c w' : updateConfig patch actor w = (Ok c, w') ->
  (exists t, c = foldl apply_config (stamp_config actor t (default defaultConfig (w_config w))) patch) /\
  w_config w' = Some c /\ w_migrations w' = w_migrations w.
Proof.
  intros H%guarded_Ok. apply bind_Ok in H as (t & w1 & Ht & H%mongo_Ok).
  unfold new_Date in Ht. injection Ht as <- <-. injection H as <- <-. cbn. eauto.
Qed.

(** A run starts only with work to do. A start that returns either found
    the same run in progress and changed nothing, or found neither a completed
    cutover nor another run in progress, and at least one migration of the run
    to advance; then the configuration is in progress on this run, no longer
    scheduled or paused. The migrations are untouched. *)
Theorem start_sound {LX : ExternalLaws} (v : Z) (run actor : string) (w w' : world) (c : config) :
  startPrimaryCashWalletCutover v run actor w = (Ok c, w') ->
  let before := default defaultConfig (w_config w) in
  w_migrations w' = w_migrations w /\
  c_state c = state_in_progress /\ c_runId c = Some run /\ c_cutoverVersion c = v /\
  ((c = before /\ w_config w' = w_config w) \/
   (c_state before ≠ state_complete /\ c_state before ≠ state_in_progress /\
    w_config w' = Some c /\ c_pausedAt c = None /\ c_scheduledAt c = None /\
    exists id m, w_migrations w !! id = Some m /\ in_run v run m = true /\
      m_status m ∉ terminalStatuses)).
Proof.
  intros H. cbn zeta. apply bind_Ok in H as (t & w1 & Ht & H). unfold new_Date in Ht.
  injection Ht as <- <-. apply bind_Ok in H as (cfg & w2 & (-> & Em & Ec)%getConfig_Ok & H).
  cbn in Em, Ec, H. case_bool_decide as H1; [done|]. case_bool_decide as H2.
  { destruct (bool_decide_reflect (c_runId (default defaultConfig (w_config w)) = Some run)); [|done].
    destruct (bool_decide_reflect (c_cutoverVersion (default defaultConfig (w_config w)) = v)); [|done].
    cbn in H. unfold ret in H. injection H as <- <-. split_and!; try done. by left. }
  apply bind_Ok in H as (l & w3 & Hl & H).
  destruct (quiet_run _ _ _ _ (quiet_listRunnable _ _ _) Hl) as (Em3 & Ec3 & _).
  apply listRunnable_Ok in Hl as (_ & Hin & _). destruct l as [|m l]; [done|].
  apply updateConfig_Ok in H as ([t Hc] & Hc' & Hm'). rewrite Ec3, Ec in Hc. subst c. cbn.
  split_and!; try congruence. right. split_and!; try done.
  destruct (Hin m ltac:(by left)) as (Hr & Hs & id & Hm). exists id, m. split_and!; try done. congruence.
Qed.

Lemma finished_statuses s :
  s ≠ failed -> s ≠ requires_operator_review -> s ∈ terminalStatuses ->
  s ∈ [complete; skipped_already_migrated; rollback_started; rolled_back].
Proof.
  intros H1 H2 H. apply (bool_decide_eq_true_2 _) in H. by_computation. by destruct s.
Qed.

(** C34: the cutover completes only when nothing of the run is open. If
    completion returns then no migration of the run had failed, waits for an
    operator or can still be advanced: each is complete, skipped, rolled back,
    or in rollback (which completion does not wait for). *)
Theorem completion_sound {LX : ExternalLaws} (v : Z) (run actor : string) (w w' : world) (c : config) :
  completePrimaryCashWalletCutover v run actor w = (Ok c, w') ->
  w_migrations w' = w_migrations w /\ w_config w' = Some c /\
  c_state c = state_complete /\ c_runId c = Some run /\ c_cutoverVersion c = v /\
  forall id m, w_migrations w !! id = Some m -> in_run v run m = true ->
    m_status m ∈ [complete; skipped_already_migrated; rollback_started; rolled_back].
Proof.
  intros H. apply bind_Ok in H as (t & w1 & Ht%new_Date_Ok & H).
  apply bind_Ok in H as (nf & w2 & (E2 & P2 & F2)%countByStatus_Ok & H).
  destruct (Z.ltb_spec 0 nf); [done|].
  apply bind_Ok in H as (nr & w3 & (E3 & P3 & F3)%countByStatus_Ok & H).
  destruct (Z.ltb_spec 0 nr); [done|].
  apply bind_Ok in H as (l & w4 & (E4 & _ & F4)%listRunnable_Ok & H). destruct l; [|done].
  apply updateConfig_Ok in H as ([t' ->] & Hc' & Hm'). cbn.
  split_and!; try congruence; try done. intros id m Hm Hr.
  apply finished_statuses.
  - apply (F2 ltac:(lia) id m); congruence.
  - apply (F3 ltac:(lia) id m); congruence.
  - apply (F4 eq_refl id m); congruence.
Qed.

(** ** The report *)

Definition count_of (v : Z) (run : string) (s : MigrationStatus) (w : world) : Z :=
  Z.of_nat (length (List.filter
    (fun m => in_run v run m && bool_decide (m_status m = s)) (docs w))).

Definition status_counts (v : Z) (run : string) (w : world) (l : list MigrationStatus) :
    list (MigrationStatus * Z) :=
  List.filter (fun x => 0 <? x.2) ((fun s => (s, count_of v run s w)) <$> l).

Lemma fold_counts v run l acc w r w' :
  fold_m (status_turn v run) acc l w = (Ok r, w') ->
  r = acc ++ status_counts v run w l /\ w_migrations w' = w_migrations w.
Proof.
  revert acc w. induction l as [|s l IH]; intros acc w H; cbn [fold_m] in H.
  { unfold ret in H. injection H as <- <-. by rewrite app_nil_r. }
  apply bind_Ok in H as (acc' & w1 & H1 & H). apply bind_Ok in H1 as (n & w2 & H2%mongo_Ok & H1).
  unfold read in H2. injection H2 as <- <-. unfold ret in H1. injection H1 as <- <-.
  apply IH in H as [-> E]. split; [|done].
  change (status_counts v run (next_op w) l) with (status_counts v run w l).
  change (docs (next_op w)) with (docs w). fold (count_of v run s w).
  unfold status_counts. cbn. destruct (0 <? count_of v run s w); [|done].
  by rewrite <- app_assoc.
Qed.

(** The statuses partition the documents. *)
Lemma counts_partition (p : migration -> bool) (ms : list migration) :
  sum_list_with (fun s => length (List.filter (fun m => p m && bool_decide (m_status m = s)) ms))
    all_statuses = length (List.filter p ms).
Proof.
  induction ms as [|m ms IH]; [done|].
  assert (forall s, length (List.filter (fun m => p m && bool_decide (m_status m = s)) (m :: ms)) =
    ((if p m && bool_decide (m_status m = s) then 1 else 0) +
     length (List.filter (fun m => p m && bool_decide (m_status m = s)) ms))%nat) as E.
  { intros s. cbn [List.filter]. by case_match. }
  assert (forall l f g h, (forall s : MigrationStatus, h s = (f s + g s)%nat) ->
    sum_list_with h l = (sum_list_with f l + sum_list_with g l)%nat) as Hs.
  { intros l f g h Hh. induction l as [|s l IHl]; cbn; [done|]. rewrite Hh, IHl. lia. }
  rewrite (Hs _ _ _ _ E), IH. cbn [List.filter]. destruct (p m); cbn [andb length].
  - by destruct (m_status m).
  - assert (forall l : list MigrationStatus, sum_list_with (fun _ => 0%nat) l = 0%nat) as ->; [|done].
    intros l. induction l; done.
Qed.

Definition total (l : list (MigrationStatus * Z)) : Z := foldr (fun x acc => x.2 + acc) 0 l.

Lemma total_counts v run w l :
  total (status_counts v run w l) =
  Z.of_nat (sum_list_with (fun s => length (List.filter
    (fun m => in_run v run m && bool_decide (m_status m = s)) (docs w))) l).
Proof.
  unfold status_counts. induction l as [|s l IH]; [done|]. cbn [fmap list_fmap List.filter].
  cbn [sum_list_with]. rewrite Nat2Z.inj_add, <- IH. cbn [snd].
  unfold count_of at 1. destruct (Z.ltb_spec 0 (Z.of_nat (length (List.filter
    (fun m => in_run v run m && bool_decide (m_status m = s)) (docs w))))); cbn [total foldr snd].
  - done.
  - fold (total (List.filter (fun x => 0 <? x.2) ((fun s => (s, count_of v run s w)) <$> l))). lia.
Qed.

(** The status report is an exact census. It lists a status with [n]
    migrations exactly when the run has [n > 0] migrations in it, and the counts
    add up to the number of migrations of the run; reporting changes nothing. *)
Theorem status_report_census (v : Z) (run : string) (w w' : world) (cfg : config)
    (counts : list (MigrationStatus * Z)) :
  getPrimaryCashWalletCutoverStatus v run w = (Ok (cfg, counts), w') ->
  w_migrations w' = w_migrations w /\ cfg = default defaultConfig (w_config w) /\
  (forall s n, (s, n) ∈ counts <-> n = count_of v run s w /\ 0 < n) /\
  total counts = Z.of_nat (length (List.filter (in_run v run) (docs w))).
Proof.
  intros H. apply bind_Ok in H as (c & w1 & (-> & Em & _)%getConfig_Ok & H).
  apply bind_Ok in H as (l & w2 & [-> E]%fold_counts & H). unfold ret in H. injection H as <- <- <-.
  assert (status_counts v run w1 all_statuses = status_counts v run w all_statuses) as Ec.
  { unfold status_counts, count_of, docs. by rewrite Em. }
  cbn [app]. rewrite Ec. split_and!; [congruence|done| |].
  - intros s n. unfold status_counts. rewrite list_elem_of_In, filter_In, <- list_elem_of_In,
      list_elem_of_fmap, Z.ltb_lt. cbn. split.
    + intros [(s' & [= -> ->] & _) Hn]. done.
    + intros [-> Hn]. split; [|done]. exists s. split; [done|]. apply all_statuses_complete.
  - by rewrite total_counts, counts_partition.
Qed.
End Lifecycle.
