(* ===== verification/CutoverPrepare.v ===== *)
(** * Cash wallet cutover: preparing a run

    Model of the steps before a run starts, under
    [src/src/app/cash-wallet-cutover/]: [discovery.ts] (classify the accounts),
    [preflight.ts] (the report that blocks a run), [planner.ts] and
    [migration-records.ts] (one migration per account), [prepare.ts],
    [preview.ts], [provision-usdt-wallets.ts] and [audit-accounts.ts]. *)

From stdpp Require Import base gmap list strings.
From Stdlib Require Import ZArith Lia.
From S2P Require Import Prelude JsStrings Errors MoneyAmounts CutoverStateMachine World Ibex.
From S2P Require Import Repos CutoverRepo CutoverServices CutoverRollback CutoverRetry.

Open Scope Z_scope.

(** ** discovery.ts *)

Inductive DiscoveryStatus :=
| legacy_default | already_usdt | residual_legacy_usd | missing_legacy_usd
| missing_destination_usdt.

#[global] Instance DiscoveryStatus_eq_dec : EqDecision DiscoveryStatus.
Proof. solve_decision. Defined.

Record discovery := mkDiscovery {
  di_status : DiscoveryStatus;
  di_accountId : string;
  di_accountUuid : option string;
  di_legacyUsdWalletId : option string;
  di_destinationUsdtWalletId : option string;
  di_previousDefaultWalletId : string
}.

#[global] Instance discovery_eq_dec : EqDecision discovery.
Proof. solve_decision. Defined.

(** [wallets.find((w) => w.type === Checking && w.currency === currency)] *)
Definition find_checking (currency : WalletCurrency) (wallets : list wallet) : option wallet :=
  List.find (fun wl => bool_decide (wl_type wl = Checking) && bool_decide (wl_currency wl = currency))
    wallets.

Definition classifyCashWalletsForCutover (acc : account) (wallets : list wallet) : discovery :=
  let legacyUsdWallet := find_checking Usd wallets in
  let destinationUsdtWallet := find_checking Usdt wallets in
  let base s := mkDiscovery s (a_id acc) (Some (a_uuid acc)) (wl_id <$> legacyUsdWallet)
                  (wl_id <$> destinationUsdtWallet) (a_defaultWalletId acc) in
  match legacyUsdWallet, destinationUsdtWallet with
  | None, _ => base missing_legacy_usd
  | Some _, None => base missing_destination_usdt
  | Some legacy, Some destination =>
      if bool_decide (a_defaultWalletId acc = wl_id legacy) then base legacy_default
      else if bool_decide (a_defaultWalletId acc = wl_id destination) then base already_usdt
      else base residual_legacy_usd
  end.

(** ** preflight.ts *)

Record preflight_report := mkPreflight {
  pf_cutoverVersion : Z;
  pf_runId : string;
  pf_totalAccounts : Z;
  pf_migrationCandidates : Z;
  pf_alreadyUsdt : Z;
  pf_residualLegacyUsd : Z;
  pf_blockers : Z;
  pf_blockerAccounts : list (string * DiscoveryStatus);
  pf_canStart : bool
}.

Definition is_blocker (d : discovery) : bool :=
  bool_decide (di_status d = missing_legacy_usd) || bool_decide (di_status d = missing_destination_usdt).

Definition with_discovery (s : DiscoveryStatus) (ds : list discovery) : list discovery :=
  List.filter (fun d => bool_decide (di_status d = s)) ds.

Definition buildCashWalletCutoverPreflightReport (cutoverVersion : Z) (runId : string)
    (discoveries : list discovery) : preflight_report :=
  let blockerAccounts :=
    flat_map (fun d => if is_blocker d then [(di_accountId d, di_status d)] else []) discoveries in
  let count s := Z.of_nat (length (with_discovery s discoveries)) in
  mkPreflight cutoverVersion runId (Z.of_nat (length discoveries)) (count legacy_default)
    (count already_usdt) (count residual_legacy_usd) (Z.of_nat (length blockerAccounts))
    blockerAccounts (bool_decide (length blockerAccounts = 0%nat)).

(** ** planner.ts *)

(** Without an id, or with an empty one, there is no plan. *)
Definition plan_of (cutoverVersion : Z) (runId : string) (d : discovery) : list upsert_args :=
  if bool_decide (di_status d = legacy_default) then
    match nonempty_opt (di_legacyUsdWalletId d), nonempty_opt (di_destinationUsdtWalletId d) with
    | Some legacy, Some destination =>
        [mkUpsert (di_accountId d) (di_accountUuid d) legacy destination
           (Some (di_previousDefaultWalletId d)) cutoverVersion runId
           ("cash-wallet-cutover:" +:+ runId +:+ ":" +:+ di_accountId d)]
    | _, _ => []
    end
  else [].

Definition buildPrimaryCashWalletMigrationPlan (cutoverVersion : Z) (runId : string)
    (discoveries : list discovery) : list upsert_args :=
  flat_map (plan_of cutoverVersion runId) discoveries.

Section Prepare.
Context `{X : External}.

Definition discover_turn (ds : list discovery) (acc : account) : App (list discovery) :=
  let! wallets := listByAccountId (a_id acc) in
  ret (ds ++ [classifyCashWalletsForCutover acc wallets]).

Definition discoverCashWalletCutoverAccounts : App (list discovery) :=
  let! accounts := listUnlockedAccounts in
  fold_m discover_turn [] accounts.

(** ** migration-records.ts *)

Definition record_turn (ms : list migration) (plan : upsert_args) : App (list migration) :=
  let! m := upsertMigration plan in
  ret (ms ++ [m]).

Definition upsertPrimaryCashWalletMigrationRecords (plans : list upsert_args) : App (list migration) :=
  fold_m record_turn [] plans.

(** ** prepare.ts *)

Record prepare_result := mkPrepare {
  pr_report : preflight_report;
  pr_plannedMigrations : list upsert_args;
  pr_migrations : list migration;
  pr_cohortNotFound : option (list string)
}.

(** The discoveries of the cohort asked for, and the ids that are not among
    them. *)
Definition select_cohort (accountIds : option (list string)) (all : list discovery) :
    list discovery * option (list string) :=
  match accountIds with
  | None => (all, None)
  | Some ids =>
      let ds := List.filter (fun d => bool_decide (di_accountId d ∈ ids)) all in
      (ds, Some (List.filter (fun id => negb (bool_decide (id ∈ map di_accountId ds))) ids))
  end.

Definition preparePrimaryCashWalletCutover (cutoverVersion : Z) (runId : string)
    (accountIds : option (list string)) : App prepare_result :=
  let! allDiscoveries := discoverCashWalletCutoverAccounts in
  let '(discoveries, cohortNotFound) := select_cohort accountIds allDiscoveries in
  let report := buildCashWalletCutoverPreflightReport cutoverVersion runId discoveries in
  if negb (pf_canStart report) then ret (mkPrepare report [] [] cohortNotFound)
  else
    let plannedMigrations := buildPrimaryCashWalletMigrationPlan cutoverVersion runId discoveries in
    let! migrations := upsertPrimaryCashWalletMigrationRecords plannedMigrations in
    ret (mkPrepare report plannedMigrations migrations cohortNotFound).

(** ** preview.ts *)

Definition previewPrimaryCashWalletCutover (cutoverVersion : Z) (runId : string) :
    App (preflight_report * list upsert_args) :=
  let! discoveries := discoverCashWalletCutoverAccounts in
  let report := buildCashWalletCutoverPreflightReport cutoverVersion runId discoveries in
  if negb (pf_canStart report) then ret (report, [])
  else ret (report, buildPrimaryCashWalletMigrationPlan cutoverVersion runId discoveries).

(** ** provision-usdt-wallets.ts *)

Definition isRateLimitError (e : error) : bool :=
  str_includes "too many requests" (str_lower (errorMessage e)).

(** The attempts after the first one; between two the source sleeps. *)
Fixpoint provision_attempts (left : nat) (accountId : string) : App wallet :=
  fun w =>
    match addWalletIfNonexistent accountId Checking Usdt w with
    | (Err e, w') =>
        match left with
        | S left' => if isRateLimitError e then provision_attempts left' accountId w' else (Err e, w')
        | O => (Err e, w')
        end
    | r => r
    end.

(** [slice(0, limit)] *)
Definition slice_to {A} (limit : option Z) (l : list A) : list A :=
  match limit with
  | None => l
  | Some n => take (Z.to_nat (if n <? 0 then Z.max 0 (Z.of_nat (length l) + n) else n)) l
  end.

Record provision_result := mkProvision {
  pv_before : preflight_report;
  pv_after : preflight_report;
  pv_eligible : Z;
  pv_provisioned : list (string * string);
  pv_failed : list (string * string);
  pv_dryRun : bool
}.

Definition provision_turn (maxProvisionAttempts : Z)
    (r : list (string * string) * list (string * string)) (d : discovery) :
    App (list (string * string) * list (string * string)) :=
  let '(provisioned_, failed_) := r in
  let! wl := attempt (provision_attempts (Z.to_nat (Z.max 1 maxProvisionAttempts) - 1)
                        (di_accountId d)) in
  match wl with
  | inl e => ret (provisioned_, failed_ ++ [(di_accountId d, errorMessage e)])
  | inr wl => ret (provisioned_ ++ [(di_accountId d, wl_id wl)], failed_)
  end.

Definition provisionPrimaryCashWalletUsdtWallets (cutoverVersion : Z) (runId : string)
    (provisionLimit : option Z) (maxProvisionAttempts : Z) (dryRun : bool) : App provision_result :=
  let! cfg := getConfig in
  if negb (bool_decide (c_state cfg = state_pre)) then
    fail (new_error InvalidCashWalletCutoverStateTransitionError
      "Cash wallet USDT provisioning can only run before cutover start")
  else
    let! discoveries := discoverCashWalletCutoverAccounts in
    let before := buildCashWalletCutoverPreflightReport cutoverVersion runId discoveries in
    let eligible := slice_to provisionLimit (with_discovery missing_destination_usdt discoveries) in
    let! results :=
      (if dryRun then ret ([], []) else fold_m (provision_turn maxProvisionAttempts) ([], []) eligible) in
    let! afterDiscoveries :=
      (if dryRun then ret discoveries else discoverCashWalletCutoverAccounts) in
    let after := buildCashWalletCutoverPreflightReport cutoverVersion runId afterDiscoveries in
    ret (mkProvision before after (Z.of_nat (length eligible)) results.1 results.2 dryRun).

End Prepare.

(** ** audit-accounts.ts *)

(** A document as the audit sees it: its id, its role and the messages of its
    validation errors, if validation fails. *)
Record audited := mkAudited {
  au_id : string;
  au_role : option string;
  au_validateSync : option (list string)
}.

Record audit_report := mkAudit {
  ar_scanned : Z;
  ar_invalid : Z;
  ar_issues : list (string * option string * list string)
}.

Definition audit_turn (r : audit_report) (d : audited) : audit_report :=
  match au_validateSync d with
  | None => mkAudit (ar_scanned r + 1) (ar_invalid r) (ar_issues r)
  | Some errors =>
      mkAudit (ar_scanned r + 1) (ar_invalid r + 1)
        (ar_issues r ++ [(au_id d, au_role d, errors)])
  end.

Definition auditCashWalletCutoverAccounts (documents : list audited) : audit_report :=
  foldl audit_turn (mkAudit 0 0 []) documents.

(** ** Discovery reads the collections *)

Section PrepareProofs.
Context `{X : External}.

(** The discoveries a pass over the collections gives. *)
Definition unlocked (w : world) : list account :=
  filter (fun a => a_status a = StatusActive) ((map_to_list (w_accounts w)).*2).
Definition wallets_of (w : world) (acc : account) : list wallet :=
  filter (fun wl => wl_accountId wl = a_id acc) (w_wallets w).
Definition discoveries (w : world) : list discovery :=
  (fun acc => classifyCashWalletsForCutover acc (wallets_of w acc)) <$> unlocked w.

(** Reading accounts and wallets changes neither, nor the migrations. *)
Definition reads (w w' : world) : Prop :=
  w_accounts w' = w_accounts w /\ w_wallets w' = w_wallets w /\
  w_migrations w' = w_migrations w /\ w_config w' = w_config w.

Lemma listByAccountId_Ok a w l w' : listByAccountId a w = (Ok l, w') ->
  l = filter (fun wl => wl_accountId wl = a) (w_wallets w) /\ reads w w'.
Proof.
  intros H%guarded_Ok. apply bind_Ok in H as (id & w1 & H1 & H%mongo_Ok).
  unfold toObjectId in H1. case_match; [|done]. unfold ret in H1. injection H1 as <- <-.
  unfold read in H. by injection H as <- <-.
Qed.

Lemma fold_discover accs ds w r w' : fold_m discover_turn ds accs w = (Ok r, w') ->
  r = ds ++ ((fun acc => classifyCashWalletsForCutover acc (wallets_of w acc)) <$> accs) /\
  reads w w'.
Proof.
  revert ds w. induction accs as [|a accs IH]; intros ds w H; cbn [fold_m] in H.
  { unfold ret in H. injection H as <- <-. by rewrite app_nil_r. }
  apply bind_Ok in H as (ds' & w1 & H1 & H).
  apply bind_Ok in H1 as (l & w2 & [-> R]%listByAccountId_Ok & H1).
  unfold ret in H1. injection H1 as <- <-. apply IH in H as [-> R'].
  destruct R as (A1 & A2 & A3 & A4), R' as (B1 & B2 & B3 & B4).
  split; [|unfold reads; split_and!; congruence].
  unfold wallets_of in *. rewrite A2. cbn [fmap list_fmap]. by rewrite <- app_assoc.
Qed.

Lemma discover_Ok w ds w' : discoverCashWalletCutoverAccounts w = (Ok ds, w') ->
  ds = discoveries w /\ reads w w'.
Proof.
  intros H. apply bind_Ok in H as (accs & w1 & H1%mongo_Ok & H). unfold read in H1.
  injection H1 as <- <-. apply fold_discover in H as [-> R]. done.
Qed.

(** ** What a plan is *)

Lemma find_checking_Some c ws wl : find_checking c ws = Some wl ->
  wl ∈ ws /\ wl_type wl = Checking /\ wl_currency wl = c.
Proof.
  intros [H1 [H2%bool_decide_eq_true H3%bool_decide_eq_true]%andb_true_iff]%List.find_some.
  by rewrite list_elem_of_In.
Qed.

(** The account, wallets and keys behind a plan. *)
Definition planned_for (v : Z) (run : string) (w : world) (p : upsert_args) : Prop :=
  u_cutoverVersion p = v /\ u_runId p = run /\
  exists acc legacy destination,
    acc ∈ unlocked w /\ u_accountId p = a_id acc /\
    legacy ∈ wallets_of w acc /\ wl_currency legacy = Usd /\ wl_type legacy = Checking /\
    destination ∈ wallets_of w acc /\ wl_currency destination = Usdt /\
    wl_type destination = Checking /\
    u_legacyUsdWalletId p = wl_id legacy /\ u_destinationUsdtWalletId p = wl_id destination /\
    a_defaultWalletId acc = wl_id legacy /\ u_previousDefaultWalletId p = Some (wl_id legacy).

Lemma plan_sound v run w acc p : acc ∈ unlocked w ->
  p ∈ plan_of v run (classifyCashWalletsForCutover acc (wallets_of w acc)) ->
  planned_for v run w p.
Proof.
  intros Hacc Hp. unfold plan_of, classifyCashWalletsForCutover in Hp.
  destruct (find_checking Usd (wallets_of w acc)) as [legacy|] eqn:Hl; cbn in Hp;
    [|by apply elem_of_nil in Hp].
  destruct (find_checking Usdt (wallets_of w acc)) as [dest|] eqn:Hd; cbn in Hp;
    [|by apply elem_of_nil in Hp].
  destruct (bool_decide_reflect (a_defaultWalletId acc = wl_id legacy)) as [E|]; cbn in Hp;
    [|destruct (bool_decide (a_defaultWalletId acc = wl_id dest)); cbn in Hp; by apply elem_of_nil in Hp].
  destruct (nonempty (wl_id legacy)); [|by apply elem_of_nil in Hp].
  destruct (nonempty (wl_id dest)); [|by apply elem_of_nil in Hp].
  apply list_elem_of_singleton in Hp as ->.
  apply find_checking_Some in Hl as (? & ? & ?). apply find_checking_Some in Hd as (? & ? & ?).
  split_and!; [done..|]. exists acc, legacy, dest. split_and!; try done. cbn. by rewrite E.
Qed.

Lemma plans_sound v run w ids ds p : ds = (select_cohort ids (discoveries w)).1 ->
  p ∈ buildPrimaryCashWalletMigrationPlan v run ds -> planned_for v run w p.
Proof.
  intros -> Hp. unfold buildPrimaryCashWalletMigrationPlan in Hp.
  apply list_elem_of_In, in_flat_map in Hp as (d & Hd & Hp). apply list_elem_of_In in Hp.
  assert (d ∈ discoveries w) as Hin.
  { unfold select_cohort in Hd. destruct ids; cbn in Hd; [|by apply list_elem_of_In].
    apply filter_In in Hd as [Hd _]. by apply list_elem_of_In. }
  unfold discoveries in Hin. apply list_elem_of_fmap in Hin as (acc & -> & Hacc).
  by eapply plan_sound.
Qed.

(** ** Recording the plans *)

(** Storing one migration keeps those of other accounts stored. *)
Lemma upsert_keeps args m0 w m w' : upsertMigration args w = (Ok m, w') ->
  stored m0 (w_migrations w) -> stored m0 (w_migrations w').
Proof.
  intros (id & t & w0 & Ew & H)%upsert_Ok Hst. unfold stored in *. unfold upsert_op in H.
  destruct (find_doc (matches_key _ _) w0); [simplify_eq; by rewrite Ew|].
  destruct (bool_decide_reflect (is_Some (w_migrations w0 !! id))) as [|Hn]; cbn in H; [done|].
  case_match; [done|]. injection H as <- <-. cbn. rewrite lookup_insert_ne, Ew; [done|].
  intros ->. apply Hn. rewrite Ew. eauto.
Qed.

(** What recording leaves alone. *)
Lemma upsert_reads args w m w' : upsertMigration args w = (Ok m, w') ->
  w_accounts w' = w_accounts w /\ w_wallets w' = w_wallets w /\ w_config w' = w_config w.
Proof.
  unfold upsertMigration. intros H%guarded_Ok.
  apply bind_Ok in H as (t & w1 & H1 & H). unfold new_Date in H1. injection H1 as <- <-.
  apply bind_Ok in H as (id & w2 & H2 & H%mongo_Ok). unfold randomUUID in H2. injection H2 as <- <-.
  unfold upsert_op in H. case_match; [by simplify_eq|]. case_match; [done|]. by simplify_eq.
Qed.

(** The migration recorded for a plan. *)
Definition recorded_for (p : upsert_args) (m : migration) : Prop :=
  m_accountId m = u_accountId p /\ m_runId m = u_runId p.

Lemma fold_record plans acc w r w' :
  migrations_ok (w_migrations w) -> fold_m record_turn acc plans w = (Ok r, w') ->
  migrations_ok (w_migrations w') /\ evolves eq (w_migrations w) (w_migrations w') /\
  (w_accounts w' = w_accounts w /\ w_wallets w' = w_wallets w /\ w_config w' = w_config w) /\
  (forall m0, stored m0 (w_migrations w) -> stored m0 (w_migrations w')) /\
  exists ms, r = acc ++ ms /\
    Forall2 (fun p m => recorded_for p m /\ stored m (w_migrations w')) plans ms.
Proof.
  revert acc w. induction plans as [|p plans IH]; intros acc w Hok H; cbn [fold_m] in H.
  { unfold ret in H. injection H as <- <-. split_and!; try done; [apply evolves_refl, _|].
    exists []. by rewrite app_nil_r. }
  apply bind_Ok in H as (acc' & w1 & H1 & H). apply bind_Ok in H1 as (m & w2 & Hu & H1).
  unfold ret in H1. injection H1 as <- <-.
  destruct (mt_upsert p (fun _ => True) w Hok I) as [Hok1 Hq].
  pose proof (upsert_evolves p w) as He. rewrite Hu in Hok1, Hq, He. cbn in *.
  destruct (Hq m eq_refl) as (Hst & Ha & Hr).
  destruct (upsert_reads _ _ _ _ Hu) as (R1 & R2 & R3).
  destruct (IH _ _ Hok1 H) as (Hok' & He' & (S1 & S2 & S3) & Hk & ms & -> & HF).
  split_and!; try congruence; try done; [by eapply (evolves_trans eq)| |].
  - intros m0 Hm0. by eapply Hk, upsert_keeps.
  - exists (m :: ms). rewrite <- app_assoc. split; [done|]. constructor; [|done].
    split; [by split|by apply Hk].
Qed.

(** Preparing a run. Whether it records anything depends on the preflight:
    with an account that lacks a cash wallet, nothing is written. Otherwise
    there is one stored migration per plan, and every plan is for an unlocked
    account whose default wallet is its legacy USD checking wallet, to its USDT
    checking wallet; the collection stays well formed, and the migrations
    already there keep their status. *)
Theorem prepare_sound (v : Z) (run : string) (ids : option (list string)) (w w' : world)
    (r : prepare_result) :
  migrations_ok (w_migrations w) ->
  preparePrimaryCashWalletCutover v run ids w = (Ok r, w') ->
  migrations_ok (w_migrations w') /\ evolves eq (w_migrations w) (w_migrations w') /\
  if existsb is_blocker (select_cohort ids (discoveries w)).1
  then pr_plannedMigrations r = [] /\ w_migrations w' = w_migrations w
  else Forall (planned_for v run w) (pr_plannedMigrations r) /\
       Forall2 (fun p m => recorded_for p m /\ stored m (w_migrations w'))
         (pr_plannedMigrations r) (pr_migrations r).
Proof.
  intros Hok H. apply bind_Ok in H as (all & w1 & [-> (R1 & R2 & R3 & R4)]%discover_Ok & H).
  pose proof (fun p => plans_sound v run w ids _ p eq_refl) as Hplans.
  destruct (select_cohort ids (discoveries w)) as [ds nf]. cbn [fst] in *. cbn zeta in H.
  assert (pf_canStart (buildCashWalletCutoverPreflightReport v run ds) =
          negb (existsb is_blocker ds)) as Hc.
  { clear. cbn. induction ds as [|d ds IH]; [done|]. cbn. by destruct (is_blocker d). }
  rewrite Hc, negb_involutive in H. destruct (existsb is_blocker ds).
  - unfold ret in H. injection H as <- <-. rewrite R3. split_and!; try done. apply evolves_refl, _.
  - apply bind_Ok in H as (ms & w2 & H2 & H). unfold ret in H. injection H as <- <-.
    rewrite <- R3 in Hok. rewrite <- R3.
    destruct (fold_record _ _ _ _ _ Hok H2) as (Hok' & He & _ & _ & ms' & -> & HF).
    split_and!; try done. cbn. by apply Forall_forall.
Qed.

(** What prepare records depends on the accounts and wallets alone. *)
Lemma prepare_Ok v run ids w r w' :
  preparePrimaryCashWalletCutover v run ids w = (Ok r, w') ->
  let ds := (select_cohort ids (discoveries w)).1 in
  let plans := if pf_canStart (buildCashWalletCutoverPreflightReport v run ds)
               then buildPrimaryCashWalletMigrationPlan v run ds else [] in
  exists w1, reads w w1 /\ fold_m record_turn [] plans w1 = (Ok (pr_migrations r), w').
Proof.
  intros H. apply bind_Ok in H as (all & w1 & [-> R]%discover_Ok & H). cbn zeta.
  destruct (select_cohort ids (discoveries w)) as [ds nf]. cbn [fst]. cbn zeta in H.
  exists w1. split; [done|].
  destruct (pf_canStart _); cbn [negb] in H; [|unfold ret in H; injection H as <- <-; done].
  apply bind_Ok in H as (ms & w2 & H2 & H). unfold ret in H. by injection H as <- <-.
Qed.

(** Recording again what is recorded. *)
Lemma record_again plans acc ms w r w' : migrations_ok (w_migrations w) ->
  Forall2 (fun p m => recorded_for p m /\ stored m (w_migrations w)) plans ms ->
  fold_m record_turn acc plans w = (Ok r, w') ->
  r = acc ++ ms /\ w_migrations w' = w_migrations w.
Proof.
  intros Hok HF. revert acc w Hok HF. induction plans as [|p plans IH] in ms |- *;
    intros acc w Hok HF H; inversion HF as [|? m ? ms' [[Ha Hr] Hst] HF']; subst; cbn [fold_m] in H.
  { unfold ret in H. injection H as <- <-. by rewrite app_nil_r. }
  apply bind_Ok in H as (acc' & w1 & H1 & H). apply bind_Ok in H1 as (m' & w2 & Hu & H1).
  unfold ret in H1. injection H1 as <- <-.
  assert (m' = m /\ w_migrations w2 = w_migrations w) as [-> Ew].
  { apply upsert_Ok in Hu as (id & t & w0 & E0 & Hu). unfold upsert_op in Hu. unfold stored in Hst.
    destruct (find_doc (matches_key _ _) w0) as [m2|] eqn:Hf.
    - simplify_eq. split; [|done]. apply find_doc_Some in Hf as [Hk [id2 Hm2]].
      apply andb_true_iff in Hk as [E1%bool_decide_eq_true E2%bool_decide_eq_true].
      rewrite E0 in Hm2. assert (id2 = m_id m) as -> by (eapply (ok_key _ Hok); eauto; congruence).
      congruence.
    - rewrite <- E0 in Hst. pose proof (find_doc_None _ _ _ _ Hf Hst) as Hn. unfold matches_key in Hn.
      by rewrite !bool_decide_true in Hn by congruence. }
  apply (IH ms') in H as [-> E]; [|by rewrite Ew|by rewrite Ew].
  split; [by rewrite <- app_assoc|congruence].
Qed.

(** Preparing is idempotent. Preparing the same run for the same cohort
    again returns the same migrations and writes nothing. *)
Theorem prepare_idempotent (v : Z) (run : string) (ids : option (list string)) (w w1 w2 : world)
    (r1 r2 : prepare_result) :
  migrations_ok (w_migrations w) ->
  preparePrimaryCashWalletCutover v run ids w = (Ok r1, w1) ->
  preparePrimaryCashWalletCutover v run ids w1 = (Ok r2, w2) ->
  pr_migrations r2 = pr_migrations r1 /\ w_migrations w2 = w_migrations w1.
Proof.
  intros Hok (wa & (A1 & A2 & A3 & A4) & H1)%prepare_Ok (wb & (B1 & B2 & B3 & B4) & H2)%prepare_Ok.
  rewrite <- A3 in Hok.
  destruct (fold_record _ _ _ _ _ Hok H1) as (Hok1 & _ & (C1 & C2 & _) & _ & ms & E & HF).
  assert (discoveries w1 = discoveries w) as Ed.
  { unfold discoveries, unlocked, wallets_of. by rewrite C1, C2, A1, A2. }
  rewrite Ed in H2. cbn [app] in E. subst ms. rewrite <- B3 in Hok1, HF.
  apply (record_again _ _ _ _ _ _ Hok1 HF) in H2 as [-> E2]. split; [done|congruence].
Qed.
End PrepareProofs.

(** ** The recorded default wallet *)

Section Pointer.
Context `{X : External}.

(** Every document is a fresh one with its account's default wallet on record. *)
Definition fresh (ms : gmap string migration) : Prop :=
  forall id m, ms !! id = Some m ->
    m_status m = not_started /\ money_moved m = false /\ has previousDefaultWalletId m.

Lemma fold_fresh plans acc w r w' :
  Forall (fun p => is_Some (u_previousDefaultWalletId p)) plans ->
  fold_m record_turn acc plans w = (Ok r, w') -> fresh (w_migrations w) -> fresh (w_migrations w').
Proof.
  intros HF. revert acc w. induction HF as [|p plans [prev Hp] HF IH]; intros acc w H Hfr;
    cbn [fold_m] in H.
  { unfold ret in H. by injection H as <- <-. }
  apply bind_Ok in H as (acc' & w1 & H1 & H). apply bind_Ok in H1 as (m & w2 & Hu & H1).
  unfold ret in H1. injection H1 as <- <-. apply (IH _ _ H). clear H IH.
  apply upsert_Ok in Hu as (id & t & w0 & Ew & Hu). unfold upsert_op in Hu. rewrite <- Ew in Hfr.
  case_match; [by simplify_eq|]. case_match; [done|]. injection Hu as <- <-. cbn.
  intros id' m [[<- <-]|[_ Hm]]%lookup_insert_Some; [|by apply (Hfr id')].
  unfold new_migration. rewrite Hp. cbn. unfold money_moved, unset, has. cbn.
  rewrite !lookup_singleton_ne by done. rewrite lookup_singleton_eq. eauto.
Qed.

(** Preparing records the default wallet of every account it plans. As the
    retry takes that field for the evidence of a pointer flip, a migration
    prepared on an empty collection that fails before any money moves is put
    back at [pointer_flipped], past the balance move, and never at
    [not_started]. *)
Theorem prepared_resumes_flipped (v : Z) (run : string) (ids : option (list string)) (w w' : world)
    (r : prepare_result) (id : string) (m : migration) (msg : string) (t : Z) :
  w_migrations w = ∅ ->
  preparePrimaryCashWalletCutover v run ids w = (Ok r, w') ->
  w_migrations w' !! id = Some m ->
  m_status m = not_started /\ money_moved (failed_upd failed msg t m) = false /\
  resume_status (failed_upd failed msg t m) = pointer_flipped.
Proof.
  intros Hempty (w1 & (_ & _ & R & _) & H)%prepare_Ok Hm.
  apply fold_fresh in H.
  - destruct (H id m Hm) as (Hs & Hmv & Hp).
    assert (forall f, f ≠ lastError -> m_str (failed_upd failed msg t m) !! f = m_str m !! f) as E
      by (intros; cbn; by rewrite lookup_insert_ne).
    split; [done|]. unfold money_moved, resume_status, unset, has in *. rewrite !E by done.
    split; [done|]. clear Hmv. case_bool_decide as Hn; [|done]. rewrite Hn in Hp. by apply is_Some_None in Hp.
  - case_match; [|constructor]. apply Forall_forall. intros p Hin.
    apply (plans_sound v run w ids _ p eq_refl) in Hin as (_ & _ & ? & ? & ? & Hin).
    destruct_and! Hin. eauto.
  - rewrite R, Hempty. intros ? ? ?. simplify_map_eq.
Qed.

(** ** Provisioning *)

Lemma fold_provision n ds r w r' w' : fold_m (provision_turn n) r ds w = (Ok r', w') ->
  (length r'.1 + length r'.2 = length r.1 + length r.2 + length ds)%nat /\ quiet w w'.
Proof.
  revert r w. induction ds as [|d ds IH]; intros r w H; cbn [fold_m] in H.
  { unfold ret in H. injection H as <- <-. cbn. split; [lia|reflexivity]. }
  apply bind_Ok in H as (r1 & w1 & H1 & H). destruct r as [a b]. unfold provision_turn in H1.
  apply bind_Ok in H1 as (o & w2 & H2 & H1).
  assert (forall k, guarantees quiet (provision_attempts k (di_accountId d))) as Hq.
  { intros k. induction k as [|k IHk]; intros w0; cbn;
      pose proof (quiet_addWalletIfNonexistent (di_accountId d) Checking Usdt w0) as Hw;
      destruct (addWalletIfNonexistent _ _ _ w0) as [[?|?|?] w3]; cbn in *; try done.
    destruct (isRateLimitError _); [|done]. etrans; [exact Hw|apply IHk]. }
  pose proof (quiet_run _ _ _ _ (guarantees_attempt _ _ (Hq _)) H2) as Q.
  apply IH in H as [Hl Q']. destruct o; unfold ret in H1; injection H1 as <- <-; cbn in *;
    rewrite ?length_app in Hl; cbn in Hl; (split; [lia|by etrans]).
Qed.

(** Provisioning runs only before the cutover starts, never touches a
    migration, and reports every account it selected as provisioned or failed;
    a dry run selects but provisions nothing. *)
Theorem provision_report (v : Z) (run : string) (limit : option Z) (n : Z) (dryRun : bool)
    (w w' : world) (r : provision_result) :
  provisionPrimaryCashWalletUsdtWallets v run limit n dryRun w = (Ok r, w') ->
  c_state (default defaultConfig (w_config w)) = state_pre /\
  w_migrations w' = w_migrations w /\ w_config w' = w_config w /\
  pv_before r = buildCashWalletCutoverPreflightReport v run (discoveries w) /\
  pv_eligible r =
    Z.of_nat (length (slice_to limit (with_discovery missing_destination_usdt (discoveries w)))) /\
  if dryRun then pv_provisioned r = [] /\ pv_failed r = [] /\ w_wallets w' = w_wallets w
  else Z.of_nat (length (pv_provisioned r) + length (pv_failed r)) = pv_eligible r.
Proof.
  intros H. apply bind_Ok in H as (cfg & w1 & Hc & H).
  assert (cfg = default defaultConfig (w_config w) /\ reads w w1) as [-> (A1 & A2 & A3 & A4)].
  { apply guarded_Ok, bind_Ok in Hc as (o & w2 & Hc%mongo_Ok & Hr). unfold read in Hc.
    injection Hc as <- <-. unfold ret in Hr. by injection Hr as <- <-. }
  case_bool_decide as Hs; cbn [negb] in H; [|done].
  apply bind_Ok in H as (ds & w2 & [-> (B1 & B2 & B3 & B4)]%discover_Ok & H). cbn zeta in H.
  assert (discoveries w1 = discoveries w) as Ed.
  { unfold discoveries, unlocked, wallets_of. by rewrite A1, A2. }
  rewrite Ed in H. apply bind_Ok in H as (res & w3 & H3 & H). apply bind_Ok in H as (ads & w4 & H4 & H).
  unfold ret in H. injection H as <- <-. cbn. destruct dryRun.
  - unfold ret in H3, H4. injection H3 as <- <-. injection H4 as <- <-. cbn.
    split_and!; congruence || done.
  - apply fold_provision in H3 as [Hl (C1 & C2 & _)]. cbn in Hl.
    apply discover_Ok in H4 as [_ (D1 & D2 & D3 & D4)].
    split_and!; congruence || done || (by rewrite Hl).
Qed.
End Pointer.
