(* ===== verification/CutoverRouting.v ===== *)
(** * Cash wallet cutover: which wallet an account uses

    Model of the modules of [src/src/app/cash-wallet-cutover/] the rest of the
    application asks during and after a cutover: [guard.ts], [presentation.ts],
    [presentation-for-account.ts], [cashout-routing.ts], [recipient-routing.ts]
    and [client-capability.ts]. *)

From stdpp Require Import base gmap list strings.
From Stdlib Require Import ZArith Lia Ascii.
From S2P Require Import Prelude JsStrings Errors MoneyAmounts CutoverStateMachine World Ibex.
From S2P Require Import Repos CutoverRepo CutoverPrepare.

Open Scope Z_scope.

(** ** client-capability.ts *)

Definition CASH_WALLET_USDT_CLIENT_CAPABILITY : string := "cash-wallet-usdt-v1".

Inductive ClientPresentation := client_legacy_compat | client_usdt.

Record CashWalletClientCapabilities := mkCapabilities {
  cashWalletPresentation : ClientPresentation;
  hasUsdtCashWalletSupport : bool
}.

Definition DEFAULT_CASH_WALLET_CLIENT_CAPABILITIES : CashWalletClientCapabilities :=
  mkCapabilities client_legacy_compat false.

(** A header value: a string, an array (whose elements are strings or not), or
    something else. *)
Inductive header_value :=
| HString (s : string)
| HArray (l : list (option string))
| HOther.

Definition header_strings (raw : header_value) : list string :=
  match raw with
  | HString s => [s]
  | HArray l => omap id l
  | HOther => []
  end.

Definition str_trim (s : string) : string := strip_end js_space (strip_start js_space s).

Definition parseCashWalletClientCapabilities (headers : list (string * header_value)) :
    CashWalletClientCapabilities :=
  let values := flat_map (fun '(key, raw) =>
    if bool_decide (str_lower key = "x-flash-client-capabilities") then header_strings raw else [])
    headers in
  let capabilities := map (fun v => str_lower (str_trim v)) (flat_map (split_on ","%char) values) in
  if bool_decide (CASH_WALLET_USDT_CLIENT_CAPABILITY ∈ capabilities)
  then mkCapabilities client_usdt true
  else DEFAULT_CASH_WALLET_CLIENT_CAPABILITIES.

(** ** guard.ts *)

Inductive Route := route_legacy_usd | route_usdt.
Inductive Presentation := present_legacy_usd | present_legacy_usd_compat | present_usdt.

#[global] Instance Route_eq_dec : EqDecision Route.
Proof. solve_decision. Defined.
#[global] Instance Presentation_eq_dec : EqDecision Presentation.
Proof. solve_decision. Defined.

Definition ACTIVE_STATUSES : list MigrationStatus :=
  [started; provisioned; balance_read; invoice_created; balance_move_sending; balance_move_sent;
   balance_move_verified; fee_reimbursement_invoice_created; fee_reimbursement_sending;
   fee_reimbursed; pointer_flipped; rollback_started].

(** [migration?.status === s] *)
Definition status_is (o : option migration) (s : MigrationStatus) : bool :=
  match o with Some m => bool_decide (m_status m = s) | None => false end.

Definition evaluateCashWalletCutoverGuard (cutover : config) (m : option migration) :
    outcome error Route :=
  match c_state cutover with
  | state_pre => Ok route_legacy_usd
  | state_complete =>
      if status_is m rollback_started then Err (new_error0 CashWalletCutoverInProgressError)
      else if status_is m rolled_back then Ok route_legacy_usd
      else Ok route_usdt
  | state_rolled_back =>
      match m with
      | None => Ok route_legacy_usd
      | Some _ =>
          if status_is m not_started || status_is m rolled_back then Ok route_legacy_usd
          else if status_is m skipped_already_migrated then Ok route_usdt
          else if status_is m rollback_started then
            Err (new_error0 CashWalletCutoverInProgressError)
          else Err (new_error0 CashWalletMigrationFailedError)
      end
  | state_in_progress =>
      match m with
      | None => Ok route_legacy_usd
      | Some mig =>
          if status_is m not_started then Ok route_legacy_usd
          else if status_is m complete || status_is m skipped_already_migrated then Ok route_usdt
          else if status_is m failed || status_is m requires_operator_review then
            Err (new_error0 CashWalletMigrationFailedError)
          else if includes ACTIVE_STATUSES (m_status mig) then
            Err (new_error0 CashWalletCutoverInProgressError)
          else Ok route_legacy_usd
      end
  end.

Definition evaluateCashWalletCutoverPresentation (cutover : config) (m : option migration)
    (client : CashWalletClientCapabilities) : outcome error Presentation :=
  outcome_map (fun route =>
    match route with
    | route_legacy_usd => present_legacy_usd
    | route_usdt =>
        if hasUsdtCashWalletSupport client then present_usdt else present_legacy_usd_compat
    end) (evaluateCashWalletCutoverGuard cutover m).

(** ** presentation.ts *)

Record presentation_result := mkPresentation {
  ps_wallets : list wallet;
  ps_defaultWalletId : string;
  ps_legacyUsdWallet : option wallet;
  ps_activeSettlementWallet : wallet
}.

Definition find_currency (c : WalletCurrency) (wallets : list wallet) : option wallet :=
  List.find (fun wl => bool_decide (wl_currency wl = c)) wallets.

Definition non_cash (wallets : list wallet) : list wallet :=
  List.filter (fun wl => negb (bool_decide (wl_currency wl = Usd)) &&
                         negb (bool_decide (wl_currency wl = Usdt))) wallets.

Definition resolveCashWalletPresentation (decision : Presentation) (wallets : list wallet) :
    outcome error presentation_result :=
  let legacyUsdWallet := find_currency Usd wallets in
  let usdtWallet := find_currency Usdt wallets in
  match decision with
  | present_usdt =>
      match usdtWallet with
      | None => Err (new_error0 CashWalletMissingUsdtWalletError)
      | Some u => Ok (mkPresentation (non_cash wallets ++ [u]) (wl_id u) legacyUsdWallet u)
      end
  | _ =>
      match legacyUsdWallet with
      | None => Err (new_error0 CashWalletMissingLegacyUsdWalletError)
      | Some l =>
          match decision with
          | present_legacy_usd_compat =>
              match usdtWallet with
              | None => Err (new_error0 CashWalletMissingUsdtWalletError)
              | Some u => Ok (mkPresentation (non_cash wallets ++ [l]) (wl_id l) (Some l) u)
              end
          | _ => Ok (mkPresentation (non_cash wallets ++ [l]) (wl_id l) (Some l) l)
          end
      end
  end.

(** [Array.from(new Set(l))]: the first occurrence of each. *)
Fixpoint array_of_set (seen l : list string) : list string :=
  match l with
  | [] => []
  | x :: l' =>
      if bool_decide (x ∈ seen) then array_of_set seen l' else x :: array_of_set (x :: seen) l'
  end.

Definition cashWalletHistoryWalletIds (selectedWalletIds : list string) (p : presentation_result) :
    list string :=
  match ps_legacyUsdWallet p with
  | None => array_of_set [] selectedWalletIds
  | Some legacy =>
      let active := wl_id (ps_activeSettlementWallet p) in
      array_of_set [] (flat_map (fun id =>
        if bool_decide (id ∈ [wl_id legacy; active]) then [active; wl_id legacy] else [id])
        selectedWalletIds)
  end.

Definition cashWalletHistoryWalletIdsForPresentation (walletIds : option (list string))
    (p : presentation_result) : list string :=
  cashWalletHistoryWalletIds (default (map wl_id (ps_wallets p)) walletIds) p.

(** [walletById.get(id)] on a [Map] built from a list: the last entry wins. *)
Definition wallet_by_id (l : list wallet) (id : string) : option wallet :=
  List.find (fun wl => bool_decide (wl_id wl = id)) (rev l).

Definition cashWalletHistoryWalletsForPresentation (wallets : list wallet) (p : presentation_result) :
    list wallet :=
  let historyWalletIds := cashWalletHistoryWalletIds (map wl_id wallets) p in
  let entries := ps_wallets p ++ option_list (ps_legacyUsdWallet p) ++
                 [ps_activeSettlementWallet p] ++ wallets in
  omap (wallet_by_id entries) historyWalletIds.

Section Routing.
Context `{X : External}.

(** The lookup shared by the two callers of the guard: the migration is loaded
    only while the cutover is in progress. *)
Definition guard_migration (accountId : string) (cutover : config) : App (option migration) :=
  if bool_decide (c_state cutover = state_in_progress) then
    match nonempty_opt (c_runId cutover) with
    | None => fail (new_error0 CashWalletCutoverPreflightError)
    | Some runId => findMigrationByAccountId accountId (c_cutoverVersion cutover) runId
    end
  else ret None.

(** ** presentation-for-account.ts *)

Definition resolveCashWalletPresentationForAccount (acc : account)
    (client : CashWalletClientCapabilities) : App presentation_result :=
  let! cutover := getConfig in
  let! m := guard_migration (a_id acc) cutover in
  let! decision := lift (evaluateCashWalletCutoverPresentation cutover m client) in
  let! wallets := listByAccountId (a_id acc) in
  lift (resolveCashWalletPresentation decision wallets).

Definition resolveCashWalletMutationWalletIdForAccount (acc : account) (walletId : string)
    (client : CashWalletClientCapabilities) : App string :=
  let! presentation := resolveCashWalletPresentationForAccount acc client in
  if bool_decide (Some walletId = wl_id <$> ps_legacyUsdWallet presentation)
  then ret (wl_id (ps_activeSettlementWallet presentation))
  else ret walletId.

(** ** recipient-routing.ts *)

Definition resolveCashWalletRecipientMutationWalletId (recipientWalletId : string)
    (client : CashWalletClientCapabilities) : App string :=
  let! recipientWallet := wallets_findById recipientWalletId in
  let! recipientAccount := accounts_findById (wl_accountId recipientWallet) in
  resolveCashWalletMutationWalletIdForAccount recipientAccount recipientWalletId client.

(** ** cashout-routing.ts *)

Record CashoutWalletSelection := mkSelection {
  cs_route : Route;
  cs_userWalletId : string;
  cs_flashWalletId : string
}.

Definition resolveCashoutWalletSelection
    (accountId requestedUserWalletId bankOwnerUsdWalletId : string) : App CashoutWalletSelection :=
  let! cutover := getConfig in
  let! m := guard_migration accountId cutover in
  let! decision := lift (evaluateCashWalletCutoverGuard cutover m) in
  match decision with
  | route_legacy_usd => ret (mkSelection route_legacy_usd requestedUserWalletId bankOwnerUsdWalletId)
  | route_usdt =>
      let! userWallets := listByAccountId accountId in
      match find_currency Usdt userWallets with
      | None => fail (new_error CashWalletMissingUsdtWalletError
                  ("No USDT wallet found for account " +:+ accountId))
      | Some userUsdtWallet =>
          let! bankOwnerWallet := wallets_findById bankOwnerUsdWalletId in
          let! bankOwnerWallets := listByAccountId (wl_accountId bankOwnerWallet) in
          match find_currency Usdt bankOwnerWallets with
          | None => fail (new_error CashWalletMissingUsdtWalletError
                      "No USDT wallet found for the Flash bank-owner account")
          | Some bankOwnerUsdtWallet =>
              ret (mkSelection route_usdt (wl_id userUsdtWallet) (wl_id bankOwnerUsdtWallet))
          end
      end
  end.

End Routing.

(** ** The guard *)

(** The guard during a cutover. An account is routed to USDT exactly when
    its migration completed or found it there; an account whose migration is
    under way, failed, waits for an operator or is being rolled back is
    blocked; every other account is routed to its legacy wallet: those without
    a migration or not started, those rolled back, and those at
    [legacy_zero_verified]. *)
Theorem guard_in_progress (cutover : config) (m : option migration) :
  c_state cutover = state_in_progress ->
  (evaluateCashWalletCutoverGuard cutover m = Ok route_usdt <->
     exists mig, m = Some mig /\ m_status mig ∈ [complete; skipped_already_migrated]) /\
  (evaluateCashWalletCutoverGuard cutover m = Ok route_legacy_usd <->
     forall mig, m = Some mig -> m_status mig ∈ [not_started; rolled_back; legacy_zero_verified]) /\
  (is_ok (evaluateCashWalletCutoverGuard cutover m) = false <->
     exists mig, m = Some mig /\
       m_status mig ∈ ACTIVE_STATUSES ++ [failed; requires_operator_review]).
Proof.
  intros Hs. unfold evaluateCashWalletCutoverGuard. rewrite Hs. destruct m as [mig|].
  - assert (forall P : MigrationStatus -> Prop,
      (exists mig', Some mig = Some mig' /\ P (m_status mig')) <-> P (m_status mig)) as E1.
    { intros P. split; [by intros (? & [= <-] & ?)|eauto]. }
    assert (forall P : MigrationStatus -> Prop,
      (forall mig', Some mig = Some mig' -> P (m_status mig')) <-> P (m_status mig)) as E2.
    { intros P. split; [eauto|by intros ? ? [= <-]]. }
    rewrite (E1 (fun s => s ∈ [complete; skipped_already_migrated])).
    rewrite (E2 (fun s => s ∈ [not_started; rolled_back; legacy_zero_verified])).
    rewrite (E1 (fun s => s ∈ ACTIVE_STATUSES ++ [failed; requires_operator_review])).
    unfold status_is. clear E1 E2. generalize (m_status mig). intros s.
    split_and!; (apply bool_decide_eq_true_1 || idtac); destruct s; cbn;
      (split; intros H; [try discriminate H; by_computation; reflexivity|]);
      try reflexivity; apply (bool_decide_eq_true_2 _) in H; discriminate H.
  - split_and!; split; try done; try (by intros (? & ? & _)).
Qed.

(** ** Presentation *)

Definition is_cash (wl : wallet) : Prop := wl_currency wl = Usd \/ wl_currency wl = Usdt.

Lemma find_currency_Some c ws wl : find_currency c ws = Some wl -> wl ∈ ws /\ wl_currency wl = c.
Proof.
  intros [H1 H2%bool_decide_eq_true]%List.find_some. by rewrite list_elem_of_In.
Qed.

Lemma elem_of_non_cash ws wl : wl ∈ non_cash ws <-> wl ∈ ws /\ ~ is_cash wl.
Proof.
  unfold non_cash, is_cash. rewrite list_elem_of_In, filter_In, <- list_elem_of_In, andb_true_iff,
    !negb_true_iff, !bool_decide_eq_false. tauto.
Qed.

(** What a client is shown. Of the account's wallets it sees the non-cash
    ones and exactly one cash wallet, the default one: the USDT wallet for the
    USDT presentation and the legacy wallet otherwise. Settlement goes through
    the USDT wallet unless the account is on the legacy route. *)
Theorem presentation_sound (d : Presentation) (ws : list wallet) (p : presentation_result) :
  resolveCashWalletPresentation d ws = Ok p ->
  (exists cash, ps_wallets p = non_cash ws ++ [cash] /\ cash ∈ ws /\
     ps_defaultWalletId p = wl_id cash /\
     wl_currency cash = (if bool_decide (d = present_usdt) then Usdt else Usd)) /\
  (forall wl, wl ∈ ps_wallets p -> wl ∈ ws) /\
  ps_activeSettlementWallet p ∈ ws /\
  wl_currency (ps_activeSettlementWallet p) =
    (if bool_decide (d = present_legacy_usd) then Usd else Usdt).
Proof.
  unfold resolveCashWalletPresentation.
  assert (forall cash : wallet, cash ∈ ws ->
    forall wl, wl ∈ non_cash ws ++ [cash] -> wl ∈ ws) as Hin.
  { intros cash Hc wl [H|H]%elem_of_app; [apply elem_of_non_cash in H; tauto|].
    by apply list_elem_of_singleton in H as ->. }
  destruct d; cbn.
  - destruct (find_currency Usd ws) as [l|] eqn:El; [|done]. intros [= <-]. cbn.
    apply find_currency_Some in El as [? ?]. split_and!; eauto.
  - destruct (find_currency Usd ws) as [l|] eqn:El; [|done].
    destruct (find_currency Usdt ws) as [u|] eqn:Eu; [|done]. intros [= <-]. cbn.
    apply find_currency_Some in El as [? ?]. apply find_currency_Some in Eu as [? ?].
    split_and!; eauto.
  - destruct (find_currency Usdt ws) as [u|] eqn:Eu; [|done]. intros [= <-]. cbn.
    apply find_currency_Some in Eu as [? ?]. split_and!; eauto.
Qed.

(** ** History *)

Lemma array_of_set_spec seen l :
  NoDup (array_of_set seen l) /\ (forall x, x ∈ array_of_set seen l <-> x ∈ l /\ (x ∉ seen)).
Proof.
  revert seen. induction l as [|y l IH]; intros seen; cbn.
  { split; [constructor|]. intros x. rewrite elem_of_nil. tauto. }
  case_bool_decide as Hy.
  - destruct (IH seen) as [Hnd Hx]. split; [done|]. intros x. rewrite Hx, elem_of_cons.
    split; [tauto|]. intros [[->|?] ?]; tauto.
  - destruct (IH (y :: seen)) as [Hnd Hx]. split.
    + constructor; [|done]. rewrite Hx, elem_of_cons. tauto.
    + intros x. rewrite elem_of_cons, Hx, !elem_of_cons. destruct (decide (x = y)) as [->|]; tauto.
Qed.

(** The transaction history of an account lists each wallet once, keeps
    every wallet selected, and never separates the two cash wallets: selecting
    the legacy wallet or the settlement wallet selects both. *)
Theorem history_ids_sound (selected : list string) (p : presentation_result) (legacy : wallet) :
  ps_legacyUsdWallet p = Some legacy ->
  let ids := cashWalletHistoryWalletIds selected p in
  NoDup ids /\ (forall id, id ∈ selected -> id ∈ ids) /\
  (wl_id legacy ∈ ids <-> wl_id (ps_activeSettlementWallet p) ∈ ids).
Proof.
  intros Hl. cbn zeta. unfold cashWalletHistoryWalletIds. rewrite Hl.
  set (active := wl_id (ps_activeSettlementWallet p)).
  set (f := fun id => if bool_decide (id ∈ [wl_id legacy; active]) then [active; wl_id legacy] else [id]).
  destruct (array_of_set_spec [] (flat_map f selected)) as [Hnd Hx].
  assert (forall x, x ∈ array_of_set [] (flat_map f selected) <-> exists y, y ∈ selected /\ x ∈ f y) as E.
  { intros x. rewrite Hx, list_elem_of_In, in_flat_map, elem_of_nil. setoid_rewrite list_elem_of_In.
    tauto. }
  assert (forall y, wl_id legacy ∈ f y <-> active ∈ f y) as Hcash.
  { intros y. unfold f. case_bool_decide as Hy; rewrite !elem_of_cons, !elem_of_nil in *;
      intuition congruence. }
  split_and!; [done| |].
  - intros id Hid. apply E. exists id. split; [done|]. unfold f. case_bool_decide as Hy.
    + rewrite !elem_of_cons, !elem_of_nil in *. intuition congruence.
    + by apply list_elem_of_singleton.
  - rewrite !E. split; intros (y & ? & ?); exists y; (split; [done|]); by apply Hcash.
Qed.

Section RoutingProofs.
Context `{X : External}.

Lemma getConfig_reads w c w' : getConfig w = (Ok c, w') ->
  c = default defaultConfig (w_config w) /\ reads w w'.
Proof.
  intros H%guarded_Ok. apply bind_Ok in H as (o & w1 & Hc%mongo_Ok & Hret). unfold read in Hc.
  injection Hc as <- <-. unfold ret in Hret. by injection Hret as <- <-.
Qed.

Lemma guard_migration_reads a c w m w' : guard_migration a c w = (Ok m, w') -> reads w w'.
Proof.
  unfold guard_migration. case_bool_decide as Hst; [|unfold ret; by intros [= <- <-]].
  destruct (nonempty_opt (c_runId c)); [|done]. intros H%guarded_Ok%mongo_Ok.
  unfold read in H. by injection H as <- <-.
Qed.

Lemma wallets_findById_Ok i w wl w' : wallets_findById i w = (Ok wl, w') ->
  wl ∈ w_wallets w /\ wl_id wl = i /\ reads w w'.
Proof.
  intros H%guarded_Ok. apply bind_Ok in H as (o & w1 & H1%mongo_Ok & H). unfold read in H1.
  injection H1 as E <-. destruct o as [[k wl']|]; [|done]. unfold ret in H. injection H as -> <-.
  apply list_find_Some in E as (E & Hid & _). split_and!; [|done..]. by eapply list_elem_of_lookup_2.
Qed.

(** Where a cashout debits and credits. On the legacy route the wallets
    are those of the request and of the configuration. On the USDT route,
    whatever wallet the client asked for, the debit is from a USDT wallet of
    the account and the credit to a USDT wallet of the owner of the bank
    wallet. No document is written. *)
Theorem cashout_selection_sound (accountId requested bank : string) (w w' : world)
    (s : CashoutWalletSelection) :
  resolveCashoutWalletSelection accountId requested bank w = (Ok s, w') ->
  reads w w' /\
  match cs_route s with
  | route_legacy_usd => cs_userWalletId s = requested /\ cs_flashWalletId s = bank
  | route_usdt =>
      exists user flash owner,
        user ∈ w_wallets w /\ wl_id user = cs_userWalletId s /\ wl_accountId user = accountId /\
        wl_currency user = Usdt /\
        owner ∈ w_wallets w /\ wl_id owner = bank /\
        flash ∈ w_wallets w /\ wl_id flash = cs_flashWalletId s /\
        wl_accountId flash = wl_accountId owner /\ wl_currency flash = Usdt
  end.
Proof.
  intros H. apply bind_Ok in H as (c & w1 & [-> (A1 & A2 & A3 & A4)]%getConfig_reads & H).
  apply bind_Ok in H as (m & w2 & (B1 & B2 & B3 & B4)%guard_migration_reads & H).
  apply bind_Ok in H as (r & w3 & Hr & H). unfold lift in Hr. injection Hr as _ <-.
  destruct r; [unfold ret in H; injection H as <- <-; unfold reads; split_and!; done || congruence|].
  apply bind_Ok in H as (us & w4 & [-> (C1 & C2 & C3 & C4)]%listByAccountId_Ok & H).
  destruct (find_currency Usdt _) as [u|] eqn:Eu in H; [|done].
  apply bind_Ok in H as (o & w5 & (Ho & Hid & D1 & D2 & D3 & D4)%wallets_findById_Ok & H).
  apply bind_Ok in H as (bs & w6 & [-> (E1 & E2 & E3 & E4)]%listByAccountId_Ok & H).
  destruct (find_currency Usdt _) as [f|] eqn:Ef in H; [|done].
  unfold ret in H. injection H as <- <-. cbn. split; [unfold reads; split_and!; congruence|].
  apply find_currency_Some in Eu as [[Hu1 Hu2]%list_elem_of_filter Hu3].
  apply find_currency_Some in Ef as [[Hf1 Hf2]%list_elem_of_filter Hf3].
  exists u, f, o. rewrite D2, C2, B2, A2 in Hf2. rewrite B2, A2 in Hu2. rewrite C2, B2, A2 in Ho.
  split_and!; done.
Qed.

(** Once the cutover is complete, no rollback of a single account changes
    its routing: the migration is not consulted, so a cashout that resolves
    goes through USDT even when the account was rolled back, for which the
    guard itself asks for the legacy wallet. *)
Theorem complete_ignores_rollback (accountId requested bank : string) (w w' : world)
    (s : CashoutWalletSelection) (m : migration) :
  c_state (default defaultConfig (w_config w)) = state_complete ->
  m_status m = rolled_back ->
  resolveCashoutWalletSelection accountId requested bank w = (Ok s, w') ->
  cs_route s = route_usdt /\
  evaluateCashWalletCutoverGuard (default defaultConfig (w_config w)) (Some m) = Ok route_legacy_usd.
Proof.
  intros Hs Hm H. split; [|unfold evaluateCashWalletCutoverGuard, status_is; by rewrite Hs, Hm].
  apply bind_Ok in H as (c & w1 & [-> _]%getConfig_reads & H).
  apply bind_Ok in H as (o & w2 & Ho & H). unfold guard_migration in Ho. rewrite Hs in Ho.
  cbn in Ho. unfold ret in Ho. injection Ho as <- <-.
  apply bind_Ok in H as (r & w3 & Hr & H). unfold lift, evaluateCashWalletCutoverGuard in Hr.
  rewrite Hs in Hr. cbn in Hr. injection Hr as <- <-.
  apply bind_Ok in H as (us & w4 & _ & H). destruct (find_currency Usdt us); [|done].
  apply bind_Ok in H as (b & w5 & _ & H). apply bind_Ok in H as (bs & w6 & _ & H).
  destruct (find_currency Usdt bs); [|done]. unfold ret in H. by injection H as <- <-.
Qed.
End RoutingProofs.
