(* ===== verification/FygaroGate.v ===== *)
(** * Fygaro settings, fees and the credit gate

    Model of [src/src/services/frappe/coerce.ts], of the validation of
    [services/fygaro/webhook-server/fygaro-settings.ts], and of [fees.ts]: what a
    card top-up costs and whether it may be credited. Amounts in cents are
    integers; the settings are dollars and percentages, that is doubles. *)

From stdpp Require Import base list strings.
From Stdlib Require Import ZArith Lia QArith Lqa Qpower.
From S2P Require Import Prelude JsStrings JsNumbers.

Close Scope Q_scope.
Open Scope Z_scope.

(** ** coerce.ts *)

(** A scalar of an ERPNext document; a JSON number is finite. *)
Inductive scalar := SNumber (x : js_num) | SText (s : string) | SBool (b : bool) | SNull.

Definition num_eqb (x y : js_num) : bool := negb (num_ltb x y) && negb (num_ltb y x).

Definition toFiniteNumber (value : scalar) : option js_num :=
  match value with
  | SNumber x => Some x
  | SText s => if nonempty (js_trim s) then js_Number s else None
  | _ => None
  end.

Definition toBoolean (value : scalar) : bool :=
  match value with
  | SNumber x => num_eqb x (num_of_Z 1)
  | SBool b => b
  | SText s => bool_decide (s = "1")
  | SNull => false
  end.

(** ** fygaro-settings.ts *)

(** [FygaroSettingsDoc]; an absent field coerces like [null]. *)
Record FygaroSettingsDoc := mkSettingsDoc {
  doc_processor : scalar;
  doc_processor_fee_percent : scalar;
  doc_processor_fee_fixed : scalar;
  doc_flash_margin_percent : scalar;
  doc_flash_margin_fixed : scalar;
  doc_auto_credit_limit : scalar;
  doc_minimum_topup : scalar;
  doc_auto_credit_enabled : scalar;
  doc_l1_daily_limit : scalar;
  doc_l2_daily_limit : scalar;
  doc_l3_daily_limit : scalar
}.

Record FygaroSettings := mkSettings {
  processor : string;
  processorFeePercent : js_num;
  processorFeeFixed : js_num;
  flashMarginPercent : js_num;
  flashMarginFixed : js_num;
  autoCreditLimit : js_num;
  minimumTopup : js_num;
  autoCreditEnabled : bool;
  dailyTopupLimit1 : js_num;
  dailyTopupLimit2 : js_num;
  dailyTopupLimit3 : js_num
}.

(** [settings.dailyTopupLimits[level]] *)
Definition dailyTopupLimits (s : FygaroSettings) (level : Z) : option js_num :=
  if level =? 1 then Some (dailyTopupLimit1 s)
  else if level =? 2 then Some (dailyTopupLimit2 s)
  else if level =? 3 then Some (dailyTopupLimit3 s)
  else None.

(** A number that is there and not negative. *)
Definition non_negative (value : scalar) : option js_num :=
  x ← toFiniteNumber value; if num_ltb x (num_of_Z 0) then None else Some x.

Definition validateFygaroSettings (doc : FygaroSettingsDoc) : option FygaroSettings :=
  processorFeePercent ← non_negative (doc_processor_fee_percent doc);
  processorFeeFixed ← non_negative (doc_processor_fee_fixed doc);
  flashMarginPercent ← non_negative (doc_flash_margin_percent doc);
  flashMarginFixed ← non_negative (doc_flash_margin_fixed doc);
  autoCreditLimit ← non_negative (doc_auto_credit_limit doc);
  minimumTopup ← non_negative (doc_minimum_topup doc);
  l1DailyLimit ← non_negative (doc_l1_daily_limit doc);
  l2DailyLimit ← non_negative (doc_l2_daily_limit doc);
  l3DailyLimit ← non_negative (doc_l3_daily_limit doc);
  Some (mkSettings (match doc_processor doc with SText s => s | _ => EmptyString end)
    processorFeePercent processorFeeFixed flashMarginPercent flashMarginFixed autoCreditLimit
    minimumTopup (toBoolean (doc_auto_credit_enabled doc)) l1DailyLimit l2DailyLimit l3DailyLimit).

(** ** fees.ts *)

Record FygaroFees := mkFees {
  grossCents : Z;
  processorFeeCents : Z;
  flashFeeCents : Z;
  netCents : Z
}.

(** [Math.round((cents * percent) / 100)] *)
Definition percent_of (cents : Z) (percent : js_num) : Z :=
  Math_round (num_div_int (num_mul (num_of_Z cents) percent) 100).

Definition fullFlashFeeCents (gross : Z) (settings : FygaroSettings) : Z :=
  percent_of gross (flashMarginPercent settings) + to_cents (flashMarginFixed settings).

(** [Math.min(100, Math.max(0, x))] *)
Definition clamp_percent (x : js_num) : js_num :=
  num_min (num_of_Z 100) (num_max (num_of_Z 0) x).

Definition computeFygaroFees (gross : Z) (settings : FygaroSettings)
    (flashFeeDiscountPercent : js_num) : FygaroFees :=
  let processorFee :=
    percent_of gross (processorFeePercent settings) + to_cents (processorFeeFixed settings) in
  let discount := clamp_percent flashFeeDiscountPercent in
  let flashFee :=
    percent_of (fullFlashFeeCents gross settings) (num_sub (num_of_Z 100) discount) in
  mkFees gross processorFee flashFee (gross - processorFee - flashFee).

Inductive RecordOnlyReason :=
| credit_disabled | settings_unavailable | auto_credit_disabled | non_usd | over_limit
| no_daily_limit_for_level | history_unavailable | daily_limit_exceeded | under_minimum
| non_positive_net | intent_mismatch.

#[global] Instance RecordOnlyReason_eq_dec : EqDecision RecordOnlyReason.
Proof. solve_decision. Defined.

Inductive CreditGate := Credit (fees : FygaroFees) | RecordOnly (reason : RecordOnlyReason).

Record gate_args := mkGateArgs {
  g_creditEnabled : bool;
  g_currency : string;
  g_settings : option FygaroSettings;
  g_grossCents : Z;
  g_level : Z;
  g_priorDayGrossCents : option Z;
  g_discount : js_num
}.

Definition evaluateCreditGate (a : gate_args) : CreditGate :=
  if negb (g_creditEnabled a) then RecordOnly credit_disabled else
  match g_settings a with
  | None => RecordOnly settings_unavailable
  | Some settings =>
      if negb (autoCreditEnabled settings) then RecordOnly auto_credit_disabled else
      if negb (bool_decide (g_currency a = "USD")) then RecordOnly non_usd else
      if to_cents (autoCreditLimit settings) <? g_grossCents a then RecordOnly over_limit else
      match dailyTopupLimits settings (g_level a) with
      | None => RecordOnly no_daily_limit_for_level
      | Some dailyLimitUsd =>
          match g_priorDayGrossCents a with
          | None => RecordOnly history_unavailable
          | Some prior =>
              if to_cents dailyLimitUsd <? g_grossCents a + prior
              then RecordOnly daily_limit_exceeded else
              let fees := computeFygaroFees (g_grossCents a) settings (g_discount a) in
              if netCents fees <=? 0 then RecordOnly non_positive_net else
              if g_grossCents a <? to_cents (minimumTopup settings) then RecordOnly under_minimum
              else Credit fees
          end
      end
  end.

(** ** What the gate lets through *)

(** The daily cap of a level, in cents. *)
Definition daily_cap (settings : FygaroSettings) (level : Z) : option Z :=
  to_cents <$> dailyTopupLimits settings level.

(** Everything a credited payment satisfies. *)
Definition creditable (a : gate_args) (settings : FygaroSettings) (cap prior : Z) : Prop :=
  g_creditEnabled a = true /\ g_settings a = Some settings /\ autoCreditEnabled settings = true /\
  g_currency a = "USD" /\ g_grossCents a <= to_cents (autoCreditLimit settings) /\
  daily_cap settings (g_level a) = Some cap /\ g_priorDayGrossCents a = Some prior /\
  g_grossCents a + prior <= cap /\
  0 < netCents (computeFygaroFees (g_grossCents a) settings (g_discount a)) /\
  to_cents (minimumTopup settings) <= g_grossCents a.

Lemma gate_credits_iff (a : gate_args) (fees : FygaroFees) :
  evaluateCreditGate a = Credit fees <->
  exists settings cap prior, creditable a settings cap prior /\
    fees = computeFygaroFees (g_grossCents a) settings (g_discount a).
Proof.
  unfold evaluateCreditGate, creditable, daily_cap. split.
  - intros H. destruct (g_creditEnabled a); [|done]. cbn [negb] in H.
    destruct (g_settings a) as [s|]; [|done]. destruct (autoCreditEnabled s) eqn:Ha; [|done]. cbn [negb] in H.
    destruct (bool_decide_reflect (g_currency a = "USD")) as [Hu|]; [|done]. cbn [negb] in H.
    destruct (Z.ltb_spec (to_cents (autoCreditLimit s)) (g_grossCents a)); [done|].
    destruct (dailyTopupLimits s (g_level a)) as [l|] eqn:Hd; [|done].
    destruct (g_priorDayGrossCents a) as [p|]; [|done].
    destruct (Z.ltb_spec (to_cents l) (g_grossCents a + p)); [done|].
    destruct (Z.leb_spec (netCents (computeFygaroFees (g_grossCents a) s (g_discount a))) 0); [done|].
    destruct (Z.ltb_spec (g_grossCents a) (to_cents (minimumTopup s))); [done|].
    exists s, (to_cents l), p. injection H as <-. rewrite Hd. split_and!; done || lia.
  - intros (s & cap & p & (-> & -> & Ha & Hu & Hl & Hc & -> & Hp & Hn & Hm) & ->).
    destruct (dailyTopupLimits s (g_level a)) as [l|]; [|done]. injection Hc as <-. cbn [negb].
    rewrite Ha, bool_decide_true by done. cbn [negb].
    destruct (Z.ltb_spec (to_cents (autoCreditLimit s)) (g_grossCents a)); [lia|].
    destruct (Z.ltb_spec (to_cents l) (g_grossCents a + p)); [lia|].
    destruct (Z.leb_spec (netCents (computeFygaroFees (g_grossCents a) s (g_discount a))) 0); [lia|].
    by destruct (Z.ltb_spec (g_grossCents a) (to_cents (minimumTopup s))); [lia|].
Qed.

(** The gate credits exactly the payments that pass every one of its seven
    conditions, with both bounds on the gross inclusive, and then with the fees
    of the settings. *)
Theorem gate_credits (a : gate_args) (fees : FygaroFees) :
  evaluateCreditGate a = Credit fees <->
  exists settings cap prior, creditable a settings cap prior /\
    fees = computeFygaroFees (g_grossCents a) settings (g_discount a).
Proof. apply gate_credits_iff. Qed.

(** ** Fees *)

Lemma clamp_percent_range x :
  (0 <= num_val (clamp_percent x))%Q /\ (num_val (clamp_percent x) <= inject_Z 100)%Q.
Proof.
  unfold clamp_percent, num_min, num_max.
  pose proof (num_of_Z_value 0) as E0. pose proof (num_of_Z_value 100) as E100.
  change (inject_Z 0) with 0%Q in E0. change (inject_Z 100) with (100 # 1)%Q in *.
  destruct (num_ltb (num_of_Z 0) x) eqn:H1.
  - apply num_ltb_val in H1. destruct (num_ltb x (num_of_Z 100)) eqn:H2.
    + apply num_ltb_val in H2. split; lra.
    + split; lra.
  - destruct (num_ltb (num_of_Z 0) (num_of_Z 100)) eqn:H2; split; lra.
Qed.

(** A share of at most a hundred percent is at most the whole. *)
Lemma percent_of_range cents p : 0 <= cents <= 10 ^ 13 ->
  (0 <= num_val p)%Q -> (num_val p <= inject_Z 100)%Q -> 0 <= percent_of cents p <= cents.
Proof.
  intros Hc H0 H100. assert (0 <= inject_Z cents)%Q as Hc0
    by (change 0%Q with (inject_Z 0); rewrite <- Zle_Qle; lia).
  destruct (num_mul_range (num_of_Z cents) p 0 (cents * 100)) as [L U]; [lia|lia| | |].
  - rewrite num_of_Z_value. change (inject_Z 0) with 0%Q. by apply Qmult_le_0_compat.
  - rewrite num_of_Z_value, inject_Z_mult. rewrite !(Qmult_comm (inject_Z cents)).
    by apply Qmult_le_compat_r.
  - destruct (num_div_int_range (num_mul (num_of_Z cents) p) 100 0 cents) as [L' U'];
      [lia..| |done|by apply Math_round_range]. done.
Qed.

(** Whatever the discount says, the Flash fee charged is between nothing and the
    full fee: the net is never more than the gross less the processor's fee, and
    the three parts add up to the gross. *)
Theorem fees_bounded (gross : Z) (settings : FygaroSettings) (discount : js_num) :
  0 <= fullFlashFeeCents gross settings <= 10 ^ 13 ->
  let fees := computeFygaroFees gross settings discount in
  0 <= flashFeeCents fees <= fullFlashFeeCents gross settings /\
  netCents fees + processorFeeCents fees + flashFeeCents fees = gross /\
  netCents fees <= gross - processorFeeCents fees.
Proof.
  intros Hf. cbn zeta. cbn [computeFygaroFees flashFeeCents netCents processorFeeCents].
  set (share := num_sub (num_of_Z 100) (clamp_percent discount)).
  assert ((0 <= num_val share)%Q /\ (num_val share <= inject_Z 100)%Q) as [S0 S100].
  { destruct (clamp_percent_range discount) as [L U].
    pose proof (num_of_Z_value 100) as E. change (inject_Z 100) with (100 # 1)%Q in *.
    apply (num_sub_range _ _ 0 100); [lia..| |]; change (inject_Z 0) with 0%Q;
      change (inject_Z 100) with (100 # 1)%Q; lra. }
  pose proof (percent_of_range _ share Hf S0 S100). lia.
Qed.
