(* ===== verification/CreatedAt.v ===== *)
(** * When a payment was made

    Model of [src/src/services/fygaro/webhook-server/created-at.ts]: the time
    Fygaro reports, as epoch seconds or milliseconds or as an ISO-8601 text, read
    as an instant in milliseconds. [Date] is modelled for the formats ECMAScript
    specifies; the ones it leaves to the host are a parameter, [legacy_date]. *)

From stdpp Require Import base list strings.
From Stdlib Require Import ZArith Lia Ascii QArith Lqa.
From S2P Require Import Prelude JsStrings JsNumbers.

Close Scope Q_scope.
Open Scope Z_scope.

(** ** Dates *)

(** [DayFromYear] of ECMAScript. *)
Definition day_from_year (y : Z) : Z :=
  365 * (y - 1970) + (y - 1969) / 4 - (y - 1901) / 100 + (y - 1601) / 400.

Definition is_leap (y : Z) : bool :=
  (y mod 4 =? 0) && (negb (y mod 100 =? 0) || (y mod 400 =? 0)).

(** The days of the year before a month. *)
Definition days_before (y m : Z) : Z :=
  nth (Z.to_nat m) [0; 0; 31; 59; 90; 120; 151; 181; 212; 243; 273; 304; 334] 0
  + (if (2 <? m) && is_leap y then 1 else 0).

Definition MS_PER_DAY : Z := 24 * 60 * 60 * 1000.

(** The longest time from the epoch a [Date] holds. *)
Definition MAX_DATE_MS : Z := 8640000000000000.

(** ** ISO-8601 *)

Inductive iso_zone := Zulu | Offset (minus colon : bool) (hours minutes : Z).

Record iso_clock := mkClock {
  ck_separator : ascii;
  ck_hour : Z;
  ck_minute : Z;
  ck_second : option Z;
  ck_fraction : option string;
  ck_zone : option iso_zone
}.

Record iso_date := mkIso {
  iso_year : Z;
  iso_month : option Z;
  iso_day : option Z;
  iso_clock_part : option iso_clock
}.

(** [\d{n}], and the rest. *)
Definition take_digits (n : nat) (s : string) : option (Z * string) :=
  let d := str_take n s in
  if (String.length d =? n)%nat && all_digits d then Some (digits_val d, str_drop n s) else None.

(** An optional part that a character opens: absent, or there in full. *)
Definition optional_part (c : ascii) (s : string) : option (option Z * string) :=
  match s with
  | String d r =>
      if Ascii.eqb c d then '(n, r') ← take_digits 2 r; Some (Some n, r') else Some (None, s)
  | EmptyString => Some (None, s)
  end.

(** [(\.\d+)?] *)
Definition fraction_part (s : string) : option (option string * string) :=
  match s with
  | String "." r => let '(d, r') := span_digits r in if nonempty d then Some (Some d, r') else None
  | _ => Some (None, s)
  end.

(** [(Z|[+-]\d{2}:?\d{2})?$] *)
Definition zone_part (s : string) : option (option iso_zone) :=
  match s with
  | EmptyString => Some None
  | String "Z" EmptyString => Some (Some Zulu)
  | String c r =>
      if Ascii.eqb c "+" || Ascii.eqb c "-" then
        '(h, r1) ← take_digits 2 r;
        let '(colon, r2) := match r1 with String ":" r2 => (true, r2) | _ => (false, r1) end in
        '(m, r3) ← take_digits 2 r2;
        match r3 with
        | EmptyString => Some (Some (Offset (Ascii.eqb c "-") colon h m))
        | _ => None
        end
      else None
  end.

(** The part from the separator on; nothing is left over. *)
Definition clock_part (s : string) : option (option iso_clock) :=
  match s with
  | EmptyString => Some None
  | String sep r =>
      if negb (Ascii.eqb sep "T" || Ascii.eqb sep " ") then None else
      '(h, r1) ← take_digits 2 r;
      match r1 with
      | String ":" r2 =>
          '(m, r3) ← take_digits 2 r2;
          '(sec, r4) ← optional_part ":" r3;
          '(frac, r5) ← (match sec with Some _ => fraction_part r4 | None => Some (None, r4) end);
          zone ← zone_part r5;
          Some (Some (mkClock sep h m sec frac zone))
      | _ => None
      end
  end.

(** [ISO_DATE.test(source)], with the parts it matches. *)
Definition ISO_DATE (source : string) : option iso_date :=
  '(y, r) ← take_digits 4 source;
  '(mo, r1) ← optional_part "-" r;
  '(d, r2) ← (match mo with Some _ => optional_part "-" r1 | None => Some (None, r1) end);
  clock ← clock_part r2;
  Some (mkIso y mo d clock).

(** [NAIVE_DATETIME.test(source)] on a text that is an ISO date. *)
Definition NAIVE_DATETIME (i : iso_date) : bool :=
  match iso_day i, iso_clock_part i with
  | Some _, Some c => match ck_zone c with None => true | Some _ => false end
  | _, _ => false
  end.

(** The milliseconds of a fraction: its first three digits. *)
Definition fraction_ms (f : option string) : Z :=
  match f with
  | None => 0
  | Some d => digits_val (str_take 3 (d +:+ "00"))
  end.

Definition zone_minutes (z : iso_zone) : Z :=
  match z with
  | Zulu => 0
  | Offset minus _ h m => if minus then - (h * 60 + m) else h * 60 + m
  end.

Definition in_range (lo n hi : Z) : bool := (lo <=? n) && (n <=? hi).

(** The milliseconds of a clock, in its zone. *)
Definition clock_ms (c : iso_clock) (zone : iso_zone) : option Z :=
  let s := default 0 (ck_second c) in
  let ms := fraction_ms (ck_fraction c) in
  let valid :=
    in_range 0 (ck_minute c) 59 && in_range 0 s 59
    && (in_range 0 (ck_hour c) 23
        || ((ck_hour c =? 24) && (ck_minute c =? 0) && (s =? 0) && (ms =? 0)))
    && match zone with
       | Zulu => true
       | Offset _ _ h m => in_range 0 h 23 && in_range 0 m 59
       end in
  if valid then
    Some (((ck_hour c * 60 + ck_minute c - zone_minutes zone) * 60 + s) * 1000 + ms)
  else None.

(** A date, at midnight UTC. *)
Definition date_ms (i : iso_date) : option Z :=
  let mo := default 1 (iso_month i) in
  let d := default 1 (iso_day i) in
  if in_range 1 mo 12 && in_range 1 d 31 then
    Some ((day_from_year (iso_year i) + days_before (iso_year i) mo + (d - 1)) * MS_PER_DAY)
  else None.

(** An instant: a date alone is in UTC. *)
Definition instant_ms (i : iso_date) (zone : iso_zone) : option Z :=
  day ← date_ms i;
  match iso_clock_part i with
  | None => Some day
  | Some c => ms ← clock_ms c zone; Some (day + ms)
  end.

Section CreatedAt.
Variable legacy_date : string -> option Z.

(** [new Date(source).getTime()] on a text of the shape of an ISO date. *)
Definition Date_parse (source : string) (i : iso_date) : option Z :=
  match iso_clock_part i with
  | None => instant_ms i Zulu
  | Some c =>
      match ck_zone c with
      | Some Zulu => if Ascii.eqb (ck_separator c) "T" then instant_ms i Zulu else legacy_date source
      | Some (Offset minus true h m) =>
          if Ascii.eqb (ck_separator c) "T" then instant_ms i (Offset minus true h m)
          else legacy_date source
      | _ => legacy_date source
      end
  end.

(** ** created-at.ts *)

Definition EPOCH_SECONDS_CEILING : Z := 10 ^ 11.
Definition EPOCH_SECONDS_FLOOR : Z := 10 ^ 8.

(** [QUOTED_EPOCH.test(s)] *)
Definition QUOTED_EPOCH (s : string) : bool :=
  let t := match s with String "+" r => r | _ => s end in
  let '(d, r) := span_digits t in
  (9 <=? slen d) && match r with
                    | EmptyString => true
                    | String "." f => re_digits f
                    | _ => false
                    end.

Inductive created_at := CreatedText (s : string) | CreatedNumber (x : js_num).

(** [new Date(ms).getTime()]: whole milliseconds, within the range of dates; the
    number is positive. *)
Definition Date_of_ms (ms : js_num) : option Z :=
  if num_ltb (num_of_Z MAX_DATE_MS) ms then None else Some (num_to_Z ms).

Definition from_epoch (numeric : js_num) : option Z :=
  if num_ltb numeric (num_of_Z EPOCH_SECONDS_FLOOR) then None else
  Date_of_ms (if num_ltb numeric (num_of_Z EPOCH_SECONDS_CEILING)
              then num_mul numeric (num_of_Z 1000) else numeric).

Definition from_text (source : string) : option Z :=
  i ← ISO_DATE source;
  if NAIVE_DATETIME i then instant_ms i Zulu else Date_parse source i.

(** A zero or a negative number is no time. *)
Definition not_positive (numeric : option js_num) : bool :=
  match numeric with Some x => negb (num_ltb (num_of_Z 0) x) | None => false end.

(** The instant in milliseconds, of which the code returns the ISO text. A text
    that reads as minus infinity is refused by the last branch as well. *)
Definition fygaroCreatedAtToIso (createdAt : option created_at) : option Z :=
  match createdAt with
  | None => None
  | Some (CreatedNumber x) => if not_positive (Some x) then None else from_epoch x
  | Some (CreatedText s) =>
      let trimmed := js_trim s in
      if negb (nonempty trimmed) then None else
      let numeric := js_Number trimmed in
      if not_positive numeric then None else
      if QUOTED_EPOCH trimmed then x ← numeric; from_epoch x else from_text trimmed
  end.

(** ** Units *)

Lemma num_ltb_int x z y : (num_val x == inject_Z z)%Q -> num_ltb x (num_of_Z y) = (z <? y).
Proof.
  intros Hx. destruct (Z.ltb_spec z y) as [Hlt|Hge].
  - apply num_ltb_val. rewrite Hx, num_of_Z_value. by rewrite <- Zlt_Qlt.
  - apply num_ltb_val_false. rewrite Hx, num_of_Z_value. by rewrite <- Zle_Qle.
Qed.

Lemma num_ltb_int_r x z y : (num_val x == inject_Z z)%Q -> num_ltb (num_of_Z y) x = (y <? z).
Proof.
  intros Hx. destruct (Z.ltb_spec y z) as [Hlt|Hge].
  - apply num_ltb_val. rewrite Hx, num_of_Z_value. by rewrite <- Zlt_Qlt.
  - apply num_ltb_val_false. rewrite Hx, num_of_Z_value. by rewrite <- Zle_Qle.
Qed.

Lemma num_mul_int x z k : (num_val x == inject_Z z)%Q -> Z.abs (z * k) <= 2 ^ 53 ->
  (num_val (num_mul x (num_of_Z k)) == inject_Z (z * k))%Q.
Proof.
  intros Hx Hz. assert (num_val x * num_val (num_of_Z k) == inject_Z (z * k))%Q as Hv
    by (rewrite Hx, num_of_Z_value, inject_Z_mult; reflexivity).
  destruct (num_mul_range x (num_of_Z k) (z * k) (z * k)) as [L U]; [done|done| | |lra];
    rewrite Hv; apply Qle_refl.
Qed.

(** Seconds and milliseconds of the same instant. *)
Lemma from_epoch_units x z : (num_val x == inject_Z z)%Q -> EPOCH_SECONDS_FLOOR <= z <= MAX_DATE_MS ->
  from_epoch x = Some (if z <? EPOCH_SECONDS_CEILING then z * 1000 else z).
Proof.
  intros Hx Hz. unfold from_epoch. rewrite !(num_ltb_int x z) by done.
  destruct (Z.ltb_spec z EPOCH_SECONDS_FLOOR); [lia|]. unfold EPOCH_SECONDS_CEILING, EPOCH_SECONDS_FLOOR, MAX_DATE_MS in *.
  destruct (Z.ltb_spec z (10 ^ 11)); unfold Date_of_ms.
  - assert (num_val (num_mul x (num_of_Z 1000)) == inject_Z (z * 1000))%Q as Hm
      by (apply num_mul_int; [done|lia]).
    rewrite (num_ltb_int_r _ (z * 1000)) by done. unfold MAX_DATE_MS.
    destruct (Z.ltb_spec 8640000000000000 (z * 1000)); [lia|].
    by destruct (num_to_Z_val _ _ Hm) as [_ ->].
  - rewrite (num_ltb_int_r _ z) by done. unfold MAX_DATE_MS.
    destruct (Z.ltb_spec 8640000000000000 z); [lia|]. by destruct (num_to_Z_val _ _ Hx) as [_ ->].
Qed.

Lemma js_trim_digits s : re_digits s = true -> js_trim s = s.
Proof.
  intros [Hn Hd]%andb_true_iff. destruct s as [|c s]; [done|]. unfold js_trim.
  rewrite strip_start_digit by (by apply andb_true_iff in Hd as []). by apply strip_end_digits.
Qed.

Lemma QUOTED_EPOCH_digits s : re_digits s = true -> 9 <= slen s -> QUOTED_EPOCH s = true.
Proof.
  intros [Hn Hd]%andb_true_iff Hs. destruct s as [|c s]; [done|]. unfold QUOTED_EPOCH.
  assert (span_digits (String c s) = (String c s, EmptyString)) as Hsp
    by (rewrite <- (app_nil_r_str (String c s)) at 1; by rewrite span_digits_app).
  apply andb_true_iff in Hd as [Hc _].
  assert (match c with "+"%char => s | _ => String c s end = String c s) as ->
    by (by destruct c as [[] [] [] [] [] [] [] []]).
  rewrite Hsp. apply andb_true_iff. split; [by apply Z.leb_le|done].
Qed.

(** A time is read alike as a number and as a text, in seconds and in
    milliseconds: whole seconds from 1973 to the year 5138, and whole
    milliseconds from 1973 on, give the instant they name. *)
Theorem created_at_units (z : Z) : EPOCH_SECONDS_FLOOR <= z <= MAX_DATE_MS ->
  let instant := if z <? EPOCH_SECONDS_CEILING then z * 1000 else z in
  fygaroCreatedAtToIso (Some (CreatedNumber (num_of_Z z))) = Some instant /\
  fygaroCreatedAtToIso (Some (CreatedText (bigint_toString z))) = Some instant.
Proof.
  intros Hz. cbn zeta. assert (0 < z <= 2 ^ 53) as Hz'
    by (unfold EPOCH_SECONDS_FLOOR, MAX_DATE_MS in Hz; lia).
  assert (forall x, (num_val x == inject_Z z)%Q -> not_positive (Some x) = false) as Hpos.
  { intros x Hx. cbn. rewrite (num_ltb_int_r x z) by done. destruct (Z.ltb_spec 0 z); [done|lia]. }
  cbn [fygaroCreatedAtToIso]. split.
  - rewrite Hpos by apply num_of_Z_value. by apply from_epoch_units; [apply num_of_Z_value|].
  - rewrite bigint_toString_nonneg by lia.
    assert (re_digits (print_nonneg z) = true) as Hre by (apply print_nonneg_re; lia).
    rewrite js_trim_digits by done. rewrite js_Number_digits by done.
    pose proof Hre as [-> _]%andb_true_iff. rewrite print_nonneg_val by lia.
    rewrite rnd_finite; [|lia|lia|apply Z.le_lt_trans with (2 ^ 53); [lia|by vm_compute]].
    cbn [negb]. rewrite Hpos by (apply rnd_int; lia). rewrite QUOTED_EPOCH_digits; [|done|].
    + cbn [mbind option_bind]. apply from_epoch_units; [apply rnd_int; lia|done].
    + pose proof (print_nonneg_digits z ltac:(lia)) as Hd.
      pose proof (digits_val_bound _ Hd) as Hb. rewrite print_nonneg_val in Hb by lia.
      destruct (Z.le_gt_cases 9 (slen (print_nonneg z))) as [|Hlt]; [done|].
      assert (10 ^ slen (print_nonneg z) <= 10 ^ 8) by (apply Z.pow_le_mono_r; lia).
      unfold EPOCH_SECONDS_FLOOR in Hz. lia.
Qed.

End CreatedAt.
