(* ===== verification/FygaroCheckout.v ===== *)
(** * Signed checkout links

    Model of [src/src/services/fygaro/checkout.ts] and of [newIntentId]: the
    reference a payment carries, and the signed link that locks its amount.
    Texts are sequences of UTF-8 bytes, so [Buffer.byteLength] is their length.
    HMAC-SHA256 is a parameter. *)

From stdpp Require Import base list strings.
From Stdlib Require Import ZArith Lia Ascii.
From S2P Require Import Prelude JsStrings JsNumbers.

Open Scope Z_scope.

(** ** References *)

Definition FYGARO_REFERENCE_SEPARATOR : ascii := "|".

Definition FYGARO_CUSTOM_REFERENCE_MAX_LENGTH : Z := 40.

Record FygaroCustomReference := mkReference {
  ref_username : option string;
  ref_intentId : option string
}.

Definition buildCustomReference (username : string) (intentId : option string) : string :=
  match intentId with
  | None => username
  | Some id =>
      if nonempty id then
        let withUsername := username +:+ String FYGARO_REFERENCE_SEPARATOR id in
        if slen withUsername <=? FYGARO_CUSTOM_REFERENCE_MAX_LENGTH then withUsername
        else String FYGARO_REFERENCE_SEPARATOR id
      else username
  end.

Definition parseCustomReference (raw : option string) : option FygaroCustomReference :=
  let trimmed := js_trim (default EmptyString raw) in
  if nonempty trimmed then
    let parts := split_on FYGARO_REFERENCE_SEPARATOR trimmed in
    let username := js_trim (default EmptyString (head parts)) in
    match parts with
    | [_; second] =>
        let intentId := js_trim second in
        match username, intentId with
        | EmptyString, EmptyString => None
        | EmptyString, _ => Some (mkReference None (Some intentId))
        | _, EmptyString => Some (mkReference (Some username) None)
        | _, _ => Some (mkReference (Some username) (Some intentId))
        end
    | _ => if nonempty username then Some (mkReference (Some username) None) else None
    end
  else None.

(** ** Base64 and JSON *)

Definition code (c : ascii) : Z := Z.of_nat (nat_of_ascii c).
Definition chr (n : Z) : ascii := ascii_of_nat (Z.to_nat n).

Definition b64_char (n : Z) : ascii :=
  if n <? 26 then chr (n + 65)
  else if n <? 52 then chr (n + 71)
  else if n <? 62 then chr (n - 4)
  else if n =? 62 then "+" else "/".

(** [buffer.toString('base64')] *)
Fixpoint base64 (s : string) : string :=
  match s with
  | EmptyString => EmptyString
  | String a EmptyString =>
      String (b64_char (code a / 4)) (String (b64_char (code a mod 4 * 16)) "==")
  | String a (String b EmptyString) =>
      String (b64_char (code a / 4))
        (String (b64_char (code a mod 4 * 16 + code b / 16))
           (String (b64_char (code b mod 16 * 4)) "="))
  | String a (String b (String c r)) =>
      String (b64_char (code a / 4))
        (String (b64_char (code a mod 4 * 16 + code b / 16))
           (String (b64_char (code b mod 16 * 4 + code c / 64))
              (String (b64_char (code c mod 64)) (base64 r))))
  end.

Fixpoint str_map (f : ascii -> ascii) (s : string) : string :=
  match s with EmptyString => EmptyString | String c r => String (f c) (str_map f r) end.

Definition url_char (c : ascii) : ascii :=
  if Ascii.eqb c "+" then "-" else if Ascii.eqb c "/" then "_" else c.

Definition base64Url (input : string) : string :=
  strip_end (Ascii.eqb "=") (str_map url_char (base64 input)).

Definition quote : ascii := ascii_of_nat 34.
Definition backslash : ascii := ascii_of_nat 92.

Definition hex_digit (n : Z) : ascii := if n <? 10 then chr (n + 48) else chr (n + 87).

(** One character inside a JSON string. *)
Definition json_char (c : ascii) : string :=
  let n := code c in
  if n =? 34 then String backslash (String quote EmptyString)
  else if n =? 92 then String backslash (String backslash EmptyString)
  else if n =? 8 then String backslash "b"
  else if n =? 9 then String backslash "t"
  else if n =? 10 then String backslash "n"
  else if n =? 12 then String backslash "f"
  else if n =? 13 then String backslash "r"
  else if n <? 32 then
    String backslash ("u00" +:+ String (hex_digit (n / 16)) (String (hex_digit (n mod 16)) EmptyString))
  else String c EmptyString.

Fixpoint json_chars (s : string) : string :=
  match s with EmptyString => EmptyString | String c r => json_char c +:+ json_chars r end.

Definition json_string (s : string) : string := String quote (json_chars s +:+ String quote EmptyString).

(** A member of an object. *)
Definition json_member (name value : string) : string := json_string name +:+ ":" +:+ value.

Definition json_object (members : list string) : string := "{" +:+ String.concat "," members +:+ "}".

(** ** The token *)

(** [(amountCents / 100).toFixed(2)]; the exponent notation of amounts from
    [10 ^ 23] cents on is not represented. *)
Definition formatFygaroAmount (amountCents : Z) : string :=
  default EmptyString (num_toFixed 2 (dollars amountCents)).

Record FygaroCheckoutJwtPayload := mkJwtPayload {
  jwt_amount : string;
  jwt_currency : string;
  jwt_custom_reference : string;
  jwt_nbf : Z;
  jwt_exp : Z
}.

Definition NBF_SKEW_SECONDS : Z := 60.

Record FygaroCheckout := mkCheckout {
  co_url : string;
  co_expiresAt : Z;
  co_customReference : string;
  co_intentId : string
}.

Section Signing.
(** [hmac secret text]: the 32 bytes of HMAC-SHA256. *)
Variable hmac : string -> string -> string.

Definition jwt_header_json (keyId : string) : string :=
  json_object [json_member "alg" (json_string "HS256"); json_member "typ" (json_string "JWT");
               json_member "kid" (json_string keyId)].

Definition jwt_payload_json (p : FygaroCheckoutJwtPayload) : string :=
  json_object [json_member "amount" (json_string (jwt_amount p));
               json_member "currency" (json_string (jwt_currency p));
               json_member "custom_reference" (json_string (jwt_custom_reference p));
               json_member "nbf" (bigint_toString (jwt_nbf p));
               json_member "exp" (bigint_toString (jwt_exp p))].

Definition signFygaroCheckoutJwt (payload : FygaroCheckoutJwtPayload) (keyId secret : string) : string :=
  let signingInput :=
    base64Url (jwt_header_json keyId) +:+ "." +:+ base64Url (jwt_payload_json payload) in
  signingInput +:+ "." +:+ base64Url (hmac secret signingInput).

(** What the link says. *)
Definition checkout_payload (username intentId : string) (amountCents : Z) (currency : string)
    (ttlSeconds nowMs : Z) : FygaroCheckoutJwtPayload :=
  let nowSecs := nowMs / 1000 in
  mkJwtPayload (formatFygaroAmount amountCents) currency
    (buildCustomReference username (Some intentId)) (nowSecs - NBF_SKEW_SECONDS) (nowSecs + ttlSeconds).

Definition buildFygaroCheckout (buttonUrl username intentId : string) (amountCents : Z)
    (currency keyId secret : string) (ttlSeconds nowMs : Z) : FygaroCheckout :=
  let token := signFygaroCheckoutJwt
    (checkout_payload username intentId amountCents currency ttlSeconds nowMs) keyId secret in
  let separator := if str_includes "?" buttonUrl then "&" else "?" in
  mkCheckout (buttonUrl +:+ separator +:+ "jwt=" +:+ token) ((nowMs / 1000 + ttlSeconds) * 1000)
    (buildCustomReference username (Some intentId)) intentId.
End Signing.

(** [newIntentId]: twelve random bytes. *)
Definition newIntentId (bytes : string) : string := base64Url bytes.

(** ** Alphabets *)

Fixpoint all_chars (p : ascii -> bool) (s : string) : bool :=
  match s with EmptyString => true | String c r => p c && all_chars p r end.

(** The characters of base64url. *)
Definition b64url_char (c : ascii) : bool :=
  let n := code c in
  (65 <=? n) && (n <=? 90) || (97 <=? n) && (n <=? 122) || (48 <=? n) && (n <=? 57)
  || (n =? 45) || (n =? 95).

Lemma code_range c : 0 <= code c < 256.
Proof. unfold code. pose proof (nat_ascii_bounded c). lia. Qed.

Lemma all_chars_impl (p q : ascii -> bool) s :
  (forall c, p c = true -> q c = true) -> all_chars p s = true -> all_chars q s = true.
Proof.
  intros H. induction s as [|c s IH]; [done|]. cbn. intros [Hc Hs]%andb_true_iff.
  by rewrite (H c Hc), IH.
Qed.

Lemma all_chars_app p s t : all_chars p (s +:+ t) = all_chars p s && all_chars p t.
Proof.
  induction s as [|c s IH]; [by rewrite app_nil_str|]. rewrite app_cons. cbn. by rewrite IH, andb_assoc.
Qed.

(** A statement about the 64 values of a digit holds when it computes. *)
Lemma digit64 (P : Z -> bool) n :
  forallb P (seqZ 0 64) = true -> 0 <= n < 64 -> P n = true.
Proof.
  intros H Hn. rewrite forallb_forall in H. apply H, list_elem_of_In, elem_of_seqZ. lia.
Qed.

Lemma url_b64 n : 0 <= n < 64 ->
  b64url_char (url_char (b64_char n)) = true /\ Ascii.eqb "=" (url_char (b64_char n)) = false.
Proof.
  intros Hn. pose proof (digit64 (fun n => b64url_char (url_char (b64_char n)) &&
    negb (Ascii.eqb "=" (url_char (b64_char n)))) n ltac:(vm_compute; reflexivity) Hn) as H.
  apply andb_true_iff in H as [H1 H2%negb_true_iff]. done.
Qed.

Lemma strip_end_none p s : all_chars (fun c => negb (p c)) s = true -> strip_end p s = s.
Proof.
  induction s as [|c s IH]; [done|]. cbn. intros [Hc%negb_true_iff Hs]%andb_true_iff.
  rewrite IH, Hc by done. by destruct s.
Qed.

Lemma strip_start_none p s : all_chars (fun c => negb (p c)) s = true -> strip_start p s = s.
Proof. destruct s as [|c s]; [done|]. cbn. by intros [->%negb_true_iff Hs]%andb_true_iff. Qed.

Lemma js_trim_none s : all_chars (fun c => negb (js_space c)) s = true -> js_trim s = s.
Proof. intros H. unfold js_trim. by rewrite strip_start_none, strip_end_none. Qed.

Definition plain64 (c : ascii) : bool := b64url_char c && negb (Ascii.eqb "=" c).

Lemma base64_groups k s : String.length s = (3 * k)%nat ->
  all_chars plain64 (str_map url_char (base64 s)) = true /\
  slen (str_map url_char (base64 s)) = 4 * Z.of_nat k.
Proof.
  revert s. induction k as [|k IH]; intros s Hs.
  { by destruct s. }
  destruct s as [|a [|b [|c s]]]; cbn in Hs; try lia. destruct (IH s ltac:(lia)) as [H1 H2].
  cbn [base64 str_map all_chars]. rewrite !slen_cons, H1, H2. split; [|lia].
  pose proof (code_range a). pose proof (code_range b). pose proof (code_range c).
  assert (forall n, 0 <= n < 64 -> plain64 (url_char (b64_char n)) = true) as Hn.
  { intros n Hn. destruct (url_b64 n Hn) as [E1 E2]. unfold plain64. by rewrite E1, E2. }
  rewrite !Hn; [done|..]; Z.to_euclidean_division_equations; lia.
Qed.

Lemma plain64_not_space c : plain64 c = true -> negb (js_space c) = true.
Proof. by destruct c as [[] [] [] [] [] [] [] []]. Qed.

Lemma plain64_no_separator s : all_chars plain64 s = true ->
  no_char FYGARO_REFERENCE_SEPARATOR s = true.
Proof.
  induction s as [|c s IH]; [done|]. cbn. intros [Hc Hs]%andb_true_iff. rewrite IH by done.
  by destruct c as [[] [] [] [] [] [] [] []].
Qed.

(** An intent id is sixteen characters of base64url. *)
Lemma newIntentId_chars bytes : String.length bytes = 12%nat ->
  all_chars plain64 (newIntentId bytes) = true /\ slen (newIntentId bytes) = 16.
Proof.
  intros H. destruct (base64_groups 4 bytes H) as [H1 H2]. unfold newIntentId, base64Url.
  rewrite strip_end_none; [done|]. eapply all_chars_impl; [|exact H1].
  intros c [_ Hc]%andb_true_iff. done.
Qed.

(** ** What comes back is what was sent *)

(** A username has no white space and no separator, and is not empty. *)
Definition username_ok (u : string) : bool :=
  nonempty u && all_chars (fun c => negb (js_space c)) u && no_char FYGARO_REFERENCE_SEPARATOR u.

(** C36: the reference of a signed checkout fits the forty bytes the payment page
    accepts, whatever the username, and the webhook reads back from it the
    intent id, and the username whenever it fits next to the id. *)
Theorem custom_reference_roundtrip (username bytes : string) :
  username_ok username = true -> String.length bytes = 12%nat ->
  let id := newIntentId bytes in
  let reference := buildCustomReference username (Some id) in
  slen reference <= FYGARO_CUSTOM_REFERENCE_MAX_LENGTH /\
  parseCustomReference (Some reference) =
    Some (mkReference (if slen username <=? 23 then Some username else None) (Some id)).
Proof.
  intros [[Hn Hs]%andb_true_iff Hsep]%andb_true_iff Hb. cbn zeta.
  destruct (newIntentId_chars bytes Hb) as [Hid Hlen]. set (iid := newIntentId bytes) in *.
  assert (nonempty iid = true) as Hidn by (apply nonempty_slen; lia).
  assert (all_chars (fun c => negb (js_space c)) iid = true) as Hids
    by (eapply all_chars_impl; [|exact Hid]; apply plain64_not_space).
  pose proof (plain64_no_separator iid Hid) as Hidsep.
  unfold buildCustomReference. rewrite Hidn, slen_app, slen_cons, Hlen.
  unfold FYGARO_CUSTOM_REFERENCE_MAX_LENGTH.
  replace (slen username + (16 + 1) <=? 40) with (slen username <=? 23)
    by (destruct (Z.leb_spec (slen username) 23), (Z.leb_spec (slen username + (16 + 1)) 40); done || lia).
  destruct (Z.leb_spec (slen username) 23).
  - rewrite slen_app, slen_cons, Hlen. split; [lia|]. unfold parseCustomReference. cbn [from_option id].
    rewrite (js_trim_none (username +:+ _)) by (rewrite all_chars_app; cbn; by rewrite Hs, Hids).
    assert (nonempty (username +:+ String FYGARO_REFERENCE_SEPARATOR iid) = true) as -> by by destruct username.
    rewrite split_on_app, split_on_none by done. cbn [head from_option id]. rewrite !js_trim_none by done.
    destruct username; [done|]. by destruct iid.
  - rewrite slen_cons, Hlen. split; [lia|]. unfold parseCustomReference. cbn [from_option id].
    rewrite (js_trim_none (String FYGARO_REFERENCE_SEPARATOR iid)) by (cbn; by rewrite Hids). cbn [nonempty].
    rewrite <- (app_nil_str (String FYGARO_REFERENCE_SEPARATOR iid)), split_on_app, split_on_none by done.
    cbn [head from_option id]. rewrite (js_trim_none iid) by done. by destruct iid.
Qed.

(** A reference without an intent is the username. *)
Lemma plain_reference username : username_ok username = true ->
  parseCustomReference (Some (buildCustomReference username None)) =
    Some (mkReference (Some username) None).
Proof.
  intros [[Hn Hs]%andb_true_iff Hsep]%andb_true_iff. unfold buildCustomReference, parseCustomReference.
  cbn [from_option id]. rewrite js_trim_none by done. rewrite Hn, split_on_none by done.
  cbn [head from_option id]. by rewrite js_trim_none, Hn by done.
Qed.

(** The amount a link is signed for, read the way the webhook reads the payment,
    is the amount that was authorised. *)
Theorem signed_amount_roundtrip (username id currency : string)
    (amountCents ttlSeconds nowMs : Z) :
  0 <= amountCents <= MAX_CENTS_EXACT ->
  exists x, js_Number (jwt_amount (checkout_payload username id amountCents currency ttlSeconds nowMs)) = Some x
    /\ to_cents x = amountCents.
Proof.
  intros Hc. destruct (cents_roundtrip amountCents Hc) as (s & x & Hs & Hx & Ht).
  exists x. cbn [checkout_payload jwt_amount]. unfold formatFygaroAmount. by rewrite Hs.
Qed.
