(* ===== verification/Json.v ===== *)
(** * JSON values

    Webhook bodies reach their handlers as parsed JSON, and the handlers read
    them without a schema: any field may be absent, or of another type than
    expected. This file has the values, and what the handlers apply to them:
    property access, optional chaining, truthiness, [??], [String(v)],
    [Number(v)], [JSON.stringify] and the cast of mongoose to a text field. An
    absent property ([undefined]) is [None]. An object with a property
    [toString], which JSON cannot make a function, has no text: its coercion
    throws a [TypeError], and so does that of an array that holds one. *)

From stdpp Require Import base list strings.
From Stdlib Require Import ZArith Ascii.
From S2P Require Import Prelude JsStrings JsNumbers JsDecimals Processes Errors FygaroCheckout.

Open Scope Z_scope.

#[local] Set Warnings "-register-all".

Inductive json :=
| JNull
| JBool (b : bool)
| JNum (x : js_num)
| JStr (s : string)
| JArr (l : list json)
| JObj (members : list (string * json)).

(** [v.name] on a value that is not [null]; a value that is not an object has
    none of the properties the handlers read. *)
Definition prop (name : string) (v : json) : option json :=
  match v with
  | JObj ms => snd ∘ snd <$> list_find (fun m => m.1 = name) ms
  | _ => None
  end.

(** [v?.name] *)
Definition prop_opt (name : string) (v : option json) : option json := v ≫= prop name.

(** [v ?? d]: [null] counts as absent. *)
Definition present (v : option json) : option json :=
  match v with Some JNull => None | _ => v end.

Definition coalesce (v d : option json) : option json :=
  match present v with Some j => Some j | None => d end.

(** [Boolean(v)] *)
Definition json_truthy (v : option json) : bool :=
  match v with
  | None | Some JNull => false
  | Some (JBool b) => b
  | Some (JNum x) => negb (mant x =? 0)
  | Some (JStr s) => nonempty s
  | Some (JArr _) | Some (JObj _) => true
  end.

(** [v || d] *)
Definition json_or (v d : option json) : option json := if json_truthy v then v else d.

(** [v === s] for a text [s]. *)
Definition is_text (s : string) (v : option json) : bool :=
  match v with Some (JStr t) => bool_decide (t = s) | _ => false end.

(** [set.has(v)] for a set of texts. *)
Definition text_among (l : list string) (v : option json) : bool :=
  match v with Some (JStr t) => bool_decide (t ∈ l) | _ => false end.

Definition typeof_string (v : option json) : option string :=
  match v with Some (JStr s) => Some s | _ => None end.

(** An exception of the language itself. *)
Definition type_error (message : string) : error := new_error JsTypeError message.

(** Whether [String(v)] and [Number(v)] return: of the two methods an object is
    converted with, the inherited [valueOf] gives no primitive value, and a
    member [toString] is not a function. *)
Fixpoint stringable (v : json) : bool :=
  match v with
  | JArr l => forallb stringable l
  | JObj ms => negb (existsb (fun m => bool_decide (m.1 = "toString")) ms)
  | _ => true
  end.

Definition coercible (vs : list (option json)) : bool :=
  forallb (fun v => match v with Some j => stringable j | None => true end) vs.

(** The coercions of these values to texts or numbers: the first that throws
    does. What they return is [json_String], [opt_String] or [json_Number]. *)
Definition coerce {W} (vs : list (option json)) : proc W error unit :=
  if coercible vs then pret tt else pthrow (type_error "Cannot convert object to primitive value").

(** [String(v)] of a value that has a text: an array joins its members, which may
    be [null]. *)
Fixpoint json_String (v : json) : string :=
  match v with
  | JNull => "null"
  | JBool true => "true"
  | JBool false => "false"
  | JNum x => num_toString x
  | JStr s => s
  | JArr l => String.concat "," (map (fun e => match e with JNull => EmptyString | _ => json_String e end) l)
  | JObj _ => "[object Object]"
  end.

(** [`${v}`] of a value that may be absent. *)
Definition opt_String (v : option json) : string :=
  match v with Some j => json_String j | None => "undefined" end.

(** [asOptionalString]: nothing of [undefined] and of [null]. *)
Definition asOptionalString (v : option json) : option string := json_String <$> present v.

(** [String(v || x)] of an empty [x]. *)
Definition or_empty (v : option json) : string := if json_truthy v then opt_String v else EmptyString.

(** [Number(v)], when it is finite. *)
Definition json_Number (v : json) : option js_num :=
  match v with
  | JNull => Some (num_of_Z 0)
  | JBool b => Some (num_of_Z (if b then 1 else 0))
  | JNum x => Some x
  | JStr s => js_Number s
  | JArr _ | JObj _ => js_Number (json_String v)
  end.

(** [JSON.stringify(v)] *)
Fixpoint json_stringify (v : json) : string :=
  match v with
  | JNull => "null"
  | JBool true => "true"
  | JBool false => "false"
  | JNum x => num_toString x
  | JStr s => json_string s
  | JArr l => "[" +:+ String.concat "," (map json_stringify l) +:+ "]"
  | JObj ms => "{" +:+ String.concat "," (map (fun m => json_string m.1 +:+ ":" +:+ json_stringify m.2) ms) +:+ "}"
  end.

(** The value of a mongoose field or filter of type String: a scalar becomes its
    text, an array or an object is a [CastError]. *)
Definition cast_String (v : json) : option string :=
  match v with
  | JArr _ | JObj _ | JNull => None
  | _ => Some (json_String v)
  end.

(** An object literal whose absent members are left out, as [JSON.stringify]
    does. *)
Definition object (ms : list (string * option json)) : json :=
  JObj (omap (fun m => pair m.1 <$> m.2) ms).

Definition jtext (s : option string) : option json := JStr <$> s.
