(* ===== verification/PaymentAmounts.v ===== *)
(** * Payment amounts

    Model of the arithmetic the payment code shares: the bigint amounts of
    [src/src/domain/shared] ([calculator.ts], [amount.ts], [safe.ts]), the
    price ratios of [src/src/domain/payments/price-ratio.ts], the fee rules of
    [ln-fees.ts], of the deposit and withdrawal fee calculators
    ([src/src/domain/wallets]) and of the fee reimbursement
    ([src/src/domain/ledger/fee-reimbursement.ts]), and the daily limits of
    [src/src/domain/accounts]. A bigint is an integer and its division
    truncates; a [number] is a double that may not be finite. *)

From stdpp Require Import base list strings.
From Stdlib Require Import ZArith Lia Ascii.
From Stdlib Require QArith.
From S2P Require Import Prelude JsStrings JsNumbers JsDecimals Errors MoneyAmounts FygaroCheckout Json.

Close Scope Q_scope.
Open Scope Z_scope.

(** ** Numbers and bigints *)

(** [Number(z)] of a bigint *)
Definition Number_of (z : Z) : js_float := fl (rnd z 1).

(** [Math.floor(x)] and [Math.ceil(x)] *)
Definition num_floor (x : js_num) : Z :=
  if 0 <=? expo x then mant x * 2 ^ expo x else mant x / 2 ^ (- expo x).
Definition num_ceil (x : js_num) : Z := - num_floor (num_opp x).
Definition Math_floor (x : js_float) : js_float :=
  match x with Fin a => Fin (num_of_Z (num_floor a)) | _ => x end.
Definition Math_ceil (x : js_float) : js_float :=
  match x with Fin a => Fin (num_of_Z (num_ceil a)) | _ => x end.

(** [x === y] on numbers: [NaN] differs from itself. *)
Definition fl_eqb (x y : js_float) : bool := fl_leb x y && fl_leb y x.

(** [x > b] for a number and a bigint: an exact comparison. *)
Definition fl_gt_bigint (x : js_float) (b : Z) : bool := fl_ltb (Fin (num_of_Z b)) x.

(** Whether a number is falsy: [NaN] and the zeros. *)
Definition fl_truthy (x : js_float) : bool :=
  match x with Fin a => negb (mant a =? 0) | Infinity _ => true | NaN => false end.

(** [safeBigInt]: [BigInt(num)] throws a [RangeError] on anything but an
    integer. *)
Definition safeBigInt (num : js_float) : outcome error Z :=
  match num with
  | Fin x => if num_isInteger x then Ok (num_to_Z x)
             else Err (new_error BigIntFloatConversionError (fl_toString num))
  | _ => Err (new_error BigIntFloatConversionError (fl_toString num))
  end.

(** ** Amounts *)

(** [PaymentAmount] *)
Record PaymentAmount := Pay { amount : Z; pay_currency : WalletCurrency }.

#[global] Instance PaymentAmount_eq_dec : EqDecision PaymentAmount.
Proof. solve_decision. Defined.

Definition sats (z : Z) : PaymentAmount := Pay z Btc.
Definition cents (z : Z) : PaymentAmount := Pay z Usd.

Definition ZERO_SATS : PaymentAmount := sats 0.
Definition ZERO_CENTS : PaymentAmount := cents 0.
Definition ONE_SAT : PaymentAmount := sats 1.
Definition ONE_CENT : PaymentAmount := cents 1.
Definition MAX_SATS : PaymentAmount := sats 10000000000000.
Definition MAX_CENTS : PaymentAmount := cents 10000000000000.

Definition paymentAmountFromNumber (a : js_float) (c : WalletCurrency) : outcome error PaymentAmount :=
  outcome_map (fun z => Pay z c) (safeBigInt a).

(** The checks [checkedToBtcPaymentAmount] and [checkedToUsdPaymentAmount]
    share, on an amount that may be [null]. *)
Definition checked_amount (a : option js_float) (limit : Z) (too_large invalid : error_class)
    (c : WalletCurrency) : outcome error PaymentAmount :=
  match a with
  | None => Err (new_error0 invalid)
  | Some x =>
      if fl_gt_bigint x limit then Err (new_error0 too_large)
      else if negb (fl_eqb (Math_floor x) x) then Err (new_error0 invalid)
      else if negb (fl_truthy x && fl_ltb (Fin (num_of_Z 0)) x) then Err (new_error0 invalid)
      else paymentAmountFromNumber x c
  end.

Definition checkedToBtcPaymentAmount (a : option js_float) : outcome error PaymentAmount :=
  checked_amount a (amount MAX_SATS) BtcAmountTooLargeError InvalidBtcPaymentAmountError Btc.

Definition checkedToUsdPaymentAmount (a : option js_float) (c : WalletCurrency) :
    outcome error PaymentAmount :=
  checked_amount a (amount MAX_CENTS) UsdAmountTooLargeError InvalidUsdPaymentAmountError c.

(** ** [AmountCalculator]

    [a / b] throws when [b] is [0n]; every caller divides by a constant or by
    a side of a price ratio, which is never zero. *)

Definition calc_add (a b : PaymentAmount) : PaymentAmount := Pay (amount a + amount b) (pay_currency a).
Definition calc_sub (a b : PaymentAmount) : PaymentAmount := Pay (amount a - amount b) (pay_currency a).

Definition divRound (a : PaymentAmount) (b : Z) : PaymentAmount :=
  let quotient := Z.quot (amount a) b in
  let roundDownBound := Z.quot b 2 in
  let rest := Z.rem (amount a) b in
  if roundDownBound <? rest then Pay (quotient + 1) (pay_currency a)
  else Pay quotient (pay_currency a).

Definition divFloor (a : PaymentAmount) (b : Z) : PaymentAmount :=
  Pay (Z.quot (amount a) b) (pay_currency a).

Definition divCeil (a : PaymentAmount) (b : Z) : PaymentAmount :=
  let quotient := Z.quot (amount a) b in
  let rest := Z.rem (amount a) b in
  if 0 <? rest then Pay (quotient + 1) (pay_currency a) else Pay quotient (pay_currency a).

Definition mulBasisPoints (a : PaymentAmount) (basisPoints : Z) : PaymentAmount :=
  divRound (Pay (amount a * basisPoints) (pay_currency a)) 10000.

(** [min] and [max] of two amounts: the first one of equal amounts. *)
Definition calc_min (a b : PaymentAmount) : PaymentAmount := if amount b <? amount a then b else a.
Definition calc_max (a b : PaymentAmount) : PaymentAmount := if amount a <? amount b then b else a.

(** ** Price ratios *)

(** A ratio is the pair of amounts it was built from. *)
Record PriceRatio := mkRatio { ratio_other : Z; ratio_wallet : PaymentAmount }.

Definition PriceRatio_new (other : Z) (walletAmount : PaymentAmount) : outcome error PriceRatio :=
  if (other =? 0) || (amount walletAmount =? 0)
  then Err (new_error0 InvalidZeroAmountPriceRatioInputError)
  else Ok (mkRatio other walletAmount).

(** [amount || 1n] *)
Definition or_one (z : Z) : Z := if z =? 0 then 1 else z.

Definition convertFromOther (r : PriceRatio) (otherToConvert : Z) : PaymentAmount :=
  let c := pay_currency (ratio_wallet r) in
  if otherToConvert =? 0 then Pay 0 c
  else Pay (or_one (amount (divRound (Pay (otherToConvert * amount (ratio_wallet r)) c) (ratio_other r)))) c.

Definition convertFromWallet (r : PriceRatio) (a : PaymentAmount) : Z :=
  if amount a =? 0 then 0
  else or_one (amount (divRound (Pay (amount a * ratio_other r) (pay_currency (ratio_wallet r)))
                         (amount (ratio_wallet r)))).

Definition convertFromWalletToFloor (r : PriceRatio) (a : PaymentAmount) : Z :=
  amount (divFloor (Pay (amount a * ratio_other r) (pay_currency (ratio_wallet r))) (amount (ratio_wallet r))).

Definition convertFromWalletToCeil (r : PriceRatio) (a : PaymentAmount) : Z :=
  amount (divCeil (Pay (amount a * ratio_other r) (pay_currency (ratio_wallet r))) (amount (ratio_wallet r))).

(** [WalletPriceRatio({ usd, btc })] *)
Definition WalletPriceRatio (usd btc : PaymentAmount) : outcome error PriceRatio :=
  PriceRatio_new (amount usd) btc.

Definition convertFromUsd (r : PriceRatio) (a : PaymentAmount) : PaymentAmount := convertFromOther r (amount a).
Definition convertFromBtc (r : PriceRatio) (a : PaymentAmount) : PaymentAmount := Pay (convertFromWallet r a) Usd.
Definition convertFromBtcToFloor (r : PriceRatio) (a : PaymentAmount) : PaymentAmount :=
  Pay (convertFromWalletToFloor r a) Usd.
Definition convertFromBtcToCeil (r : PriceRatio) (a : PaymentAmount) : PaymentAmount :=
  Pay (convertFromWalletToCeil r a) Usd.

(** [toWalletPriceRatio(ratio)]; the precision is a configured integer. *)
Definition toWalletPriceRatio (precision : Z) (ratio : js_float) : outcome error PriceRatio :=
  match safeBigInt (Math_floor (fl_mul ratio (Fin (num_of_Z precision)))) with
  | Ok a => WalletPriceRatio (cents a) (sats precision)
  | Err e => Err e
  | Throw e => Throw e
  end.

(** ** Fees of lightning payments *)

Definition FEECAP_BASIS_POINTS : Z := 50.

Definition maxProtocolAndBankFee (a : PaymentAmount) : PaymentAmount :=
  if amount a =? 0 then a
  else
    let maxFee := mulBasisPoints a FEECAP_BASIS_POINTS in
    Pay (if amount maxFee =? 0 then 1 else amount maxFee) (pay_currency a).

Definition intraLedgerFees : PaymentAmount * PaymentAmount := (ZERO_SATS, ZERO_CENTS).

Definition json_number (x : js_float) : option json :=
  match x with Fin a => Some (JNum a) | _ => Some JNull end.

Definition verifyMaxFee (maxFeeAmount btcPaymentAmount usdPaymentAmount : PaymentAmount)
    (priceRatio : PriceRatio) (senderWalletCurrency : WalletCurrency) (isFromNoAmountInvoice : bool) :
    outcome error unit :=
  let btcCalculatedMaxFeeAmount := maxProtocolAndBankFee btcPaymentAmount in
  let calculatedMaxFeeAmount :=
    if decide (senderWalletCurrency = Usd) then
      let usdCalculatedMaxFeeAmount := convertFromUsd priceRatio (maxProtocolAndBankFee usdPaymentAmount) in
      if isFromNoAmountInvoice then usdCalculatedMaxFeeAmount
      else if amount usdCalculatedMaxFeeAmount <? amount btcCalculatedMaxFeeAmount
      then btcCalculatedMaxFeeAmount else usdCalculatedMaxFeeAmount
    else btcCalculatedMaxFeeAmount in
  let calculatedMinFeeAmount := convertFromUsd priceRatio ONE_CENT in
  if (bool_decide (senderWalletCurrency = Btc) || (amount calculatedMinFeeAmount <? amount maxFeeAmount))
     && (amount calculatedMaxFeeAmount <? amount maxFeeAmount)
  then Err (new_error MaxFeeTooLargeForRoutelessPaymentError (json_stringify (object
    [("btcPaymentAmount", json_number (Number_of (amount btcPaymentAmount)));
     ("usdPaymentAmount", json_number (Number_of (amount usdPaymentAmount)));
     ("maxFeeBtcAmount", json_number (Number_of (amount maxFeeAmount)));
     ("senderWalletCurrency", Some (JStr (currency_name senderWalletCurrency)));
     ("calculatedMaxFeeBtcAmount", json_number (Number_of (amount calculatedMaxFeeAmount)))])))
  else Ok tt.

(** The part of a route of the lightning client the code reads. *)
Record RawRoute := mkRoute { safe_fee : js_float; total_mtokens : option string }.

Definition feeFromRawRoute (rawRoute : RawRoute) : outcome error PaymentAmount :=
  paymentAmountFromNumber (Math_ceil (safe_fee rawRoute)) Btc.

(** [parseInt(s, 10)] *)
Definition parseInt10 (s : string) : js_float :=
  let digits r := match span_digits r with
    | (EmptyString, _) => NaN
    | (d, _) => Number_of (digits_val d)
    end in
  match strip_start js_space s with
  | String "-" r => fl_opp (digits r)
  | String "+" r => digits r
  | t => digits t
  end.

(** [RouteValidator(rawRoute).validate(btcPaymentAmount)] *)
Definition validate_route (rawRoute : RawRoute) (btcPaymentAmount : PaymentAmount) : outcome error unit :=
  let text := match total_mtokens rawRoute with Some s => if nonempty s then s else "0" | None => "0" end in
  let rawTokens := Math_floor (fl_div_int (parseInt10 text) 1000) in
  let a := Number_of (amount btcPaymentAmount) in
  if negb (fl_eqb a rawTokens)
  then Err (new_error BadAmountForRouteError (fl_toString a +:+ " !== " +:+ fl_toString rawTokens))
  else Ok tt.

(** ** Fees of on-chain payments *)

(** [OnChainFees({ thresholdImbalance, feeRatioAsBasisPoints }).withdrawalFee]:
    the total fee and the bank's part of it. *)
Definition withdrawalFee (thresholdImbalance : PaymentAmount) (feeRatioAsBasisPoints : Z)
    (minerFee a minBankFee imbalance : PaymentAmount) : PaymentAmount * PaymentAmount :=
  let amountWithImbalanceCalcs :=
    Pay (amount imbalance - amount thresholdImbalance + amount a) (pay_currency a) in
  let baseAmount := calc_max (calc_min amountWithImbalanceCalcs a) ZERO_SATS in
  let bankFee := calc_max minBankFee (mulBasisPoints baseAmount feeRatioAsBasisPoints) in
  (calc_add bankFee minerFee, bankFee).

(** [DepositFeeCalculator().onChainDepositFee] *)
Definition onChainDepositFee (a minBankFee minBankFeeThreshold : PaymentAmount) (ratio : Z) : PaymentAmount :=
  if amount a <? amount minBankFeeThreshold then minBankFee
  else if ratio =? 0 then ZERO_SATS
  else mulBasisPoints a ratio.

(** ** Reimbursement of a lightning fee

    [FeeReimbursement({ prepaidFeeAmount, priceRatio }).getReimbursement]: what
    is given back of the prepaid fee, in both currencies. *)
Definition getReimbursement (prepaidBtc : PaymentAmount) (priceRatio : PriceRatio) (actualFee : PaymentAmount) :
    outcome error (PaymentAmount * PaymentAmount) :=
  let feeDifferenceBtc := amount prepaidBtc - amount actualFee in
  if feeDifferenceBtc <? 0 then Err (new_error0 FeeDifferenceError)
  else
    let feeDifferenceBtcAmount := sats feeDifferenceBtc in
    Ok (feeDifferenceBtcAmount,
        if amount actualFee =? 0 then convertFromBtc priceRatio feeDifferenceBtcAmount
        else convertFromBtcToFloor priceRatio feeDifferenceBtcAmount).

(** ** Daily limits *)

(** [TxBaseVolumeAmount] *)
Record TxVolume := mkVolume { outgoingBaseAmount : PaymentAmount; incomingBaseAmount : PaymentAmount }.

Definition outgoing_usd (priceRatio : PriceRatio) (v : TxVolume) : PaymentAmount :=
  if decide (pay_currency (outgoingBaseAmount v) = Btc) then convertFromBtc priceRatio (outgoingBaseAmount v)
  else outgoingBaseAmount v.

(** [calculateLimitsInUsd]: the limit, what is used of it and what is left. *)
Definition calculateLimitsInUsd (limitAmount : PaymentAmount) (priceRatio : PriceRatio)
    (walletVolumes : list TxVolume) : PaymentAmount * PaymentAmount * PaymentAmount :=
  let volumeInUsdAmount := fold_left (fun acc v => calc_add acc (outgoing_usd priceRatio v)) walletVolumes ZERO_CENTS in
  (limitAmount, volumeInUsdAmount, calc_sub limitAmount volumeInUsdAmount).

(** [checkLimit]: the amount fits in what is left of the daily limit. *)
Definition checkLimit (limit : js_float) (limitError : error_class) (priceRatio : PriceRatio)
    (a : PaymentAmount) (walletVolumes : list TxVolume) : outcome error unit :=
  match paymentAmountFromNumber limit Usd with
  | Ok limitAmount =>
      let '(_, _, volumeRemaining) := calculateLimitsInUsd limitAmount priceRatio walletVolumes in
      if amount volumeRemaining <? amount a
      then Err (new_error limitError ("Cannot transfer more than $" +:+
             fl_toFixed 2 (fl_div_int limit 100) +:+ " in 24 hours"))
      else Ok tt
  | Err e => Err e
  | Throw e => Throw e
  end.

(** [IAccountLimits] *)
Record AccountLimits := mkLimits {
  intraLedgerLimit : js_float; withdrawalLimit : js_float; tradeIntraAccountLimit : js_float }.

(** [AccountLimitsChecker] *)
Definition checkIntraledger (l : AccountLimits) : PriceRatio -> PaymentAmount -> list TxVolume -> outcome error unit :=
  checkLimit (intraLedgerLimit l) IntraledgerLimitsExceededError.
Definition checkWithdrawal (l : AccountLimits) : PriceRatio -> PaymentAmount -> list TxVolume -> outcome error unit :=
  checkLimit (withdrawalLimit l) WithdrawalLimitsExceededError.
Definition checkTradeIntraAccount (l : AccountLimits) :
    PriceRatio -> PaymentAmount -> list TxVolume -> outcome error unit :=
  checkLimit (tradeIntraAccountLimit l) TradeIntraAccountLimitsExceededError.

(** ** Facts about numbers *)

Lemma rnd_opp z d : rnd (- z) d = num_opp (rnd z d).
Proof.
  destruct (Z.lt_trichotomy z 0) as [H|[->|H]].
  - rewrite (rnd_posE (- z)), (rnd_neg z) by lia. destruct (rnd_pos (- z) d) as [m e].
    unfold num_opp. cbn [mant expo]. by rewrite Z.opp_involutive.
  - reflexivity.
  - rewrite (rnd_neg (- z)), (rnd_posE z) by lia. by rewrite Z.opp_involutive.
Qed.

(** Integers a double holds exactly are converted exactly. *)
Lemma Number_of_exact z : Z.abs z <= 2 ^ 53 ->
  exists x, Number_of z = Fin x /\ num_isInteger x = true /\ num_to_Z x = z.
Proof.
  intros Hz. exists (rnd z 1). split.
  - unfold Number_of, fl. assert (num_isFinite (rnd z 1) = true) as ->; [|done].
    assert (forall a, 0 <= a <= 2 ^ 53 -> num_isFinite (rnd a 1) = true) as Hpos.
    { intros a Ha. pose proof (rnd_finite a 1 ltac:(lia) ltac:(lia) ltac:(lia)) as Hf.
      unfold finite in Hf. by destruct (num_isFinite _). }
    destruct (Z.le_ge_cases 0 z) as [Hs|Hs]; [by apply Hpos; lia|].
    replace z with (- (- z)) by lia. rewrite rnd_opp.
    specialize (Hpos (- z) ltac:(lia)). unfold num_isFinite, num_opp in *.
    destruct (rnd (- z) 1) as [m e]. cbn [mant expo] in *. rewrite Z.abs_opp.
    by replace (- m =? 0) with (m =? 0) by (destruct (Z.eqb_spec m 0), (Z.eqb_spec (- m) 0); lia).
  - apply num_to_Z_val. by apply rnd_int.
Qed.

(** ** Facts about amounts *)

Lemma divRound_spec a b : 0 <= amount a -> 0 < b ->
  2 * amount (divRound a b) * b < 2 * amount a + b /\ 2 * amount a <= 2 * amount (divRound a b) * b + b.
Proof.
  intros Ha Hb. unfold divRound. rewrite !Z.quot_div_nonneg, Z.rem_mod_nonneg by lia.
  pose proof (Z.div_mod (amount a) b ltac:(lia)) as E.
  pose proof (Z.mod_pos_bound (amount a) b Hb) as R.
  pose proof (Z.div_mod b 2 ltac:(lia)) as E2. pose proof (Z.mod_pos_bound b 2 ltac:(lia)) as R2.
  destruct (Z.ltb_spec (b / 2) (amount a mod b)); cbn [amount]; nia.
Qed.

Lemma divRound_nonneg a b : 0 <= amount a -> 0 < b -> 0 <= amount (divRound a b).
Proof. intros Ha Hb. pose proof (divRound_spec a b Ha Hb). nia. Qed.

Lemma divRound_currency a b : pay_currency (divRound a b) = pay_currency a.
Proof. unfold divRound. by case_match. Qed.

Lemma divFloor_spec a b : 0 <= amount a -> 0 < b ->
  amount (divFloor a b) * b <= amount a < (amount (divFloor a b) + 1) * b.
Proof.
  intros Ha Hb. unfold divFloor. cbn [amount]. rewrite Z.quot_div_nonneg by lia.
  pose proof (Z.div_mod (amount a) b ltac:(lia)). pose proof (Z.mod_pos_bound (amount a) b Hb). nia.
Qed.

Lemma divCeil_spec a b : 0 <= amount a -> 0 < b ->
  (amount (divCeil a b) - 1) * b < amount a <= amount (divCeil a b) * b.
Proof.
  intros Ha Hb. unfold divCeil. rewrite Z.quot_div_nonneg, Z.rem_mod_nonneg by lia.
  pose proof (Z.div_mod (amount a) b ltac:(lia)). pose proof (Z.mod_pos_bound (amount a) b Hb).
  destruct (Z.ltb_spec 0 (amount a mod b)); cbn [amount]; nia.
Qed.

(** A ratio of positive amounts. *)
Definition ratio_pos (r : PriceRatio) : Prop := 0 < ratio_other r /\ 0 < amount (ratio_wallet r).

Lemma PriceRatio_new_Ok other w r : PriceRatio_new other w = Ok r ->
  r = mkRatio other w /\ other <> 0 /\ amount w <> 0.
Proof. unfold PriceRatio_new. destruct (Z.eqb_spec other 0), (Z.eqb_spec (amount w) 0); simpl; naive_solver. Qed.

Section Conversions.
Context (r : PriceRatio) (Hr : ratio_pos r).
Abbreviation U := (ratio_other r).
Abbreviation B := (amount (ratio_wallet r)).

Lemma convertFromBtcToCeil_spec a : 0 <= amount a ->
  (amount (convertFromBtcToCeil r a) - 1) * B < amount a * U <= amount (convertFromBtcToCeil r a) * B.
Proof.
  destruct Hr. intros. unfold convertFromBtcToCeil, convertFromWalletToCeil. cbn [amount].
  apply (divCeil_spec (Pay (amount a * U) (pay_currency (ratio_wallet r)))); simpl; nia.
Qed.

Lemma convertFromBtcToFloor_spec a : 0 <= amount a ->
  amount (convertFromBtcToFloor r a) * B <= amount a * U < (amount (convertFromBtcToFloor r a) + 1) * B.
Proof.
  destruct Hr. intros. unfold convertFromBtcToFloor, convertFromWalletToFloor. cbn [amount].
  apply (divFloor_spec (Pay (amount a * U) (pay_currency (ratio_wallet r)))); simpl; nia.
Qed.

(** The rounded conversion of a positive amount is the closest integer, the
    smaller one of two, and never zero. *)
Lemma convertFromBtc_spec a : 0 < amount a ->
  0 < amount (convertFromBtc r a) /\
  (amount (convertFromBtc r a) = 1 \/ 2 * amount (convertFromBtc r a) * B < 2 * (amount a * U) + B) /\
  2 * (amount a * U) <= 2 * amount (convertFromBtc r a) * B + B.
Proof.
  destruct Hr as [HU HB]. intros Ha. unfold convertFromBtc, convertFromWallet. cbn [amount].
  destruct (Z.eqb_spec (amount a) 0); [lia|].
  pose proof (divRound_spec (Pay (amount a * U) (pay_currency (ratio_wallet r))) B ltac:(simpl; nia) HB) as [H1 H2].
  pose proof (divRound_nonneg (Pay (amount a * U) (pay_currency (ratio_wallet r))) B ltac:(simpl; nia) HB).
  cbn [amount] in *. unfold or_one. set (q := amount (divRound _ B)) in *. destruct (Z.eqb_spec q 0); nia.
Qed.

Lemma convertFromUsd_spec a : 0 < amount a ->
  0 < amount (convertFromUsd r a) /\
  (amount (convertFromUsd r a) = 1 \/ 2 * amount (convertFromUsd r a) * U < 2 * (amount a * B) + U) /\
  2 * (amount a * B) <= 2 * amount (convertFromUsd r a) * U + U.
Proof.
  destruct Hr as [HU HB]. intros Ha. unfold convertFromUsd, convertFromOther.
  destruct (Z.eqb_spec (amount a) 0); [lia|]. cbn [amount].
  pose proof (divRound_spec (Pay (amount a * B) (pay_currency (ratio_wallet r))) U ltac:(simpl; nia) HU) as [H1 H2].
  pose proof (divRound_nonneg (Pay (amount a * B) (pay_currency (ratio_wallet r))) U ltac:(simpl; nia) HU).
  cbn [amount] in *. unfold or_one. set (q := amount (divRound _ U)) in *. destruct (Z.eqb_spec q 0); nia.
Qed.

Lemma convertFromBtcToCeil_nonneg a : 0 <= amount a -> 0 <= amount (convertFromBtcToCeil r a).
Proof. intros Ha. pose proof (convertFromBtcToCeil_spec a Ha). destruct Hr. nia. Qed.

Lemma convertFromBtcToCeil_pos a : 0 < amount a -> 0 < amount (convertFromBtcToCeil r a).
Proof. intros Ha. pose proof (convertFromBtcToCeil_spec a ltac:(lia)). destruct Hr. nia. Qed.

Lemma convertFromBtcToCeil_zero a : amount a = 0 -> amount (convertFromBtcToCeil r a) = 0.
Proof. intros Ha. pose proof (convertFromBtcToCeil_spec a ltac:(lia)). destruct Hr. nia. Qed.

Lemma convertFromBtcToCeil_mono a b : 0 <= amount a <= amount b ->
  amount (convertFromBtcToCeil r a) <= amount (convertFromBtcToCeil r b).
Proof.
  intros H. pose proof (convertFromBtcToCeil_spec a ltac:(lia)).
  pose proof (convertFromBtcToCeil_spec b ltac:(lia)). destruct Hr. nia.
Qed.

Lemma convertFromBtc_nonneg a : 0 <= amount a -> 0 <= amount (convertFromBtc r a).
Proof.
  intros Ha. destruct (Z.eq_dec (amount a) 0) as [E|].
  - unfold convertFromBtc, convertFromWallet. by rewrite E.
  - destruct (convertFromBtc_spec a ltac:(lia)) as (?&_&_). lia.
Qed.

Lemma convertFromBtc_le_ceil a : 0 <= amount a ->
  amount (convertFromBtc r a) <= amount (convertFromBtcToCeil r a).
Proof.
  intros Ha. destruct (Z.eq_dec (amount a) 0) as [E|].
  - rewrite convertFromBtcToCeil_zero by done. unfold convertFromBtc, convertFromWallet. by rewrite E.
  - pose proof (convertFromBtcToCeil_spec a Ha). pose proof (convertFromBtcToCeil_pos a ltac:(lia)).
    destruct (convertFromBtc_spec a ltac:(lia)) as (?&[|]&?); destruct Hr; nia.
Qed.
End Conversions.

Lemma maxProtocolAndBankFee_spec a : 0 < amount a ->
  0 < amount (maxProtocolAndBankFee a) /\
  (amount (maxProtocolAndBankFee a) = 1 \/ 200 * amount (maxProtocolAndBankFee a) < amount a + 100) /\
  amount a <= 200 * amount (maxProtocolAndBankFee a) + 100.
Proof.
  intros Ha. unfold maxProtocolAndBankFee, mulBasisPoints, FEECAP_BASIS_POINTS.
  destruct (Z.eqb_spec (amount a) 0); [lia|]. cbn [amount].
  pose proof (divRound_spec (Pay (amount a * 50) (pay_currency a)) 10000 ltac:(simpl; lia) ltac:(lia)).
  pose proof (divRound_nonneg (Pay (amount a * 50) (pay_currency a)) 10000 ltac:(simpl; lia) ltac:(lia)).
  cbn [amount] in *. set (q := amount (divRound _ 10000)) in *. destruct (Z.eqb_spec q 0); lia.
Qed.

Lemma maxProtocolAndBankFee_currency a : pay_currency (maxProtocolAndBankFee a) = pay_currency a.
Proof. unfold maxProtocolAndBankFee. by case_match. Qed.

Lemma maxProtocolAndBankFee_nonneg a : 0 <= amount a -> 0 <= amount (maxProtocolAndBankFee a).
Proof.
  intros Ha. destruct (Z.eq_dec (amount a) 0) as [E|].
  - unfold maxProtocolAndBankFee. rewrite E. simpl. lia.
  - pose proof (maxProtocolAndBankFee_spec a). lia.
Qed.

(** ** Reimbursements *)

Lemma getReimbursement_Ok P r a b u : getReimbursement P r a = Ok (b, u) ->
  b = sats (amount P - amount a) /\ amount a <= amount P /\
  u = (if amount a =? 0 then convertFromBtc r b else convertFromBtcToFloor r b).
Proof.
  unfold getReimbursement. destruct (Z.ltb_spec (amount P - amount a) 0); [done|].
  intros [= <- <-]. split_and!; [done|lia|done].
Qed.

(** A prepaid fee converted upwards covers what is given back of it, and what
    is kept covers the fee really paid. *)
Lemma reimbursement_from_sats P r a b u : ratio_pos r -> 0 <= amount a ->
  getReimbursement P r a = Ok (b, u) ->
  0 <= amount u <= amount (convertFromBtcToCeil r P) /\
  amount a * ratio_other r <= (amount (convertFromBtcToCeil r P) - amount u) * amount (ratio_wallet r).
Proof.
  intros Hr Ha H. apply getReimbursement_Ok in H as (Hb & Hle & ->).
  assert (amount b = amount P - amount a) as Eb by by subst b.
  pose proof (convertFromBtcToCeil_spec r Hr P ltac:(lia)) as HP. destruct (Z.eqb_spec (amount a) 0) as [E|E].
  - assert (amount (convertFromBtcToCeil r b) = amount (convertFromBtcToCeil r P)) as <-.
    { unfold convertFromBtcToCeil, convertFromWalletToCeil. by replace (amount b) with (amount P) by lia. }
    pose proof (convertFromBtc_le_ceil r Hr b ltac:(lia)).
    pose proof (convertFromBtc_nonneg r Hr b ltac:(lia)). destruct Hr. nia.
  - pose proof (convertFromBtcToFloor_spec r Hr b ltac:(lia)) as HF. destruct Hr. nia.
Qed.

(** A fee prepaid in cents covers what is given back of it as long as a sat is
    worth no more than a cent. *)
Lemma reimbursement_from_cents F r a b u : ratio_pos r -> ratio_other r <= amount (ratio_wallet r) ->
  0 < amount F -> 0 <= amount a -> getReimbursement (convertFromUsd r F) r a = Ok (b, u) ->
  0 <= amount u <= amount F.
Proof.
  intros Hr Hp HF Ha H. apply getReimbursement_Ok in H as (Hb & Hle & ->).
  assert (amount b = amount (convertFromUsd r F) - amount a) as Eb by by subst b.
  destruct (convertFromUsd_spec r Hr F HF) as (HP & [E1|Hub] & Hlb).
  - destruct (Z.eqb_spec (amount a) 0) as [E|E].
    + destruct (convertFromBtc_spec r Hr b ltac:(lia)) as (?&[|]&?); destruct Hr; nia.
    + pose proof (convertFromBtcToFloor_spec r Hr b ltac:(lia)). destruct Hr. nia.
  - destruct (Z.eqb_spec (amount a) 0) as [E|E].
    + destruct (convertFromBtc_spec r Hr b ltac:(lia)) as (?&[|]&?); destruct Hr; nia.
    + pose proof (convertFromBtcToFloor_spec r Hr b ltac:(lia)). destruct Hr. nia.
Qed.

(** ** Limits *)

Lemma outgoing_sum r l a : amount (fold_left (fun acc v => calc_add acc (outgoing_usd r v)) l a) =
  amount a + foldr Z.add 0 (map (fun v => amount (outgoing_usd r v)) l).
Proof. revert a. induction l as [|v l IH]; intros a; simpl; [lia|]. rewrite IH. simpl. lia. Qed.

(** The check lets an amount through exactly when the day's volume, converted
    to cents, and the amount together stay within the limit. *)
Lemma checkLimit_iff limit (n : Z) c r a l : limit = Fin (num_of_Z n) ->
  checkLimit limit c r a l = Ok tt <->
  foldr Z.add 0 (map (fun v => amount (outgoing_usd r v)) l) + amount a <= n.
Proof.
  intros ->. unfold checkLimit, paymentAmountFromNumber, safeBigInt. cbn [num_isInteger].
  change (num_isInteger (num_of_Z n)) with true. rewrite num_of_Z_val.
  cbn [outcome_map calculateLimitsInUsd calc_sub amount]. rewrite outgoing_sum. cbn [amount ZERO_CENTS cents].
  destruct (Z.ltb_spec (n - (0 + foldr Z.add 0 (map (fun v => amount (outgoing_usd r v)) l))) (amount a));
    split; intros; try done; lia.
Qed.
