(* ===== verification/PaymentFlows.v ===== *)
(** * Payment flows

    Model of [src/src/domain/payments/payment-flow.ts] and of the conversion to
    and from the stored document in [src/src/services/mongoose/payment-flow.ts]:
    the state of a priced payment, the questions the senders ask of it and its
    form in the database. *)

From stdpp Require Import base list strings.
From Stdlib Require Import ZArith Lia Ascii.
From S2P Require Import Prelude JsStrings JsNumbers JsDecimals Errors MoneyAmounts PaymentAmounts.

Close Scope Q_scope.
Open Scope Z_scope.

Inductive SettlementMethod := SettleIntraLedger | SettleOnChain | SettleLightning.
#[global] Instance SettlementMethod_eq_dec : EqDecision SettlementMethod.
Proof. solve_decision. Defined.

Inductive PaymentInitiationMethod := InitIntraLedger | InitOnChain | InitLightning.
#[global] Instance PaymentInitiationMethod_eq_dec : EqDecision PaymentInitiationMethod.
Proof. solve_decision. Defined.

(** [WalletDescriptor] *)
Record WalletDescriptor := mkDescriptor { d_wallet : string; d_currency : WalletCurrency; d_account : string }.

(** [x && x || undefined]: an empty text is falsy. *)
Definition truthy_text (s : option string) : option string :=
  match s with Some t => if nonempty t then Some t else None | None => None end.

(** [AmountsAndFees] *)
Record AmountsAndFees := mkAmounts {
  btcPaymentAmount : PaymentAmount;
  usdPaymentAmount : PaymentAmount;
  btcProtocolAndBankFee : PaymentAmount;
  usdProtocolAndBankFee : PaymentAmount
}.

(** The recipient's part of [PaymentFlowCommonState] *)
Record Recipient := mkRecipient {
  recipientWalletId : option string;
  recipientWalletCurrency : option WalletCurrency;
  recipientAccountId : option string;
  recipientPubkey : option string;
  recipientUsername : option string;
  recipientUserId : option string
}.

(** [PaymentFlowCommonState] *)
Record FlowCommon := mkCommon {
  fc_sender : WalletDescriptor;
  fc_recipient : Recipient;
  fc_amounts : AmountsAndFees;
  fc_inputAmount : Z;
  fc_settlementMethod : SettlementMethod;
  fc_paymentInitiationMethod : PaymentInitiationMethod;
  fc_createdAt : Z;
  fc_paymentSentAndPending : bool;
  fc_outgoingNodePubkey : option string;
  fc_cachedRoute : option RawRoute
}.

(** [PaymentFlowState]: the hash is a payment hash or the hash of a payment
    between wallets, never both. *)
Record PaymentFlow := mkFlow {
  pf_paymentHash : option string;
  pf_intraLedgerHash : option string;
  pf_descriptionFromInvoice : string;
  pf_skipProbeForDestination : bool;
  pf_common : FlowCommon
}.

(** [OnChainPaymentFlowState] *)
Record OnChainPaymentFlow := mkOnChain {
  of_address : option string;
  of_btcBankFee : PaymentAmount;
  of_usdBankFee : PaymentAmount;
  of_btcMinerFee : option PaymentAmount;
  of_common : FlowCommon
}.

(** ** [PaymentFlowCommon] *)

Definition protocolAndBankFeeInSenderWalletCurrency (s : FlowCommon) : PaymentAmount :=
  if decide (d_currency (fc_sender s) = Btc) then btcProtocolAndBankFee (fc_amounts s)
  else usdProtocolAndBankFee (fc_amounts s).

(** [{ btc, usd }] *)
Definition paymentAmounts (s : FlowCommon) : PaymentAmount * PaymentAmount :=
  (btcPaymentAmount (fc_amounts s), usdPaymentAmount (fc_amounts s)).

Definition totalAmountsForPayment (s : FlowCommon) : PaymentAmount * PaymentAmount :=
  (calc_add (btcPaymentAmount (fc_amounts s)) (btcProtocolAndBankFee (fc_amounts s)),
   calc_add (usdPaymentAmount (fc_amounts s)) (usdProtocolAndBankFee (fc_amounts s))).

(** The cached route is dropped when its amount is not the payment's. *)
Definition routeDetails (s : FlowCommon) : option RawRoute * option string :=
  let rawRoute := match fc_cachedRoute s with
    | Some r => match validate_route r (btcPaymentAmount (fc_amounts s)) with Ok _ => Some r | _ => None end
    | None => None
    end in
  (rawRoute, match rawRoute with Some _ => fc_outgoingNodePubkey s | None => None end).

Definition recipientWalletDescriptor (s : FlowCommon) : option WalletDescriptor :=
  let r := fc_recipient s in
  match truthy_text (recipientWalletId r), recipientWalletCurrency r, truthy_text (recipientAccountId r) with
  | Some id, Some c, Some a => Some (mkDescriptor id c a)
  | _, _, _ => None
  end.

Definition recipientDetails (s : FlowCommon) :
    option WalletDescriptor * option string * option string * option string :=
  (recipientWalletDescriptor s, recipientPubkey (fc_recipient s), recipientUsername (fc_recipient s),
   recipientUserId (fc_recipient s)).

Definition senderWalletDescriptor (s : FlowCommon) : WalletDescriptor := fc_sender s.

Definition checkBalanceForSend (s : FlowCommon) (balance : PaymentAmount) : outcome error unit :=
  if negb (bool_decide (d_currency (fc_sender s) = pay_currency balance))
  then Err (new_error0 InvalidCurrencyForWalletError)
  else
    let '(a, fee) := if decide (pay_currency balance = Btc)
      then (btcPaymentAmount (fc_amounts s), btcProtocolAndBankFee (fc_amounts s))
      else (usdPaymentAmount (fc_amounts s), usdProtocolAndBankFee (fc_amounts s)) in
    let totalSendAmount := calc_add a fee in
    if amount balance <? amount totalSendAmount
    then Err (new_error InsufficientBalanceError ("Payment amount '" +:+
      bigint_toString (amount totalSendAmount) +:+ "' " +:+
      (if decide (d_currency (fc_sender s) = Btc) then "sats" else "cents") +:+ " exceeds balance '" +:+
      bigint_toString (amount balance) +:+ "'"))
    else Ok tt.

(** ** [PaymentFlow] and [OnChainPaymentFlow] *)

Definition is_set (s : option string) : bool := match truthy_text s with Some _ => true | None => false end.

Definition paymentHashForFlow (f : PaymentFlow) : outcome error string :=
  if Bool.eqb (is_set (pf_paymentHash f)) (is_set (pf_intraLedgerHash f))
  then Err (new_error0 InvalidLightningPaymentFlowBuilderStateError)
  else match truthy_text (pf_paymentHash f) with
       | None => Err (new_error0 IntraLedgerHashPresentInLnFlowError)
       | Some h => Ok h
       end.

Definition intraLedgerHashForFlow (f : PaymentFlow) : outcome error string :=
  if Bool.eqb (is_set (pf_paymentHash f)) (is_set (pf_intraLedgerHash f))
  then Err (new_error0 InvalidLightningPaymentFlowBuilderStateError)
  else match truthy_text (pf_intraLedgerHash f) with
       | None => Err (new_error0 LnHashPresentInIntraLedgerFlowError)
       | Some h => Ok h
       end.

Definition addressForFlow (f : OnChainPaymentFlow) : outcome error string :=
  match of_address f with
  | None => Err (new_error0 InvalidOnChainPaymentFlowBuilderStateError)
  | Some a => Ok a
  end.

Definition bankFees (f : OnChainPaymentFlow) : PaymentAmount * PaymentAmount := (of_btcBankFee f, of_usdBankFee f).

(** ** The stored document *)

(** [PaymentFlowStateRecord] *)
Record FlowRecord := mkFlowRecord {
  fr_paymentHash : option string;
  fr_intraLedgerHash : option string;
  fr_senderWalletId : string;
  fr_senderWalletCurrency : WalletCurrency;
  fr_senderAccountId : string;
  fr_settlementMethod : SettlementMethod;
  fr_paymentInitiationMethod : PaymentInitiationMethod;
  fr_descriptionFromInvoice : string;
  fr_skipProbeForDestination : bool;
  fr_createdAt : Z;
  fr_paymentSentAndPending : bool;
  fr_btcPaymentAmount : js_float;
  fr_usdPaymentAmount : js_float;
  fr_inputAmount : js_float;
  fr_btcProtocolAndBankFee : js_float;
  fr_usdProtocolAndBankFee : js_float;
  fr_recipient : Recipient;
  fr_outgoingNodePubkey : option string;
  fr_cachedRoute : option RawRoute
}.

(** [paymentHash ? { paymentHash } : intraLedgerHash ? { intraLedgerHash } : error] *)
Definition one_hash (paymentHash intraLedgerHash : option string) (e : error) :
    outcome error (option string * option string) :=
  match truthy_text paymentHash with
  | Some h => Ok (Some h, None)
  | None => match truthy_text intraLedgerHash with Some h => Ok (None, Some h) | None => Err e end
  end.

Definition missing_hash : error :=
  new_error InvalidLightningPaymentFlowStateError "Missing valid 'paymentHash' or 'intraLedgerHash'".

Definition rawFromPaymentFlow (f : PaymentFlow) : outcome error FlowRecord :=
  bindo (one_hash (pf_paymentHash f) (pf_intraLedgerHash f) missing_hash) (fun hash =>
  let s := pf_common f in
  Ok {| fr_paymentHash := hash.1;
        fr_intraLedgerHash := hash.2;
        fr_senderWalletId := d_wallet (fc_sender s);
        fr_senderWalletCurrency := d_currency (fc_sender s);
        fr_senderAccountId := d_account (fc_sender s);
        fr_settlementMethod := fc_settlementMethod s;
        fr_paymentInitiationMethod := fc_paymentInitiationMethod s;
        fr_descriptionFromInvoice := pf_descriptionFromInvoice f;
        fr_skipProbeForDestination := pf_skipProbeForDestination f;
        fr_createdAt := fc_createdAt s;
        fr_paymentSentAndPending := fc_paymentSentAndPending s;
        fr_btcPaymentAmount := Number_of (amount (btcPaymentAmount (fc_amounts s)));
        fr_usdPaymentAmount := Number_of (amount (usdPaymentAmount (fc_amounts s)));
        fr_inputAmount := Number_of (fc_inputAmount s);
        fr_btcProtocolAndBankFee := Number_of (amount (btcProtocolAndBankFee (fc_amounts s)));
        fr_usdProtocolAndBankFee := Number_of (amount (usdProtocolAndBankFee (fc_amounts s)));
        fr_recipient := fc_recipient s;
        fr_outgoingNodePubkey := fc_outgoingNodePubkey s;
        fr_cachedRoute := fc_cachedRoute s |}).

(** [(x as T) || undefined] on each field of the recipient *)
Definition recipient_or_undefined (r : Recipient) : Recipient :=
  mkRecipient (truthy_text (recipientWalletId r)) (recipientWalletCurrency r) (truthy_text (recipientAccountId r))
    (truthy_text (recipientPubkey r)) (truthy_text (recipientUsername r)) (truthy_text (recipientUserId r)).

Definition paymentFlowFromRaw (r : FlowRecord) : outcome error PaymentFlow :=
  bindo (safeBigInt (fr_inputAmount r)) (fun inputAmount =>
  bindo (one_hash (fr_paymentHash r) (fr_intraLedgerHash r) missing_hash) (fun hash =>
  bindo (paymentAmountFromNumber (fr_btcPaymentAmount r) Btc) (fun btc =>
  bindo (paymentAmountFromNumber (fr_usdPaymentAmount r) Usd) (fun usd =>
  bindo (paymentAmountFromNumber (fr_btcProtocolAndBankFee r) Btc) (fun btcFee =>
  bindo (paymentAmountFromNumber (fr_usdProtocolAndBankFee r) Usd) (fun usdFee =>
  Ok (mkFlow hash.1 hash.2 (fr_descriptionFromInvoice r) (fr_skipProbeForDestination r)
    {| fc_sender := mkDescriptor (fr_senderWalletId r) (fr_senderWalletCurrency r) (fr_senderAccountId r);
       fc_recipient := recipient_or_undefined (fr_recipient r);
       fc_amounts := mkAmounts btc usd btcFee usdFee;
       fc_inputAmount := inputAmount;
       fc_settlementMethod := fr_settlementMethod r;
       fc_paymentInitiationMethod := fr_paymentInitiationMethod r;
       fc_createdAt := fr_createdAt r;
       fc_paymentSentAndPending := fr_paymentSentAndPending r;
       fc_outgoingNodePubkey := truthy_text (fr_outgoingNodePubkey r);
       fc_cachedRoute := fr_cachedRoute r |}))))))).

(** [rawIndexFromPaymentFlowIndex]: the hash, the wallet and the amount a
    stored flow is looked up by. *)
Record FlowIndex := mkIndex {
  ix_paymentHash : option string; ix_intraLedgerHash : option string; ix_walletId : string; ix_inputAmount : js_float }.

Definition rawIndexFromPaymentFlowIndex (paymentHash intraLedgerHash : option string) (walletId : string)
    (inputAmount : Z) : outcome error FlowIndex :=
  outcome_map (fun hash => mkIndex hash.1 hash.2 walletId (Number_of inputAmount))
    (one_hash paymentHash intraLedgerHash missing_hash).

(** [isExpired] at a time in milliseconds: [elapsedSinceTimestamp] divides the
    milliseconds by 1000, and a quotient by 1000 that is not an integer stays
    clear of every integer when it is rounded. *)
Definition isExpired (f : PaymentFlow) (expiryTimeInSeconds now : Z) : bool :=
  if fc_paymentSentAndPending (pf_common f) then false
  else 1000 * expiryTimeInSeconds <? now - fc_createdAt (pf_common f).

(** ** Round trip *)

Definition text_ok (s : option string) : Prop := s <> Some "".

Definition recipient_ok (r : Recipient) : Prop :=
  text_ok (recipientWalletId r) /\ text_ok (recipientAccountId r) /\ text_ok (recipientPubkey r) /\
  text_ok (recipientUsername r) /\ text_ok (recipientUserId r).

Definition safe_int (z : Z) : Prop := Z.abs z <= 2 ^ 53.

(** A flow whose amounts a double holds, with exactly one hash. *)
Definition flow_storable (f : PaymentFlow) : Prop :=
  let s := pf_common f in let a := fc_amounts s in
  (exists h, h <> "" /\ (pf_paymentHash f, pf_intraLedgerHash f) ∈ [(Some h, None); (None, Some h)]) /\
  recipient_ok (fc_recipient s) /\ text_ok (fc_outgoingNodePubkey s) /\
  safe_int (fc_inputAmount s) /\
  (pay_currency (btcPaymentAmount a) = Btc /\ safe_int (amount (btcPaymentAmount a))) /\
  (pay_currency (usdPaymentAmount a) = Usd /\ safe_int (amount (usdPaymentAmount a))) /\
  (pay_currency (btcProtocolAndBankFee a) = Btc /\ safe_int (amount (btcProtocolAndBankFee a))) /\
  (pay_currency (usdProtocolAndBankFee a) = Usd /\ safe_int (amount (usdProtocolAndBankFee a))).

Lemma truthy_text_ok s : text_ok s -> truthy_text s = s.
Proof. destruct s as [[|c t]|]; done. Qed.

Lemma safeBigInt_Number z : safe_int z -> safeBigInt (Number_of z) = Ok z.
Proof.
  intros Hz. destruct (Number_of_exact z Hz) as (x & -> & Hi & Hx). unfold safeBigInt. by rewrite Hi, Hx.
Qed.

Lemma paymentAmount_Number (a : PaymentAmount) c : pay_currency a = c /\ safe_int (amount a) ->
  paymentAmountFromNumber (Number_of (amount a)) c = Ok a.
Proof.
  intros [<- Ha]. unfold paymentAmountFromNumber. rewrite safeBigInt_Number by done. by destruct a.
Qed.

Lemma recipient_or_undefined_ok r : recipient_ok r -> recipient_or_undefined r = r.
Proof.
  intros (?&?&?&?&?). unfold recipient_or_undefined. rewrite !truthy_text_ok by done. by destruct r.
Qed.

(** Storing a flow and reading it back gives the same flow: no field is lost
    and every amount survives its passage through a double. *)
Theorem flow_roundtrip (f : PaymentFlow) : flow_storable f ->
  exists r, rawFromPaymentFlow f = Ok r /\ paymentFlowFromRaw r = Ok f.
Proof.
  destruct f as [ph ih desc skip [[sw sc sa] rec am input sm im created pend out route]].
  intros ((h & Hne & Hh) & Hrec & Hout & Hin & Hb & Hu & Hbf & Huf). cbn in *.
  assert (one_hash ph ih missing_hash = Ok (ph, ih)) as E.
  { unfold one_hash. rewrite !elem_of_cons, elem_of_nil in Hh.
    destruct h; [done|]. destruct Hh as [[= -> ->]|[[= -> ->]|[]]]; done. }
  unfold rawFromPaymentFlow. cbn. rewrite E. cbn. eexists. split; [done|].
  unfold paymentFlowFromRaw. cbn. rewrite E, safeBigInt_Number by done. cbn.
  rewrite (paymentAmount_Number (btcPaymentAmount am)), (paymentAmount_Number (usdPaymentAmount am)),
    (paymentAmount_Number (btcProtocolAndBankFee am)), (paymentAmount_Number (usdProtocolAndBankFee am)) by done.
  cbn. rewrite recipient_or_undefined_ok, truthy_text_ok by done. by destruct am.
Qed.
