(* ===== verification/LightningFlow.v ===== *)
(** * The lightning payment builder

    Model of [LightningPaymentFlowBuilder]
    ([src/src/domain/payments/payment-flow-builder.ts]), which turns an invoice
    or an amount, a sender and a recipient into a priced payment, one step at a
    time. Each step's object is the state it closes over; the absorbing
    [LPFBWithError] is an [Err]. The conversions of the dealer and of the mid
    price are parameters, and so is the time a conversion is asked for. *)

From stdpp Require Import base list strings.
From Stdlib Require Import ZArith Lia Ascii.
From S2P Require Import Prelude JsStrings JsNumbers JsDecimals Errors MoneyAmounts PaymentAmounts PaymentFlows.

Close Scope Q_scope.
Open Scope Z_scope.

(** ** Invoices *)

(** The part of a [Hop] and of an [LnInvoice] the builder reads. *)
Record Hop := mkHop {
  hop_channel : option string;
  hop_nodePubkey : string;
  hop_baseFeeMTokens : option string;
  hop_cltvDelta : option Z;
  hop_feeRate : option Z
}.

Record Invoice := mkLnInvoice {
  iv_destination : string;
  iv_paymentHash : string;
  iv_description : string;
  iv_paymentAmount : option PaymentAmount;
  iv_routeHints : list (list Hop);
  iv_paymentRequest : string;
  iv_paymentSecret : string;
  iv_cltvDelta : option Z
}.

(** [route[i].field] throws when there is no hop at [i]. *)
Definition hop_at (route : list Hop) (i : Z) : outcome error Hop :=
  match (if i <? 0 then None else route !! Z.to_nat i) with
  | Some h => Ok h
  | None => Throw (new_error JsTypeError "Cannot read properties of undefined")
  end.

(** The values of a [for] loop that pushes at most one item a round. *)
Fixpoint push_all {A B} (f : A -> outcome error (option B)) (l : list A) : outcome error (list B) :=
  match l with
  | [] => Ok []
  | x :: l' => bindo (f x) (fun o => bindo (push_all f l') (fun r => Ok (option_list o ++ r)))
  end.

(** [Array.from(new Set(l))]: the first occurrence of each item. *)
Definition set_of (l : list string) : list string :=
  rev (fold_left (fun acc x => if bool_decide (x ∈ acc) then acc else x :: acc) l []).

Definition parseFinalHopsFromInvoice (invoice : Invoice) : outcome error (list string) :=
  outcome_map set_of (push_all (fun route =>
    let lastIdx := Z.of_nat (length route) - 1 in
    let penUltIndex := if 1 <? Z.of_nat (length route) then lastIdx - 1 else lastIdx in
    outcome_map (fun h => Some (hop_nodePubkey h)) (hop_at route penUltIndex)) (iv_routeHints invoice)).

Definition parseFinalChanIdFromInvoice (invoice : Invoice) : outcome error (list string) :=
  outcome_map set_of (push_all (fun route =>
    outcome_map hop_channel (hop_at route (Z.of_nat (length route) - 1))) (iv_routeHints invoice)).

(** ** The states of the builder *)

(** [LightningPaymentFlowBuilderConfig] *)
Record BuilderConfig := mkBuilderConfig {
  localNodeIds : list string; skipProbe_pubkey : list string; skipProbe_chanId : list string }.

(** What the first step fixes for good. *)
Record LpfbBase := mkBase {
  lb_settlementMethod : SettlementMethod;
  lb_paymentInitiationMethod : PaymentInitiationMethod;
  lb_paymentHash : option string;
  lb_intraLedgerHash : option string;
  lb_uncheckedAmount : option js_float;
  lb_descriptionFromInvoice : string;
  lb_skipProbeForDestination : bool
}.

(** The amounts known so far. *)
Record LpfbAmounts := mkLpfbAmounts {
  la_inputAmount : option Z;
  la_btcPaymentAmount : option PaymentAmount;
  la_usdPaymentAmount : option PaymentAmount;
  la_btcProtocolAndBankFee : option PaymentAmount;
  la_usdProtocolAndBankFee : option PaymentAmount
}.

Record LPFBWithInvoice := mkWithInvoice { li_base : LpfbBase; li_amounts : LpfbAmounts }.

Record LPFBWithSenderWallet := mkWithSender {
  ls_base : LpfbBase; ls_amounts : LpfbAmounts; ls_sender : WalletDescriptor; ls_inputAmount : Z }.

Record LPFBWithRecipientWallet := mkWithRecipient {
  lr_base : LpfbBase; lr_amounts : LpfbAmounts; lr_sender : WalletDescriptor; lr_inputAmount : Z;
  lr_recipient : Recipient; lr_walletsForAccount : option (list WalletDescriptor) }.

Record LPFBWithConversion := mkWithConversion {
  lc_base : LpfbBase; lc_amounts : AmountsAndFees; lc_sender : WalletDescriptor; lc_inputAmount : Z;
  lc_recipient : Recipient; lc_createdAt : Z }.

(** [ConversionFns] *)
Record ConversionFns := mkConversions {
  usdFromBtc : PaymentAmount -> outcome error PaymentAmount;
  btcFromUsd : PaymentAmount -> outcome error PaymentAmount
}.

(** ** First step *)

Definition settlementMethodFromDestination (config : BuilderConfig) (destination : option string) :
    SettlementMethod * option PaymentAmount * option PaymentAmount :=
  let settlementMethod := match destination with
    | None => SettleIntraLedger
    | Some d => if bool_decide (d ∈ localNodeIds config) then SettleIntraLedger else SettleLightning
    end in
  if decide (settlementMethod = SettleIntraLedger)
  then (settlementMethod, Some (intraLedgerFees.1), Some (intraLedgerFees.2))
  else (settlementMethod, None, None).

Definition skipProbeFromInvoice (config : BuilderConfig) (invoice : Invoice) : outcome error bool :=
  bindo (parseFinalHopsFromInvoice invoice) (fun pubkeys =>
  bindo (parseFinalChanIdFromInvoice invoice) (fun chanIds =>
  let pubkeyIsFlagged := existsb (fun p => bool_decide (p ∈ skipProbe_pubkey config)) pubkeys in
  let chanIdIsFlagged := existsb (fun c => bool_decide (c ∈ skipProbe_chanId config)) chanIds in
  Ok (pubkeyIsFlagged || chanIdIsFlagged))).

Definition withInvoice (config : BuilderConfig) (invoice : Invoice) : outcome error LPFBWithInvoice :=
  match iv_paymentAmount invoice with
  | None => Err (new_error InvalidLightningPaymentFlowBuilderStateError "withInvoice - paymentAmount missing")
  | Some paymentAmount =>
      let '(method, btcFee, usdFee) := settlementMethodFromDestination config (Some (iv_destination invoice)) in
      bindo (skipProbeFromInvoice config invoice) (fun skip =>
      Ok (mkWithInvoice
        (mkBase method InitLightning (Some (iv_paymentHash invoice)) None None (iv_description invoice) skip)
        (mkLpfbAmounts (Some (amount paymentAmount)) (Some paymentAmount) None btcFee usdFee)))
  end.

Definition withNoAmountInvoice (config : BuilderConfig) (invoice : Invoice) (uncheckedAmount : js_float) :
    outcome error LPFBWithInvoice :=
  let '(method, btcFee, usdFee) := settlementMethodFromDestination config (Some (iv_destination invoice)) in
  bindo (skipProbeFromInvoice config invoice) (fun skip =>
  Ok (mkWithInvoice
    (mkBase method InitLightning (Some (iv_paymentHash invoice)) None (Some uncheckedAmount)
       (iv_description invoice) skip)
    (mkLpfbAmounts None None None btcFee usdFee))).

(** [generateIntraLedgerHash()] draws a random hash, here an argument. *)
Definition withoutInvoice (config : BuilderConfig) (uncheckedAmount : js_float) (description hash : string) :
    outcome error LPFBWithInvoice :=
  let '(method, btcFee, usdFee) := settlementMethodFromDestination config None in
  Ok (mkWithInvoice
    (mkBase method InitIntraLedger None (Some hash) (Some uncheckedAmount) description false)
    (mkLpfbAmounts None None None btcFee usdFee)).

(** ** The sender *)

(** [fee || LnFees().maxProtocolAndBankFee(a)] *)
Definition fee_or_max (fee : option PaymentAmount) (a : PaymentAmount) : PaymentAmount :=
  default (maxProtocolAndBankFee a) fee.

Definition withSenderWallet (state : LPFBWithInvoice) (senderWallet : WalletDescriptor) :
    outcome error LPFBWithSenderWallet :=
  let am := li_amounts state in
  match lb_uncheckedAmount (li_base state) with
  | Some uncheckedAmount =>
      if decide (d_currency senderWallet = Btc) then
        bindo (checkedToBtcPaymentAmount (Some uncheckedAmount)) (fun paymentAmount =>
        Ok (mkWithSender (li_base state)
          (mkLpfbAmounts (Some (amount paymentAmount)) (Some paymentAmount) (la_usdPaymentAmount am)
            (Some (fee_or_max (la_btcProtocolAndBankFee am) paymentAmount)) (la_usdProtocolAndBankFee am))
          senderWallet (amount paymentAmount)))
      else
        bindo (checkedToUsdPaymentAmount (Some uncheckedAmount) Usd) (fun paymentAmount =>
        Ok (mkWithSender (li_base state)
          (mkLpfbAmounts (Some (amount paymentAmount)) (la_btcPaymentAmount am) (Some paymentAmount)
            (la_btcProtocolAndBankFee am) (Some (fee_or_max (la_usdProtocolAndBankFee am) paymentAmount)))
          senderWallet (amount paymentAmount)))
  | None =>
      match la_inputAmount am, la_btcPaymentAmount am with
      | Some inputAmount, Some btc =>
          if inputAmount =? 0 then Throw (new_error JsError "withSenderWallet impossible")
          else Ok (mkWithSender (li_base state)
            (mkLpfbAmounts (Some inputAmount) (Some btc) (la_usdPaymentAmount am)
              (Some (fee_or_max (la_btcProtocolAndBankFee am) btc)) (la_usdProtocolAndBankFee am))
            senderWallet inputAmount)
      | _, _ => Throw (new_error JsError "withSenderWallet impossible")
      end
  end.

(** ** The recipient *)

Definition no_recipient : Recipient := mkRecipient None None None None None None.

Definition withoutRecipientWallet (state : LPFBWithSenderWallet) : outcome error LPFBWithRecipientWallet :=
  if decide (lb_settlementMethod (ls_base state) = SettleIntraLedger)
  then Err (new_error InvalidLightningPaymentFlowBuilderStateError
    "withoutRecipientWallet called but settlementMethod is IntraLedger")
  else Ok (mkWithRecipient (ls_base state) (ls_amounts state) (ls_sender state) (ls_inputAmount state)
    no_recipient None).

(** [LPFBWithRecipientArgs] *)
Record RecipientArgs := mkRecipientArgs {
  ra_descriptor : WalletDescriptor;
  ra_walletsForAccount : list WalletDescriptor;
  ra_pubkey : option string;
  ra_usdPaymentAmount : option PaymentAmount;
  ra_username : option string;
  ra_userId : string
}.

Definition isSome {A} (o : option A) : bool := match o with Some _ => true | None => false end.

Definition withRecipientWallet (state : LPFBWithSenderWallet) (args : RecipientArgs) :
    outcome error LPFBWithRecipientWallet :=
  let r := ra_descriptor args in
  let am := ls_amounts state in
  let unchecked := match lb_uncheckedAmount (ls_base state) with Some x => fl_truthy x | None => false end in
  if String.eqb (d_wallet r) (d_wallet (ls_sender state)) then Err (new_error0 SelfPaymentError)
  else if bool_decide (d_currency r = Usd) && Bool.eqb (isSome (ra_usdPaymentAmount args)) unchecked
  then Err (new_error InvalidLightningPaymentFlowBuilderStateError
    "withRecipientWallet incorrect combination of usdPaymentAmount and uncheckedAmount")
  else Ok (mkWithRecipient (ls_base state)
    (mkLpfbAmounts (la_inputAmount am) (la_btcPaymentAmount am)
      (match ra_usdPaymentAmount args with Some u => Some u | None => la_usdPaymentAmount am end)
      (la_btcProtocolAndBankFee am) (la_usdProtocolAndBankFee am))
    (ls_sender state) (ls_inputAmount state)
    (mkRecipient (Some (d_wallet r)) (Some (d_currency r)) (Some (d_account r)) (ra_pubkey args)
      (ra_username args) (Some (ra_userId args)))
    (Some (ra_walletsForAccount args))).

(** ** The conversion *)

Section Conversion.
Context (state : LPFBWithRecipientWallet) (hedgeBuyUsd hedgeSellUsd mid : ConversionFns) (now : Z).

Definition sender_is_btc : bool := bool_decide (d_currency (lr_sender state) = Btc).

Definition converted (recipient : Recipient) (a : AmountsAndFees) : LPFBWithConversion :=
  mkWithConversion (lr_base state) a (lr_sender state) (lr_inputAmount state) recipient now.

(** The USD amount of a payment fixed in sats, and its fee rounded up. *)
Definition stateFromBtc (usdFromBtc : PaymentAmount -> outcome error PaymentAmount) (recipient : Recipient)
    (btc btcFee : PaymentAmount) : outcome error LPFBWithConversion :=
  bindo (usdFromBtc btc) (fun convertedAmount =>
  bindo (WalletPriceRatio convertedAmount btc) (fun priceRatio =>
  Ok (converted recipient (mkAmounts btc convertedAmount btcFee (convertFromBtcToCeil priceRatio btcFee))))).

(** The sats of a payment fixed in cents. *)
Definition stateFromUsd (btcFromUsd : PaymentAmount -> outcome error PaymentAmount)
    (usd usdFee : PaymentAmount) : outcome error LPFBWithConversion :=
  bindo (btcFromUsd usd) (fun convertedAmount =>
  bindo (WalletPriceRatio usd convertedAmount) (fun priceRatio =>
  Ok (converted (lr_recipient state)
    (mkAmounts convertedAmount usd (convertFromUsd priceRatio usdFee) usdFee)))).

(** The recipient's BTC wallet in place of the one that was asked for. *)
Definition redirect (w : WalletDescriptor) : Recipient :=
  let r := lr_recipient state in
  mkRecipient (Some (d_wallet w)) (Some (d_currency w)) (recipientAccountId r) (recipientPubkey r)
    (recipientUsername r) (recipientUserId r).

Definition updatedStateFromBtcPaymentAmountMid (btc btcFee : PaymentAmount)
    (recipientWalletDescriptor : option WalletDescriptor) : outcome error LPFBWithConversion :=
  stateFromBtc (usdFromBtc mid)
    (match recipientWalletDescriptor with Some w => redirect w | None => lr_recipient state end) btc btcFee.

Definition updatedStateFromBtcPaymentAmountDealer : PaymentAmount -> PaymentAmount -> outcome error LPFBWithConversion :=
  stateFromBtc (if sender_is_btc then usdFromBtc hedgeBuyUsd else usdFromBtc hedgeSellUsd) (lr_recipient state).

Definition updatedStateFromUsdPaymentAmountMid : PaymentAmount -> PaymentAmount -> outcome error LPFBWithConversion :=
  stateFromUsd (btcFromUsd mid).

Definition updatedStateFromUsdPaymentAmountDealer : PaymentAmount -> PaymentAmount -> outcome error LPFBWithConversion :=
  stateFromUsd (if sender_is_btc then btcFromUsd hedgeBuyUsd else btcFromUsd hedgeSellUsd).

(** An amount worth less than a cent goes to the recipient's BTC wallet. *)
Definition updatedStateFromBtcPaymentAmountDealerFallbackMid (btc btcFee : PaymentAmount) :
    outcome error LPFBWithConversion :=
  match updatedStateFromBtcPaymentAmountDealer btc btcFee with
  | Err e =>
      if decide (err_class e = InvalidZeroAmountPriceRatioInputError) then
        match find (fun w => bool_decide (d_currency w = Btc)) (default [] (lr_walletsForAccount state)) with
        | None => Err (new_error0 CouldNotFindWalletFromAccountIdAndCurrencyError)
        | Some w =>
            if String.eqb (d_wallet w) (d_wallet (lr_sender state))
            then Err (new_error0 SubOneCentSatAmountForUsdSelfSendError)
            else updatedStateFromBtcPaymentAmountMid btc btcFee (Some w)
        end
      else Err e
  | updatedState => updatedState
  end.

Definition noConversionRequired : bool :=
  (sender_is_btc && bool_decide (lb_settlementMethod (lr_base state) = SettleLightning))
  || bool_decide (Some (d_currency (lr_sender state)) = recipientWalletCurrency (lr_recipient state)).

Definition withConversion : outcome error LPFBWithConversion :=
  let am := lr_amounts state in
  let btcAmounts := match la_btcPaymentAmount am, la_btcProtocolAndBankFee am with
    | Some a, Some f => Some (a, f) | _, _ => None end in
  let usdAmounts := match la_usdPaymentAmount am, la_usdProtocolAndBankFee am with
    | Some a, Some f => Some (a, f) | _, _ => None end in
  let isUsdRecipient := bool_decide (recipientWalletCurrency (lr_recipient state) = Some Usd) in
  if noConversionRequired then
    match btcAmounts, usdAmounts with
    | Some (b, bf), Some (u, uf) => Ok (converted (lr_recipient state) (mkAmounts b u bf uf))
    | Some (b, bf), None => updatedStateFromBtcPaymentAmountMid b bf None
    | None, Some (u, uf) => updatedStateFromUsdPaymentAmountMid u uf
    | None, None => Err (new_error InvalidLightningPaymentFlowBuilderStateError
        "withConversion - btcPaymentAmount || btcProtocolAndBankFee not set")
    end
  else
    match btcAmounts, usdAmounts with
    | Some (b, bf), Some (u, uf) =>
        if isUsdRecipient then Ok (converted (lr_recipient state) (mkAmounts b u bf uf))
        else updatedStateFromBtcPaymentAmountDealerFallbackMid b bf
    | Some (b, bf), None => updatedStateFromBtcPaymentAmountDealerFallbackMid b bf
    | None, Some (u, uf) => updatedStateFromUsdPaymentAmountDealer u uf
    | None, None => Err (new_error InvalidLightningPaymentFlowBuilderStateError
        "withConversion - impossible withConversion state")
    end.
End Conversion.

(** ** The route *)

Definition paymentFromState (state : LPFBWithConversion) (amounts : AmountsAndFees) (outgoingNodePubkey : option string)
    (checkedRoute : option RawRoute) : outcome error PaymentFlow :=
  let b := lc_base state in
  bindo (one_hash (lb_paymentHash b) (lb_intraLedgerHash b) (new_error0 InvalidLightningPaymentFlowStateError))
    (fun hash =>
  Ok (mkFlow hash.1 hash.2 (lb_descriptionFromInvoice b) (lb_skipProbeForDestination b)
    {| fc_sender := lc_sender state;
       fc_recipient := lc_recipient state;
       fc_amounts := amounts;
       fc_inputAmount := lc_inputAmount state;
       fc_settlementMethod := lb_settlementMethod b;
       fc_paymentInitiationMethod := lb_paymentInitiationMethod b;
       fc_createdAt := lc_createdAt state;
       fc_paymentSentAndPending := false;
       fc_outgoingNodePubkey := outgoingNodePubkey;
       fc_cachedRoute := checkedRoute |})).

Definition withoutRoute (state : LPFBWithConversion) : outcome error PaymentFlow :=
  paymentFromState state (lc_amounts state) None None.

Definition withRoute (state : LPFBWithConversion) (pubkey : string) (rawRoute : RawRoute) : outcome error PaymentFlow :=
  let a := lc_amounts state in
  bindo (WalletPriceRatio (usdPaymentAmount a) (btcPaymentAmount a)) (fun priceRatio =>
  bindo (feeFromRawRoute rawRoute) (fun btcFee =>
  paymentFromState state
    (mkAmounts (btcPaymentAmount a) (usdPaymentAmount a) btcFee (convertFromBtcToCeil priceRatio btcFee))
    (Some pubkey) (Some rawRoute))).

Definition lpfb_isIntraLedger (state : LPFBWithConversion) : bool :=
  bool_decide (lb_settlementMethod (lc_base state) = SettleIntraLedger).

Definition isTradeIntraAccount (state : LPFBWithConversion) : bool :=
  bool_decide (Some (d_account (lc_sender state)) = recipientAccountId (lc_recipient state)) &&
  negb (bool_decide (Some (d_currency (lc_sender state)) = recipientWalletCurrency (lc_recipient state))).

(** ** Whole runs of the builder *)

Inductive payment_source :=
| FromInvoice (invoice : Invoice)
| FromNoAmountInvoice (invoice : Invoice) (uncheckedAmount : js_float)
| FromAmount (uncheckedAmount : js_float) (description hash : string).

Definition start_flow (config : BuilderConfig) (src : payment_source) : outcome error LPFBWithInvoice :=
  match src with
  | FromInvoice invoice => withInvoice config invoice
  | FromNoAmountInvoice invoice a => withNoAmountInvoice config invoice a
  | FromAmount a description hash => withoutInvoice config a description hash
  end.

(** The chain of calls of [constructPaymentFlowBuilder]. *)
Definition build (config : BuilderConfig) (src : payment_source) (sender : WalletDescriptor)
    (recipient : option RecipientArgs) (hedgeBuyUsd hedgeSellUsd mid : ConversionFns) (now : Z) :
    outcome error LPFBWithConversion :=
  bindo (start_flow config src) (fun i =>
  bindo (withSenderWallet i sender) (fun s =>
  bindo (match recipient with None => withoutRecipientWallet s | Some args => withRecipientWallet s args end)
    (fun r => withConversion r hedgeBuyUsd hedgeSellUsd mid now))).

(** ** Well-formed states *)

Definition pos_in (c : WalletCurrency) (a : PaymentAmount) : Prop := pay_currency a = c /\ 0 < amount a.
Definition nonneg_in (c : WalletCurrency) (a : PaymentAmount) : Prop := pay_currency a = c /\ 0 <= amount a.
Definition opt_all {A} (P : A -> Prop) (o : option A) : Prop := match o with Some a => P a | None => True end.

Definition amounts_ok (a : AmountsAndFees) : Prop :=
  pos_in Btc (btcPaymentAmount a) /\ pos_in Usd (usdPaymentAmount a) /\
  nonneg_in Btc (btcProtocolAndBankFee a) /\ nonneg_in Usd (usdProtocolAndBankFee a).

Definition known_ok (a : LpfbAmounts) : Prop :=
  opt_all (pos_in Btc) (la_btcPaymentAmount a) /\ opt_all (pos_in Usd) (la_usdPaymentAmount a) /\
  opt_all (nonneg_in Btc) (la_btcProtocolAndBankFee a) /\ opt_all (nonneg_in Usd) (la_usdProtocolAndBankFee a).

(** A flow within the books pays no fee. *)
Definition no_fees (a : LpfbAmounts) : Prop :=
  la_btcProtocolAndBankFee a = Some ZERO_SATS /\ la_usdProtocolAndBankFee a = Some ZERO_CENTS.

Definition source_ok (src : payment_source) : Prop :=
  match src with
  | FromInvoice iv => opt_all (pos_in Btc) (iv_paymentAmount iv) /\ iv_paymentHash iv <> ""
  | FromNoAmountInvoice iv _ => iv_paymentHash iv <> ""
  | FromAmount _ _ hash => hash <> ""
  end.

(** What the price services document: an answer is in the asked currency and
    not negative. *)
Definition prices_ok (f : ConversionFns) : Prop :=
  (forall a u, usdFromBtc f a = Ok u -> nonneg_in Usd u) /\ (forall a b, btcFromUsd f a = Ok b -> nonneg_in Btc b).

Lemma num_isInteger_pos x : num_isInteger x = true -> num_ltb (num_of_Z 0) x = true -> 0 < num_to_Z x.
Proof.
  intros Hi Hp. apply num_ltb_val in Hp. rewrite num_of_Z_value in Hp.
  unfold num_isInteger, num_to_Z, num_val in *. destruct (Z.leb_spec 0 (expo x)) as [He|He].
  - rewrite <- two_pow_Z, <- QArith_base.inject_Z_mult, <- QArith_base.Zlt_Qlt in Hp by done. done.
  - apply Z.eqb_eq in Hi. assert (0 < 2 ^ (- expo x)) by (apply Z.pow_pos_nonneg; lia).
    assert (0 < mant x).
    { destruct (Z.lt_ge_cases 0 (mant x)) as [|Hm]; [done|exfalso].
      pose proof (two_pow_pos (expo x)) as Ht. rewrite QArith_base.Zle_Qle in Hm.
      change (QArith_base.inject_Z 0) with (QArith_base.Qmake 0 1) in *.
      set (q := QArith_base.inject_Z (mant x)) in *. set (t := QArith_base.Qpower _ _) in *. Lqa.nra. }
    pose proof (Z.div_mod (mant x) (2 ^ (- expo x)) ltac:(lia)). nia.
Qed.

Lemma checked_amount_Ok x limit c1 c2 c a : checked_amount (Some x) limit c1 c2 c = Ok a -> pos_in c a.
Proof.
  unfold checked_amount. do 3 (case_match; [done|]). intros Ha.
  unfold paymentAmountFromNumber, safeBigInt in Ha. destruct x as [x| |]; try done.
  destruct (num_isInteger x) eqn:Hi; [|done]. injection Ha as <-.
  split; [done|]. cbn [amount]. apply num_isInteger_pos; [done|].
  match goal with Hn : negb _ = false |- _ => apply negb_false_iff, andb_true_iff in Hn as [_ ?]; done end.
Qed.

(** ** Each step keeps the amounts well formed *)

Lemma start_flow_ok config src i : source_ok src -> start_flow config src = Ok i ->
  known_ok (li_amounts i) /\
  (lb_settlementMethod (li_base i) = SettleIntraLedger -> no_fees (li_amounts i)) /\
  one_hash (lb_paymentHash (li_base i)) (lb_intraLedgerHash (li_base i)) (new_error0 InvalidLightningPaymentFlowStateError)
    = Ok (lb_paymentHash (li_base i), lb_intraLedgerHash (li_base i)).
Proof.
  assert (forall h : string, h <> "" -> nonempty h = true) as Hh by (intros []; done).
  assert (forall d m bf uf, settlementMethodFromDestination config d = (m, bf, uf) ->
    (bf, uf) = (None, None) /\ m <> SettleIntraLedger \/ (bf, uf) = (Some ZERO_SATS, Some ZERO_CENTS)) as Hm.
  { intros d m bf uf. unfold settlementMethodFromDestination. case_decide; intros [= <- <- <-]; auto. }
  unfold start_flow, withInvoice, withNoAmountInvoice, withoutInvoice. intros Hs H.
  destruct src as [iv|iv x|x d h]; simpl in Hs; [destruct Hs as [Ha Hs]; destruct (iv_paymentAmount iv); [|done]| |];
    destruct (settlementMethodFromDestination config _) as [[m bf] uf] eqn:E; apply Hm in E;
    [apply bindo_Ok in H as (skip & _ & H)..|]; injection H as <-;
    unfold one_hash, truthy_text; simpl; rewrite Hh by done; destruct E as [[[= -> ->] ?]|[= -> ->]];
    (split; [unfold known_ok; simpl; split_and!; try done; by split|]); (split; [|done]); intros Hi; done.
Qed.

Lemma fee_or_max_ok c fee a : opt_all (nonneg_in c) fee -> pos_in c a -> nonneg_in c (fee_or_max fee a).
Proof.
  intros Hf [Hc Ha]. destruct fee as [f|]; [done|]. split.
  - simpl. by rewrite maxProtocolAndBankFee_currency.
  - apply maxProtocolAndBankFee_nonneg. lia.
Qed.

Lemma withSenderWallet_ok i sender s : known_ok (li_amounts i) -> withSenderWallet i sender = Ok s ->
  known_ok (ls_amounts s) /\ ls_base s = li_base i /\ ls_sender s = sender /\
  (no_fees (li_amounts i) -> no_fees (ls_amounts s)).
Proof.
  intros (Hb & Hu & Hbf & Huf) H. unfold withSenderWallet in H.
  destruct (lb_uncheckedAmount (li_base i)) as [x|] eqn:Ex.
  - case_decide; apply bindo_Ok in H as (a & Ha & [= <-]); apply checked_amount_Ok in Ha;
      (split; [split_and!; simpl; auto using fee_or_max_ok|]); split_and!; try done;
      intros [E1 E2]; split; simpl; by rewrite ?E1, ?E2.
  - destruct (la_inputAmount (li_amounts i)) as [n|], (la_btcPaymentAmount (li_amounts i)) as [b|] eqn:Eb; try done.
    destruct (Z.eqb_spec n 0); [done|]. injection H as <-.
    split; [split_and!; simpl; auto using fee_or_max_ok|]. split_and!; try done.
    intros [E1 E2]; split; simpl; by rewrite ?E1, ?E2.
Qed.

Definition step_recipient (s : LPFBWithSenderWallet) (recipient : option RecipientArgs) :
    outcome error LPFBWithRecipientWallet :=
  match recipient with None => withoutRecipientWallet s | Some args => withRecipientWallet s args end.

Definition recipient_args_ok (recipient : option RecipientArgs) : Prop :=
  opt_all (fun args => opt_all (pos_in Usd) (ra_usdPaymentAmount args)) recipient.

Lemma step_recipient_ok s recipient r : known_ok (ls_amounts s) -> recipient_args_ok recipient ->
  step_recipient s recipient = Ok r ->
  known_ok (lr_amounts r) /\ lr_base r = ls_base s /\ lr_sender r = ls_sender s /\
  (no_fees (ls_amounts s) -> no_fees (lr_amounts r)) /\
  recipientWalletId (lr_recipient r) <> Some (d_wallet (ls_sender s)).
Proof.
  intros (Hb & Hu & Hbf & Huf) Hr H. destruct recipient as [args|]; simpl in *.
  - unfold withRecipientWallet in H. destruct (String.eqb_spec (d_wallet (ra_descriptor args)) (d_wallet (ls_sender s)));
      [done|]. case_match; [done|]. injection H as <-.
    split; [split_and!; simpl; try done; by destruct (ra_usdPaymentAmount args)|].
    split_and!; try done. simpl. by intros [= E].
  - unfold withoutRecipientWallet in H. case_decide; [done|]. injection H as <-. done.
Qed.

(** ** The conversion *)

Section ConversionFacts.
Context (state : LPFBWithRecipientWallet) (hedgeBuyUsd hedgeSellUsd mid : ConversionFns) (now : Z).
Context (Hbuy : prices_ok hedgeBuyUsd) (Hsell : prices_ok hedgeSellUsd) (Hmid : prices_ok mid).

(** What a converted state keeps of the state it comes from. *)
Definition conversion_of (c : LPFBWithConversion) : Prop :=
  amounts_ok (lc_amounts c) /\ lc_base c = lr_base state /\ lc_sender c = lr_sender state /\
  (no_fees (lr_amounts state) -> amount (btcProtocolAndBankFee (lc_amounts c)) = 0 /\
     amount (usdProtocolAndBankFee (lc_amounts c)) = 0) /\
  (recipientWalletId (lr_recipient state) <> Some (d_wallet (lr_sender state)) ->
   recipientWalletId (lc_recipient c) <> Some (d_wallet (lr_sender state))).

Lemma ratio_pos_of usd btc r : WalletPriceRatio usd btc = Ok r -> nonneg_in Usd usd -> nonneg_in Btc btc ->
  ratio_pos r /\ pos_in Usd usd /\ pos_in Btc btc /\ ratio_other r = amount usd /\ ratio_wallet r = btc.
Proof.
  intros H [Hu Hu'] [Hb Hb']. apply PriceRatio_new_Ok in H as (-> & ? & ?).
  unfold ratio_pos, pos_in. simpl. repeat split; try done; lia.
Qed.

Lemma stateFromBtc_ok f recipient btc btcFee c :
  (forall a u, f a = Ok u -> nonneg_in Usd u) -> pos_in Btc btc -> nonneg_in Btc btcFee ->
  (no_fees (lr_amounts state) -> btcFee = ZERO_SATS) ->
  (recipientWalletId (lr_recipient state) <> Some (d_wallet (lr_sender state)) ->
   recipientWalletId recipient <> Some (d_wallet (lr_sender state))) ->
  stateFromBtc state now f recipient btc btcFee = Ok c -> conversion_of c.
Proof.
  intros Hf Hb [Hc Hfee] Hz Hs H. apply bindo_Ok in H as (u & Hu & H). apply bindo_Ok in H as (r & Hr & [= <-]).
  destruct (ratio_pos_of _ _ _ Hr (Hf _ _ Hu) (conj (proj1 Hb) (Z.lt_le_incl _ _ (proj2 Hb)))) as (Hp & Hu' & _).
  split; [split_and!; simpl; try done; split; [done|by apply convertFromBtcToCeil_nonneg]|].
  split_and!; try done. intros Hn. rewrite (Hz Hn). split; [done|]. by apply convertFromBtcToCeil_zero.
Qed.

Lemma stateFromUsd_ok f usd usdFee c :
  (forall a b, f a = Ok b -> nonneg_in Btc b) -> pos_in Usd usd -> nonneg_in Usd usdFee ->
  (no_fees (lr_amounts state) -> usdFee = ZERO_CENTS) ->
  stateFromUsd state now f usd usdFee = Ok c -> conversion_of c.
Proof.
  intros Hf Hu [Hc Hfee] Hz H. apply bindo_Ok in H as (b & Hb & H). apply bindo_Ok in H as (r & Hr & [= <-]).
  destruct (ratio_pos_of _ _ _ Hr (conj (proj1 Hu) (Z.lt_le_incl _ _ (proj2 Hu))) (Hf _ _ Hb))
    as (Hp & _ & Hb' & E1 & E2).
  assert (nonneg_in Btc (convertFromUsd r usdFee)) as Hn.
  { split; [unfold convertFromUsd, convertFromOther; rewrite E2; case_match; by destruct Hb'|].
    destruct (Z.eq_dec (amount usdFee) 0) as [E|]; [unfold convertFromUsd, convertFromOther; by rewrite E|].
    destruct (convertFromUsd_spec r Hp usdFee ltac:(lia)). lia. }
  split; [by split_and!|]. split_and!; try done. intros Hn0. by rewrite (Hz Hn0).
Qed.

(** The amounts a payment fixed in sats starts from. *)
Definition btc_known (b bf : PaymentAmount) : Prop :=
  pos_in Btc b /\ nonneg_in Btc bf /\ (no_fees (lr_amounts state) -> bf = ZERO_SATS).
Definition usd_known (u uf : PaymentAmount) : Prop :=
  pos_in Usd u /\ nonneg_in Usd uf /\ (no_fees (lr_amounts state) -> uf = ZERO_CENTS).

Lemma fallback_ok b bf c : btc_known b bf ->
  updatedStateFromBtcPaymentAmountDealerFallbackMid state hedgeBuyUsd hedgeSellUsd mid now b bf = Ok c ->
  conversion_of c.
Proof.
  intros (Hb & Hbf & Hz) H. unfold updatedStateFromBtcPaymentAmountDealerFallbackMid in H.
  destruct (updatedStateFromBtcPaymentAmountDealer _ _ _ _ b bf) as [c'|e|e] eqn:E; [|case_decide; [|done]|done].
  - injection H as <-. eapply stateFromBtc_ok; [|done..|exact E].
    destruct (sender_is_btc state); [apply Hbuy|apply Hsell].
  - case_match; [|done]. destruct (String.eqb_spec (d_wallet w) (d_wallet (lr_sender state))); [done|].
    eapply stateFromBtc_ok; [apply Hmid|done..| |exact H]. intros _ [= ?]. done.
Qed.

Lemma all_present_ok b bf u uf : btc_known b bf -> usd_known u uf ->
  conversion_of (converted state now (lr_recipient state) (mkAmounts b u bf uf)).
Proof.
  intros (?&?&Hz) (?&?&Hz'). split; [by split_and!|]. split_and!; try done. intros Hn. by rewrite Hz, Hz'.
Qed.

Lemma withConversion_ok c : known_ok (lr_amounts state) ->
  withConversion state hedgeBuyUsd hedgeSellUsd mid now = Ok c -> conversion_of c.
Proof.
  intros (Hb & Hu & Hbf & Huf) H.
  assert (forall b bf, la_btcPaymentAmount (lr_amounts state) = Some b ->
    la_btcProtocolAndBankFee (lr_amounts state) = Some bf -> btc_known b bf) as HB.
  { intros b bf E1 E2. rewrite E1, E2 in *. split_and!; [done..|]. intros [E _]. congruence. }
  assert (forall u uf, la_usdPaymentAmount (lr_amounts state) = Some u ->
    la_usdProtocolAndBankFee (lr_amounts state) = Some uf -> usd_known u uf) as HU.
  { intros u uf E1 E2. rewrite E1, E2 in *. split_and!; [done..|]. intros [_ E]. congruence. }
  clear Hb Hu Hbf Huf. unfold withConversion in H.
  destruct (la_btcPaymentAmount (lr_amounts state)) as [b|], (la_btcProtocolAndBankFee (lr_amounts state)) as [bf|],
    (la_usdPaymentAmount (lr_amounts state)) as [u|], (la_usdProtocolAndBankFee (lr_amounts state)) as [uf|];
    destruct (noConversionRequired state); try done;
    try (specialize (HB _ _ eq_refl eq_refl)); try (specialize (HU _ _ eq_refl eq_refl));
    try (case_bool_decide); try (injection H as <-; by apply all_present_ok); try (by eapply fallback_ok).
  all: first
    [ by destruct HB as (?&?&?); eapply stateFromBtc_ok; [apply Hmid|done..|exact H]
    | destruct HU as (?&?&?); eapply stateFromUsd_ok; [|done..|exact H];
      unfold sender_is_btc; try case_bool_decide; (apply Hmid || apply Hbuy || apply Hsell) ].
Qed.
End ConversionFacts.

(** ** What a finished flow promises *)

Definition flow_sound (f : PaymentFlow) : Prop :=
  let s := pf_common f in
  amounts_ok (fc_amounts s) /\
  recipientWalletId (fc_recipient s) <> Some (d_wallet (fc_sender s)) /\
  (is_ok (paymentHashForFlow f) = true \/ is_ok (intraLedgerHashForFlow f) = true).

Lemma one_hash_flow e ph ih h desc skip common : one_hash ph ih e = Ok h ->
  let f := mkFlow h.1 h.2 desc skip common in
  is_ok (paymentHashForFlow f) = true \/ is_ok (intraLedgerHashForFlow f) = true.
Proof.
  unfold one_hash, paymentHashForFlow, intraLedgerHashForFlow, is_set. intros H.
  assert (forall t u, truthy_text t = Some u -> truthy_text (Some u) = Some u) as Ht.
  { intros [[|]|] u; simpl; naive_solver. }
  destruct (truthy_text ph) as [t|] eqn:E; [|destruct (truthy_text ih) as [t|] eqn:E'; [|done]];
    injection H as <-; cbn [pf_paymentHash pf_intraLedgerHash fst snd].
  - left. by rewrite (Ht _ _ E).
  - right. by rewrite (Ht _ _ E').
Qed.

Lemma build_ok config src sender recipient hb hs mid now c :
  source_ok src -> recipient_args_ok recipient -> prices_ok hb -> prices_ok hs -> prices_ok mid ->
  build config src sender recipient hb hs mid now = Ok c ->
  amounts_ok (lc_amounts c) /\ lc_sender c = sender /\ recipientWalletId (lc_recipient c) <> Some (d_wallet sender) /\
  (lb_settlementMethod (lc_base c) = SettleIntraLedger ->
   amount (btcProtocolAndBankFee (lc_amounts c)) = 0 /\ amount (usdProtocolAndBankFee (lc_amounts c)) = 0).
Proof.
  intros Hs Hr Hb Hse Hm H. apply bindo_Ok in H as (i & Hi & H). apply bindo_Ok in H as (s & Hse' & H).
  apply bindo_Ok in H as (r & Hr' & H).
  destruct (start_flow_ok _ _ _ Hs Hi) as (K1 & F1 & _).
  destruct (withSenderWallet_ok _ _ _ K1 Hse') as (K2 & B2 & S2 & F2).
  destruct (step_recipient_ok _ _ _ K2 Hr Hr') as (K3 & B3 & S3 & F3 & N3).
  destruct (withConversion_ok _ _ _ _ _ Hb Hse Hm _ K3 H) as (K4 & B4 & S4 & F4 & N4).
  rewrite S3, S2 in *. split_and!; [done|done|by apply N4|].
  rewrite B4, B3, B2. auto.
Qed.


(** ** The fee of a payment without a route *)

Definition no_amount (src : payment_source) : bool := match src with FromInvoice _ => false | _ => true end.

(** The amounts and the sender of a lightning payment before its conversion:
    one side is known, and the fee is the cap on that side. *)
Lemma lightning_known config src sender hb hs mid now c :
  build config src sender None hb hs mid now = Ok c ->
  exists state, withConversion state hb hs mid now = Ok c /\ lr_sender state = sender /\
    lr_recipient state = no_recipient /\ lr_walletsForAccount state = None /\
    lb_settlementMethod (lr_base state) = SettleLightning /\
    exists a, if no_amount src && negb (bool_decide (d_currency sender = Btc))
      then (la_btcPaymentAmount (lr_amounts state), la_usdPaymentAmount (lr_amounts state),
            la_usdProtocolAndBankFee (lr_amounts state)) = (None, Some a, Some (maxProtocolAndBankFee a))
      else (la_btcPaymentAmount (lr_amounts state), la_btcProtocolAndBankFee (lr_amounts state),
            la_usdPaymentAmount (lr_amounts state)) = (Some a, Some (maxProtocolAndBankFee a), None).
Proof.
  intros H. apply bindo_Ok in H as (i & Hi & H). apply bindo_Ok in H as (s & Hs & H).
  apply bindo_Ok in H as (r & Hr & H). unfold withoutRecipientWallet in Hr. case_decide as Hm; [done|].
  injection Hr as <-. eexists. split; [done|]. simpl.
  assert (forall d m bf uf, settlementMethodFromDestination config d = (m, bf, uf) -> m <> SettleIntraLedger ->
    m = SettleLightning /\ bf = None /\ uf = None) as HM.
  { intros d m bf uf. unfold settlementMethodFromDestination.
    destruct d as [d|]; [case_bool_decide|]; case_decide; intros [= <- <- <-]; naive_solver. }
  unfold start_flow, withInvoice, withNoAmountInvoice, withoutInvoice in Hi.
  destruct src as [iv|iv x|x d h]; simpl; [destruct (iv_paymentAmount iv) as [a|]; [|done]| |];
    destruct (settlementMethodFromDestination config _) as [[m bf] uf] eqn:E;
    [apply bindo_Ok in Hi as (skip & _ & Hi)..|]; injection Hi as <-; unfold withSenderWallet in Hs; simpl in *.
  - destruct (Z.eqb_spec (amount a) 0); [done|]. injection Hs as <-. simpl in *.
    destruct (HM _ _ _ _ E Hm) as (-> & -> & ->). split_and!; try done. by exists a.
  - case_decide as Hc; apply bindo_Ok in Hs as (a & Ha & [= <-]); simpl in *;
      destruct (HM _ _ _ _ E Hm) as (-> & -> & ->); split_and!; try done;
      exists a; by case_bool_decide.
  - unfold settlementMethodFromDestination in E. simpl in E. injection E as <- <- <-.
    case_decide; apply bindo_Ok in Hs as (a & Ha & [= <-]); done.
Qed.

(** The fees of a converted lightning payment: the cap on the side the payment
    was fixed in, converted to the other side. *)
Lemma lightning_fees config src sender hb hs mid now c :
  build config src sender None hb hs mid now = Ok c ->
  let a := lc_amounts c in
  exists r, WalletPriceRatio (usdPaymentAmount a) (btcPaymentAmount a) = Ok r /\
    if no_amount src && negb (bool_decide (d_currency sender = Btc))
    then usdProtocolAndBankFee a = maxProtocolAndBankFee (usdPaymentAmount a) /\
         btcProtocolAndBankFee a = convertFromUsd r (usdProtocolAndBankFee a)
    else btcProtocolAndBankFee a = maxProtocolAndBankFee (btcPaymentAmount a) /\
         usdProtocolAndBankFee a = convertFromBtcToCeil r (btcProtocolAndBankFee a).
Proof.
  intros H a. apply lightning_known in H as (state & H & Hs & Hr & Hw & Hm & x & Hx).
  unfold withConversion, noConversionRequired, sender_is_btc in H. rewrite Hs, Hr, Hm in H. simpl in H.
  rewrite andb_true_r, orb_false_r in H.
  destruct (no_amount src && negb (bool_decide (d_currency sender = Btc))) eqn:En;
    injection Hx as E1 E2 E3; rewrite E1, E2, E3 in H.
  - apply andb_true_iff in En as [_ En]. apply negb_true_iff in En. rewrite En in H.
    apply bindo_Ok in H as (b & Hb & H). apply bindo_Ok in H as (r & Hr' & [= <-]). by exists r.
  - assert (exists f, stateFromBtc state now f (lr_recipient state) x (maxProtocolAndBankFee x) = Ok c) as [f Hf].
    { destruct (bool_decide (d_currency sender = Btc)); [by eexists|].
      unfold updatedStateFromBtcPaymentAmountDealerFallbackMid in H. rewrite Hw in H. simpl in H.
      destruct (updatedStateFromBtcPaymentAmountDealer _ _ _ _ _ _) as [c'|e|e] eqn:E; [|by case_decide|done].
      injection H as <-. by eexists. }
    apply bindo_Ok in Hf as (u & Hu & Hf). apply bindo_Ok in Hf as (r & Hr' & [= <-]). by exists r.
Qed.

(** The fee check before a payment without a route accepts the fee the builder
    prepaid, for every sender of the two currencies it was written for. *)
Theorem routeless_fee_accepted (config : BuilderConfig) (src : payment_source) (sender : WalletDescriptor)
    (hedgeBuyUsd hedgeSellUsd mid : ConversionFns) (now : Z) (c : LPFBWithConversion) :
  build config src sender None hedgeBuyUsd hedgeSellUsd mid now = Ok c ->
  d_currency sender = Btc \/ d_currency sender = Usd ->
  let a := lc_amounts c in
  exists r, WalletPriceRatio (usdPaymentAmount a) (btcPaymentAmount a) = Ok r /\
    verifyMaxFee (btcProtocolAndBankFee a) (btcPaymentAmount a) (usdPaymentAmount a) r (d_currency sender)
      (no_amount src) = Ok tt.
Proof.
  intros H Hc a. destruct (lightning_fees _ _ _ _ _ _ _ _ H) as (r & Hr & Hf). exists r. split; [done|].
  fold a in Hf. unfold verifyMaxFee.
  match goal with |- (if ?t then _ else _) = _ => assert (t = false) as ->; [|done] end.
  apply andb_false_iff. right. apply Z.ltb_ge. destruct Hc as [Hc|Hc]; rewrite Hc in *; simpl in *.
  - rewrite andb_false_r in Hf. destruct Hf as [-> _]. done.
  - rewrite andb_true_r in Hf. destruct (no_amount src); destruct Hf as [E1 E2].
    + rewrite E2, E1. done.
    + rewrite E1. set (x := convertFromUsd r _).
      destruct (Z.ltb_spec (amount x) (amount (maxProtocolAndBankFee (btcPaymentAmount a)))); lia.
Qed.

(** What is given back of the prepaid fee never exceeds it, in either currency,
    when the actual fee is not negative; a fee prepaid in cents needs a sat to
    be worth no more than a cent. *)
Theorem reimbursement_within_fee (config : BuilderConfig) (src : payment_source) (sender : WalletDescriptor)
    (hedgeBuyUsd hedgeSellUsd mid : ConversionFns) (now : Z) (c : LPFBWithConversion) (r : PriceRatio)
    (actualFee b u : PaymentAmount) :
  source_ok src -> prices_ok hedgeBuyUsd -> prices_ok hedgeSellUsd -> prices_ok mid ->
  build config src sender None hedgeBuyUsd hedgeSellUsd mid now = Ok c ->
  let a := lc_amounts c in
  WalletPriceRatio (usdPaymentAmount a) (btcPaymentAmount a) = Ok r ->
  0 <= amount actualFee -> getReimbursement (btcProtocolAndBankFee a) r actualFee = Ok (b, u) ->
  amount b + amount actualFee = amount (btcProtocolAndBankFee a) /\ 0 <= amount b /\
  (amount (usdPaymentAmount a) <= amount (btcPaymentAmount a) -> 0 <= amount u <= amount (usdProtocolAndBankFee a)).
Proof.
  intros Hs Hb Hse Hm H a Hr Hact Hre.
  destruct (build_ok _ _ _ None _ _ _ _ _ Hs I Hb Hse Hm H) as ((Hbp & Hup & _) & _).
  destruct (lightning_fees _ _ _ _ _ _ _ _ H) as (r' & Hr' & Hf). fold a in Hr', Hf, Hbp, Hup.
  assert (r' = r) as -> by congruence.
  destruct (ratio_pos_of _ _ _ Hr) as (Hp & _ & _ & E1 & E2); [by destruct Hup; split; [|lia]|by destruct Hbp; split; [|lia]|].
  destruct (getReimbursement_Ok _ _ _ _ _ Hre) as (-> & Hle & _). split; [simpl; lia|]. split; [simpl; lia|].
  intros Hprice. destruct (no_amount src && _); destruct Hf as [F1 F2].
  - rewrite F2 in Hre. apply reimbursement_from_cents in Hre; [done|done|by rewrite E1, E2| |done].
    rewrite F1. apply maxProtocolAndBankFee_spec. by destruct Hup.
  - rewrite F2. by apply reimbursement_from_sats in Hre as [? _].
Qed.

(** ** A USDT sender

    The check compares a USDT sender's fee, prepaid in cents, with the cap in
    sats: a payment of 3.50 dollars at 30 sats a cent is refused. *)
Definition flat_price : ConversionFns :=
  mkConversions (fun a => Ok (cents (amount a / 30))) (fun a => Ok (sats (amount a * 30))).

Theorem usdt_fee_refused :
  exists c r, build (mkBuilderConfig [] [] []) (FromNoAmountInvoice (mkLnInvoice "node" "hash" "" None [] "lnbc" "secret" None) (Fin (num_of_Z 350)))
      (mkDescriptor "w" Usdt "a") None flat_price flat_price flat_price 0 = Ok c /\
    WalletPriceRatio (usdPaymentAmount (lc_amounts c)) (btcPaymentAmount (lc_amounts c)) = Ok r /\
    is_ok (verifyMaxFee (btcProtocolAndBankFee (lc_amounts c)) (btcPaymentAmount (lc_amounts c))
      (usdPaymentAmount (lc_amounts c)) r Usdt true) = false.
Proof. eexists _, _. split_and!; [vm_compute; reflexivity..]. Qed.
