(* ===== verification/OnChainFlow.v ===== *)
(** * The on-chain payment builder

    Model of [OnChainPaymentFlowBuilder]
    ([src/src/domain/payments/onchain-payment-flow-builder.ts]) with the
    imbalance of a wallet ([src/src/domain/ledger/imbalance-calculator.ts]):
    an address, a sender, a recipient and an amount become a priced payment
    with its miner and bank fees. The price services, the volumes of the ledger
    and the test for an outside address are parameters. *)

From stdpp Require Import base list strings.
From Stdlib Require Import ZArith Lia Ascii.
From S2P Require Import Prelude JsStrings JsNumbers JsDecimals Errors MoneyAmounts PaymentAmounts PaymentFlows.
From S2P Require Import LightningFlow.

Close Scope Q_scope.
Open Scope Z_scope.

(** ** The imbalance of a wallet *)

Inductive WithdrawalFeePriceMethod := MethodFlat | MethodProportionalOnImbalance.
#[global] Instance WithdrawalFeePriceMethod_eq_dec : EqDecision WithdrawalFeePriceMethod.
Proof. solve_decision. Defined.

(** A [GetVolumeSinceFn] answers the incoming and the outgoing amount. *)
Definition VolumeFn : Type := string -> Z -> outcome error (js_float * js_float).

Definition MS_PER_DAY : Z := 24 * (60 * 60 * 1000).

Definition getNetInboundFlow (volumeFn : VolumeFn) (wallet : WalletDescriptor) (since : Z) : outcome error js_float :=
  outcome_map (fun v => fl_sub v.1 v.2) (volumeFn (d_wallet wallet) since).

Definition getSwapOutImbalanceAmount (method : WithdrawalFeePriceMethod) (volumeLightningFn volumeOnChainFn : VolumeFn)
    (sinceDaysAgo now : Z) (wallet : WalletDescriptor) : outcome error PaymentAmount :=
  let since := now - sinceDaysAgo * MS_PER_DAY in
  if decide (method = MethodFlat) then paymentAmountFromNumber (Fin (num_of_Z 0)) (d_currency wallet)
  else
    bindo (getNetInboundFlow volumeLightningFn wallet since) (fun lnNetInbound =>
    bindo (getNetInboundFlow volumeOnChainFn wallet since) (fun onChainNetInbound =>
    paymentAmountFromNumber (fl_sub lnNetInbound onChainNetInbound) (d_currency wallet))).

(** ** Configuration and states *)

(** [getFeesConfig()], the withdrawal part *)
Record FeesConfig := mkFees {
  withdrawMethod : WithdrawalFeePriceMethod;
  withdrawDefaultMin : js_float;
  withdrawDaysLookback : Z;
  withdrawThreshold : Z;
  withdrawRatioAsBasisPoints : Z
}.

(** [OnChainPaymentFlowBuilderConfig] *)
Record OnChainConfig := mkOnChainConfig {
  oc_volumeLightningFn : VolumeFn;
  oc_volumeOnChainFn : VolumeFn;
  oc_isExternalAddress : string -> bool;
  oc_sendAll : bool;
  oc_dustThreshold : Z
}.

(** [OPFBWithAddress], with the sender of [withSenderWalletAndAccount] *)
Record OPFBWithSender := mkOSender {
  os_config : OnChainConfig; os_address : string; os_sender : WalletDescriptor; os_senderWithdrawFee : js_float }.

Record OPFBWithRecipientWallet := mkORecipient {
  or_sender : OPFBWithSender; or_settlementMethod : SettlementMethod; or_recipient : Recipient;
  or_walletsForAccount : option (list WalletDescriptor) }.

Record OPFBWithAmount := mkOAmount {
  oa_state : OPFBWithRecipientWallet; oa_inputAmount : Z;
  oa_btcProposedAmount : option PaymentAmount; oa_usdProposedAmount : option PaymentAmount }.

Record OPFBWithConversion := mkOConversion {
  ov_sender : OPFBWithSender; ov_settlementMethod : SettlementMethod; ov_recipient : Recipient;
  ov_inputAmount : Z; ov_createdAt : Z; ov_btcProposedAmount : PaymentAmount; ov_usdProposedAmount : PaymentAmount }.

Definition withSenderWalletAndAccount (config : OnChainConfig) (address : string) (wallet : WalletDescriptor)
    (withdrawFee : js_float) : OPFBWithSender := mkOSender config address wallet withdrawFee.

Definition opfb_withoutRecipientWallet (state : OPFBWithSender) : OPFBWithRecipientWallet :=
  mkORecipient state SettleOnChain no_recipient None.

Definition opfb_withRecipientWallet (state : OPFBWithSender) (args : RecipientArgs) :
    outcome error OPFBWithRecipientWallet :=
  let r := ra_descriptor args in
  if String.eqb (d_wallet r) (d_wallet (os_sender state)) then Err (new_error0 SelfPaymentError)
  else Ok (mkORecipient state SettleIntraLedger
    (mkRecipient (Some (d_wallet r)) (Some (d_currency r)) (Some (d_account r)) None (ra_username args)
       (Some (ra_userId args)))
    (Some (ra_walletsForAccount args))).

Definition withAmount (state : OPFBWithRecipientWallet) (a : PaymentAmount) : OPFBWithAmount :=
  if decide (pay_currency a = Btc) then mkOAmount state (amount a) (Some a) None
  else mkOAmount state (amount a) None (Some a).

(** ** The conversion *)

Section Conversion.
Context (state : OPFBWithAmount) (hedgeBuyUsd hedgeSellUsd mid : ConversionFns) (now : Z).
Abbreviation rec_state := (oa_state state).
Abbreviation sender := (os_sender (or_sender (oa_state state))).

Definition o_sender_is_btc : bool := bool_decide (d_currency sender = Btc).

Definition o_converted (recipient : Recipient) (btc usd : PaymentAmount) : OPFBWithConversion :=
  mkOConversion (or_sender rec_state) (or_settlementMethod rec_state) recipient (oa_inputAmount state) now btc usd.

(** A mid price below a cent counts as a cent. *)
Definition updatedStateFromBtcProposedAmountMid (btc : PaymentAmount) (descriptor : option WalletDescriptor) :
    outcome error OPFBWithConversion :=
  bindo (usdFromBtc mid btc) (fun convertedAmountRaw =>
  let convertedAmount := if (0 <? amount btc) && (amount convertedAmountRaw =? 0) then ONE_CENT
    else convertedAmountRaw in
  bindo (WalletPriceRatio convertedAmount btc) (fun _ =>
  let r := or_recipient rec_state in
  Ok (o_converted
    (match descriptor with
     | Some w => mkRecipient (Some (d_wallet w)) (Some (d_currency w)) (recipientAccountId r) (recipientPubkey r)
                   (recipientUsername r) (recipientUserId r)
     | None => r
     end) btc convertedAmount))).

Definition stateFromUsdProposedAmount (btcFromUsd : PaymentAmount -> outcome error PaymentAmount)
    (usd : PaymentAmount) : outcome error OPFBWithConversion :=
  bindo (btcFromUsd usd) (fun convertedAmount =>
  bindo (WalletPriceRatio usd convertedAmount) (fun _ =>
  Ok (o_converted (or_recipient rec_state) convertedAmount usd))).

Definition updatedStateFromUsdProposedAmountMid : PaymentAmount -> outcome error OPFBWithConversion :=
  stateFromUsdProposedAmount (btcFromUsd mid).

Definition updatedStateFromUsdProposedAmountDealer : PaymentAmount -> outcome error OPFBWithConversion :=
  stateFromUsdProposedAmount (if o_sender_is_btc then btcFromUsd hedgeBuyUsd else btcFromUsd hedgeSellUsd).

Definition updatedStateFromBtcProposedAmountDealer (btc : PaymentAmount) : outcome error OPFBWithConversion :=
  bindo ((if o_sender_is_btc then usdFromBtc hedgeBuyUsd else usdFromBtc hedgeSellUsd) btc) (fun convertedAmount =>
  bindo (WalletPriceRatio convertedAmount btc) (fun _ =>
  Ok (o_converted (or_recipient rec_state) btc convertedAmount))).

Definition updatedStateFromBtcProposedAmountDealerFallbackMid (btc : PaymentAmount) : outcome error OPFBWithConversion :=
  match updatedStateFromBtcProposedAmountDealer btc with
  | Err e =>
      if decide (err_class e = InvalidZeroAmountPriceRatioInputError) then
        match find (fun w => bool_decide (d_currency w = Btc)) (default [] (or_walletsForAccount rec_state)) with
        | None => Err (new_error0 CouldNotFindWalletFromAccountIdAndCurrencyError)
        | Some w =>
            if String.eqb (d_wallet w) (d_wallet sender)
            then Err (new_error0 SubOneCentSatAmountForUsdSelfSendError)
            else updatedStateFromBtcProposedAmountMid btc (Some w)
        end
      else Err e
  | updatedState => updatedState
  end.

Definition o_noConversionRequired : bool :=
  (o_sender_is_btc && bool_decide (or_settlementMethod rec_state = SettleOnChain))
  || bool_decide (Some (d_currency sender) = recipientWalletCurrency (or_recipient rec_state)).

Definition opfb_withConversion : outcome error OPFBWithConversion :=
  if o_noConversionRequired then
    match oa_btcProposedAmount state, oa_usdProposedAmount state with
    | Some b, Some u => Ok (o_converted (or_recipient rec_state) b u)
    | Some b, None => updatedStateFromBtcProposedAmountMid b None
    | None, Some u => updatedStateFromUsdProposedAmountMid u
    | None, None => Err (new_error InvalidOnChainPaymentFlowBuilderStateError
        "withConversion - btcProposedAmount || btcProtocolAndBankFee not set")
    end
  else
    match oa_btcProposedAmount state, oa_usdProposedAmount state with
    | Some b, _ => updatedStateFromBtcProposedAmountDealerFallbackMid b
    | None, Some u => updatedStateFromUsdProposedAmountDealer u
    | None, None => Err (new_error InvalidOnChainPaymentFlowBuilderStateError
        "withConversion - impossible withConversion state")
    end.
End Conversion.

(** ** The fees *)

Definition validateBtcPaymentAmountForDust (state : OPFBWithConversion) (btc : PaymentAmount) :
    outcome error PaymentAmount :=
  let dust := oc_dustThreshold (os_config (ov_sender state)) in
  if negb (bool_decide (ov_settlementMethod state = SettleIntraLedger)) && (amount btc <? dust)
  then Err (new_error LessThanDustThresholdError
    ("Use lightning to send amounts less than " +:+ bigint_toString dust +:+ " sats"))
  else Ok btc.

(** [stateFromPromise]: the address decides the settlement. *)
Definition stateFromPromise (state : OPFBWithConversion) : outcome error OPFBWithConversion :=
  let s := ov_sender state in
  let settlementMethodFromAddress :=
    if negb (oc_isExternalAddress (os_config s) (os_address s)) then SettleIntraLedger else SettleOnChain in
  if negb (bool_decide (ov_settlementMethod state = settlementMethodFromAddress))
     || (bool_decide (ov_settlementMethod state = SettleIntraLedger)
         && negb (is_set (recipientWalletId (ov_recipient state))))
  then Err (new_error InvalidOnChainPaymentFlowBuilderStateError
    "withoutRecipientWallet called but settlementMethod is IntraLedger")
  else bindo (validateBtcPaymentAmountForDust state (ov_btcProposedAmount state)) (fun _ => Ok state).

Definition onchain_flow (state : OPFBWithConversion) (amounts : AmountsAndFees) (btcBankFee usdBankFee : PaymentAmount)
    (btcMinerFee : option PaymentAmount) : OnChainPaymentFlow :=
  mkOnChain (Some (os_address (ov_sender state))) btcBankFee usdBankFee btcMinerFee
    {| fc_sender := os_sender (ov_sender state);
       fc_recipient := ov_recipient state;
       fc_amounts := amounts;
       fc_inputAmount := ov_inputAmount state;
       fc_settlementMethod := ov_settlementMethod state;
       fc_paymentInitiationMethod := InitOnChain;
       fc_createdAt := ov_createdAt state;
       fc_paymentSentAndPending := false;
       fc_outgoingNodePubkey := None;
       fc_cachedRoute := None |}.

Definition withoutMinerFee (state0 : OPFBWithConversion) : outcome error OnChainPaymentFlow :=
  bindo (stateFromPromise state0) (fun state =>
  Ok (onchain_flow state
    (mkAmounts (ov_btcProposedAmount state) (ov_usdProposedAmount state) ZERO_SATS ZERO_CENTS)
    ZERO_SATS ZERO_CENTS None)).

(** What is left of the proposed amount when the whole balance is sent. *)
Definition send_all_amounts (state : OPFBWithConversion) (priceRatio : PriceRatio) (btcFee usdFee : PaymentAmount) :
    PaymentAmount * PaymentAmount :=
  let btc := ov_btcProposedAmount state in
  let usd := ov_usdProposedAmount state in
  if oc_sendAll (os_config (ov_sender state)) then
    match d_currency (os_sender (ov_sender state)) with
    | Btc => let btc' := calc_sub btc btcFee in (btc', convertFromBtc priceRatio btc')
    | Usd => let usd' := calc_sub usd usdFee in (convertFromUsd priceRatio usd', usd')
    | _ => (btc, usd)
    end
  else (btc, usd).

Definition withMinerFee (feeConfig : FeesConfig) (now : Z) (state0 : OPFBWithConversion) (minerFee : PaymentAmount) :
    outcome error OnChainPaymentFlow :=
  bindo (stateFromPromise state0) (fun state =>
  let s := ov_sender state in
  bindo (WalletPriceRatio (ov_usdProposedAmount state) (ov_btcProposedAmount state)) (fun priceRatio =>
  bindo (paymentAmountFromNumber
           (if fl_truthy (os_senderWithdrawFee s) then os_senderWithdrawFee s else withdrawDefaultMin feeConfig) Btc)
    (fun minBankFee =>
  bindo (getSwapOutImbalanceAmount (withdrawMethod feeConfig) (oc_volumeLightningFn (os_config s))
           (oc_volumeOnChainFn (os_config s)) (withdrawDaysLookback feeConfig) now (os_sender s))
    (fun imbalanceForWallet =>
  let imbalance := if decide (pay_currency imbalanceForWallet = Btc) then imbalanceForWallet
    else convertFromUsd priceRatio imbalanceForWallet in
  let '(totalFee, bankFee) := withdrawalFee (sats (withdrawThreshold feeConfig))
    (withdrawRatioAsBasisPoints feeConfig) minerFee (ov_btcProposedAmount state) minBankFee imbalance in
  let usdProtocolAndBankFee := convertFromBtcToCeil priceRatio totalFee in
  let '(btc, usd) := send_all_amounts state priceRatio totalFee usdProtocolAndBankFee in
  bindo (validateBtcPaymentAmountForDust state btc) (fun validatedBtcPaymentAmount =>
  Ok (onchain_flow state (mkAmounts validatedBtcPaymentAmount usd totalFee usdProtocolAndBankFee)
    bankFee (convertFromBtcToCeil priceRatio bankFee) (Some minerFee))))))).

(** ** What the fees promise *)

Lemma calc_max_amount a b : amount (calc_max a b) = Z.max (amount a) (amount b).
Proof. unfold calc_max. destruct (Z.ltb_spec (amount a) (amount b)); lia. Qed.
Lemma calc_min_amount a b : amount (calc_min a b) = Z.min (amount a) (amount b).
Proof. unfold calc_min. destruct (Z.ltb_spec (amount b) (amount a)); lia. Qed.

Lemma mulBasisPoints_mono a b k : 0 <= k -> 0 <= amount a <= amount b ->
  amount (mulBasisPoints a k) <= amount (mulBasisPoints b k).
Proof.
  intros Hk H. unfold mulBasisPoints.
  pose proof (divRound_spec (Pay (amount a * k) (pay_currency a)) 10000 ltac:(simpl; nia) ltac:(lia)).
  pose proof (divRound_spec (Pay (amount b * k) (pay_currency b)) 10000 ltac:(simpl; nia) ltac:(lia)).
  cbn [amount] in *. nia.
Qed.

Lemma withdrawalFee_spec threshold k minerFee a minBankFee imbalance total bank :
  0 <= k -> 0 <= amount a -> withdrawalFee threshold k minerFee a minBankFee imbalance = (total, bank) ->
  amount total = amount bank + amount minerFee /\
  amount minBankFee <= amount bank <= Z.max (amount minBankFee) (amount (mulBasisPoints a k)).
Proof.
  intros Hk Ha [= <- <-]. split; [done|]. rewrite calc_max_amount.
  match goal with |- context [mulBasisPoints (calc_max ?x ?y) k] =>
    assert (amount (mulBasisPoints (calc_max x y) k) <= amount (mulBasisPoints a k)) end; [|lia].
  apply mulBasisPoints_mono; [done|]. rewrite calc_max_amount, calc_min_amount. simpl. lia.
Qed.

Lemma stateFromPromise_Ok st st' : stateFromPromise st = Ok st' -> st' = st.
Proof. unfold stateFromPromise. case_match; [done|]. intros Hb. apply bindo_Ok in Hb as (? & _ & [= <-]). done. Qed.

Lemma dust_Ok st a b : validateBtcPaymentAmountForDust st a = Ok b ->
  b = a /\ (ov_settlementMethod st <> SettleIntraLedger -> oc_dustThreshold (os_config (ov_sender st)) <= amount a).
Proof.
  unfold validateBtcPaymentAmountForDust. case_bool_decide; simpl.
  - intros [= <-]. done.
  - destruct (Z.ltb_spec (amount a) (oc_dustThreshold (os_config (ov_sender st)))); [done|].
    intros [= <-]. done.
Qed.

(** What [withMinerFee] computed on its way to a flow. *)
Lemma withMinerFee_Ok fc now st minerFee f : withMinerFee fc now st minerFee = Ok f ->
  exists r minBankFee imbalance total bank btc usd,
    WalletPriceRatio (ov_usdProposedAmount st) (ov_btcProposedAmount st) = Ok r /\
    paymentAmountFromNumber (if fl_truthy (os_senderWithdrawFee (ov_sender st))
      then os_senderWithdrawFee (ov_sender st) else withdrawDefaultMin fc) Btc = Ok minBankFee /\
    withdrawalFee (sats (withdrawThreshold fc)) (withdrawRatioAsBasisPoints fc) minerFee
      (ov_btcProposedAmount st) minBankFee imbalance = (total, bank) /\
    send_all_amounts st r total (convertFromBtcToCeil r total) = (btc, usd) /\
    validateBtcPaymentAmountForDust st btc = Ok btc /\
    f = onchain_flow st (mkAmounts btc usd total (convertFromBtcToCeil r total)) bank
      (convertFromBtcToCeil r bank) (Some minerFee).
Proof.
  intros H. apply bindo_Ok in H as (st' & Hst & H). apply stateFromPromise_Ok in Hst as ->.
  apply bindo_Ok in H as (r & Hr & H). apply bindo_Ok in H as (minBankFee & Hm & H).
  apply bindo_Ok in H as (imb & Hi & H).
  cbn zeta in H. destruct (withdrawalFee _ _ _ _ _ _) as [total bank] eqn:Ew.
  destruct (send_all_amounts _ _ _ _) as [btc usd] eqn:Es.
  apply bindo_Ok in H as (btc' & Hd & [= <-]). destruct (dust_Ok _ _ _ Hd) as [-> _].
  by do 7 eexists; split_and!.
Qed.

(** An on-chain payment's fee is the miner's fee and a bank fee that is at
    least the account's minimum and at most the larger of it and the ratio of
    the amount; the fees in cents are rounded up, and nothing below the dust
    threshold leaves the books. *)
Theorem onchain_fees_sound (fc : FeesConfig) (now : Z) (st : OPFBWithConversion) (minerFee : PaymentAmount)
    (f : OnChainPaymentFlow) :
  0 <= withdrawRatioAsBasisPoints fc -> 0 <= amount (ov_btcProposedAmount st) ->
  withMinerFee fc now st minerFee = Ok f ->
  let a := fc_amounts (of_common f) in
  exists r minBankFee,
    WalletPriceRatio (ov_usdProposedAmount st) (ov_btcProposedAmount st) = Ok r /\
    amount (btcProtocolAndBankFee a) = amount (of_btcBankFee f) + amount minerFee /\
    amount minBankFee <= amount (of_btcBankFee f) <=
      Z.max (amount minBankFee) (amount (mulBasisPoints (ov_btcProposedAmount st) (withdrawRatioAsBasisPoints fc))) /\
    usdProtocolAndBankFee a = convertFromBtcToCeil r (btcProtocolAndBankFee a) /\
    of_usdBankFee f = convertFromBtcToCeil r (of_btcBankFee f) /\
    (fc_settlementMethod (of_common f) <> SettleIntraLedger ->
     oc_dustThreshold (os_config (ov_sender st)) <= amount (btcPaymentAmount a)).
Proof.
  intros Hk Ha H a. apply withMinerFee_Ok in H as (r & mb & imb & total & bank & btc & usd & Hr & Hm & Hw & Hs & Hd & ->).
  exists r, mb. apply withdrawalFee_spec in Hw as (H1 & H2 & H3); [|done..]. apply dust_Ok in Hd as [_ Hd].
  by split_and!.
Qed.

Lemma convertFromUsd_le_one r u : ratio_pos r -> amount u <= 0 -> amount (convertFromUsd r u) <= 1.
Proof.
  intros [HU HB] Hu. unfold convertFromUsd, convertFromOther.
  destruct (Z.eqb_spec (amount u) 0); [simpl; lia|]. cbn [amount]. unfold or_one, divRound. cbn [amount pay_currency].
  assert (Z.quot (amount u * amount (ratio_wallet r)) (ratio_other r) <= 0).
  { replace (amount u * amount (ratio_wallet r)) with (- (- amount u * amount (ratio_wallet r))) by lia.
    rewrite Z.quot_opp_l by lia.
    assert (0 <= Z.quot (- amount u * amount (ratio_wallet r)) (ratio_other r)) by (apply Z.quot_pos; nia). lia. }
  assert (Z.rem (amount u * amount (ratio_wallet r)) (ratio_other r) <= 0).
  { pose proof (Z.rem_bound_pos_neg (amount u * amount (ratio_wallet r)) (ratio_other r) HU ltac:(nia)). lia. }
  assert (0 <= Z.quot (ratio_other r) 2) by (apply Z.quot_pos; lia).
  destruct (Z.ltb_spec (Z.quot (ratio_other r) 2) (Z.rem (amount u * amount (ratio_wallet r)) (ratio_other r))); [lia|].
  cbn [amount]. case_match; lia.
Qed.

(** The amount and fee of a flow in its sender's currency *)
Definition sender_total (s : FlowCommon) : Z :=
  if decide (d_currency (fc_sender s) = Btc) then amount (totalAmountsForPayment s).1
  else amount (totalAmountsForPayment s).2.

(** The proposed amount in the sender's currency *)
Definition sender_proposed (st : OPFBWithConversion) : PaymentAmount :=
  if decide (d_currency (os_sender (ov_sender st)) = Btc) then ov_btcProposedAmount st else ov_usdProposedAmount st.

(** C38: sending everything from a wallet in sats or in dollars, the two currencies
    the code takes the fees out of: the payment and its fees together are exactly
    the proposed balance, in the sender's currency, so the balance check passes
    with nothing to spare. For a payment that settles on chain, with a dust
    threshold of at least two sats and positive amounts proposed, what goes out is
    positive in both currencies. *)
Theorem send_all_exact (fc : FeesConfig) (now : Z) (st : OPFBWithConversion) (minerFee : PaymentAmount)
    (f : OnChainPaymentFlow) :
  d_currency (os_sender (ov_sender st)) = Btc \/ d_currency (os_sender (ov_sender st)) = Usd ->
  pay_currency (sender_proposed st) = d_currency (os_sender (ov_sender st)) ->
  oc_sendAll (os_config (ov_sender st)) = true ->
  withMinerFee fc now st minerFee = Ok f ->
  sender_total (of_common f) = amount (sender_proposed st) /\
  checkBalanceForSend (of_common f) (sender_proposed st) = Ok tt /\
  (pos_in Btc (ov_btcProposedAmount st) -> pos_in Usd (ov_usdProposedAmount st) ->
   ov_settlementMethod st = SettleOnChain -> 2 <= oc_dustThreshold (os_config (ov_sender st)) ->
   0 < amount (btcPaymentAmount (fc_amounts (of_common f))) /\
   0 < amount (usdPaymentAmount (fc_amounts (of_common f)))).
Proof.
  intros Hc Hp Ha H. apply withMinerFee_Ok in H as (r & mb & imb & total & bank & btc & usd & Hr & Hm & Hw & Hs & Hd & ->).
  unfold send_all_amounts in Hs. rewrite Ha in Hs. unfold checkBalanceForSend, sender_total, sender_proposed in *. simpl.
  apply dust_Ok in Hd as [_ Hd].
  assert (pos_in Btc (ov_btcProposedAmount st) -> pos_in Usd (ov_usdProposedAmount st) -> ratio_pos r) as Hrp.
  { intros [_ Hb] [_ Hu]. apply PriceRatio_new_Ok in Hr as (-> & _). by split. }
  destruct Hc as [Hc|Hc]; rewrite Hc in *; simpl in *; injection Hs as <- <-; rewrite Hp; simpl in *.
  - split; [lia|]. destruct (Z.ltb_spec (amount (ov_btcProposedAmount st))
      (amount (ov_btcProposedAmount st) - amount total + amount total)); [lia|]. split; [done|].
    intros Hb Hu Hm' Hdust. specialize (Hd ltac:(congruence)). split; [lia|].
    apply (convertFromBtc_spec r (Hrp Hb Hu)). simpl. lia.
  - set (fee := convertFromWalletToCeil r total) in *.
    split; [lia|]. destruct (Z.ltb_spec (amount (ov_usdProposedAmount st))
      (amount (ov_usdProposedAmount st) - fee + fee)); [lia|]. split; [done|].
    intros Hb Hu Hm' Hdust. specialize (Hd ltac:(congruence)). split; [lia|].
    destruct (Z.lt_ge_cases 0 (amount (ov_usdProposedAmount st) - fee)) as [|Hle]; [done|].
    pose proof (convertFromUsd_le_one r (calc_sub (ov_usdProposedAmount st) (convertFromBtcToCeil r total)) (Hrp Hb Hu) Hle).
    lia.
Qed.
