(* ===== verification/DisplayAmounts.v ===== *)
(** * Display amounts

    Model of [src/src/domain/fiat/display-currency.ts], of
    [display-amounts-converter.ts] and of the display ratio of
    [src/src/domain/payments/price-ratio.ts]: what an amount is worth in the
    currency an account is shown in. The digits of a currency come from the
    runtime's currency data, a parameter. *)

From stdpp Require Import base list strings.
From Stdlib Require Import ZArith QArith Qabs Lqa Lia Ascii.
From S2P Require Import Prelude JsStrings JsNumbers JsDecimals Errors MoneyAmounts PaymentAmounts PaymentFlows.

Close Scope Q_scope.
Open Scope Z_scope.

(** [minimumFractionDigits] of the formatter of a currency; the constructor
    throws on a code that is not one. *)
Class CurrencyData := { minimumFractionDigits : string -> option Z }.

(** [DisplayAmount] *)
Record DisplayAmount := mkDisplay { da_amountInMinor : Z; da_currency : string; da_displayInMajor : string }.

Definition SAT_PRICE_PRECISION_OFFSET : Z := 12.
Definition USD_PRICE_PRECISION_OFFSET : Z := 6.

Section Display.
Context `{CurrencyData}.

Definition getCurrencyMajorExponent (currency : string) : Z :=
  match minimumFractionDigits currency with
  | Some 0 => 0
  | Some 1 => 1
  | Some 3 => 3
  | Some 4 => 4
  | _ => 2
  end.

Definition majorToMinorUnit (amount : js_float) (displayCurrency : string) : js_float :=
  fl_mul amount (Fin (num_of_Z (10 ^ getCurrencyMajorExponent displayCurrency))).

Definition displayMinorToMajor (amountInMinor displayMajorExponent : Z) : string :=
  fl_toFixed (Z.to_nat displayMajorExponent) (fl_div_int (Number_of amountInMinor) (10 ^ displayMajorExponent)).

Definition toDisplayAmount (amountInMinor : Z) (currency : string) : DisplayAmount :=
  mkDisplay amountInMinor currency (displayMinorToMajor amountInMinor (getCurrencyMajorExponent currency)).

Definition displayAmountFromNumber (amount : js_float) (currency : string) : outcome error DisplayAmount :=
  bindo (safeBigInt amount) (fun amountInMinor => Ok (toDisplayAmount amountInMinor currency)).

Definition displayAmountFromWalletAmount (walletAmount : PaymentAmount) : DisplayAmount :=
  toDisplayAmount (amount walletAmount) (currency_name (pay_currency walletAmount)).

Definition toDisplayBaseAmount (d : DisplayAmount) : js_float := Number_of (da_amountInMinor d).

(** ** Prices *)

(** [x / y], [y] not zero *)
Definition num_div (x y : js_num) : js_num :=
  rnd_dyadic (Z.sgn (mant y) * mant x) (expo x - expo y) (Z.abs (mant y)).
Definition fl_div (x y : js_float) : js_float :=
  match x, y with
  | Fin a, Fin b => if mant b =? 0 then NaN else fl (num_div a b)
  | Fin _, Infinity _ => Fin (num_of_Z 0)
  | Infinity b, Fin a => Infinity (xorb b (num_sgn a <? 0))
  | _, _ => NaN
  end.

(** [WalletMinorUnitDisplayPrice] *)
Record WalletMinorUnitDisplayPrice := mkPrice {
  price_base : Z; price_offset : Z; price_displayCurrency : string; price_walletCurrency : WalletCurrency }.

(** [BigInt(x)] *)
Definition BigInt_of (x : js_float) : outcome error Z :=
  match x with
  | Fin a => if num_isInteger a then Ok (num_to_Z a) else Throw (new_error JsError (fl_toString x))
  | _ => Throw (new_error JsError (fl_toString x))
  end.

Definition priceAmountFromNumber (priceOfOneSatInMinorUnit : js_float) (displayCurrency : string)
    (walletCurrency : WalletCurrency) : outcome error WalletMinorUnitDisplayPrice :=
  let offset := if decide (walletCurrency = Btc) then SAT_PRICE_PRECISION_OFFSET else USD_PRICE_PRECISION_OFFSET in
  bindo (BigInt_of (Math_floor (fl_mul priceOfOneSatInMinorUnit (Fin (num_of_Z (10 ^ offset)))))) (fun base =>
  Ok (mkPrice base offset displayCurrency walletCurrency)).

(** [DisplayPriceRatio]: a ratio and the currency it is shown in *)
Record DisplayPriceRatio := mkDisplayRatio { dr_ratio : PriceRatio; dr_displayCurrency : string }.

Definition DisplayPriceRatio_new (displayAmount : DisplayAmount) (walletAmount : PaymentAmount) :
    outcome error DisplayPriceRatio :=
  bindo (PriceRatio_new (da_amountInMinor displayAmount) walletAmount) (fun r =>
  Ok (mkDisplayRatio r (da_currency displayAmount))).

Definition convertFromDisplayMinorUnit (r : DisplayPriceRatio) (d : DisplayAmount) : PaymentAmount :=
  convertFromOther (dr_ratio r) (da_amountInMinor d).
Definition display_convertFromWallet (r : DisplayPriceRatio) (a : PaymentAmount) : DisplayAmount :=
  toDisplayAmount (convertFromWallet (dr_ratio r) a) (dr_displayCurrency r).
Definition display_convertFromWalletToFloor (r : DisplayPriceRatio) (a : PaymentAmount) : DisplayAmount :=
  toDisplayAmount (convertFromWalletToFloor (dr_ratio r) a) (dr_displayCurrency r).
Definition display_convertFromWalletToCeil (r : DisplayPriceRatio) (a : PaymentAmount) : DisplayAmount :=
  toDisplayAmount (convertFromWalletToCeil (dr_ratio r) a) (dr_displayCurrency r).
Definition displayMinorUnitPerWalletUnit (r : DisplayPriceRatio) : js_float :=
  fl_div (Number_of (ratio_other (dr_ratio r))) (Number_of (amount (ratio_wallet (dr_ratio r)))).

Definition priceAmountFromDisplayPriceRatio (r : DisplayPriceRatio) : outcome error WalletMinorUnitDisplayPrice :=
  priceAmountFromNumber (displayMinorUnitPerWalletUnit r) (dr_displayCurrency r) (pay_currency (ratio_wallet (dr_ratio r))).

(** [toDisplayPriceRatio]; the precision is a configured integer. *)
Definition toDisplayPriceRatio (precision : Z) (ratio : js_float) (displayCurrency : string)
    (walletCurrency : WalletCurrency) : outcome error DisplayPriceRatio :=
  bindo (safeBigInt (Math_floor (fl_mul ratio (Fin (num_of_Z precision))))) (fun amountInMinor =>
  DisplayPriceRatio_new (toDisplayAmount amountInMinor displayCurrency) (Pay precision walletCurrency)).

(** ** [DisplayAmountsConverter] *)

Definition UsdDisplay : string := "USD".

(** The amount and the fee as shown; shown in dollars they are the payment's
    own cents. *)
Definition display_amounts (r : DisplayPriceRatio) (args : AmountsAndFees) : DisplayAmount * DisplayAmount :=
  if String.eqb (dr_displayCurrency r) UsdDisplay
  then (displayAmountFromWalletAmount (usdPaymentAmount args), displayAmountFromWalletAmount (usdProtocolAndBankFee args))
  else (display_convertFromWallet r (btcPaymentAmount args), display_convertFromWalletToCeil r (btcProtocolAndBankFee args)).

Definition DisplayAmountsConverter (r : DisplayPriceRatio) (args : AmountsAndFees) :
    outcome error (DisplayAmount * DisplayAmount * string * WalletMinorUnitDisplayPrice) :=
  bindo (priceAmountFromDisplayPriceRatio r) (fun displayPrice =>
  Ok (display_amounts r args, dr_displayCurrency r, displayPrice)).

(** [checkedToDisplayCurrency] of [src/src/domain/fiat/index.ts] *)
Definition checkedToDisplayCurrency (currency : option string) : outcome error string :=
  match currency with
  | None => Err (new_error0 InvalidDisplayCurrencyError)
  | Some c => if negb (nonempty c) || (4 <? String.length c)%nat then Err (new_error InvalidDisplayCurrencyError c)
              else Ok (str_upper c)
  end.

(** ** Properties *)

Lemma exponent_range currency : 0 <= getCurrencyMajorExponent currency <= 4.
Proof. unfold getCurrencyMajorExponent. repeat case_match; lia. Qed.

(** The price is a whole number of minor units, so both fees and amounts are
    shown as such, in the currency of the account. *)
Lemma display_amounts_currency r args :
  pay_currency (usdPaymentAmount args) = Usd -> pay_currency (usdProtocolAndBankFee args) = Usd ->
  da_currency (display_amounts r args).1 = dr_displayCurrency r /\
  da_currency (display_amounts r args).2 = dr_displayCurrency r.
Proof.
  intros Ha Hf. unfold display_amounts. destruct (String.eqb_spec (dr_displayCurrency r) UsdDisplay) as [->|]; [|done].
  simpl. by rewrite Ha, Hf.
Qed.

(** A number close to a whole number of minor units prints as them. *)
Lemma toFixed_near f x c : (0 <= num_val x)%Q -> (num_val x < inject_Z (10 ^ 21))%Q ->
  (Qabs (num_val x * inject_Z (10 ^ Z.of_nat f) - inject_Z c) <= 3 # 8)%Q -> num_toFixed f x = Some (render_fixed f c).
Proof.
  intros H0 Hr Hc. pose proof (mant_nonneg x H0) as Hm. unfold num_toFixed.
  rewrite num_fixed_range_val by done. destruct (Z.ltb_spec (mant x) 0); [lia|]. do 2 f_equal.
  rewrite fixed_scaled_round by done. apply Math_round_near.
  assert (num_val (JsNum (mant x * 10 ^ Z.of_nat f) (expo x)) == num_val x * inject_Z (10 ^ Z.of_nat f))%Q as ->; [|done].
  unfold num_val. cbn [mant expo]. rewrite inject_Z_mult. ring.
Qed.

Lemma minor_units_close x c k : 0 < k -> 0 <= c <= MAX_CENTS_EXACT -> (num_val x == inject_Z c)%Q ->
  (Qabs (num_val (num_div_int x k) * inject_Z k - inject_Z c) <= 3 # 8)%Q.
Proof.
  intros Hk Hc Hx. pose proof (num_div_int_error x k Hk) as He. rewrite Hx in He.
  pose proof (inject_Z_pos k Hk) as Hk'.
  assert (0 <= inject_Z c)%Q as H0 by (change 0%Q with (inject_Z 0); rewrite <- Zle_Qle; lia).
  assert (inject_Z c <= inject_Z (2 ^ 50))%Q as H1 by (rewrite <- Zle_Qle; apply Hc).
  change (inject_Z (2 ^ 50)) with (1125899906842624 # 1)%Q in H1. change (two^ (-53))%Q with (1 # 9007199254740992)%Q in He.
  set (y := (inject_Z c / inject_Z k)%Q) in *.
  assert (y * inject_Z k == inject_Z c)%Q as Hy by (unfold y; field; lra).
  assert (0 <= y)%Q as Hy0 by (apply Qle_shift_div_l; lra).
  rewrite (Qabs_pos y) in He by done. apply Qabs_Qle_condition in He. apply Qabs_Qle_condition. nra.
Qed.

(** Every display amount is shown to its last minor unit, whatever the number
    of digits of its currency. *)
Theorem shown_exactly (amountInMinor : Z) (currency : string) :
  0 <= amountInMinor <= MAX_CENTS_EXACT ->
  da_displayInMajor (toDisplayAmount amountInMinor currency) =
  render_fixed (Z.to_nat (getCurrencyMajorExponent currency)) amountInMinor.
Proof.
  intros Hc. pose proof (exponent_range currency) as He. unfold toDisplayAmount, displayMinorToMajor. cbn [da_displayInMajor].
  set (e := getCurrencyMajorExponent currency) in *. clearbody e.
  destruct (Number_of_exact amountInMinor) as (x & Ex & _); [unfold MAX_CENTS_EXACT in Hc; lia|]. rewrite Ex.
  assert (num_val x == inject_Z amountInMinor)%Q as Hx.
  { unfold Number_of, fl in Ex. case_match; simplify_eq. apply rnd_int. unfold MAX_CENTS_EXACT in Hc. lia. }
  assert (0 < 10 ^ e <= 10000) as Hk.
  { assert (e = 0 \/ e = 1 \/ e = 2 \/ e = 3 \/ e = 4) as [->|[->|[->|[-> | ->]]]] by lia; lia. }
  cbn [fl_div_int]. destruct (num_div_int_range x (10 ^ e) 0 (2 ^ 50)) as [Lo Hi]; [lia..| | |].
  { rewrite Hx. rewrite <- Zle_Qle. lia. }
  { rewrite Hx. rewrite <- Zle_Qle. unfold MAX_CENTS_EXACT in Hc. nia. }
  change (inject_Z 0) with 0%Q in Lo. unfold fl. rewrite num_isFinite_val; [|done|].
  - unfold fl_toFixed. rewrite (toFixed_near _ _ amountInMinor); [done|done| |].
    + apply Qle_lt_trans with (1 := Hi). by rewrite <- Zlt_Qlt.
    + rewrite Z2Nat.id by lia. apply minor_units_close; [lia|done..].
  - apply Qle_lt_trans with (1 := Hi). rewrite <- two_pow_Z by lia. rewrite <- Zlt_Qlt. apply Z.pow_lt_mono_r; lia.
Qed.
End Display.
