(* ===== verification/LedgerEntries.v ===== *)
(** * Ledger entries

    Model of the entry builders of [src/src/services/ledger/domain]
    ([entry-builder.ts], [fee-only-entry-builder.ts], [accounts.ts]). An entry
    belongs to the bookkeeping library, so it is a parameter: the class
    [MediciEntry] holds its documented operations, and its laws say that a
    debit or a credit adds one transaction and that the transactions can be
    read and replaced. The theorems weigh the transactions of the entry that
    comes out. The second part models
    [src/src/services/ledger/facade/tx-metadata.ts]: what each kind of payment
    writes beside its debits and credits, for the row of the sender, of the
    recipient and of the bank's own accounts. *)

From stdpp Require Import base gmap list strings.
From Stdlib Require Import ZArith Lia Ascii.
From S2P Require Import Prelude JsStrings JsNumbers JsDecimals Errors MoneyAmounts PaymentAmounts PaymentFlows.

Close Scope Q_scope.
Open Scope Z_scope.

(** ** Accounts *)

(** [LedgerAccountDescriptor] *)
Record AccountDescriptor := mkAccountDescriptor { ad_id : string; ad_currency : WalletCurrency }.

Definition assetsMainAccount : string := "Assets".
Definition lndLedgerAccountId : string := assetsMainAccount +:+ ":Reserve:Lightning".
Definition onChainLedgerAccountId : string := assetsMainAccount +:+ ":OnChain".
Definition coldStorageAccountId : string := assetsMainAccount +:+ ":Reserve:Bitcoind".
Definition lndLedgerAccountDescriptor : AccountDescriptor := mkAccountDescriptor lndLedgerAccountId Btc.
Definition onChainLedgerAccountDescriptor : AccountDescriptor := mkAccountDescriptor onChainLedgerAccountId Btc.
Definition coldStorageAccountDescriptor : AccountDescriptor := mkAccountDescriptor coldStorageAccountId Btc.

(** [liabilitiesMainAccount] of [src/src/services/ledger/domain/index.ts] *)
Definition facade_liabilitiesMainAccount : string := "Liabilities".
Definition toLedgerAccountId (walletId : string) : string := facade_liabilitiesMainAccount +:+ ":" +:+ walletId.
Definition toLedgerAccountDescriptor (w : WalletDescriptor) : AccountDescriptor :=
  mkAccountDescriptor (toLedgerAccountId (d_wallet w)) (d_currency w).

(** [StaticAccountIds] *)
Record StaticAccountIds := mkStatic {
  bankOwnerAccountId : string; dealerBtcAccountId : string; dealerUsdAccountId : string }.

(** ** Metadata *)

Inductive meta_value :=
| MText (s : string) | MNumber (x : js_float) | MBool (b : bool) | MTexts (l : list string) | MUndefined.

(** [TxMetadata]: an object; a spread lets the later members win. *)
Definition metadata : Type := gmap string meta_value.

(** [{ ...a, ...b }] *)
Definition spread (a b : metadata) : metadata := b ∪ a.

(** [{ ...m, currency }] *)
Definition with_currency (m : metadata) (c : WalletCurrency) : metadata :=
  <["currency" := MText (currency_name c)]> m.

(** ** Entries of the bookkeeping library *)

(** A transaction of an entry, as far as the code reads it. *)
Record transaction := mkTransaction {
  tx_account : string; tx_debit : js_float; tx_credit : js_float; tx_meta : metadata }.

Class MediciEntry := {
  entry : Type;
  entry_new : string -> entry;
  entry_debit : entry -> string -> js_float -> metadata -> entry;
  entry_credit : entry -> string -> js_float -> metadata -> entry;
  transactions : entry -> list transaction;
  set_transactions : entry -> list transaction -> entry
}.

Definition js_zero : js_float := Fin (num_of_Z 0).

Class MediciEntryLaws `{MediciEntry} := {
  transactions_new : forall memo, transactions (entry_new memo) = [];
  transactions_debit : forall e account a m,
    transactions (entry_debit e account a m) = transactions e ++ [mkTransaction account a js_zero m];
  transactions_credit : forall e account a m,
    transactions (entry_credit e account a m) = transactions e ++ [mkTransaction account js_zero a m];
  transactions_set : forall e l, transactions (set_transactions e l) = l
}.

Section Builder.
Context `{L : MediciEntry}.

(** ** [EntryBuilder] *)

(** What the builder closes over from its first call on. *)
Record BuilderState := mkBuilderState {
  b_staticAccountIds : StaticAccountIds;
  b_entry : entry;
  b_metadata : metadata;
  b_additionalInternalMetadata : metadata;
  b_usdWithFees : PaymentAmount;
  b_btcWithFees : PaymentAmount;
  b_usdBankFee : PaymentAmount;
  b_btcBankFee : PaymentAmount
}.

Definition set_entry (s : BuilderState) (e : entry) : BuilderState :=
  mkBuilderState (b_staticAccountIds s) e (b_metadata s) (b_additionalInternalMetadata s) (b_usdWithFees s)
    (b_btcWithFees s) (b_usdBankFee s) (b_btcBankFee s).

(** [EntryBuilder(config).withTotalAmount(total).withBankFee(fee)] *)
Definition withBankFee (staticAccountIds : StaticAccountIds) (e : entry) (meta additionalInternalMetadata : metadata)
    (usdWithFees btcWithFees usdBankFee btcBankFee : PaymentAmount) : BuilderState :=
  let e' := if 0 <? amount btcBankFee
    then entry_credit e (bankOwnerAccountId staticAccountIds) (Number_of (amount btcBankFee))
           (with_currency (spread meta additionalInternalMetadata) (pay_currency btcBankFee))
    else e in
  mkBuilderState staticAccountIds e' meta additionalInternalMetadata usdWithFees btcWithFees usdBankFee btcBankFee.

(** [debitAccount]: the builder for the credit, and the debited currency. *)
Definition debitAccount (s : BuilderState) (accountDescriptor : AccountDescriptor) (additionalMetadata : option metadata) :
    BuilderState * WalletCurrency :=
  let debitMetadata := spread (b_metadata s) (default ∅ additionalMetadata) in
  let a := if decide (ad_currency accountDescriptor = Btc) then b_btcWithFees s else b_usdWithFees s in
  (set_entry s (entry_debit (b_entry s) (ad_id accountDescriptor) (Number_of (amount a))
     (with_currency debitMetadata (pay_currency a))),
   ad_currency accountDescriptor).

Definition debitLnd (s : BuilderState) : BuilderState * WalletCurrency :=
  debitAccount s lndLedgerAccountDescriptor (Some (b_additionalInternalMetadata s)).
Definition debitOnChain (s : BuilderState) : BuilderState * WalletCurrency :=
  debitAccount s onChainLedgerAccountDescriptor (Some (b_additionalInternalMetadata s)).
Definition debitColdStorage (s : BuilderState) : BuilderState * WalletCurrency :=
  debitAccount s coldStorageAccountDescriptor (Some (b_additionalInternalMetadata s)).

(** [addDealerDebitsAndCredits]: the dealer stands between two currencies. *)
Definition addDealerDebitsAndCredits (s : BuilderState) (debitCurrency : WalletCurrency)
    (accountDescriptor : AccountDescriptor) : entry :=
  let ids := b_staticAccountIds s in
  let dealerMetadata := spread (b_metadata s) (b_additionalInternalMetadata s) in
  let addUsdToBtcConversionToDealer btcAmount usdAmount :=
    entry_credit
      (entry_debit (b_entry s) (dealerBtcAccountId ids) (Number_of (amount btcAmount))
         (with_currency dealerMetadata (pay_currency btcAmount)))
      (dealerUsdAccountId ids) (Number_of (amount usdAmount)) (with_currency dealerMetadata (pay_currency usdAmount)) in
  let addBtcToUsdConversionToDealer btcAmount usdAmount :=
    entry_debit
      (entry_credit (b_entry s) (dealerBtcAccountId ids) (Number_of (amount btcAmount))
         (with_currency dealerMetadata (pay_currency btcAmount)))
      (dealerUsdAccountId ids) (Number_of (amount usdAmount)) (with_currency dealerMetadata (pay_currency usdAmount)) in
  let c := ad_currency accountDescriptor in
  if bool_decide (debitCurrency = Usd) && bool_decide (c = Usd) && (0 <? amount (b_usdBankFee s))
  then addUsdToBtcConversionToDealer (b_btcBankFee s) (b_usdBankFee s)
  else if bool_decide (debitCurrency = Usd) && bool_decide (c = Btc)
  then addUsdToBtcConversionToDealer (b_btcWithFees s) (b_usdWithFees s)
  else if bool_decide (debitCurrency = Btc) && bool_decide (c = Usd)
  then addBtcToUsdConversionToDealer (calc_sub (b_btcWithFees s) (b_btcBankFee s))
         (calc_sub (b_usdWithFees s) (b_usdBankFee s))
  else b_entry s.

Definition fl_is_zero (x : js_float) : bool := fl_eqb x js_zero.

Definition removeZeroAmountEntries (e : entry) : entry :=
  set_transactions e (filter (fun t => negb (fl_is_zero (tx_debit t) && fl_is_zero (tx_credit t))) (transactions e)).

Definition creditAccount (sd : BuilderState * WalletCurrency) (accountDescriptor : AccountDescriptor)
    (additionalMetadata : option metadata) : entry :=
  let '(s, debitCurrency) := sd in
  let updatedEntry := addDealerDebitsAndCredits s debitCurrency accountDescriptor in
  let usdWithOutFee := calc_sub (b_usdWithFees s) (b_usdBankFee s) in
  let btcWithOutFee := calc_sub (b_btcWithFees s) (b_btcBankFee s) in
  let creditAmount := if decide (ad_currency accountDescriptor = Usd) then usdWithOutFee else btcWithOutFee in
  let creditMetadata := match additionalMetadata with Some m => spread (b_metadata s) m | None => b_metadata s end in
  removeZeroAmountEntries
    (entry_credit updatedEntry (ad_id accountDescriptor) (Number_of (amount creditAmount))
       (with_currency creditMetadata (pay_currency creditAmount))).

Definition creditOffChain (sd : BuilderState * WalletCurrency) : entry :=
  creditAccount sd lndLedgerAccountDescriptor (Some (b_additionalInternalMetadata sd.1)).
Definition creditOnChain (sd : BuilderState * WalletCurrency) : entry :=
  creditAccount sd onChainLedgerAccountDescriptor (Some (b_additionalInternalMetadata sd.1)).
Definition creditColdStorage (sd : BuilderState * WalletCurrency) : entry :=
  creditAccount sd coldStorageAccountDescriptor (Some (b_additionalInternalMetadata sd.1)).

(** ** [FeeOnlyEntryBuilder] *)

Definition fee_post (post : entry -> string -> js_float -> metadata -> entry) (e : entry) (meta : metadata)
    (btcFee : PaymentAmount) (account : string) : entry :=
  post e account (Number_of (amount btcFee)) (with_currency meta (pay_currency btcFee)).

Definition feeOnly_debitBankOwner (ids : StaticAccountIds) (e : entry) (meta : metadata) (btcFee : PaymentAmount) : entry :=
  fee_post entry_debit e meta btcFee (bankOwnerAccountId ids).
Definition feeOnly_debitOnChain (e : entry) (meta : metadata) (btcFee : PaymentAmount) : entry :=
  fee_post entry_debit e meta btcFee (ad_id onChainLedgerAccountDescriptor).
Definition feeOnly_creditBankOwner (ids : StaticAccountIds) (e : entry) (meta : metadata) (btcFee : PaymentAmount) : entry :=
  fee_post entry_credit e meta btcFee (bankOwnerAccountId ids).
Definition feeOnly_creditOnChain (e : entry) (meta : metadata) (btcFee : PaymentAmount) : entry :=
  fee_post entry_credit e meta btcFee (ad_id onChainLedgerAccountDescriptor).
End Builder.

(** ** The weight of an entry *)

(** The integer a number stands for. *)
Definition whole (x : js_float) : Z := match x with Fin a => num_to_Z a | _ => 0 end.

Definition tx_in (c : WalletCurrency) (t : transaction) : bool :=
  match tx_meta t !! "currency" with Some (MText s) => String.eqb s (currency_name c) | _ => false end.

(** Credits less debits of one currency *)
Fixpoint net (c : WalletCurrency) (l : list transaction) : Z :=
  match l with
  | [] => 0
  | t :: l' => (if tx_in c t then whole (tx_credit t) - whole (tx_debit t) else 0) + net c l'
  end.

(** What a single posting of [z] in currency [c'] weighs in currency [c]. *)
Definition posted (c c' : WalletCurrency) (z : Z) : Z := if decide (c = c') then z else 0.

Lemma net_app c l l' : net c (l ++ l') = net c l + net c l'.
Proof. induction l as [|t l IH]; simpl; [done|]. rewrite IH. lia. Qed.

Lemma whole_Number z : safe_int z -> whole (Number_of z) = z.
Proof. intros Hz. destruct (Number_of_exact z Hz) as (x & -> & _ & Hx). done. Qed.

Lemma fl_is_zero_whole x : fl_is_zero x = true -> whole x = 0.
Proof.
  destruct x as [[m e]|[]|]; try done. unfold fl_is_zero, fl_eqb, fl_leb, fl_ltb, num_ltb, js_zero. simpl.
  rewrite Z.mul_0_l. intros H. apply andb_true_iff in H as [H1 H2].
  apply negb_true_iff, Z.ltb_ge in H1, H2. unfold num_to_Z. cbn [mant expo].
  assert (0 < 2 ^ (e - Z.min e 0)) by (apply Z.pow_pos_nonneg; lia).
  assert (m = 0) as -> by nia. case_match; [done|by rewrite Z.div_0_l by (apply Z.pow_nonzero; lia)].
Qed.

Lemma net_filter_zero c l :
  net c (filter (fun t => negb (fl_is_zero (tx_debit t) && fl_is_zero (tx_credit t))) l) = net c l.
Proof.
  induction l as [|t l IH]; [done|]. rewrite filter_cons. case_decide as H; simpl; rewrite IH; [done|].
  destruct (fl_is_zero (tx_debit t)) eqn:E1, (fl_is_zero (tx_credit t)) eqn:E2; simpl in H; try done.
  rewrite (fl_is_zero_whole _ E1), (fl_is_zero_whole _ E2). by case_match.
Qed.

Lemma with_currency_lookup m c : with_currency m c !! "currency" = Some (MText (currency_name c)).
Proof. apply lookup_insert_eq. Qed.

Lemma tx_in_with_currency c c' account d cr m :
  tx_in c (mkTransaction account d cr (with_currency m c')) = bool_decide (c = c').
Proof. unfold tx_in. cbn [tx_meta]. rewrite with_currency_lookup. by destruct c, c'. Qed.

Lemma net_debit c c' account z m : safe_int z ->
  net c [mkTransaction account (Number_of z) js_zero (with_currency m c')] = posted c c' (- z).
Proof.
  intros Hz. unfold net, posted. rewrite tx_in_with_currency. cbn [tx_credit tx_debit]. rewrite whole_Number by done.
  change (whole js_zero) with 0. case_bool_decide; case_decide; try done; lia.
Qed.

Lemma net_credit c c' account z m : safe_int z ->
  net c [mkTransaction account js_zero (Number_of z) (with_currency m c')] = posted c c' z.
Proof.
  intros Hz. unfold net, posted. rewrite tx_in_with_currency. cbn [tx_credit tx_debit]. rewrite whole_Number by done.
  change (whole js_zero) with 0. case_bool_decide; case_decide; try done; lia.
Qed.

(** ** Balance *)

Definition balanced (l : list transaction) : Prop := forall c, net c l = 0.

Section Balance.
Context `{Laws : MediciEntryLaws}.

(** Amounts in their currencies, within what a double holds, the fee at most
    the total. *)
Definition totals_ok (usd btc usdFee btcFee : PaymentAmount) : Prop :=
  pay_currency usd = Usd /\ pay_currency btc = Btc /\ pay_currency usdFee = Usd /\ pay_currency btcFee = Btc /\
  0 <= amount usdFee <= amount usd /\ 0 <= amount btcFee <= amount btc /\ amount usd <= 2 ^ 53 /\ amount btc <= 2 ^ 53.

(** The one pair of accounts and fees whose entry is left unbalanced: both
    sides in dollars, and a bank fee in sats that is worth no cent. *)
Definition fee_without_cents (debit credit : WalletCurrency) (usdFee btcFee : PaymentAmount) : bool :=
  bool_decide (debit = Usd) && bool_decide (credit = Usd) && (amount usdFee =? 0) && (0 <? amount btcFee).

Lemma net_entry c ids e meta internal usd btc usdFee btcFee debit dm credit cm :
  transactions e = [] -> totals_ok usd btc usdFee btcFee ->
  ad_currency debit ∈ [Btc; Usd] -> ad_currency credit ∈ [Btc; Usd] ->
  net c (transactions (creditAccount
    (debitAccount (withBankFee ids e meta internal usd btc usdFee btcFee) debit dm) credit cm)) =
  if fee_without_cents (ad_currency debit) (ad_currency credit) usdFee btcFee then posted c Btc (amount btcFee) else 0.
Proof.
  intros He (Cu & Cb & Cuf & Cbf & Hu & Hb & Su & Sb) Hd Hc.
  assert (forall z, 0 <= z <= 2 ^ 53 -> safe_int z) as Hs by (unfold safe_int; lia).
  unfold creditAccount, removeZeroAmountEntries, debitAccount, withBankFee. cbn [set_entry b_entry b_usdWithFees
    b_btcWithFees b_usdBankFee b_btcBankFee b_metadata b_additionalInternalMetadata b_staticAccountIds].
  rewrite transactions_set, net_filter_zero, transactions_credit, net_app, net_credit
    by (case_decide; simpl; apply Hs; lia).
  unfold addDealerDebitsAndCredits, fee_without_cents. cbn [b_entry b_usdWithFees
    b_btcWithFees b_usdBankFee b_btcBankFee b_metadata b_additionalInternalMetadata b_staticAccountIds set_entry].
  rewrite !elem_of_cons, elem_of_nil in Hd, Hc.
  destruct Hd as [Hd|[Hd|[]]], Hc as [Hc|[Hc|[]]]; rewrite Hd, Hc; simpl;
    destruct (Z.ltb_spec 0 (amount btcFee)), (Z.ltb_spec 0 (amount usdFee)), (Z.eqb_spec (amount usdFee) 0);
    try lia; cbn [andb];
    rewrite ?transactions_credit, ?transactions_debit, ?transactions_credit, ?transactions_debit, ?transactions_credit, He;
    rewrite ?net_app, ?net_debit, ?net_credit by (simpl; apply Hs; lia);
    rewrite ?Cu, ?Cb, ?Cuf, ?Cbf; unfold posted; destruct c; simpl; lia.
Qed.
End Balance.

(** * Metadata of ledger transactions *)

(** ** Types of ledger transactions *)

Inductive LedgerTransactionType :=
| Ibex_invoice | Ibex_onchain | JamaicanRtgs | TxInvoice | TxPayment | LnFeeReimbursement | OnchainReceipt
| OnchainPayment | IntraLedgerTx | LnIntraLedger | OnchainIntraLedger | WalletIdTradeIntraAccount
| LnTradeIntraAccount | OnChainTradeIntraAccount | TxFee | ToColdStorage | ToHotWallet | TxEscrow | RoutingRevenue.

#[global] Instance LedgerTransactionType_eq_dec : EqDecision LedgerTransactionType.
Proof. solve_decision. Defined.

(** The text in the database *)
Definition type_text (t : LedgerTransactionType) : string :=
  match t with
  | Ibex_invoice => "ibex:invoice" | Ibex_onchain => "ibex:onchain" | JamaicanRtgs => "jamaican_rtgs"
  | TxInvoice => "invoice" | TxPayment => "payment" | LnFeeReimbursement => "fee_reimbursement"
  | OnchainReceipt => "onchain_receipt" | OnchainPayment => "onchain_payment"
  | IntraLedgerTx => "on_us" | LnIntraLedger => "ln_on_us" | OnchainIntraLedger => "onchain_on_us"
  | WalletIdTradeIntraAccount => "self_trade" | LnTradeIntraAccount => "ln_self_trade"
  | OnChainTradeIntraAccount => "onchain_self_trade" | TxFee => "fee" | ToColdStorage => "to_cold_storage"
  | ToHotWallet => "to_hot_wallet" | TxEscrow => "escrow" | RoutingRevenue => "routing_fee"
  end.

Definition all_types : list LedgerTransactionType :=
  [Ibex_invoice; Ibex_onchain; JamaicanRtgs; TxInvoice; TxPayment; LnFeeReimbursement; OnchainReceipt;
   OnchainPayment; IntraLedgerTx; LnIntraLedger; OnchainIntraLedger; WalletIdTradeIntraAccount;
   LnTradeIntraAccount; OnChainTradeIntraAccount; TxFee; ToColdStorage; ToHotWallet; TxEscrow; RoutingRevenue].

Lemma elem_of_all_types t : t ∈ all_types.
Proof. destruct t; set_solver. Qed.

#[global] Instance type_text_inj : Inj (=) (=) type_text.
Proof. intros [] []; done. Qed.

(** ** Amounts *)

Definition toSats (z : Z) : js_float := Number_of z.
Definition toCents (z : Z) : js_float := Number_of z.

Definition UsdDisplayCurrency : string := "USD".

(** [DisplayTxnAmounts] *)
Record DisplayTxnAmounts := mkDisplayTxn { dt_amount : js_float; dt_fee : js_float; dt_currency : string }.

(** The members it spreads into an object *)
Definition display_metadata (d : DisplayTxnAmounts) : metadata :=
  <["displayAmount" := MNumber (dt_amount d)]> (<["displayFee" := MNumber (dt_fee d)]>
  (<["displayCurrency" := MText (dt_currency d)]> ∅)).

(** The sender's and the recipient's part of the arguments *)
Definition displayArgsFromArgs (sender recipient : DisplayTxnAmounts) : DisplayTxnAmounts * DisplayTxnAmounts :=
  (sender, recipient).

Definition internalMetadataAmounts (centsAmount centsFee : Z) : DisplayTxnAmounts :=
  mkDisplayTxn (Number_of centsAmount) (Number_of centsFee) UsdDisplayCurrency.

(** The row of the wallet, and the rows of the bank's accounts: a wallet shown
    in dollars has the amounts of the payment itself. *)
Definition debitOrCreditMetadataAmounts (centsAmount centsFee : Z) (d : DisplayTxnAmounts) :
    DisplayTxnAmounts * DisplayTxnAmounts :=
  let usd := String.eqb (dt_currency d) UsdDisplayCurrency in
  (mkDisplayTxn (if usd then Number_of centsAmount else dt_amount d)
     (if usd then Number_of centsFee else dt_fee d) (dt_currency d),
   internalMetadataAmounts centsAmount centsFee).

(** Rows of the debited, of the credited and of the internal accounts *)
Definition additionalMetadataAmounts (centsAmount centsFee : Z) (args : DisplayTxnAmounts * DisplayTxnAmounts) :
    DisplayTxnAmounts * DisplayTxnAmounts * DisplayTxnAmounts :=
  let '(debit, internal) := debitOrCreditMetadataAmounts centsAmount centsFee args.1 in
  (debit, (debitOrCreditMetadataAmounts centsAmount centsFee args.2).1, internal).

(** ** The constructors *)

Definition meta_opt (s : option string) : meta_value := match s with Some t => MText t | None => MUndefined end.

(** What a constructor returns; a send has nothing for a credited wallet, a
    receipt nothing for a debited one. *)
Record ledger_metadata := mkLedgerMeta {
  lm_metadata : metadata;
  lm_debit : option metadata;
  lm_credit : option metadata;
  lm_internal : option metadata
}.

(** The four amounts every payment records *)
Definition amount_members (a : AmountsAndFees) (m : metadata) : metadata :=
  <["satsAmount" := MNumber (toSats (amount (btcPaymentAmount a)))]>
  (<["satsFee" := MNumber (toSats (amount (btcProtocolAndBankFee a)))]>
  (<["centsAmount" := MNumber (toCents (amount (usdPaymentAmount a)))]>
  (<["centsFee" := MNumber (toCents (amount (usdProtocolAndBankFee a)))]> m))).

Definition typed (t : LedgerTransactionType) (pending : bool) (m : metadata) : metadata :=
  <["type" := MText (type_text t)]> (<["pending" := MBool pending]> m).

Definition send_result (m : metadata) (rows : DisplayTxnAmounts * DisplayTxnAmounts) : ledger_metadata :=
  mkLedgerMeta m (Some (display_metadata rows.1)) None (Some (display_metadata rows.2)).
Definition receive_result (m : metadata) (rows : DisplayTxnAmounts * DisplayTxnAmounts) : ledger_metadata :=
  mkLedgerMeta m None (Some (display_metadata rows.1)) (Some (display_metadata rows.2)).

Definition cents_rows (a : AmountsAndFees) (d : DisplayTxnAmounts) : DisplayTxnAmounts * DisplayTxnAmounts :=
  debitOrCreditMetadataAmounts (amount (usdPaymentAmount a)) (amount (usdProtocolAndBankFee a)) d.

Definition LnSendLedgerMetadata (paymentHash pubkey : string) (a : AmountsAndFees) (d : DisplayTxnAmounts)
    (feeKnownInAdvance : bool) (memoOfPayer : option string) : ledger_metadata :=
  send_result
    (amount_members a (typed TxPayment true
      (<["hash" := MText paymentHash]> (<["pubkey" := MText pubkey]>
      (<["feeKnownInAdvance" := MBool feeKnownInAdvance]> (<["memoPayer" := meta_opt memoOfPayer]> ∅))))))
    (cents_rows a d).

Definition OnChainSendLedgerMetadata (a : AmountsAndFees) (d : DisplayTxnAmounts) (payeeAddresses : list string)
    (sendAll : bool) (memoOfPayer : option string) : ledger_metadata :=
  send_result
    (amount_members a (typed OnchainPayment true
      (<["hash" := MUndefined]> (<["payee_addresses" := MTexts payeeAddresses]>
      (<["sendAll" := MBool sendAll]> (<["memoPayer" := meta_opt memoOfPayer]> ∅))))))
    (cents_rows a d).

Definition OnChainReceiveLedgerMetadata (onChainTxHash : string) (onChainTxVout : js_float) (a : AmountsAndFees)
    (d : DisplayTxnAmounts) (payeeAddresses : list string) (newAddressRequestId : option string) : ledger_metadata :=
  receive_result
    (amount_members a (typed OnchainReceipt false
      (<["hash" := MText onChainTxHash]> (<["vout" := MNumber onChainTxVout]>
      (<["payee_addresses" := MTexts payeeAddresses]> (<["request_id" := meta_opt newAddressRequestId]> ∅))))))
    (cents_rows a d).

Definition LnReceiveLedgerMetadata (paymentHash pubkey : string) (a : AmountsAndFees) (d : DisplayTxnAmounts) :
    ledger_metadata :=
  receive_result
    (amount_members a (typed TxInvoice false (<["hash" := MText paymentHash]> (<["pubkey" := MText pubkey]> ∅))))
    (cents_rows a d).

Definition LnFeeReimbursementReceiveLedgerMetadata (a : AmountsAndFees) (paymentHash journalId : string)
    (d : DisplayTxnAmounts) : ledger_metadata :=
  receive_result
    (amount_members a (typed LnFeeReimbursement false
      (<["hash" := MText paymentHash]> (<["related_journal" := MText journalId]> ∅))))
    (cents_rows a d).

Definition LnFailedPaymentReceiveLedgerMetadata (a : AmountsAndFees) (paymentHash journalId : string)
    (d : DisplayTxnAmounts) : ledger_metadata :=
  receive_result
    (amount_members a (typed TxPayment false
      (<["hash" := MText paymentHash]> (<["related_journal" := MText journalId]> ∅))))
    (cents_rows a d).

(** [rows] with [extra] members on the debited wallet's row *)
Definition intra_result (m : metadata) (rows : DisplayTxnAmounts * DisplayTxnAmounts * DisplayTxnAmounts)
    (extra : metadata) : ledger_metadata :=
  mkLedgerMeta m (Some (spread (display_metadata rows.1.1) extra)) (Some (display_metadata rows.1.2))
    (Some (display_metadata rows.2)).

Definition both_rows (a : AmountsAndFees) (sender recipient : DisplayTxnAmounts) :
    DisplayTxnAmounts * DisplayTxnAmounts * DisplayTxnAmounts :=
  additionalMetadataAmounts (amount (usdPaymentAmount a)) (amount (usdProtocolAndBankFee a))
    (displayArgsFromArgs sender recipient).

Definition OnChainIntraledgerLedgerMetadata (payeeAddresses : list string) (sendAll : bool) (a : AmountsAndFees)
    (memoOfPayer senderUsername recipientUsername : option string) (sender recipient : DisplayTxnAmounts) :
    ledger_metadata :=
  intra_result
    (amount_members a (typed OnchainIntraLedger false
      (<["memoPayer" := MUndefined]> (<["username" := meta_opt senderUsername]>
      (<["payee_addresses" := MTexts payeeAddresses]> (<["sendAll" := MBool sendAll]> ∅))))))
    (both_rows a sender recipient)
    (<["memoPayer" := meta_opt memoOfPayer]> (<["username" := meta_opt recipientUsername]> ∅)).

Definition WalletIdIntraledgerLedgerMetadata (a : AmountsAndFees)
    (memoOfPayer senderUsername recipientUsername : option string) (sender recipient : DisplayTxnAmounts) :
    ledger_metadata :=
  intra_result
    (amount_members a (typed IntraLedgerTx false
      (<["memoPayer" := meta_opt memoOfPayer]> (<["username" := meta_opt senderUsername]> ∅))))
    (both_rows a sender recipient) (<["username" := meta_opt recipientUsername]> ∅).

Definition LnIntraledgerLedgerMetadata (paymentHash pubkey : string) (a : AmountsAndFees)
    (memoOfPayer senderUsername recipientUsername : option string) (sender recipient : DisplayTxnAmounts) :
    ledger_metadata :=
  intra_result
    (amount_members a (typed LnIntraLedger false
      (<["memoPayer" := MUndefined]> (<["username" := meta_opt senderUsername]>
      (<["hash" := MText paymentHash]> (<["pubkey" := MText pubkey]> ∅))))))
    (both_rows a sender recipient)
    (<["memoPayer" := meta_opt memoOfPayer]> (<["username" := meta_opt recipientUsername]> ∅)).

(** A trade between the wallets of one account shows both of them alike. *)
Definition OnChainTradeIntraAccountLedgerMetadata (payeeAddresses : list string) (sendAll : bool)
    (a : AmountsAndFees) (memoOfPayer : option string) (sender : DisplayTxnAmounts) : ledger_metadata :=
  intra_result
    (amount_members a (typed OnChainTradeIntraAccount false
      (<["memoPayer" := MUndefined]> (<["payee_addresses" := MTexts payeeAddresses]>
      (<["sendAll" := MBool sendAll]> ∅)))))
    (both_rows a sender sender) (<["memoPayer" := meta_opt memoOfPayer]> ∅).

Definition WalletIdTradeIntraAccountLedgerMetadata (a : AmountsAndFees) (memoOfPayer : option string)
    (sender : DisplayTxnAmounts) : ledger_metadata :=
  intra_result
    (amount_members a (typed WalletIdTradeIntraAccount false (<["memoPayer" := meta_opt memoOfPayer]> ∅)))
    (both_rows a sender sender) ∅.

Definition LnTradeIntraAccountLedgerMetadata (paymentHash pubkey : string) (a : AmountsAndFees)
    (memoOfPayer : option string) (sender : DisplayTxnAmounts) : ledger_metadata :=
  intra_result
    (amount_members a (typed LnTradeIntraAccount false
      (<["memoPayer" := MUndefined]> (<["hash" := MText paymentHash]> (<["pubkey" := MText pubkey]> ∅)))))
    (both_rows a sender sender) (<["memoPayer" := meta_opt memoOfPayer]> ∅).

Definition OnChainFeeReconciliationLedgerMetadata (payoutId txHash : string) (pending : bool) : metadata :=
  typed OnchainPayment pending (<["payout_id" := MText payoutId]> (<["hash" := MText txHash]> ∅)).

Definition LnChannelOpenOrClosingFee (txId : string) : metadata :=
  typed TxFee false (<["txid" := MText txId]> ∅).

Definition Escrow : metadata := typed TxEscrow false ∅.

(** [collectedOn] is the [toDateString()] of the date. *)
Definition LnRoutingRevenue (collectedOn : string) : metadata :=
  typed RoutingRevenue false (<["feesCollectedOn" := MText collectedOn]> ∅).
