(* ===== verification/LedgerFacade.v ===== *)
(** * The ledger facade

    Model of [src/src/services/ledger/facade] (the record functions, the
    settlement and the reversal of sends), of [helpers.ts], [send.ts],
    [caching.ts] and [services/transactions-metadata.ts] of the ledger
    service. The rows of the ledger are the documents of the bookkeeping
    library; its [commit], [void] and [ledger] are parameters, with what they
    promise as the laws [BookLaws]. *)

From stdpp Require Import base gmap list strings.
From Stdlib Require Import ZArith Lia Ascii.
From S2P Require Import Prelude JsStrings JsNumbers JsDecimals Errors MoneyAmounts World Repos.
From S2P Require Import PaymentAmounts PaymentFlows LedgerEntries.

Close Scope Q_scope.
Open Scope Z_scope.

(** ** Documents *)

(** [ILedgerTransaction]: the fields of the library, and those of the schema. *)
Record ledger_row := mkLedgerRow {
  r_id : string;
  r_journal : string;
  r_accounts : string;
  r_memo : string;
  r_timestamp : Z;
  r_debit : js_float;
  r_credit : js_float;
  r_meta : metadata
}.

Definition row_tx (r : ledger_row) : transaction :=
  mkTransaction (r_accounts r) (r_debit r) (r_credit r) (r_meta r).

Definition set_row_meta (m : metadata) (r : ledger_row) : ledger_row :=
  mkLedgerRow (r_id r) (r_journal r) (r_accounts r) (r_memo r) (r_timestamp r) (r_debit r) (r_credit r) m.

(** [LedgerTransactionMetadata] *)
Record tx_metadata := mkTxMetadata {
  tm_id : string; tm_hash : option string; tm_revealedPreImage : option string }.

(** [LedgerJournal], and what the library saves. *)
Record LedgerJournal := mkJournal { j_id : string; j_voided : bool; j_transactionIds : list string }.

(** A query: the path of an account, the id of a row, and fields with their
    values. *)
Record ledger_query := mkQuery {
  q_account : option string; q_id : option string; q_fields : list (string * meta_value) }.

(** Equality of field values as the database compares them *)
Definition meta_eqb (a b : meta_value) : bool :=
  match a, b with
  | MText s, MText t => String.eqb s t
  | MBool x, MBool y => Bool.eqb x y
  | MNumber x, MNumber y => fl_eqb x y
  | MTexts l, MTexts l' => bool_decide (l = l')
  | MUndefined, MUndefined => true
  | _, _ => false
  end.

Definition field_is (r : ledger_row) (kv : string * meta_value) : bool :=
  match r_meta r !! kv.1 with Some v => meta_eqb v kv.2 | None => false end.

(** The path of an account matches the accounts below it. *)
Definition under (account path : string) : bool :=
  let p := split_on ":" path in
  bool_decide (take (length p) (split_on ":" account) = p).

Definition row_matches (q : ledger_query) (r : ledger_row) : bool :=
  match q_account q with Some p => under (r_accounts r) p | None => true end &&
  match q_id q with Some i => String.eqb (r_id r) i | None => true end && forallb (field_is r) (q_fields q).

(** ** The library and the rest of the outside *)

Class LedgerExternal `{X : External} `{L : MediciEntry} := {
  book_commit : entry -> list ledger_row -> (error + LedgerJournal) * list ledger_row;
  book_void : string -> string -> list ledger_row -> (error + LedgerJournal) * list ledger_row;
  book_ledger : ledger_query -> list ledger_row -> list ledger_row;
  book_balance : string -> list ledger_row -> js_float;
  mongo_sum : list js_float -> js_float;
  bankOwner_resolver : outcome error string;
  dealerUsd_resolver : outcome error string;
  dealerBtc_resolver : outcome error string
}.

(** The row a transaction of an entry becomes: every member that is not
    [undefined] is a field. *)
Definition stores (j : string) (t : transaction) (r : ledger_row) : Prop :=
  r_journal r = j /\ r_accounts r = tx_account t /\ r_debit r = tx_debit t /\ r_credit r = tx_credit t /\
  forall k v, tx_meta t !! k = Some v -> v <> MUndefined -> r_meta r !! k = Some v.

(** The row that undoes another one *)
Definition reverses (j : string) (old r : ledger_row) : Prop :=
  r_journal r = j /\ r_accounts r = r_accounts old /\ r_debit r = r_credit old /\ r_credit r = r_debit old /\
  r_meta r !! "currency" = r_meta old !! "currency".

Definition fresh_journal (j : string) (rows : list ledger_row) : Prop := Forall (fun r => r_journal r <> j) rows.
Definition of_journal (j : string) (rows : list ledger_row) : list ledger_row :=
  filter (fun r => r_journal r = j) rows.

(** The integers of a list of numbers, and their sum *)
Definition whole_sum (l : list js_float) : Z := foldr (fun x z => whole x + z) 0 l.
Definition integral (x : js_float) : Prop := exists z, safe_int z /\ x = Number_of z.

(** Credits less debits of an account *)
Definition balance_of (account : string) (rows : list ledger_row) : Z :=
  let rows := filter (fun r => under (r_accounts r) account) rows in
  whole_sum (map r_credit rows) - whole_sum (map r_debit rows).

(** Sums that stay within the integers a double holds are exact. *)
Definition small_sums (l : list js_float) : Prop :=
  Forall integral l /\ foldr (fun x z => Z.abs (whole x) + z) 0 l <= 2 ^ 53.

Class BookLaws `{LedgerExternal} := {
  commit_stores : forall e rows saved rows', book_commit e rows = (inr saved, rows') ->
    fresh_journal (j_id saved) rows /\
    exists news, rows' = rows ++ news /\ Forall2 (stores (j_id saved)) (transactions e) news;
  void_reverses : forall id reason rows saved rows', book_void id reason rows = (inr saved, rows') ->
    fresh_journal (j_id saved) rows /\
    exists news, rows' = rows ++ news /\ Forall2 (reverses (j_id saved)) (of_journal id rows) news;
  ledger_filters : forall q rows, book_ledger q rows ≡ₚ filter (fun r => row_matches q r) rows;
  balance_exact : forall account rows,
    small_sums (map r_credit (filter (fun r => under (r_accounts r) account) rows) ++
                map r_debit (filter (fun r => under (r_accounts r) account) rows)) ->
    book_balance account rows = Number_of (balance_of account rows);
  sum_exact : forall l, small_sums l -> mongo_sum l = Number_of (whole_sum l)
}.

(** The world of the ledger: the collections of the ledger and of the payments
    beside the others, and the cached wallet ids. *)
Record lworld `{External} := mkLWorld {
  l_base : world;
  l_rows : list ledger_row;
  l_txmeta : gmap string tx_metadata;
  l_bankOwner : option string;
  l_dealerUsd : option string;
  l_dealerBtc : option string;
  l_flows : list FlowRecord
}.

Section Facade.
Context `{LX : LedgerExternal}.

Definition LApp (A : Type) : Type := M lworld error A.

Definition set_lbase b (w : lworld) : lworld :=
  mkLWorld _ b (l_rows w) (l_txmeta w) (l_bankOwner w) (l_dealerUsd w) (l_dealerBtc w) (l_flows w).
Definition set_lrows r (w : lworld) : lworld :=
  mkLWorld _ (l_base w) r (l_txmeta w) (l_bankOwner w) (l_dealerUsd w) (l_dealerBtc w) (l_flows w).
Definition set_txmeta t (w : lworld) : lworld :=
  mkLWorld _ (l_base w) (l_rows w) t (l_bankOwner w) (l_dealerUsd w) (l_dealerBtc w) (l_flows w).
Definition set_bankOwner i (w : lworld) : lworld :=
  mkLWorld _ (l_base w) (l_rows w) (l_txmeta w) i (l_dealerUsd w) (l_dealerBtc w) (l_flows w).
Definition set_dealerUsd i (w : lworld) : lworld :=
  mkLWorld _ (l_base w) (l_rows w) (l_txmeta w) (l_bankOwner w) i (l_dealerBtc w) (l_flows w).
Definition set_dealerBtc i (w : lworld) : lworld :=
  mkLWorld _ (l_base w) (l_rows w) (l_txmeta w) (l_bankOwner w) (l_dealerUsd w) i (l_flows w).
Definition set_flows f (w : lworld) : lworld :=
  mkLWorld _ (l_base w) (l_rows w) (l_txmeta w) (l_bankOwner w) (l_dealerUsd w) (l_dealerBtc w) f.

(** A call on the other collections *)
Definition lbase {A} (c : App A) : LApp A := fun w => let '(o, b) := c (l_base w) in (o, set_lbase b w).

(** A call on the database, as [mongo], on the rows of the ledger. *)
Definition lmongo {A} (op : lworld -> outcome error A * lworld) : LApp A :=
  fun w =>
    let w1 := set_lbase (next_op (l_base w)) w in
    match mongo_fault (w_ops (l_base w)) with
    | None => op w1
    | Some (FaultBefore msg) => (Throw (new_error JsError msg), w1)
    | Some (FaultAfter msg) => (Throw (new_error JsError msg), (op w1).2)
    end.

Definition on_rows {A} (op : list ledger_row -> outcome error A * list ledger_row) : LApp A :=
  lmongo (fun w => let '(o, rows) := op (l_rows w) in (o, set_lrows rows w)).

(** A call of the library on the rows: a rejection is an exception. *)
Definition on_book {A} (op : list ledger_row -> (error + A) * list ledger_row) : LApp A :=
  on_rows (fun rows => let '(r, rows') := op rows in (match r with inr a => Ok a | inl e => Throw e end, rows')).

Definition ledger_call (q : ledger_query) : LApp (list ledger_row) :=
  lmongo (fun w => (Ok (book_ledger q (l_rows w)), w)).

(** [try { ... } catch (err) { return new UnknownLedgerError(err) }] *)
Definition ledger_try {A} (c : LApp A) : LApp A :=
  catch c (fun e => fail (new_error UnknownLedgerError (err_message e))).

(** [Transaction.updateMany(filter, fields)]: how many documents changed. *)
Definition set_fields (fields : list (string * meta_value)) (r : ledger_row) : ledger_row :=
  set_row_meta (foldr (fun kv m => <[kv.1 := kv.2]> m) (r_meta r) fields) r.
Definition differs (fields : list (string * meta_value)) (r : ledger_row) : bool :=
  negb (forallb (field_is r) fields).
Definition updateMany (sel : ledger_row -> bool) (fields : list (string * meta_value)) : LApp nat :=
  on_rows (fun rows =>
    (Ok (length (filter (fun r => sel r && differs fields r) rows)),
     map (fun r => if sel r then set_fields fields r else r) rows)).

(** ** [services/transactions-metadata.ts] *)

(** [insertMany]: in order, until an id is taken. *)
Fixpoint insert_all (l : list tx_metadata) (store : gmap string tx_metadata) :
    outcome error unit * gmap string tx_metadata :=
  match l with
  | [] => (Ok tt, store)
  | t :: l' =>
      match store !! tm_id t with
      | Some _ => (Throw (new_error JsError "E11000 duplicate key error collection"), store)
      | None => insert_all l' (<[tm_id t := t]> store)
      end
  end.

(** [translateToLedgerTxMetadata] *)
Definition translateToLedgerTxMetadata (t : tx_metadata) : tx_metadata :=
  mkTxMetadata (tm_id t) (truthy_text (tm_hash t)) (truthy_text (tm_revealedPreImage t)).

Definition lguarded {A} (c : LApp A) : LApp A := catch c (fun e => fail (parseRepositoryError e)).

Definition persistAll (l : list tx_metadata) : LApp (list tx_metadata) :=
  match l with
  | [] => ret []
  | _ =>
      lguarded (
        let! ids := lbase (fold_m (fun acc t => let! i := toObjectId (tm_id t) in ret (acc ++ [i])) [] l) in
        lmongo (fun w => let '(o, store) := insert_all l (l_txmeta w) in (o, set_txmeta store w)) ;;
        ret (map translateToLedgerTxMetadata l))
  end.

Definition updateByHash (hash : string) (revealedPreImage : string) : LApp unit :=
  lguarded (
    let! n := lmongo (fun w =>
      (Ok (size (filter (fun kv => tm_hash kv.2 = Some hash /\ tm_revealedPreImage kv.2 <> Some revealedPreImage)
                   (l_txmeta w))),
       set_txmeta ((fun t => if decide (tm_hash t = Some hash)
                             then mkTxMetadata (tm_id t) (tm_hash t) (Some revealedPreImage) else t) <$> l_txmeta w) w)) in
    if (0 <? Z.of_nat n) then ret tt else fail (new_error0 NoTransactionToUpdateError)).

Definition findById (id : string) : LApp tx_metadata :=
  lguarded (
    let! i := lbase (toObjectId id) in
    let! found := lmongo (fun w => (Ok (l_txmeta w !! i), w)) in
    match found with
    | Some t => ret (translateToLedgerTxMetadata t)
    | None => fail (new_error0 CouldNotFindTransactionMetadataError)
    end).

(** ** [caching.ts] *)

Definition cached_id (get : lworld -> option string) (put : option string -> lworld -> lworld)
    (resolver : outcome error string) : LApp string :=
  let! cached := gets get in
  match truthy_text cached with
  | Some id => ret id
  | None =>
      let! id := lift (match resolver with Err e => Throw e | o => o end) in
      modify (put (Some id)) ;;
      ret id
  end.

Definition getBankOwnerWalletId : LApp string := cached_id l_bankOwner set_bankOwner bankOwner_resolver.
Definition getDealerUsdWalletId : LApp string := cached_id l_dealerUsd set_dealerUsd dealerUsd_resolver.
Definition getDealerBtcWalletId : LApp string := cached_id l_dealerBtc set_dealerBtc dealerBtc_resolver.

(** [Object.values(await getNonEndUserWalletIds())] *)
Definition getNonEndUserWalletIds : LApp (list string) :=
  let! dealerBtc := getDealerBtcWalletId in
  let! dealerUsd := getDealerUsdWalletId in
  let! bankOwner := getBankOwnerWalletId in
  let! funder := lbase getFunderWalletId in
  ret [dealerBtc; dealerUsd; bankOwner; funder].

(** ** [static-account-ids.ts] and [helpers.ts] *)

Definition staticAccountIds : LApp StaticAccountIds :=
  ledger_try (
    let! bankOwner := getBankOwnerWalletId in
    let! dealerUsd := getDealerUsdWalletId in
    ret (mkStatic (toLedgerAccountId bankOwner) "Flash Fork N/A" (toLedgerAccountId dealerUsd))).

(** The metadata documents are written without waiting for them, and their
    error is dropped. *)
Definition persistAndReturnEntry (e : entry) (hash revealedPreImage : option string) : LApp LedgerJournal :=
  ledger_try (
    let! journalEntry := on_book (book_commit e) in
    attempt (persistAll (map (fun id => mkTxMetadata id hash revealedPreImage) (j_transactionIds journalEntry))) ;;
    ret journalEntry).

Definition meta_hash (m : metadata) : option string :=
  match m !! "hash" with Some (MText h) => Some h | _ => None end.

(** ** The record functions *)

(** [{ btc, usd }] *)
Definition both_amounts : Type := PaymentAmount * PaymentAmount.

Definition actual_fee (bankFee : option both_amounts) : both_amounts := default (ZERO_SATS, ZERO_CENTS) bankFee.

(** [RecordSendArgs] *)
Record RecordSendArgs := mkRecordSend {
  rs_description : string;
  rs_sender : WalletDescriptor;
  rs_amount : both_amounts;
  rs_bankFee : option both_amounts;
  rs_metadata : metadata;
  rs_debit : option metadata;
  rs_internal : metadata
}.

(** [RecordReceiveArgs] *)
Record RecordReceiveArgs := mkRecordReceive {
  rr_description : string;
  rr_recipient : WalletDescriptor;
  rr_amount : both_amounts;
  rr_bankFee : option both_amounts;
  rr_metadata : metadata;
  rr_hash : option string;
  rr_revealedPreImage : option string;
  rr_credit : option metadata;
  rr_internal : metadata
}.

(** [RecordIntraledgerArgs] *)
Record RecordIntraledgerArgs := mkRecordIntra {
  ri_description : string;
  ri_sender : WalletDescriptor;
  ri_recipient : WalletDescriptor;
  ri_amount : both_amounts;
  ri_metadata : metadata;
  ri_debit : option metadata;
  ri_credit : option metadata;
  ri_internal : metadata
}.

Definition send_builder (ids : StaticAccountIds) (args : RecordSendArgs) : BuilderState * WalletCurrency :=
  let fee := actual_fee (rs_bankFee args) in
  debitAccount (withBankFee ids (entry_new (rs_description args)) (rs_metadata args) (rs_internal args)
    (rs_amount args).2 (rs_amount args).1 fee.2 fee.1) (toLedgerAccountDescriptor (rs_sender args)) (rs_debit args).

Definition recordSendOffChain (args : RecordSendArgs) : LApp LedgerJournal :=
  let! accountIds := staticAccountIds in
  persistAndReturnEntry (creditOffChain (send_builder accountIds args)) (meta_hash (rs_metadata args)) None.

Definition recordSendOnChain (args : RecordSendArgs) : LApp LedgerJournal :=
  let! accountIds := staticAccountIds in
  persistAndReturnEntry (creditOnChain (send_builder accountIds args)) (meta_hash (rs_metadata args)) None.

Definition receive_builder (ids : StaticAccountIds) (args : RecordReceiveArgs) : BuilderState :=
  let fee := actual_fee (rr_bankFee args) in
  withBankFee ids (entry_new (rr_description args)) (rr_metadata args) (rr_internal args)
    (calc_add (rr_amount args).2 fee.2) (calc_add (rr_amount args).1 fee.1) fee.2 fee.1.

Definition recordReceiveOffChain (args : RecordReceiveArgs) : LApp LedgerJournal :=
  let! accountIds := staticAccountIds in
  persistAndReturnEntry
    (creditAccount (debitLnd (receive_builder accountIds args)) (toLedgerAccountDescriptor (rr_recipient args))
       (rr_credit args))
    (rr_hash args) (rr_revealedPreImage args).

Definition recordReceiveOnChain (args : RecordReceiveArgs) : LApp LedgerJournal :=
  let! accountIds := staticAccountIds in
  persistAndReturnEntry
    (creditAccount (debitOnChain (receive_builder accountIds args)) (toLedgerAccountDescriptor (rr_recipient args))
       (rr_credit args))
    (rr_hash args) (rr_revealedPreImage args).

(** The difference is the bank's to pay or to keep. *)
Definition reconciliation_entry (accountIds : StaticAccountIds) (estimatedFee actualFee : PaymentAmount)
    (meta : metadata) : entry :=
  let e := entry_new "" in
  if amount estimatedFee <? amount actualFee
  then let d := calc_sub actualFee estimatedFee in
       feeOnly_creditOnChain (feeOnly_debitBankOwner accountIds e meta d) meta d
  else let d := calc_sub estimatedFee actualFee in
       feeOnly_creditBankOwner accountIds (feeOnly_debitOnChain e meta d) meta d.

Definition recordReceiveOnChainFeeReconciliation (estimatedFee actualFee : PaymentAmount) (meta : metadata) :
    LApp LedgerJournal :=
  let! accountIds := staticAccountIds in
  persistAndReturnEntry (reconciliation_entry accountIds estimatedFee actualFee meta) (meta_hash meta) None.

Definition intraledger_entry (accountIds : StaticAccountIds) (args : RecordIntraledgerArgs) : entry :=
  creditAccount
    (debitAccount (withBankFee accountIds (entry_new (ri_description args)) (ri_metadata args) (ri_internal args)
       (ri_amount args).2 (ri_amount args).1 ZERO_CENTS ZERO_SATS)
       (toLedgerAccountDescriptor (ri_sender args)) (ri_debit args))
    (toLedgerAccountDescriptor (ri_recipient args)) (ri_credit args).

Definition recordIntraledger (args : RecordIntraledgerArgs) : LApp LedgerJournal :=
  let! accountIds := staticAccountIds in
  persistAndReturnEntry (intraledger_entry accountIds args) (meta_hash (ri_metadata args)) None.

(** ** Reversal and settlement *)

(** [recordLnSendRevert], and [revertLightningPayment] of [send.ts], which is
    the same *)
Definition recordLnSendRevert (journalId paymentHash : string) : LApp unit :=
  ledger_try (
    let! journalEntry := on_book (book_void journalId "Payment canceled") in
    attempt (persistAll (map (fun id => mkTxMetadata id (Some paymentHash) None) (j_transactionIds journalEntry))) ;;
    ret tt).

Definition settlePendingLnSend (paymentHash : string) : LApp unit :=
  ledger_try (
    let! n := updateMany (fun r => field_is r ("hash", MText paymentHash)) [("pending", MBool false)] in
    if (0 <? Z.of_nat n) then ret tt else fail (new_error0 NoTransactionToSettleError)).

Definition revertOnChainPayment (journalId description : string) : LApp unit :=
  ledger_try (
    let! j := lbase (toObjectId journalId) in
    updateMany (fun r => String.eqb (r_journal r) j) [("pending", MBool false)] ;;
    on_book (book_void journalId description) ;;
    ret tt).

Definition setOnChainTxPayoutId (journalId payoutId : string) : LApp unit :=
  if negb (valid_object_id journalId) then fail (new_error0 NoTransactionToUpdateError)
  else ledger_try (
    let! n := updateMany (fun r => String.eqb (r_journal r) journalId) [("payout_id", MText payoutId)] in
    if (0 <? Z.of_nat n) then ret tt else fail (new_error0 NoTransactionToUpdateError)).
End Facade.
