(* ===== verification/LedgerBalance.v ===== *)
(** * Double entry

    The facade keeps the books: every journal it writes is balanced in each
    currency, and so is every journal that reverses one. *)

From stdpp Require Import base gmap list strings.
From Stdlib Require Import ZArith Lia Ascii.
From S2P Require Import Prelude JsStrings JsNumbers JsDecimals Errors MoneyAmounts World Repos.
From S2P Require Import PaymentAmounts PaymentFlows LedgerEntries LedgerFacade.

Close Scope Q_scope.
Open Scope Z_scope.

(** ** Every transaction of a built entry names its currency *)

Definition has_currency (t : transaction) : Prop := exists s, tx_meta t !! "currency" = Some (MText s).

(** A posting on one of these accounts *)
Definition posting_on (accounts : list string) (t : transaction) : Prop :=
  exists account d c m cur, account ∈ accounts /\ t = mkTransaction account d c (with_currency m cur).

Lemma posting_currency accounts ts : Forall (posting_on accounts) ts -> Forall has_currency ts.
Proof.
  intros H. eapply Forall_impl; [exact H|]. intros t (a & d & c & m & cur & _ & ->). exists (currency_name cur). apply with_currency_lookup.
Qed.

Lemma posting_intro accounts account d c m cur : account ∈ accounts ->
  posting_on accounts (mkTransaction account d c (with_currency m cur)).
Proof. intros Ha. by exists account, d, c, m, cur. Qed.

(** The accounts an entry may be posted on *)
Definition entry_accounts (ids : StaticAccountIds) (debit credit : AccountDescriptor) : list string :=
  [bankOwnerAccountId ids; dealerBtcAccountId ids; dealerUsdAccountId ids; ad_id debit; ad_id credit].

#[local] Hint Extern 1 (posting_on _ _) => (apply posting_intro; unfold entry_accounts; set_solver) : core.

Section Entries.
Context `{Laws : MediciEntryLaws}.

Lemma dealer_postings s c account accounts : Forall (posting_on accounts) (transactions (b_entry s)) ->
  dealerBtcAccountId (b_staticAccountIds s) ∈ accounts -> dealerUsdAccountId (b_staticAccountIds s) ∈ accounts ->
  Forall (posting_on accounts) (transactions (addDealerDebitsAndCredits s c account)).
Proof.
  intros Hs Hb Hu. unfold addDealerDebitsAndCredits.
  repeat case_match; rewrite ?transactions_credit, ?transactions_debit, ?transactions_credit, ?Forall_app;
    repeat split; auto.
Qed.

Lemma entry_postings ids e meta internal usd btc usdFee btcFee debit dm credit cm : transactions e = [] ->
  Forall (posting_on (entry_accounts ids debit credit)) (transactions (creditAccount
    (debitAccount (withBankFee ids e meta internal usd btc usdFee btcFee) debit dm) credit cm)).
Proof.
  intros He. unfold creditAccount, debitAccount, removeZeroAmountEntries. rewrite transactions_set.
  apply Forall_forall. intros t [_ Ht]%list_elem_of_filter. revert t Ht. apply Forall_forall.
  rewrite transactions_credit, Forall_app. split; [|auto].
  apply dealer_postings; [|unfold entry_accounts; set_solver..].
  simpl. rewrite transactions_debit, Forall_app. split; [|auto].
  case_match; rewrite ?transactions_credit, He; simpl; auto.
Qed.

(** ** Fee-only entries *)

Lemma fee_entry_balanced c e meta d a b : transactions e = [] -> safe_int (amount d) ->
  net c (transactions (fee_post entry_credit (fee_post entry_debit e meta d a) meta d b)) = 0.
Proof.
  intros He Hd. unfold fee_post. rewrite transactions_credit, transactions_debit, He, app_nil_l.
  rewrite net_app, net_debit, net_credit by done. unfold posted. case_decide; lia.
Qed.

Lemma fee_entry_postings e meta d a b : transactions e = [] ->
  Forall (posting_on [a; b]) (transactions (fee_post entry_credit (fee_post entry_debit e meta d a) meta d b)).
Proof.
  intros He. unfold fee_post. rewrite transactions_credit, transactions_debit, He. simpl.
  repeat constructor; apply posting_intro; set_solver.
Qed.
End Entries.

(** ** Balanced journals *)

Definition journals_balanced (rows : list ledger_row) : Prop :=
  forall j c, net c (map row_tx (of_journal j rows)) = 0.

Lemma net_stored j ts news c : Forall2 (stores j) ts news -> Forall has_currency ts ->
  net c (map row_tx news) = net c ts.
Proof.
  induction 1 as [|t r ts news (_ & _ & Hd & Hc & Hm) _ IH]; intros Hts; [done|].
  apply Forall_cons in Hts as [[s Hs] Hts]. simpl. rewrite IH by done.
  unfold tx_in, row_tx. cbn [tx_meta tx_debit tx_credit].
  rewrite (Hm _ _ Hs) by done. by rewrite Hs, Hd, Hc.
Qed.

Lemma net_reversed j olds news c : Forall2 (reverses j) olds news ->
  net c (map row_tx news) = - net c (map row_tx olds).
Proof.
  induction 1 as [|o r olds news (_ & _ & Hd & Hc & Hm) _ IH]; [done|]. simpl. rewrite IH.
  unfold tx_in, row_tx. cbn [tx_meta tx_debit tx_credit]. rewrite Hm, Hd, Hc. repeat case_match; lia.
Qed.

Lemma of_journal_new {A} (R : string -> A -> ledger_row -> Prop) j i (xs : list A) news :
  (forall x r, R j x r -> r_journal r = j) -> Forall2 (R j) xs news ->
  of_journal i news = if decide (i = j) then news else [].
Proof.
  intros HR. unfold of_journal. induction 1 as [|x r xs news Hx _ IH]; [by case_decide|].
  apply HR in Hx. rewrite filter_cons. rewrite IH. repeat case_decide; congruence.
Qed.

(** A balanced batch of rows of a journal that is new *)
Lemma journals_extended j rows news {A} (R : string -> A -> ledger_row -> Prop) (xs : list A) :
  (forall x r, R j x r -> r_journal r = j) -> Forall2 (R j) xs news -> fresh_journal j rows ->
  (forall c, net c (map row_tx news) = 0) -> journals_balanced rows -> journals_balanced (rows ++ news).
Proof.
  intros HR Hnews Hj Hnet Hrows i c. unfold of_journal. rewrite filter_app, map_app, net_app.
  fold (of_journal i rows) (of_journal i news). rewrite (of_journal_new _ _ _ _ _ HR Hnews), Hrows.
  case_decide; [by rewrite Hnet|done].
Qed.

Section Facade.
Context {X : External} {L : MediciEntry} `{Laws : !MediciEntryLaws} `{LX : !LedgerExternal} `{BL : !BookLaws}.

Lemma commit_balanced e rows saved rows' : balanced (transactions e) -> Forall has_currency (transactions e) ->
  book_commit e rows = (inr saved, rows') -> journals_balanced rows -> journals_balanced rows'.
Proof.
  intros He Hc H Hrows. destruct (commit_stores _ _ _ _ H) as (Hj & news & -> & Hnews).
  eapply (journals_extended _ _ _ stores); [|exact Hnews|done| |done].
  - by intros ?? (? & _).
  - intros c. by rewrite (net_stored _ _ _ c Hnews Hc).
Qed.

Lemma void_balanced id reason rows saved rows' :
  book_void id reason rows = (inr saved, rows') -> journals_balanced rows -> journals_balanced rows'.
Proof.
  intros H Hrows. destruct (void_reverses _ _ _ _ _ H) as (Hj & news & -> & Hnews).
  eapply (journals_extended _ _ _ reverses); [|exact Hnews|done| |done].
  - by intros ?? (? & _).
  - intros c. by rewrite (net_reversed _ _ _ c Hnews), Hrows.
Qed.

Lemma update_balanced (sel : ledger_row -> bool) (fields : list (string * meta_value)) rows : Forall (fun kv => kv.1 <> "currency") fields ->
  journals_balanced rows -> journals_balanced (map (fun r => if sel r then set_fields fields r else r) rows).
Proof.
  intros Hf Hrows j c. rewrite <- (Hrows j c). clear Hrows. induction rows as [|r rows IH]; [done|].
  assert (r_journal (if sel r then set_fields fields r else r) = r_journal r) as Hj by by case_match.
  unfold of_journal in *. cbn [map]. rewrite !filter_cons, Hj. case_decide; [|done]. cbn [map net]. rewrite IH. f_equal.
  destruct (sel r); [|done]. unfold tx_in, row_tx, set_fields. simpl.
  replace (foldr _ (r_meta r) fields !! "currency") with (r_meta r !! "currency"); [done|].
  clear -Hf. induction Hf as [|kv fields Hk _ IH]; [done|]. simpl. rewrite IH. symmetry. by apply lookup_insert_ne.
Qed.

(** ** The calls of the facade *)

Definition same_rows (w w' : lworld) : Prop := l_rows w' = l_rows w.
#[local] Instance same_rows_preorder : PreOrder same_rows.
Proof. split; [done|]. intros w1 w2 w3 H1 H2. unfold same_rows in *. congruence. Qed.

Lemma same_rows_lbase {A} (c : App A) : guarantees same_rows (lbase c).
Proof. intros w. unfold lbase. by destruct (c (l_base w)). Qed.

Lemma same_rows_lmongo {A} (op : lworld -> outcome error A * lworld) :
  (forall w, same_rows w (op w).2) -> guarantees same_rows (lmongo op).
Proof.
  intros Hop w. unfold lmongo. pose (w1 := set_lbase (next_op (l_base w)) w).
  repeat case_match; try done; exact (Hop w1).
Qed.

Lemma same_rows_cached get put resolver : (forall o w, l_rows (put o w) = l_rows w) ->
  guarantees same_rows (cached_id get put resolver).
Proof.
  intros Hput. unfold cached_id. apply guarantees_bind; [tc_solve|apply guarantees_gets; tc_solve|].
  intros cached. case_match; [apply guarantees_ret; tc_solve|].
  apply guarantees_bind; [tc_solve|apply guarantees_lift; tc_solve|]. intros id.
  apply guarantees_bind; [tc_solve| |intros; apply guarantees_ret; tc_solve]. intros w. apply Hput.
Qed.

Lemma same_rows_static : guarantees same_rows staticAccountIds.
Proof.
  apply guarantees_catch; [tc_solve| |intros; apply guarantees_fail; tc_solve].
  apply guarantees_bind; [tc_solve|by apply same_rows_cached|]. intros i.
  apply guarantees_bind; [tc_solve|by apply same_rows_cached|]. intros i'. apply guarantees_ret; tc_solve.
Qed.

Lemma same_rows_persistAll l : guarantees same_rows (persistAll l).
Proof.
  destruct l as [|t l]; [apply guarantees_ret; tc_solve|].
  apply guarantees_catch; [tc_solve| |intros; apply guarantees_fail; tc_solve].
  apply guarantees_bind; [tc_solve|apply same_rows_lbase|]. intros ids.
  apply guarantees_bind; [tc_solve| |intros; apply guarantees_ret; tc_solve].
  apply same_rows_lmongo. intros w. by destruct (insert_all _ _).
Qed.

Lemma on_rows_Ok {A} (op : list ledger_row -> outcome error A * list ledger_row) w a w' :
  on_rows op w = (Ok a, w') -> op (l_rows w) = (Ok a, l_rows w').
Proof.
  unfold on_rows, lmongo. case_match; [by case_match|]. simpl. destruct (op (l_rows w)) eqn:E. by intros [= -> <-].
Qed.

Lemma on_book_Ok {A} (op : list ledger_row -> (error + A) * list ledger_row) w a w' :
  on_book op w = (Ok a, w') -> op (l_rows w) = (inr a, l_rows w').
Proof. intros H%on_rows_Ok. destruct (op (l_rows w)) as [[e|b] rows]; by simplify_eq. Qed.

Lemma catch_Ok {A} (c : LApp A) h w a w' : (forall e w w', h e w <> (Ok a, w')) ->
  catch c h w = (Ok a, w') -> c w = (Ok a, w').
Proof. unfold catch. destruct (c w) as [[]?]; try done. intros Hh H. by apply Hh in H. Qed.

Lemma ledger_try_Ok {A} (c : LApp A) w a w' : ledger_try c w = (Ok a, w') -> c w = (Ok a, w').
Proof. by apply catch_Ok. Qed.

Lemma persisted_rows e hash pre w j w' : persistAndReturnEntry e hash pre w = (Ok j, w') ->
  book_commit e (l_rows w) = (inr j, l_rows w').
Proof.
  intros H. apply ledger_try_Ok in H. step_Ok. apply on_book_Ok in Hc. rewrite Hc. f_equal.
  pose proof (guarantees_attempt same_rows _ (same_rows_persistAll
    (map (fun id => mkTxMetadata id hash pre) (j_transactionIds j))) w0) as Hs. by rewrite Hc0 in Hs.
Qed.

(** ** Sequences of calls *)

Inductive facade_op :=
| SendOffChain (args : RecordSendArgs)
| SendOnChain (args : RecordSendArgs)
| ReceiveOffChain (args : RecordReceiveArgs)
| ReceiveOnChain (args : RecordReceiveArgs)
| Intraledger (args : RecordIntraledgerArgs)
| FeeReconciliation (estimatedFee actualFee : PaymentAmount) (meta : metadata)
| RevertLnSend (journalId paymentHash : string)
| RevertOnChain (journalId description : string)
| SettleLnSend (paymentHash : string)
| SetPayoutId (journalId payoutId : string).

Definition perform (op : facade_op) : LApp unit :=
  match op with
  | SendOffChain args => recordSendOffChain args ;; ret tt
  | SendOnChain args => recordSendOnChain args ;; ret tt
  | ReceiveOffChain args => recordReceiveOffChain args ;; ret tt
  | ReceiveOnChain args => recordReceiveOnChain args ;; ret tt
  | Intraledger args => recordIntraledger args ;; ret tt
  | FeeReconciliation e a m => recordReceiveOnChainFeeReconciliation e a m ;; ret tt
  | RevertLnSend j h => recordLnSendRevert j h
  | RevertOnChain j d => revertOnChainPayment j d
  | SettleLnSend h => settlePendingLnSend h
  | SetPayoutId j p => setOnChainTxPayoutId j p
  end.

Definition perform_all (ops : list facade_op) : LApp unit := fold_m (fun _ op => perform op) tt ops.

(** Wallets in sats or in dollars, amounts in their currencies that a double
    holds, and a bank fee of at most the total. *)
Definition op_ok (op : facade_op) : Prop :=
  match op with
  | SendOffChain args | SendOnChain args =>
      let fee := actual_fee (rs_bankFee args) in
      d_currency (rs_sender args) ∈ [Btc; Usd] /\ totals_ok (rs_amount args).2 (rs_amount args).1 fee.2 fee.1
  | ReceiveOffChain args | ReceiveOnChain args =>
      let fee := actual_fee (rr_bankFee args) in
      d_currency (rr_recipient args) ∈ [Btc; Usd] /\
      totals_ok (calc_add (rr_amount args).2 fee.2) (calc_add (rr_amount args).1 fee.1) fee.2 fee.1
  | Intraledger args =>
      d_currency (ri_sender args) ∈ [Btc; Usd] /\ d_currency (ri_recipient args) ∈ [Btc; Usd] /\
      totals_ok (ri_amount args).2 (ri_amount args).1 ZERO_CENTS ZERO_SATS
  | FeeReconciliation e a _ => 0 <= amount e <= 2 ^ 53 /\ 0 <= amount a <= 2 ^ 53
  | _ => True
  end.

(** A built entry in which not both sides are in dollars, or with no fee *)
Lemma built_balanced ids memo meta internal usd btc usdFee btcFee debit dm credit cm :
  totals_ok usd btc usdFee btcFee -> ad_currency debit ∈ [Btc; Usd] -> ad_currency credit ∈ [Btc; Usd] ->
  fee_without_cents (ad_currency debit) (ad_currency credit) usdFee btcFee = false ->
  let e := creditAccount (debitAccount (withBankFee ids (entry_new memo) meta internal usd btc usdFee btcFee) debit dm)
             credit cm in
  balanced (transactions e) /\ Forall has_currency (transactions e).
Proof.
  intros Ht Hd Hc Hf e. split.
  - intros c. unfold e. by rewrite net_entry, Hf by (try done; apply transactions_new).
  - eapply posting_currency, entry_postings, transactions_new.
Qed.

(** The entry a call commits *)
Definition op_entry (op : facade_op) (ids : StaticAccountIds) : option entry :=
  match op with
  | SendOffChain args => Some (creditOffChain (send_builder ids args))
  | SendOnChain args => Some (creditOnChain (send_builder ids args))
  | ReceiveOffChain args =>
      Some (creditAccount (debitLnd (receive_builder ids args)) (toLedgerAccountDescriptor (rr_recipient args)) (rr_credit args))
  | ReceiveOnChain args =>
      Some (creditAccount (debitOnChain (receive_builder ids args)) (toLedgerAccountDescriptor (rr_recipient args)) (rr_credit args))
  | Intraledger args => Some (intraledger_entry ids args)
  | FeeReconciliation e a m => Some (reconciliation_entry ids e a m)
  | _ => None
  end.

Definition facade_ids (ids : StaticAccountIds) : Prop :=
  exists bankOwner dealerUsd,
    ids = mkStatic (toLedgerAccountId bankOwner) "Flash Fork N/A" (toLedgerAccountId dealerUsd).

(** What a call does to the rows: a commit, a reversal or an update of fields
    that are not the currency. *)
Inductive rows_step (op : facade_op) (rows : list ledger_row) : list ledger_row -> Prop :=
| step_commit ids e j rows' : op_entry op ids = Some e -> facade_ids ids ->
    book_commit e rows = (inr j, rows') -> rows_step op rows rows'
| step_void id reason j rows' : book_void id reason rows = (inr j, rows') -> rows_step op rows rows'
| step_update (sel : ledger_row -> bool) (fields : list (string * meta_value)) : Forall (fun kv => kv.1 <> "currency") fields ->
    rows_step op rows (map (fun r => if sel r then set_fields fields r else r) rows).

Lemma static_ids w ids w' : staticAccountIds w = (Ok ids, w') -> l_rows w' = l_rows w /\ facade_ids ids.
Proof.
  intros H. split.
  - pose proof (same_rows_static w) as Hs. by rewrite H in Hs.
  - apply ledger_try_Ok in H. step_Ok. by exists a, a0.
Qed.

Lemma record_step op (mk : StaticAccountIds -> entry) hash pre w j w' : (forall ids, op_entry op ids = Some (mk ids)) ->
  bind staticAccountIds (fun ids => persistAndReturnEntry (mk ids) hash pre) w = (Ok j, w') ->
  rtc (rows_step op) (l_rows w) (l_rows w').
Proof.
  intros Hop H. step_Ok. apply static_ids in Hc as [<- Hids]. apply persisted_rows in Hk.
  apply rtc_once. by eapply step_commit.
Qed.

Lemma updateMany_step op sel fields w n w' : Forall (fun kv => kv.1 <> "currency") fields ->
  updateMany sel fields w = (Ok n, w') -> rtc (rows_step op) (l_rows w) (l_rows w').
Proof. intros Hf [= <- <-]%on_rows_Ok. by apply rtc_once, step_update. Qed.

Lemma perform_steps op w w' : perform op w = (Ok tt, w') -> rtc (rows_step op) (l_rows w) (l_rows w').
Proof.
  destruct op; simpl; intros H; step_Ok; try (by eapply record_step in Hc).
  - apply ledger_try_Ok in H. step_Ok. apply on_book_Ok in Hc.
    replace (l_rows w') with (l_rows w0); [by eapply rtc_once, step_void|].
    pose proof (guarantees_attempt same_rows _ (same_rows_persistAll
      (map (fun id => mkTxMetadata id (Some paymentHash) None) (j_transactionIds a))) w0) as Hs. by rewrite Hc0 in Hs.
  - apply ledger_try_Ok in H. step_Ok. apply on_book_Ok in Hc1.
    pose proof (same_rows_lbase (toObjectId journalId) w) as Hs. rewrite Hc in Hs. cbn in Hs. rewrite <- Hs.
    etrans; [|by eapply rtc_once, step_void].
    eapply updateMany_step; [|exact Hc0]. by repeat constructor.
  - apply ledger_try_Ok in H. step_Ok. case_match; step_Ok. eapply updateMany_step; [|exact Hc]. by repeat constructor.
  - unfold setOnChainTxPayoutId in H. case_match; [done|]. apply ledger_try_Ok in H. step_Ok.
    case_match; step_Ok. eapply updateMany_step; [|exact Hc]. by repeat constructor.
Qed.

(** An invariant of the steps of every call is one of their sequences. *)
Lemma perform_all_invariant (I : list ledger_row -> Prop) (P : facade_op -> Prop) ops w w' :
  (forall op rows rows', P op -> rows_step op rows rows' -> I rows -> I rows') ->
  Forall P ops -> I (l_rows w) -> perform_all ops w = (Ok tt, w') -> I (l_rows w').
Proof.
  intros Hstep. unfold perform_all. revert w. induction ops as [|op ops IH]; intros w Hops Hw H; cbn in H; step_Ok; [done|].
  apply Forall_cons in Hops as [Hop Hops]. destruct a. eapply IH; [done| |exact Hk].
  apply perform_steps in Hc. clear -Hc Hw Hop Hstep. induction Hc; eauto.
Qed.

Lemma in_sats_or_cents : Btc ∈ [Btc; Usd] /\ Usd ∈ [Btc; Usd].
Proof. split; set_solver. Qed.

Lemma no_fee_without_cents d c : d = Btc \/ c = Btc -> forall f g, fee_without_cents d c f g = false.
Proof. intros [-> | ->] f g; unfold fee_without_cents; simpl; [done|]. by rewrite andb_false_r. Qed.

Lemma op_entry_balanced op ids e : op_ok op -> op_entry op ids = Some e ->
  balanced (transactions e) /\ Forall has_currency (transactions e).
Proof.
  destruct in_sats_or_cents as [Hbtc Husd].
  destruct op; cbn [op_ok op_entry]; intros Hop He; try discriminate He; apply (inj Some) in He; subst e.
  - destruct Hop. apply built_balanced; [done..|]. apply no_fee_without_cents. by right.
  - destruct Hop. apply built_balanced; [done..|]. apply no_fee_without_cents. by right.
  - destruct Hop. apply built_balanced; [done..|]. apply no_fee_without_cents. by left.
  - destruct Hop. apply built_balanced; [done..|]. apply no_fee_without_cents. by left.
  - destruct Hop as (? & ? & ?). apply built_balanced; [done..|]. unfold fee_without_cents. simpl. by rewrite andb_false_r.
  - destruct Hop. unfold reconciliation_entry. case_match;
      (split; [intros c; apply fee_entry_balanced; [apply transactions_new|unfold safe_int; simpl; lia]
              |eapply posting_currency, fee_entry_postings, transactions_new]).
Qed.

(** C15: whatever calls of the facade succeed one after the other, with wallets in
    sats and dollars, every journal of the book is balanced in each currency. *)
Theorem facade_keeps_books (ops : list facade_op) (w w' : lworld) :
  Forall op_ok ops -> journals_balanced (l_rows w) -> perform_all ops w = (Ok tt, w') ->
  journals_balanced (l_rows w').
Proof.
  apply (perform_all_invariant journals_balanced op_ok).
  intros op rows rows' Hop [ids e j ? He _ Hc|id reason j ? Hv|sel fields Hf] Hrows.
  - destruct (op_entry_balanced op ids e Hop He). by eapply commit_balanced.
  - by eapply void_balanced.
  - by apply update_balanced.
Qed.

(** A sender in USDT is debited in dollars, and nothing credits them: the entry
    of its send is short of the whole amount. *)
Theorem usdt_send_unbalanced (ids : StaticAccountIds) (args : RecordSendArgs) :
  d_currency (rs_sender args) = Usdt ->
  totals_ok (rs_amount args).2 (rs_amount args).1 (actual_fee (rs_bankFee args)).2 (actual_fee (rs_bankFee args)).1 ->
  net Usd (transactions (creditOffChain (send_builder ids args))) = - amount (rs_amount args).2 /\
  net Btc (transactions (creditOffChain (send_builder ids args))) = amount (rs_amount args).1.
Proof.
  intros Hd (Cu & Cb & Cuf & Cbf & Hu & Hb & Su & Sb).
  assert (forall z, 0 <= z <= 2 ^ 53 -> safe_int z) as Hs by (unfold safe_int; lia).
  unfold creditOffChain, send_builder, creditAccount, removeZeroAmountEntries, debitAccount, withBankFee,
    addDealerDebitsAndCredits. simpl. rewrite Hd. simpl.
  rewrite !transactions_set, !net_filter_zero.
  destruct (Z.ltb_spec 0 (amount (actual_fee (rs_bankFee args)).1));
    rewrite ?transactions_credit, ?transactions_debit, ?transactions_credit, transactions_new, ?app_nil_l, ?net_app,
      ?net_debit, ?net_credit by (simpl; apply Hs; lia);
    rewrite ?Cu, ?Cb, ?Cuf, ?Cbf; unfold posted; simpl; lia.
Qed.
End Facade.
