(* ===== verification/LedgerService.v ===== *)
(** * The ledger service

    Model of [src/src/domain/ledger/index.ts] and of the queries of
    [src/src/services/ledger]: [index.ts], [volume.ts], [facade/wallet.ts] and
    the calls of [facade/onchain-send.ts] that read rows back. The theorems
    read back the rows the facade writes: the amounts of a send come back as
    they were, but the facade and the service name the accounts of wallets
    differently, so the service finds none of these rows. *)

From stdpp Require Import base gmap list strings.
From Stdlib Require Import ZArith Lia Ascii QArith.
From S2P Require Import Prelude JsStrings JsNumbers JsDecimals Errors MoneyAmounts World Repos Json.
From S2P Require Import PaymentAmounts PaymentFlows LedgerEntries LedgerFacade LedgerBalance.

Close Scope Q_scope.
Open Scope Z_scope.

(** ** [domain/ledger/index.ts] *)

Definition liabilitiesMainAccount : string := "Accounts Payable".

Definition toLiabilitiesWalletId (walletId : string) : string := liabilitiesMainAccount +:+ ":" +:+ walletId.

Definition toWalletId (walletIdPath : string) : option string :=
  match split_on ":" walletIdPath with
  | [p; id] => if String.eqb p liabilitiesMainAccount && nonempty id then Some id else None
  | _ => None
  end.

Definition isOnChainTransaction (t : LedgerTransactionType) : bool :=
  bool_decide (t ∈ [OnchainIntraLedger; OnChainTradeIntraAccount; OnchainReceipt; OnchainPayment]).

(** [/^[0-9a-fA-F]{24}$/i] *)
Definition hex_char (c : ascii) : bool :=
  let n := nat_of_ascii c in
  ((48 <=? n)%nat && (n <=? 57)%nat) || ((65 <=? n)%nat && (n <=? 70)%nat) || ((97 <=? n)%nat && (n <=? 102)%nat).
Fixpoint all_chars (p : ascii -> bool) (s : string) : bool :=
  match s with EmptyString => true | String c s' => p c && all_chars p s' end.

Definition checkedToLedgerTransactionId (id : string) : outcome error string :=
  if all_chars hex_char id && (String.length id =? 24)%nat then Ok id
  else Err (new_error InvalidLedgerTransactionId id).

(** ** [translateToLedgerTx] *)

Definition text_field (r : ledger_row) (k : string) : option string :=
  match r_meta r !! k with Some (MText s) => Some s | _ => None end.
Definition number_field (r : ledger_row) (k : string) : option js_float :=
  match r_meta r !! k with Some (MNumber x) => Some x | _ => None end.
Definition bool_field (r : ledger_row) (k : string) : option bool :=
  match r_meta r !! k with Some (MBool b) => Some b | _ => None end.

Definition type_of_text (s : string) : option LedgerTransactionType :=
  snd <$> list_find (fun t => type_text t = s) all_types.
Definition currency_of_text (s : string) : option WalletCurrency :=
  snd <$> list_find (fun c => currency_name c = s) [Btc; Usd; Usdt; Jmd].

(** [LedgerTransaction], as far as the application reads it *)
Record LedgerTransaction := mkLedgerTx {
  lt_id : string;
  lt_walletId : option string;
  lt_type : option LedgerTransactionType;
  lt_debit : js_float;
  lt_credit : js_float;
  lt_currency : option WalletCurrency;
  lt_timestamp : Z;
  lt_pendingConfirmation : option bool;
  lt_journalId : string;
  lt_lnMemo : string;
  lt_username : option string;
  lt_memoFromPayer : option string;
  lt_paymentHash : option string;
  lt_pubkey : option string;
  lt_address : option string;
  lt_requestId : option string;
  lt_payoutId : option string;
  lt_txHash : option string;
  lt_vout : option js_float;
  lt_feeKnownInAdvance : bool;
  lt_satsAmount : option js_float;
  lt_centsAmount : option js_float;
  lt_satsFee : option js_float;
  lt_centsFee : option js_float;
  lt_displayAmount : option js_float;
  lt_displayFee : option js_float;
  lt_displayCurrency : option string;
  lt_fee : option js_float;
  lt_usd : option js_float;
  lt_feeUsd : option js_float
}.

Definition translateToLedgerTx (r : ledger_row) : LedgerTransaction := {|
  lt_id := r_id r;
  lt_walletId := toWalletId (r_accounts r);
  lt_type := text_field r "type" ≫= type_of_text;
  lt_debit := r_debit r;
  lt_credit := r_credit r;
  lt_currency := text_field r "currency" ≫= currency_of_text;
  lt_timestamp := r_timestamp r;
  lt_pendingConfirmation := bool_field r "pending";
  lt_journalId := r_journal r;
  lt_lnMemo := r_memo r;
  lt_username := truthy_text (text_field r "username");
  lt_memoFromPayer := text_field r "memoPayer";
  lt_paymentHash := truthy_text (text_field r "hash");
  lt_pubkey := truthy_text (text_field r "pubkey");
  lt_address := match r_meta r !! "payee_addresses" with Some (MTexts (a :: _)) => Some a | _ => None end;
  lt_requestId := truthy_text (text_field r "request_id");
  lt_payoutId := truthy_text (text_field r "payout_id");
  lt_txHash := truthy_text (text_field r "hash");
  lt_vout := match number_field r "vout" with Some x => if fl_truthy x then Some x else None | None => None end;
  lt_feeKnownInAdvance := default false (bool_field r "feeKnownInAdvance");
  lt_satsAmount := number_field r "satsAmount";
  lt_centsAmount := number_field r "centsAmount";
  lt_satsFee := number_field r "satsFee";
  lt_centsFee := number_field r "centsFee";
  lt_displayAmount := number_field r "displayAmount";
  lt_displayFee := number_field r "displayFee";
  lt_displayCurrency := text_field r "displayCurrency";
  lt_fee := number_field r "fee";
  lt_usd := number_field r "usd";
  lt_feeUsd := number_field r "feeUsd"
|}.

Definition inputAmountFromLedgerTransaction (t : LedgerTransaction) : outcome error Z :=
  match (if decide (lt_currency t = Some Usd) then lt_centsFee t else lt_satsFee t) with
  | None => Err (new_error0 InvalidLedgerTransactionStateError)
  | Some fee => safeBigInt (fl_sub (lt_debit t) fee)
  end.

Section Service.
Context `{LX : LedgerExternal}.

(** ** Queries *)

Definition translated (q : ledger_query) : LApp (list LedgerTransaction) :=
  ledger_try (let! rows := ledger_call q in ret (map translateToLedgerTx rows)).

Definition getTransactionById (id : string) : LApp LedgerTransaction :=
  ledger_try (
    let! i := lbase (toObjectId id) in
    let! results := ledger_call (mkQuery (Some liabilitiesMainAccount) (Some i) []) in
    match results with
    | [r] => ret (translateToLedgerTx r)
    | _ => fail (new_error0 CouldNotFindTransactionError)
    end).

Definition getTransactionsByHash (hash : string) : LApp (list LedgerTransaction) :=
  translated (mkQuery (Some liabilitiesMainAccount) None [("hash", MText hash)]).

Definition listPendingPayments (walletId : string) : LApp (list LedgerTransaction) :=
  translated (mkQuery (Some (toLiabilitiesWalletId walletId)) None
    [("type", MText (type_text TxPayment)); ("pending", MBool true)]).

(** A query on the documents themselves: the account is the whole text. *)
Definition documents (sel : ledger_row -> bool) : LApp (list ledger_row) :=
  lmongo (fun w => (Ok (filter (fun r => sel r) (l_rows w)), w)).

(** Outside of a [try]: a failure of the database escapes. *)
Definition getPendingPaymentsCount (walletId : string) : LApp nat :=
  let! rows := documents (fun r => String.eqb (r_accounts r) (toLiabilitiesWalletId walletId) &&
    field_is r ("type", MText (type_text TxPayment)) && field_is r ("pending", MBool true)) in
  ret (length rows).

Definition balance_call (account : string) : LApp js_float :=
  lmongo (fun w => (Ok (book_balance account (l_rows w)), w)).

(** A negative balance is reported, unless a dealer's; the report needs the
    dealers' wallets. *)
Definition getWalletBalance (walletId : string) : LApp js_float :=
  ledger_try (
    let! balance := balance_call (toLiabilitiesWalletId walletId) in
    (if fl_ltb balance js_zero
     then getDealerUsdWalletId ;; getDealerBtcWalletId ;; ret tt
     else ret tt) ;;
    ret balance).

Definition balanceAmountFromNumber (a : js_float) (c : WalletCurrency) : outcome error PaymentAmount :=
  outcome_map (fun z => Pay z c) (safeBigInt a).

Definition getWalletBalanceAmount (d : WalletDescriptor) : LApp PaymentAmount :=
  ledger_try (
    let! balance := balance_call (toLiabilitiesWalletId (d_wallet d)) in
    (if fl_ltb balance js_zero
     then getDealerBtcWalletId ;; getDealerUsdWalletId ;; ret tt
     else ret tt) ;;
    match balanceAmountFromNumber balance (d_currency d) with
    | Err e => if decide (err_class e = BigIntFloatConversionError)
               then lift (balanceAmountFromNumber (Math_floor balance) (d_currency d)) else fail e
    | o => lift o
    end).

(** Whether it is recorded, and the request that made the address. *)
Definition isOnChainReceiptTxRecordedForWallet (walletId txHash : string) (vout : js_float) :
    LApp (bool * option string) :=
  ledger_try (
    let! entries := documents (fun r => String.eqb (r_accounts r) (toLiabilitiesWalletId walletId) &&
      field_is r ("type", MText (type_text OnchainReceipt)) && field_is r ("hash", MText txHash) &&
      (match r_meta r !! "vout" with None => true | Some _ => false end || field_is r ("vout", MNumber vout))) in
    match entries with
    | [] => ret (false, None)
    | r :: _ => ret (true, lt_requestId (translateToLedgerTx r))
    end).

Definition isOnChainTxHashRecorded (txHash : string) : LApp bool :=
  ledger_try (
    let! rows := documents (fun r => field_is r ("type", MText (type_text OnchainReceipt)) &&
      field_is r ("hash", MText txHash)) in
    ret (0 <? Z.of_nat (length rows))).

(** Settled rows, and none left pending *)
Definition isLnTxRecorded (paymentHash : string) : LApp bool :=
  ledger_try (
    let! notPending := ledger_call (mkQuery None None [("pending", MBool false); ("hash", MText paymentHash)]) in
    let! pending := ledger_call (mkQuery None None [("pending", MBool true); ("hash", MText paymentHash)]) in
    ret ((0 <? Z.of_nat (length notPending)) && (Z.of_nat (length pending) =? 0))).

Definition in_path (path : string) (r : ledger_row) : bool := bool_decide (path ∈ split_on ":" (r_accounts r)).

Definition getWalletIdByTransactionHash (hash : string) : LApp string :=
  let! bankOwnerWalletId := getBankOwnerWalletId in
  let! entries := documents (fun r => in_path liabilitiesMainAccount r &&
    negb (String.eqb (r_accounts r) (toLiabilitiesWalletId bankOwnerWalletId)) && field_is r ("hash", MText hash)) in
  match entries with
  | [] => fail (new_error0 CouldNotFindTransactionError)
  | r :: _ =>
      match toWalletId (r_accounts r) with
      | None => fail (new_error UnknownLedgerError "no wallet id associated to transaction")
      | Some id => ret id
      end
  end.

(** The wallets the generator yields, each once. *)
Definition listWalletIdsWithPendingPayments : LApp (list string) :=
  let! rows := documents (fun r => field_is r ("type", MText "payment") && field_is r ("pending", MBool true) &&
    in_path liabilitiesMainAccount r) in
  ret (omap toWalletId (remove_dups (map r_accounts rows))).

(** [getLedgerAccountBalanceForWalletId] of the facade *)
Definition getLedgerAccountBalanceForWalletId (d : WalletDescriptor) : LApp PaymentAmount :=
  ledger_try (
    let! balance := balance_call (toLedgerAccountId (d_wallet d)) in
    lift (paymentAmountFromNumber balance (d_currency d))).

(** ** [volume.ts] *)

Inductive TxnGroup :=
| AllPayment | ExternalPayment | IntraledgerGroup | TradeIntraAccountGroup | LightningGroup | OnChainGroup | AllTx.

Definition TxnGroups (g : TxnGroup) : list LedgerTransactionType :=
  match g with
  | AllPayment => [IntraLedgerTx; OnchainIntraLedger; LnIntraLedger; TxPayment; OnchainPayment]
  | ExternalPayment => [TxPayment; OnchainPayment]
  | IntraledgerGroup => [IntraLedgerTx; OnchainIntraLedger; LnIntraLedger]
  | TradeIntraAccountGroup => [WalletIdTradeIntraAccount; OnChainTradeIntraAccount; LnTradeIntraAccount]
  | LightningGroup => [TxPayment; TxInvoice; LnFeeReimbursement]
  | OnChainGroup => [OnchainPayment; OnchainReceipt]
  | AllTx => all_types
  end.

(** The rows the volume of a wallet is made of *)
Definition volume_rows (walletId : string) (timestamp : Z) (g : TxnGroup) (rows : list ledger_row) : list ledger_row :=
  filter (fun r => String.eqb (r_accounts r) (toLiabilitiesWalletId walletId) &&
    existsb (fun t => field_is r ("type", MText (type_text t))) (TxnGroups g) && (timestamp <=? r_timestamp r)) rows.

(** Outgoing and incoming; no group comes back when no row matches. *)
Definition txVolumeSince (walletId : string) (timestamp : Z) (g : TxnGroup) : LApp (js_float * js_float) :=
  ledger_try (
    let! rows := lmongo (fun w => (Ok (volume_rows walletId timestamp g (l_rows w)), w)) in
    ret (match rows with
         | [] => (js_zero, js_zero)
         | _ => (mongo_sum (map r_debit rows), mongo_sum (map r_credit rows))
         end)).

Definition volumeAmountFn (g : TxnGroup) (d : WalletDescriptor) (timestamp : Z) : LApp TxVolume :=
  let! volume := txVolumeSince (d_wallet d) timestamp g in
  let! outgoing := lift (paymentAmountFromNumber volume.1 (d_currency d)) in
  let! incoming := lift (paymentAmountFromNumber volume.2 (d_currency d)) in
  ret (mkVolume outgoing incoming).

(** ** Payouts *)

Definition getTransactionsByPayoutId (payoutId : string) : LApp (list LedgerTransaction) :=
  translated (mkQuery (Some facade_liabilitiesMainAccount) None [("payout_id", MText payoutId)]).

Definition json_hash (h : option string) : json := match h with Some s => JStr s | None => JNull end.

(** The sats the bank expected to pay to the miners *)
Definition setOnChainTxIdByPayoutId (payoutId txId : string) (vout : js_float) : LApp PaymentAmount :=
  let! n := ledger_try (updateMany (fun r => field_is r ("payout_id", MText payoutId))
    [("hash", MText txId); ("vout", MNumber vout)]) in
  let! txns := getTransactionsByPayoutId payoutId in
  (if 0 <? Z.of_nat n then ret tt
   else match map lt_txHash txns with
        | [] => fail (new_error NoTransactionToUpdateError payoutId)
        | h :: hs =>
            if negb (forallb (fun h' => bool_decide (h' = h)) hs)
            then fail (new_error InvalidLedgerTransactionStateError
                   (json_stringify (object [("txHashes", Some (JArr (map json_hash (h :: hs))))])))
            else if negb (bool_decide (h = Some txId))
            then fail (new_error InvalidLedgerTransactionStateError
                   (json_stringify (object [("persistedTxHash", jtext h); ("incomingTxId", Some (JStr txId))])))
            else ret tt
        end) ;;
  let! bankOwnerWalletId := getBankOwnerWalletId in
  match filter (fun t => lt_walletId t = Some bankOwnerWalletId) txns with
  | [bankOwnerTxn] =>
      let satsFee := match lt_satsFee bankOwnerTxn with Some x => if fl_truthy x then x else js_zero | None => js_zero end in
      lift (paymentAmountFromNumber (fl_sub satsFee (lt_credit bankOwnerTxn)) Btc)
  | _ => fail (new_error InvalidLedgerTransactionStateError ("payoutId: " +:+ payoutId))
  end.

(** [txn.walletId && !ids.includes(txn.walletId)] *)
Definition end_user (nonUserWalletIds : list string) (t : LedgerTransaction) : bool :=
  match truthy_text (lt_walletId t) with Some id => bool_decide (id ∉ nonUserWalletIds) | None => false end.

Definition settlePendingOnChainPayment (payoutId : string) : LApp (option LedgerTransaction) :=
  ledger_try (
    let! n := updateMany (fun r => field_is r ("payout_id", MText payoutId)) [("pending", MBool false)] in
    if 0 <? Z.of_nat n then ret tt else fail (new_error0 NoTransactionToSettleError)) ;;
  let! txns := getTransactionsByPayoutId payoutId in
  let! nonUserWalletIds := getNonEndUserWalletIds in
  let userLedgerTxn := snd <$> list_find (fun t => end_user nonUserWalletIds t = true) txns in
  match userLedgerTxn, txns with
  | None, [] => fail (new_error0 InvalidLedgerTransactionStateError)
  | _, _ => ret userLedgerTxn
  end.
End Service.

(** * What the ledger service sees *)

(** ** Paths *)

Lemma split_on_nonempty c s : split_on c s <> [].
Proof. destruct s as [|d s]; [done|]. cbn. destruct (Ascii.eqb c d); [done|]. by destruct (split_on c s). Qed.

(** A wallet's path gives the wallet back. *)
Theorem wallet_path_roundtrip (walletId : string) :
  nonempty walletId = true -> no_char ":" walletId = true ->
  toWalletId (toLiabilitiesWalletId walletId) = Some walletId.
Proof.
  intros Hn Hc. unfold toWalletId, toLiabilitiesWalletId. change (":" +:+ walletId) with (String ":" walletId).
  rewrite split_on_app by done. rewrite split_on_none by done. by rewrite Hn.
Qed.

(** The first part of an account's path *)
Definition root (account : string) : string := List.hd "" (split_on ":" account).

Lemma root_facade walletId : root (toLedgerAccountId walletId) = facade_liabilitiesMainAccount.
Proof.
  unfold root, toLedgerAccountId. change (":" +:+ walletId) with (String ":" walletId). by rewrite split_on_app.
Qed.

(** The roots under which the facade posts *)
Definition facade_account (account : string) : bool :=
  bool_decide (root account ∈ [facade_liabilitiesMainAccount; assetsMainAccount; "Flash Fork N/A"]).

Lemma toWalletId_root account id : toWalletId account = Some id -> root account = liabilitiesMainAccount.
Proof.
  unfold toWalletId, root. destruct (split_on ":" account) as [|p [|i []]]; try done. simpl.
  destruct (String.eqb_spec p liabilitiesMainAccount); [done|]. done.
Qed.

Lemma facade_not_wallet account : facade_account account = true -> toWalletId account = None.
Proof.
  intros Hf. destruct (toWalletId account) eqn:E; [|done].
  apply toWalletId_root in E. unfold facade_account in Hf. rewrite E in Hf. by vm_compute in Hf.
Qed.

Lemma under_root account path : under account path = true -> root path = root account.
Proof.
  unfold under, root. intros H%bool_decide_eq_true. destruct (split_on ":" path) as [|p ps] eqn:E.
  - by destruct (split_on_nonempty ":" path).
  - destruct (split_on ":" account) as [|a l]; simpl in H; [done|]. by simplify_eq.
Qed.

Lemma root_wallet walletId : root (toLiabilitiesWalletId walletId) = liabilitiesMainAccount.
Proof.
  unfold root, toLiabilitiesWalletId. change (":" +:+ walletId) with (String ":" walletId). by rewrite split_on_app.
Qed.

Lemma facade_not_under account path : facade_account account = true -> root path = liabilitiesMainAccount ->
  under account path = false.
Proof.
  intros Hf Hp. destruct (under account path) eqn:E; [|done].
  apply under_root in E. unfold facade_account in Hf. rewrite <- E, Hp in Hf. by vm_compute in Hf.
Qed.

(** ** A book the facade wrote *)

Definition facade_book (rows : list ledger_row) : Prop := Forall (fun r => facade_account (r_accounts r) = true) rows.

Lemma filter_none {A} (p : A -> bool) (l : list A) : Forall (fun x => p x = false) l -> filter (fun x => p x) l = [].
Proof. induction 1 as [|x l Hx _ IH]; [done|]. by rewrite filter_cons_False by (rewrite Hx; auto). Qed.

Section Views.
Context {X : External} {L : MediciEntry} `{Laws : !MediciEntryLaws} `{LX : !LedgerExternal} `{BL : !BookLaws}.

Lemma postings_facade accounts ts j news : Forall (posting_on accounts) ts ->
  Forall (fun a => facade_account a = true) accounts -> Forall2 (stores j) ts news -> facade_book news.
Proof.
  intros Hts Ha. induction 1 as [|t r ts news (_ & Hacc & _) _ IH]; [constructor|].
  apply Forall_cons in Hts as [(a & d & c & m & cur & Hin & ->) Hts]. constructor; [|by apply IH].
  rewrite Hacc. by eapply Forall_forall in Ha.
Qed.

Lemma facade_ledger_account walletId : facade_account (toLedgerAccountId walletId) = true.
Proof. unfold facade_account. by rewrite root_facade. Qed.

Lemma op_entry_facade op ids e : facade_ids ids -> op_entry op ids = Some e ->
  exists accounts, Forall (posting_on accounts) (transactions e) /\ Forall (fun a => facade_account a = true) accounts.
Proof.
  intros (bankOwner & dealerUsd & ->). pose proof facade_ledger_account as Hw.
  assert (facade_account lndLedgerAccountId = true /\ facade_account onChainLedgerAccountId = true /\
    facade_account "Flash Fork N/A" = true) as (Hl & Ho & Hf) by done.
  destruct op; cbn [op_entry]; intros He; try discriminate He; apply (inj Some) in He; subst e;
    try (eexists; split; [by apply entry_postings, transactions_new|]; unfold entry_accounts; simpl; by repeat constructor).
  unfold reconciliation_entry. case_match; (eexists; split; [by apply fee_entry_postings, transactions_new|]);
    simpl; by repeat constructor.
Qed.

Lemma facade_book_step op rows rows' : rows_step op rows rows' -> facade_book rows -> facade_book rows'.
Proof.
  intros [ids e j ? He Hids Hc|id reason j ? Hv|sel fields Hf] Hrows.
  - destruct (op_entry_facade op ids e Hids He) as (accounts & Hp & Ha).
    destruct (commit_stores _ _ _ _ Hc) as (_ & news & -> & Hn). apply Forall_app. split; [done|]. by eapply postings_facade.
  - destruct (void_reverses _ _ _ _ _ Hv) as (_ & news & -> & Hn). apply Forall_app. split; [done|].
    assert (facade_book (of_journal id rows)) as Ho.
    { apply Forall_forall. intros r [_ Hr]%list_elem_of_filter. by eapply Forall_forall in Hrows. }
    clear -Hn Ho. induction Hn as [|o r os news (_ & Hacc & _) _ IH]; [constructor|].
    apply Forall_cons in Ho as [Ho Hos]. constructor; [by rewrite Hacc|by apply IH].
  - apply Forall_map. eapply Forall_impl; [exact Hrows|]. intros r Hr. simpl. by case_match.
Qed.

Lemma facade_ledger_empty rows q path : facade_book rows -> q_account q = Some path ->
  root path = liabilitiesMainAccount -> book_ledger q rows = [].
Proof.
  intros Hrows Hq Hp. pose proof (ledger_filters q rows) as Hl.
  rewrite (filter_none (row_matches q)) in Hl; [by apply Permutation_nil_r in Hl|].
  eapply Forall_impl; [exact Hrows|]. intros r Hr. unfold row_matches. rewrite Hq.
  cbn in Hr |- *. by rewrite (facade_not_under _ _ Hr Hp).
Qed.

Lemma facade_balance_zero rows path : facade_book rows -> root path = liabilitiesMainAccount ->
  book_balance path rows = Number_of 0.
Proof.
  intros Hrows Hp. assert (filter (fun r => under (r_accounts r) path) rows = []) as E.
  { apply filter_none. eapply Forall_impl; [exact Hrows|]. intros r Hr. by apply facade_not_under. }
  rewrite balance_exact; unfold balance_of; rewrite E; [done|]. split; [constructor|done].
Qed.

Lemma lmongo_Ok {A} (op : lworld -> outcome error A * lworld) w a w' : lmongo op w = (Ok a, w') ->
  exists w1, l_rows w1 = l_rows w /\ op w1 = (Ok a, w').
Proof. intros H. unfold lmongo in H. case_match; [by case_match|]. by exists (set_lbase (next_op (l_base w)) w). Qed.

Lemma translated_empty q path w txs w' : facade_book (l_rows w) -> q_account q = Some path ->
  root path = liabilitiesMainAccount -> translated q w = (Ok txs, w') -> txs = [].
Proof.
  intros Hw Hq Hp H. apply ledger_try_Ok in H. step_Ok. apply lmongo_Ok in Hc as (wq & Hr & [= <- <-]).
  by rewrite Hr, (facade_ledger_empty _ _ _ Hw Hq Hp).
Qed.

Lemma facade_exact_account rows walletId : facade_book rows ->
  Forall (fun r => String.eqb (r_accounts r) (toLiabilitiesWalletId walletId) = false) rows.
Proof.
  intros Hrows. eapply Forall_impl; [exact Hrows|]. intros r Hr. cbn in Hr |- *.
  destruct (String.eqb_spec (r_accounts r) (toLiabilitiesWalletId walletId)) as [E|]; [|done].
  unfold facade_account in Hr. rewrite E, root_wallet in Hr. by vm_compute in Hr.
Qed.

Lemma balance_amount_zero d w b w' : facade_book (l_rows w) -> getWalletBalanceAmount d w = (Ok b, w') ->
  b = Pay 0 (d_currency d).
Proof.
  intros Hw H. apply ledger_try_Ok in H. step_Ok. apply lmongo_Ok in Hc as (wq & Hr & [= <- <-]).
  rewrite Hr, (facade_balance_zero _ _ Hw (root_wallet _)) in Hc0, Hk0. vm_compute in Hk0. by simplify_eq.
Qed.

Lemma volume_rows_none id t g rows : facade_book rows -> volume_rows id t g rows = [].
Proof.
  intros Hw. apply filter_none. eapply Forall_impl; [exact (facade_exact_account _ id Hw)|].
  intros r Hr. cbn in Hr |- *. by rewrite Hr.
Qed.

Lemma volume_zero g d t w v w' : facade_book (l_rows w) -> volumeAmountFn g d t w = (Ok v, w') ->
  v = mkVolume (Pay 0 (d_currency d)) (Pay 0 (d_currency d)).
Proof.
  intros Hw H. apply bind_Ok in H as (vol & w0 & Hv & H). apply ledger_try_Ok in Hv.
  apply bind_Ok in Hv as (rows & w1 & Hc & Hv). apply lmongo_Ok in Hc as (wq & Hr & [= <- <-]).
  rewrite volume_rows_none in Hv by by rewrite Hr. unfold ret in Hv. injection Hv as <- <-. vm_compute in H. by simplify_eq.
Qed.

(** The facade posts on the accounts ["Liabilities:<wallet>"], the service
    looks for ["Accounts Payable:<wallet>"]: of everything the facade recorded
    the service sees no transaction, no pending payment, no volume and a
    balance of zero. *)
Theorem facade_rows_unseen (ops : list facade_op) (w w' : lworld) :
  facade_book (l_rows w) -> perform_all ops w = (Ok tt, w') ->
  (forall hash txs w2, getTransactionsByHash hash w' = (Ok txs, w2) -> txs = []) /\
  (forall walletId txs w2, listPendingPayments walletId w' = (Ok txs, w2) -> txs = []) /\
  (forall d b w2, getWalletBalanceAmount d w' = (Ok b, w2) -> b = Pay 0 (d_currency d)) /\
  (forall g d t v w2, volumeAmountFn g d t w' = (Ok v, w2) ->
     v = mkVolume (Pay 0 (d_currency d)) (Pay 0 (d_currency d))).
Proof.
  intros Hw H. assert (facade_book (l_rows w')) as Hw'.
  { eapply (perform_all_invariant facade_book (fun _ => True)); [|by apply Forall_true|exact Hw|exact H].
    intros op rows rows' _. apply facade_book_step. }
  split; [|split; [|split]].
  - intros hash txs w2. by apply (translated_empty _ liabilitiesMainAccount).
  - intros walletId txs w2. apply (translated_empty _ (toLiabilitiesWalletId walletId)); [done..|apply root_wallet].
  - intros d b w2. by apply balance_amount_zero.
  - intros g d t v w2. by apply volume_zero.
Qed.
End Views.
