(* ===== verification/Lightning.v ===== *)
(** * The Lightning service

    Model of the sends and lookups of [src/src/services/lnd/index.ts], with
    the nodes of [config.ts] and the known errors of [errors.ts], and of the
    wallet lock the payments take. The client library of the nodes is a
    parameter: a call answers, rejects, or comes later than the timeout. *)

From stdpp Require Import base gmap list strings.
From Stdlib Require Import ZArith Lia Ascii.
From S2P Require Import Prelude JsStrings JsNumbers JsDecimals Errors MoneyAmounts World Repos Json.
From S2P Require Import PaymentAmounts PaymentFlows LightningFlow LedgerEntries LedgerFacade.

Close Scope Q_scope.
Open Scope Z_scope.

(** ** Nodes *)

Inductive LndNodeType := Offchain | Onchain.
#[global] Instance LndNodeType_eq_dec : EqDecision LndNodeType.
Proof. solve_decision. Defined.

(** [LndConnect]; the connection is the node's. *)
Record LndConnect := mkLnd { lnd_pubkey : string; lnd_type : list LndNodeType; lnd_active : bool }.

Definition getLnds (lndsConnect : list LndConnect) (type : option LndNodeType) (active : bool) : list LndConnect :=
  let typed := match type with
    | Some t => filter (fun n => t ∈ lnd_type n) lndsConnect
    | None => lndsConnect
    end in
  if active then filter (fun n => lnd_active n = true) typed else typed.

Definition getActiveLnd (lndsConnect : list LndConnect) : outcome error LndConnect :=
  match getLnds lndsConnect (Some Offchain) true with
  | [] => Err (new_error OffChainServiceUnavailableError "no active lightning node (for offchain)")
  | n :: _ => Ok n
  end.

Definition getActiveOnchainLnd (lndsConnect : list LndConnect) : outcome error LndConnect :=
  match getLnds lndsConnect (Some Onchain) true with
  | [] => Err (new_error OnChainServiceUnavailableError "no active lightning node (for onchain)")
  | n :: _ => Ok n
  end.

Definition getLndFromPubkey (lndsConnect : list LndConnect) (pubkey : string) : outcome error LndConnect :=
  match list_find (fun n => lnd_pubkey n = pubkey) (getLnds lndsConnect None true) with
  | Some (_, n) => Ok n
  | None => Err (new_error NoValidNodeForPubkeyError ("lnd with pubkey:" +:+ pubkey +:+ " is offline"))
  end.

(** ** The client library *)

(** An error of the library: its type, the details of its first and of its
    second place, and its JSON text; or an error of the language. *)
Inductive ln_reject :=
| LndError (kind : option string) (details failure : option string) (text : string)
| LanguageError (message : string).

Inductive ln_result (A : Type) := LnAnswer (a : A) | LnReject (e : ln_reject) | LnLate.
Arguments LnAnswer {A} a.
Arguments LnReject {A} e.
Arguments LnLate {A}.

(** [PayViaPaymentDetailsArgs] *)
Record PayDetails := mkPayDetails {
  pd_id : string;
  pd_destination : string;
  pd_mtokens : string;
  pd_payment : string;
  pd_max_fee : option js_float;
  pd_cltv_delta : option Z;
  pd_routes : list (list Hop)
}.

(** What a settled payment answers: the fee rounded up, and the preimage. *)
Record paid := mkPaid { paid_safe_fee : js_float; paid_secret : string }.

(** [GetPaymentResult], as far as the code reads it: a settled payment, a
    pending one with the first channel of each of its paths. *)
Record payment_info := mkPaymentInfo {
  pi_id : string; pi_safe_tokens : js_float; pi_safe_fee : js_float; pi_secret : string; pi_timeout : option Z }.
Record pending_info := mkPendingInfo {
  pe_id : string; pe_safe_tokens : js_float; pe_timeout : option Z; pe_paths : list (list string) }.
Record GetPaymentResult := mkGetPayment {
  gp_is_confirmed : bool; gp_is_failed : bool; gp_payment : option payment_info; gp_pending : option pending_info;
  gp_text : string }.

(** How a lock answers: taken, taken and then lost, taken but not released, or
    busy. *)
Inductive lock_answer := LockHeld | LockAborted (msg : string) | LockUnreleased | LockBusy.

Class LightningExternal := {
  ln_state : Type;
  lndsConnect : list LndConnect;
  ln_payViaRoutes : string -> RawRoute -> string -> ln_state -> ln_result paid * ln_state;
  ln_payViaPaymentDetails : string -> PayDetails -> ln_state -> ln_result paid * ln_state;
  ln_getPayment : string -> string -> ln_state -> ln_result GetPaymentResult * ln_state;
  ln_getWalletInfo : string -> ln_state -> (ln_reject + Z) * ln_state;
  ln_getClosedChannels : string -> ln_state -> (ln_reject + list string) * ln_state;
  ln_cancelHodlInvoice : string -> string -> ln_state -> (ln_reject + unit) * ln_state;
  ln_settleHodlInvoice : string -> string -> ln_state -> (ln_reject + unit) * ln_state;
  lock_answers : nat -> lock_answer
}.

(** The world of the payments: the ledger's, the nodes, the values the process
    caches with the time they expire, and the locks asked for so far. *)
Record pworld `{External} `{LightningExternal} := mkPWorld {
  p_ledger : lworld;
  p_ln : ln_state;
  p_blockHeight : option (Z * Z);
  p_closedChannels : option (list string * Z);
  p_locks : nat
}.

(** ** Errors *)

Definition truthy (s : option string) (d : option string) : option string :=
  match truthy_text s with Some t => Some t | None => d end.

Definition parseLndErrorDetails (e : ln_reject) : option string :=
  match e with
  | LndError kind details failure _ => truthy details (truthy failure kind)
  | LanguageError _ => None
  end.

(** [regex.test(errDetails)], which reads [undefined] as its text *)
Definition matches (pattern : string) (e : ln_reject) : bool :=
  str_includes pattern (default "undefined" (parseLndErrorDetails e)).

Definition reject_message (e : ln_reject) : string :=
  match e with LndError _ _ _ text => text | LanguageError msg => msg end.

(** [msgForUnknown({ message })]: such an object has no details. *)
Definition msgForUnknown (message : string) : string :=
  json_stringify (object [("detailsFromLnd", Some (object [("message", Some (JStr message))]))]).

Definition handleCommonLightningServiceErrors (e : ln_reject) : error :=
  if matches "Connection dropped" e || matches "No connection established" e
  then new_error0 OffChainServiceUnavailableError
  else if matches "connection refused" e then new_error0 OffChainServiceBusyError
  else new_error UnknownLightningServiceError (msgForUnknown (reject_message e)).

Definition handleCommonRouteNotFoundErrors (e : ln_reject) : error :=
  if matches "Connection dropped" e || matches "No connection established" e
  then new_error0 OffChainServiceUnavailableError
  else if matches "missing dependent feature" e then new_error0 DestinationMissingDependentFeatureError
  else new_error UnknownRouteNotFoundError (msgForUnknown (reject_message e)).

Definition handleSendPaymentLndErrors (e : ln_reject) (paymentHash : string) : error :=
  if matches "invoice is already paid" e then new_error0 LnAlreadyPaidError
  else if matches "PaymentPathfindingFailedToFindPossibleRoute" e then new_error0 RouteNotFoundError
  else if matches "UnknownNextPeer" e then new_error0 UnknownNextPeerError
  else if matches "PaymentRejectedByDestination" e then new_error PaymentRejectedByDestinationError paymentHash
  else if matches "UnknownPaymentHash" e then new_error InvoiceExpiredOrBadPaymentHashError paymentHash
  else if matches "PaymentAttemptsTimedOut" e then new_error0 PaymentAttemptsTimedOutError
  else if matches "payment is in transition" e then new_error PaymentInTransitionError paymentHash
  else if matches "TemporaryChannelFailure" e then new_error TemporaryChannelFailureError paymentHash
  else if matches "TemporaryNodeFailure" e then new_error TemporaryNodeFailureError paymentHash
  else if matches "InsufficientBalanceToAttemptPayment" e then new_error0 InsufficientBalanceForLnPaymentError
  else handleCommonLightningServiceErrors e.

Inductive PaymentStatus := StatusSettled | StatusFailed | StatusPendingPayment.
#[global] Instance PaymentStatus_eq_dec : EqDecision PaymentStatus.
Proof. solve_decision. Defined.

(** [LnPaymentLookup], or the partial lookup of a failed payment *)
Inductive payment_lookup :=
| Lookup (status : PaymentStatus) (paymentHash : string) (roundedUpAmount : js_float)
    (confirmedDetails : option (js_float * string))
| FailedPartialLookup.

Definition lookup_status (l : payment_lookup) : PaymentStatus :=
  match l with Lookup s _ _ _ => s | FailedPartialLookup => StatusFailed end.

Section Lightning.
Context `{X : External} `{L : MediciEntry} `{LX : !LedgerExternal} `{N : LightningExternal}.

Definition PApp (A : Type) : Type := M pworld error A.

Definition set_pledger l (w : pworld) : pworld := mkPWorld _ _ l (p_ln w) (p_blockHeight w) (p_closedChannels w) (p_locks w).
Definition set_ln s (w : pworld) : pworld := mkPWorld _ _ (p_ledger w) s (p_blockHeight w) (p_closedChannels w) (p_locks w).
Definition set_blockHeight v (w : pworld) : pworld := mkPWorld _ _ (p_ledger w) (p_ln w) v (p_closedChannels w) (p_locks w).
Definition set_closedChannels v (w : pworld) : pworld := mkPWorld _ _ (p_ledger w) (p_ln w) (p_blockHeight w) v (p_locks w).
Definition next_lock (w : pworld) : pworld :=
  mkPWorld _ _ (p_ledger w) (p_ln w) (p_blockHeight w) (p_closedChannels w) (S (p_locks w)).

Definition ledger {A} (c : LApp A) : PApp A := fun w => let '(o, l) := c (p_ledger w) in (o, set_pledger l w).
Definition pbase {A} (c : App A) : PApp A := ledger (lbase c).

(** A call of the library, its answer a value *)
Definition node {A E} (c : ln_state -> A * ln_state) : M pworld E A :=
  fun w => let '(r, s) := c (p_ln w) in (Ok r, set_ln s w).

(** [lockWalletId], with the signal the body reads *)
Definition lockWalletId {A} (body : option string -> PApp A) : PApp A :=
  let! n := gets p_locks in
  modify next_lock ;;
  let run signal := catch (body signal) (fun e => fail (new_error UnknownLockServiceError (err_message e))) in
  match lock_answers n with
  | LockBusy => fail (new_error0 ResourceAttemptsLockServiceError)
  | LockHeld => run None
  | LockAborted msg => run (Some msg)
  | LockUnreleased => attempt (run None) ;; fail (new_error0 ResourceAttemptsLockServiceError)
  end.

(** ** The service *)

(** [LndService()]: the default node, if there are active ones. *)
Definition LndService : outcome error LndConnect :=
  bindo (getActiveLnd lndsConnect) (fun n => bindo (getActiveOnchainLnd lndsConnect) (fun _ => Ok n)).

Definition isLocal (pubkey : string) : bool :=
  existsb (fun n => String.eqb (lnd_pubkey n) pubkey) (getLnds lndsConnect (Some Offchain) false).
Definition listActivePubkeys : list string := map lnd_pubkey (getLnds lndsConnect (Some Offchain) true).
Definition listAllPubkeys : list string := map lnd_pubkey (getLnds lndsConnect (Some Offchain) false).

(** [PayInvoiceResult] *)
Record PayInvoiceResult := mkPayResult { roundedUpFee : js_float; revealedPreImage : string; sentFromPubkey : string }.

(** What a send answers: an error of the message ["Timeout"] is the timeout's. *)
Definition pay_answer (r : ln_result paid) (paymentHash pubkey : string) : outcome error PayInvoiceResult :=
  match r with
  | LnAnswer p => Ok (mkPayResult (paid_safe_fee p) (paid_secret p) pubkey)
  | LnLate => Err (new_error0 LnPaymentPendingError)
  | LnReject (LanguageError msg) =>
      if String.eqb msg "Timeout" then Err (new_error0 LnPaymentPendingError)
      else Err (handleSendPaymentLndErrors (LanguageError msg) paymentHash)
  | LnReject e => Err (handleSendPaymentLndErrors e paymentHash)
  end.

Definition payInvoiceViaRoutes (paymentHash : string) (rawRoute : RawRoute) (pubkey : string) : PApp PayInvoiceResult :=
  let! lnd := lift (getLndFromPubkey lndsConnect pubkey) in
  let! r := node (ln_payViaRoutes (lnd_pubkey lnd) rawRoute paymentHash) in
  lift (pay_answer r paymentHash pubkey).

Definition payInvoiceViaPaymentDetails (defaultLnd : LndConnect) (decodedInvoice : Invoice)
    (btcPaymentAmount : PaymentAmount) (maxFeeAmount : option PaymentAmount) : PApp PayInvoiceResult :=
  let details := mkPayDetails (iv_paymentHash decodedInvoice) (iv_destination decodedInvoice)
    (bigint_toString (amount btcPaymentAmount * 1000)) (iv_paymentSecret decodedInvoice)
    (Number_of ∘ amount <$> maxFeeAmount) (iv_cltvDelta decodedInvoice) (iv_routeHints decodedInvoice) in
  let! r := node (ln_payViaPaymentDetails (lnd_pubkey defaultLnd) details) in
  lift (pay_answer r (iv_paymentHash decodedInvoice) (lnd_pubkey defaultLnd)).

Definition cancelInvoice (pubkey paymentHash : string) : PApp unit :=
  let! lnd := lift (getLndFromPubkey lndsConnect pubkey) in
  let! r := node (ln_cancelHodlInvoice (lnd_pubkey lnd) paymentHash) in
  match r with
  | inl e =>
      if matches "unable to locate invoice" e || matches "invoice already settled" e then ret tt
      else fail (handleCommonLightningServiceErrors e)
  | _ => ret tt
  end.

Definition settleInvoice (pubkey secret : string) : PApp unit :=
  let! lnd := lift (getLndFromPubkey lndsConnect pubkey) in
  let! r := node (ln_settleHodlInvoice (lnd_pubkey lnd) secret) in
  match r with
  | inl e =>
      if matches "SecretDoesNotMatchAnyExistingHodlInvoice" e
      then fail (new_error SecretDoesNotMatchAnyExistingHodlInvoiceError (reject_message e))
      else fail (handleCommonLightningServiceErrors e)
  | _ => ret tt
  end.

(** ** Lookups *)

Definition SECS_PER_5_MINS : Z := 300.

(** [new Date()] *)
Definition pnow {E} : M pworld E Z :=
  fun w => let b := l_base (p_ledger w) in
    (Ok (clock (w_reads b)), set_pledger (set_lbase (next_read b) (p_ledger w)) w).

(** [getOrSet] of the process's cache: the value until it expires. *)
Definition getOrSet {V E} (get : pworld -> option (V * Z)) (put : option (V * Z) -> pworld -> pworld) (ttlSecs : Z)
    (getForCaching : M pworld E V) : M pworld E V :=
  let! now := pnow in
  let! cached := gets get in
  let renew := let! v := getForCaching in modify (put (Some (v, now + ttlSecs * 1000))) ;; ret v in
  match cached with
  | Some (v, expiry) => if now <? expiry then ret v else renew
  | None => renew
  end.

(** Inside the [try] of a lookup an exception is what the library rejected
    with. *)
Definition LnTry (A : Type) : Type := M pworld ln_reject A.

Definition node_try {A} (c : ln_state -> (ln_reject + A) * ln_state) : LnTry A :=
  let! r := node c in match r with inr a => ret a | inl e => throw e end.

(** The first hop of each path; a path without hops is an exception. *)
Fixpoint first_channels (paths : list (list string)) : LnTry (list string) :=
  match paths with
  | [] => ret []
  | [] :: _ => throw (LanguageError "Cannot read properties of undefined (reading 'channel')")
  | (c :: _) :: ps => let! cs := first_channels ps in ret (c :: cs)
  end.

Definition nonzero (t : option Z) : option Z := match t with Some z => if z =? 0 then None else Some z | None => None end.

(** A payment that is neither settled nor failed has failed all the same when
    its time is over and every path starts in a closed channel. *)
Definition resolvePaymentStatus (lnd : LndConnect) (result : GetPaymentResult) : LnTry PaymentStatus :=
  if gp_is_confirmed result then ret StatusSettled
  else if gp_is_failed result then ret StatusFailed
  else
    let! currentBlockHeight := getOrSet p_blockHeight set_blockHeight SECS_PER_5_MINS
      (node_try (ln_getWalletInfo (lnd_pubkey lnd))) in
    let timeout := match nonzero (gp_pending result ≫= pe_timeout) with
      | Some t => Some t | None => nonzero (gp_payment result ≫= pi_timeout) end in
    match timeout, gp_pending result with
    | Some t, Some pending =>
        if t <? currentBlockHeight then
          let! closedChannels := getOrSet p_closedChannels set_closedChannels SECS_PER_5_MINS
            (node_try (ln_getClosedChannels (lnd_pubkey lnd))) in
          let! firsts := first_channels (pe_paths pending) in
          ret (if forallb (fun c => bool_decide (c ∈ closedChannels)) firsts then StatusFailed else StatusPendingPayment)
        else ret StatusPendingPayment
    | _, _ => ret StatusPendingPayment
    end.

Definition lookup_error (e : ln_reject) (paymentHash pubkey : string) : error :=
  if matches "SentPaymentNotFound" e
  then new_error PaymentNotFoundError
    (json_stringify (object [("paymentHash", Some (JStr paymentHash)); ("pubkey", Some (JStr pubkey))]))
  else handleCommonLightningServiceErrors e.

Definition lookupPaymentByPubkeyAndHash (pubkey paymentHash : string) : PApp payment_lookup :=
  let! lnd := lift (getLndFromPubkey lndsConnect pubkey) in
  let! r := node (ln_getPayment (lnd_pubkey lnd) paymentHash) in
  match r with
  | LnLate => fail (new_error0 LookupPaymentTimedOutError)
  | LnReject (LanguageError msg) =>
      if String.eqb msg "Timeout" then fail (new_error0 LookupPaymentTimedOutError)
      else fail (lookup_error (LanguageError msg) paymentHash pubkey)
  | LnReject e => fail (lookup_error e paymentHash pubkey)
  | LnAnswer result =>
      fun w =>
        match resolvePaymentStatus lnd result w with
        | (Ok status, w') =>
            (match gp_payment result, gp_pending result with
             | Some p, _ => Ok (Lookup status (pi_id p) (pi_safe_tokens p) (Some (pi_safe_fee p, pi_secret p)))
             | None, Some p => Ok (Lookup status (pe_id p) (pe_safe_tokens p) None)
             | None, None => match status with
                             | StatusFailed => Ok FailedPartialLookup
                             | _ => Err (new_error BadPaymentDataError (gp_text result))
                             end
             end, w')
        | (Err e, w') | (Throw e, w') =>
            (Err match e with
                 | LanguageError "Timeout" => new_error0 LookupPaymentTimedOutError
                 | _ => lookup_error e paymentHash pubkey
                 end, w')
        end
  end.

(** Without a node: the first one that has it. *)
Definition lookupPayment (pubkey : option string) (paymentHash : string) : PApp payment_lookup :=
  match truthy_text pubkey with
  | Some p => lookupPaymentByPubkeyAndHash p paymentHash
  | None =>
      let! found := fold_m (fun found p =>
        match found with
        | Some l => ret (Some l)
        | None => let! r := attempt (lookupPaymentByPubkeyAndHash p paymentHash) in
                  ret (match r with inr l => Some l | inl _ => None end)
        end) None listAllPubkeys in
      match found with
      | Some l => ret l
      | None => fail (new_error PaymentNotFoundError
          (json_stringify (object [("paymentHash", Some (JStr paymentHash)); ("pubkey", jtext pubkey)])))
      end
  end.
End Lightning.
