(* ===== verification/PendingPayments.v ===== *)
(** * Pending payments

    Model of [src/src/app/payments/translations.ts]: the payment flow of a
    pending payment, rebuilt from its row in the ledger. *)

From stdpp Require Import base gmap list strings.
From Stdlib Require Import ZArith QArith Lia Ascii.
From S2P Require Import Prelude JsStrings JsNumbers JsDecimals Errors MoneyAmounts World Repos Json.
From S2P Require Import PaymentAmounts PaymentFlows LedgerEntries LedgerFacade LedgerBalance LedgerService.

Close Scope Q_scope.
Open Scope Z_scope.

(** ** [translations.ts] *)

Definition noRecipient : Recipient := mkRecipient None None None None None None.

Definition PaymentFlowFromLedgerTransaction (t : LedgerTransaction) (senderAccountId : string) :
    outcome error PaymentFlow :=
  if negb (bool_decide (lt_type t = Some TxPayment))
  then Err (new_error0 NonLnPaymentTransactionForPaymentFlowError)
  else
    match lt_walletId t, lt_currency t, lt_paymentHash t, lt_satsAmount t, lt_centsAmount t, lt_satsFee t, lt_centsFee t with
    | Some walletId, Some currency, Some paymentHash, Some satsAmount, Some centsAmount, Some satsFee, Some centsFee =>
        bindo (paymentAmountFromNumber satsAmount Btc) (fun btcPaymentAmount =>
        bindo (paymentAmountFromNumber centsAmount Usd) (fun usdPaymentAmount =>
        bindo (paymentAmountFromNumber satsFee Btc) (fun btcProtocolAndBankFee =>
        bindo (paymentAmountFromNumber centsFee Usd) (fun usdProtocolAndBankFee =>
        Ok (mkFlow (Some paymentHash) None "" false
          (mkCommon (mkDescriptor walletId currency senderAccountId) noRecipient
             (mkAmounts btcPaymentAmount usdPaymentAmount btcProtocolAndBankFee usdProtocolAndBankFee)
             (if decide (currency = Usd) then amount usdPaymentAmount else amount btcPaymentAmount)
             SettleLightning InitLightning (lt_timestamp t) true None None))))))
    | _, _, _, _, _, _, _ => Err (new_error0 MissingPropsInTransactionForPaymentFlowError)
    end.

(** ** Reading a recorded send back *)

Lemma safeBigInt_sub a b : 0 <= b <= a -> a <= 2 ^ 53 -> safeBigInt (fl_sub (Number_of a) (Number_of b)) = Ok (a - b).
Proof.
  intros Hb Ha. destruct (Number_of_exact a) as (x & Ex & _); [lia|]. destruct (Number_of_exact b) as (y & Ey & _); [lia|].
  assert (num_val x == inject_Z a)%Q as Vx.
  { unfold Number_of, fl in Ex. case_match; simplify_eq. apply rnd_int. lia. }
  assert (num_val y == inject_Z b)%Q as Vy.
  { unfold Number_of, fl in Ey. case_match; simplify_eq. apply rnd_int. lia. }
  rewrite Ex, Ey. cbn [fl_sub].
  assert (num_val x - num_val y == inject_Z (a - b))%Q as D.
  { rewrite Vx, Vy. unfold Z.sub. by rewrite inject_Z_plus, inject_Z_opp. }
  destruct (num_sub_range x y (a - b) (a - b)) as [Lo Hi]; [lia|lia|by apply Qeq_le; rewrite D|by apply Qeq_le|].
  assert (num_val (num_sub x y) == inject_Z (a - b))%Q as V by by apply Qle_antisym.
  destruct (num_to_Z_val _ _ V) as [Hint HZ].
  unfold fl. rewrite num_isFinite_val.
  - unfold safeBigInt. by rewrite Hint, HZ.
  - rewrite V. change 0%Q with (inject_Z 0). rewrite <- Zle_Qle. lia.
  - rewrite V. rewrite <- two_pow_Z by lia. rewrite <- Zlt_Qlt.
    apply Z.le_lt_trans with (2 ^ 53); [lia|]. apply Z.pow_lt_mono_r; lia.
Qed.

(** The amounts of a payment, in their currencies and small enough for a
    double, with the fees. *)
Definition amounts_ok (a : AmountsAndFees) : Prop :=
  pay_currency (btcPaymentAmount a) = Btc /\ pay_currency (usdPaymentAmount a) = Usd /\
  pay_currency (btcProtocolAndBankFee a) = Btc /\ pay_currency (usdProtocolAndBankFee a) = Usd /\
  0 <= amount (btcPaymentAmount a) /\ 0 <= amount (usdPaymentAmount a) /\
  0 <= amount (btcProtocolAndBankFee a) /\ 0 <= amount (usdProtocolAndBankFee a) /\
  amount (btcPaymentAmount a) + amount (btcProtocolAndBankFee a) <= 2 ^ 53 /\
  amount (usdPaymentAmount a) + amount (usdProtocolAndBankFee a) <= 2 ^ 53.

(** What [executePaymentViaLn] records of a payment *)
Definition ln_send_args (description : string) (sender : WalletDescriptor) (a : AmountsAndFees) (m : ledger_metadata) :
    RecordSendArgs :=
  mkRecordSend description sender
    (calc_add (btcPaymentAmount a) (btcProtocolAndBankFee a), calc_add (usdPaymentAmount a) (usdProtocolAndBankFee a))
    None (lm_metadata m) (lm_debit m) (default ∅ (lm_internal m)).

(** The posting on the sender's account *)
Definition sender_posting (args : RecordSendArgs) : transaction :=
  let a := if decide (d_currency (rs_sender args) = Btc) then (rs_amount args).1 else (rs_amount args).2 in
  mkTransaction (toLedgerAccountId (d_wallet (rs_sender args))) (Number_of (amount a)) js_zero
    (with_currency (spread (rs_metadata args) (default ∅ (rs_debit args))) (pay_currency a)).

(** The payment amount in the currency the sender is debited in *)
Definition debited_amount (sender : WalletDescriptor) (a : AmountsAndFees) : PaymentAmount :=
  if decide (d_currency sender = Btc) then btcPaymentAmount a else usdPaymentAmount a.

Section ReadBack.
Variables (description hash pubkey : string) (sender : WalletDescriptor) (a : AmountsAndFees)
  (d : DisplayTxnAmounts) (feeKnownInAdvance : bool) (memo : option string).

Let m := LnSendLedgerMetadata hash pubkey a d feeKnownInAdvance memo.
Let args := ln_send_args description sender a m.

Hypothesis Hhash : nonempty hash = true.
Hypothesis Ha : amounts_ok a.

Lemma sender_row_members j r : stores j (sender_posting args) r ->
  let t := translateToLedgerTx r in
  lt_type t = Some TxPayment /\ lt_paymentHash t = Some hash /\ lt_pendingConfirmation t = Some true /\
  lt_currency t = Some (pay_currency (debited_amount sender a)) /\ lt_feeKnownInAdvance t = feeKnownInAdvance /\
  lt_satsAmount t = Some (Number_of (amount (btcPaymentAmount a))) /\
  lt_centsAmount t = Some (Number_of (amount (usdPaymentAmount a))) /\
  lt_satsFee t = Some (Number_of (amount (btcProtocolAndBankFee a))) /\
  lt_centsFee t = Some (Number_of (amount (usdProtocolAndBankFee a))).
Proof.
  intros (_ & _ & _ & _ & Hm). assert (forall k v, tx_meta (sender_posting args) !! k = Some v -> v <> MUndefined ->
    r_meta r !! k = Some v) as Hf by exact Hm. clear Hm.
  assert (r_meta r !! "currency" = Some (MText (currency_name (pay_currency (debited_amount sender a))))) as Hcur.
  { apply Hf; [|done]. unfold sender_posting, debited_amount. cbn [tx_meta]. rewrite with_currency_lookup. simpl.
    by case_decide. }
  unfold translateToLedgerTx, text_field, number_field, bool_field. cbn [lt_type lt_paymentHash lt_pendingConfirmation
    lt_currency lt_feeKnownInAdvance lt_satsAmount lt_centsAmount lt_satsFee lt_centsFee].
  rewrite (Hf "type" (MText "payment")), (Hf "hash" (MText hash)), (Hf "pending" (MBool true)),
    (Hf "feeKnownInAdvance" (MBool feeKnownInAdvance)),
    (Hf "satsAmount" (MNumber (Number_of (amount (btcPaymentAmount a))))),
    (Hf "centsAmount" (MNumber (Number_of (amount (usdPaymentAmount a))))),
    (Hf "satsFee" (MNumber (Number_of (amount (btcProtocolAndBankFee a))))),
    (Hf "centsFee" (MNumber (Number_of (amount (usdProtocolAndBankFee a))))), Hcur
    by (try done; reflexivity).
  simpl. rewrite Hhash. repeat split. destruct (pay_currency (debited_amount sender a)); reflexivity.
Qed.

(** The sender's row of a recorded payment gives back the amount that was
    paid. *)
Lemma sender_row_amount j r : stores j (sender_posting args) r ->
  inputAmountFromLedgerTransaction (translateToLedgerTx r) = Ok (amount (debited_amount sender a)).
Proof.
  intros Hr. set (t := translateToLedgerTx r).
  destruct (sender_row_members j r Hr) as (_ & _ & _ & Hc & _ & _ & _ & Hsf & Hcf).
  destruct Ha as (Cb & Cu & Cbf & Cuf & Pb & Pu & Pbf & Puf & Sb & Su). destruct Hr as (_ & _ & Hdebit & _).
  assert (lt_debit t = Number_of (amount (debited_amount sender a) +
    amount (if decide (d_currency sender = Btc) then btcProtocolAndBankFee a else usdProtocolAndBankFee a))) as Hd.
  { unfold t, translateToLedgerTx, debited_amount. cbn [lt_debit]. rewrite Hdebit. simpl. by case_decide. }
  fold t in Hc, Hsf, Hcf. clearbody t. unfold inputAmountFromLedgerTransaction.
  rewrite Hc, Hd, Hcf, Hsf. unfold debited_amount.
  destruct (decide (d_currency sender = Btc)); rewrite ?Cb, ?Cu; simpl; rewrite safeBigInt_sub by lia; f_equal; lia.
Qed.

(** The account it is on names no wallet for the service, so the flow of the
    payment cannot be made of it. *)
Lemma sender_row_no_flow j r accountId : stores j (sender_posting args) r ->
  lt_walletId (translateToLedgerTx r) = None /\
  PaymentFlowFromLedgerTransaction (translateToLedgerTx r) accountId =
    Err (new_error0 MissingPropsInTransactionForPaymentFlowError).
Proof.
  intros Hr. destruct (sender_row_members j r Hr) as (Ht & _). destruct Hr as (_ & Hacc & _).
  assert (lt_walletId (translateToLedgerTx r) = None) as Hw.
  { unfold translateToLedgerTx. cbn [lt_walletId]. rewrite Hacc. apply facade_not_wallet, facade_ledger_account. }
  split; [done|]. unfold PaymentFlowFromLedgerTransaction. by rewrite Ht, Hw.
Qed.
End ReadBack.

Section Recorded.
Context {X : External} {L : MediciEntry} `{Laws : !MediciEntryLaws} `{LX : !LedgerExternal} `{BL : !BookLaws}.

Lemma dealer_keeps s c account t : t ∈ transactions (b_entry s) -> t ∈ transactions (addDealerDebitsAndCredits s c account).
Proof.
  intros Ht. unfold addDealerDebitsAndCredits.
  repeat case_match; rewrite ?transactions_credit, ?transactions_debit, ?transactions_credit, ?elem_of_app; auto.
Qed.

Lemma sender_posting_in ids args : whole (tx_debit (sender_posting args)) <> 0 ->
  sender_posting args ∈ transactions (creditOffChain (send_builder ids args)).
Proof.
  intros Hz. unfold creditOffChain, creditAccount, removeZeroAmountEntries, send_builder, debitAccount.
  rewrite transactions_set. apply list_elem_of_filter. split.
  - assert (fl_is_zero (tx_debit (sender_posting args)) = false) as ->; [|done].
    destruct (fl_is_zero _) eqn:E; [|done]. by apply fl_is_zero_whole in E.
  - rewrite transactions_credit. apply elem_of_app. left. apply dealer_keeps. cbn [b_entry set_entry].
    rewrite transactions_debit. apply elem_of_app. right. by apply list_elem_of_singleton.
Qed.

(** C30: a recorded Lightning payment is in the ledger as it was priced: the row of
    its sender gives back the hash, the amount paid and the four amounts. The
    flow of the payment is not made of it again: the facade posts on
    [Liabilities:<wallet>], which the service does not read as a wallet, and the
    rebuild ends with the error for missing properties. *)
Theorem recorded_send_reads_back (description hash pubkey : string) (sender : WalletDescriptor) (a : AmountsAndFees)
    (d : DisplayTxnAmounts) (feeKnownInAdvance : bool) (memo : option string) (accountId : string) (w w' : lworld) j :
  nonempty hash = true -> amounts_ok a -> 0 < amount (debited_amount sender a) ->
  recordSendOffChain (ln_send_args description sender a
    (LnSendLedgerMetadata hash pubkey a d feeKnownInAdvance memo)) w = (Ok j, w') ->
  exists r, r ∈ l_rows w' /\ r_journal r = j_id j /\ r_accounts r = toLedgerAccountId (d_wallet sender) /\
    let t := translateToLedgerTx r in
    lt_paymentHash t = Some hash /\ lt_pendingConfirmation t = Some true /\
    inputAmountFromLedgerTransaction t = Ok (amount (debited_amount sender a)) /\
    lt_satsAmount t = Some (Number_of (amount (btcPaymentAmount a))) /\
    lt_centsAmount t = Some (Number_of (amount (usdPaymentAmount a))) /\
    lt_satsFee t = Some (Number_of (amount (btcProtocolAndBankFee a))) /\
    lt_centsFee t = Some (Number_of (amount (usdProtocolAndBankFee a))) /\
    lt_walletId t = None /\
    PaymentFlowFromLedgerTransaction t accountId = Err (new_error0 MissingPropsInTransactionForPaymentFlowError).
Proof.
  intros Hhash Ha Hp H. apply bind_Ok in H as (ids & w1 & Hids & H). apply persisted_rows in H.
  set (args := ln_send_args _ _ _ _) in *.
  destruct (commit_stores _ _ _ _ H) as (_ & news & Hrows & Hn).
  assert (sender_posting args ∈ transactions (creditOffChain (send_builder ids args))) as Hin.
  { apply sender_posting_in. unfold sender_posting, debited_amount in *. destruct Ha as (_ & _ & _ & _ & Ha).
    cbn [tx_debit]. rewrite whole_Number; simpl; case_decide; simpl; unfold safe_int; lia. }
  apply list_elem_of_lookup in Hin as [i Hi]. destruct (Forall2_lookup_l _ _ _ _ _ Hn Hi) as (r & Hr & Hst).
  exists r. split; [rewrite Hrows; apply elem_of_app; right; by eapply list_elem_of_lookup_2|].
  pose proof (sender_row_amount _ _ _ _ _ _ _ _ Hhash Ha _ _ Hst) as Hamt.
  destruct (sender_row_members _ _ _ _ _ _ _ _ Hhash _ _ Hst) as (_ & Hh & Hp' & _ & _ & Hs & Hc & Hsf & Hcf).
  destruct (sender_row_no_flow _ _ _ _ _ _ _ _ Hhash _ _ accountId Hst) as [Hw Hf].
  destruct Hst as (Hj & Hacc & _). by repeat split.
Qed.
End Recorded.
