(* ===== verification/TopupWorld.v ===== *)
(** * The world of the card top-ups

    What the Fygaro handlers share: the world of the other services, the Redis
    keys they use, the rows of ERPNext, the module-level caches, and the alerts
    and notifications sent. Redis, ERPNext, Kratos, the random bytes, the
    cryptographic hashes and the configuration are parameters, in the class
    [TopupExternal]. Every call of a store is one atomic action of a process.
    Also here: the cache service of [src/src/services/cache/redis-cache.ts] and
    the lock service of [src/src/services/lock/index.ts]. *)

From stdpp Require Import base gmap list strings.
From Stdlib Require Import ZArith Lia.
From S2P Require Import Prelude JsStrings JsNumbers Processes Errors World.
From S2P Require Import FygaroGate.

Open Scope Z_scope.
Open Scope flash_scope.

(** ** Checkout intents *)

(** [FygaroTopupOutcomeState]; a record of another build may hold any text. *)
Inductive FygaroTopupOutcomeState :=
| outcome_received | outcome_credited | outcome_held_for_review | outcome_failed
| outcome_unknown (state : string).

#[global] Instance FygaroTopupOutcomeState_eq_dec : EqDecision FygaroTopupOutcomeState.
Proof. solve_decision. Defined.

Record FygaroTopupOutcome := mkOutcome {
  o_state : FygaroTopupOutcomeState;
  o_reason : option string;
  o_netAmountCents : option Z;
  o_detailCents : option Z;
  o_transactionId : option string;
  o_atMs : Z
}.

#[global] Instance FygaroTopupOutcome_eq_dec : EqDecision FygaroTopupOutcome.
Proof. solve_decision. Defined.

Record FygaroCheckoutIntent := mkIntent {
  i_intentId : string;
  i_accountId : string;
  i_username : string;
  i_amountCents : Z;
  i_currency : string;
  i_createdAtMs : Z;
  i_checkoutUrl : option string;
  i_expiresAtMs : option Z;
  i_outcome : option FygaroTopupOutcome
}.

#[global] Instance FygaroCheckoutIntent_eq_dec : EqDecision FygaroCheckoutIntent.
Proof. solve_decision. Defined.

(** ** Payment results kept for replay *)

Inductive PaymentSendStatus := PaymentSuccess | PaymentFailure | PaymentPending | AlreadyPaid.

#[global] Instance PaymentSendStatus_eq_dec : EqDecision PaymentSendStatus.
Proof. solve_decision. Defined.

Record CachedPaymentSend := mkCachedSend { cs_fingerprint : string; cs_result : PaymentSendStatus }.

(** ** Rows of ERPNext *)

Inductive BridgeTransferRequestTransactionType := Topup | Cashout.

(** The status of a row is a text; these are the ones the code writes. *)
Definition BridgeTransferRequestStatus : Type := string.
Definition TransferPending : BridgeTransferRequestStatus := "Pending".
Definition FiatReceived : BridgeTransferRequestStatus := "Fiat Received".
Definition TransferSettled : BridgeTransferRequestStatus := "Settled".
Definition TransferCompleted : BridgeTransferRequestStatus := "Completed".
Definition TransferFailed : BridgeTransferRequestStatus := "Failed".

#[global] Instance transaction_type_eq_dec : EqDecision BridgeTransferRequestTransactionType.
Proof. solve_decision. Defined.

(** A row of the doctype Bridge Transfer Request, and as much a payload that
    creates or updates one: a field that is [None] is not set, or not sent.
    The two dates are kept in seconds. *)
Record transfer_row := mkRow {
  transaction_type : BridgeTransferRequestTransactionType;
  row_status : BridgeTransferRequestStatus;
  last_seen_at : Z;
  provider : option string;
  asset : option string;
  network : option string;
  row_amount : option string;
  row_currency : option string;
  developer_fee : option string;
  initial_amount : option string;
  subtotal_amount : option string;
  final_amount : option string;
  processor_fee : option string;
  flash_fee : option string;
  account_id : option string;
  wallet_id : option string;
  bridge_customer_id : option string;
  bridge_transfer_id : option string;
  ibex_tx_hash : option string;
  row_address : option string;
  source_event_id : option string;
  source_event_type : option string;
  source_systems_seen : option string;
  first_seen_at : option Z;
  raw_payload_json : option string;
  failure_reason : option string
}.

(** A row of the doctype Fee Discount. *)
Record FeeDiscountDoc := mkDiscountDoc {
  dd_username : scalar;
  dd_discount_percent : scalar;
  dd_applies_to_topup : scalar;
  dd_applies_to_cashout : scalar;
  dd_active : scalar
}.

Record FeeDiscount := mkDiscount {
  discountPercent : js_num;
  appliesToTopup : bool;
  appliesToCashout : bool
}.

(** ** The state *)

(** The account a Plaid link token was issued to. *)
Record PlaidLinkTokenBinding := mkBinding {
  pb_accountId : string;
  pb_bridgeCustomerId : string;
  pb_expiresAt : string
}.

(** A member of the sorted set of an account's holds, of which the text is
    [<amountCents>:<intentId>]. Only [saveIntent] adds to these sets, with an
    amount of whole cents. *)
Record hold_member := mkMember { hm_amountCents : Z; hm_intentId : string }.

#[global] Instance hold_member_eq_dec : EqDecision hold_member.
Proof. solve_decision. Defined.
#[global] Instance hold_member_countable : Countable hold_member.
Proof.
  apply (inj_countable' (fun m => (hm_amountCents m, hm_intentId m)) (fun p => mkMember p.1 p.2)). by intros [].
Defined.

(** The keys of Redis, by their prefixes. A key with a time to live carries the
    moment it goes. *)
Record redis_state := mkRedis {
  r_holds : gmap string (gmap hold_member Z * option Z);
  r_intents : gmap string (FygaroCheckoutIntent * Z);
  r_claims : gmap string (string * Z);
  r_sends : gmap string (CachedPaymentSend * Z);
  r_locks : gset string;
  r_timelocks : gmap string Z;
  r_plaid : gmap string (PlaidLinkTokenBinding * Z)
}.

Inductive alert_severity := Warning | Critical.

Inductive NotificationOutcome := NotifyCredited | NotifyCrediting | NotifyHeldForReview.

(** What leaves the program for people to read. *)
Inductive event :=
| Alert (severity : alert_severity) (dedupKey : string)
| OpsEvent (phase : string)
| Push (accountId : string) (outcome : NotificationOutcome) (amountCents : Z) (currency : string).

(** The part of [FygaroConfig] the handlers read; an absent text is empty. *)
Record FygaroConfig := mkFygaroConfig {
  fygaro_enabled : bool;
  credit_enabled : bool;
  checkout_enabled : bool;
  checkout_buttonUrl : string;
  checkout_keyId : string;
  checkout_ttlSeconds : option Z;
  webhook_secrets : gmap string string
}.

Class TopupExternal `{External} := {
  fygaroConfig : FygaroConfig;
  redis_fault : nat -> option mongo_failure;
  redis_time : nat -> Z;
  erp_configured : bool;
  erp_fault : nat -> option (bool * error);
  erp_duplicate : error;
  erp_not_found : error;
  erp_settings : nat -> option FygaroSettingsDoc;
  erp_discounts : nat -> option (list FeeDiscountDoc);
  random_bytes : nat -> string;
  hmac_sha256 : string -> string -> string;
  sha256_hex : string -> string;
  same_username : string -> string -> bool;
  legacy_date : string -> option Z;
  kratos_identifier : string -> outcome error string
}.

Record tworld `{TopupExternal} := mkTWorld {
  t_base : world;
  t_redis : redis_state;
  t_redis_ops : nat;
  t_rows : gmap string transfer_row;
  t_erp_ops : nat;
  t_randoms : nat;
  t_settings : option (option FygaroSettings * Z);
  t_discounts : option (gmap string FeeDiscount * Z);
  t_events : list event
}.

Section TopupWorld.
Context `{X : TopupExternal}.

Definition set_base b (w : tworld) : tworld :=
  mkTWorld _ _ b (t_redis w) (t_redis_ops w) (t_rows w) (t_erp_ops w) (t_randoms w) (t_settings w)
    (t_discounts w) (t_events w).
Definition set_redis r (w : tworld) : tworld :=
  mkTWorld _ _ (t_base w) r (t_redis_ops w) (t_rows w) (t_erp_ops w) (t_randoms w) (t_settings w)
    (t_discounts w) (t_events w).
Definition next_redis_op (w : tworld) : tworld :=
  mkTWorld _ _ (t_base w) (t_redis w) (S (t_redis_ops w)) (t_rows w) (t_erp_ops w) (t_randoms w)
    (t_settings w) (t_discounts w) (t_events w).
Definition set_rows rows (w : tworld) : tworld :=
  mkTWorld _ _ (t_base w) (t_redis w) (t_redis_ops w) rows (t_erp_ops w) (t_randoms w)
    (t_settings w) (t_discounts w) (t_events w).
Definition next_erp_op (w : tworld) : tworld :=
  mkTWorld _ _ (t_base w) (t_redis w) (t_redis_ops w) (t_rows w) (S (t_erp_ops w)) (t_randoms w)
    (t_settings w) (t_discounts w) (t_events w).
Definition next_random (w : tworld) : tworld :=
  mkTWorld _ _ (t_base w) (t_redis w) (t_redis_ops w) (t_rows w) (t_erp_ops w) (S (t_randoms w))
    (t_settings w) (t_discounts w) (t_events w).
Definition set_settings s (w : tworld) : tworld :=
  mkTWorld _ _ (t_base w) (t_redis w) (t_redis_ops w) (t_rows w) (t_erp_ops w) (t_randoms w) s
    (t_discounts w) (t_events w).
Definition set_discounts d (w : tworld) : tworld :=
  mkTWorld _ _ (t_base w) (t_redis w) (t_redis_ops w) (t_rows w) (t_erp_ops w) (t_randoms w)
    (t_settings w) d (t_events w).
Definition log_event e (w : tworld) : tworld :=
  mkTWorld _ _ (t_base w) (t_redis w) (t_redis_ops w) (t_rows w) (t_erp_ops w) (t_randoms w)
    (t_settings w) (t_discounts w) (t_events w ++ [e]).

(** [TApp A]: a handler of this world. *)
Definition TApp (A : Type) : Type := proc tworld error A.

(** A call of the other services. *)
Definition base {A} (c : App A) : TApp A :=
  atomic (fun w => let '(o, b) := c (t_base w) in (o, set_base b w)).

Definition peek {A} (f : tworld -> A) : TApp A := atomic (fun w => (Ok (f w), w)).
Definition poke (f : tworld -> tworld) : TApp unit := atomic (fun w => (Ok tt, f w)).

(** [Date.now()] *)
Definition Date_now : TApp Z := base new_Date.

Lemma run_Date_now w :
  run Date_now w = (Ok (clock (w_reads (t_base w))), set_base (next_read (t_base w)) w).
Proof. done. Qed.

Definition emit (e : event) : TApp unit := poke (log_event e).

(** [randomBytes(12)] *)
Definition randomBytes12 : TApp string :=
  atomic (fun w => (Ok (random_bytes (t_randoms w)), next_random w)).

(** One command of Redis, at the server's time; a call that fails does so
    before or after it takes effect. *)
Definition redis {A} (op : Z -> redis_state -> A * redis_state) : TApp A :=
  atomic (fun w =>
    let n := t_redis_ops w in
    let w1 := next_redis_op w in
    let '(a, r) := op (redis_time n) (t_redis w) in
    match redis_fault n with
    | None => (Ok a, set_redis r w1)
    | Some (FaultBefore msg) => (Throw (new_error JsError msg), w1)
    | Some (FaultAfter msg) => (Throw (new_error JsError msg), set_redis r w1)
    end).

(** One request to ERPNext on its rows. A request that fails throws, after it
    took effect or without it. *)
Definition erp {A} (op : gmap string transfer_row -> outcome error A * gmap string transfer_row) :
    TApp A :=
  atomic (fun w =>
    let w1 := next_erp_op w in
    let '(o, rows) := op (t_rows w) in
    match erp_fault (t_erp_ops w) with
    | None => (o, set_rows rows w1)
    | Some (true, e) => (Throw e, set_rows rows w1)
    | Some (false, e) => (Throw e, w1)
    end).

(** A request for something else than rows; [n] numbers it. *)
Definition erp_query {A} (f : nat -> A) : TApp A :=
  atomic (fun w =>
    match erp_fault (t_erp_ops w) with
    | None => (Ok (f (t_erp_ops w)), next_erp_op w)
    | Some (_, e) => (Throw e, next_erp_op w)
    end).

(** A key with a time to live, at a moment. *)
Definition live {A} (now : Z) (entry : option (A * Z)) : option A :=
  '(a, expiry) ← entry; if now <? expiry then Some a else None.

(** ** Cache service *)

(** The messages of [UnknownCacheServiceError] are those of the error. *)
Definition cached {A} (c : TApp A) : TApp A :=
  pcatch c (fun e => pfail (new_error UnknownCacheServiceError (err_message e))).

(** [cache.set] under a prefix, given by its part of the state. *)
Definition cache_set {V} (put : gmap string (V * Z) -> redis_state -> redis_state)
    (entries : redis_state -> gmap string (V * Z)) (key : string) (value : V) (ttlSecs : Z) :
    TApp V :=
  cached (redis (fun now r =>
    (value, put (<[key := (value, now + ttlSecs * 1000)]> (entries r)) r))).

Definition cache_get {V} (entries : redis_state -> gmap string (V * Z)) (key : string) : TApp V :=
  let* value := cached (redis (fun now r => (live now (entries r !! key), r))) in
  match value with
  | None => pfail (new_error0 CacheUndefinedError)
  | Some v => pret v
  end.

(** [cache.clear] *)
Definition cache_clear {V} (put : gmap string (V * Z) -> redis_state -> redis_state)
    (entries : redis_state -> gmap string (V * Z)) (key : string) : TApp unit :=
  cached (redis (fun _ r => (tt, put (delete key (entries r)) r))).

(** [consumeCacheKey]: whether this call removed the key. *)
Definition consumeCacheKey {V} (put : gmap string (V * Z) -> redis_state -> redis_state)
    (entries : redis_state -> gmap string (V * Z)) (key : string) : TApp bool :=
  cached (redis (fun now r =>
    (bool_decide (is_Some (live now (entries r !! key))), put (delete key (entries r)) r))).

(** ** Redis state, by prefix *)

Definition set_holds h (r : redis_state) : redis_state :=
  mkRedis h (r_intents r) (r_claims r) (r_sends r) (r_locks r) (r_timelocks r) (r_plaid r).
Definition set_intents i (r : redis_state) : redis_state :=
  mkRedis (r_holds r) i (r_claims r) (r_sends r) (r_locks r) (r_timelocks r) (r_plaid r).
Definition set_claims c (r : redis_state) : redis_state :=
  mkRedis (r_holds r) (r_intents r) c (r_sends r) (r_locks r) (r_timelocks r) (r_plaid r).
Definition set_sends s (r : redis_state) : redis_state :=
  mkRedis (r_holds r) (r_intents r) (r_claims r) s (r_locks r) (r_timelocks r) (r_plaid r).
Definition set_locks l (r : redis_state) : redis_state :=
  mkRedis (r_holds r) (r_intents r) (r_claims r) (r_sends r) l (r_timelocks r) (r_plaid r).
Definition set_timelocks t (r : redis_state) : redis_state :=
  mkRedis (r_holds r) (r_intents r) (r_claims r) (r_sends r) (r_locks r) t (r_plaid r).

Definition set_plaid p (r : redis_state) : redis_state :=
  mkRedis (r_holds r) (r_intents r) (r_claims r) (r_sends r) (r_locks r) (r_timelocks r) p.

(** ** Lock service *)

(** One attempt of Redlock, which succeeds when the key is free. A fault counts as
    a failed attempt; a key it leaves set stays set (a lock's own expiry is not
    modelled). *)
Definition lock_try (path : string) : TApp bool :=
  pcatch
    (redis (fun _ r =>
       if bool_decide (path ∈ r_locks r) then (false, r)
       else (true, set_locks ({[path]} ∪ r_locks r) r)))
    (fun _ => pret false).

Fixpoint lock_acquire (attempts : nat) (path : string) : TApp bool :=
  match attempts with
  | O => pret false
  | S n => let* got := lock_try path in if got then pret true else lock_acquire n path
  end.

(** Whether the release reached the server. *)
Definition lock_release (path : string) : TApp bool :=
  pcatch (redis (fun _ r => (true, set_locks (r_locks r ∖ {[path]}) r))) (fun _ => pret false).

(** Whatever the body does, the lock is released; a body that throws, and a
    release that fails, are errors. *)
Definition with_lock {W A} (acquire release : proc W error bool) (asyncFn : proc W error A) :
    proc W error A :=
  let* got := acquire in
  if got then
    let* result := pcapture asyncFn in
    let* released := release in
    if released then
      match result with
      | Ok a => pret a
      | Err e => pfail e
      | Throw e => pfail (new_error UnknownLockServiceError (err_message e))
      end
    else pfail (new_error0 ResourceAttemptsLockServiceError)
  else pfail (new_error0 ResourceAttemptsLockServiceError).

(** [redlock]: three retries after the first attempt. *)
Definition redlock {A} (path : string) (asyncFn : TApp A) : TApp A :=
  with_lock (lock_acquire 4 path) (lock_release path) asyncFn.

Definition lockPaymentIdempotencyKey {A} (key : string) (asyncFn : TApp A) : TApp A :=
  redlock ("locks:payment-idempotency:" +:+ key) asyncFn.

Definition durationLockIdempotencyKey : Z := 1000 * 60 * 60.

(** One attempt to take the key for an hour. *)
Definition timelock_try (path : string) : TApp bool :=
  pcatch
    (redis (fun now r =>
       match live now (pair tt <$> r_timelocks r !! path) with
       | Some _ => (false, r)
       | None => (true, set_timelocks (<[path := now + durationLockIdempotencyKey]> (r_timelocks r)) r)
       end))
    (fun _ => pret false).

(** [lockIdempotencyKey]: one retry, and no release. *)
Definition lockIdempotencyKey (key : string) : TApp unit :=
  let path := "locks:idempotencykey:" +:+ key in
  let* got := timelock_try path in
  let* got := if got then pret true else timelock_try path in
  if got then pret tt else pfail (new_error ExecutionError "The operation was unable to achieve a quorum during its retry window.").

End TopupWorld.

(** ** Reasoning about interleaved Redis commands

    When the invariant speaks of Redis only, a command has two cases to look at:
    it takes effect, and its caller learns the result or gets an exception. *)

Section RedisRules.
Context `{X : TopupExternal} {S : Type}.
Variable J : redis_state -> list S -> Prop.

Definition on_redis (w : tworld) (ss : list S) : Prop := J (t_redis w) ss.

Lemma on_redis_same w ss i s : on_redis w ss -> ss !! i = Some s -> on_redis w (<[i := s]> ss).
Proof. intros HJ Hs. by rewrite list_insert_id. Qed.

Lemma safe_redis {A} (P : S -> outcome error A -> Prop) i op s :
  (forall now r ss, J r ss -> ss !! i = Some s ->
     exists s', J (op now r).2 (<[i := s']> ss) /\ P s' (Ok (op now r).1) /\
       forall e, P s' (Throw e)) ->
  (forall e, P s (Throw e)) ->
  safe on_redis P i (redis op) s.
Proof.
  intros Hop Hs w ss HI Hi. unfold redis.
  destruct (Hop (redis_time (t_redis_ops w)) (t_redis w) ss HI Hi) as (s' & HJ & HP & HT).
  destruct (op (redis_time (t_redis_ops w)) (t_redis w)) as [a r] eqn:Eop. cbn [fst snd] in *.
  destruct (redis_fault (t_redis_ops w)) as [[msg|msg]|]; cbn [fst snd].
  - exists s. split; [by apply on_redis_same|apply Hs].
  - exists s'. split; [done|apply HT].
  - exists s'. by split.
Qed.

(** A command that only reads. *)
Lemma safe_redis_read {A} (P : S -> outcome error A -> Prop) i (f : Z -> redis_state -> A) s :
  (forall now r ss, J r ss -> ss !! i = Some s -> P s (Ok (f now r))) ->
  (forall e, P s (Throw e)) ->
  safe on_redis P i (redis (fun now r => (f now r, r))) s.
Proof.
  intros Hf Hs. apply safe_redis; [|done]. intros now r ss HJ Hi. exists s.
  cbn [fst snd]. rewrite list_insert_id by done. eauto.
Qed.

End RedisRules.
