(* ===== verification/LightningSends.v ===== *)
(** * Lightning sends

    Model of the send over Lightning of [src/src/app/payments/send-lightning.ts]
    ([executePaymentViaLn]), of the checks of [helpers.ts] it makes, of
    [reimburse-fee.ts], [reimburse-failed-usd.ts] and
    [update-pending-payments.ts], and of the repository of payment flows in
    [src/src/services/mongoose/payment-flow.ts]. Prices, limits and the
    currency an account is shown in are parameters. *)

From stdpp Require Import base gmap list strings.
From Stdlib Require Import ZArith Lia Ascii.
From S2P Require Import Prelude JsStrings JsNumbers JsDecimals Errors MoneyAmounts World Repos Json.
From S2P Require Import PaymentAmounts PaymentFlows DisplayAmounts LightningFlow LedgerEntries LedgerFacade.
From S2P Require Import LedgerService Lightning PendingPayments Processes TopupWorld.

Close Scope Q_scope.
Open Scope Z_scope.

Class PriceExternal := {
  displayRatio : string -> outcome error DisplayPriceRatio;
  usdFromBtcMidPrice : PaymentAmount -> outcome error PaymentAmount;
  getAccountLimits : Z -> AccountLimits;
  account_displayCurrency : string -> string
}.

Section Sends.
Context {X : External} {L : MediciEntry} {LX : LedgerExternal} {N : LightningExternal} {C : CurrencyData} {P : PriceExternal}.

(** ** The repository of payment flows *)

(** The documents of a wallet, a hash and an amount *)
Definition flow_at (ix : FlowIndex) (r : FlowRecord) : bool :=
  match ix_paymentHash ix with
  | Some h => bool_decide (fr_paymentHash r = Some h)
  | None => bool_decide (fr_intraLedgerHash r = ix_intraLedgerHash ix)
  end && String.eqb (fr_senderWalletId r) (ix_walletId ix) && fl_eqb (fr_inputAmount r) (ix_inputAmount ix).

Definition first_flow (ix : FlowIndex) (l : list FlowRecord) : option (nat * FlowRecord) :=
  list_find (fun r => flow_at ix r = true) l.

Definition on_flows {A} (op : list FlowRecord -> outcome error A * list FlowRecord) : LApp A :=
  lmongo (fun w => let '(o, l) := op (l_flows w) in (o, set_flows l w)).

Definition flows_persistNew (f : PaymentFlow) : LApp PaymentFlow :=
  lguarded (
    let! raw := lift (rawFromPaymentFlow f) in
    on_flows (fun l => (Ok tt, l ++ [raw])) ;;
    lift (paymentFlowFromRaw raw)).

(** A flow that expired is deleted without waiting, and not found. The message
    of the error for a query without a hash would hold a bigint, which
    [JSON.stringify] refuses. *)
Definition findLightningPaymentFlow (expiryTimeInSeconds : Z) (walletId : string)
    (paymentHash intraLedgerHash : option string) (inputAmount : Z) : LApp PaymentFlow :=
  let! hash := lift (match one_hash paymentHash intraLedgerHash missing_hash with
    | Ok hash => Ok hash
    | _ => Throw (new_error JsTypeError "Do not know how to serialize a BigInt")
    end) in
  let ix := mkIndex hash.1 hash.2 walletId (Number_of inputAmount) in
  lguarded (
    let! found := on_flows (fun l => (Ok (first_flow ix l), l)) in
    match found with
    | None => fail (new_error0 CouldNotFindLightningPaymentFlowError)
    | Some (_, r) =>
        let! f := lift (paymentFlowFromRaw r) in
        let! now := lbase new_Date in
        if isExpired f expiryTimeInSeconds now then
          attempt (catch (on_flows (fun l => (Ok tt, match first_flow ix l with Some (i, _) => delete i l | None => l end)))
            (fun _ => ret tt)) ;;
          fail (new_error0 CouldNotFindLightningPaymentFlowError)
        else ret f
    end).

Definition set_first_flow (ix : FlowIndex) (g : FlowRecord -> FlowRecord) : LApp (option FlowRecord) :=
  on_flows (fun l => match first_flow ix l with
    | Some (i, r) => (Ok (Some (g r)), <[i := g r]> l)
    | None => (Ok None, l)
    end).

(** The query has the payment hash alone: the flow of a payment between
    wallets has none. *)
Definition updateLightningPaymentFlow (f : PaymentFlow) : LApp unit :=
  lguarded (
    let! raw := lift (rawFromPaymentFlow f) in
    let! found := set_first_flow (mkIndex (pf_paymentHash f) None (d_wallet (fc_sender (pf_common f)))
      (Number_of (fc_inputAmount (pf_common f)))) (fun _ => raw) in
    match found with
    | Some _ => ret tt
    | None => fail (new_error0 CouldNotUpdateLightningPaymentFlowError)
    end).

Definition not_pending (r : FlowRecord) : FlowRecord :=
  mkFlowRecord (fr_paymentHash r) (fr_intraLedgerHash r) (fr_senderWalletId r) (fr_senderWalletCurrency r)
    (fr_senderAccountId r) (fr_settlementMethod r) (fr_paymentInitiationMethod r) (fr_descriptionFromInvoice r)
    (fr_skipProbeForDestination r) (fr_createdAt r) false (fr_btcPaymentAmount r) (fr_usdPaymentAmount r)
    (fr_inputAmount r) (fr_btcProtocolAndBankFee r) (fr_usdProtocolAndBankFee r) (fr_recipient r)
    (fr_outgoingNodePubkey r) (fr_cachedRoute r).

Definition markLightningPaymentFlowNotPending (paymentHash walletId : string) (inputAmount : Z) : LApp PaymentFlow :=
  let! ix := lift (rawIndexFromPaymentFlowIndex (Some paymentHash) None walletId inputAmount) in
  lguarded (
    let! found := set_first_flow ix not_pending in
    match found with
    | Some r => lift (paymentFlowFromRaw r)
    | None => fail (new_error0 CouldNotUpdateLightningPaymentFlowError)
    end).

Definition deleteExpiredLightningPaymentFlows (expiryTimeInSeconds : Z) : LApp nat :=
  let! now := lbase new_Date in
  let expired r := (fr_createdAt r <=? now - expiryTimeInSeconds * 1000) && negb (fr_paymentSentAndPending r) in
  catch (
    let! n := on_flows (fun l => (Ok (length (filter (fun r => expired r) l)), filter (fun r => negb (expired r)) l)) in
    if (n =? 0)%nat then fail (new_error0 NoExpiredLightningPaymentFlowsError) else ret n)
    (fun e => fail (new_error UnknownRepositoryError (err_message e))).

(** ** [helpers.ts]: limits *)

Definition MIN_SATS_FOR_PRICE_RATIO_PRECISION : Z := 5000.
Definition MS_PER_DAY : Z := 86400000.

(** Every wallet is asked; the first error counts. *)
Definition volumesForAccountId (accountId : string) (g : TxnGroup) : PApp (list TxVolume) :=
  let! now := pbase new_Date in
  let! wallets := pbase (listByAccountId accountId) in
  let! results := fold_m (fun acc wl =>
    let! r := attempt (ledger (volumeAmountFn g (mkDescriptor (wl_id wl) (wl_currency wl) (wl_accountId wl))
      (now - MS_PER_DAY))) in ret (acc ++ [r])) [] wallets in
  match list_find (fun r => is_inl r = true) results with
  | Some (_, inl e) => fail e
  | _ => ret (omap (fun r => match r with inr v => Some v | inl _ => None end) results)
  end.

Definition volumesAndLimitsForAccountId (accountId : string) (g : TxnGroup) : PApp (AccountLimits * list TxVolume) :=
  let! acc := pbase (accounts_findById accountId) in
  let! walletVolumes := volumesForAccountId accountId g in
  ret (getAccountLimits (a_level acc), walletVolumes).

Definition checkIntraledgerLimits (a : PaymentAmount) (accountId : string) (priceRatio : PriceRatio) : PApp unit :=
  let! v := volumesAndLimitsForAccountId accountId IntraledgerGroup in
  lift (checkIntraledger v.1 priceRatio a v.2).
Definition checkTradeIntraAccountLimits (a : PaymentAmount) (accountId : string) (priceRatio : PriceRatio) : PApp unit :=
  let! v := volumesAndLimitsForAccountId accountId TradeIntraAccountGroup in
  lift (checkTradeIntraAccount v.1 priceRatio a v.2).
Definition checkWithdrawalLimits (a : PaymentAmount) (accountId : string) (priceRatio : PriceRatio) : PApp unit :=
  let! v := volumesAndLimitsForAccountId accountId ExternalPayment in
  lift (checkWithdrawal v.1 priceRatio a v.2).

(** A small payment is priced at the mid price of a larger one. *)
Definition getPriceRatioForLimits (amounts : PaymentAmount * PaymentAmount) : outcome error PriceRatio :=
  if amount amounts.1 <? MIN_SATS_FOR_PRICE_RATIO_PRECISION then
    let btc := sats MIN_SATS_FOR_PRICE_RATIO_PRECISION in
    bindo (usdFromBtcMidPrice btc) (fun usd => WalletPriceRatio usd btc)
  else WalletPriceRatio amounts.2 amounts.1.

(** ** [reimburse-fee.ts] *)

Definition reimbursement_amounts (btc usd : PaymentAmount) : AmountsAndFees := mkAmounts btc usd ZERO_SATS ZERO_CENTS.

Definition reimburseFee (f : PaymentFlow) (senderDisplayAmount : js_float) (senderDisplayCurrency journalId : string)
    (actualFee : js_float) (revealedPreImage : option string) : PApp unit :=
  let a := fc_amounts (pf_common f) in
  let! actualFeeAmount := lift (paymentAmountFromNumber actualFee Btc) in
  let! priceRatio := lift (WalletPriceRatio (usdPaymentAmount a) (btcPaymentAmount a)) in
  match getReimbursement (btcProtocolAndBankFee a) priceRatio actualFeeAmount with
  | Throw e => throw e
  | Err _ => ret tt
  | Ok (btc, usd) =>
      if amount btc =? 0 then ret tt
      else
        let! displayAmount := lift (displayAmountFromNumber senderDisplayAmount senderDisplayCurrency) in
        let! displayPriceRatio := lift (DisplayPriceRatio_new displayAmount (btcPaymentAmount a)) in
        let! d := lift (DisplayAmountsConverter displayPriceRatio (reimbursement_amounts btc usd)) in
        let '(reimburseAmount, reimburseFee) := d.1.1 in
        let! paymentHash := lift (paymentHashForFlow f) in
        let m := LnFeeReimbursementReceiveLedgerMetadata (reimbursement_amounts btc usd) paymentHash journalId
          (mkDisplayTxn (toDisplayBaseAmount reimburseAmount) (toDisplayBaseAmount reimburseFee) senderDisplayCurrency) in
        ledger (recordReceiveOffChain (mkRecordReceive "fee reimbursement" (senderWalletDescriptor (pf_common f)) (btc, usd)
          None (lm_metadata m) (Some paymentHash) revealedPreImage (lm_credit m) (default ∅ (lm_internal m)))) ;;
        ret tt
  end.

(** ** [reimburse-failed-usd.ts] *)

Definition reimburseFailedUsdPayment (walletId : string) (f : PaymentFlow) (pendingPayment : LedgerTransaction) : PApp unit :=
  let! displayCurrency := match lt_displayCurrency pendingPayment with
    | Some c => ret c
    | None =>
        let! wl := pbase (wallets_findById walletId) in
        let! acc := pbase (accounts_findById (wl_accountId wl)) in
        ret (account_displayCurrency (a_id acc))
    end in
  let! paymentHash := lift (paymentHashForFlow f) in
  let or_zero x := match x with Some y => if fl_truthy y then y else js_zero | None => js_zero end in
  let m := LnFailedPaymentReceiveLedgerMetadata (fc_amounts (pf_common f)) paymentHash (lt_journalId pendingPayment)
    (mkDisplayTxn (or_zero (lt_displayAmount pendingPayment)) (or_zero (lt_displayFee pendingPayment)) displayCurrency) in
  let! recipientWallet := pbase (wallets_findById (d_wallet (senderWalletDescriptor (pf_common f)))) in
  let! btcWallet := if decide (wl_currency recipientWallet = Btc) then ret recipientWallet
    else
      let! wallets := pbase (listByAccountId (wl_accountId recipientWallet)) in
      match list_find (fun wl => wl_currency wl = Btc) wallets with
      | Some (_, wl) => ret wl
      | None => fail (new_error CouldNotFindBtcWalletForAccountError
          (json_stringify (object [("accountId", Some (JStr (wl_accountId recipientWallet)))])))
      end in
  ledger (recordReceiveOffChain (mkRecordReceive "Usd payment canceled"
    (mkDescriptor (wl_id btcWallet) (wl_currency btcWallet) (wl_accountId btcWallet))
    (totalAmountsForPayment (pf_common f)) None (lm_metadata m) (Some paymentHash) None (lm_credit m)
    (default ∅ (lm_internal m)))) ;;
  ret tt.

(** ** [send-lightning.ts]: [executePaymentViaLn] *)

Definition set_sent_pending (f : PaymentFlow) : PaymentFlow :=
  let s := pf_common f in
  mkFlow (pf_paymentHash f) (pf_intraLedgerHash f) (pf_descriptionFromInvoice f) (pf_skipProbeForDestination f)
    (mkCommon (fc_sender s) (fc_recipient s) (fc_amounts s) (fc_inputAmount s) (fc_settlementMethod s)
       (fc_paymentInitiationMethod s) (fc_createdAt s) true (fc_outgoingNodePubkey s) (fc_cachedRoute s)).

(** [a || b] on texts *)
Definition text_or (a : option string) (b : string) : string := default b (truthy_text a).

(** The metadata of the send *)
Definition send_metadata (f : PaymentFlow) (paymentHash pubkey : string) (displayAmount displayFee : DisplayAmount)
    (senderDisplayCurrency : string) (feeKnownInAdvance : bool) (memo : option string) : ledger_metadata :=
  LnSendLedgerMetadata paymentHash pubkey (fc_amounts (pf_common f))
    (mkDisplayTxn (toDisplayBaseAmount displayAmount) (toDisplayBaseAmount displayFee) senderDisplayCurrency)
    feeKnownInAdvance (Some (text_or memo (pf_descriptionFromInvoice f))).

(** The payment itself: by the probed route, or with a fee that is checked
    once more. *)
Definition pay_invoice (lnd : LndConnect) (decodedInvoice : Invoice) (f : PaymentFlow) (walletPriceRatio : PriceRatio)
    (rawRoute : option RawRoute) (outgoingNodePubkey : option string) : PApp PayInvoiceResult :=
  let a := fc_amounts (pf_common f) in
  match rawRoute with
  | Some route => payInvoiceViaRoutes (iv_paymentHash decodedInvoice) route (default "undefined" outgoingNodePubkey)
  | None =>
      lift (verifyMaxFee (btcProtocolAndBankFee a) (btcPaymentAmount a) (usdPaymentAmount a) walletPriceRatio
        (d_currency (senderWalletDescriptor (pf_common f)))
        (match iv_paymentAmount decodedInvoice with Some p => amount p =? 0 | None => true end)) ;;
      payInvoiceViaPaymentDetails lnd decodedInvoice (btcPaymentAmount a) (Some (btcProtocolAndBankFee a))
  end.

(** What follows the answer of the node *)
Definition after_payment (f : PaymentFlow) (paymentHash journalId : string) (displayAmount : DisplayAmount)
    (senderDisplayCurrency : string) (routed : bool) (payResult : error + PayInvoiceResult) : PApp PaymentSendStatus :=
  (match payResult with
   | inr p => attempt (ledger (updateByHash paymentHash (revealedPreImage p))) ;; ret tt
   | inl _ => ret tt
   end) ;;
  match payResult with
  | inl e =>
      if decide (err_class e = LnPaymentPendingError) then
        attempt (ledger (updateLightningPaymentFlow (set_sent_pending f))) ;;
        ret PaymentPending
      else
        ledger (settlePendingLnSend paymentHash) ;;
        ledger (recordLnSendRevert journalId paymentHash) ;;
        if decide (err_class e = LnAlreadyPaidError) then ret AlreadyPaid else fail e
  | inr p =>
      ledger (settlePendingLnSend paymentHash) ;;
      (if routed then ret tt
       else reimburseFee f (toDisplayBaseAmount displayAmount) senderDisplayCurrency journalId (roundedUpFee p)
              (Some (revealedPreImage p))) ;;
      ret PaymentSuccess
  end.

Definition executePaymentViaLn (decodedInvoice : Invoice) (f : PaymentFlow) (senderWallet : WalletDescriptor)
    (senderDisplayCurrency : string) (memo : option string) : PApp PaymentSendStatus :=
  let s := pf_common f in
  let a := fc_amounts s in
  let! priceRatioForLimits := lift (getPriceRatioForLimits (paymentAmounts s)) in
  checkWithdrawalLimits (usdPaymentAmount a) (d_account senderWallet) priceRatioForLimits ;;
  let paymentHash := iv_paymentHash decodedInvoice in
  let '(rawRoute, outgoingNodePubkey) := routeDetails s in
  lockWalletId (fun signal =>
    let! ledgerTransactions := ledger (getTransactionsByHash paymentHash) in
    if existsb (fun t => default false (lt_pendingConfirmation t)) ledgerTransactions
    then fail (new_error0 LnPaymentRequestInTransitError)
    else
      let! balance := ledger (getWalletBalanceAmount senderWallet) in
      lift (checkBalanceForSend s balance) ;;
      let! lnd := lift LndService in
      let! displayPriceRatio := lift (displayRatio senderDisplayCurrency) in
      let! d := lift (DisplayAmountsConverter displayPriceRatio a) in
      let '(displayAmount, displayFee) := d.1.1 in
      match signal with
      | Some msg => fail (new_error ResourceExpiredLockServiceError msg)
      | None =>
          let m := send_metadata f paymentHash (text_or outgoingNodePubkey (lnd_pubkey lnd)) displayAmount displayFee
            senderDisplayCurrency (match rawRoute with Some _ => true | None => false end) memo in
          let! journal := ledger (recordSendOffChain (ln_send_args
            (text_or (Some (pf_descriptionFromInvoice f)) (text_or memo "")) (senderWalletDescriptor s) a m)) in
          let! walletPriceRatio := lift (WalletPriceRatio (usdPaymentAmount a) (btcPaymentAmount a)) in
          let! payResult := attempt (pay_invoice lnd decodedInvoice f walletPriceRatio rawRoute outgoingNodePubkey) in
          after_payment f paymentHash (j_id journal) displayAmount senderDisplayCurrency
            (match rawRoute with Some _ => true | None => false end) payResult
      end).

(** ** [update-pending-payments.ts] *)

(** [tx.debit > 0] and the other conditions on a payment *)
Definition pending_payment_tx (nonEndUserWalletIds : list string) (t : LedgerTransaction) : bool :=
  bool_decide (lt_pendingConfirmation t = Some true) && bool_decide (lt_type t = Some TxPayment) &&
  fl_ltb js_zero (lt_debit t) &&
  match lt_walletId t with Some id => bool_decide (id ∉ nonEndUserWalletIds) | None => false end.

Definition number_is (x : option js_float) (y : js_float) : bool := match x with Some z => fl_eqb z y | None => false end.

Definition reconstructPendingPaymentFlow (paymentHash : string) (inputAmount : js_float) : PApp PaymentFlow :=
  let! ledgerTxns := ledger (getTransactionsByHash paymentHash) in
  let! nonEndUserWalletIds := ledger getNonEndUserWalletIds in
  match filter (fun t => pending_payment_tx nonEndUserWalletIds t) ledgerTxns with
  | [] => fail (new_error0 CouldNotFindTransactionError)
  | first :: rest =>
      match truthy_text (lt_walletId first) with
      | None => fail (new_error0 MissingPropsInTransactionForPaymentFlowError)
      | Some senderWalletId =>
          let! senderWallet := pbase (wallets_findById senderWalletId) in
          let! senderAccount := pbase (accounts_findById (wl_accountId senderWallet)) in
          match filter (fun t => number_is (if decide (wl_currency senderWallet = Btc) then lt_satsAmount t
                                            else lt_centsAmount t) inputAmount) (first :: rest) with
          | [] => fail (new_error0 CouldNotFindTransactionError)
          | [payment] => lift (PaymentFlowFromLedgerTransaction payment (a_id senderAccount))
          | _ => fail (new_error0 MultiplePendingPaymentsForHashError)
          end
      end
  end.

(** The fee and the amount of a payment the node still knows *)
Definition lookup_fee (l : payment_lookup) : js_float :=
  match l with
  | Lookup _ _ _ (Some (fee, _)) => if fl_truthy fee then fee else js_zero
  | _ => js_zero
  end.
Definition lookup_sats (l : payment_lookup) : js_float :=
  match l with Lookup _ _ roundedUpAmount _ => fl_sub roundedUpAmount (lookup_fee l) | FailedPartialLookup => NaN end.
Definition lookup_preimage (l : payment_lookup) : option string :=
  match l with Lookup _ _ _ (Some (_, secret)) => Some secret | _ => None end.

(** A payment of another amount than the flow's is not this payment. *)
Definition payment_failed (l : payment_lookup) (f : PaymentFlow) : bool :=
  bool_decide (lookup_status l = StatusFailed) ||
  negb (fl_eqb (lookup_sats l) (toSats (amount (btcPaymentAmount (fc_amounts (pf_common f)))))).

(** The flow, from the repository or rebuilt *)
Definition pending_flow (walletId paymentHash : string) (inputAmount : Z) : PApp PaymentFlow :=
  let! found := attempt (ledger (markLightningPaymentFlowNotPending paymentHash walletId inputAmount)) in
  match found with
  | inr f => ret f
  | inl _ => reconstructPendingPaymentFlow paymentHash (Number_of inputAmount)
  end.

(** The outcome of a payment that is no longer pending, under the lock *)
Definition settle_pending (walletId paymentHash : string) (pendingPayment : LedgerTransaction) (l : payment_lookup) :
    PApp unit :=
  let! recorded := ledger (isLnTxRecorded paymentHash) in
  if (recorded : bool) then ret tt
  else
    let! inputAmount := lift (inputAmountFromLedgerTransaction pendingPayment) in
    let! f := pending_flow walletId paymentHash inputAmount in
    ledger (settlePendingLnSend paymentHash) ;;
    if payment_failed l f then
      if decide (d_currency (fc_sender (pf_common f)) = Btc)
      then ledger (recordLnSendRevert (lt_journalId pendingPayment) paymentHash)
      else reimburseFailedUsdPayment walletId f pendingPayment
    else
      (match truthy_text (lookup_preimage l) with
       | Some p => attempt (ledger (updateByHash paymentHash p)) ;; ret tt
       | None => ret tt
       end) ;;
      if lt_feeKnownInAdvance pendingPayment then ret tt
      else match lt_displayAmount pendingPayment, lt_displayFee pendingPayment, lt_displayCurrency pendingPayment with
           | Some displayAmount, Some _, Some displayCurrency =>
               reimburseFee f displayAmount displayCurrency (lt_journalId pendingPayment) (lookup_fee l) (lookup_preimage l)
           | _, _, _ => fail (new_error0 MissingExpectedDisplayAmountsForTransactionError)
           end.

Definition updatePendingPayment (walletId : string) (pendingPayment : LedgerTransaction) : PApp unit :=
  lift (bindo LndService (fun _ => Ok tt)) ;;
  match lt_paymentHash pendingPayment, lt_pubkey pendingPayment with
  | None, _ => fail (new_error InconsistentDataError "paymentHash missing from payment transaction")
  | _, None => fail (new_error InconsistentDataError "pubkey missing from payment transaction")
  | Some paymentHash, Some pubkey =>
      let! l := lookupPayment (Some pubkey) paymentHash in
      if decide (lookup_status l = StatusPendingPayment) then ret tt
      else lockWalletId (fun _ => settle_pending walletId paymentHash pendingPayment l)
  end.

(** The errors of the single payments are dropped. *)
Definition updatePendingPaymentsByWalletId (walletId : string) : PApp unit :=
  let! count := ledger (getPendingPaymentsCount walletId) in
  if (count =? 0)%nat then ret tt
  else
    let! pendingPayments := ledger (listPendingPayments walletId) in
    fold_m (fun _ t => attempt (updatePendingPayment walletId t) ;; ret tt) tt pendingPayments.

Definition updatePendingPaymentByHash (paymentHash : string) : PApp unit :=
  let! walletId := ledger (getWalletIdByTransactionHash paymentHash) in
  updatePendingPaymentsByWalletId walletId.
End Sends.
