(* ===== verification/SendSettlement.v ===== *)
(** * How a Lightning send ends

    What [executePaymentViaLn] leaves in the ledger: a send the node refuses
    is reversed account by account, and a ledger that only the facade wrote
    refuses every send. *)

From stdpp Require Import base gmap list strings.
From Stdlib Require Import ZArith Lia Ascii.
From S2P Require Import Prelude JsStrings JsNumbers JsDecimals Errors MoneyAmounts World Repos Json.
From S2P Require Import PaymentAmounts PaymentFlows DisplayAmounts LightningFlow LedgerEntries LedgerFacade.
From S2P Require Import LedgerBalance LedgerService Lightning PendingPayments Processes TopupWorld LightningSends.

Close Scope Q_scope.
Open Scope Z_scope.

Section Settlement.
Context {X : External} {L : MediciEntry} {LX : LedgerExternal} {N : LightningExternal} {C : CurrencyData} {P : PriceExternal}.

(** ** Calls that leave the rows alone *)

Definition rows_of (w : pworld) : list ledger_row := l_rows (p_ledger w).
Definition quiet_rows (w w' : pworld) : Prop := rows_of w' = rows_of w.
#[local] Instance quiet_rows_preorder : PreOrder quiet_rows.
Proof. split; [done|]. intros w1 w2 w3 H1 H2. unfold quiet_rows in *. congruence. Qed.
#[local] Existing Instance same_rows_preorder.

Lemma quiet_ledger {A} (c : LApp A) : guarantees same_rows c -> guarantees quiet_rows (ledger c).
Proof. intros Hc w. specialize (Hc (p_ledger w)). unfold ledger. by destruct (c (p_ledger w)). Qed.

Lemma quiet_pbase {A} (c : App A) : guarantees quiet_rows (pbase c).
Proof. apply quiet_ledger, same_rows_lbase. Qed.

Lemma quiet_node {A E} (c : ln_state -> A * ln_state) : guarantees quiet_rows (node (E:=E) c).
Proof. intros w. unfold node. by destruct (c (p_ln w)). Qed.

Lemma same_rows_read {A} (op : lworld -> outcome error A * lworld) : (forall w, (op w).2 = w) ->
  guarantees same_rows (lmongo op).
Proof. intros Hop. apply same_rows_lmongo. intros w. unfold same_rows. by rewrite Hop. Qed.

(** Split a call into the calls it is made of. *)
Ltac calls :=
  repeat match goal with
  | |- guarantees _ (bind _ _) => apply guarantees_bind; [tc_solve| |intros]
  | |- guarantees _ (attempt _) => apply guarantees_attempt; try tc_solve
  | |- guarantees _ (catch _ _) => apply guarantees_catch; [tc_solve| |intros]
  | |- guarantees _ (fold_m _ _ _) => apply guarantees_fold_m; [tc_solve|intros]
  | |- guarantees _ (ret _) => apply guarantees_ret; tc_solve
  | |- guarantees _ (fail _) => apply guarantees_fail; tc_solve
  | |- guarantees _ (throw _) => apply guarantees_throw; tc_solve
  | |- guarantees _ (lift _) => apply guarantees_lift; tc_solve
  | |- guarantees _ (gets _) => apply guarantees_gets; tc_solve
  | |- guarantees _ (ledger_try _) => unfold ledger_try
  | |- guarantees _ (lguarded _) => unfold lguarded
  | |- guarantees _ (ledger _) => apply quiet_ledger
  | |- guarantees _ (pbase _) => apply quiet_pbase
  | |- guarantees _ (lbase _) => apply same_rows_lbase
  | |- guarantees _ (node _) => apply quiet_node
  | |- guarantees _ (cached_id _ _ _) => by apply same_rows_cached
  | |- guarantees _ (lmongo _) => apply same_rows_read; [intros ?; done]
  | |- guarantees _ (match _ with _ => _ end) => case_match
  end.

Lemma same_rows_translated q : guarantees same_rows (translated q).
Proof. unfold translated, ledger_call. calls. Qed.

Lemma same_rows_balance d : guarantees same_rows (getWalletBalanceAmount d).
Proof. unfold getWalletBalanceAmount, balance_call, getDealerBtcWalletId, getDealerUsdWalletId. calls. Qed.

Lemma same_rows_volume g d t : guarantees same_rows (volumeAmountFn g d t).
Proof. unfold volumeAmountFn, txVolumeSince. calls. Qed.

Lemma quiet_withdrawal a accountId r : guarantees quiet_rows (checkWithdrawalLimits a accountId r).
Proof.
  unfold checkWithdrawalLimits, volumesAndLimitsForAccountId, volumesForAccountId. calls. apply same_rows_volume.
Qed.

Lemma quiet_pay lnd inv f r route outgoing : guarantees quiet_rows (pay_invoice lnd inv f r route outgoing).
Proof. unfold pay_invoice, payInvoiceViaRoutes, payInvoiceViaPaymentDetails. calls. Qed.

(** ** Refusals *)

Context `{Laws : !MediciEntryLaws} `{BL : !BookLaws}.

(** On a book of the facade the call fails and writes no row. *)
Definition refuses {A} (c : PApp A) : Prop :=
  forall w, facade_book (rows_of w) -> quiet_rows w (c w).2 /\ is_ok (c w).1 = false.

Lemma refuses_bind {A B} (Q : A -> Prop) (c : PApp A) (k : A -> PApp B) : guarantees quiet_rows c ->
  (forall w a w', facade_book (rows_of w) -> c w = (Ok a, w') -> Q a) -> (forall a, Q a -> refuses (k a)) ->
  refuses (bind c k).
Proof.
  intros Hc HQ Hk w Hw. specialize (Hc w). unfold bind. destruct (c w) as [[a|e|e] w'] eqn:E; [|done..].
  cbn in Hc. destruct (Hk a (HQ w a w' Hw E) w') as [Hq Ho]; [unfold quiet_rows in Hc; by rewrite Hc|].
  split; [|done]. by transitivity w'.
Qed.

Lemma refuses_quiet_bind {A B} (c : PApp A) (k : A -> PApp B) : guarantees quiet_rows c ->
  (forall a, refuses (k a)) -> refuses (bind c k).
Proof. intros Hc Hk. by apply (refuses_bind (fun _ => True)). Qed.

Lemma refuses_fail {A} e : refuses (A:=A) (fail e).
Proof. by intros w Hw. Qed.

Lemma refuses_catch {A} (c : PApp A) h : refuses c -> (forall e, refuses (h e)) -> refuses (catch c h).
Proof.
  intros Hc Hh w Hw. destruct (Hc w Hw) as [Hq Ho]. unfold catch. destruct (c w) as [[a|e|e] w'] eqn:E; [done..|].
  cbn in Hq. destruct (Hh e w') as [Hq' Ho']; [unfold quiet_rows in Hq; by rewrite Hq|]. split; [by transitivity w'|done].
Qed.

Lemma refuses_lock {A} (body : option string -> PApp A) : (forall s, refuses (body s)) -> refuses (lockWalletId body).
Proof.
  intros Hb. unfold lockWalletId. apply refuses_quiet_bind; [apply guarantees_gets; tc_solve|]. intros n.
  apply refuses_quiet_bind; [by intros w|]. intros _.
  assert (forall s, refuses (catch (body s) (fun e => fail (new_error UnknownLockServiceError (err_message e))))) as Hr.
  { intros s. apply refuses_catch; [done|]. intros e. apply refuses_fail. }
  case_match; [apply Hr|apply Hr| |apply refuses_fail].
  intros w Hw. destruct (Hr None w Hw) as [Hq Ho]. unfold bind, attempt. by destruct (catch _ _ w) as [[]?].
Qed.

(** A wallet whose money the facade recorded has, for the service, a balance
    of zero: every send over Lightning of such a wallet is refused, and
    nothing is recorded. *)
Theorem facade_sends_refused (decodedInvoice : Invoice) (f : PaymentFlow) (senderDisplayCurrency : string)
    (memo : option string) (w : pworld) :
  0 < amount (totalAmountsForPayment (pf_common f)).1 -> 0 < amount (totalAmountsForPayment (pf_common f)).2 ->
  facade_book (rows_of w) ->
  let result := executePaymentViaLn decodedInvoice f (fc_sender (pf_common f)) senderDisplayCurrency memo w in
  rows_of result.2 = rows_of w /\ is_ok result.1 = false.
Proof.
  intros Hb Hu Hw.
  cut (refuses (executePaymentViaLn decodedInvoice f (fc_sender (pf_common f)) senderDisplayCurrency memo)).
  { intros Hr. by destruct (Hr w Hw). }
  unfold executePaymentViaLn. cbn zeta. destruct (routeDetails (pf_common f)) as [rawRoute outgoing].
  apply refuses_quiet_bind; [apply guarantees_lift; tc_solve|]. intros r.
  apply refuses_quiet_bind; [apply quiet_withdrawal|]. intros _. apply refuses_lock. intros signal.
  apply refuses_quiet_bind; [apply quiet_ledger, same_rows_translated|]. intros txs. case_match; [apply refuses_fail|].
  apply (refuses_bind (fun b => b = Pay 0 (d_currency (fc_sender (pf_common f))))).
  { apply quiet_ledger, same_rows_balance. }
  { intros w1 b w2 Hw1 Hbal. unfold ledger in Hbal. destruct (getWalletBalanceAmount _ _) as [o l] eqn:E.
    injection Hbal as -> <-. by eapply balance_amount_zero in E. }
  intros b ->. assert (exists e, checkBalanceForSend (pf_common f) (Pay 0 (d_currency (fc_sender (pf_common f)))) = Err e) as [e He].
  { unfold checkBalanceForSend. cbn [pay_currency amount]. rewrite bool_decide_true by done. cbn [negb].
    unfold totalAmountsForPayment in *. cbn [fst snd] in *.
    case_decide; cbn [calc_add amount] in *; (rewrite (proj2 (Z.ltb_lt _ _)) by lia; eauto). }
  rewrite He. intros w1 Hw1. done.
Qed.

(** ** Reversals *)

(** What an account holds of a currency *)
Definition account_net (account : string) (c : WalletCurrency) (rows : list ledger_row) : Z :=
  net c (map row_tx (filter (fun r => r_accounts r = account) rows)).

Lemma account_net_app a c l l' : account_net a c (l ++ l') = account_net a c l + account_net a c l'.
Proof. unfold account_net. by rewrite filter_app, map_app, net_app. Qed.

Lemma account_net_reversed j olds news a c : Forall2 (reverses j) olds news ->
  account_net a c news = - account_net a c olds.
Proof.
  induction 1 as [|o r olds news (_ & Hacc & Hd & Hc & Hm) _ IH]; [done|]. unfold account_net in *.
  rewrite !filter_cons, Hacc. case_decide; [|done]. simpl. rewrite IH.
  unfold tx_in, row_tx. cbn [tx_meta tx_debit tx_credit]. rewrite Hm, Hd, Hc. repeat case_match; lia.
Qed.

Lemma set_fields_currency fields r : Forall (fun kv => kv.1 <> "currency") fields ->
  r_meta (set_fields fields r) !! "currency" = r_meta r !! "currency".
Proof.
  intros Hf. unfold set_fields. simpl. induction Hf as [|kv fields Hk _ IH]; [done|]. simpl. rewrite <- IH.
  by apply lookup_insert_ne.
Qed.

Lemma account_net_update (sel : ledger_row -> bool) (fields : list (string * meta_value)) rows a c :
  Forall (fun kv => kv.1 <> "currency") fields ->
  account_net a c (map (fun r => if sel r then set_fields fields r else r) rows) = account_net a c rows.
Proof.
  intros Hf. unfold account_net. induction rows as [|r rows IH]; [done|]. cbn [map].
  assert (r_accounts (if sel r then set_fields fields r else r) = r_accounts r) as Ha by by case_match.
  rewrite !filter_cons, Ha. case_decide; [|done]. cbn [map net]. rewrite IH. f_equal. destruct (sel r); [|done].
  unfold tx_in, row_tx. cbn [tx_meta]. by rewrite set_fields_currency.
Qed.

Lemma of_journal_update (sel : ledger_row -> bool) (fields : list (string * meta_value)) rows j :
  of_journal j (map (fun r => if sel r then set_fields fields r else r) rows) =
  map (fun r => if sel r then set_fields fields r else r) (of_journal j rows).
Proof.
  unfold of_journal. induction rows as [|r rows IH]; [done|]. cbn [map].
  assert (r_journal (if sel r then set_fields fields r else r) = r_journal r) as Hj by by case_match.
  rewrite !filter_cons, Hj. case_decide; [|done]. cbn [map]. by rewrite IH.
Qed.

(** Settling a journal that was just recorded and voiding it takes back what
    it did to every account. *)
Lemma voided_restores rows news j (sel : ledger_row -> bool) (fields : list (string * meta_value)) reason saved rows' :
  Forall (fun kv => kv.1 <> "currency") fields -> fresh_journal j rows -> Forall (fun r => r_journal r = j) news ->
  book_void j reason (map (fun r => if sel r then set_fields fields r else r) (rows ++ news)) = (inr saved, rows') ->
  forall a c, account_net a c rows' = account_net a c rows.
Proof.
  intros Hf Hj Hn Hv a c. destruct (void_reverses _ _ _ _ _ Hv) as (_ & undo & -> & Hu).
  rewrite account_net_app, account_net_update, account_net_app by done.
  rewrite (account_net_reversed _ _ _ a c Hu), of_journal_update, account_net_update by done.
  assert (of_journal j (rows ++ news) = news) as ->; [|lia].
  unfold of_journal. rewrite filter_app. replace (filter _ rows) with (@nil ledger_row).
  - clear -Hn. induction Hn as [|r news Hr _ IH]; [done|]. rewrite app_nil_l in *. by rewrite filter_cons_True, IH.
  - clear -Hj. induction Hj as [|r rows Hr _ IH]; [done|]. by rewrite filter_cons_False.
Qed.

(** ** Errors *)

(** The errors of the Lightning service with which a payment fails *)
Definition lightning_error (c : error_class) : bool :=
  bool_decide (c ∈ [RouteNotFoundError; UnknownNextPeerError; PaymentRejectedByDestinationError;
    InvoiceExpiredOrBadPaymentHashError; PaymentAttemptsTimedOutError; PaymentInTransitionError;
    TemporaryChannelFailureError; TemporaryNodeFailureError; InsufficientBalanceForLnPaymentError;
    OffChainServiceUnavailableError; OffChainServiceBusyError; UnknownLightningServiceError;
    NoValidNodeForPubkeyError; MaxFeeTooLargeForRoutelessPaymentError]).

(** Errors of other kinds *)
Definition other_errors {W A} (m : M W error A) : Prop :=
  forall w e w', m w = (Err e, w') -> lightning_error (err_class e) = false.

Lemma other_ret {W A} (a : A) : other_errors (W:=W) (ret a).
Proof. by intros w e w' H. Qed.
Lemma other_throw {W A} e : other_errors (W:=W) (A:=A) (throw e).
Proof. by intros w e' w' H. Qed.
Lemma other_fail {W A} e : lightning_error (err_class e) = false -> other_errors (W:=W) (A:=A) (fail e).
Proof. by intros He w e' w' [= <- _]. Qed.
Lemma other_bind {W A B} (c : M W error A) (k : A -> M W error B) :
  other_errors c -> (forall a, other_errors (k a)) -> other_errors (bind c k).
Proof. intros Hc Hk w e w' H. unfold bind in H. destruct (c w) as [[a|e'|e'] w1] eqn:E; simplify_eq; naive_solver. Qed.
Lemma other_attempt {W A} (c : M W error A) : other_errors (attempt c).
Proof. intros w e w' H. unfold attempt in H. by destruct (c w) as [[]?]. Qed.
Lemma other_catch {W A} (c : M W error A) h : other_errors c -> (forall e, other_errors (h e)) -> other_errors (catch c h).
Proof. intros Hc Hh w e w' H. unfold catch in H. destruct (c w) as [[a|e'|e'] w1] eqn:E; simplify_eq; naive_solver. Qed.
Lemma other_lift {W A} (o : outcome error A) : (forall e, o = Err e -> lightning_error (err_class e) = false) ->
  other_errors (W:=W) (lift o).
Proof. intros Ho w e w' [= H _]. auto. Qed.
Lemma other_ledger {A} (c : LApp A) : other_errors c -> other_errors (ledger c).
Proof. intros Hc w e w' H. unfold ledger in H. destruct (c (p_ledger w)) eqn:E. simplify_eq. eauto. Qed.
Lemma other_lmongo {A} (op : lworld -> outcome error A * lworld) : (forall w e w', op w <> (Err e, w')) ->
  other_errors (lmongo op).
Proof. intros Hop w e w' H. unfold lmongo in H. repeat case_match; simplify_eq. by apply Hop in H. Qed.

Ltac others :=
  repeat match goal with
  | |- other_errors (bind _ _) => apply other_bind; [|intros]
  | |- other_errors (attempt _) => apply other_attempt
  | |- other_errors (ret _) => apply other_ret
  | |- other_errors (throw _) => apply other_throw
  | |- other_errors (fail _) => apply other_fail; reflexivity
  | |- other_errors (ledger _) => apply other_ledger
  | |- other_errors (ledger_try _) => apply other_catch; [|intros]
  | |- other_errors (gets _) => by intros ? ? ? ?
  | |- other_errors (modify _) => by intros ? ? ? ?
  | |- other_errors (match _ with _ => _ end) => case_match
  end.

Lemma other_on_book {A} (op : list ledger_row -> (error + A) * list ledger_row) : other_errors (on_book op).
Proof. apply other_lmongo. intros w e w'. destruct (op (l_rows w)) as [[]?]; done. Qed.

Lemma other_updateMany sel fields : other_errors (updateMany sel fields).
Proof. by apply other_lmongo. Qed.

Lemma other_settle h : other_errors (settlePendingLnSend h).
Proof. unfold settlePendingLnSend. others. apply other_updateMany. Qed.

Lemma other_revert j h : other_errors (recordLnSendRevert j h).
Proof. unfold recordLnSendRevert. others. apply other_on_book. Qed.

Lemma other_cached get put resolver : other_errors (cached_id get put resolver).
Proof.
  unfold cached_id. others. apply other_lift. intros e. by destruct resolver.
Qed.

Lemma other_persist e h p : other_errors (persistAndReturnEntry e h p).
Proof. unfold persistAndReturnEntry. others. apply other_on_book. Qed.

Lemma other_static : other_errors staticAccountIds.
Proof. unfold staticAccountIds. others; apply other_cached. Qed.

Lemma other_safeBigInt x e : safeBigInt x = Err e -> lightning_error (err_class e) = false.
Proof. unfold safeBigInt. repeat case_match; intros [= <-]; reflexivity. Qed.

Lemma other_ratio o a e : PriceRatio_new o a = Err e -> lightning_error (err_class e) = false.
Proof. unfold PriceRatio_new. case_match; [intros [= <-]; reflexivity|done]. Qed.

Lemma other_amount x c e : paymentAmountFromNumber x c = Err e -> lightning_error (err_class e) = false.
Proof. unfold paymentAmountFromNumber. destruct (safeBigInt x) eqn:E; intros [= <-]. by eapply other_safeBigInt. Qed.

Lemma other_reimburse f d cur j fee pre : other_errors (reimburseFee f d cur j fee pre).
Proof.
  unfold reimburseFee, recordReceiveOffChain. others; try apply other_static; try apply other_persist; apply other_lift; intros e.
  - apply other_amount.
  - apply other_ratio.
  - unfold displayAmountFromNumber. destruct (safeBigInt d) eqn:E; intros [= <-]. by eapply other_safeBigInt.
  - unfold DisplayPriceRatio_new. destruct (PriceRatio_new _ _) eqn:E; intros [= <-]. by eapply other_ratio.
  - unfold DisplayAmountsConverter, priceAmountFromDisplayPriceRatio, priceAmountFromNumber, BigInt_of.
    repeat case_match; done.
  - unfold paymentHashForFlow. repeat case_match; intros [= <-]; reflexivity.
Qed.

(** ** The end of a send *)

(** The node failed the payment, or knew it was paid. *)
Definition payment_refused (o : outcome error PaymentSendStatus) : Prop :=
  o = Ok AlreadyPaid \/ exists e, o = Err e /\ lightning_error (err_class e) = true.

Lemma refused_bind {A} (c : PApp A) (k : A -> PApp PaymentSendStatus) w o w' : payment_refused o -> other_errors c ->
  bind c k w = (o, w') -> exists a w1, c w = (Ok a, w1) /\ k a w1 = (o, w').
Proof.
  intros Ho Hc H. unfold bind in H. destruct (c w) as [[a|e|e] w1] eqn:E; simplify_eq; [by eauto|..].
  - apply Hc in E. destruct Ho as [|(e' & [= <-] & He)]; [done|congruence].
  - by destruct Ho as [|(? & ? & _)].
Qed.

Lemma ledger_Ok {A} (c : LApp A) w a w' : ledger c w = (Ok a, w') -> c (p_ledger w) = (Ok a, p_ledger w').
Proof. unfold ledger. destruct (c (p_ledger w)) eqn:E. by intros [= -> <-]. Qed.

Lemma same_rows_updateByHash h p : guarantees same_rows (updateByHash h p).
Proof. unfold updateByHash. calls. by apply same_rows_lmongo. Qed.

Lemma settle_rows h w w' : settlePendingLnSend h w = (Ok tt, w') ->
  l_rows w' = map (fun r => if field_is r ("hash", MText h) then set_fields [("pending", MBool false)] r else r) (l_rows w).
Proof. intros H%ledger_try_Ok. step_Ok. case_match; step_Ok. by apply on_rows_Ok in Hc as [= _ ->]. Qed.

Lemma revert_rows j h w w' : recordLnSendRevert j h w = (Ok tt, w') ->
  exists saved, book_void j "Payment canceled" (l_rows w) = (inr saved, l_rows w').
Proof.
  intros H%ledger_try_Ok. step_Ok. apply on_book_Ok in Hc. exists a. rewrite Hc. f_equal.
  pose proof (guarantees_attempt same_rows _ (same_rows_persistAll
    (map (fun id => mkTxMetadata id (Some h) None) (j_transactionIds a))) w0) as Hs. by rewrite Hc0 in Hs.
Qed.

Lemma refused_restores f h j da cur routed pr w o w' rows news : rows_of w = rows ++ news -> fresh_journal j rows ->
  Forall (fun r => r_journal r = j) news -> payment_refused o ->
  after_payment f h j da cur routed pr w = (o, w') -> forall a c, account_net a c (rows_of w') = account_net a c rows.
Proof.
  intros Hw Hj Hn Ho H. apply refused_bind in H as ([] & w1 & Hu & H); [|done|by case_match; others].
  assert (rows_of w1 = rows ++ news) as Hw1.
  { rewrite <- Hw. change w1 with ((Ok tt : outcome error unit, w1).2). rewrite <- Hu.
    refine (_ : quiet_rows w _). revert w Hw Hu. intros w _ _. generalize w. change (guarantees quiet_rows
      (match pr with inr p => attempt (ledger (updateByHash h (revealedPreImage p))) ;; ret tt | inl _ => ret tt end)).
    calls. apply same_rows_updateByHash. }
  clear Hu Hw w. destruct pr as [e|p].
  - case_decide.
    { apply refused_bind in H as (x & w2 & _ & H); [|done|apply other_attempt]. unfold ret in H. simplify_eq.
      by destruct Ho as [|(? & ? & _)]. }
    apply refused_bind in H as ([] & w2 & Hs & H); [|done|apply other_ledger, other_settle].
    apply refused_bind in H as ([] & w3 & Hr & H); [|done|apply other_ledger, other_revert].
    apply ledger_Ok, settle_rows in Hs. apply ledger_Ok, revert_rows in Hr as [saved Hr]. rewrite Hs in Hr.
    unfold rows_of in Hw1. rewrite Hw1 in Hr. assert (w' = w3) as -> by (case_decide; unfold ret, fail in H; by simplify_eq).
    eapply voided_restores; [|exact Hj|exact Hn|exact Hr]. by repeat constructor.
  - apply refused_bind in H as ([] & w2 & Hs & H); [|done|apply other_ledger, other_settle].
    apply refused_bind in H as ([] & w3 & Hr & H); [|done|case_match; [apply other_ret|apply other_reimburse]].
    unfold ret in H. simplify_eq. by destruct Ho as [|(? & ? & _)].
Qed.

Definition restoring (m : PApp PaymentSendStatus) : Prop :=
  forall w o w', m w = (o, w') -> payment_refused o -> forall a c, account_net a c (rows_of w') = account_net a c (rows_of w).

Lemma restoring_quiet_bind {A} (c : PApp A) (k : A -> PApp PaymentSendStatus) : guarantees quiet_rows c ->
  (forall a, restoring (k a)) -> restoring (bind c k).
Proof.
  intros Hc Hk w o w' Hw Ho. specialize (Hc w). unfold bind in Hw. unfold quiet_rows in Hc.
  destruct (c w) as [[x|e|e] w1]; cbn in Hc; simplify_eq; rewrite <- Hc; [by eapply Hk|done..].
Qed.

Lemma restoring_fail e : restoring (fail e).
Proof. by intros w o w' [= <- <-]. Qed.

Lemma not_refused e : lightning_error (err_class e) = false -> ~ payment_refused (Err e).
Proof. intros He [|(e' & [= <-] & He')]; [done|congruence]. Qed.

Lemma restoring_lock (body : option string -> PApp PaymentSendStatus) : (forall s, restoring (body s)) ->
  restoring (lockWalletId body).
Proof.
  intros Hb. unfold lockWalletId. apply restoring_quiet_bind; [apply guarantees_gets; tc_solve|]. intros n.
  apply restoring_quiet_bind; [by intros w|]. intros _.
  assert (forall s, restoring (catch (body s) (fun e => fail (new_error UnknownLockServiceError (err_message e))))) as Hr.
  { intros s w o w' Hw Ho. unfold catch in Hw. destruct (body s w) as [[x|e|e] w1] eqn:E;
      [injection Hw as <- <-; by eapply Hb..|]. injection Hw as <- <-. by apply not_refused in Ho. }
  case_match; [apply Hr|apply Hr| |apply restoring_fail].
  intros w o w' Hw Ho. unfold bind, attempt in Hw. destruct (catch _ _ w) as [[x|e|e] w1]; unfold fail in Hw; simplify_eq;
    try by apply not_refused in Ho. by destruct Ho as [|(? & ? & _)].
Qed.

Lemma recorded_rows args w j w' : recordSendOffChain args w = (Ok j, w') ->
  fresh_journal (j_id j) (l_rows w) /\
  exists news, l_rows w' = l_rows w ++ news /\ Forall (fun r => r_journal r = j_id j) news.
Proof.
  intros Hw. apply bind_Ok in Hw as (ids & w1 & Hids & Hw). apply static_ids in Hids as [Hw1 _]. apply persisted_rows in Hw.
  rewrite Hw1 in Hw. destruct (commit_stores _ _ _ _ Hw) as (Hj & news & -> & Hn). split; [done|]. exists news. split; [done|].
  clear -Hn. induction Hn as [|t r ts news (Hr & _) _ IH]; by constructor.
Qed.

Lemma other_recordSend args : other_errors (recordSendOffChain args).
Proof. unfold recordSendOffChain. others; [apply other_static|apply other_persist]. Qed.

(** C24: a send that the node refuses, or that it knows is paid, takes back what was
    recorded of it: afterwards every account holds of every currency what it
    held before. *)
Theorem failed_send_restores (decodedInvoice : Invoice) (f : PaymentFlow) (senderWallet : WalletDescriptor)
    (senderDisplayCurrency : string) (memo : option string) (w w' : pworld) (o : outcome error PaymentSendStatus) :
  executePaymentViaLn decodedInvoice f senderWallet senderDisplayCurrency memo w = (o, w') -> payment_refused o ->
  forall account c, account_net account c (rows_of w') = account_net account c (rows_of w).
Proof.
  enough (restoring (executePaymentViaLn decodedInvoice f senderWallet senderDisplayCurrency memo)) as Hr by eauto. clear w w' o.
  unfold executePaymentViaLn. cbn zeta. destruct (routeDetails (pf_common f)) as [rawRoute outgoing].
  apply restoring_quiet_bind; [apply guarantees_lift; tc_solve|]. intros r.
  apply restoring_quiet_bind; [apply quiet_withdrawal|]. intros _. apply restoring_lock. intros signal.
  apply restoring_quiet_bind; [apply quiet_ledger, same_rows_translated|]. intros txs. case_match; [apply restoring_fail|].
  apply restoring_quiet_bind; [apply quiet_ledger, same_rows_balance|]. intros b.
  do 4 (apply restoring_quiet_bind; [apply guarantees_lift; tc_solve|]; intros ?).
  destruct a2 as [[[displayAmount displayFee] dc] price]. cbn [fst snd]. case_match; [apply restoring_fail|].
  intros w o w' H1 Ho. apply refused_bind in H1 as (j & w1 & Hj & H1); [|done|apply other_ledger, other_recordSend].
  apply refused_bind in H1 as (ratio & w2 & Hr & H1); [|done|apply other_lift; intros e; apply other_ratio].
  apply refused_bind in H1 as (pr & w3 & Hp & H1); [|done|apply other_attempt].
  apply ledger_Ok, recorded_rows in Hj as (Hf & news & Hw1 & Hn). injection Hr as _ <-.
  pose proof (guarantees_attempt quiet_rows _ (quiet_pay a0 decodedInvoice f ratio rawRoute outgoing) w1) as Hq.
  rewrite Hp in Hq. cbn in Hq. eapply refused_restores; [|exact Hf|exact Hn|exact Ho|exact H1].
  unfold quiet_rows, rows_of in *. congruence.
Qed.
End Settlement.
