(* ===== verification/FygaroIntents.v ===== *)
(** * Checkout intents

    Model of [src/src/services/fygaro/checkout-intent-store.ts]: the holds an
    account has on its daily allowance, the records of what was authorised, the
    single-use claims, and the outcome stamped on a record, whose merge rules are
    applied by a compare-and-set. *)

From stdpp Require Import base gmap list strings sorting.
From Stdlib Require Import ZArith Lia Ascii.
From S2P Require Import Prelude JsStrings JsNumbers Processes Errors World.
From S2P Require Import TopupWorld.

Open Scope Z_scope.
Open Scope flash_scope.

(** ** Reservations *)

Definition reservationMember (intentId : string) (amountCents : Z) : hold_member :=
  mkMember amountCents intentId.

Definition member_text (m : hold_member) : string :=
  bigint_toString (hm_amountCents m) +:+ ":" +:+ hm_intentId m.

(** [s.indexOf(c)] *)
Fixpoint index_of (c : ascii) (s : string) : option nat :=
  match s with
  | EmptyString => None
  | String d s' => if Ascii.eqb d c then Some O else S <$> index_of c s'
  end.

(** Without a colon [indexOf] is -1: all but the last character. *)
Definition member_amount_text (member : string) : string :=
  match index_of ":" member with
  | Some n => str_take n member
  | None => str_take (String.length member - 1) member
  end.

Definition member_intent_id (member : string) : string :=
  match index_of ":" member with Some n => str_drop (S n) member | None => member end.

(** Read from the text; that of a whole number reads as one. *)
Definition reservationAmountCents (member : hold_member) : Z :=
  match js_Number (member_amount_text (member_text member)) with
  | Some x => if num_ltb (num_of_Z 0) x then num_to_Z x else 0
  | None => 0
  end.

Record FygaroReservation := mkReservation {
  rv_intentId : string;
  rv_amountCents : Z;
  rv_expiresAtMs : Z
}.

(** A sorted set is read by score, and by member among equal scores. *)
Definition zset_le (p q : hold_member * Z) : Prop :=
  p.2 < q.2 \/ (p.2 = q.2 /\ String.leb (member_text p.1) (member_text q.1) = true).
#[global] Instance zset_le_dec : RelDecision zset_le.
Proof. unfold zset_le. solve_decision. Defined.

Definition zrange (z : gmap hold_member Z) : list (hold_member * Z) := merge_sort zset_le (map_to_list z).

Definition to_reservations (members : list (hold_member * Z)) : list FygaroReservation :=
  omap (fun '(member, score) =>
    let amountCents := reservationAmountCents member in
    if amountCents <=? 0 then None
    else Some (mkReservation (member_intent_id (member_text member)) amountCents score)) members.

Definition held_cents (l : list FygaroReservation) : Z :=
  foldr (fun rv sum => rv_amountCents rv + sum) 0 l.

Section Intents.
Context `{X : TopupExternal}.

(** The sorted set of an account at a moment; a set that gets empty is gone,
    and its time to live with it. *)
Definition holds_at (now : Z) (r : redis_state) (accountId : string) : gmap hold_member Z * option Z :=
  match r_holds r !! accountId with
  | Some (z, None) => (z, None)
  | Some (z, Some expiry) => if now <? expiry then (z, Some expiry) else (∅, None)
  | None => (∅, None)
  end.

Definition put_holds (accountId : string) (h : gmap hold_member Z * option Z) (r : redis_state) :
    redis_state :=
  set_holds (if bool_decide (h.1 = ∅) then delete accountId (r_holds r)
             else <[accountId := h]> (r_holds r)) r.

Definition zadd (accountId : string) (score : Z) (member : hold_member) : TApp unit :=
  redis (fun now r =>
    let '(z, expiry) := holds_at now r accountId in
    (tt, put_holds accountId (<[member := score]> z, expiry) r)).

Definition zset_expire (accountId : string) (seconds : Z) : TApp unit :=
  redis (fun now r =>
    let '(z, _) := holds_at now r accountId in
    (tt, put_holds accountId (z, Some (now + seconds * 1000)) r)).

Definition zrem (accountId : string) (member : hold_member) : TApp unit :=
  redis (fun now r =>
    let '(z, expiry) := holds_at now r accountId in
    (tt, put_holds accountId (delete member z, expiry) r)).

(** [zremrangebyscore(key, "-inf", max)] *)
Definition zprune (accountId : string) (max : Z) : TApp unit :=
  redis (fun now r =>
    let '(z, expiry) := holds_at now r accountId in
    (tt, put_holds accountId (filter (fun p => max < p.2) z, expiry) r)).

Definition zread (accountId : string) : TApp (list (hold_member * Z)) :=
  redis (fun now r => (zrange (holds_at now r accountId).1, r)).

(** ** Writing an intent *)

(** The hold first, then its time to live, the record and the claim. *)
Definition saveIntent (intent : FygaroCheckoutIntent) (ttlSeconds : Z) : TApp unit :=
  pcatch
    (zadd (i_accountId intent) (i_createdAtMs intent + ttlSeconds * 1000)
       (reservationMember (i_intentId intent) (i_amountCents intent)))
    (fun e => pfail (new_error FygaroReservationWriteError (err_message e))) ;;;
  pcatch (zset_expire (i_accountId intent) (ttlSeconds + 3600)) (fun _ => pret tt) ;;;
  cache_set set_intents r_intents (i_intentId intent) intent (ttlSeconds + 3600) ;;;
  pattempt (cache_set set_claims r_claims (i_intentId intent) (i_intentId intent)
    (ttlSeconds + 3600)) ;;;
  pret tt.

(** ** Reading *)

Definition readOutstandingReservations (accountId : string) (nowMs : Z) :
    TApp (list FygaroReservation) :=
  pcatch
    (zprune accountId nowMs ;;;
     let* flat := zread accountId in
     pret (to_reservations flat))
    (fun e => pfail e).

Definition releaseIntentReservation (accountId intentId : string) (amountCents : Z) : TApp unit :=
  pcatch (zrem accountId (reservationMember intentId amountCents)) (fun _ => pret tt).

Inductive IntentLookup :=
| IntentFound (intent : FygaroCheckoutIntent)
| IntentMissing (unavailable : bool).

Definition readIntent (intentId : string) : TApp IntentLookup :=
  let* found := pattempt (cache_get r_intents intentId) in
  match found with
  | inl e => pret (IntentMissing (negb (bool_decide (err_class e = CacheUndefinedError))))
  | inr intent => pret (IntentFound intent)
  end.

(** ** Redeeming *)

Definition consumeIntent (intentId : string) : TApp bool :=
  let* lookup := readIntent intentId in
  (match lookup with
   | IntentFound intent =>
       releaseIntentReservation (i_accountId intent) (i_intentId intent) (i_amountCents intent)
   | IntentMissing _ => pret tt
   end) ;;;
  let* claimed := pattempt (consumeCacheKey set_claims r_claims intentId) in
  pret (match claimed with inr b => b | inl _ => false end).

(** ** Outcomes *)

(** Both ids are there and differ. *)
Definition differentPayment (existing incoming : FygaroTopupOutcome) : bool :=
  match o_transactionId existing, o_transactionId incoming with
  | Some t, Some t' => negb (bool_decide (t = t'))
  | _, _ => false
  end.

Definition mergeIntentOutcome (existing : option FygaroTopupOutcome)
    (incoming : FygaroTopupOutcome) : option FygaroTopupOutcome :=
  match existing with
  | None => Some incoming
  | Some existing =>
      if bool_decide (o_state incoming = outcome_received) then None
      else if bool_decide (o_state existing = outcome_credited)
              && negb (bool_decide (o_state incoming = outcome_credited)) then None
      else if bool_decide (o_state existing = outcome_credited)
              && negb (differentPayment existing incoming) then
        Some (mkOutcome (o_state incoming) (o_reason incoming)
          (match o_netAmountCents incoming with
           | Some n => Some n
           | None => o_netAmountCents existing
           end)
          (o_detailCents incoming) (o_transactionId incoming) (o_atMs incoming))
      else Some incoming
  end.

Definition with_outcome (i : FygaroCheckoutIntent) (o : FygaroTopupOutcome) : FygaroCheckoutIntent :=
  mkIntent (i_intentId i) (i_accountId i) (i_username i) (i_amountCents i) (i_currency i)
    (i_createdAtMs i) (i_checkoutUrl i) (i_expiresAtMs i) (Some o).

(** [CAS_INTENT_RECORD]: replace the record if it is still the one decided
    against. The records are compared as values: their text is the same when
    they are, since one serializer writes them all. *)
Definition cas_intent (intentId : string) (expected next : FygaroCheckoutIntent) (ttlSecs : Z) :
    TApp bool :=
  redis (fun now r =>
    if bool_decide (live now (r_intents r !! intentId) = Some expected)
    then (true, set_intents (<[intentId := (next, now + ttlSecs * 1000)]> (r_intents r)) r)
    else (false, r)).

Definition get_intent (intentId : string) : TApp (option FygaroCheckoutIntent) :=
  redis (fun now r => (live now (r_intents r !! intentId), r)).

Definition RECORD_OUTCOME_ATTEMPTS : nat := 3.

Fixpoint record_attempts (attempts : nat) (intentId : string) (outcome : FygaroTopupOutcome)
    (ttlSecs : Z) : TApp unit :=
  match attempts with
  | O => pret tt
  | S n =>
      let* raw := get_intent intentId in
      match raw with
      | None => pret tt
      | Some found =>
          match mergeIntentOutcome (i_outcome found) outcome with
          | None => pret tt
          | Some merged =>
              let* swapped := cas_intent intentId found (with_outcome found merged) ttlSecs in
              if swapped then pret tt else record_attempts n intentId outcome ttlSecs
          end
      end
  end.

Definition recordIntentOutcome (intentId : string) (outcome : FygaroTopupOutcome)
    (ttlSeconds : Z) : TApp unit :=
  pcatch (record_attempts RECORD_OUTCOME_ATTEMPTS intentId outcome (ttlSeconds + 3600))
    (fun _ => pret tt).

End Intents.

(** ** Stamping under concurrency *)

(** The merge as one atomic step on the records: the specification. *)
Definition stamp (intentId : string) (o : FygaroTopupOutcome) (ttlSecs now : Z)
    (m : gmap string (FygaroCheckoutIntent * Z)) : gmap string (FygaroCheckoutIntent * Z) :=
  match live now (m !! intentId) with
  | None => m
  | Some found =>
      match mergeIntentOutcome (i_outcome found) o with
      | None => m
      | Some merged => <[intentId := (with_outcome found merged, now + ttlSecs * 1000)]> m
      end
  end.

(** The atomic steps of some of the callers, in an order, at given times. *)
Definition stamps (intentId : string) (os : list FygaroTopupOutcome) (ttlSecs : Z)
    (l : list (nat * Z)) (m : gmap string (FygaroCheckoutIntent * Z)) :
    gmap string (FygaroCheckoutIntent * Z) :=
  foldl (fun m '(i, now) =>
    match os !! i with Some o => stamp intentId o ttlSecs now m | None => m end) m l.

Section Stamping.
Context `{X : TopupExternal}.
Variables (intentId : string) (os : list FygaroTopupOutcome) (ttlSecs : Z).
Variable m0 : gmap string (FygaroCheckoutIntent * Z).

(** The records are those of the steps taken so far, one per caller whose ghost
    state is [true]. *)
Definition stamped (r : redis_state) (ss : list bool) : Prop :=
  exists l : list (nat * Z), NoDup l.*1 /\ (forall i, i ∈ l.*1 -> ss !! i = Some true) /\
    r_intents r = stamps intentId os ttlSecs l m0.

Lemma stamped_step r ss i o found merged now :
  stamped r ss -> ss !! i = Some false -> os !! i = Some o ->
  live now (r_intents r !! intentId) = Some found ->
  mergeIntentOutcome (i_outcome found) o = Some merged ->
  stamped (set_intents (<[intentId := (with_outcome found merged, now + ttlSecs * 1000)]>
             (r_intents r)) r) (<[i := true]> ss).
Proof.
  intros (l & Hnd & Hl & Hm) Hi Ho Hf Hg. exists (l ++ [(i, now)]). split; [|split].
  - rewrite fmap_app. apply NoDup_app. split; [done|]. split; [|apply NoDup_singleton].
    intros j Hj ->%list_elem_of_singleton. specialize (Hl _ Hj). cbn in Hl. congruence.
  - intros j. rewrite fmap_app, elem_of_app. cbn. rewrite list_elem_of_singleton.
    intros [Hj| ->].
    + destruct (decide (i = j)) as [<-|]; [specialize (Hl _ Hj); congruence|].
      rewrite list_lookup_insert_ne by done. auto.
    + apply list_lookup_insert_eq. by eapply lookup_lt_Some.
  - unfold stamps. rewrite foldl_app. cbn [foldl]. rewrite Ho. fold (stamps intentId os ttlSecs l m0).
    rewrite <- Hm. unfold stamp. rewrite Hf, Hg. done.
Qed.

Lemma record_attempts_safe n i o : os !! i = Some o ->
  safe (on_redis stamped) (fun _ _ => True) i (record_attempts n intentId o ttlSecs) false.
Proof.
  intros Ho. induction n as [|n IH]; [done|]. cbn [record_attempts].
  apply safe_bind with (Q := fun s _ => s = false); [by apply safe_redis_read|].
  intros s [[found|]| |] ->; try done.
  destruct (mergeIntentOutcome (i_outcome found) o) as [merged|] eqn:Hg; [|done].
  apply safe_bind with (Q := fun s r => r = Ok false -> s = false).
  - apply safe_redis; [|done]. intros now r ss HJ Hi. case_bool_decide as Hf.
    + exists true. split; [by eapply stamped_step|done].
    + exists false. cbn. by rewrite list_insert_id.
  - intros s [[]| |] Hs; try done. by rewrite (Hs eq_refl).
Qed.

End Stamping.

(** The records under a schedule are those of some of the atomic steps. *)
Lemma exec_stamps `{X : TopupExternal} (intentId : string)
    (os : list FygaroTopupOutcome) (ttlSeconds : Z) (sched : list nat) (w : tworld) :
  exists l : list (nat * Z), NoDup l.*1 /\
    r_intents (t_redis (exec sched
      ((fun o => recordIntentOutcome intentId o ttlSeconds) <$> os) w).2) =
    stamps intentId os (ttlSeconds + 3600) l (r_intents (t_redis w)).
Proof.
  assert (pool_safe (on_redis (stamped intentId os (ttlSeconds + 3600) (r_intents (t_redis w))))
    (fun _ (_ : outcome error unit) => True)
    ((fun o => recordIntentOutcome intentId o ttlSeconds) <$> os) w) as Hp.
  { exists (replicate (length os) false). split; [by exists []; split; [constructor|split; [set_solver|]]|].
    split; [by rewrite length_replicate, length_fmap|]. intros i p s Hi Hs.
    apply list_lookup_fmap_Some in Hi as (o & -> & Ho). apply lookup_replicate in Hs as [-> _].
    eapply safe_catch; [by apply record_attempts_safe|]. by intros s [] _. }
  apply (exec_safe _ _ sched) in Hp as (ss & (l & Hnd & _ & Hm) & _). eauto.
Qed.

(** What a record may turn into: the authorisation stays as it was, a credited
    outcome stays credited, and a payment once seen is never merely seen again. *)
Definition record_le (i i' : FygaroCheckoutIntent) : Prop :=
  (i_intentId i', i_accountId i', i_username i', i_amountCents i', i_currency i',
   i_createdAtMs i', i_checkoutUrl i', i_expiresAtMs i') =
  (i_intentId i, i_accountId i, i_username i, i_amountCents i, i_currency i,
   i_createdAtMs i, i_checkoutUrl i, i_expiresAtMs i) /\
  (o_state <$> i_outcome i = Some outcome_credited ->
     o_state <$> i_outcome i' = Some outcome_credited) /\
  (is_Some (i_outcome i) -> o_state <$> i_outcome i ≠ Some outcome_received ->
     o_state <$> i_outcome i' ≠ Some outcome_received) /\
  (is_Some (i_outcome i) -> is_Some (i_outcome i')).

#[global] Instance record_le_preorder : PreOrder record_le.
Proof.
  split; [done|]. intros i1 i2 i3 (E1 & A1 & B1 & C1) (E2 & A2 & B2 & C2).
  split; [by rewrite E2|]. split; [auto|]. split; auto.
Qed.

Lemma merge_record_le i o merged : mergeIntentOutcome (i_outcome i) o = Some merged ->
  record_le i (with_outcome i merged).
Proof.
  unfold mergeIntentOutcome. intros Hm. split; [done|]. cbn [i_outcome with_outcome fmap option_fmap option_map].
  destruct (i_outcome i) as [e|]; cbn [fmap option_fmap option_map].
  - destruct (bool_decide_reflect (o_state o = outcome_received)); [done|].
    destruct (bool_decide_reflect (o_state e = outcome_credited)) as [He|He]; cbn [andb] in Hm.
    + destruct (bool_decide_reflect (o_state o = outcome_credited)) as [Ho|]; [|done]. cbn [negb] in Hm.
      assert (o_state merged = outcome_credited) as -> by (by destruct (negb _); simplify_eq).
      split_and!; done.
    + simplify_eq. split_and!; intros; congruence || done.
  - split_and!; intros; done || by destruct (is_Some_None).
Qed.

Lemma stamp_record_le intentId o ttlSecs now m id i e :
  m !! id = Some (i, e) ->
  exists i' e', stamp intentId o ttlSecs now m !! id = Some (i', e') /\ record_le i i'.
Proof.
  intros Hm. unfold stamp. destruct (live now (m !! intentId)) as [found|] eqn:Hf; [|by exists i, e].
  destruct (mergeIntentOutcome (i_outcome found) o) as [merged|] eqn:Hg; [|by exists i, e].
  destruct (decide (intentId = id)) as [->|Hne].
  - rewrite Hm in Hf. cbn in Hf. case_match; [|done]. simplify_eq.
    eexists _, _. split; [apply lookup_insert_eq|]. by apply (merge_record_le _ o).
  - exists i, e. by rewrite lookup_insert_ne.
Qed.

Lemma stamps_record_le intentId os ttlSecs l m i e : m !! intentId = Some (i, e) ->
  exists i' e', stamps intentId os ttlSecs l m !! intentId = Some (i', e') /\ record_le i i'.
Proof.
  revert m i e. induction l as [|[j now] l IH]; intros m i e Hm; [by exists i, e|].
  cbn. destruct (os !! j) as [o|]; [|eauto].
  destruct (stamp_record_le intentId o ttlSecs now m intentId i e Hm) as (i1 & e1 & H1 & L1).
  destruct (IH _ _ _ H1) as (i2 & e2 & H2 & L2). exists i2, e2. split; [done|]. by etrans.
Qed.


(** ** Redemption *)

Section Redeeming.
Context `{X : TopupExternal}.
Variable intentId : string.

(** [true]: this caller's delete removed the claim. *)
Definition claimed_once (r : redis_state) (ss : list bool) : Prop :=
  forall i j, ss !! i = Some true -> ss !! j = Some true -> i = j /\ r_claims r !! intentId = None.

Definition won (s : bool) (o : outcome error bool) : Prop := o = Ok true -> s = true.

Lemma claimed_once_same r r' ss : r_claims r' = r_claims r -> claimed_once r ss -> claimed_once r' ss.
Proof. unfold claimed_once. intros ->. done. Qed.

Lemma claimed_once_frame {A} (P : bool -> outcome error A -> Prop) i (op : Z -> redis_state -> A * redis_state) s :
  (forall now r, r_claims (op now r).2 = r_claims r) -> (forall o, P s o) ->
  safe (on_redis claimed_once) P i (redis op) s.
Proof.
  intros Hop HP. apply safe_redis; [|intros; apply HP]. intros now r ss HJ Hi. exists s.
  rewrite list_insert_id by done. split; [by apply (claimed_once_same r); [apply Hop|]|]. auto.
Qed.

Lemma consumeIntent_safe i : safe (on_redis claimed_once) won i (consumeIntent intentId) false.
Proof.
  unfold consumeIntent. apply safe_bind with (Q := fun s o => s = false).
  { unfold readIntent. apply safe_bind with (Q := fun s o => s = false).
    - apply safe_attempt. unfold cache_get. apply safe_bind with (Q := fun s o => s = false).
      + eapply safe_catch; [by apply (claimed_once_frame (fun s _ => s = false))|].
        by intros s [] ->.
      + by intros s [[]| |] ->.
    - by intros s [[]| |] ->. }
  intros s [lookup| |] ->; [|by intros ?..].
  apply safe_bind with (Q := fun s o => s = false).
  { destruct lookup; [|done]. unfold releaseIntentReservation.
    eapply safe_catch; [apply (claimed_once_frame (fun s _ => s = false)); [|done]|by intros s [] ->].
    intros now r. by destruct (holds_at now r (i_accountId intent)). }
  intros s [_| |] ->; [|by intros ?..].
  apply safe_bind with (Q := fun s o => o = Ok (inr true) -> s = true).
  { apply safe_attempt. eapply safe_catch with (Q := fun s o => o = Ok true -> s = true).
    - apply safe_redis; [|done]. intros now r ss HJ Hi. case_bool_decide as Hl; cbn [fst snd].
      + exists true. split; [|done]. destruct Hl as [v Hl]. destruct (r_claims r !! intentId) eqn:Hc; [|done].
        assert (forall k, ss !! k = Some true -> False) as Hno.
        { intros k Hk. destruct (HJ k k Hk Hk). congruence. }
        intros a b Ha Hb. cbn. rewrite lookup_delete_eq.
        destruct (decide (a = i)) as [->|]; [|rewrite list_lookup_insert_ne in Ha by done; by destruct (Hno a)].
        destruct (decide (b = i)) as [->|]; [done|rewrite list_lookup_insert_ne in Hb by done; by destruct (Hno b)].
      + exists false. rewrite list_insert_id by done. split; [|done].
        intros a b Ha Hb. cbn. rewrite lookup_delete_eq. by destruct (HJ a b Ha Hb).
    - intros s [b| |] Hs; cbn; naive_solver. }
  intros s [[]| |] Hs; intros E; simplify_eq; auto.
Qed.

End Redeeming.

(** C21: however many deliveries redeem one authorisation, at most one of them is
    told it did. *)
Theorem redeemed_once `{X : TopupExternal} (intentId : string) (n : nat) (sched : list nat)
    (w : tworld) (i j : nat) :
  let ps := (exec sched (replicate n (consumeIntent intentId)) w).1 in
  ps !! i = Some (Done (Ok true)) -> ps !! j = Some (Done (Ok true)) -> i = j.
Proof.
  cbn zeta. intros Hi Hj.
  assert (pool_safe (on_redis (claimed_once intentId)) won (replicate n (consumeIntent intentId)) w) as Hp.
  { exists (replicate n false). split; [|split].
    - intros a b Ha. by apply lookup_replicate in Ha as [? _].
    - by rewrite !length_replicate.
    - intros k p s Hk Hs. apply lookup_replicate in Hk as [-> _]. apply lookup_replicate in Hs as [-> _].
      apply consumeIntent_safe. }
  apply (exec_safe _ _ sched) in Hp as (ss & HI & Hl & Hs).
  assert (forall k, (exec sched (replicate n (consumeIntent intentId)) w).1 !! k = Some (Done (Ok true)) ->
    ss !! k = Some true) as Hwon.
  { intros k Hk. destruct (lookup_lt_is_Some_2 ss k) as [s Es].
    { rewrite Hl. by eapply lookup_lt_Some. }
    pose proof (Hs k _ s Hk Es) as Hd. cbn in Hd. rewrite Es. by rewrite Hd. }
  by destruct (HI i j (Hwon i Hi) (Hwon j Hj)).
Qed.

(** ** Members of the index *)

Lemma index_of_app ds s : no_char ":" ds = true ->
  index_of ":" (ds +:+ String ":" s) = Some (String.length ds).
Proof.
  induction ds as [|c ds IH]; [done|]. rewrite app_cons. cbn [no_char index_of String.length].
  intros [Hc Hd]%andb_true_iff. rewrite IH by done.
  rewrite Ascii.eqb_sym in Hc. destruct (Ascii.eqb c ":"); done.
Qed.

Lemma str_take_length s t : str_take (String.length s) (s +:+ t) = s.
Proof. induction s as [|c s IH]; [by destruct t|]. rewrite app_cons. cbn. by rewrite IH. Qed.

Lemma str_drop_S_length s c t : str_drop (S (String.length s)) (s +:+ String c t) = t.
Proof. induction s as [|d s IH]; [by destruct t|]. rewrite app_cons. cbn. apply IH. Qed.

Lemma num_pos x : num_ltb (num_of_Z 0) x = (0 <? mant x).
Proof.
  unfold num_ltb. cbn [num_of_Z mant expo]. rewrite Z.mul_0_l.
  assert (0 < 2 ^ (expo x - Z.min 0 (expo x))) by (apply Z.pow_pos_nonneg; lia).
  destruct (Z.ltb_spec 0 (mant x)), (Z.ltb_spec 0 (mant x * 2 ^ (expo x - Z.min 0 (expo x)))); nia.
Qed.

Lemma num_to_Z_pos x : num_isInteger x = true -> (0 <? mant x) = (0 <? num_to_Z x).
Proof.
  unfold num_isInteger, num_to_Z. destruct (Z.leb_spec 0 (expo x)) as [He|He].
  - intros _. assert (0 < 2 ^ expo x) by (apply Z.pow_pos_nonneg; lia).
    destruct (Z.ltb_spec 0 (mant x)), (Z.ltb_spec 0 (mant x * 2 ^ expo x)); nia.
  - intros Hm%Z.eqb_eq. assert (0 < 2 ^ (- expo x)) as Hp by (apply Z.pow_pos_nonneg; lia).
    pose proof (Z.div_mod (mant x) (2 ^ (- expo x)) ltac:(lia)) as Hd. rewrite Hm in Hd.
    destruct (Z.ltb_spec 0 (mant x)), (Z.ltb_spec 0 (mant x / 2 ^ (- expo x))); nia.
Qed.

(** A hold is read back as it was written. *)
Lemma reservation_member_roundtrip (intentId : string) (amountCents : Z) :
  0 <= amountCents <= 2 ^ 53 ->
  reservationAmountCents (reservationMember intentId amountCents) = amountCents /\
  member_intent_id (member_text (reservationMember intentId amountCents)) = intentId.
Proof.
  intros Ha. unfold reservationAmountCents, member_amount_text, member_intent_id, member_text.
  cbn [reservationMember hm_amountCents hm_intentId].
  rewrite bigint_toString_nonneg by lia.
  change (":" +:+ intentId) with (String ":" intentId).
  rewrite index_of_app by (apply digits_no_char; [done|apply print_nonneg_digits; lia]).
  rewrite str_take_length. split.
  - destruct (js_Number_print amountCents Ha) as (x & -> & Hi & Hx).
    rewrite num_pos, num_to_Z_pos, Hx by done. destruct (Z.ltb_spec 0 amountCents); lia.
  - apply str_drop_S_length.
Qed.
