(* ===== verification/TransferRequests.v ===== *)
(** * Audit rows in ERPNext

    Model of the Bridge Transfer Request rows: the payload of
    [src/src/services/frappe/models/BridgeTransferRequest.ts], the methods of
    [services/frappe/ErpNext.ts] that read, create, update and sum them, and the
    writers of [services/frappe/BridgeTransferRequestWriter.ts]. *)

From stdpp Require Import base gmap list strings.
From Stdlib Require Import ZArith Lia Ascii.
From S2P Require Import Prelude JsStrings JsNumbers Processes Errors World.
From S2P Require Import TopupWorld.

Open Scope Z_scope.
Open Scope flash_scope.

(** ** Lists of systems *)

Definition EMAIL_ATTRIBUTION_SOURCE_SYSTEM : string := "email_attribution".

(** [[...new Set(l)]]: without repetitions, in the order of first occurrence. *)
Fixpoint uniq (l : list string) : list string :=
  match l with
  | [] => []
  | s :: l' => s :: filter (fun s' => s' ≠ s) (uniq l')
  end.

Definition join_comma (l : list string) : string := String.concat "," l.

(** The members of a comma-joined list: trimmed, and not empty. *)
Definition systems (s : option string) : list string :=
  match s with
  | None => []
  | Some s => filter (fun x => nonempty x = true) (js_trim <$> split_on "," s)
  end.

Definition to_systems (l : list string) : option string :=
  match l with [] => None | _ => Some (join_comma l) end.

Definition mergeSourceSystemsSeen (existing incoming : option string) : option string :=
  to_systems (uniq (systems existing ++ systems incoming)).

Definition isEmailAttributedRow (sourceSystemsSeen : option string) : bool :=
  existsb (fun s => bool_decide (js_trim s = EMAIL_ATTRIBUTION_SOURCE_SYSTEM))
    (split_on "," (default EmptyString sourceSystemsSeen)).

Definition dropSourceSystem (sourceSystemsSeen : option string) (system : string) : option string :=
  to_systems (filter (fun s => s ≠ system) (systems (Some (default EmptyString sourceSystemsSeen)))).

(** ** Payloads *)

Record BridgeTransferRequestInput := mkTransferInput {
  ti_requestId : string;
  ti_transactionType : BridgeTransferRequestTransactionType;
  ti_status : BridgeTransferRequestStatus;
  ti_amount : string;
  ti_currency : string;
  ti_provider : option string;
  ti_asset : option string;
  ti_network : option string;
  ti_developerFee : option string;
  ti_initialAmount : option string;
  ti_subtotalAmount : option string;
  ti_finalAmount : option string;
  ti_processorFee : option string;
  ti_flashFee : option string;
  ti_accountId : option string;
  ti_walletId : option string;
  ti_bridgeCustomerId : option string;
  ti_bridgeTransferId : option string;
  ti_ibexTxHash : option string;
  ti_address : option string;
  ti_sourceEventId : option string;
  ti_sourceEventType : option string;
  ti_sourceSystemsSeen : list string;
  ti_firstSeenAt : option Z;
  ti_rawPayload : option string;
  ti_failureReason : option string
}.

(** [toFrappeDatetime] drops the milliseconds. *)
Definition toFrappeDatetime (ms : Z) : Z := ms / 1000.

(** The systems of the writers are neither empty nor padded, so joining the set
    is joining its members. [now] is the time of the call. *)
Definition toErpnext (now : Z) (i : BridgeTransferRequestInput) : transfer_row :=
  mkRow (ti_transactionType i) (ti_status i) (toFrappeDatetime now)
    (Some (default "Bridge" (ti_provider i))) (Some (default "USDT" (ti_asset i)))
    (Some (default "Ethereum" (ti_network i))) (Some (ti_amount i)) (Some (ti_currency i))
    (ti_developerFee i) (ti_initialAmount i) (ti_subtotalAmount i) (ti_finalAmount i)
    (ti_processorFee i) (ti_flashFee i) (ti_accountId i) (ti_walletId i) (ti_bridgeCustomerId i)
    (ti_bridgeTransferId i) (ti_ibexTxHash i) (ti_address i) (ti_sourceEventId i)
    (ti_sourceEventType i)
    (let seen := join_comma (uniq (ti_sourceSystemsSeen i)) in
     if nonempty seen then Some seen else None)
    (toFrappeDatetime <$> ti_firstSeenAt i) (ti_rawPayload i) (ti_failureReason i).

(** The fields a lookup asks for. *)
Record BridgeTransferRequestDoc := mkTransferDoc {
  td_status : BridgeTransferRequestStatus;
  td_source_systems_seen : option string;
  td_account_id : option string;
  td_wallet_id : option string;
  td_final_amount : option string
}.

Definition to_doc (row : transfer_row) : BridgeTransferRequestDoc :=
  mkTransferDoc (row_status row) (source_systems_seen row) (account_id row) (wallet_id row)
    (final_amount row).

(** An absent status ranks below all. *)
Definition BRIDGE_TRANSFER_STATUS_RANK (status : BridgeTransferRequestStatus) : Z :=
  if bool_decide (status = TransferPending) then 0
  else if bool_decide (status = FiatReceived) then 1
  else if bool_decide (status = TransferSettled) then 2
  else if bool_decide (status = TransferCompleted) then 3
  else if bool_decide (status = TransferFailed) then 4
  else -1.

Definition with_status_systems (row : transfer_row) (status : BridgeTransferRequestStatus)
    (seen : option string) : transfer_row :=
  mkRow (transaction_type row) status (last_seen_at row) (provider row) (asset row) (network row)
    (row_amount row) (row_currency row) (developer_fee row) (initial_amount row)
    (subtotal_amount row) (final_amount row) (processor_fee row) (flash_fee row) (account_id row)
    (wallet_id row) (bridge_customer_id row) (bridge_transfer_id row) (ibex_tx_hash row)
    (row_address row) (source_event_id row) (source_event_type row) seen (first_seen_at row)
    (raw_payload_json row) (failure_reason row).

(** A text that is there and not empty. *)
Definition truthy (s : option string) : bool :=
  match s with Some s => nonempty s | None => false end.

Definition applyUpdateGuards (payload : transfer_row) (existing : BridgeTransferRequestDoc) :
    transfer_row :=
  let merged := mergeSourceSystemsSeen (td_source_systems_seen existing) (source_systems_seen payload) in
  let seen :=
    if truthy (account_id payload) && negb (isEmailAttributedRow (source_systems_seen payload))
    then dropSourceSystem merged EMAIL_ATTRIBUTION_SOURCE_SYSTEM else merged in
  let status :=
    if bool_decide (transaction_type payload = Topup) && nonempty (td_status existing)
       && (BRIDGE_TRANSFER_STATUS_RANK (row_status payload) <?
           BRIDGE_TRANSFER_STATUS_RANK (td_status existing))
    then td_status existing else row_status payload in
  with_status_systems payload status seen.

(** ** Requests to ERPNext *)

(** A field that was not sent stays as it is. *)
Definition or_keep {A} (sent kept : option A) : option A :=
  match sent with Some a => Some a | None => kept end.

Definition put_row (payload old : transfer_row) : transfer_row :=
  mkRow (transaction_type payload) (row_status payload) (last_seen_at payload)
    (or_keep (provider payload) (provider old)) (or_keep (asset payload) (asset old))
    (or_keep (network payload) (network old)) (or_keep (row_amount payload) (row_amount old))
    (or_keep (row_currency payload) (row_currency old))
    (or_keep (developer_fee payload) (developer_fee old))
    (or_keep (initial_amount payload) (initial_amount old))
    (or_keep (subtotal_amount payload) (subtotal_amount old))
    (or_keep (final_amount payload) (final_amount old))
    (or_keep (processor_fee payload) (processor_fee old))
    (or_keep (flash_fee payload) (flash_fee old)) (or_keep (account_id payload) (account_id old))
    (or_keep (wallet_id payload) (wallet_id old))
    (or_keep (bridge_customer_id payload) (bridge_customer_id old))
    (or_keep (bridge_transfer_id payload) (bridge_transfer_id old))
    (or_keep (ibex_tx_hash payload) (ibex_tx_hash old))
    (or_keep (row_address payload) (row_address old))
    (or_keep (source_event_id payload) (source_event_id old))
    (or_keep (source_event_type payload) (source_event_type old))
    (or_keep (source_systems_seen payload) (source_systems_seen old))
    (or_keep (first_seen_at payload) (first_seen_at old))
    (or_keep (raw_payload_json payload) (raw_payload_json old))
    (or_keep (failure_reason payload) (failure_reason old)).

Section TransferRequests.
Context `{X : TopupExternal}.

Definition erp_get (requestId : string) : TApp (option transfer_row) :=
  erp (fun rows => (Ok (rows !! requestId), rows)).

Definition erp_put (requestId : string) (payload : transfer_row) : TApp unit :=
  erp (fun rows =>
    match rows !! requestId with
    | None => (Throw erp_not_found, rows)
    | Some old => (Ok tt, <[requestId := put_row payload old]> rows)
    end).

(** The request id is unique. *)
Definition erp_post (requestId : string) (payload : transfer_row) : TApp unit :=
  erp (fun rows =>
    match rows !! requestId with
    | Some _ => (Throw erp_duplicate, rows)
    | None => (Ok tt, <[requestId := payload]> rows)
    end).

(** The class of the error carries the message of its cause. *)
Definition upsert_error (e : error) : error :=
  new_error BridgeTransferRequestUpsertError (err_message e).

Definition findBridgeTransferRequest (requestId : string) :
    TApp (option BridgeTransferRequestDoc) :=
  pcatch (let* doc := erp_get requestId in pret (to_doc <$> doc))
    (fun e => pfail (upsert_error e)).

(** The text searched is that of the response. *)
Definition isDuplicateRequestError (e : error) : bool :=
  bool_decide (err_class e = AxiosError)
  && (bool_decide (err_httpCode e = Some 409)
      || str_includes "duplicate" (str_lower (err_message e))
      || str_includes "unique" (str_lower (err_message e))).

(** After a creation that lost a race, or whose answer was lost. *)
Definition upsert_raced (requestId : string) (payload : transfer_row) (e : error) : TApp unit :=
  if negb (isDuplicateRequestError e) then pthrow e else
  let* raced := findBridgeTransferRequest requestId in
  match raced with
  | None => pthrow e
  | Some doc => erp_put requestId (applyUpdateGuards payload doc)
  end.

Definition upsert_attempt (requestId : string) (payload : transfer_row) : TApp unit :=
  let* existing := findBridgeTransferRequest requestId in
  match existing with
  | Some doc => erp_put requestId (applyUpdateGuards payload doc)
  | None => pcatch (erp_post requestId payload) (upsert_raced requestId payload)
  end.

Definition upsertBridgeTransferRequest (input : BridgeTransferRequestInput) : TApp unit :=
  let* now := Date_now in
  pcatch (upsert_attempt (ti_requestId input) (toErpnext now input))
    (fun e => pfail (upsert_error e)).

(** ** The trailing window *)

Record FygaroTopupWindow := mkWindow { window_grossCents : Z; oldestCountedMs : option Z }.

(** The filters of the query. *)
Definition in_window (accountId : string) (sinceSecs : Z) (excludeRequestId : option string)
    (p : string * transfer_row) : bool :=
  bool_decide (provider p.2 = Some "Fygaro") && bool_decide (transaction_type p.2 = Topup)
  && bool_decide (account_id p.2 = Some accountId) && bool_decide (row_currency p.2 = Some "USD")
  && (bool_decide (row_status p.2 = FiatReceived) || bool_decide (row_status p.2 = TransferCompleted))
  && (sinceSecs <=? last_seen_at p.2)
  && match excludeRequestId with Some id => negb (bool_decide (p.1 = id)) | None => true end.

(** Refused rows and rows attributed by email are passed over. *)
Definition counted (row : transfer_row) : bool :=
  negb (match failure_reason row with Some s => nonempty (js_trim s) | None => false end
        && negb (bool_decide (row_status row = TransferCompleted)))
  && negb (isEmailAttributedRow (source_systems_seen row)).

(** [Math.round(Number(row.amount) * 100)], where it is a number. *)
Definition row_cents (row : transfer_row) : option Z :=
  amount ← row_amount row;
  x ← js_Number amount;
  y ← finite (num_mul x (num_of_Z 100));
  Some (Math_round y).

Definition older (oldest : option Z) (seenMs : Z) : option Z :=
  Some (match oldest with Some o => if seenMs <? o then seenMs else o | None => seenMs end).

Fixpoint sum_rows (acc : FygaroTopupWindow) (rows : list (string * transfer_row)) :
    outcome error FygaroTopupWindow :=
  match rows with
  | [] => Ok acc
  | (id, row) :: rows' =>
      if negb (counted row) then sum_rows acc rows' else
      match row_cents row with
      | None => Err (new_error FygaroTopupHistoryQueryError
                  ((match row_amount row with
                    | None => "Missing amount on "
                    | Some _ => "Non-numeric amount on "
                    end) +:+ id))
      | Some cents =>
          sum_rows (mkWindow (window_grossCents acc + cents)
            (older (oldestCountedMs acc) (last_seen_at row * 1000))) rows'
      end
  end.

Definition sumFygaroTopupGrossCentsSince (accountId : string) (since : Z)
    (excludeRequestId : option string) : TApp FygaroTopupWindow :=
  pcatch
    (let* rows := erp (fun rows =>
       (Ok (filter (fun p => in_window accountId (toFrappeDatetime since) excludeRequestId p = true)
              (map_to_list rows)), rows)) in
     Done (sum_rows (mkWindow 0 None) rows))
    (fun e => pfail (new_error FygaroTopupHistoryQueryError (err_message e))).

(** ** Promotion by transaction hash *)

Inductive promotion := PromotionCompleted | PromotionAlreadyCompleted | PromotionNotFound.

(** What the promotion sends. *)
Definition promotion_payload (row : transfer_row) (accountId walletId : option string)
    (seen : option string) (now : Z) : transfer_row :=
  mkRow (transaction_type row) TransferCompleted (toFrappeDatetime now) None None None None None None
    None None None None None accountId walletId None None None None None None seen None None None.

Definition deposit_row (txHash : string) (p : string * transfer_row) : bool :=
  bool_decide (ibex_tx_hash p.2 = Some txHash) && bool_decide (transaction_type p.2 = Topup)
  && match after_prefix "ibex:" p.1 with Some _ => false | None => true end.

Definition completeBridgeTopupByTxHash (txHash : string) (accountId walletId : option string) :
    TApp promotion :=
  pcatch
    (let* found := erp (fun rows =>
       (Ok (list_find (fun p => deposit_row txHash p = true) (map_to_list rows)), rows)) in
     match found with
     | None => pret PromotionNotFound
     | Some (_, (requestId, row)) =>
         if bool_decide (row_status row = TransferCompleted) then pret PromotionAlreadyCompleted else
         let* now := Date_now in
         erp_put requestId (promotion_payload row accountId walletId
           (mergeSourceSystemsSeen (source_systems_seen row) (Some "ibex_crypto_receive")) now) ;;;
         pret PromotionCompleted
     end)
    (fun e => pfail (upsert_error e)).

(** ** Writers *)

Definition not_configured : error :=
  new_error BridgeTransferRequestUpsertError "ERPNext client is not configured".

Definition upsert (input : BridgeTransferRequestInput) : TApp unit :=
  if erp_configured then upsertBridgeTransferRequest input else pfail not_configured.

Definition findSettledIbexReceive (txHash : string) : TApp (option (option string * option string)) :=
  if negb erp_configured then pret None else
  let* doc := pattempt (findBridgeTransferRequest ("ibex:" +:+ txHash)) in
  pret (match doc with
        | inr (Some doc) =>
            if bool_decide (td_status doc = TransferSettled)
            then Some (td_account_id doc, td_wallet_id doc) else None
        | _ => None
        end).

(** A deposit event; the numbers of a receipt are given by their texts. *)
Record BridgeDepositEventObject := mkDepositEvent {
  de_id : string;
  de_state : option string;
  de_amount : string;
  de_currency : option string;
  de_on_behalf_of : option string;
  de_deposit_id : option string;
  de_virtual_account_id : option string;
  de_product_type : option string;
  de_type : option string;
  de_customer_id : option string;
  de_route_customer_id : option string;
  de_route_deposit_id : option string;
  de_route_transfer_id : option string;
  de_receipt_developer_fee : option string;
  de_initial_amount : option string;
  de_subtotal_amount : option string;
  de_final_amount : option string;
  de_destination_tx_hash : option string;
  de_developer_fee : option string
}.

(** [a ?? b] *)
Definition nullish {A} (a b : option A) : option A := or_keep a b.

Definition writeBridgeDepositRequest (eventId : string) (ev : BridgeDepositEventObject)
    (rawPayload : string) : TApp unit :=
  let customerId := nullish (de_on_behalf_of ev) (nullish (de_customer_id ev) (de_route_customer_id ev)) in
  let state := default "unknown" (nullish (de_state ev) (de_type ev)) in
  let currency := default "usd" (de_currency ev) in
  let isVirtualAccountActivity :=
    truthy (de_type ev) || truthy (de_virtual_account_id ev)
    || bool_decide (de_product_type ev = Some "virtual_account") in
  let stableRequestId :=
    nullish (de_deposit_id ev) (nullish (de_route_deposit_id ev) (nullish (de_route_transfer_id ev)
      (if isVirtualAccountActivity then None else Some (de_id ev)))) in
  if negb (truthy stableRequestId) then pret tt else
  let requestId := default EmptyString stableRequestId in
  let* settledReceive :=
    match de_destination_tx_hash ev with
    | Some h => if nonempty h then findSettledIbexReceive h else pret None
    | None => pret None
    end in
  upsert (mkTransferInput requestId Topup
    (match settledReceive with Some _ => TransferCompleted | None => FiatReceived end)
    (de_amount ev) currency None None None
    (Some (default "0" (nullish (de_receipt_developer_fee ev) (de_developer_fee ev))))
    (de_initial_amount ev) (de_subtotal_amount ev) (de_final_amount ev) None None
    (s ← settledReceive; s.1) (s ← settledReceive; s.2)
    (Some (default "unknown" customerId)) (Some requestId) (de_destination_tx_hash ev) None
    (Some eventId) (Some ("deposit." +:+ state))
    (match settledReceive with
     | Some _ => ["bridge_deposit"; "ibex_crypto_receive"]
     | None => ["bridge_deposit"]
     end)
    None (Some rawPayload) None).

Definition promoteBridgeDepositForCryptoReceive (txHash accountId walletId : string) :
    TApp promotion :=
  if erp_configured then completeBridgeTopupByTxHash txHash (Some accountId) (Some walletId)
  else pfail not_configured.

Definition writeIbexCryptoReceiveRequest (txHash address amount currency network accountId
    walletId rawPayload : string) : TApp unit :=
  upsert (mkTransferInput ("ibex:" +:+ txHash) Topup TransferSettled amount currency None None
    (Some network) None None None None None None (Some accountId) (Some walletId) None None
    (Some txHash) (Some address) (Some txHash) (Some "crypto.receive") ["ibex_crypto_receive"]
    None (Some rawPayload) None).

(** The request id of a card top-up. *)
Definition fygaro_request (transactionId : string) : string := "fygaro:" +:+ transactionId.

(** The fields the three Fygaro writers share. *)
Definition fygaro_input (transactionId : string) (status : BridgeTransferRequestStatus)
    (amount currency : string) (initialAmount finalAmount processorFee flashFee accountId walletId :
    option string) (sourceSystemsSeen : list string) (firstSeenAt : option Z) (rawPayload : string)
    (failureReason : option string) : BridgeTransferRequestInput :=
  mkTransferInput (fygaro_request transactionId) Topup status amount currency (Some "Fygaro")
    (Some "USD") (Some "Card") None initialAmount None finalAmount processorFee flashFee accountId
    walletId None None None None (Some transactionId) (Some "fygaro.payment") sourceSystemsSeen
    firstSeenAt (Some rawPayload) failureReason.

Definition writeFygaroTopupRequest (transactionId amount currency : string)
    (accountId : option string) (emailAttributed : bool) (createdAt : option Z)
    (rawPayload : string) : TApp unit :=
  upsert (fygaro_input transactionId FiatReceived amount currency None None None None accountId None
    (if emailAttributed then ["fygaro_webhook"; EMAIL_ATTRIBUTION_SOURCE_SYSTEM]
     else ["fygaro_webhook"])
    createdAt rawPayload None).

Definition readFygaroTopupWindowLast24h (accountId : string) (excludeTransactionId : option string) :
    TApp FygaroTopupWindow :=
  if negb erp_configured then
    pfail (new_error FygaroTopupHistoryQueryError "ERPNext client is not configured")
  else
    let* now := Date_now in
    sumFygaroTopupGrossCentsSince accountId (now - 24 * 60 * 60 * 1000)
      (fygaro_request <$> excludeTransactionId).

Definition sumFygaroTopupGrossCentsLast24h (accountId : string)
    (excludeTransactionId : option string) : TApp Z :=
  let* window := readFygaroTopupWindowLast24h accountId excludeTransactionId in
  pret (window_grossCents window).

Record FygaroTopupCompletion := mkCompletion { completed : bool; completion_net : option Z }.

(** The net of a completed row, when its text is a positive number. *)
Definition net_of_row (final : option string) : option Z :=
  dollars ← final;
  x ← js_Number dollars;
  if num_ltb (num_of_Z 0) x then Some (to_cents x) else None.

Definition readFygaroTopupCompletion (transactionId : string) : TApp FygaroTopupCompletion :=
  if negb erp_configured then pret (mkCompletion false None) else
  let* doc := pattempt (findBridgeTransferRequest (fygaro_request transactionId)) in
  pret (match doc with
        | inr (Some doc) =>
            if bool_decide (td_status doc = TransferCompleted)
            then mkCompletion true (net_of_row (td_final_amount doc)) else mkCompletion false None
        | _ => mkCompletion false None
        end).

Definition completeFygaroTopup (transactionId accountId walletId amount currency initialAmount
    processorFee flashFee finalAmount rawPayload : string) : TApp unit :=
  upsert (fygaro_input transactionId TransferCompleted amount currency (Some initialAmount)
    (Some finalAmount) (Some processorFee) (Some flashFee) (Some accountId) (Some walletId)
    ["fygaro_webhook"; "ibex_intraledger_credit"] None rawPayload None).

Definition markFygaroTopupNotCredited (transactionId accountId amount currency reason rawPayload :
    string) : TApp unit :=
  upsert (fygaro_input transactionId FiatReceived amount currency None None None None
    (Some accountId) None ["fygaro_webhook"] None rawPayload (Some reason)).

(** The rows of a cashout; the three writers differ in the status and in whether
    there is a reason. *)
Definition cashout_input (status : BridgeTransferRequestStatus) (transferId amount currency : string)
    (accountId sourceEventId : option string) (sourceEventType rawPayload : string)
    (failureReason : option string) : BridgeTransferRequestInput :=
  mkTransferInput transferId Cashout status amount currency None None None None None None None
    None None accountId None None (Some transferId) None None sourceEventId (Some sourceEventType)
    ["bridge_transfer"] None (Some rawPayload) failureReason.

Definition writeBridgeCashoutPending (transferId amount currency : string)
    (accountId sourceEventId : option string) (sourceEventType rawPayload : string) : TApp unit :=
  upsert (cashout_input TransferPending transferId amount currency accountId sourceEventId
    sourceEventType rawPayload None).

Definition writeBridgeCashoutCompleted (transferId amount currency : string)
    (accountId sourceEventId : option string) (sourceEventType rawPayload : string) : TApp unit :=
  upsert (cashout_input TransferCompleted transferId amount currency accountId sourceEventId
    sourceEventType rawPayload None).

Definition writeBridgeCashoutFailed (transferId amount currency : string)
    (accountId sourceEventId : option string) (sourceEventType rawPayload : string)
    (failureReason : option string) : TApp unit :=
  upsert (cashout_input TransferFailed transferId amount currency accountId sourceEventId
    sourceEventType rawPayload failureReason).

End TransferRequests.

(** ** What an upsert does to the rows *)

(** The row an update leaves. *)
Definition upserted (payload old : transfer_row) : transfer_row :=
  put_row (applyUpdateGuards payload (to_doc old)) old.

(** A new row is the payload, or the payload applied to itself when the answer
    to the creation was lost. *)
Definition upsert_rows (payload : transfer_row) (requestId : string)
    (rows rows' : gmap string transfer_row) : Prop :=
  match rows !! requestId with
  | Some old => rows' = <[requestId := upserted payload old]> rows
  | None => rows' = <[requestId := payload]> rows \/
            rows' = <[requestId := upserted payload payload]> rows
  end.

Section Upsert.
Context `{X : TopupExternal}.

Lemma run_find requestId w :
  t_rows (run (findBridgeTransferRequest requestId) w).2 = t_rows w /\
  match (run (findBridgeTransferRequest requestId) w).1 with
  | Ok doc => doc = to_doc <$> t_rows w !! requestId
  | Err _ => True
  | Throw _ => False
  end.
Proof.
  unfold findBridgeTransferRequest, erp_get, erp. cbn.
  by destruct (erp_fault (t_erp_ops w)) as [[[] e]|]; cbn.
Qed.

Lemma run_put requestId payload w :
  (t_rows (run (erp_put requestId payload) w).2 = t_rows w /\
   (run (erp_put requestId payload) w).1 ≠ Ok tt) \/
  (exists old, t_rows w !! requestId = Some old /\
     t_rows (run (erp_put requestId payload) w).2 = <[requestId := put_row payload old]> (t_rows w)).
Proof.
  unfold erp_put, erp. cbn. destruct (t_rows w !! requestId) as [old|] eqn:Ho;
    destruct (erp_fault (t_erp_ops w)) as [[[] e]|]; cbn; eauto.
Qed.

Lemma run_post requestId payload w :
  (t_rows (run (erp_post requestId payload) w).2 = t_rows w /\
   (run (erp_post requestId payload) w).1 ≠ Ok tt) \/
  (t_rows w !! requestId = None /\
     t_rows (run (erp_post requestId payload) w).2 = <[requestId := payload]> (t_rows w)).
Proof.
  unfold erp_post, erp. cbn. destruct (t_rows w !! requestId) as [old|] eqn:Ho;
    destruct (erp_fault (t_erp_ops w)) as [[[] e]|]; cbn; eauto.
Qed.

Lemma run_post_no_err requestId payload w :
  match (run (erp_post requestId payload) w).1 with Err _ => False | _ => True end.
Proof.
  unfold erp_post, erp. cbn. destruct (t_rows w !! requestId);
    by destruct (erp_fault (t_erp_ops w)) as [[[] ?]|].
Qed.

(** An update on a row just read. *)
Lemma run_guarded_put requestId payload old w o w' :
  t_rows w !! requestId = Some old ->
  run (erp_put requestId (applyUpdateGuards payload (to_doc old))) w = (o, w') ->
  (t_rows w' = t_rows w /\ o ≠ Ok tt) \/
  t_rows w' = <[requestId := upserted payload old]> (t_rows w).
Proof.
  intros Ho Hr. destruct (run_put requestId (applyUpdateGuards payload (to_doc old)) w)
    as [H1|(old' & Ho' & H1)]; rewrite Hr in H1; cbn in *; [by left|right].
  rewrite Ho in Ho'. by injection Ho' as <-.
Qed.

(** The effect of a call: nothing when it fails at the right moment, else the
    rows of an upsert, which a call that succeeds always has. *)
Definition upsert_result (payload : transfer_row) (requestId : string)
    (rows : gmap string transfer_row) (o : outcome error unit) (rows' : gmap string transfer_row) : Prop :=
  (o = Ok tt -> upsert_rows payload requestId rows rows') /\
  (rows' = rows \/ upsert_rows payload requestId rows rows').

Lemma upsert_result_put payload requestId rows old o w w' :
  rows = t_rows w -> t_rows w !! requestId = Some old ->
  run (erp_put requestId (applyUpdateGuards payload (to_doc old))) w = (o, w') ->
  upsert_result payload requestId rows o (t_rows w').
Proof.
  intros -> Ho Hr. unfold upsert_result, upsert_rows. rewrite Ho.
  destruct (run_guarded_put requestId payload old w o w' Ho Hr) as [[-> Hn]|Hp]; [|tauto].
  split; [done|by left].
Qed.

Lemma run_upsert_attempt requestId payload w :
  upsert_result payload requestId (t_rows w) (run (upsert_attempt requestId payload) w).1
    (t_rows (run (upsert_attempt requestId payload) w).2).
Proof.
  unfold upsert_attempt. rewrite run_bind. unfold bind.
  destruct (run_find requestId w) as [Hr Hd].
  destruct (run (findBridgeTransferRequest requestId) w) as [[doc|e|e] w1]; cbn [fst snd] in *;
    [|split; [done|by left]|done]. subst doc.
  destruct (t_rows w !! requestId) as [old|] eqn:Ho; cbn [fmap option_fmap option_map].
  { destruct (run (erp_put requestId _) w1) as [o w'] eqn:Hp. cbn [fst snd].
    eapply upsert_result_put; [symmetry; exact Hr|by rewrite Hr|exact Hp]. }
  rewrite run_catch. unfold catch. pose proof (run_post_no_err requestId payload w1) as Hne.
  destruct (run_post requestId payload w1) as [[Hp Hno]|[_ Hp]];
    destruct (run (erp_post requestId payload) w1) as [[[]|e|e] w2]; cbn [fst snd] in *;
    try done; rewrite Hr in Hp.
  - unfold upsert_raced. destruct (negb (isDuplicateRequestError e)); [split; [done|by left]|].
    rewrite run_bind. unfold bind. destruct (run_find requestId w2) as [Hr2 Hd2].
    destruct (run (findBridgeTransferRequest requestId) w2) as [[doc|e'|e'] w3]; cbn [fst snd] in *;
      rewrite ?Hp in *; [|split; [done|by left]|done]. subst doc. rewrite Ho. cbn.
    rewrite Hr2. split; [done|by left].
  - unfold upsert_result, upsert_rows. rewrite Ho. split; auto.
  - unfold upsert_raced. destruct (negb (isDuplicateRequestError e)).
    { unfold upsert_result, upsert_rows. rewrite Ho. cbn. split; auto. }
    rewrite run_bind. unfold bind. destruct (run_find requestId w2) as [Hr2 Hd2].
    destruct (run (findBridgeTransferRequest requestId) w2) as [[doc|e'|e'] w3]; cbn [fst snd] in *;
      [|unfold upsert_result, upsert_rows; rewrite Ho, Hr2; split; auto|done]. subst doc.
    rewrite Hp, lookup_insert_eq. cbn [fmap option_fmap option_map].
    destruct (run (erp_put requestId _) w3) as [o w'] eqn:Hput. cbn [fst snd].
    assert (t_rows w3 !! requestId = Some payload) as H3 by (rewrite Hr2, Hp; apply lookup_insert_eq).
    destruct (run_guarded_put requestId payload payload w3 o w' H3 Hput) as [[E Hn]|E];
      unfold upsert_result, upsert_rows; rewrite Ho, E, Hr2, Hp, ?insert_insert_eq; split; auto; done.
Qed.

End Upsert.

Lemma run_upsert `{X : TopupExternal} input w :
  exists now, upsert_result (toErpnext now input) (ti_requestId input) (t_rows w)
    (run (upsert input) w).1 (t_rows (run (upsert input) w).2).
Proof.
  unfold upsert. destruct erp_configured; [|exists 0; split; [done|by left]].
  unfold upsertBridgeTransferRequest. rewrite run_bind. unfold bind. rewrite run_Date_now.
  exists (clock (w_reads (t_base w))). rewrite run_catch. unfold catch.
  pose proof (run_upsert_attempt (ti_requestId input)
    (toErpnext (clock (w_reads (t_base w))) input) (set_base (next_read (t_base w)) w)) as Hr.
  cbn [t_rows set_base] in Hr. destruct (run (upsert_attempt _ _) _) as [[o|e|e] w']; [done..|].
  destruct Hr as [_ Hr]. by split.
Qed.

(** ** Rows only move forward *)

Lemma rank_lower s : -1 <= BRIDGE_TRANSFER_STATUS_RANK s.
Proof. unfold BRIDGE_TRANSFER_STATUS_RANK. repeat case_bool_decide; lia. Qed.

Lemma guards_rank payload doc : transaction_type payload = Topup ->
  BRIDGE_TRANSFER_STATUS_RANK (td_status doc) <=
  BRIDGE_TRANSFER_STATUS_RANK (row_status (applyUpdateGuards payload doc)).
Proof.
  intros Ht. unfold applyUpdateGuards. cbn. rewrite bool_decide_true by done. cbn [andb].
  destruct (nonempty (td_status doc)) eqn:Hn; cbn [andb].
  - destruct (Z.ltb_spec (BRIDGE_TRANSFER_STATUS_RANK (row_status payload))
      (BRIDGE_TRANSFER_STATUS_RANK (td_status doc))); lia.
  - destruct (td_status doc); [|done]. apply rank_lower.
Qed.

(** An upsert of a top-up, left to itself, never lowers the status of a row and
    loses none. *)
Theorem topup_status_monotone `{X : TopupExternal} (input : BridgeTransferRequestInput) (w : tworld)
    (id : string) (row : transfer_row) :
  ti_transactionType input = Topup -> t_rows w !! id = Some row ->
  exists row', t_rows (run (upsert input) w).2 !! id = Some row' /\
    BRIDGE_TRANSFER_STATUS_RANK (row_status row) <= BRIDGE_TRANSFER_STATUS_RANK (row_status row').
Proof.
  intros Ht Hrow. destruct (run_upsert input w) as (now & _ & [E|E]); [rewrite E; eauto with lia|].
  unfold upsert_rows in E. destruct (decide (ti_requestId input = id)) as [<-|Hne].
  - rewrite Hrow in E. rewrite E, lookup_insert_eq. eexists. split; [done|]. cbn.
    by apply (guards_rank (toErpnext now input) (to_doc row)).
  - exists row. split; [|lia]. destruct (t_rows w !! ti_requestId input);
      [|destruct E as [E|E]]; rewrite E; by rewrite lookup_insert_ne.
Qed.

Lemma redelivery_row `{X : TopupExternal} input w row :
  ti_transactionType input = Topup -> ti_status input = FiatReceived ->
  ti_walletId input = None -> ti_finalAmount input = None ->
  t_rows w !! ti_requestId input = Some row -> row_status row = TransferCompleted ->
  exists row', t_rows (run (upsert input) w).2 !! ti_requestId input = Some row' /\
    row_status row' = TransferCompleted /\ wallet_id row' = wallet_id row /\
    final_amount row' = final_amount row.
Proof.
  intros Ht Hs Hwl Hf Hrow Hc. destruct (run_upsert input w) as (now & _ & [E|E]); [rewrite E; eauto|].
  unfold upsert_rows in E. rewrite Hrow in E. rewrite E, lookup_insert_eq. eexists. split; [done|].
  cbn. rewrite Hwl, Hf, Ht, Hs, Hc. done.
Qed.

(** A credited row stays credited, with the wallet and the net of the credit,
    when the payment is recorded again or refused late. *)
Theorem redelivery_keeps_credit `{X : TopupExternal} (w : tworld) (tx amount currency raw : string)
    (accountId : option string) (email : bool) (createdAt : option Z) (acc reason : string) (row : transfer_row) :
  t_rows w !! fygaro_request tx = Some row -> row_status row = TransferCompleted ->
  (exists row', t_rows (run (writeFygaroTopupRequest tx amount currency accountId email createdAt raw) w).2
       !! fygaro_request tx = Some row' /\ row_status row' = TransferCompleted /\
     wallet_id row' = wallet_id row /\ final_amount row' = final_amount row) /\
  (exists row', t_rows (run (markFygaroTopupNotCredited tx acc amount currency reason raw) w).2
       !! fygaro_request tx = Some row' /\ row_status row' = TransferCompleted /\
     wallet_id row' = wallet_id row /\ final_amount row' = final_amount row).
Proof. intros Hrow Hc. split; by apply redelivery_row. Qed.

(** ** The window *)

(** The rows that count, and their sum, said at once. *)
Definition counted_rows (rows : list (string * transfer_row)) : list transfer_row :=
  filter (fun row => counted row = true) rows.*2.

Definition total_cents (rows : list transfer_row) : option Z :=
  foldr (fun row acc => c ← row_cents row; s ← acc; Some (c + s)) (Some 0) rows.

Lemma sum_rows_total acc rows :
  match sum_rows acc rows with
  | Ok w => total_cents (counted_rows rows) = Some (window_grossCents w - window_grossCents acc)
  | Err _ => total_cents (counted_rows rows) = None
  | Throw _ => False
  end.
Proof.
  revert acc. induction rows as [|[id row] rows IH]; intros acc; cbn [sum_rows].
  { cbn. f_equal. lia. }
  unfold counted_rows. cbn [fmap list_fmap snd]. rewrite filter_cons.
  destruct (counted row) eqn:Hc; cbn [negb].
  - rewrite decide_True by done. cbn [total_cents foldr].
    change (foldr _ (Some 0) (filter _ rows.*2)) with (total_cents (counted_rows rows)).
    destruct (row_cents row) as [c|]; [|done]. cbn [mbind option_bind].
    specialize (IH (mkWindow (window_grossCents acc + c) (older (oldestCountedMs acc) (last_seen_at row * 1000)))).
    destruct (sum_rows _ rows); [| by rewrite IH|done]. rewrite IH. cbn. f_equal. lia.
  - rewrite decide_False by done. apply IH.
Qed.

(** What the query of a caller at this moment selects. *)
Definition window_rows `{X : TopupExternal} (accountId : string) (exclude : option string)
    (w : tworld) : list (string * transfer_row) :=
  filter (fun p => in_window accountId
    (toFrappeDatetime (clock (w_reads (t_base w)) - 24 * 60 * 60 * 1000)) (fygaro_request <$> exclude) p = true)
    (map_to_list (t_rows w)).

(** The gross of the last day is the sum of the rows that count, each rounded to
    cents; one row without a numeric amount makes it an error, never a smaller
    sum. *)
Theorem window_sum `{X : TopupExternal} (accountId : string) (exclude : option string) (w : tworld) :
  erp_configured = true -> erp_fault (t_erp_ops w) = None ->
  match total_cents (counted_rows (window_rows accountId exclude w)) with
  | Some s => (run (sumFygaroTopupGrossCentsLast24h accountId exclude) w).1 = Ok s
  | None => exists e, (run (sumFygaroTopupGrossCentsLast24h accountId exclude) w).1 = Err e
  end.
Proof.
  intros Hc Hf. unfold sumFygaroTopupGrossCentsLast24h, readFygaroTopupWindowLast24h. rewrite Hc.
  cbn [negb]. rewrite run_bind. unfold bind. rewrite run_bind. unfold bind. rewrite run_Date_now.
  unfold sumFygaroTopupGrossCentsSince. rewrite run_catch. unfold catch. rewrite run_bind.
  unfold bind, erp. rewrite run_atomic. cbn [t_erp_ops set_base t_rows]. rewrite Hf.
  fold (window_rows accountId exclude w).
  pose proof (sum_rows_total (mkWindow 0 None) (window_rows accountId exclude w)) as Hs.
  cbn [run]. destruct (sum_rows _ _) as [win|e|e]; [|rewrite Hs; by eexists|done].
  rewrite Hs. cbn. f_equal. lia.
Qed.

(** ** Attribution by email *)

Lemma strip_end_idem p s : strip_end p (strip_end p s) = strip_end p s.
Proof.
  induction s as [|c s IH]; [done|]. cbn [strip_end]. destruct (strip_end p s) as [|d t].
  - destruct (p c) eqn:Hc; cbn; by rewrite ?Hc.
  - remember (String d t) as u. cbn [strip_end]. rewrite IH. by subst.
Qed.

Lemma strip_start_end p s : strip_start p (strip_end p (strip_start p s)) = strip_end p (strip_start p s).
Proof.
  induction s as [|c s IH]; [done|]. cbn [strip_start]. destruct (p c) eqn:Hc; [done|].
  cbn [strip_end]. destruct (strip_end p s); [rewrite Hc|]; cbn; by rewrite Hc.
Qed.

Lemma js_trim_idem s : js_trim (js_trim s) = js_trim s.
Proof. unfold js_trim. by rewrite strip_start_end, strip_end_idem. Qed.

Lemma no_char_strip_end c p s : no_char c s = true -> no_char c (strip_end p s) = true.
Proof.
  induction s as [|d s IH]; [done|]. cbn. intros [Hd Hs]%andb_true_iff. specialize (IH Hs).
  destruct (strip_end p s); [destruct (p d); [done|]|]; cbn in *; by rewrite Hd.
Qed.

Lemma no_char_strip_start c p s : no_char c s = true -> no_char c (strip_start p s) = true.
Proof.
  induction s as [|d s IH]; [done|]. cbn. intros [Hd Hs]%andb_true_iff.
  destruct (p d); [auto|]. cbn. by rewrite Hd.
Qed.

Lemma split_on_no_char c s : Forall (fun x => no_char c x = true) (split_on c s).
Proof.
  induction s as [|d s IH]; [by repeat constructor|]. cbn. destruct (Ascii.eqb c d) eqn:E.
  - by constructor.
  - destruct (split_on c s) as [|t ts]; [constructor; [cbn; by rewrite E|done]|].
    apply Forall_cons in IH as [Ht Hts]. constructor; [cbn; by rewrite E|done].
Qed.

(** A member of a list of systems, as reading one gives it. *)
Definition clean_system (s : string) : Prop :=
  no_char "," s = true /\ js_trim s = s /\ nonempty s = true.

Lemma systems_clean s : Forall clean_system (systems s).
Proof.
  destruct s as [s|]; [|constructor]. apply Forall_forall. intros x.
  unfold systems. rewrite list_elem_of_filter, list_elem_of_fmap. intros [Hn (y & -> & Hy)].
  split; [|split; [apply js_trim_idem|done]].
  apply no_char_strip_end, no_char_strip_start.
  pose proof (split_on_no_char "," s) as Hf. rewrite Forall_forall in Hf. by apply Hf.
Qed.

Lemma split_join l : l ≠ [] -> Forall clean_system l -> split_on "," (join_comma l) = l.
Proof.
  induction l as [|x [|y l] IH]; [done| |]; intros _ Hl; apply Forall_cons in Hl as [(Hx & _) Hl].
  - by apply split_on_none.
  - change (join_comma (x :: y :: l)) with (x +:+ String "," (join_comma (y :: l))).
    by rewrite split_on_app, IH.
Qed.

Lemma email_row_elem s : isEmailAttributedRow s = true <-> EMAIL_ATTRIBUTION_SOURCE_SYSTEM ∈ systems s.
Proof.
  unfold isEmailAttributedRow, systems. destruct s as [s|]; cbn [default from_option id].
  - rewrite existsb_exists, list_elem_of_filter, list_elem_of_fmap. split.
    + intros (x & Hx & E%bool_decide_eq_true). split; [done|]. exists x. split; [done|].
      by apply list_elem_of_In.
    + intros [_ (x & E & Hx)]. exists x. split; [by apply list_elem_of_In|]. by apply bool_decide_eq_true.
  - cbn. split; [done|]. by intros ?%not_elem_of_nil.
Qed.

Lemma systems_to_systems l : Forall clean_system l -> systems (to_systems l) = l.
Proof.
  intros Hl. destruct l as [|x l]; [done|]. cbn [to_systems systems].
  rewrite split_join by done. revert Hl. generalize (x :: l). clear. intros l Hl.
  induction l as [|x l IH]; [done|]. apply Forall_cons in Hl as [(_ & Ht & Hn) Hl].
  cbn [fmap list_fmap]. rewrite filter_cons, Ht, decide_True by done. f_equal. by apply IH.
Qed.

Lemma elem_of_uniq x l : x ∈ uniq l <-> x ∈ l.
Proof.
  induction l as [|y l IH]; [done|]. cbn. rewrite !elem_of_cons, list_elem_of_filter, IH.
  destruct (decide (x = y)); naive_solver.
Qed.

Lemma clean_filter (P : string -> Prop) `{forall x, Decision (P x)} l :
  Forall clean_system l -> Forall clean_system (filter P l).
Proof. rewrite !Forall_forall. intros Hl x [_ Hx]%list_elem_of_filter. auto. Qed.

(** The marker of a row attributed by email goes exactly when a delivery names an
    account it did not get from the email, and comes only from a delivery that
    did: an update leaves it as it was, or adds the one it brings. *)
Theorem email_marker (payload old : transfer_row) :
  (exists s, s ∈ systems (source_systems_seen payload) /\ s ≠ EMAIL_ATTRIBUTION_SOURCE_SYSTEM) ->
  isEmailAttributedRow (source_systems_seen (upserted payload old)) =
    if truthy (account_id payload) && negb (isEmailAttributedRow (source_systems_seen payload))
    then false
    else isEmailAttributedRow (source_systems_seen old)
         || isEmailAttributedRow (source_systems_seen payload).
Proof.
  intros (s & Hs & Hne). unfold upserted, applyUpdateGuards. cbn -[isEmailAttributedRow].
  set (merged := uniq (systems (source_systems_seen old) ++ systems (source_systems_seen payload))).
  assert (Forall clean_system merged) as Hm.
  { apply Forall_forall. intros x. unfold merged. rewrite elem_of_uniq, elem_of_app.
    intros [Hx|Hx]; revert x Hx; apply Forall_forall, systems_clean. }
  assert (s ∈ merged) as Hsm by (unfold merged; rewrite elem_of_uniq, elem_of_app; auto).
  unfold mergeSourceSystemsSeen. fold merged.
  assert (forall l, s ∈ l -> or_keep (to_systems l) (source_systems_seen old) = to_systems l) as Hk
    by (intros [|] Hl; [by apply not_elem_of_nil in Hl|done]).
  destruct (truthy (account_id payload) && negb _).
  - unfold dropSourceSystem. destruct merged as [|m ms] eqn:Em; [by apply not_elem_of_nil in Hsm|].
    rewrite <- Em in *. replace (Some (default EmptyString (to_systems merged))) with (to_systems merged)
      by (by rewrite Em). rewrite systems_to_systems by done.
    rewrite Hk by (by apply list_elem_of_filter). apply not_true_iff_false.
    rewrite email_row_elem, systems_to_systems by (by apply clean_filter).
    rewrite list_elem_of_filter. tauto.
  - rewrite Hk by done. apply eq_true_iff_eq.
    rewrite orb_true_iff, !email_row_elem, systems_to_systems by done. unfold merged.
    by rewrite elem_of_uniq, elem_of_app.
Qed.
