(* ===== verification/FygaroAuthorize.v ===== *)
(** * Authorising a card top-up

    Model of [src/src/app/fygaro/]: the deploy-level gate
    ([checkout-master-gate.ts]), the authorisation that signs a checkout and
    reserves its amount ([authorize-topup.ts]), the allowance it leaves
    ([topup-allowance.ts]) and the status of a payment ([topup-status.ts]); and of
    the two cached readers of operator settings
    ([services/fygaro/webhook-server/fygaro-settings.ts],
    [services/frappe/fee-discounts.ts]). *)

From stdpp Require Import base gmap list strings.
From Stdlib Require Import ZArith Lia.
From S2P Require Import Prelude JsStrings JsNumbers Processes Errors World.
From S2P Require Import FygaroGate FygaroCheckout TopupWorld FygaroIntents TransferRequests.

Open Scope Z_scope.
Open Scope flash_scope.

(** ** Operator settings *)

Definition CACHE_TTL_MS : Z := 60000.

(** A cached value that is still fresh. *)
Definition fresh {A} (now : Z) (cache : option (A * Z)) : option A :=
  '(value, at_) ← cache; if now - at_ <? CACHE_TTL_MS then Some value else None.

Definition validateFeeDiscountDoc (doc : FeeDiscountDoc) : option (string * FeeDiscount) :=
  if negb (toBoolean (dd_active doc)) then None else
  let username := match dd_username doc with SText s => str_lower (js_trim s) | _ => EmptyString end in
  if negb (nonempty username) then None else
  percent ← toFiniteNumber (dd_discount_percent doc);
  if num_ltb percent (num_of_Z 0) || num_ltb (num_of_Z 100) percent then None
  else Some (username, mkDiscount percent (toBoolean (dd_applies_to_topup doc))
                         (toBoolean (dd_applies_to_cashout doc))).

(** A later row of a username replaces an earlier one. *)
Definition discounts_of (docs : list FeeDiscountDoc) : gmap string FeeDiscount :=
  foldl (fun m doc =>
    match validateFeeDiscountDoc doc with Some (u, d) => <[u := d]> m | None => m end) ∅ docs.

Inductive FeeDiscountFlow := TopupFlow | CashoutFlow.

Section Settings.
Context `{X : TopupExternal}.

Definition erp_getFygaroSettings : TApp FygaroSettingsDoc :=
  pcatch
    (let* data := erp_query erp_settings in
     match data with
     | None => pfail (new_error FygaroSettingsQueryError "No data in Fygaro Settings response")
     | Some doc => pret doc
     end)
    (fun e => pfail (new_error FygaroSettingsQueryError (err_message e))).

(** Both answers and failures are kept for a minute. *)
Definition getFygaroSettings : TApp (option FygaroSettings) :=
  let* now := Date_now in
  let* cache := peek t_settings in
  match fresh now cache with
  | Some value => pret value
  | None =>
      let* doc :=
        if erp_configured then
          let* doc := pattempt erp_getFygaroSettings in
          pret (match doc with inr d => Some d | inl _ => None end)
        else pret None in
      let validated := d ← doc; validateFygaroSettings d in
      poke (set_settings (Some (validated, now))) ;;;
      pret validated
  end.

Definition erp_getFeeDiscounts : TApp (list FeeDiscountDoc) :=
  pcatch
    (let* data := erp_query erp_discounts in
     match data with
     | None => pfail (new_error FeeDiscountQueryError "No data in Fee Discount response")
     | Some docs => pret docs
     end)
    (fun e => pfail (new_error FeeDiscountQueryError (err_message e))).

Definition loadDiscounts : TApp (gmap string FeeDiscount) :=
  let* now := Date_now in
  let* cache := peek t_discounts in
  match fresh now cache with
  | Some value => pret value
  | None =>
      let* docs := if erp_configured then pattempt erp_getFeeDiscounts else pret (inr []) in
      let byUsername := match docs with inr docs => discounts_of docs | inl _ => ∅ end in
      poke (set_discounts (Some (byUsername, now))) ;;;
      pret byUsername
  end.

Definition getFlashFeeDiscountPercent (username : option string) (flow : FeeDiscountFlow) :
    TApp js_num :=
  match username with
  | None => pret (num_of_Z 0)
  | Some u =>
      if negb (nonempty u) then pret (num_of_Z 0) else
      pcatch
        (let* discounts := loadDiscounts in
         pret (match discounts !! str_lower (js_trim u) with
               | None => num_of_Z 0
               | Some d =>
                   if match flow with TopupFlow => appliesToTopup d | CashoutFlow => appliesToCashout d end
                   then discountPercent d else num_of_Z 0
               end))
        (fun _ => pret (num_of_Z 0))
  end.

End Settings.

(** ** The master gate *)

Record FygaroCheckoutMaster := mkMaster {
  mg_buttonUrl : string;
  mg_keyId : string;
  mg_secret : string;
  mg_ttlSeconds : Z
}.

Definition DEFAULT_TTL_SECONDS : Z := 900.

(** [None]: checkout is disabled. *)
Definition fygaroCheckoutMasterGate (c : FygaroConfig) : option FygaroCheckoutMaster :=
  if negb (fygaro_enabled c) || negb (credit_enabled c) then None else
  if negb (checkout_enabled c) || negb (nonempty (checkout_buttonUrl c))
     || negb (nonempty (checkout_keyId c)) then None else
  if negb (truthy (webhook_secrets c !! checkout_keyId c)) then None else
  Some (mkMaster (checkout_buttonUrl c) (checkout_keyId c)
    (default EmptyString (webhook_secrets c !! checkout_keyId c))
    (default DEFAULT_TTL_SECONDS (checkout_ttlSeconds c))).

(** ** Authorising *)

Inductive AuthorizeTopupFailure :=
| CheckoutDisabled | SettingsUnavailable | BelowMinimum | AboveSinglePaymentLimit
| ExceedsDailyAllowance | NoDailyLimitForLevel | NonPositiveNet | HistoryUnavailable
| ReservationsUnavailable | CheckoutAlreadyOpen.

#[global] Instance AuthorizeTopupFailure_eq_dec : EqDecision AuthorizeTopupFailure.
Proof. solve_decision. Defined.

Record AuthorizeTopupRefusal := mkRefusal {
  rf_reason : AuthorizeTopupFailure;
  rf_remainingAllowanceCents : option Z;
  rf_limitCents : option Z;
  rf_minimumCents : option Z;
  rf_holdExpiresAt : option Z;
  rf_holdAmountCents : option Z
}.

Inductive AuthorizeTopupResult :=
| Authorized (checkout : FygaroCheckout) (remainingAllowanceCents : Z) (reused : bool)
| Refused (refusal : AuthorizeTopupRefusal).

Definition FAILURE_BY_GATE_REASON (reason : RecordOnlyReason) : AuthorizeTopupFailure :=
  match reason with
  | credit_disabled | auto_credit_disabled | non_usd | intent_mismatch => CheckoutDisabled
  | settings_unavailable => SettingsUnavailable
  | history_unavailable => HistoryUnavailable
  | over_limit => AboveSinglePaymentLimit
  | no_daily_limit_for_level => NoDailyLimitForLevel
  | daily_limit_exceeded => ExceedsDailyAllowance
  | non_positive_net => NonPositiveNet
  | under_minimum => BelowMinimum
  end.

(** What the refusals of one request share. *)
Record limits := mkLimits {
  minimumCents : option Z;
  singleLimitCents : option Z;
  dailyLimitCents : option Z
}.

Definition limits_of (settings : option FygaroSettings) (level : Z) : limits :=
  mkLimits (to_cents ∘ minimumTopup <$> settings) (to_cents ∘ autoCreditLimit <$> settings)
    (s ← settings; to_cents <$> dailyTopupLimits s level).

Definition refuseWith (l : limits) (reason : AuthorizeTopupFailure)
    (remaining limitCents : option Z) : AuthorizeTopupRefusal :=
  mkRefusal reason remaining (nullish limitCents (dailyLimitCents l)) (minimumCents l) None None.

Definition refuse (l : limits) (reason : RecordOnlyReason) (remaining : option Z) :
    AuthorizeTopupRefusal :=
  refuseWith l (FAILURE_BY_GATE_REASON reason) remaining
    (if bool_decide (reason = over_limit) then singleLimitCents l else dailyLimitCents l).

(** The hold that lifts first, the earlier one among equals. *)
Definition soonest (reservations : list FygaroReservation) : option FygaroReservation :=
  foldl (fun earliest r =>
    match earliest with
    | None => Some r
    | Some e => if rv_expiresAtMs r <? rv_expiresAtMs e then Some r else Some e
    end) None reservations.

(** Whether an open link may be handed out again. *)
Definition reofferable (accountId : string) (nowMs : Z) (i : FygaroCheckoutIntent) :
    option (string * Z) :=
  if bool_decide (i_accountId i = accountId) && bool_decide (i_outcome i = None) then
    url ← i_checkoutUrl i;
    expiresAt ← i_expiresAtMs i;
    if nowMs <? expiresAt then Some (url, expiresAt) else None
  else None.

Section Authorize.
Context `{X : TopupExternal}.

(** [refuseTransient]: a dependency of the check is down, and people are told. *)
Definition refuseTransient (l : limits) (reason : AuthorizeTopupFailure) (key : string) :
    TApp AuthorizeTopupResult :=
  emit (Alert Warning ("fygaro:authorize-unavailable:" +:+ key)) ;;;
  pret (Refused (refuseWith l reason None None)).

Definition refuseOpenCheckout (l : limits) (accountId : string) (nowMs : Z)
    (reservations : list FygaroReservation) (amountCents dailyLimit remaining : Z) :
    TApp AuthorizeTopupResult :=
  let* offer :=
    match list_find (fun r => rv_amountCents r = amountCents) reservations with
    | None => pret None
    | Some (_, r) =>
        let* open := readIntent (rv_intentId r) in
        pret (match open with
              | IntentFound i => pair i <$> reofferable accountId nowMs i
              | IntentMissing _ => None
              end)
    end in
  match offer with
  | Some (i, (url, expiresAt)) =>
      pret (Authorized (mkCheckout url expiresAt
        (buildCustomReference (i_username i) (Some (i_intentId i))) (i_intentId i)) remaining true)
  | None =>
      let r := refuseWith l CheckoutAlreadyOpen (Some remaining) (Some dailyLimit) in
      pret (Refused (mkRefusal (rf_reason r) (rf_remainingAllowanceCents r) (rf_limitCents r)
        (rf_minimumCents r) (rv_expiresAtMs <$> soonest reservations)
        (rv_amountCents <$> soonest reservations)))
  end.

(** The rest of an authorisation the gate allowed: sign, reserve, and check
    again. *)
Definition mint_checkout (l : limits) (master : FygaroCheckoutMaster) (accountId username : string)
    (amountCents nowMs priorCents allowanceCents : Z) : TApp AuthorizeTopupResult :=
  let* bytes := randomBytes12 in
  let intentId := newIntentId bytes in
  let checkout := buildFygaroCheckout hmac_sha256 (mg_buttonUrl master) username intentId
    amountCents "USD" (mg_keyId master) (mg_secret master) (mg_ttlSeconds master) nowMs in
  let intent := mkIntent intentId accountId username amountCents "USD" nowMs
    (Some (co_url checkout)) (Some (co_expiresAt checkout)) None in
  let* saved := pattempt (saveIntent intent (mg_ttlSeconds master)) in
  if match saved with inl e => bool_decide (err_class e = FygaroReservationWriteError) | inr _ => false end
  then refuseTransient l ReservationsUnavailable "reservations-unavailable" else
  let* after := pattempt (readOutstandingReservations accountId nowMs) in
  match after, dailyLimitCents l with
  | inr reservations, Some dailyLimit =>
      let outstandingAfter := held_cents reservations in
      if dailyLimit <? priorCents + outstandingAfter then
        releaseIntentReservation accountId intentId amountCents ;;;
        pret (Refused (mkRefusal ExceedsDailyAllowance
          (Some (Z.max 0 (dailyLimit - priorCents - (outstandingAfter - amountCents))))
          (Some dailyLimit) None None None))
      else pret (Authorized checkout (allowanceCents - amountCents) false)
  | _, _ => pret (Authorized checkout (allowanceCents - amountCents) false)
  end.

(** The decision, once the history and the reservations are known. *)
Definition authorize_against (l : limits) (master : FygaroCheckoutMaster)
    (settings : option FygaroSettings) (accountId username : string)
    (level amountCents nowMs priorCents : Z) (reservations : list FygaroReservation) :
    TApp AuthorizeTopupResult :=
  let outstandingCents := held_cents reservations in
  let* discount := getFlashFeeDiscountPercent (Some username) TopupFlow in
  let spentCents := priorCents + outstandingCents in
  let remaining := (fun d => Z.max 0 (d - spentCents)) <$> dailyLimitCents l in
  match evaluateCreditGate
          (mkGateArgs true "USD" settings amountCents level (Some spentCents) discount) with
  | RecordOnly reason =>
      match bool_decide (reason = daily_limit_exceeded), dailyLimitCents l with
      | true, Some dailyLimit =>
          if priorCents + amountCents <=? dailyLimit
          then refuseOpenCheckout l accountId nowMs reservations amountCents dailyLimit
                 (default 0 remaining)
          else pret (Refused (refuse l reason remaining))
      | _, _ => pret (Refused (refuse l reason remaining))
      end
  | Credit _ =>
      mint_checkout l master accountId username amountCents nowMs priorCents (default 0 remaining)
  end.

Definition authorizeFygaroTopup (accountId username : string) (level amountCents nowMs : Z) :
    TApp AuthorizeTopupResult :=
  match fygaroCheckoutMasterGate fygaroConfig with
  | None => pret (Refused (mkRefusal CheckoutDisabled None None None None None))
  | Some master =>
      let* settings := getFygaroSettings in
      let l := limits_of settings level in
      match evaluateCreditGate (mkGateArgs true "USD" settings amountCents level None (num_of_Z 0)) with
      | RecordOnly settings_unavailable => refuseTransient l SettingsUnavailable "settings-unavailable"
      | RecordOnly history_unavailable | Credit _ =>
          let* prior := pattempt (sumFygaroTopupGrossCentsLast24h accountId None) in
          match prior with
          | inl _ => refuseTransient l HistoryUnavailable "history-unavailable"
          | inr priorCents =>
              let* reservations := pattempt (readOutstandingReservations accountId nowMs) in
              match reservations with
              | inl _ => refuseTransient l ReservationsUnavailable "reservations-unavailable"
              | inr reservations =>
                  authorize_against l master settings accountId username level amountCents nowMs
                    priorCents reservations
              end
          end
      | RecordOnly reason => pret (Refused (refuse l reason None))
      end
  end.

End Authorize.

(** ** The allowance *)

Record FygaroTopupAllowance := mkAllowance {
  al_limitCents : Z;
  al_spentCents : Z;
  al_heldCents : Z;
  al_remainingCents : Z;
  al_singlePaymentLimitCents : Z;
  al_minimumCents : Z;
  al_resetsAt : option Z;
  al_holdsExpireAt : option Z
}.

Inductive FygaroTopupAllowanceResult :=
| Available (allowance : FygaroTopupAllowance)
| Unavailable (reason : AuthorizeTopupFailure).

Definition DAY_MS : Z := 24 * 60 * 60 * 1000.

Definition soonestHoldExpiryMs (reservations : list FygaroReservation) : option Z :=
  foldl (fun soonest r =>
    Some (match soonest with
          | None => rv_expiresAtMs r
          | Some s => Z.min s (rv_expiresAtMs r)
          end)) None reservations.

(** ** The status of a payment *)

Inductive FygaroTopupState :=
| state_unconfirmed | state_processing | state_credited | state_held_for_review | state_failed.

#[global] Instance FygaroTopupState_eq_dec : EqDecision FygaroTopupState.
Proof. solve_decision. Defined.

Record FygaroTopupStatus := mkTopupStatus {
  st_state : FygaroTopupState;
  st_authorizedAmountCents : option Z;
  st_netAmountCents : option Z;
  st_reason : option string;
  st_detailCents : option Z
}.

Inductive FygaroTopupStatusResult :=
| StatusFound (status : FygaroTopupStatus)
| StatusMissing (unavailable : bool).

(** [STATE_BY_OUTCOME[state]]; a state of another build has none. *)
Definition STATE_BY_OUTCOME (state : FygaroTopupOutcomeState) : option FygaroTopupState :=
  match state with
  | outcome_received => Some state_processing
  | outcome_credited => Some state_credited
  | outcome_held_for_review => Some state_held_for_review
  | outcome_failed => Some state_failed
  | outcome_unknown _ => None
  end.

Definition stateFor (outcome : option FygaroTopupOutcome) : FygaroTopupState :=
  match outcome with
  | None => state_unconfirmed
  | Some o => default state_unconfirmed (STATE_BY_OUTCOME (o_state o))
  end.

Definition recognisedOutcome (outcome : option FygaroTopupOutcome) : option FygaroTopupOutcome :=
  o ← outcome; if STATE_BY_OUTCOME (o_state o) then Some o else None.

Section Queries.
Context `{X : TopupExternal}.

Definition getFygaroTopupAllowance (accountId : string) (level nowMs : Z) :
    TApp FygaroTopupAllowanceResult :=
  match fygaroCheckoutMasterGate fygaroConfig with
  | None => pret (Unavailable CheckoutDisabled)
  | Some _ =>
      let* settings := getFygaroSettings in
      match settings with
      | None => pret (Unavailable SettingsUnavailable)
      | Some settings =>
          if negb (autoCreditEnabled settings) then pret (Unavailable CheckoutDisabled) else
          match dailyTopupLimits settings level with
          | None => pret (Unavailable NoDailyLimitForLevel)
          | Some dailyLimitUsd =>
              let limitCents := to_cents dailyLimitUsd in
              let* window := pattempt (readFygaroTopupWindowLast24h accountId None) in
              match window with
              | inl _ => pret (Unavailable HistoryUnavailable)
              | inr window =>
                  let* reservations := pattempt (readOutstandingReservations accountId nowMs) in
                  match reservations with
                  | inl _ => pret (Unavailable ReservationsUnavailable)
                  | inr reservations =>
                      let heldCents := held_cents reservations in
                      pret (Available (mkAllowance limitCents (window_grossCents window) heldCents
                        (Z.max 0 (limitCents - window_grossCents window - heldCents))
                        (to_cents (autoCreditLimit settings)) (to_cents (minimumTopup settings))
                        ((fun ms => ms + DAY_MS) <$> oldestCountedMs window)
                        (soonestHoldExpiryMs reservations)))
                  end
              end
          end
      end
  end.

Definition getFygaroTopupStatus (intentId accountId : string) : TApp FygaroTopupStatusResult :=
  let* lookup := readIntent intentId in
  match lookup with
  | IntentMissing unavailable => pret (StatusMissing unavailable)
  | IntentFound intent =>
      if negb (bool_decide (i_accountId intent = accountId)) then pret (StatusMissing false) else
      let known := recognisedOutcome (i_outcome intent) in
      pret (StatusFound (mkTopupStatus (stateFor (i_outcome intent)) (Some (i_amountCents intent))
        (o ← known; o_netAmountCents o) (o ← known; o_reason o) (o ← known; o_detailCents o)))
  end.

End Queries.
