(* ===== verification/FygaroReservations.v ===== *)
(** * No over-issue

    The reservation protocol of [src/src/app/fygaro/authorize-topup.ts] under
    concurrency: however the requests of one account interleave, the links they
    are handed together with what was already spent stay within the daily cap,
    as long as Redis answers and its keys outlive the requests. *)

From stdpp Require Import base gmap list strings sorting.
From Stdlib Require Import ZArith Lia.
From S2P Require Import Prelude JsStrings JsNumbers Processes Errors World.
From S2P Require Import FygaroGate FygaroCheckout TopupWorld FygaroIntents TransferRequests.
From S2P Require Import FygaroAuthorize.

Open Scope Z_scope.
Open Scope flash_scope.

(** ** What a set of holds amounts to *)

Definition held (z : gmap hold_member Z) : Z := held_cents (to_reservations (map_to_list z)).

Lemma amount_nonneg m : 0 <= reservationAmountCents m.
Proof.
  unfold reservationAmountCents. destruct (js_Number _) as [x|]; [|done]. rewrite num_pos.
  destruct (Z.ltb_spec 0 (mant x)); [|done]. unfold num_to_Z.
  destruct (Z.leb_spec 0 (expo x)); [apply Z.mul_nonneg_nonneg|apply Z.div_pos]; lia.
Qed.

Lemma held_cons m s l :
  held_cents (to_reservations ((m, s) :: l)) =
  reservationAmountCents m + held_cents (to_reservations l).
Proof.
  pose proof (amount_nonneg m). unfold to_reservations. cbn [omap list_omap].
  fold (to_reservations l). destruct (Z.leb_spec (reservationAmountCents m) 0); [|done].
  replace (reservationAmountCents m) with 0 by lia. done.
Qed.

Lemma held_perm l l' : l ≡ₚ l' -> held_cents (to_reservations l) = held_cents (to_reservations l').
Proof.
  induction 1 as [|[m s] l l' _ IH|[m s] [m' s'] l|]; rewrite ?held_cons; try done; lia.
Qed.

Lemma held_zrange z : held_cents (to_reservations (zrange z)) = held z.
Proof. apply held_perm, merge_sort_Permutation. Qed.

Lemma held_insert z m s : z !! m = None -> held (<[m := s]> z) = reservationAmountCents m + held z.
Proof. intros Hm. unfold held. rewrite <- (held_cons m s). by apply held_perm, map_to_list_insert. Qed.

Lemma held_delete z m s : z !! m = Some s -> held z = reservationAmountCents m + held (delete m z).
Proof.
  intros Hm. rewrite <- (insert_delete_id z m s) at 1 by done.
  rewrite held_insert; [done|apply lookup_delete_eq].
Qed.

Lemma held_nonneg z : 0 <= held z.
Proof.
  unfold held. induction (map_to_list z) as [|[m s] l IH]; [done|]. rewrite held_cons.
  pose proof (amount_nonneg m). lia.
Qed.

(** Distinct members of the set weigh no more than the set. *)
Lemma held_members z ms : NoDup ms -> (forall m, m ∈ ms -> is_Some (z !! m)) ->
  foldr (fun m sum => reservationAmountCents m + sum) 0 ms <= held z.
Proof.
  revert z. induction ms as [|m ms IH]; intros z Hnd Hz; cbn [foldr]; [apply held_nonneg|].
  apply NoDup_cons in Hnd as [Hm Hnd]. destruct (Hz m) as [s Hs]; [by left|].
  rewrite (held_delete z m s Hs). enough (foldr (fun m sum => reservationAmountCents m + sum) 0 ms
    <= held (delete m z)) by lia.
  apply IH; [done|]. intros m' Hm'. rewrite lookup_delete_ne by (by intros ->). apply Hz. by right.
Qed.

Lemma NoDup_omap {A B} (f : A -> option B) (l : list A) :
  (forall i j a b x, l !! i = Some a -> l !! j = Some b -> f a = Some x -> f b = Some x -> i = j) ->
  NoDup (omap f l).
Proof.
  induction l as [|a l IH]; intros H; [constructor|].
  assert (NoDup (omap f l)) as Hl.
  { apply IH. intros i j a' b' x Hi Hj Ha Hb. by injection (H (S i) (S j) a' b' x Hi Hj Ha Hb). }
  cbn. destruct (f a) as [x|] eqn:Ha; [|done]. constructor; [|done].
  intros (b & Hb & Hx)%list_elem_of_omap. apply list_elem_of_lookup in Hb as [j Hj].
  by specialize (H O (S j) a b x eq_refl Hj Ha Hx).
Qed.

(** ** The protocol *)

(** A request has drawn its random bytes, holds its amount, was handed its link,
    or has let go of its hold. *)
Inductive ghost :=
| Idle | Drawn (n : nat) | Holding (n : nat) (a : Z) | Issued (n : nat) (a : Z) | Gone.

Definition owner (s : ghost) : option nat :=
  match s with Idle | Gone => None | Drawn n | Holding n _ | Issued n _ => Some n end.
Definition hold (s : ghost) : option (nat * Z) :=
  match s with Holding n a | Issued n a => Some (n, a) | _ => None end.
Definition issue_amount (s : ghost) : Z := match s with Issued _ a => a | _ => 0 end.
Definition drew (s : ghost) : Z := match s with Idle => 0 | _ => 1 end.
Definition issued : list ghost -> Z := total issue_amount.

Section NoOverIssue.
Context `{X : TopupExternal}.
(** One account, its cap and what it has spent; each request has a username, an
    amount and the time it arrived. *)
Variables (acc : string) (level L P ttl : Z) (reqs : list (string * Z * Z)).
Variable rows : gmap string transfer_row.
(** The requests draw their ids from here on, each at most one. *)
Variable first : nat.

Definition member (n : nat) (a : Z) : hold_member := reservationMember (newIntentId (random_bytes n)) a.
Definition lasting (score : Z) : Prop := forall u a t, (u, a, t) ∈ reqs -> t < score.
Definition amount_of (i : nat) : option Z := (fun r => r.1.2) <$> reqs !! i.

(** The ids drawn are distinct, there are no more of them than requests, and
    every hold is in the set of the account. *)
Definition holds_ok (z : gmap hold_member Z) (k : nat) (ss : list ghost) : Prop :=
  (forall i s n, ss !! i = Some s -> owner s = Some n -> (first <= n < k)%nat) /\
  (forall i j s s' n, ss !! i = Some s -> ss !! j = Some s' -> owner s = Some n ->
     owner s' = Some n -> i = j) /\
  (forall i s n a, ss !! i = Some s -> hold s = Some (n, a) ->
     0 < a <= 2 ^ 53 /\ exists score, z !! member n a = Some score /\ lasting score) /\
  Z.of_nat first <= Z.of_nat k <= Z.of_nat first + total drew ss /\ length ss = length reqs.

(** The links handed out are for the amounts asked, and fit under the cap. *)
Definition ghosts_ok (z : gmap hold_member Z) (k : nat) (ss : list ghost) : Prop :=
  holds_ok z k ss /\ (forall i n a, ss !! i = Some (Issued n a) -> amount_of i = Some a) /\
  (issued ss = 0 \/ issued ss + P <= L).

Definition drawable (n : nat) : Prop := (first <= n < first + length reqs)%nat.

Lemma owner_drawable z k ss i s n : holds_ok z k ss -> ss !! i = Some s -> owner s = Some n ->
  drawable n.
Proof.
  intros (H1 & _ & _ & Hk & Hlen) Hi Ho. specialize (H1 i s n Hi Ho).
  assert (total drew ss <= Z.of_nat (length ss)).
  { clear. induction ss as [|[] ss IH]; [done|cbn; fold (total drew ss); lia..]. }
  unfold drawable. lia.
Qed.

Hypothesis ids_distinct : forall n m, drawable n -> drawable m ->
  newIntentId (random_bytes n) = newIntentId (random_bytes m) -> n = m.

Lemma member_inj n a n' a' : drawable n -> drawable n' -> member n a = member n' a' -> n = n'.
Proof. intros Hn Hn' [= _ E]. by apply ids_distinct. Qed.

Lemma member_amount n a : 0 < a <= 2 ^ 53 -> reservationAmountCents (member n a) = a.
Proof. intros Ha. apply reservation_member_roundtrip. lia. Qed.

Lemma ghosts_prune z k ss u a t : (u, a, t) ∈ reqs -> ghosts_ok z k ss ->
  ghosts_ok (filter (fun p => t < p.2) z) k ss.
Proof.
  intros Ht ((H1 & H2 & H3 & H6) & H4 & H5). split_and!; [|done..]. split; [done|]. split; [done|].
  split; [|done]. intros i s n a' Hi Hh. destruct (H3 i s n a' Hi Hh) as (Ha & score & Hs & Hl).
  split; [done|]. exists score. split; [|done]. apply map_lookup_filter_Some. split; [done|].
  by apply (Hl u a t).
Qed.

(** Replacing one ghost state: the conditions that are pointwise. *)
Lemma lookup_insert_cases {A} (l : list A) i j (x y : A) :
  <[i := x]> l !! j = Some y -> (j = i /\ y = x) \/ (j ≠ i /\ l !! j = Some y).
Proof.
  intros Hl. destruct (decide (j = i)) as [->|Hne].
  - left. by apply list_lookup_insert_Some in Hl as [(_ & -> & _)|[? _]].
  - right. by rewrite list_lookup_insert_ne in Hl.
Qed.

(** The ids used up, when one ghost state is replaced. *)
Lemma drawn_insert k k' ss i s s' : ss !! i = Some s ->
  Z.of_nat first <= Z.of_nat k <= Z.of_nat first + total drew ss /\ length ss = length reqs ->
  (k <= k')%nat -> Z.of_nat k' - drew s' <= Z.of_nat k - drew s ->
  Z.of_nat first <= Z.of_nat k' <= Z.of_nat first + total drew (<[i := s']> ss) /\
  length (<[i := s']> ss) = length reqs.
Proof. intros Hi [Hk Hlen] Hle Hd. rewrite (total_insert _ _ _ _ _ Hi), length_insert. lia. Qed.

Lemma ghosts_draw z k ss i : ghosts_ok z k ss -> ss !! i = Some Idle ->
  ghosts_ok z (S k) (<[i := Drawn k]> ss).
Proof.
  intros ((H1 & H2 & H3 & H6) & H4 & H5) Hi. split; [split; [|split; [|split]]|split].
  - intros j s n [[-> ->]|[_ Hj]]%lookup_insert_cases Ho; cbn in *; simplify_eq; [lia|].
    specialize (H1 j s n Hj Ho). lia.
  - intros j j' s s' n [[-> ->]|[Hn Hj]]%lookup_insert_cases [[-> ->]|[Hn' Hj']]%lookup_insert_cases Ho Ho';
      cbn in *; simplify_eq; [done| | |by eauto].
    + specialize (H1 j' s' _ Hj' Ho'). lia.
    + specialize (H1 j s _ Hj Ho). lia.
  - intros j s n a [[-> ->]|[_ Hj]]%lookup_insert_cases Ho; [done|eauto].
  - apply (drawn_insert k _ _ _ _ _ Hi); [done|lia|]. cbn. lia.
  - intros j n a [[_ ?]|[_ Hj]]%lookup_insert_cases; [done|eauto].
  - unfold issued. rewrite (total_insert _ _ _ _ _ Hi). cbn. fold (issued ss). destruct H5; [left|right]; lia.
Qed.

Lemma ghosts_hold z k ss i n a score : ghosts_ok z k ss -> ss !! i = Some (Drawn n) ->
  0 < a <= 2 ^ 53 -> lasting score ->
  ghosts_ok (<[member n a := score]> z) k (<[i := Holding n a]> ss).
Proof.
  intros ((H1 & H2 & H3 & H6) & H4 & H5) Hi Ha Hl. split; [split; [|split; [|split]]|split].
  - intros j s m [[-> ->]|[_ Hj]]%lookup_insert_cases Ho; cbn in *; simplify_eq; [|eauto].
    by apply (H1 i (Drawn m) m).
  - intros j j' s s' m [[-> ->]|[Hn Hj]]%lookup_insert_cases [[-> ->]|[Hn' Hj']]%lookup_insert_cases Ho Ho';
      cbn in *; simplify_eq; [done| | |by eauto].
    + by apply (H2 i j' (Drawn m) s' m).
    + by apply (H2 j i s (Drawn m) m).
  - intros j s m a' [[-> ->]|[Hn Hj]]%lookup_insert_cases Ho; cbn in *; simplify_eq.
    + split; [done|]. exists score. split; [apply lookup_insert_eq|done].
    + destruct (H3 j s m a' Hj Ho) as (Ha' & sc & Hs & Hl'). split; [done|].
      destruct (decide (member n a = member m a')) as [E|E].
      * exists score. rewrite E. split; [apply lookup_insert_eq|done].
      * exists sc. by rewrite lookup_insert_ne.
  - by apply (drawn_insert k _ _ _ _ _ Hi).
  - intros j m a' [[_ ?]|[_ Hj]]%lookup_insert_cases; [done|eauto].
  - unfold issued. rewrite (total_insert _ _ _ _ _ Hi). cbn. fold (issued ss). destruct H5; [left|right]; lia.
Qed.

Lemma ghosts_release z k ss i n a : ghosts_ok z k ss -> ss !! i = Some (Holding n a) ->
  ghosts_ok (delete (member n a) z) k (<[i := Gone]> ss).
Proof.
  intros (HG & H4 & H5) Hi. pose proof HG as (H1 & H2 & H3 & H6).
  destruct (H3 i _ n a Hi eq_refl) as (Ha & _).
  split; [split; [|split; [|split]]|split].
  - intros j s m [[-> ->]|[_ Hj]]%lookup_insert_cases Ho; [done|eauto].
  - intros j j' s s' m [[-> ->]|[Hn Hj]]%lookup_insert_cases [[-> ->]|[Hn' Hj']]%lookup_insert_cases Ho Ho';
      [done..|by eauto].
  - intros j s m a' [[-> ->]|[Hn Hj]]%lookup_insert_cases Ho; [done|].
    destruct (H3 j s m a' Hj Ho) as (Ha' & sc & Hs & Hl'). split; [done|]. exists sc.
    assert (owner s = Some m) as Hm by (by destruct s; simplify_eq/=).
    rewrite lookup_delete_ne; [done|]. intros E. apply member_inj in E;
      [|exact (owner_drawable _ _ _ _ _ _ HG Hi eq_refl)|exact (owner_drawable _ _ _ _ _ _ HG Hj Hm)].
    subst m. by apply Hn, (H2 j i s _ n Hj Hi).
  - by apply (drawn_insert k _ _ _ _ _ Hi).
  - intros j m a' [[_ ?]|[_ Hj]]%lookup_insert_cases; [done|eauto].
  - unfold issued. rewrite (total_insert _ _ _ _ _ Hi). cbn. fold (issued ss). destruct H5; [left|right]; lia.
Qed.

(** The links handed out are distinct members of the set. *)
Lemma issued_held z k ss : holds_ok z k ss -> issued ss <= held z.
Proof.
  intros HG. pose proof HG as (H1 & H2 & H3 & _).
  set (f := fun s => match s with Issued n a => Some (member n a) | _ => None end).
  assert (forall i s, ss !! i = Some s -> forall m, f s = Some m ->
    is_Some (z !! m) /\ reservationAmountCents m = issue_amount s) as Hf.
  { intros i s Hi m Hm. destruct s; simplify_eq/=.
    destruct (H3 i _ n a Hi eq_refl) as (Ha & sc & Hs & _). split; [by eexists|]. by apply member_amount. }
  replace (issued ss) with (foldr (fun m sum => reservationAmountCents m + sum) 0 (omap f ss)).
  - apply held_members.
    + apply NoDup_omap. intros i j s s' m Hi Hj Hs Hs'. destruct s, s'; try done.
      injection Hs as <-. pose proof (inj Some (member n0 a0) (member n a) Hs') as E.
      destruct (H3 i _ n a Hi eq_refl) as (Ha & _). destruct (H3 j _ n0 a0 Hj eq_refl) as (Ha0 & _).
      apply member_inj in E; [|exact (owner_drawable _ _ _ _ _ _ HG Hj eq_refl)
        |exact (owner_drawable _ _ _ _ _ _ HG Hi eq_refl)]. subst. by eapply H2.
    + intros m (s & Hs & Hm)%list_elem_of_omap. apply list_elem_of_lookup in Hs as [i Hi].
      by apply (Hf i s Hi).
  - assert (forall s, s ∈ ss -> forall m, f s = Some m -> reservationAmountCents m = issue_amount s) as Hg.
    { intros s [i Hi]%list_elem_of_lookup m Hm. by apply (Hf i s Hi). }
    clear -Hg. induction ss as [|s ss IH]; [done|]. cbn. specialize (IH ltac:(intros; apply Hg; [by right|done])).
    destruct (f s) as [m|] eqn:E; cbn; rewrite IH.
    + by rewrite (Hg s ltac:(by left) m E).
    + by destruct s.
Qed.

Lemma ghosts_issue z k ss i n a prior : ghosts_ok z k ss -> ss !! i = Some (Holding n a) ->
  amount_of i = Some a -> P <= prior -> prior + held z <= L ->
  ghosts_ok z k (<[i := Issued n a]> ss).
Proof.
  intros ((H1 & H2 & H3 & H6) & H4 & H5) Hi Ha HP HL.
  assert (holds_ok z k (<[i := Issued n a]> ss)) as HG.
  { split; [|split; [|split; [|by apply (drawn_insert k _ _ _ _ _ Hi)]]].
    - intros j s m [[-> ->]|[_ Hj]]%lookup_insert_cases E; [by apply (H1 i (Holding n a))|eauto].
    - intros j j' s s' m [[-> ->]|[Hn Hj]]%lookup_insert_cases [[-> ->]|[Hn' Hj']]%lookup_insert_cases E E';
        [done|by apply (H2 i j' (Holding n a) s' m)|by apply (H2 j i s (Holding n a) m)|by eauto].
    - intros j s m a' [[-> ->]|[_ Hj]]%lookup_insert_cases E; [by apply (H3 i (Holding n a))|eauto]. }
  split_and!; [done| |].
  - intros j m a' [[-> ?]|[_ Hj]]%lookup_insert_cases; [by simplify_eq|eauto].
  - right. pose proof (issued_held _ _ _ HG). lia.
Qed.

(** Redis answers, and a key written during the requests is still there at their
    end, on the server's clock; so is a link, on the application's. *)
Hypothesis redis_answers : forall n, redis_fault n = None.
Hypothesis keys_last : forall n m, redis_time n < redis_time m + (ttl + 3600) * 1000.
Hypothesis links_last : forall u a t, (u, a, t) ∈ reqs -> lasting (t + ttl * 1000).
Hypothesis links_ttl : forall m, fygaroCheckoutMasterGate fygaroConfig = Some m -> mg_ttlSeconds m = ttl.
Hypothesis amounts_ok : forall u a t, (u, a, t) ∈ reqs -> 0 < a <= 2 ^ 53.
(** Every settings row served has the cap, and every window at least the spent
    amount. *)
Hypothesis cap_served : forall n d s,
  erp_settings n = Some d -> validateFygaroSettings d = Some s -> daily_cap s level = Some L.
Hypothesis spent_served : forall since win,
  sum_rows (mkWindow 0 None) (filter (fun p => in_window acc since None p = true) (map_to_list rows)) = Ok win ->
  P <= window_grossCents win.

(** The set of the account, whose time to live is not over. *)
Definition zset (r : redis_state) : gmap hold_member Z := default ∅ (fst <$> r_holds r !! acc).
Definition key_lasts (r : redis_state) : Prop :=
  forall z e, r_holds r !! acc = Some (z, Some e) -> forall n, redis_time n < e.

Definition world_ok (w : tworld) : Prop :=
  t_rows w = rows /\
  (forall s at_, t_settings w = Some (Some s, at_) -> daily_cap s level = Some L) /\
  key_lasts (t_redis w).

Definition inv (w : tworld) (ss : list ghost) : Prop :=
  world_ok w /\ ghosts_ok (zset (t_redis w)) (t_randoms w) ss.

Lemma holds_at_now r n : key_lasts r ->
  exists e, holds_at (redis_time n) r acc = (zset r, e) /\
    forall x, e = Some x -> forall n, redis_time n < x.
Proof.
  intros Hk. unfold holds_at, zset. destruct (r_holds r !! acc) as [[z [e|]]|] eqn:E.
  - specialize (Hk z e E). destruct (Z.ltb_spec (redis_time n) e) as [_|Hn]; [|specialize (Hk n); lia].
    exists (Some e). split; [done|]. by intros x [= <-].
  - by exists None.
  - by exists None.
Qed.

Lemma put_holds_zset z e r : zset (put_holds acc (z, e) r) = z.
Proof.
  unfold zset, put_holds. cbn. case_bool_decide as Hz; cbn.
  - by rewrite lookup_delete_eq, Hz.
  - by rewrite lookup_insert_eq.
Qed.

Lemma put_holds_lasts z e r : (forall x, e = Some x -> forall n, redis_time n < x) ->
  key_lasts (put_holds acc (z, e) r).
Proof.
  intros He z' x. unfold put_holds. cbn. case_bool_decide; cbn.
  - by rewrite lookup_delete_eq.
  - rewrite lookup_insert_eq. intros [= _ E]. by apply He.
Qed.

(** A command on the set that changes its value by [f]. *)
Definition zset_op {A} (op : Z -> redis_state -> A * redis_state)
    (f : gmap hold_member Z -> gmap hold_member Z) : Prop :=
  forall n r, key_lasts r ->
    key_lasts (op (redis_time n) r).2 /\ zset (op (redis_time n) r).2 = f (zset r).

Lemma zadd_op score m : zset_op (fun now r => let '(z, e) := holds_at now r acc in
  (tt, put_holds acc (<[m := score]> z, e) r)) (<[m := score]>).
Proof.
  intros n r Hk. destruct (holds_at_now r n Hk) as (e & -> & He). cbn.
  split; [by apply put_holds_lasts|apply put_holds_zset].
Qed.

Lemma zrem_op m : zset_op (fun now r => let '(z, e) := holds_at now r acc in
  (tt, put_holds acc (delete m z, e) r)) (delete m).
Proof.
  intros n r Hk. destruct (holds_at_now r n Hk) as (e & -> & He). cbn.
  split; [by apply put_holds_lasts|apply put_holds_zset].
Qed.

Lemma zprune_op t : zset_op (fun now r => let '(z, e) := holds_at now r acc in
  (tt, put_holds acc (filter (fun p => t < p.2) z, e) r)) (filter (fun p => t < p.2)).
Proof.
  intros n r Hk. destruct (holds_at_now r n Hk) as (e & -> & He). cbn.
  split; [by apply put_holds_lasts|apply put_holds_zset].
Qed.

Lemma zexpire_op : zset_op (fun now r => let '(z, _) := holds_at now r acc in
  (tt, put_holds acc (z, Some (now + (ttl + 3600) * 1000)) r)) id.
Proof.
  intros n r Hk. destruct (holds_at_now r n Hk) as (e & -> & He). cbn.
  split; [|apply put_holds_zset]. apply put_holds_lasts. intros x [= <-] m. apply keys_last.
Qed.

(** Commands that leave the set alone. *)
Lemma other_op {A} (op : Z -> redis_state -> A * redis_state) :
  (forall now r, r_holds (op now r).2 = r_holds r) -> zset_op op id.
Proof. intros Ho n r Hk. unfold key_lasts, zset. by rewrite Ho. Qed.

(** A command of a request that moves its ghost state. *)
Lemma safe_zset {A} (Q : ghost -> outcome error A -> Prop) i op f s :
  zset_op op f ->
  (forall n r k ss, key_lasts r -> ghosts_ok (zset r) k ss -> ss !! i = Some s -> exists s',
     ghosts_ok (f (zset r)) k (<[i := s']> ss) /\ Q s' (Ok (op (redis_time n) r).1)) ->
  safe inv Q i (redis op) s.
Proof.
  intros Hop HQ w ss ((Hr & Hs & Hk) & HG) Hi. cbn. rewrite redis_answers.
  destruct (Hop (t_redis_ops w) (t_redis w) Hk) as [Hk' Hz].
  destruct (HQ (t_redis_ops w) (t_redis w) (t_randoms w) ss Hk HG Hi) as (s' & HG' & HP).
  destruct (op (redis_time (t_redis_ops w)) (t_redis w)) as [a r] eqn:E. cbn [fst snd] in *.
  exists s'. split; [|done]. split; [done|]. cbn. by rewrite Hz.
Qed.

Lemma keeps_zset {A} (phi : outcome error A -> Prop) op f :
  zset_op op f -> (forall z k ss, ghosts_ok z k ss -> ghosts_ok (f z) k ss) ->
  (forall a, phi (Ok a)) -> keeps inv phi (redis op).
Proof.
  intros Hop Hf Hphi i s. apply (safe_zset _ i op f); [done|]. intros n r k ss _ HG Hi.
  exists s. rewrite list_insert_id by done. auto.
Qed.

(** Calls that do not touch what the invariant is about. *)
Lemma inv_same w w' ss : t_rows w' = t_rows w -> t_settings w' = t_settings w ->
  t_redis w' = t_redis w -> t_randoms w' = t_randoms w -> inv w ss -> inv w' ss.
Proof. unfold inv, world_ok. by intros -> -> -> ->. Qed.

Lemma quietly_base {A} (c : App A) : quietly inv (base c).
Proof.
  apply keeps_atomic. intros w ss HI. split; [|done]. destruct (c (t_base w)). by apply (inv_same w).
Qed.
Lemma quietly_peek {A} (f : tworld -> A) : quietly inv (peek f).
Proof. apply keeps_atomic. intros w ss HI. split; [|done]. by apply (inv_same w). Qed.
Lemma quietly_emit e : quietly inv (emit e).
Proof. apply keeps_atomic. intros w ss HI. split; [|done]. by apply (inv_same w). Qed.
Lemma quietly_discounts d : quietly inv (poke (set_discounts d)).
Proof. apply keeps_atomic. intros w ss HI. split; [|done]. by apply (inv_same w). Qed.
Lemma quietly_erp_query {A} (f : nat -> A) : quietly inv (erp_query f).
Proof.
  apply keeps_atomic. intros w ss HI. split; [|done].
  destruct (erp_fault (t_erp_ops w)) as [[? ?]|]; by apply (inv_same w).
Qed.
Lemma quietly_other {A} (op : Z -> redis_state -> A * redis_state) :
  (forall now r, r_holds (op now r).2 = r_holds r) -> quietly inv (redis op).
Proof. intros Ho. by apply (keeps_zset _ op id); [apply other_op| |]. Qed.

#[local] Hint Resolve quietly_base quietly_peek quietly_emit quietly_discounts quietly_erp_query
  quietly_other : quiet_calls.

Lemma quietly_discount username flow : quietly inv (getFlashFeeDiscountPercent username flow).
Proof.
  unfold getFlashFeeDiscountPercent, loadDiscounts, erp_getFeeDiscounts, Date_now.
  eauto 20 with quiet_calls.
Qed.

Lemma quietly_readIntent id : quietly inv (readIntent id).
Proof.
  unfold readIntent, cache_get, cached.
  eauto 20 with quiet_calls.
Qed.

(** What the reads of a request tell it. *)
Definition has_cap (o : outcome error (option FygaroSettings)) : Prop :=
  forall s, o = Ok (Some s) -> daily_cap s level = Some L.

Lemma settings_cap : keeps inv has_cap getFygaroSettings.
Proof.
  unfold getFygaroSettings. apply keeps_bind with (phi := fun _ => True); [apply quietly_base|]. intros [now|e|e] _; [|done..].
  apply keeps_bind with (phi := fun o => forall s at_, o = Ok (Some (Some s, at_)) -> daily_cap s level = Some L).
  { apply keeps_atomic. intros w ss HI. split; [done|]. cbn. intros s at_ [= E].
    destruct HI as ((_ & Hs & _) & _). by apply (Hs s at_). }
  intros [cache|e|e] Hc; [|done..]. destruct (fresh now cache) as [v|] eqn:Hf.
  { apply keeps_done. intros s [= ->]. unfold fresh in Hf. destruct cache as [[v at_]|]; [|done].
    cbn in Hf. case_match; [|done]. simplify_eq. by apply (Hc s at_). }
  apply keeps_bind with (phi := fun o => forall d s, o = Ok (Some d) -> validateFygaroSettings d = Some s ->
    daily_cap s level = Some L).
  { destruct erp_configured; [|by apply keeps_done].
    apply keeps_bind with (phi := fun o => forall d s, o = Ok (inr d) -> validateFygaroSettings d = Some s ->
      daily_cap s level = Some L).
    - eapply keeps_attempt with (phi := fun o => forall d s, o = Ok d -> validateFygaroSettings d = Some s ->
        daily_cap s level = Some L).
      + eapply keeps_catch with (phi := fun o => forall d s, o = Ok d -> validateFygaroSettings d = Some s ->
          daily_cap s level = Some L); [|by intros []; [auto..|]; intros; apply keeps_done].
        eapply keeps_bind with (phi := fun o => exists n, o = Ok (erp_settings n) \/ exists e, o = Throw e).
        * apply keeps_atomic. intros w ss HI. destruct (erp_fault (t_erp_ops w)) as [[? ?]|];
            (split; [by apply (inv_same w)|exists (t_erp_ops w)]); eauto.
        * intros o (n & [->|[e ->]]); [|done]. destruct (erp_settings n) as [d|] eqn:En; apply keeps_done; [|done].
          intros d' s [= <-]. by apply (cap_served n).
      + intros [d|e|e] Ho; [|done..]. intros d' s [= <-]. by apply Ho.
    - intros [[e|d]|e|e] Ho; try (by apply keeps_done || done). apply keeps_done. intros d' s [= <-]. by apply Ho. }
  intros [doc|e|e] Hd; [|done..].
  assert (forall s, (d ← doc; validateFygaroSettings d) = Some s -> daily_cap s level = Some L) as Hv.
  { intros s. destruct doc as [d|]; [|done]. cbn. by apply Hd. }
  eapply keeps_bind with (phi := fun _ => True).
  - apply keeps_atomic. intros w ss ((Hr & Hs & Hk) & HG). split; [|done]. split; [|done].
    split; [done|]. split; [|done]. cbn. intros s at_ [= E _]. by apply Hv.
  - intros [[]|e|e] _; [|done..]. apply keeps_done. intros s [= E]. by apply Hv.
Qed.

Definition at_least_spent (o : outcome error Z) : Prop := forall p, o = Ok p -> P <= p.

Lemma prior_spent : keeps inv at_least_spent (sumFygaroTopupGrossCentsLast24h acc None).
Proof.
  unfold sumFygaroTopupGrossCentsLast24h, readFygaroTopupWindowLast24h.
  apply keeps_bind with (phi := fun o => forall win, o = Ok win -> P <= window_grossCents win).
  - destruct (negb erp_configured); [by apply keeps_done|].
    eapply keeps_bind; [apply quietly_base|]. intros [now|e|e] _; [|done..].
    eapply keeps_catch with (phi := fun o => forall win, o = Ok win -> P <= window_grossCents win);
      [|by intros []; [auto..|]; intros; apply keeps_done].
    eapply keeps_bind with (phi := fun o => forall l, o = Ok l ->
      l = filter (fun p => in_window acc (toFrappeDatetime (now - 24 * 60 * 60 * 1000)) None p = true)
            (map_to_list rows)).
    + apply keeps_atomic. intros w ss HI. assert (t_rows w = rows) as <- by apply HI.
      destruct (erp_fault (t_erp_ops w)) as [[[] ?]|]; (split; [by apply (inv_same w)|]); cbn; [done..|].
      by intros l [= <-].
    + intros [l|e|e] Hl; [|done..]. rewrite (Hl l eq_refl). apply keeps_done. intros win.
      apply spent_served.
  - intros [win|e|e] Hw; [|done..]. apply keeps_done. intros p [= <-]. by apply Hw.
Qed.

Lemma quietly_reservations u a t : (u, a, t) ∈ reqs -> quietly inv (readOutstandingReservations acc t).
Proof.
  intros Ht. unfold readOutstandingReservations. apply quietly_catch; [|eauto with quiet_calls].
  apply quietly_bind.
  - apply (keeps_zset _ _ (filter (fun p => t < p.2))); [apply zprune_op| |done].
    intros z k ss. by apply (ghosts_prune z k ss u a).
  - intros _. apply quietly_bind; [|eauto with quiet_calls]. by apply quietly_other.
Qed.

(** ** Minting *)

Definition may_issue (s : ghost) (o : outcome error AuthorizeTopupResult) : Prop :=
  forall checkout remaining, o = Ok (Authorized checkout remaining false) -> exists n a, s = Issued n a.

(** The hold is written first, whatever becomes of the rest. *)
Lemma saveIntent_safe i n intent t u : (u, i_amountCents intent, t) ∈ reqs ->
  i_accountId intent = acc -> i_intentId intent = newIntentId (random_bytes n) -> i_createdAtMs intent = t ->
  safe inv (fun s _ => s = Holding n (i_amountCents intent)) i (saveIntent intent ttl) (Drawn n).
Proof.
  intros Hin Ha Hid Ht. unfold saveIntent. rewrite Ha, Hid, Ht.
  eapply safe_bind with (Q := fun s o => s = Holding n (i_amountCents intent)).
  - eapply safe_catch with (Q := fun s o => s = Holding n (i_amountCents intent) /\ o = Ok tt).
    + eapply safe_zset; [apply zadd_op|]. intros m r k ss Hk HG Hi. eexists. split; [|split; [done|]].
      * apply ghosts_hold; [done..|by eapply amounts_ok|by eapply links_last].
      * by destruct (holds_at _ _ _).
    + by intros s o [-> ->].
  - intros s [[]|e|e] ->; [|done..].
    apply safe_quietly; [| |done..].
    { apply quietly_catch; [|eauto with quiet_calls].
      by apply (keeps_zset _ _ id); [apply zexpire_op| |]. }
    intros _. apply safe_quietly; [|intros _|done..]; unfold cache_set, cached.
    { eauto 10 with quiet_calls. }
    apply safe_quietly; [eauto 10 with quiet_calls|done..].
Qed.

(** The second read decides: what it saw includes every link handed out. *)
Lemma reread_safe i n a u t prior : reqs !! i = Some (u, a, t) -> P <= prior ->
  safe inv (fun s o => exists reservations, o = Ok reservations /\
      s = if L <? prior + held_cents reservations then Holding n a else Issued n a)
    i (readOutstandingReservations acc t) (Holding n a).
Proof.
  intros Hi HP. assert ((u, a, t) ∈ reqs) as Hin by (by eapply list_elem_of_lookup_2).
  unfold readOutstandingReservations.
  eapply safe_catch with (Q := fun s o => exists reservations, o = Ok reservations /\
      s = if L <? prior + held_cents reservations then Holding n a else Issued n a);
    [|by intros s o (rs & -> & ->); eauto].
  eapply safe_bind with (Q := fun s o => s = Holding n a /\ o = Ok tt).
  { eapply safe_zset; [apply zprune_op|]. intros m r k ss Hk HG Hs. exists (Holding n a).
    rewrite list_insert_id by done. split; [by apply (ghosts_prune _ k ss u a)|].
    split; [done|]. by destruct (holds_at _ _ _). }
  intros s o [-> ->].
  eapply safe_bind with (Q := fun s o => exists flat, o = Ok flat /\
    s = if L <? prior + held_cents (to_reservations flat) then Holding n a else Issued n a).
  - eapply (safe_zset _ i _ id); [by apply other_op|]. intros m r k ss Hk HG Hs.
    destruct (holds_at_now r m Hk) as (e & Eh & _). cbn [fst]. rewrite Eh. cbn [fst].
    eexists. split; [|eexists; split; [done|reflexivity]]. rewrite held_zrange.
    change (id (zset r)) with (zset r).
    destruct (Z.ltb_spec L (prior + held (zset r))); [by rewrite list_insert_id|].
    eapply ghosts_issue; [done|done| |exact HP|lia]. unfold amount_of. by rewrite Hi.
  - intros s o (flat & -> & ->). cbn. eauto.
Qed.

Lemma release_safe i n a :
  safe inv (fun _ _ => True) i
    (releaseIntentReservation acc (newIntentId (random_bytes n)) a) (Holding n a).
Proof.
  eapply safe_catch with (Q := fun _ _ => True); [|by intros s []].
  eapply safe_zset; [apply zrem_op|]. intros m r k ss Hk HG Hs. exists Gone.
  split; [|done]. by apply ghosts_release.
Qed.

Lemma mint_safe l master i u a t prior allowance :
  reqs !! i = Some (u, a, t) -> mg_ttlSeconds master = ttl -> dailyLimitCents l = Some L -> P <= prior ->
  safe inv may_issue i (mint_checkout l master acc u a t prior allowance) Idle.
Proof.
  intros Hi Httl Hl HP. assert ((u, a, t) ∈ reqs) as Hin by (by eapply list_elem_of_lookup_2).
  unfold mint_checkout. rewrite Httl, Hl.
  eapply safe_bind with (Q := fun s o => exists n, o = Ok (random_bytes n) /\ s = Drawn n).
  { apply safe_atomic. intros w ss (Hw & HG) Hs. exists (Drawn (t_randoms w)).
    split; [|by eauto]. split; [done|]. by apply ghosts_draw. }
  intros s o (n & -> & ->).
  eapply safe_bind with (Q := fun s o => s = Holding n a).
  { apply safe_attempt. eapply safe_mono; [|eapply (saveIntent_safe i n _ t u); done]. by intros s o ->. }
  intros s [saved|e|e] ->; [|done..].
  destruct (match saved with inl e => _ | inr _ => _ end).
  { apply safe_quietly; [apply quietly_emit|done..]. }
  eapply safe_bind with (Q := fun s o => exists reservations, o = Ok (inr reservations) /\
      s = if L <? prior + held_cents reservations then Holding n a else Issued n a).
  { apply safe_attempt. eapply safe_mono; [|by apply (reread_safe i n a u t prior)].
    intros s o (rs & -> & ->). eauto. }
  intros s o (rs & -> & ->). destruct (L <? prior + held_cents rs).
  - eapply safe_bind; [apply release_safe|]. by intros s [] _.
  - intros c r _. eauto.
Qed.

Lemma not_issue_keeps {c : TApp AuthorizeTopupResult} i s :
  keeps inv (fun o => forall checkout remaining, o ≠ Ok (Authorized checkout remaining false)) c ->
  safe inv may_issue i c s.
Proof. intros Hc. eapply safe_mono; [|apply Hc]. intros s' o [_ Hn] ch r E. by destruct (Hn ch r). Qed.

Lemma refuseTransient_keeps l reason key :
  keeps inv (fun o => forall checkout remaining, o ≠ Ok (Authorized checkout remaining false))
    (refuseTransient l reason key).
Proof. eapply keeps_bind; [apply quietly_emit|]. by intros [[]|e|e] _; [apply keeps_done|..]. Qed.

Lemma refuseOpenCheckout_keeps l nowMs rs a limit remaining :
  keeps inv (fun o => forall checkout remaining, o ≠ Ok (Authorized checkout remaining false))
    (refuseOpenCheckout l acc nowMs rs a limit remaining).
Proof.
  unfold refuseOpenCheckout. eapply keeps_bind with (phi := fun _ => True).
  - destruct (list_find _ rs) as [[? rv]|]; [|by apply keeps_done].
    apply quietly_bind; [apply quietly_readIntent|eauto with quiet_calls].
  - intros [[[i [url ex]]|]|e|e] _; [by apply keeps_done..|done|done].
Qed.

Lemma authorize_against_safe settings master i u a t prior rs : reqs !! i = Some (u, a, t) ->
  mg_ttlSeconds master = ttl -> (forall s, settings = Some s -> daily_cap s level = Some L) -> P <= prior ->
  safe inv may_issue i
    (authorize_against (limits_of settings level) master settings acc u level a t prior rs) Idle.
Proof.
  intros Hi Hm Hcap Hp. unfold authorize_against.
  apply safe_quietly; [apply quietly_discount| |done..]; intros discount.
  destruct (evaluateCreditGate _) as [fees|reason] eqn:Hg.
  - apply gate_credits_iff in Hg as (s & cap & pr & (_ & Hs & _) & _). cbn in Hs.
    apply mint_safe; [done..| |done]. subst settings. exact (Hcap s eq_refl).
  - destruct (bool_decide _), (dailyLimitCents _); try done.
    destruct (_ <=? _); try done. apply not_issue_keeps, refuseOpenCheckout_keeps.
Qed.

Definition request (r : string * Z * Z) : TApp AuthorizeTopupResult :=
  authorizeFygaroTopup acc r.1.1 level r.1.2 r.2.

Lemma authorize_safe i u a t : reqs !! i = Some (u, a, t) -> safe inv may_issue i (request (u, a, t)) Idle.
Proof.
  intros Hi. assert ((u, a, t) ∈ reqs) as Hin by (by eapply list_elem_of_lookup_2).
  unfold request, authorizeFygaroTopup. cbn [fst snd].
  destruct (fygaroCheckoutMasterGate fygaroConfig) as [master|] eqn:Hm; [|done].
  apply safe_keeps with (phi := has_cap); [apply settings_cap| |done..]. intros settings Hcap.
  destruct (evaluateCreditGate _) as [fees|reason];
    [|destruct reason; try done; try (apply not_issue_keeps, refuseTransient_keeps)];
    (apply safe_keeps with (phi := fun o => forall p, o = Ok (inr p) -> P <= p);
      [eapply keeps_attempt; [apply prior_spent|];
       by intros [p|e|e] Hp p'; [intros [= <-]; apply Hp|..]| |done..]);
    (intros [e|prior] Hp; [apply not_issue_keeps, refuseTransient_keeps|]; specialize (Hp prior eq_refl));
    (apply safe_quietly; [by eapply quietly_attempt, quietly_reservations| |done..]);
    (intros [e|rs]; [apply not_issue_keeps, refuseTransient_keeps|]);
    (apply authorize_against_safe; [done|by apply links_ttl| |done]; intros s ->; by apply Hcap).
Qed.

End NoOverIssue.

(** ** The theorem *)

(** The circumstances: Redis answers and its keys and the links outlive the
    requests; the random ids drawn by them are distinct; the operator's settings have one cap
    for the level; and the account has spent at least [P] whenever one looks. *)
Record calm `{X : TopupExternal} (acc : string) (level L P ttl : Z)
    (reqs : list (string * Z * Z)) (w : tworld) : Prop := {
  calm_answers : forall n, redis_fault n = None;
  calm_keys : forall n m, redis_time n < redis_time m + (ttl + 3600) * 1000;
  calm_key : key_lasts acc (t_redis w);
  calm_links : forall u a t u' a' t', (u, a, t) ∈ reqs -> (u', a', t') ∈ reqs -> t' < t + ttl * 1000;
  calm_ttl : forall m, fygaroCheckoutMasterGate fygaroConfig = Some m -> mg_ttlSeconds m = ttl;
  calm_amounts : forall u a t, (u, a, t) ∈ reqs -> 0 < a <= 2 ^ 53;
  calm_ids : forall n m, drawable reqs (t_randoms w) n -> drawable reqs (t_randoms w) m ->
    newIntentId (random_bytes n) = newIntentId (random_bytes m) -> n = m;
  calm_cap : forall n d s,
    erp_settings n = Some d -> validateFygaroSettings d = Some s -> daily_cap s level = Some L;
  calm_cached : forall s at_, t_settings w = Some (Some s, at_) -> daily_cap s level = Some L;
  calm_spent : forall since win,
    sum_rows (mkWindow 0 None)
      (filter (fun p => in_window acc since None p = true) (map_to_list (t_rows w))) = Ok win ->
    P <= window_grossCents win
}.

(** What a finished request was handed: a new link for its amount, or nothing. *)
Definition new_link `{X : TopupExternal} (r : string * Z * Z) (p : TApp AuthorizeTopupResult) : Z :=
  match p with Done (Ok (Authorized _ _ false)) => r.1.2 | _ => 0 end.

Definition handed_out `{X : TopupExternal} (reqs : list (string * Z * Z))
    (ps : list (TApp AuthorizeTopupResult)) : Z :=
  foldr (fun '(r, p) sum => new_link r p + sum) 0 (zip reqs ps).

Lemma handed_out_issued `{X : TopupExternal} reqs ps ss :
  (forall i r p s, reqs !! i = Some r -> ps !! i = Some p -> ss !! i = Some s ->
     new_link r p <= issue_amount s) ->
  length ss = length reqs -> (forall i s, ss !! i = Some s -> 0 <= issue_amount s) ->
  handed_out reqs ps <= issued ss.
Proof.
  revert ps ss. induction reqs as [|r reqs IH]; intros [|p ps] [|s ss] Hle Hlen Hpos; try done.
  - unfold handed_out. cbn [zip zip_with foldr]. clear -Hpos.
    assert (forall l, (forall i s, l !! i = Some s -> 0 <= issue_amount s) -> 0 <= issued l) as H0.
    { clear. intros l Hl. induction l as [|s l IH]; [done|].
      change (0 <= issue_amount s + issued l). pose proof (Hl O s eq_refl).
      assert (0 <= issued l) by (apply IH; intros i; apply (Hl (S i))). lia. }
    by apply H0.
  - change (new_link r p + handed_out reqs ps <= issue_amount s + issued ss).
    pose proof (Hle O r p s eq_refl eq_refl eq_refl).
    enough (handed_out reqs ps <= issued ss) by lia.
    apply IH; [|by injection Hlen|by intros i; apply (Hpos (S i))].
    intros i. apply (Hle (S i)).
Qed.

Lemma ghosts_start `{X : TopupExternal} L P reqs z k :
  ghosts_ok L P reqs k z k (replicate (length reqs) Idle).
Proof.
  assert (forall f n, f Idle = 0 -> total f (replicate n Idle) = 0) as Ht.
  { intros f n Hf. induction n as [|n IH]; [done|]. cbn. fold (total f (replicate n Idle)). lia. }
  split; [split; [|split; [|split]]|split].
  - intros i s n [-> _]%lookup_replicate. done.
  - intros i j s s' n [-> _]%lookup_replicate. done.
  - intros i s n a [-> _]%lookup_replicate. done.
  - rewrite length_replicate, Ht by done. lia.
  - intros i n a [? _]%lookup_replicate. done.
  - left. by apply Ht.
Qed.

