(* ===== verification/FygaroAllowance.v ===== *)
(** * The allowance and the authorisation agree

    What [src/src/app/fygaro/topup-allowance.ts] reports is what
    [authorize-topup.ts] grants: for a request on its own, an amount is handed a
    new link exactly when it lies between the minimum and both limits the
    allowance names and leaves something after fees. *)

From stdpp Require Import base gmap list strings sorting.
From Stdlib Require Import ZArith Lia.
From S2P Require Import Prelude JsStrings JsNumbers Processes Errors World.
From S2P Require Import FygaroGate FygaroCheckout TopupWorld FygaroIntents TransferRequests.
From S2P Require Import FygaroAuthorize FygaroReservations.

Open Scope Z_scope.
Open Scope flash_scope.

Section Agreement.
Context `{X : TopupExternal}.
Variables (acc : string) (ttl : Z).
Hypothesis redis_answers : forall n, redis_fault n = None.
Hypothesis keys_last : forall n m, redis_time n < redis_time m + (ttl + 3600) * 1000.

Lemma run_redis {A} (op : Z -> redis_state -> A * redis_state) w :
  run (redis op) w = (Ok (op (redis_time (t_redis_ops w)) (t_redis w)).1,
    set_redis (op (redis_time (t_redis_ops w)) (t_redis w)).2 (next_redis_op w)).
Proof. unfold redis. rewrite run_atomic, redis_answers. by destruct (op _ _). Qed.

(** The state the protocol reads: the holds, and the ids still to be drawn. *)
Definition standing (z : gmap hold_member Z) (k : nat) (w : tworld) : Prop :=
  zset acc (t_redis w) = z /\ key_lasts acc (t_redis w) /\ t_randoms w = k.

Lemma run_zset (op : Z -> redis_state -> unit * redis_state) f z k w :
  zset_op acc op f -> standing z k w ->
  exists w', run (redis op) w = (Ok tt, w') /\ standing (f z) k w'.
Proof.
  intros Hop (Hz & Hk & Hr). rewrite run_redis. eexists. split; [by destruct (op _ _).1|].
  destruct (Hop (t_redis_ops w) (t_redis w) Hk) as [Hk' Hz']. split_and!; [|done..]. cbn. by rewrite Hz', Hz.
Qed.

(** Calls that leave it alone. *)
Definition calm_call {A} (c : TApp A) : Prop :=
  forall z k, quietly (fun w (_ : list unit) => standing z k w) c.

Lemma calm_run {A} (c : TApp A) z k w : calm_call c -> standing z k w -> standing z k (run c w).2.
Proof. intros Hc Hs. by apply (keeps_run (fun w _ => standing z k w) _ c w (Hc z k)). Qed.

Lemma calm_frame {A} (c : M tworld error A) :
  (forall w, t_redis (c w).2 = t_redis w /\ t_randoms (c w).2 = t_randoms w) -> calm_call (atomic c).
Proof.
  intros Hc z k. apply keeps_atomic. intros w ss (Hz & Hk & Hr). split; [|done].
  unfold standing. by destruct (Hc w) as [-> ->].
Qed.

Lemma calm_base {A} (c : App A) : calm_call (base c).
Proof. apply calm_frame. intros w. by destruct (c (t_base w)). Qed.
Lemma calm_peek {A} (f : tworld -> A) : calm_call (peek f).
Proof. by apply calm_frame. Qed.
Lemma calm_settings_cache s : calm_call (poke (set_settings s)).
Proof. by apply calm_frame. Qed.
Lemma calm_discounts_cache d : calm_call (poke (set_discounts d)).
Proof. by apply calm_frame. Qed.
Lemma calm_erp_query {A} (f : nat -> A) : calm_call (erp_query f).
Proof. apply calm_frame. intros w. by destruct (erp_fault (t_erp_ops w)) as [[? ?]|]. Qed.
Lemma calm_erp {A} (op : gmap string transfer_row -> outcome error A * gmap string transfer_row) :
  calm_call (erp op).
Proof.
  apply calm_frame. intros w. destruct (op (t_rows w)).
  by destruct (erp_fault (t_erp_ops w)) as [[[] ?]|].
Qed.

Lemma calm_getFygaroSettings : calm_call getFygaroSettings.
Proof.
  intros z k. pose proof (@calm_base). pose proof (@calm_peek). pose proof calm_settings_cache.
  pose proof (@calm_erp_query). unfold calm_call in *.
  unfold getFygaroSettings, erp_getFygaroSettings, Date_now. eauto 20 with quiet_calls.
Qed.

Lemma calm_discount username flow : calm_call (getFlashFeeDiscountPercent username flow).
Proof.
  intros z k. pose proof (@calm_base). pose proof (@calm_peek). pose proof calm_discounts_cache.
  pose proof (@calm_erp_query). unfold calm_call in *.
  unfold getFlashFeeDiscountPercent, loadDiscounts, erp_getFeeDiscounts, Date_now.
  eauto 20 with quiet_calls.
Qed.

Lemma calm_window exclude : calm_call (readFygaroTopupWindowLast24h acc exclude).
Proof.
  intros z k. pose proof (@calm_base). pose proof (@calm_erp). unfold calm_call in *.
  unfold readFygaroTopupWindowLast24h, sumFygaroTopupGrossCentsSince, Date_now.
  eauto 20 with quiet_calls.
Qed.

(** Reading the reservations: the expired ones go, the others are summed. *)
Lemma run_reservations t z k w : standing z k w ->
  exists rs, (run (readOutstandingReservations acc t) w).1 = Ok rs /\
    held_cents rs = held (filter (fun p => t < p.2) z) /\
    standing (filter (fun p => t < p.2) z) k (run (readOutstandingReservations acc t) w).2.
Proof.
  intros Hs. unfold readOutstandingReservations. rewrite run_catch. unfold catch.
  rewrite run_bind. unfold bind.
  destruct (run_zset _ _ z k w (zprune_op acc t) Hs) as (w1 & E1 & Hz & Hk & Hr).
  unfold zprune. rewrite E1.
  rewrite run_bind. unfold bind, zread. rewrite run_redis. cbn [run pret fst snd].
  destruct (holds_at_now acc (t_redis w1) (t_redis_ops w1) Hk) as (e & -> & _). cbn [fst].
  eexists. split; [done|]. split; [by rewrite held_zrange, Hz|]. by split_and!.
Qed.

(** A cache write that only touches other keys. *)
Lemma run_cache_set {V} put entries key (v : V) secs z k w :
  (forall m r, r_holds (put m r) = r_holds r) -> standing z k w ->
  exists w', run (cache_set put entries key v secs) w = (Ok v, w') /\ standing z k w'.
Proof.
  intros Hp (Hz & Hk & Hr). unfold cache_set, cached. rewrite run_catch. unfold catch. rewrite run_redis.
  eexists. split; [done|]. unfold standing, zset, key_lasts. cbn. by rewrite Hp.
Qed.

Lemma run_saveIntent intent z k w : standing z k w -> i_accountId intent = acc ->
  exists w', run (saveIntent intent ttl) w = (Ok tt, w') /\
  standing (<[reservationMember (i_intentId intent) (i_amountCents intent) :=
              i_createdAtMs intent + ttl * 1000]> z) k w'.
Proof.
  intros Hs Ha. unfold saveIntent. rewrite Ha.
  destruct (run_zset _ _ z k w (zadd_op acc (i_createdAtMs intent + ttl * 1000)
    (reservationMember (i_intentId intent) (i_amountCents intent))) Hs) as (w1 & E1 & Hs1).
  rewrite run_bind. unfold bind. rewrite run_catch. unfold catch, zadd. rewrite E1.
  destruct (run_zset _ _ _ k w1 (zexpire_op acc ttl keys_last) Hs1) as (w2 & E2 & Hs2).
  rewrite run_bind. unfold bind. rewrite run_catch. unfold catch, zset_expire. rewrite E2.
  destruct (run_cache_set set_intents r_intents (i_intentId intent) intent (ttl + 3600) _ k w2
    ltac:(done) Hs2) as (w3 & E3 & Hs3).
  rewrite run_bind. unfold bind. rewrite E3.
  destruct (run_cache_set set_claims r_claims (i_intentId intent) (i_intentId intent) (ttl + 3600) _ k w3
    ltac:(done) Hs3) as (w4 & E4 & Hs4).
  rewrite run_bind. unfold bind. rewrite run_attempt. unfold attempt. rewrite E4. by eexists.
Qed.

(** Nothing in the set has expired. *)
Definition unexpired (t : Z) (z : gmap hold_member Z) : Prop := map_Forall (fun _ score => t < score) z.

Lemma filter_unexpired t z : unexpired t (filter (fun p => t < p.2) z).
Proof. intros m s. rewrite map_lookup_filter_Some. by intros [_ ?]. Qed.

Lemma unexpired_filter t z : unexpired t z -> filter (fun p => t < p.2) z = z.
Proof. intros Hu. apply map_filter_id. intros m s Hm. by apply (Hu m s). Qed.

(** A link for an amount that fits is minted. *)
Lemma run_mint l master u a t prior allowance L z k w :
  standing z k w -> unexpired t z -> mg_ttlSeconds master = ttl -> 0 < ttl -> dailyLimitCents l = Some L ->
  0 < a <= 2 ^ 53 -> z !! reservationMember (newIntentId (random_bytes k)) a = None ->
  prior + held z + a <= L ->
  exists c, (run (mint_checkout l master acc u a t prior allowance) w).1 = Ok (Authorized c (allowance - a) false).
Proof.
  intros Hs Hu Httl Hpos Hl Ha Hm HL. unfold mint_checkout. rewrite Httl, Hl.
  rewrite run_bind. unfold bind, randomBytes12. rewrite run_atomic.
  assert (standing z (S k) (next_random w)) as Hs0 by (destruct Hs as (? & ? & <-); by split_and!).
  assert (t_randoms w = k) as -> by apply Hs.
  rewrite run_bind. unfold bind. rewrite run_attempt. unfold attempt.
  set (m := reservationMember (newIntentId (random_bytes k)) a) in *.
  match goal with |- context [run (saveIntent ?i ttl) _] =>
    destruct (run_saveIntent i z (S k) _ Hs0 eq_refl) as (w1 & -> & Hs1) end. cbn [i_intentId i_amountCents i_createdAtMs] in Hs1.
  fold m in Hs1. rewrite run_bind. unfold bind. rewrite run_attempt. unfold attempt.
  destruct (run_reservations t _ (S k) w1 Hs1) as (rs & E & Hh & _).
  destruct (run (readOutstandingReservations acc t) w1) as [o w2]. cbn [fst] in E. subst o.
  rewrite unexpired_filter in Hh; cycle 1.
  { intros m' s [[-> <-]|[_ Hz]]%lookup_insert_Some; [lia|]. by apply (Hu m'). }
  rewrite held_insert in Hh by done.
  destruct (reservation_member_roundtrip (newIntentId (random_bytes k)) a ltac:(lia)) as [Hamt _].
  fold m in Hamt. rewrite Hh, Hamt. destruct (Z.ltb_spec L (prior + (a + held z))); [lia|]. by eexists.
Qed.

End Agreement.

(** What the allowance says of an amount: whether it could be topped up. *)
Definition allows (al : FygaroTopupAllowance) (a : Z) : Prop :=
  al_minimumCents al <= a /\ a <= al_remainingCents al /\ a <= al_singlePaymentLimitCents al.

(** The first gate of a request, which does not know the history. *)
Lemma probe_gate s a level dl : autoCreditEnabled s = true -> dailyTopupLimits s level = Some dl ->
  evaluateCreditGate (mkGateArgs true "USD" (Some s) a level None (num_of_Z 0)) =
  RecordOnly (if to_cents (autoCreditLimit s) <? a then over_limit else history_unavailable).
Proof.
  intros Ha Hd. unfold evaluateCreditGate. cbn [g_creditEnabled g_settings g_currency g_grossCents g_level
    g_priorDayGrossCents negb]. rewrite Ha, Hd. cbn. by destruct (_ <? _).
Qed.

Lemma spent_gate s a level dl spent d fees : autoCreditEnabled s = true -> dailyTopupLimits s level = Some dl ->
  evaluateCreditGate (mkGateArgs true "USD" (Some s) a level (Some spent) d) = Credit fees ->
  to_cents (minimumTopup s) <= a /\ a <= to_cents (autoCreditLimit s) /\ a + spent <= to_cents dl /\
  0 < netCents (computeFygaroFees a s d).
Proof.
  intros Ha Hd (s' & cap & pr & (_ & [= <-] & _ & _ & H1 & Hc & [= <-] & H2 & H3 & H4) & _)%gate_credits_iff.
  unfold daily_cap in Hc. cbn in *. rewrite Hd in Hc. injection Hc as <-. done.
Qed.

Lemma spent_gate_refuses s a level dl spent d reason : autoCreditEnabled s = true ->
  dailyTopupLimits s level = Some dl ->
  evaluateCreditGate (mkGateArgs true "USD" (Some s) a level (Some spent) d) = RecordOnly reason ->
  ~ (to_cents (minimumTopup s) <= a /\ a <= to_cents (autoCreditLimit s) /\ a + spent <= to_cents dl /\
     0 < netCents (computeFygaroFees a s d)).
Proof.
  intros Ha Hd Hr (H1 & H2 & H3 & H4).
  enough (evaluateCreditGate (mkGateArgs true "USD" (Some s) a level (Some spent) d) =
    Credit (computeFygaroFees a s d)) by congruence.
  apply gate_credits_iff. exists s, (to_cents dl), spent. split; [|done]. unfold creditable, daily_cap. cbn.
  rewrite Hd. done.
Qed.

(** Fees that leave nothing are a gate of their own. *)
Lemma spent_gate_net s a level dl spent d : autoCreditEnabled s = true ->
  dailyTopupLimits s level = Some dl ->
  a <= to_cents (autoCreditLimit s) -> a + spent <= to_cents dl -> netCents (computeFygaroFees a s d) <= 0 ->
  evaluateCreditGate (mkGateArgs true "USD" (Some s) a level (Some spent) d) = RecordOnly non_positive_net.
Proof.
  intros Ha Hd H1 H2 H3. unfold evaluateCreditGate. cbn [g_creditEnabled g_settings g_currency g_grossCents g_level
    g_priorDayGrossCents g_discount negb]. rewrite Ha, Hd. cbn [negb]. rewrite bool_decide_true by done. cbn [negb].
  destruct (Z.ltb_spec (to_cents (autoCreditLimit s)) a); [lia|].
  destruct (Z.ltb_spec (to_cents dl) (a + spent)); [lia|].
  destruct (Z.leb_spec (netCents (computeFygaroFees a s d)) 0); [done|lia].
Qed.

(** Handing back an open link is not a new one. *)
Lemma refuseOpen_not_new `{X : TopupExternal} l acc t rs a limit remaining w c r :
  (run (refuseOpenCheckout l acc t rs a limit remaining) w).1 ≠ Ok (Authorized c r false).
Proof.
  unfold refuseOpenCheckout. rewrite run_bind. unfold bind.
  destruct (run _ w) as [[[[i [url ex]]|]|e|e] w']; done.
Qed.

(** The decision of a request on its own. *)
Lemma run_authorize_against `{X : TopupExternal} acc username level a t ttl s master dl prior rs d z k w :
  (forall n, redis_fault n = None) ->
  (forall n m, redis_time n < redis_time m + (ttl + 3600) * 1000) ->
  mg_ttlSeconds master = ttl -> 0 < ttl -> 0 < a <= 2 ^ 53 ->
  autoCreditEnabled s = true -> dailyTopupLimits s level = Some dl ->
  standing acc z k w -> unexpired t z -> held_cents rs = held z ->
  z !! reservationMember (newIntentId (random_bytes k)) a = None ->
  (run (getFlashFeeDiscountPercent (Some username) TopupFlow) w).1 = Ok d ->
  let spent := prior + held_cents rs in
  let decision := run (authorize_against (limits_of (Some s) level) master (Some s) acc username level a t prior rs) w in
  let bounds := to_cents (minimumTopup s) <= a /\ a <= to_cents (autoCreditLimit s) /\ a + spent <= to_cents dl in
  let net := netCents (computeFygaroFees a s d) in
  (bounds -> 0 < net -> exists c, decision.1 = Ok (Authorized c (Z.max 0 (to_cents dl - spent) - a) false)) /\
  (bounds -> net <= 0 -> exists r, decision.1 = Ok (Refused r) /\ rf_reason r = NonPositiveNet) /\
  (~ bounds -> forall c r, decision.1 ≠ Ok (Authorized c r false)).
Proof.
  intros Hans Hlast Httl Hpos Ha Hae Hdl St Hu Hh Hm Hd spent decision bounds net.
  subst decision. unfold authorize_against. fold spent. rewrite run_bind. unfold bind.
  pose proof (calm_run acc _ _ _ w (calm_discount acc (Some username) TopupFlow) St) as St'.
  destruct (run (getFlashFeeDiscountPercent (Some username) TopupFlow) w) as [o w4]. cbn [fst snd] in *. subst o.
  cbn [limits_of dailyLimitCents mbind option_bind]. rewrite Hdl. cbn [fmap option_fmap option_map].
  destruct (evaluateCreditGate _) as [fees|reason] eqn:Hg.
  - pose proof (spent_gate s a level dl spent d fees Hae Hdl Hg) as G. fold net in G. split_and!; [intros _ _|lia|intros Hb; exfalso; apply Hb; unfold bounds; tauto].
    eapply (run_mint acc ttl Hans Hlast) with (L := to_cents dl) (z := z); try done;
      [by cbn; rewrite Hdl|unfold spent in *; lia].
  - pose proof (spent_gate_refuses s a level dl spent d reason Hae Hdl Hg) as Hno.
    fold net in Hno. split_and!; [intros (B1 & B2 & B3) Hn; by destruct Hno| |].
    + intros (B1 & B2 & B3) Hn. rewrite (spent_gate_net s a level dl spent d Hae Hdl B2 B3 Hn) in Hg.
      injection Hg as <-. rewrite bool_decide_false by done. by eexists.
    + intros _ c r. destruct (bool_decide (reason = daily_limit_exceeded)); [|done].
      destruct (_ <=? _); [|done]. apply refuseOpen_not_new.
Qed.

(** C23: for a request on its own, right after its allowance was read and in the
    same state, with Redis up and the id drawn for it fresh, the allowance is what
    is granted but for one gate: an amount within the bounds it shows is handed a
    new link, and told a headroom that is the one shown less the amount, exactly
    when something is left of it after the fees; if nothing is left it is refused
    for that reason, which the allowance does not show; and an amount outside the
    bounds gets no new link. *)
Theorem allowance_agrees `{X : TopupExternal} (acc username : string) (level a t ttl : Z)
    (al : FygaroTopupAllowance) (s : FygaroSettings) (d : js_num) (w w1 : tworld) :
  (forall n, redis_fault n = None) ->
  (forall n m, redis_time n < redis_time m + (ttl + 3600) * 1000) ->
  (forall m, fygaroCheckoutMasterGate fygaroConfig = Some m -> mg_ttlSeconds m = ttl) -> 0 < ttl ->
  key_lasts acc (t_redis w) -> 0 < a <= 2 ^ 53 ->
  run (getFygaroTopupAllowance acc level t) w = (Ok (Available al), w1) ->
  zset acc (t_redis w1) !! reservationMember (newIntentId (random_bytes (t_randoms w1))) a = None ->
  (run getFygaroSettings w).1 = Ok (Some s) ->
  (run (getFlashFeeDiscountPercent (Some username) TopupFlow) w1).1 = Ok d ->
  let answer := (run (authorizeFygaroTopup acc username level a t) w).1 in
  let net := netCents (computeFygaroFees a s d) in
  (allows al a -> 0 < net -> exists c, answer = Ok (Authorized c (al_remainingCents al - a) false)) /\
  (allows al a -> net <= 0 -> exists r, answer = Ok (Refused r) /\ rf_reason r = NonPositiveNet) /\
  (~ allows al a -> forall c r, answer ≠ Ok (Authorized c r false)).
Proof.
  intros Hans Hlast Httl Hpos Hkey Ha Hal Hm Hs Hd. cbv zeta.
  unfold getFygaroTopupAllowance, authorizeFygaroTopup in *.
  destruct (fygaroCheckoutMasterGate fygaroConfig) as [master|]; [|done]. specialize (Httl master eq_refl).
  assert (standing acc (zset acc (t_redis w)) (t_randoms w) w) as St by done.
  rewrite run_bind in Hal. rewrite run_bind. unfold bind in Hal |- *.
  pose proof (calm_run acc _ _ _ w (calm_getFygaroSettings acc) St) as St0.
  destruct (run getFygaroSettings w) as [o w0]. cbn [fst snd] in *. subst o.
  destruct (autoCreditEnabled s) eqn:Hae; [|done]. cbn [negb] in Hal.
  destruct (dailyTopupLimits s level) as [dl|] eqn:Hdl; [|done].
  rewrite (probe_gate s a level dl Hae Hdl).
  rewrite run_bind in Hal. unfold bind in Hal. rewrite run_attempt in Hal. unfold attempt in Hal.
  pose proof (calm_run acc _ _ _ w0 (calm_window acc None) St0) as St1.
  destruct (run (readFygaroTopupWindowLast24h acc None) w0) as [[win|e|e] w2] eqn:Ewin; [|done..].
  rewrite run_bind in Hal. unfold bind in Hal. rewrite run_attempt in Hal. unfold attempt in Hal.
  destruct (run_reservations acc Hans t _ _ w2 St1) as (rs & Ers & Hheld & St2).
  destruct (run (readOutstandingReservations acc t) w2) as [o w3] eqn:Erun. cbn [fst snd] in *. subst o.
  cbn [run pret] in Hal. injection Hal as Hal <-.
  set (z := filter _ _) in *.
  assert (standing acc z (t_randoms w) w3) as (Ez & _ & Ek) by done.
  rewrite Ez, Ek in Hm.
  unfold allows. rewrite <- Hal.
  cbn [al_minimumCents al_remainingCents al_singlePaymentLimitCents].
  destruct (Z.ltb_spec (to_cents (autoCreditLimit s)) a) as [Hover|Hover].
  { split_and!; [lia|lia|done]. }
  rewrite run_bind. unfold bind. rewrite run_attempt. unfold attempt, sumFygaroTopupGrossCentsLast24h.
  rewrite run_bind. unfold bind. rewrite Ewin. cbn [run pret].
  rewrite run_bind. unfold bind. rewrite run_attempt. unfold attempt. rewrite Erun.
  destruct (run_authorize_against acc username level a t ttl s master dl (window_grossCents win) rs d z
    (t_randoms w) w3 Hans Hlast Httl Hpos Ha Hae Hdl St2 (filter_unexpired _ _) Hheld Hm Hd) as (Hyes & Hnet & Hno).
  assert (to_cents dl - window_grossCents win - held_cents rs =
    to_cents dl - (window_grossCents win + held_cents rs)) as -> by lia.
  split_and!; [intros G Hn; apply Hyes; lia|intros G Hn; apply Hnet; lia|intros G; apply Hno; lia].
Qed.
