(* ===== verification/PaymentIdempotency.v ===== *)
(** * Sends at most once

    Model of the idempotent payment sends: the wrapper of
    [src/src/app/payments/idempotency.ts], the wallet-to-wallet send of
    [app/payments/send-intraledger.ts] with its validations
    ([app/wallets/validate.ts], [app/wallets/usd-wallet-amount.ts],
    [domain/wallets/validation.ts], [domain/accounts/account-validator.ts]), and
    the reading of a payment's status in [services/ibex/payment-status.ts]. *)

From stdpp Require Import base gmap list strings.
From Stdlib Require Import ZArith Lia Ascii.
From S2P Require Import Prelude JsStrings JsNumbers Processes Errors MoneyAmounts World.
From S2P Require Import Ibex Repos TopupWorld.

Open Scope Z_scope.
Open Scope flash_scope.

(** ** The status of a payment *)

Definition statusFromField (value : option Z) : option PaymentSendStatus :=
  match value with
  | Some 1 => Some PaymentPending
  | Some 2 => Some PaymentSuccess
  | Some 3 => Some PaymentFailure
  | _ => None
  end.

(** A text that [Number] reads as an infinity. *)
Definition infinite_text (t : string) : bool :=
  let u := match t with String "-" r | String "+" r => r | _ => t end in
  bool_decide (u = "Infinity")
  || match unsigned_decimal u with Some x => negb (num_isFinite x) | None => false end.

(** [Number.isNaN(Number(s))] *)
Definition js_isNaN (s : string) : bool :=
  match js_Number s with Some _ => false | None => negb (infinite_text (js_trim s)) end.

Definition reportsFailureCode (value : option ibex_code) : bool :=
  match value with
  | None => false
  | Some (CodeNumber n) => 0 <? n
  | Some (CodeText s) =>
      let trimmed := js_trim s in
      if negb (nonempty trimmed) then false
      else if js_isNaN trimmed then true
      else match js_Number trimmed with Some x => num_ltb (num_of_Z 0) x | None => false end
  end.

(** A status, or [UnconfirmedIbexPayment] with the terminal claim it did not
    honour. *)
Inductive ibex_status := Confirmed (s : PaymentSendStatus) | Unconfirmed (claim : option PaymentSendStatus).

Definition paymentLevel (r : pay_response) : option PaymentSendStatus :=
  match statusFromField (pr_payment_status_id r) with
  | Some s => Some s
  | None => statusFromField (pr_payment_statusId r)
  end.

Definition paymentSendStatusFromIbex (r : pay_response) : ibex_status :=
  match paymentLevel r with
  | Some s => Confirmed s
  | None =>
      match statusFromField (pr_status r) with
      | Some PaymentPending => Confirmed PaymentPending
      | Some PaymentFailure =>
          if reportsFailureCode (pr_failureReason r) || reportsFailureCode (pr_payment_failureId r)
          then Confirmed PaymentFailure else Unconfirmed (Some PaymentFailure)
      | claim => Unconfirmed claim
      end
  end.

Definition paymentSendStatusOrPending (r : pay_response) : PaymentSendStatus :=
  match paymentSendStatusFromIbex r with Confirmed s => s | Unconfirmed _ => PaymentPending end.

(** A terminal status is never invented: success is reported exactly when the
    payment itself says so, and failure when it does, or when it says nothing and
    the response reports a failure together with a failure code. *)
Theorem status_reported (r : pay_response) :
  (paymentSendStatusOrPending r = PaymentSuccess <-> paymentLevel r = Some PaymentSuccess) /\
  (paymentSendStatusOrPending r = PaymentFailure <->
     paymentLevel r = Some PaymentFailure \/
     (paymentLevel r = None /\ statusFromField (pr_status r) = Some PaymentFailure /\
      reportsFailureCode (pr_failureReason r) || reportsFailureCode (pr_payment_failureId r) = true)).
Proof.
  unfold paymentSendStatusOrPending, paymentSendStatusFromIbex.
  assert (statusFromField (pr_status r) <> Some AlreadyPaid) by (unfold statusFromField; by repeat case_match).
  destruct (paymentLevel r) as [[]|]; [naive_solver..|].
  destruct (statusFromField (pr_status r)) as [[]|]; try naive_solver.
  destruct (reportsFailureCode (pr_failureReason r) || reportsFailureCode (pr_payment_failureId r));
    naive_solver.
Qed.

(** The constants of [PaymentSendStatus] are objects, compared by identity; what
    comes back from the cache is a copy, equal to none of them. *)
Inductive status_ref := Constant (s : PaymentSendStatus) | Copy (s : PaymentSendStatus).

Definition same_object (r : status_ref) (s : PaymentSendStatus) : bool :=
  match r with Constant s' => bool_decide (s' = s) | Copy _ => false end.

(** ** Validations *)

Fixpoint all_hex (s : string) : bool :=
  match s with EmptyString => true | String c s' => (radix_digit c <? 16) && all_hex s' end.

Definition hex_block (n : nat) (s : string) : bool := (String.length s =? n)%nat && all_hex s.

Definition first_in (l : list ascii) (s : string) : bool :=
  match s with String c _ => bool_decide (c ∈ l) | EmptyString => false end.

(** [UuidRegex] *)
Definition re_uuid (s : string) : bool :=
  match split_on "-" s with
  | [a; b; c; d; e] =>
      hex_block 8 a && hex_block 4 b
      && (hex_block 4 c && first_in ["1"; "2"; "3"; "4"; "5"]%char c)
      && (hex_block 4 d && first_in ["8"; "9"; "a"; "b"; "A"; "B"]%char d)
      && hex_block 12 e
  | _ => false
  end.

Definition checkedToWalletId (walletId : string) : outcome error string :=
  if re_uuid walletId then Ok walletId else Err (new_error InvalidWalletId walletId).

Definition isActive (a : account) : outcome error unit :=
  if bool_decide (a_status a = StatusActive) then Ok tt
  else Err (new_error InactiveAccountError (a_id a)).

Definition usdWalletAmountFromInput (amount : string) (currency : WalletCurrency) :
    outcome error MoneyAmount :=
  match currency with
  | Usd => USD_cents (BigintMoney.InString amount)
  | Usdt => USDT_usdCents amount
  | _ => Err (new_error UnsupportedCurrencyError
                ("USD wallet amount unsupported for " +:+ currency_name currency))
  end.

Section Sends.
Context `{X : TopupExternal}.

Definition validateIsUsdWallet (walletId : string) (includeUsdt : bool) : TApp unit :=
  let* wl := base (wallets_findById walletId) in
  if bool_decide (wl_currency wl = Usd) || (includeUsdt && bool_decide (wl_currency wl = Usdt))
  then pret tt else pfail (new_error0 MismatchedCurrencyForWalletError).

Definition validateIsBtcWallet (walletId : string) : TApp unit :=
  let* wl := base (wallets_findById walletId) in
  if bool_decide (wl_currency wl = Btc) then pret tt
  else pfail (new_error0 MismatchedCurrencyForWalletError).

Definition validateIntraledgerPaymentInputs (sender recipient : string) : TApp (wallet * wallet) :=
  let* senderWalletId := Done (checkedToWalletId sender) in
  let* senderWallet := base (wallets_findById senderWalletId) in
  let* senderAccount := base (accounts_findById (wl_accountId senderWallet)) in
  Done (isActive senderAccount) ;;;
  let* recipientWalletId := Done (checkedToWalletId recipient) in
  let* recipientWallet := base (wallets_findById recipientWalletId) in
  let* recipientAccount := base (accounts_findById (wl_accountId recipientWallet)) in
  Done (isActive recipientAccount) ;;;
  pret (senderWallet, recipientWallet).

(** [Ibex.payInvoice]; [w_paid] records a payment IBEX acknowledged. *)
Definition pay_and_log (accountId invoice : string) : App pay_response :=
  let! resp := payInvoice accountId invoice None in
  modify (log_payment (mkPayment accountId invoice None None)) ;;
  ret resp.

Record send_args := mkSendArgs {
  sa_senderWalletId : string;
  sa_recipientWalletId : string;
  sa_amount : Z;
  sa_memo : option string;
  sa_idempotencyKey : option string
}.

Definition intraledgerPaymentSendWalletId (args : send_args) : TApp status_ref :=
  let* wallets := validateIntraledgerPaymentInputs (sa_senderWalletId args) (sa_recipientWalletId args) in
  let '(senderWallet, recipientWallet) := wallets in
  if negb (bool_decide (wl_currency senderWallet = wl_currency recipientWallet))
  then pfail (new_error0 MismatchedCurrencyForWalletError) else
  let* amount := Done (usdWalletAmountFromInput (bigint_toString (sa_amount args))
                         (wl_currency senderWallet)) in
  let* bolt11 := base (addInvoice (wl_id recipientWallet) (Some amount)
                         (default "flash-to-flash" (nonempty_opt (sa_memo args))) None) in
  match bolt11 with
  | None => pfail (new_error UnexpectedIbexResponse "Bolt11 field not found.")
  | Some invoice =>
      let* payResp := base (pay_and_log (sa_senderWalletId args) invoice) in
      pret (Constant (paymentSendStatusOrPending payResp))
  end.

(** ** The wrapper *)

Definition IDEMPOTENCY_TTL_SECS : Z := 24 * 60 * 60.
Definition MAX_KEY_LENGTH : Z := 256.

Definition resolveCached (fingerprint : string) (entry : CachedPaymentSend) : TApp status_ref :=
  if bool_decide (cs_fingerprint entry = fingerprint) then pret (Copy (cs_result entry))
  else pfail (new_error0 IdempotencyKeyReuseError).

(** [JSON.stringify] forgets which object a status is. *)
Definition status_of (r : status_ref) : PaymentSendStatus :=
  match r with Constant s | Copy s => s end.

(** Under the lock: look again, send, and keep a definite result. *)
Definition send_locked (scopedKey fingerprint : string) (execute : TApp status_ref) :
    TApp status_ref :=
  let* cached := pattempt (cache_get r_sends scopedKey) in
  match cached with
  | inr entry => resolveCached fingerprint entry
  | inl _ =>
      let* outcome := execute in
      pattempt (cache_set set_sends r_sends scopedKey
        (mkCachedSend fingerprint (status_of outcome)) IDEMPOTENCY_TTL_SECS) ;;;
      pret outcome
  end.

Definition withPaymentIdempotency (idempotencyKey : option string) (senderWalletId : string)
    (requestFingerprint : string) (execute : TApp status_ref) : TApp status_ref :=
  match idempotencyKey with
  | None => execute
  | Some key =>
      let trimmedKey := js_trim key in
      if negb (nonempty trimmedKey) then execute else
      if MAX_KEY_LENGTH <? slen trimmedKey then pfail (new_error InvalidIdempotencyKeyError key) else
      let scopedKey := senderWalletId +:+ ":" +:+ trimmedKey in
      let fingerprint := sha256_hex requestFingerprint in
      let* cached := pattempt (cache_get r_sends scopedKey) in
      match cached with
      | inr entry => resolveCached fingerprint entry
      | inl _ => lockPaymentIdempotencyKey scopedKey (send_locked scopedKey fingerprint execute)
      end
  end.

Definition notifyIntraledgerSendResult (result : outcome error status_ref) : TApp unit :=
  match result with
  | Ok r =>
      if same_object r PaymentFailure then emit (OpsEvent "transfer:failed")
      else if same_object r PaymentPending then emit (OpsEvent "transfer:pending")
      else emit (OpsEvent "transfer:succeeded")
  | Err _ => emit (OpsEvent "transfer:failed")
  | Throw e => pthrow e
  end.

(** A result is passed on once it was announced; an exception is not announced. *)
Definition announced (c : TApp status_ref) : TApp status_ref :=
  let* result := pcapture c in
  notifyIntraledgerSendResult result ;;;
  Done result.

Definition send_fingerprint (args : send_args) : string :=
  "intraledger|" +:+ sa_recipientWalletId args +:+ "|" +:+ bigint_toString (sa_amount args).

Definition intraledgerPaymentSendWalletIdForBtcWallet (args : send_args) : TApp status_ref :=
  withPaymentIdempotency (sa_idempotencyKey args) (sa_senderWalletId args) (send_fingerprint args)
    (announced
       (validateIsBtcWallet (sa_senderWalletId args) ;;; intraledgerPaymentSendWalletId args)).

Definition intraledgerPaymentSendWalletIdForUsdWallet (args : send_args) : TApp status_ref :=
  withPaymentIdempotency (sa_idempotencyKey args) (sa_senderWalletId args) (send_fingerprint args)
    (announced
       (validateIsUsdWallet (sa_senderWalletId args) true ;;; intraledgerPaymentSendWalletId args)).

End Sends.
