(* ===== verification/PaymentOnce.v ===== *)
(** * One key, one payment

    However many sends race under one idempotency key, IBEX acknowledges at most
    one payment, and every send that reports a status reports the status of that
    payment ([src/src/app/payments/idempotency.ts] around
    [app/payments/send-intraledger.ts]). *)

From stdpp Require Import base gmap list strings.
From Stdlib Require Import ZArith Lia.
From S2P Require Import Prelude JsStrings JsNumbers Processes Errors MoneyAmounts World.
From S2P Require Import Ibex Repos TopupWorld PaymentIdempotency.

Open Scope Z_scope.
Open Scope flash_scope.

(** ** What the other services leave alone *)

(** The payments made, the accounts and the wallets. *)
Definition settled `{X : External} (w w' : world) : Prop :=
  w_paid w' = w_paid w /\ w_accounts w' = w_accounts w /\ w_wallets w' = w_wallets w.

#[export] Instance settled_preorder `{X : External} : PreOrder settled.
Proof.
  split; [done|]. intros w1 w2 w3 (? & ? & ?) (? & ? & ?). split_and!; congruence.
Qed.

Section Settled.
Context `{X : External}.

Lemma settled_read {A} (f : world -> A) : guarantees settled (mongo (read f)).
Proof. intros w. unfold mongo. by destruct (mongo_fault (w_ops w)) as [[]|]. Qed.

Lemma settled_sdk {A} (f : ibex_state -> sdk_result A * ibex_state) : guarantees settled (sdk f).
Proof. intros w. unfold sdk. by destruct (f (w_ibex w)) as [[] s]. Qed.
End Settled.

Ltac settled_tac :=
  repeat first
    [ match goal with |- forall _, _ => intros ? end
    | match goal with H : _ |- _ => solve [apply H] end
    | apply settled_read | apply settled_sdk
    | (apply guarantees_ret; exact _) | (apply guarantees_fail; exact _)
    | (apply guarantees_throw; exact _) | (apply guarantees_lift; exact _)
    | (apply guarantees_bind; [exact _| |])
    | (apply guarantees_catch; [exact _| |])
    | (progress case_match) ].

Section SettledCalls.
Context `{X : TopupExternal}.

Lemma settled_listByAccountId a : guarantees settled (listByAccountId a).
Proof. unfold listByAccountId, guarded, toObjectId. settled_tac. Qed.
Lemma settled_wallets_findById a : guarantees settled (wallets_findById a).
Proof. unfold wallets_findById, guarded. settled_tac. Qed.
Lemma settled_accounts_findById a : guarantees settled (accounts_findById a).
Proof. unfold accounts_findById, guarded, toObjectId. settled_tac. Qed.
Lemma settled_addInvoice a b c d : guarantees settled (addInvoice a b c d).
Proof. unfold addInvoice, toIbex_opt. settled_tac. Qed.
Lemma settled_payInvoice a b c : guarantees settled (payInvoice a b c).
Proof. unfold payInvoice, toIbex_opt. settled_tac. Qed.
End SettledCalls.

(** ** The ghost states of a send

    [Apart] from the lock; [Locked]; [Sending] under the lock, with no result
    kept; [Paid], not kept yet; [Kept], still under the lock; [Found] a kept
    result under the lock; and, without the lock, [Sent] or [Told] a status. *)
Inductive sending :=
| Apart | Locked | Sending | Paid
| Kept (s : PaymentSendStatus) | Found (s : PaymentSendStatus)
| Sent (s : PaymentSendStatus) | Told (s : PaymentSendStatus).

Definition holds (g : sending) : Z :=
  match g with Locked | Sending | Paid | Kept _ | Found _ => 1 | _ => 0 end.
Definition sends (g : sending) : Z := match g with Sending | Paid => 1 | _ => 0 end.
Definition owes (g : sending) : Z := match g with Paid => 1 | _ => 0 end.
Definition paid (g : sending) : Z := match g with Paid | Kept _ | Sent _ => 1 | _ => 0 end.
Definition learnt (g : sending) : option PaymentSendStatus :=
  match g with Kept s | Found s | Sent s | Told s => Some s | _ => None end.

Section Once.
Context `{X : TopupExternal}.
Variables (scopedKey : string) (before : nat).
Variables (accounts0 : gmap string account) (wallets0 : list wallet).

(** Redis answers, and a result outlives the requests. *)
Record steady : Prop := {
  st_answers : forall n, redis_fault n = None;
  st_lasting : forall n m, redis_time n < redis_time m + IDEMPOTENCY_TTL_SECS * 1000
}.

Definition lock_path : string := "locks:payment-idempotency:" +:+ scopedKey.
Definition paid_so_far (w : tworld) : nat := length (w_paid (t_base w)).

(** What is kept under the key. *)
Definition kept (r : redis_state) (ss : list sending) : Prop :=
  match r_sends r !! scopedKey with
  | None => total paid ss = total owes ss /\ forall i g, ss !! i = Some g -> learnt g = None
  | Some (entry, expiry) =>
      (forall n, redis_time n < expiry) /\ total sends ss = 0 /\ total paid ss = 1 /\
      forall i g s, ss !! i = Some g -> learnt g = Some s -> s = cs_result entry
  end.

Definition people (w : tworld) : Prop :=
  w_accounts (t_base w) = accounts0 /\ w_wallets (t_base w) = wallets0.

Definition once (w : tworld) (ss : list sending) : Prop :=
  kept (t_redis w) ss /\
  total holds ss = (if bool_decide (lock_path ∈ r_locks (t_redis w)) then 1 else 0) /\
  Z.of_nat (paid_so_far w) = Z.of_nat before + total paid ss /\ people w.

Lemma totals_bounded ss : 0 <= total owes ss <= total sends ss /\ total sends ss <= total holds ss.
Proof.
  split_and!; [apply total_nonneg|apply total_le..]; intros []; done.
Qed.

(** At most one send pays. *)
Lemma once_paid w ss : once w ss -> total paid ss <= 1.
Proof.
  intros (Hk & Hh & _). pose proof (totals_bounded ss). unfold kept in Hk.
  destruct (r_sends _ !! _) as [[entry expiry]|]; [lia|]. destruct Hk as [-> _].
  case_bool_decide; lia.
Qed.

(** Those that report a status agree. *)
Lemma once_agree w ss i j g h s t : once w ss -> ss !! i = Some g -> ss !! j = Some h ->
  learnt g = Some s -> learnt h = Some t -> s = t.
Proof.
  intros (Hk & _) Hi Hj Hs Ht. unfold kept in Hk. destruct (r_sends _ !! _) as [[entry expiry]|].
  - destruct Hk as (_ & _ & _ & Hl). by rewrite (Hl i g s Hi Hs), (Hl j h t Hj Ht).
  - destruct Hk as [_ Hl]. by rewrite (Hl i g Hi) in Hs.
Qed.

Lemma lookup_inserted (ss : list sending) i j g g' : <[i := g']> ss !! j = Some g ->
  g = g' \/ ss !! j = Some g.
Proof.
  destruct (decide (i = j)) as [<-|Hne]; [|rewrite list_lookup_insert_ne by done; auto].
  intros Hl. left. destruct (decide (i < length ss)%nat).
  - rewrite list_lookup_insert_eq in Hl by done. congruence.
  - apply lookup_lt_Some in Hl. rewrite length_insert in Hl. lia.
Qed.

(** Moves of one send that leave what is kept as it is. *)
Lemma kept_move r ss i g g' : ss !! i = Some g -> kept r ss ->
  paid g' = paid g -> owes g' = owes g -> (sends g' <= sends g \/ r_sends r !! scopedKey = None) ->
  (learnt g' = None \/ learnt g' = learnt g \/
     exists entry expiry, r_sends r !! scopedKey = Some (entry, expiry) /\
       learnt g' = Some (cs_result entry)) ->
  kept r (<[i := g']> ss).
Proof.
  intros Hi Hk Hp Ho Hs Hl. unfold kept in *.
  rewrite !(total_insert _ ss i g g' Hi), Hp, Ho.
  destruct (r_sends r !! scopedKey) as [[entry expiry]|].
  - destruct Hk as (Hx & Hz & H1 & Ha). split_and!; [done| |lia|].
    + destruct Hs as [Hs|]; [|done].
      pose proof (total_elem sends ss i g ltac:(intros []; cbn; lia) Hi).
      assert (0 <= sends g') by (destruct g'; cbn; lia). lia.
    + intros j h s [->|Hj]%lookup_inserted Hh; [|by apply (Ha j h)].
      destruct Hl as [Hl|[Hl|(e & x & He & Hl)]]; [congruence| |by simplify_eq].
      apply (Ha i g); [done|congruence].
  - destruct Hk as [H1 Ha]. split; [lia|]. intros j h [->|Hj]%lookup_inserted; [|by apply (Ha j)].
    destruct Hl as [Hl|[Hl|(e & x & He & Hl)]]; [done| |done]. rewrite Hl. by apply (Ha i).
Qed.

Hypothesis Hst : steady.

(** A command of Redis, which answers. *)
Lemma safe_steady {A} (P : sending -> outcome error A -> Prop) i op g :
  (forall now n w ss, redis_time n = now -> once w ss -> ss !! i = Some g ->
     exists g', once (set_redis (op now (t_redis w)).2 w) (<[i := g']> ss) /\
       P g' (Ok (op now (t_redis w)).1)) ->
  safe once P i (redis op) g.
Proof.
  intros Hop w ss HI Hi. unfold redis.
  destruct (Hop _ (t_redis_ops w) w ss eq_refl HI Hi) as (g' & HI' & HP).
  rewrite (st_answers Hst). destruct (op _ _) as [a r]. by exists g'.
Qed.

Lemma safe_uncaught {A} (P : sending -> outcome error A -> Prop) i (c : TApp A) h g :
  safe once (fun g o => P g o /\ forall e, o <> Throw e) i c g -> safe once P i (pcatch c h) g.
Proof.
  intros Hc. eapply safe_catch; [exact Hc|]. intros g' [a|e|e] [HP Ht]; [done..|].
  by destruct (Ht e).
Qed.

(** Reading the key: what is kept is told, and a send under the lock that finds
    nothing may go on. *)
Lemma safe_cache_get (P : sending -> outcome error CachedPaymentSend -> Prop) i g gnone gsome :
  (forall w ss, once w ss -> ss !! i = Some g -> r_sends (t_redis w) !! scopedKey = None ->
     once w (<[i := gnone]> ss)) ->
  (forall w ss entry x, once w ss -> ss !! i = Some g ->
     r_sends (t_redis w) !! scopedKey = Some (entry, x) ->
     once w (<[i := gsome (cs_result entry)]> ss)) ->
  (forall e, P gnone (Err e)) ->
  (forall entry, P (gsome (cs_result entry)) (Ok entry)) ->
  safe once P i (cache_get r_sends scopedKey) g.
Proof.
  intros Hn Hs Pn Ps. unfold cache_get.
  eapply safe_bind with (Q := fun g' o => match o with
    | Ok None => g' = gnone | Ok (Some entry) => g' = gsome (cs_result entry) | _ => False end);
    [|intros g' [[entry|]|e|e] Hg; try done; subst g'; cbn; auto].
  apply safe_uncaught, safe_steady. intros now n w ss Hnow HI Hi. cbn [fst snd].
  assert (set_redis (t_redis w) w = w) as -> by by destruct w.
  destruct (r_sends (t_redis w) !! scopedKey) as [[entry x]|] eqn:Hr; cbn [live mbind option_bind].
  - assert ((now <? x) = true) as ->.
    { destruct HI as [Hk _]. unfold kept in Hk. rewrite Hr in Hk. destruct Hk as [Hx _].
      subst now. specialize (Hx n). lia. }
    exists (gsome (cs_result entry)). split; [by eapply Hs|done].
  - exists gnone. split; [by apply Hn|done].
Qed.

Lemma once_move w ss i g g' : ss !! i = Some g -> once w ss ->
  holds g' = holds g -> paid g' = paid g -> owes g' = owes g ->
  (sends g' <= sends g \/ r_sends (t_redis w) !! scopedKey = None) ->
  (learnt g' = None \/ learnt g' = learnt g \/
     exists entry expiry, r_sends (t_redis w) !! scopedKey = Some (entry, expiry) /\
       learnt g' = Some (cs_result entry)) ->
  once w (<[i := g']> ss).
Proof.
  intros Hi (Hk & Hh & Hp & Hpeople) Eh Ep Eo Es El. split_and!; [by eapply kept_move| | |done].
  - rewrite (total_insert _ ss i g g' Hi). lia.
  - rewrite (total_insert _ ss i g g' Hi). lia.
Qed.

(** *** The lock *)

Lemma safe_lock_try i :
  safe once (fun g o => (o = Ok true /\ g = Locked) \/ (o = Ok false /\ g = Apart)) i
    (lock_try lock_path) Apart.
Proof.
  apply safe_uncaught, safe_steady. intros now n w ss _ HI Hi.
  destruct HI as (Hk & Hh & Hp & Hpeople). case_bool_decide as Hl; cbn [fst snd].
  - exists Apart. rewrite list_insert_id by done. split; [|split; [by right|done]].
    assert (set_redis (t_redis w) w = w) as -> by by destruct w.
    split_and!; [done|by rewrite bool_decide_eq_true_2|done|done].
  - exists Locked. split; [|split; [by left|done]]. split_and!; cbn.
    + apply (kept_move (t_redis w) ss i Apart); [done..|by left|by left].
    + rewrite (total_insert _ ss i Apart) by done. cbn. rewrite bool_decide_eq_true_2 by set_solver. lia.
    + rewrite (total_insert _ ss i Apart) by done. cbn. unfold paid_so_far in *. cbn. lia.
    + exact Hpeople.
Qed.

Lemma safe_lock_acquire n i :
  safe once (fun g o => (o = Ok true /\ g = Locked) \/ (o = Ok false /\ g = Apart)) i
    (lock_acquire n lock_path) Apart.
Proof.
  induction n as [|n IH]; [by right|]. cbn [lock_acquire].
  eapply safe_bind; [apply safe_lock_try|]. intros g o [[-> ->]|[-> ->]]; [by left|exact IH].
Qed.

(** Leaving the lock, with or without a status. *)
Definition outside (g : sending) : sending :=
  match g with Kept s => Sent s | Found s => Told s | _ => Apart end.

Lemma safe_lock_release i g : holds g = 1 -> owes g = 0 ->
  safe once (fun g' o => o = Ok true /\ g' = outside g) i (lock_release lock_path) g.
Proof.
  intros Hg Ho. apply safe_uncaught, safe_steady. intros now n w ss _ (Hk & Hh & Hp & Hpeople) Hi.
  exists (outside g). split; [|by split].
  pose proof (total_elem holds ss i g ltac:(intros []; cbn; lia) Hi) as Hle.
  assert (paid (outside g) = paid g /\ owes (outside g) = owes g /\ sends (outside g) = 0 /\
    holds (outside g) = 0) as (Ep & Eo & Es & Eh) by by destruct g.
  assert (0 <= sends g) by (destruct g; cbn; lia). split_and!; cbn.
  - apply (kept_move (t_redis w) ss i g); [done..|left; lia|]. destruct g; cbn; auto.
  - rewrite (total_insert _ ss i g) by done. rewrite bool_decide_eq_false_2 by set_solver.
    case_bool_decide; lia.
  - rewrite (total_insert _ ss i g) by done. unfold paid_so_far in *. cbn. lia.
  - exact Hpeople.
Qed.

(** Keeping the result of the payment. *)
Lemma safe_keep i fp s :
  safe once (fun g o => (exists a, o = Ok a) /\ g = Kept s) i
    (pattempt (cache_set set_sends r_sends scopedKey (mkCachedSend fp s) IDEMPOTENCY_TTL_SECS)) Paid.
Proof.
  apply safe_attempt. eapply safe_mono with
    (P := fun g o => (exists a, o = Ok a) /\ g = Kept s).
  { intros g o [[a ->] ->]. split; [by eexists|done]. }
  apply safe_uncaught, safe_steady. intros now n w ss Hnow (Hk & Hh & Hp & Hpeople) Hi. cbn [fst snd].
  exists (Kept s). split; [|split; [split; [by eexists|done]|done]].
  pose proof (totals_bounded ss) as Hb.
  pose proof (total_elem owes ss i Paid ltac:(intros []; cbn; lia) Hi) as Hle. cbn in Hle.
  unfold kept in Hk. destruct (r_sends (t_redis w) !! scopedKey) as [[e x]|] eqn:Hr; [lia|].
  destruct Hk as [Hpo Hl]. split_and!.
  - unfold kept. cbn. rewrite lookup_insert_eq. rewrite !(total_insert _ ss i Paid) by done. cbn.
    assert (total holds ss <= 1) by (rewrite Hh; case_bool_decide; lia).
    split_and!; [|lia|lia|].
    + intros m. subst now. apply (st_lasting Hst).
    + intros j h t [->|Hj]%lookup_inserted Ht; [by injection Ht|]. by rewrite (Hl j h Hj) in Ht.
  - rewrite (total_insert _ ss i Paid) by done. cbn. lia.
  - rewrite (total_insert _ ss i Paid) by done. unfold paid_so_far in *. cbn. lia.
  - exact Hpeople.
Qed.

(** *** The wrapper *)

(** What the wrapped send must do: pay once, and then report a constant. *)
Definition pays_once (execute : TApp status_ref) : Prop := forall i,
  safe once (fun g o => match o with
    | Ok r => g = Paid /\ exists s, r = Constant s | _ => g = Sending end) i execute Sending.

Definition reported (g : sending) (o : outcome error status_ref) : Prop :=
  match o with Ok (Constant s) => g = Sent s | Ok (Copy s) => g = Told s | _ => True end.

Lemma safe_send_locked i fp execute : pays_once execute ->
  safe once (fun g o => holds g = 1 /\ owes g = 0 /\ reported (outside g) o) i
    (send_locked scopedKey fp execute) Locked.
Proof.
  intros Hex. unfold send_locked.
  eapply safe_bind with (Q := fun g o => match o with
    | Ok (inl _) => g = Sending | Ok (inr entry) => g = Found (cs_result entry) | _ => False end).
  - apply safe_attempt, safe_cache_get with (gnone := Sending) (gsome := Found); [| |done|done].
    + intros w ss HI Hi Hr. apply (once_move w ss i Locked); [done..|by right|by left].
    + intros w ss entry x HI Hi Hr. apply (once_move w ss i Locked); [done..|by left|].
      right; right. by exists entry, x.
  - intros g [[e|entry]|e|e] Hg; try done; subst g.
    + eapply safe_bind; [apply Hex|]. intros g [r|e'|e'] Hr; [|by subst g..].
      destruct Hr as [-> [s ->]]. eapply safe_bind; [apply safe_keep|].
      intros g o [[a ->] ->]. done.
    + unfold resolveCached. case_bool_decide; done.
Qed.

Lemma safe_withPaymentIdempotency i key sender fp execute :
  sender +:+ ":" +:+ js_trim key = scopedKey -> nonempty (js_trim key) = true ->
  pays_once execute ->
  safe once reported i (withPaymentIdempotency (Some key) sender fp execute) Apart.
Proof.
  intros Hkey Hne Hex. unfold withPaymentIdempotency. rewrite Hne. cbn [negb].
  destruct (MAX_KEY_LENGTH <? slen (js_trim key)); [done|]. rewrite Hkey.
  eapply safe_bind with (Q := fun g o => match o with
    | Ok (inl _) => g = Apart | Ok (inr entry) => g = Told (cs_result entry) | _ => False end).
  - apply safe_attempt, safe_cache_get with (gnone := Apart) (gsome := Told); [| |done|done].
    + intros w ss HI Hi Hr. by rewrite list_insert_id.
    + intros w ss entry x HI Hi Hr. apply (once_move w ss i Apart); [done..|by left|].
      right; right. by exists entry, x.
  - intros g [[e|entry]|e|e] Hg; try done; subst g;
      [|unfold resolveCached; by case_bool_decide].
    unfold lockPaymentIdempotencyKey, redlock, with_lock. eapply safe_bind; [apply safe_lock_acquire|].
    intros g o [[-> ->]|[-> ->]]; [|done]. eapply safe_bind.
    { apply safe_capture. eapply safe_mono; [|by apply safe_send_locked].
      intros g r Hg. instantiate (1 := fun g o => match o with
        | Ok r => holds g = 1 /\ owes g = 0 /\ reported (outside g) r | _ => False end). exact Hg. }
    intros g [r|e'|e'] Hg; [|done..]. destruct Hg as (Hh & Ho & Hr).
    eapply safe_bind; [by apply safe_lock_release|]. intros g' o [-> ->]. by destruct r.
Qed.

(** *** The send *)

Lemma once_base w ss b : once w ss -> settled (t_base w) b -> once (set_base b w) ss.
Proof.
  intros (Hk & Hh & Hp & Ha & Hw) (Ep & Ea & Ew). split_and!; [done|done| |].
  - unfold paid_so_far in *. cbn. by rewrite Ep.
  - split; cbn; congruence.
Qed.

Lemma aloof_base {A} (c : App A) : guarantees settled c -> quietly once (base c).
Proof.
  intros Hc. apply keeps_atomic. intros w ss HI. specialize (Hc (t_base w)).
  destruct (c (t_base w)) as [o b]. split; [|done]. by apply once_base.
Qed.

Lemma aloof_emit e : quietly once (emit e).
Proof. by apply keeps_atomic. Qed.

Lemma quietly_notify o : quietly once (notifyIntraledgerSendResult o).
Proof.
  unfold notifyIntraledgerSendResult. pose proof aloof_emit. eauto 6 with quiet_calls.
Qed.

Lemma quietly_inputs a b : quietly once (validateIntraledgerPaymentInputs a b).
Proof.
  unfold validateIntraledgerPaymentInputs.
  pose proof (fun a => aloof_base _ (settled_wallets_findById a)).
  pose proof (fun a => aloof_base _ (settled_accounts_findById a)). eauto 20 with quiet_calls.
Qed.

Lemma safe_pay i acc invoice :
  safe once (fun g o => match o with Ok _ => g = Paid | _ => g = Sending end) i
    (base (pay_and_log acc invoice)) Sending.
Proof.
  apply safe_atomic. intros w ss HI Hi. unfold pay_and_log, bind.
  pose proof (settled_payInvoice acc invoice None (t_base w)) as Hs.
  destruct (payInvoice acc invoice None (t_base w)) as [[r|e|e] b]; cbn in Hs |- *.
  2,3: exists Sending; rewrite list_insert_id by done; split; [by apply once_base|done].
  exists Paid. split; [|done]. destruct HI as (Hk & Hh & Hpaid & Hpeople).
  pose proof (total_elem sends ss i Sending ltac:(intros []; cbn; lia) Hi) as Hle. cbn in Hle.
  split_and!.
  - unfold kept in *. cbn. rewrite !(total_insert _ ss i Sending) by done. cbn.
    destruct (r_sends (t_redis w) !! scopedKey) as [[entry x]|]; [lia|]. destruct Hk as [Hpo Hl].
    split; [lia|]. by intros j h [->|Hj%Hl]%lookup_inserted.
  - rewrite (total_insert _ ss i Sending) by done. cbn. lia.
  - rewrite (total_insert _ ss i Sending) by done. unfold paid_so_far in *. cbn.
    destruct Hs as (-> & _). rewrite length_app. cbn. lia.
  - destruct Hs as (_ & Ea & Ew), Hpeople as [Ha Hw]. split; cbn; congruence.
Qed.

Lemma send_pays_once args : pays_once (intraledgerPaymentSendWalletId args).
Proof.
  intros i. unfold intraledgerPaymentSendWalletId.
  apply safe_quietly; [apply quietly_inputs| |done..]. intros [sw rw].
  case_match; [done|]. apply safe_quietly; [apply quietly_done| |done..]. intros amount.
  apply safe_quietly; [apply aloof_base, settled_addInvoice| |done..]. intros [invoice|]; [|done].
  eapply safe_bind; [apply safe_pay|]. intros g [r|e|e] ->; [|done..]. split; [done|by eexists].
Qed.

(** A validation before the send, and an announcement after it, change nothing. *)
Lemma announced_pays_once (c : TApp unit) execute :
  quietly once c -> pays_once execute -> pays_once (announced (c ;;; execute)).
Proof.
  intros Hc Hex i. unfold announced. eapply safe_bind.
  { apply safe_capture with (P := fun g o => match o with
      | Ok (Ok r) => g = Paid /\ exists s, r = Constant s | Ok _ => g = Sending | _ => False end).
    apply safe_quietly; [exact Hc| |done..]. intros _. apply Hex. }
  intros g [[r|e|e]|e|e] Hg; try done.
  - destruct Hg as [-> [s ->]]. unfold notifyIntraledgerSendResult.
    eapply safe_bind with (Q := fun g o => o = Ok tt /\ g = Paid);
      [|intros g o [-> ->]; split; [done|by eexists]].
    repeat case_match; apply safe_atomic; intros w ss HI Hi; exists Paid;
      by rewrite list_insert_id.
  - subst g. apply safe_quietly; [apply quietly_notify|done..].
Qed.

Lemma usd_pays_once args : pays_once (announced
  (validateIsUsdWallet (sa_senderWalletId args) true ;;; intraledgerPaymentSendWalletId args)).
Proof.
  apply announced_pays_once; [|apply send_pays_once]. unfold validateIsUsdWallet.
  pose proof (fun a => aloof_base _ (settled_wallets_findById a)). eauto 8 with quiet_calls.
Qed.
End Once.

(** ** The result *)

(** Sends of one wallet under one key. *)
Definition same_key (sender key : string) (args : send_args) : Prop :=
  sa_senderWalletId args = sender /\
  exists k, sa_idempotencyKey args = Some k /\ js_trim k = key.

Section Result.
Context `{X : TopupExternal}.

Lemma once_start scopedKey w (n : nat) :
  r_sends (t_redis w) !! scopedKey = None ->
  lock_path scopedKey ∉ r_locks (t_redis w) ->
  once scopedKey (paid_so_far w) (w_accounts (t_base w)) (w_wallets (t_base w)) w
    (replicate n Apart).
Proof.
  intros Hs Hl. assert (forall f, f Apart = 0 -> total f (replicate n Apart) = 0) as Ht.
  { intros f Hf. induction n as [|n IH]; [done|]. cbn. fold (total f (replicate n Apart)). lia. }
  split_and!.
  - unfold kept. rewrite Hs, !Ht by done. split; [done|].
    by intros i g [-> _]%lookup_replicate_1.
  - rewrite Ht by done. by rewrite bool_decide_eq_false_2.
  - rewrite Ht by done. lia.
  - done.
Qed.

(** C8: however many sends race under one idempotency key, IBEX acknowledges at
    most one payment; every send that reports a status reports the same one;
    and if one reports a status, the payment was made. This holds while Redis
    answers every call and the cached results outlive the sends ([steady]), for
    sends of one sender under one key that is neither in the cache nor locked
    before. *)
Theorem one_key_one_payment sender key reqs w sched :
  steady -> nonempty key = true -> Forall (same_key sender key) reqs ->
  r_sends (t_redis w) !! (sender +:+ ":" +:+ key) = None ->
  lock_path (sender +:+ ":" +:+ key) ∉ r_locks (t_redis w) ->
  let '(ps, w') := exec sched (intraledgerPaymentSendWalletIdForUsdWallet <$> reqs) w in
  (length (w_paid (t_base w')) <= S (length (w_paid (t_base w))))%nat /\
  (forall i j r r', ps !! i = Some (Done (Ok r)) -> ps !! j = Some (Done (Ok r')) ->
     status_of r = status_of r') /\
  (forall i r, ps !! i = Some (Done (Ok r)) ->
     length (w_paid (t_base w')) = S (length (w_paid (t_base w)))).
Proof.
  intros Hst Hne Hreqs Hs Hl.
  pose proof (exec_safe (once (sender +:+ ":" +:+ key) (paid_so_far w) (w_accounts (t_base w))
    (w_wallets (t_base w))) reported sched
    (intraledgerPaymentSendWalletIdForUsdWallet <$> reqs) w) as Hx.
  destruct (exec _ _ _) as [ps w']. cbn [fst snd] in Hx. destruct Hx as (ss & HI & Hlen & Hs').
  { exists (replicate (length reqs) Apart). split; [by apply once_start|].
    split; [by rewrite length_replicate, length_fmap|].
    intros i p g Hp [-> _]%lookup_replicate_1. rewrite list_lookup_fmap in Hp.
    destruct (reqs !! i) as [args|] eqn:Ha; [|done]. injection Hp as <-.
    destruct (Forall_lookup_1 _ _ _ _ Hreqs Ha) as (<- & k & Hk & <-).
    unfold intraledgerPaymentSendWalletIdForUsdWallet. rewrite Hk.
    apply safe_withPaymentIdempotency; [done..|]. by apply usd_pays_once. }
  assert (forall i r, ps !! i = Some (Done (Ok r)) ->
    exists g, ss !! i = Some g /\ learnt g = Some (status_of r)) as Hr.
  { intros i r Hi. destruct (lookup_lt_is_Some_2 ss i) as [g Hg];
      [rewrite Hlen; by eapply lookup_lt_Some|].
    specialize (Hs' i _ g Hi Hg). exists g. split; [done|]. destruct r; cbn in Hs'; by subst g. }
  pose proof (once_paid _ _ _ _ _ _ HI) as H1. pose proof HI as (Hk & _ & Hp & _).
  unfold paid_so_far in Hp. split_and!; [lia| |].
  - intros i j r r' (g & Hg & Hlg)%Hr (h & Hjh & Hlh)%Hr.
    by eapply (once_agree _ _ _ _ w' ss i j).
  - intros i r (g & Hg & Hlg)%Hr. unfold kept in Hk.
    destruct (r_sends (t_redis w') !! _) as [[entry x]|]; [lia|]. destruct Hk as [_ Hn].
    by rewrite (Hn i g Hg) in Hlg.
Qed.
End Result.
