(* ===== verification/FygaroWebhook.v ===== *)
(** * The payment webhook

    Model of [src/src/services/fygaro/webhook-server/routes/payment.ts], the
    handler of a captured card payment, of the credit it makes
    ([credit-topup.ts]), and of the account lookups of
    [services/mongoose/accounts.ts] they use. Requests to Kratos are a parameter.
    The alerts, the lines of the ops feed and the pushes are events. *)

From stdpp Require Import base gmap list strings.
From Stdlib Require Import ZArith Lia.
From S2P Require Import Prelude JsStrings JsNumbers Processes Errors MoneyAmounts World.
From S2P Require Import Ibex Repos FygaroGate CreatedAt FygaroCheckout TopupWorld FygaroIntents.
From S2P Require Import TransferRequests FygaroAuthorize PaymentIdempotency Json.

Open Scope Z_scope.
Open Scope flash_scope.

(** ** What arrives and what is answered *)

(** The members the handler reads of the body, which no schema checks: each may be
    absent, or of another type than expected. [p_clientEmail] is
    [client?.email], [p_raw] the text of the body. *)
Record FygaroPaymentPayload := mkPayload {
  p_transactionId : option json;
  p_customReference : option json;
  p_amount : option json;
  p_currency : option json;
  p_createdAt : option json;
  p_clientEmail : option json;
  p_raw : string
}.

(** [v ?? d], on which a method of texts is called next: on a value that is not a
    text there is none. *)
Definition text_or {W} (d : string) (v : option json) : proc W error string :=
  match present v with
  | None => pret d
  | Some (JStr s) => pret s
  | Some _ => pthrow (type_error "is not a function")
  end.

(** The time of a payment is read from a text or a number. *)
Definition created_at_of (v : option json) : option created_at :=
  match v with
  | Some (JStr s) => Some (CreatedText s)
  | Some (JNum x) => Some (CreatedNumber x)
  | _ => None
  end.

Record reply := mkReply {
  rp_code : Z;
  rp_text : string;
  rp_credited : option bool;
  rp_attributed : option bool
}.

Definition answer (code : Z) (text : string) : reply := mkReply code text None None.

(** What the parts of the handler share about one delivery; an id that is not a
    text is its text. *)
Record delivery := mkDelivery {
  d_tx : string;
  d_amount : string;
  d_gross : Z;
  d_currency : string;
  d_intentId : option string;
  d_createdAt : option Z;
  d_raw : string
}.

Inductive credit_status := CreditSuccess | CreditPending.

(** The result of a credit; [CreditFailed] is a [FygaroCreditError]. *)
Inductive credit_result :=
| CreditSent (walletId : string) (status : credit_status)
| CreditFailed (step message : string).

(** ** Tables *)

Definition reason_text (r : RecordOnlyReason) : string :=
  match r with
  | credit_disabled => "credit-disabled"
  | settings_unavailable => "settings-unavailable"
  | auto_credit_disabled => "auto-credit-disabled"
  | non_usd => "non-usd"
  | over_limit => "over-limit"
  | no_daily_limit_for_level => "no-daily-limit-for-level"
  | history_unavailable => "history-unavailable"
  | daily_limit_exceeded => "daily-limit-exceeded"
  | under_minimum => "under-minimum"
  | non_positive_net => "non-positive-net"
  | intent_mismatch => "intent-mismatch"
  end.

Definition thresholdCentsFor (reason : RecordOnlyReason) (settings : option FygaroSettings)
    (level : Z) (priorDayGrossCents : option Z) : option Z :=
  s ← settings;
  match reason with
  | daily_limit_exceeded =>
      capUsd ← dailyTopupLimits s level;
      prior ← priorDayGrossCents;
      Some (Z.max 0 (to_cents capUsd - prior))
  | over_limit => Some (to_cents (autoCreditLimit s))
  | under_minimum => Some (to_cents (minimumTopup s))
  | _ => None
  end.

Definition REFUSAL_NOTIFIES_CUSTOMER (r : RecordOnlyReason) : bool :=
  match r with
  | non_usd | over_limit | no_daily_limit_for_level | daily_limit_exceeded | under_minimum => true
  | credit_disabled | auto_credit_disabled | settings_unavailable | history_unavailable
  | non_positive_net | intent_mismatch => false
  end.

Definition REFUSAL_NEEDS_VERIFIED_REFERENCE (r : RecordOnlyReason) : bool :=
  match r with over_limit => false | _ => true end.

Definition OUTCOME_BY_CREDIT_STATUS (s : credit_status) : NotificationOutcome :=
  match s with CreditSuccess => NotifyCredited | CreditPending => NotifyCrediting end.

Definition INSUFFICIENT_TREASURY_FLOAT_STEP : string := "insufficient-treasury-float".
Definition TREASURY_ROLE : string := "bankowner".

Definition isInsufficientTreasuryBalance (e : error) : bool :=
  bool_decide (err_class e = InsufficientIbexBalance)
  || bool_decide (err_class e = InsufficientBalanceError).

(** [generateDedupKey] *)
Definition erpnextFygaroAudit (tx : string) : string := "erpnext-audit:fygaro:" +:+ tx.
Definition fygaroWebhookPayment (tx : string) : string := "fygaro-webhook:payment:" +:+ tx.
Definition fygaroUnattributed (tx : string) : string := "fygaro:unattributed:" +:+ tx.
Definition fygaroCreditFailed (tx : string) : string := "fygaro:credit-failed:" +:+ tx.
Definition fygaroNotCredited (tx : string) : string := "fygaro:not-credited:" +:+ tx.
Definition fygaroRefusalNotStamped (tx : string) : string := "fygaro:refusal-not-stamped:" +:+ tx.
Definition fygaroFloatExhausted : string := "fygaro:float-exhausted".
Definition fygaroAccountLookupFailed : string := "fygaro:account-lookup-failed".

(** [centsToDollars] *)
Definition centsToDollars (cents : Z) : string := formatFygaroAmount cents.

Section Webhook.
Context `{X : TopupExternal}.

(** ** AccountsRepository *)

(** [findOne] on the accounts; which of several matches it returns is the
    server's choice. *)
Definition accounts_findOne (f : account -> bool) (missing : error) : App account :=
  guarded (
    let! result := mongo (read (fun w =>
      list_find (fun a => f a = true) (map_to_list (w_accounts w)).*2)) in
    match result with
    | None => fail missing
    | Some (_, a) => ret a
    end).

(** The collation compares usernames. *)
Definition findByUsername (username : string) : App account :=
  accounts_findOne
    (fun a => match a_username a with Some u => same_username u username | None => false end)
    (new_error CouldNotFindAccountFromUsernameError username).

Definition findByUserId (kratosUserId : string) : App account :=
  accounts_findOne (fun a => bool_decide (a_kratosUserId a = kratosUserId))
    (new_error CouldNotFindAccountFromKratosIdError kratosUserId).

Definition findByRole (role : string) : App account :=
  accounts_findOne (fun a => bool_decide (a_role a = Some role))
    (new_error RepositoryError ("Account not found for role " +:+ role)).

(** ** credit-topup.ts *)

Definition walletsFor (accountId : string) : TApp (list wallet) :=
  let* wallets := pattempt (base (listByAccountId accountId)) in
  pret (match wallets with inr l => l | inl _ => [] end).

Definition wallet_in (currency : WalletCurrency) (l : list wallet) : option wallet :=
  snd <$> list_find (fun wl => wl_currency wl = currency) l.

(** The step and the message of the error, or the funding wallet. *)
Definition resolveFygaroTreasuryFundingWallet : TApp (string * string + wallet) :=
  let* acc := pattempt (base (findByRole TREASURY_ROLE)) in
  match acc with
  | inl _ => pret (inl ("resolve-treasury", "no account holds the '" +:+ TREASURY_ROLE +:+ "' role"))
  | inr a =>
      let* wallets := pattempt (base (listByAccountId (a_id a))) in
      match wallets with
      | inl _ => pret (inl ("list-treasury-wallets", "could not list treasury wallets"))
      | inr l =>
          match wallet_in Usdt l with
          | Some wl => pret (inr wl)
          | None =>
              match wallet_in Usd l with
              | Some wl => pret (inr wl)
              | None => pret (inl ("resolve-treasury-wallet", "treasury account has no USDT or USD wallet"))
              end
          end
      end
  end.

(** What the result of the send means. A status is one of the constants only when
    it is the very object. *)
Definition credit_of (walletId : string) (result : error + status_ref) : credit_result :=
  match result with
  | inl e =>
      if isInsufficientTreasuryBalance e
      then CreditFailed INSUFFICIENT_TREASURY_FLOAT_STEP (err_message e)
      else CreditFailed "intraledger-send" (err_message e)
  | inr r =>
      if same_object r PaymentSuccess then CreditSent walletId CreditSuccess
      else if same_object r PaymentPending then CreditSent walletId CreditPending
      else CreditFailed "intraledger-send" "unexpected payment status: [object Object]"
  end.

Definition creditFygaroTopup (recipientAccountId : string) (amountCents : Z) (transactionId : string) :
    TApp credit_result :=
  if amountCents <=? 0 then
    pret (CreditFailed "validate-amount" ("invalid amount: " +:+ bigint_toString amountCents)) else
  let* funding := resolveFygaroTreasuryFundingWallet in
  match funding with
  | inl (step, message) => pret (CreditFailed step message)
  | inr fundingWallet =>
      let* wallets := walletsFor recipientAccountId in
      match wallet_in (wl_currency fundingWallet) wallets with
      | None => pret (CreditFailed "resolve-recipient-wallet"
                  ("recipient has no " +:+ currency_name (wl_currency fundingWallet) +:+ " wallet"))
      | Some recipientWallet =>
          let* result := pattempt (intraledgerPaymentSendWalletIdForUsdWallet
            (mkSendArgs (wl_id fundingWallet) (wl_id recipientWallet) amountCents
               (Some ("Card top-up (Fygaro " +:+ transactionId +:+ ")"))
               (Some ("fygaro:" +:+ transactionId)))) in
          pret (credit_of (wl_id recipientWallet) result)
      end
  end.

(** ** Parts of the handler *)

Definition resolveAccountByPayerEmail (email : option json) : TApp (option account) :=
  let* text := text_or EmptyString email in
  match nonempty_opt (Some (str_lower (js_trim text))) with
  | None => pret None
  | Some trimmed =>
      pcatch
        (let* userId := pattempt (Done (kratos_identifier trimmed)) in
         match userId with
         | inl _ => pret None
         | inr userId =>
             let* found := pattempt (base (findByUserId userId)) in
             pret (match found with inr a => Some a | inl _ => None end)
         end)
        (fun _ => pret None)
  end.

(** A stamp on the intent, for a payment that names one. *)
Definition recordOutcome (d : delivery) (state : FygaroTopupOutcomeState) (reason : option string)
    (net detail : option Z) : TApp unit :=
  match d_intentId d with
  | None => pret tt
  | Some id =>
      let* now := Date_now in
      recordIntentOutcome id (mkOutcome state reason net detail (Some (d_tx d)) now)
        (default 900 (checkout_ttlSeconds fygaroConfig))
  end.

Definition releaseAuthorizedHold (authorizedIntent : option FygaroCheckoutIntent) : TApp unit :=
  match authorizedIntent with
  | None => pret tt
  | Some i => releaseIntentReservation (i_accountId i) (i_intentId i) (i_amountCents i)
  end.

Definition redeemIntent (d : delivery) : TApp unit :=
  match d_intentId d with
  | None => pret tt
  | Some id => consumeIntent id ;;; pret tt
  end.

(** The account a username names: a fault of the lookup is not a miss. *)
Definition lookup_account (username : option string) : TApp (error + option account) :=
  match nonempty_opt username with
  | None => pret (inr None)
  | Some u =>
      let* found := pattempt (base (findByUsername u)) in
      pret (match found with
            | inr a => inr (Some a)
            | inl e =>
                if bool_decide (err_class e = CouldNotFindAccountFromUsernameError)
                then inr None else inl e
            end)
  end.

Definition account_fault (d : delivery) : TApp reply :=
  pattempt (writeFygaroTopupRequest (d_tx d) (d_amount d) (d_currency d) None false
    (d_createdAt d) (d_raw d)) ;;;
  emit (Alert Critical fygaroAccountLookupFailed) ;;;
  pret (answer 500 "account lookup unavailable; will retry").

Definition audit_failed (d : delivery) : TApp reply :=
  emit (Alert Critical (erpnextFygaroAudit (d_tx d))) ;;;
  emit (OpsEvent "deposit:failed") ;;;
  pret (answer 500 "Failed to persist audit row").

Definition dedupe_key (d : delivery) : string := "fygaro-payment:" +:+ d_tx d.

Definition unattributed (d : delivery) (authorizedIntent : option FygaroCheckoutIntent) : TApp reply :=
  let* dedupe := pattempt (lockIdempotencyKey (dedupe_key d)) in
  match dedupe with
  | inl _ =>
      recordOutcome d outcome_held_for_review (Some "unattributed") None None ;;;
      pret (answer 200 "already_processed")
  | inr _ =>
      emit (Alert Warning (fygaroUnattributed (d_tx d))) ;;;
      emit (OpsEvent "deposit:fygaro-unattributed") ;;;
      releaseAuthorizedHold authorizedIntent ;;;
      recordOutcome d outcome_held_for_review (Some "unattributed") None None ;;;
      pret (mkReply 200 "recorded" None (Some false))
  end.

(** *** A refused payment *)

(** The stamp of this very payment, when it says credited. *)
Definition credited_outcome (d : delivery) (authorizedIntent : option FygaroCheckoutIntent) :
    option FygaroTopupOutcome :=
  i ← authorizedIntent;
  o ← i_outcome i;
  if bool_decide (o_state o = outcome_credited) && bool_decide (o_transactionId o = Some (d_tx d))
  then Some o else None.

(** A reason that no retry changes. *)
Definition record_only (d : delivery) (acc : account) (authorizedIntent : option FygaroCheckoutIntent)
    (settings : option FygaroSettings) (prior : option Z) (reason : RecordOnlyReason) : TApp reply :=
  let held := recordOutcome d outcome_held_for_review (Some (reason_text reason)) None
                (thresholdCentsFor reason settings (a_level acc) prior) in
  let* lockResult := pattempt (lockIdempotencyKey (dedupe_key d)) in
  match lockResult with
  | inl _ => held ;;; pret (answer 200 "already_processed")
  | inr _ =>
      (if bool_decide (reason = credit_disabled) then pret tt
       else emit (Alert Warning (fygaroNotCredited (d_tx d)))) ;;;
      emit (OpsEvent "deposit:fygaro-recorded") ;;;
      redeemIntent d ;;;
      let* marked := pattempt (markFygaroTopupNotCredited (d_tx d) (a_id acc) (d_amount d)
                       (d_currency d) (reason_text reason) (d_raw d)) in
      (match marked with
       | inl _ => emit (Alert Critical (fygaroRefusalNotStamped (d_tx d)))
       | inr _ => pret tt
       end) ;;;
      held ;;;
      (if REFUSAL_NOTIFIES_CUSTOMER reason
          && (bool_decide (is_Some authorizedIntent) || negb (REFUSAL_NEEDS_VERIFIED_REFERENCE reason))
       then emit (Push (a_id acc) NotifyHeldForReview (d_gross d) (d_currency d))
       else pret tt) ;;;
      pret (mkReply 200 "recorded" (Some false) None)
  end.

Definition refused (d : delivery) (acc : account) (authorizedIntent : option FygaroCheckoutIntent)
    (settings : option FygaroSettings) (prior : option Z) (reason : RecordOnlyReason) : TApp reply :=
  if bool_decide (reason = settings_unavailable) || bool_decide (reason = history_unavailable) then
    emit (Alert Warning (fygaroNotCredited (d_tx d))) ;;;
    pret (answer 500 "ERPNext read unavailable; will retry")
  else
  let* priorCompletion := readFygaroTopupCompletion (d_tx d) in
  let creditedOutcome := credited_outcome d authorizedIntent in
  if completed priorCompletion || bool_decide (is_Some creditedOutcome) then
    recordOutcome d outcome_credited None
      (nullish (completion_net priorCompletion) (o ← creditedOutcome; o_netAmountCents o)) None ;;;
    pret (answer 200 "already_processed")
  else
  record_only d acc authorizedIntent settings prior reason.

(** *** A payment to credit *)

Definition credit_failed (d : delivery) (acc : account) (authorizedIntent : option FygaroCheckoutIntent)
    (fees : FygaroFees) (step : string) : TApp reply :=
  emit (Alert Critical (if bool_decide (step = INSUFFICIENT_TREASURY_FLOAT_STEP)
                        then fygaroFloatExhausted else fygaroCreditFailed (d_tx d))) ;;;
  emit (OpsEvent "deposit:failed") ;;;
  releaseAuthorizedHold authorizedIntent ;;;
  recordOutcome d outcome_failed (Some "credit-failed") None None ;;;
  emit (Push (a_id acc) NotifyHeldForReview (grossCents fees) (d_currency d)) ;;;
  pret (mkReply 200 "recorded" (Some false) None).

Definition credit_succeeded (d : delivery) (acc : account) (fees : FygaroFees) (walletId : string)
    (status : credit_status) : TApp reply :=
  let* completeResult := pattempt (completeFygaroTopup (d_tx d) (a_id acc) walletId (d_amount d)
    (d_currency d) (centsToDollars (grossCents fees)) (centsToDollars (processorFeeCents fees))
    (centsToDollars (flashFeeCents fees)) (centsToDollars (netCents fees)) (d_raw d)) in
  (match completeResult with
   | inl _ => emit (Alert Warning (erpnextFygaroAudit (d_tx d)))
   | inr _ => pret tt
   end) ;;;
  recordOutcome d outcome_credited None (Some (netCents fees)) None ;;;
  emit (OpsEvent "deposit:succeeded") ;;;
  redeemIntent d ;;;
  let* pushClaim := pattempt (lockIdempotencyKey ("fygaro-credit-push:" +:+ d_tx d)) in
  (match pushClaim with
   | inl _ => pret tt
   | inr _ => emit (Push (a_id acc) (OUTCOME_BY_CREDIT_STATUS status) (netCents fees) (d_currency d))
   end) ;;;
  pret (mkReply 200 "success" (Some true) None).

(** Under the lock of the delivery. *)
Definition credit_block (d : delivery) (acc : account) (authorizedIntent : option FygaroCheckoutIntent)
    (fees : FygaroFees) : TApp reply :=
  let* priorCompletion := readFygaroTopupCompletion (d_tx d) in
  if completed priorCompletion then
    recordOutcome d outcome_credited None
      (nullish (completion_net priorCompletion) (Some (netCents fees))) None ;;;
    pret (answer 200 "already_processed")
  else
  let* creditResult := creditFygaroTopup (a_id acc) (netCents fees) (d_tx d) in
  match creditResult with
  | CreditFailed step _ => credit_failed d acc authorizedIntent fees step
  | CreditSent walletId status => credit_succeeded d acc fees walletId status
  end.

Definition credited (d : delivery) (acc : account) (authorizedIntent : option FygaroCheckoutIntent)
    (fees : FygaroFees) : TApp reply :=
  let* result := pattempt (lockPaymentIdempotencyKey (dedupe_key d)
    (credit_block d acc authorizedIntent fees)) in
  match result with
  | inr r => pret r
  | inl e =>
      if bool_decide (err_class e = ResourceAttemptsLockServiceError)
      then pret (answer 200 "already_processing") else pthrow e
  end.

(** *** The handler *)

Definition intentMismatch (d : delivery) (acc : account)
    (authorizedIntent : option FygaroCheckoutIntent) : bool :=
  match authorizedIntent with
  | None => false
  | Some i =>
      negb (i_amountCents i =? d_gross d)
      || (nonempty (a_id acc) && negb (bool_decide (i_accountId i = a_id acc)))
  end.

(** The spending of the last day, and the discount, when a credit is possible. *)
Definition credit_inputs (d : delivery) (acc : account) (settings : option FygaroSettings) :
    TApp (option Z * js_num) :=
  if credit_enabled fygaroConfig
     && match settings with Some s => autoCreditEnabled s | None => false end
     && bool_decide (d_currency d = "USD")
  then
    let* priorSum := pattempt (sumFygaroTopupGrossCentsLast24h (a_id acc) (Some (d_tx d))) in
    let* discount := getFlashFeeDiscountPercent (a_username acc) TopupFlow in
    pret (match priorSum with inr n => Some n | inl _ => None end, discount)
  else pret (None, num_of_Z 0).

Definition attributed (d : delivery) (acc : account)
    (authorizedIntent : option FygaroCheckoutIntent) : TApp reply :=
  let* settings := if credit_enabled fygaroConfig then getFygaroSettings else pret None in
  let* inputs := credit_inputs d acc settings in
  let '(prior, discount) := inputs in
  let gate :=
    if intentMismatch d acc authorizedIntent then RecordOnly intent_mismatch
    else evaluateCreditGate (mkGateArgs (credit_enabled fygaroConfig) (d_currency d) settings
           (d_gross d) (a_level acc) prior discount) in
  match gate with
  | RecordOnly reason => refused d acc authorizedIntent settings prior reason
  | Credit fees => credited d acc authorizedIntent fees
  end.

(** [lookupIntent]: one read per delivery. *)
Definition lookup_once (d : delivery) (prior : option IntentLookup) : TApp (option IntentLookup) :=
  match prior, d_intentId d with
  | Some l, _ => pret (Some l)
  | None, None => pret None
  | None, Some id => let* l := readIntent id in pret (Some l)
  end.

Definition found_intent (l : option IntentLookup) : option FygaroCheckoutIntent :=
  match l with Some (IntentFound i) => Some i | _ => None end.

(** The username of the reference, or else of the intent it names. *)
Definition resolve_username (d : delivery) (ref : option FygaroCustomReference) :
    TApp (option string * option IntentLookup) :=
  match r ← ref; ref_username r with
  | Some u => pret (Some u, None)
  | None =>
      let* l := lookup_once d None in
      pret (i_username <$> found_intent l, l)
  end.

(** The body of the handler's [try]. *)
Definition process (p : FygaroPaymentPayload) (ref : option FygaroCustomReference) (d : delivery) :
    TApp reply :=
  let* named := resolve_username d ref in
  let '(username, lookup) := named in
  let* found := lookup_account username in
  match found with
  | inl _ => coerce [p_transactionId p] ;;; account_fault d
  | inr acc =>
      let* emailAttributedAccount :=
        match acc with
        | Some _ => pret None
        | None => resolveAccountByPayerEmail (p_clientEmail p)
        end in
      coerce [p_transactionId p] ;;;
      let* auditResult := pattempt (writeFygaroTopupRequest (d_tx d) (d_amount d) (d_currency d)
        (nullish (a_id <$> acc) (a_id <$> emailAttributedAccount))
        (bool_decide (is_Some emailAttributedAccount)) (d_createdAt d) (d_raw d)) in
      match auditResult with
      | inl _ => audit_failed d
      | inr _ =>
          recordOutcome d outcome_received None None None ;;;
          let* lookup := lookup_once d lookup in
          match acc with
          | None => unattributed d (found_intent lookup)
          | Some a => attributed d a (found_intent lookup)
          end
      end
  end.

(** An amount that is a finite number of dollars and not of cents has the exact
    number of cents here. An exception outside the [try], or in its [catch],
    leaves the delivery unanswered: it is [Throw]. *)
Definition paymentHandler (p : FygaroPaymentPayload) : TApp reply :=
  let* currency := text_or "USD" (p_currency p) in
  let* customReference := text_or EmptyString (p_customReference p) in
  let ref := parseCustomReference (Some customReference) in
  if negb (json_truthy (p_transactionId p)) || negb (json_truthy (p_amount p))
  then pret (answer 400 "Missing one or more required fields: transactionId, amount") else
  coerce [p_amount p] ;;;
  match p_amount p ≫= json_Number with
  | None => pret (answer 400 "amount is not a finite number")
  | Some grossAmount =>
      let tx := opt_String (p_transactionId p) in
      pcatch
        (process p ref (mkDelivery tx (opt_String (p_amount p)) (to_cents grossAmount)
           (str_upper currency) (r ← ref; ref_intentId r)
           (fygaroCreatedAtToIso legacy_date (created_at_of (p_createdAt p))) (p_raw p)))
        (fun _ =>
           coerce [p_transactionId p] ;;;
           emit (Alert Critical (fygaroWebhookPayment tx)) ;;;
           emit (OpsEvent "deposit:failed") ;;;
           pret (answer 500 "Internal server error"))
  end.

End Webhook.
