(* ===== verification/FygaroDelivery.v ===== *)
(** * Deliveries of a payment

    What the webhook of [FygaroWebhook] guarantees whatever fails: every delivery
    is answered, the lock that silences re-deliveries is only taken by one that
    is acknowledged, and however the deliveries of one payment interleave it is
    credited at most once. *)

From stdpp Require Import base gmap list strings.
From Stdlib Require Import ZArith Lia Ascii.
From S2P Require Import Prelude JsStrings JsNumbers Processes Errors MoneyAmounts World.
From S2P Require Import Ibex Repos FygaroGate CreatedAt FygaroCheckout TopupWorld FygaroIntents.
From S2P Require Import TransferRequests FygaroAuthorize PaymentIdempotency PaymentOnce Json FygaroWebhook.

Open Scope Z_scope.
Open Scope flash_scope.

(** ** How a call ends *)

(** [ends Inv P e t c]: [c] keeps the invariant and the ghost state; its value
    satisfies [P]; it returns an error only if [e], and throws only if [t]. *)
Definition ends {W S A} (Inv : W -> list S -> Prop) (P : A -> Prop) (e t : bool)
    (c : proc W error A) : Prop :=
  keeps Inv (fun o => match o with Ok a => P a | Err _ => e = true | Throw _ => t = true end) c.

Definition any {A} (_ : A) : Prop := True.

Section Ends.
Context {W S : Type}.
Variable Inv : W -> list S -> Prop.

Lemma ends_ret {A} (P : A -> Prop) e t a : P a -> ends Inv P e t (pret a).
Proof. intros Ha. by apply keeps_done. Qed.
Lemma ends_fail {A} (P : A -> Prop) t x : ends Inv P true t (pfail x).
Proof. by apply keeps_done. Qed.
Lemma ends_throw {A} (P : A -> Prop) e x : ends Inv P e true (pthrow x).
Proof. by apply keeps_done. Qed.
Lemma ends_done {A} (o : outcome error A) : ends Inv any true true (Done o).
Proof. apply keeps_done. by destruct o. Qed.

Lemma ends_bind {A B} (P : B -> Prop) e t (c : proc W error A) k :
  ends Inv any e t c -> (forall a, ends Inv P e t (k a)) -> ends Inv P e t (pbind c k).
Proof. intros Hc Hk. eapply keeps_bind; [exact Hc|]. intros [a|x|x] Ho; [apply Hk|done..]. Qed.

Lemma ends_attempt {A} e t (c : proc W error A) : ends Inv any true t c -> ends Inv any e t (pattempt c).
Proof. intros Hc. eapply keeps_attempt; [exact Hc|]. by intros []. Qed.

Lemma ends_catch {A} (P : A -> Prop) e t (c : proc W error A) h :
  ends Inv P e true c -> (forall x, ends Inv P e t (h x)) -> ends Inv P e t (pcatch c h).
Proof. intros Hc Hh. eapply keeps_catch; [exact Hc|]. intros [] Ho; [done..|apply Hh]. Qed.

Lemma ends_quietly {A} (P : A -> Prop) e t c : ends Inv P e t c -> quietly Inv c.
Proof. intros Hc. by eapply quietly_keeps. Qed.

Lemma quietly_ends {A} (c : proc W error A) : quietly Inv c -> ends Inv any true true c.
Proof. intros Hc. eapply keeps_mono; [|exact Hc]. by intros []. Qed.
End Ends.

(** Calls composed of calls whose ends are known. *)
Ltac ends_tac :=
  repeat first
    [ match goal with |- forall _, _ => intros ? end
    | match goal with H : _ |- _ => solve [apply H] end
    | (apply ends_ret; try done) | apply ends_fail | apply ends_throw
    | apply ends_bind | apply ends_attempt | apply ends_catch
    | match goal with |- ends _ _ _ _ (match ?x with _ => _ end) => destruct x end
    | match goal with |- ends _ _ _ _ (if ?x then _ else _) => destruct x end
    | done ].

(** ** The bookkeeping of a delivery

    Reading and writing rows, intents, holds and claims, alerts and pushes: all
    that leaves the money, the accounts and the locks alone. *)

Definition frame `{X : TopupExternal} (w w' : tworld) : Prop :=
  w_paid (t_base w') = w_paid (t_base w) /\ w_accounts (t_base w') = w_accounts (t_base w) /\
  w_wallets (t_base w') = w_wallets (t_base w) /\
  r_sends (t_redis w') = r_sends (t_redis w) /\ r_locks (t_redis w') = r_locks (t_redis w) /\
  r_timelocks (t_redis w') = r_timelocks (t_redis w).

Lemma settled_findOne `{X : TopupExternal} f e : guarantees settled (accounts_findOne f e).
Proof. unfold accounts_findOne, guarded. settled_tac. Qed.

(** An invariant that the bookkeeping cannot break. *)
Section Bookkeeping.
Context `{X : TopupExternal} {S : Type}.
Variable Inv : tworld -> list S -> Prop.
Hypothesis Hframe : forall w w' ss, frame w w' -> Inv w ss -> Inv w' ss.

Abbreviation sure c := (forall e t, ends Inv any e t c).

Lemma ends_atomic {A} e t (c : M tworld error A) :
  (forall w, frame w (c w).2 /\
     match (c w).1 with Ok _ => True | Err _ => e = true | Throw _ => t = true end) ->
  ends Inv any e t (atomic c).
Proof.
  intros Hc. apply keeps_atomic. intros w ss HI. destruct (Hc w) as [Hf Ho].
  split; [by eapply Hframe|done].
Qed.

Lemma ends_base {A} (c : App A) : guarantees settled c -> ends Inv any true true (base c).
Proof.
  intros Hc. apply ends_atomic. intros w. specialize (Hc (t_base w)).
  destruct (c (t_base w)) as [o b]. destruct Hc as (? & ? & ?). split; [done|by destruct o].
Qed.

Lemma sure_Date_now : sure Date_now.
Proof. intros e t. by apply ends_atomic. Qed.
Lemma sure_emit ev : sure (emit ev).
Proof. intros e t. by apply ends_atomic. Qed.
Lemma sure_peek {A} (f : tworld -> A) : sure (peek f).
Proof. intros e t. by apply ends_atomic. Qed.
Lemma sure_settings s : sure (poke (set_settings s)).
Proof. intros e t. by apply ends_atomic. Qed.
Lemma sure_discounts s : sure (poke (set_discounts s)).
Proof. intros e t. by apply ends_atomic. Qed.

Lemma ends_erp_query {A} e (f : nat -> A) : ends Inv any e true (erp_query f).
Proof.
  apply ends_atomic. intros w. unfold erp_query. by destruct (erp_fault (t_erp_ops w)) as [[]|].
Qed.

(** Every operation on rows answers or throws. *)
Lemma ends_erp {A} e (op : gmap string transfer_row -> outcome error A * gmap string transfer_row) :
  (forall rows, match (op rows).1 with Err _ => False | _ => True end) ->
  ends Inv any e true (erp op).
Proof.
  intros Hop. apply ends_atomic. intros w. unfold erp. specialize (Hop (t_rows w)).
  destruct (op (t_rows w)) as [o rows]. destruct (erp_fault (t_erp_ops w)) as [[[] x]|];
    split; try done. by destruct o.
Qed.

(** A command of Redis that leaves results and locks alone. *)
Lemma ends_redis {A} e (op : Z -> redis_state -> A * redis_state) :
  (forall now r, r_sends (op now r).2 = r_sends r /\ r_locks (op now r).2 = r_locks r /\
     r_timelocks (op now r).2 = r_timelocks r) ->
  ends Inv any e true (redis op).
Proof.
  intros Hop. apply ends_atomic. intros w. unfold redis.
  specialize (Hop (redis_time (t_redis_ops w)) (t_redis w)).
  destruct (op _ _) as [a r]. destruct Hop as (? & ? & ?).
  by destruct (redis_fault (t_redis_ops w)) as [[]|].
Qed.

Lemma ends_zset e (f : Z -> redis_state -> gmap hold_member Z * option Z) acc :
  ends Inv any e true (redis (fun now r => (tt, put_holds acc (f now r) r))).
Proof. by apply ends_redis. Qed.

(** *** Intents *)

Lemma sure_readIntent id : sure (readIntent id).
Proof.
  intros e t. unfold readIntent, cache_get, cached.
  assert (forall e, ends Inv any e true
    (redis (fun now r => (live now (r_intents r !! id), r)))) by (intros; by apply ends_redis).
  ends_tac.
Qed.

Lemma sure_release acc id a : sure (releaseIntentReservation acc id a).
Proof.
  intros e t. apply ends_catch; [|intros; by apply ends_ret]. apply ends_redis.
  intros now r. by destruct (holds_at now r acc).
Qed.

Lemma sure_consume id : sure (consumeIntent id).
Proof.
  intros e t. unfold consumeIntent, consumeCacheKey, cached.
  pose proof sure_readIntent. pose proof sure_release.
  assert (forall e, ends Inv any e true (redis (fun now r =>
    (bool_decide (is_Some (live now (r_claims r !! id))), set_claims (delete id (r_claims r)) r))))
    by (intros; by apply ends_redis).
  ends_tac.
Qed.

Lemma ends_record_attempts n id o ttl e : ends Inv any e true (record_attempts n id o ttl).
Proof.
  assert (ends Inv any e true (get_intent id)) by (by apply ends_redis).
  assert (forall a b, ends Inv any e true (cas_intent id a b ttl)).
  { intros a b. apply ends_redis. intros now r. by case_bool_decide. }
  induction n as [|n IH]; cbn [record_attempts]; ends_tac.
Qed.

Lemma sure_recordOutcome d state reason net detail : sure (recordOutcome d state reason net detail).
Proof.
  intros e t. unfold recordOutcome, recordIntentOutcome. pose proof sure_Date_now.
  pose proof ends_record_attempts. ends_tac.
Qed.

Lemma sure_releaseHold i : sure (releaseAuthorizedHold i).
Proof. intros e t. unfold releaseAuthorizedHold. pose proof sure_release. ends_tac. Qed.

Lemma sure_redeem d : sure (redeemIntent d).
Proof. intros e t. unfold redeemIntent. pose proof sure_consume. ends_tac. Qed.

(** *** Rows *)

Lemma ends_find id t : ends Inv any true t (findBridgeTransferRequest id).
Proof.
  unfold findBridgeTransferRequest, erp_get.
  assert (forall e, ends Inv any e true (erp (fun rows => (Ok (rows !! id), rows))))
    by (intros; by apply ends_erp). ends_tac.
Qed.

Lemma ends_upsert i t : ends Inv any true t (upsert i).
Proof.
  unfold upsert, upsertBridgeTransferRequest, upsert_attempt, upsert_raced.
  pose proof sure_Date_now. pose proof ends_find.
  assert (forall e id p, ends Inv any e true (erp_put id p)).
  { intros e id p. apply ends_erp. intros rows. by destruct (rows !! id). }
  assert (forall e id p, ends Inv any e true (erp_post id p)).
  { intros e id p. apply ends_erp. intros rows. by destruct (rows !! id). }
  ends_tac.
Qed.

Lemma sure_completion tx : sure (readFygaroTopupCompletion tx).
Proof. intros e t. unfold readFygaroTopupCompletion. pose proof ends_find. ends_tac. Qed.

Lemma ends_sum acc ex t : ends Inv any true t (sumFygaroTopupGrossCentsLast24h acc ex).
Proof.
  unfold sumFygaroTopupGrossCentsLast24h, readFygaroTopupWindowLast24h, sumFygaroTopupGrossCentsSince.
  pose proof sure_Date_now.
  assert (forall since, ends Inv any true true (erp (fun rows =>
    (Ok (filter (fun p => in_window acc since (fygaro_request <$> ex) p = true) (map_to_list rows)),
     rows)))) by (intros; by apply ends_erp).
  pose proof (@ends_done tworld S Inv FygaroTopupWindow). ends_tac.
Qed.

(** *** Settings *)

Lemma sure_getFygaroSettings : sure getFygaroSettings.
Proof.
  intros e t. unfold getFygaroSettings, erp_getFygaroSettings. pose proof sure_Date_now.
  pose proof (sure_peek t_settings). pose proof sure_settings.
  pose proof (fun e => ends_erp_query e erp_settings). ends_tac.
Qed.

Lemma sure_discount u f : sure (getFlashFeeDiscountPercent u f).
Proof.
  intros e t. unfold getFlashFeeDiscountPercent, loadDiscounts, erp_getFeeDiscounts.
  pose proof sure_Date_now. pose proof (sure_peek t_discounts). pose proof sure_discounts.
  pose proof (fun e => ends_erp_query e erp_discounts). ends_tac.
Qed.

Lemma sure_inputs d acc s : sure (credit_inputs d acc s).
Proof. intros e t. unfold credit_inputs. pose proof ends_sum. pose proof sure_discount. ends_tac. Qed.

(** *** Accounts *)

Lemma ends_lookup_account u e : ends Inv any e true (lookup_account u).
Proof.
  unfold lookup_account. pose proof (fun u x => ends_base _ (settled_findOne u x)).
  unfold findByUsername. ends_tac.
Qed.

Lemma ends_coerce e vs : ends Inv any e true (coerce vs).
Proof. unfold coerce. destruct (coercible vs); [by apply ends_ret|apply ends_throw]. Qed.

Lemma ends_payer e email : ends Inv any e true (resolveAccountByPayerEmail email).
Proof.
  unfold resolveAccountByPayerEmail, text_or. pose proof (fun u x => ends_base _ (settled_findOne u x)).
  unfold findByUserId. pose proof (@ends_done tworld S Inv string). ends_tac.
Qed.

Lemma ends_funding e : ends Inv any e true resolveFygaroTreasuryFundingWallet.
Proof.
  unfold resolveFygaroTreasuryFundingWallet. pose proof (fun u x => ends_base _ (settled_findOne u x)).
  pose proof (fun a => ends_base _ (settled_listByAccountId a)). unfold findByRole. ends_tac.
Qed.

Lemma ends_walletsFor a e : ends Inv any e true (walletsFor a).
Proof.
  unfold walletsFor. pose proof (fun a => ends_base _ (settled_listByAccountId a)). ends_tac.
Qed.

Lemma sure_lookup_once d l : sure (lookup_once d l).
Proof. intros e t. unfold lookup_once. pose proof sure_readIntent. ends_tac. Qed.

Lemma sure_resolve_username d r : sure (resolve_username d r).
Proof. intros e t. unfold resolve_username. pose proof sure_lookup_once. ends_tac. Qed.

End Bookkeeping.

(** ** Every delivery is answered *)

Lemma safe_ends {W S A B} (Inv : W -> list S -> Prop) (P : S -> outcome error B -> Prop) i e t
    (c : proc W error A) k s :
  ends Inv any e t c -> (forall a, safe Inv P i (k a) s) -> (e = true -> forall x, P s (Err x)) ->
  (t = true -> forall x, P s (Throw x)) -> safe Inv P i (pbind c k) s.
Proof.
  intros Hc Hk He Ht. eapply safe_bind; [apply Hc|]. intros s' [a|x|x] [-> Ho]; auto.
Qed.

Lemma safe_value {W S A} (Inv : W -> list S -> Prop) (Q : A -> Prop) (P : S -> outcome error A -> Prop)
    i e t (c : proc W error A) s :
  ends Inv Q e t c -> (forall a, Q a -> P s (Ok a)) -> (e = true -> forall x, P s (Err x)) ->
  (t = true -> forall x, P s (Throw x)) -> safe Inv P i c s.
Proof.
  intros Hc Hk He Ht. eapply safe_mono; [|apply Hc]. intros s' [a|x|x] [-> Ho]; auto.
Qed.

Section Answered.
Context `{X : TopupExternal}.
(** The dedupe lock of one transaction, and what is under it before. *)
Variables (tx : string) (v0 : option Z).

Definition dedupe_path : string := "locks:idempotencykey:fygaro-payment:" +:+ tx.

(** The ghost state says whether the delivery has reached for the lock. *)
Definition untaken (w : tworld) (ss : list bool) : Prop :=
  ss !! O = Some false -> r_timelocks (t_redis w) !! dedupe_path = v0.

Lemma untaken_timelocks w w' ss : r_timelocks (t_redis w') = r_timelocks (t_redis w) ->
  untaken w ss -> untaken w' ss.
Proof. intros Ht Hu Hs. rewrite Ht. by apply Hu. Qed.

Lemma untaken_frame w w' ss : frame w w' -> untaken w ss -> untaken w' ss.
Proof. intros Hf. apply untaken_timelocks. apply Hf. Qed.

(** Whatever leaves the timelocks alone. *)
Lemma ends_untimed {A} e (op : Z -> redis_state -> A * redis_state) :
  (forall now r, r_timelocks (op now r).2 = r_timelocks r) -> ends untaken any e true (redis op).
Proof.
  intros Hop. apply keeps_atomic. intros w ss HI. unfold redis.
  specialize (Hop (redis_time (t_redis_ops w)) (t_redis w)). destruct (op _ _) as [a r].
  destruct (redis_fault (t_redis_ops w)) as [[]|]; (split; [|done]);
    revert HI; by apply untaken_timelocks.
Qed.

Lemma ends_base_any {A} (c : App A) : ends untaken any true true (base c).
Proof.
  apply keeps_atomic. intros w ss HI. destruct (c (t_base w)) as [o b]. split; [|by destruct o].
  revert HI. by apply untaken_timelocks.
Qed.

Lemma ends_redlock {A} (P : A -> Prop) path (body : TApp A) t :
  ends untaken P true true body -> ends untaken P true t (redlock path body).
Proof.
  intros Hb. unfold redlock, with_lock.
  assert (forall e t, ends untaken any e t (lock_try path)).
  { intros e t'. apply ends_catch; [|intros; by apply ends_ret]. apply ends_untimed. intros now r.
    by case_bool_decide. }
  assert (forall n e t, ends untaken any e t (lock_acquire n path)) as Hacq
    by (induction n as [|n IH]; intros e t'; cbn [lock_acquire]; ends_tac).
  assert (forall e t, ends untaken any e t (lock_release path)).
  { intros e t'. apply ends_catch; [|intros; by apply ends_ret]. by apply ends_untimed. }
  apply ends_bind; [apply Hacq|]. intros []; [|apply ends_fail].
  apply keeps_bind with (phi := fun o => match o with
    | Ok (Ok a) => P a | Ok _ => True | _ => False end).
  - intros i s. apply safe_capture. eapply safe_mono; [|apply Hb]. intros s' [a|x|x] [-> Ho]; done.
  - intros [[a|x|x]|x|x] Ho; try done; ends_tac.
Qed.

Lemma ends_send args : ends untaken any true true (intraledgerPaymentSendWalletIdForUsdWallet args).
Proof.
  unfold intraledgerPaymentSendWalletIdForUsdWallet, withPaymentIdempotency.
  assert (forall k, ends untaken any true true (cache_get r_sends k)).
  { intros k. unfold cache_get, cached.
    assert (ends untaken any true true (redis (fun now r => (live now (r_sends r !! k), r))))
      by (by apply ends_untimed). ends_tac. }
  assert (forall k v n, ends untaken any true true (cache_set set_sends r_sends k v n)).
  { intros k v n. unfold cache_set, cached.
    assert (ends untaken any true true (redis (fun now r =>
      (v, set_sends (<[k := (v, now + n * 1000)]> (r_sends r)) r)))) by (by apply ends_untimed).
    ends_tac. }
  set (execute := announced _).
  assert (ends untaken any true true execute) as Hex.
  { subst execute. unfold announced, notifyIntraledgerSendResult.
    pose proof (sure_emit untaken untaken_frame).
    apply keeps_bind with (phi := fun o => exists r, o = Ok r).
    - intros i s. apply safe_capture. eapply safe_mono with (P := fun s' _ => s' = s).
      { intros s' o ->. split; [done|by eexists]. }
      eapply safe_mono; [|apply (quietly_ends untaken)].
      + intros s' o [-> _]. done.
      + unfold validateIsUsdWallet, intraledgerPaymentSendWalletId, validateIntraledgerPaymentInputs.
        pose proof @ends_base_any. pose proof (fun A => @ends_done tworld bool untaken A).
        eapply ends_quietly. ends_tac.
    - intros o [r ->]. pose proof (fun A => @ends_done tworld bool untaken A). ends_tac. }
  assert (forall k fp, ends untaken any true true
    (lockPaymentIdempotencyKey k (send_locked k fp execute))) as Hlocked.
  { intros k fp. apply ends_redlock. unfold send_locked, resolveCached. ends_tac. }
  unfold resolveCached. ends_tac.
Qed.

(** A timelock other than the dedupe lock. *)
Lemma sure_lock_other key : "locks:idempotencykey:" +:+ key <> dedupe_path ->
  forall e t, ends untaken any e t (pattempt (lockIdempotencyKey key)).
Proof.
  intros Hne e t. unfold lockIdempotencyKey.
  assert (forall e t, ends untaken any e t (timelock_try ("locks:idempotencykey:" +:+ key))).
  { intros e' t'. apply ends_catch; [|intros; by apply ends_ret]. apply keeps_atomic.
    intros w ss HI. unfold redis. destruct (live _ _) as [[]|].
    - destruct (redis_fault (t_redis_ops w)) as [[]|]; (split; [|done]); revert HI;
        by apply untaken_timelocks.
    - destruct (redis_fault (t_redis_ops w)) as [[]|]; (split; [|done]);
        intros Hs; cbn; rewrite ?lookup_insert_ne by done; by apply HI. }
  ends_tac.
Qed.

(** Reaching for the dedupe lock: after it the ghost state is [true]. *)
Lemma safe_dedupe s :
  safe untaken (fun s' o => s' = true /\ exists r, o = Ok r) O
    (pattempt (lockIdempotencyKey ("fygaro-payment:" +:+ tx))) s.
Proof.
  apply safe_attempt. unfold lockIdempotencyKey.
  assert (forall s, safe untaken (fun s' o => s' = true /\ exists b, o = Ok b) O
    (timelock_try ("locks:idempotencykey:" +:+ "fygaro-payment:" +:+ tx)) s) as Htry.
  { intros s0. eapply safe_catch with (Q := fun s' o => s' = true /\ forall x, o <> Err x).
    - apply safe_atomic. intros w ss _ Hs. exists true. split.
      + intros Ht. rewrite list_lookup_insert_eq in Ht by (by eapply lookup_lt_Some). done.
      + split; [done|]. intros x. unfold redis. destruct (live _ _);
          by destruct (redis_fault (t_redis_ops w)) as [[]|].
    - intros s' [b|x|x] [-> Hx]; [split; [done|by eexists]|by destruct (Hx x)|].
      split; [done|by eexists]. }
  eapply safe_bind; [apply Htry|]. intros s' o [-> [b ->]].
  eapply safe_bind with (Q := fun s' o => s' = true /\ exists b, o = Ok b).
  - destruct b; [split; [done|by eexists]|apply Htry].
  - intros s' o [-> [[] ->]]; (split; [done|by eexists]).
Qed.

(** *** The parts of the handler *)

(** An acknowledgement. *)
Definition acked (r : reply) : Prop := rp_code r = 200.

(** The answer of a delivery that reached for the lock is an acknowledgement. *)
Definition answered (s : bool) (o : outcome error reply) : Prop :=
  match o with
  | Ok r => rp_code r ∈ [200; 500] /\ (s = true -> acked r)
  | Err _ => False
  | Throw _ => s = false
  end.

Ltac book :=
  pose proof (sure_emit untaken untaken_frame); pose proof (sure_Date_now untaken untaken_frame);
  pose proof (sure_recordOutcome untaken untaken_frame);
  pose proof (sure_releaseHold untaken untaken_frame);
  pose proof (sure_redeem untaken untaken_frame); pose proof (ends_upsert untaken untaken_frame);
  pose proof (sure_completion untaken untaken_frame).

(** An answer of code 200 or 500 before the lock, or of code 200 at any time. *)
Lemma answered_before c : ends untaken (fun r => rp_code r ∈ [200; 500]) false true c ->
  safe untaken answered O c false.
Proof. intros Hc. by eapply safe_value; [exact Hc|..]. Qed.

Lemma answered_after c s : ends untaken acked false false c -> safe untaken answered O c s.
Proof.
  intros Hc. eapply safe_value; [exact Hc| |done..]. intros r Hr. split; [|done].
  rewrite Hr. left.
Qed.

Lemma safe_unattributed d i : d_tx d = tx -> safe untaken answered O (unattributed d i) false.
Proof.
  intros Hd. unfold unattributed, dedupe_key. rewrite Hd.
  eapply safe_bind; [apply safe_dedupe|]. intros s o [-> [r ->]]. apply answered_after.
  book. ends_tac.
Qed.

Lemma safe_refused d acc i settings prior reason : d_tx d = tx ->
  safe untaken answered O (refused d acc i settings prior reason) false.
Proof.
  intros Hd. unfold refused, record_only, dedupe_key, markFygaroTopupNotCredited. rewrite Hd. book.
  destruct (bool_decide (reason = settings_unavailable) || bool_decide (reason = history_unavailable)).
  { apply answered_before. ends_tac. set_solver. }
  eapply safe_ends with (e := false) (t := false); [done| |done..]. intros prior'.
  destruct (completed prior' || _); [apply answered_after; ends_tac|].
  eapply safe_bind; [apply safe_dedupe|]. intros s o [-> [r ->]]. apply answered_after. ends_tac.
Qed.

Lemma push_key_differs : "locks:idempotencykey:" +:+ "fygaro-credit-push:" +:+ tx <> dedupe_path.
Proof. done. Qed.

Lemma ends_credit_block d acc i fees : d_tx d = tx ->
  ends untaken acked true true (credit_block d acc i fees).
Proof.
  intros Hd. unfold credit_block, credit_failed, credit_succeeded, creditFygaroTopup, completeFygaroTopup.
  rewrite Hd. book. pose proof (sure_lock_other _ push_key_differs). pose proof ends_send.
  pose proof (ends_funding untaken untaken_frame). pose proof (ends_walletsFor untaken untaken_frame).
  ends_tac.
Qed.

Lemma safe_credited d acc i fees : d_tx d = tx ->
  safe untaken answered O (credited d acc i fees) false.
Proof.
  intros Hd. apply answered_before. unfold credited, lockPaymentIdempotencyKey.
  eapply keeps_bind.
  - eapply keeps_attempt; [by apply (ends_redlock acked _ _ false), ends_credit_block|].
    intros o Ho. instantiate (1 := fun o => match o with
      | Ok (inr r) => acked r | Ok _ => True | _ => False end). by destruct o.
  - intros [[x|r]|x|x] Ho; try done; cbv beta iota.
    + case_bool_decide; [apply ends_ret; left|apply ends_throw].
    + apply ends_ret. cbn in Ho. rewrite Ho. left.
Qed.

Lemma safe_attributed d acc i : d_tx d = tx -> safe untaken answered O (attributed d acc i) false.
Proof.
  intros Hd. unfold attributed.
  eapply safe_ends with (e := false) (t := false); [|intros settings|done..].
  { destruct (credit_enabled fygaroConfig);
      [by apply sure_getFygaroSettings, untaken_frame|by apply ends_ret]. }
  eapply safe_ends with (e := false) (t := false); [by apply sure_inputs, untaken_frame|
    intros [prior discount]|done..].
  case_match; [by apply safe_credited|by apply safe_refused].
Qed.

Lemma safe_process p ref d : d_tx d = tx -> safe untaken answered O (process p ref d) false.
Proof.
  intros Hd. unfold process, account_fault, audit_failed, writeFygaroTopupRequest. book.
  eapply safe_ends with (e := false) (t := false);
    [by apply sure_resolve_username, untaken_frame|intros [username l]|done..].
  eapply safe_ends with (e := false) (t := true);
    [by apply ends_lookup_account, untaken_frame|intros [x|acc]|done..].
  { eapply safe_ends with (e := false) (t := true); [apply ends_coerce|intros _|done..].
    apply answered_before. ends_tac. set_solver. }
  eapply safe_ends with (e := false) (t := true); [|intros email|done..].
  { destruct acc; [by apply ends_ret|by apply ends_payer, untaken_frame]. }
  eapply safe_ends with (e := false) (t := true); [apply ends_coerce|intros _|done..].
  eapply safe_ends with (e := false) (t := false); [by apply ends_attempt|intros [x|[]]|done..].
  { apply answered_before. ends_tac. set_solver. }
  eapply safe_ends with (e := false) (t := false); [done|intros _|done..].
  eapply safe_ends with (e := false) (t := false);
    [by apply sure_lookup_once, untaken_frame|intros l'|done..].
  destruct acc; [by apply safe_attributed|by apply safe_unattributed].
Qed.

(** *** The members of a delivery that have the types it is read with *)

Definition text_or_absent (v : option json) : bool :=
  match present v with None | Some (JStr _) => true | _ => false end.

Definition answerable (p : FygaroPaymentPayload) : bool :=
  text_or_absent (p_currency p) && text_or_absent (p_customReference p)
  && coercible [p_transactionId p] && coercible [p_amount p].

Lemma answerable_parts p : answerable p = true ->
  exists c r, text_or (W := tworld) "USD" (p_currency p) = pret c /\
    text_or (W := tworld) EmptyString (p_customReference p) = pret r /\
    coercible [p_transactionId p] = true /\ coercible [p_amount p] = true.
Proof.
  unfold answerable. intros [[[Hc Hr]%andb_true_iff Ht]%andb_true_iff Ha]%andb_true_iff.
  assert (forall d v, text_or_absent v = true -> exists s, text_or (W := tworld) d v = pret s) as Hx.
  { intros d v. unfold text_or_absent, text_or. destruct (present v) as [[]|]; eauto; done. }
  destruct (Hx "USD" _ Hc) as [c Ec], (Hx EmptyString _ Hr) as [r Er]. by exists c, r.
Qed.

Lemma coerce_ok {W} vs : coercible vs = true -> coerce (W := W) vs = pret tt.
Proof. unfold coerce. by intros ->. Qed.

Definition replied (s : bool) (o : outcome error reply) : Prop :=
  exists r, o = Ok r /\ rp_code r ∈ [200; 400; 500] /\ (s = true -> acked r).

Lemma safe_handler p : answerable p = true -> opt_String (p_transactionId p) = tx ->
  safe untaken replied O (paymentHandler p) false.
Proof.
  intros Ha Hp. unfold paymentHandler. destruct (answerable_parts p Ha) as (c & r & -> & -> & Ht & Hm).
  cbn [pbind pret]. rewrite Hp.
  assert (forall t, safe untaken replied O (pret (answer 400 t)) false) as H400.
  { intros t. eexists. split; [done|]. split; [set_solver|done]. }
  destruct (negb _ || negb _); [apply H400|]. rewrite !coerce_ok by done. cbn [pbind pret].
  destruct (_ ≫= _) as [gross|]; [|apply H400].
  eapply safe_catch; [by apply safe_process|]. intros s [o|x|x] Ho; cbn in Ho; [|done|].
  - exists o. destruct Ho as [Hr Hs]. split; [done|]. split; [set_solver|done].
  - subst s. rewrite ?coerce_ok by done. book. eapply safe_value with (e := false) (t := false)
      (Q := fun r => rp_code r = 500); [ends_tac| |done..].
    intros o Hr. exists o. rewrite Hr. split; [done|]. split; [set_solver|done].
Qed.
End Answered.

(** C12: a delivery whose currency and custom reference are texts or absent, and
    whose id and amount have texts, is answered, with 200, 400 or 500, whatever
    Redis, ERPNext, MongoDB, Kratos and IBEX do; and if it is not acknowledged it
    has left the dedupe lock of its transaction alone, so that a retry is
    processed and not taken for a duplicate. A currency or a custom reference of
    another type is an exception before anything is done, and is not answered. *)
Theorem delivery_answered `{X : TopupExternal} (p : FygaroPaymentPayload) (w : tworld) :
  let tx := opt_String (p_transactionId p) in
  (answerable p = true ->
   exists r, (run (paymentHandler p) w).1 = Ok r /\ rp_code r ∈ [200; 400; 500] /\
     (rp_code r <> 200 -> r_timelocks (t_redis (run (paymentHandler p) w).2) !! dedupe_path tx =
                          r_timelocks (t_redis w) !! dedupe_path tx)) /\
  (text_or_absent (p_currency p) && text_or_absent (p_customReference p) = false ->
   exists e, run (paymentHandler p) w = (Throw e, w)).
Proof.
  intros tx. split.
  - intros Ha. destruct (safe_run _ _ _ false w
      (safe_handler tx (r_timelocks (t_redis w) !! dedupe_path tx) p Ha eq_refl))
      as (s & HI & r & Hr & Hc & Hs); [done|]. exists r. split; [done|]. split; [done|].
    intros Hne. apply HI. destruct s; [|done]. by destruct (Hne (Hs eq_refl)).
  - unfold paymentHandler, text_or, text_or_absent.
    destruct (present (p_currency p)) as [[]|]; cbn; eauto;
      destruct (present (p_customReference p)) as [[]|]; cbn; eauto; done.
Qed.

(** ** A payment is credited at most once *)

(** The wallet credits are paid from, as the repositories give it. *)
Definition treasury_wallet (accounts : gmap string account) (wallets : list wallet) : option wallet :=
  a ← snd <$> list_find (fun a => bool_decide (a_role a = Some TREASURY_ROLE) = true)
        (map_to_list accounts).*2;
  let l := filter (fun wl => wl_accountId wl = a_id a) wallets in
  match wallet_in Usdt l with Some wl => Some wl | None => wallet_in Usd l end.

Section CreditedOnce.
Context `{X : TopupExternal}.
Variables (tx scopedKey : string) (before : nat).
Variables (accounts0 : gmap string account) (wallets0 : list wallet).
Hypothesis Hst : steady.
Hypothesis Hkey : forall wl, treasury_wallet accounts0 wallets0 = Some wl ->
  wl_id wl +:+ ":" +:+ js_trim ("fygaro:" +:+ tx) = scopedKey.

Abbreviation inv := (once scopedKey before accounts0 wallets0).

Lemma once_frame w w' ss : frame w w' -> inv w ss -> inv w' ss.
Proof.
  intros (Ep & Ea & Ew & Es & El & _) (Hk & Hh & Hp & Ha & Hw). unfold once, kept, people, paid_so_far in *.
  rewrite Es, El, Ep, Ea, Ew. done.
Qed.

(** A command on other locks, or on timelocks. *)
Lemma ends_other_lock {A} e (op : Z -> redis_state -> A * redis_state) :
  (forall now r, r_sends (op now r).2 = r_sends r /\
     (lock_path scopedKey ∈ r_locks (op now r).2 <-> lock_path scopedKey ∈ r_locks r)) ->
  ends inv any e true (redis op).
Proof.
  intros Hop. apply keeps_atomic. intros w ss (Hk & Hh & Hp & Hpeople). unfold redis.
  specialize (Hop (redis_time (t_redis_ops w)) (t_redis w)). destruct (op _ _) as [a r].
  destruct Hop as [Es El]. cbn [fst snd] in *.
  assert (inv (set_redis r (next_redis_op w)) ss).
  { split_and!; [|by rewrite (bool_decide_ext _ _ El)|done|done]. unfold kept in *. cbn. by rewrite Es. }
  destruct (redis_fault (t_redis_ops w)) as [[]|]; by split.
Qed.

Lemma sure_timelock key e t : ends inv any e t (pattempt (lockIdempotencyKey key)).
Proof.
  unfold lockIdempotencyKey.
  assert (forall e t, ends inv any e t (timelock_try ("locks:idempotencykey:" +:+ key))).
  { intros e' t'. apply ends_catch; [|intros; by apply ends_ret]. apply ends_other_lock.
    intros now r. by destruct (live _ _). }
  ends_tac.
Qed.

(** Another lock around a call that moves its ghost state. *)
Lemma safe_other_redlock {A} (P : sending -> outcome error A -> Prop) path (body : TApp A) i g :
  path <> lock_path scopedKey -> (forall g x, P g (Err x)) ->
  safe inv P i body g -> safe inv P i (redlock path body) g.
Proof.
  intros Hne He Hb. unfold redlock, with_lock.
  assert (forall e t, ends inv any e t (lock_try path)).
  { intros e t'. apply ends_catch; [|intros; by apply ends_ret]. apply ends_other_lock. intros now r.
    case_bool_decide; [done|]. split; [done|]. cbn. set_solver. }
  assert (forall n e t, ends inv any e t (lock_acquire n path)) as Hacq
    by (induction n as [|n IH]; intros e t'; cbn [lock_acquire]; ends_tac).
  assert (forall e t, ends inv any e t (lock_release path)) as Hrel.
  { intros e t'. apply ends_catch; [|intros; by apply ends_ret]. apply ends_other_lock.
    intros now r. split; [done|]. cbn. set_solver. }
  eapply safe_ends with (e := false) (t := false); [apply Hacq| |done..].
  intros []; [|apply He]. eapply safe_bind.
  { apply safe_capture with (P := fun g o => match o with Ok o => P g o | _ => False end). exact Hb. }
  intros g' [o|x|x] Ho; [|done..]. eapply safe_ends with (e := false) (t := false); [apply Hrel| |done..].
  intros []; [|apply He]. destruct o; [exact Ho|exact Ho|apply He].
Qed.

(** *** The treasury *)

Lemma keeps_findByRole :
  keeps inv (fun o => forall a, o = Ok a -> snd <$> list_find (fun a =>
    bool_decide (a_role a = Some TREASURY_ROLE) = true) (map_to_list accounts0).*2 = Some a)
    (base (findByRole TREASURY_ROLE)).
Proof.
  apply keeps_atomic. intros w ss HI. pose proof (settled_findOne (fun a =>
    bool_decide (a_role a = Some TREASURY_ROLE)) (new_error RepositoryError
    ("Account not found for role " +:+ TREASURY_ROLE)) (t_base w)) as Hset.
  destruct (HI) as (_ & _ & _ & Ha & _). split.
  - unfold findByRole. destruct (accounts_findOne _ _ _) as [o b]. by apply once_base.
  - intros a. unfold findByRole, accounts_findOne, guarded, catch, bind, mongo, read.
    destruct (mongo_fault _) as [[]|]; cbn; [done|done|]. rewrite Ha.
    destruct (list_find _ _) as [[j x]|]; cbn; [|done]. by intros [= ->].
Qed.

Lemma keeps_listByAccountId id :
  keeps inv (fun o => forall l, o = Ok l -> l = filter (fun wl => wl_accountId wl = id) wallets0)
    (base (listByAccountId id)).
Proof.
  apply keeps_atomic. intros w ss HI. pose proof (settled_listByAccountId id (t_base w)) as Hset.
  destruct (HI) as (_ & _ & _ & _ & Hw). split.
  - destruct (listByAccountId _ _) as [o b]. by apply once_base.
  - intros l. unfold listByAccountId, guarded, catch, bind, mongo, read, toObjectId.
    destruct (valid_object_id id); cbn; [|done].
    destruct (mongo_fault _) as [[]|]; cbn; [done|done|]. rewrite Hw. by intros [= ->].
Qed.

Lemma keeps_funding :
  keeps inv (fun o => forall wl, o = Ok (inr wl) -> treasury_wallet accounts0 wallets0 = Some wl)
    resolveFygaroTreasuryFundingWallet.
Proof.
  unfold resolveFygaroTreasuryFundingWallet. eapply keeps_bind.
  { eapply keeps_attempt; [apply keeps_findByRole|]. intros o Ho.
    instantiate (1 := fun o => forall a, o = Ok (inr a) -> snd <$> list_find (fun a =>
      bool_decide (a_role a = Some TREASURY_ROLE) = true) (map_to_list accounts0).*2 = Some a).
    destruct o; intros b; [intros [= ->]; by apply Ho|done..]. }
  intros [[x|a]|x|x] Ha; [by apply keeps_done| |done..]. eapply keeps_bind.
  { eapply keeps_attempt; [apply keeps_listByAccountId|]. intros o Ho.
    instantiate (1 := fun o => forall l, o = Ok (inr l) ->
      l = filter (fun wl => wl_accountId wl = a_id a) wallets0).
    destruct o; intros b; [intros [= ->]; by apply Ho|done..]. }
  intros [[x|l]|x|x] Hl; [by apply keeps_done| |done..]. specialize (Ha a eq_refl).
  specialize (Hl l eq_refl). unfold treasury_wallet. rewrite Ha. cbn [mbind option_bind]. rewrite <- Hl.
  destruct (wallet_in Usdt l); [apply keeps_done; by intros ? [= ->]|].
  destruct (wallet_in Usd l); apply keeps_done; [by intros ? [= ->]|done].
Qed.

(** *** The credit *)

(** Only the delivery whose send paid learns that it credited. *)
Definition credit_told (g : sending) (o : outcome error credit_result) : Prop :=
  match o with Ok (CreditSent _ _) => exists s, g = Sent s | _ => True end.

Lemma fygaro_key_nonempty : nonempty (js_trim ("fygaro:" +:+ tx)) = true.
Proof.
  unfold js_trim. assert (strip_start js_space ("fygaro:" +:+ tx) = "fygaro:" +:+ tx) as -> by done.
  change ("fygaro:" +:+ tx) with (String "f"%char ("ygaro:" +:+ tx)). cbn [strip_end].
  by destruct (strip_end js_space ("ygaro:" +:+ tx)).
Qed.

Lemma safe_credit i acc amount :
  safe inv credit_told i (creditFygaroTopup acc amount tx) Apart.
Proof.
  unfold creditFygaroTopup. destruct (amount <=? 0); [done|].
  eapply safe_keeps; [apply keeps_funding| |done..]. intros [[step msg]|wl] Hwl; [done|].
  specialize (Hkey wl (Hwl wl eq_refl)).
  eapply safe_ends; [apply (ends_walletsFor inv once_frame acc false)| |done..]. intros l.
  destruct (wallet_in (wl_currency wl) l) as [rw|]; [|done].
  eapply safe_bind with (Q := fun g o => match o with
    | Ok (inr (Constant s)) => g = Sent s | _ => True end).
  - apply safe_attempt. eapply safe_mono; [|apply safe_withPaymentIdempotency with (scopedKey := scopedKey)].
    + intros g [[s|s]|x|x] Ho; done.
    + done.
    + done.
    + apply fygaro_key_nonempty.
    + apply usd_pays_once.
  - intros g [[x|r]|x|x] Hg; cbn; try done.
    + destruct (isInsufficientTreasuryBalance x); done.
    + destruct r as [s|s]; cbn; [|done]. repeat case_match; try done; by exists s.
Qed.
(** *** The handler *)

(** A delivery that answers that it credited has paid. *)
Definition credit_claimed (g : sending) (o : outcome error reply) : Prop :=
  forall r, o = Ok r -> rp_credited r = Some true -> exists s, g = Sent s.

Lemma claimed_err g x : credit_claimed g (Err x).
Proof. by intros r. Qed.
Lemma claimed_throw g x : credit_claimed g (Throw x).
Proof. by intros r. Qed.

(** A reply that does not claim a credit. *)
Definition unclaimed (r : reply) : Prop := rp_credited r <> Some true.

Lemma claimed_unclaimed c i g : ends inv unclaimed true true c -> safe inv credit_claimed i c g.
Proof.
  intros Hc. eapply safe_value; [exact Hc| |intros; apply claimed_err|intros; apply claimed_throw].
  intros r Hr r' [= <-] Ht. by destruct Hr.
Qed.

Lemma claimed_then {A} (c : TApp A) k i g : ends inv any true true c ->
  (forall a, safe inv credit_claimed i (k a) g) -> safe inv credit_claimed i (pbind c k) g.
Proof.
  intros Hc Hk. eapply safe_ends; [exact Hc|exact Hk|intros; apply claimed_err|intros; apply claimed_throw].
Qed.

Ltac keep_books :=
  pose proof (sure_emit inv once_frame); pose proof (sure_Date_now inv once_frame);
  pose proof (sure_recordOutcome inv once_frame); pose proof (sure_releaseHold inv once_frame);
  pose proof (sure_redeem inv once_frame); pose proof (ends_upsert inv once_frame);
  pose proof (sure_completion inv once_frame); pose proof sure_timelock.

Lemma claimed_credit_block i d acc intent fees : d_tx d = tx ->
  safe inv credit_claimed i (credit_block d acc intent fees) Apart.
Proof.
  intros Hd. unfold credit_block, credit_failed, credit_succeeded, completeFygaroTopup. rewrite Hd.
  keep_books. apply claimed_then; [done|]. intros prior.
  destruct (completed prior); [apply claimed_unclaimed; ends_tac|].
  eapply safe_bind; [apply safe_credit|]. intros g [[wid status|step msg]|x|x] Hg;
    [|apply claimed_unclaimed; ends_tac|apply claimed_err|apply claimed_throw].
  eapply safe_value with (Q := any) (e := true) (t := true);
    [ends_tac| |intros; apply claimed_err|intros; apply claimed_throw].
  intros r _ r' _ _. exact Hg.
Qed.

Lemma credit_lock_differs wl : treasury_wallet accounts0 wallets0 = Some wl ->
  "locks:payment-idempotency:" +:+ "fygaro-payment:" +:+ tx <> lock_path scopedKey.
Proof.
  intros Hwl E. unfold lock_path in E. rewrite <- (Hkey wl Hwl) in E.
  set (u := strip_end js_space (String ":"%char tx)).
  assert (u <> EmptyString) as Hu by (subst u; cbn; by destruct (strip_end js_space tx)).
  assert (js_trim ("fygaro:" +:+ tx) = "fygaro" +:+ u) as Ht by (by apply (strip_end_app_ne js_space "fygaro")).
  assert (strip_end js_space u = u) as Hi by apply strip_end_idem.
  rewrite Ht in E. apply (f_equal (strip_end js_space)) in E.
  rewrite <- !app_assoc_str in E. rewrite (strip_end_app_ne _ _ u) in E by (by rewrite Hi).
  change (("locks:payment-idempotency:" +:+ "fygaro-payment:") +:+ tx) with
    ("locks:payment-idempotency:fygaro-payment" +:+ String ":"%char tx) in E.
  rewrite (strip_end_app_ne _ _ (String ":"%char tx)), Hi in E by done. fold u in E.
  pose proof (f_equal slen E) as El. rewrite !slen_app in El.
  change (slen "locks:payment-idempotency:fygaro-payment") with 40 in El.
  change (slen "locks:payment-idempotency:") with 26 in El. change (slen ":") with 1 in El.
  change (slen "fygaro") with 6 in El. rewrite !app_assoc_str in E. cbn in E. injection E as E.
  destruct (wl_id wl) as [|c0 [|c1 [|c2 [|c3 [|c4 [|c5 [|c6 [|c7 r]]]]]]]];
    unfold slen in El; cbn [String.length] in El; try lia. cbn in E. by injection E.
Qed.

Lemma claimed_credited wl i d acc intent fees : d_tx d = tx ->
  treasury_wallet accounts0 wallets0 = Some wl ->
  safe inv credit_claimed i (credited d acc intent fees) Apart.
Proof.
  intros Hd Hwl. unfold credited, lockPaymentIdempotencyKey, dedupe_key. rewrite Hd.
  eapply safe_bind.
  - apply safe_attempt with (P := fun g o => match o with Ok (inr r) => credit_claimed g (Ok r) | _ => True end).
    apply safe_other_redlock; [by eapply credit_lock_differs|done|].
    eapply safe_mono; [|by apply claimed_credit_block]. by intros g [].
  - intros g [[x|r]|x|x] Hg; [|exact Hg|apply claimed_err|apply claimed_throw].
    case_match; [by intros r [= <-]|apply claimed_throw].
Qed.

Lemma claimed_refused i d acc intent settings prior reason :
  safe inv credit_claimed i (refused d acc intent settings prior reason) Apart.
Proof.
  apply claimed_unclaimed. unfold refused, record_only, markFygaroTopupNotCredited. keep_books. ends_tac.
Qed.

Lemma claimed_process wl i p ref d : d_tx d = tx ->
  treasury_wallet accounts0 wallets0 = Some wl ->
  safe inv credit_claimed i (process p ref d) Apart.
Proof.
  intros Hd Hwl. unfold process, account_fault, audit_failed, writeFygaroTopupRequest, attributed, unattributed.
  keep_books.
  apply claimed_then; [by apply sure_resolve_username, once_frame|intros [username l]].
  apply claimed_then; [by apply ends_lookup_account, once_frame|intros [x|acc]].
  { apply claimed_then; [apply ends_coerce|intros _]. apply claimed_unclaimed. ends_tac. }
  apply claimed_then; [destruct acc; [by apply ends_ret|by apply ends_payer, once_frame]|intros email].
  apply claimed_then; [apply ends_coerce|intros _].
  apply claimed_then; [by apply ends_attempt|intros [x|[]]].
  { apply claimed_unclaimed. ends_tac. }
  apply claimed_then; [done|intros _].
  apply claimed_then; [by apply sure_lookup_once, once_frame|intros l'].
  destruct acc as [acc|]; [|apply claimed_unclaimed; ends_tac].
  apply claimed_then; [destruct (credit_enabled fygaroConfig);
    [by apply sure_getFygaroSettings, once_frame|by apply ends_ret]|intros settings].
  apply claimed_then; [by apply sure_inputs, once_frame|intros [prior discount]].
  case_match; [by eapply claimed_credited|by apply claimed_refused].
Qed.

Lemma claimed_handler wl i p : p_transactionId p = Some (JStr tx) ->
  treasury_wallet accounts0 wallets0 = Some wl ->
  safe inv credit_claimed i (paymentHandler p) Apart.
Proof.
  intros Hp Hwl. unfold paymentHandler. keep_books.
  assert (forall e d v, ends inv any e true (text_or d v)) as Ht.
  { intros e d v. unfold text_or. destruct (present v) as [[]|]; first [apply ends_throw|by apply ends_ret]. }
  apply claimed_then; [apply Ht|intros currency]. apply claimed_then; [apply Ht|intros r]. rewrite Hp.
  destruct (negb _ || negb _); [by intros o [= <-]|].
  apply claimed_then; [apply ends_coerce|intros _].
  destruct (_ ≫= _) as [gross|]; [|by intros o [= <-]].
  eapply safe_catch; [by eapply claimed_process|]. intros g [o|x|x] Ho; [exact Ho|exact Ho|].
  apply claimed_then; [apply ends_coerce|intros _]. apply claimed_unclaimed. ends_tac.
Qed.

End CreditedOnce.

(** Two sends that paid. *)
Lemma total_two ss i j s t : i <> j -> ss !! i = Some (Sent s) -> ss !! j = Some (Sent t) ->
  2 <= total paid ss.
Proof.
  revert i j. induction ss as [|g ss IH]; intros i j Hne Hi Hj; [done|].
  assert (forall k u, ss !! k = Some (Sent u) -> 1 <= total paid ss) as Hone.
  { intros k u Hk. apply (total_elem paid ss k (Sent u)); [by intros []|done]. }
  assert (0 <= paid g) by by destruct g.
  change (total paid (g :: ss)) with (paid g + total paid ss).
  destruct i as [|i], j as [|j]; [done| | |]; cbn in Hi, Hj.
  - injection Hi as ->. specialize (Hone j t Hj). cbn. lia.
  - injection Hj as ->. specialize (Hone i s Hi). cbn. lia.
  - assert (i <> j) as Hij by congruence. specialize (IH i j Hij Hi Hj). lia.
Qed.

(** C1: however many deliveries of one payment race, and whatever ERPNext, MongoDB
    and IBEX do meanwhile, IBEX acknowledges at most one payment, and if a
    delivery answers that it credited the payment was made: as long as Redis
    answers and keeps results for longer than the deliveries take, and the
    payment was neither sent nor being sent before. *)
Theorem deliveries_credit_once `{X : TopupExternal} (tx : string) (payloads : list FygaroPaymentPayload)
    (treasury : wallet) (w : tworld) (sched : list nat) :
  steady -> Forall (fun p => p_transactionId p = Some (JStr tx)) payloads ->
  treasury_wallet (w_accounts (t_base w)) (w_wallets (t_base w)) = Some treasury ->
  r_sends (t_redis w) !! (wl_id treasury +:+ ":" +:+ js_trim ("fygaro:" +:+ tx)) = None ->
  lock_path (wl_id treasury +:+ ":" +:+ js_trim ("fygaro:" +:+ tx)) ∉ r_locks (t_redis w) ->
  let '(ps, w') := exec sched (paymentHandler <$> payloads) w in
  (length (w_paid (t_base w')) <= S (length (w_paid (t_base w))))%nat /\
  (forall i r, ps !! i = Some (Done (Ok r)) -> rp_credited r = Some true ->
     length (w_paid (t_base w')) = S (length (w_paid (t_base w)))).
Proof.
  intros Hst Hp Htr Hs Hl. set (k := wl_id treasury +:+ ":" +:+ js_trim ("fygaro:" +:+ tx)) in *.
  pose proof (exec_safe (once k (paid_so_far w) (w_accounts (t_base w)) (w_wallets (t_base w)))
    credit_claimed sched (paymentHandler <$> payloads) w) as Hx.
  destruct (exec _ _ _) as [ps w']. cbn [fst snd] in Hx. destruct Hx as (ss & HI & Hlen & Hs').
  { exists (replicate (length payloads) Apart). split; [by apply once_start|].
    split; [by rewrite length_replicate, length_fmap|].
    intros i p g Hi [-> _]%lookup_replicate_1. rewrite list_lookup_fmap in Hi.
    destruct (payloads !! i) as [p0|] eqn:Ha; [|done]. injection Hi as <-.
    assert (treasury_wallet (w_accounts (t_base w)) (w_wallets (t_base w)) = Some treasury) as Ht by done.
    eapply claimed_handler; [done| |by eapply Forall_lookup_1 in Hp|exact Ht].
    intros wl Hwl. rewrite Ht in Hwl. by injection Hwl as <-. }
  assert (forall i r, ps !! i = Some (Done (Ok r)) -> rp_credited r = Some true ->
    exists s, ss !! i = Some (Sent s)) as Hr.
  { intros i r Hi Hc. destruct (lookup_lt_is_Some_2 ss i) as [g Hg];
      [rewrite Hlen; by eapply lookup_lt_Some|].
    destruct (Hs' i _ g Hi Hg r eq_refl Hc) as [s ->]. by exists s. }
  pose proof (once_paid _ _ _ _ _ _ HI) as H1. destruct HI as (_ & _ & Hpd & _).
  unfold paid_so_far in Hpd. split; [lia|].
  intros i r Hi Hc. destruct (Hr i r Hi Hc) as [s Hsi].
  pose proof (total_elem paid ss i (Sent s) ltac:(by intros []) Hsi) as Hle. cbn in Hle. lia.
Qed.

(** Of any number of credits of one payment, at the same time or one after the
    other, at most one is reported as sent: a credit that finds the result of an
    earlier one in the cache gets a copy of its status, takes it for an unexpected
    one and reports a failure. *)
Theorem credit_reported_once `{X : TopupExternal} (tx : string) (credits : list (string * Z))
    (treasury : wallet) (w : tworld) (sched : list nat) :
  steady ->
  treasury_wallet (w_accounts (t_base w)) (w_wallets (t_base w)) = Some treasury ->
  r_sends (t_redis w) !! (wl_id treasury +:+ ":" +:+ js_trim ("fygaro:" +:+ tx)) = None ->
  lock_path (wl_id treasury +:+ ":" +:+ js_trim ("fygaro:" +:+ tx)) ∉ r_locks (t_redis w) ->
  let ps := (exec sched ((fun '(acc, cents) => creditFygaroTopup acc cents tx) <$> credits) w).1 in
  forall i j wid wid' status status',
    ps !! i = Some (Done (Ok (CreditSent wid status))) ->
    ps !! j = Some (Done (Ok (CreditSent wid' status'))) -> i = j.
Proof.
  intros Hst Htr Hs Hl. cbn zeta. set (k := wl_id treasury +:+ ":" +:+ js_trim ("fygaro:" +:+ tx)) in *.
  pose proof (exec_safe (once k (paid_so_far w) (w_accounts (t_base w)) (w_wallets (t_base w)))
    credit_told sched ((fun '(acc, cents) => creditFygaroTopup acc cents tx) <$> credits) w) as Hx.
  destruct (exec _ _ _) as [ps w']. cbn [fst snd] in Hx |- *. destruct Hx as (ss & HI & Hlen & Hs').
  { exists (replicate (length credits) Apart). split; [by apply once_start|].
    split; [by rewrite length_replicate, length_fmap|].
    intros i p g Hi [-> _]%lookup_replicate_1. rewrite list_lookup_fmap in Hi.
    destruct (credits !! i) as [[acc cents]|]; [|done]. injection Hi as <-.
    assert (treasury_wallet (w_accounts (t_base w)) (w_wallets (t_base w)) = Some treasury) as Ht by done.
    apply safe_credit; [done|]. intros wl Hwl. rewrite Ht in Hwl. by injection Hwl as <-. }
  assert (forall i wid status, ps !! i = Some (Done (Ok (CreditSent wid status))) ->
    exists s, ss !! i = Some (Sent s)) as Hr.
  { intros i wid status Hi. destruct (lookup_lt_is_Some_2 ss i) as [g Hg];
      [rewrite Hlen; by eapply lookup_lt_Some|].
    destruct (Hs' i _ g Hi Hg) as [s ->]. by exists s. }
  intros i j wid wid' status status' [s Hsi]%Hr [t Htj]%Hr. destruct (decide (i = j)) as [|Hne]; [done|].
  pose proof (once_paid _ _ _ _ _ _ HI). pose proof (total_two ss i j s t Hne Hsi Htj). lia.
Qed.
