(* ===== verification/BridgeWorld.v ===== *)
(** * The world of the Bridge integration

    Bridge moves dollars between bank accounts and the USDT wallets of IBEX.
    This file has what its code shares: the MongoDB collections of
    [src/src/services/mongoose/schema.ts] that only Bridge uses, the state of
    Bridge's servers, the crypto sends IBEX acknowledged, the notifications, the
    events published and the reconciliations started in the background, on top
    of the world of the top-ups. Bridge's API, the part of IBEX's API only
    Bridge uses, the price feeds, the geolocation of addresses, the signature
    check and the configuration are parameters, in the class [BridgeExternal].
    The collections of the referral programme are here too, since an approval by
    Bridge pays its rewards. Also here: [BridgeClient] of [services/bridge/client.ts]. *)

From stdpp Require Import base gmap list strings.
From Stdlib Require Import ZArith Lia.
From S2P Require Import Prelude JsStrings JsNumbers JsDecimals Processes Errors World.
From S2P Require Import TopupWorld Json.

Open Scope Z_scope.
Open Scope flash_scope.

(** ** Documents *)

Inductive WithdrawalStatus :=
| WPending | WSubmitted | WUsdtSent | WSendFailed | WCompleted | WFailed | WCancelled.

#[global] Instance WithdrawalStatus_eq_dec : EqDecision WithdrawalStatus.
Proof. solve_decision. Defined.

Definition withdrawal_status (s : WithdrawalStatus) : string :=
  match s with
  | WPending => "pending"
  | WSubmitted => "submitted"
  | WUsdtSent => "usdt_sent"
  | WSendFailed => "send_failed"
  | WCompleted => "completed"
  | WFailed => "failed"
  | WCancelled => "cancelled"
  end.

(** [CustomerFeeEstimate] *)
Record CustomerFeeEstimate := mkEstimate {
  estimatedBridgeFeePercent : string;
  estimatedBridgeFee : string;
  estimatedGasBuffer : string;
  estimatedCustomerFee : string;
  flashFeePercent : string;
  flashFee : string
}.

#[global] Instance CustomerFeeEstimate_eq_dec : EqDecision CustomerFeeEstimate.
Proof. solve_decision. Defined.

(** [BridgeWithdrawalReceiptFees] *)
Record BridgeWithdrawalReceiptFees := mkReceiptFees {
  bridgeDeveloperFee : option string;
  bridgeExchangeFee : option string;
  subtotalAmount : option string;
  finalAmount : option string
}.

#[global] Instance BridgeWithdrawalReceiptFees_eq_dec : EqDecision BridgeWithdrawalReceiptFees.
Proof. solve_decision. Defined.

(** A document of [BridgeWithdrawal]. The schema requires the estimates, so a
    document has all of them; the dates are milliseconds. *)
Record withdrawal := mkWithdrawal {
  wd_id : string;
  wd_accountId : string;
  wd_bridgeTransferId : option string;
  wd_bridgeDepositAddress : option string;
  wd_ibexPayoutId : option string;
  wd_ibexTxHash : option string;
  wd_amount : string;
  wd_currency : string;
  wd_status : WithdrawalStatus;
  wd_fees : CustomerFeeEstimate;
  wd_receipt : BridgeWithdrawalReceiptFees;
  wd_failureReason : option string;
  wd_externalAccountId : string;
  wd_createdAt : Z;
  wd_updatedAt : Z
}.

#[global] Instance withdrawal_eq_dec : EqDecision withdrawal.
Proof. solve_decision. Defined.

Inductive ExternalStatus := XPending | XVerified | XFailed.

#[global] Instance ExternalStatus_eq_dec : EqDecision ExternalStatus.
Proof. solve_decision. Defined.

(** A document of [BridgeExternalAccount]. *)
Record external_account := mkExternal {
  x_id : string;
  x_accountId : string;
  x_bridgeExternalAccountId : string;
  x_bankName : string;
  x_accountNumberLast4 : string;
  x_status : ExternalStatus;
  x_isDefault : bool;
  x_createdAt : Z;
  x_updatedAt : Z
}.

#[global] Instance external_account_eq_dec : EqDecision external_account.
Proof. solve_decision. Defined.

(** A document of [BridgeVirtualAccount]. *)
Record virtual_account := mkVirtual {
  v_accountId : string;
  v_bridgeVirtualAccountId : string;
  v_bankName : string;
  v_routingNumber : string;
  v_accountNumber : string;
  v_accountNumberLast4 : string;
  v_createdAt : Z
}.

(** A document of [BridgeDeposits]. *)
Record deposit_log := mkDeposit {
  dp_eventId : string;
  dp_transferId : string;
  dp_customerId : string;
  dp_state : string;
  dp_amount : string;
  dp_currency : string;
  dp_developerFee : string;
  dp_subtotalAmount : option string;
  dp_initialAmount : option string;
  dp_finalAmount : option string;
  dp_destinationTxHash : option string;
  dp_createdAt : Z
}.

(** A document of [IbexCryptoReceive]. *)
Record receive_log := mkReceive {
  rc_txHash : string;
  rc_address : string;
  rc_amount : string;
  rc_currency : string;
  rc_network : string;
  rc_accountId : option string;
  rc_receivedAt : Z
}.

Inductive OrphanType :=
| bridge_without_ibex | ibex_without_bridge
| bridge_transfer_without_ibex_send | ibex_send_without_bridge_settlement.

#[global] Instance OrphanType_eq_dec : EqDecision OrphanType.
Proof. solve_decision. Defined.

(** A document of [BridgeReconciliationOrphan]; the triage context is kept as
    its reason. *)
Record orphan := mkOrphan {
  or_type : OrphanType;
  or_resolved : bool;
  or_transferId : option string;
  or_txHash : option string;
  or_bridgeEventId : option string;
  or_customerId : option string;
  or_amount : option string;
  or_currency : option string;
  or_reason : string;
  or_detectedAt : Z;
  or_resolvedAt : option Z
}.

(** A document of [BridgeReplay]. *)
Record replay_log := mkReplay {
  rl_eventId : string;
  rl_eventType : string;
  rl_eventPayload : json;
  rl_bridgeEventCreatedAt : Z;
  rl_replayedAt : Z;
  rl_operator : string;
  rl_timeWindowStart : Z;
  rl_timeWindowEnd : Z;
  rl_httpStatus : Z;
  rl_httpResponse : json;
  rl_dryRun : bool
}.

(** A document of [Invite], of [services/mongoose/models/invite.ts]. *)
Inductive InviteMethod := EMAIL | SMS | WHATSAPP.
Inductive InviteStatus := InvitePending | InviteSent | InviteAccepted | InviteExpired.

#[global] Instance InviteMethod_eq_dec : EqDecision InviteMethod.
Proof. solve_decision. Defined.
#[global] Instance InviteStatus_eq_dec : EqDecision InviteStatus.
Proof. solve_decision. Defined.

(** [rewardStatus]; an invite that was not claimed has none. *)
Inductive RewardStatus := RewardProcessing | RewardPaid | RewardPartial | RewardFailed | RewardPending.

#[global] Instance RewardStatus_eq_dec : EqDecision RewardStatus.
Proof. solve_decision. Defined.

Record invite := mkInvite {
  iv_id : string;
  iv_contact : string;
  iv_method : InviteMethod;
  iv_tokenHash : string;
  iv_inviterId : string;
  iv_status : InviteStatus;
  iv_createdAt : Z;
  iv_expiresAt : Z;
  iv_redeemedAt : option Z;
  iv_redeemedById : option string;
  iv_revokedAt : option Z;
  iv_revokeReason : option string;
  iv_rewardStatus : option RewardStatus;
  iv_rewardSeq : option Z;
  iv_rewardAmountCents : option Z;
  iv_rewardClaimedAt : option Z;
  iv_rewardedAt : option Z;
  iv_inviterRewardedAt : option Z;
  iv_inviteeRewardedAt : option Z;
  iv_rewardError : option string
}.

(** An answer of rate-limiter-flexible; a refusal is a [RateLimiterRes]. *)
Inductive limiter_answer := LimiterOk | LimiterExceeded | LimiterFault (msg : string).

(** [ReferralRewardTier]: an upper bound that is not positive is none. *)
Record ReferralRewardTier := mkTier { upToCount : Z; amountCents : Z }.

(** The collections, and the counter of [referral-reward-counter.ts]. *)
Record bridge_store := mkStore {
  s_withdrawals : gmap string withdrawal;
  s_externals : list external_account;
  s_virtuals : list virtual_account;
  s_deposits : list deposit_log;
  s_receives : list receive_log;
  s_orphans : gmap string orphan;
  s_replays : list replay_log;
  s_invites : gmap string invite;
  s_rewardSeq : Z;
  s_phones : gmap string (option string)
}.

(** ** Bridge's API *)

Record KycLink := mkKycLink { kyc_link : string; tos_link : string; customer_id : string }.

Record VirtualAccount := mkVA {
  va_id : string;
  va_status : option string;
  va_bank_name : option string;
  va_bank_routing_number : option string;
  va_bank_account_number : option string;
  va_destination_address : option string
}.

Record ExternalAccount := mkXA {
  xa_id : string;
  xa_bank_name : option string;
  xa_account_number_last_4 : option string;
  xa_last_4 : option string;
  xa_active : option bool
}.

Record PlaidLinkRequest := mkPlaid { link_token : string; link_token_expires_at : string }.

(** The figures of a receipt, when Bridge reports them. *)
Record Receipt := mkReceipt {
  rx_developer_fee : option json;
  rx_exchange_fee : option json;
  rx_subtotal_amount : option json;
  rx_final_amount : option json
}.

Record Transfer := mkTransfer {
  tr_id : string;
  tr_amount : string;
  tr_currency : string;
  tr_state : string;
  tr_on_behalf_of : option string;
  tr_to_address : option string;
  tr_receipt : option Receipt
}.

(** The body of a transfer of USDT on Ethereum to a bank account by ACH. *)
Record CreateTransferRequest := mkTransferRequest {
  ct_amount : string;
  ct_on_behalf_of : string;
  ct_developer_fee : string;
  ct_external_account_id : string
}.

(** The requests, each with the type of its answer: an endpoint and its body. *)
Inductive api_call : Type -> Type :=
| GetCustomer (customerId : string) : api_call (option string)
| CreateKycLink (email type full_name : option string) : api_call KycLink
| CreateVirtualAccount (customerId address developerFeePercent : string) : api_call VirtualAccount
| GetVirtualAccount (customerId : option string) (virtualAccountId : string) : api_call VirtualAccount
| ListVirtualAccounts (customerId : string) : api_call (list VirtualAccount)
| CreateExternalAccount (customerId : string) (data : json) : api_call ExternalAccount
| ExternalAccountLink (customerId : string) : api_call string
| CreatePlaidLink (customerId : string) : api_call PlaidLinkRequest
| ExchangePlaid (linkToken publicToken : string) : api_call string
| ListExternalAccounts (customerId : string) : api_call (list ExternalAccount)
| DeleteExternalAccount (customerId externalAccountId : string) : api_call unit
| CreateTransfer (data : CreateTransferRequest) : api_call Transfer
| GetTransfer (transferId : string) : api_call Transfer
| DeleteTransfer (transferId : string) : api_call unit.

Inductive http_method := GET | POST | DELETE.

#[global] Instance http_method_eq_dec : EqDecision http_method.
Proof. solve_decision. Defined.

Definition api_method {T} (c : api_call T) : http_method :=
  match c with
  | GetCustomer _ | GetVirtualAccount _ _ | ListVirtualAccounts _ | ListExternalAccounts _
  | GetTransfer _ => GET
  | DeleteExternalAccount _ _ | DeleteTransfer _ => DELETE
  | _ => POST
  end.

(** What a request comes to: an answer, whose body may not be readable, a
    refusal with its status, the timeout of the client, or no connection. *)
Inductive http_result (T : Type) :=
| HttpOk (body : option T)
| HttpError (status : Z) (statusText : string) (body : json)
| HttpAbort
| HttpFailure (msg : string).
Arguments HttpOk {T} body.
Arguments HttpError {T} status statusText body.
Arguments HttpAbort {T}.
Arguments HttpFailure {T} msg.

(** ** The part of IBEX's API used here *)

Record CryptoReceiveOption := mkReceiveOption {
  ro_currencyId : Z;
  ro_network : string;
  ro_name : option string
}.

Inductive hub_call : Type -> Type :=
| SendRequirements (network : string) (currencyId : Z) : hub_call string
| CreateSendInfo (name requirementsId address : string) : hub_call (option string)
| SendCrypto (accountId cryptoSendInfosId : string) (amount : js_num) : hub_call json.

(** An answer, a refusal with its status and text, or an exception of [fetch]. *)
Inductive hub_result (T : Type) :=
| HubOk (body : T)
| HubStatus (status : Z) (text : string)
| HubThrow (msg : string).
Arguments HubOk {T} body.
Arguments HubStatus {T} status text.
Arguments HubThrow {T} msg.

(** What the token endpoint answers. *)
Inductive oauth_result :=
| OauthToken (access_token : option string)
| OauthStatus (status : Z) (text : string)
| OauthNetwork (msg : string).

(** ** What leaves the program *)

(** A push notification: the phrase of its body, and the data it carries. *)
Record notification := mkNotification {
  n_accountId : string;
  n_phrase : string;
  n_type : string;
  n_amountArg : string;
  n_data : list (string * string)
}.

(** An event for the operators' dashboard. *)
Record reconciliation_event := mkReconciliationEvent {
  re_txHash : string;
  re_matched : bool;
  re_orphanType : option OrphanType;
  re_transferId : option string;
  re_customerId : option string;
  re_amount : option string;
  re_currency : option string;
  re_detectedAt : Z
}.

(** A send IBEX acknowledged. *)
Record crypto_send := mkSend {
  cs_accountId : string;
  cs_infoId : string;
  cs_amount : js_num
}.

(** ** Configuration and parameters *)

(** [BridgeWithdrawalFeeEstimateConfig], the part that enters the estimates. *)
Record FeeEstimateConfig := mkFeeConfig {
  bridgeFixedFeePercent : js_num;
  usdtTransferGasLimit : js_num;
  gasPriceBufferMultiplier : js_num;
  ethereumGasRpcUrls : list string;
  ethUsdPriceUrl : string;
  cacheTtlMs : Z;
  fallbackGasPriceGwei : js_num;
  ethUsdFallback : js_num
}.

(** The options an operator may set; one that is absent has its default. *)
Record FeeEstimateOptions := mkFeeOptions {
  fo_bridgeFixedFeePercent : option js_num;
  fo_usdtTransferGasLimit : option js_num;
  fo_gasPriceBufferMultiplier : option js_num;
  fo_ethereumGasRpcUrls : option (list string);
  fo_ethUsdPriceUrl : option string;
  fo_cacheTtlMs : option Z;
  fo_fallbackGasPriceGwei : option js_num;
  fo_ethUsdFallback : option js_num
}.

Inductive webhook_key := KeyKyc | KeyDeposit | KeyTransfer | KeyExternalAccount.

Record BridgeConfiguration := mkBridgeConfig {
  bridge_enabled : bool;
  developerFeePercent : js_num;
  withdrawalFeeEstimate : FeeEstimateOptions;
  timestampSkewMs : Z;
  publicKeys : webhook_key -> string;
  replaySecret : option string;
  env_replaySecret : option string;
  env_replayAllowedIps : option string
}.

(** What an Ethereum node answers to a request for the gas price. *)
Inductive gas_response :=
| GasStatus (status : Z)
| GasBody (result : option string) (error_message : option string)
| GasThrow (msg : string).

Inductive price_response := PriceStatus (status : Z) | PriceBody (usd : option js_num) | PriceThrow (msg : string).

(** The [ipaddr.js] library, on the texts of addresses and ranges. *)
Inductive ip_kind := IpV4 | IpV6.
#[global] Instance ip_kind_eq_dec : EqDecision ip_kind.
Proof. solve_decision. Defined.

Class BridgeExternal `{TopupExternal} := {
  bridgeConfig : BridgeConfiguration;
  bridge_state : Type;
  bridge_api : forall T, api_call T -> option string -> bridge_state -> http_result T * bridge_state;
  ibex_hub : forall T, hub_call T -> string -> ibex_state -> hub_result T * ibex_state;
  ibex_cached_token : ibex_state -> option string;
  ibex_oauth : ibex_state -> oauth_result * ibex_state;
  ibex_store_token : string -> ibex_state -> ibex_state;
  sdk_getCryptoReceiveOptions : ibex_state -> sdk_result (list CryptoReceiveOption) * ibex_state;
  sdk_createCryptoReceiveInfo :
    string -> CryptoReceiveOption -> ibex_state -> sdk_result string * ibex_state;
  object_id : nat -> string;
  random_hex : nat -> string;
  gas_fetch : string -> nat -> gas_response;
  price_fetch : string -> nat -> price_response;
  push_fault : nat -> option error;
  referral_enabled : bool;
  referral_tiers : list ReferralRewardTier;
  invite_token : nat -> string;
  rate_limiter : string -> string -> nat -> limiter_answer;
  invite_delivery : InviteMethod -> string -> string -> string -> nat -> bool;
  kratos_email : string -> outcome error (option string);
  verify_rsa_sha256 : string -> string -> string -> outcome error bool;
  ip_valid : string -> bool;
  ip_process_kind : string -> ip_kind;
  ip_process_loopback : string -> bool;
  ip_parse_range : string -> option ip_kind;
  ip_match : string -> string -> bool;
  ip_private : string -> outcome error bool;
  ip_info : string -> outcome error (option string)
}.

(** ** The state *)

(** [EthereumGasMarketSnapshot] *)
Record gas_snapshot := mkGas { gasPriceGwei : js_float; ethUsd : js_num }.

Record bworld `{BridgeExternal} := mkBWorld {
  b_top : tworld;
  b_store : bridge_store;
  b_api : bridge_state;
  b_sent : list crypto_send;
  b_notes : list notification;
  b_published : list reconciliation_event;
  b_tasks : list string;
  b_gas : option (gas_snapshot * Z);
  b_ids : nat;
  b_fetches : nat;
  b_pushes : nat
}.

Section BridgeWorld.
Context `{X : BridgeExternal}.

Definition set_top t (w : bworld) : bworld :=
  mkBWorld _ _ _ t (b_store w) (b_api w) (b_sent w) (b_notes w) (b_published w) (b_tasks w) (b_gas w)
    (b_ids w) (b_fetches w) (b_pushes w).
Definition set_store s (w : bworld) : bworld :=
  mkBWorld _ _ _ (b_top w) s (b_api w) (b_sent w) (b_notes w) (b_published w) (b_tasks w) (b_gas w)
    (b_ids w) (b_fetches w) (b_pushes w).
Definition set_api a (w : bworld) : bworld :=
  mkBWorld _ _ _ (b_top w) (b_store w) a (b_sent w) (b_notes w) (b_published w) (b_tasks w) (b_gas w)
    (b_ids w) (b_fetches w) (b_pushes w).
Definition log_send c (w : bworld) : bworld :=
  mkBWorld _ _ _ (b_top w) (b_store w) (b_api w) (b_sent w ++ [c]) (b_notes w) (b_published w)
    (b_tasks w) (b_gas w) (b_ids w) (b_fetches w) (b_pushes w).
Definition log_note n (w : bworld) : bworld :=
  mkBWorld _ _ _ (b_top w) (b_store w) (b_api w) (b_sent w) (b_notes w ++ [n]) (b_published w)
    (b_tasks w) (b_gas w) (b_ids w) (b_fetches w) (S (b_pushes w)).
Definition log_published e (w : bworld) : bworld :=
  mkBWorld _ _ _ (b_top w) (b_store w) (b_api w) (b_sent w) (b_notes w) (b_published w ++ [e])
    (b_tasks w) (b_gas w) (b_ids w) (b_fetches w) (b_pushes w).
Definition set_tasks t (w : bworld) : bworld :=
  mkBWorld _ _ _ (b_top w) (b_store w) (b_api w) (b_sent w) (b_notes w) (b_published w) t (b_gas w)
    (b_ids w) (b_fetches w) (b_pushes w).
Definition set_gas g (w : bworld) : bworld :=
  mkBWorld _ _ _ (b_top w) (b_store w) (b_api w) (b_sent w) (b_notes w) (b_published w) (b_tasks w) g
    (b_ids w) (b_fetches w) (b_pushes w).
Definition next_id (w : bworld) : bworld :=
  mkBWorld _ _ _ (b_top w) (b_store w) (b_api w) (b_sent w) (b_notes w) (b_published w) (b_tasks w)
    (b_gas w) (S (b_ids w)) (b_fetches w) (b_pushes w).
Definition next_fetch (w : bworld) : bworld :=
  mkBWorld _ _ _ (b_top w) (b_store w) (b_api w) (b_sent w) (b_notes w) (b_published w) (b_tasks w)
    (b_gas w) (b_ids w) (S (b_fetches w)) (b_pushes w).

(** [BApp A]: a handler of this world. *)
Definition BApp (A : Type) : Type := proc bworld error A.

(** A call of the code of the top-ups, and of the other services. *)
Definition top {A} (c : TApp A) : BApp A := focus b_top set_top c.
Definition svc {A} (c : App A) : BApp A := top (base c).

Definition bpeek {A} (f : bworld -> A) : BApp A := atomic (fun w => (Ok (f w), w)).
Definition bpoke (f : bworld -> bworld) : BApp unit := atomic (fun w => (Ok tt, f w)).

Definition now : BApp Z := top Date_now.
Definition alert (severity : alert_severity) (dedupKey : string) : BApp unit :=
  top (emit (Alert severity dedupKey)).
Definition ops_event (phase : string) : BApp unit := top (emit (OpsEvent phase)).

(** [new mongoose.Types.ObjectId()] *)
Definition new_object_id : BApp string :=
  atomic (fun w => (Ok (object_id (b_ids w)), next_id w)).

(** [pubsub.publish] *)
Definition publish (e : reconciliation_event) : BApp unit := bpoke (log_published e).

(** One call on a collection, at the mercy of the same connection as the others. *)
Definition collection {A} (op : bridge_store -> outcome error A * bridge_store) : BApp A :=
  atomic (fun w =>
    let b := t_base (b_top w) in
    let w1 := set_top (set_base (next_op b) (b_top w)) w in
    let '(o, s) := op (b_store w) in
    match mongo_fault (w_ops b) with
    | None => (o, set_store s w1)
    | Some (FaultBefore msg) => (Throw (new_error JsError msg), w1)
    | Some (FaultAfter msg) => (Throw (new_error JsError msg), set_store s w1)
    end).

(** The sending of a notification. The lookup of the user and the push service
    are outside the model; an exception of theirs reaches the caller. *)
Definition push_notification (n : notification) : BApp unit :=
  atomic (fun w =>
    (match push_fault (b_pushes w) with Some e => Throw e | None => Ok tt end, log_note n w)).

(** ** BridgeClient *)

(** A refusal of the API: [BridgeApiError]. *)
Record refusal := mkRefusal { rf_status : Z; rf_statusText : string; rf_response : json }.

Definition refusal_error (r : refusal) : error :=
  mkError BridgeApiError
    ("Bridge API error: " +:+ bigint_toString (rf_status r) +:+ " " +:+ rf_statusText r)
    (Some (rf_status r)) None.

(** The key a caller gives: none, for an endpoint that takes none, or a text. *)
Inductive idempotency := KeyAuto | KeyDisabled | KeyGiven (key : string).

Definition idempotency_header {T} (c : api_call T) (key : idempotency) : BApp (option string) :=
  if bool_decide (api_method c = POST) then
    match key with
    | KeyDisabled => pret None
    | KeyGiven k => if nonempty k then pret (Some k) else let* u := svc randomUUID in pret (Some u)
    | KeyAuto => let* u := svc randomUUID in pret (Some u)
    end
  else pret None.

Definition fetch {T} (c : api_call T) (header : option string) : BApp (http_result T) :=
  atomic (fun w => let '(r, s) := bridge_api T c header (b_api w) in (Ok r, set_api s w)).

Definition request {T} (c : api_call T) (key : idempotency) : BApp (refusal + option T) :=
  let* header := idempotency_header c key in
  let* response := fetch c header in
  match response with
  | HttpOk body => pret (inr body)
  | HttpError status text body =>
      (if 500 <=? status then alert Critical "bridge-api:5xx" else pret tt) ;;;
      pret (inl (mkRefusal status text body))
  | HttpAbort =>
      alert Critical "bridge-api:timeout" ;;;
      pthrow (new_error BridgeTimeoutError "Request timed out")
  | HttpFailure msg => alert Critical "bridge-api:network" ;;; pthrow (new_error JsError msg)
  end.

(** The refusal is thrown. *)
Definition call {T} (c : api_call T) (key : idempotency) : BApp (option T) :=
  let* r := request c key in
  match r with
  | inr body => pret body
  | inl r => pthrow (refusal_error r)
  end.

(** A property of an answer that could not be read. *)
Definition readable {T} (body : option T) : BApp T :=
  match body with
  | Some t => pret t
  | None => pthrow (new_error JsTypeError "Cannot read properties of null")
  end.

Definition call_body {T} (c : api_call T) (key : idempotency) : BApp T :=
  let* body := call c key in readable body.

(** The endpoints whose answer the code reads. *)
Definition api_getCustomer (customerId : string) : BApp (option string) :=
  call_body (GetCustomer customerId) KeyAuto.
Definition api_createVirtualAccount (customerId address feePercent key : string) : BApp VirtualAccount :=
  call_body (CreateVirtualAccount customerId address feePercent) (KeyGiven key).
Definition api_getVirtualAccount (customerId : option string) (id : string) : BApp VirtualAccount :=
  call_body (GetVirtualAccount customerId id) KeyAuto.
Definition api_getVirtualAccountByCustomerId (customerId : string) : BApp (list VirtualAccount) :=
  call_body (ListVirtualAccounts customerId) KeyAuto.
Definition api_createExternalAccount (customerId : string) (data : json) (key : string) :
    BApp ExternalAccount :=
  call_body (CreateExternalAccount customerId data) (KeyGiven key).
Definition api_getExternalAccountLinkUrl (customerId : string) : BApp string :=
  call_body (ExternalAccountLink customerId) KeyAuto.
Definition api_createPlaidLinkRequest (customerId : string) : BApp PlaidLinkRequest :=
  call_body (CreatePlaidLink customerId) KeyAuto.
Definition api_listExternalAccounts (customerId : string) : BApp (list ExternalAccount) :=
  call_body (ListExternalAccounts customerId) KeyAuto.
Definition api_deleteExternalAccount (customerId externalAccountId : string) : BApp unit :=
  call (DeleteExternalAccount customerId externalAccountId) KeyAuto ;;; pret tt.

(** The customer goes in the body of a transfer, not in its path. *)
Definition api_createTransfer (customerId : string) (data : CreateTransferRequest) (key : string) :
    BApp Transfer :=
  call_body (CreateTransfer (mkTransferRequest (ct_amount data) customerId (ct_developer_fee data)
    (ct_external_account_id data))) (KeyGiven key).
Definition api_getTransfer (transferId : string) : BApp Transfer :=
  call_body (GetTransfer transferId) KeyAuto.
Definition api_deleteTransfer (transferId : string) : BApp unit :=
  call (DeleteTransfer transferId) KeyAuto ;;; pret tt.

End BridgeWorld.
