(* ===== verification/BridgeRepo.v ===== *)
(** * The Bridge collections

    Model of [src/src/services/mongoose/bridge-accounts.ts], of the Bridge
    methods of [accounts.ts], and of [bridge-deposit-log.ts],
    [ibex-crypto-receive-log.ts], [bridge-reconciliation-orphan.ts] and
    [bridge-replay-log.ts]. Each call on a collection is one atomic action: a
    [findOneAndUpdate] finds and updates in one, two calls may be interleaved. *)

From stdpp Require Import base gmap list strings sorting.
From Stdlib Require Import ZArith Lia Ascii.
From S2P Require Import Prelude JsStrings JsNumbers JsDecimals Processes Errors World.
From S2P Require Import Repos TopupWorld TransferRequests FygaroWebhook Json BridgeWorld.

Open Scope Z_scope.
Open Scope flash_scope.

(** ** Parts of the store *)

Definition set_withdrawals ws (s : bridge_store) : bridge_store :=
  mkStore ws (s_externals s) (s_virtuals s) (s_deposits s) (s_receives s) (s_orphans s) (s_replays s)
    (s_invites s) (s_rewardSeq s) (s_phones s).
Definition set_externals xs (s : bridge_store) : bridge_store :=
  mkStore (s_withdrawals s) xs (s_virtuals s) (s_deposits s) (s_receives s) (s_orphans s)
    (s_replays s) (s_invites s) (s_rewardSeq s) (s_phones s).
Definition set_virtuals vs (s : bridge_store) : bridge_store :=
  mkStore (s_withdrawals s) (s_externals s) vs (s_deposits s) (s_receives s) (s_orphans s)
    (s_replays s) (s_invites s) (s_rewardSeq s) (s_phones s).
Definition set_deposits ds (s : bridge_store) : bridge_store :=
  mkStore (s_withdrawals s) (s_externals s) (s_virtuals s) ds (s_receives s) (s_orphans s)
    (s_replays s) (s_invites s) (s_rewardSeq s) (s_phones s).
Definition set_receives rs (s : bridge_store) : bridge_store :=
  mkStore (s_withdrawals s) (s_externals s) (s_virtuals s) (s_deposits s) rs (s_orphans s)
    (s_replays s) (s_invites s) (s_rewardSeq s) (s_phones s).
Definition set_orphans os (s : bridge_store) : bridge_store :=
  mkStore (s_withdrawals s) (s_externals s) (s_virtuals s) (s_deposits s) (s_receives s) os
    (s_replays s) (s_invites s) (s_rewardSeq s) (s_phones s).
Definition set_replays rs (s : bridge_store) : bridge_store :=
  mkStore (s_withdrawals s) (s_externals s) (s_virtuals s) (s_deposits s) (s_receives s) (s_orphans s)
    rs (s_invites s) (s_rewardSeq s) (s_phones s).
Definition set_invites ivs (s : bridge_store) : bridge_store :=
  mkStore (s_withdrawals s) (s_externals s) (s_virtuals s) (s_deposits s) (s_receives s) (s_orphans s)
    (s_replays s) ivs (s_rewardSeq s) (s_phones s).
Definition set_rewardSeq n (s : bridge_store) : bridge_store :=
  mkStore (s_withdrawals s) (s_externals s) (s_virtuals s) (s_deposits s) (s_receives s) (s_orphans s)
    (s_replays s) (s_invites s) n (s_phones s).

(** ** Errors *)

(** [String(error)] *)
Definition error_String (e : error) : string :=
  if nonempty (err_message e) then error_name (err_class e) +:+ ": " +:+ err_message e
  else error_name (err_class e).

Definition duplicate_key : error := new_error JsError "E11000 duplicate key error collection".

(** [error.code === 11000] *)
Definition is_duplicate_key (e : error) : bool := str_includes "E11000" (err_message e).

Definition cast_error : error := new_error JsError "Cast to ObjectId failed".

(** ** Withdrawals, one at a time *)

Definition BRIDGE_WITHDRAWAL_NOT_FOUND : string := "Withdrawal not found".
Definition BRIDGE_FAILURE_REASON_MAX_LENGTH : nat := 512.

Definition truncateBridgeFailureReason (reason : option string) : option string :=
  r ← reason;
  Some (if bool_decide (String.length r <= BRIDGE_FAILURE_REASON_MAX_LENGTH)%nat then r
        else str_take (BRIDGE_FAILURE_REASON_MAX_LENGTH - 3) r +:+ "...").

Definition no_receipt : BridgeWithdrawalReceiptFees := mkReceiptFees None None None None.

(** The document [createWithdrawal] inserts. *)
Definition new_withdrawal (id accountId amount currency externalAccountId : string)
    (fees : CustomerFeeEstimate) (now : Z) : withdrawal :=
  mkWithdrawal id accountId None None None None amount currency WPending fees no_receipt None
    externalAccountId now now.

Definition with_estimates (fees : CustomerFeeEstimate) (now : Z) (w : withdrawal) : withdrawal :=
  mkWithdrawal (wd_id w) (wd_accountId w) (wd_bridgeTransferId w) (wd_bridgeDepositAddress w)
    (wd_ibexPayoutId w) (wd_ibexTxHash w) (wd_amount w) (wd_currency w) (wd_status w) fees
    (wd_receipt w) (wd_failureReason w) (wd_externalAccountId w) (wd_createdAt w) now.

(** A figure that is [undefined] is not written. *)
Definition keep_receipt (new old : BridgeWithdrawalReceiptFees) : BridgeWithdrawalReceiptFees :=
  mkReceiptFees (or_keep (bridgeDeveloperFee new) (bridgeDeveloperFee old))
    (or_keep (bridgeExchangeFee new) (bridgeExchangeFee old))
    (or_keep (subtotalAmount new) (subtotalAmount old)) (or_keep (finalAmount new) (finalAmount old)).

Definition with_transfer (transferId amount currency : string) (address : option string)
    (receipt : BridgeWithdrawalReceiptFees) (now : Z) (w : withdrawal) : withdrawal :=
  mkWithdrawal (wd_id w) (wd_accountId w) (Some transferId)
    (if truthy address then address else wd_bridgeDepositAddress w)
    (wd_ibexPayoutId w) (wd_ibexTxHash w) amount currency WSubmitted (wd_fees w)
    (keep_receipt receipt (wd_receipt w)) (wd_failureReason w) (wd_externalAccountId w)
    (wd_createdAt w) now.

Definition with_send (payoutId txHash : option string) (now : Z) (w : withdrawal) : withdrawal :=
  mkWithdrawal (wd_id w) (wd_accountId w) (wd_bridgeTransferId w) (wd_bridgeDepositAddress w)
    (if truthy payoutId then payoutId else wd_ibexPayoutId w)
    (if truthy txHash then txHash else wd_ibexTxHash w)
    (wd_amount w) (wd_currency w) WUsdtSent (wd_fees w) (wd_receipt w) (wd_failureReason w)
    (wd_externalAccountId w) (wd_createdAt w) now.

Definition with_send_failure (transferId amount currency address reason : string) (now : Z)
    (w : withdrawal) : withdrawal :=
  mkWithdrawal (wd_id w) (wd_accountId w) (Some transferId) (Some address) (wd_ibexPayoutId w)
    (wd_ibexTxHash w) amount currency WSendFailed (wd_fees w) (wd_receipt w)
    (truncateBridgeFailureReason (Some reason)) (wd_externalAccountId w) (wd_createdAt w) now.

Definition with_status (status : WithdrawalStatus) (reason : option string) (now : Z)
    (w : withdrawal) : withdrawal :=
  mkWithdrawal (wd_id w) (wd_accountId w) (wd_bridgeTransferId w) (wd_bridgeDepositAddress w)
    (wd_ibexPayoutId w) (wd_ibexTxHash w) (wd_amount w) (wd_currency w) status (wd_fees w)
    (wd_receipt w) (or_keep reason (wd_failureReason w)) (wd_externalAccountId w) (wd_createdAt w) now.

(** The unique indexes: of the transfer, of the payout, and of the account,
    destination, amount and currency of the pending rows. *)
Definition same_text (a b : option string) : bool :=
  match a, b with Some x, Some y => bool_decide (x = y) | _, _ => false end.

Definition clashes (w w' : withdrawal) : bool :=
  same_text (wd_bridgeTransferId w) (wd_bridgeTransferId w')
  || same_text (wd_ibexPayoutId w) (wd_ibexPayoutId w')
  || (bool_decide (wd_status w = WPending) && bool_decide (wd_status w' = WPending)
      && bool_decide (wd_accountId w = wd_accountId w')
      && bool_decide (wd_externalAccountId w = wd_externalAccountId w')
      && bool_decide (wd_amount w = wd_amount w') && bool_decide (wd_currency w = wd_currency w')).

Definition indexed (w : withdrawal) (ws : gmap string withdrawal) : bool :=
  forallb (fun p => bool_decide (p.1 = wd_id w) || negb (clashes w p.2)) (map_to_list ws).

Definition save_withdrawal (w : withdrawal) (s : bridge_store) : outcome error withdrawal * bridge_store :=
  if indexed w (s_withdrawals s)
  then (Ok w, set_withdrawals (<[wd_id w := w]> (s_withdrawals s)) s)
  else (Throw duplicate_key, s).

(** [findOneAndUpdate] of the first row that passes the filter. *)
Definition find_withdrawal (filter : withdrawal -> bool) (s : bridge_store) : option withdrawal :=
  snd ∘ snd <$> list_find (fun p => filter p.2 = true) (map_to_list (s_withdrawals s)).

Definition update_withdrawal (filter : withdrawal -> bool) (f : withdrawal -> withdrawal)
    (s : bridge_store) : outcome error (option withdrawal) * bridge_store :=
  match find_withdrawal filter s with
  | None => (Ok None, s)
  | Some w => let '(o, s') := save_withdrawal (f w) s in (outcome_map Some o, s')
  end.

(** The same by [_id]. *)
Definition update_withdrawal_id (id : string) (filter : withdrawal -> bool)
    (f : withdrawal -> withdrawal) (s : bridge_store) : outcome error (option withdrawal) * bridge_store :=
  match s_withdrawals s !! id with
  | Some w =>
      if filter w then let '(o, s') := save_withdrawal (f w) s in (outcome_map Some o, s')
      else (Ok None, s)
  | None => (Ok None, s)
  end.

Definition unsubmitted (w : withdrawal) : bool :=
  bool_decide (wd_status w = WPending) && bool_decide (wd_bridgeTransferId w = None).

Definition unsent (w : withdrawal) : bool :=
  bool_decide (wd_status w = WSubmitted) && bool_decide (wd_ibexPayoutId w = None).

Definition in_flight (transferId : string) (w : withdrawal) : bool :=
  bool_decide (wd_bridgeTransferId w = Some transferId)
  && (bool_decide (wd_status w = WSubmitted) || bool_decide (wd_status w = WUsdtSent)).

Section BridgeRepo.
Context `{X : BridgeExternal}.

(** [try { ... } catch (error) { return new RepositoryError(String(error)) }] *)
Definition repo {A} (c : BApp A) : BApp A :=
  pcatch c (fun e => pfail (new_error RepositoryError (error_String e))).

(** [try { ... } catch (error) { return error }] *)
Definition returned {A} (c : BApp A) : BApp A := pcatch c pfail.

Definition found {A} (message : string) (record : option A) : BApp A :=
  match record with
  | Some a => pret a
  | None => pfail (new_error RepositoryError message)
  end.

(** An id of a filter is cast before the call. *)
Definition cast_id (id : string) : BApp string :=
  if valid_object_id id then pret id else pthrow cast_error.

Definition query {A} (f : bridge_store -> A) : BApp A := collection (fun s => (Ok (f s), s)).

End BridgeRepo.

(** ** bridge-accounts.ts *)

Module BridgeAccountsRepo.
Section BridgeAccounts.
Context `{X : BridgeExternal}.

(** *** Virtual accounts *)

Definition createVirtualAccount (accountId bridgeVirtualAccountId bankName routingNumber
    accountNumber accountNumberLast4 : string) : BApp virtual_account :=
  repo (
    let* at_ := now in
    let v := mkVirtual accountId bridgeVirtualAccountId bankName routingNumber accountNumber
               accountNumberLast4 at_ in
    collection (fun s =>
      match list_find (fun v => v_accountId v = accountId) (s_virtuals s) with
      | Some (_, v) => (Ok v, s)
      | None =>
          if bool_decide (Exists (fun v => v_bridgeVirtualAccountId v = bridgeVirtualAccountId)
                            (s_virtuals s))
          then (Throw duplicate_key, s)
          else (Ok v, set_virtuals (s_virtuals s ++ [v]) s)
      end)).

Definition findVirtualAccountByAccountId (accountId : string) : BApp virtual_account :=
  repo (
    let* record := query (fun s => snd <$> list_find (fun v => v_accountId v = accountId) (s_virtuals s)) in
    found "Virtual account not found" record).

Definition findVirtualAccountByBridgeId (bridgeId : string) : BApp virtual_account :=
  repo (
    let* record := query (fun s =>
      snd <$> list_find (fun v => v_bridgeVirtualAccountId v = bridgeId) (s_virtuals s)) in
    found "Virtual account not found" record).

(** [BridgeVirtualAccount.deleteOne] *)
Definition deleteVirtualAccount (bridgeId : string) : BApp unit :=
  collection (fun s =>
    match list_find (fun v => v_bridgeVirtualAccountId v = bridgeId) (s_virtuals s) with
    | Some (i, _) => (Ok tt, set_virtuals (delete i (s_virtuals s)) s)
    | None => (Ok tt, s)
    end).

(** *** External accounts *)

Definition live_external (accountId : string) (x : external_account) : bool :=
  bool_decide (x_accountId x = accountId) && negb (bool_decide (x_status x = XFailed)).

Definition external_of (accountId bridgeId : string) (x : external_account) : bool :=
  bool_decide (x_accountId x = accountId) && bool_decide (x_bridgeExternalAccountId x = bridgeId).

Definition with_default (isDefault : bool) (at_ : Z) (x : external_account) : external_account :=
  mkExternal (x_id x) (x_accountId x) (x_bridgeExternalAccountId x) (x_bankName x)
    (x_accountNumberLast4 x) (x_status x) isDefault (x_createdAt x) at_.

Definition with_failure (at_ : Z) (x : external_account) : external_account :=
  mkExternal (x_id x) (x_accountId x) (x_bridgeExternalAccountId x) (x_bankName x)
    (x_accountNumberLast4 x) XFailed false (x_createdAt x) at_.

(** [updateMany] *)
Definition update_externals (filter : external_account -> bool)
    (f : external_account -> external_account) (s : bridge_store) : bridge_store :=
  set_externals (map (fun x => if filter x then f x else x) (s_externals s)) s.

Definition find_external (filter : external_account -> bool) (s : bridge_store) :
    option external_account :=
  snd <$> list_find (fun x => filter x = true) (s_externals s).

(** [findOneAndUpdate({ _id }, ...)]; an id is that of one document. *)
Definition update_external (id : string) (f : external_account -> external_account)
    (s : bridge_store) : option external_account * bridge_store :=
  let s' := update_externals (fun x => bool_decide (x_id x = id)) f s in
  (find_external (fun x => bool_decide (x_id x = id)) s', s').

(** [sort({ createdAt: 1 })], the first of them. *)
Fixpoint oldest (l : list external_account) : option external_account :=
  match l with
  | [] => None
  | x :: l' =>
      match oldest l' with
      | Some y => Some (if x_createdAt y <? x_createdAt x then y else x)
      | None => Some x
      end
  end.

Definition ensureDefaultExternalAccount (accountId : string) : BApp (option external_account) :=
  repo (
    let* currentDefault := query (find_external (fun x => live_external accountId x && x_isDefault x)) in
    match currentDefault with
    | Some x => pret (Some x)
    | None =>
        let* nextDefault := query (fun s =>
          oldest (filter (fun x => live_external accountId x = true) (s_externals s))) in
        let* at_ := now in
        collection (fun s =>
          (Ok tt, update_externals (fun x => bool_decide (x_accountId x = accountId))
                    (with_default false at_) s)) ;;;
        match nextDefault with
        | None => pret None
        | Some x =>
            let* at_ := now in
            collection (fun s =>
              let '(x', s') := update_external (x_id x) (with_default true at_) s in (Ok x', s'))
        end
    end).

(** The upsert of [createExternalAccount]: the id of Bridge is unique. *)
Definition upsert_external (id accountId bridgeId bankName last4 : string) (status : ExternalStatus)
    (at_ : Z) (s : bridge_store) : outcome error external_account * bridge_store :=
  match find_external (external_of accountId bridgeId) s with
  | Some x =>
      let x' := mkExternal (x_id x) (x_accountId x) (x_bridgeExternalAccountId x) bankName last4 status
                  (x_isDefault x) (x_createdAt x) at_ in
      (Ok x', (update_external (x_id x) (fun _ => x') s).2)
  | None =>
      if bool_decide (Exists (fun x => x_bridgeExternalAccountId x = bridgeId \/ x_id x = id)
                        (s_externals s))
      then (Throw duplicate_key, s)
      else
        let x := mkExternal id accountId bridgeId bankName last4 status false at_ at_ in
        (Ok x, set_externals (s_externals s ++ [x]) s)
  end.

Definition createExternalAccount (accountId bridgeExternalAccountId bankName accountNumberLast4 : string)
    (status : ExternalStatus) : BApp external_account :=
  repo (
    let* id := new_object_id in
    let* at_ := now in
    let* record := collection (upsert_external id accountId bridgeExternalAccountId bankName
                                 accountNumberLast4 status at_) in
    ensureDefaultExternalAccount accountId ;;;
    let* again := query (find_external (external_of accountId bridgeExternalAccountId)) in
    pret (default record again)).

Definition findExternalAccountsByAccountId (accountId : string) : BApp (list external_account) :=
  repo (query (fun s => filter (fun x => x_accountId x = accountId) (s_externals s))).

Definition setDefaultExternalAccount (accountId bridgeExternalAccountId : string) :
    BApp external_account :=
  repo (
    let* target := query (find_external (fun x =>
      external_of accountId bridgeExternalAccountId x && live_external accountId x)) in
    let* target := found "External account not found" target in
    let* at_ := now in
    collection (fun s =>
      (Ok tt, update_externals (fun x => bool_decide (x_accountId x = accountId))
                (with_default false at_) s)) ;;;
    let* at_ := now in
    let* record := collection (fun s =>
      let '(x', s') := update_external (x_id target) (with_default true at_) s in (Ok x', s')) in
    found "External account not found" record).

Definition deleteExternalAccount (accountId bridgeExternalAccountId : string) :
    BApp external_account :=
  repo (
    let* target := query (find_external (fun x =>
      external_of accountId bridgeExternalAccountId x && live_external accountId x)) in
    let* target := found "External account not found" target in
    let* at_ := now in
    let* record := collection (fun s =>
      let '(x', s') := update_external (x_id target) (with_failure at_) s in (Ok x', s')) in
    let* record := found "External account not found" record in
    (if x_isDefault target then ensureDefaultExternalAccount accountId ;;; pret tt else pret tt) ;;;
    pret record).

(** An empty list of ids puts no condition on them. *)
Definition markExternalAccountsMissingFromBridge (accountId : string) (ids : list string) : BApp unit :=
  repo (
    let* at_ := now in
    collection (fun s =>
      (Ok tt, update_externals (fun x =>
         live_external accountId x && negb (bool_decide (x_bridgeExternalAccountId x ∈ ids)))
         (with_failure at_) s))).

Definition updateExternalAccountStatus (bridgeId : string) (status : ExternalStatus) :
    BApp external_account :=
  repo (
    let* at_ := now in
    let* record := collection (fun s =>
      match find_external (fun x => bool_decide (x_bridgeExternalAccountId x = bridgeId)) s with
      | None => (Ok None, s)
      | Some x =>
          let '(x', s') := update_external (x_id x) (fun x =>
            mkExternal (x_id x) (x_accountId x) (x_bridgeExternalAccountId x) (x_bankName x)
              (x_accountNumberLast4 x) status
              (if bool_decide (status = XFailed) then false else x_isDefault x) (x_createdAt x) at_) s in
          (Ok x', s')
      end) in
    let* record := found "External account not found" record in
    (if bool_decide (status = XFailed)
     then ensureDefaultExternalAccount (x_accountId record) ;;; pret tt else pret tt) ;;;
    pret record).

(** *** Withdrawals *)

(** The texts the schema requires. *)
Definition required_texts (accountId amount currency externalAccountId : string)
    (fees : CustomerFeeEstimate) : bool :=
  forallb nonempty [accountId; amount; currency; externalAccountId; flashFeePercent fees; flashFee fees;
    estimatedBridgeFeePercent fees; estimatedBridgeFee fees; estimatedGasBuffer fees;
    estimatedCustomerFee fees].

Definition insert_withdrawal (w : withdrawal) (s : bridge_store) : outcome error withdrawal * bridge_store :=
  if bool_decide (is_Some (s_withdrawals s !! wd_id w)) then (Throw duplicate_key, s)
  else save_withdrawal w s.

(** The row a creation that lost to the index finds. *)
Definition pending_like (accountId amount currency externalAccountId : string) (w : withdrawal) : bool :=
  bool_decide (wd_accountId w = accountId) && bool_decide (wd_externalAccountId w = externalAccountId)
  && bool_decide (wd_amount w = amount) && bool_decide (wd_currency w = currency)
  && bool_decide (wd_status w = WPending).

Definition createWithdrawal (accountId amount currency externalAccountId : string)
    (fees : CustomerFeeEstimate) : BApp withdrawal :=
  pcatch (
    let* id := new_object_id in
    let* at_ := now in
    if required_texts accountId amount currency externalAccountId fees then
      collection (insert_withdrawal
        (new_withdrawal id accountId amount currency externalAccountId fees at_))
    else pthrow (new_error JsError "BridgeWithdrawal validation failed"))
  (fun e =>
    let* record :=
      if is_duplicate_key e
      then query (find_withdrawal (pending_like accountId amount currency externalAccountId))
      else pret None in
    match record with
    | Some w => pret w
    | None => pfail (new_error RepositoryError (error_String e))
    end).

Definition updateWithdrawalFeeEstimates (id : string) (fees : CustomerFeeEstimate) : BApp withdrawal :=
  repo (
    let* id := cast_id id in
    let* at_ := now in
    let* record := collection (update_withdrawal_id id (fun _ => true) (with_estimates fees at_)) in
    found "Withdrawal not found" record).

Definition findPendingWithdrawalWithoutTransfer (accountId externalAccountId amount : string) :
    BApp (option withdrawal) :=
  repo (query (find_withdrawal (fun w =>
    bool_decide (wd_accountId w = accountId) && bool_decide (wd_externalAccountId w = externalAccountId)
    && bool_decide (wd_amount w = amount) && unsubmitted w))).

Definition updateWithdrawalTransferId (id bridgeTransferId amount currency : string)
    (bridgeDepositAddress : option string) (receiptFees : BridgeWithdrawalReceiptFees) :
    BApp withdrawal :=
  repo (
    let* at_ := now in
    let* id := cast_id id in
    let* record := collection (update_withdrawal_id id unsubmitted
      (with_transfer bridgeTransferId amount currency bridgeDepositAddress receiptFees at_)) in
    found "Withdrawal not found or already submitted" record).

Definition updateWithdrawalOnchainSend (id : string) (ibexPayoutId ibexTxHash : option string) :
    BApp withdrawal :=
  repo (
    let* at_ := now in
    let* id := cast_id id in
    let* record := collection (update_withdrawal_id id unsent (with_send ibexPayoutId ibexTxHash at_)) in
    found "Withdrawal not found or already sent" record).

Definition updateWithdrawalSendFailed (id bridgeTransferId amount currency bridgeDepositAddress
    failureReason : string) : BApp withdrawal :=
  repo (
    let* at_ := now in
    let* id := cast_id id in
    let* record := collection (update_withdrawal_id id unsent
      (with_send_failure bridgeTransferId amount currency bridgeDepositAddress failureReason at_)) in
    found "Withdrawal not found or already sent" record).

(** [sort({ createdAt: -1 })] *)
Definition newer (w w' : withdrawal) : Prop := wd_createdAt w' <= wd_createdAt w.
#[global] Instance newer_dec w w' : Decision (newer w w').
Proof. unfold newer. apply _. Defined.

Definition findWithdrawalsByAccountId (accountId : string) : BApp (list withdrawal) :=
  repo (query (fun s =>
    merge_sort newer (filter (fun w => wd_accountId w = accountId) (map_to_list (s_withdrawals s)).*2))).

Definition updateWithdrawalStatus (bridgeTransferId : string) (status : WithdrawalStatus)
    (failureReason : option string) : BApp withdrawal :=
  repo (
    let* at_ := now in
    let* record := collection (update_withdrawal (in_flight bridgeTransferId)
      (with_status status (truncateBridgeFailureReason failureReason) at_)) in
    match record with
    | Some w => pret w
    | None =>
        let* existing := query (find_withdrawal (fun w =>
          bool_decide (wd_bridgeTransferId w = Some bridgeTransferId))) in
        match existing with
        | None => pfail (new_error RepositoryError BRIDGE_WITHDRAWAL_NOT_FOUND)
        | Some w =>
            if bool_decide (wd_status w = status) then pret w
            else pfail (new_error RepositoryError
              ("Withdrawal already " +:+ withdrawal_status (wd_status w) +:+ ", cannot transition to "
                 +:+ withdrawal_status status))
        end
    end).

Definition findWithdrawalByBridgeTransferId (transferId : string) : BApp withdrawal :=
  repo (
    let* record := query (find_withdrawal (fun w =>
      bool_decide (wd_bridgeTransferId w = Some transferId))) in
    found "Withdrawal not found" record).

Definition findWithdrawalById (id : string) : BApp withdrawal :=
  repo (
    let* id := cast_id id in
    let* record := query (fun s => s_withdrawals s !! id) in
    found "Withdrawal not found" record).

Definition cancelWithdrawal (accountId withdrawalId : string) : BApp withdrawal :=
  repo (
    let* at_ := now in
    let* id := cast_id withdrawalId in
    let* record := collection (update_withdrawal_id id
      (fun w => bool_decide (wd_accountId w = accountId) && unsubmitted w)
      (with_status WCancelled None at_)) in
    found "Withdrawal not found or cannot be cancelled" record).

End BridgeAccounts.
End BridgeAccountsRepo.

(** ** The logs *)

Section BridgeLogs.
Context `{X : BridgeExternal}.

(** An event that is logged already stays as it was. *)
Definition createBridgeDeposit (d : Z -> deposit_log) : BApp unit :=
  returned (
    let* at_ := now in
    collection (fun s =>
      if bool_decide (Exists (fun d' => dp_eventId d' = dp_eventId (d at_)) (s_deposits s))
      then (Ok tt, s) else (Ok tt, set_deposits (s_deposits s ++ [d at_]) s))).

(** A receipt that is logged already is overwritten. *)
Definition upsert_receive (r : receive_log) (l : list receive_log) : list receive_log :=
  match list_find (fun r' => rc_txHash r' = rc_txHash r) l with
  | Some (i, old) =>
      <[i := mkReceive (rc_txHash r) (rc_address r) (rc_amount r) (rc_currency r) (rc_network r)
               (or_keep (rc_accountId r) (rc_accountId old)) (rc_receivedAt r)]> l
  | None => l ++ [r]
  end.

Definition createIbexCryptoReceive (r : Z -> receive_log) : BApp unit :=
  returned (
    let* at_ := now in
    collection (fun s => (Ok tt, set_receives (upsert_receive (r at_) (s_receives s)) s))).

(** The most recent first. *)
Definition later_receive (r r' : receive_log) : Prop := rc_receivedAt r' <= rc_receivedAt r.
#[global] Instance later_receive_dec r r' : Decision (later_receive r r').
Proof. unfold later_receive. apply _. Defined.

Definition findIbexCryptoReceivesSince (since until : Z) : BApp (list receive_log) :=
  returned (query (fun s =>
    merge_sort later_receive
      (filter (fun r => since <= rc_receivedAt r /\ rc_receivedAt r <= until) (s_receives s)))).

(** The fields the caller gives are set, also on a document that is there. *)
Definition upsert_orphan (old : option orphan) (o : orphan) : orphan :=
  match old with
  | None => o
  | Some p =>
      mkOrphan (or_type o) false (or_keep (or_transferId o) (or_transferId p))
        (or_keep (or_txHash o) (or_txHash p)) (or_keep (or_bridgeEventId o) (or_bridgeEventId p))
        (or_keep (or_customerId o) (or_customerId p)) (or_keep (or_amount o) (or_amount p))
        (or_keep (or_currency o) (or_currency p)) (or_reason o) (or_detectedAt o) (or_resolvedAt p)
  end.

Definition upsertBridgeReconciliationOrphan (orphanKey : string) (o : Z -> orphan) : BApp unit :=
  returned (
    let* at_ := now in
    collection (fun s =>
      (Ok tt, set_orphans (<[orphanKey := upsert_orphan (s_orphans s !! orphanKey) (o at_)]>
                (s_orphans s)) s))).

Definition unresolved (txHash : string) (o : orphan) : bool :=
  bool_decide (or_txHash o = Some txHash) && negb (or_resolved o).

Definition with_resolution (at_ : Z) (o : orphan) : orphan :=
  mkOrphan (or_type o) true (or_transferId o) (or_txHash o) (or_bridgeEventId o) (or_customerId o)
    (or_amount o) (or_currency o) (or_reason o) (or_detectedAt o) (Some at_).

Definition resolveOrphansByTxHash (txHash : string) : BApp nat :=
  returned (
    let* at_ := now in
    collection (fun s =>
      let hit o := unresolved (str_lower txHash) o in
      (Ok (size (filter (fun p => hit p.2 = true) (s_orphans s))),
       set_orphans ((fun o => if hit o then with_resolution at_ o else o) <$> s_orphans s) s))).

(** The most recent first; [limit] of them. *)
Definition later_orphan (o o' : string * orphan) : Prop := or_detectedAt o'.2 <= or_detectedAt o.2.
#[global] Instance later_orphan_dec o o' : Decision (later_orphan o o').
Proof. unfold later_orphan. apply _. Defined.

(** A filter that is not given passes everything. *)
Definition matches {A} `{EqDecision A} (wanted : option A) (a : A) : bool :=
  match wanted with Some b => bool_decide (a = b) | None => true end.

Definition findOrphans (resolved : option bool) (type : option OrphanType) (limit : nat) :
    BApp (list (string * orphan)) :=
  returned (query (fun s =>
    take limit (merge_sort later_orphan
      (filter (fun p => matches resolved (or_resolved p.2) && matches type (or_type p.2) = true)
         (map_to_list (s_orphans s)))))).

Definition createBridgeReplay (r : replay_log) : BApp unit :=
  returned (collection (fun s => (Ok tt, set_replays (s_replays s ++ [r]) s))).

(** ** The Bridge fields of an account *)

Definition with_kyc (status : string) (a : account) : account :=
  mkAccount (a_id a) (a_uuid a) (a_status a) (a_defaultWalletId a) (a_username a) (a_level a) (a_role a)
    (a_kratosUserId a) (a_bridgeCustomerId a) (Some status) (a_bridgeEthereumAddress a) (a_createdAt a).

Definition with_bridge_fields (customerId kycStatus address : option string) (a : account) : account :=
  mkAccount (a_id a) (a_uuid a) (a_status a) (a_defaultWalletId a) (a_username a) (a_level a) (a_role a)
    (a_kratosUserId a) (or_keep customerId (a_bridgeCustomerId a))
    (or_keep kycStatus (a_bridgeKycStatus a)) (or_keep address (a_bridgeEthereumAddress a))
    (a_createdAt a).

Definition guarded_repo {A} (c : BApp A) : BApp A :=
  pcatch c (fun e => pfail (parseRepositoryError e)).

(** *** Notifications

    Each sender looks the account and its user up; a lookup that fails is only
    logged, and so is a refusal of the push service. *)

Definition checkedToAccountId (accountId : string) : outcome error string :=
  if bool_decide (String.length accountId = 24%nat) then Ok accountId
  else Err (new_error InvalidAccountIdError accountId).

(** The phone of a user; one without a document has none. *)
Definition users_findById (userId : string) : BApp (option string) :=
  guarded_repo (query (fun s => default None (s_phones s !! userId))).

(** The text of [message] is made once the user is there. *)
Definition notify_account (accountId : string) (message : outcome error notification) : BApp unit :=
  match checkedToAccountId accountId with
  | Ok id =>
      let* acc := pattempt (svc (accounts_findById id)) in
      match acc with
      | inl _ => pret tt
      | inr acc =>
          let* user := pattempt (users_findById (a_kratosUserId acc)) in
          match user with
          | inl _ => pret tt
          | inr _ => let* n := Done message in push_notification n
          end
      end
  | Err _ | Throw _ => pret tt
  end.

(** [toObjectId], which throws on a malformed id. *)
Definition object_id_of (id : string) : BApp string := svc (toObjectId id).

(** [findOneAndUpdate] on an account of which [guard] holds; the answer is the
    document before the update. *)
Definition swap_account (id : string) (guard : account -> bool) (f : account -> account) :
    App (option account) :=
  mongo (fun w =>
    match w_accounts w !! id with
    | Some a => if guard a then (Ok (Some a), set_accounts (<[id := f a]> (w_accounts w)) w)
                else (Ok None, w)
    | None => (Ok None, w)
    end).

(** Whether this call changed the status, and from what. *)
Record kyc_transition := mkTransition { tr_changed : bool; tr_previous : option string }.

Definition transitionBridgeKycStatus (accountId nextStatus : string) : BApp kyc_transition :=
  guarded_repo (
    let* id := object_id_of accountId in
    let* result := svc (swap_account id
      (fun a => negb (bool_decide (a_bridgeKycStatus a = Some nextStatus))) (with_kyc nextStatus)) in
    match result with
    | Some a => pret (mkTransition true (a_bridgeKycStatus a))
    | None =>
        let* exists_ := svc (mongo (read (fun w => bool_decide (is_Some (w_accounts w !! id))))) in
        if exists_ then pret (mkTransition false None)
        else pfail (new_error RepositoryError "Account not found")
    end).

Definition updateBridgeFields (accountId : string) (customerId kycStatus address : option string) :
    BApp account :=
  guarded_repo (
    let* id := object_id_of accountId in
    let f := with_bridge_fields customerId kycStatus address in
    let* result := svc (swap_account id (fun _ => true) f) in
    match result with
    | Some a => pret (f a)
    | None => pfail (new_error RepositoryError "Account not found")
    end).

Definition findByBridgeEthereumAddress (address : string) : BApp account :=
  svc (accounts_findOne (fun a => bool_decide (a_bridgeEthereumAddress a = Some address))
    (new_error RepositoryError "Account not found for Ethereum address")).

Definition findByBridgeCustomerId (customerId : string) : BApp account :=
  svc (accounts_findOne (fun a => bool_decide (a_bridgeCustomerId a = Some customerId))
    (new_error RepositoryError "Account not found for Bridge customer ID")).

(** [translateToAccount] reads the old status [pending] as [open]. *)
Definition kyc_status_of (a : account) : option string :=
  if bool_decide (a_bridgeKycStatus a = Some "pending") then Some "open" else a_bridgeKycStatus a.

End BridgeLogs.

(** ** Proofs about handlers of this world

    One step of the proof that a handler is quiet: what it does with a call of the
    rest of the world, a query, a call on a collection, another atomic action, and
    a call that is known, is given; a call that is not known is unfolded. *)
Ltac quiet_step top_tac query_tac collection_tac atomic_tac known_tac :=
  match goal with
  | |- forall _, _ => intros
  | |- quietly _ (pbind _ _) => apply quietly_bind
  | |- quietly _ (pattempt _) => apply quietly_attempt
  | |- quietly _ (pcapture _) => apply quietly_capture
  | |- quietly _ (pcatch _ _) => apply quietly_catch
  | |- quietly _ (Done _) => apply quietly_done
  | |- quietly _ (pret _) => apply quietly_done
  | |- quietly _ (pfail _) => apply quietly_done
  | |- quietly _ (pthrow _) => apply quietly_done
  | |- quietly _ (match ?x with _ => _ end) => destruct x
  | |- quietly _ (let _ := _ in _) => cbv zeta
  | |- quietly _ _ => known_tac
  | |- quietly _ (top _) => top_tac
  | |- quietly _ (query _) => query_tac
  | |- quietly _ (collection _) => collection_tac
  | |- quietly _ (atomic _) => atomic_tac
  | |- quietly _ ?c =>
      lazymatch c with
      | top _ => fail
      | collection _ => fail
      | atomic _ => fail
      | _ => let h := get_head c in unfold h
      end
  end.
