(* ===== verification/BridgeFees.v ===== *)
(** * Fees of a withdrawal

    Model of [src/src/services/bridge/withdrawal-fees.ts] and
    [ethereum-gas-estimate.ts]: the estimate a customer is shown, its three
    parts, the gas market it is taken from with its fallbacks and its cache, and
    the form in which a withdrawal is presented. *)

From stdpp Require Import base gmap list strings.
From Stdlib Require Import ZArith Lia Ascii QArith Lqa Qabs Qpower.
From S2P Require Import Prelude JsStrings JsNumbers JsDecimals Processes Errors World.
From S2P Require Import TopupWorld TransferRequests Json BridgeWorld BridgeRepo.

Close Scope Q_scope.
Open Scope Z_scope.
Open Scope flash_scope.

(** ** Configuration *)

Definition defaultWithdrawalFeeEstimateConfig : FeeEstimateConfig :=
  mkFeeConfig (decimal_rnd 6 (-1)) (num_of_Z 65000) (decimal_rnd 15 (-1))
    ["https://ethereum-rpc.publicnode.com"; "https://eth.llamarpc.com"; "https://cloudflare-eth.com"]
    "https://api.coingecko.com/api/v3/simple/price?ids=ethereum&vs_currencies=usd"
    60000 (num_of_Z 30) (num_of_Z 3000).

Definition with_options (o : FeeEstimateOptions) (c : FeeEstimateConfig) : FeeEstimateConfig :=
  mkFeeConfig (default (bridgeFixedFeePercent c) (fo_bridgeFixedFeePercent o))
    (default (usdtTransferGasLimit c) (fo_usdtTransferGasLimit o))
    (default (gasPriceBufferMultiplier c) (fo_gasPriceBufferMultiplier o))
    (default (ethereumGasRpcUrls c) (fo_ethereumGasRpcUrls o))
    (default (ethUsdPriceUrl c) (fo_ethUsdPriceUrl o))
    (default (cacheTtlMs c) (fo_cacheTtlMs o))
    (default (fallbackGasPriceGwei c) (fo_fallbackGasPriceGwei o))
    (default (ethUsdFallback c) (fo_ethUsdFallback o)).

(** ** The estimate *)

Definition computeEstimatedGasBufferUsd (gasLimit : js_num) (gasPriceGwei : js_float)
    (ethUsd bufferMultiplier : js_num) : string :=
  fl_toFixed 2 (fl_mul (fl_div_int (fl_mul (fl_mul (Fin gasLimit) gasPriceGwei) (Fin ethUsd))
    1000000000) (Fin bufferMultiplier)).

(** [((parseFloat(amount) * percent) / 100).toFixed(2)] *)
Definition percent_fee (amount : string) (percent : js_num) : string :=
  fl_toFixed 2 (fl_div_int (fl_mul (parseFloat amount) (Fin percent)) 100).

(** The sum of three amounts, in cents. *)
Definition sum_fees (a b c : string) : string :=
  fl_toFixed 2 (fl_add (fl_add (parseFloat a) (parseFloat b)) (parseFloat c)).

Definition computeCustomerFeeEstimateFromGasMarket (amount : string) (gasMarket : gas_snapshot)
    (config : FeeEstimateConfig) (developerFeePercent : js_num) : CustomerFeeEstimate :=
  let flash := percent_fee amount developerFeePercent in
  let bridge := percent_fee amount (bridgeFixedFeePercent config) in
  let gas := computeEstimatedGasBufferUsd (usdtTransferGasLimit config) (gasPriceGwei gasMarket)
               (ethUsd gasMarket) (gasPriceBufferMultiplier config) in
  mkEstimate (num_toString (bridgeFixedFeePercent config)) bridge gas (sum_fees flash bridge gas)
    (num_toString developerFeePercent) flash.

(** ** The gas market *)

Definition strip_0x (s : string) : string :=
  match after_prefix "0x" s with Some r => r | None => s end.

Definition parseHexWeiToGwei (hexWei : string) : option js_float :=
  wei ← radix_literal 16 (strip_0x hexWei);
  Some (fl_div_int (fl (rnd wei 1)) 1000000000).

(** The price, or nothing where the code has an [Error]. *)
Definition fetchEthereumGasPriceGwei (r : gas_response) : option js_num :=
  match r with
  | GasStatus _ | GasThrow _ => None
  | GasBody result error_message =>
      if truthy error_message then None else
      if negb (truthy result) then None else
      gwei ← parseHexWeiToGwei (default EmptyString result);
      match gwei with
      | Fin x => if num_ltb (num_of_Z 0) x then Some x else None
      | _ => None
      end
  end.

(** The mean of the answers that are prices. *)
Definition fetchEthereumGasPriceGweiAverage (responses : list gas_response) : option js_float :=
  match omap fetchEthereumGasPriceGwei responses with
  | [] => None
  | prices => Some (fl_div_int (foldl (fun sum p => fl_add sum (Fin p)) (Fin (num_of_Z 0)) prices)
                      (Z.of_nat (length prices)))
  end.

Definition fetchEthUsdPrice (r : price_response) : option js_num :=
  match r with
  | PriceBody (Some usd) => if num_ltb (num_of_Z 0) usd then Some usd else None
  | _ => None
  end.

Definition gas_market (responses : list gas_response) (price : price_response)
    (fallbackGasPriceGwei ethUsdFallback : js_num) : gas_snapshot :=
  mkGas (default (Fin fallbackGasPriceGwei) (fetchEthereumGasPriceGweiAverage responses))
    (default ethUsdFallback (fetchEthUsdPrice price)).

Section BridgeFees.
Context `{X : BridgeExternal}.

Definition getWithdrawalFeeEstimateConfig : FeeEstimateConfig :=
  with_options (withdrawalFeeEstimate bridgeConfig) defaultWithdrawalFeeEstimateConfig.

(** The snapshot of the module, while it is fresh. The requests go out together,
    and the configuration, which is the key of the cache, does not change. *)
Definition fetchEthereumGasMarketSnapshot (config : FeeEstimateConfig) : BApp gas_snapshot :=
  let* at_ := now in
  let* cached := bpeek b_gas in
  match (if 0 <? cacheTtlMs config then live at_ cached else None) with
  | Some snapshot => pret snapshot
  | None =>
      let* n := atomic (fun w => (Ok (b_fetches w), next_fetch w)) in
      let snapshot := gas_market (map (fun url => gas_fetch url n) (ethereumGasRpcUrls config))
        (price_fetch (ethUsdPriceUrl config) n) (fallbackGasPriceGwei config) (ethUsdFallback config) in
      (if 0 <? cacheTtlMs config then bpoke (set_gas (Some (snapshot, at_ + cacheTtlMs config)))
       else pret tt) ;;;
      pret snapshot
  end.

Definition resolveWithdrawalCustomerFeeEstimate (amount : string) : BApp CustomerFeeEstimate :=
  let config := getWithdrawalFeeEstimateConfig in
  let* gasMarket := fetchEthereumGasMarketSnapshot config in
  pret (computeCustomerFeeEstimateFromGasMarket amount gasMarket config (developerFeePercent bridgeConfig)).

End BridgeFees.

(** ** Presentation *)

Definition computePendingAmountEstimates (amount estimatedCustomerFee : string) : string :=
  fl_toFixed 2 (fl_max0 (fl_sub (parseFloat amount) (parseFloat estimatedCustomerFee))).

Definition isFlashFeeEstimate (receipt : BridgeWithdrawalReceiptFees) : bool :=
  negb (truthy (bridgeDeveloperFee receipt)).

(** What it converts to texts, and what it gives. *)
Definition receipt_texts (receipt : option Receipt) : list (option json) :=
  [r ← receipt; rx_developer_fee r; r ← receipt; rx_exchange_fee r;
   r ← receipt; rx_subtotal_amount r; r ← receipt; rx_final_amount r].

Definition receiptFeesFromTransfer (receipt : option Receipt) : BridgeWithdrawalReceiptFees :=
  mkReceiptFees (asOptionalString (r ← receipt; rx_developer_fee r))
    (asOptionalString (r ← receipt; rx_exchange_fee r))
    (asOptionalString (r ← receipt; rx_subtotal_amount r))
    (asOptionalString (r ← receipt; rx_final_amount r)).

(** The stored sum, or the sum of the stored parts. *)
Definition estimatedCustomerFeeFor (fees : CustomerFeeEstimate) : string :=
  if nonempty (estimatedCustomerFee fees) then estimatedCustomerFee fees
  else sum_fees (flashFee fees) (estimatedBridgeFee fees) (estimatedGasBuffer fees).

(** The subtotal and the final amount. *)
Definition resolveAmounts (amount : string) (fees : CustomerFeeEstimate)
    (receipt : BridgeWithdrawalReceiptFees) (flashFeeIsEstimate : bool) :
    option string * option string :=
  if truthy (subtotalAmount receipt) && truthy (finalAmount receipt)
  then (subtotalAmount receipt, finalAmount receipt)
  else if flashFeeIsEstimate && nonempty (estimatedCustomerFeeFor fees)
  then let pending := computePendingAmountEstimates amount (estimatedCustomerFeeFor fees) in
       (Some pending, Some pending)
  else (subtotalAmount receipt, finalAmount receipt).

Definition withFeeEstimate (w : withdrawal) (feeEstimate : option CustomerFeeEstimate) : withdrawal :=
  match feeEstimate with
  | None => w
  | Some fees => with_estimates fees (wd_updatedAt w) w
  end.

Record PresentedBridgeWithdrawal := mkPresented {
  pw_id : string;
  pw_amount : string;
  pw_currency : string;
  pw_externalAccountId : string;
  pw_status : string;
  pw_estimatedBridgeFeePercent : string;
  pw_estimatedBridgeFee : string;
  pw_estimatedGasBuffer : string;
  pw_estimatedCustomerFee : string;
  pw_flashFeePercent : string;
  pw_flashFee : string;
  pw_flashFeeIsEstimate : bool;
  pw_bridgeDeveloperFee : option string;
  pw_bridgeExchangeFee : option string;
  pw_subtotalAmount : option string;
  pw_finalAmount : option string;
  pw_bridgeTransferId : option string;
  pw_failureReason : option string;
  pw_createdAt : Z
}.

(** The date is kept in milliseconds. *)
Definition presentBridgeWithdrawal (w : withdrawal) (feeEstimate : option CustomerFeeEstimate) :
    PresentedBridgeWithdrawal :=
  let source := withFeeEstimate w feeEstimate in
  let fees := wd_fees source in
  let receipt := wd_receipt source in
  let isEstimate := isFlashFeeEstimate receipt in
  let '(subtotal, final) := resolveAmounts (wd_amount source) fees receipt isEstimate in
  mkPresented (wd_id source) (wd_amount source) (wd_currency source) (wd_externalAccountId source)
    (withdrawal_status (wd_status source)) (estimatedBridgeFeePercent fees) (estimatedBridgeFee fees)
    (estimatedGasBuffer fees) (estimatedCustomerFeeFor fees) (flashFeePercent fees) (flashFee fees)
    isEstimate (bridgeDeveloperFee receipt) (bridgeExchangeFee receipt) subtotal final
    (wd_bridgeTransferId source) (wd_failureReason source) (wd_createdAt source).

(** ** The parts add up *)

Section Sums.
Variables a b c : Z.
Hypothesis Ha : 0 <= a <= MAX_FEE_CENTS.
Hypothesis Hb : 0 <= b <= MAX_FEE_CENTS.
Hypothesis Hc : 0 <= c <= MAX_FEE_CENTS.

Lemma inject_fee n : 0 <= n <= MAX_FEE_CENTS -> (0 <= inject_Z n)%Q /\ (inject_Z n <= 1099511627776 # 1)%Q.
Proof.
  intros [H1 H2]. split; [change 0%Q with (inject_Z 0); by rewrite <- Zle_Qle|].
  change (1099511627776 # 1)%Q with (inject_Z (2 ^ 40)). by rewrite <- Zle_Qle.
Qed.

(** Where the two roundings of the sum leave it. *)
Lemma sum_within : let s := num_add (num_add (dollars a) (dollars b)) (dollars c) in
  (0 <= num_val (num_add (dollars a) (dollars b)))%Q /\ (0 <= num_val s)%Q /\
  (num_val (num_add (dollars a) (dollars b)) < 100000000000 # 1)%Q /\ (num_val s < 100000000000 # 1)%Q /\
  (Qabs (num_val s * (100 # 1) - inject_Z (a + b + c)) <= 3 # 8)%Q.
Proof.
  cbn zeta. destruct (inject_fee a Ha), (inject_fee b Hb), (inject_fee c Hc).
  assert (Qabs (num_val (num_add (dollars a) (dollars b)) * (100 # 1) - (inject_Z a + inject_Z b))
            <= (1 # 1000) + (1 # 1000) + (1 # 100))%Q as Hs1.
  { apply num_add_cents; [done|done| |done|done|by apply dollars_within|by apply dollars_within].
    change (inject_Z (2 ^ 46)) with (70368744177664 # 1)%Q. lra. }
  pose proof (num_val_dollars_nonneg a ltac:(lia)). pose proof (num_val_dollars_nonneg b ltac:(lia)).
  pose proof (num_val_dollars_nonneg c ltac:(lia)).
  assert (0 <= num_val (num_add (dollars a) (dollars b)))%Q as Hs2 by (by apply num_add_nonneg).
  pose proof (num_add_cents (num_add (dollars a) (dollars b)) (dollars c) (inject_Z a + inject_Z b)
    (inject_Z c) ((1 # 1000) + (1 # 1000) + (1 # 100)) (1 # 1000) ltac:(lra) ltac:(done)
    ltac:(change (inject_Z (2 ^ 46)) with (70368744177664 # 1)%Q; lra) ltac:(lra) ltac:(lra) Hs1
    (dollars_within c Hc)) as Hs3.
  apply Qabs_Qle_condition in Hs1. pose proof Hs3 as Hs4. apply Qabs_Qle_condition in Hs4.
  split_and!; [done|by apply num_add_nonneg|lra|lra|]. rewrite !inject_Z_plus.
  apply Qle_trans with (1 := Hs3). lra.
Qed.

Lemma sum_fees_cents :
  sum_fees (render_fixed 2 a) (render_fixed 2 b) (render_fixed 2 c) = render_fixed 2 (a + b + c).
Proof.
  destruct sum_within as (H1 & H2 & H3 & H4 & H5). cbn zeta in *. unfold sum_fees, MAX_FEE_CENTS in *.
  rewrite !parseFloat_cents by (unfold MAX_CENTS_EXACT; lia). cbn [fl_add]. unfold fl.
  assert (100000000000 # 1 < two^ 1000)%Q as Hp by (by vm_compute).
  rewrite (num_isFinite_val (num_add (dollars a) (dollars b))) by lra. cbn [fl_add]. unfold fl.
  rewrite num_isFinite_val by lra. cbn [fl_toFixed]. rewrite (toFixed_cents _ (a + b + c)); [done|done| |done].
  change (inject_Z (10 ^ 21)) with (1000000000000000000000 # 1)%Q. lra.
Qed.
End Sums.

(** ** Fees of ordinary withdrawals *)

(** Between nothing and [hi]. *)
Definition upto (hi : Z) (x : js_num) : Prop := (0 <= num_val x)%Q /\ (num_val x <= inject_Z hi)%Q.

Lemma fl_upto hi x : hi <= 2 ^ 53 -> upto hi x -> fl x = Fin x.
Proof.
  intros Hhi [H0 H1]. unfold fl. rewrite num_isFinite_val; [done|done|].
  apply Qle_lt_trans with (1 := H1). apply Qle_lt_trans with (inject_Z (2 ^ 53)); [by rewrite <- Zle_Qle|].
  by vm_compute.
Qed.

Lemma fl_mul_upto a b x y : 0 <= a -> 0 <= b -> a * b <= 2 ^ 53 -> upto a x -> upto b y ->
  exists z, fl_mul (Fin x) (Fin y) = Fin z /\ upto (a * b) z.
Proof.
  intros Ha Hb Hab [Hx0 Hx1] [Hy0 Hy1]. exists (num_mul x y).
  assert (upto (a * b) (num_mul x y)) as Hu.
  { destruct (num_mul_range x y 0 (a * b)) as [L U]; [lia|nia| | |done].
    - change (inject_Z 0) with 0%Q. by apply Qmult_le_0_compat.
    - rewrite inject_Z_mult. by apply Qmult_le_compat_nonneg. }
  split; [|done]. cbn [fl_mul]. by apply (fl_upto (a * b)).
Qed.

Lemma fl_div_upto a k x : 0 < k -> 0 <= a -> a <= 2 ^ 53 -> upto (a * k) x ->
  exists z, fl_div_int (Fin x) k = Fin z /\ upto a z.
Proof.
  intros Hk Ha Hle [Hx0 Hx1]. exists (num_div_int x k).
  assert (upto a (num_div_int x k)) as Hu
    by (destruct (num_div_int_range x k 0 a) as [L U]; [done|lia|lia|done|done|done]).
  split; [|done]. cbn [fl_div_int]. by apply (fl_upto a).
Qed.

(** Any amount of dollars that is not huge prints as a number of cents. *)
Lemma toFixed_upto x : upto (10 ^ 9) x ->
  exists c, fl_toFixed 2 (Fin x) = render_fixed 2 c /\ 0 <= c <= MAX_FEE_CENTS.
Proof.
  intros [H0 H1]. pose proof (mant_nonneg x H0) as Hm. exists (fixed_scaled 2 x).
  change (inject_Z (10 ^ 9)) with (1000000000 # 1)%Q in H1. split.
  - cbn [fl_toFixed]. unfold num_toFixed. rewrite num_fixed_range_val; [|done|].
    + by destruct (Z.ltb_spec (mant x) 0); [lia|].
    + change (inject_Z (10 ^ 21)) with (1000000000000000000000 # 1)%Q. lra.
  - rewrite fixed_scaled_round by done.
    assert (num_val (JsNum (mant x * 10 ^ Z.of_nat 2) (expo x)) == num_val x * (100 # 1))%Q as E.
    { unfold num_val. cbn [mant expo]. rewrite inject_Z_mult.
      change (inject_Z (10 ^ Z.of_nat 2)) with (100 # 1)%Q. ring. }
    apply Math_round_range; rewrite E; unfold MAX_FEE_CENTS; [change (inject_Z 0) with 0%Q; lra|].
    change (inject_Z (2 ^ 40)) with (1099511627776 # 1)%Q. lra.
Qed.

Lemma percent_fee_cents amount x percent : parseFloat amount = Fin x -> upto (10 ^ 9) x ->
  upto 100 percent -> exists c, percent_fee amount percent = render_fixed 2 c /\ 0 <= c <= MAX_FEE_CENTS.
Proof.
  intros Ep Hx Hp. unfold percent_fee. rewrite Ep.
  destruct (fl_mul_upto (10 ^ 9) 100 x percent) as (y & -> & Hy); [lia..|done|done|].
  destruct (fl_div_upto (10 ^ 9) 100 y) as (z & -> & Hz); [lia..|done|]. by apply toFixed_upto.
Qed.

Lemma gas_fee_cents limit gwei eth mult : upto (10 ^ 6) limit -> upto (10 ^ 4) gwei -> upto (10 ^ 5) eth ->
  upto (10 ^ 3) mult ->
  exists c, computeEstimatedGasBufferUsd limit (Fin gwei) eth mult = render_fixed 2 c /\ 0 <= c <= MAX_FEE_CENTS.
Proof.
  intros Hl Hg He Hm. unfold computeEstimatedGasBufferUsd.
  destruct (fl_mul_upto (10 ^ 6) (10 ^ 4) limit gwei) as (x & -> & Hx); [lia..|done|done|].
  destruct (fl_mul_upto (10 ^ 6 * 10 ^ 4) (10 ^ 5) x eth) as (y & -> & Hy); [lia..|done|done|].
  destruct (fl_div_upto (10 ^ 6) 1000000000 y) as (z & -> & Hz); [lia..|done|].
  destruct (fl_mul_upto (10 ^ 6) (10 ^ 3) z mult) as (v & -> & Hv); [lia..|done|done|].
  by apply toFixed_upto.
Qed.

(** The fee a customer is shown is what its three parts add up to, to the cent,
    although the sum is taken in floating point on their texts: for amounts up to
    a billion dollars and a gas market within wide bounds. *)
Theorem customer_fee_adds_up (amount : string) (x gwei eth : js_num) (config : FeeEstimateConfig)
    (percent : js_num) :
  let e := computeCustomerFeeEstimateFromGasMarket amount (mkGas (Fin gwei) eth) config percent in
  parseFloat amount = Fin x -> upto (10 ^ 9) x -> upto 100 percent ->
  upto 100 (bridgeFixedFeePercent config) -> upto (10 ^ 6) (usdtTransferGasLimit config) ->
  upto (10 ^ 4) gwei -> upto (10 ^ 5) eth -> upto (10 ^ 3) (gasPriceBufferMultiplier config) ->
  exists flash bridge gas,
    flashFee e = render_fixed 2 flash /\ estimatedBridgeFee e = render_fixed 2 bridge /\
    estimatedGasBuffer e = render_fixed 2 gas /\
    estimatedCustomerFee e = render_fixed 2 (flash + bridge + gas).
Proof.
  cbn zeta. intros Ep Hx Hp Hb Hl Hg He Hm.
  destruct (percent_fee_cents amount x percent Ep Hx Hp) as (f & Ef & Hf).
  destruct (percent_fee_cents amount x (bridgeFixedFeePercent config) Ep Hx Hb) as (b & Eb & Hb').
  destruct (gas_fee_cents _ _ _ _ Hl Hg He Hm) as (g & Eg & Hg').
  exists f, b, g. cbn -[percent_fee computeEstimatedGasBufferUsd sum_fees render_fixed].
  rewrite Ef, Eb, Eg. split_and!; [done..|]. by apply sum_fees_cents.
Qed.
