(* ===== verification/IbexCrypto.v ===== *)
(** * IBEX balances and crypto sends

    Model of the part of [src/src/services/ibex/client.ts] the Bridge
    integration uses: the access token, the requests made without the client
    library ([ibexFetch]), the receive options, and the balance of a wallet as
    [app/wallets/get-balance-for-wallet.ts] reads it. *)

From stdpp Require Import base gmap list strings.
From Stdlib Require Import ZArith Lia.
From S2P Require Import Prelude JsStrings JsNumbers JsDecimals Processes Errors World.
From S2P Require Import BigintMoney MoneyAmounts Ibex TopupWorld TransferRequests Json BridgeWorld.

Open Scope Z_scope.
Open Scope flash_scope.

Definition USDT_CURRENCY_ID : Z := 29.

Section IbexCrypto.
Context `{X : BridgeExternal}.

(** ** Requests without the library *)

(** A step on the state of IBEX. *)
Definition ibex {A} (f : ibex_state -> A * ibex_state) : BApp A :=
  svc (fun w => let '(a, s) := f (w_ibex w) in (Ok a, set_ibex s w)).

Definition ibex_error (msg : string) : error := new_error IbexError msg.

Definition getIbexToken : BApp string :=
  let* cached := ibex (fun s => (ibex_cached_token s, s)) in
  match cached with
  | Some token => pret token
  | None =>
      let* response := ibex ibex_oauth in
      match response with
      | OauthNetwork msg => pfail (ibex_error msg)
      | OauthStatus status text =>
          pfail (ibex_error ("IBEX token request failed: " +:+ bigint_toString status +:+ " — " +:+ text))
      | OauthToken token =>
          if truthy token then
            ibex (fun s => (tt, ibex_store_token (default EmptyString token) s)) ;;;
            pret (default EmptyString token)
          else pfail (ibex_error "IBEX token request: no access_token in response")
      end
  end.

Definition hub_path {T} (c : hub_call T) : string :=
  match c with
  | SendRequirements network currencyId =>
      "/crypto/send/requirements?network=" +:+ network +:+ "&currency-id=" +:+ bigint_toString currencyId
  | CreateSendInfo _ _ _ => "/crypto/send/infos"
  | SendCrypto accountId _ _ => "/accounts/" +:+ accountId +:+ "/crypto/send"
  end.

(** The sends IBEX acknowledged are counted. *)
Definition acknowledged {T} (c : hub_call T) (w : bworld) : bworld :=
  match c with
  | SendCrypto accountId infoId amount => log_send (mkSend accountId infoId amount) w
  | _ => w
  end.

(** A refusal is returned; an exception of [fetch] is not caught. *)
Definition ibexFetch {T} (token : string) (c : hub_call T) : BApp T :=
  atomic (fun w =>
    let b := t_base (b_top w) in
    let '(r, s) := ibex_hub T c token (w_ibex b) in
    let w1 := set_top (set_base (set_ibex s b) (b_top w)) w in
    match r with
    | HubOk body => (Ok body, acknowledged c w1)
    | HubStatus status text =>
        (Err (ibex_error ("IBEX " +:+ hub_path c +:+ " failed: " +:+ bigint_toString status +:+ " — "
           +:+ text)), w1)
    | HubThrow msg => (Throw (new_error JsError msg), w1)
    end).

Definition sendCrypto (accountId cryptoSendInfosId : string) (amount : js_num) : BApp json :=
  let* token := getIbexToken in
  ibexFetch token (SendCrypto accountId cryptoSendInfosId amount).

Definition getCryptoSendRequirements (network : string) (currencyId : Z) : BApp string :=
  let* token := getIbexToken in
  ibexFetch token (SendRequirements network currencyId).

Definition createCryptoSendInfo (name requirementsId address : string) : BApp (option string) :=
  let* token := getIbexToken in
  ibexFetch token (CreateSendInfo name requirementsId address).

(** ** Receive options *)

Definition getCryptoReceiveOptions : App (list CryptoReceiveOption) := sdk sdk_getCryptoReceiveOptions.

Definition createCryptoReceiveInfo (accountId : string) (option_ : CryptoReceiveOption) : App string :=
  sdk (sdk_createCryptoReceiveInfo accountId option_).

Definition find_option (network : string) (options : list CryptoReceiveOption) :
    option CryptoReceiveOption :=
  snd <$> list_find (fun o => ro_currencyId o = USDT_CURRENCY_ID /\ str_lower (ro_network o) = network)
            options.

Definition findEthereumUsdtReceiveOption (options : list CryptoReceiveOption) :
    outcome error CryptoReceiveOption :=
  match find_option "ethereum" options with
  | Some o => Ok o
  | None => Err (ibex_error "Ethereum USDT option not found")
  end.

Definition getEthereumUsdtOption : BApp CryptoReceiveOption :=
  let* options := svc getCryptoReceiveOptions in
  Done (findEthereumUsdtReceiveOption options).

(** ** Balances *)

(** A balance that does not parse is none. *)
Definition parseAccountBalance (balance : option js_num) (currency : WalletCurrency) :
    option MoneyAmount :=
  b ← balance;
  match (match currency with
         | Usdt => USDT_fromNumber (num_toString b)
         | _ => USD_dollars (num_toString b)
         end) with
  | Ok a => Some a
  | _ => None
  end.

Definition getAccountDetails (accountId : string) (currency : WalletCurrency) :
    App (option MoneyAmount) :=
  let! balance := sdk (sdk_getAccountDetails accountId) in
  ret (parseAccountBalance balance currency).

Definition zero_amount (currency : WalletCurrency) : MoneyAmount :=
  mkAmount (match currency with Usdt => Usdt | _ => Usd end)
    (fromSource 0 (currency_name (match currency with Usdt => Usdt | _ => Usd end)) HALF_TO_EVEN).

(** An account IBEX does not know, or whose balance it omits, holds nothing. *)
Definition getBalanceForWallet (walletId : string) (currency : WalletCurrency) : BApp MoneyAmount :=
  pcatch (
    let* resp := pattempt (svc (getAccountDetails walletId currency)) in
    match resp with
    | inl e => if bool_decide (err_httpCode e = Some 404) then pret (zero_amount currency) else pfail e
    | inr None => pret (zero_amount currency)
    | inr (Some balance) => pret balance
    end)
  (fun e => pfail (new_error UnknownLedgerError (err_message e))).

(** [amount.toIbex()], a number. *)
Definition ibex_number (a : MoneyAmount) : BApp js_num :=
  match thrown (toIbex a) with
  | Ok s => match js_Number s with Some x => pret x | None => pthrow (new_error JsError "not a number") end
  | Err e => pfail e
  | Throw e => pthrow e
  end.

End IbexCrypto.
