(* ===== verification/BridgeService.v ===== *)
(** * The Bridge service

    Model of [src/src/services/bridge/index.ts]: the onboarding of a customer,
    virtual accounts, external accounts and Plaid, withdrawals and the queries;
    of [plaid-link-token-store.ts], and of the notifications of
    [app/bridge/send-withdrawal-notification.ts]. Every call of the database, of
    Bridge and of IBEX is one atomic action, so two calls of the service may be
    interleaved anywhere between them. *)

From stdpp Require Import base gmap list strings.
From Stdlib Require Import ZArith Lia Ascii.
From S2P Require Import Prelude JsStrings JsNumbers JsDecimals Processes Errors World.
From S2P Require Import BigintMoney MoneyAmounts Ibex Repos TopupWorld TransferRequests CreatedAt.
From S2P Require Import FygaroCheckout Json BridgeWorld BridgeRepo BridgeFees IbexCrypto.

Open Scope Z_scope.
Open Scope flash_scope.

(** ** Helpers *)

Definition asBridgeRequestWithdrawalError (e : error) : error :=
  if is_BridgeError (err_class e) then e
  else match err_class e with
  | IbexError | UnexpectedIbexResponse | InsufficientIbexBalance | CompletedInvoice =>
      new_error BridgeInsufficientFundsError
        "Unable to verify USDT wallet balance. Ensure IBEX is running and the USDT Cash Wallet is funded."
  | c => if is_RepositoryError c
         then new_error BridgeError ("Failed to persist withdrawal request: " +:+ err_message e)
         else new_error BridgeError (err_message e)
  end.

(** [a?.x ?? b?.y ?? ...] on the answer of IBEX; a property may be a number. *)
Definition first_text (l : list (option json)) : option string :=
  asOptionalString (foldr coalesce None l).

Definition ibexPayoutIdFromSendResponse (response : json) : option string :=
  first_text [prop_opt "id" (prop "transaction" response); prop_opt "id" (prop "transactionHub" response);
    prop "transactionId" response].

Definition ibexTxHashFromSendResponse (response : json) : option string :=
  first_text [prop "txHash" response; prop "transactionHash" response; prop "networkTxId" response;
    prop_opt "txHash" (prop "transactionHub" response);
    prop_opt "transactionHash" (prop "transactionHub" response);
    prop_opt "hash" (prop "transactionHub" response);
    prop_opt "txHash" (prop "cryptoTransaction" response);
    prop_opt "networkTxId" (prop "cryptoTransaction" response)].

Definition bridgeExternalAccountLast4 (x : ExternalAccount) : string :=
  default EmptyString (nullish (xa_account_number_last_4 x) (xa_last_4 x)).

Definition bridgeExternalAccountIsActive (x : ExternalAccount) : bool :=
  negb (bool_decide (xa_active x = Some false)).

Record ExternalAccountResult := mkExternalResult {
  xr_bridgeExternalAccountId : string;
  xr_bankName : string;
  xr_accountNumberLast4 : string;
  xr_status : ExternalStatus;
  xr_isDefault : bool
}.

Definition externalAccountResultFromRecord (x : external_account) : ExternalAccountResult :=
  mkExternalResult (x_bridgeExternalAccountId x) (x_bankName x) (x_accountNumberLast4 x) (x_status x)
    (x_isDefault x).

Definition find_target (externalAccountId : string) (l : list ExternalAccountResult) :
    option ExternalAccountResult :=
  snd <$> list_find (fun x => xr_bridgeExternalAccountId x = externalAccountId) l.

(** ** Withdrawal notifications *)

(** [amount] to two digits, when it is a number. *)
Definition formatWithdrawalAmount (amount currency : string) : string :=
  (match js_Number amount with
   | Some x => fl_toFixed 2 (Fin x)
   | None => amount
   end) +:+ " " +:+ str_upper currency.

(** What the mobile app shows, and the data the notification carries. *)
Definition withdrawal_notification (accountId amount currency outcome : string)
    (failureReason : option string) : notification :=
  mkNotification accountId
    ("notification.bridgeWithdrawal." +:+ outcome
       +:+ (if bool_decide (outcome = "failed") && truthy failureReason then ".bodyWithReason" else ".body"))
    ("bridge_withdrawal_" +:+ outcome) (formatWithdrawalAmount amount currency)
    ([("amount", amount);
      ("currency", if bool_decide (currency = "usdt") then "USD" else str_upper currency)]
     ++ (if truthy failureReason then [("failureReason", default EmptyString failureReason)] else [])).

Section BridgeService.
Context `{X : BridgeExternal}.

Definition sendBridgeWithdrawalNotificationBestEffort (accountId amount currency outcome : string)
    (failureReason : option string) : BApp unit :=
  notify_account accountId (Ok (withdrawal_notification accountId amount currency outcome failureReason)).

Definition deriveWithdrawalIdempotencyKey (rowId : string) : string :=
  sha256_hex ("withdrawal:" +:+ rowId).

(** ** Synchronisation of the external accounts *)

Fixpoint persist_externals (accountId : string) (l : list ExternalAccount) : BApp unit :=
  match l with
  | [] => pret tt
  | x :: l' =>
      BridgeAccountsRepo.createExternalAccount accountId (xa_id x) (default EmptyString (xa_bank_name x))
        (bridgeExternalAccountLast4 x) XVerified ;;;
      persist_externals accountId l'
  end.

Definition syncExternalAccountsFromBridge (accountId customerId : string) :
    BApp (list ExternalAccountResult) :=
  let* bridgeAccounts := api_listExternalAccounts customerId in
  let active := List.filter bridgeExternalAccountIsActive bridgeAccounts in
  let ids := map xa_id active in
  persist_externals accountId active ;;;
  BridgeAccountsRepo.markExternalAccountsMissingFromBridge accountId ids ;;;
  BridgeAccountsRepo.ensureDefaultExternalAccount accountId ;;;
  let* locals := BridgeAccountsRepo.findExternalAccountsByAccountId accountId in
  pret (map externalAccountResultFromRecord
    (List.filter (fun x => bool_decide (x_bridgeExternalAccountId x ∈ ids)
                           && bool_decide (x_status x = XVerified)) locals)).

Definition usdt_checking (l : list wallet) : option wallet :=
  snd <$> list_find (fun wl => wl_currency wl = Usdt /\ wl_type wl = Checking) l.

Definition ensureEthUsdtCashWallet (acc : account) : BApp wallet :=
  let* wallets := svc (listByAccountId (a_id acc)) in
  let* wl := match usdt_checking wallets with
             | Some wl => pret wl
             | None => svc (wallets_persistNew (a_id acc) Checking Usdt)
             end in
  (if bool_decide (a_defaultWalletId acc = wl_id wl) then pret tt
   else svc (accounts_update (mkAccount (a_id acc) (a_uuid acc) (a_status acc) (wl_id wl)
          (a_username acc) (a_level acc) (a_role acc) (a_kratosUserId acc) (a_bridgeCustomerId acc)
          (a_bridgeKycStatus acc) (a_bridgeEthereumAddress acc) (a_createdAt acc))) ;;; pret tt) ;;;
  pret wl.

(** ** Guards *)

Definition checkBridgeEnabled : BApp unit :=
  if bridge_enabled bridgeConfig then pret tt
  else pfail (new_error BridgeDisabledError "Bridge integration is currently disabled").

Definition checkAccountLevel (accountId : string) : BApp account :=
  let* acc := svc (accounts_findById accountId) in
  if a_level acc <? 1
  then pfail (new_error BridgeAccountLevelError "Bridge requires at least a Personal account (Level 1+)")
  else pret acc.

Definition customer_not_found : error :=
  new_error BridgeCustomerNotFoundError "Account has no Bridge customer ID. Complete KYC first.".

(** The customer of an account, when it has one. *)
Definition bridge_customer (acc : account) : BApp string :=
  if truthy (a_bridgeCustomerId acc) then pret (default EmptyString (a_bridgeCustomerId acc))
  else pfail customer_not_found.

Definition kyc_offboarded : error := new_error BridgeKycOffboardedError
  "Your account has been offboarded from Bridge. Please contact support.".
Definition kyc_rejected : error := new_error BridgeKycRejectedError "KYC verification was rejected".

Definition kyc_done (status : option string) : bool :=
  bool_decide (status = Some "active") || bool_decide (status = Some "approved").

Definition requireApprovedBridgeCustomer (acc : account) : BApp string :=
  let* customerId := bridge_customer acc in
  let* kycStatus := api_getCustomer customerId in
  if bool_decide (kycStatus = Some "offboarded") then pfail kyc_offboarded
  else if bool_decide (kycStatus = Some "rejected") then pfail kyc_rejected
  else if negb (kyc_done kycStatus)
  then pfail (new_error BridgeKycPendingError "KYC must be approved before withdrawal")
  else pret customerId.

(** The two checks every operation starts with. *)
Definition guarded_account (accountId : string) : BApp account :=
  checkBridgeEnabled ;;; checkAccountLevel accountId.

(** ** KYC *)

Record InitiateKycResult := mkKycResult { kr_kycLink : string; kr_customerId : string; kr_tosLink : string }.

(** The link Bridge reports when the customer has one already. *)
Definition existing_kyc_link (r : refusal) : option InitiateKycResult :=
  if rf_status r =? 400 then
    match prop_opt "existing_kyc_link" (present (Some (rf_response r))) with
    | Some l =>
        if json_truthy (Some l)
        then Some (mkKycResult (opt_String (prop "kyc_link" l)) (opt_String (prop "customer_id" l))
                     (opt_String (prop "tos_link" l)))
        else None
    | None => None
    end
  else None.

(** Kratos gives the address of the user. *)
Definition initiateKyc (accountId email : string) (type : option string) (full_name : string) :
    BApp InitiateKycResult :=
  let* acc := guarded_account accountId in
  if bool_decide (kyc_status_of acc = Some "approved")
  then pfail (new_error BridgeError "KYC already approved for this account") else
  let* useremail := Done (kratos_email (a_kratosUserId acc)) in
  returned (
    let* r := request (CreateKycLink (if truthy useremail then useremail else Some email)
      (Some (if truthy type then default EmptyString type else "individual"))
      (if nonempty full_name then Some full_name else a_username acc)) KeyAuto in
    match r with
    | inr body =>
        let* l := readable body in
        updateBridgeFields accountId (Some (customer_id l)) (Some "open") None ;;;
        pret (mkKycResult (kyc_link l) (customer_id l) (tos_link l))
    | inl r =>
        match existing_kyc_link r with
        | Some result =>
            pattempt (updateBridgeFields accountId (Some (kr_customerId result)) (Some "not_started") None) ;;;
            pret result
        | None => pfail (refusal_error r)
        end
    end).

(** ** Virtual accounts *)

Record CreateVirtualAccountResult := mkVirtualResult {
  vr_virtualAccountId : string;
  vr_bankName : string;
  vr_routingNumber : string;
  vr_accountNumber : string;
  vr_accountNumberLast4 : string
}.

Definition virtual_result (v : virtual_account) : CreateVirtualAccountResult :=
  mkVirtualResult (v_bridgeVirtualAccountId v) (v_bankName v) (v_routingNumber v) (v_accountNumber v)
    (v_accountNumberLast4 v).

(** [s.slice(-4)] *)
Definition last4 (s : string) : string := str_drop (String.length s - 4) s.

Definition PENDING_BRIDGE_STATUSES : list string :=
  ["incomplete"; "awaiting_questionnaire"; "awaiting_ubo"; "under_review"; "paused"].

Definition check_kyc (kycStatus : option string) : BApp unit :=
  if bool_decide (kycStatus = Some "offboarded") then pfail kyc_offboarded
  else if bool_decide (kycStatus = Some "rejected") then pfail kyc_rejected
  else if (match kycStatus with Some s => bool_decide (s ∈ "open" :: PENDING_BRIDGE_STATUSES) | None => false end)
  then pfail (new_error BridgeKycPendingError "KYC verification is pending")
  else if negb (kyc_done kycStatus) then pfail (new_error BridgeKycPendingError "KYC not yet completed")
  else pret tt.

(** An error of IBEX comes back as one of Bridge. *)
Definition as_bridge_error {A} (c : BApp A) : BApp A :=
  let* r := pattempt c in
  match r with
  | inr a => pret a
  | inl e => pfail (new_error BridgeError (err_message e))
  end.

(** The address deposits are sent to, created the first time. *)
Definition ethereum_address (acc : account) (accountId walletId : string) : BApp string :=
  if truthy (a_bridgeEthereumAddress acc) then pret (default EmptyString (a_bridgeEthereumAddress acc))
  else
    let* option_ := as_bridge_error getEthereumUsdtOption in
    let* n := bpeek (fun w => t_randoms (b_top w)) in
    top (poke next_random) ;;;
    let name := "USDT-ETH " +:+ default "undefined" (a_username acc) +:+ "-" +:+ random_hex n in
    let* address := as_bridge_error (svc (createCryptoReceiveInfo walletId
      (mkReceiveOption (ro_currencyId option_) (ro_network option_) (Some name)))) in
    updateBridgeFields accountId None None (Some address) ;;;
    pret address.

Definition createVirtualAccount (accountId : string) : BApp CreateVirtualAccountResult :=
  let* acc := guarded_account accountId in
  returned (
    let* customerId := bridge_customer acc in
    let* kycStatus := api_getCustomer customerId in
    check_kyc kycStatus ;;;
    let* existingVa := pattempt (BridgeAccountsRepo.findVirtualAccountByAccountId accountId) in
    match existingVa with
    | inr v => pret (virtual_result v)
    | inl _ =>
        let* wl := ensureEthUsdtCashWallet acc in
        let* address := ethereum_address acc accountId (wl_id wl) in
        let* u := svc randomUUID in
        let* va := api_createVirtualAccount customerId address
          (num_toString (developerFeePercent bridgeConfig)) (accountId +:+ ":" +:+ u) in
        let number := default EmptyString (va_bank_account_number va) in
        let bank := default EmptyString (va_bank_name va) in
        let routing := default EmptyString (va_bank_routing_number va) in
        BridgeAccountsRepo.createVirtualAccount accountId (va_id va) bank routing number (last4 number) ;;;
        pret (mkVirtualResult (va_id va) bank routing number (last4 number))
    end).

(** ** Plaid *)

(** The decision of the gate, as it is traced. *)
Inductive gate_decision :=
| AllowedNoIp | AllowedPrivateIp | AllowedLookupFailed | AllowedUnknownCountry | AllowedUs
| BlockedNonUs | AllowedError.

#[global] Instance gate_decision_eq_dec : EqDecision gate_decision.
Proof. solve_decision. Defined.

Record PlaidGateResult := mkGate {
  g_available : bool;
  g_country : option string;
  g_decision : gate_decision
}.

(** [instanceof IpFetcherServiceError]: the error of the fetcher derives from
    [IpFetcherError] only. *)
Definition is_IpFetcherServiceError (c : error_class) : bool := false.

(** [isPrivateIp] throws on an IPv6 address, which counts as not private. A
    result that is an [Error] has no [isoCode]. *)
Definition plaidGateForIp (ip : option string) : PlaidGateResult :=
  if negb (truthy ip) then mkGate true None AllowedNoIp else
  let addr := default EmptyString ip in
  let isPrivate := match ip_private addr with Ok b => b | _ => false end in
  if isPrivate then mkGate true None AllowedPrivateIp else
  match ip_info addr with
  | Throw _ => mkGate true None AllowedError
  | Err e =>
      if is_IpFetcherServiceError (err_class e) then mkGate true None AllowedLookupFailed
      else mkGate true None AllowedUnknownCountry
  | Ok isoCode =>
      if negb (truthy isoCode) then mkGate true None AllowedUnknownCountry else
      let country := str_upper (default EmptyString isoCode) in
      if bool_decide (country = "US") then mkGate true (Some country) AllowedUs
      else mkGate false (Some country) BlockedNonUs
  end.

(** [Date.parse(s)]; a text that is not of the standard's form is read as the
    engine sees fit. *)
Definition js_Date (source : string) : option Z :=
  match ISO_DATE source with
  | Some i => Date_parse legacy_date source i
  | None => legacy_date source
  end.

Definition FALLBACK_TTL_SECS : Z := 4 * 60 * 60.

Definition ttlSecsFromExpiresAt (expiresAt : string) : BApp Z :=
  match js_Date expiresAt with
  | None => pret FALLBACK_TTL_SECS
  | Some ms => let* at_ := now in pret (Z.max 1 ((ms - at_) / 1000))
  end.

Definition plaid_save (linkToken : string) (binding : PlaidLinkTokenBinding) : BApp unit :=
  let* ttl := ttlSecsFromExpiresAt (pb_expiresAt binding) in
  top (cache_set set_plaid r_plaid linkToken binding ttl) ;;; pret tt.

Definition invalid_plaid (message : string) : error := new_error BridgeInvalidPlaidTokenError message.

(** The binding is read without removing it, so that only its owner can use the
    token up; the removal decides among concurrent exchanges. *)
Definition consumeForAccount (linkToken accountId : string) : BApp PlaidLinkTokenBinding :=
  let* cached := pattempt (top (cache_get r_plaid linkToken)) in
  match cached with
  | inl e =>
      if bool_decide (err_class e = CacheUndefinedError)
      then pfail (invalid_plaid "Unknown or already-used Plaid link token — restart bank linking")
      else pfail e
  | inr binding =>
      if negb (bool_decide (pb_accountId binding = accountId))
      then pfail (invalid_plaid "Plaid link token was not issued for this account — restart bank linking")
      else
        let* expired := match js_Date (pb_expiresAt binding) with
                        | None => pret false
                        | Some ms => let* at_ := now in pret (ms <=? at_)
                        end in
        if expired then
          pattempt (top (cache_clear set_plaid r_plaid linkToken)) ;;;
          pfail (invalid_plaid "Plaid link token has expired — restart bank linking")
        else
          let* consumed := top (consumeCacheKey set_plaid r_plaid linkToken) in
          if consumed then pret binding
          else pfail (invalid_plaid "Unknown or already-used Plaid link token — restart bank linking")
  end.

Definition plaid_unavailable : error := new_error BridgePlaidNotAvailableError
  "Bank account linking via Plaid is not available. Please enter your bank details manually.".

(** [error instanceof BridgeApiError && (401 or 403)] *)
Definition unauthorized (e : error) : bool :=
  bool_decide (err_class e = BridgeApiError)
  && (bool_decide (err_httpCode e = Some 401) || bool_decide (err_httpCode e = Some 403)).

Record AddExternalAccountResult := mkAddResult {
  ar_linkToken : string;
  ar_linkUrl : option string;
  ar_expiresAt : string
}.

Definition addExternalAccount (accountId : string) : BApp AddExternalAccountResult :=
  let* acc := guarded_account accountId in
  pcatch (
    let* customerId := bridge_customer acc in
    let* plaid := api_createPlaidLinkRequest customerId in
    let* saved := pattempt (plaid_save (link_token plaid)
      (mkBinding accountId customerId (link_token_expires_at plaid))) in
    match saved with
    | inl _ => pfail (new_error BridgeError "Unable to start bank linking — please try again")
    | inr _ =>
        let* linkUrl := pcatch (let* url := api_getExternalAccountLinkUrl customerId in pret (Some url))
                          (fun _ => pret None) in
        pret (mkAddResult (link_token plaid) linkUrl (link_token_expires_at plaid))
    end)
  (fun e => pfail (if unauthorized e then plaid_unavailable else e)).

(** The statuses of a rejected pair of tokens. *)
Definition exchange_error (r : refusal) : error :=
  if bool_decide (rf_status r = 401) || bool_decide (rf_status r = 403) then plaid_unavailable
  else if bool_decide (rf_status r ∈ [400; 404; 409; 422]) then
    let detail := prop_opt "message" (present (Some (rf_response r))) in
    invalid_plaid (if json_truthy detail then opt_String detail
                   else "Invalid or expired Plaid token — restart bank linking")
  else refusal_error r.

Definition exchangePlaidPublicToken (accountId linkToken publicToken : string) : BApp string :=
  let* acc := guarded_account accountId in
  let link := js_trim linkToken in
  let public := js_trim publicToken in
  if negb (nonempty link) || negb (nonempty public)
  then pfail (invalid_plaid "linkToken and publicToken are required") else
  returned (
    bridge_customer acc ;;;
    let* binding := pattempt (consumeForAccount link accountId) in
    match binding with
    | inl e =>
        pfail (if bool_decide (err_class e = BridgeInvalidPlaidTokenError) then e
               else invalid_plaid "Unable to verify Plaid link token — restart bank linking")
    | inr _ =>
        let* r := request (ExchangePlaid link public) KeyDisabled in
        match r with
        | inr body => readable body
        | inl r => pfail (exchange_error r)
        end
    end).

(** ** External accounts *)

Definition createExternalAccount (accountId : string) (data : json) : BApp ExternalAccountResult :=
  let* acc := guarded_account accountId in
  returned (
    let* customerId := bridge_customer acc in
    let* key := svc randomUUID in
    let* x := api_createExternalAccount customerId data key in
    let* record := BridgeAccountsRepo.createExternalAccount accountId (xa_id x)
      (default EmptyString (xa_bank_name x)) (bridgeExternalAccountLast4 x) XVerified in
    pret (externalAccountResultFromRecord record)).

Definition external_not_found : error :=
  new_error BridgeError "External account not found for this account".

(** The account among those Bridge reports now. *)
Definition synced_target (acc : account) (accountId externalAccountId : string) :
    BApp (string * ExternalAccountResult) :=
  let* customerId := bridge_customer acc in
  let* externals := syncExternalAccountsFromBridge accountId customerId in
  match find_target externalAccountId externals with
  | None => pfail external_not_found
  | Some x => pret (customerId, x)
  end.

Definition setDefaultExternalAccount (accountId externalAccountId : string) :
    BApp ExternalAccountResult :=
  let* acc := guarded_account accountId in
  returned (
    synced_target acc accountId externalAccountId ;;;
    let* record := BridgeAccountsRepo.setDefaultExternalAccount accountId externalAccountId in
    pret (externalAccountResultFromRecord record)).

Definition deleteExternalAccount (accountId externalAccountId : string) : BApp ExternalAccountResult :=
  let* acc := guarded_account accountId in
  returned (
    let* target := synced_target acc accountId externalAccountId in
    api_deleteExternalAccount target.1 externalAccountId ;;;
    let* record := BridgeAccountsRepo.deleteExternalAccount accountId externalAccountId in
    pret (externalAccountResultFromRecord record)).

Definition getExternalAccounts (accountId : string) : BApp (list ExternalAccountResult) :=
  let* acc := guarded_account accountId in
  returned (
    let* customerId := bridge_customer acc in
    syncExternalAccountsFromBridge accountId customerId).

(** ** Withdrawals *)

(** The balance of the USDT wallet of an account, and the wallet. *)
Definition usdt_wallet (accountId : string) : BApp wallet :=
  let* wallets := svc (listByAccountId accountId) in
  match usdt_checking wallets with
  | None => pfail (new_error BridgeInsufficientFundsError "No USDT wallet found on account")
  | Some wl => pret wl
  end.

Definition usdt_balance (balance : MoneyAmount) : BApp MoneyAmount :=
  if bool_decide (currencyCode balance = Usdt) then pret balance
  else pfail (new_error BridgeInsufficientFundsError "Invalid balance type").

Definition insufficient (available : js_num) (requested : string) : error :=
  new_error BridgeInsufficientFundsError
    ("Insufficient USDT balance: available " +:+ num_toString available +:+ ", requested " +:+ requested).

(** The pending row: the one that is there, or a new one. *)
Definition pending_row (accountId amount externalAccountId : string) (fees : CustomerFeeEstimate) :
    BApp withdrawal :=
  let* existing := BridgeAccountsRepo.findPendingWithdrawalWithoutTransfer accountId externalAccountId amount in
  let* row := pattempt (match existing with
    | Some w => BridgeAccountsRepo.updateWithdrawalFeeEstimates (wd_id w) fees
    | None =>
        let* w := BridgeAccountsRepo.createWithdrawal accountId amount "usdt" externalAccountId fees in
        if nonempty (estimatedCustomerFee (wd_fees w)) then pret w
        else BridgeAccountsRepo.updateWithdrawalFeeEstimates (wd_id w) fees
    end) in
  match row with
  | inr w => pret w
  | inl e => pfail (asBridgeRequestWithdrawalError e)
  end.

Definition requestWithdrawal (accountId amount externalAccountId : string) :
    BApp PresentedBridgeWithdrawal :=
  let* acc := guarded_account accountId in
  pcatch (
    let* customerId := requireApprovedBridgeCustomer acc in
    if negb (truthy (a_bridgeEthereumAddress acc))
    then pfail (new_error JsError "Account has no Ethereum address. Create virtual account first.") else
    let* wl := usdt_wallet accountId in
    let* balance := pattempt (getBalanceForWallet (wl_id wl) Usdt) in
    let* balance := match balance with
                    | inr b => pret b
                    | inl e => pfail (asBridgeRequestWithdrawalError e)
                    end in
    let* balance := usdt_balance balance in
    let withdrawalAmount := parseFloat amount in
    if fl_isNaN withdrawalAmount || fl_leb withdrawalAmount (Fin (num_of_Z 0))
    then pfail (new_error BridgeInsufficientFundsError "Invalid withdrawal amount") else
    let* available := ibex_number balance in
    if fl_ltb (Fin available) withdrawalAmount
    then pfail (insufficient available (fl_toString withdrawalAmount)) else
    let* externals := syncExternalAccountsFromBridge accountId customerId in
    match find_target externalAccountId externals with
    | None => pfail external_not_found
    | Some x =>
        if negb (bool_decide (xr_status x = XVerified))
        then pfail (new_error BridgeError "External account is not verified") else
        let* fees := resolveWithdrawalCustomerFeeEstimate amount in
        if fl_leb withdrawalAmount (parseFloat (estimatedCustomerFee fees))
        then pfail (new_error BridgeWithdrawalNetAmountTooLowError
          ("Withdrawal amount " +:+ amount +:+ " must exceed estimated customer fees "
             +:+ estimatedCustomerFee fees)) else
        let* row := pending_row accountId amount externalAccountId fees in
        pret (presentBridgeWithdrawal row (Some fees))
    end)
  (fun e => pfail (asBridgeRequestWithdrawalError e)).

(** The result of the update is not looked at; the customer is told when it
    succeeded. *)
Definition markWithdrawalSendFailed (accountId withdrawalId : string) (transfer : Transfer)
    (address reason : string) : BApp unit :=
  let* updated := pattempt (BridgeAccountsRepo.updateWithdrawalSendFailed withdrawalId (tr_id transfer)
    (tr_amount transfer) (tr_currency transfer) address reason) in
  match updated with
  | inr _ => sendBridgeWithdrawalNotificationBestEffort accountId (tr_amount transfer)
               (tr_currency transfer) "failed" (Some reason)
  | inl _ => pret tt
  end.

Definition withdrawal_not_found : error :=
  new_error BridgeWithdrawalNotFoundError "Withdrawal request not found".
Definition withdrawal_initiated : error := new_error BridgeWithdrawalAlreadyInitiatedError
  "Withdrawal has already been submitted to Bridge and cannot be cancelled".

(** A row of the account, by its id. *)
Definition own_withdrawal (accountId withdrawalId : string) : BApp withdrawal :=
  let* row := pattempt (BridgeAccountsRepo.findWithdrawalById withdrawalId) in
  match row with
  | inl _ => pfail withdrawal_not_found
  | inr w => if bool_decide (wd_accountId w = accountId) then pret w else pfail withdrawal_not_found
  end.

(** A step after the submission whose error marks the row. *)
Definition or_mark_failed {A} (accountId withdrawalId : string) (transfer : Transfer)
    (address : string) (c : BApp A) : BApp A :=
  let* r := pattempt c in
  match r with
  | inr a => pret a
  | inl e => markWithdrawalSendFailed accountId withdrawalId transfer address (err_message e) ;;; pfail e
  end.

(** From the submitted row to the answer of IBEX. *)
Definition send_usdt (accountId withdrawalId walletId : string) (transfer : Transfer) (address : string)
    (amount : MoneyAmount) : BApp json :=
  let* requirementsId := or_mark_failed accountId withdrawalId transfer address
    (getCryptoSendRequirements "ethereum" USDT_CURRENCY_ID) in
  let* infoId := or_mark_failed accountId withdrawalId transfer address
    (createCryptoSendInfo ("bridge-withdrawal-" +:+ withdrawalId) requirementsId address) in
  let* infoId := or_mark_failed accountId withdrawalId transfer address
    (if truthy infoId then pret (default EmptyString infoId)
     else pfail (new_error JsError "IBEX crypto send info did not return id")) in
  let* number := ibex_number amount in
  or_mark_failed accountId withdrawalId transfer address (sendCrypto walletId infoId number).

(** The audit payload of a withdrawal on its way. *)
Definition sent_payload (w : withdrawal) (transferId : string) (payoutId : option string) : string :=
  json_stringify (object [("withdrawalId", Some (JStr (wd_id w))); ("bridgeTransferId", Some (JStr transferId));
    ("ibexPayoutId", jtext payoutId); ("ibexTxHash", jtext (wd_ibexTxHash w))]).

(** After the send: the row, the customer and the audit. *)
Definition record_sent (accountId withdrawalId : string) (transfer : Transfer) (sendResult : json) :
    BApp PresentedBridgeWithdrawal :=
  let payoutId := ibexPayoutIdFromSendResponse sendResult in
  let* updated := BridgeAccountsRepo.updateWithdrawalOnchainSend withdrawalId payoutId
    (ibexTxHashFromSendResponse sendResult) in
  sendBridgeWithdrawalNotificationBestEffort accountId (wd_amount updated) (wd_currency updated)
    "usdt_sent" None ;;;
  pattempt (top (writeBridgeCashoutPending (tr_id transfer) (tr_amount transfer) (tr_currency transfer)
    (Some accountId) (Some (wd_id updated)) "bridge.withdrawal.usdt_sent"
    (sent_payload updated (tr_id transfer) payoutId))) ;;;
  pret (presentBridgeWithdrawal updated None).

Definition initiateWithdrawal (accountId withdrawalId : string) : BApp PresentedBridgeWithdrawal :=
  let* acc := guarded_account accountId in
  returned (
    let* customerId := requireApprovedBridgeCustomer acc in
    let* row := own_withdrawal accountId withdrawalId in
    if negb (bool_decide (wd_status row = WPending)) || truthy (wd_bridgeTransferId row)
       || truthy (wd_ibexPayoutId row)
    then pfail withdrawal_initiated else
    let* externals := syncExternalAccountsFromBridge accountId customerId in
    match find_target (wd_externalAccountId row) externals with
    | None => pfail (new_error JsError "External account not found")
    | Some _ =>
        let* wl := usdt_wallet accountId in
        let* balance := getBalanceForWallet (wl_id wl) Usdt in
        let* balance := usdt_balance balance in
        let* available := ibex_number balance in
        if fl_ltb (Fin available) (parseFloat (wd_amount row))
        then pfail (insufficient available (wd_amount row)) else
        let* sendAmount := Done (USDT_fromNumber (wd_amount row)) in
        let* transfer := api_createTransfer customerId
          (mkTransferRequest (wd_amount row) customerId (flashFee (wd_fees row)) (wd_externalAccountId row))
          (deriveWithdrawalIdempotencyKey (wd_id row)) in
        if negb (truthy (tr_to_address transfer))
        then pfail (new_error BridgeDepositInstructionsMissingError
          "Bridge did not return crypto deposit instructions for this withdrawal") else
        let address := default EmptyString (tr_to_address transfer) in
        coerce (receipt_texts (tr_receipt transfer)) ;;;
        BridgeAccountsRepo.updateWithdrawalTransferId (wd_id row) (tr_id transfer) (tr_amount transfer)
          (tr_currency transfer) (Some address) (receiptFeesFromTransfer (tr_receipt transfer)) ;;;
        sendBridgeWithdrawalNotificationBestEffort accountId (tr_amount transfer) (tr_currency transfer)
          "submitted" None ;;;
        let* sendResult := send_usdt accountId (wd_id row) (wl_id wl) transfer address sendAmount in
        record_sent accountId (wd_id row) transfer sendResult
    end).

Record CancelWithdrawalResult := mkCancelResult {
  cr_id : string;
  cr_amount : string;
  cr_currency : string;
  cr_status : string;
  cr_createdAt : Z
}.

Definition cancelWithdrawalRequest (accountId withdrawalId : string) : BApp CancelWithdrawalResult :=
  guarded_account accountId ;;;
  returned (
    let* row := own_withdrawal accountId withdrawalId in
    if truthy (wd_bridgeTransferId row) then pfail withdrawal_initiated else
    let* cancelled := pattempt (BridgeAccountsRepo.cancelWithdrawal accountId withdrawalId) in
    match cancelled with
    | inl _ => pfail withdrawal_not_found
    | inr w =>
        sendBridgeWithdrawalNotificationBestEffort accountId (wd_amount w) (wd_currency w) "cancelled" None ;;;
        pret (mkCancelResult (wd_id w) (wd_amount w) (wd_currency w) (withdrawal_status (wd_status w))
                (wd_createdAt w))
    end).

Definition getWithdrawals (accountId : string) : BApp (list PresentedBridgeWithdrawal) :=
  guarded_account accountId ;;;
  returned (
    let* withdrawals := BridgeAccountsRepo.findWithdrawalsByAccountId accountId in
    pret (map (fun w => presentBridgeWithdrawal w None)
      (List.filter (fun w => bool_decide (is_Some (wd_bridgeTransferId w))) withdrawals))).

(** ** Status queries *)

(** Bridge's status, in the terms of the account. *)
Definition kyc_status_text (status : option string) : string :=
  match status with
  | Some "active" => "approved"
  | Some s =>
      if bool_decide (s ∈ ["awaiting_questionnaire"; "not_started"; "incomplete"; "under_review";
           "rejected"; "offboarded"; "paused"; "awaiting_ubo"])
      then s else "open"
  | None => "open"
  end.

(** The virtual account of an approved customer, recorded or created ahead of
    its first use; what goes wrong is only logged. *)
Definition ensure_virtual_account (acc : account) (accountId customerId : string) : BApp unit :=
  let* virtuals := api_getVirtualAccountByCustomerId customerId in
  let* existingVa := pattempt (BridgeAccountsRepo.findVirtualAccountByAccountId accountId) in
  match list_find (fun va => va_destination_address va = a_bridgeEthereumAddress acc) virtuals with
  | Some (_, va) =>
      if bool_decide (va_status va = Some "activated") then
        match existingVa with
        | inr _ => pret tt
        | inl _ =>
            let number := default EmptyString (va_bank_account_number va) in
            pattempt (BridgeAccountsRepo.createVirtualAccount accountId (va_id va)
              (default EmptyString (va_bank_name va)) (default EmptyString (va_bank_routing_number va))
              number (last4 number)) ;;; pret tt
        end
      else pattempt (createVirtualAccount accountId) ;;; pret tt
  | None => pattempt (createVirtualAccount accountId) ;;; pret tt
  end.

Definition getKycStatus (accountId : string) : BApp (option string) :=
  let* acc := guarded_account accountId in
  if negb (truthy (a_bridgeCustomerId acc)) then pret None else
  let customerId := default EmptyString (a_bridgeCustomerId acc) in
  returned (
    let* status := api_getCustomer customerId in
    let kycStatus := kyc_status_text status in
    (if bool_decide (kyc_status_of acc = Some kycStatus) then pret tt
     else updateBridgeFields accountId None (Some kycStatus) None ;;; pret tt) ;;;
    (if bool_decide (kycStatus = "approved") then ensure_virtual_account acc accountId customerId
     else pret tt) ;;;
    pret (Some kycStatus)).

(** A virtual account Bridge no longer has active is removed. *)
Definition getVirtualAccount (accountId : string) : BApp (option CreateVirtualAccountResult) :=
  let* acc := guarded_account accountId in
  returned (
    let* v := pattempt (BridgeAccountsRepo.findVirtualAccountByAccountId accountId) in
    match v with
    | inl _ => pret None
    | inr v =>
        let* va := api_getVirtualAccount (a_bridgeCustomerId acc) (v_bridgeVirtualAccountId v) in
        if bool_decide (va_status va = Some "activated") then pret (Some (virtual_result v))
        else BridgeAccountsRepo.deleteVirtualAccount (v_bridgeVirtualAccountId v) ;;; pret None
    end).

End BridgeService.
