(* ===== verification/Referrals.v ===== *)
(** * Invites and referral rewards

    Model of [src/src/app/invite]: [createInvite], the reward paid to both
    parties when the invited one is approved by Bridge
    ([award-referral-reward.ts]) and its notifications; of
    [domain/invite/referral-reward.ts] and [domain/invite/index.ts]; of the
    redemption in [graphql/public/root/mutation/redeem-invite.ts], and of the
    operators' [app/admin/invite.ts]. A document that is read, changed and saved
    is two calls of the database, and other calls may run in between. *)

From stdpp Require Import base gmap list strings.
From Stdlib Require Import ZArith Lia Ascii.
From S2P Require Import Prelude JsStrings JsNumbers JsDecimals Processes Errors World.
From S2P Require Import MoneyAmounts Ibex Repos TopupWorld TransferRequests PaymentIdempotency FygaroWebhook.
From S2P Require Import FygaroCheckout BridgeWorld BridgeRepo.

Open Scope Z_scope.
Open Scope flash_scope.

(** ** The amount of a reward *)

Fixpoint tier_for (tiers : list ReferralRewardTier) (seq : Z) : option Z :=
  match tiers with
  | [] => None
  | t :: tiers' =>
      if (0 <? upToCount t) && (seq <=? upToCount t) then Some (amountCents t) else tier_for tiers' seq
  end.

(** Past every bound the last tier applies if it has none. *)
Definition referralRewardAmountCents (tiers : list ReferralRewardTier) (seq : Z) : Z :=
  match tier_for tiers seq with
  | Some cents => cents
  | None =>
      match last tiers with
      | Some t => if upToCount t <=? 0 then amountCents t else 0
      | None => 0
      end
  end.

(** ** Updates of an invite *)

(** [$set] of the fields of a reward; one that is absent stays. *)
Record reward_update := mkRewardUpdate {
  ru_status : RewardStatus;
  ru_seq : option Z;
  ru_amountCents : option Z;
  ru_rewardedAt : option Z;
  ru_inviterRewardedAt : option Z;
  ru_inviteeRewardedAt : option Z;
  ru_error : option string
}.

Definition with_reward (u : reward_update) (i : invite) : invite :=
  mkInvite (iv_id i) (iv_contact i) (iv_method i) (iv_tokenHash i) (iv_inviterId i) (iv_status i)
    (iv_createdAt i) (iv_expiresAt i) (iv_redeemedAt i) (iv_redeemedById i) (iv_revokedAt i)
    (iv_revokeReason i) (Some (ru_status u)) (or_keep (ru_seq u) (iv_rewardSeq i))
    (or_keep (ru_amountCents u) (iv_rewardAmountCents i)) (iv_rewardClaimedAt i)
    (or_keep (ru_rewardedAt u) (iv_rewardedAt i))
    (or_keep (ru_inviterRewardedAt u) (iv_inviterRewardedAt i))
    (or_keep (ru_inviteeRewardedAt u) (iv_inviteeRewardedAt i)) (or_keep (ru_error u) (iv_rewardError i)).

Definition with_claim (at_ : Z) (i : invite) : invite :=
  mkInvite (iv_id i) (iv_contact i) (iv_method i) (iv_tokenHash i) (iv_inviterId i) (iv_status i)
    (iv_createdAt i) (iv_expiresAt i) (iv_redeemedAt i) (iv_redeemedById i) (iv_revokedAt i)
    (iv_revokeReason i) (Some RewardProcessing) (iv_rewardSeq i) (iv_rewardAmountCents i) (Some at_)
    (iv_rewardedAt i) (iv_inviterRewardedAt i) (iv_inviteeRewardedAt i) (iv_rewardError i).

(** What a save writes: the paths that were changed. *)
Definition with_invite_status (status : InviteStatus) (i : invite) : invite :=
  mkInvite (iv_id i) (iv_contact i) (iv_method i) (iv_tokenHash i) (iv_inviterId i) status
    (iv_createdAt i) (iv_expiresAt i) (iv_redeemedAt i) (iv_redeemedById i) (iv_revokedAt i)
    (iv_revokeReason i) (iv_rewardStatus i) (iv_rewardSeq i) (iv_rewardAmountCents i)
    (iv_rewardClaimedAt i) (iv_rewardedAt i) (iv_inviterRewardedAt i) (iv_inviteeRewardedAt i)
    (iv_rewardError i).

Definition with_redemption (accountId : string) (at_ : Z) (i : invite) : invite :=
  mkInvite (iv_id i) (iv_contact i) (iv_method i) (iv_tokenHash i) (iv_inviterId i) InviteAccepted
    (iv_createdAt i) (iv_expiresAt i) (Some at_) (Some accountId) (iv_revokedAt i)
    (iv_revokeReason i) (iv_rewardStatus i) (iv_rewardSeq i) (iv_rewardAmountCents i)
    (iv_rewardClaimedAt i) (iv_rewardedAt i) (iv_inviterRewardedAt i) (iv_inviteeRewardedAt i)
    (iv_rewardError i).

Definition with_revocation (reason : option string) (at_ : Z) (i : invite) : invite :=
  mkInvite (iv_id i) (iv_contact i) (iv_method i) (iv_tokenHash i) (iv_inviterId i) InviteExpired
    (iv_createdAt i) (iv_expiresAt i) (iv_redeemedAt i) (iv_redeemedById i) (Some at_)
    reason (iv_rewardStatus i) (iv_rewardSeq i) (iv_rewardAmountCents i)
    (iv_rewardClaimedAt i) (iv_rewardedAt i) (iv_inviterRewardedAt i) (iv_inviteeRewardedAt i)
    (iv_rewardError i).

Definition with_extension (expiresAt : Z) (i : invite) : invite :=
  mkInvite (iv_id i) (iv_contact i) (iv_method i) (iv_tokenHash i) (iv_inviterId i) InvitePending
    (iv_createdAt i) expiresAt (iv_redeemedAt i) (iv_redeemedById i) (iv_revokedAt i)
    (iv_revokeReason i) (iv_rewardStatus i) (iv_rewardSeq i) (iv_rewardAmountCents i)
    (iv_rewardClaimedAt i) (iv_rewardedAt i) (iv_inviterRewardedAt i) (iv_inviteeRewardedAt i)
    (iv_rewardError i).

(** The unique indexes: of the token, and of the account that redeemed. *)
Definition invite_clash (i j : invite) : bool :=
  bool_decide (iv_tokenHash i = iv_tokenHash j) || same_text (iv_redeemedById i) (iv_redeemedById j).

Definition invite_indexed (i : invite) (is_ : gmap string invite) : bool :=
  forallb (fun p => bool_decide (p.1 = iv_id i) || negb (invite_clash i p.2)) (map_to_list is_).

Definition save_invite (i : invite) (s : bridge_store) : outcome error unit * bridge_store :=
  if invite_indexed i (s_invites s) then (Ok tt, set_invites (<[iv_id i := i]> (s_invites s)) s)
  else (Throw duplicate_key, s).

(** An update by id; of a document that is gone it updates nothing. *)
Definition update_invite (id : string) (f : invite -> invite) (s : bridge_store) :
    outcome error unit * bridge_store :=
  match s_invites s !! id with
  | Some i => save_invite (f i) s
  | None => (Ok tt, s)
  end.

(** [invite.save()] of a document that is gone throws. *)
Definition resave_invite (id : string) (f : invite -> invite) (s : bridge_store) :
    outcome error unit * bridge_store :=
  match s_invites s !! id with
  | Some i => save_invite (f i) s
  | None => (Throw (new_error JsError "No document found for query"), s)
  end.

Definition find_invite (filter : invite -> bool) (s : bridge_store) : option invite :=
  snd ∘ snd <$> list_find (fun p => filter p.2 = true) (map_to_list (s_invites s)).

(** ** The reward *)

Inductive PartyPayResult := PartyPaid | PartyPending | PartyFailed.

#[global] Instance PartyPayResult_eq_dec : EqDecision PartyPayResult.
Proof. solve_decision. Defined.

Definition party_text (p : PartyPayResult) : string :=
  match p with PartyPaid => "paid" | PartyPending => "pending" | PartyFailed => "failed" end.

Definition moved (p : PartyPayResult) : bool := negb (bool_decide (p = PartyFailed)).

(** The status of the invite after both payments. *)
Definition reward_status (inviter invitee : PartyPayResult) : RewardStatus :=
  match inviter, invitee with
  | PartyPaid, PartyPaid => RewardPaid
  | PartyFailed, PartyFailed => RewardFailed
  | PartyFailed, _ | _, PartyFailed => RewardPartial
  | _, _ => RewardPending
  end.

Definition bool_text (b : bool) : string := if b then "true" else "false".

Definition REWARDS_ROLE : string := "rewards".

(** The phrase and data of a reward notification. *)
Definition reward_notification (accountId leg : string) (cents : Z) : notification :=
  mkNotification accountId ("notification.referral." +:+ leg +:+ ".body") ("referral_" +:+ leg)
    (formatFygaroAmount cents) [("amountCents", bigint_toString cents)].

Section Referrals.
Context `{X : BridgeExternal}.

(** [nextReferralRewardSeq] *)
Definition nextReferralRewardSeq : BApp Z :=
  collection (fun s => let n := s_rewardSeq s + 1 in (Ok n, set_rewardSeq n s)).

Definition markReward (inviteId : string) (u : reward_update) : BApp unit :=
  collection (update_invite inviteId (with_reward u)).

(** Notifications of this flow never throw. *)
Definition notify_quietly (n : notification) : BApp unit := 
  pcatch (notify_account (n_accountId n) (Ok n)) (fun _ => pret tt).

Definition party_result (r : error + status_ref) : PartyPayResult :=
  match r with
  | inl _ => PartyFailed
  | inr s => if same_object s PaymentSuccess then PartyPaid
             else if same_object s PaymentPending then PartyPending else PartyFailed
  end.

Definition payParty (senderWalletId : string) (recipientWalletId : option string) (amount : Z)
    (memo : string) : BApp PartyPayResult :=
  match nonempty_opt recipientWalletId with
  | None => pret PartyFailed
  | Some recipient =>
      let* result := pattempt (top (intraledgerPaymentSendWalletIdForUsdWallet
        (mkSendArgs senderWalletId recipient amount (Some memo) None))) in
      pret (party_result result)
  end.

(** The claim is downgraded when something throws, with what was paid by then. *)
Definition downgrade (inviteId : string) (seq : option Z) (inviter invitee : PartyPayResult) (e : error) :
    BApp unit :=
  let* at_ := now in
  markReward inviteId (mkRewardUpdate
    (if moved inviter || moved invitee then RewardPartial else RewardFailed) seq None None
    (if moved inviter then Some at_ else None) (if moved invitee then Some at_ else None)
    (Some ("unexpected: " +:+ error_String e +:+ " (inviter=" +:+ party_text inviter +:+ " invitee="
             +:+ party_text invitee +:+ ")"))).

(** A step of the payout: an exception goes to [downgrade]. *)
Definition or_downgrade {A} (inviteId : string) (seq : option Z) (inviter invitee : PartyPayResult)
    (c : BApp A) (k : A -> BApp unit) : BApp unit :=
  let* r := pcapture c in
  match r with
  | Ok a => k a
  | Err e | Throw e => downgrade inviteId seq inviter invitee e
  end.

(** The outcome that ends a payout before it starts. *)
Definition payout_failed (seq amount : Z) (reason : string) : reward_update :=
  mkRewardUpdate RewardFailed (Some seq) (Some amount) None None None (Some reason).

Definition payout_done (seq amount at_ : Z) (inviter invitee : PartyPayResult) (currency : WalletCurrency)
    (inviterWallet inviteeWallet : option string) : reward_update :=
  let status := reward_status inviter invitee in
  mkRewardUpdate status (Some seq) (Some amount)
    (if bool_decide (status = RewardPaid) then Some at_ else None)
    (if moved inviter then Some at_ else None) (if moved invitee then Some at_ else None)
    (if bool_decide (status = RewardPaid) then None
     else Some ("inviter=" +:+ party_text inviter +:+ " invitee=" +:+ party_text invitee +:+ " currency="
       +:+ currency_name currency +:+ " inviterWallet=" +:+ bool_text (truthy inviterWallet)
       +:+ " inviteeWallet=" +:+ bool_text (truthy inviteeWallet))).

(** The wallet rewards are paid from: USDT, else US dollars. *)
Definition rewards_wallet (wallets : list wallet) : option wallet :=
  match wallet_in Usdt wallets with Some wl => Some wl | None => wallet_in Usd wallets end.

Definition wallet_id_in (currency : WalletCurrency) (accountId : string) : BApp (option string) :=
  let* wallets := top (walletsFor accountId) in
  pret (wl_id <$> wallet_in currency wallets).

(** The two payments, and the mark that ends them. *)
Definition pay_both (accountId : string) (i : invite) (seq amount : Z) (funding : wallet)
    (inviterId inviteeId : string) : BApp unit :=
  let id := iv_id i in
  or_downgrade id (Some seq) PartyFailed PartyFailed (wallet_id_in (wl_currency funding) inviterId)
    (fun inviterWallet =>
  or_downgrade id (Some seq) PartyFailed PartyFailed (wallet_id_in (wl_currency funding) inviteeId)
    (fun inviteeWallet =>
  let memo := "Flash referral reward (#" +:+ bigint_toString seq +:+ ")" in
  or_downgrade id (Some seq) PartyFailed PartyFailed (payParty (wl_id funding) inviterWallet amount memo)
    (fun inviter =>
  or_downgrade id (Some seq) inviter PartyFailed (payParty (wl_id funding) inviteeWallet amount memo)
    (fun invitee =>
  let* at_ := now in
  or_downgrade id (Some seq) inviter invitee
    (markReward id (payout_done seq amount at_ inviter invitee (wl_currency funding) inviterWallet
       inviteeWallet))
    (fun _ =>
  (if bool_decide (inviter = PartyPaid)
   then notify_quietly (reward_notification inviterId "inviterReward" amount) else pret tt) ;;;
  (if bool_decide (invitee = PartyPaid)
   then notify_quietly (reward_notification accountId "inviteeReward" amount) else pret tt)))))).

(** From the claim on. *)
Definition award_claimed (accountId : string) (i : invite) : BApp unit :=
  let id := iv_id i in
  or_downgrade id None PartyFailed PartyFailed nextReferralRewardSeq (fun seq =>
  let amount := referralRewardAmountCents referral_tiers seq in
  if amount <=? 0 then
    or_downgrade id (Some seq) PartyFailed PartyFailed
      (let* at_ := now in
       markReward id (mkRewardUpdate RewardPaid (Some seq) (Some 0) (Some at_) None None None)) pret
  else
    or_downgrade id (Some seq) PartyFailed PartyFailed (pattempt (svc (findByRole REWARDS_ROLE)))
      (fun rewardsAccount =>
    match rewardsAccount with
    | inl _ => or_downgrade id (Some seq) PartyFailed PartyFailed
                 (markReward id (payout_failed seq amount "rewards account not configured")) pret
    | inr acc =>
        or_downgrade id (Some seq) PartyFailed PartyFailed (top (walletsFor (a_id acc))) (fun wallets =>
        match rewards_wallet wallets with
        | None => or_downgrade id (Some seq) PartyFailed PartyFailed
                    (markReward id (payout_failed seq amount "rewards account has no USDT or USD wallet")) pret
        | Some funding =>
            pay_both accountId i seq amount funding (iv_inviterId i)
              (default accountId (iv_redeemedById i))
        end)
    end)).

Definition redeemed_by (accountId : string) (i : invite) : bool :=
  bool_decide (iv_redeemedById i = Some accountId).

(** [findOneAndUpdate({ _id, rewardStatus: { $exists: false } }, ...)] *)
Definition claim_invite (id : string) (at_ : Z) (s : bridge_store) :
    outcome error (option invite) * bridge_store :=
  match s_invites s !! id with
  | Some i =>
      if bool_decide (iv_rewardStatus i = None) then
        let '(o, s') := save_invite (with_claim at_ i) s in (outcome_map (fun _ => Some (with_claim at_ i)) o, s')
      else (Ok None, s)
  | None => (Ok None, s)
  end.

Definition awardReferralRewardOnKycApproval (accountId : string) : BApp unit :=
  pcatch (
    if negb referral_enabled then pret tt else
    let* alreadyProcessed := query (find_invite (fun i =>
      redeemed_by accountId i && bool_decide (is_Some (iv_rewardStatus i)))) in
    match alreadyProcessed with
    | Some _ => pret tt
    | None =>
        let* pending := query (find_invite (fun i =>
          redeemed_by accountId i && bool_decide (iv_status i = InviteAccepted)
          && bool_decide (iv_rewardStatus i = None))) in
        match pending with
        | None => pret tt
        | Some p =>
            let* at_ := now in
            let* i := collection (claim_invite (iv_id p) at_) in
            match i with
            | None => pret tt
            | Some i => award_claimed accountId i
            end
        end
    end)
  (fun _ => pret tt).

End Referrals.
