(* ===== verification/Invites.v ===== *)
(** * Invites

    Model of [src/src/app/invite/index.ts], [rate-limits.ts] and [queries.ts], of
    the validations of [src/src/domain/invite], of the redemption and the preview
    in [graphql/public/root], and of the operators' [app/admin/invite.ts]. A
    document that is read, changed and saved is two calls of the database, and
    other calls may run in between. *)

From stdpp Require Import base gmap list strings.
From Stdlib Require Import ZArith Lia Ascii.
From S2P Require Import Prelude JsStrings JsNumbers JsDecimals Processes Errors World.
From S2P Require Import Ibex Repos TopupWorld TransferRequests FygaroCheckout FygaroIntents.
From S2P Require Import BridgeWorld BridgeRepo Referrals.

Open Scope Z_scope.
Open Scope flash_scope.

Definition INVITE_EXPIRY_HOURS : Z := 24.
Definition NEW_USER_INVITE_WINDOW_HOURS : Z := 24.
Definition INVITE_TOKEN_LENGTH : nat := 40.

(** ** Validation *)

Fixpoint all_chars (p : ascii -> bool) (s : string) : bool :=
  match s with
  | EmptyString => true
  | String c s' => p c && all_chars p s'
  end.

(** [[^\s@]] *)
Definition email_char (c : ascii) : bool := negb (js_space c) && negb (Ascii.eqb c "@").

(** A dot with a character on both sides of it. *)
Fixpoint dot_inside (s : string) : bool :=
  match s with
  | EmptyString => false
  | String c s' =>
      match s' with
      | String d (String _ _) => is_dot d || dot_inside s'
      | _ => false
      end
  end.

(** [/^[^\s@]+@[^\s@]+\.[^\s@]+$/] *)
Definition validateEmail (email : string) : bool :=
  match index_of "@" email with
  | None => false
  | Some n =>
      let local := str_take n email in
      let domain := str_drop (S n) email in
      nonempty local && all_chars email_char local && all_chars email_char domain && dot_inside domain
  end.

(** [/^\+[1-9]\d{7,14}$/] *)
Definition validatePhone (phone : string) : bool :=
  match phone with
  | String plus (String d rest) =>
      Ascii.eqb plus "+" && is_digit d && negb (is_zero d) && all_digits rest
      && (7 <=? slen rest) && (slen rest <=? 14)
  | _ => false
  end.

Definition validateContactForMethod (contact : string) (method : InviteMethod) : outcome error unit :=
  match method with
  | EMAIL => if validateEmail contact then Ok tt else Err (new_error ValidationError "Invalid email format")
  | SMS | WHATSAPP =>
      if validatePhone contact then Ok tt else Err (new_error ValidationError "Invalid phone number format")
  end.

(** [/[a-f0-9]/i] *)
Definition hex_char (c : ascii) : bool :=
  is_digit c || (let l := nat_of_ascii (lower_char c) in (97 <=? l)%nat && (l <=? 102)%nat).

Definition checkedToInviteToken (token : string) : outcome error string :=
  if negb (nonempty token) || negb (bool_decide (String.length token = INVITE_TOKEN_LENGTH))
  then Err (new_error ValidationError "Invalid invitation token length")
  else if negb (all_chars hex_char token)
  then Err (new_error ValidationError "Invalid invitation token format")
  else Ok token.

(** ** Queries of the collection *)

Definition new_invite (id contact : string) (method : InviteMethod) (tokenHash inviterId : string)
    (createdAt expiresAt : Z) : invite :=
  mkInvite id contact method tokenHash inviterId InvitePending createdAt expiresAt None None None None
    None None None None None None None None.

Definition open_invite (inviterId contact : string) (i : invite) : bool :=
  bool_decide (iv_inviterId i = inviterId) && bool_decide (iv_contact i = contact)
  && (bool_decide (iv_status i = InvitePending) || bool_decide (iv_status i = InviteSent)).

Definition insert_invite (i : invite) (s : bridge_store) : outcome error unit * bridge_store :=
  match s_invites s !! iv_id i with
  | Some _ => (Throw duplicate_key, s)
  | None => save_invite i s
  end.

Definition delete_invite (id : string) (s : bridge_store) : outcome error unit * bridge_store :=
  (Ok tt, set_invites (delete id (s_invites s)) s).

Definition unknown_repository (e : error) : error := new_error UnknownRepositoryError (err_message e).

(** What the statistics count for one invite. *)
Record ReferralStats := mkStats {
  totalInvites : Z;
  acceptedCount : Z;
  totalEarnedCents : Z;
  pendingRewardCount : Z
}.

Definition count_if (b : bool) : Z := if b then 1 else 0.

Definition add_stats (i : invite) (t : ReferralStats) : ReferralStats :=
  let accepted := bool_decide (iv_status i = InviteAccepted) in
  let own_leg := bool_decide (is_Some (iv_inviterRewardedAt i)) in
  mkStats (totalInvites t + 1) (acceptedCount t + count_if accepted)
    (totalEarnedCents t + (if own_leg then default 0 (iv_rewardAmountCents i) else 0))
    (pendingRewardCount t + count_if (accepted && negb own_leg
       && negb (bool_decide (iv_rewardStatus i = Some RewardPaid)))).

Definition invites_of (inviterId : string) (s : bridge_store) : list invite :=
  filter (fun i => iv_inviterId i = inviterId) (snd <$> map_to_list (s_invites s)).

(** The answer of a redemption: [{ success, errors }]. *)
Record redeem_payload := mkRedeem { rp_success : bool; rp_errors : list string }.

Definition redeem_refused (message : string) : redeem_payload := mkRedeem false [message].

Definition phone_method (m : InviteMethod) : bool := negb (bool_decide (m = EMAIL)).

(** Whether the phone of the user is the contact of the invite. *)
Definition contact_matches (i : invite) (phone : option string) : bool :=
  negb (phone_method (iv_method i))
  || match str_lower <$> phone with
     | Some p => nonempty p && bool_decide (p = str_lower (iv_contact i))
     | None => false
     end.

Record invite_preview := mkPreview {
  pv_contact : string;
  pv_method : InviteMethod;
  pv_inviterUsername : string;
  pv_expiresAt : Z;
  pv_isValid : bool
}.

Definition accepted_notification (inviterId : string) (inviteeName : option string) : notification :=
  mkNotification inviterId
    (if truthy inviteeName then "notification.referral.accepted.body"
     else "notification.referral.accepted.bodyNoName")
    "referral_accepted" (default EmptyString inviteeName) [].

Section Invites.
Context `{X : BridgeExternal}.

(** ** services/rate-limit *)

Definition limiter_consume (keyPrefix key : string) : BApp unit :=
  let* n := bpeek b_fetches in
  bpoke next_fetch ;;;
  match rate_limiter keyPrefix key n with
  | LimiterOk => pret tt
  | LimiterExceeded => pfail (new_error0 RateLimiterExceededError)
  | LimiterFault msg => pfail (new_error UnknownRateLimitServiceError msg)
  end.

Definition consumeLimiter (keyPrefix : string) (limit_error : error_class) (key : string) : BApp unit :=
  let* consume := pattempt (limiter_consume keyPrefix key) in
  match consume with
  | inl e => if bool_decide (err_class e = RateLimiterExceededError) then pfail (new_error0 limit_error)
             else pfail e
  | inr _ => pret tt
  end.

Definition checkInviteCreateRateLimit (accountId : string) : BApp unit :=
  consumeLimiter "invite_daily" InviteCreateRateLimiterExceededError accountId.

Definition checkInviteTargetRateLimit (contact : string) : BApp unit :=
  consumeLimiter "invite_target" InviteTargetRateLimiterExceededError contact.

(** ** Creation *)

Definition generateInviteToken : BApp (string * string) :=
  let* token := atomic (fun w => (Ok (invite_token (t_randoms (b_top w))),
                                  set_top (next_random (b_top w)) w)) in
  pret (token, sha256_hex token).

(** The message is sent by Twilio or SendGrid; every failure is [false]. *)
Definition sendInviteNotification (method : InviteMethod) (contact token senderName : string) : BApp bool :=
  let* n := bpeek b_fetches in
  bpoke next_fetch ;;;
  pret (invite_delivery method contact token senderName n).

Definition unknown_on_throw {A} (c : BApp A) : BApp A := pcatch c (fun e => pfail (unknown_repository e)).

(** [setHours] on a clock without daylight saving. *)
Definition invite_expiry (at_ : Z) : Z := at_ + INVITE_EXPIRY_HOURS * 3600000.

Definition createInvite (accountId contact : string) (method : InviteMethod) : BApp invite :=
  unknown_on_throw (
    Done (validateContactForMethod contact method) ;;;
    let* dailyLimitCheck := pattempt (checkInviteCreateRateLimit accountId) in
    if is_inl dailyLimitCheck then pfail (new_error ValidationError "Daily invite limit exceeded") else
    let* targetLimitCheck := pattempt (checkInviteTargetRateLimit contact) in
    if is_inl targetLimitCheck
    then pfail (new_error ValidationError "This contact has already been invited by multiple users") else
    let* inviterId := cast_id accountId in
    let* existingInvite := query (find_invite (open_invite inviterId contact)) in
    if bool_decide (is_Some existingInvite)
    then pfail (new_error ValidationError "This contact has already been invited") else
    Done (checkedToAccountId accountId) ;;;
    let* inviterAccount := svc (accounts_findById accountId) in
    let* secret := generateInviteToken in
    let* at_ := now in
    let* createdAt := now in
    let* id := new_object_id in
    let i := new_invite id contact method secret.2 inviterId createdAt (invite_expiry at_) in
    collection (insert_invite i) ;;;
    let senderName := default "A friend" (nonempty_opt (a_username inviterAccount)) in
    let* sent := sendInviteNotification method contact secret.1 senderName in
    if negb sent then
      collection (delete_invite id) ;;;
      pfail (new_error ValidationError "Failed to send invitation — please try again")
    else
      collection (resave_invite id (with_invite_status InviteSent)) ;;;
      pret (with_invite_status InviteSent i)).

(** ** Redemption *)

(** The checks of the invite as it was read, and of the account. *)
Definition redeem_checked (i : invite) (acc : account) (userId : string) : BApp redeem_payload :=
  if bool_decide (iv_status i = InviteAccepted)
  then pret (redeem_refused "This invitation has already been used") else
  let* at_ := now in
  if iv_expiresAt i <? at_ then
    collection (resave_invite (iv_id i) (with_invite_status InviteExpired)) ;;;
    pret (redeem_refused "This invitation has expired")
  else if bool_decide (iv_status i = InviteExpired) || bool_decide (is_Some (iv_revokedAt i))
  then pret (redeem_refused "This invitation is no longer valid")
  else if bool_decide (iv_inviterId i = a_id acc)
  then pret (redeem_refused "You cannot redeem your own invitation")
  else
    let* accountId := cast_id (a_id acc) in
    let* alreadyRedeemed := query (find_invite (fun j =>
      redeemed_by accountId j && bool_decide (iv_status j = InviteAccepted))) in
    if bool_decide (is_Some alreadyRedeemed)
    then pret (redeem_refused "You have already redeemed an invitation") else
    let* account := pattempt (svc (accounts_findById (a_id acc))) in
    match account with
    | inl _ => pret (redeem_refused "Failed to validate account")
    | inr account =>
        let* at_ := now in
        if NEW_USER_INVITE_WINDOW_HOURS * 60 * 60 * 1000 <? at_ - a_createdAt account
        then pret (redeem_refused "This invitation is for new users only") else
        let* userDetails := pattempt (users_findById userId) in
        match userDetails with
        | inl _ => pret (redeem_refused "Failed to validate user")
        | inr phone =>
            if negb (contact_matches i phone)
            then pret (redeem_refused "This invitation was sent to a different phone number") else
            let* at_ := now in
            let* saved := pcapture (collection (resave_invite (iv_id i) (with_redemption accountId at_))) in
            match saved with
            | Ok _ =>
                notify_quietly (accepted_notification (iv_inviterId i) (a_username acc)) ;;;
                pret (mkRedeem true [])
            | Err e | Throw e =>
                if is_duplicate_key e then pret (redeem_refused "You have already redeemed an invitation")
                else pthrow e
            end
        end
    end.

Definition redeemInvite (token userId : string) (domainAccount : option account) : BApp redeem_payload :=
  match checkedToInviteToken token, domainAccount with
  | Err e, _ | Throw e, _ => pret (redeem_refused (err_message e))
  | Ok _, None => pret (redeem_refused "Authentication required to redeem invitation")
  | Ok _, Some acc =>
      pcatch (
        let* found_ := query (find_invite (fun i => bool_decide (iv_tokenHash i = sha256_hex token))) in
        match found_ with
        | None => pret (redeem_refused "Invalid or expired invitation")
        | Some i => redeem_checked i acc userId
        end)
      (fun e => pret (redeem_refused (err_message e)))
  end.

(** ** Preview, statistics, operators *)

Definition invitePreview (token : string) : BApp invite_preview :=
  match checkedToInviteToken token with
  | Err e | Throw e => pthrow (new_error JsError (err_message e))
  | Ok _ =>
      pcatch (
        let* found_ := query (find_invite (fun i => bool_decide (iv_tokenHash i = sha256_hex token))) in
        match found_ with
        | None => pthrow (new_error JsError "Invalid or expired invitation")
        | Some i =>
            let* at_ := now in
            let isExpired := iv_expiresAt i <? at_ in
            let isAlreadyUsed := bool_decide (iv_status i = InviteAccepted) in
            let isRevoked := bool_decide (iv_status i = InviteExpired)
                             || bool_decide (is_Some (iv_revokedAt i)) in
            let* username :=
              match checkedToAccountId (iv_inviterId i) with
              | Ok id =>
                  let* inviter := pattempt (svc (accounts_findById id)) in
                  pret (match inviter with inr a => nonempty_opt (a_username a) | inl _ => None end)
              | _ => pret None
              end in
            pret (mkPreview (iv_contact i) (iv_method i) (default "A Flash user" username) (iv_expiresAt i)
                    (negb isExpired && negb isAlreadyUsed && negb isRevoked))
        end)
      (fun _ => pthrow (new_error JsError "Unable to preview invitation"))
  end.

Definition getMyReferralStats (inviterId : string) : BApp ReferralStats :=
  unknown_on_throw (
    let* id := cast_id inviterId in
    query (fun s => foldr add_stats (mkStats 0 0 0 0) (invites_of id s))).

Definition invite_found (inviteId : string) (i : option invite) : BApp invite :=
  match i with
  | Some i => pret i
  | None => pfail (new_error CouldNotFindError ("Invite not found: " +:+ inviteId))
  end.

Definition find_by_id (inviteId : string) : BApp invite :=
  let* id := cast_id inviteId in
  let* i := query (fun s => s_invites s !! id) in
  invite_found inviteId i.

Definition revokeInvite (inviteId : string) (reason : option string) : BApp invite :=
  unknown_on_throw (
    let* i := find_by_id inviteId in
    if bool_decide (iv_status i = InviteAccepted)
    then pfail (new_error InviteAlreadyAcceptedError "Cannot revoke an already accepted invite") else
    let* at_ := now in
    collection (resave_invite (iv_id i) (with_revocation reason at_)) ;;;
    pret (with_revocation reason at_ i)).

Definition extendInvite (inviteId : string) (newExpiresAt : Z) : BApp invite :=
  unknown_on_throw (
    let* i := find_by_id inviteId in
    if bool_decide (iv_status i = InviteAccepted)
    then pfail (new_error InviteAlreadyAcceptedError "Cannot extend an already accepted invite") else
    let* at_ := now in
    if newExpiresAt <=? at_
    then pfail (new_error InvalidExpirationDateError "New expiration date must be in the future") else
    collection (resave_invite (iv_id i) (with_extension newExpiresAt)) ;;;
    pret (with_extension newExpiresAt i)).

End Invites.
