(* ===== verification/BridgeReconciliation.v ===== *)
(** * Reconciliation of Bridge and IBEX

    Model of [src/src/services/bridge/reconciliation.ts] and of the alerts of
    [src/src/services/alerts/ibex-bridge-movement.ts]: the periodic comparison of
    the deposits Bridge reports with the receipts IBEX reports, that of the
    withdrawals, and the check of one transaction hash. *)

From stdpp Require Import base gmap list strings sorting.
From Stdlib Require Import ZArith Lia Ascii.
From S2P Require Import Prelude JsStrings JsNumbers JsDecimals Processes Errors World.
From S2P Require Import Repos TopupWorld TransferRequests FygaroCheckout Json BridgeWorld BridgeRepo.

Open Scope Z_scope.
Open Scope flash_scope.

Definition FIFTEEN_MIN_MS : Z := 15 * 60 * 1000.

Definition WITHDRAWAL_TERMINAL_FAILURE_STATES : list string :=
  ["undeliverable"; "returned"; "refunded"; "refund_failed"; "missing_return_policy"; "error"; "canceled"].

Definition toOrphanKey (prefix value : string) : string := prefix +:+ ":" +:+ str_lower value.

(** The key an alert about an orphan is deduplicated by. *)
Definition orphan_dedup_key (type : OrphanType) (txHash transferId : option string) : string :=
  if bool_decide (type = ibex_without_bridge) && truthy txHash
  then "ibex:reconcile:ibex-without-bridge:" +:+ str_lower (default EmptyString txHash)
  else if truthy txHash
  then "ibex:reconcile:bridge-without-ibex:" +:+ str_lower (default EmptyString txHash)
  else "ibex:reconcile:bridge-without-ibex:transfer:" +:+ default "unknown" transferId.

(** Hashes are compared without regard to case. *)
Definition same_hash (a b : string) : bool := bool_decide (str_lower a = str_lower b).

Definition deposit_hash (d : deposit_log) : option string :=
  h ← dp_destinationTxHash d; if nonempty h then Some h else None.

Definition received (receives : list receive_log) (h : string) : bool :=
  existsb (fun r => same_hash (rc_txHash r) h) receives.

Definition deposited (deposits : list deposit_log) (h : string) : bool :=
  existsb (fun d => match deposit_hash d with Some h' => same_hash h' h | None => false end) deposits.

(** A deposit without a receipt, and the orphan reported for it. *)
Definition deposit_orphan (receives : list receive_log) (d : deposit_log) :
    option (string * (Z -> orphan)) :=
  match deposit_hash d with
  | None =>
      Some (toOrphanKey "bridge-no-tx" (dp_transferId d), fun at_ =>
        mkOrphan bridge_without_ibex false (Some (dp_transferId d)) None (Some (dp_eventId d))
          (Some (dp_customerId d)) (Some (dp_amount d)) (Some (dp_currency d))
          "Bridge payment_processed has no destinationTxHash" at_ None)
  | Some h =>
      if received receives h then None else
      Some (toOrphanKey "bridge" h, fun at_ =>
        mkOrphan bridge_without_ibex false (Some (dp_transferId d)) (Some h) (Some (dp_eventId d))
          (Some (dp_customerId d)) (Some (dp_amount d)) (Some (dp_currency d))
          "No IBEX crypto.receive found for Bridge destinationTxHash within window" at_ None)
  end.

(** A receipt without a deposit. *)
Definition receive_orphan (deposits : list deposit_log) (r : receive_log) :
    option (string * (Z -> orphan)) :=
  if deposited deposits (rc_txHash r) then None else
  Some (toOrphanKey "ibex" (rc_txHash r), fun at_ =>
    mkOrphan ibex_without_bridge false None (Some (rc_txHash r)) None None (Some (rc_amount r))
      (Some (rc_currency r)) "No Bridge deposit payment_processed found for IBEX tx hash within window"
      at_ None).

Record deposit_summary := mkDepositSummary {
  scannedBridge : nat;
  scannedIbex : nat;
  bridgeWithoutIbex : nat;
  ibexWithoutBridge : nat
}.

Record withdrawal_summary := mkWithdrawalSummary {
  scannedWithdrawals : nat;
  cancelledSendFailedTransfers : nat;
  finalizedCompletedTransfers : nat;
  ibexSendWithoutBridgeSettlement : nat;
  bridgeTransferWithoutIbexSend : nat
}.

(** What one withdrawal adds to the summary. *)
Inductive reconciled := Cancelled | NotSent | Finalized | NotSettled | Untouched.

Definition count_reconciled (r : reconciled) (s : withdrawal_summary) : withdrawal_summary :=
  let '(mkWithdrawalSummary n c f i b) := s in
  match r with
  | Cancelled => mkWithdrawalSummary n (S c) f i b
  | Finalized => mkWithdrawalSummary n c (S f) i b
  | NotSettled => mkWithdrawalSummary n c f (S i) b
  | NotSent => mkWithdrawalSummary n c f i (S b)
  | Untouched => s
  end.

Definition settling (since until : Z) (w : withdrawal) : bool :=
  (since <=? wd_updatedAt w) && (wd_updatedAt w <=? until)
  && (bool_decide (wd_status w = WUsdtSent) || bool_decide (wd_status w = WSendFailed))
  && bool_decide (is_Some (wd_bridgeTransferId w)).

Section Reconciliation.
Context `{X : BridgeExternal}.

(** The orphan is recorded, whether or not that succeeds, and the operators are
    alerted. *)
Definition report_orphan (key : string) (o : Z -> orphan) : BApp unit :=
  pattempt (upsertBridgeReconciliationOrphan key o) ;;;
  alert Warning (orphan_dedup_key (or_type (o 0)) (or_txHash (o 0)) (or_transferId (o 0))).

(** The loop over a list: the number of those that have an orphan. *)
Fixpoint report_all {A} (f : A -> option (string * (Z -> orphan))) (l : list A) : BApp nat :=
  match l with
  | [] => pret 0%nat
  | x :: l' =>
      match f x with
      | None => report_all f l'
      | Some (key, o) =>
          report_orphan key o ;;;
          let* n := report_all f l' in
          pret (S n)
      end
  end.

Definition processed_deposits (since until : Z) (s : bridge_store) : list deposit_log :=
  filter (fun d => since <= dp_createdAt d /\ dp_createdAt d <= until /\ dp_state d = "payment_processed")
    (s_deposits s).

Definition reconcileBridgeAndIbexDeposits (windowMs : Z) : BApp deposit_summary :=
  returned (
    let* at_ := now in
    let since := at_ - windowMs in
    let* bridgeDeposits := query (processed_deposits since at_) in
    let* ibexReceives := findIbexCryptoReceivesSince since at_ in
    let* missing := report_all (deposit_orphan ibexReceives) bridgeDeposits in
    let* extra := report_all (receive_orphan bridgeDeposits) ibexReceives in
    pret (mkDepositSummary (length bridgeDeposits) (length ibexReceives) missing extra)).

(** ** Withdrawals *)

Definition reconcile_withdrawal (w : withdrawal) (transferId : string) : BApp reconciled :=
  if bool_decide (wd_status w = WSendFailed) then
    let* deleted := pcapture (api_deleteTransfer transferId) in
    match deleted with
    | Ok _ => pret Cancelled
    | Err _ | Throw _ =>
        report_orphan (toOrphanKey "withdrawal-send-failed" transferId) (fun at_ =>
          mkOrphan bridge_transfer_without_ibex_send false (Some transferId) None None None
            (Some (wd_amount w)) (Some (wd_currency w))
            "Bridge transfer exists but IBEX crypto send failed" at_ None) ;;;
        pret NotSent
    end
  else
    let* transfer := api_getTransfer transferId in
    if bool_decide (tr_state transfer = "payment_processed") then
      let* finalized := pattempt (BridgeAccountsRepo.updateWithdrawalStatus transferId WCompleted None) in
      match finalized with
      | inr _ => pret Finalized
      | inl _ => pret Untouched
      end
    else if negb (bool_decide (tr_state transfer ∈ WITHDRAWAL_TERMINAL_FAILURE_STATES)) then pret Untouched
    else
      report_orphan (toOrphanKey "withdrawal-ibex-sent" transferId) (fun at_ =>
        mkOrphan ibex_send_without_bridge_settlement false (Some transferId) None None
          (tr_on_behalf_of transfer) (Some (wd_amount w)) (Some (wd_currency w))
          ("IBEX crypto send succeeded but Bridge transfer is " +:+ tr_state transfer) at_ None) ;;;
      pret NotSettled.

Fixpoint reconcile_all (l : list withdrawal) (acc : withdrawal_summary) : BApp withdrawal_summary :=
  match l with
  | [] => pret acc
  | w :: l' =>
      match wd_bridgeTransferId w with
      | Some transferId =>
          if nonempty transferId then
            let* r := reconcile_withdrawal w transferId in
            reconcile_all l' (count_reconciled r acc)
          else reconcile_all l' acc
      | None => reconcile_all l' acc
      end
  end.

Definition reconcileBridgeAndIbexWithdrawals (windowMs : Z) : BApp withdrawal_summary :=
  returned (
    let* at_ := now in
    let* withdrawals := query (fun s =>
      filter (fun w => settling (at_ - windowMs) at_ w = true) (map_to_list (s_withdrawals s)).*2) in
    reconcile_all withdrawals (mkWithdrawalSummary (length withdrawals) 0 0 0 0)).

(** ** One transaction hash *)

Definition find_deposit (h : string) (s : bridge_store) : option deposit_log :=
  snd <$> list_find (fun d => dp_state d = "payment_processed" /\
                              str_lower <$> dp_destinationTxHash d = Some h) (s_deposits s).

Definition find_receive (h : string) (s : bridge_store) : option receive_log :=
  snd <$> list_find (fun r => str_lower (rc_txHash r) = h) (s_receives s).

(** The orphan of a hash only one side knows, or neither. *)
Definition hash_orphan (h : string) (d : option deposit_log) (r : option receive_log) (at_ : Z) : orphan :=
  match d with
  | Some d =>
      mkOrphan bridge_without_ibex false (Some (dp_transferId d)) (Some h) None (Some (dp_customerId d))
        (Some (dp_amount d)) (Some (dp_currency d))
        "Bridge payment_processed has no matching IBEX crypto.receive yet" at_ None
  | None =>
      mkOrphan ibex_without_bridge false None (Some h) None None (rc_amount <$> r) (rc_currency <$> r)
        "IBEX crypto.receive has no matching Bridge funds_received yet" at_ None
  end.

Definition orphan_key (h : string) (d : option deposit_log) : string :=
  toOrphanKey (match d with Some _ => "bridge" | None => "ibex" end) h.

Definition reconcileByTxHash (txHash : string) : BApp reconciliation_event :=
  let h := str_lower txHash in
  let* at_ := now in
  returned (
    let* bridgeDeposit := query (find_deposit h) in
    let* ibexReceive := query (find_receive h) in
    match bridgeDeposit, ibexReceive with
    | Some d, Some _ =>
        pattempt (resolveOrphansByTxHash h) ;;;
        let event := mkReconciliationEvent h true None (Some (dp_transferId d)) (Some (dp_customerId d))
                       (Some (dp_amount d)) (Some (dp_currency d)) at_ in
        publish event ;;;
        pret event
    | _, _ =>
        let o := hash_orphan h bridgeDeposit ibexReceive in
        report_orphan (orphan_key h bridgeDeposit) o ;;;
        let event := mkReconciliationEvent h false (Some (or_type (o at_))) (or_transferId (o at_))
                       (or_customerId (o at_)) (or_amount (o at_)) (or_currency (o at_)) at_ in
        publish event ;;;
        pret event
    end).

(** ** In the background

    A webhook starts the check of a hash and does not wait for it. The checks
    that were started are a list, and one of them runs when it runs; the alert
    is for a check that throws. *)

Definition start_reconcile (txHash : string) : BApp unit :=
  bpoke (fun w => set_tasks (b_tasks w ++ [txHash]) w).

Definition next_task : BApp (option string) :=
  atomic (fun w =>
    match b_tasks w with
    | [] => (Ok None, w)
    | h :: tasks => (Ok (Some h), set_tasks tasks w)
    end).

Definition run_task : BApp unit :=
  let* task := next_task in
  match task with
  | None => pret tt
  | Some h =>
      pcatch (pattempt (reconcileByTxHash h) ;;; pret tt)
        (fun _ => alert Warning ("ibex:reconcile:failed:" +:+ str_lower h))
  end.

End Reconciliation.
