(* ===== verification/BridgeWebhooks.v ===== *)
(** * The webhooks of Bridge and of IBEX's crypto receipts

    Model of [src/src/services/bridge/webhook-server]: its middleware and the
    handlers of deposits, transfers, KYC, external accounts and replays; and of
    [src/src/services/ibex/webhook-server/routes/crypto-receive.ts]. A body is a
    JSON value, since no schema is checked before a handler reads it. An
    exception outside the [try] of a handler leaves the request unanswered: it is
    [Throw]. *)

From stdpp Require Import base gmap list strings.
From Stdlib Require Import ZArith Lia Ascii.
From S2P Require Import Prelude JsStrings JsNumbers JsDecimals Processes Errors World.
From S2P Require Import BigintMoney MoneyAmounts Ibex Repos TopupWorld TransferRequests FygaroWebhook FygaroCheckout.
From S2P Require Import Json BridgeWorld BridgeRepo BridgeService Referrals BridgeReconciliation.

Open Scope Z_scope.
Open Scope flash_scope.

(** [res.status(code).json(body)] *)
Record http_answer := mkAnswer { an_status : Z; an_body : json }.

Definition reply (code : Z) (member text : string) : http_answer :=
  mkAnswer code (JObj [(member, JStr text)]).

(** ** Signatures *)

(** [s.startsWith(p)], and what follows. *)
Definition find_part (prefix : string) (parts : list string) : option string :=
  part ← snd <$> list_find (fun p => is_Some (after_prefix prefix p)) parts; after_prefix prefix part.

(** [parseInt(s, 10)] *)
Definition parseInt10 (s : string) : js_float :=
  let digits r := match span_digits r with
    | (EmptyString, _) => NaN
    | (d, _) => fl (rnd (digits_val d) 1)
    end in
  match strip_start js_space s with
  | String "-" r => fl_opp (digits r)
  | String "+" r => digits r
  | t => digits t
  end.

(** [Math.abs(now - timestampMs) > limit] *)
Definition skewed (at_ : Z) (timestampMs : js_num) (limit : Z) : bool :=
  let d := num_sub (num_of_Z at_) timestampMs in
  num_ltb (num_of_Z limit) (JsNum (Z.abs (mant d)) (expo d)).

(** ** Fields of an event *)

(** A value that a field or a filter of type String takes. *)
Definition field_text (v : option json) : outcome error string :=
  match v ≫= cast_String with Some s => Ok s | None => Throw cast_error end.

(** The same of a field that may be absent. *)
Definition optional_text (v : option json) : outcome error (option string) :=
  match v with
  | None | Some JNull => Ok None
  | Some j => outcome_map Some (field_text (Some j))
  end.

(** [event_object], with the properties of nothing when it is absent. *)
Definition event_object (body : json) : option json := present (prop "event_object" body).

Definition customer_of (obj : option json) : option json :=
  coalesce (prop_opt "on_behalf_of" obj) (coalesce (prop_opt "customer_id" obj)
    (prop_opt "customer_id" (present (prop_opt "payment_route" obj)))).

Definition receipt_of (obj : option json) : option json := present (prop_opt "receipt" obj).

Definition deposit_tx_hash (obj : option json) : option json :=
  coalesce (prop_opt "destination_tx_hash" (receipt_of obj))
    (prop_opt "tx_hash" (present (prop_opt "destination" obj))).

Definition deposit_fee (obj : option json) : option json :=
  coalesce (prop_opt "developer_fee" (receipt_of obj))
    (coalesce (prop_opt "developer_fee_amount" obj) (prop_opt "developer_fee" obj)).

Definition deposit_subtotal (obj : option json) : option json :=
  coalesce (prop_opt "subtotal_amount" (receipt_of obj)) (prop_opt "subtotal_amount" obj).

(** What the handler converts to texts for the row of the log. *)
Definition deposit_texts (obj : option json) : list (option json) :=
  [deposit_fee obj; prop_opt "amount" obj; deposit_subtotal obj;
   prop_opt "initial_amount" (receipt_of obj); prop_opt "final_amount" (receipt_of obj)].

(** What the writer of the audit row converts to texts and the handler did not. *)
Definition audit_texts (obj : option json) : list (option json) :=
  [coalesce (prop_opt "developer_fee" (receipt_of obj)) (prop_opt "developer_fee" obj)].

(** The event as the writer of the audit row reads it. An id that is not a text
    is sent as it is; here it is its text. *)
Definition deposit_event (obj : option json) : BridgeDepositEventObject :=
  let text name := asOptionalString (prop_opt name obj) in
  let route name := asOptionalString (prop_opt name (present (prop_opt "payment_route" obj))) in
  let receipt name := asOptionalString (prop_opt name (receipt_of obj)) in
  mkDepositEvent (opt_String (prop_opt "id" obj)) (text "state") (opt_String (prop_opt "amount" obj))
    (text "currency") (text "on_behalf_of") (text "deposit_id") (text "virtual_account_id")
    (text "product_type") (text "type") (text "customer_id") (route "customer_id") (route "deposit_id")
    (route "transfer_id") (receipt "developer_fee") (receipt "initial_amount") (receipt "subtotal_amount")
    (receipt "final_amount") (receipt "destination_tx_hash") (text "developer_fee").

Definition TERMINAL_FAILURE_STATES : list string :=
  ["undeliverable"; "returned"; "refunded"; "refund_failed"; "missing_return_policy"; "error"; "canceled"].

Definition TRANSIENT_STATES : list string := ["refund_in_flight"].

Definition transferLockKey (transferId event : string) (state : option json) : string :=
  "bridge-transfer:" +:+ transferId +:+ ":" +:+ event +:+ ":"
  +:+ match present state with Some s => json_String s | None => EmptyString end.

(** [truncateBridgeFailureReason] throws on what is not a text, and its caller
    turns that into an error of the repository. *)
Definition reason_text (v : option json) : outcome error (option string) :=
  match v with
  | None => Ok None
  | Some (JStr s) => Ok (Some s)
  | Some _ => Err (new_error RepositoryError "TypeError: reason.slice is not a function")
  end.

Definition failure_reason (state obj : option json) : option json :=
  let reason := prop_opt "failure_reason" (present (prop_opt "source" obj)) in
  let return_reason := prop_opt "return_reason" (present (prop_opt "destination" obj)) in
  if is_text "refund_failed" state then return_reason else coalesce reason return_reason.

Definition PENDING_BRIDGE_STATUSES : list string :=
  ["incomplete"; "awaiting_questionnaire"; "awaiting_ubo"; "under_review"; "paused"].

(** The status an account gets for one of a Bridge customer. *)
Definition next_kyc_status (status : option json) : option string :=
  if is_text "not_started" status then Some "not_started"
  else if text_among PENDING_BRIDGE_STATUSES status then typeof_string status
  else if is_text "active" status || is_text "approved" status then Some "approved"
  else if is_text "rejected" status then Some "rejected"
  else if is_text "offboarded" status then Some "offboarded"
  else None.

(** ** KYC notifications *)

Definition PENDING_KYC_STATUSES : list string :=
  ["open"; "awaiting_questionnaire"; "awaiting_ubo"; "under_review"; "paused"].

Definition toBridgeKycNotificationOutcome (status : option string) : option string :=
  s ← status;
  if negb (nonempty s) || bool_decide (s = "not_started") then None
  else if bool_decide (s ∈ ["approved"; "rejected"; "offboarded"; "incomplete"]) then Some s
  else if bool_decide (s ∈ PENDING_KYC_STATUSES) then Some "in_review"
  else None.

(** The reasons that are converted to texts: those of objects. *)
Definition rejection_values (l : list json) : list (option json) :=
  map (fun v => match v with JObj _ => prop "reason" v | _ => None end) l.

(** One reason: a text, or an object that has one. *)
Definition rejection_text (v : json) : option string :=
  match v with
  | JStr s => if nonempty s then Some s else None
  | JObj _ => match prop "reason" v with
              | Some r => if nonempty (json_String r) then Some (json_String r) else None
              | None => None
              end
  | _ => None
  end.

Definition formatRejectionReason (l : list json) : outcome error (option string) :=
  if coercible (rejection_values l) then
    Ok match omap rejection_text l with
       | [] => None
       | reasons => Some (String.concat ", " reasons)
       end
  else Throw (type_error "Cannot convert object to primitive value").

Definition kyc_notification (accountId outcome kycStatus : string) (reason : option string) : notification :=
  mkNotification accountId
    ("notification.bridgeKyc." +:+ outcome
       +:+ (if bool_decide (outcome = "rejected") && truthy reason then ".bodyWithReason" else ".body"))
    ("bridge_kyc_" +:+ outcome) (default EmptyString reason)
    (("status", kycStatus) :: match reason with Some r => [("rejectionReason", r)] | None => [] end).

Definition deposit_notification (accountId amount currency : string) : notification :=
  mkNotification accountId "notification.bridgeDeposit.completed.body" "bridge_deposit_completed"
    (amount +:+ " " +:+ str_upper currency)
    [("amount", amount);
     ("currency", if bool_decide (currency = "usdt") then "USD" else str_upper currency)].

Definition toStatus (active : option json) : ExternalStatus :=
  match active with
  | Some (JBool true) => XVerified
  | Some (JBool false) => XFailed
  | _ => XPending
  end.

Section Webhooks.
Context `{X : BridgeExternal}.

(** ** Middleware *)

Definition bridgeEnabledGuard (path : string) (next : BApp http_answer) : BApp http_answer :=
  if bool_decide (path = "/health") then next
  else if negb (bridge_enabled bridgeConfig) then pret (reply 503 "error" "Bridge is disabled")
  else next.

(** The digest of the signed payload is what the signature is verified on. *)
Definition verifyBridgeSignature (key : webhook_key) (signature rawBody : option string)
    (next : BApp http_answer) : BApp http_answer :=
  match nonempty_opt signature with
  | None => pret (reply 401 "error" "Missing signature")
  | Some signature =>
      let parts := split_on "," signature in
      match find_part "t=" parts, find_part "v0=" parts with
      | Some timestamp, Some sig =>
          let* at_ := now in
          match parseInt10 timestamp with
          | Fin timestampMs =>
              if skewed at_ timestampMs (timestampSkewMs bridgeConfig)
              then pret (reply 401 "error" "Timestamp too old") else
              match nonempty_opt rawBody with
              | None => pret (reply 401 "error" "Missing raw body")
              | Some rawBody =>
                  match verify_rsa_sha256 (publicKeys bridgeConfig key)
                          (sha256_hex (timestamp +:+ "." +:+ rawBody)) sig with
                  | Ok true => next
                  | Ok false => pret (reply 401 "error" "Invalid signature")
                  | Err _ | Throw _ => pret (reply 500 "error" "Signature verification failed")
                  end
              end
          | _ => pret (reply 401 "error" "Invalid signature format")
          end
      | _, _ => pret (reply 401 "error" "Invalid signature format")
      end
  end.

(** ** Deposits *)

(** The row of the log: a value that is not a text is an error of the cast. *)
Definition deposit_record (body : json) (obj : option json) : outcome error (Z -> deposit_log) :=
  bindo (field_text (prop "event_id" body)) (fun eventId =>
  bindo (field_text (prop_opt "id" obj)) (fun transferId =>
  bindo (field_text (customer_of obj)) (fun customerId =>
  bindo (field_text (Some (default (JStr "unknown") (coalesce (prop_opt "state" obj) (prop_opt "type" obj)))))
    (fun state =>
  bindo (field_text (Some (default (JStr "usd") (present (prop_opt "currency" obj))))) (fun currency =>
  bindo (optional_text (deposit_tx_hash obj)) (fun txHash =>
  Ok (mkDeposit eventId transferId customerId state (opt_String (prop_opt "amount" obj)) currency
        (default "0.0" (asOptionalString (deposit_fee obj))) (asOptionalString (deposit_subtotal obj))
        (asOptionalString (prop_opt "initial_amount" (receipt_of obj)))
        (asOptionalString (prop_opt "final_amount" (receipt_of obj))) txHash))))))).

(** [createBridgeDeposit] returns what it catches, the errors of the cast too. *)
Definition log_deposit (body : json) (obj : option json) : BApp unit :=
  match deposit_record body obj with
  | Ok d => createBridgeDeposit d
  | Err e | Throw e => pfail e
  end.

(** The check of the hash that a processed transfer starts; one of a hash that
    is not a text is rejected. *)
Definition start_if_processed (body : json) (obj : option json) : BApp unit :=
  let hash := prop_opt "destination_tx_hash" (receipt_of obj) in
  if is_text "transfer" (prop "event_category" body)
     && is_text "payment_processed" (coalesce (prop_opt "state" obj) (prop_opt "type" obj))
     && json_truthy hash
  then match typeof_string hash with Some h => start_reconcile h | None => pret tt end
  else pret tt.

Definition depositHandler (body : json) : BApp http_answer :=
  let event_id := prop "event_id" body in
  let obj := event_object body in
  let id := prop_opt "id" obj in
  if negb (json_truthy id) || negb (json_truthy event_id)
  then pret (reply 400 "error" "Invalid payload")
  else if negb (json_truthy (prop_opt "amount" obj)) || negb (json_truthy (customer_of obj))
  then pret (reply 200 "status" "skipped")
  else
    pcatch (
      coerce (deposit_texts obj) ;;;
      let* depositLog := pattempt (log_deposit body obj) in
      match depositLog with
      | inl _ => ops_event "deposit:failed" ;;; pret (reply 500 "error" "Failed to persist deposit log")
      | inr _ =>
          start_if_processed body obj ;;;
          coerce (audit_texts obj) ;;;
          let* auditResult := pattempt (top (writeBridgeDepositRequest (opt_String event_id)
            (deposit_event obj) (json_stringify body))) in
          match auditResult with
          | inl _ =>
              alert Critical ("erpnext-audit:deposit:" +:+ opt_String id) ;;;
              ops_event "deposit:failed" ;;;
              pret (reply 500 "error" "Failed to persist ERPNext audit row")
          | inr _ =>
              let* lock := pattempt (top (lockIdempotencyKey ("bridge-deposit:" +:+ opt_String event_id))) in
              match lock with
              | inl _ => pret (reply 200 "status" "already_processed")
              | inr _ => ops_event "deposit:succeeded" ;;; pret (reply 200 "status" "success")
              end
          end
      end)
    (fun _ =>
      coerce [event_id] ;;;
      alert Critical ("bridge-webhook:deposit:" +:+ opt_String event_id) ;;;
      ops_event "deposit:failed" ;;;
      pret (reply 500 "error" "Internal server error")).

(** ** Transfers *)

Definition markProcessed (transfer_id event state : option json) : BApp bool :=
  coerce [transfer_id; event; state] ;;;
  let* r := pattempt (top (lockIdempotencyKey
    (transferLockKey (opt_String transfer_id) (opt_String event) state))) in
  pret (match r with inr _ => true | inl _ => false end).

(** The row of the withdrawal, from the values of the event. *)
Definition update_status (transfer_id : option json) (status : WithdrawalStatus) (reason : option json) :
    BApp withdrawal :=
  match reason_text reason, field_text transfer_id with
  | Ok reason, Ok id => BridgeAccountsRepo.updateWithdrawalStatus id status reason
  | Err e, _ | Throw e, _ | _, Err e => pfail e
  | _, Throw e => pfail (new_error RepositoryError (error_String e))
  end.

Definition not_found (e : error) : bool := bool_decide (err_message e = BRIDGE_WITHDRAWAL_NOT_FOUND).

(** The audit row gets the event as it is; here it is its text. *)
Definition transfer_completed (body : json) (transfer_id state event : option json) : BApp http_answer :=
  let id := opt_String transfer_id in
  let* result := pattempt (update_status transfer_id WCompleted None) in
  match result with
  | inl e => if not_found e then pret (reply 503 "error" "Withdrawal not ready")
             else pret (reply 500 "error" "Failed to update status")
  | inr w =>
      let* auditResult := pattempt (top (writeBridgeCashoutCompleted id (wd_amount w) (wd_currency w)
        (Some (wd_accountId w)) (asOptionalString (prop "event_id" body)) (opt_String event) (json_stringify body))) in
      match auditResult with
      | inl _ =>
          alert Critical ("erpnext-audit:transfer-complete:" +:+ id) ;;;
          pret (reply 500 "error" "Failed to persist ERPNext audit row")
      | inr _ =>
          let* first := markProcessed transfer_id event state in
          if negb first then pret (reply 200 "status" "already_processed") else
          ops_event "transfer:succeeded" ;;;
          sendBridgeWithdrawalNotificationBestEffort (wd_accountId w) (wd_amount w) (wd_currency w)
            "completed" None ;;;
          pret (reply 200 "status" "success")
      end
  end.

Definition transfer_failed (body : json) (obj transfer_id state event : option json) : BApp http_answer :=
  let id := opt_String transfer_id in
  let reason := failure_reason state obj in
  let* result := pattempt (update_status transfer_id WFailed reason) in
  match result with
  | inl e =>
      if not_found e then pret (reply 503 "error" "Withdrawal not ready")
      else if bool_decide (is_Some (after_prefix "Withdrawal already " (err_message e)))
      then pret (reply 200 "status" "already_terminal")
      else pret (reply 500 "error" "Failed to update status")
  | inr w =>
      let failureReason := nullish (wd_failureReason w) (typeof_string reason) in
      let* auditResult := pattempt (top (writeBridgeCashoutFailed id (wd_amount w) (wd_currency w)
        (Some (wd_accountId w)) (asOptionalString (prop "event_id" body)) (opt_String event) (json_stringify body)
        failureReason)) in
      match auditResult with
      | inl _ =>
          alert Critical ("erpnext-audit:transfer-failed:" +:+ id) ;;;
          pret (reply 500 "error" "Failed to persist ERPNext audit row")
      | inr _ =>
          let* first := markProcessed transfer_id event state in
          if negb first then pret (reply 200 "status" "already_processed") else
          ops_event "transfer:failed" ;;;
          sendBridgeWithdrawalNotificationBestEffort (wd_accountId w) (wd_amount w) (wd_currency w)
            "failed" failureReason ;;;
          pret (reply 200 "status" "success")
      end
  end.

(** What the event of a transfer says. *)
Definition transfer_event (body : json) : option json :=
  coalesce (prop "event_type" body) (prop "event" body).
Definition transfer_id_of (obj : option json) : option json :=
  coalesce (prop_opt "id" obj) (prop_opt "transfer_id" obj).
Definition transfer_state (obj : option json) : option json :=
  coalesce (prop_opt "state" obj) (prop_opt "status" obj).

Definition is_completion (event state : option json) : bool :=
  is_text "transfer.completed" event || is_text "transfer.payment_processed" event
  || is_text "payment_processed" state.

Definition transferHandler (body : json) : BApp http_answer :=
  let obj := event_object body in
  let event := transfer_event body in
  let transfer_id := transfer_id_of obj in
  let state := transfer_state obj in
  if negb (json_truthy transfer_id) || negb (json_truthy event)
  then pret (reply 400 "error" "Invalid payload")
  else
    pcatch (
      if text_among TRANSIENT_STATES state then pret (reply 200 "status" "ignored_transient_state")
      else if is_completion event state
      then transfer_completed body transfer_id state event
      else if text_among TERMINAL_FAILURE_STATES state
      then transfer_failed body obj transfer_id state event
      else pret (reply 200 "status" "ignored"))
    (fun _ =>
      coerce [transfer_id; event] ;;;
      alert Critical ("bridge-webhook:transfer:" +:+ opt_String transfer_id +:+ ":" +:+ opt_String event) ;;;
      pret (reply 500 "error" "Internal server error")).

(** ** KYC *)

(** [rejectionReasons.map], of a value that may not be an array. *)
Definition rejection_list (v : option json) : outcome error (list json) :=
  match v with
  | Some (JArr l) => Ok l
  | None => Ok []
  | Some j => if json_truthy (Some j) then Throw (type_error "rejectionReasons.map is not a function") else Ok []
  end.

Definition notifyKycStatusChange (accountId : string) (previousStatus : option string) (nextStatus : string)
    (rejectionReasons : option json) : BApp unit :=
  if bool_decide (previousStatus = Some nextStatus) then pret tt
  else match previousStatus, toBridgeKycNotificationOutcome (Some nextStatus) with
  | Some _, Some outcome =>
      notify_account accountId (outcome_map (kyc_notification accountId outcome nextStatus)
        (bindo (rejection_list rejectionReasons) formatRejectionReason))
  | _, _ => pret tt
  end.

Definition kycHandler (body : json) : BApp http_answer :=
  match event_object body with
  | None => pthrow (type_error "Cannot read properties of undefined (reading 'customer_id')")
  | Some obj =>
      let customerId := json_or (prop "customer_id" obj) (prop "id" obj) in
      let status := json_or (prop "kyc_status" obj) (prop "status" obj) in
      let event_id := prop "event_id" body in
      if negb (json_truthy customerId) || negb (json_truthy event_id)
      then pret (reply 400 "error" "Invalid payload")
      else
        pcatch (
          coerce [event_id] ;;;
          let* lock := pattempt (top (lockIdempotencyKey ("bridge-kyc:" +:+ opt_String event_id))) in
          if is_inl lock then pret (reply 200 "status" "already_processed") else
          let* acc := pattempt (match field_text customerId with
                                | Ok id => findByBridgeCustomerId id
                                | Err e | Throw e => pfail (parseRepositoryError e)
                                end) in
          match acc with
          | inl _ => pret (reply 503 "error" "Account not ready")
          | inr acc =>
              match next_kyc_status status with
              | None => pret (reply 200 "status" "success")
              | Some nextStatus =>
                  let* transition := pattempt (transitionBridgeKycStatus (a_id acc) nextStatus) in
                  match transition with
                  | inl _ => pret (reply 500 "error" "Failed to update status")
                  | inr t =>
                      if negb (tr_changed t) then pret (reply 200 "status" "already_current") else
                      (if bool_decide (nextStatus = "not_started") then pret tt
                       else notifyKycStatusChange (a_id acc) (tr_previous t) nextStatus
                              (prop "rejection_reasons" obj)) ;;;
                      (if bool_decide (nextStatus = "approved") then
                         pattempt (createVirtualAccount (a_id acc)) ;;;
                         awardReferralRewardOnKycApproval (a_id acc)
                       else pret tt) ;;;
                      pret (reply 200 "status" "success")
                  end
              end
          end)
        (fun _ => pret (reply 500 "error" "Internal server error"))
  end.

(** ** External accounts *)

(** The values of the event, as the repository takes them. *)
Definition persist_external (accountId : string) (obj : option json) : BApp external_account :=
  match field_text (prop_opt "id" obj),
        field_text (Some (default (JStr "Unknown") (present (prop_opt "bank_name" obj)))),
        field_text (Some (default (JStr "0000") (present (prop_opt "last_4" obj)))) with
  | Ok id, Ok bank, Ok last4 =>
      BridgeAccountsRepo.createExternalAccount accountId id bank last4 (toStatus (prop_opt "active" obj))
  | _, _, _ => pfail (new_error RepositoryError (error_String cast_error))
  end.

Definition externalAccountHandler (body : json) : BApp http_answer :=
  let obj := event_object body in
  let customer_id := prop_opt "customer_id" obj in
  let event_id := prop "event_id" body in
  if negb (json_truthy (prop_opt "id" obj)) || negb (json_truthy customer_id) || negb (json_truthy event_id)
  then pret (reply 400 "error" "Invalid payload")
  else
    pcatch (
      coerce [event_id] ;;;
      let* lock := pattempt (top (lockIdempotencyKey ("bridge-external-account:" +:+ opt_String event_id))) in
      if is_inl lock then pret (reply 200 "status" "already_processed") else
      let* acc := pattempt (match field_text customer_id with
                            | Ok id => findByBridgeCustomerId id
                            | Err e | Throw e => pfail (parseRepositoryError e)
                            end) in
      match acc with
      | inl _ => pret (reply 503 "error" "Account not ready")
      | inr acc =>
          let* result := pattempt (persist_external (a_id acc) obj) in
          if is_inl result then pret (reply 500 "error" "Failed to persist external account")
          else pret (reply 200 "status" "success")
      end)
    (fun _ => pret (reply 500 "error" "Internal server error")).

(** ** Crypto receipts of IBEX *)

(** What the work under the lock ends with: success, or the code of an error. *)
Inductive CryptoReceiveResult := ReceiveSuccess | ReceiveError (code : string).

Definition receive_alert (tx_hash : option json) : BApp unit :=
  alert Warning ("ibex:crypto-receive:" +:+ str_lower (opt_String tx_hash)).

Definition receive_failed (tx_hash : option json) (code : string) : BApp CryptoReceiveResult :=
  receive_alert tx_hash ;;; pret (ReceiveError code).

Definition sendBridgeDepositNotificationBestEffort (accountId amount currency : string) : BApp unit :=
  if negb (bridge_enabled bridgeConfig) then pret tt
  else pcatch (notify_account accountId (Ok (deposit_notification accountId amount currency))) (fun _ => pret tt).

(** [String(usdtAmount.asNumber())]; a division that fails throws. *)
Definition received_amount (a : MoneyAmount) : BApp string :=
  match asNumber a 6 with
  | Ok s => pret s
  | Err _ | Throw _ => pthrow (type_error "amount")
  end.

Definition receive_locked (body : json) (tx_hash address amount : option json) : BApp CryptoReceiveResult :=
  let txHash := opt_String tx_hash in
  pcatch (
    let* acc := pattempt (match field_text address with
                          | Ok a => findByBridgeEthereumAddress a
                          | Err e | Throw e => pfail (parseRepositoryError e)
                          end) in
    match acc with
    | inl _ => receive_failed tx_hash "account_not_found"
    | inr acc =>
        coerce [tx_hash; address; amount] ;;;
        let* ibexLog := pattempt (createIbexCryptoReceive (mkReceive txHash (opt_String address)
          (opt_String amount) "USDT" "ethereum" (Some (a_id acc)))) in
        if is_inl ibexLog then receive_failed tx_hash "internal_error" else
        start_reconcile txHash ;;;
        let* wallets := pattempt (svc (listByAccountId (a_id acc))) in
        match wallets with
        | inl _ => receive_failed tx_hash "wallet_list_failed"
        | inr wallets =>
            match wallet_in Usdt wallets with
            | None => receive_failed tx_hash "usdt_wallet_not_found"
            | Some usdtWallet =>
                match USDT_fromNumber (opt_String amount) with
                | Err _ => receive_failed tx_hash "invalid_amount"
                | Throw e => pthrow e
                | Ok usdtAmount =>
                    let* shown := received_amount usdtAmount in
                    let* auditResult := pattempt (top (writeIbexCryptoReceiveRequest txHash
                      (opt_String address) (opt_String amount) "USDT" "Ethereum" (a_id acc)
                      (wl_id usdtWallet) (json_stringify body))) in
                    if is_inl auditResult then receive_failed tx_hash "erpnext_audit_failed" else
                    let* promoteResult := pattempt (top (promoteBridgeDepositForCryptoReceive txHash (a_id acc)
                      (wl_id usdtWallet))) in
                    (if is_inl promoteResult then receive_alert tx_hash else pret tt) ;;;
                    sendBridgeDepositNotificationBestEffort (a_id acc) shown "USDT" ;;;
                    pret ReceiveSuccess
                end
            end
        end
    end)
  (fun _ => receive_failed tx_hash "internal_error").

Definition receive_status (code : string) : Z :=
  if bool_decide (code = "account_not_found") || bool_decide (code = "usdt_wallet_not_found") then 404
  else if bool_decide (code = "invalid_amount") then 400
  else 500.

Definition lockOnChainTxHash {A} (txHash : string) (asyncFn : BApp A) : BApp A :=
  let path := "locks:onchaintxhash:" +:+ txHash in
  with_lock (top (lock_acquire 4 path)) (top (lock_release path)) asyncFn.

Definition cryptoReceiveHandler (body : json) : BApp http_answer :=
  let tx_hash := prop "tx_hash" body in
  let address := prop "address" body in
  let amount := prop "amount" body in
  coerce [prop "currency" body; prop "network" body] ;;;
  if negb (json_truthy tx_hash) || negb (json_truthy address) || negb (json_truthy amount)
     || negb (bool_decide (str_upper (or_empty (prop "currency" body)) = "USDT"))
     || negb (bool_decide (str_lower (or_empty (prop "network" body)) = "ethereum"))
  then pret (reply 400 "error" "Invalid payload")
  else
    coerce [tx_hash] ;;;
    let* lockResult := pattempt (lockOnChainTxHash (opt_String tx_hash)
                                   (receive_locked body tx_hash address amount)) in
    match lockResult with
    | inl _ => pret (reply 200 "status" "already_processed")
    | inr ReceiveSuccess => pret (reply 200 "status" "success")
    | inr (ReceiveError code) => pret (reply (receive_status code) "error" code)
    end.

End Webhooks.
