(* ===== verification/BridgeReplay.v ===== *)
(** * Replay of Bridge events

    Model of [src/src/services/bridge/webhook-server/routes/replay.ts] and of
    [transfer-direction.ts]: who may replay an event, the handler an event is
    routed to, the body that handler is given, and the log of the attempt. *)

From stdpp Require Import base gmap list strings.
From Stdlib Require Import ZArith Lia Ascii.
From S2P Require Import Prelude JsStrings JsNumbers JsDecimals Processes Errors World.
From S2P Require Import Ibex Repos TopupWorld TransferRequests FygaroCheckout CreatedAt.
From S2P Require Import Json BridgeWorld BridgeRepo BridgeService BridgeWebhooks.

Open Scope Z_scope.
Open Scope flash_scope.

(** ** Routing *)

Inductive RouteKey := RouteKyc | RouteDeposit | RouteTransfer | RouteExternalAccount.

#[global] Instance RouteKey_eq_dec : EqDecision RouteKey.
Proof. solve_decision. Defined.

Definition route_text (r : RouteKey) : string :=
  match r with
  | RouteKyc => "kyc" | RouteDeposit => "deposit" | RouteTransfer => "transfer"
  | RouteExternalAccount => "external_account"
  end.

Definition DEPOSIT_EVENT_TYPES : list string :=
  ["funds_scheduled"; "funds_received"; "payment_submitted"; "payment_processed"; "in_review";
   "microdeposit"; "refund_in_flight"; "refunded"; "refund_failed"].

Definition starts_with (p s : string) : bool := bool_decide (is_Some (after_prefix p s)).

Definition toRouteKey (eventType : string) : option RouteKey :=
  if starts_with "kyc" eventType then Some RouteKyc
  else if starts_with "transfer" eventType then Some RouteTransfer
  else if starts_with "external_account" eventType then Some RouteExternalAccount
  else if bool_decide (eventType ∈ DEPOSIT_EVENT_TYPES) then Some RouteDeposit
  else None.

Definition isOutboundBridgeWithdrawal (obj : json) : bool :=
  is_text "ethereum" (prop_opt "payment_rail" (present (prop "source" obj)))
  && is_text "ach" (prop_opt "payment_rail" (present (prop "destination" obj))).

Definition OUTBOUND_WITHDRAWAL_REPLAY_STATUSES : list string :=
  ["payment_processed"; "undeliverable"; "returned"; "refunded"; "refund_failed"; "missing_return_policy";
   "error"; "canceled"].

Definition transferReplayEventTypeForStatus (status : string) : option string :=
  if negb (bool_decide (status ∈ OUTBOUND_WITHDRAWAL_REPLAY_STATUSES)) then None
  else if bool_decide (status = "payment_processed") then Some "transfer.payment_processed"
  else Some "transfer.failed".

Definition KYC_BRIDGE_STATUSES : list string :=
  ["not_started"; "incomplete"; "awaiting_questionnaire"; "awaiting_ubo"; "under_review"; "approved";
   "rejected"; "paused"; "offboarded"].

(** The type of an event whose own type has no route: from its status. *)
Definition type_from_status (eventType status : string) (obj : json) : string :=
  if bool_decide (status ∈ DEPOSIT_EVENT_TYPES) then
    match (if isOutboundBridgeWithdrawal obj then transferReplayEventTypeForStatus status else None) with
    | Some transferEvent => transferEvent
    | None => status
    end
  else if bool_decide (status ∈ KYC_BRIDGE_STATUSES) then "kyc." +:+ status
  else if bool_decide (status = "completed") || bool_decide (status = "failed") then "transfer." +:+ status
  else eventType.

Definition resolveReplayEventType (eventType : string) (eventObjectStatus : option string) (obj : json) :
    string :=
  match toRouteKey eventType, eventObjectStatus with
  | Some _, _ => eventType
  | None, Some status => if nonempty status then type_from_status eventType status obj else eventType
  | None, None => eventType
  end.

(** The body of the request a handler is given. *)
Definition toHandlerBody (routeKey : RouteKey) (eventId eventType : string) (obj : json) : json :=
  if bool_decide (routeKey = RouteTransfer) then
    JObj [("event", JStr eventType);
          ("data", object [("transfer_id", coalesce (prop "transfer_id" obj) (prop "id" obj));
                           ("state", prop "state" obj); ("amount", prop "amount" obj);
                           ("currency", prop "currency" obj); ("reason", prop "reason" obj);
                           ("return_reason", prop "return_reason" obj)])]
  else JObj [("event_id", JStr eventId); ("event_object", obj)].

Definition WEAK_REPLAY_SECRETS : list string := ["also-not-so-secret"; "change-me"; "<replace>"].

(** A field of type Boolean. *)
Definition cast_Boolean (v : json) : option bool :=
  match v with
  | JBool b => Some b
  | JStr s => if bool_decide (s ∈ ["true"; "1"; "yes"]) then Some true
              else if bool_decide (s ∈ ["false"; "0"; "no"]) then Some false else None
  | JNum x => if num_same x (num_of_Z 1) then Some true
              else if num_same x (num_of_Z 0) then Some false else None
  | _ => None
  end.

Section Replay.
Context `{X : BridgeExternal}.

(** ** Who may replay *)

(** An entry that is not an address or a range of them is ignored. *)
Definition parseReplayAllowlistEntry (entry : string) : option (string * ip_kind) :=
  let trimmed := js_trim entry in
  if nonempty trimmed then pair trimmed <$> ip_parse_range trimmed else None.

Definition parseReplayAllowlist (value : option string) : list (string * ip_kind) :=
  omap parseReplayAllowlistEntry (split_on "," (default EmptyString value)).

Definition valid_ip (clientIp : option string) : option string :=
  ip ← nonempty_opt clientIp; if ip_valid ip then Some ip else None.

Definition isLoopbackIp (clientIp : option string) : bool :=
  match valid_ip clientIp with Some ip => ip_process_loopback ip | None => false end.

Definition isReplayIpAllowed (clientIp allowlistEnv : option string) : bool :=
  match valid_ip clientIp with
  | None => false
  | Some ip =>
      existsb (fun r => bool_decide (ip_process_kind ip = r.2) && ip_match ip r.1)
        (parseReplayAllowlist allowlistEnv)
  end.

(** [remoteAddress] is that of the socket, [ip] the one Express resolves. *)
Definition replayIngressMiddleware (remoteAddress ip : option string) (next : BApp http_answer) :
    BApp http_answer :=
  if isLoopbackIp remoteAddress then next
  else if negb (isReplayIpAllowed (nullish ip remoteAddress) (env_replayAllowedIps bridgeConfig))
  then pret (reply 403 "error" "Forbidden")
  else next.

Definition configured_secret : string :=
  js_trim (default EmptyString (if truthy (env_replaySecret bridgeConfig)
                                then env_replaySecret bridgeConfig else replaySecret bridgeConfig)).

(** [replace(/^Bearer /, "")] *)
Definition bearer_token (authorization : option string) : string :=
  let header := default EmptyString authorization in
  default header (after_prefix "Bearer " header).

(** [Buffer.from(s).length]: a character of a header is one of the first 256, of
    which UTF-8 writes the upper half in two bytes; so is one of the secret
    here. *)
Fixpoint byteLength (s : string) : Z :=
  match s with
  | EmptyString => 0
  | String c r => (if (nat_of_ascii c <? 128)%nat then 1 else 2) + byteLength r
  end.

(** [crypto.timingSafeEqual] of the bytes, which throws on different lengths. *)
Definition timingSafeEqual (a b : string) : outcome error bool :=
  if byteLength a =? byteLength b then Ok (bool_decide (a = b))
  else Throw (new_error JsError "Input buffers must have the same byte length").

(** An exception is answered by express, with 500: it is [Throw]. *)
Definition replayAuthMiddleware (authorization : option string) (next : BApp http_answer) :
    BApp http_answer :=
  let secret := configured_secret in
  if negb (nonempty secret) || bool_decide (secret ∈ WEAK_REPLAY_SECRETS)
  then pret (reply 503 "error" "Replay secret not configured")
  else
  let token := bearer_token authorization in
  let* valid := if slen token =? slen secret then Done (timingSafeEqual token secret) else pret false in
  if negb valid then pret (reply 401 "error" "Unauthorized") else next.

(** ** The replay *)

(** [new Date(v)] of a value that has a primitive one; the text of an object is
    no date. *)
Definition date_of (v : option json) : option Z :=
  match v with
  | Some (JStr s) => js_Date s
  | Some (JNum x) => Date_of_ms x
  | Some (JBool b) => Some (if b then 1 else 0)
  | Some (JArr l) => js_Date (json_String (JArr l))
  | _ => None
  end.

Definition run_handler (r : RouteKey) (body : json) : BApp http_answer :=
  match r with
  | RouteKyc => kycHandler body
  | RouteDeposit => depositHandler body
  | RouteTransfer => transferHandler body
  | RouteExternalAccount => externalAccountHandler body
  end.

(** The id of the event, or a new one. *)
Definition replay_event_id (body obj : json) : BApp string :=
  match typeof_string (prop "event_id" body), typeof_string (prop "event_id" obj),
        typeof_string (prop "id" obj) with
  | Some id, _, _ | None, Some id, _ | None, None, Some id => pret id
  | None, None, None => svc randomUUID
  end.

(** The attempt is logged; a flag that is no Boolean is an error of the cast. *)
Definition log_replay (dry_run : json) (log : bool -> replay_log) : BApp unit :=
  match cast_Boolean dry_run with
  | Some b => createBridgeReplay (log b)
  | None => pfail (new_error JsError "Cast to Boolean failed")
  end.

Definition replay_routed (route : RouteKey) (eventType operator : string) (body obj dry_run : json)
    (created from until : Z) : BApp http_answer :=
  let* eventId := replay_event_id body obj in
  let* at_ := now in
  let log status response dryRun :=
    mkReplay eventId (route_text route) obj created at_ operator from until status response dryRun in
  if json_truthy (Some dry_run) then
    let* logged := pattempt (log_replay dry_run (log 0 (JObj [("dry_run", JBool true)]))) in
    if is_inl logged then pret (reply 500 "error" "Failed to log dry-run replay attempt")
    else pret (reply 200 "message" "Dry run successful, event not replayed")
  else
    let* answer := run_handler route (toHandlerBody route eventId eventType obj) in
    let* logged := pattempt (log_replay dry_run (log (an_status answer) (an_body answer))) in
    if is_inl logged then pret (reply 500 "error" "Failed to log replay attempt")
    else pret (mkAnswer (an_status answer)
                 (JObj [("status", JStr "replayed"); ("event_id", JStr eventId);
                        ("handler_status", JNum (num_of_Z (an_status answer)));
                        ("handler_response", an_body answer)])).

Definition is_object (v : option json) : bool :=
  match v with Some (JObj _) | Some (JArr _) => true | _ => false end.

Definition missing_fields : string :=
  "Missing required fields: event_type, event_object, event_created_at, operator, time_window_start, time_window_end".

Definition replayHandler (body : json) : BApp http_answer :=
  if negb (forallb (fun name => json_truthy (prop name body))
             ["event_type"; "event_object"; "event_created_at"; "operator"; "time_window_start";
              "time_window_end"])
  then pret (reply 400 "error" missing_fields) else
  match typeof_string (prop "operator" body) with
  | None => pret (reply 400 "error" "operator must be a non-empty string")
  | Some operator =>
      if negb (nonempty (js_trim operator))
      then pret (reply 400 "error" "operator must be a non-empty string")
      else if negb (is_object (prop "event_object" body))
      then pret (reply 400 "error" "event_object must be an object") else
      let obj := default JNull (prop "event_object" body) in
      coerce [prop "event_created_at" body; prop "time_window_start" body; prop "time_window_end" body] ;;;
      match date_of (prop "event_created_at" body), date_of (prop "time_window_start" body),
            date_of (prop "time_window_end" body) with
      | Some created, Some from, Some until =>
          match typeof_string (prop "event_type" body) with
          | None => pthrow (type_error "bridgeEventType.startsWith is not a function")
          | Some event_type =>
              let eventType := resolveReplayEventType event_type
                                 (typeof_string (prop "event_object_status" body)) obj in
              match toRouteKey eventType with
              | None => pret (reply 400 "error" "Unsupported event_type for replay")
              | Some route =>
                  replay_routed route eventType operator body obj
                    (default (JBool false) (prop "dry_run" body)) created from until
              end
          end
      | _, _, _ =>
          pret (reply 400 "error" "event_created_at, time_window_start, and time_window_end must be valid dates")
      end
  end.

End Replay.
