(* ===== verification/BridgeGates.v ===== *)
(** * What guards the webhooks, and that they answer

    A webhook handler runs only behind a signature Bridge made, of the body that
    was received, within the accepted age; a replay only for those who may; every
    handler ends with an answer, whatever fails; and a replayed transfer is
    refused by the handler it is routed to. *)

From stdpp Require Import base gmap list strings.
From Stdlib Require Import ZArith Lia Ascii.
From S2P Require Import Prelude JsStrings JsNumbers JsDecimals Processes Errors World.
From S2P Require Import MoneyAmounts Ibex Repos TopupWorld TransferRequests FygaroCheckout Json.
From S2P Require Import BridgeWorld BridgeRepo BridgeService Referrals BridgeReconciliation.
From S2P Require Import BridgeWebhooks BridgeReplay.

Open Scope Z_scope.
Open Scope flash_scope.

(** ** Signatures *)

Section Gates.
Context `{X : BridgeExternal}.

(** The world after a reading of the clock, and the time that was read. *)
Definition ticked (w : bworld) : bworld :=
  set_top (set_base (next_read (t_base (b_top w))) (b_top w)) w.
Definition time_of (w : bworld) : Z := clock (w_reads (t_base (b_top w))).

Lemma run_now {A} (k : Z -> BApp A) w : run (pbind now k) w = run (k (time_of w)) (ticked w).
Proof. done. Qed.

(** A header that is accepted: its timestamp and its signature, of the body. *)
Definition accepted (key : webhook_key) (signature rawBody : option string) (at_ : Z) : Prop :=
  exists header timestamp sig body ms,
    signature = Some header /\ rawBody = Some body /\
    find_part "t=" (split_on "," header) = Some timestamp /\
    find_part "v0=" (split_on "," header) = Some sig /\
    parseInt10 timestamp = Fin ms /\ skewed at_ ms (timestampSkewMs bridgeConfig) = false /\
    verify_rsa_sha256 (publicKeys bridgeConfig key) (sha256_hex (timestamp +:+ "." +:+ body)) sig = Ok true.

Lemma nonempty_opt_Some o s : nonempty_opt o = Some s -> o = Some s.
Proof. destruct o as [s'|]; [|done]. cbn. destruct (nonempty s'); [|done]. by intros [= ->]. Qed.

(** C27: a request reaches a handler of Bridge's webhooks only with a signature of
    its body that verifies under the key of the route and is not too old;
    otherwise it is refused and nothing changes. *)
Theorem signature_required (key : webhook_key) (signature rawBody : option string) (next : BApp http_answer)
    (w : bworld) :
  let r := run (verifyBridgeSignature key signature rawBody next) w in
  (accepted key signature rawBody (time_of w) /\ (r = run next (ticked w))) \/
  (exists (status : Z) (message : string), (status = 401 \/ status = 500) /\ r.1 = Ok (reply status "error" message) /\
     b_store r.2 = b_store w /\ t_rows (b_top r.2) = t_rows (b_top w) /\
     t_redis (b_top r.2) = t_redis (b_top w) /\ w_paid (t_base (b_top r.2)) = w_paid (t_base (b_top w))).
Proof.
  unfold verifyBridgeSignature. destruct (nonempty_opt signature) as [header|] eqn:Hh; [|right; eauto 10].
  apply nonempty_opt_Some in Hh as ->. cbv zeta.
  destruct (find_part "t=" _) as [timestamp|] eqn:Ht; [|right; eauto 10].
  destruct (find_part "v0=" _) as [sig|] eqn:Hs; [|right; eauto 10]. rewrite run_now.
  destruct (parseInt10 timestamp) as [ms|neg|] eqn:Hms; [|right; eauto 10..].
  destruct (skewed _ ms _) eqn:Hsk; [right; eauto 10|].
  destruct (nonempty_opt rawBody) as [body|] eqn:Hb; [|right; eauto 10]. apply nonempty_opt_Some in Hb as ->.
  destruct (verify_rsa_sha256 _ _ sig) as [[]|e|e] eqn:Hv; [left|right; eauto 10..].
  split; [|done]. by exists header, timestamp, sig, body, ms.
Qed.

(** ** Replays *)

Definition may_replay (remoteAddress ip authorization : option string) : Prop :=
  (isLoopbackIp remoteAddress = true \/
   isReplayIpAllowed (nullish ip remoteAddress) (env_replayAllowedIps bridgeConfig) = true) /\
  nonempty configured_secret = true /\ (configured_secret ∉ WEAK_REPLAY_SECRETS) /\
  bearer_token authorization = configured_secret.

Lemma auth_cases authorization next w :
  let r := run (replayAuthMiddleware authorization next) w in
  let token := bearer_token authorization in
  (nonempty configured_secret = true /\ (configured_secret ∉ WEAK_REPLAY_SECRETS) /\
   token = configured_secret /\ r = run next w) \/
  (exists status message, (status = 401 \/ status = 403 \/ status = 503) /\
     r = (Ok (reply status "error" message), w)) \/
  (slen token = slen configured_secret /\ byteLength token <> byteLength configured_secret /\
   exists e, r = (Throw e, w)).
Proof.
  unfold replayAuthMiddleware. cbv zeta. destruct (nonempty configured_secret); [|right; left; eauto 10].
  cbn [negb orb]. case_bool_decide; [right; left; eauto 10|].
  destruct (Z.eqb_spec (slen (bearer_token authorization)) (slen configured_secret)) as [Hl|];
    [|right; left; eauto 10].
  unfold timingSafeEqual. destruct (Z.eqb_spec (byteLength (bearer_token authorization))
    (byteLength configured_secret)) as [|Hb]; [|right; right; cbn; eauto].
  cbn [pbind]. case_bool_decide; [by left|right; left; eauto 10].
Qed.

(** C28: an event is replayed only from this machine or an allowed address, with
    the configured secret, which may not be empty or one of the known weak ones;
    otherwise nothing happens and the request is refused, or the comparison
    throws: that of a token of as many characters and another number of bytes. *)
Theorem replay_guarded (remoteAddress ip authorization : option string) (body : json) (w : bworld) :
  let r := run (replayIngressMiddleware remoteAddress ip
                  (replayAuthMiddleware authorization (replayHandler body))) w in
  let token := bearer_token authorization in
  (may_replay remoteAddress ip authorization /\ r = run (replayHandler body) w) \/
  (exists status message, (status = 401 \/ status = 403 \/ status = 503) /\
     r = (Ok (reply status "error" message), w)) \/
  (slen token = slen configured_secret /\ byteLength token <> byteLength configured_secret /\
   exists e, r = (Throw e, w)).
Proof.
  cbv zeta. unfold replayIngressMiddleware, may_replay.
  pose proof (auth_cases authorization (replayHandler body) w) as Ha. cbv zeta in Ha.
  destruct (isLoopbackIp remoteAddress) eqn:Hl; [|destruct (isReplayIpAllowed _ _) eqn:Hi; cbn [negb]];
    [..|right; left; eauto 10];
    (destruct Ha as [(H1 & H2 & H3 & Hr)|[Hr|Hr]]; [left|by right; left|by right; right]);
    split_and!; auto.
Qed.

(** The body a replayed transfer event is given to the handler in has no
    event object, so the handler refuses every one of them. *)
Theorem replayed_transfer_refused (eventId eventType : string) (obj : json) (w : bworld) :
  run (run_handler RouteTransfer (toHandlerBody RouteTransfer eventId eventType obj)) w =
  (Ok (reply 400 "error" "Invalid payload"), w).
Proof. done. Qed.

End Gates.

(** ** Answers *)

Section Endings.
Context {W : Type}.

(** A process that ends with a value, whatever the world does; one that ends with
    a value or with an exception; and one that does not throw. *)
Fixpoint answers {A} (p : proc W error A) : Prop :=
  match p with Done o => is_ok o = true | Act u k => forall w, answers (k w) end.

Fixpoint returns {A} (p : proc W error A) : Prop :=
  match p with
  | Done (Err _) => False
  | Done _ => True
  | Act u k => forall w, returns (k w)
  end.

Fixpoint tame {A} (p : proc W error A) : Prop :=
  match p with
  | Done (Throw _) => False
  | Done _ => True
  | Act u k => forall w, tame (k w)
  end.

Lemma answers_run {A} (p : proc W error A) w : answers p -> exists a, (run p w).1 = Ok a.
Proof.
  revert w. induction p as [[a|e|e]|u k IH]; intros w Hp; [by exists a|done|done|]. by apply IH.
Qed.

Lemma answers_catch {A} (c : proc W error A) h : returns c -> (forall e, answers (h e)) -> answers (pcatch c h).
Proof. induction c as [[a|e|e]|u k IH]; intros Hc Hh; [done|done|apply Hh|]. intros w. by apply IH. Qed.

Lemma answers_attempt {A} (c : proc W error A) : tame c -> answers (pattempt c).
Proof. induction c as [[a|e|e]|u n IH]; [done..|]. intros Hc w. by apply IH. Qed.

Lemma answers_bind {A B} (c : proc W error A) (k : A -> proc W error B) :
  answers c -> (forall a, answers (k a)) -> answers (pbind c k).
Proof. induction c as [[a|e|e]|u n IH]; intros Hc Hk; [apply Hk|done|done|]. intros w. by apply IH. Qed.

Lemma answers_returns {A} (c : proc W error A) : answers c -> returns c.
Proof. induction c as [[a|e|e]|u k IH]; [done..|]. intros Hc w. by apply IH. Qed.

Lemma answers_tame {A} (c : proc W error A) : answers c -> tame c.
Proof. induction c as [[a|e|e]|u k IH]; [done..|]. intros Hc w. by apply IH. Qed.

Lemma answers_capture {A} (c : proc W error A) : answers (pcapture c).
Proof. induction c as [o|u n IH]; [done|]. intros w. apply IH. Qed.

Lemma returns_bind {A B} (c : proc W error A) (k : A -> proc W error B) :
  returns c -> (forall a, returns (k a)) -> returns (pbind c k).
Proof. induction c as [[a|e|e]|u n IH]; intros Hc Hk; [apply Hk|done|done|]. intros w. by apply IH. Qed.

Lemma returns_attempt {A} (c : proc W error A) : returns (pattempt c).
Proof. induction c as [[a|e|e]|u n IH]; [done..|]. intros w. apply IH. Qed.

Lemma returns_catch {A} (c : proc W error A) h : returns c -> (forall e, returns (h e)) -> returns (pcatch c h).
Proof. induction c as [[a|e|e]|u k IH]; intros Hc Hh; [done|done|apply Hh|]. intros w. by apply IH. Qed.

Lemma returns_map {A B} (f : A -> B) (o : outcome error A) :
  returns (Done o) -> returns (Done (outcome_map f o)).
Proof. by destruct o. Qed.

Lemma tame_bind {A B} (c : proc W error A) (k : A -> proc W error B) :
  tame c -> (forall a, tame (k a)) -> tame (pbind c k).
Proof. induction c as [[a|e|e]|u n IH]; intros Hc Hk; [apply Hk|done|done|]. intros w. by apply IH. Qed.

Lemma tame_catch {A} (c : proc W error A) h : (forall e, tame (h e)) -> tame (pcatch c h).
Proof. intros Hh. induction c as [[a|e|e]|u k IH]; [done|done|apply Hh|]. intros w. by apply IH. Qed.

End Endings.

Lemma tame_focus {W V A} (get : W -> V) (put : V -> W -> W) (c : proc V error A) :
  tame c -> tame (focus get put c).
Proof. induction c as [[a|e|e]|u k IH]; [done..|]. intros Hc w. by apply IH. Qed.

(** Case analysis, from the inside. *)
Ltac inner_match :=
  repeat match goal with
  | |- context [match ?x with _ => _ end] =>
      lazymatch x with context [match _ with _ => _ end] => fail | _ => destruct x end
  end.

Ltac answers_step :=
  match goal with
  | |- forall _, _ => intros
  | |- answers (pbind _ _) => apply answers_bind
  | |- answers (pcatch _ _) => apply answers_catch
  | |- answers (pret _) => done
  | |- answers (match ?x with _ => _ end) => destruct x
  | |- answers (let _ := _ in _) => cbv zeta
  | |- returns (pbind _ _) => apply returns_bind
  | |- returns (pattempt _) => apply returns_attempt
  | |- returns (pcatch _ _) => apply returns_catch
  | |- returns (pret _) => exact I
  | |- returns (pthrow _) => exact I
  | |- returns (match ?x with _ => _ end) => destruct x
  | |- returns (let _ := _ in _) => cbv zeta
  | |- answers (top _) => done
  | |- returns (top _) => done
  | |- answers (atomic _) => solve [intros ?; cbn; inner_match; done]
  | |- returns (atomic _) => solve [intros ?; cbn; inner_match; done]
  | |- returns (Done (Ok _)) => exact I
  | |- returns (Done (outcome_map _ _)) => apply returns_map
  | |- returns (Done (bindo (rejection_list ?v) _)) =>
      solve [unfold formatRejectionReason; destruct v as [[]|]; cbn; inner_match; done]
  | |- returns _ => solve [auto with nocore]
  | |- answers ?c => let h := get_head c in unfold h
  | |- returns ?c => let h := get_head c in unfold h
  end.
Ltac answers_tac := repeat answers_step.

Lemma answers_coerce {W} vs : coercible vs = true -> answers (coerce (W := W) vs).
Proof. unfold coerce. by intros ->. Qed.

Section Answered.
Context `{X : BridgeExternal}.

Lemma answers_deposit body : coercible [prop "event_id" body] = true -> answers (depositHandler body).
Proof.
  intros Hc. unfold depositHandler. cbv zeta. destruct (_ || _); [done|]. destruct (_ || _); [done|].
  apply answers_catch; [answers_tac|]. intros e. apply answers_bind; [by apply answers_coerce|done].
Qed.

Lemma answers_transfer body :
  coercible [transfer_id_of (event_object body); transfer_event body] = true -> answers (transferHandler body).
Proof.
  intros Hc. unfold transferHandler. cbv zeta. destruct (_ || _); [done|].
  apply answers_catch; [answers_tac|]. intros e. apply answers_bind; [by apply answers_coerce|done].
Qed.

Lemma answers_external body : answers (externalAccountHandler body).
Proof. answers_tac. Qed.

Lemma returns_collection {A} (op : bridge_store -> outcome error A * bridge_store) :
  (forall s e, (op s).1 <> Err e) -> returns (collection op).
Proof.
  intros Hop w. cbn. specialize (Hop (b_store w)). destruct (op (b_store w)) as [o s]. cbn in *.
  destruct (mongo_fault (w_ops (t_base (b_top w)))) as [[msg|msg]|]; [done|done|]. destruct o as [a|e|e]; [done|by destruct (Hop e)|done].
Qed.

Lemma returns_mark id u : returns (markReward id u).
Proof.
  apply returns_collection. intros s e. unfold update_invite, save_invite. by repeat case_match.
Qed.

Lemma returns_claim id at_ : returns (collection (claim_invite id at_)).
Proof.
  apply returns_collection. intros s e. unfold claim_invite, save_invite.
  by repeat (case_match; simplify_eq/=).
Qed.

Lemma returns_query {A} (f : bridge_store -> A) : returns (query f).
Proof. by apply returns_collection. Qed.

Lemma returns_or_downgrade {A} id seq a b (c : BApp A) k :
  (forall v, returns (k v)) -> returns (or_downgrade id seq a b c k).
Proof.
  intros Hk. unfold or_downgrade. apply returns_bind; [|intros [v|e|e]; [apply Hk|..]].
  - induction c as [o|u n IH]; [done|]. intros w. apply IH.
  - apply returns_bind; [done|]. intros. apply returns_mark.
  - apply returns_bind; [done|]. intros. apply returns_mark.
Qed.

Lemma answers_award a : answers (awardReferralRewardOnKycApproval a).
Proof.
  pose proof returns_claim. pose proof @returns_query.
  assert (forall i, returns (award_claimed a i)) as Hc.
  { intros i. unfold award_claimed, pay_both. repeat (apply returns_or_downgrade || answers_step). }
  unfold awardReferralRewardOnKycApproval. repeat (apply returns_query || apply returns_claim || answers_step).
Qed.

Lemma answers_kyc body : is_Some (event_object body) -> answers (kycHandler body).
Proof.
  intros [obj Ho]. unfold kycHandler. rewrite Ho. cbv zeta. destruct (_ || _); [done|].
  apply answers_catch; [|done]. pose proof answers_award as Ha.
  repeat (apply answers_returns, Ha || answers_step).
Qed.

Lemma tame_lock {A} path (body : BApp A) :
  tame (with_lock (top (lock_acquire 4 path)) (top (lock_release path)) body).
Proof.
  assert (forall n, tame (lock_acquire n path)) as Hl.
  { induction n as [|n IH]; [done|]. cbn [lock_acquire]. apply tame_bind; [by apply tame_catch|].
    intros []; [done|exact IH]. }
  unfold with_lock. apply tame_bind; [apply tame_focus, Hl|]. intros []; [|done].
  apply tame_bind; [apply answers_tame, answers_capture|]. intros r.
  apply tame_bind; [apply tame_focus; by apply tame_catch|]. intros []; [|done]. by destruct r.
Qed.

Lemma answers_receive body :
  coercible [prop "currency" body; prop "network" body; prop "tx_hash" body] = true ->
  answers (cryptoReceiveHandler body).
Proof.
  unfold coercible. cbn [forallb]. intros [Hc [Hn [Ht _]%andb_true_iff]%andb_true_iff]%andb_true_iff. unfold cryptoReceiveHandler.
  apply answers_bind; [apply answers_coerce; unfold coercible; cbn [forallb]; by rewrite Hc, Hn|]. intros _.
  destruct (_ || _); [done|].
  apply answers_bind; [apply answers_coerce; unfold coercible; cbn [forallb]; by rewrite Ht|]. intros _.
  apply answers_bind; [apply answers_attempt, tame_lock|]. intros [e|[|code]]; done.
Qed.

(** C37: the webhooks of Bridge and of IBEX's receipts are answered, whatever the
    body holds and whatever fails: the handlers end, and not with an exception.
    What leaves a request unanswered is a KYC event without an event object, and
    an object with a member [toString] where a text is made outside the [try]:
    of the ids in the alert of a failed deposit or transfer, and of the currency,
    the network and the hash of a receipt. *)
Theorem webhooks_answered (body : json) (w : bworld) :
  (coercible [prop "event_id" body] = true -> exists a, (run (depositHandler body) w).1 = Ok a) /\
  (coercible [transfer_id_of (event_object body); transfer_event body] = true ->
     exists a, (run (transferHandler body) w).1 = Ok a) /\
  (exists a, (run (externalAccountHandler body) w).1 = Ok a) /\
  (is_Some (event_object body) <-> exists a, (run (kycHandler body) w).1 = Ok a) /\
  (coercible [prop "currency" body; prop "network" body; prop "tx_hash" body] = true ->
     exists a, (run (cryptoReceiveHandler body) w).1 = Ok a) /\
  (coercible [prop "currency" body; prop "network" body] = false ->
     exists e, run (cryptoReceiveHandler body) w = (Throw e, w)).
Proof.
  split_and!; [intros; by apply answers_run, answers_deposit|intros; by apply answers_run, answers_transfer
    |apply answers_run, answers_external| |intros; by apply answers_run, answers_receive|].
  - split; [intros Ho; by apply answers_run, answers_kyc|]. intros [a Ha]. unfold kycHandler in Ha.
    by destruct (event_object body) as [obj|].
  - intros Hc. unfold cryptoReceiveHandler, coerce. rewrite Hc. cbn. eauto.
Qed.

End Answered.
