(* ===== verification/BridgeWithdrawals.v ===== *)
(** * Withdrawals under every schedule

    What holds of the withdrawal rows and of the USDT that leaves, whatever calls
    of the service, webhooks and reconciliations run at the same time, in
    whatever order, and whatever fails: a row moves forward only, and a row is
    paid for at most once, with the amount the customer asked for. *)

From stdpp Require Import base gmap list strings.
From Stdlib Require Import ZArith Lia Ascii.
From S2P Require Import Prelude JsStrings JsNumbers JsDecimals Processes Errors World.
From S2P Require Import BigintMoney MoneyAmounts Ibex Repos TopupWorld TransferRequests FygaroCheckout Json.
From S2P Require Import BridgeWorld BridgeRepo BridgeFees IbexCrypto BridgeService Referrals Invites.
From S2P Require Import BridgeReconciliation BridgeWebhooks BridgeReplay.

Open Scope Z_scope.
Open Scope flash_scope.

(** ** The requests *)

(** Everything the integration is asked to do. *)
Inductive bridge_request :=
| InitiateKyc (accountId email : string) (type : option string) (full_name : string)
| CreateVirtual (accountId : string)
| AddExternal (accountId : string)
| ExchangeToken (accountId linkToken publicToken : string)
| CreateExternal (accountId : string) (data : json)
| SetDefault (accountId externalAccountId : string)
| DeleteExternal (accountId externalAccountId : string)
| ListExternals (accountId : string)
| RequestWithdrawal (accountId amount externalAccountId : string)
| InitiateWithdrawal (accountId withdrawalId : string)
| CancelWithdrawal (accountId withdrawalId : string)
| ListWithdrawals (accountId : string)
| KycStatus (accountId : string)
| ReadVirtual (accountId : string)
| DepositHook (body : json)
| TransferHook (body : json)
| KycHook (body : json)
| ExternalHook (body : json)
| ReplayHook (body : json)
| ReceiveHook (body : json)
| ReconcileDeposits (windowMs : Z)
| ReconcileWithdrawals (windowMs : Z)
| BackgroundCheck.

Section Requests.
Context `{X : BridgeExternal}.

Definition serve (r : bridge_request) : BApp unit :=
  match r with
  | InitiateKyc a email type name => initiateKyc a email type name ;;; pret tt
  | CreateVirtual a => createVirtualAccount a ;;; pret tt
  | AddExternal a => addExternalAccount a ;;; pret tt
  | ExchangeToken a link public => exchangePlaidPublicToken a link public ;;; pret tt
  | CreateExternal a data => createExternalAccount a data ;;; pret tt
  | SetDefault a x => setDefaultExternalAccount a x ;;; pret tt
  | DeleteExternal a x => deleteExternalAccount a x ;;; pret tt
  | ListExternals a => getExternalAccounts a ;;; pret tt
  | RequestWithdrawal a amount x => requestWithdrawal a amount x ;;; pret tt
  | InitiateWithdrawal a id => initiateWithdrawal a id ;;; pret tt
  | CancelWithdrawal a id => cancelWithdrawalRequest a id ;;; pret tt
  | ListWithdrawals a => getWithdrawals a ;;; pret tt
  | KycStatus a => getKycStatus a ;;; pret tt
  | ReadVirtual a => getVirtualAccount a ;;; pret tt
  | DepositHook body => depositHandler body ;;; pret tt
  | TransferHook body => transferHandler body ;;; pret tt
  | KycHook body => kycHandler body ;;; pret tt
  | ExternalHook body => externalAccountHandler body ;;; pret tt
  | ReplayHook body => replayHandler body ;;; pret tt
  | ReceiveHook body => cryptoReceiveHandler body ;;; pret tt
  | ReconcileDeposits window => reconcileBridgeAndIbexDeposits window ;;; pret tt
  | ReconcileWithdrawals window => reconcileBridgeAndIbexWithdrawals window ;;; pret tt
  | BackgroundCheck => run_task
  end.

End Requests.

(** ** Calls that leave the rows and the sends alone *)

Create HintDb rows_alone.

Section Alone.
Context `{X : BridgeExternal} {S : Type}.
Variable J : gmap string withdrawal -> list crypto_send -> list S -> Prop.

Definition on_rows (w : bworld) (ss : list S) : Prop := J (s_withdrawals (b_store w)) (b_sent w) ss.

Abbreviation alone := (quietly on_rows).

Lemma alone_atomic {A} (c : M bworld error A) :
  (forall w, s_withdrawals (b_store (c w).2) = s_withdrawals (b_store w) /\ b_sent (c w).2 = b_sent w) ->
  alone (atomic c).
Proof.
  intros Hc. apply keeps_atomic. intros w ss HI. split; [|done]. destruct (Hc w) as [E1 E2].
  unfold on_rows. by rewrite E1, E2.
Qed.

Lemma alone_top {A} (c : TApp A) : alone (top c).
Proof. apply quietly_focus. done. Qed.

Lemma alone_collection {A} (op : bridge_store -> outcome error A * bridge_store) :
  (forall s, s_withdrawals (op s).2 = s_withdrawals s) -> alone (collection op).
Proof.
  intros Hop. apply alone_atomic. intros w. specialize (Hop (b_store w)).
  destruct (op (b_store w)) as [o s]. cbn in Hop. cbn.
  by destruct (mongo_fault (w_ops (t_base (b_top w)))) as [[msg|msg]|].
Qed.

Lemma alone_query {A} (f : bridge_store -> A) : alone (query f).
Proof. by apply alone_collection. Qed.

Lemma alone_bpeek {A} (f : bworld -> A) : alone (bpeek f).
Proof. by apply alone_atomic. Qed.

Lemma alone_fetch {T} (c : api_call T) header : alone (fetch c header).
Proof. apply alone_atomic. intros w. by destruct (bridge_api T c header (b_api w)). Qed.

Lemma alone_push n : alone (push_notification n).
Proof. by apply alone_atomic. Qed.

End Alone.

#[export] Hint Resolve alone_bpeek alone_fetch alone_push : rows_alone.

(** One step of the proof that a call is of that kind. *)
Ltac alone_step :=
  quiet_step
    ltac:(apply alone_top)
    ltac:(apply alone_query)
    ltac:(solve [apply alone_collection; intros; unfold BridgeAccountsRepo.upsert_external,
                 BridgeAccountsRepo.update_external, claim_invite, update_invite, save_invite;
                 repeat case_match; simplify_eq; done])
    ltac:(solve [apply alone_atomic; intros; repeat case_match; done])
    ltac:(solve [auto with rows_alone nocore]).
Ltac alone_tac := repeat alone_step.

Section AloneCalls.
Context `{X : BridgeExternal} {S : Type}.
Variable J : gmap string withdrawal -> list crypto_send -> list S -> Prop.

Abbreviation alone := (quietly (on_rows J)).

Lemma alone_call {T} (c : api_call T) key : alone (call c key).
Proof. alone_tac. Qed.

Lemma alone_body {T} (c : api_call T) key : alone (call_body c key).
Proof. pose proof (@alone_call). alone_tac. Qed.

(** The requests to IBEX that are not a send. *)
Lemma alone_requirements network id : alone (getCryptoSendRequirements network id).
Proof. alone_tac. Qed.

Lemma alone_sendInfo name r address : alone (createCryptoSendInfo name r address).
Proof. alone_tac. Qed.

Lemma alone_persist accountId l : alone (persist_externals accountId l).
Proof. induction l as [|x l IH]; cbn [persist_externals]; alone_tac; apply IH. Qed.

Lemma alone_sync accountId customerId : alone (syncExternalAccountsFromBridge accountId customerId).
Proof. pose proof (@alone_body). pose proof alone_persist. alone_tac. Qed.

End AloneCalls.

(** ** How a row moves *)

(** The statuses a withdrawal may have after another. *)
Definition reaches (a b : WithdrawalStatus) : bool :=
  match a, b with
  | WPending, _ => true
  | WSubmitted, (WSubmitted | WUsdtSent | WSendFailed | WCompleted | WFailed) => true
  | WUsdtSent, (WUsdtSent | WCompleted | WFailed) => true
  | _, _ => bool_decide (a = b)
  end.

Lemma reaches_refl a : reaches a a = true.
Proof. by destruct a. Qed.

Lemma reaches_trans a b c : reaches a b = true -> reaches b c = true -> reaches a c = true.
Proof. by destruct a, b, c. Qed.

Lemma reaches_pending a : reaches a WPending = true -> a = WPending.
Proof. by destruct a. Qed.

(** A row stays the same request of the same account; its amount may change when
    it is submitted. *)
Record moves (r r' : withdrawal) : Prop := mkMoves {
  moves_id : wd_id r' = wd_id r;
  moves_account : wd_accountId r' = wd_accountId r;
  moves_status : reaches (wd_status r) (wd_status r') = true;
  moves_amount : wd_status r' = WPending -> wd_amount r' = wd_amount r
}.

Lemma moves_refl r : moves r r.
Proof. by constructor; [..|apply reaches_refl|]. Qed.

Lemma moves_trans r r' r'' : moves r r' -> moves r' r'' -> moves r r''.
Proof.
  intros [I1 A1 S1 M1] [I2 A2 S2 M2]. constructor; [congruence|congruence|by eapply reaches_trans|].
  intros Hp. rewrite M2 by done. apply M1. rewrite Hp in S2. by apply reaches_pending in S2.
Qed.

Definition rows_wf (ws : gmap string withdrawal) : Prop :=
  forall id r, ws !! id = Some r -> wd_id r = id.

(** ** Ghost states

    A call that has read a row, one whose submission of a row was acknowledged,
    and one whose send was acknowledged. *)

Inductive handling :=
| Idle
| Reading (id amount : string)
| Claiming (id amount : string)
| Paid (id amount : string) (c : crypto_send).

Definition claim_of (g : handling) : option string :=
  match g with Claiming id _ | Paid id _ _ => Some id | _ => None end.

Definition paid_of (g : handling) : option crypto_send :=
  match g with Paid _ _ c => Some c | _ => None end.

(** The number IBEX is sent for an amount. *)
Definition number_of (amount : string) (x : js_num) : Prop :=
  exists a s, USDT_fromNumber amount = Ok a /\ toIbex a = Ok s /\ js_Number s = Some x.

Section Rows.
Variable ws0 : gmap string withdrawal.
Variable sent0 : list crypto_send.

Definition claimed_row (ws : gmap string withdrawal) (id amount : string) : Prop :=
  (exists r, ws !! id = Some r /\ wd_status r <> WPending) /\
  (forall r0, ws0 !! id = Some r0 -> wd_status r0 = WPending /\ wd_amount r0 = amount).

Definition handling_ok (ws : gmap string withdrawal) (g : handling) : Prop :=
  match g with
  | Idle => True
  | Reading id amount => exists r, ws !! id = Some r /\ (wd_status r = WPending -> wd_amount r = amount)
  | Claiming id amount => claimed_row ws id amount
  | Paid id amount c => claimed_row ws id amount /\ number_of amount (cs_amount c)
  end.

Record paid_rows (ws : gmap string withdrawal) (sent : list crypto_send) (ss : list handling) : Prop := {
  rows_ids : rows_wf ws;
  rows_history : forall id r0, ws0 !! id = Some r0 -> exists r, ws !! id = Some r /\ moves r0 r;
  rows_claims : NoDup (omap claim_of ss);
  rows_handled : Forall (handling_ok ws) ss;
  rows_sent : exists new, sent = sent0 ++ new /\ new ≡ₚ omap paid_of ss
}.

Lemma handling_update ws id r r' g :
  ws !! id = Some r -> moves r r' -> handling_ok ws g -> handling_ok (<[id := r']> ws) g.
Proof.
  intros Hr Hm. assert (forall k, (exists q, ws !! k = Some q /\ wd_status q <> WPending) ->
    exists q, <[id := r']> ws !! k = Some q /\ wd_status q <> WPending) as Hc.
  { intros k (q & Hq & Hs). destruct (decide (k = id)) as [->|Hne].
    - exists r'. rewrite lookup_insert_eq. split; [done|]. intros Hp. apply Hs. rewrite Hr in Hq.
      injection Hq as <-. apply reaches_pending. rewrite <- Hp. apply Hm.
    - exists q. by rewrite lookup_insert_ne. }
  destruct g as [|k a|k a|k a c]; cbn; unfold claimed_row; [done| |naive_solver..].
  intros (q & Hq & Ha). destruct (decide (k = id)) as [->|Hne].
  - exists r'. rewrite lookup_insert_eq. split; [done|]. intros Hp. rewrite (moves_amount r r' Hm Hp).
    rewrite Hr in Hq. injection Hq as <-. apply Ha, reaches_pending. rewrite <- Hp. apply Hm.
  - exists q. by rewrite lookup_insert_ne.
Qed.

Lemma paid_rows_update ws sent ss id r r' :
  ws !! id = Some r -> moves r r' -> paid_rows ws sent ss -> paid_rows (<[id := r']> ws) sent ss.
Proof.
  intros Hr Hm [Hi Hh Hc Hg Hs]. split; [| |done| |done].
  - intros k q Hq. destruct (decide (k = id)) as [->|Hne].
    + rewrite lookup_insert_eq in Hq. injection Hq as <-. rewrite (moves_id r r' Hm). by apply Hi.
    + rewrite lookup_insert_ne in Hq by done. by apply Hi.
  - intros k r0 H0. destruct (Hh k r0 H0) as (q & Hq & Hq'). destruct (decide (k = id)) as [->|Hne].
    + exists r'. rewrite lookup_insert_eq. split; [done|]. rewrite Hr in Hq. injection Hq as <-.
      by eapply moves_trans.
    + exists q. by rewrite lookup_insert_ne.
  - eapply Forall_impl; [exact Hg|]. intros g. by eapply handling_update.
Qed.

Lemma paid_rows_insert ws sent ss id r :
  ws !! id = None -> wd_id r = id -> paid_rows ws sent ss -> paid_rows (<[id := r]> ws) sent ss.
Proof.
  intros Hn Hid [Hi Hh Hc Hg Hs].
  assert (forall k q, ws !! k = Some q -> <[id := r]> ws !! k = Some q) as Hk.
  { intros k q Hq. rewrite lookup_insert_ne; [done|]. intros ->. by rewrite Hn in Hq. }
  split; [| |done| |done].
  - intros k q Hq. destruct (decide (k = id)) as [->|Hne].
    + rewrite lookup_insert_eq in Hq. by injection Hq as <-.
    + rewrite lookup_insert_ne in Hq by done. by apply Hi.
  - intros k r0 H0. destruct (Hh k r0 H0) as (q & Hq & Hq'). eauto.
  - eapply Forall_impl; [exact Hg|]. unfold handling_ok, claimed_row. intros []; naive_solver.
Qed.

Lemma paid_rows_read ws sent ss i id r :
  ws !! id = Some r -> ss !! i = Some Idle -> paid_rows ws sent ss ->
  paid_rows ws sent (<[i := Reading id (wd_amount r)]> ss).
Proof.
  intros Hr Hi [H1 H2 H3 H4 H5]. split; [done|done| | |].
  - by rewrite (omap_insert_same claim_of ss i Idle).
  - apply Forall_insert; [done|]. by exists r.
  - by rewrite (omap_insert_same paid_of ss i Idle).
Qed.

(** Of two submissions of a row only one finds it pending. *)
Lemma paid_rows_claim ws sent ss i id amount r r' :
  ws !! id = Some r -> wd_status r = WPending -> moves r r' -> wd_status r' <> WPending ->
  ss !! i = Some (Reading id amount) -> paid_rows ws sent ss ->
  paid_rows (<[id := r']> ws) sent (<[i := Claiming id amount]> ss).
Proof.
  intros Hr Hp Hm Hp' Hi HJ. pose proof (paid_rows_update ws sent ss id r r' Hr Hm HJ) as [H1 H2 H3 H4 H5].
  assert (handling_ok ws (Reading id amount)) as (q & Hq & Ha).
  { eapply Forall_lookup_1; [apply HJ|done]. }
  rewrite Hr in Hq. injection Hq as <-. split; [done|done| | |].
  - rewrite (omap_insert_new claim_of ss i (Reading id amount) _ id) by done. constructor; [|done].
    intros (g & Hg & Hc)%list_elem_of_omap.
    assert (handling_ok ws g) as Hok by (eapply Forall_forall; [apply HJ|done]).
    destruct g as [| |k a|k a c]; simplify_eq/=;
      [destruct Hok as [(q & Hq & Hs) _]|destruct Hok as [[(q & Hq & Hs) _] _]]; congruence.
  - apply Forall_insert; [done|]. split; [exists r'; by rewrite lookup_insert_eq|].
    intros r0 H0. destruct (rows_history _ _ _ HJ id r0 H0) as (q & Hq & Hmq). rewrite Hr in Hq.
    injection Hq as <-. rewrite <- (moves_amount r0 r Hmq Hp). split; [|by apply Ha].
    apply reaches_pending. rewrite <- Hp. apply Hmq.
  - by rewrite (omap_insert_same paid_of ss i (Reading id amount)).
Qed.

Lemma paid_rows_pay ws sent ss i id amount c :
  ss !! i = Some (Claiming id amount) -> number_of amount (cs_amount c) -> paid_rows ws sent ss ->
  paid_rows ws (sent ++ [c]) (<[i := Paid id amount c]> ss).
Proof.
  intros Hi Hn [H1 H2 H3 H4 (new & -> & Hp)]. split; [done|done| | |].
  - by rewrite (omap_insert_same claim_of ss i (Claiming id amount)).
  - apply Forall_insert; [done|]. split; [|done]. by apply (Forall_lookup_1 _ _ _ _ H4 Hi).
  - exists (new ++ [c]). split; [by rewrite <- app_assoc|].
    rewrite (omap_insert_new paid_of ss i (Claiming id amount) _ c) by done.
    rewrite Hp. by rewrite Permutation_app_comm.
Qed.

End Rows.

(** ** The calls *)

Section Calls.
Context `{X : BridgeExternal}.
Variable ws0 : gmap string withdrawal.
Variable sent0 : list crypto_send.

Abbreviation inv := (on_rows (paid_rows ws0 sent0)).

Abbreviation quiet := (quietly inv).

(** A call on the collection has two cases: it takes effect, and its caller
    learns the result or gets an exception. *)
Lemma safe_collection {A} (P : handling -> outcome error A -> Prop) i op g :
  (forall s sent ss, paid_rows ws0 sent0 (s_withdrawals s) sent ss -> ss !! i = Some g ->
     paid_rows ws0 sent0 (s_withdrawals (op s).2) sent ss /\
     exists g', paid_rows ws0 sent0 (s_withdrawals (op s).2) sent (<[i := g']> ss) /\ P g' (op s).1) ->
  (forall e, P g (Throw e)) -> safe inv P i (collection op) g.
Proof.
  intros Hop Ht. apply safe_atomic. intros w ss HI Hs.
  destruct (Hop (b_store w) (b_sent w) ss HI Hs) as (HJ & g' & HJ' & HP).
  assert (<[i := g]> ss = ss) as Eg by by apply list_insert_id.
  destruct (op (b_store w)) as [o s]. cbn in *.
  destruct (mongo_fault (w_ops (t_base (b_top w)))) as [[msg|msg]|]; [exists g|exists g|exists g'];
    rewrite ?Eg; (split; [first [exact HI|exact HJ|exact HJ']|first [apply Ht|exact HP]]).
Qed.

Lemma quiet_collection {A} (op : bridge_store -> outcome error A * bridge_store) :
  (forall s sent ss, paid_rows ws0 sent0 (s_withdrawals s) sent ss ->
     paid_rows ws0 sent0 (s_withdrawals (op s).2) sent ss) -> quiet (collection op).
Proof.
  intros Hop i g. apply safe_collection; [|done]. intros s sent ss HJ Hs. split; [by apply Hop|].
  exists g. rewrite list_insert_id by done. split; [by apply Hop|done].
Qed.

Lemma save_rows w s sent ss r :
  s_withdrawals s !! wd_id r = Some r -> moves r w -> paid_rows ws0 sent0 (s_withdrawals s) sent ss ->
  paid_rows ws0 sent0 (s_withdrawals (save_withdrawal w s).2) sent ss.
Proof.
  intros Hr Hm HJ. unfold save_withdrawal. destruct (indexed w (s_withdrawals s)); [|done]. cbn.
  rewrite (moves_id r w Hm). by eapply paid_rows_update.
Qed.

Lemma find_withdrawal_Some filter s w : rows_wf (s_withdrawals s) -> find_withdrawal filter s = Some w ->
  s_withdrawals s !! wd_id w = Some w /\ filter w = true.
Proof.
  intros Hwf. unfold find_withdrawal. destruct (list_find _ _) as [[n [id w']]|] eqn:Hf; [|done].
  intros [= ->]. apply list_find_Some in Hf as (Hl & Hf & _). split; [|done].
  apply list_elem_of_lookup_2, elem_of_map_to_list in Hl. cbn in *. by rewrite (Hwf id w Hl).
Qed.

(** Updates that only move a row. *)
Lemma quiet_update filter f : (forall r, filter r = true -> moves r (f r)) ->
  quiet (collection (update_withdrawal filter f)).
Proof.
  intros Hf. apply quiet_collection. intros s sent ss HJ. unfold update_withdrawal.
  destruct (find_withdrawal filter s) as [r|] eqn:Hr; [|done].
  apply find_withdrawal_Some in Hr as [Hr Hfr]; [|apply HJ].
  pose proof (save_rows (f r) s sent ss r Hr (Hf r Hfr) HJ). by destruct (save_withdrawal (f r) s).
Qed.

Lemma quiet_update_id id filter f : (forall r, filter r = true -> moves r (f r)) ->
  quiet (collection (update_withdrawal_id id filter f)).
Proof.
  intros Hf. apply quiet_collection. intros s sent ss HJ. unfold update_withdrawal_id.
  destruct (s_withdrawals s !! id) as [r|] eqn:Hr; [|done]. destruct (filter r) eqn:Hfr; [|done].
  pose proof (rows_ids _ _ _ _ _ HJ id r Hr) as Hid. rewrite <- Hid in Hr.
  pose proof (save_rows (f r) s sent ss r Hr (Hf r Hfr) HJ). by destruct (save_withdrawal (f r) s).
Qed.

Lemma quiet_insert w : quiet (collection (BridgeAccountsRepo.insert_withdrawal w)).
Proof.
  apply quiet_collection. intros s sent ss HJ. unfold BridgeAccountsRepo.insert_withdrawal, save_withdrawal.
  case_bool_decide as Hn; [done|]. destruct (indexed w (s_withdrawals s)); [|done]. cbn.
  apply paid_rows_insert; [|done|done]. by apply eq_None_not_Some.
Qed.

Lemma moves_unsubmitted_status r status reason at_ : wd_status r = WPending -> status <> WPending ->
  moves r (with_status status reason at_ r).
Proof. intros Hp Hs. constructor; [done|done|by rewrite Hp|done]. Qed.

Lemma moves_in_flight id r status reason at_ : in_flight id r = true -> status = WCompleted \/ status = WFailed ->
  moves r (with_status status reason at_ r).
Proof.
  unfold in_flight. intros [_ Hf]%andb_true_iff Hs.
  assert (status <> WPending) by (destruct Hs; congruence).
  constructor; [done|done| |done]. apply orb_true_iff in Hf as [Hf|Hf]; apply bool_decide_eq_true in Hf;
    rewrite Hf; by destruct Hs as [->| ->].
Qed.

Lemma moves_sent r payout hash at_ : unsent r = true -> moves r (with_send payout hash at_ r).
Proof.
  unfold unsent. intros [Hs%bool_decide_eq_true _]%andb_true_iff. by constructor; cbn; [..|rewrite Hs|].
Qed.

Lemma moves_failed r id amount currency address reason at_ : unsent r = true ->
  moves r (with_send_failure id amount currency address reason at_ r).
Proof.
  unfold unsent. intros [Hs%bool_decide_eq_true _]%andb_true_iff. by constructor; cbn; [..|rewrite Hs|].
Qed.

Lemma moves_estimates r fees at_ : moves r (with_estimates fees at_ r).
Proof. constructor; [done|done|apply reaches_refl|done]. Qed.

Lemma unsubmitted_pending r : unsubmitted r = true -> wd_status r = WPending.
Proof. unfold unsubmitted. by intros [Hs%bool_decide_eq_true _]%andb_true_iff. Qed.

Lemma moves_submitted r id amount currency address receipt at_ : unsubmitted r = true ->
  moves r (with_transfer id amount currency address receipt at_ r).
Proof. intros Hp%unsubmitted_pending. by constructor; cbn; [..|rewrite Hp|]. Qed.

Lemma quiet_updateStatus id status reason : status = WCompleted \/ status = WFailed ->
  quiet (BridgeAccountsRepo.updateWithdrawalStatus id status reason).
Proof.
  intros Hs. unfold BridgeAccountsRepo.updateWithdrawalStatus, repo. alone_tac.
  apply quiet_update. intros r Hr. by eapply moves_in_flight.
Qed.

Lemma quiet_cancel accountId id : quiet (BridgeAccountsRepo.cancelWithdrawal accountId id).
Proof.
  unfold BridgeAccountsRepo.cancelWithdrawal, repo. alone_tac. apply quiet_update_id.
  intros r [_ Hr%unsubmitted_pending]%andb_true_iff. by apply moves_unsubmitted_status.
Qed.

Lemma quiet_sendFailed id transfer amount currency address reason :
  quiet (BridgeAccountsRepo.updateWithdrawalSendFailed id transfer amount currency address reason).
Proof.
  unfold BridgeAccountsRepo.updateWithdrawalSendFailed, repo. alone_tac. apply quiet_update_id.
  intros r Hr. by apply moves_failed.
Qed.

Lemma quiet_onchain id payout hash : quiet (BridgeAccountsRepo.updateWithdrawalOnchainSend id payout hash).
Proof.
  unfold BridgeAccountsRepo.updateWithdrawalOnchainSend, repo. alone_tac. apply quiet_update_id.
  intros r Hr. by apply moves_sent.
Qed.

Lemma quiet_estimates id fees : quiet (BridgeAccountsRepo.updateWithdrawalFeeEstimates id fees).
Proof.
  unfold BridgeAccountsRepo.updateWithdrawalFeeEstimates, repo. alone_tac. apply quiet_update_id.
  intros r _. apply moves_estimates.
Qed.

Lemma quiet_create accountId amount currency x fees :
  quiet (BridgeAccountsRepo.createWithdrawal accountId amount currency x fees).
Proof. unfold BridgeAccountsRepo.createWithdrawal. alone_tac. apply quiet_insert. Qed.

#[local] Hint Resolve alone_call alone_body alone_sync quiet_cancel quiet_sendFailed quiet_onchain
  quiet_estimates quiet_create alone_requirements alone_sendInfo : rows_alone.
#[local] Hint Extern 2 (quietly _ (BridgeAccountsRepo.updateWithdrawalStatus _ _ _)) =>
  apply quiet_updateStatus; auto : rows_alone.

Lemma quiet_requestWithdrawal a amount x : quiet (requestWithdrawal a amount x).
Proof. alone_tac. Qed.

Lemma quiet_cancelRequest a id : quiet (cancelWithdrawalRequest a id).
Proof. alone_tac. Qed.

Lemma quiet_createVirtualAccount a : quiet (createVirtualAccount a).
Proof. alone_tac. Qed.

Lemma quiet_transferHandler body : quiet (transferHandler body).
Proof. alone_tac. Qed.

Lemma quiet_depositHandler body : quiet (depositHandler body).
Proof. alone_tac. Qed.

Lemma quiet_externalHandler body : quiet (externalAccountHandler body).
Proof. alone_tac. Qed.

Lemma quiet_award a : quiet (awardReferralRewardOnKycApproval a).
Proof. alone_tac. Qed.

#[local] Hint Resolve quiet_requestWithdrawal quiet_cancelRequest quiet_createVirtualAccount
  quiet_transferHandler quiet_depositHandler quiet_externalHandler quiet_award : rows_alone.

Lemma quiet_kycHandler body : quiet (kycHandler body).
Proof. alone_tac. Qed.

Lemma quiet_replayHandler body : quiet (replayHandler body).
Proof. pose proof quiet_kycHandler. alone_tac. Qed.

Lemma quiet_receiveHandler body : quiet (cryptoReceiveHandler body).
Proof. alone_tac. Qed.

Lemma quiet_report_all {A} (f : A -> option (string * (Z -> orphan))) l : quiet (report_all f l).
Proof.
  induction l as [|x l IH]; cbn [report_all]; [alone_tac|]. destruct (f x) as [[key o]|]; [|done].
  alone_tac; apply IH.
Qed.

Lemma quiet_reconcile_all l acc : quiet (reconcile_all l acc).
Proof. revert acc. induction l as [|x l IH]; intros acc; cbn [reconcile_all]; alone_tac; apply IH. Qed.

Lemma quiet_reconcileDeposits window : quiet (reconcileBridgeAndIbexDeposits window).
Proof. pose proof (@quiet_report_all). alone_tac. Qed.

Lemma quiet_reconcileWithdrawals window : quiet (reconcileBridgeAndIbexWithdrawals window).
Proof. pose proof quiet_reconcile_all. alone_tac. Qed.

Lemma quiet_run_task : quiet run_task.
Proof. alone_tac. Qed.

(** *** The initiation of a withdrawal *)

(** The row that is read, and what it is the row of. *)
Lemma safe_own_withdrawal a id i :
  safe inv (fun g o => match o with Ok r => g = Reading (wd_id r) (wd_amount r) | _ => True end) i
    (own_withdrawal a id) Idle.
Proof.
  unfold own_withdrawal, BridgeAccountsRepo.findWithdrawalById, repo, cast_id, query.
  eapply (safe_bind _ (fun g o => match o with
    | Ok (inr r) => g = Reading (wd_id r) (wd_amount r) | _ => True end)).
  - apply safe_attempt. eapply (safe_catch _ (fun g o => match o with
      | Ok r => g = Reading (wd_id r) (wd_amount r) | _ => True end)); [|by intros g [] ?].
    destruct (valid_object_id id); [cbn [pbind pret]|done].
    eapply (safe_bind _ (fun g o => match o with
      | Ok (Some r) => g = Reading (wd_id r) (wd_amount r) | _ => True end)).
    + apply safe_collection; [|done]. intros s sent ss HJ Hi. cbn. split; [done|].
      destruct (s_withdrawals s !! id) as [r|] eqn:Hr; [|exists Idle; by rewrite list_insert_id].
      exists (Reading (wd_id r) (wd_amount r)). split; [|done]. apply paid_rows_read; [|done|done].
      by rewrite (rows_ids _ _ _ _ _ HJ id r Hr).
    + intros g [[r|]|e|e] Hg; by cbn.
  - intros g [[e|r]|e|e] Hg; cbn; [done| |done|done]. by destruct (bool_decide _).
Qed.

Lemma safe_submit i id amount transfer amount' currency address receipt :
  safe inv (fun g o => match o with Ok _ => g = Claiming id amount | _ => True end) i
    (BridgeAccountsRepo.updateWithdrawalTransferId id transfer amount' currency address receipt)
    (Reading id amount).
Proof.
  unfold BridgeAccountsRepo.updateWithdrawalTransferId, repo.
  eapply (safe_catch _ (fun g o => match o with Ok _ => g = Claiming id amount | _ => True end));
    [|by intros g [] ?].
  apply safe_quietly; [apply alone_top| |done|done]. intros at_. unfold cast_id.
  destruct (valid_object_id id); [cbn [pbind pret]|done].
  eapply (safe_bind _ (fun g o => match o with Ok (Some _) => g = Claiming id amount | _ => True end)).
  - apply safe_collection; [|done]. intros s sent ss HJ Hi. unfold update_withdrawal_id.
    destruct (s_withdrawals s !! id) as [r|] eqn:Hr;
      [|split; [done|]; exists (Reading id amount); by rewrite list_insert_id].
    destruct (unsubmitted r) eqn:Hu;
      [|split; [done|]; exists (Reading id amount); by rewrite list_insert_id].
    pose proof (moves_submitted r transfer amount' currency address receipt at_ Hu) as Hm.
    pose proof (rows_ids _ _ _ _ _ HJ id r Hr) as Hid. set (r' := with_transfer _ _ _ _ _ _ r) in *.
    unfold save_withdrawal. destruct (indexed r' (s_withdrawals s)); cbn;
      [|split; [done|]; exists (Reading id amount); by rewrite list_insert_id].
    rewrite Hid. split; [by eapply paid_rows_update|]. exists (Claiming id amount). split; [|done].
    apply (paid_rows_claim ws0 sent0 _ _ _ _ _ _ r); [done|by apply unsubmitted_pending|done..].
  - intros g [[r|]|e|e] Hg; by cbn.
Qed.

Lemma safe_sendCrypto i id amount walletId infoId x : number_of amount x ->
  safe inv (fun _ _ => True) i (sendCrypto walletId infoId x) (Claiming id amount).
Proof.
  intros Hx. unfold sendCrypto. apply safe_quietly; [alone_tac| |done|done]. intros token.
  apply safe_atomic. intros w ss HI Hs. cbn.
  destruct (ibex_hub json _ token (w_ibex (t_base (b_top w)))) as [[b|st t|m] s]; cbn;
    [|exists (Claiming id amount); by rewrite list_insert_id..].
  exists (Paid id amount (mkSend walletId infoId x)). split; [|done]. by apply paid_rows_pay.
Qed.

(** What marks a row as failed touches no claim. *)
Lemma quiet_mark a id transfer address reason : quiet (markWithdrawalSendFailed a id transfer address reason).
Proof. alone_tac. Qed.

Lemma quiet_or_mark {A} a id transfer address (c : BApp A) :
  quiet c -> quiet (or_mark_failed a id transfer address c).
Proof. intros Hc. pose proof quiet_mark. alone_tac. Qed.

Lemma safe_send_usdt i id amount a walletId transfer address money :
  USDT_fromNumber amount = Ok money ->
  safe inv (fun _ _ => True) i (send_usdt a id walletId transfer address money) (Claiming id amount).
Proof.
  intros Hm. unfold send_usdt.
  apply safe_quietly; [apply quiet_or_mark, alone_requirements| |done|done]. intros r.
  apply safe_quietly; [apply quiet_or_mark, alone_sendInfo| |done|done]. intros info.
  apply safe_quietly; [apply quiet_or_mark; alone_tac| |done|done]. intros infoId.
  unfold ibex_number. destruct (toIbex money) as [s|e|e] eqn:Hs; cbn [thrown pbind]; [|done|done].
  destruct (js_Number s) as [x|] eqn:Hx; cbn [pbind pret pthrow]; [|done]. unfold or_mark_failed.
  eapply (safe_bind _ (fun _ _ => True)).
  - apply safe_attempt. eapply safe_mono; [|apply safe_sendCrypto]; [done|]. by exists money, s.
  - intros g [[e|v]|e|e] _; [|done..]. eapply (safe_bind _ (fun _ _ => True)); [|by intros g' [] _].
    eapply safe_mono; [|apply quiet_mark]. done.
Qed.

Lemma quiet_record_sent a id transfer v : quiet (record_sent a id transfer v).
Proof. alone_tac. Qed.

Lemma safe_initiate i a id : safe inv (fun _ _ => True) i (initiateWithdrawal a id) Idle.
Proof.
  unfold initiateWithdrawal. apply safe_quietly; [alone_tac| |done|done]. intros acc. unfold returned.
  eapply (safe_catch _ (fun _ _ => True)); [|by intros g [] _].
  apply safe_quietly; [alone_tac| |done|done]. intros customerId.
  eapply safe_bind; [apply safe_own_withdrawal|]. intros g [row|e|e] Hg; [subst g|done|done].
  destruct (_ || _); [done|].
  apply safe_quietly; [alone_tac| |done|done]. intros externals.
  destruct (find_target _ externals) as [x|]; [|done].
  apply safe_quietly; [alone_tac| |done|done]. intros wl.
  apply safe_quietly; [alone_tac| |done|done]. intros balance.
  apply safe_quietly; [alone_tac| |done|done]. intros usdt.
  apply safe_quietly; [alone_tac| |done|done]. intros available. destruct (fl_ltb _ _); [done|].
  destruct (USDT_fromNumber (wd_amount row)) as [money|e|e] eqn:Hm; cbn [pbind]; [|done|done].
  apply safe_quietly; [alone_tac| |done|done]. intros transfer. destruct (negb _); [done|].
  apply safe_quietly; [alone_tac| |done|done]. intros _.
  eapply safe_bind; [apply safe_submit|]. intros g [r|e|e] Hg; [subst g|done|done].
  apply safe_quietly; [alone_tac| |done|done]. intros _.
  eapply safe_bind; [by apply safe_send_usdt|]. intros g [v|e|e] _; [|done|done].
  eapply safe_mono; [|apply quiet_record_sent]. done.
Qed.

#[local] Hint Resolve quiet_kycHandler quiet_replayHandler quiet_receiveHandler quiet_reconcileDeposits
  quiet_reconcileWithdrawals quiet_run_task : rows_alone.

(** A quiet call is safe. *)
Lemma safe_quiet {A} i (c : BApp A) : quiet c -> safe inv (fun _ _ => True) i c Idle.
Proof. intros Hc. by eapply safe_mono; [|apply Hc]. Qed.

Lemma safe_serve i r : safe inv (fun _ _ => True) i (serve r) Idle.
Proof.
  destruct r; cbn [serve];
    try (eapply (safe_bind _ (fun _ _ => True)); [apply safe_initiate|]; by intros g [] _);
    apply safe_quiet; alone_tac.
Qed.

(** Rows and sends at the start. *)
Lemma paid_rows_start n : rows_wf ws0 -> paid_rows ws0 sent0 ws0 sent0 (replicate n Idle).
Proof.
  intros Hwf. split; [done| | | |].
  - intros id r Hr. exists r. split; [done|apply moves_refl].
  - replace (omap claim_of (replicate n Idle)) with (@nil string); [constructor|]. by induction n.
  - apply Forall_replicate. done.
  - exists []. split; [by rewrite app_nil_r|]. by induction n.
Qed.

End Calls.

(** What every schedule of requests ends with. *)
Lemma requests_invariant `{X : BridgeExternal} (requests : list bridge_request) (w : bworld) (sched : list nat) :
  rows_wf (s_withdrawals (b_store w)) ->
  let w' := (exec sched (serve <$> requests) w).2 in
  exists ss, paid_rows (s_withdrawals (b_store w)) (b_sent w) (s_withdrawals (b_store w')) (b_sent w') ss.
Proof.
  intros Hwf. set (ws0 := s_withdrawals (b_store w)) in *. set (sent0 := b_sent w) in *.
  destruct (exec_safe (on_rows (paid_rows ws0 sent0)) (fun _ _ => True) sched (serve <$> requests) w)
    as (ss & HI & _); [|by exists ss].
  exists (replicate (length requests) Idle). split; [by apply paid_rows_start|].
  split; [by rewrite length_replicate, length_fmap|]. intros i p g Hp [-> _]%lookup_replicate_1.
  rewrite list_lookup_fmap in Hp. destruct (requests !! i); [|done]. injection Hp as <-. apply safe_serve.
Qed.

(** C3: whatever calls of the Bridge integration run at the same time, each USDT
    send IBEX acknowledges belongs to a withdrawal of its own, which was pending
    until then, and is of the amount the customer requested. *)
Theorem withdrawals_paid_once `{X : BridgeExternal} (requests : list bridge_request) (w : bworld)
    (sched : list nat) :
  rows_wf (s_withdrawals (b_store w)) ->
  let w' := (exec sched (serve <$> requests) w).2 in
  exists paid : list (string * string * crypto_send),
    (exists new, b_sent w' = b_sent w ++ new /\ new ≡ₚ paid.*2) /\
    NoDup paid.*1.*1 /\
    Forall (fun '(id, amount, c) =>
      number_of amount (cs_amount c) /\
      (forall r, s_withdrawals (b_store w) !! id = Some r ->
         wd_status r = WPending /\ wd_amount r = amount) /\
      exists r, s_withdrawals (b_store w') !! id = Some r /\ wd_status r <> WPending) paid.
Proof.
  intros Hwf w'. destruct (requests_invariant requests w sched Hwf) as (ss & HJ). fold w' in HJ.
  exists (omap (fun g => match g with Paid id a c => Some (id, a, c) | _ => None end) ss).
  destruct HJ as [_ _ Hc Hg (new & Hn & Hp)]. split; [|split].
  - exists new. split; [done|]. rewrite Hp. clear. induction ss as [|[] ss IH]; cbn; [done..|by rewrite IH].
  - clear -Hc. induction ss as [|[] ss IH]; cbn in *; [constructor|by apply IH..| |].
    + apply IH. by inversion Hc.
    + inversion Hc as [|? ? Hin Hnd]. constructor; [|by apply IH]. clear -Hin. contradict Hin.
      induction ss as [|[] ss IH]; cbn in *; set_solver.
  - clear -Hg. induction Hg as [|[] ss Hok Hg IH]; cbn; [constructor|done..|].
    constructor; [|done]. destruct Hok as [[Hr Hs] Hx]. done.
Qed.

