(* ===== verification/ReferralRewards.v ===== *)
(** * Referral rewards under every schedule

    Whatever KYC webhooks, other calls of the Bridge integration and calls on
    invites run at the same time, an invite is claimed for a reward at most once,
    a claim makes at most two payments, and an account has redeemed at most one
    invite. *)

From stdpp Require Import base gmap list strings.
From Stdlib Require Import ZArith Lia Ascii.
From S2P Require Import Prelude JsStrings JsNumbers JsDecimals Processes Errors World.
From S2P Require Import BigintMoney MoneyAmounts Ibex Repos TopupWorld TransferRequests FygaroCheckout Json.
From S2P Require Import PaymentIdempotency FygaroWebhook.
From S2P Require Import BridgeWorld BridgeRepo BridgeFees IbexCrypto BridgeService Referrals Invites.
From S2P Require Import BridgeReconciliation BridgeWebhooks BridgeReplay BridgeWithdrawals.

Open Scope Z_scope.
Open Scope flash_scope.

(** ** Payments of a call *)

Section Payments.
Context `{X : TopupExternal}.

Definition payments (w : tworld) : nat := length (w_paid (t_base w)).

(** A call that pays nothing, and one that pays once at most. *)
Fixpoint free {A} (p : TApp A) : Prop :=
  match p with
  | Done _ => True
  | Act u k => forall w, payments (u w) = payments w /\ free (k w)
  end.

Fixpoint pays_once {A} (p : TApp A) : Prop :=
  match p with
  | Done _ => True
  | Act u k => forall w,
      (payments (u w) = payments w /\ pays_once (k w)) \/ (payments (u w) = S (payments w) /\ free (k w))
  end.

Lemma free_bind {A B} (c : TApp A) (k : A -> TApp B) : free c -> (forall a, free (k a)) -> free (pbind c k).
Proof.
  intros Hc Hk. induction c as [[a|e|e]|u n IH]; [apply Hk|done|done|]. intros w.
  destruct (Hc w) as [Hu Hn]. split; [done|]. by apply IH.
Qed.

Lemma free_attempt {A} (c : TApp A) : free c -> free (pattempt c).
Proof.
  intros Hc. induction c as [[a|e|e]|u n IH]; [done..|]. intros w. destruct (Hc w) as [Hu Hn].
  split; [done|]. by apply IH.
Qed.

Lemma free_catch {A} (c : TApp A) h : free c -> (forall e, free (h e)) -> free (pcatch c h).
Proof.
  intros Hc Hh. induction c as [[a|e|e]|u n IH]; [done|done|apply Hh|]. intros w. destruct (Hc w) as [Hu Hn].
  split; [done|]. by apply IH.
Qed.

Lemma free_atomic {A} (c : M tworld error A) : (forall w, payments (c w).2 = payments w) -> free (atomic c).
Proof. intros Hc w. split; [apply Hc|done]. Qed.

Lemma free_base {A} (c : App A) : guarantees quiet c -> free (base c).
Proof.
  intros Hc. apply free_atomic. intros w. specialize (Hc (t_base w)). unfold payments.
  destruct (c (t_base w)) as [o b]. cbn in *. by destruct Hc as (_ & _ & ->).
Qed.

Lemma free_redis {A} (op : Z -> redis_state -> A * redis_state) : free (redis op).
Proof.
  apply free_atomic. intros w. cbn. destruct (op (redis_time (t_redis_ops w)) (t_redis w)) as [a r].
  cbn. by destruct (redis_fault (t_redis_ops w)) as [[msg|msg]|].
Qed.

Lemma free_erp {A} (op : gmap string transfer_row -> outcome error A * gmap string transfer_row) :
  free (erp op).
Proof.
  apply free_atomic. intros w. cbn. destruct (op (t_rows w)) as [o rows]. cbn.
  by destruct (erp_fault (t_erp_ops w)) as [[[] e]|].
Qed.

Lemma free_once {A} (p : TApp A) : free p -> pays_once p.
Proof.
  induction p as [o|u k IH]; [done|]. intros Hp w. left. destruct (Hp w). by split; [|apply IH].
Qed.

Lemma pays_after_free {A B} (c : TApp A) (k : A -> TApp B) :
  free c -> (forall a, pays_once (k a)) -> pays_once (pbind c k).
Proof.
  intros Hc Hk. induction c as [[a|e|e]|u n IH]; [apply Hk|done|done|]. intros w. left.
  destruct (Hc w) as [Hu Hn]. split; [done|]. by apply IH.
Qed.

Lemma pays_then_free {A B} (c : TApp A) (k : A -> TApp B) :
  pays_once c -> (forall a, free (k a)) -> pays_once (pbind c k).
Proof.
  intros Hc Hk. induction c as [[a|e|e]|u n IH]; [apply free_once, Hk|done|done|]. intros w.
  destruct (Hc w) as [[Hu Hn]|[Hu Hn]]; [left|right]; (split; [done|]); [by apply IH|].
  by apply free_bind.
Qed.

Lemma free_capture {A} (c : TApp A) : free c -> free (pcapture c).
Proof.
  intros Hc. induction c as [o|u n IH]; [done|]. intros w. destruct (Hc w) as [Hu Hn].
  split; [done|]. by apply IH.
Qed.

Lemma pays_capture {A} (c : TApp A) : pays_once c -> pays_once (pcapture c).
Proof.
  intros Hc. induction c as [o|u n IH]; [done|]. intros w.
  destruct (Hc w) as [[Hu Hn]|[Hu Hn]]; [left|right]; (split; [done|]); [by apply IH|].
  by apply free_capture.
Qed.

End Payments.

(** Calls composed of such calls. *)
Ltac free_step :=
  match goal with
  | |- forall _, _ => intros
  | |- free (pbind _ _) => apply free_bind
  | |- free (pattempt _) => apply free_attempt
  | |- free (pcapture _) => apply free_capture
  | |- free (pcatch _ _) => apply free_catch
  | |- free (Done _) => exact I
  | |- free (pret _) => exact I
  | |- free (pfail _) => exact I
  | |- free (pthrow _) => exact I
  | |- free (redis _) => apply free_redis
  | |- free (erp _) => apply free_erp
  | |- free (match ?x with _ => _ end) => destruct x
  | |- free (let _ := _ in _) => cbv zeta
  | |- free _ => assumption
  | |- free (base _) => solve [apply free_base; eauto with flash typeclass_instances]
  | |- free (base _) => solve [apply free_base; intros w; repeat case_match; simplify_eq; done]
  | |- free (atomic _) => solve [apply free_atomic; done]
  | |- free ?c =>
      lazymatch c with
      | base _ => fail
      | atomic _ => fail
      | _ => let h := get_head c in unfold h
      end
  end.
Ltac free_tac := repeat free_step.

Section PaymentCalls.
Context `{X : TopupExternal}.

Lemma quiet_findOne f e : guarantees quiet (accounts_findOne f e).
Proof. unfold accounts_findOne. quiet_tac. Qed.

Lemma quiet_findByRole role : guarantees quiet (findByRole role).
Proof. apply quiet_findOne. Qed.

Lemma quiet_swap id guard f : guarantees quiet (swap_account id guard f).
Proof. apply quiet_mongo. intros w. by repeat case_match. Qed.

Lemma free_lockKey key : free (lockIdempotencyKey key).
Proof. free_tac. Qed.

Lemma free_acquire n path : free (lock_acquire n path).
Proof. induction n as [|n IH]; cbn [lock_acquire]; free_tac. Qed.

Lemma free_release path : free (lock_release path).
Proof. free_tac. Qed.

Lemma free_depositRequest eventId ev raw : free (writeBridgeDepositRequest eventId ev raw).
Proof. free_tac. Qed.

Lemma free_cashout input : free (upsert input).
Proof. free_tac. Qed.

Lemma free_promote txHash a w : free (promoteBridgeDepositForCryptoReceive txHash a w).
Proof. free_tac. Qed.

Lemma free_walletsFor a : free (walletsFor a).
Proof. free_tac. Qed.

(** A transfer without an idempotency key. *)
Lemma send_pays_at_most_once sender recipient amount memo :
  pays_once (intraledgerPaymentSendWalletIdForUsdWallet (mkSendArgs sender recipient amount memo None)).
Proof.
  unfold intraledgerPaymentSendWalletIdForUsdWallet, withPaymentIdempotency, announced. cbn [sa_idempotencyKey].
  apply pays_then_free; [|free_tac]. apply pays_capture. apply pays_after_free; [free_tac|]. intros _.
  unfold intraledgerPaymentSendWalletId. apply pays_after_free; [free_tac|]. intros [s r].
  destruct (negb _); [done|]. apply pays_after_free; [free_tac|]. intros money.
  apply pays_after_free; [free_tac|]. intros [invoice|]; [|done].
  apply pays_then_free; [|free_tac]. intros w. unfold base, payments. cbn.
  unfold pay_and_log, bind, modify, ret.
  pose proof (quiet_payInvoice sender invoice None (t_base w)) as (_ & _ & Hp).
  destruct (payInvoice sender invoice None (t_base w)) as [[resp|e|e] b]; cbn in *; rewrite ?Hp;
    [right|left|left]; (split; [|done]); [|done|done]. rewrite length_app. cbn. lia.
Qed.

End PaymentCalls.

#[export] Hint Resolve quiet_findOne quiet_findByRole quiet_swap : flash.

(** ** Invites *)

(** A reward that was claimed stays claimed. *)
Definition reward_kept (i i' : invite) : Prop :=
  iv_id i' = iv_id i /\ (is_Some (iv_rewardStatus i) -> is_Some (iv_rewardStatus i')).

Lemma reward_kept_trans i j k : reward_kept i j -> reward_kept j k -> reward_kept i k.
Proof. intros [? ?] [? ?]. split; [congruence|auto]. Qed.

(** A call that claimed an invite, with the payments it made. *)
Inductive rewarding := Apart | Holding (id : string) (paid : nat).

Definition held (g : rewarding) : option string := match g with Holding id _ => Some id | Apart => None end.
Definition paid_by (g : rewarding) : Z := match g with Holding _ n => Z.of_nat n | Apart => 0 end.

(** No two invites share a token or the account that redeemed them. *)
Definition indexes (ivs : gmap string invite) : Prop :=
  forall id id' i i', id <> id' -> ivs !! id = Some i -> ivs !! id' = Some i' -> invite_clash i i' = false.

Section Rewards.
Variable ivs0 : gmap string invite.
Variable paid0 : nat.

Definition rewarding_ok (ivs : gmap string invite) (g : rewarding) : Prop :=
  match g with
  | Apart => True
  | Holding id n =>
      (n <= 2)%nat /\ (exists i, ivs !! id = Some i /\ is_Some (iv_rewardStatus i)) /\
      (forall i0, ivs0 !! id = Some i0 -> iv_rewardStatus i0 = None)
  end.

Record rewarded (ivs : gmap string invite) (paid : nat) (ss : list rewarding) : Prop := {
  rw_ids : forall id i, ivs !! id = Some i -> iv_id i = id;
  rw_history : forall id i0, ivs0 !! id = Some i0 -> exists i, ivs !! id = Some i /\ reward_kept i0 i;
  rw_indexes : indexes ivs;
  rw_claims : NoDup (omap held ss);
  rw_held : Forall (rewarding_ok ivs) ss;
  rw_paid : Z.of_nat paid = Z.of_nat paid0 + total paid_by ss
}.

(** A document is saved when the indexes allow it. *)
Lemma indexes_insert ivs i : (forall id j, ivs !! id = Some j -> iv_id j = id) ->
  invite_indexed i ivs = true -> indexes ivs -> indexes (<[iv_id i := i]> ivs).
Proof.
  intros Hids Hi Hx. unfold invite_indexed in Hi. rewrite forallb_forall in Hi.
  assert (forall id j, id <> iv_id i -> ivs !! id = Some j -> invite_clash i j = false) as Hc.
  { intros id j Hne Hj. specialize (Hi (id, j)). rewrite <- list_elem_of_In, elem_of_map_to_list in Hi.
    specialize (Hi Hj). cbn in Hi. rewrite bool_decide_eq_false_2 in Hi by done. by apply negb_true_iff. }
  intros id id' j j' Hne Hj Hj'.
  destruct (decide (id = iv_id i)) as [->|H1], (decide (id' = iv_id i)) as [->|H2]; [done| | |].
  - rewrite lookup_insert_eq in Hj. rewrite lookup_insert_ne in Hj' by done. simplify_eq. by eapply Hc.
  - rewrite lookup_insert_ne in Hj by done. rewrite lookup_insert_eq in Hj'. simplify_eq.
    specialize (Hc id j Hne Hj). unfold invite_clash, same_text in *.
    apply orb_false_iff in Hc as [C1 C2]. apply bool_decide_eq_false in C1. apply orb_false_iff.
    split; [by apply bool_decide_eq_false|]. destruct (iv_redeemedById j), (iv_redeemedById j'); try done.
    apply bool_decide_eq_false in C2. by apply bool_decide_eq_false.
  - rewrite lookup_insert_ne in Hj, Hj' by done. by apply (Hx id id').
Qed.

Lemma rewarding_insert ivs i j g : ivs !! iv_id i = Some i -> reward_kept i j ->
  rewarding_ok ivs g -> rewarding_ok (<[iv_id i := j]> ivs) g.
Proof.
  intros Hi [_ Hk]. destruct g as [|id n]; [done|]. intros (Hn & (q & Hq & Hs) & H0). split; [done|].
  split; [|done]. destruct (decide (id = iv_id i)) as [->|Hne].
  - exists j. rewrite lookup_insert_eq. rewrite Hi in Hq. injection Hq as <-. auto.
  - exists q. by rewrite lookup_insert_ne.
Qed.

Lemma rewarded_update ivs paid ss i j : ivs !! iv_id i = Some i -> reward_kept i j ->
  invite_indexed j ivs = true -> rewarded ivs paid ss -> rewarded (<[iv_id j := j]> ivs) paid ss.
Proof.
  intros Hi Hk Hx [H1 H2 H3 H4 H5 H6]. split; [| |by apply indexes_insert|done| |done].
  - intros id q Hq. destruct (decide (id = iv_id j)) as [->|Hne].
    + rewrite lookup_insert_eq in Hq. by injection Hq as <-.
    + rewrite lookup_insert_ne in Hq by done. by apply H1.
  - intros id i0 H0. destruct (H2 id i0 H0) as (q & Hq & Hkq). destruct Hk as [Hid Hs]. rewrite Hid.
    destruct (decide (id = iv_id i)) as [->|Hne].
    + exists j. rewrite lookup_insert_eq. split; [done|]. rewrite Hi in Hq. injection Hq as <-.
      eapply reward_kept_trans; [done|]. by split.
    + exists q. by rewrite lookup_insert_ne.
  - destruct Hk as [Hid Hs]. rewrite Hid. eapply Forall_impl; [exact H5|]. intros g.
    apply rewarding_insert; [done|by split].
Qed.

(** Of two claims of an invite only one finds it unclaimed. *)
Lemma rewarded_claim ivs paid ss k i j : ivs !! iv_id i = Some i -> iv_rewardStatus i = None ->
  iv_id j = iv_id i -> is_Some (iv_rewardStatus j) -> invite_indexed j ivs = true -> ss !! k = Some Apart ->
  rewarded ivs paid ss -> rewarded (<[iv_id j := j]> ivs) paid (<[k := Holding (iv_id i) 0]> ss).
Proof.
  intros Hi Hn Hid Hj Hx Hk HJ.
  assert (reward_kept i j) as Hkept by (split; [done|]; rewrite Hn; by intros []).
  pose proof (rewarded_update ivs paid ss i j Hi Hkept Hx HJ) as [H1 H2 H3 H4 H5 H6].
  split; [done|done|done| | |].
  - rewrite (omap_insert_new held ss k Apart _ (iv_id i)) by done. constructor; [|done].
    intros (g & Hg & Hc)%list_elem_of_omap. destruct g as [|id n]; [done|]. injection Hc as ->.
    assert (rewarding_ok ivs (Holding (iv_id i) n)) as (_ & (q & Hq & Hs) & _).
    { eapply Forall_forall; [apply HJ|done]. }
    rewrite Hi in Hq. injection Hq as <-. rewrite Hn in Hs. by destruct Hs.
  - apply Forall_insert; [done|]. split; [lia|]. split.
    + exists j. rewrite Hid, lookup_insert_eq. done.
    + intros i0 H0. destruct (rw_history _ _ _ HJ (iv_id i) i0 H0) as (q & Hq & _ & Hs).
      rewrite Hi in Hq. injection Hq as <-. rewrite Hn in Hs.
      destruct (iv_rewardStatus i0); [|done]. destruct Hs as [? ?]; [by eexists|done].
  - rewrite (total_insert paid_by ss k Apart) by done. cbn. lia.
Qed.

Lemma rewarded_pay ivs paid ss k id n : ss !! k = Some (Holding id n) -> (n < 2)%nat ->
  rewarded ivs paid ss -> rewarded ivs (S paid) (<[k := Holding id (S n)]> ss).
Proof.
  intros Hk Hn [H1 H2 H3 H4 H5 H6]. split; [done|done|done| | |].
  - by rewrite (omap_insert_same held ss k (Holding id n)).
  - apply Forall_insert; [done|]. destruct (Forall_lookup_1 _ _ _ _ H5 Hk) as (_ & Hi & H0).
    split; [lia|done].
  - rewrite (total_insert paid_by ss k (Holding id n)) by done. cbn. lia.
Qed.

End Rewards.

(** ** The calls *)

Section Calls.
Context `{X : BridgeExternal}.
Variable ivs0 : gmap string invite.
Variable paid0 : nat.

Definition on_invites (w : bworld) (ss : list rewarding) : Prop :=
  rewarded ivs0 paid0 (s_invites (b_store w)) (payments (b_top w)) ss.

Abbreviation calm := (quietly on_invites).

Lemma calm_top {A} (c : TApp A) : free c -> calm (top c).
Proof.
  intros Hc. induction c as [o|u k IH]; [by apply quietly_done|]. intros i g w ss HI Hs.
  destruct (Hc (b_top w)) as [Hu Hk]. exists g. rewrite list_insert_id by done.
  split; [|by apply IH]. unfold on_invites. cbn. by rewrite Hu.
Qed.

(** A payment of the one that holds an invite. *)
Lemma safe_pays {A} (c : TApp A) k id n : pays_once c -> (n < 2)%nat ->
  safe on_invites (fun g _ => exists m, g = Holding id m /\ (n <= m <= S n)%nat) k (top c) (Holding id n).
Proof.
  intros Hc Hn. induction c as [o|u q IH]; [exists n; split; [done|lia]|]. intros w ss HI Hs.
  destruct (Hc (b_top w)) as [[Hu Hq]|[Hu Hq]].
  - exists (Holding id n). rewrite list_insert_id by done. split; [|by apply IH].
    unfold on_invites. cbn. by rewrite Hu.
  - exists (Holding id (S n)). split; [unfold on_invites; cbn; rewrite Hu; by apply rewarded_pay|].
    eapply safe_mono; [|by apply (calm_top (q (b_top w)))]. intros g o [-> _]. exists (S n). split; [done|lia].
Qed.

Lemma calm_atomic {A} (c : M bworld error A) :
  (forall w, s_invites (b_store (c w).2) = s_invites (b_store w) /\
             payments (b_top (c w).2) = payments (b_top w)) -> calm (atomic c).
Proof.
  intros Hc. apply keeps_atomic. intros w ss HI. split; [|done]. destruct (Hc w) as [E1 E2].
  unfold on_invites. by rewrite E1, E2.
Qed.

Lemma safe_invites {A} (P : rewarding -> outcome error A -> Prop) k op g :
  (forall s paid ss, rewarded ivs0 paid0 (s_invites s) paid ss -> ss !! k = Some g ->
     rewarded ivs0 paid0 (s_invites (op s).2) paid ss /\
     exists g', rewarded ivs0 paid0 (s_invites (op s).2) paid (<[k := g']> ss) /\ P g' (op s).1) ->
  (forall e, P g (Throw e)) -> safe on_invites P k (collection op) g.
Proof.
  intros Hop Ht. apply safe_atomic. intros w ss HI Hs.
  destruct (Hop (b_store w) (payments (b_top w)) ss HI Hs) as (HJ & g' & HJ' & HP).
  assert (<[k := g]> ss = ss) as Eg by by apply list_insert_id.
  destruct (op (b_store w)) as [o s]. cbn in *.
  destruct (mongo_fault (w_ops (t_base (b_top w)))) as [[msg|msg]|]; [exists g|exists g|exists g'];
    rewrite ?Eg; (split; [first [exact HI|exact HJ|exact HJ']|first [apply Ht|exact HP]]).
Qed.

Lemma calm_invites {A} (op : bridge_store -> outcome error A * bridge_store) :
  (forall s paid ss, rewarded ivs0 paid0 (s_invites s) paid ss ->
     rewarded ivs0 paid0 (s_invites (op s).2) paid ss) -> calm (collection op).
Proof.
  intros Hop k g. apply safe_invites; [|done]. intros s paid ss HJ Hs. split; [by apply Hop|].
  exists g. rewrite list_insert_id by done. split; [by apply Hop|done].
Qed.

Lemma calm_collection {A} (op : bridge_store -> outcome error A * bridge_store) :
  (forall s, s_invites (op s).2 = s_invites s) -> calm (collection op).
Proof. intros Hop. apply calm_invites. intros s paid ss. by rewrite Hop. Qed.

Lemma calm_query {A} (f : bridge_store -> A) : calm (query f).
Proof. by apply calm_collection. Qed.

Lemma calm_update id f : (forall i, reward_kept i (f i)) -> calm (collection (update_invite id f)).
Proof.
  intros Hf. apply calm_invites. intros s paid ss HJ. unfold update_invite, save_invite.
  destruct (s_invites s !! id) as [i|] eqn:Hi; [|done].
  destruct (invite_indexed (f i) (s_invites s)) eqn:Hx; [|done]. cbn.
  eapply rewarded_update; [|done..]. by rewrite (rw_ids _ _ _ _ _ HJ id i Hi).
Qed.

Lemma calm_resave id f : (forall i, reward_kept i (f i)) -> calm (collection (resave_invite id f)).
Proof.
  intros Hf. apply calm_invites. intros s paid ss HJ. unfold resave_invite, save_invite.
  destruct (s_invites s !! id) as [i|] eqn:Hi; [|done].
  destruct (invite_indexed (f i) (s_invites s)) eqn:Hx; [|done]. cbn.
  eapply rewarded_update; [|done..]. by rewrite (rw_ids _ _ _ _ _ HJ id i Hi).
Qed.

Lemma safe_claim k id at_ :
  safe on_invites (fun g o => match o with Ok (Some i) => g = Holding (iv_id i) 0 | _ => g = Apart end) k
    (collection (claim_invite id at_)) Apart.
Proof.
  apply safe_invites; [|done]. intros s paid ss HJ Hk. unfold claim_invite, save_invite.
  assert (<[k := Apart]> ss = ss) as Eg by by apply list_insert_id.
  destruct (s_invites s !! id) as [i|] eqn:Hi; [|split; [done|]; exists Apart; by rewrite Eg].
  case_bool_decide as Hn; [|split; [done|]; exists Apart; by rewrite Eg].
  destruct (invite_indexed (with_claim at_ i) (s_invites s)) eqn:Hx; cbn;
    [|split; [done|]; exists Apart; by rewrite Eg].
  assert (s_invites s !! iv_id i = Some i) as Hi' by by rewrite (rw_ids _ _ _ _ _ HJ id i Hi).
  split.
  - eapply (rewarded_update _ _ _ _ _ i (with_claim at_ i)); [done| |done|done]. split; [done|]. rewrite Hn. by intros [].
  - exists (Holding (iv_id i) 0). split; [|done]. by apply (rewarded_claim _ _ _ _ _ _ i (with_claim at_ i)).
Qed.

End Calls.

Create HintDb invites_calm.

Ltac calm_step :=
  quiet_step
    ltac:(solve [apply calm_top; free_tac])
    ltac:(apply calm_query)
    ltac:(solve [apply calm_collection; intros; unfold BridgeAccountsRepo.upsert_external,
                 BridgeAccountsRepo.update_external, update_withdrawal, update_withdrawal_id,
                 BridgeAccountsRepo.insert_withdrawal, save_withdrawal;
                 repeat case_match; simplify_eq; done])
    ltac:(solve [apply calm_atomic; intros; repeat case_match; done])
    ltac:(solve [auto with invites_calm nocore]).
Ltac calm_tac := repeat calm_step.

Section CalmCalls.
Context `{X : BridgeExternal}.
Variable ivs0 : gmap string invite.
Variable paid0 : nat.

Abbreviation inv := (on_invites ivs0 paid0).
Abbreviation calm := (quietly inv).

Lemma calm_call {T} (c : api_call T) key : calm (call c key).
Proof. calm_tac. Qed.

Lemma calm_body {T} (c : api_call T) key : calm (call_body c key).
Proof. pose proof (@calm_call). calm_tac. Qed.

Lemma calm_persist accountId l : calm (persist_externals accountId l).
Proof. induction l as [|x l IH]; cbn [persist_externals]; calm_tac; apply IH. Qed.

Lemma calm_sync accountId customerId : calm (syncExternalAccountsFromBridge accountId customerId).
Proof. pose proof (@calm_body). pose proof calm_persist. calm_tac. Qed.

#[local] Hint Resolve calm_call calm_body calm_sync : invites_calm.

Lemma calm_createVirtualAccount a : calm (createVirtualAccount a).
Proof. calm_tac. Qed.

Lemma calm_requestWithdrawal a amount x : calm (requestWithdrawal a amount x).
Proof. calm_tac. Qed.

Lemma calm_initiateWithdrawal a id : calm (initiateWithdrawal a id).
Proof. calm_tac. Qed.

Lemma calm_transferHandler body : calm (transferHandler body).
Proof. calm_tac. Qed.

Lemma calm_depositHandler body : calm (depositHandler body).
Proof. calm_tac. Qed.

Lemma calm_externalHandler body : calm (externalAccountHandler body).
Proof. calm_tac. Qed.

Lemma calm_receiveHandler body : calm (cryptoReceiveHandler body).
Proof. pose proof @free_acquire. calm_tac. Qed.

Lemma calm_report_all {A} (f : A -> option (string * (Z -> orphan))) l : calm (report_all f l).
Proof.
  induction l as [|x l IH]; cbn [report_all]; [calm_tac|]. destruct (f x) as [[key o]|]; [|done].
  calm_tac; apply IH.
Qed.

Lemma calm_reconcile_all l acc : calm (reconcile_all l acc).
Proof. revert acc. induction l as [|x l IH]; intros acc; cbn [reconcile_all]; calm_tac; apply IH. Qed.

Lemma calm_reconcileDeposits window : calm (reconcileBridgeAndIbexDeposits window).
Proof. pose proof (@calm_report_all). calm_tac. Qed.

Lemma calm_reconcileWithdrawals window : calm (reconcileBridgeAndIbexWithdrawals window).
Proof. pose proof calm_reconcile_all. calm_tac. Qed.

(** *** The reward *)

Lemma calm_mark id u : calm (markReward id u).
Proof. apply calm_update. intros i. split; [done|]. intros _. by eexists. Qed.

Lemma calm_downgrade id seq a b e : calm (downgrade id seq a b e).
Proof. pose proof calm_mark. calm_tac. Qed.

Lemma safe_downgrade k id n x seq a b e : safe inv (fun _ _ => True) k (downgrade x seq a b e) (Holding id n).
Proof. by eapply safe_mono; [|apply calm_downgrade]. Qed.

(** The steps of a payout: what is calm, and the payments. *)
Lemma safe_step {A} k g x seq a b (c : BApp A) q : calm c ->
  (forall v, safe inv (fun _ _ => True) k (q v) g) ->
  safe inv (fun _ _ => True) k (or_downgrade x seq a b c q) g.
Proof.
  intros Hc Hq. unfold or_downgrade. eapply safe_bind; [apply quietly_capture, Hc|].
  intros g' [[v|e|e]|e|e] [-> _]; [apply Hq| | |done|done];
    by eapply safe_mono; [|apply calm_downgrade].
Qed.

Lemma safe_pay_step k id n x seq a b sender recipient amount memo q : (n < 2)%nat ->
  (forall v m, (m <= S n)%nat -> safe inv (fun _ _ => True) k (q v) (Holding id m)) ->
  safe inv (fun _ _ => True) k (or_downgrade x seq a b (payParty sender recipient amount memo) q)
    (Holding id n).
Proof.
  intros Hn Hq. unfold or_downgrade.
  eapply (safe_bind _ (fun g o => exists m, g = Holding id m /\ (m <= S n)%nat)).
  - apply safe_capture. unfold payParty. destruct (nonempty_opt recipient) as [r|]; [|exists n; split; [done|lia]].
    eapply (safe_bind _ (fun g _ => exists m, g = Holding id m /\ (m <= S n)%nat)); [apply safe_attempt|].
    + eapply safe_mono; [|apply (safe_pays _ _ _ _ id n); [apply send_pays_at_most_once|done]].
      intros g o (m & -> & Hm). exists m. split; [done|lia].
    + intros g [v|e|e] (m & -> & Hm); by exists m.
  - intros g [[v|e|e]|e|e] (m & -> & Hm); [by apply Hq|apply safe_downgrade..|done|done].
Qed.

#[local] Hint Resolve calm_mark calm_downgrade calm_createVirtualAccount calm_requestWithdrawal
  calm_initiateWithdrawal calm_transferHandler calm_depositHandler calm_externalHandler
  calm_receiveHandler calm_reconcileDeposits calm_reconcileWithdrawals : invites_calm.

Lemma safe_pay_both k id a i seq amount funding inviter invitee :
  safe inv (fun _ _ => True) k (pay_both a i seq amount funding inviter invitee) (Holding id 0).
Proof.
  unfold pay_both. cbv zeta. apply safe_step; [calm_tac|]. intros w1. apply safe_step; [calm_tac|]. intros w2.
  apply safe_pay_step; [lia|]. intros v1 m Hm. apply safe_pay_step; [lia|]. intros v2 m' Hm'.
  apply safe_quietly; [calm_tac| |done|done]. intros at_. apply safe_step; [calm_tac|]. intros _.
  eapply safe_mono; [|apply quietly_bind]; [done|calm_tac|calm_tac].
Qed.

Lemma safe_award_claimed k id a i : safe inv (fun _ _ => True) k (award_claimed a i) (Holding id 0).
Proof.
  unfold award_claimed. cbv zeta. apply safe_step; [calm_tac|]. intros seq. destruct (_ <=? 0).
  - apply safe_step; [calm_tac|]. done.
  - apply safe_step; [calm_tac|]. intros [e|acc]; [apply safe_step; [calm_tac|done]|].
    apply safe_step; [calm_tac|]. intros wallets. destruct (rewards_wallet wallets) as [f|];
      [apply safe_pay_both|apply safe_step; [calm_tac|done]].
Qed.

Lemma safe_award k a : safe inv (fun _ _ => True) k (awardReferralRewardOnKycApproval a) Apart.
Proof.
  unfold awardReferralRewardOnKycApproval. eapply (safe_catch _ (fun _ _ => True)); [|by intros g [] _].
  destruct (negb referral_enabled); [done|]. apply safe_quietly; [calm_tac| |done|done]. intros [j|]; [done|].
  apply safe_quietly; [calm_tac| |done|done]. intros [p|]; [|done].
  apply safe_quietly; [calm_tac| |done|done]. intros at_.
  eapply safe_bind; [apply safe_claim|]. intros g [[i|]|e|e] Hg; [|done..]. rewrite Hg. apply safe_award_claimed.
Qed.

Lemma safe_kycHandler k body : safe inv (fun _ _ => True) k (kycHandler body) Apart.
Proof.
  unfold kycHandler. destruct (event_object body) as [obj|]; [|done]. cbv zeta. destruct (_ || _); [done|].
  eapply (safe_catch _ (fun _ _ => True)); [|by intros g [] _].
  apply safe_quietly; [calm_tac| |done|done]. intros _.
  apply safe_quietly; [calm_tac| |done|done]. intros lock. destruct (is_inl lock); [done|].
  apply safe_quietly; [calm_tac| |done|done]. intros [e|acc]; [done|].
  destruct (next_kyc_status _) as [next|]; [|done].
  apply safe_quietly; [calm_tac| |done|done]. intros [e|t]; [done|]. destruct (negb _); [done|].
  apply safe_quietly; [calm_tac| |done|done]. intros _.
  eapply (safe_bind _ (fun _ _ => True)); [|by intros g [] _].
  destruct (bool_decide _); [|done]. apply safe_quietly; [calm_tac| |done|done]. intros _. apply safe_award.
Qed.

Lemma safe_calm {A} k (c : BApp A) : calm c -> safe inv (fun _ _ => True) k c Apart.
Proof. intros Hc. by eapply safe_mono; [|apply Hc]. Qed.

Lemma safe_replayHandler k body : safe inv (fun _ _ => True) k (replayHandler body) Apart.
Proof.
  unfold replayHandler. destruct (negb _); [done|]. destruct (typeof_string _) as [operator|]; [|done].
  destruct (negb _); [done|]. destruct (negb _); [done|]. cbv zeta.
  apply safe_quietly; [calm_tac| |done|done]. intros _.
  destruct (date_of _) as [created|]; [|done]. destruct (date_of _) as [from|]; [|done].
  destruct (date_of _) as [until|]; [|done]. destruct (typeof_string _) as [type|]; [|done].
  destruct (toRouteKey _) as [route|]; [|done]. unfold replay_routed.
  apply safe_quietly; [calm_tac| |done|done]. intros eventId.
  apply safe_quietly; [calm_tac| |done|done]. intros at_. cbv zeta.
  destruct (json_truthy _); [apply safe_calm; calm_tac|].
  eapply (safe_bind _ (fun g _ => True)).
  - destruct route; cbn [run_handler]; [apply safe_kycHandler|apply safe_calm; calm_tac..].
  - intros g [answer|e|e] _; [|done|done].
    eapply safe_mono; [|apply quietly_bind]; [done|calm_tac|calm_tac].
Qed.

(** *** The other calls on invites *)

#[local] Hint Extern 2 (quietly _ (collection (resave_invite _ _))) =>
  apply calm_resave; intros; split; [done|by intros] : invites_calm.

Lemma calm_redeem token user acc : calm (redeemInvite token user acc).
Proof. calm_tac. Qed.

Lemma calm_revoke id reason : calm (revokeInvite id reason).
Proof. calm_tac. Qed.

Lemma calm_extend id expires : calm (extendInvite id expires).
Proof. calm_tac. Qed.

End CalmCalls.

(** Calls of the integration, and on invites. *)
Inductive referral_request :=
| Integration (r : bridge_request)
| Redeem (token userId : string) (domainAccount : option account)
| Revoke (inviteId : string) (reason : option string)
| Extend (inviteId : string) (expiresAt : Z)
| Preview (token : string)
| Stats (inviterId : string).

Section Pool.
Context `{X : BridgeExternal}.

Definition serve_referral (r : referral_request) : BApp unit :=
  match r with
  | Integration r => serve r
  | Redeem token user acc => redeemInvite token user acc ;;; pret tt
  | Revoke id reason => revokeInvite id reason ;;; pret tt
  | Extend id expires => extendInvite id expires ;;; pret tt
  | Preview token => invitePreview token ;;; pret tt
  | Stats inviter => getMyReferralStats inviter ;;; pret tt
  end.

#[local] Hint Resolve calm_call calm_body calm_sync calm_createVirtualAccount calm_requestWithdrawal
  calm_initiateWithdrawal calm_transferHandler calm_depositHandler calm_externalHandler
  calm_receiveHandler calm_reconcileDeposits calm_reconcileWithdrawals calm_redeem calm_revoke
  calm_extend : invites_calm.

Lemma safe_unit {A} ivs0 paid0 k (c : BApp A) :
  safe (on_invites ivs0 paid0) (fun _ _ => True) k c Apart ->
  safe (on_invites ivs0 paid0) (fun _ _ => True) k (c ;;; pret tt) Apart.
Proof. intros Hc. eapply safe_bind; [exact Hc|]. by intros g [] _. Qed.

Lemma safe_serve_referral ivs0 paid0 k r :
  safe (on_invites ivs0 paid0) (fun _ _ => True) k (serve_referral r) Apart.
Proof.
  destruct r as [r| | | | |]; cbn [serve_referral]; [|apply safe_unit, safe_calm; calm_tac..].
  destruct r; cbn [serve];
    first [apply safe_unit, safe_kycHandler|apply safe_unit, safe_replayHandler|apply safe_calm; calm_tac].
Qed.

Lemma rewarded_start ivs paid n :
  (forall id i, ivs !! id = Some i -> iv_id i = id) -> indexes ivs ->
  rewarded ivs paid ivs paid (replicate n Apart).
Proof.
  intros Hi Hx. split; [done| |done| | |].
  - intros id i H1. exists i. by split.
  - replace (omap held (replicate n Apart)) with (@nil string); [constructor|]. by induction n.
  - by apply Forall_replicate.
  - replace (total paid_by (replicate n Apart)) with 0; [lia|]. induction n; cbn; [done|]. unfold total in *. lia.
Qed.

Lemma referrals_invariant (requests : list referral_request) (w : bworld) (sched : list nat) :
  (forall id i, s_invites (b_store w) !! id = Some i -> iv_id i = id) -> indexes (s_invites (b_store w)) ->
  exists ss, on_invites (s_invites (b_store w)) (payments (b_top w))
               (exec sched (serve_referral <$> requests) w).2 ss.
Proof.
  intros Hi Hx.
  destruct (exec_safe (on_invites (s_invites (b_store w)) (payments (b_top w))) (fun _ _ => True) sched
    (serve_referral <$> requests) w) as (ss & HI & _); [|by exists ss].
  exists (replicate (length requests) Apart). split; [by apply rewarded_start|].
  split; [by rewrite length_replicate, length_fmap|]. intros i p g Hp [-> _]%lookup_replicate_1.
  rewrite list_lookup_fmap in Hp. destruct (requests !! i); [|done]. injection Hp as <-.
  apply safe_serve_referral.
Qed.

End Pool.

(** C7: whatever KYC webhooks, redemptions and other calls run at the same time,
    each referral is rewarded at most once: the payments made are at most two for
    each of a set of distinct invites, which were unclaimed before and are claimed
    now. *)
Theorem referrals_rewarded_once `{X : BridgeExternal} (requests : list referral_request) (w : bworld)
    (sched : list nat) :
  (forall id i, s_invites (b_store w) !! id = Some i -> iv_id i = id) -> indexes (s_invites (b_store w)) ->
  let w' := (exec sched (serve_referral <$> requests) w).2 in
  exists claimed : list string,
    NoDup claimed /\
    (length (w_paid (t_base (b_top w'))) <= length (w_paid (t_base (b_top w))) + 2 * length claimed)%nat /\
    Forall (fun id =>
      (forall i, s_invites (b_store w) !! id = Some i -> iv_rewardStatus i = None) /\
      exists i, s_invites (b_store w') !! id = Some i /\ is_Some (iv_rewardStatus i)) claimed.
Proof.
  intros Hi Hx w'. destruct (referrals_invariant requests w sched Hi Hx) as (ss & [_ _ _ Hc Hh Hp]).
  fold w' in Hc, Hh, Hp. exists (omap held ss). split; [done|]. unfold payments in Hp. split.
  - assert (total paid_by ss <= 2 * Z.of_nat (length (omap held ss))) as Hb; [|lia].
    clear -Hh. induction Hh as [|[|id n] ss Hok Hh IH]; cbn; [done|done|].
    destruct Hok as [Hn _]. unfold total in IH. lia.
  - clear -Hh. induction Hh as [|[|id n] ss Hok Hh IH]; cbn; [constructor|done|].
    constructor; [|done]. destruct Hok as (_ & Hs & H0'). by split.
Qed.
