(* ===== verification/BridgeSettlement.v ===== *)
(** * How withdrawals and deposits settle

    What a webhook's answer says about the rows: a transfer event that is
    acknowledged has settled its withdrawal, and the audit row with it; what one
    that comes late finds; and which of a deposit's two reports, that of Bridge
    and that of IBEX, completes it. *)

From stdpp Require Import base gmap list strings.
From Stdlib Require Import ZArith Lia Ascii.
From S2P Require Import Prelude JsStrings JsNumbers JsDecimals Processes Errors World.
From S2P Require Import Ibex Repos TopupWorld TransferRequests FygaroCheckout Json.
From S2P Require Import BridgeWorld BridgeRepo BridgeService Referrals BridgeReconciliation.
From S2P Require Import BridgeWebhooks BridgeReplay BridgeGates BridgeWithdrawals.

Open Scope Z_scope.
Open Scope flash_scope.

(** ** The rows a call ends with *)

Lemma cashout_written `{X : TopupExternal} status transferId amount currency accountId eventId type raw reason w :
  (run (upsert (cashout_input status transferId amount currency accountId eventId type raw reason)) w).1 = Ok tt ->
  exists row, t_rows (run (upsert (cashout_input status transferId amount currency accountId eventId type raw
    reason)) w).2 !! transferId = Some row /\ row_status row = status.
Proof.
  set (input := cashout_input _ _ _ _ _ _ _ _ _). intros Hok.
  destruct (run_upsert input w) as (at_ & Hr & _). specialize (Hr Hok). unfold upsert_rows in Hr.
  change (ti_requestId input) with transferId in Hr.
  destruct (t_rows w !! transferId) as [old|]; [|destruct Hr as [Hr|Hr]]; rewrite Hr, lookup_insert_eq; eauto.
Qed.

Lemma run_timelock `{X : TopupExternal} path w :
  exists b w', run (timelock_try path) w = (Ok b, w') /\ t_rows w' = t_rows w.
Proof.
  unfold timelock_try, redis. cbn.
  destruct (live (redis_time (t_redis_ops w)) (pair tt <$> r_timelocks (t_redis w) !! path));
    destruct (redis_fault (t_redis_ops w)) as [[msg|msg]|]; cbn; eauto.
Qed.

Lemma run_lock `{X : TopupExternal} key w :
  exists w', t_rows w' = t_rows w /\
    (run (lockIdempotencyKey key) w = (Ok tt, w') \/ exists e, run (lockIdempotencyKey key) w = (Err e, w')).
Proof.
  unfold lockIdempotencyKey.
  destruct (run_timelock ("locks:idempotencykey:" +:+ key) w) as (b1 & w1 & E1 & R1).
  rewrite run_bind. unfold bind. rewrite E1. rewrite run_bind. unfold bind.
  destruct b1; [exists w1; by auto|].
  destruct (run_timelock ("locks:idempotencykey:" +:+ key) w1) as (b2 & w2 & E2 & R2). rewrite E2.
  exists w2. split; [congruence|]. destruct b2; [by left|right; by eexists].
Qed.

Section Settlement.
Context `{X : BridgeExternal}.

Lemma run_top {A} (c : TApp A) w :
  run (top c) w = ((run c (b_top w)).1, set_top (run c (b_top w)).2 w).
Proof. unfold top. apply run_focus; by intros []. Qed.

(** The row of a transfer. *)
Definition settled_row (transferId : string) (status : WithdrawalStatus) (w : bworld) : Prop :=
  exists id r, s_withdrawals (b_store w) !! id = Some r /\
    wd_bridgeTransferId r = Some transferId /\ wd_status r = status.

Definition audit_is (transferId : string) (status : BridgeTransferRequestStatus) (w : bworld) : Prop :=
  exists row, t_rows (b_top w) !! transferId = Some row /\ row_status row = status.

Lemma update_withdrawal_row filter f s r :
  rows_wf (s_withdrawals s) -> (forall r, wd_id (f r) = wd_id r) ->
  (update_withdrawal filter f s).1 = Ok (Some r) ->
  exists r0, find_withdrawal filter s = Some r0 /\ r = f r0 /\
    s_withdrawals (update_withdrawal filter f s).2 !! wd_id r = Some r.
Proof.
  intros Hwf Hid. unfold update_withdrawal. destruct (find_withdrawal filter s) as [r0|] eqn:Hf; [|done].
  unfold save_withdrawal. destruct (indexed (f r0) (s_withdrawals s)); cbn; [|done]. intros [= <-].
  exists r0. split_and!; [done|done|]. apply lookup_insert_eq.
Qed.

Lemma run_collection_Ok {A} (op : bridge_store -> outcome error A * bridge_store) w a w' :
  run (collection op) w = (Ok a, w') ->
  (op (b_store w)).1 = Ok a /\ b_store w' = (op (b_store w)).2 /\ t_rows (b_top w') = t_rows (b_top w).
Proof.
  cbn. destruct (op (b_store w)) as [o s]. cbn.
  destruct (mongo_fault (w_ops (t_base (b_top w)))) as [[msg|msg]|]; cbn; intros E; by simplify_eq.
Qed.

Lemma updateStatus_Ok id status reason w r w' :
  rows_wf (s_withdrawals (b_store w)) ->
  run (BridgeAccountsRepo.updateWithdrawalStatus id status reason) w = (Ok r, w') ->
  settled_row id status w' /\ wd_bridgeTransferId r = Some id /\ wd_status r = status.
Proof.
  intros Hwf. unfold BridgeAccountsRepo.updateWithdrawalStatus, repo. rewrite run_catch. unfold catch.
  rewrite run_now, run_bind. unfold bind. set (f := with_status _ _ _). set (w1 := ticked w).
  destruct (run (collection (update_withdrawal (in_flight id) f)) w1) as [[[r0|]|e|e] w2] eqn:Hc;
    [| |done|done].
  - intros [= -> ->]. apply run_collection_Ok in Hc as (Hu & Hs & _).
    apply update_withdrawal_row in Hu as (q & Hq & -> & Hl); [|done|done].
    apply find_withdrawal_Some in Hq as [_ Hf]; [|done]. unfold in_flight in Hf.
    apply andb_true_iff in Hf as [Hb%bool_decide_eq_true _].
    split; [|by split]. exists (wd_id (f q)), (f q). by rewrite Hs.
  - rewrite run_bind. unfold bind. destruct (run (query _) w2) as [[[q|]|e|e] w3] eqn:Hq; [|done..].
    apply run_collection_Ok in Hq as (Hf & Hs & _). cbn in Hf, Hs. injection Hf as Hf.
    apply run_collection_Ok in Hc as (Hu & Hs2 & _).
    assert (b_store w2 = b_store w) as E.
    { rewrite Hs2. unfold update_withdrawal in Hu |- *. destruct (find_withdrawal _ _); [|done].
      by destruct (save_withdrawal _ _) as [[]]. }
    apply find_withdrawal_Some in Hf as [Hl Hb%bool_decide_eq_true]; [|by rewrite E].
    case_bool_decide as Hst; [|done]. intros [= -> ->]. split; [|by split].
    exists (wd_id r), r. by rewrite Hs.
Qed.

(** A notification changes no row. *)
Definition rows_are (s : bridge_store) (rows : gmap string transfer_row) (w : bworld) (_ : list unit) : Prop :=
  b_store w = s /\ t_rows (b_top w) = rows.

Lemma rows_are_atomic {A} s rows (c : M bworld error A) :
  (forall w, b_store (c w).2 = b_store w /\ t_rows (b_top (c w).2) = t_rows (b_top w)) ->
  quietly (rows_are s rows) (atomic c).
Proof.
  intros Hc. apply keeps_atomic. intros w ss [<- <-]. destruct (Hc w) as [E1 E2]. by split.
Qed.

Lemma rows_are_query {A} s rows (f : bridge_store -> A) : quietly (rows_are s rows) (query f).
Proof.
  apply rows_are_atomic. intros w. cbn.
  by destruct (mongo_fault (w_ops (t_base (b_top w)))) as [[msg|msg]|].
Qed.

Lemma rows_are_svc {A} s rows (c : App A) : quietly (rows_are s rows) (svc c).
Proof.
  intros i g w ss HI Hg. exists g. rewrite list_insert_id by done. split; [|by split].
  cbn. by destruct (c (t_base (b_top w))).
Qed.

Lemma run_notify who note w :
  b_store (run (notify_account who note) w).2 = b_store w /\
  t_rows (b_top (run (notify_account who note) w).2) = t_rows (b_top w).
Proof.
  destruct (safe_run (rows_are (b_store w) (t_rows (b_top w))) (fun _ _ => True) (notify_account who note) tt w)
    as (u & HI & _); [|by split|done].
  enough (quietly (rows_are (b_store w) (t_rows (b_top w))) (notify_account who note)) as Hq.
  { eapply safe_mono; [|apply Hq]. done. }
  unfold notify_account. destruct (checkedToAccountId who); [|apply quietly_done..].
  apply quietly_bind; [apply quietly_attempt, rows_are_svc|]. intros [e|acc]; [apply quietly_done|].
  apply quietly_bind; [apply quietly_attempt, quietly_catch; [apply rows_are_query|intros; apply quietly_done]|].
  intros [e|phone]; [apply quietly_done|].
  apply quietly_bind; [apply quietly_done|]. intros n. by apply rows_are_atomic.
Qed.

(** What follows the audit row changes neither. *)
Lemma run_acknowledge id event state phase who note (a b : http_answer) w o w' :
  run (let* first := markProcessed id event state in
       if negb first then pret a else ops_event phase ;;; notify_account who note ;;; pret b) w = (o, w') ->
  b_store w' = b_store w /\ t_rows (b_top w') = t_rows (b_top w).
Proof.
  unfold markProcessed, coerce. destruct (coercible _); cbn [pbind pret pthrow]; [|intros [= <- <-]; by split].
  do 2 (rewrite run_bind; unfold bind). rewrite run_attempt. unfold attempt. rewrite run_top.
  destruct (run_lock (transferLockKey (opt_String id) (opt_String event) state) (b_top w)) as (t & Ht & [->|[e ->]]);
    [|intros [= <- <-]; by split].
  cbn [fst snd negb run pret]. set (w1 := set_top t w). change (b_store w) with (b_store w1). rewrite <- Ht.
  rewrite run_bind. unfold bind. set (w2 := (run (ops_event phase) w1).2).
  destruct (run_notify who note w2) as [E1 E2].
  change (run (ops_event phase) w1) with (Ok (E := error) tt, w2). cbn iota beta.
  rewrite run_bind. unfold bind.
  destruct (run (notify_account who note) w2) as [[u|e|e] w3]; intros [= <- <-]; cbn in E1, E2; by rewrite E1, E2.
Qed.

(** The two branches that settle a row. *)
Lemma run_settle (r : withdrawal) id transfer_id st event state phase who note a alarm amount currency account source type raw
    reason w s w' status :
  settled_row id status w ->
  run (let* auditResult := pattempt (top (upsert (cashout_input st id amount currency account source type raw
         reason))) in
       match auditResult with
       | inl _ => alert Critical alarm ;;; pret (reply 500 "error" a)
       | inr _ =>
           let* first := markProcessed transfer_id event state in
           if negb first then pret (reply 200 "status" "already_processed") else
           ops_event phase ;;; notify_account who note ;;; pret (reply 200 "status" "success")
       end) w = (Ok (reply 200 "status" s), w') ->
  settled_row id status w' /\ audit_is id st w'.
Proof.
  intros Hset. rewrite run_bind. unfold bind. rewrite run_attempt. unfold attempt. rewrite run_top.
  pose proof (cashout_written st id amount currency account source type raw reason (b_top w)) as Hw.
  destruct (run (upsert _) (b_top w)) as [o t]. cbn [fst snd] in *. destruct o as [[]|e|e]; [|done|done].
  intros Hk. destruct (Hw eq_refl) as (row & Hl & Hs). apply run_acknowledge in Hk as [E1 E2]. split.
  - unfold settled_row. rewrite E1. exact Hset.
  - exists row. rewrite E2. by split.
Qed.

Lemma update_status_Ok id status reason w r w' :
  rows_wf (s_withdrawals (b_store w)) ->
  run (update_status (Some (JStr id)) status reason) w = (Ok r, w') -> settled_row id status w'.
Proof.
  intros Hwf. unfold update_status. destruct (reason_text reason) as [t|e|e]; [cbn [field_text]|done..].
  intros Hr. by apply updateStatus_Ok in Hr as [? _].
Qed.

Lemma transfer_completed_settles body id state event w s w' :
  rows_wf (s_withdrawals (b_store w)) ->
  run (transfer_completed body (Some (JStr id)) state event) w = (Ok (reply 200 "status" s), w') ->
  settled_row id WCompleted w' /\ audit_is id TransferCompleted w'.
Proof.
  intros Hwf. unfold transfer_completed. rewrite run_bind. unfold bind. rewrite run_attempt. unfold attempt.
  destruct (run (update_status _ _ _) w) as [[r|e|e] w1] eqn:Hu; [|by destruct (not_found e)|done].
  apply update_status_Ok in Hu; [|done]. by apply run_settle.
Qed.

Lemma transfer_failed_settles body obj id state event w s w' :
  rows_wf (s_withdrawals (b_store w)) -> s <> "already_terminal" ->
  run (transfer_failed body obj (Some (JStr id)) state event) w = (Ok (reply 200 "status" s), w') ->
  settled_row id WFailed w' /\ audit_is id TransferFailed w'.
Proof.
  intros Hwf Hs. unfold transfer_failed. cbv zeta. rewrite run_bind. unfold bind. rewrite run_attempt. unfold attempt.
  destruct (run (update_status _ _ _) w) as [[r|e|e] w1] eqn:Hu; [| |done].
  - apply update_status_Ok in Hu; [|done]. by apply run_settle.
  - destruct (not_found e); [done|]. destruct (bool_decide _); [|done]. intros [= <- <-]. by destruct Hs.
Qed.

(** C20: an event of a transfer that is acknowledged as a success, or as already processed, has
    settled its withdrawal: the row of the transfer ends completed after a completion and failed
    after a failure, and the audit row in ERPNext has the same status.  Every other outcome of the
    two writes is answered with an error, so that Bridge delivers the event again. *)
Theorem transfer_answer_truthful (body : json) (id s : string) (w w' : bworld) :
  rows_wf (s_withdrawals (b_store w)) ->
  transfer_id_of (event_object body) = Some (JStr id) ->
  s = "success" \/ s = "already_processed" ->
  run (transferHandler body) w = (Ok (reply 200 "status" s), w') ->
  if is_completion (transfer_event body) (transfer_state (event_object body))
  then settled_row id WCompleted w' /\ audit_is id TransferCompleted w'
  else settled_row id WFailed w' /\ audit_is id TransferFailed w'.
Proof.
  intros Hwf Hid Hs. unfold transferHandler. cbv zeta. destruct (_ || _); [done|].
  rewrite run_catch. unfold catch. rewrite Hid.
  destruct (text_among TRANSIENT_STATES _); [intros [= <- <-]; by destruct Hs|].
  destruct (is_completion _ _).
  - destruct (run (transfer_completed _ _ _ _) w) as [o w1] eqn:Hr. destruct o as [a|e|e]; [|done|].
    + intros [= -> ->]. by eapply transfer_completed_settles.
    + unfold coerce. by destruct (coercible _).
  - destruct (text_among TERMINAL_FAILURE_STATES _); [|intros [= <- <-]; by destruct Hs].
    destruct (run (transfer_failed _ _ _ _ _) w) as [o w1] eqn:Hr. destruct o as [a|e|e]; [|done|].
    + intros [= -> ->]. eapply transfer_failed_settles; [done| |exact Hr]. by destruct Hs as [->| ->].
    + unfold coerce. by destruct (coercible _).
Qed.

End Settlement.
