(* ===== verification/Cashouts.v ===== *)
(** * Cashouts

    Model of [src/src/app/offers]: an offer to pay out to a bank account is made
    and kept in Redis ([CashoutManager.createOffer], [Validator.ts],
    [ValidOffer.from], [storage]), and later executed: a draft in ERPNext, the
    payment of the offer's invoice from the user's wallet, and the submission of
    the draft ([CashoutManager.executeCashout], [ValidOffer.execute]). Also the
    calls of [src/src/services/frappe/ErpNext.ts] this uses. What ERPNext does
    with a draft and with a submission is a parameter: the calls made to it are
    recorded, each with its answer. *)

From stdpp Require Import base gmap list strings.
From Stdlib Require Import ZArith Lia.
From S2P Require Import Prelude JsStrings JsNumbers JsDecimals Processes Errors World Ibex Repos.
From S2P Require Import BigintMoney MoneyAmounts FygaroGate FygaroCheckout TopupWorld PaymentIdempotency.
From S2P Require Import FygaroAuthorize Json BridgeWorld IbexCrypto CutoverRouting.

Open Scope Z_scope.
Open Scope flash_scope.

(** ** Data *)

(** A payment of the user to Flash, and a payout of Flash to a bank account. *)
Record CashoutDetails := mkDetails {
  cd_userAcct : string;
  cd_flashAcct : string;
  cd_invoice : LnInvoice;
  cd_amount : MoneyAmount;
  cd_bankAccountId : string;
  cd_payout : MoneyAmount;
  cd_serviceFee : MoneyAmount;
  cd_exchangeRate : option MoneyAmount
}.

Record ValidOffer := mkValidOffer {
  vo_details : CashoutDetails;
  vo_wallet : wallet;
  vo_account : account
}.

Record PersistedOffer := mkPersisted { po_id : string; po_details : CashoutDetails }.

Record InitiatedCashout := mkInitiated {
  ic_offer : ValidOffer;
  ic_cashoutId : string;
  ic_erpSubmitted : bool
}.

(** A bank account of ERPNext, as far as it is read. *)
Record BankAccount := mkBankAccount { ba_name : option string; ba_currency : string }.

(** ** Offers as JSON *)

(** What an offer is in the cache: each amount as its two texts, the rest as it
    is; the text of a date is kept as its moment. *)
Record offer_json := mkOfferJson {
  oj_userAcct : string;
  oj_flashAcct : string;
  oj_invoice : LnInvoice;
  oj_amount : string * string;
  oj_bankAccountId : string;
  oj_payout : string * string;
  oj_serviceFee : string * string;
  oj_exchangeRate : option (string * string)
}.

Definition serialize (d : CashoutDetails) : outcome money_error offer_json :=
  bindo (toJson (cd_amount d)) (fun amount =>
  bindo (toJson (cd_payout d)) (fun payout =>
  bindo (toJson (cd_serviceFee d)) (fun fee =>
  bindo (match cd_exchangeRate d with
         | None => Ok None
         | Some r => bindo (toJson r) (fun t => Ok (Some t))
         end) (fun rate =>
  Ok (mkOfferJson (cd_userAcct d) (cd_flashAcct d) (cd_invoice d) amount (cd_bankAccountId d) payout fee
        rate))))).

(** [value[1] === "USDT" ? USDTAmount.smallestUnits(..) : toMoneyAmountFromJSON(..)];
    an error is thrown. *)
Definition revive_amount (t : string * string) : outcome error MoneyAmount :=
  let '(value, code) := t in
  match (if String.eqb code "USDT" then USDT_smallestUnits (InString value)
         else if String.eqb code "USD" then toMoneyAmount value Usd
         else if String.eqb code "JMD" then toMoneyAmount value Jmd
         else Err (new_error UnsupportedCurrencyError ("Could not read currency: " +:+ code))) with
  | Ok a => Ok a
  | Err e | Throw e => Throw e
  end.

Definition deserialize (j : offer_json) : outcome error CashoutDetails :=
  bindo (revive_amount (oj_amount j)) (fun amount =>
  bindo (revive_amount (oj_payout j)) (fun payout =>
  bindo (revive_amount (oj_serviceFee j)) (fun fee =>
  bindo (match oj_exchangeRate j with
         | None => Ok None
         | Some r => bindo (revive_amount r) (fun a => Ok (Some a))
         end) (fun rate =>
  Ok (mkDetails (oj_userAcct j) (oj_flashAcct j) (oj_invoice j) amount (oj_bankAccountId j) payout fee
        rate))))).

(** ** The world of the cashouts *)

(** The body of a draft; a numeral stands for the number read from it. *)
Record draft := mkDraft {
  dr_customer : string;
  dr_bank_account : string;
  dr_transaction_id : string;
  dr_wallet_id : string;
  dr_flash_wallet : string;
  dr_user_receives : string;
  dr_user_pays : string;
  dr_currency : string;
  dr_exchange_rate : option string;
  dr_flash_fee : string
}.

Class CashoutExternal `{BridgeExternal} := {
  cashout_fee : Z;
  cashout_duration : Z;
  cashout_minimum : Z;
  cashout_maximum : Z;
  cashout_accountLevel : Z;
  cashout_skipPayment : bool;
  cashout_bankOwner : outcome error string;
  erp_bank_accounts : nat -> string -> option (list BankAccount);
  erp_exchange_rate : nat -> option scalar;
  erp_draft : nat -> draft -> outcome error string;
  erp_submit : nat -> string -> option error
}.

(** A call of ERPNext with its answer, and an answer of IBEX to a payment made for
    a draft. *)
Inductive cashout_event :=
| Drafted (body : draft) (answer : outcome error string)
| Paid (cashoutId sender invoice : string) (status : PaymentSendStatus)
| Submitted (cashoutId : string) (answer : option error).

(** [cw_parties] is the field [erpParty] of the accounts. *)
Record cworld `{CashoutExternal} := mkCWorld {
  cw_bridge : bworld;
  cw_parties : gmap string string;
  cw_offers : gmap string (offer_json * Z);
  cw_bankOwner : option string;
  cw_calls : nat;
  cw_log : list cashout_event;
  cw_emails : list string
}.

Section Cashouts.
Context `{X : CashoutExternal}.

Definition set_cbridge b (w : cworld) : cworld :=
  mkCWorld _ _ _ _ b (cw_parties w) (cw_offers w) (cw_bankOwner w) (cw_calls w) (cw_log w) (cw_emails w).
Definition set_offers o (w : cworld) : cworld :=
  mkCWorld _ _ _ _ (cw_bridge w) (cw_parties w) o (cw_bankOwner w) (cw_calls w) (cw_log w) (cw_emails w).
Definition set_cbankOwner o (w : cworld) : cworld :=
  mkCWorld _ _ _ _ (cw_bridge w) (cw_parties w) (cw_offers w) o (cw_calls w) (cw_log w) (cw_emails w).
Definition log_call e (w : cworld) : cworld :=
  mkCWorld _ _ _ _ (cw_bridge w) (cw_parties w) (cw_offers w) (cw_bankOwner w) (S (cw_calls w))
    (cw_log w ++ [e]) (cw_emails w).
Definition log_email id (w : cworld) : cworld :=
  mkCWorld _ _ _ _ (cw_bridge w) (cw_parties w) (cw_offers w) (cw_bankOwner w) (cw_calls w) (cw_log w)
    (cw_emails w ++ [id]).

(** [CApp A]: a handler of this world. *)
Definition CApp (A : Type) : Type := proc cworld error A.

Definition bridge {A} (c : BApp A) : CApp A := focus cw_bridge set_cbridge c.
Definition csvc {A} (c : App A) : CApp A := bridge (svc c).
Definition cread {A} (f : cworld -> A) : CApp A := atomic (fun w => (Ok (f w), w)).
Definition cpoke (f : cworld -> cworld) : CApp unit := atomic (fun w => (Ok tt, f w)).
Definition computed {A} (o : outcome money_error A) : CApp A := Done (thrown o).

(** [account.erpParty] *)
Definition erpParty (a : account) : CApp (option string) :=
  cread (fun w => nonempty_opt (cw_parties w !! a_id a)).

(** ** Calls of ERPNext *)

(** A call on the service, which is null when ERPNext is not configured. *)
Definition configured (method : string) : CApp unit :=
  if erp_configured then pret tt
  else pthrow (new_error JsTypeError ("Cannot read properties of null (reading '" +:+ method +:+ "')")).

Definition asDollars2 (a : MoneyAmount) : outcome money_error string := asDollars a 2.

Definition draft_body (party : string) (d : CashoutDetails) : outcome money_error draft :=
  bindo (asDollars2 (cd_payout d)) (fun receives =>
  bindo (match currencyCode (cd_amount d) with
         | Usdt => asNumber (cd_amount d) 2
         | _ => asDollars2 (cd_amount d)
         end) (fun pays =>
  bindo (match cd_exchangeRate d with
         | None => Ok None
         | Some r => bindo (asDollars2 r) (fun s => Ok (Some s))
         end) (fun rate =>
  bindo (asDollars2 (cd_serviceFee d)) (fun fee =>
  Ok (mkDraft party (cd_bankAccountId d) (inv_paymentHash (cd_invoice d)) (cd_userAcct d)
        (cd_flashAcct d) receives pays (currency_name (currencyCode (cd_payout d))) rate fee))))).

Definition draftCashout (o : ValidOffer) : CApp string :=
  configured "draftCashout" ;;;
  let* party := erpParty (vo_account o) in
  match party with
  | None => pfail (new_error CashoutDraftError "Account missing erpParty field")
  | Some party =>
      pcatch (
        let* body := computed (draft_body party (vo_details o)) in
        let* answer := atomic (fun w =>
          let answer := erp_draft (cw_calls w) body in (Ok answer, log_call (Drafted body answer) w)) in
        Done (match answer with Ok name => Ok name | Err e | Throw e => Throw e end))
      (fun e => pfail (new_error CashoutDraftError (err_message e)))
  end.

(** [true], or the error; it is never thrown. *)
Definition submitCashout (cashoutId : string) : CApp (option error) :=
  configured "submitCashout" ;;;
  let* answer := atomic (fun w =>
    let answer := erp_submit (cw_calls w) cashoutId in
    (Ok answer, log_call (Submitted cashoutId answer) w)) in
  pret ((fun e => new_error CashoutSubmitError (err_message e)) <$> answer).

Definition getBankAccountsByCustomer (customerName : string) : CApp (list BankAccount) :=
  configured "getBankAccountsByCustomer" ;;;
  pcatch
    (let* data := bridge (top (erp_query (fun n => erp_bank_accounts n customerName))) in
     pret (default [] data))
    (fun e => pfail (new_error BankAccountQueryError (err_message e))).

Definition getCashoutExchangeRate : CApp MoneyAmount :=
  configured "getCashoutExchangeRate" ;;;
  pcatch
    (let* rate := bridge (top (erp_query erp_exchange_rate)) in
     match rate with
     | Some (SNumber x) =>
         if num_ltb (num_of_Z 0) x then
           match JMD_dollars (num_toString x) with
           | Ok r => pret r
           | Err e => pfail (new_error ExchangeRateQueryError (err_message e))
           | Throw e => pthrow e
           end
         else pfail (new_error ExchangeRateQueryError "No USD->JMD for_buying rate found in ERPNext")
     | _ => pfail (new_error ExchangeRateQueryError "No USD->JMD for_buying rate found in ERPNext")
     end)
    (fun e => pfail (new_error ExchangeRateQueryError (err_message e))).

(** ** Validation *)

Record ValidationInputs := mkInputs {
  in_details : CashoutDetails;
  in_wallet : wallet;
  in_account : account
}.

(** A check answers true ([None]) or an error. *)
Definition check : Type := ValidationInputs -> CApp (option error).

Definition invalid (message : string) : option error := Some (new_error ValidationError message).

Definition is_usdt (a : MoneyAmount) : bool := bool_decide (currencyCode a = Usdt).

Definition isBeforeExpiry : check := fun o =>
  let* now := csvc new_Date in
  pret (if inv_expiresAt (cd_invoice (in_details o)) <? now then invalid "Offer has expired" else None).

(** A bound in the currency of the amount. *)
Definition bound_amount (cents : Z) (usdt : bool) : outcome error MoneyAmount :=
  if usdt then USDT_usdCents (bigint_toString cents) else USD_cents (InBigint cents).
Definition bound_text (a : MoneyAmount) : outcome money_error string :=
  if is_usdt a then asNumber a 2 else asDollars2 a.

Definition cashoutMin : check := fun o =>
  match bound_amount cashout_minimum (is_usdt (cd_amount (in_details o))) with
  | Err e | Throw e => pret (invalid (err_message e))
  | Ok min =>
      let* less := computed (amount_isLesserThan (cd_amount (in_details o)) min) in
      if less : bool then let* text := computed (bound_text min) in pret (invalid ("Minimum cashout is $" +:+ text))
      else pret None
  end.

Definition cashoutMax : check := fun o =>
  match bound_amount cashout_maximum (is_usdt (cd_amount (in_details o))) with
  | Err e | Throw e => pret (invalid (err_message e))
  | Ok max =>
      let* more := computed (amount_isGreaterThan (cd_amount (in_details o)) max) in
      if more : bool then let* text := computed (bound_text max) in pret (invalid ("Maximum cashout is $" +:+ text))
      else pret None
  end.

Definition currency_mismatch : option error :=
  invalid "Cashout amount currency does not match the source wallet".

Definition isSupportedCashoutWallet : check := fun o =>
  pret (match wl_currency (in_wallet o) with
        | Usd => if is_usdt (cd_amount (in_details o)) then currency_mismatch else None
        | Usdt => if is_usdt (cd_amount (in_details o)) then None else currency_mismatch
        | _ => invalid "Cash out only supports withdrawals from USD or USDT wallets"
        end).

Definition hasSufficientBalance : check := fun o =>
  let amount := cd_amount (in_details o) in
  let* balance := pattempt (bridge (getBalanceForWallet (wl_id (in_wallet o)) (wl_currency (in_wallet o)))) in
  match balance with
  | inl e => pret (invalid (err_message e))
  | inr balance =>
      if negb (Bool.eqb (is_usdt balance) (is_usdt amount)) then pret currency_mismatch
      else
        let* more := computed (amount_isGreaterThan amount balance) in
        pret (if more : bool then invalid "Transfer amount is greater than wallet balance." else None)
  end.

Definition isActiveAccount : check := fun o =>
  pret (match isActive (in_account o) with Ok _ => None | Err e | Throw e => Some e end).

Definition accountLevel : check := fun o =>
  pret (if cashout_accountLevel <=? a_level (in_account o) then None
        else invalid ("Account must be at least level " +:+ bigint_toString cashout_accountLevel)).

Definition walletBelongsToAccount : check := fun o =>
  pret (if bool_decide (wl_accountId (in_wallet o) = a_id (in_account o)) then None
        else Some (new_error InvalidWalletId (json_object
          [json_member "accountId" (json_string (a_id (in_account o)));
           json_member "accountIdFromWallet" (json_string (wl_accountId (in_wallet o)))]))).

Definition hasErpParty : check := fun o =>
  let* party := erpParty (in_account o) in
  pret (match party with Some _ => None | None => invalid "Account is missing erpParty field." end).

Definition payout_currency (d : CashoutDetails) : string :=
  match currencyCode (cd_payout d) with Jmd => "JMD" | _ => "USD" end.

Definition find_bank (id : string) (banks : list BankAccount) : option BankAccount :=
  snd <$> list_find (fun b => ba_name b = Some id) banks.

Definition verifyBankAccount : check := fun o =>
  let* party := erpParty (in_account o) in
  match party with
  | None => pret (invalid "Account does not have an associated erpParty")
  | Some party =>
      let* banks := pattempt (getBankAccountsByCustomer party) in
      pret (match banks with
            | inl _ => invalid "Could not confirm bank account for user"
            | inr banks =>
                match find_bank (cd_bankAccountId (in_details o)) banks with
                | None => invalid "Bank account does not belong to user"
                | Some b =>
                    if String.eqb (ba_currency b) (payout_currency (in_details o)) then None
                    else invalid ("Bank account currency (" +:+ ba_currency b
                           +:+ ") does not match payout currency (" +:+ payout_currency (in_details o) +:+ ")")
                end
            end)
  end.

(** All checks run, and all their errors are reported. They only read, so they are
    run in turn. *)
Fixpoint validator (checks : list check) (o : ValidationInputs) : CApp (list error) :=
  match checks with
  | [] => pret []
  | c :: rest =>
      let* result := c o in
      let* errs := validator rest o in
      pret (match result with Some e => e :: errs | None => errs end)
  end.

Definition cashout_checks : list check :=
  [isSupportedCashoutWallet; cashoutMin; cashoutMax; isActiveAccount; accountLevel;
   walletBelongsToAccount; hasSufficientBalance; isBeforeExpiry; hasErpParty; verifyBankAccount].

Definition CashoutValidator : ValidationInputs -> CApp (list error) := validator cashout_checks.

(** [new ValidationError(errors)]: the message is the JSON of the errors. *)
Definition validation_errors (errs : list error) : error :=
  new_error ValidationError ("[" +:+ String.concat "," ((fun e =>
    json_object [json_member "name" (json_string (error_name (err_class e)));
                 json_member "level" (json_string "info")]) <$> errs) +:+ "]").

(** [x instanceof RepositoryError ? new ValidationError(x) : ..] *)
Definition or_invalid {A} (c : CApp A) : CApp A :=
  let* r := pattempt c in
  match r with inl e => pfail (new_error ValidationError (err_message e)) | inr a => pret a end.

Definition ValidOffer_from (details : CashoutDetails) : CApp ValidOffer :=
  let* wl := or_invalid (csvc (wallets_findById (cd_userAcct details))) in
  let* account := or_invalid (csvc (accounts_findById (wl_accountId wl))) in
  let* errs := CashoutValidator (mkInputs details wl account) in
  match errs with
  | [] => pret (mkValidOffer details wl account)
  | _ => pfail (validation_errors errs)
  end.

(** ** Execution *)

Definition step_failed : CApp unit := bridge (ops_event "failed").

(** [Ibex.payInvoice], with the answer recorded for the draft it is made for. *)
Definition pay_for (cashoutId sender invoice : string) : CApp pay_response :=
  atomic (fun w =>
    let b := cw_bridge w in
    let t := b_top b in
    let '(o, base') := payInvoice sender invoice None (t_base t) in
    let w1 := set_cbridge (set_top (set_base base' t) b) w in
    (o, match o with
        | Ok resp => log_call (Paid cashoutId sender invoice (paymentSendStatusOrPending resp)) w1
        | _ => w1
        end)).

Definition pay_cashout (cashoutId : string) (d : CashoutDetails) : CApp unit :=
  if cashout_skipPayment then pret tt
  else
    let* resp := pattempt (pay_for cashoutId (cd_userAcct d) (inv_paymentRequest (cd_invoice d))) in
    match resp with
    | inl e => step_failed ;;; pfail e
    | inr resp =>
        if bool_decide (paymentSendStatusOrPending resp = PaymentFailure) then
          step_failed ;;;
          pfail (new_error FailedIbexPayment
            ("IBEX reported the cashout payment as FAILED for cashout " +:+ cashoutId))
        else pret tt
    end.

(** One retry. *)
Definition submit_retrying (cashoutId : string) : CApp bool :=
  let* submitted := submitCashout cashoutId in
  match submitted with
  | None => pret true
  | Some _ =>
      let* submitted := submitCashout cashoutId in
      match submitted with
      | None => pret true
      | Some _ => step_failed ;;; pret false
      end
  end.

Definition ValidOffer_execute (o : ValidOffer) : CApp InitiatedCashout :=
  let* drafted := pattempt (draftCashout o) in
  match drafted with
  | inl e => step_failed ;;; pfail e
  | inr cashoutId =>
      pay_cashout cashoutId (vo_details o) ;;;
      let* erpSubmitted := submit_retrying cashoutId in
      pret (mkInitiated o cashoutId erpSubmitted)
  end.

(** ** Storage *)

(** One command of Redis on the offers, at the mercy of the same server. *)
Definition offers {A} (op : Z -> gmap string (offer_json * Z) -> A * gmap string (offer_json * Z)) :
    CApp A :=
  atomic (fun w =>
    let b := cw_bridge w in
    let t := b_top b in
    let n := t_redis_ops t in
    let w1 := set_cbridge (set_top (next_redis_op t) b) w in
    let '(a, m) := op (redis_time n) (cw_offers w) in
    match redis_fault n with
    | None => (Ok a, set_offers m w1)
    | Some (FaultBefore msg) => (Throw (new_error JsError msg), w1)
    | Some (FaultAfter msg) => (Throw (new_error JsError msg), set_offers m w1)
    end).

Definition cache_failed {A} (c : CApp A) : CApp A :=
  pcatch c (fun e => pfail (new_error UnknownCacheServiceError (err_message e))).

Definition OFFER_TTL_SECS : Z := 3600.

Definition Storage_add (o : ValidOffer) : CApp PersistedOffer :=
  let* id := csvc randomUUID in
  let* text := computed (serialize (vo_details o)) in
  cache_failed (offers (fun now m => (tt, <[id := (text, now + OFFER_TTL_SECS * 1000)]> m))) ;;;
  pret (mkPersisted id (vo_details o)).

Definition Storage_get (id : string) : CApp PersistedOffer :=
  pcatch
    (let* text := cache_failed (offers (fun now m => (live now (m !! id), m))) in
     match text with
     | None => pfail (new_error0 OfferNotFound)
     | Some j => let* d := Done (deserialize j) in pret (mkPersisted id d)
     end)
    (fun e => pfail (parseRepositoryError e)).

(** ** The manager *)

Definition getBankOwnerIbexAccount : CApp string :=
  let* cached := cread cw_bankOwner in
  match cached with
  | Some id => pret id
  | None =>
      let* id := Done cashout_bankOwner in
      cpoke (set_cbankOwner (Some id)) ;;;
      pret id
  end.

(** [BigInt(10000 - Math.round(feeDiscountPercent * 100))] *)
Definition kept_bips (discount : js_num) : Z :=
  10000 - Math_round (num_mul discount (num_of_Z 100)).

Definition service_fee (userPayment : MoneyAmount) (discount : js_num) : outcome money_error MoneyAmount :=
  bindo (multiplyBips userPayment cashout_fee) (fun full =>
  if num_ltb (num_of_Z 0) discount then multiplyBips full (kept_bips discount) else Ok full).

Definition createOffer (walletId : string) (userPayment : MoneyAmount) (bankAccountId accountId : string) :
    CApp PersistedOffer :=
  let* bankOwnerUsdWalletId := getBankOwnerIbexAccount in
  let* wl := or_invalid (csvc (wallets_findById walletId)) in
  if negb (bool_decide (wl_accountId wl = accountId)) then
    pfail (new_error ValidationError "Wallet does not belong to account")
  else
    let* account := or_invalid (csvc (accounts_findById (wl_accountId wl))) in
    let* party := erpParty account in
    match party with
    | None => pfail (new_error JsError "Could not find erpParty for account")
    | Some party =>
        let* selection := csvc (resolveCashoutWalletSelection (a_id account) walletId bankOwnerUsdWalletId) in
        let* paymentAmount :=
          match cs_route selection with
          | route_usdt =>
              let* cents := computed (asSmallest userPayment 0) in Done (USDT_usdCents cents)
          | route_legacy_usd => pret userPayment
          end in
        let* bolt11 := csvc (addInvoice (cs_flashWalletId selection) (Some paymentAmount)
                               "User withdraw to bank" (Some cashout_duration)) in
        match bolt11 with
        | None => pfail (new_error UnexpectedIbexResponse "Bolt11 field not found.")
        | Some bolt11 =>
            let* invoice := Done (decodeInvoice bolt11) in
            let* discount := bridge (top (getFlashFeeDiscountPercent (a_username account) CashoutFlow)) in
            let* serviceFee := computed (service_fee userPayment discount) in
            let* usdPayout := computed (amount_subtract userPayment serviceFee) in
            let* bankAccounts := getBankAccountsByCustomer party in
            match find_bank bankAccountId bankAccounts with
            | None => pfail (new_error ValidationError ("Bank account not found: " +:+ bankAccountId))
            | Some b =>
                let* payout :=
                  if String.eqb (ba_currency b) "JMD" then
                    let* rate := getCashoutExchangeRate in
                    let* amount := computed (convertAtRate usdPayout rate) in
                    pret (amount, Some rate)
                  else pret (usdPayout, None) in
                let* validated := ValidOffer_from (mkDetails (cs_userWalletId selection)
                  (cs_flashWalletId selection) invoice paymentAmount bankAccountId payout.1 serviceFee payout.2) in
                Storage_add validated
            end
        end
    end.

(** Both wallets are on the account of the caller. *)
Definition executeCashout (id walletId accountId : string) : CApp InitiatedCashout :=
  let* offer := Storage_get id in
  let* providedWallet := or_invalid (csvc (wallets_findById walletId)) in
  if negb (bool_decide (wl_accountId providedWallet = accountId)) then
    pfail (new_error ValidationError "Wallet does not belong to account")
  else
    let* settlementWallet := or_invalid (csvc (wallets_findById (cd_userAcct (po_details offer)))) in
    if negb (bool_decide (wl_accountId providedWallet = wl_accountId settlementWallet)) then
      pfail (new_error ValidationError "Offer is not good for provided wallet.")
    else
      let* _ := computed (bound_text (cd_amount (po_details offer))) in
      bridge (ops_event "initiated") ;;;
      let* validOffer := pattempt (ValidOffer_from (po_details offer)) in
      match validOffer with
      | inl e => bridge (ops_event "failed") ;;; pfail e
      | inr validOffer =>
          let* executed := ValidOffer_execute validOffer in
          cpoke (log_email (ic_cashoutId executed)) ;;;
          (if ic_erpSubmitted executed then bridge (ops_event "succeeded") else pret tt) ;;;
          pret executed
      end.
End Cashouts.

(** ** Every submission is paid for *)

(** Requests of users, as processes. *)
Inductive cashout_request :=
| OfferRequest (walletId : string) (userPayment : MoneyAmount) (bankAccountId accountId : string)
| ExecuteRequest (offerId walletId accountId : string).

Section Backing.
Context `{X : CashoutExternal}.

Definition answer (r : cashout_request) : CApp unit :=
  match r with
  | OfferRequest walletId userPayment bankAccountId accountId =>
      createOffer walletId userPayment bankAccountId accountId ;;; pret tt
  | ExecuteRequest offerId walletId accountId => executeCashout offerId walletId accountId ;;; pret tt
  end.

(** A draft [id] of a payment from [sender], and a payment made for it that IBEX
    did not report as failed. *)
Definition drafted (id sender : string) (log : list cashout_event) : Prop :=
  exists body, Drafted body (Ok id) ∈ log /\ dr_wallet_id body = sender.
Definition paid_for (id : string) (log : list cashout_event) : Prop :=
  exists sender invoice status, drafted id sender log /\ Paid id sender invoice status ∈ log /\
    status <> PaymentFailure.

(** Before each submission its draft was made and paid for. *)
Definition backed (log : list cashout_event) : Prop :=
  forall before id a after, log = before ++ Submitted id a :: after -> paid_for id before.

(** What a request knows. *)
Inductive progress := Starting | HasDraft (id sender : string) | HasPaid (id : string).

Definition knows (g : progress) (log : list cashout_event) : Prop :=
  match g with
  | Starting => True
  | HasDraft id sender => drafted id sender log
  | HasPaid id => paid_for id log
  end.

Definition backing (w : cworld) (ss : list progress) : Prop :=
  backed (cw_log w) /\ forall i g, ss !! i = Some g -> knows g (cw_log w).

Lemma drafted_app id s l e : drafted id s l -> drafted id s (l ++ [e]).
Proof. intros (b & Hb & Hs). exists b. split; [set_solver|done]. Qed.

Lemma knows_app g l e : knows g l -> knows g (l ++ [e]).
Proof.
  destruct g as [|id s|id]; cbn; [done|apply drafted_app|].
  intros (s & inv & st & Hd & Hp & Hf). exists s, inv, st. split; [by apply drafted_app|].
  split; [set_solver|done].
Qed.

Lemma backed_app l e : backed l -> (forall id a, e = Submitted id a -> paid_for id l) -> backed (l ++ [e]).
Proof.
  intros Hl He before id a after E. destruct (decide (after = [])) as [->|Hne].
  - apply app_inj_tail in E as [-> ->]. by eapply He.
  - destruct (exists_last Hne) as (after' & x & ->). rewrite app_comm_cons, app_assoc in E.
    apply app_inj_tail in E as [-> _]. by eapply Hl.
Qed.

(** An event is recorded, and one request learns of it. *)
Lemma backing_log w ss i g g' b e :
  backing w ss -> ss !! i = Some g ->
  (knows g (cw_log w) -> (forall id a, e = Submitted id a -> paid_for id (cw_log w)) /\
     knows g' (cw_log w ++ [e])) ->
  backing (log_call e (set_cbridge b w)) (<[i := g']> ss).
Proof.
  intros [Hb Hk] Hi Hg. destruct (Hg (Hk _ _ Hi)) as [Hs Hn]. split; [by apply backed_app|].
  intros j gj Hj. cbn [cw_log log_call set_cbridge]. destruct (decide (i = j)) as [<-|Hne].
  - rewrite list_lookup_insert_eq in Hj by (by eapply lookup_lt_Some). by injection Hj as <-.
  - rewrite list_lookup_insert_ne in Hj by done. apply knows_app. by eapply Hk.
Qed.

Lemma set_cbridge_same w : set_cbridge (cw_bridge w) w = w.
Proof. by destruct w. Qed.

(** Calls that record nothing. *)
#[local] Abbreviation unrecorded c := (quietly backing c).

Lemma unrecorded_atomic {A} (c : M cworld error A) :
  (forall w, cw_log (c w).2 = cw_log w) -> unrecorded (atomic c).
Proof. intros Hc. apply keeps_atomic. intros w ss. unfold backing. by rewrite Hc. Qed.

Lemma unrecorded_bridge {A} (c : BApp A) : unrecorded (bridge c).
Proof. by apply quietly_focus. Qed.

Lemma unrecorded_cread {A} (f : cworld -> A) : unrecorded (cread f).
Proof. by apply unrecorded_atomic. Qed.

Lemma unrecorded_cpoke f : (forall w, cw_log (f w) = cw_log w) -> unrecorded (cpoke f).
Proof. intros Hf. by apply unrecorded_atomic. Qed.

Lemma unrecorded_offers {A} (op : Z -> gmap string (offer_json * Z) -> A * gmap string (offer_json * Z)) :
  unrecorded (offers op).
Proof.
  apply unrecorded_atomic. intros w. cbv beta zeta. set (n := t_redis_ops (b_top (cw_bridge w))).
  destruct (op (redis_time n) (cw_offers w)) as [a m]. by destruct (redis_fault n) as [[]|].
Qed.

Local Hint Resolve unrecorded_bridge unrecorded_cread unrecorded_offers : quiet_calls.
Local Hint Extern 1 (quietly _ (cpoke _)) => by apply unrecorded_cpoke : quiet_calls.
Local Hint Extern 1 (quietly _ (csvc _)) => apply unrecorded_bridge : quiet_calls.
Local Hint Extern 1 (quietly _ (erpParty _)) => apply unrecorded_cread : quiet_calls.
Local Hint Extern 1 (quietly _ (configured _)) => unfold configured; destruct erp_configured; apply quietly_done : quiet_calls.
Local Hint Extern 1 (quietly _ step_failed) => apply unrecorded_bridge : quiet_calls.
Local Hint Extern 1 (quietly _ (computed _)) => apply quietly_done : quiet_calls.

Lemma unrecorded_or_invalid {A} (c : CApp A) : unrecorded c -> unrecorded (or_invalid c).
Proof. intros Hc. unfold or_invalid. auto with quiet_calls. Qed.

Lemma unrecorded_banks party : unrecorded (getBankAccountsByCustomer party).
Proof. unfold getBankAccountsByCustomer. auto with quiet_calls. Qed.

Lemma unrecorded_rate : unrecorded getCashoutExchangeRate.
Proof. unfold getCashoutExchangeRate. auto 10 with quiet_calls. Qed.

Local Hint Resolve unrecorded_or_invalid unrecorded_banks unrecorded_rate : quiet_calls.

Lemma unrecorded_checks c o : c ∈ cashout_checks -> unrecorded (c o).
Proof.
  unfold cashout_checks. rewrite !elem_of_cons, elem_of_nil. intros Hc.
  destruct_or!; try done; subst c.
  - unfold isSupportedCashoutWallet. cbv beta zeta. auto 10 with quiet_calls.
  - unfold cashoutMin. cbv beta zeta. auto 10 with quiet_calls.
  - unfold cashoutMax. cbv beta zeta. auto 10 with quiet_calls.
  - unfold isActiveAccount. cbv beta zeta. auto 10 with quiet_calls.
  - unfold accountLevel. cbv beta zeta. auto 10 with quiet_calls.
  - unfold walletBelongsToAccount. cbv beta zeta. auto 10 with quiet_calls.
  - unfold hasSufficientBalance. cbv beta zeta. auto 10 with quiet_calls.
  - unfold isBeforeExpiry. cbv beta zeta. auto 10 with quiet_calls.
  - unfold hasErpParty. cbv beta zeta. auto 10 with quiet_calls.
  - unfold verifyBankAccount. cbv beta zeta. auto 10 with quiet_calls.
Qed.

Lemma unrecorded_validator checks o :
  (forall c, c ∈ checks -> unrecorded (c o)) -> unrecorded (validator checks o).
Proof.
  intros Hc. induction checks as [|c l IH]; [apply quietly_done|]. cbn [validator].
  apply quietly_bind; [apply Hc; left|]. intros r. apply quietly_bind; [|intros; apply quietly_done].
  apply IH. intros c' Hc'. apply Hc. by right.
Qed.

Lemma unrecorded_from d : unrecorded (ValidOffer_from d).
Proof.
  unfold ValidOffer_from. apply quietly_bind; [auto with quiet_calls|]. intros wl.
  apply quietly_bind; [auto with quiet_calls|]. intros a. apply quietly_bind.
  - apply unrecorded_validator. intros c. apply unrecorded_checks.
  - auto with quiet_calls.
Qed.

Lemma unrecorded_add o : unrecorded (Storage_add o).
Proof. unfold Storage_add, cache_failed. auto 10 with quiet_calls. Qed.

Lemma unrecorded_get id : unrecorded (Storage_get id).
Proof. unfold Storage_get, cache_failed. auto 10 with quiet_calls. Qed.

Lemma unrecorded_owner : unrecorded getBankOwnerIbexAccount.
Proof. unfold getBankOwnerIbexAccount. auto 10 with quiet_calls. Qed.

Local Hint Resolve unrecorded_from unrecorded_add unrecorded_get unrecorded_owner : quiet_calls.

Lemma unrecorded_create walletId p bank a : unrecorded (createOffer walletId p bank a).
Proof. unfold createOffer. auto 40 with quiet_calls. Qed.

(** ** What an execution records *)

Definition any (_ : progress) (_ : outcome error InitiatedCashout) : Prop := True.

Lemma draft_safe i o :
  safe backing (fun g r => match r with Ok id => g = HasDraft id (cd_userAcct (vo_details o)) | _ => True end)
    i (draftCashout o) Starting.
Proof.
  unfold draftCashout. eapply safe_quietly; [auto with quiet_calls| |done..]. intros _.
  eapply safe_quietly; [auto with quiet_calls| |done..]. intros [party|]; [|done].
  apply safe_catch with (Q := fun g r =>
    match r with Ok id => g = HasDraft id (cd_userAcct (vo_details o)) | _ => True end);
    [|by intros g [id|e|e] Hg; [exact Hg|..]].
  unfold computed. destruct (draft_body party (vo_details o)) as [body|e|e] eqn:Hbody; cbn [thrown pbind]; [|done..].
  eapply safe_bind with (Q := fun g r => match r with
    | Ok (Ok id) => g = HasDraft id (cd_userAcct (vo_details o)) | Ok _ => True | _ => False end).
  - apply safe_atomic. intros w ss Hw Hi. cbn [fst snd].
    destruct (erp_draft (cw_calls w) body) as [id|e|e] eqn:Ha; cbn.
    + exists (HasDraft id (cd_userAcct (vo_details o))). split; [|done].
      rewrite <- (set_cbridge_same w) at 1. eapply backing_log; [done..|]. intros _. split; [done|].
      exists body. split; [set_solver|]. unfold draft_body in Hbody.
      repeat (apply bindo_Ok in Hbody as (? & _ & Hbody)). by injection Hbody as <-.
    + exists Starting. split; [|done]. rewrite <- (set_cbridge_same w) at 1. by eapply backing_log.
    + exists Starting. split; [|done]. rewrite <- (set_cbridge_same w) at 1. by eapply backing_log.
  - intros g [[id|e|e]|e|e] Hg; done.
Qed.

Lemma pay_safe i id d : cashout_skipPayment = false ->
  safe backing (fun g r => match r with Ok _ => g = HasPaid id | _ => True end)
    i (pay_cashout id d) (HasDraft id (cd_userAcct d)).
Proof.
  intros Hskip. unfold pay_cashout. rewrite Hskip.
  eapply safe_bind with (Q := fun g r => match r with
    | Ok (inr resp) => paymentSendStatusOrPending resp <> PaymentFailure -> g = HasPaid id
    | _ => True end).
  - apply safe_attempt, safe_atomic. intros w ss Hw Hi. cbv beta zeta.
    destruct (payInvoice (cd_userAcct d) (inv_paymentRequest (cd_invoice d)) None
      (t_base (b_top (cw_bridge w)))) as [[resp|e|e] base']; cbn [fst snd].
    + destruct (decide (paymentSendStatusOrPending resp = PaymentFailure)) as [E|E].
      * exists (HasDraft id (cd_userAcct d)). split; [|done]. eapply backing_log; [done..|].
        intros Hk. split; [done|]. by apply drafted_app.
      * exists (HasPaid id). split; [|done]. eapply backing_log; [done..|]. intros Hk. split; [done|].
        exists (cd_userAcct d), (inv_paymentRequest (cd_invoice d)), (paymentSendStatusOrPending resp).
        split; [by apply drafted_app|]. split; [set_solver|done].
    + exists (HasDraft id (cd_userAcct d)). by rewrite list_insert_id.
    + exists (HasDraft id (cd_userAcct d)). by rewrite list_insert_id.
  - intros g [[e|resp]|e|e] Hg; try done.
    + by eapply safe_quietly; [auto with quiet_calls|..].
    + case_bool_decide as E; [by eapply safe_quietly; [auto with quiet_calls|..]|]. cbn. by apply Hg.
Qed.

Lemma submit_safe i id :
  safe backing (fun g r => g = HasPaid id) i (submitCashout id) (HasPaid id).
Proof.
  unfold submitCashout. eapply safe_quietly; [auto with quiet_calls| |done..]. intros _.
  eapply safe_bind with (Q := fun g r => g = HasPaid id).
  - apply safe_atomic. intros w ss Hw Hi. exists (HasPaid id). split; [|done]. cbn.
    rewrite <- (set_cbridge_same w) at 1. eapply backing_log; [done..|]. intros Hk. split.
    + by intros id' a [= -> _].
    + by apply (knows_app (HasPaid id)).
  - by intros g [] ->.
Qed.

Lemma execute_safe i o : cashout_skipPayment = false -> safe backing any i (ValidOffer_execute o) Starting.
Proof.
  intros Hskip. unfold ValidOffer_execute. eapply safe_bind with (Q := fun g r =>
    match r with Ok (inr id) => g = HasDraft id (cd_userAcct (vo_details o)) | _ => True end).
  { apply safe_attempt. eapply safe_mono; [|apply draft_safe]. by intros g []. }
  intros g [[e|id]|e|e] Hg; try done; [by eapply safe_quietly; [auto with quiet_calls|..]|]. cbn in Hg. subst g.
  eapply safe_bind; [by apply pay_safe|]. intros g [[]|e|e] Hg; try done. subst g.
  eapply safe_bind with (Q := fun g _ => True); [|by intros g [] _].
  unfold submit_retrying. eapply safe_bind; [apply submit_safe|]. intros g [[e|]|e|e] ->; try done.
  eapply safe_bind; [apply submit_safe|]. intros g [[e'|]|e'|e'] ->; try done.
  by eapply safe_quietly; [auto with quiet_calls|..].
Qed.

Lemma executeCashout_safe i id walletId accountId : cashout_skipPayment = false ->
  safe backing any i (executeCashout id walletId accountId) Starting.
Proof.
  intros Hskip. unfold executeCashout.
  eapply safe_quietly; [auto with quiet_calls| |done..]. intros offer.
  eapply safe_quietly; [auto with quiet_calls| |done..]. intros wl. case_match; [done|].
  eapply safe_quietly; [auto with quiet_calls| |done..]. intros wl'. case_match; [done|].
  eapply safe_quietly; [auto with quiet_calls| |done..]. intros _.
  eapply safe_quietly; [auto with quiet_calls| |done..]. intros _.
  eapply safe_quietly; [auto with quiet_calls| |done..]. intros [e|vo].
  { by eapply safe_quietly; [auto with quiet_calls|..]. }
  eapply safe_bind; [by apply execute_safe|]. intros g [ic|e|e] _; try done.
  eapply safe_quietly; [auto with quiet_calls| |done..]. intros _.
  eapply safe_quietly; [auto with quiet_calls| |done..]. done.
Qed.

Lemma answer_safe i r : cashout_skipPayment = false ->
  safe backing (fun _ _ => True) i (answer r) Starting.
Proof.
  intros Hskip. destruct r as [walletId p bank a|id walletId a]; cbn [answer].
  - eapply safe_quietly; [apply unrecorded_create|done..].
  - eapply safe_bind; [by apply executeCashout_safe|]. by intros g [] _.
Qed.
End Backing.

(** C14: whatever offers are asked for and executed, at the same time and in any
    interleaving, and however the database, Redis, IBEX and ERPNext answer, a
    cashout is submitted to ERPNext only after it was drafted and IBEX
    answered the payment made for it, from the wallet of the draft, with
    something else than a failure. This is for a configuration that does not skip
    payments ([cashout_skipPayment], read at [ValidOffer.execute]; the development
    configuration does skip them, and then nothing is paid). *)
Theorem cashouts_backed `{X : CashoutExternal} (requests : list cashout_request) (sched : list nat) (w : cworld) :
  cashout_skipPayment = false -> backed (cw_log w) ->
  backed (cw_log (exec sched (answer <$> requests) w).2).
Proof.
  intros Hskip Hb.
  assert (pool_safe backing (fun _ (_ : outcome error unit) => True) (answer <$> requests) w) as Hsafe.
  { exists (replicate (length requests) Starting). split; [|split; [by rewrite length_replicate, length_fmap|]].
    - split; [done|]. intros i g [-> _]%lookup_replicate. done.
    - intros i p g Hp [-> _]%lookup_replicate. apply list_lookup_fmap_Some in Hp as (r & -> & _).
      by apply answer_safe. }
  apply (exec_safe _ _ sched) in Hsafe as (ss & [H' _] & _). done.
Qed.
