(* ===== verification/CashoutOffers.v ===== *)
(** * What a cashout promises

    Proofs about [Cashouts]: an offer that is executed passed every check of
    [src/src/app/offers/Validator.ts], and the amounts of an offer add up
    ([CashoutManager.createOffer]); an offer that is kept in the cache reads back
    as it was ([src/src/app/offers/storage/Redis.ts]). *)

From stdpp Require Import base gmap list strings.
From Stdlib Require Import ZArith Lia QArith Lqa.
From S2P Require Import Prelude JsStrings JsNumbers JsDecimals Processes Errors World Ibex Repos.
From S2P Require Import BigintMoney MoneyAmounts CutoverRepo FygaroGate FygaroCheckout TopupWorld PaymentIdempotency.
From S2P Require Import FygaroAuthorize Json BridgeWorld IbexCrypto CutoverRouting Cashouts.

Close Scope Q_scope.
Open Scope Z_scope.
Open Scope flash_scope.

(** ** Calls that change neither wallets nor accounts *)

Definition same_homes `{X : External} (w w' : world) : Prop :=
  w_wallets w' = w_wallets w /\ w_accounts w' = w_accounts w.

#[export] Instance same_homes_preorder `{X : External} : PreOrder same_homes.
Proof. split; [done|]. intros w1 w2 w3 [? ?] [? ?]. split; congruence. Qed.

Section Homes.
Context `{X : External}.

Lemma homes_read {A} (f : world -> A) : guarantees same_homes (mongo (read f)).
Proof. intros w. unfold mongo. by destruct (mongo_fault (w_ops w)) as [[]|]. Qed.

Lemma homes_sdk {A} (f : ibex_state -> sdk_result A * ibex_state) : guarantees same_homes (sdk f).
Proof. intros w. unfold sdk. by destruct (f (w_ibex w)) as [[] s]. Qed.

Lemma homes_guarded {A} (c : App A) : guarantees same_homes c -> guarantees same_homes (guarded c).
Proof. intros. unfold guarded. eauto with flash typeclass_instances. Qed.

Lemma homes_toObjectId id : guarantees same_homes (toObjectId id).
Proof. unfold toObjectId. eauto with flash typeclass_instances. Qed.

Lemma homes_toIbex_opt a : guarantees same_homes (toIbex_opt a).
Proof. intros w. unfold toIbex_opt. destruct a as [a|]; [|done]. by destruct (toIbex a). Qed.
End Homes.

Ltac homes_tac :=
  repeat first
    [ match goal with |- forall _, _ => intros ? end
    | apply homes_guarded | apply homes_toObjectId | apply homes_read | apply homes_sdk
    | apply homes_toIbex_opt
    | (apply guarantees_ret; exact _) | (apply guarantees_fail; exact _)
    | (apply guarantees_lift; exact _)
    | (apply guarantees_bind; [exact _| |])
    | (progress case_match) ].

Section HomeCalls.
Context `{X : External}.

Lemma homes_wallets_findById i : guarantees same_homes (wallets_findById i).
Proof. unfold wallets_findById. homes_tac. Qed.
Lemma homes_accounts_findById i : guarantees same_homes (accounts_findById i).
Proof. unfold accounts_findById. homes_tac. Qed.
Lemma homes_listByAccountId i : guarantees same_homes (listByAccountId i).
Proof. unfold listByAccountId. homes_tac. Qed.
Lemma homes_new_Date : guarantees same_homes new_Date.
Proof. by intros w. Qed.
Lemma homes_randomUUID : guarantees same_homes randomUUID.
Proof. by intros w. Qed.
Lemma homes_getAccountDetails i c : guarantees same_homes (getAccountDetails i c).
Proof. unfold getAccountDetails. homes_tac. Qed.
Lemma homes_addInvoice a b c d : guarantees same_homes (addInvoice a b c d).
Proof. unfold addInvoice. homes_tac. Qed.
Lemma homes_payInvoice a b c : guarantees same_homes (payInvoice a b c).
Proof. unfold payInvoice. homes_tac. Qed.
Lemma homes_getConfig : guarantees same_homes getConfig.
Proof. unfold getConfig. homes_tac. Qed.
Lemma homes_guard_migration a c : guarantees same_homes (guard_migration a c).
Proof. unfold guard_migration, findMigrationByAccountId. homes_tac. Qed.
Lemma homes_selection a b c : guarantees same_homes (resolveCashoutWalletSelection a b c).
Proof.
  unfold resolveCashoutWalletSelection. pose proof homes_getConfig. pose proof homes_guard_migration.
  pose proof homes_listByAccountId. pose proof homes_wallets_findById.
  repeat first [match goal with H : _ |- _ => solve [apply H] end | progress homes_tac].
Qed.
End HomeCalls.

#[export] Hint Resolve homes_wallets_findById homes_accounts_findById homes_new_Date homes_randomUUID
  homes_getAccountDetails homes_addInvoice homes_payInvoice homes_selection : flash.

(** ** What a process answers *)

Lemma always_bind {W E A B S} (Inv : W -> list S -> Prop) (phi : outcome E A -> Prop)
    (psi : outcome E B -> Prop) (c : proc W E A) k :
  keeps Inv phi c -> (forall e, psi (Err e)) -> (forall e, psi (Throw e)) ->
  (forall a, phi (Ok a) -> keeps Inv psi (k a)) -> keeps Inv psi (pbind c k).
Proof. intros Hc He Ht Hk. eapply keeps_bind; [exact Hc|]. intros [a|e|e] Ho; auto. Qed.

Lemma always_after {W E A B S} (Inv : W -> list S -> Prop) (psi : outcome E B -> Prop) (c : proc W E A) k :
  quietly Inv c -> (forall e, psi (Err e)) -> (forall e, psi (Throw e)) ->
  (forall a, keeps Inv psi (k a)) -> keeps Inv psi (pbind c k).
Proof. intros. by eapply always_bind. Qed.

(** ** Processes that leave wallets, accounts and discounts alone *)

Section Steady.
Context `{X : CashoutExternal}.

(** The world of the repositories. *)
Definition at_home (w : cworld) : world := t_base (b_top (cw_bridge w)).

Definition steady (w w' : cworld) : Prop :=
  same_homes (at_home w) (at_home w') /\
  t_discounts (b_top (cw_bridge w')) = t_discounts (b_top (cw_bridge w)).

Context {S : Type}.
Variable Inv : cworld -> list S -> Prop.
Hypothesis Inv_frame : forall w w' ss, steady w w' -> Inv w ss -> Inv w' ss.

#[local] Abbreviation always phi c := (keeps Inv phi c).

Lemma always_atomic {A} (c : M cworld error A) : (forall w, steady w (c w).2) ->
  always (fun r => exists w ss, Inv w ss /\ r = (c w).1) (atomic c).
Proof. intros Hc. apply keeps_atomic. intros w ss HI. split; [by eapply Inv_frame|eauto]. Qed.

Lemma quiet_csvc {A} (c : App A) : guarantees same_homes c -> quietly Inv (csvc c).
Proof.
  intros Hc i s w ss HI Hs. exists s. rewrite list_insert_id by done. split; [|done].
  apply (Inv_frame w); [|done]. cbn. unfold steady, at_home. cbn.
  specialize (Hc (t_base (b_top (cw_bridge w)))). by destruct (c _).
Qed.

Lemma quiet_cread {A} (f : cworld -> A) : quietly Inv (cread f).
Proof. eapply quietly_keeps. by apply always_atomic. Qed.

Lemma quiet_cpoke f : (forall w, steady w (f w)) -> quietly Inv (cpoke f).
Proof. intros Hf. eapply quietly_keeps. by apply always_atomic. Qed.

Lemma quiet_event phase : quietly Inv (bridge (ops_event phase)).
Proof.
  intros i s w ss HI Hs. exists s. rewrite list_insert_id by done. split; [|done].
  by apply (Inv_frame w).
Qed.

Lemma quiet_offers {A} (op : Z -> gmap string (offer_json * Z) -> A * gmap string (offer_json * Z)) :
  quietly Inv (offers op).
Proof.
  eapply quietly_keeps. apply always_atomic. intros w. cbv beta zeta.
  set (n := t_redis_ops (b_top (cw_bridge w))).
  destruct (op (redis_time n) (cw_offers w)) as [a m]. by destruct (redis_fault n) as [[]|].
Qed.

Lemma quiet_configured method : quietly Inv (configured method).
Proof. unfold configured. destruct erp_configured; apply quietly_done. Qed.

Lemma quiet_erp {A} (f : nat -> A) : quietly Inv (bridge (top (erp_query f))).
Proof.
  intros i s w ss HI Hs. exists s. rewrite list_insert_id by done. split; [|done].
  apply (Inv_frame w); [|done]. cbn. unfold steady, at_home. cbn. by destruct (erp_fault _) as [[]|].
Qed.

Lemma quiet_balance i c : quietly Inv (bridge (getBalanceForWallet i c)).
Proof.
  intros j s w ss HI Hs. exists s. rewrite list_insert_id by done. split.
  - apply (Inv_frame w); [|done]. unfold steady, at_home. cbn.
    pose proof (homes_getAccountDetails i c (t_base (b_top (cw_bridge w)))) as Hh.
    by destruct (getAccountDetails i c _).
  - cbn. destruct (getAccountDetails i c _) as [[[b|]|e|e] w']; cbn; try done. by case_bool_decide.
Qed.

Local Hint Resolve quiet_configured quiet_erp quiet_balance quiet_cread : quiet_calls.
Local Hint Extern 1 (quietly _ (computed _)) => apply quietly_done : quiet_calls.
Local Hint Extern 1 (quietly _ (erpParty _)) => apply quiet_cread : quiet_calls.
Local Hint Extern 1 (quietly _ (csvc _)) => by apply quiet_csvc; eauto with flash : quiet_calls.

Lemma quiet_banks party : quietly Inv (getBankAccountsByCustomer party).
Proof. unfold getBankAccountsByCustomer. auto 10 with quiet_calls. Qed.

Lemma quiet_find {A} (c : App A) : guarantees same_homes c -> quietly Inv (or_invalid (csvc c)).
Proof. intros Hc. unfold or_invalid. pose proof (quiet_csvc c Hc). auto with quiet_calls. Qed.

Local Hint Resolve quiet_banks : quiet_calls.

(** The checks only read. *)
Lemma quiet_validator checks o :
  Forall (fun c : check => quietly Inv (c o)) checks -> quietly Inv (validator checks o).
Proof. induction 1; cbn [validator]; auto with quiet_calls. Qed.

Lemma quiet_valid o : quietly Inv (CashoutValidator o).
Proof.
  apply quiet_validator. unfold cashout_checks, isSupportedCashoutWallet, cashoutMin, cashoutMax,
    isActiveAccount, accountLevel, walletBelongsToAccount, hasSufficientBalance, isBeforeExpiry,
    hasErpParty, verifyBankAccount.
  repeat (constructor; [solve [auto 10 with quiet_calls]|]). constructor.
Qed.

Lemma always_from d :
  keeps Inv (fun r => match r with Ok o => vo_details o = d | _ => True end) (ValidOffer_from d).
Proof.
  unfold ValidOffer_from. eapply always_after; [apply quiet_find; eauto with flash|done..|]. intros wl.
  eapply always_after; [apply quiet_find; eauto with flash|done..|]. intros acc.
  eapply always_after; [apply quiet_valid|done..|]. intros [|e errs]; by apply keeps_done.
Qed.
End Steady.

(** ** The checks *)

(** The value of a cent in the smallest unit of the amount's currency. *)
Definition cent_value (a : MoneyAmount) : Z :=
  if is_usdt a then USDT_MICROS_PER_USD_CENT * PRECISION_M else PRECISION_M.

Lemma bound_amount_value cents usdt b : bound_amount cents usdt = Ok b ->
  value (money b) = cents * (if usdt then USDT_MICROS_PER_USD_CENT * PRECISION_M else PRECISION_M).
Proof.
  unfold bound_amount. destruct usdt.
  - rewrite USDT_usdCents_whole. intros [= <-]. unfold usdt_micros. cbn [money value fromSource]. lia.
  - unfold USD_cents, amount_new, Money_new. cbn. by intros [= <-].
Qed.

Lemma compare_value a b c : compare (money a) (OpMoney (money b)) = Ok c ->
  c = (if value (money b) =? value (money a) then 0
       else if value (money a) <? value (money b) then -1 else 1).
Proof. unfold compare. destruct (incompatible _ _); [done|]. cbn. by intros [= <-]. Qed.

Lemma isLesserThan_value a b r : amount_isLesserThan a b = Ok r -> r = (value (money a) <? value (money b)).
Proof.
  unfold amount_isLesserThan, isLesserThan. destruct (compare _ _) as [c|e|e] eqn:Hc; [|done..].
  apply compare_value in Hc. cbn. intros [= <-]. subst c.
  destruct (Z.eqb_spec (value (money b)) (value (money a))); [|destruct (Z.ltb_spec (value (money a)) (value (money b)))];
    cbn; lia.
Qed.

Lemma isGreaterThan_value a b r : amount_isGreaterThan a b = Ok r -> r = (value (money b) <? value (money a)).
Proof.
  unfold amount_isGreaterThan, isGreaterThan. destruct (compare _ _) as [c|e|e] eqn:Hc; [|done..].
  apply compare_value in Hc. cbn. intros [= <-]. subst c.
  destruct (Z.eqb_spec (value (money b)) (value (money a))); [|destruct (Z.ltb_spec (value (money a)) (value (money b)))];
    cbn; lia.
Qed.

Section Checks.
Context `{X : CashoutExternal}.

(** What a check finds: the wallet holds the currency of the payment, the
    payment is within the configured bounds, the account is active and of the
    configured level and owns the wallet. *)
Definition right_currency (o : ValidationInputs) : Prop :=
  (wl_currency (in_wallet o) = Usd /\ is_usdt (cd_amount (in_details o)) = false) \/
  (wl_currency (in_wallet o) = Usdt /\ is_usdt (cd_amount (in_details o)) = true).
Definition above_minimum (o : ValidationInputs) : Prop :=
  cashout_minimum * cent_value (cd_amount (in_details o)) <= value (money (cd_amount (in_details o))).
Definition below_maximum (o : ValidationInputs) : Prop :=
  value (money (cd_amount (in_details o))) <= cashout_maximum * cent_value (cd_amount (in_details o)).
Definition owner_active (o : ValidationInputs) : Prop := a_status (in_account o) = StatusActive.
Definition level_reached (o : ValidationInputs) : Prop := cashout_accountLevel <= a_level (in_account o).
Definition wallet_owned (o : ValidationInputs) : Prop := wl_accountId (in_wallet o) = a_id (in_account o).

(** [V]: the worlds in which the checks act. *)
Variable V : cworld -> Prop.

(** In one of them IBEX says that the wallet holds the payment, if there is
    anything to pay. *)
Definition funded (o : ValidationInputs) : Prop :=
  value (money (cd_amount (in_details o))) <= 0 \/
  exists u balance, V u /\
    (getAccountDetails (wl_id (in_wallet o)) (wl_currency (in_wallet o)) (at_home u)).1 = Ok (Some balance) /\
    value (money (cd_amount (in_details o))) <= value (money balance).

(** In one of them the clock says that the invoice has not expired. *)
Definition unexpired (o : ValidationInputs) : Prop :=
  exists u, V u /\ clock (w_reads (at_home u)) <= inv_expiresAt (cd_invoice (in_details o)).

(** In one of them the account has a party in ERPNext, and in one ERPNext lists the
    bank account for that party, in the currency of the payout. *)
Definition bank_known (o : ValidationInputs) : Prop :=
  exists u u' party banks b, V u /\ V u' /\
    nonempty_opt (cw_parties u !! a_id (in_account o)) = Some party /\
    erp_bank_accounts (t_erp_ops (b_top (cw_bridge u'))) party = Some banks /\ b ∈ banks /\
    ba_name b = Some (cd_bankAccountId (in_details o)) /\ ba_currency b = payout_currency (in_details o).

Definition passed (o : ValidationInputs) : list Prop :=
  [right_currency o; above_minimum o; below_maximum o; owner_active o; level_reached o; wallet_owned o;
   funded o; unexpired o; True; bank_known o].

(** The calls answer as they do in one of the worlds. *)
Lemma yields_csvc {A} (phi : outcome error A -> Prop) (c : App A) :
  (forall u, V u -> phi (c (at_home u)).1) -> yields V phi (csvc c).
Proof. intros Hc w Hw. cbn. specialize (Hc w Hw). unfold at_home in Hc. by destruct (c _). Qed.

Lemma yields_erp {A} (f : nat -> A) :
  yields V (fun r => match r with
    | Ok a => exists u, V u /\ a = f (t_erp_ops (b_top (cw_bridge u))) | _ => True end)
    (bridge (top (erp_query f))).
Proof. intros w Hw. cbn. destruct (erp_fault _) as [[]|]; cbn; eauto. Qed.

#[local] Abbreviation finds P c := (yields (E := error) V (fun r => match r with Ok None => P | _ => True end) c).

Lemma finds_pure P (r : option error) : (r = None -> P) -> finds P (pret r).
Proof. intros Hr. cbn. destruct r; auto. Qed.

Lemma finds_currency o : finds (right_currency o) (isSupportedCashoutWallet o).
Proof.
  apply finds_pure. unfold right_currency. destruct (wl_currency (in_wallet o)); try done;
    destruct (is_usdt _); auto; done.
Qed.

Lemma finds_min o : finds (above_minimum o) (cashoutMin o).
Proof.
  unfold cashoutMin. destruct (bound_amount _ _) as [m|e|e] eqn:Hm; [|by apply finds_pure..].
  apply bound_amount_value in Hm. unfold computed.
  destruct (amount_isLesserThan _ _) as [b|e|e] eqn:Hb; cbn [thrown pbind]; [|done..].
  apply isLesserThan_value in Hb. destruct b.
  - by destruct (bound_text m).
  - apply finds_pure. intros _. unfold above_minimum, cent_value. lia.
Qed.

Lemma finds_max o : finds (below_maximum o) (cashoutMax o).
Proof.
  unfold cashoutMax. destruct (bound_amount _ _) as [m|e|e] eqn:Hm; [|by apply finds_pure..].
  apply bound_amount_value in Hm. unfold computed.
  destruct (amount_isGreaterThan _ _) as [b|e|e] eqn:Hb; cbn [thrown pbind]; [|done..].
  apply isGreaterThan_value in Hb. destruct b.
  - by destruct (bound_text m).
  - apply finds_pure. intros _. unfold below_maximum, cent_value. lia.
Qed.

Lemma finds_active o : finds (owner_active o) (isActiveAccount o).
Proof. apply finds_pure. unfold isActive. by case_bool_decide. Qed.

Lemma finds_level o : finds (level_reached o) (accountLevel o).
Proof. apply finds_pure. unfold level_reached. case_match; [intros _; lia|done]. Qed.

Lemma finds_owner o : finds (wallet_owned o) (walletBelongsToAccount o).
Proof. apply finds_pure. by case_bool_decide. Qed.

(** The balance read is what IBEX says, or zero. *)
Lemma yields_balance i c :
  yields V (fun r => match r with
    | Ok b => value (money b) = 0 \/ exists u, V u /\ (getAccountDetails i c (at_home u)).1 = Ok (Some b)
    | _ => True end) (bridge (getBalanceForWallet i c)).
Proof.
  intros w Hw. cbn. destruct (getAccountDetails i c _) as [[[b|]|e|e] w'] eqn:E; cbn; try done.
  - right. exists w. unfold at_home. by rewrite E.
  - by left.
  - case_bool_decide; cbn; [|done]. by left.
Qed.

Lemma finds_balance o : finds (funded o) (hasSufficientBalance o).
Proof.
  unfold hasSufficientBalance. cbv zeta. set (a := cd_amount (in_details o)).
  apply yields_bind with (phi := fun r => match r with
    | Ok (inr b) => value (money b) = 0 \/ exists u, V u /\
        (getAccountDetails (wl_id (in_wallet o)) (wl_currency (in_wallet o)) (at_home u)).1 = Ok (Some b)
    | _ => True end); [|done..|].
  { eapply yields_attempt; [apply yields_balance|]. by intros [b|e|e] Hb. }
  intros [e|b] Hb; [by apply finds_pure|]. destruct (negb _); [by apply finds_pure|]. unfold computed.
  destruct (amount_isGreaterThan a b) as [more|e|e] eqn:Hm; cbn [thrown pbind]; [|done..].
  apply isGreaterThan_value in Hm. destruct more; [by apply finds_pure|]. apply finds_pure. intros _.
  unfold funded. fold a. destruct Hb as [Hb|(u & Hu & Hb)]; [left; lia|]. right. exists u, b.
  split_and!; [done..|lia].
Qed.

Lemma finds_expiry o : finds (unexpired o) (isBeforeExpiry o).
Proof.
  unfold isBeforeExpiry. apply yields_bind with (phi := fun r => match r with
    | Ok t => exists u, V u /\ t = clock (w_reads (at_home u)) | _ => True end); [|done..|].
  { apply yields_csvc. intros u Hu. cbn. eauto. }
  intros now (u & Hu & ->). apply finds_pure. unfold unexpired.
  destruct (_ <? _) eqn:Hlt; [done|]. intros _. exists u. split; [done|]. by apply Z.ltb_ge.
Qed.

Lemma yields_banks party :
  yields V (fun r => match r with
    | Ok banks => banks = [] \/
        exists u, V u /\ erp_bank_accounts (t_erp_ops (b_top (cw_bridge u))) party = Some banks
    | _ => True end) (getBankAccountsByCustomer party).
Proof.
  unfold getBankAccountsByCustomer. apply yields_after; [done..|]. intros _.
  eapply yields_catch with (phi := fun r => match r with
    | Ok banks => banks = [] \/
        exists u, V u /\ erp_bank_accounts (t_erp_ops (b_top (cw_bridge u))) party = Some banks
    | _ => True end); [|by intros [banks|e|e] Hb].
  eapply yields_bind; [apply yields_erp|done..|]. intros data (u & Hu & ->). cbn.
  destruct (erp_bank_accounts _ party) eqn:E; cbn; eauto.
Qed.

Lemma find_bank_Some id banks b : find_bank id banks = Some b -> b ∈ banks /\ ba_name b = Some id.
Proof.
  unfold find_bank. intros ([k b'] & E & Hb)%fmap_Some. cbn in Hb. subst b'.
  apply list_find_Some in E as (E & Hn & _). split; [by eapply list_elem_of_lookup_2|done].
Qed.

Lemma finds_bank o : finds (bank_known o) (verifyBankAccount o).
Proof.
  unfold verifyBankAccount. apply yields_bind with (phi := fun r => match r with
    | Ok party => exists u, V u /\ nonempty_opt (cw_parties u !! a_id (in_account o)) = party | _ => True end);
    [|done..|].
  { apply yields_atomic. intros u Hu. cbn. eauto. }
  intros [party|] (u & Hu & Hp); [|by apply finds_pure].
  apply yields_bind with (phi := fun r => match r with
    | Ok (inr banks) => banks = [] \/
        exists u, V u /\ erp_bank_accounts (t_erp_ops (b_top (cw_bridge u))) party = Some banks
    | _ => True end); [|done..|].
  { eapply yields_attempt; [apply yields_banks|]. by intros [b|e|e] Hb. }
  intros [e|banks] Hb; apply finds_pure; [done|].
  destruct (find_bank _ _) as [b|] eqn:Hf; [|done]. apply find_bank_Some in Hf as [Hin Hname].
  destruct (String.eqb_spec (ba_currency b) (payout_currency (in_details o))); [|done]. intros _.
  destruct Hb as [->|(u' & Hu' & Hn)]; [by apply elem_of_nil in Hin|]. by exists u, u', party, banks, b.
Qed.

Lemma finds_party o : finds True (hasErpParty o).
Proof. apply yields_any. by intros [[]| |]. Qed.

(** All checks run, so no error means that all passed. *)
Lemma yields_validator checks facts o :
  Forall2 (fun (c : check) P => finds P (c o)) checks facts ->
  yields V (fun r => match r with Ok [] => Forall id facts | _ => True end) (validator checks o).
Proof.
  induction 1 as [|c P checks facts Hc _ IH]; cbn [validator]; [by constructor|].
  eapply yields_bind; [exact Hc|done..|]. intros r Hr.
  eapply yields_bind; [exact IH|done..|]. intros errs Hes. cbn.
  destruct r; [done|]. destruct errs; [|done]. by constructor.
Qed.

Lemma yields_valid o :
  yields V (fun r => match r with Ok [] => Forall id (passed o) | _ => True end) (CashoutValidator o).
Proof.
  apply yields_validator. unfold cashout_checks, passed.
  do 10 (constructor; [first [apply finds_currency | apply finds_min | apply finds_max | apply finds_active
    | apply finds_level | apply finds_owner | apply finds_balance | apply finds_expiry | apply finds_party
    | apply finds_bank]|]). constructor.
Qed.

Lemma yields_or_invalid {A} (phi : A -> Prop) (c : CApp A) :
  yields V (fun r => match r with Ok a => phi a | _ => True end) c ->
  yields V (fun r => match r with Ok a => phi a | _ => True end) (or_invalid c).
Proof.
  intros Hc. unfold or_invalid. apply yields_bind with (phi := fun r => match r with
    | Ok (inr a) => phi a | _ => True end); [|done..|].
  - eapply yields_attempt; [exact Hc|]. by intros [a|e|e] Ha.
  - by intros [e|a] Ha.
Qed.

(** A wallet that was looked up is one of the repository, with that id; an account
    is the one stored under its id. *)
Definition wallet_of (i : string) (wl : wallet) : Prop :=
  exists u k, V u /\ list_find (fun wl => wl_id wl = i) (w_wallets (at_home u)) = Some (k, wl).
Definition account_of (i : string) (a : account) : Prop :=
  exists u, V u /\ w_accounts (at_home u) !! i = Some a.

Lemma yields_wallet i :
  yields V (fun r => match r with Ok wl => wallet_of i wl | _ => True end)
    (or_invalid (csvc (wallets_findById i))).
Proof.
  apply yields_or_invalid, yields_csvc. intros u Hu.
  destruct (wallets_findById i (at_home u)) as [[wl|e|e] w'] eqn:E; [|done..].
  apply guarded_Ok in E. apply bind_Ok in E as (o & w1 & Hm%mongo_Ok & E). unfold read in Hm.
  injection Hm as Ef <-. destruct o as [[k wl']|]; [|done]. unfold ret in E. injection E as -> _. by exists u, k.
Qed.

Lemma yields_account i :
  yields V (fun r => match r with Ok a => account_of i a | _ => True end)
    (or_invalid (csvc (accounts_findById i))).
Proof.
  apply yields_or_invalid, yields_csvc. intros u Hu.
  destruct (accounts_findById i (at_home u)) as [[a|e|e] w'] eqn:E; [|done..].
  apply guarded_Ok in E. apply bind_Ok in E as (i' & w1 & Hi & E). unfold toObjectId in Hi.
  destruct (valid_object_id i); [|done]. injection Hi as <- <-.
  apply bind_Ok in E as (o & w2 & Hm%mongo_Ok & E). unfold read in Hm. injection Hm as Ef <-.
  destruct o as [a'|]; [|done]. unfold ret in E. injection E as -> _. by exists u.
Qed.

(** What is known of an offer that was validated. *)
Definition validated (o : ValidOffer) : Prop :=
  wallet_of (cd_userAcct (vo_details o)) (vo_wallet o) /\
  account_of (wl_accountId (vo_wallet o)) (vo_account o) /\
  Forall id (passed (mkInputs (vo_details o) (vo_wallet o) (vo_account o))).

Lemma yields_from d :
  yields V (fun r => match r with Ok o => vo_details o = d /\ validated o | _ => True end) (ValidOffer_from d).
Proof.
  unfold ValidOffer_from. eapply yields_bind; [apply yields_wallet|done..|]. intros wl Hwl.
  eapply yields_bind; [apply yields_account|done..|]. intros acc Hacc.
  eapply yields_bind; [apply yields_valid|done..|]. intros [|e errs] Hv; [|done]. by split.
Qed.

Lemma yields_execute o :
  yields V (fun r => match r with Ok ic => ic_offer ic = o | _ => True end) (ValidOffer_execute o).
Proof.
  unfold ValidOffer_execute. apply yields_after; [done..|]. intros [e|id]; [by apply yields_after|].
  apply yields_after; [done..|]. intros _. by apply yields_after.
Qed.

(** An offer that is executed was validated by the same execution, for the account
    that asked. *)
Definition executed_for (accountId : string) (ic : InitiatedCashout) : Prop :=
  validated (ic_offer ic) /\
  exists wl, wallet_of (cd_userAcct (vo_details (ic_offer ic))) wl /\ wl_accountId wl = accountId.

Lemma yields_executeCashout id walletId accountId :
  yields V (fun r => match r with Ok ic => executed_for accountId ic | _ => True end)
    (executeCashout id walletId accountId).
Proof.
  unfold executeCashout. apply yields_after; [done..|]. intros offer.
  apply yields_after; [done..|]. intros wl.
  case_bool_decide as Ha; [|done]. cbn [negb].
  eapply yields_bind; [apply yields_wallet|done..|]. intros wl' Hwl'.
  case_bool_decide as Ha'; [|done]. cbn [negb]. do 2 (apply yields_after; [done..|]; intros _).
  apply yields_bind with (phi := fun r => match r with
    | Ok (inr o) => vo_details o = po_details offer /\ validated o | _ => True end); [|done..|].
  { eapply yields_attempt; [apply yields_from|]. by intros [o|e|e] Ho. }
  intros [e|o] Ho; [by apply yields_after|]. destruct Ho as [Hd Ho].
  eapply yields_bind; [apply yields_execute|done..|]. intros ic Hic.
  do 2 (apply yields_after; [done..|]; intros _). cbn. unfold executed_for. rewrite Hic, Hd.
  split; [done|]. exists wl'. split; [done|congruence].
Qed.
End Checks.

(** ** Executions *)

Section Executions.
Context `{X : CashoutExternal}.

Variable w0 : cworld.

(** Wallets and accounts are those of [w0]. *)
Definition settled (w : cworld) (_ : list unit) : Prop := same_homes (at_home w0) (at_home w).

Lemma settled_frame w w' ss : steady w w' -> settled w ss -> settled w' ss.
Proof. intros [Hs _] Hw. unfold settled in *. by etrans. Qed.

#[local] Abbreviation resting c := (quietly settled c).

Lemma resting_atomic {A} (c : M cworld error A) : (forall w, steady w (c w).2) -> resting (atomic c).
Proof. intros Hc. eapply quietly_keeps. by apply always_atomic; [apply settled_frame|]. Qed.

Lemma resting_event phase : resting (bridge (ops_event phase)).
Proof. apply quiet_event, settled_frame. Qed.

Lemma resting_step_failed : resting step_failed.
Proof. apply resting_event. Qed.

Local Hint Resolve resting_event resting_step_failed : quiet_calls.
Local Hint Extern 1 (quietly _ (computed _)) => apply quietly_done : quiet_calls.
Local Hint Extern 1 (quietly _ (erpParty _)) => by apply quiet_cread, settled_frame : quiet_calls.
Local Hint Extern 1 (quietly _ (configured _)) => apply quiet_configured : quiet_calls.
Local Hint Extern 1 (quietly _ (atomic _)) => by apply resting_atomic : quiet_calls.

Lemma resting_draft o : resting (draftCashout o).
Proof. unfold draftCashout. auto 10 with quiet_calls. Qed.

Lemma resting_pay_for id sender invoice : resting (pay_for id sender invoice).
Proof.
  apply resting_atomic. intros w. cbv beta zeta.
  pose proof (homes_payInvoice sender invoice None (at_home w)) as Hh. unfold at_home in Hh.
  destruct (payInvoice _ _ _ _) as [[resp|e|e] b']; by split.
Qed.

Lemma resting_submit id : resting (submitCashout id).
Proof. unfold submitCashout. auto with quiet_calls. Qed.

Local Hint Resolve resting_draft resting_pay_for resting_submit : quiet_calls.

Lemma resting_execute o : resting (ValidOffer_execute o).
Proof. unfold ValidOffer_execute, pay_cashout, submit_retrying. auto 12 with quiet_calls. Qed.

Lemma resting_get id : resting (Storage_get id).
Proof.
  unfold Storage_get, cache_failed. pose proof (@quiet_offers _ _ _ _ _ settled settled_frame).
  auto 12 with quiet_calls.
Qed.

Lemma resting_find i : resting (or_invalid (csvc (wallets_findById i))).
Proof. apply quiet_find; [apply settled_frame|apply homes_wallets_findById]. Qed.

Lemma resting_from d : resting (ValidOffer_from d).
Proof. eapply quietly_keeps, always_from, settled_frame. Qed.

Lemma resting_poke f : (forall w, steady w (f w)) -> resting (cpoke f).
Proof. apply quiet_cpoke, settled_frame. Qed.

Local Hint Resolve resting_execute resting_get resting_find resting_from : quiet_calls.
Local Hint Extern 1 (quietly _ (cpoke _)) => by apply resting_poke : quiet_calls.

Lemma resting_executeCashout id walletId accountId : resting (executeCashout id walletId accountId).
Proof. unfold executeCashout. auto 14 with quiet_calls. Qed.
End Executions.

(** C19: a cashout is executed only for what was checked in the course of its own
    execution, not when its offer was made, whatever executions run beside it.
    The wallet it is paid from is one of the account that asked, in the currency
    of the payment, and the account is the one stored under that id, active and
    of the configured level. The payment is within the configured bounds. In
    worlds in which this execution acts, IBEX says that the wallet holds the
    payment (when it is more than nothing), the clock says that the invoice has
    not expired, the account has a party in ERPNext, and ERPNext lists the bank
    account for that party in the currency of the payout. *)
Theorem executions_checked `{X : CashoutExternal} (requests : list (string * string * string))
    (sched : list nat) (w : cworld) (i : nat) (id walletId accountId : string) (ic : InitiatedCashout) :
  let pool := (fun '(id, walletId, accountId) => executeCashout id walletId accountId) <$> requests in
  let acting := acts sched pool w i in
  let o := ic_offer ic in
  let inputs := mkInputs (vo_details o) (vo_wallet o) (vo_account o) in
  requests !! i = Some (id, walletId, accountId) ->
  (exec sched pool w).1 !! i = Some (Done (Ok ic)) ->
  vo_wallet o ∈ w_wallets (at_home w) /\ wl_id (vo_wallet o) = cd_userAcct (vo_details o) /\
  wl_accountId (vo_wallet o) = accountId /\
  w_accounts (at_home w) !! accountId = Some (vo_account o) /\ a_id (vo_account o) = accountId /\
  right_currency inputs /\ above_minimum inputs /\ below_maximum inputs /\ owner_active inputs /\
  level_reached inputs /\ funded acting inputs /\ unexpired acting inputs /\ bank_known acting inputs.
Proof.
  intros pool acting o inputs Hi Hend.
  assert (forall u, acting u -> same_homes (at_home w) (at_home u)) as Hh.
  { intros u (s1 & s2 & v & k & _ & _ & <-).
    apply (exec_quietly (fun u => same_homes (at_home w) (at_home u))); [done|].
    intros p ([[id' wid'] acc'] & -> & _)%list_elem_of_fmap. apply (resting_executeCashout w). }
  assert (pool !! i = Some (executeCashout id walletId accountId)) as Hp
    by (unfold pool; by rewrite list_lookup_fmap, Hi).
  destruct (exec_yields acting _ _ _ _ _ _ _ Hp (yields_executeCashout acting id walletId accountId)
    (fun u Hu => Hu) Hend) as [(Hw & Ha & Hv) (wl & Hwl & Hacc)].
  destruct Hw as (u1 & k1 & Hu1 & Hf1). destruct Hwl as (u2 & k2 & Hu2 & Hf2).
  destruct Ha as (u3 & Hu3 & Hf3). rewrite (proj1 (Hh _ Hu1)) in Hf1. rewrite (proj1 (Hh _ Hu2)) in Hf2.
  rewrite (proj2 (Hh _ Hu3)) in Hf3. assert (wl = vo_wallet o) as -> by (unfold o; congruence).
  apply list_find_Some in Hf1 as (Hk & Hid & _). unfold passed in Hv. rewrite !Forall_cons in Hv.
  destruct Hv as (? & ? & ? & ? & ? & Hown & ? & ? & _ & ? & _). unfold wallet_owned in Hown. cbn in Hown.
  fold o in Hf3, Hown. rewrite Hacc in Hf3. split_and!; try done; [by eapply list_elem_of_lookup_2|].
  unfold o in *. congruence.
Qed.

(** ** The terms of an offer *)

(** A discount is a percentage. *)
Definition fair (x : js_num) : Prop := (0 <= num_val x)%Q /\ (num_val x <= inject_Z 100)%Q.

Lemma fair_zero : fair (num_of_Z 0).
Proof. unfold fair. rewrite num_of_Z_value. split; unfold inject_Z; lra. Qed.

Lemma kept_bips_range x : fair x -> 0 <= kept_bips x <= 10000.
Proof.
  intros [H0 H100]. unfold kept_bips.
  assert (0 <= Math_round (num_mul x (num_of_Z 100)) <= 10000); [|lia].
  pose proof (num_of_Z_value 100) as E. change (inject_Z 100) with (100 # 1)%Q in *.
  destruct (num_mul_range x (num_of_Z 100) 0 10000) as [L U]; [lia..| | |by apply Math_round_range];
    rewrite E; unfold inject_Z; lra.
Qed.

Definition fair_discounts (m : gmap string FeeDiscount) : Prop := map_Forall (fun _ d => fair (discountPercent d)) m.

Lemma discounts_of_fair docs : fair_discounts (discounts_of docs).
Proof.
  unfold discounts_of. assert (fair_discounts ∅) as Hm by apply map_Forall_empty. revert Hm.
  generalize (∅ : gmap string FeeDiscount). induction docs as [|doc docs IH]; intros m Hm; cbn [foldl]; [done|].
  apply IH. destruct (validateFeeDiscountDoc doc) as [[u d]|] eqn:E; [|done].
  apply map_Forall_insert_2; [|done]. unfold validateFeeDiscountDoc in E.
  repeat (match type of E with (if ?b then _ else _) = _ => destruct b eqn:?; [done|] end).
  apply bind_Some in E as (p & _ & E).
  destruct (num_ltb p (num_of_Z 0)) eqn:L; [done|]. destruct (num_ltb (num_of_Z 100) p) eqn:U; [done|].
  cbn in E. injection E as <- <-. cbn. apply num_ltb_val_false in L, U. rewrite num_of_Z_value in L, U. done.
Qed.

Lemma multiplyBips_bounds a bips fee : wf_amount a -> 0 <= value (money a) -> 0 <= bips <= 10000 ->
  multiplyBips a bips = Ok fee ->
  wf_amount fee /\ currencyCode fee = currencyCode a /\ 0 <= value (money fee) <= value (money a).
Proof.
  intros [Hc Hr] Hv Hb E. destruct (multiplyBips_value a bips) as (q & Hq & Hround).
  rewrite Hq in E. injection E as <-. rewrite Hr in Hround. cbn in Hround. destruct Hround as [Hround _].
  split; [by split|]. split; [done|]. cbn. nia.
Qed.

(** The full fee, or what is kept of it. *)
Lemma service_fee_bounds `{X : CashoutExternal} a x fee : wf_amount a -> 0 <= value (money a) ->
  0 <= cashout_fee <= 10000 -> fair x -> service_fee a x = Ok fee ->
  wf_amount fee /\ currencyCode fee = currencyCode a /\ 0 <= value (money fee) <= value (money a).
Proof.
  intros Ha Hv Hb Hx E. apply bindo_Ok in E as (full & Hf & E).
  destruct (multiplyBips_bounds _ _ _ Ha Hv Hb Hf) as (Hw & Hc & Hr).
  destruct (num_ltb _ _); [|by injection E as <-].
  destruct (multiplyBips_bounds _ _ _ Hw ltac:(lia) (kept_bips_range _ Hx) E) as (Hw' & Hc' & Hr').
  split; [done|]. split; [congruence|lia].
Qed.

Lemma subtract_value a b c : amount_subtract a b = Ok c ->
  wf_amount a -> wf_amount c /\ currencyCode c = currencyCode a /\
  value (money b) + value (money c) = value (money a).
Proof.
  unfold amount_subtract, subtract. destruct (incompatible _ _); [done|]. cbn. intros [= <-] [Hc Hr].
  split; [by split|]. split; [done|]. cbn. unfold toSource. lia.
Qed.

(** Converted at a rate, an amount is off by less than 51 hundredths of the
    smallest unit kept, for the two roundings. *)
Lemma convertAtRate_value a rate p : wf_amount rate -> convertAtRate a rate = Ok p ->
  wf_amount p /\ currencyCode p = currencyCode rate /\
  2 * Z.abs (value (money rate) * value (money a) - 100 * PRECISION_M * value (money p)) <= 101 * PRECISION_M.
Proof.
  intros [Hc Hr] H. apply bindo_Ok in H as (m & Hm & H). apply bindo_Ok in H as (q & Hq & [= <-]).
  unfold multiply in Hm. cbn [operand_input moneyValueToBigInt] in Hm.
  destruct (divide_rounds (toSource (money a) * value (money rate)) PRECISION_M (round (money rate)))
    as (k & Hk & Hround); [done|]. rewrite Hk in Hm. cbn in Hm. injection Hm as <-.
  destruct (Money_divide_whole (fromSource k (currency (money rate)) (round (money rate)))
    (OpValue (InNumber (num_of_Z 100))) 100) as (q' & Hq' & Hround'); [done|by apply parse_num|].
  rewrite Hq' in Hq. injection Hq as <-. cbn [round fromSource] in Hround'. rewrite Hr in Hround, Hround'.
  cbn in Hround, Hround'. destruct Hround as [Hround _]. destruct Hround' as [Hround' _].
  split; [by split|]. split; [done|]. cbn. unfold toSource in Hround. change (Z.abs PRECISION_M) with PRECISION_M in Hround.
  pose proof PRECISION_M_pos. nia.
Qed.

Lemma whole_cents a cents p : wf_amount a -> asSmallest a 0 = Ok cents -> USDT_usdCents cents = Ok p ->
  wf_amount p /\ currencyCode p = Usdt /\ exists n, value (money p) = n * cent_value p /\
    2 * Z.abs (value (money a) - n * PRECISION_M) <= PRECISION_M.
Proof.
  intros [_ Hr] Hc. unfold asSmallest, toFixed, bigintToFixed in Hc.
  destruct (divide_rounds (value (money a)) PRECISION_M (round (money a))) as (n & Hn & Hround); [done|].
  rewrite Hn in Hc. cbn in Hc. injection Hc as <-. rewrite USDT_usdCents_whole. intros [= <-].
  rewrite Hr in Hround. destruct Hround as [Hround _]. split; [done|]. split; [done|]. exists n.
  split; [|done]. unfold usdt_micros, cent_value, is_usdt. cbn [money value fromSource currencyCode].
  rewrite bool_decide_true by done. lia.
Qed.

(** The terms of an offer for a payment: the fee and the rest make up the
    payment; what is paid out is the rest, or its worth in Jamaican dollars at
    the rate of the offer; what the user pays is the payment, or the USDT worth the
    closest whole number of cents. *)
Definition fair_terms (payment : MoneyAmount) (d : CashoutDetails) : Prop :=
  exists rest, currencyCode rest = currencyCode payment /\
  value (money (cd_serviceFee d)) + value (money rest) = value (money payment) /\
  0 <= value (money (cd_serviceFee d)) <= value (money payment) /\
  match cd_exchangeRate d with
  | None => cd_payout d = rest
  | Some rate => currencyCode (cd_payout d) = Jmd /\
      2 * Z.abs (value (money rate) * value (money rest)
                 - 100 * PRECISION_M * value (money (cd_payout d))) <= 101 * PRECISION_M
  end /\
  (cd_amount d = payment \/
   currencyCode (cd_amount d) = Usdt /\ exists n, value (money (cd_amount d)) = n * cent_value (cd_amount d) /\
     2 * Z.abs (value (money payment) - n * PRECISION_M) <= PRECISION_M).

Lemma keeps_focus {W V E A S} (get : W -> V) (put : V -> W -> W) (Inv : V -> list S -> Prop) (phi : outcome E A -> Prop)
    (p : proc V E A) :
  (forall v w, get (put v w) = v) ->
  keeps Inv phi p -> keeps (fun w ss => Inv (get w) ss) phi (focus get put p).
Proof. intros Hgp Hp i s. apply safe_focus; [done|apply Hp]. Qed.

Section Offers.
Context `{X : CashoutExternal}.

(** The discounts in the cache are percentages. *)
Definition fair_cached (t : tworld) : Prop :=
  forall m at_, t_discounts t = Some (m, at_) -> fair_discounts m.

Variable payments : list MoneyAmount.

(** The offers asked for are for these payments. *)
Definition fair_cache (t : tworld) (ss : list MoneyAmount) : Prop := ss = payments /\ fair_cached t.
Definition fairly (w : cworld) (ss : list MoneyAmount) : Prop := fair_cache (b_top (cw_bridge w)) ss.

Lemma fairly_frame w w' ss : steady w w' -> fairly w ss -> fairly w' ss.
Proof. intros [_ E] [Hp Hw]. split; [done|]. unfold fair_cached in *. by rewrite E. Qed.

Lemma always_loadDiscounts :
  keeps fair_cache (fun r => match r with Ok m => fair_discounts m | _ => True end) loadDiscounts.
Proof.
  unfold loadDiscounts. eapply always_after; [|done..|].
  { intros i s w ss HI Hs. exists s. rewrite list_insert_id by done. by split. }
  intros now. eapply always_bind with (phi := fun r => match r with
    | Ok (Some (m, _)) => fair_discounts m | _ => True end); [|done..|].
  { apply keeps_atomic. intros w ss HI. split; [done|]. cbn. destruct (t_discounts w) as [[m t]|] eqn:E; [|done].
    by eapply HI. }
  intros cache Hc. destruct (fresh now cache) as [m|] eqn:Hf.
  { apply keeps_done. destruct cache as [[m' t]|]; [|done]. cbn in Hf.
    destruct (now - t <? CACHE_TTL_MS); [|done]. by injection Hf as <-. }
  eapply always_after; [|done..|].
  { destruct erp_configured; [|apply quietly_done]. apply quietly_attempt. unfold erp_getFeeDiscounts.
    apply quietly_catch; [|intros; apply quietly_done].
    apply quietly_bind; [|intros []; apply quietly_done]. apply keeps_atomic. intros w ss HI.
    by destruct (erp_fault _) as [[]|]. }
  intros docs. assert (fair_discounts (match docs with inr docs => discounts_of docs | inl _ => ∅ end)) as Hm.
  { destruct docs; [apply map_Forall_empty|apply discounts_of_fair]. }
  eapply always_after; [|done..|by intros; apply keeps_done].
  apply keeps_atomic. intros w ss HI. split; [|done]. split; [apply HI|]. intros m t. cbn. by intros [= <- _].
Qed.

Lemma always_discount username :
  keeps fairly (fun r => match r with Ok x => fair x | _ => True end)
    (bridge (top (getFlashFeeDiscountPercent username CashoutFlow))).
Proof.
  apply (keeps_focus cw_bridge set_cbridge (fun b => fair_cache (b_top b))); [done|].
  apply (keeps_focus b_top set_top fair_cache); [done|]. pose proof fair_zero as Hz. unfold getFlashFeeDiscountPercent.
  destruct username as [u|]; [|by apply keeps_done]. destruct (negb (nonempty u)); [by apply keeps_done|].
  eapply keeps_catch with (phi := fun r => match r with Ok x => fair x | _ => True end).
  - eapply always_bind; [apply always_loadDiscounts|done..|]. intros m Hm. apply keeps_done.
    destruct (m !! _) as [d|] eqn:E; [|done]. destruct (appliesToCashout d); [|done]. by apply (Hm _ _ E).
  - intros [x|e|e] Hx; [done..|]. by apply keeps_done.
Qed.

Lemma always_owner : quietly fairly getBankOwnerIbexAccount.
Proof.
  unfold getBankOwnerIbexAccount. apply quietly_bind; [by apply quiet_cread, fairly_frame|].
  intros [id|]; [apply quietly_done|]. apply quietly_bind; [apply quietly_done|]. intros id.
  apply quietly_bind; [|intros; apply quietly_done]. apply quiet_cpoke; [apply fairly_frame|done].
Qed.

Lemma always_add o :
  keeps fairly (fun r => match r with Ok po => po_details po = vo_details o | _ => True end) (Storage_add o).
Proof.
  unfold Storage_add. eapply always_after; [|done..|].
  { apply quiet_csvc; [apply fairly_frame|apply homes_randomUUID]. }
  intros id. eapply always_after; [apply quietly_done|done..|]. intros text.
  eapply always_after; [|done..|by intros; apply keeps_done].
  apply quietly_catch; [apply quiet_offers, fairly_frame|intros; apply quietly_done].
Qed.

Lemma always_rate :
  keeps fairly (fun r => match r with Ok rate => wf_amount rate /\ currencyCode rate = Jmd | _ => True end)
    getCashoutExchangeRate.
Proof.
  unfold getCashoutExchangeRate. eapply always_after; [apply quiet_configured|done..|]. intros _.
  eapply keeps_catch with (phi := fun r => match r with Ok rate => wf_amount rate /\ currencyCode rate = Jmd
    | _ => True end); [|by intros [x|e|e] Hx; [done..|apply keeps_done]].
  eapply always_after; [apply quiet_erp, fairly_frame|done..|].
  intros [[x|s| |]|]; try by apply keeps_done. destruct (num_ltb _ _); [|by apply keeps_done].
  destruct (JMD_dollars _) as [r|e|e] eqn:E; [|by apply keeps_done..]. apply keeps_done.
  unfold JMD_dollars in E. apply caught_Ok, from_major_wf in E. done.
Qed.

Lemma always_payout b usd : wf_amount usd ->
  keeps fairly (fun r => match r with
    | Ok (p, None) => p = usd
    | Ok (p, Some rate) => currencyCode p = Jmd /\
        2 * Z.abs (value (money rate) * value (money usd) - 100 * PRECISION_M * value (money p))
          <= 101 * PRECISION_M
    | _ => True end)
    (if String.eqb (ba_currency b) "JMD" then
       let* rate := getCashoutExchangeRate in
       let* amount := computed (convertAtRate usd rate) in pret (amount, Some rate)
     else pret (usd, None)).
Proof.
  intros Hu. destruct (String.eqb _ _); [|by apply keeps_done].
  eapply always_bind; [apply always_rate|done..|]. intros rate [Hw Hj]. unfold computed.
  destruct (convertAtRate usd rate) as [p|e|e] eqn:E; cbn [thrown pbind]; [|by apply keeps_done..].
  apply keeps_done. destruct (convertAtRate_value _ _ _ Hw E) as (_ & Hc & Hv). split; [congruence|done].
Qed.

Lemma always_payment route userPayment : wf_amount userPayment ->
  keeps fairly (fun r => match r with
    | Ok p => p = userPayment \/ currencyCode p = Usdt /\ exists n, value (money p) = n * cent_value p /\
        2 * Z.abs (value (money userPayment) - n * PRECISION_M) <= PRECISION_M
    | _ => True end)
    (match route with
     | route_usdt => let* cents := computed (asSmallest userPayment 0) in Done (USDT_usdCents cents)
     | route_legacy_usd => pret userPayment
     end).
Proof.
  intros Hw. destruct route; [by apply keeps_done; left|]. unfold computed.
  destruct (asSmallest userPayment 0) as [cents|e|e] eqn:E; cbn [thrown pbind]; [|by apply keeps_done..].
  apply keeps_done. destruct (USDT_usdCents cents) as [p|e|e] eqn:Ep; [|done..].
  destruct (whole_cents _ _ _ Hw E Ep) as (_ & Hc & Hn). by right.
Qed.

Lemma always_createOffer walletId userPayment bankAccountId accountId :
  wf_amount userPayment -> 0 <= value (money userPayment) -> 0 <= cashout_fee <= 10000 ->
  keeps fairly (fun r => match r with Ok po => fair_terms userPayment (po_details po) | _ => True end)
    (createOffer walletId userPayment bankAccountId accountId).
Proof.
  intros Hw Hv Hb. pose proof fairly_frame as Hfr. unfold createOffer.
  eapply always_after; [apply always_owner|done..|]. intros owner.
  eapply always_after; [by apply quiet_find; eauto with flash|done..|]. intros wl.
  case_bool_decide; [|by apply keeps_done]. cbn [negb].
  eapply always_after; [by apply quiet_find; eauto with flash|done..|]. intros acc.
  eapply always_after; [by apply quiet_cread|done..|]. intros [party|]; [|by apply keeps_done].
  eapply always_after; [by apply quiet_csvc; eauto with flash|done..|]. intros selection.
  eapply always_bind; [by apply always_payment|done..|]. intros payment Hp.
  eapply always_after; [by apply quiet_csvc; eauto with flash|done..|]. intros [bolt11|]; [|by apply keeps_done].
  eapply always_after; [apply quietly_done|done..|]. intros invoice.
  eapply always_bind; [apply always_discount|done..|]. intros discount Hd. unfold computed.
  destruct (service_fee userPayment discount) as [fee|e|e] eqn:Hf; cbn [thrown pbind]; [|by apply keeps_done..].
  destruct (service_fee_bounds _ _ _ Hw Hv Hb Hd Hf) as (Hwf & Hcf & Hrf).
  destruct (amount_subtract userPayment fee) as [usd|e|e] eqn:Hs; cbn [thrown pbind]; [|by apply keeps_done..].
  destruct (subtract_value _ _ _ Hs Hw) as (Hwu & Hcu & Hsum).
  eapply always_after; [by apply quiet_banks|done..|]. intros banks.
  destruct (find_bank _ _) as [b|]; [|by apply keeps_done].
  eapply always_bind; [by apply always_payout|done..|]. intros payout Hpay.
  eapply always_bind; [by apply always_from|done..|]. intros o Ho.
  eapply keeps_mono; [|apply always_add]. intros [po|e|e] Hpo; try done. rewrite Hpo, Ho.
  exists usd. cbn. split_and!; try done; try lia. destruct payout as [p [r|]]; done.
Qed.
End Offers.

(** C29: the terms of every offer made are fair, whatever other requests run beside it
    and whatever discounts ERPNext lists: the service fee is between nothing and
    the payment; the fee and the rest are exactly the payment; the payout is the
    rest, or its worth in Jamaican dollars at the rate of the offer to within 51
    hundredths of the last digit kept; and the user pays the payment itself, or
    the USDT worth the closest whole number of cents. *)
Theorem offers_fair `{X : CashoutExternal} (requests : list (string * MoneyAmount * string * string))
    (sched : list nat) (w : cworld) (i : nat) (walletId bankAccountId accountId : string)
    (userPayment : MoneyAmount) (po : PersistedOffer) :
  let pool := (fun '(walletId, p, bank, accountId) => createOffer walletId p bank accountId) <$> requests in
  (forall r, r ∈ requests -> wf_amount r.1.1.2 /\ 0 <= value (money r.1.1.2)) ->
  0 <= cashout_fee <= 10000 -> fair_cached (b_top (cw_bridge w)) ->
  requests !! i = Some (walletId, userPayment, bankAccountId, accountId) ->
  (exec sched pool w).1 !! i = Some (Done (Ok po)) ->
  fair_terms userPayment (po_details po).
Proof.
  intros pool Hreq Hb Hw Hi Hend. set (payments := (fun r => r.1.1.2) <$> requests).
  assert (pool_safe (fairly payments)
    (fun s r => match r with Ok po => fair_terms s (po_details po) | _ => True end) pool w) as Hs.
  { exists payments. split; [done|]. split; [unfold payments, pool; by rewrite !length_fmap|].
    intros j p s Hp Hs. apply list_lookup_fmap_Some in Hp as ([[[wl pay] bank] acc] & -> & Hj).
    apply list_lookup_fmap_Some in Hs as (? & -> & Hj'). simplify_eq. cbn [fst snd].
    destruct (Hreq _ (list_elem_of_lookup_2 _ _ _ Hj)) as [Hwf Hv].
    eapply safe_mono; [|by apply always_createOffer]. by intros s [o|e|e] [-> Ho]. }
  apply (exec_safe _ _ sched) in Hs as (ss & [-> _] & _ & Hs).
  apply (Hs i _ userPayment Hend). unfold payments. by rewrite list_lookup_fmap, Hi.
Qed.

(** ** Offers in the cache *)

(** An amount an offer can have. *)
Definition cacheable (a : MoneyAmount) : Prop := wf_amount a /\ currencyCode a ∈ [Usd; Jmd; Usdt].

Lemma revive_toJson a : cacheable a -> exists t, toJson a = Ok t /\ revive_amount t = Ok a.
Proof.
  intros [[Hc Hr] Hin]. destruct (toJSON_roundtrip (money a)) as (s & Hs & Hp).
  exists (s, currency (money a)). unfold toJson. split; [by rewrite Hs|].
  rewrite Hc, Hr in Hp. destruct a as [c m]. cbn [currencyCode money] in *. rewrite Hc.
  unfold Money_new in Hp. destruct (moneyValueToBigInt (InString s) HALF_TO_EVEN) eqn:E; [|done..]. cbn in Hp.
  rewrite !elem_of_cons, elem_of_nil in Hin.
  destruct Hin as [-> | [-> | [-> | []]]]; unfold revive_amount; cbn [currency_name String.eqb Ascii.eqb Bool.eqb];
    unfold toMoneyAmount, USD_cents, JMD_cents, USDT_smallestUnits, amount_new, Money_new; rewrite E; cbn;
    by injection Hp as <-.
Qed.

Definition cacheable_offer (d : CashoutDetails) : Prop :=
  cacheable (cd_amount d) /\ cacheable (cd_payout d) /\ cacheable (cd_serviceFee d) /\
  match cd_exchangeRate d with Some r => cacheable r | None => True end.

Lemma serialize_roundtrip d : cacheable_offer d ->
  exists j, serialize d = Ok j /\ deserialize j = Ok d.
Proof.
  intros (Ha & Hp & Hf & Hr). destruct (revive_toJson _ Ha) as (ta & Ta & Ra).
  destruct (revive_toJson _ Hp) as (tp & Tp & Rp). destruct (revive_toJson _ Hf) as (tf & Tf & Rf).
  unfold serialize. rewrite Ta, Tp, Tf. cbn [bindo].
  destruct d as [ua fa inv am bank pay fee [r|]]; cbn [cd_exchangeRate] in *.
  - destruct (revive_toJson _ Hr) as (tr & Tr & Rr). rewrite Tr. cbn. eexists. split; [done|].
    unfold deserialize. cbn. cbn in Ra, Rp, Rf. rewrite Ra, Rp, Rf, Rr. done.
  - eexists. split; [done|]. unfold deserialize. cbn. cbn in Ra, Rp, Rf. by rewrite Ra, Rp, Rf.
Qed.

Lemma run_offers `{X : CashoutExternal} {A}
    (op : Z -> gmap string (offer_json * Z) -> A * gmap string (offer_json * Z)) (w : cworld) :
  let n := t_redis_ops (b_top (cw_bridge w)) in
  let '(a, m) := op (redis_time n) (cw_offers w) in
  match redis_fault n with
  | None => (run (offers op) w).1 = Ok a /\ cw_offers (run (offers op) w).2 = m
  | Some _ => exists e, (run (offers op) w).1 = Throw e
  end.
Proof.
  cbv zeta. unfold offers. rewrite run_atomic. set (n := t_redis_ops (b_top (cw_bridge w))).
  destruct (op (redis_time n) (cw_offers w)) as [a m]. destruct (redis_fault n) as [[]|]; cbn; eauto.
Qed.

(** An offer that was added is in the cache for an hour. *)
Lemma run_add `{X : CashoutExternal} (o : ValidOffer) (w w' : cworld) (po : PersistedOffer) (j : offer_json) :
  serialize (vo_details o) = Ok j -> run (Storage_add o) w = (Ok po, w') ->
  po_details po = vo_details o /\
  cw_offers w' !! po_id po = Some (j, redis_time (t_redis_ops (b_top (cw_bridge w))) + 3600000).
Proof.
  intros Hj. unfold Storage_add. rewrite run_bind. unfold bind at 1.
  destruct (run (csvc randomUUID) w) as [[id|e|e] w1] eqn:E1; [|done..].
  assert (b_top (cw_bridge w1) = set_base (next_uuid (at_home w)) (b_top (cw_bridge w))) as Hw1
    by (change w1 with (Ok (E := error) id, w1).2; by rewrite <- E1).
  rewrite run_bind. unfold bind at 1. unfold computed. rewrite Hj. cbn [thrown run].
  rewrite run_bind. unfold bind at 1, cache_failed. rewrite run_catch. unfold catch.
  match goal with |- context [run (offers ?op) w1] => pose proof (run_offers op w1) as Ho;
    destruct (run (offers op) w1) as [r w2] end.
  cbv zeta beta iota in Ho. rewrite Hw1 in Ho. change (t_redis_ops (set_base _ ?t)) with (t_redis_ops t) in Ho.
  destruct (redis_fault _) as [f|]; cbn [fst snd] in Ho.
  - by destruct Ho as [e ->].
  - destruct Ho as [-> Hm]. cbn [run]. intros [= <- <-]. cbn [po_id po_details]. split; [done|].
    by rewrite Hm, lookup_insert_eq.
Qed.

(** An offer put in the cache is read back as it was, with every amount to the
    last of its twenty decimals, for an hour, as long as nothing else is stored
    under its id; from then on it is not found. *)
Theorem offer_kept_an_hour `{X : CashoutExternal} (o : ValidOffer) (w w' : cworld) (po : PersistedOffer)
    (later : cworld) :
  let made := redis_time (t_redis_ops (b_top (cw_bridge w))) in
  let asked := t_redis_ops (b_top (cw_bridge later)) in
  cacheable_offer (vo_details o) ->
  run (Storage_add o) w = (Ok po, w') ->
  cw_offers later !! po_id po = cw_offers w' !! po_id po ->
  redis_fault asked = None ->
  (run (Storage_get (po_id po)) later).1 =
    if redis_time asked <? made + 3600000 then Ok po else Err (new_error0 OfferNotFound).
Proof.
  intros made asked Hd Hadd Hsame Hup. destruct (serialize_roundtrip _ Hd) as (j & Hj & Hback).
  destruct (run_add _ _ _ _ _ Hj Hadd) as [Hdet Hin]. rewrite Hin in Hsame. unfold Storage_get.
  rewrite run_catch. unfold catch. rewrite run_bind. unfold bind at 1, cache_failed. rewrite run_catch. unfold catch.
  match goal with |- context [run (offers ?op) later] => pose proof (run_offers op later) as Ho;
    destruct (run (offers op) later) as [r w2] end.
  cbv zeta beta iota in Ho. fold asked in Ho. rewrite Hup in Ho. cbn [fst snd] in Ho. destruct Ho as [-> _].
  rewrite Hsame. unfold live. cbn [mbind option_bind]. fold made.
  destruct (redis_time asked <? made + 3600000); [|done].
  rewrite run_bind. unfold bind. rewrite Hback. cbn. destruct po as [i d]. cbn in Hdet. by subst d.
Qed.
