(* ===== verification/AccountUpgrades.v ===== *)
(** * Account upgrades and changes of bank details

    Model of the requests an account makes to the operators through ERPNext:
    [src/src/app/accounts/business-account-upgrade-request.ts],
    [request-capability-upgrade.ts], [get-account-upgrade-request.ts],
    [get-account-capabilities.ts], [update-account-level.ts] and
    [bank-account-update-request.ts]; the capabilities of an account
    ([src/src/domain/accounts/capabilities.ts]); the requests as ERPNext has them
    ([src/src/services/frappe/models]) and the calls on them of
    [src/src/services/frappe/ErpNext.ts]. ERPNext keeps the requests in the order
    of their creation; each call is one step that may fail, with or without
    its effect. *)

From stdpp Require Import base gmap list strings.
From Stdlib Require Import ZArith Lia.
From S2P Require Import Prelude JsStrings JsNumbers JsDecimals Processes Errors World Ibex Repos.
From S2P Require Import BigintMoney MoneyAmounts TopupWorld PaymentIdempotency Json BridgeWorld BridgeRepo CutoverRepo Cashouts.

Open Scope Z_scope.
Open Scope flash_scope.

(** ** Capabilities *)

Record AccountCapabilities := mkCapabilities {
  verified : bool;
  bankPayout : bool;
  business : bool;
  usdAccount : bool
}.

Inductive AccountStatusHeadline := HeadlineTrial | HeadlineVerified | HeadlineBusiness.
Inductive RequestableCapability := BankPayout | Business.

Definition BRIDGE_KYC_APPROVED : string := "approved".

Definition deriveLevelFromCapabilities (c : AccountCapabilities) : Z :=
  if negb (verified c) then 0
  else if business c && bankPayout c then 3
  else if bankPayout c then 2
  else 1.

Definition deriveStatusHeadline (c : AccountCapabilities) : AccountStatusHeadline :=
  let level := deriveLevelFromCapabilities c in
  if 3 <=? level then HeadlineBusiness
  else if 1 <=? level then HeadlineVerified
  else HeadlineTrial.

Definition deriveCapabilitiesForAccount (level : Z) (hasBankAccountOnFile : bool)
    (bridgeKycStatus : option string) : AccountCapabilities :=
  mkCapabilities (1 <=? level) (hasBankAccountOnFile || (2 <=? level)) (3 <=? level)
    (bool_decide (bridgeKycStatus = Some BRIDGE_KYC_APPROVED)).

(** [capabilities[capability]] *)
Definition has_capability (c : AccountCapabilities) (r : RequestableCapability) : bool :=
  match r with BankPayout => bankPayout c | Business => business c end.

Definition capability_name (r : RequestableCapability) : string :=
  match r with BankPayout => "bankPayout" | Business => "business" end.

(** The capabilities once a request is granted. *)
Definition with_capability (c : AccountCapabilities) (r : RequestableCapability) (bank : bool) :
    AccountCapabilities :=
  mkCapabilities (verified c) (bankPayout c || bank)
    (match r with Business => true | BankPayout => business c end) (usdAccount c).

(** ** Levels in ERPNext *)

Definition LEVEL_TO_ERP : list (Z * string) := [(0, "ZERO"); (1, "ONE"); (2, "TWO"); (3, "THREE")].

(** Undefined for a number that is no level. *)
Definition levelToErpString (level : Z) : option string :=
  snd <$> (snd <$> list_find (fun e => e.1 = level) LEVEL_TO_ERP).

Definition erpStringToLevel (erpLevel : option string) : Z :=
  default 0 (s ← erpLevel; fst <$> (snd <$> list_find (fun e => e.2 = s) LEVEL_TO_ERP)).

(** ** Requests *)

Definition RequestPending : string := "Pending".
Definition RequestClosed : string := "Closed".

Record Address := mkAddress {
  ad_title : string;
  ad_line1 : string;
  ad_line2 : option string;
  ad_city : string;
  ad_state : string;
  ad_postalCode : option string;
  ad_country : string
}.

Record bank_details := mkBankDetails {
  bd_bank : string;
  bd_branch_code : string;
  bd_account_type : string;
  bd_currency : string;
  bd_bank_account_no : string
}.

#[global] Instance bank_details_eq_dec : EqDecision bank_details.
Proof. solve_decision. Defined.

(** The number of terminals may be null. *)
Record AccountUpgradeRequest := mkUpgradeRequest {
  aur_name : string;
  aur_username : option string;
  aur_currentLevel : Z;
  aur_requestedLevel : Z;
  aur_status : string;
  aur_fullName : string;
  aur_phoneNumber : option string;
  aur_email : option string;
  aur_idDocument : string;
  aur_address : Address;
  aur_terminalsRequested : option js_num;
  aur_bankAccount : option bank_details
}.

(** What is posted to ERPNext. *)
Record upgrade_body := mkUpgradeBody {
  ub_name : string;
  ub_current_level : option string;
  ub_requested_level : option string;
  ub_username : option string;
  ub_full_name : string;
  ub_phone_number : option string;
  ub_email : option string;
  ub_address : Address;
  ub_terminal_requested : string;
  ub_bank_name : option string;
  ub_bank_branch : option string;
  ub_account_type : option string;
  ub_currency : option string;
  ub_account_number : option string;
  ub_id_document : string
}.

(** A request in ERPNext: its name and status are not those posted. *)
Record upgrade_row := mkUpgradeRow { ur_name : string; ur_status : string; ur_body : upgrade_body }.

(** [this.terminalsRequested.toString()] throws on null. *)
Definition toErpnext (r : AccountUpgradeRequest) : outcome error upgrade_body :=
  match aur_terminalsRequested r with
  | None => Throw (new_error JsTypeError "Cannot read properties of null (reading 'toString')")
  | Some n =>
      Ok (mkUpgradeBody (aur_name r) (levelToErpString (aur_currentLevel r))
            (levelToErpString (aur_requestedLevel r)) (aur_username r) (aur_fullName r)
            (aur_phoneNumber r) (aur_email r) (aur_address r) (num_toString n)
            (bd_bank <$> aur_bankAccount r) (bd_branch_code <$> aur_bankAccount r)
            (bd_account_type <$> aur_bankAccount r) (bd_currency <$> aur_bankAccount r)
            (bd_bank_account_no <$> aur_bankAccount r) (aur_idDocument r))
  end.

Definition fromErpnext (d : upgrade_row) : AccountUpgradeRequest :=
  let b := ur_body d in
  mkUpgradeRequest (ur_name d) (ub_username b) (erpStringToLevel (ub_current_level b))
    (erpStringToLevel (ub_requested_level b)) (ur_status d) (ub_full_name b) (ub_phone_number b)
    (ub_email b) (ub_id_document b) (ub_address b)
    (Some (default (num_of_Z 0) (js_Number (ub_terminal_requested b))))
    (match nonempty_opt (ub_bank_name b) with
     | None => None
     | Some bank =>
         Some (mkBankDetails bank (default "" (ub_bank_branch b)) (default "" (ub_account_type b))
                 (default "" (ub_currency b)) (default "" (ub_account_number b)))
     end).

(** The checks of a request, in their order; all their errors are reported. *)
Definition isRequestedLevelGreater (r : AccountUpgradeRequest) : option error :=
  if aur_requestedLevel r <=? aur_currentLevel r
  then invalid ("Account is already at requested level or higher. Current level: "
                +:+ bigint_toString (aur_currentLevel r) +:+ String (Ascii.ascii_of_nat 34) ")")
  else None.

(** [null > 1] is false. *)
Definition checkMaxTerminals (r : AccountUpgradeRequest) : option error :=
  match aur_terminalsRequested r with
  | Some n => if num_ltb (num_of_Z 1) n then invalid "Cannot request more than 1 terminal(s)" else None
  | None => None
  end.

Definition hasUsername (r : AccountUpgradeRequest) : option error :=
  match nonempty_opt (aur_username r) with
  | None => invalid "Username is required for upgrade request"
  | Some _ => None
  end.

Definition active_check (a : account) : option error :=
  match isActive a with Ok _ => None | Err e | Throw e => Some e end.

Definition validate (a : account) (r : AccountUpgradeRequest) : list error :=
  omap id [active_check a; isRequestedLevelGreater r; checkMaxTerminals r; hasUsername r].

(** *** Changes of bank details

    The row of ERPNext has the texts of the request, as they are posted. *)

Record BankAccountUpdateRequest := mkUpdateRequest {
  bur_name : string;
  bur_party : string;
  bur_bankAccountId : string;
  bur_status : string;
  bur_newBankAccount : bank_details
}.

#[global] Instance BankAccountUpdateRequest_eq_dec : EqDecision BankAccountUpdateRequest.
Proof. solve_decision. Defined.

(** ** The world of the requests *)

(** What ERPNext does beyond keeping requests: the names it gives, the status an
    upgrade request starts with, which is not posted, and the requests of a
    bulk update it reports as failed, with the text of its report. *)
Class UpgradeExternal `{CashoutExternal} := {
  erp_name : nat -> string;
  erp_initial_status : string;
  erp_failed_docs : nat -> list string -> option (list string * string)
}.

(** Names are given once; a request starts as pending. *)
Class UpgradeLaws `{UpgradeExternal} := {
  erp_name_inj : Inj (=) (=) erp_name;
  erp_initial_pending : erp_initial_status = RequestPending
}.

Record uworld `{UpgradeExternal} := mkUWorld {
  uw_cash : cworld;
  uw_upgrades : list upgrade_row;
  uw_updates : list BankAccountUpdateRequest;
  uw_named : nat
}.

Section Upgrades.
Context `{X : UpgradeExternal}.

Definition set_ucash c (w : uworld) : uworld :=
  mkUWorld _ _ _ _ _ c (uw_upgrades w) (uw_updates w) (uw_named w).
Definition set_upgrades l (w : uworld) : uworld :=
  mkUWorld _ _ _ _ _ (uw_cash w) l (uw_updates w) (uw_named w).
Definition set_updates l (w : uworld) : uworld :=
  mkUWorld _ _ _ _ _ (uw_cash w) (uw_upgrades w) l (uw_named w).
Definition next_name (w : uworld) : uworld :=
  mkUWorld _ _ _ _ _ (uw_cash w) (uw_upgrades w) (uw_updates w) (S (uw_named w)).

(** [UApp A]: a handler of this world. *)
Definition UApp (A : Type) : Type := proc uworld error A.

Definition ucash {A} (c : CApp A) : UApp A := focus uw_cash set_ucash c.
Definition usvc {A} (c : App A) : UApp A := ucash (csvc c).

(** One request to ERPNext; [n] numbers it. A request that fails throws, after it
    took effect or without it. *)
Definition uerp {A} (op : nat -> uworld -> A * uworld) : UApp A :=
  atomic (fun w =>
    let b := cw_bridge (uw_cash w) in
    let n := t_erp_ops (b_top b) in
    let w1 := set_ucash (set_cbridge (set_top (next_erp_op (b_top b)) b) (uw_cash w)) w in
    match erp_fault n with
    | None => let '(a, w2) := op n w1 in (Ok a, w2)
    | Some (true, e) => (Throw e, (op n w1).2)
    | Some (false, e) => (Throw e, w1)
    end).

Definition erp_caught {A} (class : error_class) (c : UApp A) : UApp A :=
  pcatch c (fun e => pfail (new_error class (err_message e))).

(** The page of a listing when the request does not say how long. *)
Definition page_length : nat := 20.

(** ** Calls on upgrade requests *)

(** The error is logged with the request, which is rendered again outside the [try]. *)
Definition postUpgradeRequest (r : AccountUpgradeRequest) : UApp string :=
  pcatch
    (let* body := Done (toErpnext r) in
     uerp (fun _ w =>
       let name := erp_name (uw_named w) in
       (name, next_name (set_upgrades (uw_upgrades w ++ [mkUpgradeRow name erp_initial_status body]) w))))
    (fun e => let* _ := Done (toErpnext r) in pfail (new_error UpgradeRequestCreateError (err_message e))).

(** Filters: [None] is no filter on the field; a missing username is a filter for
    rows without one. *)
Record upgrade_filters := mkFilters {
  uf_username : option (option string);
  uf_status : option (list string)
}.

Definition filters_match (f : upgrade_filters) (r : upgrade_row) : bool :=
  match uf_username f with
  | None => true
  | Some u => bool_decide (nonempty_opt (ub_username (ur_body r)) = nonempty_opt u)
  end &&
  match uf_status f with None => true | Some l => bool_decide (ur_status r ∈ l) end.

(** Newest first. *)
Definition getAccountUpgradeRequestList (f : upgrade_filters) : UApp (list string) :=
  erp_caught UpgradeRequestQueryError (uerp (fun _ w =>
    (ur_name <$> take page_length (reverse (filter (fun r => filters_match f r = true) (uw_upgrades w))), w))).

Definition getAccountUpgradeRequestById (id : string) : UApp AccountUpgradeRequest :=
  erp_caught UpgradeRequestQueryError (
    let* row := uerp (fun _ w => (snd <$> list_find (fun r => ur_name r = id) (uw_upgrades w), w)) in
    match row with
    | None => pthrow erp_not_found
    | Some r => pret (fromErpnext r)
    end).

Definition close_row (names : list string) (r : upgrade_row) : upgrade_row :=
  if bool_decide (ur_name r ∈ names) then mkUpgradeRow (ur_name r) RequestClosed (ur_body r) else r.

(** [setStatusForRequests]: the documents ERPNext could not update are reported; [put] is
    the update of the others. *)
Definition setStatusForRequests (put : list string -> uworld -> uworld) (names : list string) : UApp unit :=
  match names with
  | [] => pret tt
  | _ =>
      erp_caught SetDocTypeValueError (
        let* failed := uerp (fun n w =>
          let failed := erp_failed_docs n names in
          (failed, put (filter (fun i => i ∉ default [] (fst <$> failed)) names) w)) in
        match failed with
        | None => pret tt
        | Some (_, report) => pfail (new_error SetDocTypeValueError report)
        end)
  end.

Definition closeAccountUpgradeRequests : list string -> UApp unit :=
  setStatusForRequests (fun names w => set_upgrades (close_row names <$> uw_upgrades w) w).

(** ** Upgrades *)

(** What is asked for, by the mutation or by the request for a capability. *)
Record UpgradeRequest := mkUpgrade {
  up_level : Z;
  up_fullName : string;
  up_address : Address;
  up_terminalsRequested : option js_num;
  up_bankAccount : option bank_details;
  up_idDocument : string
}.

Record UpgradeStatusResponse := mkUpgradeStatus { us_id : string; us_status : string }.

Definition configured_erp (method : string) : UApp unit := ucash (configured method).

Definition createUpgradeRequest (accountId : string) (input : UpgradeRequest) : UApp UpgradeStatusResponse :=
  let* account := usvc (accounts_findById accountId) in
  let* phone := ucash (bridge (users_findById (a_kratosUserId account))) in
  let* email := Done (kratos_email (a_kratosUserId account)) in
  configured_erp "getAccountUpgradeRequestList" ;;;
  let* pendingRequests :=
    getAccountUpgradeRequestList (mkFilters (Some (a_username account)) (Some [RequestPending])) in
  closeAccountUpgradeRequests pendingRequests ;;;
  let r := mkUpgradeRequest "" (a_username account) (a_level account) (up_level input) RequestPending
             (up_fullName input) phone email (up_idDocument input) (up_address input)
             (up_terminalsRequested input) (up_bankAccount input) in
  match validate account r with
  | [] =>
      let* name := postUpgradeRequest r in
      ucash (bridge (ops_event "requested")) ;;;
      pret (mkUpgradeStatus name RequestPending)
  | errs => pfail (validation_errors errs)
  end.

(** [Array.prototype.slice(0, count || length)] *)
Definition slice_count {A} (count : option Z) (l : list A) : list A :=
  match count with
  | None => l
  | Some c => if c =? 0 then l
              else if c <? 0 then take (length l - Z.to_nat (- c)) l
              else take (Z.to_nat c) l
  end.

(** The requests are fetched one by one; of their errors the first is the answer. *)
Fixpoint fetch_requests (ids : list string) : UApp (list (error + AccountUpgradeRequest)) :=
  match ids with
  | [] => pret []
  | id :: rest =>
      let* r := pattempt (getAccountUpgradeRequestById id) in
      let* rs := fetch_requests rest in
      pret (r :: rs)
  end.

Fixpoint findErrors (l : list (error + AccountUpgradeRequest)) : outcome error (list AccountUpgradeRequest) :=
  match l with
  | [] => Ok []
  | inl e :: _ => Err e
  | inr r :: rest => bindo (findErrors rest) (fun rs => Ok (r :: rs))
  end.

Definition getAccountUpgradeRequests (f : upgrade_filters) (count : option Z) : UApp (list AccountUpgradeRequest) :=
  if negb erp_configured then pfail (new_error UpgradeRequestQueryError "ERPNext service not configured") else
  let* ids := getAccountUpgradeRequestList f in
  let* rs := fetch_requests (slice_count count ids) in
  Done (findErrors rs).

(** When the lookup fails the stored level stands in for it. *)
Definition getAccountCapabilities (a : account) : UApp AccountCapabilities :=
  let* party := ucash (erpParty a) in
  let* hasBankAccountOnFile :=
    match party with
    | Some party =>
        if erp_configured then
          let* banks := pattempt (ucash (getBankAccountsByCustomer party)) in
          pret (match banks with inl _ => 2 <=? a_level a | inr banks => negb (bool_decide (banks = [])) end)
        else pret false
    | None => pret false
    end in
  pret (deriveCapabilitiesForAccount (a_level a) hasBankAccountOnFile (a_bridgeKycStatus a)).

Record CapabilityUpgradeRequest := mkCapabilityRequest {
  cr_capability : RequestableCapability;
  cr_fullName : string;
  cr_address : Address;
  cr_terminalsRequested : option js_num;
  cr_bankAccount : option bank_details;
  cr_idDocument : option string
}.

(** Why a capability is refused. *)
Definition capability_refused (c : AccountCapabilities) (input : CapabilityUpgradeRequest) : option error :=
  let bank := bool_decide (is_Some (cr_bankAccount input)) in
  if negb (verified c) then invalid "Account must complete identity verification before requesting an upgrade"
  else if has_capability c (cr_capability input) then
    invalid ("Account already has the " +:+ capability_name (cr_capability input) +:+ " capability")
  else match cr_capability input with
       | BankPayout => if bank then None else invalid "Bank account details are required for bank payout"
       | Business => if negb bank && negb (bankPayout c)
                     then invalid "Bank account details are required to set up a business account" else None
       end.

Definition requestCapabilityUpgrade (accountId : string) (input : CapabilityUpgradeRequest) :
    UApp UpgradeStatusResponse :=
  let* account := usvc (accounts_findById accountId) in
  let* capabilities := getAccountCapabilities account in
  match capability_refused capabilities input with
  | Some e => pfail e
  | None =>
      let target := with_capability capabilities (cr_capability input)
                      (bool_decide (is_Some (cr_bankAccount input))) in
      let level := if deriveLevelFromCapabilities target =? 3 then 3 else 2 in
      createUpgradeRequest accountId (mkUpgrade level (cr_fullName input) (cr_address input)
        (cr_terminalsRequested input) (cr_bankAccount input) (default "" (cr_idDocument input)))
  end.

(** [AccountsRepository.update] with the field [erpParty], which is set by the same
    write; a field that is undefined is left alone. *)
Definition set_parties p (c : cworld) : cworld :=
  mkCWorld _ _ _ _ (cw_bridge c) p (cw_offers c) (cw_bankOwner c) (cw_calls c) (cw_log c) (cw_emails c).

Definition update_with_party (a : account) (party : option string) : UApp account :=
  atomic (fun w =>
    let b := t_base (b_top (cw_bridge (uw_cash w))) in
    let '(o, w1) := run (usvc (accounts_update a)) w in
    let written := valid_object_id (a_id a) && bool_decide (is_Some (w_accounts b !! a_id a)) &&
      match mongo_fault (w_ops b) with Some (FaultBefore _) => false | _ => true end in
    (o, match party with
        | Some p => if written then set_ucash (set_parties (<[a_id a := p]> (cw_parties (uw_cash w1))) (uw_cash w1)) w1
                    else w1
        | None => w1
        end)).

Definition with_level (level : Z) (a : account) : account :=
  mkAccount (a_id a) (a_uuid a) (a_status a) (a_defaultWalletId a) (a_username a) level (a_role a)
    (a_kratosUserId a) (a_bridgeCustomerId a) (a_bridgeKycStatus a) (a_bridgeEthereumAddress a) (a_createdAt a).

(** The operators' approval. *)
Definition updateAccountLevel (id : string) (level : Z) (party : option string) : UApp account :=
  let blank := match party with None => true | Some p => negb (nonempty (js_trim p)) end in
  if ((level =? 2) || (level =? 3)) && blank then
    pfail (new_error ValidationError "erpParty is required for level 2 and 3 accounts")
  else
    let* account := usvc (accounts_findById id) in
    let* updated := update_with_party (with_level level account) party in
    ucash (bridge (ops_event "approved")) ;;;
    pret updated.

(** ** Calls on changes of bank details *)

Definition postBankAccountUpdateRequest (r : BankAccountUpdateRequest) : UApp string :=
  erp_caught BankAccountUpdateRequestCreateError (uerp (fun _ w =>
    let name := erp_name (uw_named w) in
    (name, next_name (set_updates (uw_updates w ++
       [mkUpdateRequest name (bur_party r) (bur_bankAccountId r) (bur_status r) (bur_newBankAccount r)]) w)))).

Definition open_update (bankAccountId : string) (r : BankAccountUpdateRequest) : bool :=
  bool_decide (bur_bankAccountId r = bankAccountId /\ bur_status r = RequestPending).

Definition getOpenBankAccountUpdateRequestsForAccount (bankAccountId : string) :
    UApp (list BankAccountUpdateRequest) :=
  erp_caught BankAccountUpdateRequestQueryError (uerp (fun _ w =>
    (take page_length (reverse (filter (fun r => open_update bankAccountId r = true) (uw_updates w))), w))).

Definition getLatestBankAccountUpdateRequestForAccount (bankAccountId : string) :
    UApp (option BankAccountUpdateRequest) :=
  erp_caught BankAccountUpdateRequestQueryError (uerp (fun _ w =>
    (head (reverse (filter (fun r => bur_bankAccountId r = bankAccountId) (uw_updates w))), w))).

Definition close_update (names : list string) (r : BankAccountUpdateRequest) : BankAccountUpdateRequest :=
  if bool_decide (bur_name r ∈ names)
  then mkUpdateRequest (bur_name r) (bur_party r) (bur_bankAccountId r) RequestClosed (bur_newBankAccount r)
  else r.

Definition closeBankAccountUpdateRequests : list string -> UApp unit :=
  setStatusForRequests (fun names w => set_updates (close_update names <$> uw_updates w) w).

(** ** Changing bank details *)

(** [!s || s.trim().length < n] *)
Definition too_short (n : Z) (s : string) : bool := slen (js_trim s) <? n.

(** Why the proposed details are refused. *)
Definition details_refused (current : BankAccount) (d : bank_details) : option error :=
  if too_short 2 (bd_bank d) then invalid "Bank name is required."
  else if too_short 2 (bd_branch_code d) then invalid "Bank branch is required."
  else if negb (bool_decide (bd_account_type d ∈ ["Chequing"; "Savings"]))
  then invalid "Account type must be Chequing or Savings."
  else if too_short 4 (bd_bank_account_no d) then invalid "A valid account number is required."
  else if negb (String.eqb (bd_currency d) (ba_currency current))
  then invalid "Changing the account currency is not supported. Please add a new account instead."
  else None.

Definition createBankAccountUpdateRequest (accountId bankAccountId : string) (proposed : bank_details) :
    UApp UpgradeStatusResponse :=
  let* account := usvc (accounts_findById accountId) in
  let* party := ucash (erpParty account) in
  match party with
  | None => pfail (new_error ValidationError "This account has no bank accounts to update.")
  | Some party =>
      let* bankAccounts := ucash (getBankAccountsByCustomer party) in
      match find_bank bankAccountId bankAccounts with
      | None => pfail (new_error ValidationError "Bank account not found for this user.")
      | Some current =>
          match details_refused current proposed with
          | Some e => pfail e
          | None =>
              let* priorOpen := getOpenBankAccountUpdateRequestsForAccount bankAccountId in
              let* name := postBankAccountUpdateRequest
                (mkUpdateRequest "" party bankAccountId RequestPending proposed) in
              let priorNames := filter (fun n => n <> name) (bur_name <$> priorOpen) in
              (match priorNames with
               | [] => pret tt
               | _ => pattempt (closeBankAccountUpdateRequests priorNames) ;;; pret tt
               end) ;;;
              pret (mkUpgradeStatus name RequestPending)
          end
      end
  end.

(** The field of a bank account that shows the request under way, or refused. *)
Definition pendingUpdate (bank : BankAccount) : UApp (option BankAccountUpdateRequest) :=
  match nonempty_opt (ba_name bank) with
  | None => pret None
  | Some name =>
      configured_erp "getLatestBankAccountUpdateRequestForAccount" ;;;
      let* latest := pattempt (getLatestBankAccountUpdateRequestForAccount name) in
      pret (match latest with
            | inr (Some r) => if bool_decide (bur_status r ∈ [RequestPending; "Rejected"]) then Some r else None
            | _ => None
            end)
  end.
End Upgrades.

(** ** Capabilities and levels *)

(** The capabilities of an account give its level back, except that one of level
    one with a bank account on file counts as level two; and a request for a
    capability that is not refused asks for more than the account has: level
    three for a business, level two for payouts to a bank. *)
Theorem capability_requests_raise (level : Z) (bank : bool) (kyc : option string)
    (input : CapabilityUpgradeRequest) :
  0 <= level <= 3 ->
  let c := deriveCapabilitiesForAccount level bank kyc in
  let target := deriveLevelFromCapabilities
    (with_capability c (cr_capability input) (bool_decide (is_Some (cr_bankAccount input)))) in
  deriveLevelFromCapabilities c = (if (level =? 1) && bank then 2 else level) /\
  (capability_refused c input = None ->
   level < target /\ target = match cr_capability input with Business => 3 | BankPayout => 2 end).
Proof.
  intros Hl. assert (level = 0 \/ level = 1 \/ level = 2 \/ level = 3) as Hcases by lia.
  cbv zeta. unfold capability_refused, has_capability, with_capability, deriveLevelFromCapabilities.
  destruct Hcases as [-> | [-> | [-> | ->]]], bank, (cr_capability input);
    case_bool_decide; cbn; split; try done; intros; split; try done; lia.
Qed.

(** ** Requests as processes *)

Inductive account_request :=
| AskUpgrade (accountId : string) (input : UpgradeRequest)
| AskCapability (accountId : string) (input : CapabilityUpgradeRequest)
| AskBankUpdate (accountId bankAccountId : string) (proposed : bank_details)
| ApproveLevel (accountId : string) (level : Z) (party : option string)
| ShowUpgrades (filters : upgrade_filters) (count : option Z)
| ShowUpdate (bank : BankAccount).

Section Requests.
Context `{X : UpgradeExternal}.

Definition handle (r : account_request) : UApp unit :=
  match r with
  | AskUpgrade a input => createUpgradeRequest a input ;;; pret tt
  | AskCapability a input => requestCapabilityUpgrade a input ;;; pret tt
  | AskBankUpdate a b d => createBankAccountUpdateRequest a b d ;;; pret tt
  | ApproveLevel a level party => updateAccountLevel a level party ;;; pret tt
  | ShowUpgrades f count => getAccountUpgradeRequests f count ;;; pret tt
  | ShowUpdate bank => pendingUpdate bank ;;; pret tt
  end.

(** Calls that leave an invariant alone which looks at requests only: all but those
    that post or close a request. *)
Section Calm.
Context {S : Type}.
Variable Inv : uworld -> list S -> Prop.
Hypothesis Inv_cash : forall c w ss, Inv w ss -> Inv (set_ucash c w) ss.

Lemma calm_ucash {A} (c : CApp A) : quietly Inv (ucash c).
Proof. apply quietly_focus. auto. Qed.

(** A request that keeps the invariant, and a question. *)
Lemma calm_uerp_op {A} (op : nat -> uworld -> A * uworld) :
  (forall n w ss, Inv w ss -> Inv (op n w).2 ss) -> quietly Inv (uerp op).
Proof.
  intros Hop. apply keeps_atomic. intros w ss HI. cbv zeta. split; [|done].
  set (n := t_erp_ops _). set (w1 := set_ucash _ w).
  assert (Inv w1 ss) as Hw1 by (by apply Inv_cash). specialize (Hop n w1 ss Hw1).
  destruct (erp_fault n) as [[[] e]|]; [done..|]. by destruct (op n w1).
Qed.

Lemma calm_uerp {A} (f : nat -> uworld -> A) : quietly Inv (uerp (fun n w => (f n w, w))).
Proof. by apply calm_uerp_op. Qed.

Lemma calm_caught {A} cls (c : UApp A) : quietly Inv c -> quietly Inv (erp_caught cls c).
Proof. intros Hc. apply quietly_catch; [done|intros; apply quietly_done]. Qed.

Lemma calm_list f : quietly Inv (getAccountUpgradeRequestList f).
Proof. apply calm_caught, calm_uerp. Qed.

Lemma calm_byId id : quietly Inv (getAccountUpgradeRequestById id).
Proof.
  apply calm_caught, quietly_bind; [apply calm_uerp|]. intros []; apply quietly_done.
Qed.

Lemma calm_fetch ids : quietly Inv (fetch_requests ids).
Proof.
  induction ids as [|id ids IH]; cbn [fetch_requests]; [apply quietly_done|].
  apply quietly_bind; [apply quietly_attempt, calm_byId|]. intros r.
  apply quietly_bind; [done|]. intros rs. apply quietly_done.
Qed.

Lemma calm_show f count : quietly Inv (getAccountUpgradeRequests f count).
Proof.
  unfold getAccountUpgradeRequests. destruct (negb erp_configured); [apply quietly_done|].
  apply quietly_bind; [apply calm_list|]. intros ids. apply quietly_bind; [apply calm_fetch|].
  intros rs. apply quietly_done.
Qed.

Lemma calm_pendingUpdate bank : quietly Inv (pendingUpdate bank).
Proof.
  unfold pendingUpdate. destruct (nonempty_opt (ba_name bank)); [|apply quietly_done].
  apply quietly_bind; [apply calm_ucash|]. intros _.
  apply quietly_bind; [apply quietly_attempt, calm_caught, calm_uerp|]. intros r. apply quietly_done.
Qed.

Lemma calm_updateAccountLevel id level party : quietly Inv (updateAccountLevel id level party).
Proof.
  unfold updateAccountLevel. cbv zeta. destruct (_ && _); [apply quietly_done|].
  apply quietly_bind; [apply calm_ucash|]. intros a. apply quietly_bind.
  - apply keeps_atomic. intros w ss HI. cbv zeta. unfold usvc, ucash.
    rewrite run_focus by (done || by intros []). split; [|done].
    destruct party; [destruct (_ && _)|]; cbn [fst snd]; by repeat apply Inv_cash.
  - intros u. apply quietly_bind; [apply calm_ucash|]. intros. apply quietly_done.
Qed.

Lemma calm_capabilities a : quietly Inv (getAccountCapabilities a).
Proof.
  unfold getAccountCapabilities. apply quietly_bind; [apply calm_ucash|]. intros party.
  apply quietly_bind; [|intros; apply quietly_done]. destruct party; [|apply quietly_done].
  destruct erp_configured; [|apply quietly_done].
  apply quietly_bind; [apply quietly_attempt, calm_ucash|]. intros r. apply quietly_done.
Qed.

Lemma calm_bank_update a b d :
  (forall l w ss, Inv w ss -> Inv (set_updates l w) ss) ->
  (forall w ss, Inv w ss -> Inv (next_name w) ss) ->
  quietly Inv (createBankAccountUpdateRequest a b d).
Proof.
  intros Hu Hn. unfold createBankAccountUpdateRequest. apply quietly_bind; [apply calm_ucash|]. intros acc.
  apply quietly_bind; [apply calm_ucash|]. intros [party|]; [|apply quietly_done].
  apply quietly_bind; [apply calm_ucash|]. intros banks. destruct (find_bank _ _); [|apply quietly_done].
  destruct (details_refused _ _); [apply quietly_done|].
  apply quietly_bind; [apply calm_caught, calm_uerp|]. intros prior.
  apply quietly_bind; [apply calm_caught, calm_uerp_op; cbn; auto|]. intros name. cbv zeta.
  apply quietly_bind; [|intros; apply quietly_done].
  destruct (filter _ _); [apply quietly_done|]. apply quietly_bind; [|intros; apply quietly_done].
  apply quietly_attempt. unfold closeBankAccountUpdateRequests, setStatusForRequests.
  apply calm_caught, quietly_bind; [apply calm_uerp_op; cbn; auto|by intros [[]|]; apply quietly_done].
Qed.

Lemma calm_close names :
  (forall names w ss, Inv w ss -> Inv (set_upgrades (close_row names <$> uw_upgrades w) w) ss) ->
  quietly Inv (closeAccountUpgradeRequests names).
Proof.
  intros Hcl. unfold closeAccountUpgradeRequests, setStatusForRequests. destruct names; [apply quietly_done|].
  apply calm_caught, quietly_bind; [|by intros [[]|]; apply quietly_done]. apply calm_uerp_op.
  intros n w ss Hw. by apply Hcl.
Qed.

Lemma calm_post r :
  (forall body w ss, toErpnext r = Ok body -> Inv w ss ->
     Inv (next_name (set_upgrades (uw_upgrades w ++ [mkUpgradeRow (erp_name (uw_named w)) erp_initial_status body]) w)) ss) ->
  quietly Inv (postUpgradeRequest r).
Proof.
  intros Hp. unfold postUpgradeRequest.
  apply quietly_catch; [|by intros e; apply quietly_bind; intros; apply quietly_done].
  destruct (toErpnext r) as [body|e|e]; [|apply quietly_done..]. cbn [pbind].
  apply calm_uerp_op. intros n w ss Hw. by apply Hp.
Qed.

(** Requests for an upgrade, when posting a valid one and closing some keep the invariant. *)
Hypothesis Inv_close : forall names w ss, Inv w ss ->
  Inv (set_upgrades (close_row names <$> uw_upgrades w) w) ss.
Hypothesis Inv_post : forall a r body w ss, validate a r = [] -> toErpnext r = Ok body -> Inv w ss ->
  Inv (next_name (set_upgrades (uw_upgrades w ++ [mkUpgradeRow (erp_name (uw_named w)) erp_initial_status body]) w)) ss.

Lemma calm_create a input : quietly Inv (createUpgradeRequest a input).
Proof.
  unfold createUpgradeRequest.
  apply quietly_bind; [apply calm_ucash|]. intros acc. apply quietly_bind; [apply calm_ucash|]. intros phone.
  apply quietly_bind; [apply quietly_done|]. intros email. apply quietly_bind; [apply calm_ucash|]. intros _.
  apply quietly_bind; [apply calm_list|]. intros pending.
  apply quietly_bind; [by apply calm_close|]. intros _. cbv zeta.
  destruct (validate _ _) eqn:Hv; [|apply quietly_done].
  apply quietly_bind; [|intros name; apply quietly_bind; [apply calm_ucash|intros; apply quietly_done]].
  apply calm_post. intros body w ss Hb Hw. by eapply Inv_post.
Qed.

Lemma calm_capability a input : quietly Inv (requestCapabilityUpgrade a input).
Proof.
  unfold requestCapabilityUpgrade. apply quietly_bind; [apply calm_ucash|]. intros acc.
  apply quietly_bind; [apply calm_capabilities|]. intros c. cbv zeta.
  destruct (capability_refused c input); [apply quietly_done|apply calm_create].
Qed.
End Calm.

(** *** Upgrade requests *)

(** A request worth a review: for a level above the account's, from an account with
    a username, for one terminal at most. *)
Definition worth_review (r : AccountUpgradeRequest) : Prop :=
  aur_currentLevel r < aur_requestedLevel r /\ (exists u, nonempty_opt (aur_username r) = Some u) /\
  exists n, aur_terminalsRequested r = Some n /\ num_ltb (num_of_Z 1) n = false.

(** The account a request is for. *)
Definition asks_for (id : string) (q : account_request) : Prop :=
  match q with AskUpgrade a _ | AskCapability a _ => a = id | _ => False end.

Definition accounts_in (w : uworld) : gmap string account := w_accounts (t_base (b_top (cw_bridge (uw_cash w)))).

(** A request for the account [id], which was stored as [a] in one of the worlds [V]:
    active, and of the username and the current level of the request. *)
Definition review_of (V : uworld -> Prop) (id : string) (body : upgrade_body) : Prop :=
  exists u a aur, V u /\ accounts_in u !! id = Some a /\ a_status a = StatusActive /\
    aur_username aur = a_username a /\ aur_currentLevel aur = a_level a /\
    worth_review aur /\ toErpnext aur = Ok body.

(** [V i]: the worlds in which the [i]-th of the requests acts. *)
Section Reviewed.
Variable requests : list account_request.
Variable V : nat -> uworld -> Prop.
Variable initial : list upgrade_row.

Definition reviewed (w : uworld) : Prop :=
  forall r, r ∈ uw_upgrades w ->
    (exists r0, r0 ∈ initial /\ ur_name r = ur_name r0 /\ ur_body r = ur_body r0) \/
    (exists i q id, requests !! i = Some q /\ asks_for id q /\ review_of (V i) id (ur_body r)).

#[local] Abbreviation Reviewed := (fun w (_ : list unit) => reviewed w).

Lemma reviewed_cash c w (ss : list unit) : Reviewed w ss -> Reviewed (set_ucash c w) ss.
Proof. done. Qed.

Lemma validate_worth a r body : validate a r = [] -> toErpnext r = Ok body ->
  worth_review r /\ a_status a = StatusActive.
Proof.
  unfold validate, toErpnext, worth_review, active_check, isActive, isRequestedLevelGreater,
    checkMaxTerminals, hasUsername.
  case_bool_decide as Hs; cbn; [|done]. destruct (Z.leb_spec (aur_requestedLevel r) (aur_currentLevel r)); cbn; [done|].
  destruct (aur_terminalsRequested r) as [n|]; [|done]. destruct (num_ltb (num_of_Z 1) n) eqn:Hn; cbn; [done|].
  destruct (nonempty_opt (aur_username r)) as [u|]; cbn; [|done]. intros _ _.
  split; [|done]. split; [lia|]. split; [by exists u|by exists n].
Qed.

Lemma reviewed_close names w (ss : list unit) : Reviewed w ss ->
  Reviewed (set_upgrades (close_row names <$> uw_upgrades w) w) ss.
Proof.
  intros Hw r Hr. cbn in Hr. apply list_elem_of_fmap in Hr as (r0 & -> & Hr0).
  unfold close_row. case_bool_decide; exact (Hw r0 Hr0).
Qed.

Variable i : nat.
Variable q : account_request.
Hypothesis Hq : requests !! i = Some q.

(** The account that is read is one of those worlds. *)
Lemma yields_stored id :
  yields (V i) (fun r => match r with Ok a => exists u, V i u /\ accounts_in u !! id = Some a | _ => True end)
    (usvc (accounts_findById id)).
Proof.
  intros w Hw. cbn. destruct (accounts_findById id _) as [[a|e|e] w'] eqn:E; [|done..]. cbn.
  apply guarded_Ok in E. apply bind_Ok in E as (i' & w1 & Hi & E). unfold toObjectId in Hi.
  destruct (valid_object_id id); [|done]. injection Hi as <- <-.
  apply bind_Ok in E as (o & w2 & Hm%mongo_Ok & E). unfold read in Hm. injection Hm as Ef <-.
  destruct o as [a'|]; [|done]. unfold ret in E. injection E as -> _. by exists w.
Qed.

Lemma upholds_create id input : asks_for id q ->
  upholds (V i) reviewed (fun _ => True) (createUpgradeRequest id input).
Proof.
  intros Ha. pose proof reviewed_cash as Hc. unfold createUpgradeRequest.
  eapply upholds_bind; [apply upholds_yields; [by apply calm_ucash|apply yields_stored]|].
  intros a (u & Hu & Hacc).
  do 2 (apply upholds_after; [first [by apply calm_ucash|apply quietly_done]|intros ?]).
  apply upholds_after; [by apply calm_ucash|]. intros _.
  apply upholds_after; [by apply calm_list|]. intros pending.
  apply upholds_after; [by apply calm_close; [|apply reviewed_close]|]. intros _. cbv zeta.
  destruct (validate _ _) eqn:Hv; [|done]. apply upholds_quietly, quietly_bind.
  - apply calm_post; [done|]. intros body w ss Hb Hw r Hr. cbn in Hr.
    apply elem_of_app in Hr as [Hr|Hr]; [by apply Hw|]. apply list_elem_of_singleton in Hr as ->. right.
    destruct (validate_worth _ _ _ Hv Hb) as [Hworth Hs]. exists i, q, id. split_and!; [done..|].
    exists u, a. eexists. split_and!; [done..| | | |exact Hb]; done.
  - intros name. apply quietly_bind; [by apply calm_ucash|intros; apply quietly_done].
Qed.

Lemma upholds_handle : upholds (V i) reviewed (fun _ => True) (handle q).
Proof.
  pose proof reviewed_cash as Hc. pose proof upholds_create as Hcr.
  destruct q as [a input|a input|a b d|a level party|f count|bank]; cbn [handle].
  - eapply upholds_bind; [by apply Hcr|done].
  - eapply upholds_bind; [|done]. unfold requestCapabilityUpgrade.
    apply upholds_after; [by apply calm_ucash|]. intros acc.
    apply upholds_after; [by apply calm_capabilities|]. intros c. cbv zeta.
    destruct (capability_refused c input); [done|by apply Hcr].
  - apply upholds_quietly, quietly_bind; [|intros; apply quietly_done]. by apply calm_bank_update.
  - apply upholds_quietly, quietly_bind; [|intros; apply quietly_done]. by apply calm_updateAccountLevel.
  - apply upholds_quietly, quietly_bind; [|intros; apply quietly_done]. by apply calm_show.
  - apply upholds_quietly, quietly_bind; [|intros; apply quietly_done]. by apply calm_pendingUpdate.
Qed.
End Reviewed.
End Requests.

(** C39: whatever is asked of the accounts at the same time, in any interleaving, and
    however ERPNext and the database fail, every upgrade request that reaches the
    operators was made by one of the requests, for an account that was active and
    has a username; the current level it names is the one the account had when
    that request was served, the level it asks for is above that one, and it asks
    for one terminal at most. *)
Theorem upgrades_worth_review `{X : UpgradeExternal} (requests : list account_request) (sched : list nat)
    (w : uworld) (r : upgrade_row) :
  let pool := handle <$> requests in
  r ∈ uw_upgrades (exec sched pool w).2 ->
  (exists r0, r0 ∈ uw_upgrades w /\ ur_name r = ur_name r0 /\ ur_body r = ur_body r0) \/
  (exists i q id, requests !! i = Some q /\ asks_for id q /\
     review_of (acts sched pool w i) id (ur_body r)).
Proof.
  intros pool. refine (exec_upholds (acts sched pool w) (reviewed requests (acts sched pool w) (uw_upgrades w))
    (fun _ => True) sched pool w _ _ (fun i u Hu => Hu) r).
  - intros r' Hr'. left. eauto.
  - intros i p Hp. apply list_lookup_fmap_Some in Hp as (q & -> & Hq). by apply upholds_handle.
Qed.

(** ** A request for new bank details is never lost *)

Section Updates.
Context `{L : UpgradeLaws}.

(** What a process knows: the open requests of a bank account it saw, and then
    the number of the request it made. *)
Inductive update_state := Looking | Seen (bank : string) (names : list string)
| Made (bank : string) (names : list string) (m : nat).

(** Names of requests for a bank account, given before [m]. *)
Definition names_of (bank : string) (names : list string) (m : nat) (w : uworld) : Prop :=
  forall n, n ∈ names -> (exists k, (k < m)%nat /\ n = erp_name k) /\
    exists r, r ∈ uw_updates w /\ bur_name r = n /\ bur_bankAccountId r = bank.

Definition remembers (g : update_state) (w : uworld) : Prop :=
  match g with
  | Looking => True
  | Seen bank names => names_of bank names (uw_named w) w
  | Made bank names m => (m < uw_named w)%nat /\ names_of bank names m w
  end.

(** Requests have names of their own, given by ERPNext. *)
Definition named_apart (w : uworld) : Prop :=
  NoDup (bur_name <$> uw_updates w) /\
  forall r, r ∈ uw_updates w -> exists k, (k < uw_named w)%nat /\ bur_name r = erp_name k.

(** The bank account has an open request no older than those made for it. *)
Definition covered (bank : string) (ss : list update_state) (w : uworld) : Prop :=
  exists r j, r ∈ uw_updates w /\ open_update bank r = true /\ bur_name r = erp_name j /\
    forall i names m, ss !! i = Some (Made bank names m) -> (m <= j)%nat.

Definition guarded_by (B : string -> Prop) (w : uworld) (ss : list update_state) : Prop :=
  named_apart w /\ (forall i g, ss !! i = Some g -> remembers g w) /\
  forall bank, B bank -> covered bank ss w.

Variable B : string -> Prop.

Lemma guarded_cash c w ss : guarded_by B w ss -> guarded_by B (set_ucash c w) ss.
Proof. done. Qed.

(** Nothing is forgotten when requests are added or closed. *)
Lemma names_of_mono bank names m w w' :
  (forall r, r ∈ uw_updates w -> exists r', r' ∈ uw_updates w' /\ bur_name r' = bur_name r /\
     bur_bankAccountId r' = bur_bankAccountId r) ->
  names_of bank names m w -> names_of bank names m w'.
Proof.
  intros Hr Hn n Hin. destruct (Hn n Hin) as [Hk (r & Hin' & <- & <-)]. split; [done|].
  destruct (Hr r Hin') as (r' & Hr' & E1 & E2). by exists r'.
Qed.

Lemma remembers_mono g w w' :
  (uw_named w <= uw_named w')%nat ->
  (forall r, r ∈ uw_updates w -> exists r', r' ∈ uw_updates w' /\ bur_name r' = bur_name r /\
     bur_bankAccountId r' = bur_bankAccountId r) ->
  remembers g w -> remembers g w'.
Proof.
  intros Hle Hr. destruct g as [|bank names|bank names m]; cbn; [done| |].
  - intros Hn%(names_of_mono _ _ _ _ w'); [|done]. intros n Hin. destruct (Hn n Hin) as [(k & Hk & ->) Hrow].
    split; [|done]. exists k. split; [lia|done].
  - intros [Hm Hn]. split; [lia|]. by eapply names_of_mono.
Qed.

(** A new request, of which the process that made it may learn. *)
Definition new_update (r : BankAccountUpdateRequest) (w : uworld) : uworld :=
  next_name (set_updates (uw_updates w ++
    [mkUpdateRequest (erp_name (uw_named w)) (bur_party r) (bur_bankAccountId r) (bur_status r)
       (bur_newBankAccount r)]) w).

Lemma new_update_keeps r w r0 : r0 ∈ uw_updates w -> r0 ∈ uw_updates (new_update r w).
Proof. intros. apply elem_of_app. by left. Qed.

Lemma named_new r w : named_apart w -> named_apart (new_update r w).
Proof.
  intros [Hnd Hk]. split.
  - unfold new_update. cbn. rewrite fmap_app. cbn. apply NoDup_app. split; [done|]. split; [|apply NoDup_singleton].
    intros n Hn Hn'. apply list_elem_of_singleton in Hn' as ->. apply list_elem_of_fmap in Hn as (r0 & E & Hr0).
    destruct (Hk r0 Hr0) as (k & Hlt & Ek). rewrite Ek in E. apply erp_name_inj in E. lia.
  - intros r0 Hr0. cbn in Hr0. apply elem_of_app in Hr0 as [Hr0|Hr0].
    + destruct (Hk r0 Hr0) as (k & Hlt & Ek). exists k. split; [cbn; lia|done].
    + apply list_elem_of_singleton in Hr0 as ->. exists (uw_named w). split; [cbn; lia|done].
Qed.

Lemma guarded_new r w ss : guarded_by B w ss -> guarded_by B (new_update r w) ss.
Proof.
  intros (Hn & Hg & Hc). split; [by apply named_new|]. split.
  - intros i g Hi. apply (remembers_mono _ w); [cbn; lia| |by apply (Hg i)].
    intros r0 Hr0. exists r0. split; [by apply new_update_keeps|done].
  - intros bank Hb. destruct (Hc bank Hb) as (r0 & j & Hr0 & Ho & Hj & Hm). exists r0, j.
    split; [by apply new_update_keeps|done].
Qed.

Lemma guarded_made r w ss i names :
  bur_status r = RequestPending -> guarded_by B w ss -> ss !! i = Some (Seen (bur_bankAccountId r) names) ->
  guarded_by B (new_update r w) (<[i := Made (bur_bankAccountId r) names (uw_named w)]> ss).
Proof.
  intros Hp HI Hi. destruct (guarded_new r w ss HI) as (Hn & Hg & Hc). destruct HI as (_ & Hold & _).
  split; [done|]. split.
  - intros j g Hj. destruct (decide (i = j)) as [<-|Hne].
    + rewrite list_lookup_insert_eq in Hj by (by eapply lookup_lt_Some). injection Hj as <-. split; [cbn; lia|].
      apply (names_of_mono _ _ _ w); [|apply (Hold i _ Hi)]. intros r0 Hr0. exists r0. split; [by apply new_update_keeps|done].
    + rewrite list_lookup_insert_ne in Hj by done. by apply (Hg j).
  - intros bank Hb. destruct (decide (bank = bur_bankAccountId r)) as [->|Hne].
    + eexists _, (uw_named w). split; [apply elem_of_app; right; by apply list_elem_of_singleton|].
      split; [unfold open_update; cbn; by rewrite Hp, bool_decide_true|]. split; [done|].
      intros j ns m Hj. destruct (decide (i = j)) as [<-|Hij].
      * rewrite list_lookup_insert_eq in Hj by (by eapply lookup_lt_Some). injection Hj as <- <-. done.
      * rewrite list_lookup_insert_ne in Hj by done. destruct (Hold j _ Hj) as [Hm _]. lia.
    + destruct (Hc bank Hb) as (r0 & j0 & Hr0 & Ho & Hj0 & Hm). exists r0, j0. split_and!; try done.
      intros j ns m Hj. destruct (decide (i = j)) as [<-|Hij].
      * rewrite list_lookup_insert_eq in Hj by (by eapply lookup_lt_Some). congruence.
      * rewrite list_lookup_insert_ne in Hj by done. by eapply Hm.
Qed.

(** Closing older requests of the same bank account, in whole or in part. *)
Lemma guarded_close names closed m bank w ss i :
  guarded_by B w ss -> ss !! i = Some (Made bank names m) -> (forall n, n ∈ closed -> n ∈ names) ->
  guarded_by B (set_updates (close_update closed <$> uw_updates w) w) ss.
Proof.
  intros (Hn & Hg & Hc) Hi Hsub. destruct (Hg i _ Hi) as [Hm Hnames].
  assert (forall r, bur_name (close_update closed r) = bur_name r /\
    bur_bankAccountId (close_update closed r) = bur_bankAccountId r) as Hclose.
  { intros r. unfold close_update. by case_bool_decide. }
  split; [|split].
  - destruct Hn as [Hnd Hk]. split.
    + cbn. rewrite <- list_fmap_compose. erewrite list_fmap_ext; [exact Hnd|]. intros. apply Hclose.
    + intros r Hr. apply list_elem_of_fmap in Hr as (r0 & -> & Hr0). destruct (Hclose r0) as [-> _]. by apply Hk.
  - intros j g Hj. apply (remembers_mono _ w); [done| |by apply (Hg j)].
    intros r Hr. exists (close_update closed r). destruct (Hclose r). split; [|done]. by apply list_elem_of_fmap_2.
  - intros b Hb. destruct (Hc b Hb) as (r & j & Hr & Ho & Hj & Hlast). exists r, j. split; [|done].
    replace r with (close_update closed r); [by apply list_elem_of_fmap_2|].
    unfold close_update. case_bool_decide as Hin; [|done]. exfalso. apply Hsub in Hin.
    destruct (Hnames _ Hin) as [(k & Hk & Ek) (r' & Hr' & Er' & Eb)].
    rewrite Hj in Ek. apply erp_name_inj in Ek as ->.
    unfold open_update in Ho. apply bool_decide_eq_true in Ho as [Hbank _].
    assert (r' = r) as ->.
    { destruct Hn as [Hnd _]. apply list_elem_of_lookup in Hr as [x Hx], Hr' as [y Hy].
      assert (x = y) as ->; [|congruence]. eapply (NoDup_lookup _ _ _ (bur_name r) Hnd);
        rewrite list_lookup_fmap; [by rewrite Hx|rewrite Hy; cbn; congruence]. }
    rewrite Eb in Hbank. subst b. specialize (Hlast i _ _ Hi). lia.
Qed.

#[local] Abbreviation gsafe i c g := (safe (guarded_by B) (fun _ (_ : outcome error _) => True) i c g).

Lemma gsafe_quiet {A} i (c : UApp A) g : quietly (guarded_by B) c -> gsafe i c g.
Proof. intros Hc. eapply safe_mono; [|apply Hc]. done. Qed.

(** A listing of the open requests. *)
Lemma open_requests_safe i bank :
  safe (guarded_by B) (fun g r => match r with
    | Ok rows => g = Seen bank (bur_name <$> rows) | _ => True end) i
    (getOpenBankAccountUpdateRequestsForAccount bank) Looking.
Proof.
  unfold getOpenBankAccountUpdateRequestsForAccount, erp_caught.
  eapply safe_catch with (Q := fun g r => match r with
    | Ok rows => g = Seen bank (bur_name <$> rows) | _ => True end); [|by intros g [] Hg].
  apply safe_atomic. intros w ss HI Hi. cbv zeta. set (w1 := set_ucash _ w).
  assert (guarded_by B w1 ss) as Hw1 by exact HI.
  destruct (erp_fault _) as [[[] e]|]; cbn [fst snd];
    [exists Looking; by rewrite list_insert_id..|].
  eexists. split; [|done]. destruct Hw1 as (Hn & Hg & Hc). split; [done|]. split.
  - intros j g Hj. destruct (decide (i = j)) as [<-|Hne].
    + rewrite list_lookup_insert_eq in Hj by (by eapply lookup_lt_Some). injection Hj as <-.
      intros n Hin. apply list_elem_of_fmap in Hin as (r & -> & Hr). apply elem_of_take in Hr as (k & Hr & _).
      apply list_elem_of_lookup_2 in Hr. rewrite elem_of_reverse in Hr. apply list_elem_of_filter in Hr as [Ho Hr].
      unfold open_update in Ho. apply bool_decide_eq_true in Ho as [Hb _].
      destruct Hn as [_ Hk]. destruct (Hk r Hr) as (q & Hq & Eq). split; [by exists q|]. by exists r.
    + rewrite list_lookup_insert_ne in Hj by done. by apply (Hg j).
  - intros b Hb. destruct (Hc b Hb) as (r & j & Hr & Ho & Hj & Hm). exists r, j. split_and!; try done.
    intros k ns m Hk. destruct (decide (i = k)) as [<-|Hne].
    + rewrite list_lookup_insert_eq in Hk by (by eapply lookup_lt_Some). done.
    + rewrite list_lookup_insert_ne in Hk by done. by eapply Hm.
Qed.

Lemma post_update_safe i r names : bur_status r = RequestPending ->
  safe (guarded_by B) (fun g o => match o with
    | Ok name => exists m, g = Made (bur_bankAccountId r) names m | _ => True end) i
    (postBankAccountUpdateRequest r) (Seen (bur_bankAccountId r) names).
Proof.
  intros Hp. unfold postBankAccountUpdateRequest, erp_caught.
  eapply safe_catch with (Q := fun g o => match o with
    | Ok name => exists m, g = Made (bur_bankAccountId r) names m | _ => True end); [|by intros g [] Hg].
  apply safe_atomic. intros w ss HI Hi. cbv zeta. set (w1 := set_ucash _ w).
  assert (guarded_by B w1 ss) as Hw1 by exact HI.
  destruct (erp_fault _) as [[[] e]|]; cbn [fst snd].
  - eexists. rewrite list_insert_id by done. split; [|done]. exact (guarded_new r w1 ss Hw1).
  - eexists. by rewrite list_insert_id.
  - eexists. split; [exact (guarded_made r w1 ss i names Hp Hw1 Hi)|]. eauto.
Qed.

Lemma close_updates_safe i bank names m closed : (forall n, n ∈ closed -> n ∈ names) ->
  gsafe i (closeBankAccountUpdateRequests closed) (Made bank names m).
Proof.
  intros Hsub. unfold closeBankAccountUpdateRequests, setStatusForRequests.
  destruct closed as [|c cs] eqn:Hc; [done|]. rewrite <- Hc in *.
  unfold erp_caught. eapply safe_catch with (Q := fun _ _ => True); [|by intros g [] _].
  eapply safe_bind with (Q := fun _ _ => True); [|by intros g [[[]|]| |] _].
  apply safe_atomic. intros w ss HI Hi. cbv zeta. set (w1 := set_ucash _ w). set (n := t_erp_ops _).
  assert (guarded_by B w1 ss) as Hw1 by exact HI.
  assert (guarded_by B (set_updates (close_update (filter (fun i => i ∉ default [] (fst <$> erp_failed_docs n closed)) closed)
    <$> uw_updates w1) w1) ss) as Hw2.
  { eapply guarded_close; [done..|]. intros x [_ Hx]%list_elem_of_filter. auto. }
  exists (Made bank names m). rewrite list_insert_id by done.
  destruct (erp_fault n) as [[[] e]|]; by split.
Qed.

Lemma update_safe i a bank d : gsafe i (createBankAccountUpdateRequest a bank d) Looking.
Proof.
  pose proof guarded_cash as Hcash. unfold createBankAccountUpdateRequest.
  eapply safe_quietly; [by apply calm_ucash| |done..]. intros acc.
  eapply safe_quietly; [by apply calm_ucash| |done..]. intros [party|]; [|done].
  eapply safe_quietly; [by apply calm_ucash| |done..]. intros banks.
  destruct (find_bank bank banks) as [current|]; [|done]. destruct (details_refused current d); [done|].
  eapply safe_bind; [apply open_requests_safe|]. intros g [prior|e|e] Hg; [|done..]. subst g.
  set (r := mkUpdateRequest "" party bank RequestPending d).
  eapply safe_bind; [by apply (post_update_safe i r)|]. intros g [name|e|e] Hg; [|done..].
  destruct Hg as [m ->]. cbv zeta.
  eapply safe_bind with (Q := fun _ _ => True); [|by intros g [] _].
  destruct (filter _ _) as [|p ps] eqn:Hf; [done|]. rewrite <- Hf.
  eapply safe_bind with (Q := fun _ _ => True); [|by intros g [] _]. apply safe_attempt.
  eapply safe_mono; [|eapply close_updates_safe]; [done|]. intros n Hn. by apply list_elem_of_filter in Hn as [_ Hn].
Qed.

Lemma guarded_upgrades l w ss : guarded_by B w ss -> guarded_by B (set_upgrades l w) ss.
Proof. done. Qed.

Lemma guarded_next w ss : guarded_by B w ss -> guarded_by B (next_name w) ss.
Proof.
  intros ([Hnd Hk] & Hg & Hc). split; [|split; [|done]].
  - split; [done|]. intros r Hr. destruct (Hk r Hr) as (k & Hlt & E). exists k. split; [cbn; lia|done].
  - intros i g Hi. apply (remembers_mono _ w); [cbn; lia| |by apply (Hg i)]. intros r Hr. by exists r.
Qed.

Lemma handle_safe i r : gsafe i (handle r) Looking.
Proof.
  pose proof guarded_cash as Hcash.
  assert (forall names w ss, guarded_by B w ss ->
    guarded_by B (set_upgrades (close_row names <$> uw_upgrades w) w) ss) as Hclose by (intros; by apply guarded_upgrades).
  assert (forall (a : account) (q : AccountUpgradeRequest) body w ss,
    validate a q = [] -> toErpnext q = Ok body -> guarded_by B w ss ->
    guarded_by B (next_name (set_upgrades
      (uw_upgrades w ++ [mkUpgradeRow (erp_name (uw_named w)) erp_initial_status body]) w)) ss) as Hpost
    by (intros; by apply guarded_next, guarded_upgrades).
  destruct r as [a input|a input|a b d|a level party|f count|bank]; cbn [handle].
  3: by eapply safe_bind; [apply update_safe|]; intros g [] _.
  all: apply gsafe_quiet, quietly_bind; [|intros; apply quietly_done].
  - by apply calm_create.
  - by apply calm_capability.
  - by apply calm_updateAccountLevel.
  - by apply calm_show.
  - by apply calm_pendingUpdate.
Qed.
End Updates.

(** C17: a bank account with an open request for new details has one at every moment,
    whatever requests run at the same time, in any interleaving, and whichever
    calls of ERPNext fail, with or without their effect: a request is closed only
    once a later one for the same bank account is there. *)
Theorem update_never_lost `{L : UpgradeLaws} (requests : list account_request) (sched : list nat)
    (w : uworld) (bank : string) :
  named_apart w ->
  (exists r, r ∈ uw_updates w /\ open_update bank r = true) ->
  exists r, r ∈ uw_updates (exec sched (handle <$> requests) w).2 /\ open_update bank r = true.
Proof.
  intros Hn (r & Hr & Ho).
  assert (pool_safe (guarded_by (fun b => b = bank)) (fun _ (_ : outcome error unit) => True) (handle <$> requests) w) as Hs.
  { exists (replicate (length requests) Looking). split.
    - split; [done|]. split; [by intros i g [-> _]%lookup_replicate|]. intros b ->.
      destruct Hn as [_ Hk]. destruct (Hk r Hr) as (j & _ & Hj). exists r, j. split_and!; try done.
      by intros i names m [E _]%lookup_replicate.
    - split; [by rewrite length_replicate, length_fmap|]. intros i p s Hp [-> _]%lookup_replicate.
      apply list_lookup_fmap_Some in Hp as (q & -> & _). apply handle_safe. }
  apply (exec_safe _ _ sched) in Hs as (ss & (_ & _ & Hc) & _).
  destruct (Hc bank eq_refl) as (r' & _ & Hr' & Ho' & _). by exists r'.
Qed.

(** ** An upgrade request replaces the pending ones *)

Section Supersede.
Context `{L : UpgradeLaws}.

Definition pending_of (username : option string) (rows : list upgrade_row) : list upgrade_row :=
  filter (fun r => filters_match (mkFilters (Some username) (Some [RequestPending])) r = true) rows.

Lemma run_ucash {A} (c : CApp A) w o w' : run (ucash c) w = (o, w') ->
  o = (run c (uw_cash w)).1 /\ uw_upgrades w' = uw_upgrades w /\ uw_named w' = uw_named w.
Proof. unfold ucash. rewrite run_focus by (done || by intros []). by intros [= <- <-]. Qed.

Lemma run_uerp {A} (op : nat -> uworld -> A * uworld) w a w' : run (uerp op) w = (Ok a, w') ->
  exists n w1, uw_upgrades w1 = uw_upgrades w /\ uw_named w1 = uw_named w /\ op n w1 = (a, w').
Proof.
  unfold uerp. rewrite run_atomic. cbv zeta. set (n := t_erp_ops _). set (w1 := set_ucash _ w).
  destruct (erp_fault n) as [[[] e]|]; [done..|]. destruct (op n w1) as [a' w2] eqn:E. intros [= <- <-].
  by exists n, w1.
Qed.

(** A handler of errors that fails itself. *)
Lemma run_catch_Ok {A} (c : UApp A) h w a w' :
  (forall e w0 a0 w1, run (h e) w0 <> (Ok a0, w1)) -> run (pcatch c h) w = (Ok a, w') -> run c w = (Ok a, w').
Proof.
  intros Hh. rewrite run_catch. unfold catch. destruct (run c w) as [[x|e|e] w1]; [done..|].
  intros E. by apply Hh in E.
Qed.

Lemma run_caught {A} cls (c : UApp A) w a w' : run (erp_caught cls c) w = (Ok a, w') -> run c w = (Ok a, w').
Proof. by apply run_catch_Ok. Qed.

Lemma run_list f w l w' : run (getAccountUpgradeRequestList f) w = (Ok l, w') ->
  uw_upgrades w' = uw_upgrades w /\ uw_named w' = uw_named w /\
  l = ur_name <$> take page_length (reverse (filter (fun r => filters_match f r = true) (uw_upgrades w))).
Proof. intros E%run_caught. apply run_uerp in E as (n & w1 & E1 & E2 & [= <- <-]). by rewrite E1. Qed.

(** Closed without an error, all of them are closed. *)
Lemma run_close names w u w' : run (closeAccountUpgradeRequests names) w = (Ok u, w') ->
  uw_upgrades w' = close_row names <$> uw_upgrades w /\ uw_named w' = uw_named w.
Proof.
  unfold closeAccountUpgradeRequests, setStatusForRequests. destruct names as [|x xs] eqn:En.
  - intros [= _ <-]. split; [|done]. rewrite <- (list_fmap_id (uw_upgrades w)) at 1.
    apply list_fmap_ext. intros i r _. unfold close_row. by rewrite bool_decide_false by apply not_elem_of_nil.
  - rewrite <- En. intros E%run_caught. apply run_bind_Ok in E as (failed & w1 & E1 & E2).
    apply run_uerp in E1 as (n & w2 & U & N & [= Ef <-]). destruct failed as [[]|]; [done|].
    cbn in E2. injection E2 as _ <-. rewrite Ef. cbn. rewrite U, N. split; [|done].
    replace (filter (fun i => i ∉ @nil string) names) with names; [done|]. symmetry.
    clear. induction names as [|y ys IH]; [done|]. rewrite filter_cons_True by apply not_elem_of_nil. by rewrite IH.
Qed.

Lemma close_all u rows :
  (length (pending_of u rows) <= page_length)%nat ->
  pending_of u (close_row (ur_name <$> take page_length (reverse (pending_of u rows))) <$> rows) = [].
Proof.
  intros Hl. rewrite take_ge by (by rewrite length_reverse). unfold pending_of at 1.
  apply elem_of_nil_inv. intros r [Hm Hr]%list_elem_of_filter. apply list_elem_of_fmap in Hr as (r0 & -> & Hr0).
  unfold close_row in Hm. case_bool_decide as Hin.
  { apply andb_true_iff in Hm as [_ Hm%bool_decide_eq_true]. by apply list_elem_of_singleton in Hm. }
  apply Hin. apply list_elem_of_fmap_2, elem_of_reverse, list_elem_of_filter. done.
Qed.

Lemma run_post_upgrade r w name w' : run (postUpgradeRequest r) w = (Ok name, w') ->
  exists body, toErpnext r = Ok body /\
    uw_upgrades w' = uw_upgrades w ++ [mkUpgradeRow name RequestPending body].
Proof.
  unfold postUpgradeRequest. intros E. apply run_catch_Ok in E; [|by intros e w0 a0 w1; destruct (toErpnext r)].
  destruct (toErpnext r) as [body|e|e]; [|done..]. exists body. split; [done|]. cbn [pbind] in E.
  apply run_uerp in E as (n & w1 & U & N & [= <- <-]). cbn. by rewrite U, erp_initial_pending.
Qed.

Lemma run_find_account id w acc w' : run (usvc (accounts_findById id)) w = (Ok acc, w') ->
  w_accounts (t_base (b_top (cw_bridge (uw_cash w)))) !! id = Some acc /\
  uw_upgrades w' = uw_upgrades w /\ uw_named w' = uw_named w.
Proof.
  intros E. apply run_ucash in E as (Eo & Hu & Hn). split; [|done]. cbn in Eo.
  set (b := t_base (b_top (cw_bridge (uw_cash w)))) in *.
  destruct (accounts_findById id b) as [o b'] eqn:Ea. cbn in Eo. subst o.
  apply guarded_Ok in Ea. apply bind_Ok in Ea as (i & b1 & Ei & Ea). unfold toObjectId in Ei.
  destruct (valid_object_id id); [|done]. unfold ret in Ei. injection Ei as <- <-.
  apply bind_Ok in Ea as (r & b2 & Er%mongo_Ok & Ea). unfold read in Er. injection Er as Er <-.
  destruct r as [a|]; [|done]. unfold ret in Ea. injection Ea as -> _. exact Er.
Qed.
End Supersede.

(** An upgrade request that is accepted, with nothing else running, is the only
    pending request of its user: those pending before, up to the twenty that a
    listing shows, are closed, and the new one has the level and the details
    asked for. *)
Theorem upgrade_supersedes `{L : UpgradeLaws} (accountId : string) (input : UpgradeRequest) (w w' : uworld)
    (s : UpgradeStatusResponse) (acc : account) :
  w_accounts (t_base (b_top (cw_bridge (uw_cash w)))) !! accountId = Some acc ->
  (length (pending_of (a_username acc) (uw_upgrades w)) <= 20)%nat ->
  run (createUpgradeRequest accountId input) w = (Ok s, w') ->
  us_status s = RequestPending /\ a_level acc < up_level input /\
  exists row, pending_of (a_username acc) (uw_upgrades w') = [row] /\ ur_name row = us_id s /\
    ub_requested_level (ur_body row) = levelToErpString (up_level input) /\
    ub_full_name (ur_body row) = up_fullName input /\
    ub_account_number (ur_body row) = bd_bank_account_no <$> up_bankAccount input.
Proof.
  intros Hacc Hlen E. unfold createUpgradeRequest in E.
  apply run_bind_Ok in E as (a & w1 & (Ha & U1 & _)%run_find_account & E).
  assert (a = acc) as -> by congruence.
  apply run_bind_Ok in E as (phone & w2 & (_ & U2 & _)%run_ucash & E).
  apply run_bind_Ok in E as (email & w3 & Em & E). cbn in Em. injection Em as _ <-.
  apply run_bind_Ok in E as (? & w4 & (_ & U4 & _)%run_ucash & E).
  apply run_bind_Ok in E as (names & w5 & (U5 & _ & Hnames)%run_list & E).
  apply run_bind_Ok in E as (? & w6 & (U6 & _)%run_close & E). cbv zeta in E.
  destruct (validate _ _) eqn:Hv in E; [|done].
  apply run_bind_Ok in E as (name & w7 & (body & Hb & U7)%run_post_upgrade & E).
  apply run_bind_Ok in E as (? & w8 & (_ & U8 & _)%run_ucash & E). cbn in E. injection E as <- <-.
  destruct (validate_worth _ _ _ Hv Hb) as [(Hlevel & _ & _) _]. cbn in Hlevel.
  split; [done|]. split; [done|]. unfold toErpnext in Hb. cbn in Hb.
  destruct (up_terminalsRequested input); [|done]. injection Hb as Hb.
  exists (mkUpgradeRow name RequestPending body).
  split; [|rewrite <- Hb; split_and!; reflexivity]. rewrite U8, U7. unfold pending_of at 1. rewrite filter_app.
  assert (uw_upgrades w4 = uw_upgrades w) as E4 by congruence.
  rewrite U6, U5, Hnames, E4. fold (pending_of (a_username acc) (uw_upgrades w)).
  fold (pending_of (a_username acc) (close_row (ur_name <$> take page_length
    (reverse (pending_of (a_username acc) (uw_upgrades w)))) <$> uw_upgrades w)).
  rewrite close_all by done. rewrite filter_cons_True; [done|]. rewrite <- Hb. unfold filters_match. cbn.
  by rewrite bool_decide_true.
Qed.
