(* ===== verification/Simulation.v ===== *)
(** * A simulated outside world

    A concrete instance of the parameters ([World.External]): a database that
    never fails, a clock that counts, and an IBEX that keeps balances in units
    of 1/64 dollar, charges one unit for a payment out of a wallet of
    [fee_payers] and refuses overdrafts. On it one cutover run is executed from
    preparation to completion and back: the examples show that the model runs
    end to end, and the witnesses that the hypotheses of the theorems hold of
    real runs. *)

From stdpp Require Import base gmap list strings sorting.
From Stdlib Require Import ZArith Lia.
From S2P Require Import Prelude JsStrings JsNumbers Errors BigintMoney MoneyAmounts.
From S2P Require Import CutoverStateMachine CutoverAmounts World Ibex Repos CutoverRepo.
From S2P Require Import CutoverServices CutoverWorker CutoverRunner CutoverRollback CutoverRetry.
From S2P Require Import CutoverLifecycle CutoverPrepare CutoverRouting.

Open Scope Z_scope.

(** ** IBEX *)

Record sim_ibex := mkSim {
  sim_balances : gmap string Z;
  sim_invoices : list (string * option Z);
  sim_count : Z
}.

(** Dollars as text, in units of 1/64 dollar. *)
Definition units_of (dollars : string) : Z :=
  match scale_decimal dollars 6 false with
  | Ok s => digits_val s * 64 / 1000000
  | _ => 0
  end.

Definition sim_invoice_text (n : Z) : string := "lnsim" +:+ bigint_toString n.

Definition sim_getAccountDetails (a : string) (s : sim_ibex) : sdk_result (option js_num) * sim_ibex :=
  (Resp ((fun n => JsNum n (-6)) <$> sim_balances s !! a), s).

Definition sim_addInvoice (b : invoice_body) (s : sim_ibex) : sdk_result (option string) * sim_ibex :=
  let n := Z.of_nat (length (sim_invoices s)) in
  let amount := match ib_amount b with
                | Some t => let u := units_of t in if u =? 0 then None else Some u
                | None => None
                end in
  (Resp (Some (sim_invoice_text n)),
   mkSim (sim_balances s) (sim_invoices s ++ [(ib_accountId b, amount)]) (sim_count s)).

Definition find_invoice (text : string) (l : list (string * option Z)) : option (string * option Z) :=
  snd <$> List.find (fun '(i, _) => bool_decide (sim_invoice_text (Z.of_nat i) = text))
    (imap pair l).

Definition fee_payers : list string := ["usd-wallet"; "usdt-wallet"].

Definition sim_payInvoice (sender text : string) (amount : option string) (s : sim_ibex) :
    sdk_result pay_response * sim_ibex :=
  match find_invoice text (sim_invoices s) with
  | None => (RespError (ApiError "unknown invoice" 404 None None), s)
  | Some (recipient, fixed) =>
      let u := match amount with Some t => units_of t | None => default 0 fixed end in
      let fee := if bool_decide (sender ∈ fee_payers) then 1 else 0 in
      let have := default 0 (sim_balances s !! sender) in
      if have <? u then (RespError (ApiError "insufficient balance" 400 None None), s)
      else
        let bs := <[sender := have - u]> (sim_balances s) in
        (Resp (mkPayResponse (Some ("tx" +:+ bigint_toString (sim_count s))) (Some 2) None (Some 2)
                 None None),
         mkSim (<[recipient := default 0 (bs !! recipient) + u - fee]> bs) (sim_invoices s)
           (sim_count s + 1))
  end.

Definition sim_parse (text : string) : outcome error decoded_request :=
  Ok (mkDecoded (Some "secret") None 1000000 false None None "hash" "node").

(** Order by date. *)
Definition older (m m' : migration) : Prop := m_updatedAt m <= m_updatedAt m'.
#[global] Instance older_dec : RelDecision older.
Proof. intros m m'. unfold older. apply _. Defined.
#[global] Instance older_total : Total older.
Proof. intros m m'. unfold older. lia. Qed.
#[global] Instance older_trans : Transitive older.
Proof. intros m1 m2 m3. unfold older. lia. Qed.

#[global] Instance simulated : External := {|
  ibex_state := sim_ibex;
  sdk_getAccountDetails := sim_getAccountDetails;
  sdk_addInvoice := sim_addInvoice;
  sdk_payInvoiceV2 := sim_payInvoice;
  sdk_createAccount name currency s := (Resp (Some ("ibex-" +:+ name)), s);
  sdk_createLnurlPay a c s := (Resp (Some "lnurl"), s);
  parsePaymentRequest := sim_parse;
  mongo_fault _ := None;
  sort_updatedAt := merge_sort older;
  valid_object_id _ := true;
  clock n := Z.of_nat n;
  uuid n := "id" +:+ bigint_toString (Z.of_nat n);
  funder_resolver := Ok "treasury-usd";
  mockIbexEnabled := false
|}.

#[global] Instance simulated_laws : ExternalLaws.
Proof.
  split.
  - intros l. apply merge_sort_Permutation.
  - intros l. apply (Sorted_merge_sort older).
Qed.

(** ** The scenario *)

Definition alice : account := mkAccount "alice" "alice-uuid" StatusActive "usd-wallet"
  (Some "alice") 1 None "alice-kratos" None None None 0.
Definition treasurer : account := mkAccount "flash" "flash-uuid" StatusLocked "treasury-usd"
  None 3 (Some "bankowner") "flash-kratos" None None None 0.

(** Alice holds 12.50 dollars, the treasury a hundred. *)
Definition world0 : world :=
  mkWorld _ None ∅ {["alice" := alice; "flash" := treasurer]}
    [mkWallet "usd-wallet" "alice" Checking Usd None;
     mkWallet "usdt-wallet" "alice" Checking Usdt None;
     mkWallet "treasury-usd" "flash" Checking Usd None;
     mkWallet "treasury-usdt" "flash" Checking Usdt None]
    (mkSim {["usd-wallet" := 800; "usdt-wallet" := 0; "treasury-usd" := 6400;
             "treasury-usdt" := 6400]} [] 0)
    [] 0 0 0 None None.

Definition runtime : MigrationServices := createCashWalletMigrationRuntimeServices.

Definition value {A} (d : A) (r : outcome error A * world) : A :=
  match r.1 with Ok a => a | _ => d end.

Lemma run_Ok {A} (d : A) (r : outcome error A * world) :
  is_ok r.1 = true -> r = (Ok (value d r), r.2).
Proof. by destruct r as [[] ?]. Qed.

(** The worlds of the run. *)
Definition prepared : world := (preparePrimaryCashWalletCutover 1 "run" None world0).2.
Definition started_ : world := (startPrimaryCashWalletCutover 1 "run" "operator" prepared).2.

Fixpoint forward (n : nat) (w : world) : world :=
  match n with
  | O => w
  | S n' => (runPrimaryCashWalletCutoverBatch runtime 1 "run" "worker" (Some 10%nat) 0 (forward n' w)).2
  end.

Definition stage_reached (w : world) : list MigrationStatus := m_status <$> docs w.

Definition balance (a : string) (w : world) : option Z := sim_balances (w_ibex w) !! a.

Definition completed : world :=
  (completePrimaryCashWalletCutover 1 "run" "operator" (forward 13 started_)).2.

Definition requested : world :=
  (requestPrimaryCashWalletRollback 1 "run" None "test" "operator" false completed).2.

Fixpoint backward (n : nat) (w : world) : world :=
  match n with
  | O => w
  | S n' => (runPrimaryCashWalletRollbackBatch runtime 1 "run" "worker" (Some 10%nat) 0 (backward n' w)).2
  end.

Definition undone : world := (completePrimaryCashWalletRollback 1 "run" "operator" (backward 2 requested)).2.

Definition cutover_state (w : world) : option CutoverState := c_state <$> w_config w.

Ltac by_run := vm_compute; reflexivity.

(** The pipeline visits its statuses in order, one per batch. *)
Example forward_run :
  map (fun n => stage_reached (forward n started_)) (seq 0 14) =
  [[not_started]; [started]; [provisioned]; [balance_read]; [invoice_created];
   [balance_move_sending]; [balance_move_sent]; [balance_move_verified];
   [fee_reimbursement_invoice_created]; [fee_reimbursement_sending]; [fee_reimbursed];
   [pointer_flipped]; [legacy_zero_verified]; [complete]].
Proof. by_run. Qed.

(** At the end the whole balance is in USDT, the treasury has paid the routing
    fee, the default wallet is the USDT wallet and the cutover is complete. *)
Example forward_result :
  balance "usd-wallet" completed = Some 0 /\ balance "usdt-wallet" completed = Some 800 /\
  balance "treasury-usdt" completed = Some 6399 /\
  a_defaultWalletId <$> w_accounts completed !! "alice" = Some "usdt-wallet" /\
  cutover_state completed = Some state_complete.
Proof. split_and!; by_run. Qed.

(** The rollback pays back, tops up the fee of doing so, restores the pointer
    and finishes in the next batch. *)
Example rollback_run :
  map (fun n => stage_reached (backward n requested)) (seq 0 3) =
    [[rollback_started]; [rollback_started]; [rolled_back]] /\
  balance "usd-wallet" undone = Some 800 /\ balance "usdt-wallet" undone = Some 0 /\
  balance "treasury-usdt" undone = Some 6398 /\
  a_defaultWalletId <$> w_accounts undone !! "alice" = Some "usd-wallet" /\
  cutover_state undone = Some state_rolled_back.
Proof. split_and!; by_run. Qed.
