(* ===== verification/TopupSimulation.v ===== *)
(** * Simulated card top-ups

    A concrete instance of the parameters of the top-ups ([TopupExternal]), over
    the simulated services of [Simulation]: a Redis and an ERPNext that fail when
    told to, settings of an operator, and ids drawn from a counter. On it a
    customer authorises and pays a top-up, which is credited; the examples at the
    end replay deliveries under faults. *)

From stdpp Require Import base gmap list strings.
From Stdlib Require Import ZArith Lia Ascii.
From S2P Require Import Prelude JsStrings JsNumbers Processes Errors MoneyAmounts World Ibex.
From S2P Require Import FygaroGate CreatedAt FygaroCheckout Simulation TopupWorld FygaroIntents.
From S2P Require Import TransferRequests FygaroAuthorize PaymentIdempotency Json FygaroWebhook.

Open Scope Z_scope.

(** ** The parameters *)

Definition sim_config : FygaroConfig :=
  mkFygaroConfig true true true "https://pay.example/button" "key" (Some 900) {["key" := "secret"]}.

Definition percent (n : Z) : scalar := SNumber (num_of_Z n).

(** Three percent to the processor, two to Flash; 10 to 500 dollars a payment,
    125 a day at level one. *)
Definition sim_settings : FygaroSettingsDoc :=
  mkSettingsDoc (SText "card") (percent 3) (percent 0) (percent 2) (percent 0) (percent 500)
    (percent 10) (percent 1) (percent 125) (percent 500) (percent 1000).

(** Twelve bytes that end in a counter. *)
Definition sim_bytes (n : nat) : string := "counted-ids" +:+ String (ascii_of_nat n) "".

(** Redis and ERPNext with their faults. *)
Definition sim (rf : nat -> option mongo_failure) (ef : nat -> option (bool * error)) :
    @TopupExternal simulated := {|
  fygaroConfig := sim_config;
  redis_fault := rf;
  redis_time _ := 0;
  erp_configured := true;
  erp_fault := ef;
  erp_duplicate := mkError AxiosError "duplicate entry" (Some 409) None;
  erp_not_found := mkError AxiosError "not found" (Some 404) None;
  erp_settings _ := Some sim_settings;
  erp_discounts _ := Some [];
  random_bytes := sim_bytes;
  hmac_sha256 key text := "signature";
  sha256_hex text := text;
  same_username u v := bool_decide (str_lower u = str_lower v);
  legacy_date _ := None;
  kratos_identifier _ := Err (new_error0 UnknownRepositoryError)
|}.

Definition reliable : @TopupExternal simulated := sim (fun _ => None) (fun _ => None).

(** ** The scenario *)

Definition bob_wallet : string := "11111111-1111-4111-8111-111111111111".
Definition bank_wallet : string := "22222222-2222-4222-8222-222222222222".

Definition bob : account := mkAccount "bob" "bob-uuid" StatusActive bob_wallet (Some "bob") 1 None
  "bob-kratos" None None None 0.
Definition bank : account := mkAccount "bank" "bank-uuid" StatusActive bank_wallet None 3
  (Some "bankowner") "bank-kratos" None None None 0.

(** The treasury holds a hundred dollars. *)
Definition topup_services : @world simulated :=
  mkWorld simulated None ∅ {["bob" := bob; "bank" := bank]}
    [mkWallet bob_wallet "bob" Checking Usdt None; mkWallet bank_wallet "bank" Checking Usdt None]
    (mkSim {[bob_wallet := 0; bank_wallet := 6400]} [] 0) [] 0 0 0 None None.

Definition empty_redis : redis_state := mkRedis ∅ ∅ ∅ ∅ ∅ ∅ ∅.

Definition opening (X : @TopupExternal simulated) : @tworld simulated X :=
  @mkTWorld simulated X topup_services empty_redis 0 ∅ 0 0 None None [].

(** Bob pays 100 dollars, naming his account. *)
Definition payment (tx amount : string) (reference : option string) : FygaroPaymentPayload :=
  mkPayload (Some (JStr tx)) (JStr <$> reference) (Some (JStr amount)) (Some (JStr "usd")) None None "raw".

Definition bob_pays : FygaroPaymentPayload := payment "tx1" "100.00" (Some "bob").

(** A delivery, and what can be seen of it. *)
Definition deliver (X : @TopupExternal simulated) (p : FygaroPaymentPayload)
    (w : @tworld simulated X) : @tworld simulated X := (run (paymentHandler p) w).2.

Definition reply_of (X : @TopupExternal simulated) (p : FygaroPaymentPayload)
    (w : @tworld simulated X) : option (Z * string * option bool) :=
  match (run (paymentHandler p) w).1 with
  | Ok r => Some (rp_code r, rp_text r, rp_credited r)
  | _ => None
  end.

Definition balance_of (X : @TopupExternal simulated) (a : string) (w : @tworld simulated X) : option Z :=
  sim_balances (w_ibex (t_base w)) !! a.

Definition status_in (X : @TopupExternal simulated) (tx : string) (w : @tworld simulated X) :
    option string := row_status <$> t_rows w !! fygaro_request tx.

Definition alerts (X : @TopupExternal simulated) (w : @tworld simulated X) :
    list (bool * string) :=
  omap (fun e => match e with
    | Alert Critical k => Some (true, k) | Alert Warning k => Some (false, k) | _ => None end)
    (t_events w).

(** ** Runs *)

(** A payment is credited net of its fees, once; the second delivery is told so. *)
Example credited_run :
  let w1 := deliver reliable bob_pays (opening reliable) in
  reply_of reliable bob_pays (opening reliable) = Some (200, "success", Some true) /\
  balance_of reliable bob_wallet w1 = Some 6080 /\ balance_of reliable bank_wallet w1 = Some 320 /\
  status_in reliable "tx1" w1 = Some "Completed" /\ alerts reliable w1 = [] /\
  reply_of reliable bob_pays w1 = Some (200, "already_processed", None) /\
  balance_of reliable bob_wallet (deliver reliable bob_pays w1) = Some 6080.
Proof. split_and!; vm_compute; reflexivity. Qed.

(** ** Runs that go wrong *)

Definition failing (l : list nat) (n : nat) : option mongo_failure :=
  if bool_decide (n ∈ l) then Some (FaultBefore "connection lost") else None.
Definition erp_failing (l : list nat) (n : nat) : option (bool * error) :=
  if bool_decide (n ∈ l) then Some (false, new_error AxiosError "timeout") else None.

(** Redis is down while the credit lock is taken: the payment is acknowledged as
    being processed by somebody, is not credited, and nobody is alerted. *)
Definition redis_down : @TopupExternal simulated := sim (failing (seq 0 10)) (fun _ => None).

Example lock_fault_acknowledged :
  let w1 := deliver redis_down bob_pays (opening redis_down) in
  reply_of redis_down bob_pays (opening redis_down) = Some (200, "already_processing", None) /\
  balance_of redis_down bob_wallet w1 = Some 0 /\ status_in redis_down "tx1" w1 = Some "Fiat Received" /\
  alerts redis_down w1 = [].
Proof. split_and!; vm_compute; reflexivity. Qed.

(** Redis is down while the dedupe lock is taken: a payment without a reference
    is acknowledged as a duplicate, and nobody is alerted. *)
Example unattributed_fault_acknowledged :
  let p := payment "tx2" "50.00" None in
  reply_of redis_down p (opening redis_down) = Some (200, "already_processed", None) /\
  alerts redis_down (deliver redis_down p (opening redis_down)) = [].
Proof. split_and!; vm_compute; reflexivity. Qed.

(** ERPNext does not take the promotion of the row. The retry finds the send in
    the cache, takes its status for an unexpected one, and asks for a manual
    credit of money that is in the wallet. *)
Definition promotion_lost : @TopupExternal simulated := sim (fun _ => None) (erp_failing [7%nat]).

Example replay_asks_for_credit :
  let w1 := deliver promotion_lost bob_pays (opening promotion_lost) in
  let w2 := deliver promotion_lost bob_pays w1 in
  reply_of promotion_lost bob_pays (opening promotion_lost) = Some (200, "success", Some true) /\
  balance_of promotion_lost bob_wallet w1 = Some 6080 /\
  alerts promotion_lost w1 = [(false, "erpnext-audit:fygaro:tx1")] /\
  reply_of promotion_lost bob_pays w1 = Some (200, "recorded", Some false) /\
  alerts promotion_lost w2 =
    [(false, "erpnext-audit:fygaro:tx1"); (true, "fygaro:credit-failed:tx1")] /\
  status_in promotion_lost "tx1" w2 = Some "Fiat Received".
Proof. split_and!; vm_compute; reflexivity. Qed.

(** Two checkouts of 100 dollars at once under a cap of 125: when neither can read
    the holds again after taking its own, both get a link. *)
Definition reread_lost : @TopupExternal simulated := sim (failing [12%nat; 13%nat]) (fun _ => None).

Definition link_of (X : @TopupExternal simulated) (p : @TApp simulated X AuthorizeTopupResult) : bool :=
  match p with Done (Ok (Authorized _ _ false)) => true | _ => false end.

Definition two_checkouts (X : @TopupExternal simulated) : list bool :=
  link_of X <$> (exec (concat (replicate 40 [0%nat; 1%nat]))
    [authorizeFygaroTopup "bob" "bob" 1 10000 0; authorizeFygaroTopup "bob" "bob" 1 10000 0]
    (opening X)).1.

Example reread_fault_over_issues : two_checkouts reread_lost = [true; true].
Proof. vm_compute. reflexivity. Qed.
Example reread_stops_both : two_checkouts reliable = [false; false].
Proof. vm_compute. reflexivity. Qed.

(** A re-delivery that has read the row before it is completed, and writes it
    after, puts the credited row back. *)
Definition recorded : @tworld simulated reliable :=
  (run (writeFygaroTopupRequest "tx1" "100.00" "USD" (Some "bob") false None "raw") (opening reliable)).2.

Example redelivery_race_uncompletes :
  status_in reliable "tx1" (exec [0; 0; 1; 1; 1; 0]%nat
    [writeFygaroTopupRequest "tx1" "100.00" "USD" (Some "bob") false None "raw";
     completeFygaroTopup "tx1" "bob" bob_wallet "100.00" "USD" "100.00" "3.00" "2.00" "95.00" "raw"]
    recorded).2 = Some "Fiat Received".
Proof. vm_compute. reflexivity. Qed.

(** A failed deposit is completed when its transaction arrives. *)
Definition failed_deposit : transfer_row :=
  mkRow Topup TransferFailed 0 None None None None None None None None None None None None None None
    None (Some "0xabc") None None None None None None None.

Example failed_deposit_completes :
  row_status <$> t_rows (run (completeBridgeTopupByTxHash "0xabc" None None)
    (set_rows {["deposit" := failed_deposit]} (opening reliable))).2 !! "deposit" = Some "Completed".
Proof. vm_compute. reflexivity. Qed.

(** A top-up that settles after the sum was read and before the holds were is
    counted in neither: with 100 of 125 dollars spent, another 100 are authorised. *)
Definition first_link : option FygaroCheckout * @tworld simulated reliable :=
  let '(o, w) := run (authorizeFygaroTopup "bob" "bob" 1 10000 0) (opening reliable) in
  (match o with Ok (Authorized c _ _) => Some c | _ => None end, w).

Definition settle_between (before : nat) : list (option bool) :=
  (fun p => match p with Done (Ok b) => Some b | _ => None end) <$>
  (exec (replicate before 0%nat ++ replicate 200 1%nat ++ replicate 200 0%nat)
    [pbind (authorizeFygaroTopup "bob" "bob" 1 10000 0) (fun r =>
       pret (match r with Authorized _ _ false => true | _ => false end));
     pbind (paymentHandler (payment "tx1" "100.00" (co_customReference <$> first_link.1)))
       (fun r => pret (bool_decide (rp_credited r = Some true)))]
    first_link.2).1.

Example settled_between_uncounted : settle_between 4 = [Some true; Some true].
Proof. vm_compute. reflexivity. Qed.
