(* ===== verification/BridgeSimulation.v ===== *)
(** * A simulated Bridge

    A concrete instance of the parameters of the Bridge integration
    ([BridgeExternal]), over the simulated services of [TopupSimulation]: an API
    whose transfers are kept by their idempotency key, an IBEX that acknowledges
    every send, a quiet gas market, and a payout of ten dollars to each party of a
    referral. On it a customer withdraws and refers a friend. *)

From stdpp Require Import base gmap list strings.
From Stdlib Require Import ZArith Lia Ascii.
From S2P Require Import Prelude JsStrings JsNumbers JsDecimals Processes Errors MoneyAmounts World.
From S2P Require Import Ibex Simulation TopupWorld TransferRequests TopupSimulation Json BridgeWorld.
From S2P Require Import BridgeRepo BridgeFees BridgeService Referrals Invites BridgeReconciliation.
From S2P Require Import BridgeWebhooks BridgeReplay BridgeWithdrawals ReferralRewards.

Open Scope Z_scope.

(** ** The parameters *)

Definition sim_bridge_config : BridgeConfiguration :=
  mkBridgeConfig true (num_of_Z 1) (mkFeeOptions None None None None None None None None) 300000
    (fun _ => "public key") (Some "a secret of the operator") None None.

(** The transfers created so far, by key. *)
Definition sim_transfer (n : nat) (r : CreateTransferRequest) : Transfer :=
  mkTransfer ("transfer" +:+ bigint_toString (Z.of_nat n)) (ct_amount r) "usdt" "awaiting_funds" (Some (ct_on_behalf_of r))
    (Some "0xBridge") None.

Definition sim_bank : ExternalAccount := mkXA "bank1" (Some "Bank") (Some "6789") None (Some true).

Definition sim_virtual : VirtualAccount :=
  mkVA "virtual1" (Some "activated") (Some "Bank") (Some "021000021") (Some "123456789") (Some "0xCarol").

Definition sim_bridge_api T (c : api_call T) (key : option string) (s : list (string * Transfer)) :
    http_result T * list (string * Transfer) :=
  match c in api_call T return http_result T * list (string * Transfer) with
  | GetCustomer _ => (HttpOk (Some (Some "active")), s)
  | CreateVirtualAccount _ _ _ => (HttpOk (Some sim_virtual), s)
  | GetVirtualAccount _ _ => (HttpOk (Some sim_virtual), s)
  | ListVirtualAccounts _ => (HttpOk (Some [sim_virtual]), s)
  | ListExternalAccounts _ => (HttpOk (Some [sim_bank]), s)
  | CreateTransfer r =>
      let k := default "" key in
      match list_find (fun t => t.1 = k) s with
      | Some (_, (_, t)) => (HttpOk (Some t), s)
      | None => let t := sim_transfer (length s) r in (HttpOk (Some t), s ++ [(k, t)])
      end
  | _ => (HttpFailure "not simulated", s)
  end.

Definition sim_hub T (c : hub_call T) (token : string) (s : @ibex_state simulated) :
    hub_result T * @ibex_state simulated :=
  match c in hub_call T return hub_result T * @ibex_state simulated with
  | SendRequirements _ _ => (HubOk "requirements", s)
  | CreateSendInfo _ _ _ => (HubOk (Some "info"), s)
  | SendCrypto _ _ _ => (HubOk (JObj [("transactionId", JStr "payout")]), s)
  end.

(** Ids that end in a counter. *)
Definition sim_object_id (n : nat) : string :=
  "00000000000000000000000" +:+ String (ascii_of_nat (48 + n mod 10)) "".

Definition sim_bridge : @BridgeExternal simulated reliable := {|
  bridgeConfig := sim_bridge_config;
  bridge_state := list (string * Transfer);
  bridge_api := sim_bridge_api;
  ibex_hub := sim_hub;
  ibex_cached_token _ := Some "token";
  ibex_oauth s := (OauthToken (Some "token"), s);
  ibex_store_token _ s := s;
  sdk_getCryptoReceiveOptions s := (Resp [], s);
  sdk_createCryptoReceiveInfo _ _ s := (Resp "0xCarol", s);
  object_id := sim_object_id;
  random_hex _ := "00";
  gas_fetch _ _ := GasBody (Some "0x3b9aca00") None;
  price_fetch _ _ := PriceBody (Some (num_of_Z 3000));
  push_fault _ := None;
  referral_enabled := true;
  referral_tiers := [mkTier 0 1000];
  invite_token _ := "token";
  rate_limiter _ _ _ := LimiterOk;
  invite_delivery _ _ _ _ _ := true;
  kratos_email _ := Ok None;
  verify_rsa_sha256 _ _ _ := Ok true;
  ip_valid _ := false;
  ip_process_kind _ := IpV4;
  ip_process_loopback _ := false;
  ip_parse_range _ := None;
  ip_match _ _ := false;
  ip_private _ := Ok false;
  ip_info _ := Ok None
|}.

(** ** The scenario *)

Definition carol_id : string := "aaaaaaaaaaaaaaaaaaaaaaaa".
Definition dave_id : string := "bbbbbbbbbbbbbbbbbbbbbbbb".
Definition rewards_id : string := "cccccccccccccccccccccccc".
Definition carol_wallet : string := "33333333-3333-4333-8333-333333333333".
Definition dave_wallet : string := "44444444-4444-4444-8444-444444444444".
Definition rewards_wallet_id : string := "55555555-5555-4555-8555-555555555555".

Definition carol (kyc : option string) : account :=
  mkAccount carol_id "carol-uuid" StatusActive carol_wallet (Some "carol") 2 None "carol-kratos"
    (Some "customer1") kyc (Some "0xCarol") 0.
Definition dave : account :=
  mkAccount dave_id "dave-uuid" StatusActive dave_wallet (Some "dave") 2 None "dave-kratos" None None None 0.
Definition rewarder : account :=
  mkAccount rewards_id "rewards-uuid" StatusActive rewards_wallet_id None 3 (Some "rewards")
    "rewards-kratos" None None None 0.

(** Carol has 100 dollars; so has the account that pays rewards. *)
Definition bridge_services (kyc : option string) : @world simulated :=
  mkWorld simulated None ∅ {[carol_id := carol kyc; dave_id := dave; rewards_id := rewarder]}
    [mkWallet carol_wallet carol_id Checking Usdt None; mkWallet dave_wallet dave_id Checking Usdt None;
     mkWallet rewards_wallet_id rewards_id Checking Usdt None]
    (mkSim {[carol_wallet := 6400; dave_wallet := 0; rewards_wallet_id := 6400]} [] 0) [] 0 0 0 None None.

(** Dave invited Carol, who redeemed the invite. *)
Definition carols_invite : invite :=
  mkInvite "dddddddddddddddddddddddd" "carol@example.com" EMAIL "hash" dave_id InviteAccepted 0 1000 (Some 1)
    (Some carol_id) None None None None None None None None None None.

Definition bridge_start (kyc : option string) (rows : gmap string withdrawal) (invites : gmap string invite) :
    @bworld simulated reliable sim_bridge :=
  @mkBWorld simulated reliable sim_bridge
    (@mkTWorld simulated reliable (bridge_services kyc) empty_redis 0 ∅ 0 0 None None [])
    (mkStore rows [] [] [] [] ∅ [] invites 0 {["carol-kratos" := None]}) [] [] [] [] [] None 0 0 0.

Definition carols_row : withdrawal :=
  mkWithdrawal (sim_object_id 9) carol_id None None None None "20" "usdt" WPending
    (mkEstimate "0.6" "0.12" "0.25" "0.57" "1" "0.20") (mkReceiptFees None None None None) None "bank1" 0 0.

Definition one_row : gmap string withdrawal := {[sim_object_id 9 := carols_row]}.
Definition one_invite : gmap string invite := {["dddddddddddddddddddddddd" := carols_invite]}.
