(* ===== verification/GraphqlErrors.v ===== *)
(** * Errors at the GraphQL boundary

    Model of [src/src/graphql/error-map.ts] with the classes of
    [src/src/graphql/error.ts] and the error classes the application exports
    ([src/src/app/errors.ts] and the modules it collects): what a client is told
    of each error. The switch on the name of an error is a list of arms, taken
    in order. *)

From stdpp Require Import base list strings.
From Stdlib Require Import ZArith.
From S2P Require Import Prelude JsStrings JsNumbers Errors MoneyAmounts.

Open Scope Z_scope.

(** ** The errors of the application *)

(** A class: its name, the class it extends and the level it sets. *)
Record app_error := mkAppError { ae_name : string; ae_extends : string; ae_level : option string }.
Definition plain (n p : string) : app_error := mkAppError n p None.
Definition critical (n p : string) : app_error := mkAppError n p (Some "critical").
Definition warned (n p : string) : app_error := mkAppError n p (Some "warn").

(** [domain/shared/errors.ts] *)
Definition SharedErrors : list app_error := [
  plain "DomainError" "Error"; plain "ValidationError" "DomainError";
  critical "UnknownDomainError" "DomainError"; critical "RedisParseError" "DomainError";
  critical "SafeWrapperError" "DomainError"; plain "BigIntConversionError" "SafeWrapperError";
  plain "BigIntFloatConversionError" "BigIntConversionError";
  critical "UnknownBigIntConversionError" "BigIntConversionError";
  plain "BtcAmountTooLargeError" "ValidationError"; plain "UsdAmountTooLargeError" "ValidationError";
  plain "InvalidBtcPaymentAmountError" "ValidationError";
  plain "InvalidUsdPaymentAmountError" "ValidationError"; plain "UnsupportedCurrencyError" "DomainError"].

(** [domain/errors.ts] *)
Definition DomainErrors : list app_error := [
  plain "InconsistentDataError" "DomainError"; plain "OperationInterruptedError" "DomainError";
  plain "AuthorizationError" "DomainError"; plain "RepositoryError" "DomainError";
  critical "UnknownRepositoryError" "RepositoryError"; plain "PersistError" "RepositoryError";
  plain "DuplicateError" "RepositoryError"; plain "BadInputsForFindError" "RepositoryError";
  plain "CouldNotFindError" "RepositoryError"; plain "CouldNotUpdateError" "RepositoryError";
  plain "DuplicateKeyForPersistError" "RepositoryError";
  critical "InvalidDocumentIdForDbError" "RepositoryError"; critical "CannotConnectToDbError" "RepositoryError";
  critical "DbConnectionClosedError" "RepositoryError";
  plain "CouldNotUnsetPhoneFromUserError" "CouldNotUpdateError";
  plain "CouldNotFindWalletInvoiceError" "CouldNotFindError";
  plain "CouldNotFindAccountError" "CouldNotFindError"; plain "CouldNotFindUserError" "CouldNotFindError";
  plain "CouldNotFindUserFromIdError" "CouldNotFindError";
  plain "CouldNotFindAccountIpError" "CouldNotFindError";
  plain "CouldNotFindUserFromPhoneError" "CouldNotFindError";
  plain "CouldNotFindUserFromEmailError" "CouldNotFindError";
  plain "CouldNotFindUserFromWalletIdError" "CouldNotFindError";
  plain "CouldNotFindWalletFromIdError" "CouldNotFindError";
  plain "CouldNotListWalletsFromAccountIdError" "CouldNotFindError";
  plain "CouldNotFindWalletFromUsernameError" "CouldNotFindError";
  plain "CouldNotFindWalletFromUsernameAndCurrencyError" "CouldNotFindError";
  plain "CouldNotFindWalletFromAccountIdAndCurrencyError" "CouldNotFindError";
  plain "CouldNotFindWalletFromOnChainAddressError" "CouldNotFindError";
  plain "CouldNotFindWalletFromOnChainAddressesError" "CouldNotFindError";
  plain "CouldNotListWalletsFromWalletCurrencyError" "CouldNotFindError";
  plain "CouldNotFindWalletOnChainPendingReceiveError" "CouldNotFindError";
  plain "NoTransactionToUpdateError" "CouldNotFindError";
  plain "CouldNotFindLightningPaymentFlowError" "CouldNotFindError";
  critical "CouldNotUpdateLightningPaymentFlowError" "CouldNotFindError";
  plain "NoExpiredLightningPaymentFlowsError" "CouldNotFindError";
  critical "CouldNotFindBtcWalletForAccountError" "CouldNotFindError";
  critical "CouldNotFindLnPaymentFromHashError" "CouldNotFindError";
  plain "CouldNotFindAccountFromUuidError" "CouldNotFindError";
  plain "CouldNotFindAccountFromUsernameError" "CouldNotFindError";
  plain "CouldNotFindAccountFromPhoneError" "CouldNotFindError";
  plain "CouldNotFindMerchantFromUsernameError" "CouldNotFindError";
  plain "CouldNotFindMerchantFromIdError" "CouldNotFindError";
  plain "CouldNotFindTransactionsForAccountError" "CouldNotFindError";
  plain "CouldNotFindAccountFromKratosIdError" "CouldNotFindError";
  plain "RewardAlreadyPresentError" "DomainError"; plain "NotImplementedError" "DomainError";
  plain "NotReachableError" "DomainError"; plain "InvalidNegativeAmountError" "DomainError";
  plain "MissingPhoneError" "DomainError"; plain "ContactNotExistentError" "DomainError";
  plain "InvalidWithdrawFeeError" "ValidationError"; plain "InvalidCurrencyBaseAmountError" "ValidationError";
  plain "InvalidSatoshiAmountError" "ValidationError"; plain "InvalidUsdCents" "ValidationError";
  plain "NonIntegerError" "ValidationError"; plain "InvalidOnChainAddress" "ValidationError";
  plain "InvalidPubKeyError" "ValidationError"; plain "InvalidScanDepthAmount" "ValidationError";
  plain "SatoshiAmountRequiredError" "ValidationError"; plain "InvalidUsername" "ValidationError";
  plain "InvalidDeviceId" "ValidationError"; plain "InvalidIdentityPassword" "ValidationError";
  plain "InvalidIdentityUsername" "ValidationError"; plain "InvalidContactAlias" "ValidationError";
  plain "InvalidCoordinatesError" "ValidationError"; plain "InvalidBusinessTitleLengthError" "ValidationError";
  plain "InvalidPhoneNumber" "ValidationError"; plain "InvalidUserId" "ValidationError";
  plain "InvalidEmailAddress" "ValidationError"; plain "InvalidWalletId" "ValidationError";
  plain "InvalidFlowId" "ValidationError"; plain "InvalidTotpCode" "ValidationError";
  plain "InvalidLedgerTransactionId" "ValidationError";
  plain "InvalidLedgerTransactionStateError" "ValidationError";
  plain "InvalidDisplayCurrencyError" "ValidationError"; plain "AlreadyPaidError" "ValidationError";
  plain "SelfPaymentError" "ValidationError"; plain "LessThanDustThresholdError" "ValidationError";
  plain "AmountLessThanFeeError" "ValidationError"; plain "InsufficientBalanceError" "ValidationError";
  plain "InvalidCurrencyForWalletError" "ValidationError"; plain "BalanceLessThanZeroError" "ValidationError";
  plain "NoContactForUsernameError" "ValidationError"; plain "NoWalletExistsForUserError" "ValidationError";
  plain "NoBtcWalletExistsForAccountError" "ValidationError";
  plain "InvalidQuizQuestionIdError" "ValidationError"; plain "MissingIPMetadataError" "ValidationError";
  critical "InvalidIpMetadataError" "ValidationError";
  plain "UnauthorizedIPForOnboardingError" "AuthorizationError";
  plain "UnauthorizedIPError" "AuthorizationError";
  plain "UnauthorizedIPMetadataProxyError" "UnauthorizedIPError";
  plain "UnauthorizedIPMetadataCountryError" "UnauthorizedIPError";
  plain "UnauthorizedIPMetadataASNError" "UnauthorizedIPError";
  plain "InvalidDeviceTokenError" "ValidationError"; plain "InvalidLanguageError" "ValidationError";
  plain "InvalidAccountLevelError" "ValidationError"; plain "InvalidAccountLimitTypeError" "ValidationError";
  plain "LimitsExceededError" "ValidationError"; plain "WithdrawalLimitsExceededError" "LimitsExceededError";
  plain "IntraledgerLimitsExceededError" "LimitsExceededError";
  plain "TradeIntraAccountLimitsExceededError" "LimitsExceededError";
  plain "LnRouteValidationError" "ValidationError"; plain "BadAmountForRouteError" "LnRouteValidationError";
  plain "MismatchedCurrencyForWalletError" "ValidationError";
  plain "InvalidAccountStatusError" "ValidationError"; plain "InactiveAccountError" "InvalidAccountStatusError";
  plain "InvalidMinutesError" "ValidationError"; critical "InvalidNonHodlInvoiceError" "ValidationError";
  critical "MultipleCurrenciesForSingleCurrencyOperationError" "ValidationError";
  plain "InvalidIdempotencyKeyError" "ValidationError"; plain "IdempotencyKeyReuseError" "ValidationError";
  plain "InvalidLnurlError" "ValidationError"; plain "InvalidLnurlAmountError" "ValidationError"].

(** [domain/payments/errors.ts] *)
Definition PaymentErrors : list app_error := [
  plain "InvalidZeroAmountPriceRatioInputError" "ValidationError";
  plain "SubOneCentSatAmountForUsdSelfSendError" "ValidationError";
  plain "LnPaymentRequestNonZeroAmountRequiredError" "ValidationError";
  plain "LnPaymentRequestZeroAmountRequiredError" "ValidationError";
  plain "LnPaymentRequestInTransitError" "ValidationError";
  plain "LnHashPresentInIntraLedgerFlowError" "ValidationError";
  plain "IntraLedgerHashPresentInLnFlowError" "ValidationError";
  plain "SkipProbeForPubkeyError" "ValidationError";
  critical "NonLnPaymentTransactionForPaymentFlowError" "ValidationError";
  critical "MissingPropsInTransactionForPaymentFlowError" "ValidationError";
  critical "InvalidLightningPaymentFlowBuilderStateError" "ValidationError";
  critical "InvalidLightningPaymentFlowStateError" "ValidationError";
  critical "InvalidOnChainPaymentFlowBuilderStateError" "ValidationError"].

(** [domain/ledger/errors.ts] *)
Definition LedgerErrors : list app_error := [
  plain "LedgerError" "DomainError"; plain "LedgerServiceError" "LedgerError";
  plain "FeeDifferenceError" "LedgerError"; plain "NoTransactionToSettleError" "LedgerServiceError";
  plain "InvalidPaginationArgumentsError" "LedgerServiceError";
  plain "MismatchedResultForTransactionMetadataQuery" "LedgerServiceError";
  critical "MultiplePendingPaymentsForHashError" "LedgerServiceError";
  critical "MissingExpectedDisplayAmountsForTransactionError" "LedgerServiceError";
  critical "UnknownLedgerError" "LedgerServiceError"; plain "CouldNotFindTransactionError" "LedgerError";
  plain "CouldNotFindTransactionMetadataError" "CouldNotFindTransactionError";
  critical "CouldNotFindExpectedTransactionMetadataError" "CouldNotFindTransactionError"].

(** [domain/callback/errors.ts] *)
Definition CallbackErrors : list app_error := [
  plain "CallbackError" "DomainError"; plain "InvalidUrlError" "CallbackError"].

(** [domain/comm/errors.ts] *)
Definition CommErrors : list app_error := [
  critical "MattermostError" "DomainError"].

(** [domain/bitcoin/onchain/errors.ts] *)
Definition OnChainErrors : list app_error := [
  plain "OnChainError" "DomainError"; plain "TransactionDecodeError" "OnChainError";
  plain "OnChainServiceError" "OnChainError";
  plain "OnChainAddressAlreadyCreatedForRequestIdError" "OnChainServiceError";
  plain "OnChainAddressNotFoundError" "OnChainServiceError"; plain "PayoutNotFoundError" "OnChainServiceError";
  critical "PayoutDestinationBlocked" "OnChainServiceError";
  critical "UnknownOnChainServiceError" "OnChainServiceError";
  critical "OnChainServiceUnavailableError" "OnChainServiceError"].

(** [domain/bitcoin/lightning/errors.ts] *)
Definition LightningErrors : list app_error := [
  plain "LightningError" "DomainError"; plain "LnInvoiceDecodeError" "LightningError";
  plain "LnInvoiceMissingPaymentSecretError" "LnInvoiceDecodeError";
  plain "InvalidChecksumForLnInvoiceError" "LnInvoiceDecodeError";
  critical "UnknownLnInvoiceDecodeError" "LnInvoiceDecodeError"; plain "LightningServiceError" "LightningError";
  plain "CouldNotDecodeReturnedPaymentRequest" "LightningServiceError";
  critical "UnknownLightningServiceError" "LightningServiceError";
  critical "SecretDoesNotMatchAnyExistingHodlInvoiceError" "LightningServiceError";
  plain "InvoiceNotFoundError" "LightningServiceError"; plain "LnPaymentPendingError" "LightningServiceError";
  plain "LnAlreadyPaidError" "LightningServiceError";
  critical "MaxFeeTooLargeForRoutelessPaymentError" "LightningServiceError";
  critical "OffChainServiceUnavailableError" "LightningServiceError";
  critical "OffChainServiceBusyError" "LightningServiceError";
  critical "NoValidNodeForPubkeyError" "LightningServiceError";
  plain "PaymentNotFoundError" "LightningServiceError"; plain "RouteNotFoundError" "LightningServiceError";
  plain "UnknownNextPeerError" "LightningServiceError";
  plain "InsufficientBalanceForRoutingError" "LightningServiceError";
  plain "InsufficientBalanceForLnPaymentError" "LightningServiceError";
  plain "InvoiceExpiredOrBadPaymentHashError" "LightningServiceError";
  plain "PaymentRejectedByDestinationError" "LightningServiceError";
  plain "PaymentAttemptsTimedOutError" "LightningServiceError";
  plain "ProbeForRouteTimedOutError" "LightningServiceError";
  plain "ProbeForRouteTimedOutFromApplicationError" "LightningServiceError";
  plain "PaymentInTransitionError" "LightningServiceError";
  plain "TemporaryChannelFailureError" "LightningServiceError";
  plain "TemporaryNodeFailureError" "LightningServiceError";
  plain "DestinationMissingDependentFeatureError" "LightningServiceError";
  critical "LookupPaymentTimedOutError" "LightningServiceError";
  critical "InvalidFeeProbeStateError" "LightningServiceError";
  critical "UnknownRouteNotFoundError" "LightningServiceError";
  plain "BadPaymentDataError" "LightningServiceError"; plain "CorruptLndDbError" "LightningServiceError"].

(** [domain/price/errors.ts] *)
Definition PriceServiceErrors : list app_error := [
  plain "PriceError" "DomainError"; plain "InvalidPriceCurrencyError" "ValidationError";
  plain "PriceServiceError" "PriceError"; plain "PriceNotAvailableError" "PriceServiceError";
  plain "PriceCurrenciesNotAvailableError" "PriceServiceError";
  plain "PriceHistoryNotAvailableError" "PriceServiceError";
  critical "UnknownPriceServiceError" "PriceServiceError"].

(** [domain/lock/errors.ts] *)
Definition LockServiceErrors : list app_error := [
  plain "LockError" "DomainError"; plain "LockServiceError" "LockError";
  warned "ResourceAttemptsLockServiceError" "LockServiceError";
  critical "ResourceExpiredLockServiceError" "LockServiceError";
  critical "UnknownLockServiceError" "LockServiceError"].

(** [domain/rate-limit/errors.ts] *)
Definition RateLimitServiceErrors : list app_error := [
  plain "RateLimitError" "DomainError"; plain "RateLimitServiceError" "RateLimitError";
  critical "UnknownRateLimitServiceError" "RateLimitServiceError";
  plain "RateLimiterExceededError" "RateLimitServiceError";
  plain "UserCodeAttemptIdentifierRateLimiterExceededError" "RateLimiterExceededError";
  plain "UserCodeAttemptIpRateLimiterExceededError" "RateLimiterExceededError";
  plain "CreateDeviceAccountIpRateLimiterExceededError" "RateLimiterExceededError";
  plain "UserLoginIpRateLimiterExceededError" "RateLimiterExceededError";
  plain "UserLoginIdentifierRateLimiterExceededError" "RateLimiterExceededError";
  plain "InvoiceCreateRateLimiterExceededError" "RateLimiterExceededError";
  plain "InvoiceCreateForRecipientRateLimiterExceededError" "RateLimiterExceededError";
  plain "OnChainAddressCreateRateLimiterExceededError" "RateLimiterExceededError";
  plain "InviteCreateRateLimiterExceededError" "RateLimiterExceededError";
  plain "InviteTargetRateLimiterExceededError" "RateLimiterExceededError";
  plain "FygaroCheckoutCreateRateLimiterExceededError" "RateLimiterExceededError";
  plain "FygaroTopupAllowanceRateLimiterExceededError" "RateLimiterExceededError"].

(** [domain/ipfetcher/errors.ts] *)
Definition IpFetcherErrors : list app_error := [
  plain "IpFetcherError" "DomainError"; plain "IpFetcherServiceError" "IpFetcherError";
  critical "UnknownIpFetcherServiceError" "IpFetcherError"].

(** [domain/accounts/errors.ts] *)
Definition AccountErrors : list app_error := [
  plain "AccountError" "DomainError"; plain "UsernameNotAvailableError" "AccountError";
  plain "UsernameIsImmutableError" "AccountError"; plain "InvalidAccountError" "AccountError";
  plain "InvalidAccountIdError" "AccountError"; plain "InvalidWalletForAccountError" "AccountError"].

(** [domain/notifications/errors.ts] *)
Definition NotificationsErrors : list app_error := [
  plain "NotificationsError" "DomainError"; plain "NotificationsServiceError" "NotificationsError";
  plain "InvalidDeviceNotificationsServiceError" "NotificationsServiceError";
  plain "DeviceTokensNotRegisteredNotificationsServiceError" "NotificationsServiceError";
  plain "AllDeviceTokensStaleNotificationsServiceError" "NotificationsServiceError";
  plain "NoDeviceAcceptedPushNotificationsServiceError" "NotificationsServiceError";
  plain "RecipientDisabledNotificationsServiceError" "NotificationsServiceError";
  critical "NotificationsServiceUnreachableServerError" "NotificationsServiceError";
  critical "UnknownNotificationsServiceError" "NotificationsError";
  plain "InvalidPushNotificationSettingError" "NotificationsError";
  plain "FirebaseNotAvailable" "NotificationsServiceError";
  plain "FirebaseMessageError" "NotificationsServiceError"].

(** [domain/cache/errors.ts] *)
Definition CacheErrors : list app_error := [
  plain "CacheError" "DomainError"; plain "CacheServiceError" "CacheError";
  plain "CacheNotAvailableError" "CacheServiceError"; plain "CacheUndefinedError" "CacheServiceError";
  critical "UnknownCacheServiceError" "CacheServiceError"; plain "OfferNotFound" "CacheServiceError"].

(** [domain/phone-provider/errors.ts] *)
Definition PhoneProviderServiceErrors : list app_error := [
  plain "PhoneProviderServiceError" "DomainError";
  plain "ExpiredOrNonExistentPhoneNumberError" "PhoneProviderServiceError";
  plain "PhoneProviderRateLimitExceededError" "PhoneProviderServiceError";
  plain "InvalidPhoneNumberPhoneProviderError" "PhoneProviderServiceError";
  plain "RestrictedRegionPhoneProviderError" "PhoneProviderServiceError";
  plain "UnsubscribedRecipientPhoneProviderError" "PhoneProviderServiceError";
  plain "RestrictedRecipientPhoneNumberError" "PhoneProviderServiceError";
  plain "InvalidOrApprovedVerificationError" "PhoneProviderServiceError";
  plain "PhoneCodeInvalidError" "PhoneProviderServiceError";
  warned "PhoneProviderConnectionError" "PhoneProviderServiceError";
  critical "PhoneProviderUnavailableError" "PhoneProviderServiceError";
  critical "UnknownPhoneProviderServiceError" "PhoneProviderServiceError"].

(** [domain/dealer-price/errors.ts] *)
Definition DealerPriceErrors : list app_error := [
  plain "DealerPriceError" "DomainError"; plain "DealerPriceServiceError" "DealerPriceError";
  plain "DealerPriceNotAvailableError" "DealerPriceServiceError";
  critical "NoConnectionToDealerError" "DealerPriceServiceError";
  critical "DealerStalePriceError" "DealerPriceServiceError";
  critical "NoDealerPriceDataAvailableError" "DealerPriceServiceError";
  critical "UnknownDealerPriceServiceError" "DealerPriceServiceError"].

(** [domain/pubsub/errors.ts] *)
Definition PubSubErrors : list app_error := [
  plain "PubSubError" "DomainError"; plain "PubSubServiceError" "PubSubError";
  critical "UnknownPubSubError" "PubSubError"].

(** [domain/captcha/errors.ts] *)
Definition CaptchaErrors : list app_error := [
  plain "CaptchaError" "DomainError"; plain "CaptchaUserFailToPassError" "CaptchaError";
  critical "UnknownCaptchaError" "CaptchaError"].

(** [domain/authentication/errors.ts] *)
Definition AuthenticationErrors : list app_error := [
  plain "AuthenticationError" "DomainError"; plain "LikelyNoUserWithThisPhoneExistError" "AuthenticationError";
  plain "LikelyUserAlreadyExistError" "AuthenticationError";
  plain "AccountHasPositiveBalanceError" "AuthenticationError";
  plain "PhoneAlreadyExistsError" "AuthenticationError"; plain "EmailCodeInvalidError" "AuthenticationError";
  plain "EmailUnverifiedError" "AuthenticationError"; plain "AccountAlreadyHasEmailError" "AuthenticationError";
  plain "IdentifierNotFoundError" "AuthenticationError";
  plain "EmailValidationSubmittedTooOftenError" "AuthenticationError";
  plain "SecretForAuthNCallbackError" "ValidationError";
  plain "MissingSecretForAuthNCallbackError" "SecretForAuthNCallbackError";
  plain "InvalidSecretForAuthNCallbackError" "SecretForAuthNCallbackError";
  plain "RegistrationPayloadValidationError" "ValidationError";
  plain "MissingRegistrationPayloadPropertiesError" "RegistrationPayloadValidationError";
  plain "UnsupportedSchemaTypeError" "RegistrationPayloadValidationError";
  critical "AuthTokenUserIdMismatchError" "AuthenticationError"].

(** [domain/users/errors.ts] *)
Definition UserErrors : list app_error := [
  plain "UnauthorizedPhoneError" "AuthorizationError";
  plain "ExpectedPhoneMetadataMissingError" "UnauthorizedPhoneError";
  plain "PhoneCarrierTypeNotAllowedError" "UnauthorizedPhoneError";
  plain "PhoneCountryNotAllowedError" "UnauthorizedPhoneError";
  plain "InvalidPhoneForOnboardingError" "UnauthorizedPhoneError";
  plain "InvalidPhoneForRewardError" "UnauthorizedPhoneError";
  critical "InvalidPhoneMetadataForOnboardingError" "UnauthorizedPhoneError";
  plain "PhoneMetadataValidationError" "ValidationError";
  plain "InvalidCarrierForPhoneMetadataError" "ValidationError";
  plain "InvalidCarrierTypeForPhoneMetadataError" "ValidationError";
  plain "InvalidCountryCodeForPhoneMetadataError" "ValidationError"].

(** [app/cash-wallet-cutover/errors.ts] *)
Definition CashWalletCutoverErrors : list app_error := [
  plain "InvalidCashWalletCutoverAmountError" "ValidationError";
  plain "InvalidCashWalletMigrationTransitionError" "ValidationError";
  plain "InvalidCashWalletCutoverStateTransitionError" "ValidationError";
  plain "CashWalletCutoverInProgressError" "ValidationError";
  plain "CashWalletMigrationFailedError" "DomainError";
  plain "CashWalletMissingLegacyUsdWalletError" "DomainError";
  plain "CashWalletMissingUsdtWalletError" "DomainError"; plain "CashWalletCutoverPreflightError" "DomainError";
  plain "CashWalletCutoverTreasuryInsufficientBalanceError" "DomainError"].

(** [services/ledger/domain/errors.ts] *)
Definition LedgerFacadeErrors : list app_error := [
  plain "LedgerFacadeError" "DomainError"; plain "NoTransactionToSettleError" "LedgerFacadeError";
  critical "UnknownLedgerError" "LedgerFacadeError"].

(** [services/kratos/errors.ts] *)
Definition KratosErrors : list app_error := [
  plain "KratosError" "AuthenticationError"; critical "MissingSessionIdError" "KratosError";
  plain "AuthenticationKratosError" "KratosError"; plain "ExtendSessionKratosError" "KratosError";
  plain "InvalidIdentitySessionKratosError" "KratosError"; plain "SessionRefreshRequiredError" "KratosError";
  plain "EmailAlreadyExistsError" "KratosError"; plain "PhoneAccountAlreadyExistsError" "KratosError";
  plain "PhoneAccountAlreadyExistsNeedToSweepFundsError" "KratosError";
  plain "PhoneAccountAlreadyExistsCannotUpgradeError" "KratosError";
  critical "MissingCreatedAtKratosError" "KratosError"; critical "MissingExpiredAtKratosError" "KratosError";
  critical "MissingTotpKratosError" "KratosError"; plain "IncompatibleSchemaUpgradeError" "KratosError";
  plain "CodeExpiredKratosError" "KratosError"; critical "UnknownKratosError" "KratosError"].

(** [services/bria/errors.ts] *)
Definition BriaEventErrors : list app_error := [
  plain "BriaEventError" "DomainError"; critical "EventAugmentationMissingError" "BriaEventError";
  critical "BriaPayloadError" "BriaEventError"; plain "NoPayloadFoundError" "BriaPayloadError";
  plain "ExpectedUtxoDetectedPayloadNotFoundError" "BriaPayloadError";
  plain "ExpectedUtxoDroppedPayloadNotFoundError" "BriaPayloadError";
  plain "ExpectedUtxoSettledPayloadNotFoundError" "BriaPayloadError";
  plain "ExpectedPayoutSubmittedPayloadNotFoundError" "BriaPayloadError";
  plain "ExpectedPayoutCommittedPayloadNotFoundError" "BriaPayloadError";
  plain "ExpectedPayoutBroadcastPayloadNotFoundError" "BriaPayloadError";
  plain "ExpectedPayoutSettledPayloadNotFoundError" "BriaPayloadError";
  plain "UnknownPayloadTypeReceivedError" "BriaPayloadError";
  plain "ExpectedAddressInfoMissingInEventError" "BriaPayloadError";
  critical "UnknownBriaEventError" "BriaEventError"].

(** [services/svix/errors.ts] *)
Definition SvixErrors : list app_error := [
  plain "SvixEventError" "DomainError"; critical "UnknownSvixError" "SvixEventError"].

(** [services/ibex/errors.ts] *)
Definition IbexErrors : list app_error := [
  plain "IbexError" "DomainError"; plain "UnexpectedIbexResponse" "IbexError"; plain "ParseError" "IbexError";
  plain "InsufficientIbexBalance" "IbexError"; plain "CompletedInvoice" "IbexError";
  plain "UnconfirmedIbexPayment" "IbexError"; plain "FailedIbexPayment" "IbexError"].

(** [services/frappe/errors.ts] *)
Definition ErpNextErrors : list app_error := [
  plain "ErpNextError" "DomainError"; plain "CashoutDraftError" "ErpNextError";
  plain "CashoutSubmitError" "ErpNextError"; plain "JournalEntryDeleteError" "ErpNextError";
  plain "UpgradeRequestCreateError" "ErpNextError"; plain "UpgradeRequestQueryError" "ErpNextError";
  plain "SetDocTypeValueError" "ErpNextError"; plain "BanksQueryError" "ErpNextError";
  plain "BankAccountQueryError" "ErpNextError"; plain "BankAccountUpdateRequestCreateError" "ErpNextError";
  plain "BankAccountUpdateRequestQueryError" "ErpNextError"; plain "ExchangeRateQueryError" "ErpNextError";
  plain "BridgeTransferRequestUpsertError" "ErpNextError"; plain "FygaroSettingsQueryError" "ErpNextError";
  plain "FeeDiscountQueryError" "ErpNextError"; plain "FygaroTopupHistoryQueryError" "ErpNextError"].

(** [services/bridge/errors.ts] *)
Definition BridgeErrors : list app_error := [
  plain "BridgeError" "DomainError"; plain "BridgeApiError" "BridgeError";
  plain "BridgeRateLimitError" "BridgeError"; plain "BridgeTimeoutError" "BridgeError";
  plain "BridgeCustomerNotFoundError" "BridgeError"; plain "BridgeKycPendingError" "BridgeError";
  plain "BridgeKycRejectedError" "BridgeError"; plain "BridgeKycOffboardedError" "BridgeError";
  plain "BridgeInsufficientFundsError" "BridgeError";
  plain "BridgeWithdrawalNetAmountTooLowError" "BridgeError"; plain "BridgeAccountLevelError" "BridgeError";
  plain "BridgeBelowMinimumWithdrawalError" "BridgeError"; plain "BridgeInvalidAmountError" "BridgeError";
  plain "BridgeDisabledError" "BridgeError"; plain "BridgeTransferFailedError" "BridgeError";
  plain "BridgeDepositInstructionsMissingError" "BridgeError";
  plain "BridgeWebhookValidationError" "BridgeError"; plain "BridgeKycTierCeilingExceededError" "BridgeError";
  plain "BridgeWithdrawalNotFoundError" "BridgeError";
  plain "BridgeWithdrawalAlreadyInitiatedError" "BridgeError";
  plain "BridgePlaidNotAvailableError" "BridgeError"; plain "BridgeInvalidPlaidTokenError" "BridgeError"].

(** [services/fygaro/errors.ts] *)
Definition FygaroErrors : list app_error := [
  plain "FygaroError" "DomainError"; plain "FygaroCheckoutDisabledError" "FygaroError";
  plain "FygaroBelowMinimumError" "FygaroError"; plain "FygaroAboveSinglePaymentLimitError" "FygaroError";
  plain "FygaroDailyAllowanceExceededError" "FygaroError"; plain "FygaroCheckoutAlreadyOpenError" "FygaroError";
  plain "FygaroAllowanceUnavailableError" "FygaroError"; plain "FygaroLevelNotEligibleError" "FygaroError";
  plain "FygaroReservationWriteError" "FygaroError"].

(** [domain/api-keys/errors.ts] *)
Definition ApiKeyErrors : list app_error := [
  plain "ApiKeyError" "ValidationError"; plain "InvalidApiKeyNameError" "ApiKeyError";
  plain "InvalidApiKeyScopeError" "ApiKeyError"; plain "InvalidApiKeyIpConstraintError" "ApiKeyError";
  plain "InvalidApiKeyRateLimitError" "ApiKeyError"; plain "MaxApiKeysPerAccountError" "ApiKeyError";
  plain "InvalidApiKeyFormatError" "ApiKeyError"; plain "ApiKeyExpiredError" "ApiKeyError";
  plain "ApiKeySecretMismatchError" "ApiKeyError"; plain "ApiKeyIpNotAllowedError" "ApiKeyError";
  plain "ApiKeyCannotManageApiKeysError" "ApiKeyError"; plain "InsufficientApiKeyScopeError" "ApiKeyError"].

(** [app/errors.ts] *)
Definition ApplicationErrors : list app_error :=
  SharedErrors ++ DomainErrors ++ PaymentErrors ++ LedgerErrors ++ CallbackErrors ++ CommErrors ++ OnChainErrors ++ LightningErrors ++ PriceServiceErrors ++ LockServiceErrors ++ RateLimitServiceErrors ++ IpFetcherErrors ++ AccountErrors ++ NotificationsErrors ++ CacheErrors ++ PhoneProviderServiceErrors ++ DealerPriceErrors ++ PubSubErrors ++ CaptchaErrors ++ AuthenticationErrors ++ UserErrors ++ CashWalletCutoverErrors ++ LedgerFacadeErrors ++ KratosErrors ++ BriaEventErrors ++ SvixErrors ++ IbexErrors ++ ErpNextErrors ++ BridgeErrors ++ FygaroErrors ++ ApiKeyErrors.

(** ** The errors of the GraphQL server *)

(** What a class passes to [CustomApolloError]; the caller's data override the
    message, the visibility and the level. *)
Record gql_class := mkClass {
  gc_name : string; gc_code : string; gc_message : option string; gc_forward : bool; gc_level : option string }.

(** [CustomApolloError] as the response and the log see it *)
Record gql_error := mkGqlError { ge_message : string; ge_code : string; ge_forward : bool; ge_level : string }.

Definition CustomApolloError (code : string) (message : option string) (forward : bool) (level : option string) :
    gql_error :=
  mkGqlError (default code message) code forward (default "warn" level).

Section Boundary.
Context (dustThreshold : Z).

Definition payment_classes : list gql_class := [
  mkClass "TransactionRestrictedError" "TRANSACTION_RESTRICTED" None true None;
  mkClass "UnknownClientError" "UNKNOWN_CLIENT_ERROR" None true None;
  mkClass "UnexpectedClientError" "UNEXPECTED_CLIENT_ERROR" None true None;
  mkClass "InsufficientBalanceError" "INSUFFICIENT_BALANCE" (Some "balance is too low") true None;
  mkClass "SelfPaymentError" "CANT_PAY_SELF" (Some "User tried to pay themselves") true None;
  mkClass "ValidationInternalError" "INVALID_INPUT" None true None;
  mkClass "InputValidationError" "INVALID_INPUT" None true None;
  mkClass "NotFoundError" "NOT_FOUND" None true None;
  mkClass "NewAccountWithdrawalError" "NEW_ACCOUNT_WITHDRAWAL_RESTRICTED" None true None;
  mkClass "TooManyRequestError" "TOO_MANY_REQUEST" (Some "Too many requests") true None;
  mkClass "DbError" "DB_ERROR" None true None;
  mkClass "LightningPaymentError" "LIGHTNING_PAYMENT_ERROR" None true None;
  mkClass "OnChainPaymentError" "ONCHAIN_PAYMENT_ERROR" None true None;
  mkClass "RouteFindingError" "ROUTE_FINDING_ERROR" (Some "Unable to find a route for payment") true None;
  mkClass "DustAmountError" "ENTERED_DUST_AMOUNT" (Some ("Use lightning to send amounts less than " +:+ bigint_toString dustThreshold +:+ " sats")) true None;
  mkClass "LndOfflineError" "LND_OFFLINE" None true None].

Definition service_classes : list gql_class := [
  mkClass "DealerError" "DEALER_ERROR" None true None;
  mkClass "DealerOfflineError" "DEALER_OFFLINE" None true None;
  mkClass "CaptchaFailedError" "REJECTED_CAPTCHA_FAILED" (Some "Unable to estimate onchain fee") true None;
  mkClass "OnChainFeeEstimationError" "ONCHAIN_FEE_ESTIMATION_ERROR" (Some "Unable to estimate onchain fee") true None;
  mkClass "InvoiceDecodeError" "INVOICE_DECODE_ERROR" (Some "Unable to decode invoice") true None;
  mkClass "VerificationCodeError" "PHONE_CODE_ERROR" (Some "Incorrect phone code") true None;
  mkClass "PhoneProviderError" "PHONE_PROVIDER_ERROR" (Some "Issue with phone provider") true None;
  mkClass "InvalidCoordinatesError" "INVALID_COORDINATES" 
    (Some "Latitude must be between -90 and 90 and longitude between -180 and 180") true None;
  mkClass "InvalidBusinessTitleLengthError" "INVALID_TITLE" 
    (Some "Title should be between 3 and 100 characters long") true None;
  mkClass "UsernameError" "USERNAME_ERROR" (Some "Username issue") true None;
  mkClass "InsufficientLiquidityError" "LIQUIDITY_ERROR" (Some "Temporary funds offline issue") true None].

Definition account_classes : list gql_class := [
  mkClass "AuthenticationError" "NOT_AUTHENTICATED" (Some "Not authenticated") true None;
  mkClass "AuthorizationError" "NOT_AUTHORIZED" (Some "Not authorized") true None;
  mkClass "PhoneAccountAlreadyExistsError" "PHONE_ACCOUNT_ALREADY_EXISTS_ERROR" 
    (Some "Phone Account already exists. Please logout and log back in with your phone account") true None;
  mkClass "EmailAlreadyExistsError" "EMAIL_ACCOUNT_ALREADY_EXISTS_ERROR" 
    (Some "Email account already exists. Please logout and log back in with your email account") true None;
  mkClass "CodeExpiredError" "CODE_EXPIRED_ERROR" 
    (Some "Code has expired. please ask for a new code and try again") true None;
  mkClass "SessionRefreshRequiredError" "SESSION_REFRESH_REQUIRED_ERROR" (Some "Session refresh required.") true None;
  mkClass "UnauthorizedIPForOnboardingError" "IP_NOT_ALLOWED_TO_ONBOARD_ERROR" 
    (Some "This IP address is not allowed to onboard.") true None;
  mkClass "InvalidPhoneForOnboardingError" "PHONE_NOT_ALLOWED_TO_ONBOARD_ERROR" 
    (Some "This phone number is not allowed to onboard.") true None;
  mkClass "UnauthorizedIPMetadataCountryError" "UNAUTHORIZED_COUNTRY_IP_FOR_REWARD" (Some "Country not not authorized for rewards.") true None;
  mkClass "UnauthorizedIPMetadataProxyError" "UNAUTHORIZED_VPN_IP_FOR_REWARD" (Some "VPN ips are not authorized for rewards.") true None;
  mkClass "UnauthorizedIPError" "UNAUTHORIZED_IP_FOR_REWARD" (Some "This ip is unauthorized for rewards.") true None;
  mkClass "InvalidPhoneMetadataForOnboardingError" "INVALID_PHONE_METADATA_FOR_ONBOARDING_ERROR" (Some "Error fetching phone information.") true None;
  mkClass "PhoneAccountAlreadyExistsCannotUpgradeError" "PHONE_ALREADY_REGISTERED_TO_ANOTHER_USER" 
    (Some "Phone number is already registered to another user. Please log out and log in with that phone account.") true None;
  mkClass "PhoneAccountAlreadyExistsNeedToSweepFundsError" "PHONE_ACCOUNT_ALREADY_EXISTS_NEED_TO_SWEEP_FUNDS_ERROR" 
    (Some "Error phone account already exists. You need to manually sweep funds to your phone account") true None;
  mkClass "EmailUnverifiedError" "EMAIL_NOT_VERIFIED_ERROR" 
    (Some "Email is not verified. Please verify your email and try again") true None;
  mkClass "AccountAlreadyHasEmailError" "EMAIL_ALREADY_ATTACHED_ERROR" 
    (Some "An email is already attached to this account. It's only possible to attach one email per account") true None;
  mkClass "PhoneAlreadyExistsError" "PHONE_ALREADY_ATTACHED_ERROR" 
    (Some "A phone is already attached to this account. It's only possible to attach one phone per account") true None;
  mkClass "InvalidLnurlError" "INVALID_LNURL" (Some "Invalid LNURL provided") true None;
  mkClass "IbexError" "IBEX_ERROR" 
    (Some "An error occurred. Contact support if error persists.") true None;
  mkClass "InternalServerError" "INTERNAL_SERVER_ERROR" None false (Some "error");
  mkClass "PushNotificationError" "FIREBASE_ERROR" None true (Some "error")].

Definition gql_classes : list gql_class := payment_classes ++ service_classes ++ account_classes.

(** ** The arms of the switch *)

(** The message of an arm: that of the error, a text, a text around the error's
    message, the error's message or a text in its place, a text with the name of
    the error, one with its message too, or the text on the service. *)
Inductive template :=
| Own
| Text (s : string)
| Around (before after : string)
| OwnOr (s : string)
| Coded (s : string)
| Detailed (s : string)
| Service.

Definition fill (t : template) (name message : string) : string :=
  match t with
  | Own => message
  | Text s => s
  | Around before after => before +:+ message +:+ after
  | OwnOr s => if nonempty message then message else s
  | Coded s => s +:+ name +:+ ")"
  | Detailed s => s +:+ name +:+ (if nonempty message then ": " +:+ message else "") +:+ ")"
  | Service => (if str_includes "OffChainService" name then "Offchain" else "Onchain") +:+
      " action failed, please try again in a few minutes. If the problem persists, please contact support. If you are on regtest, it might because blocks need to be generated so that lnd can be considered active."
  end.

(** A class by its name, or [bridgeGqlError] with a code *)
Inductive target := Class (name : string) | CodeOnly (code : string).

Record arm := mkArm_ {
  ar_names : list string; ar_target : target; ar_message : option template; ar_forward : option bool;
  ar_level : option string }.
Definition mkArm (names : list string) (t : target) (m : option template) : arm := mkArm_ names t m None None.

(** The arms of the switch on payments and lookups *)
Definition payment_arms : list arm := [
  mkArm ["WithdrawalLimitsExceededError"] (Class "TransactionRestrictedError") (Some Own);
  mkArm ["IntraledgerLimitsExceededError"] (Class "TransactionRestrictedError") (Some Own);
  mkArm ["TradeIntraAccountLimitsExceededError"] (Class "TransactionRestrictedError") (Some Own);
  mkArm ["CompletedInvoice"; "AlreadyPaidError"] (Class "LightningPaymentError")
    (Some (Text "Invoice is already paid"));
  mkArm ["CouldNotFindWalletInvoiceError"] (Class "LightningPaymentError")
    (Some (Around "User tried to pay invoice with hash " ", but it does not exist"));
  mkArm ["NoValidNodeForPubkeyError"] (Class "LightningPaymentError")
    (Some (Text "Temporary failure when trying to pay, please retry payment"));
  mkArm ["PaymentAttemptsTimedOutError"] (Class "LightningPaymentError")
    (Some (Text "Temporary failure when trying to pay, please try again later"));
  mkArm ["PaymentRejectedByDestinationError"] (Class "LightningPaymentError")
    (Some (Text "Payment was rejected by destination as invalid"));
  mkArm ["InvoiceExpiredOrBadPaymentHashError"] (Class "LightningPaymentError")
    (Some (Text "Invoice already expired, or has bad payment hash"));
  mkArm ["CouldNotFindUserFromIdError"] (Class "NotFoundError")
    (Some (Around "User does not exist for id " EmptyString));
  mkArm ["CouldNotFindAccountFromUuidError"] (Class "NotFoundError")
    (Some (Around "Account does not exist for uuid " EmptyString));
  mkArm ["CouldNotFindAccountFromUsernameError"] (Class "NotFoundError")
    (Some (Around "Account does not exist for username " EmptyString));
  mkArm ["CouldNotFindMerchantFromUsernameError"] (Class "NotFoundError")
    (Some (Around "Merchant does not exist for username " EmptyString));
  mkArm ["CouldNotFindMerchantFromIdError"] (Class "NotFoundError")
    (Some (Around "Merchant does not exist for ID " EmptyString));
  mkArm ["CouldNotFindTransactionsForAccountError"] (Class "NotFoundError")
    (Some (Text "No transactions found for your account."));
  mkArm ["CouldNotFindUserFromPhoneError"] (Class "NotFoundError")
    (Some (Around "User does not exist for phone " EmptyString));
  mkArm ["CouldNotFindUserFromWalletIdError"] (Class "NotFoundError")
    (Some (Around "User does not exist for wallet-id " EmptyString));
  mkArm ["CouldNotFindUserFromEmailError"] (Class "NotFoundError") (Some (Text "User does not exist for email"));
  mkArm ["ContactNotExistentError"] (Class "NotFoundError")
    (Some (Around "Contact does not exist for account " EmptyString));
  mkArm ["IdentifierNotFoundError"] (Class "NotFoundError") (Some (Around "Identifier does not exist " EmptyString))].

(** The arms of the switch on inputs *)
Definition input_arms : list arm := [
  mkArm ["SelfPaymentError"] (Class "SelfPaymentError") (Some (Text "User tried to pay themselves"));
  mkArm ["LnInvoiceMissingPaymentSecretError"] (Class "InvoiceDecodeError")
    (Some (Text "Invoice is missing its 'payment secret' value"));
  mkArm ["InvalidChecksumForLnInvoiceError"] (Class "InvoiceDecodeError")
    (Some (Text "Invoice has an invalid checksum, please check again"));
  mkArm ["LnPaymentRequestInTransitError"] (Class "ValidationInternalError")
    (Some (Text "There is a pending payment for this invoice"));
  mkArm [
      "InvalidApiKeyNameError"; "InvalidApiKeyScopeError"; "InvalidApiKeyIpConstraintError";
      "InvalidApiKeyRateLimitError"; "InvalidApiKeyFormatError"; "MaxApiKeysPerAccountError";
      "InsufficientApiKeyScopeError"]
    (Class "ValidationInternalError") (Some Own);
  mkArm ["ApiKeyExpiredError"] (Class "ValidationInternalError") (Some (Text "This API key has expired"));
  mkArm ["ApiKeySecretMismatchError"] (Class "ValidationInternalError") (Some (Text "Invalid API key"));
  mkArm ["ApiKeyIpNotAllowedError"] (Class "ValidationInternalError")
    (Some (Text "API key not allowed from this IP"));
  mkArm ["ApiKeyCannotManageApiKeysError"] (Class "ValidationInternalError")
    (Some (Text "API keys cannot be managed while authenticated with an API key"));
  mkArm ["SatoshiAmountRequiredError"] (Class "ValidationInternalError")
    (Some (Text "An amount is required to complete payment"));
  mkArm ["InvalidSatoshiAmountError"] (Class "ValidationInternalError")
    (Some (Text "A valid satoshi amount is required"));
  mkArm ["InvalidBtcPaymentAmountError"] (Class "ValidationInternalError")
    (Some (Text "A valid satoshi amount is required"));
  mkArm ["InvalidUsdPaymentAmountError"] (Class "ValidationInternalError")
    (Some (Text "A valid usd amount is required"));
  mkArm ["BtcAmountTooLargeError"] (Class "ValidationInternalError") (Some (Text "Sats amount passed is too large"));
  mkArm ["UsdAmountTooLargeError"] (Class "ValidationInternalError")
    (Some (Text "Usd cents amount passed is too large"));
  mkArm ["LnPaymentRequestNonZeroAmountRequiredError"] (Class "ValidationInternalError")
    (Some (Text "Invoice does not have a valid amount to pay"));
  mkArm ["LnPaymentRequestZeroAmountRequiredError"] (Class "ValidationInternalError")
    (Some (Text "Invoice must be a zero-amount invoice"));
  mkArm ["InvalidPhoneNumberPhoneProviderError"] (Class "ValidationInternalError")
    (Some (Text "Phone number is not a valid phone number"));
  mkArm ["RestrictedRegionPhoneProviderError"] (Class "ValidationInternalError")
    (Some (Text "Phone number is not from a valid region"));
  mkArm ["PhoneProviderConnectionError"; "PhoneProviderUnavailableError"] (Class "PhoneProviderError")
    (Some (Text "Phone provider temporarily unreachable"));
  mkArm ["PhoneProviderRateLimitExceededError"] (Class "PhoneProviderError")
    (Some (Text "Too many phone number attempts, please try again in a few minutes."));
  mkArm ["RestrictedRecipientPhoneNumberError"] (Class "PhoneProviderError")
    (Some (Text "Issue detected with phone number. Please try again later or contact support."));
  mkArm ["InvalidOrApprovedVerificationError"] (Class "PhoneProviderError")
    (Some (Text "Issue detected with verification. Please try again later or contact support."));
  mkArm ["UnsubscribedRecipientPhoneProviderError"] (Class "ValidationInternalError")
    (Some (Text "Phone number has opted out of receiving messages"));
  mkArm ["InvalidContactAlias"] (Class "ValidationInternalError")
    (Some (Text "ContactAlias has incorrect characters or length"))].

(** The arms of the switch on attempts, codes and routes *)
Definition attempt_arms : list arm := [
  mkArm ["InvoiceCreateRateLimiterExceededError"; "InvoiceCreateForRecipientRateLimiterExceededError"] (Class "TooManyRequestError")
    (Some (Text "Too many invoices creation, please wait for a while and try again."));
  mkArm ["OnChainAddressCreateRateLimiterExceededError"] (Class "TooManyRequestError")
    (Some (Text "Too many onchain addresses creation, please wait for a while and try again."));
  mkArm ["FygaroCheckoutCreateRateLimiterExceededError"] (Class "TooManyRequestError")
    (Some (Text "Too many card top-up attempts, please wait for a while and try again."));
  mkArm ["UserCodeAttemptIdentifierRateLimiterExceededError"] (Class "TooManyRequestError")
    (Some (Text "Too many request code attempts, please wait for a while and try again."));
  mkArm ["UserCodeAttemptIpRateLimiterExceededError"] (Class "TooManyRequestError")
    (Some (Text "Too many phone code attempts on same network, please wait for a while and try again."));
  mkArm ["CreateDeviceAccountIpRateLimiterExceededError"] (Class "TooManyRequestError")
    (Some (Text "Too many account creation attempts on same network, please wait for a while and try again."));
  mkArm ["PhoneCodeInvalidError"] (Class "VerificationCodeError") (Some (Text "Invalid or incorrect code entered."));
  mkArm ["EmailCodeInvalidError"] (Class "VerificationCodeError") (Some (Text "Invalid or incorrect code entered."));
  mkArm ["ExpiredOrNonExistentPhoneNumberError"] (Class "VerificationCodeError")
    (Some (Text "Invalid or incorrect phone entered."));
  mkArm ["CouldNotFindAccountFromPhoneError"] (Class "VerificationCodeError")
    (Some (Text "Invalid or incorrect phone entered."));
  mkArm ["UserLoginIdentifierRateLimiterExceededError"] (Class "TooManyRequestError")
    (Some (Text "Too many login attempts, please wait for a while and try again."));
  mkArm ["EmailValidationSubmittedTooOftenError"] (Class "TooManyRequestError")
    (Some (Text "Too many attempts, please wait for a while and try again."));
  mkArm ["UserLoginIpRateLimiterExceededError"] (Class "TooManyRequestError")
    (Some (Text "Too many login attempts on same network, please wait for a while and try again."));
  mkArm ["InvalidQuizQuestionIdError"] (Class "ValidationInternalError")
    (Some (Text "Invalid quiz question id was passed."));
  mkArm ["InvalidPushNotificationSettingError"] (Class "ValidationInternalError")
    (Some (Text "Invalid push notification setting was passed."));
  mkArm ["RewardAlreadyPresentError"] (Class "ValidationInternalError")
    (Some (Text "Reward for quiz question was already claimed."));
  mkArm ["SubOneCentSatAmountForUsdSelfSendError"] (Class "ValidationInternalError")
    (Some (Text "Amount sent was too low for recipient's usd wallet."));
  mkArm ["InvalidPhoneForRewardError"] (Class "ValidationInternalError")
    (Some (Text "Unsupported phone carrier for rewards."));
  mkArm ["InvalidIpMetadataError"] (Class "ValidationInternalError") (Some (Text "Unsupported IP."));
  mkArm ["NoDealerPriceDataAvailableError"] (Class "DealerError")
    (Some (Text "No price data from dealer to perform USD operation."));
  mkArm ["NoConnectionToDealerError"] (Class "DealerOfflineError")
    (Some (Text "No connection to dealer to perform USD operation."));
  mkArm ["DealerStalePriceError"] (Class "DealerOfflineError")
    (Some (Text "Stale dealer price, can't perform USD operation."));
  mkArm ["RouteNotFoundError"; "MaxFeeTooLargeForRoutelessPaymentError"] (Class "RouteFindingError")
    (Some (Text "Unable to find a route for payment."));
  mkArm ["DestinationMissingDependentFeatureError"] (Class "RouteFindingError")
    (Some (Text "Unable to pay incompatible recipient."));
  mkArm ["UnknownNextPeerError"] (Class "RouteFindingError") (Some (Text "Unable to find a route for payment."));
  mkArm ["ProbeForRouteTimedOutError"; "ProbeForRouteTimedOutFromApplicationError"] (Class "RouteFindingError")
    (Some (Text "Unable to find a route for payment."));
  mkArm ["PaymentInTransitionError"] (Class "LightningPaymentError")
    (Some (Text "Payment was sent and is still in transition."));
  mkArm ["TemporaryChannelFailureError"; "TemporaryNodeFailureError"] (Class "LightningPaymentError")
    (Some (Text "Issue with lightning payment, please try again."))].

(** The arms of the switch on accounts and balances *)
Definition account_arms : list arm := [
  mkArm ["UsernameNotAvailableError"] (Class "UsernameError") (Some (Text "username not available"));
  mkArm ["UsernameIsImmutableError"] (Class "UsernameError") (Some (Text "username is immutable"));
  mkArm ["InvalidWalletId"] (Class "ValidationInternalError") (Some (Text "Invalid walletId for account."));
  mkArm ["InvalidDisplayCurrencyError"] (Class "ValidationInternalError") (Some (Text "Invalid currency."));
  mkArm ["MismatchedCurrencyForWalletError"] (Class "ValidationInternalError")
    (Some (Text "Unsupported operation for wallet's currency."));
  mkArm ["UnsupportedCurrencyError"] (Class "ValidationInternalError") None;
  mkArm ["InsufficientBalanceError"; "InsufficientIbexBalance"] (Class "InsufficientBalanceError") (Some Own);
  mkArm ["CaptchaUserFailToPassError"] (Class "ValidationInternalError") (Some (Text "Captcha validation failed."));
  mkArm ["AmountLessThanFeeError"; "LessThanDustThresholdError"] (Class "ValidationInternalError") (Some Own);
  mkArm ["OffChainServiceUnavailableError"; "OffChainServiceBusyError"; "OnChainServiceUnavailableError"] (Class "LndOfflineError")
    (Some Service);
  mkArm ["InactiveAccountError"] (Class "ValidationInternalError") (Some (Text "Account is inactive."));
  mkArm ["InvalidPriceCurrencyError"] (Class "ValidationInternalError") (Some (Text "Invalid currency."));
  mkArm ["InvalidCoordinatesError"] (Class "InvalidCoordinatesError") None;
  mkArm ["InvalidBusinessTitleLengthError"] (Class "InvalidBusinessTitleLengthError") None;
  mkArm ["CannotConnectToDbError"; "DbConnectionClosedError"] (Class "DbError")
    (Some (Text "Service offline, please try again in a few minutes. If the problem persists, please contact support."));
  mkArm ["InvalidPaginationArgumentsError"] (Class "ValidationInternalError")
    (Some (Text "Invalid pagination arguments"));
  mkArm ["AccountHasPositiveBalanceError"] (Class "ValidationInternalError")
    (Some (Text "The phone is associated with an existing wallet that has a non zero balance. Sweep the funds and try again."));
  mkArm ["PhoneAccountAlreadyExistsError"] (Class "PhoneAccountAlreadyExistsError")
    (Some (Text "Phone Account already exists. Please logout and log back in with your phone account."));
  mkArm ["PhoneAccountAlreadyExistsNeedToSweepFundsError"] (Class "PhoneAccountAlreadyExistsNeedToSweepFundsError")
    (Some (Text "Error phone account already exists. You need to manually sweep funds to your phone account."));
  mkArm ["PhoneAccountAlreadyExistsCannotUpgradeError"] (Class "PhoneAccountAlreadyExistsCannotUpgradeError")
    (Some (Text "Phone number is already registered to another user. Please log out and log in with that phone account."));
  mkArm ["InvalidIdempotencyKeyError"] (Class "ValidationInternalError")
    (Some (Text "Invalid format for the provided ImpotencyKey. You must use a UUID-v4 format"));
  mkArm ["IdempotencyKeyReuseError"] (Class "ValidationInternalError")
    (Some (Text "This idempotency key was already used for a different payment. Use a new key for a new payment."));
  mkArm ["EmailUnverifiedError"] (Class "EmailUnverifiedError") None;
  mkArm ["AccountAlreadyHasEmailError"] (Class "AccountAlreadyHasEmailError") None;
  mkArm ["PhoneAlreadyExistsError"] (Class "PhoneAlreadyExistsError") None;
  mkArm ["EmailAlreadyExistsError"] (Class "EmailAlreadyExistsError") None;
  mkArm ["CodeExpiredKratosError"] (Class "CodeExpiredError") None;
  mkArm ["SessionRefreshRequiredError"] (Class "SessionRefreshRequiredError") None;
  mkArm ["UnauthorizedIPForOnboardingError"] (Class "UnauthorizedIPForOnboardingError") None;
  mkArm ["InvalidPhoneMetadataForOnboardingError"] (Class "InvalidPhoneMetadataForOnboardingError") None;
  mkArm ["InvalidPhoneForOnboardingError"] (Class "InvalidPhoneForOnboardingError") None;
  mkArm ["UnauthorizedIPError"] (Class "UnauthorizedIPError") None;
  mkArm ["UnauthorizedIPMetadataProxyError"] (Class "UnauthorizedIPMetadataProxyError") None;
  mkArm ["UnauthorizedIPMetadataCountryError"] (Class "UnauthorizedIPMetadataCountryError") None].

(** The arms of the switch on IBEX, cashouts and Bridge *)
Definition bridge_arms : list arm := [
  mkArm ["IbexError"; "UnexpectedIbexResponse"; "FailedIbexPayment"] (Class "IbexError") None;
  mkArm ["OfferNotFound"] (Class "NotFoundError") (Some (Text "Offer not available. Try again."));
  mkArm ["BridgeInvalidAmountError"] (CodeOnly "BRIDGE_INVALID_AMOUNT")
    (Some (OwnOr "Amount must be strictly positive with at most 6 decimal places"));
  mkArm ["BridgeBelowMinimumWithdrawalError"] (CodeOnly "BRIDGE_BELOW_MINIMUM_WITHDRAWAL")
    (Some (OwnOr "Withdrawal amount is below the minimum"));
  mkArm ["BridgeDisabledError"] (CodeOnly "BRIDGE_DISABLED") (Some (Text "Bridge integration is currently disabled"));
  mkArm ["BridgeAccountLevelError"] (CodeOnly "BRIDGE_ACCOUNT_LEVEL_ERROR")
    (Some (OwnOr "Bridge requires at least a Personal account (Level 1+)"));
  mkArm ["BridgeKycPendingError"] (CodeOnly "BRIDGE_KYC_PENDING") (Some (Text "KYC verification is pending"));
  mkArm ["BridgeKycRejectedError"] (CodeOnly "BRIDGE_KYC_REJECTED") (Some (Text "KYC verification was rejected"));
  mkArm ["BridgeKycOffboardedError"] (CodeOnly "BRIDGE_KYC_OFFBOARDED")
    (Some (Text "Your account has been offboarded from Bridge. Please contact support."));
  mkArm ["BridgeKycTierCeilingExceededError"] (CodeOnly "BRIDGE_KYC_TIER_CEILING_EXCEEDED")
    (Some (OwnOr "Withdrawal amount exceeds the KYC tier ceiling"));
  mkArm ["BridgeCustomerNotFoundError"] (CodeOnly "BRIDGE_CUSTOMER_NOT_FOUND") (Some (Text "Bridge customer not found"));
  mkArm ["BridgeInsufficientFundsError"] (CodeOnly "BRIDGE_INSUFFICIENT_FUNDS")
    (Some (Text "Insufficient funds for withdrawal"));
  mkArm ["BridgeWithdrawalNetAmountTooLowError"] (CodeOnly "BRIDGE_WITHDRAWAL_NET_AMOUNT_TOO_LOW")
    (Some (OwnOr "Withdrawal amount must exceed estimated customer fees"));
  mkArm ["BridgeWithdrawalNotFoundError"] (CodeOnly "BRIDGE_WITHDRAWAL_NOT_FOUND")
    (Some (OwnOr "Withdrawal request not found"));
  mkArm ["BridgeWithdrawalAlreadyInitiatedError"] (CodeOnly "BRIDGE_WITHDRAWAL_ALREADY_INITIATED")
    (Some (OwnOr "Withdrawal has already been submitted to Bridge and cannot be cancelled"));
  mkArm ["BridgeRateLimitError"] (CodeOnly "BRIDGE_RATE_LIMIT")
    (Some (Text "Rate limit exceeded, please try again later"));
  mkArm ["BridgeTimeoutError"] (CodeOnly "BRIDGE_TIMEOUT") (Some (Text "Request timed out"))].

(** The arms of the switch on transfers, Plaid and card top-ups *)
Definition topup_arms : list arm := [
  mkArm ["BridgeTransferFailedError"] (CodeOnly "BRIDGE_TRANSFER_FAILED") (Some (OwnOr "Transfer failed"));
  mkArm ["BridgeDepositInstructionsMissingError"] (CodeOnly "BRIDGE_DEPOSIT_INSTRUCTIONS_MISSING")
    (Some (OwnOr "Bridge did not return crypto deposit instructions for this withdrawal"));
  mkArm ["BridgeWebhookValidationError"] (CodeOnly "BRIDGE_WEBHOOK_VALIDATION")
    (Some (Text "Invalid webhook signature"));
  mkArm ["BridgeApiError"] (CodeOnly "BRIDGE_API_ERROR") (Some (OwnOr "Bridge API error"));
  mkArm ["BridgePlaidNotAvailableError"] (CodeOnly "BRIDGE_PLAID_NOT_AVAILABLE")
    (Some (OwnOr "Plaid bank account linking is not available"));
  mkArm ["FygaroCheckoutDisabledError"] (CodeOnly "FYGARO_CHECKOUT_DISABLED")
    (Some (OwnOr "Card top-up is currently unavailable"));
  mkArm ["FygaroBelowMinimumError"] (CodeOnly "FYGARO_BELOW_MINIMUM")
    (Some (OwnOr "Amount is below the minimum top-up"));
  mkArm ["FygaroAboveSinglePaymentLimitError"] (CodeOnly "FYGARO_ABOVE_SINGLE_PAYMENT_LIMIT")
    (Some (OwnOr "Amount is above the single top-up limit"));
  mkArm ["FygaroDailyAllowanceExceededError"] (CodeOnly "FYGARO_DAILY_ALLOWANCE_EXCEEDED")
    (Some (OwnOr "Amount is above your remaining daily top-up allowance"));
  mkArm ["FygaroCheckoutAlreadyOpenError"] (CodeOnly "FYGARO_CHECKOUT_ALREADY_OPEN")
    (Some (OwnOr "You already have a card top-up link open"));
  mkArm ["FygaroAllowanceUnavailableError"] (CodeOnly "FYGARO_ALLOWANCE_UNAVAILABLE")
    (Some (OwnOr "Could not check your top-up allowance right now"));
  mkArm ["FygaroLevelNotEligibleError"] (CodeOnly "FYGARO_LEVEL_NOT_ELIGIBLE")
    (Some (OwnOr "Card top-up isn't available on your account level yet"));
  mkArm ["BridgeInvalidPlaidTokenError"] (CodeOnly "BRIDGE_INVALID_PLAID_TOKEN")
    (Some (OwnOr "linkToken and publicToken are required"));
  mkArm ["BridgeError"] (CodeOnly "BRIDGE_ERROR") (Some (OwnOr "Bridge API error"))].

(** The arms of the switch on errors no caller is meant to see *)
Definition unhandled_arms : list arm := [
  mkArm [
      "RateLimiterExceededError"; "RateLimitError"; "RateLimitServiceError"; "CouldNotFindUserError";
      "LedgerError"; "LedgerServiceError"; "LedgerFacadeError"; "LightningError"; "BadPaymentDataError";
      "LnInvoiceDecodeError"; "LightningServiceError"; "CouldNotDecodeReturnedPaymentRequest";
      "InvoiceNotFoundError"; "LnPaymentPendingError"; "LnAlreadyPaidError"; "PaymentNotFoundError";
      "OperationInterruptedError"; "InconsistentDataError"; "AuthorizationError"; "RepositoryError";
      "PersistError"; "DuplicateError"; "CouldNotFindError"; "CouldNotUpdateError"; "ValidationError";
      "LnRouteValidationError"; "BadAmountForRouteError"; "InvalidUsername"; "InvalidDeviceId";
      "InvalidIdentityPassword"; "InvalidIdentityUsername"; "InvalidPhoneNumber"; "InvalidTotpCode";
      "InvalidEmailAddress"; "NoContactForUsernameError"; "NoWalletExistsForUserError";
      "NoBtcWalletExistsForAccountError"; "LimitsExceededError"; "CouldNotFindLightningPaymentFlowError";
      "NoExpiredLightningPaymentFlowsError"; "CouldNotUpdateLightningPaymentFlowError";
      "CouldNotFindWalletFromIdError"; "CouldNotListWalletsFromAccountIdError";
      "CouldNotFindWalletFromUsernameError"; "CouldNotFindWalletFromUsernameAndCurrencyError";
      "CouldNotFindWalletFromAccountIdAndCurrencyError"; "CouldNotFindWalletFromOnChainAddressError";
      "CouldNotFindWalletFromOnChainAddressesError"; "CouldNotFindBtcWalletForAccountError";
      "CouldNotListWalletsFromWalletCurrencyError"; "CouldNotFindWalletOnChainPendingReceiveError";
      "CouldNotFindLnPaymentFromHashError"; "LockError"; "LockServiceError"; "ResourceAttemptsLockServiceError";
      "ResourceExpiredLockServiceError"; "PriceError"; "PriceServiceError"; "PriceNotAvailableError";
      "DealerPriceNotAvailableError"; "PriceHistoryNotAvailableError"; "PriceCurrenciesNotAvailableError";
      "OnChainError"; "TransactionDecodeError"; "OnChainServiceError";
      "OnChainAddressAlreadyCreatedForRequestIdError"; "OnChainAddressNotFoundError"; "PayoutNotFoundError";
      "PayoutDestinationBlocked"; "NotificationsError"; "NotificationsServiceError";
      "InvalidDeviceNotificationsServiceError"; "DeviceTokensNotRegisteredNotificationsServiceError";
      "AllDeviceTokensStaleNotificationsServiceError"; "NoDeviceAcceptedPushNotificationsServiceError";
      "RecipientDisabledNotificationsServiceError"; "AccountError"; "IpFetcherError"; "IpFetcherServiceError";
      "CouldNotFindTransactionError"; "CouldNotFindTransactionMetadataError";
      "CouldNotFindExpectedTransactionMetadataError"; "InvalidDocumentIdForDbError";
      "DuplicateKeyForPersistError"; "MismatchedResultForTransactionMetadataQuery";
      "InvalidLedgerTransactionId"; "MultiplePendingPaymentsForHashError";
      "MissingExpectedDisplayAmountsForTransactionError"; "CacheError"; "CacheNotAvailableError";
      "CacheServiceError"; "CacheUndefinedError"; "PhoneProviderServiceError";
      "ExpectedPhoneMetadataMissingError"; "PhoneCarrierTypeNotAllowedError"; "PhoneCountryNotAllowedError";
      "MissingIPMetadataError"; "UnauthorizedIPMetadataASNError"; "InvalidAccountStatusError";
      "InvalidOnChainAddress"; "InvalidScanDepthAmount"; "InsufficientBalanceForRoutingError";
      "InsufficientBalanceForLnPaymentError"; "InvalidLanguageError"; "InvalidAccountLevelError";
      "InvalidAccountLimitTypeError"; "InvalidWithdrawFeeError"; "InvalidUsdCents"; "NonIntegerError";
      "FeeDifferenceError"; "NoTransactionToSettleError"; "CorruptLndDbError"; "NotImplementedError";
      "NotReachableError"; "DealerPriceError"; "DealerPriceServiceError"; "InvalidNegativeAmountError";
      "DomainError"; "ErrorLevel"; "RankedErrorLevel"; "InvalidCurrencyBaseAmountError";
      "NoTransactionToUpdateError"; "BalanceLessThanZeroError"; "CouldNotFindAccountFromKratosIdError";
      "MissingPhoneError"; "InvalidUserId"; "InvalidLightningPaymentFlowBuilderStateError";
      "InvalidOnChainPaymentFlowBuilderStateError"; "NonLnPaymentTransactionForPaymentFlowError";
      "MissingPropsInTransactionForPaymentFlowError"; "InvalidZeroAmountPriceRatioInputError";
      "InvalidCurrencyForWalletError"; "InvalidLightningPaymentFlowStateError";
      "InvalidLedgerTransactionStateError"; "BadInputsForFindError"; "LnHashPresentInIntraLedgerFlowError";
      "IntraLedgerHashPresentInLnFlowError"; "PubSubError"; "PubSubServiceError"; "BigIntConversionError";
      "BigIntFloatConversionError"; "SafeWrapperError"; "InvalidFeeProbeStateError";
      "LookupPaymentTimedOutError"; "InvalidPubKeyError"; "SkipProbeForPubkeyError";
      "SecretDoesNotMatchAnyExistingHodlInvoiceError"; "CaptchaError"; "InvalidNonHodlInvoiceError";
      "InvalidAccountError"; "InvalidAccountIdError"; "InvalidMinutesError"; "InvalidWalletForAccountError";
      "AuthenticationError"; "LikelyNoUserWithThisPhoneExistError"; "LikelyUserAlreadyExistError";
      "CouldNotUnsetPhoneFromUserError"; "NotificationsServiceUnreachableServerError";
      "InvalidDeviceTokenError"; "EventAugmentationMissingError"; "NoPayloadFoundError";
      "ExpectedUtxoDetectedPayloadNotFoundError"; "ExpectedUtxoDroppedPayloadNotFoundError";
      "ExpectedUtxoSettledPayloadNotFoundError"; "ExpectedPayoutSubmittedPayloadNotFoundError";
      "ExpectedPayoutCommittedPayloadNotFoundError"; "ExpectedPayoutBroadcastPayloadNotFoundError";
      "ExpectedPayoutSettledPayloadNotFoundError"; "UnknownPayloadTypeReceivedError";
      "ExpectedAddressInfoMissingInEventError"; "MissingCreatedAtKratosError"; "MissingExpiredAtKratosError";
      "InvalidIdentitySessionKratosError"; "MissingTotpKratosError"; "IncompatibleSchemaUpgradeError";
      "UnknownKratosError"; "BriaEventError"; "BriaPayloadError"; "KratosError"; "AuthenticationKratosError";
      "ExtendSessionKratosError"; "MultipleCurrenciesForSingleCurrencyOperationError"; "MattermostError";
      "CouldNotFindAccountIpError"; "InvalidFlowId"; "CallbackError"; "InvalidUrlError"; "SvixEventError";
      "UnknownSvixError"; "MissingSecretForAuthNCallbackError"; "InvalidSecretForAuthNCallbackError";
      "MissingRegistrationPayloadPropertiesError"; "UnsupportedSchemaTypeError"; "SecretForAuthNCallbackError";
      "RegistrationPayloadValidationError"; "UnauthorizedPhoneError"; "PhoneMetadataValidationError";
      "InvalidCarrierForPhoneMetadataError"; "InvalidCarrierTypeForPhoneMetadataError";
      "InvalidCountryCodeForPhoneMetadataError"]
    (Class "UnexpectedClientError") (Some (Detailed "Unexpected error occurred, please try again or contact support if it persists (code: "));
  mkArm_ ["MissingSessionIdError"; "AuthTokenUserIdMismatchError"] (Class "UnexpectedClientError") (Some (Text EmptyString))
    (Some false) None].

(** The arms of the switch on unknown errors and the cutover *)
Definition unknown_arms : list arm := [
  mkArm ["UnknownRouteNotFoundError"] (Class "RouteFindingError")
    (Some (Text "Unknown error occurred when trying to find a route for payment."));
  mkArm ["UnknownLnInvoiceDecodeError"] (Class "InvoiceDecodeError")
    (Some (Text "Invalid lightning request, couldn't decode."));
  mkArm_ ["UnknownRepositoryError"; "UnknownLedgerError"] (Class "DbError") (Some (Coded "Unknown error occurred (code: ")) None
    (Some "fatal");
  mkArm ["UnknownLightningServiceError"] (Class "LightningPaymentError")
    (Some (Coded "Unknown error occurred (code: "));
  mkArm [
      "UnknownRateLimitServiceError"; "UnknownLockServiceError"; "UnknownPriceServiceError";
      "UnknownOnChainServiceError"; "UnknownNotificationsServiceError"; "UnknownIpFetcherServiceError";
      "UnknownCacheServiceError"; "UnknownPhoneProviderServiceError"; "UnknownDealerPriceServiceError";
      "UnknownPubSubError"; "UnknownBigIntConversionError"; "UnknownDomainError"; "UnknownBriaEventError";
      "CouldNotFindAccountError"; "UpgradeRequestCreateError"]
    (Class "UnknownClientError") (Some (Coded "Unknown error occurred (code: "));
  mkArm ["UpgradeRequestQueryError"] (Class "NotFoundError")
    (Some (Text "No upgrade request found for this account"));
  mkArm ["ExchangeRateQueryError"] (Class "UnexpectedClientError")
    (Some (Text "Cashout is temporarily unavailable while we refresh the exchange rate. Please try again shortly."));
  mkArm ["InvalidLnurlError"] (Class "InvalidLnurlError") (Some Own);
  mkArm ["InvalidLnurlAmountError"] (Class "InvalidLnurlError") (Some Own);
  mkArm ["CashWalletCutoverInProgressError"] (Class "ValidationInternalError")
    (Some (Text "Cash Wallet cutover is in progress. Please try again shortly."));
  mkArm ["CashWalletMigrationFailedError"] (Class "ValidationInternalError")
    (Some (Text "Cash Wallet migration needs support review."));
  mkArm ["CashWalletCutoverPreflightError"] (Class "ValidationInternalError") (Some Own);
  mkArm ["CashWalletCutoverTreasuryInsufficientBalanceError"] (Class "ValidationInternalError") (Some Own);
  mkArm ["CashWalletMissingLegacyUsdWalletError"] (Class "ValidationInternalError")
    (Some (Text "Legacy USD Cash Wallet is missing for this account."));
  mkArm ["CashWalletMissingUsdtWalletError"] (Class "ValidationInternalError")
    (Some (Text "USDT Cash Wallet is missing for this account."));
  mkArm ["InvalidCashWalletCutoverAmountError"] (Class "ValidationInternalError") (Some Own);
  mkArm ["InvalidCashWalletMigrationTransitionError"] (Class "ValidationInternalError") (Some Own);
  mkArm ["InvalidCashWalletCutoverStateTransitionError"] (Class "ValidationInternalError") (Some Own);
  mkArm ["UnknownCaptchaError"] (Class "UnknownClientError") (Some (Detailed "Unknown error occurred (code: "))].

Definition switch_arms : list arm :=
  payment_arms ++ input_arms ++ attempt_arms ++ account_arms ++ bridge_arms ++ topup_arms ++ unhandled_arms ++ unknown_arms.

Definition find_arm (name : string) : option arm :=
  snd <$> list_find (fun a => name ∈ ar_names a) switch_arms.
Definition find_class (name : string) : option gql_class :=
  snd <$> list_find (fun c => gc_name c = name) gql_classes.

(** [new Class({ message, forwardToClient, level })] *)
Definition answer (a : arm) (name message : string) : option gql_error :=
  let text := (fun t => fill t name message) <$> ar_message a in
  match ar_target a with
  | CodeOnly code => Some (CustomApolloError code text true None)
  | Class n =>
      (fun c => CustomApolloError (gc_code c) (match text with Some t => Some t | None => gc_message c end)
                  (default (gc_forward c) (ar_forward a)) (match ar_level a with Some l => Some l | None => gc_level c end))
        <$> find_class n
  end.

(** [mapError]: an error of no arm reaches [assertUnreachable], which throws. *)
Definition mapError (name message : string) : outcome error gql_error :=
  match find_arm name ≫= (fun a => answer a name message) with
  | Some g => Ok g
  | None => Throw (new_error JsError ("This should never compile with " +:+ name))
  end.

(** [IError]: its message and code *)
Definition mapAndParseErrorForGqlResponse (name message : string) : outcome error (string * string) :=
  outcome_map (fun g => (ge_message g, ge_code g)) (mapError name message).

Fixpoint map_all (l : list (string * string)) : outcome error (list (string * string)) :=
  match l with
  | [] => Ok []
  | (n, m) :: l' => bindo (mapAndParseErrorForGqlResponse n m) (fun r => bindo (map_all l') (fun rs => Ok (r :: rs)))
  end.

(** [mapToGqlErrorList]: the errors a validation collected, or the error itself *)
Definition mapToGqlErrorList (name message : string) (errors : option (list (string * string))) :
    outcome error (list (string * string)) :=
  match errors with
  | Some l => map_all l
  | None => map_all [(name, message)]
  end.

(** ** What a client is told *)

(** The classes of the application no arm names *)
Definition without_arm : list string :=
  ae_name <$> filter (fun e => find_arm (ae_name e) = None) ApplicationErrors.

Lemma without_arm_throws name message : name ∈ without_arm ->
  mapError name message = Throw (new_error JsError ("This should never compile with " +:+ name)).
Proof.
  intros (e & -> & [He _]%list_elem_of_filter)%list_elem_of_fmap. unfold mapError. by rewrite He.
Qed.

(** One of them is what a change of bank details answers when it cannot be posted. *)
Example update_error_without_arm : length without_arm = 24%nat /\ "BankAccountUpdateRequestCreateError" ∈ without_arm.
Proof. split; [vm_compute; reflexivity|]. by apply (bool_decide_unpack _); vm_compute. Qed.

(** Whether an arm's message is made without the error's *)
Definition hides (name : string) : bool :=
  match find_arm name with
  | Some a => match ar_message a with Some (Own | Around _ _ | OwnOr _ | Detailed _) => false | _ => true end
  | None => true
  end.

Lemma hides_same name message message' : hides name = true -> mapError name message = mapError name message'.
Proof.
  unfold hides, mapError, answer. destruct (find_arm name) as [a|]; [|done]. simpl.
  by destruct (ar_message a) as [[]|].
Qed.

(** The classes for exceptions of libraries whose text still reaches the client *)
Definition unknown_shown : list string :=
  ["UnknownCaptchaError"; "UnknownPayloadTypeReceivedError"; "UnknownKratosError"; "UnknownSvixError"].

Definition is_unknown (e : app_error) : bool := String.prefix "Unknown" (ae_name e).

Lemma unknowns_hide : forallb (fun e => negb (is_unknown e) || Bool.eqb (hides (ae_name e))
  (negb (bool_decide (ae_name e ∈ unknown_shown)))) ApplicationErrors = true.
Proof. vm_compute. reflexivity. Qed.

(** An error that wraps an exception of a library ([Unknown...]) tells the
    client nothing of its text: the answer is the same whatever it says, but
    for four classes that are answered as if they were known. *)
Theorem unknown_errors_hidden (message message' : string) :
  Forall (fun e => is_unknown e = true -> ae_name e ∉ unknown_shown ->
    mapError (ae_name e) message = mapError (ae_name e) message') ApplicationErrors.
Proof.
  apply Forall_forall. intros e He Hu Hs. pose proof unknowns_hide as Hall. rewrite forallb_forall in Hall.
  specialize (Hall e ltac:(by apply list_elem_of_In)). simpl in Hall. rewrite Hu in Hall.
  apply hides_same. case_bool_decide; [done|]. by apply Bool.eqb_prop in Hall.
Qed.
End Boundary.
