(* ===== verification/ApiKeys.v ===== *)
(** * API keys

    Model of [src/src/domain/api-keys] (the format of a key, the checks of its
    fields, the matching of client addresses), of the repository
    [src/src/services/mongoose/api-keys.ts] and of the operations of
    [src/src/app/api-keys]: creating, verifying, listing, revoking and rotating
    a key. Every call of the database is one atomic action that may fail before
    or after it takes effect, and other requests run between two of them.
    SHA-256, the random bytes, the identifiers and the address library
    [ipaddr.js] are parameters, in the class [KeyExternal]. *)

From stdpp Require Import base gmap list strings.
From Stdlib Require Import ZArith Lia Ascii.
From S2P Require Import Prelude JsStrings JsNumbers Processes Errors World Repos.
From S2P Require Import FygaroCheckout Json.

Open Scope Z_scope.
Open Scope flash_scope.

(** ** Data *)

(** The scopes are kept as the texts the code compares. *)
Definition API_KEY_SCOPES : list string :=
  ["read:wallet"; "write:wallet"; "read:transactions"; "write:transactions"; "read:user";
   "write:user"; "admin"].

Inductive ApiKeyStatus := key_active | key_revoked | key_expired.
#[global] Instance ApiKeyStatus_eq_dec : EqDecision ApiKeyStatus.
Proof. solve_decision. Defined.

Record ApiKey := mkApiKey {
  k_id : string;
  k_keyId : string;
  k_accountId : string;
  k_name : string;
  k_hashedKey : string;
  k_scopes : list string;
  k_status : ApiKeyStatus;
  k_ipConstraints : list string;
  k_metadata : json;
  k_rateLimitPerMinute : option js_num;
  k_lastUsedAt : option Z;
  k_createdAt : Z;
  k_expiresAt : option Z
}.

Definition with_status (s : ApiKeyStatus) (k : ApiKey) : ApiKey :=
  mkApiKey (k_id k) (k_keyId k) (k_accountId k) (k_name k) (k_hashedKey k) (k_scopes k) s
    (k_ipConstraints k) (k_metadata k) (k_rateLimitPerMinute k) (k_lastUsedAt k) (k_createdAt k)
    (k_expiresAt k).

Definition with_lastUsedAt (t : Z) (k : ApiKey) : ApiKey :=
  mkApiKey (k_id k) (k_keyId k) (k_accountId k) (k_name k) (k_hashedKey k) (k_scopes k) (k_status k)
    (k_ipConstraints k) (k_metadata k) (k_rateLimitPerMinute k) (Some t) (k_createdAt k)
    (k_expiresAt k).

(** ** Bytes in base 16 *)

(** [buffer.toString("hex")] *)
Fixpoint hex_encode (bytes : string) : string :=
  match bytes with
  | EmptyString => EmptyString
  | String c r => String (hex_digit (code c / 16)) (String (hex_digit (code c mod 16)) (hex_encode r))
  end.

Definition hex_value (c : ascii) : option Z :=
  let n := code c in
  if (48 <=? n) && (n <=? 57) then Some (n - 48)
  else if (97 <=? n) && (n <=? 102) then Some (n - 87)
  else if (65 <=? n) && (n <=? 70) then Some (n - 55)
  else None.

(** [Buffer.from(s, "hex")] stops at the first pair that is none of digits. *)
Fixpoint hex_decode (s : string) : string :=
  match s with
  | String a (String b r) =>
      match hex_value a, hex_value b with
      | Some x, Some y => String (chr (16 * x + y)) (hex_decode r)
      | _, _ => EmptyString
      end
  | _ => EmptyString
  end.

(** ** The format of a key *)

Definition API_KEY_PREFIX : string := "fk".
Definition API_KEY_ID_BYTES : nat := 4.
Definition API_KEY_SECRET_BYTES : nat := 48.

Definition lower_hex (c : ascii) : bool :=
  let n := code c in (48 <=? n) && (n <=? 57) || (97 <=? n) && (n <=? 102).

(** [/^fk_([0-9a-f]{8})_([A-Za-z0-9_-]{64})$/] *)
Definition parseApiKey (rawKey : string) : outcome error (string * string) :=
  let keyId := str_take 8 (str_drop 3 rawKey) in
  let secret := str_drop 12 rawKey in
  if (slen rawKey =? 76) && String.eqb (str_take 3 rawKey) "fk_" && all_chars lower_hex keyId
     && String.eqb (str_take 1 (str_drop 11 rawKey)) "_" && all_chars b64url_char secret
  then Ok (keyId, secret)
  else Err (new_error0 InvalidApiKeyFormatError).

(** ** Checks of the fields *)

Definition name_char (c : ascii) : bool :=
  let n := code c in
  (97 <=? n) && (n <=? 122) || (65 <=? n) && (n <=? 90) || (48 <=? n) && (n <=? 57)
  || (n =? 45) || (n =? 95) || (n =? 32).

Definition checkedToApiKeyName (name : string) : outcome error string :=
  if slen name <? 3 then
    Err (new_error InvalidApiKeyNameError "API key name must be at least 3 characters")
  else if 50 <? slen name then
    Err (new_error InvalidApiKeyNameError "API key name must be less than 50 characters")
  else if negb (all_chars name_char name) then
    Err (new_error InvalidApiKeyNameError
      "API key name can only contain letters, numbers, spaces, hyphens, and underscores")
  else Ok name.

Definition known_scope (scope : string) : bool := bool_decide (scope ∈ API_KEY_SCOPES).

Definition checkedToApiKeyScopes (scopes : list string) : outcome error (list string) :=
  match scopes with
  | [] => Err (new_error InvalidApiKeyScopeError "At least one scope is required")
  | _ =>
      match list_find (fun scope => known_scope scope = false) scopes with
      | Some (_, scope) => Err (new_error InvalidApiKeyScopeError ("Invalid scope: " +:+ scope))
      | None => Ok scopes
      end
  end.

Definition between (lo hi : ascii) (c : ascii) : bool := (code lo <=? code c) && (code c <=? code hi).

(** [25[0-5]|2[0-4]\d|1?\d?\d] *)
Definition octet (s : string) : bool :=
  match s with
  | String a EmptyString => is_digit a
  | String a (String b EmptyString) => is_digit a && is_digit b
  | String a (String b (String c EmptyString)) =>
      Ascii.eqb a "2" && Ascii.eqb b "5" && between "0" "5" c
      || Ascii.eqb a "2" && between "0" "4" b && is_digit c
      || Ascii.eqb a "1" && is_digit b && is_digit c
  | _ => false
  end.

(** [3[0-2]|[12]?\d] *)
Definition prefix4 (s : string) : bool :=
  match s with
  | String a EmptyString => is_digit a
  | String a (String b EmptyString) =>
      Ascii.eqb a "3" && between "0" "2" b || between "1" "2" a && is_digit b
  | _ => false
  end.

(** [12[0-8]|1[01]\d|\d?\d] *)
Definition prefix6 (s : string) : bool :=
  match s with
  | String a EmptyString => is_digit a
  | String a (String b EmptyString) => is_digit a && is_digit b
  | String a (String b (String c EmptyString)) =>
      Ascii.eqb a "1" && Ascii.eqb b "2" && between "0" "8" c
      || Ascii.eqb a "1" && between "0" "1" b && is_digit c
  | _ => false
  end.

Definition hex_or_colon (c : ascii) : bool :=
  match hex_value c with Some _ => true | None => Ascii.eqb c ":" end.

Definition IPV4_CIDR (s : string) : bool :=
  let address a :=
    match split_on "." a with
    | [a1; a2; a3; a4] => octet a1 && octet a2 && octet a3 && octet a4
    | _ => false
    end in
  match split_on "/" s with
  | [a] => address a
  | [a; p] => address a && prefix4 p
  | _ => false
  end.

Definition IPV6_CIDR (s : string) : bool :=
  match split_on "/" s with
  | [a] => nonempty a && all_chars hex_or_colon a
  | [a; p] => nonempty a && all_chars hex_or_colon a && prefix6 p
  | _ => false
  end.

Definition checkedToApiKeyIpConstraints (ips : list string) : outcome error (list string) :=
  match list_find (fun ip => IPV4_CIDR ip || IPV6_CIDR ip = false) ips with
  | Some (_, ip) =>
      Err (new_error InvalidApiKeyIpConstraintError ("Invalid IP/CIDR constraint: " +:+ ip))
  | None => Ok ips
  end.

Definition API_KEY_RATE_LIMIT_MIN : Z := 1.
Definition API_KEY_RATE_LIMIT_MAX : Z := 10000.

Definition rate_in_range (n : js_num) : bool :=
  negb (num_ltb n (num_of_Z API_KEY_RATE_LIMIT_MIN))
  && negb (num_ltb (num_of_Z API_KEY_RATE_LIMIT_MAX) n).

Definition checkedToApiKeyRateLimit (rateLimitPerMinute : js_num) : outcome error js_num :=
  if num_isInteger rateLimitPerMinute && rate_in_range rateLimitPerMinute then Ok rateLimitPerMinute
  else Err (new_error InvalidApiKeyRateLimitError
    "API key rate limit must be an integer between 1 and 10000 requests per minute").

(** A key is past its expiry at a moment. *)
Definition past_expiry (k : ApiKey) (now : Z) : bool :=
  match k_expiresAt k with Some t => t <=? now | None => false end.

Definition effectiveApiKeyStatus (k : ApiKey) (now : Z) : ApiKeyStatus :=
  if negb (bool_decide (k_status k = key_active)) then k_status k
  else if past_expiry k now then key_expired else key_active.

(** ** The world of the keys *)

(** An address as [ipaddr.js] gives it: its kind and its text. *)
Inductive ip_kind := ipv4 | ipv6.
#[global] Instance ip_kind_eq_dec : EqDecision ip_kind.
Proof. solve_decision. Defined.

Class KeyExternal `{External} := {
  ip_addr : Type;
  ip_isValid : string -> bool;
  ip_process : string -> option ip_addr;
  ip_kind_of : ip_addr -> ip_kind;
  ip_toString : ip_addr -> string;
  ip_parseCIDR : string -> option (ip_addr * Z);
  ip_match : ip_addr -> ip_addr -> Z -> option bool;
  sha256 : string -> string;
  key_bytes : nat -> nat -> string;
  key_object_id : nat -> string;
  sort_createdAt : list ApiKey -> list ApiKey;
  configured_maxKeys : option Z;
  configured_requests : option Z
}.

(** [randomBytes(n)] are [n] bytes, and a sort reorders. *)
Class KeyLaws `{KeyExternal} := {
  key_bytes_length : forall i n, String.length (key_bytes i n) = n;
  sort_createdAt_permutes : forall l, sort_createdAt l ≡ₚ l
}.

Inductive audit :=
| AuditCreated (accountId keyId : string)
| AuditRevoked (accountId keyId : string)
| AuditRotated (accountId oldKeyId newKeyId : string)
| AuditDenied (keyId : option string) (reason : string)
| AuditRateLimited (keyId : string).

(** [kw_touches]: the keys whose [lastUsedAt] update was started and not awaited. *)
Record kworld `{KeyExternal} := mkKWorld {
  kw_base : world;
  kw_docs : list ApiKey;
  kw_randoms : nat;
  kw_ids : nat;
  kw_touches : list string;
  kw_audit : list audit
}.

Section ApiKeys.
Context `{X : KeyExternal}.

Definition set_kbase b (w : kworld) : kworld :=
  mkKWorld _ _ b (kw_docs w) (kw_randoms w) (kw_ids w) (kw_touches w) (kw_audit w).
Definition set_docs d (w : kworld) : kworld :=
  mkKWorld _ _ (kw_base w) d (kw_randoms w) (kw_ids w) (kw_touches w) (kw_audit w).
Definition next_bytes (w : kworld) : kworld :=
  mkKWorld _ _ (kw_base w) (kw_docs w) (S (kw_randoms w)) (kw_ids w) (kw_touches w) (kw_audit w).
Definition next_key_id (w : kworld) : kworld :=
  mkKWorld _ _ (kw_base w) (kw_docs w) (kw_randoms w) (S (kw_ids w)) (kw_touches w) (kw_audit w).
Definition log_touch id (w : kworld) : kworld :=
  mkKWorld _ _ (kw_base w) (kw_docs w) (kw_randoms w) (kw_ids w) (kw_touches w ++ [id]) (kw_audit w).
Definition log_audit a (w : kworld) : kworld :=
  mkKWorld _ _ (kw_base w) (kw_docs w) (kw_randoms w) (kw_ids w) (kw_touches w) (kw_audit w ++ [a]).

(** [KApp A]: a handler of this world. *)
Definition KApp (A : Type) : Type := proc kworld error A.

Definition kbase {A} (c : App A) : KApp A :=
  atomic (fun w => let '(o, b) := c (kw_base w) in (o, set_kbase b w)).
Definition know : KApp Z := kbase new_Date.
Definition kpoke (f : kworld -> kworld) : KApp unit := atomic (fun w => (Ok tt, f w)).
Definition audited (a : audit) : KApp unit := kpoke (log_audit a).
Definition lifted {A} (o : outcome error A) : KApp A := Done o.

Definition randomBytes (n : nat) : KApp string :=
  atomic (fun w => (Ok (key_bytes (kw_randoms w) n), next_bytes w)).
Definition newKeyObjectId : KApp string :=
  atomic (fun w => (Ok (key_object_id (kw_ids w)), next_key_id w)).

(** One call on the collection of keys. *)
Definition keys {A} (op : list ApiKey -> outcome error A * list ApiKey) : KApp A :=
  atomic (fun w =>
    let b := kw_base w in
    let w1 := set_kbase (next_op b) w in
    let '(o, docs) := op (kw_docs w) in
    match mongo_fault (w_ops b) with
    | None => (o, set_docs docs w1)
    | Some (FaultBefore msg) => (Throw (new_error JsError msg), w1)
    | Some (FaultAfter msg) => (Throw (new_error JsError msg), set_docs docs w1)
    end).

(** [catch (err) { return new UnknownRepositoryError(err) }] *)
Definition stored {A} (c : KApp A) : KApp A :=
  pcatch c (fun e => pfail (new_error UnknownRepositoryError (err_message e))).

Definition key_objectId (id : string) : KApp string := kbase (toObjectId id).

(** ** Secrets and addresses *)

Definition hashApiKeySecret (secret : string) : string := hex_encode (sha256 secret).

Record GeneratedApiKey := mkGenerated {
  g_keyId : string;
  g_secret : string;
  g_fullKey : string;
  g_hashedSecret : string
}.

Definition generateApiKey : KApp GeneratedApiKey :=
  let* id_bytes := randomBytes API_KEY_ID_BYTES in
  let* secret_bytes := randomBytes API_KEY_SECRET_BYTES in
  let keyId := hex_encode id_bytes in
  let secret := base64Url secret_bytes in
  pret (mkGenerated keyId secret (API_KEY_PREFIX +:+ "_" +:+ keyId +:+ "_" +:+ secret)
          (hashApiKeySecret secret)).

Definition isApiKeySecretValid (secret hashedKey : string) : bool :=
  let candidate := hex_decode (hashApiKeySecret secret) in
  let expected := hex_decode hashedKey in
  (slen candidate =? slen expected) && String.eqb candidate expected.

(** An exception of [ipaddr.js] makes an entry not match. *)
Definition entry_allows (addr : ip_addr) (entry : string) : bool :=
  if str_includes "/" entry then
    match ip_parseCIDR entry with
    | Some (rangeAddr, prefix) =>
        if bool_decide (ip_kind_of addr = ip_kind_of rangeAddr)
        then default false (ip_match addr rangeAddr prefix)
        else false
    | None => false
    end
  else
    match ip_process entry with
    | Some entryAddr =>
        bool_decide (ip_kind_of addr = ip_kind_of entryAddr)
        && String.eqb (ip_toString addr) (ip_toString entryAddr)
    | None => false
    end.

Definition isIpAllowedByConstraints (ip : string) (constraints : list string) : bool :=
  match constraints with
  | [] => true
  | _ =>
      if negb (ip_isValid ip) then false
      else match ip_process ip with
           | None => false
           | Some addr => existsb (entry_allows addr) constraints
           end
  end.

(** ** The repository *)

(** What the schema asks of a document. *)
Definition valid_key (k : ApiKey) : bool :=
  nonempty (k_keyId k) && nonempty (k_accountId k) && nonempty (k_name k)
  && nonempty (k_hashedKey k)
  && match k_scopes k with [] => false | l => forallb known_scope l end
  && match k_rateLimitPerMinute k with None => true | Some n => rate_in_range n end.

(** The indexes on [_id], [keyId] and [hashedKey]. *)
Definition clashes (k k' : ApiKey) : bool :=
  bool_decide (k_id k' = k_id k) || bool_decide (k_keyId k' = k_keyId k)
  || bool_decide (k_hashedKey k' = k_hashedKey k).

Definition insert_key (k : ApiKey) (docs : list ApiKey) : outcome error ApiKey * list ApiKey :=
  if existsb (clashes k) docs
  then (Throw (new_error JsError "E11000 duplicate key error collection"), docs)
  else (Ok k, docs ++ [k]).

(** [NewApiKey] *)
Record NewApiKey := mkNewApiKey {
  n_keyId : string;
  n_accountId : string;
  n_name : string;
  n_hashedKey : string;
  n_scopes : list string;
  n_ipConstraints : list string;
  n_metadata : json;
  n_rateLimitPerMinute : option js_num;
  n_expiresAt : option Z
}.

Definition keys_create (n : NewApiKey) : KApp ApiKey :=
  stored (
    let* id := newKeyObjectId in
    let* at_ := know in
    let k := mkApiKey id (n_keyId n) (n_accountId n) (n_name n) (n_hashedKey n) (n_scopes n) key_active
               (n_ipConstraints n) (n_metadata n) (n_rateLimitPerMinute n) None at_ (n_expiresAt n) in
    if valid_key k then keys (insert_key k)
    else pthrow (new_error JsError "ApiKey validation failed")).

Definition find_key (P : ApiKey -> bool) (docs : list ApiKey) : option ApiKey :=
  snd <$> list_find (fun k => P k = true) docs.

Definition found_key (k : option ApiKey) : KApp ApiKey :=
  match k with
  | None => pfail (new_error CouldNotFindError "API key not found")
  | Some k => pret k
  end.

Definition is_active (k : ApiKey) : bool := bool_decide (k_status k = key_active).

Definition findByKeyId (keyId : string) : KApp ApiKey :=
  stored (
    let* doc := keys (fun docs =>
      (Ok (find_key (fun k => bool_decide (k_keyId k = keyId) && is_active k) docs), docs)) in
    found_key doc).

Definition active_of (accountId : string) (docs : list ApiKey) : list ApiKey :=
  List.filter (fun k => bool_decide (k_accountId k = accountId) && is_active k) docs.

Definition findByAccountId (accountId : string) : KApp (list ApiKey) :=
  stored (keys (fun docs => (Ok (sort_createdAt (active_of accountId docs)), docs))).

Definition keys_listByAccountId (accountId : string) : KApp (list ApiKey) :=
  stored (keys (fun docs =>
    (Ok (sort_createdAt (List.filter (fun k => bool_decide (k_accountId k = accountId)) docs)), docs))).

Definition findActiveByIdForAccount (id accountId : string) : KApp ApiKey :=
  stored (
    let* oid := key_objectId id in
    let* doc := keys (fun docs =>
      (Ok (find_key (fun k => bool_decide (k_id k = oid) && bool_decide (k_accountId k = accountId)
                              && is_active k) docs), docs)) in
    found_key doc).

(** Documents of an id and, where given, of an account: there is at most one. *)
Definition update_key (P : ApiKey -> bool) (f : ApiKey -> ApiKey) (docs : list ApiKey) : list ApiKey :=
  (fun k => if P k then f k else k) <$> docs.

Definition updateLastUsedAt (id : string) : KApp unit :=
  stored (
    let* oid := key_objectId id in
    let* at_ := know in
    keys (fun docs =>
      (Ok tt, update_key (fun k => bool_decide (k_id k = oid)) (with_lastUsedAt at_) docs))).

Definition key_of (oid accountId : string) (k : ApiKey) : bool :=
  bool_decide (k_id k = oid) && bool_decide (k_accountId k = accountId).

Definition keys_revoke (id accountId : string) : KApp ApiKey :=
  stored (
    let* oid := key_objectId id in
    let* doc := keys (fun docs =>
      (Ok (with_status key_revoked <$> find_key (key_of oid accountId) docs),
       update_key (key_of oid accountId) (with_status key_revoked) docs)) in
    found_key doc).

Definition revokeAll (accountId : string) : KApp nat :=
  stored (keys (fun docs =>
    (Ok (length (active_of accountId docs)),
     update_key (fun k => bool_decide (k_accountId k = accountId) && is_active k)
       (with_status key_revoked) docs))).

(** ** The operations *)

Definition maxKeysPerAccount : Z := default 10 configured_maxKeys.
Definition defaultRequestsPerMinute : Z := default 120 configured_requests.

Record CreateApiKeyResult := mkCreated {
  cr_id : string;
  cr_keyId : string;
  cr_name : string;
  cr_apiKey : string;
  cr_scopes : list string;
  cr_rateLimitPerMinute : option js_num;
  cr_expiresAt : option Z
}.

(** [expiresIn] is a GraphQL integer; zero is no expiry. *)
Definition createApiKey (accountId name : string) (scopes ipConstraints : list string) (metadata : json)
    (rateLimitPerMinute : option js_num) (expiresIn : option Z) : KApp CreateApiKeyResult :=
  let* checkedName := lifted (checkedToApiKeyName name) in
  let* checkedScopes := lifted (checkedToApiKeyScopes scopes) in
  let* checkedIpConstraints := lifted (checkedToApiKeyIpConstraints ipConstraints) in
  let* checkedRateLimit :=
    match rateLimitPerMinute with
    | None => pret None
    | Some n => let* checked := lifted (checkedToApiKeyRateLimit n) in pret (Some checked)
    end in
  let* existingKeys := findByAccountId accountId in
  if maxKeysPerAccount <=? Z.of_nat (length existingKeys) then
    pfail (new_error MaxApiKeysPerAccountError
      ("Maximum number of API keys (" +:+ bigint_toString maxKeysPerAccount
       +:+ ") reached. Please revoke unused keys."))
  else
    let* generated := generateApiKey in
    let* expiresAt :=
      match expiresIn with
      | None => pret None
      | Some s => if s =? 0 then pret None else let* now := know in pret (Some (now + s * 1000))
      end in
    let* apiKey := keys_create (mkNewApiKey (g_keyId generated) accountId checkedName
      (g_hashedSecret generated) checkedScopes checkedIpConstraints metadata checkedRateLimit expiresAt) in
    audited (AuditCreated accountId (k_keyId apiKey)) ;;;
    pret (mkCreated (k_id apiKey) (k_keyId apiKey) (k_name apiKey) (g_fullKey generated)
            (k_scopes apiKey) (k_rateLimitPerMinute apiKey) (k_expiresAt apiKey)).

Definition listApiKeys (accountId : string) : KApp (list ApiKey) := keys_listByAccountId accountId.

Definition revokeApiKey (id accountId : string) : KApp ApiKey :=
  let* revoked := keys_revoke id accountId in
  audited (AuditRevoked accountId (k_keyId revoked)) ;;;
  pret revoked.

(** The replacement, and the public id of the key it replaces. *)
Definition rotateApiKey (id accountId : string) : KApp (CreateApiKeyResult * string) :=
  let* oldKey := findActiveByIdForAccount id accountId in
  let* late :=
    match k_expiresAt oldKey with None => pret false | Some t => let* now := know in pret (t <=? now) end in
  if late : bool then pfail (new_error ApiKeyExpiredError (k_keyId oldKey))
  else
    let* generated := generateApiKey in
    let* newKey := keys_create (mkNewApiKey (g_keyId generated) accountId (k_name oldKey)
      (g_hashedSecret generated) (k_scopes oldKey) (k_ipConstraints oldKey) (k_metadata oldKey)
      (k_rateLimitPerMinute oldKey) (k_expiresAt oldKey)) in
    let* revoked := pattempt (keys_revoke (k_id oldKey) accountId) in
    match revoked with
    | inl e => pattempt (keys_revoke (k_id newKey) accountId) ;;; pfail e
    | inr _ =>
        audited (AuditRotated accountId (k_keyId oldKey) (k_keyId newKey)) ;;;
        pret (mkCreated (k_id newKey) (k_keyId newKey) (k_name newKey) (g_fullKey generated)
                (k_scopes newKey) (k_rateLimitPerMinute newKey) (k_expiresAt newKey), k_keyId oldKey)
    end.

Definition LAST_USED_AT_THROTTLE_MS : Z := 60000.

Record VerifiedApiKey := mkVerified { v_apiKey : ApiKey; v_kratosUserId : string }.

(** The address a request comes from is checked only for a key that is pinned. *)
Definition ip_refused (k : ApiKey) (requestIp : option string) : option error :=
  match k_ipConstraints k with
  | [] => None
  | constraints =>
      match requestIp with
      | None => Some (new_error ApiKeyIpNotAllowedError "client IP unavailable")
      | Some ip =>
          if nonempty ip then
            if isIpAllowedByConstraints ip constraints then None
            else Some (new_error ApiKeyIpNotAllowedError ip)
          else Some (new_error ApiKeyIpNotAllowedError "client IP unavailable")
      end
  end.

Definition verifyApiKey (rawKey : string) (requestIp : option string) : KApp VerifiedApiKey :=
  let* parsed := lifted (parseApiKey rawKey) in
  let* apiKey := findByKeyId parsed.1 in
  let* late :=
    match k_expiresAt apiKey with None => pret false | Some t => let* now := know in pret (t <=? now) end in
  if late : bool then pfail (new_error ApiKeyExpiredError (k_keyId apiKey))
  else if negb (isApiKeySecretValid parsed.2 (k_hashedKey apiKey)) then
    pfail (new_error ApiKeySecretMismatchError (k_keyId apiKey))
  else
    match ip_refused apiKey requestIp with
    | Some e => pfail e
    | None =>
        let* account := kbase (accounts_findById (k_accountId apiKey)) in
        let* stale :=
          match k_lastUsedAt apiKey with
          | None => pret true
          | Some t => let* now := know in pret (LAST_USED_AT_THROTTLE_MS <? now - t)
          end in
        (if stale : bool then kpoke (log_touch (k_id apiKey)) else pret tt) ;;;
        pret (mkVerified apiKey (a_kratosUserId account))
    end.
End ApiKeys.

(** ** Texts *)

Lemma hex_digit_spec n : 0 <= n < 16 ->
  hex_value (hex_digit n) = Some n /\ lower_hex (hex_digit n) = true.
Proof.
  intros Hn. pose proof (digit64 (fun n => if n <? 16 then
      (match hex_value (hex_digit n) with Some m => m =? n | None => false end)
      && lower_hex (hex_digit n) else true) n
    ltac:(vm_compute; reflexivity) ltac:(lia)) as H. cbn beta in H.
  rewrite (proj2 (Z.ltb_lt n 16)) in H by lia.
  apply andb_true_iff in H as [H1 H2]. split; [|done]. case_match; [|done]. by apply Z.eqb_eq in H1 as ->.
Qed.

Lemma chr_code c : chr (code c) = c.
Proof. by destruct c as [[] [] [] [] [] [] [] []]. Qed.

Lemma hex_roundtrip s : hex_decode (hex_encode s) = s.
Proof.
  induction s as [|c s IH]; [done|]. cbn [hex_encode hex_decode]. pose proof (code_range c).
  rewrite (proj1 (hex_digit_spec (code c / 16) ltac:(Z.to_euclidean_division_equations; lia))).
  rewrite (proj1 (hex_digit_spec (code c mod 16) ltac:(Z.to_euclidean_division_equations; lia))).
  rewrite IH. f_equal. rewrite <- (chr_code c) at 3. f_equal. Z.to_euclidean_division_equations; lia.
Qed.

Lemma hex_encode_chars s :
  all_chars lower_hex (hex_encode s) = true /\ slen (hex_encode s) = 2 * slen s.
Proof.
  induction s as [|c s [IH1 IH2]]; [done|]. cbn [hex_encode all_chars]. rewrite !slen_cons, IH1, IH2.
  pose proof (code_range c). split; [|lia].
  rewrite (proj2 (hex_digit_spec (code c / 16) ltac:(Z.to_euclidean_division_equations; lia))).
  by rewrite (proj2 (hex_digit_spec (code c mod 16) ltac:(Z.to_euclidean_division_equations; lia))).
Qed.

(** A text of sixty-four characters of base64url. *)
Lemma base64Url_secret bytes : String.length bytes = API_KEY_SECRET_BYTES ->
  all_chars b64url_char (base64Url bytes) = true /\ slen (base64Url bytes) = 64.
Proof.
  intros H. destruct (base64_groups 16 bytes H) as [H1 H2]. unfold base64Url.
  rewrite strip_end_none by (eapply all_chars_impl; [|exact H1]; by intros c [_ Hc]%andb_true_iff).
  split; [|done]. eapply all_chars_impl; [|exact H1]. by intros c [Hc _]%andb_true_iff.
Qed.

Lemma str_drop_app n s t : slen s = Z.of_nat n -> str_drop n (s +:+ t) = t.
Proof.
  revert s. induction n as [|n IH]; intros s Hs.
  - destruct s; [by rewrite app_nil_str|]. rewrite slen_cons in Hs. pose proof (slen_nonneg s). lia.
  - destruct s as [|c s]; [by cbn in Hs|]. rewrite slen_cons in Hs. rewrite app_cons. cbn [str_drop].
    apply IH. lia.
Qed.

Lemma str_take_app n s t : slen s = Z.of_nat n -> str_take n (s +:+ t) = s.
Proof.
  revert s. induction n as [|n IH]; intros s Hs.
  - destruct s; [done|]. rewrite slen_cons in Hs. pose proof (slen_nonneg s). lia.
  - destruct s as [|c s]; [by cbn in Hs|]. rewrite slen_cons in Hs. rewrite app_cons. cbn [str_take].
    f_equal. apply IH. lia.
Qed.

Lemma str_drop_drop n m s : str_drop n (str_drop m s) = str_drop (m + n) s.
Proof.
  revert s. induction m as [|m IH]; intros s; [done|]. destruct s as [|c s]; cbn; [|apply IH].
  by destruct n.
Qed.

(** A key is read back as it was put together, and nothing else is a key. *)
Lemma parseApiKey_iff rawKey keyId secret :
  parseApiKey rawKey = Ok (keyId, secret) <->
  rawKey = "fk_" +:+ keyId +:+ "_" +:+ secret /\ slen keyId = 8 /\ slen secret = 64 /\
  all_chars lower_hex keyId = true /\ all_chars b64url_char secret = true.
Proof.
  unfold parseApiKey. split.
  - case_match eqn:E; [|done]. intros Heq.
    assert (keyId = str_take 8 (str_drop 3 rawKey) /\ secret = str_drop 12 rawKey) as [-> ->]
      by (split; congruence). clear Heq.
    repeat apply andb_true_iff in E as [E ?]. apply Z.eqb_eq in E.
    match goal with H : String.eqb (str_take 3 _) _ = true |- _ => apply String.eqb_eq in H as E3 end.
    match goal with H : String.eqb (str_take 1 _) _ = true |- _ => apply String.eqb_eq in H as E1 end.
    split; [|rewrite str_take_len, !str_drop_len; split; [lia|split; [lia|done]]].
    rewrite <- (take_drop_str 3 rawKey) at 1. rewrite E3. f_equal.
    rewrite <- (take_drop_str 8 (str_drop 3 rawKey)) at 1. f_equal. rewrite str_drop_drop. cbn [Nat.add].
    rewrite <- (take_drop_str 1 (str_drop 11 rawKey)) at 1. rewrite E1. f_equal.
    by rewrite str_drop_drop.
  - intros (-> & Hk & Hs & Ck & Cs). rewrite !slen_app, Hk, Hs.
    set (raw := "fk_" +:+ _).
    assert (str_drop 3 raw = keyId +:+ "_" +:+ secret) as E3 by (by apply (str_drop_app 3)).
    assert (str_drop 11 raw = "_" +:+ secret) as E11.
    { rewrite <- (str_drop_drop 8 3), E3. by apply (str_drop_app 8). }
    assert (str_drop 12 raw = secret) as E12.
    { rewrite <- (str_drop_drop 1 11), E11. by apply (str_drop_app 1). }
    rewrite E3, E11, E12, (str_take_app 8), (str_take_app 1) by done.
    replace (str_take 3 raw) with "fk_" by (symmetry; by apply (str_take_app 3)).
    rewrite Ck, Cs. done.
Qed.

(** ** How the collection changes *)

(** A key keeps everything but its status and its last use, and a revoked key
    stays revoked. *)
Definition key_le (k k' : ApiKey) : Prop :=
  (k_id k', k_keyId k', k_accountId k', k_name k', k_hashedKey k', k_scopes k', k_ipConstraints k',
   k_metadata k', k_rateLimitPerMinute k', k_createdAt k', k_expiresAt k') =
  (k_id k, k_keyId k, k_accountId k, k_name k, k_hashedKey k, k_scopes k, k_ipConstraints k,
   k_metadata k, k_rateLimitPerMinute k, k_createdAt k, k_expiresAt k) /\
  (k_status k' = k_status k \/ k_status k' = key_revoked).

#[global] Instance key_le_preorder : PreOrder key_le.
Proof.
  split; [intros k; split; [done|by left]|].
  intros k1 k2 k3 [E1 S1] [E2 S2]. split; [congruence|]. destruct S2 as [-> | ->]; auto.
Qed.

(** The indexes of the collection. *)
Definition keys_unique (docs : list ApiKey) : Prop :=
  NoDup (k_id <$> docs) /\ NoDup (k_keyId <$> docs) /\ NoDup (k_hashedKey <$> docs).

(** One call of the repository, made for accounts of [A]. *)
Inductive docs_step (A : string -> Prop) (docs : list ApiKey) : list ApiKey -> Prop :=
| step_insert k : A (k_accountId k) -> valid_key k = true -> existsb (clashes k) docs = false ->
    docs_step A docs (docs ++ [k])
| step_revoke P : (forall k, P k = true -> A (k_accountId k)) ->
    docs_step A docs (update_key P (with_status key_revoked) docs)
| step_touch P t : docs_step A docs (update_key P (with_lastUsedAt t) docs).

Lemma update_key_fields {B} (g : ApiKey -> B) P f docs :
  (forall k, g (f k) = g k) -> g <$> update_key P f docs = g <$> docs.
Proof.
  intros Hg. unfold update_key. rewrite <- list_fmap_compose. apply list_fmap_ext. intros i k _. cbn.
  by destruct (P k).
Qed.

Lemma NoDup_snoc {B} (l : list B) x : NoDup l -> x ∉ l -> NoDup (l ++ [x]).
Proof.
  intros Hl Hx. apply NoDup_app. split; [done|]. split; [|apply NoDup_singleton].
  intros y Hy ->%list_elem_of_singleton. done.
Qed.

Lemma clash_free {B} (g : ApiKey -> B) k docs :
  existsb (clashes k) docs = false -> (forall k', g k' = g k -> clashes k k' = true) ->
  g k ∉ (g <$> docs).
Proof.
  intros Hn Hg Hin. apply list_elem_of_fmap in Hin as (k' & E & Hk').
  apply list_elem_of_In in Hk'. assert (existsb (clashes k) docs = true); [|congruence].
  apply existsb_exists. exists k'. split; [done|]. by apply Hg.
Qed.

Lemma step_unique A docs docs' : docs_step A docs docs' -> keys_unique docs -> keys_unique docs'.
Proof.
  intros [k _ _ Hn|P _|P t] (H1 & H2 & H3); unfold keys_unique; cycle 1.
  1, 2: by rewrite !update_key_fields by done.
  rewrite !fmap_app. cbn. split_and!; apply NoDup_snoc; try done; apply clash_free; try done;
    intros k' E; unfold clashes; rewrite (bool_decide_true _ E), ?orb_true_r; done.
Qed.

(** What was stored stays, in the sense of [key_le]. *)
Lemma step_grows A docs docs' k : docs_step A docs docs' -> k ∈ docs ->
  exists k', k' ∈ docs' /\ key_le k k' /\ (~ A (k_accountId k) -> k_status k' = k_status k).
Proof.
  intros Hst Hk. destruct Hst as [k0 _ _ _|P HP|P t].
  - exists k. split; [set_solver|]. by split.
  - exists (if P k then with_status key_revoked k else k). split.
    { apply list_elem_of_fmap. by exists k. }
    destruct (P k) eqn:E; [|by split]. split; [split; [done|by right]|]. intros Hn. by apply HP in E.
  - exists (if P k then with_lastUsedAt t k else k). split.
    { apply list_elem_of_fmap. by exists k. }
    destruct (P k); [|by split]. by split; [split; [|left]|].
Qed.

(** ** What the operations do to the collection *)

Section Steps.
Context `{X : KeyExternal} {S : Type}.
Variable A : string -> Prop.
Variable J : list ApiKey -> Prop.
Hypothesis J_step : forall docs docs', docs_step A docs docs' -> J docs -> J docs'.

Definition on_docs (w : kworld) (_ : list S) : Prop := J (kw_docs w).

Lemma keeps_keys {B} (phi : outcome error B -> Prop) op :
  (forall docs, J docs -> J (op docs).2 /\ phi (op docs).1) -> (forall e, phi (Throw e)) ->
  keeps on_docs phi (keys op).
Proof.
  intros Hop Hf. apply keeps_atomic. intros w ss HJ. unfold on_docs in *. destruct (Hop _ HJ) as [H1 H2].
  destruct (op (kw_docs w)) as [o docs]. repeat case_match; cbn; auto.
Qed.

Lemma quietly_keys {B} (op : list ApiKey -> outcome error B * list ApiKey) :
  (forall docs, (op docs).2 = docs \/ docs_step A docs (op docs).2) -> quietly on_docs (keys op).
Proof.
  intros Hop. apply keeps_keys; [|done]. intros docs HJ. split; [|done].
  destruct (Hop docs) as [-> | Hs]; [done|]. by eapply J_step.
Qed.

Lemma quietly_kbase {B} (c : App B) : quietly on_docs (kbase c).
Proof. apply keeps_atomic. intros w ss HJ. cbn. by destruct (c (kw_base w)). Qed.

Lemma quietly_kpoke f : (forall w, kw_docs (f w) = kw_docs w) -> quietly on_docs (kpoke f).
Proof. intros Hf. apply keeps_atomic. intros w ss HJ. unfold on_docs. cbn. by rewrite Hf. Qed.

Lemma quietly_bytes n : quietly on_docs (randomBytes n).
Proof. by apply keeps_atomic. Qed.

Lemma quietly_oid : quietly on_docs newKeyObjectId.
Proof. by apply keeps_atomic. Qed.

Lemma quietly_read {B} (f : list ApiKey -> B) : quietly on_docs (keys (fun docs => (Ok (f docs), docs))).
Proof. apply quietly_keys. by left. Qed.

Local Hint Resolve quietly_kbase quietly_bytes quietly_oid quietly_read : quiet_calls.
Local Hint Extern 1 (quietly _ (kpoke _)) => apply quietly_kpoke : quiet_calls.
Local Hint Extern 1 (quietly _ (audited _)) => apply quietly_kpoke : quiet_calls.
Local Hint Extern 1 (quietly _ know) => apply quietly_kbase : quiet_calls.
Local Hint Extern 1 (quietly _ (key_objectId _)) => apply quietly_kbase : quiet_calls.
Local Hint Extern 1 (quietly _ (stored _)) => unfold stored : quiet_calls.
Local Hint Extern 1 (quietly _ (lifted ?o)) => apply quietly_done : quiet_calls.
Local Hint Extern 1 (quietly _ (found_key ?o)) => destruct o; apply quietly_done : quiet_calls.

Lemma quietly_generate : quietly on_docs generateApiKey.
Proof. unfold generateApiKey. auto 10 with quiet_calls. Qed.

Lemma quietly_create n : A (n_accountId n) -> quietly on_docs (keys_create n).
Proof.
  intros Ha. unfold keys_create, stored. apply quietly_catch; [|auto with quiet_calls].
  apply quietly_bind; [auto with quiet_calls|]. intros id. apply quietly_bind; [auto with quiet_calls|].
  intros t. case_match eqn:Hv; [|auto with quiet_calls]. apply quietly_keys. intros docs.
  unfold insert_key. case_match eqn:Hc; [by left|]. right. by constructor.
Qed.

Lemma quietly_revoke id accountId : A accountId -> quietly on_docs (keys_revoke id accountId).
Proof.
  intros Ha. unfold keys_revoke. apply quietly_catch; [|auto with quiet_calls].
  apply quietly_bind; [auto with quiet_calls|]. intros oid. apply quietly_bind; [|auto with quiet_calls].
  apply quietly_keys. intros docs. right. constructor. intros k [_ E%bool_decide_eq_true]%andb_true_iff.
  by subst.
Qed.

Lemma quietly_revokeAll accountId : A accountId -> quietly on_docs (revokeAll accountId).
Proof.
  intros Ha. unfold revokeAll. apply quietly_catch; [|auto with quiet_calls].
  apply quietly_keys. intros docs. right. constructor. intros k [E%bool_decide_eq_true _]%andb_true_iff.
  by subst.
Qed.

Lemma quietly_touch id : quietly on_docs (updateLastUsedAt id).
Proof.
  unfold updateLastUsedAt. apply quietly_catch; [|auto with quiet_calls].
  apply quietly_bind; [auto with quiet_calls|]. intros oid. apply quietly_bind; [auto with quiet_calls|].
  intros t. apply quietly_keys. intros docs. right. constructor.
Qed.

Local Hint Resolve quietly_generate quietly_create quietly_revoke quietly_revokeAll quietly_touch : quiet_calls.

Lemma quietly_createApiKey accountId name scopes ips metadata rate expiresIn : A accountId ->
  quietly on_docs (createApiKey accountId name scopes ips metadata rate expiresIn).
Proof. intros Ha. unfold createApiKey, findByAccountId. auto 20 with quiet_calls. Qed.

Lemma quietly_revokeApiKey id accountId : A accountId -> quietly on_docs (revokeApiKey id accountId).
Proof. intros Ha. unfold revokeApiKey. auto 10 with quiet_calls. Qed.

Lemma quietly_rotateApiKey id accountId : A accountId -> quietly on_docs (rotateApiKey id accountId).
Proof. intros Ha. unfold rotateApiKey, findActiveByIdForAccount. auto 20 with quiet_calls. Qed.

Lemma quietly_listApiKeys accountId : quietly on_docs (listApiKeys accountId).
Proof. unfold listApiKeys, keys_listByAccountId. auto 10 with quiet_calls. Qed.

Lemma quietly_verifyApiKey raw ip : quietly on_docs (verifyApiKey raw ip).
Proof. unfold verifyApiKey, findByKeyId. auto 20 with quiet_calls. Qed.
End Steps.

(** ** Requests *)

(** A request on keys, and the account it is made for. *)
Inductive key_request :=
| CreateRequest (accountId name : string) (scopes ips : list string) (metadata : json)
    (rate : option js_num) (expiresIn : option Z)
| ListRequest (accountId : string)
| RevokeRequest (id accountId : string)
| RevokeAllRequest (accountId : string)
| RotateRequest (id accountId : string)
| TouchRequest (id : string)
| VerifyRequest (rawKey : string) (ip : option string).

Definition request_account (r : key_request) : option string :=
  match r with
  | CreateRequest a _ _ _ _ _ _ | ListRequest a | RevokeRequest _ a | RevokeAllRequest a
  | RotateRequest _ a => Some a
  | TouchRequest _ | VerifyRequest _ _ => None
  end.

Section Requests.
Context `{X : KeyExternal}.

(** A request as a process; what a verification answers is kept. *)
Definition serve (r : key_request) : KApp (option VerifiedApiKey) :=
  match r with
  | CreateRequest a name scopes ips metadata rate expiresIn =>
      createApiKey a name scopes ips metadata rate expiresIn ;;; pret None
  | ListRequest a => listApiKeys a ;;; pret None
  | RevokeRequest id a => revokeApiKey id a ;;; pret None
  | RevokeAllRequest a => revokeAll a ;;; pret None
  | RotateRequest id a => rotateApiKey id a ;;; pret None
  | TouchRequest id => updateLastUsedAt id ;;; pret None
  | VerifyRequest raw ip => let* v := verifyApiKey raw ip in pret (Some v)
  end.

Lemma quietly_serve {S} (A : string -> Prop) (J : list ApiKey -> Prop) r :
  (forall docs docs', docs_step A docs docs' -> J docs -> J docs') ->
  (forall a, request_account r = Some a -> A a) -> quietly (S:=S) (on_docs J) (serve r).
Proof.
  intros HJ Ha. destruct r; cbn [serve]; (apply quietly_bind; [|intros; apply quietly_done]).
  - eapply quietly_createApiKey; [exact HJ|by apply Ha].
  - by eapply quietly_listApiKeys.
  - eapply quietly_revokeApiKey; [exact HJ|by apply Ha].
  - eapply quietly_revokeAll; [exact HJ|by apply Ha].
  - eapply quietly_rotateApiKey; [exact HJ|by apply Ha].
  - by eapply quietly_touch.
  - by eapply quietly_verifyApiKey.
Qed.
End Requests.

(** ** Revocation *)

Section Revocation.
Context `{X : KeyExternal}.

Definition revoked_in (keyId : string) (docs : list ApiKey) : Prop :=
  keys_unique docs /\ exists k, k ∈ docs /\ k_keyId k = keyId /\ k_status k = key_revoked.

Lemma revoked_step keyId A docs docs' :
  docs_step A docs docs' -> revoked_in keyId docs -> revoked_in keyId docs'.
Proof.
  intros Hst [Hu (k & Hk & E & Hr)]. split; [by eapply step_unique|].
  destruct (step_grows _ _ _ _ Hst Hk) as (k' & Hk' & [Hle Hs] & _). exists k'. split; [done|].
  split; [congruence|]. destruct Hs as [-> | ->]; done.
Qed.

Lemma find_key_Some P docs k : find_key P docs = Some k -> k ∈ docs /\ P k = true.
Proof.
  unfold find_key. intros Hf. apply fmap_Some in Hf as ([i k'] & Hf & ->).
  apply list_find_Some in Hf as (Hi & HP & _). split; [|done]. by eapply list_elem_of_lookup_2.
Qed.

(** Two documents of one public id are one. *)
Lemma same_keyId docs k k' :
  keys_unique docs -> k ∈ docs -> k' ∈ docs -> k_keyId k = k_keyId k' -> k = k'.
Proof.
  intros (_ & Hu & _) Hk Hk' E.
  apply list_elem_of_lookup in Hk as [i Hi]. apply list_elem_of_lookup in Hk' as [j Hj].
  assert (i = j) as ->; [|congruence]. eapply NoDup_lookup; [exact Hu|..].
  - by rewrite list_lookup_fmap, Hi.
  - by rewrite list_lookup_fmap, Hj, E.
Qed.

Lemma findByKeyId_revoked {S} keyId keyId' :
  keeps (S:=S) (on_docs (revoked_in keyId)) (fun o => forall k, o = Ok k -> k_keyId k <> keyId)
    (findByKeyId keyId').
Proof.
  unfold findByKeyId, stored.
  eapply keeps_catch with (phi := fun o => forall k, o = Ok k -> k_keyId k <> keyId);
    [|intros [k|e|e] Ho; [exact Ho|done|by apply keeps_done]].
  eapply keeps_bind with (phi := fun o => forall k, o = Ok (Some k) -> k_keyId k <> keyId).
  - apply keeps_keys; [|done]. intros docs HJ. split; [done|]. cbn. intros k' [= Hf] E'.
    apply find_key_Some in Hf as [Hk' [_ Ha%bool_decide_eq_true]%andb_true_iff].
    destruct HJ as [Hu (k & Hk & Ek & Hr)].
    assert (k' = k) as -> by (eapply same_keyId; [done..|congruence]). congruence.
  - intros [[k|]|e|e] Ho; try done; apply keeps_done; try done. intros k' [= <-]. by apply Ho.
Qed.

(** A comparison of a date with the clock. *)
Lemma quietly_compared {S} (J : list ApiKey -> Prop) (t : option Z) d (f : Z -> Z -> bool) :
  quietly (S:=S) (on_docs J)
    (match t with None => pret d | Some t => let* now := know in pret (f t now) end).
Proof.
  destruct t; [|apply quietly_done]. apply quietly_bind; [apply quietly_kbase|].
  intros. apply quietly_done.
Qed.

(** What a verification answers is the key it found. *)
Lemma verify_answers {S} (J : list ApiKey -> Prop) (phi : ApiKey -> Prop) raw ip :
  (forall keyId, keeps (S:=S) (on_docs J) (fun o => forall k, o = Ok k -> phi k) (findByKeyId keyId)) ->
  keeps (S:=S) (on_docs J) (fun o => forall v, o = Ok v -> phi (v_apiKey v)) (verifyApiKey raw ip).
Proof.
  intros Hf. unfold verifyApiKey, lifted. destruct (parseApiKey raw) as [p|e|e]; cbn [pbind];
    [|by apply keeps_done..].
  eapply keeps_bind; [apply Hf|]. intros [k|e|e] Hk; try done. specialize (Hk k eq_refl).
  assert (forall c : KApp bool, quietly (S:=S) (on_docs J) c -> forall f, (forall b,
    keeps (S:=S) (on_docs J) (fun o => forall v, o = Ok v -> phi (v_apiKey v)) (f b)) ->
    keeps (S:=S) (on_docs J) (fun o => forall v, o = Ok v -> phi (v_apiKey v)) (pbind c f)) as Hq.
  { intros c Hc f Hb. eapply keeps_bind; [exact Hc|]. by intros [b|e|e] _; [apply Hb|..]. }
  apply Hq; [apply (quietly_compared J _ false Z.leb)|].
  intros []; [by apply keeps_done|]. case_match; [by apply keeps_done|].
  destruct (ip_refused k ip); [by apply keeps_done|].
  eapply keeps_bind; [apply quietly_kbase|]. intros [a|e|e] _; try done.
  apply Hq; [apply (quietly_compared J _ true (fun t now => LAST_USED_AT_THROTTLE_MS <? now - t))|].
  intros b. eapply keeps_bind; [by destruct b; [apply quietly_kpoke|apply quietly_done]|].
  intros [[]|e|e] _; try done. apply keeps_done. by intros v [= <-].
Qed.

(** A call of the collection that answered took effect. *)
Lemma run_keys_Ok {B} (op : list ApiKey -> outcome error B * list ApiKey) w b w' :
  run (keys op) w = (Ok b, w') ->
  op (kw_docs w) = (Ok b, kw_docs w') /\ w' = set_docs (kw_docs w') (set_kbase (next_op (kw_base w)) w).
Proof.
  unfold keys. rewrite run_atomic. destruct (op (kw_docs w)) as [o docs].
  destruct (mongo_fault _) as [[]|]; intros Hr; simplify_eq. done.
Qed.

Lemma run_stored_Ok {B} (c : KApp B) w b w' : run (stored c) w = (Ok b, w') -> run c w = (Ok b, w').
Proof. unfold stored. rewrite run_catch. unfold catch. by destruct (run c w) as [[]?]. Qed.

Lemma run_objectId_Ok id w oid w' :
  run (key_objectId id) w = (Ok oid, w') -> oid = id /\ w' = w.
Proof.
  unfold key_objectId, kbase, toObjectId. rewrite run_atomic. destruct (valid_object_id id); cbn;
    intros Hr; simplify_eq. by destruct w.
Qed.

Lemma keys_revoke_Ok id accountId w k w' : run (keys_revoke id accountId) w = (Ok k, w') ->
  exists k0, k0 ∈ kw_docs w /\ key_of id accountId k0 = true /\ k = with_status key_revoked k0 /\
    kw_docs w' = update_key (key_of id accountId) (with_status key_revoked) (kw_docs w) /\
    kw_base w' = next_op (kw_base w).
Proof.
  intros Hr%run_stored_Ok. apply run_bind_Ok in Hr as (oid & w1 & H1 & Hr).
  apply run_objectId_Ok in H1 as [-> ->]. apply run_bind_Ok in Hr as (doc & w2 & H2 & Hr).
  apply run_keys_Ok in H2 as [H2 Hw]. injection H2 as <- Hd.
  destruct (find_key _ (kw_docs w)) as [k0|] eqn:Hf; [|done]. injection Hr as <- <-.
  apply find_key_Some in Hf as [Hk0 HP]. exists k0. split_and!; try done. by rewrite Hw.
Qed.

Lemma revokeApiKey_Ok id accountId w k w' : run (revokeApiKey id accountId) w = (Ok k, w') ->
  exists k0, k0 ∈ kw_docs w /\ key_of id accountId k0 = true /\ k = with_status key_revoked k0 /\
    kw_docs w' = update_key (key_of id accountId) (with_status key_revoked) (kw_docs w).
Proof.
  unfold revokeApiKey. intros Hr. apply run_bind_Ok in Hr as (k1 & w1 & H1 & Hr).
  apply keys_revoke_Ok in H1 as (k0 & ? & ? & ? & ? & _). cbn in Hr. injection Hr as <- <-. by exists k0.
Qed.

Lemma revoke_leaves id accountId w k w' : keys_unique (kw_docs w) ->
  run (revokeApiKey id accountId) w = (Ok k, w') -> revoked_in (k_keyId k) (kw_docs w').
Proof.
  intros Hu Hr. apply revokeApiKey_Ok in Hr as (k0 & Hk & Ho & -> & Hd). split.
  - rewrite Hd. eapply step_unique with (A := fun _ => True); [|exact Hu]. by constructor.
  - exists (with_status key_revoked k0). split; [|done]. rewrite Hd. apply list_elem_of_fmap.
    exists k0. by rewrite Ho.
Qed.

Lemma serve_revoked keyId r i :
  safe (on_docs (revoked_in keyId)) (fun (_ : unit) o => forall v, o = Ok (Some v) ->
    k_keyId (v_apiKey v) <> keyId) i (serve r) tt.
Proof.
  assert (keeps (S:=unit) (on_docs (revoked_in keyId))
    (fun o => forall v, o = Ok (Some v) -> k_keyId (v_apiKey v) <> keyId) (serve r)) as Hk.
  { destruct r as [| | | | | |raw ip]; cbn [serve].
    1-6: eapply keeps_bind; [|by intros [a|e|e] _; [apply keeps_done|..]].
    - eapply quietly_createApiKey with (A := fun _ => True); [by apply revoked_step|done].
    - eapply quietly_listApiKeys with (A := fun _ => True); by apply revoked_step.
    - eapply quietly_revokeApiKey with (A := fun _ => True); [by apply revoked_step|done].
    - eapply quietly_revokeAll with (A := fun _ => True); [by apply revoked_step|done].
    - eapply quietly_rotateApiKey with (A := fun _ => True); [by apply revoked_step|done].
    - eapply quietly_touch with (A := fun _ => True); by apply revoked_step.
    - eapply keeps_bind; [apply (verify_answers _ (fun k => k_keyId k <> keyId));
        apply findByKeyId_revoked|]. intros [v|e|e] Hv; try done. apply keeps_done.
      intros v' [= <-]. by apply Hv. }
  eapply safe_mono; [|apply Hk]. by intros s o [_ Ho].
Qed.
End Revocation.

(** C16: once a revocation was answered, no request verifies as that key any more:
    not under any schedule, and whatever keys are created, rotated, revoked or
    used at the same time, for any account. *)
Theorem revocation_is_final `{X : KeyExternal} (w w1 : kworld) (id accountId : string) (k : ApiKey)
    (requests : list key_request) (sched : list nat) (i : nat) (v : VerifiedApiKey) :
  keys_unique (kw_docs w) ->
  run (revokeApiKey id accountId) w = (Ok k, w1) ->
  (exec sched (serve <$> requests) w1).1 !! i = Some (Done (Ok (Some v))) ->
  k_keyId (v_apiKey v) <> k_keyId k.
Proof.
  intros Hu Hr Hdone. pose proof (revoke_leaves _ _ _ _ _ Hu Hr) as HJ.
  assert (pool_safe (on_docs (revoked_in (k_keyId k)))
    (fun (_ : unit) o => forall v, o = Ok (Some v) -> k_keyId (v_apiKey v) <> k_keyId k)
    (serve <$> requests) w1) as Hsafe.
  { exists (replicate (length requests) tt). split; [done|].
    split; [by rewrite length_replicate, length_fmap|]. intros j p [] Hj _.
    apply list_lookup_fmap_Some in Hj as (r & -> & _). apply serve_revoked. }
  apply (exec_safe _ _ sched) in Hsafe as (ss & _ & Hlen & Hsafe).
  assert (exists s, ss !! i = Some s) as [s Hs].
  { apply lookup_lt_is_Some_2. rewrite Hlen. by eapply lookup_lt_Some. }
  by apply (Hsafe _ _ _ Hdone Hs).
Qed.

(** ** Verification *)

Section Verification.
Context `{X : KeyExternal}.

(** Where a request may come from. *)
Definition ip_accepted (k : ApiKey) (ip : option string) : Prop :=
  k_ipConstraints k = [] \/
  exists a, ip = Some a /\ a <> "" /\ isIpAllowedByConstraints a (k_ipConstraints k) = true.

Lemma ip_refused_None k ip : ip_refused k ip = None <-> ip_accepted k ip.
Proof.
  unfold ip_refused, ip_accepted. destruct (k_ipConstraints k) as [|c l]; [by split; [left|]|].
  split.
  - destruct ip as [[|x s]|]; cbn [nonempty]; try done. case_match eqn:E; [|done]. right. by eexists.
  - intros [|(a & -> & Ha & ->)]; [done|]. by destruct a.
Qed.

Lemma secret_valid_iff secret hashedKey :
  isApiKeySecretValid secret hashedKey = true <-> hex_decode hashedKey = sha256 secret.
Proof.
  unfold isApiKeySecretValid, hashApiKeySecret. rewrite hex_roundtrip. split.
  - by intros [_ ->%String.eqb_eq]%andb_true_iff.
  - intros ->. by rewrite Z.eqb_refl, String.eqb_refl.
Qed.

Lemma find_key_unique P docs k : k ∈ docs -> P k = true ->
  (forall k', k' ∈ docs -> P k' = true -> k' = k) -> find_key P docs = Some k.
Proof.
  intros Hk HP Hu. unfold find_key. destruct (list_find _ docs) as [[i k']|] eqn:E.
  - apply list_find_Some in E as (Hi & HP' & _). cbn. f_equal.
    apply Hu; [by eapply list_elem_of_lookup_2|done].
  - rewrite list_find_None in E. rewrite Forall_forall in E. by destruct (E _ Hk).
Qed.

(** The lookup of a public id, when the database answers. *)
Lemma run_findByKeyId keyId w :
  mongo_fault (w_ops (kw_base w)) = None ->
  run (findByKeyId keyId) w =
  (match find_key (fun k => bool_decide (k_keyId k = keyId) && is_active k) (kw_docs w) with
   | Some k => Ok k
   | None => Err (new_error CouldNotFindError "API key not found") end,
   set_docs (kw_docs w) (set_kbase (next_op (kw_base w)) w)).
Proof.
  intros Hf. unfold findByKeyId, stored. rewrite run_catch. unfold catch. rewrite run_bind. unfold bind, keys.
  rewrite run_atomic, Hf. by destruct (find_key _ _).
Qed.

(** The comparison of an expiry with the clock. *)
Lemma run_late k w : exists w',
  run (match k_expiresAt k with None => pret false | Some t => let* now := know in pret (t <=? now) end) w
  = (Ok (past_expiry k (clock (w_reads (kw_base w)))), w') /\
  w_ops (kw_base w') = w_ops (kw_base w) /\ w_accounts (kw_base w') = w_accounts (kw_base w).
Proof. unfold past_expiry. destruct (k_expiresAt k) as [t|]; by eexists. Qed.

Lemma run_stale k w : exists b w',
  run (match k_lastUsedAt k with
       | None => pret true
       | Some t => let* now := know in pret (LAST_USED_AT_THROTTLE_MS <? now - t) end) w = (Ok b, w').
Proof. destruct (k_lastUsedAt k); by do 2 eexists. Qed.

Lemma run_account accountId w : mongo_fault (w_ops (kw_base w)) = None ->
  match w_accounts (kw_base w) !! accountId with
  | Some a => if valid_object_id accountId then exists w', run (kbase (accounts_findById accountId)) w = (Ok a, w')
              else exists e w', run (kbase (accounts_findById accountId)) w = (Err e, w')
  | None => exists e w', run (kbase (accounts_findById accountId)) w = (Err e, w')
  end.
Proof.
  intros Hf. unfold kbase, atomic. cbn [run].
  unfold accounts_findById, guarded, toObjectId, catch, bind, mongo, read.
  destruct (valid_object_id accountId); cbn; rewrite ?Hf; cbn;
    destruct (w_accounts (kw_base w) !! accountId); by do 2 eexists.
Qed.

Definition genuine (w : kworld) (raw : string) (ip : option string) (k : ApiKey) (a : account) : Prop :=
  k ∈ kw_docs w /\ k_status k = key_active /\
  (exists secret, parseApiKey raw = Ok (k_keyId k, secret) /\ hex_decode (k_hashedKey k) = sha256 secret) /\
  past_expiry k (clock (w_reads (kw_base w))) = false /\ ip_accepted k ip /\
  valid_object_id (k_accountId k) = true /\ w_accounts (kw_base w) !! k_accountId k = Some a.

(** After the key was found. *)
Lemma run_verify_found w raw ip k secret v :
  mongo_fault (w_ops (kw_base w)) = None -> mongo_fault (S (w_ops (kw_base w))) = None ->
  parseApiKey raw = Ok (k_keyId k, secret) ->
  find_key (fun k' => bool_decide (k_keyId k' = k_keyId k) && is_active k') (kw_docs w) = Some k ->
  (run (verifyApiKey raw ip) w).1 = Ok v <->
  hex_decode (k_hashedKey k) = sha256 secret /\ past_expiry k (clock (w_reads (kw_base w))) = false /\
  ip_accepted k ip /\ valid_object_id (k_accountId k) = true /\
  exists a, w_accounts (kw_base w) !! k_accountId k = Some a /\ v = mkVerified k (a_kratosUserId a).
Proof.
  intros Hf0 Hf1 Hp Hk. unfold verifyApiKey, lifted. rewrite Hp. cbn [pbind fst snd].
  rewrite run_bind. unfold bind at 1. rewrite run_findByKeyId, Hk by done. cbn [fst snd].
  rewrite run_bind. unfold bind at 1.
  edestruct (run_late k) as (w' & -> & Ho & Ha). cbn in Ho, Ha. cbv beta iota.
  change (past_expiry k (clock (w_reads (kw_base (set_docs _ _)))))
    with (past_expiry k (clock (w_reads (kw_base w)))).
  destruct (past_expiry k _); [split; [done|naive_solver]|].
  rewrite <- secret_valid_iff, <- ip_refused_None.
  destruct (isApiKeySecretValid secret (k_hashedKey k)); cbn [negb]; [|split; [done|naive_solver]].
  destruct (ip_refused k ip); [split; [done|naive_solver]|].
  rewrite run_bind. unfold bind at 1. rewrite <- Ho in Hf1.
  pose proof (run_account (k_accountId k) w' Hf1) as Hacc. rewrite Ha in Hacc.
  destruct (w_accounts (kw_base w) !! k_accountId k) as [a|]; [destruct (valid_object_id (k_accountId k))|].
  - destruct Hacc as [w2 ->]. rewrite run_bind. unfold bind at 1.
    destruct (run_stale k w2) as (b & w3 & ->).
    assert ((run ((if b then kpoke (log_touch (k_id k)) else pret tt) ;;;
      pret (mkVerified k (a_kratosUserId a))) w3).1 = Ok (mkVerified k (a_kratosUserId a))) as ->
      by (by destruct b). naive_solver.
  - destruct Hacc as (e & w2 & ->). split; [done|naive_solver].
  - destruct Hacc as (e & w2 & ->). split; [done|naive_solver].
Qed.
End Verification.

(** C31: a key is accepted exactly when it has the format of a key, an active
    document of its public id holds the SHA-256 of its secret, that document is
    not past its expiry, the client's address is one of those it is pinned to,
    if it is pinned, and its account exists; what is answered is that
    document and the identity of that account. *)
Theorem key_accepted_iff `{X : KeyExternal} (w : kworld) (rawKey : string) (ip : option string)
    (v : VerifiedApiKey) :
  keys_unique (kw_docs w) ->
  mongo_fault (w_ops (kw_base w)) = None -> mongo_fault (S (w_ops (kw_base w))) = None ->
  (run (verifyApiKey rawKey ip) w).1 = Ok v <->
  exists k a, genuine w rawKey ip k a /\ v = mkVerified k (a_kratosUserId a).
Proof.
  intros Hu Hf0 Hf1. split.
  - intros Hv. destruct (parseApiKey rawKey) as [[keyId secret]|e|e] eqn:Hp;
      [|by unfold verifyApiKey, lifted in Hv; rewrite Hp in Hv..].
    destruct (find_key (fun k' => bool_decide (k_keyId k' = keyId) && is_active k') (kw_docs w)) as [k|] eqn:Hk.
    2: { unfold verifyApiKey, lifted in Hv. rewrite Hp in Hv. cbn [pbind fst snd] in Hv.
         rewrite run_bind in Hv. unfold bind in Hv. by rewrite run_findByKeyId, Hk in Hv. }
    destruct (find_key_Some _ _ _ Hk) as [Hin [E%bool_decide_eq_true Ha%bool_decide_eq_true]%andb_true_iff].
    subst keyId. pose proof (proj1 (run_verify_found _ _ _ _ _ _ Hf0 Hf1 Hp Hk) Hv) as (Hs & Hx & Hip & Hid & a & Hacc & ->).
    exists k, a. split; [|done]. split_and!; try done. by exists secret.
  - intros (k & a & (Hin & Ha & (secret & Hp & Hs) & Hx & Hip & Hid & Hacc) & ->).
    apply (run_verify_found _ _ _ _ _ _ Hf0 Hf1 Hp); [|naive_solver].
    apply find_key_unique; [done| |].
    + unfold is_active. by rewrite !bool_decide_true.
    + intros k' Hk' [E%bool_decide_eq_true _]%andb_true_iff. by eapply same_keyId.
Qed.

(** ** Creation and rotation *)

Section Creation.
Context `{X : KeyExternal}.

(** [k] is the document of [n]. *)
Definition stored_as (n : NewApiKey) (k : ApiKey) : Prop :=
  (k_keyId k, k_accountId k, k_name k, k_hashedKey k, k_scopes k, k_ipConstraints k, k_metadata k,
   k_rateLimitPerMinute k, k_expiresAt k) =
  (n_keyId n, n_accountId n, n_name n, n_hashedKey n, n_scopes n, n_ipConstraints n, n_metadata n,
   n_rateLimitPerMinute n, n_expiresAt n) /\ k_status k = key_active.

Lemma keys_create_Ok n w k w' : run (keys_create n) w = (Ok k, w') ->
  kw_docs w' = kw_docs w ++ [k] /\ existsb (clashes k) (kw_docs w) = false /\ valid_key k = true /\
  stored_as n k.
Proof.
  intros Hr%run_stored_Ok. apply run_bind_Ok in Hr as (id & w1 & H1 & Hr).
  apply run_bind_Ok in Hr as (t & w2 & H2 & Hr). cbn in H1, H2. injection H1 as <- <-.
  injection H2 as <- <-. cbv zeta in Hr.
  match type of Hr with context [if ?b then _ else _] => destruct b eqn:Hv end; [|done]. apply run_keys_Ok in Hr as [Hi _].
  unfold insert_key in Hi. case_match eqn:Hc; [done|]. cbn in Hi. injection Hi as <- Hd. by rewrite <- Hd.
Qed.

Lemma generate_Ok `{!KeyLaws} w g w' : run generateApiKey w = (Ok g, w') ->
  parseApiKey (g_fullKey g) = Ok (g_keyId g, g_secret g) /\
  g_hashedSecret g = hashApiKeySecret (g_secret g) /\ kw_docs w' = kw_docs w.
Proof.
  intros [= <- <-]. cbn [g_fullKey g_keyId g_secret g_hashedSecret]. split; [|done].
  apply parseApiKey_iff. split; [done|].
  pose proof (key_bytes_length (kw_randoms w) API_KEY_ID_BYTES) as Hb.
  pose proof (key_bytes_length (S (kw_randoms w)) API_KEY_SECRET_BYTES) as Hs.
  destruct (hex_encode_chars (key_bytes (kw_randoms w) API_KEY_ID_BYTES)) as [C1 L1].
  destruct (base64Url_secret _ Hs) as [C2 L2]. split_and!; try done. rewrite L1. unfold slen. by rewrite Hb.
Qed.

(** Calls that only read. *)
Lemma run_quiet_docs {B} (c : KApp B) w o w' :
  (forall docs, quietly (S:=unit) (on_docs (fun d => d = docs)) c) ->
  run c w = (o, w') -> kw_docs w' = kw_docs w.
Proof.
  intros Hq Hr. destruct (keeps_run _ _ _ w (Hq (kw_docs w)) eq_refl) as [Hd _]. by rewrite Hr in Hd.
Qed.

Lemma quietly_find_account {S} J accountId : quietly (S:=S) (on_docs J) (findByAccountId accountId).
Proof.
  unfold findByAccountId, stored. apply quietly_catch; [|intros; apply quietly_done].
  by apply keeps_keys.
Qed.

Lemma run_lifted_Ok {B} (o : outcome error B) w b w' :
  run (lifted o) w = (Ok b, w') -> o = Ok b /\ w' = w.
Proof. intros Hr. by injection Hr as -> ->. Qed.

Lemma checked_name_same x y : checkedToApiKeyName x = Ok y -> y = x.
Proof. unfold checkedToApiKeyName. repeat case_match; congruence. Qed.
Lemma checked_scopes_same x y : checkedToApiKeyScopes x = Ok y -> y = x.
Proof. unfold checkedToApiKeyScopes. repeat case_match; congruence. Qed.
Lemma checked_ips_same x y : checkedToApiKeyIpConstraints x = Ok y -> y = x.
Proof. unfold checkedToApiKeyIpConstraints. repeat case_match; congruence. Qed.

Lemma createApiKey_Ok `{!KeyLaws} a name scopes ips metadata rate expiresIn w r w' :
  run (createApiKey a name scopes ips metadata rate expiresIn) w = (Ok r, w') ->
  exists k secret, kw_docs w' = kw_docs w ++ [k] /\ existsb (clashes k) (kw_docs w) = false /\
    valid_key k = true /\ k_status k = key_active /\ k_accountId k = a /\ k_name k = name /\
    k_scopes k = scopes /\ k_ipConstraints k = ips /\ k_expiresAt k = cr_expiresAt r /\
    parseApiKey (cr_apiKey r) = Ok (k_keyId k, secret) /\ k_hashedKey k = hashApiKeySecret secret.
Proof.
  unfold createApiKey. intros Hr.
  apply run_bind_Ok in Hr as (n & w1 & [->%checked_name_same ->]%run_lifted_Ok & Hr).
  apply run_bind_Ok in Hr as (s & w1 & [->%checked_scopes_same ->]%run_lifted_Ok & Hr).
  apply run_bind_Ok in Hr as (cs & w1 & [->%checked_ips_same ->]%run_lifted_Ok & Hr).
  apply run_bind_Ok in Hr as (rl & w1 & H1 & Hr). assert (kw_docs w1 = kw_docs w) as E1.
  { destruct rate as [x|]; [|by injection H1 as _ <-].
    apply run_bind_Ok in H1 as (y & w1' & [_ ->]%run_lifted_Ok & H1). by injection H1 as _ <-. }
  apply run_bind_Ok in Hr as (found & w2 & H2 & Hr).
  apply run_quiet_docs in H2 as E2; [|intros; apply quietly_find_account].
  case_match; [done|]. apply run_bind_Ok in Hr as (g & w3 & Hg & Hr).
  apply generate_Ok in Hg as (Hp & Hh & E3). apply run_bind_Ok in Hr as (e & w4 & He & Hr).
  assert (kw_docs w4 = kw_docs w3) as E4.
  { destruct expiresIn as [x|]; [|by injection He as _ <-]. case_match; by injection He as _ <-. }
  apply run_bind_Ok in Hr as (k & w5 & Hk & Hr). apply keys_create_Ok in Hk as (Hd & Hc & Hv & Hk & Ha).
  cbn in Hr, Hk. injection Hr as <- <-. injection Hk as K1 K2 K3 K4 K5 K6 K7 K8 K9.
  exists k, (g_secret g). cbn [cr_apiKey cr_expiresAt kw_docs log_audit].
  rewrite E4, E3, E2, E1 in Hd, Hc. split_and!; congruence.
Qed.
End Creation.

(** The key handed out by a creation is accepted afterwards, as a key of the
    account and with the scopes asked for, whatever the requests made for other
    accounts do in between, in any order: those neither revoke nor
    replace it. *)
Theorem created_key_accepted `{X : KeyExternal} `{!KeyLaws} (w w1 : kworld) (accountId name : string)
    (scopes ips : list string) (metadata : json) (rate : option js_num) (expiresIn : option Z)
    (r : CreateApiKeyResult) (requests : list key_request) (sched : list nat) (ip : option string)
    (a : account) :
  keys_unique (kw_docs w) ->
  run (createApiKey accountId name scopes ips metadata rate expiresIn) w = (Ok r, w1) ->
  Forall (fun rq => request_account rq <> Some accountId) requests ->
  let w2 := (exec sched (serve <$> requests) w1).2 in
  mongo_fault (w_ops (kw_base w2)) = None -> mongo_fault (S (w_ops (kw_base w2))) = None ->
  valid_object_id accountId = true -> w_accounts (kw_base w2) !! accountId = Some a ->
  (forall t, cr_expiresAt r = Some t -> clock (w_reads (kw_base w2)) < t) ->
  ips = [] \/ (exists x, ip = Some x /\ x <> "" /\ isIpAllowedByConstraints x ips = true) ->
  exists k, (run (verifyApiKey (cr_apiKey r) ip) w2).1 = Ok (mkVerified k (a_kratosUserId a)) /\
    k_accountId k = accountId /\ k_name k = name /\ k_scopes k = scopes.
Proof.
  intros Hu Hr Hrq w2 Hf0 Hf1 Hid Hacc Hexp Hip.
  apply createApiKey_Ok in Hr as (k & secret & Hd & Hc & Hv & Ha & Ka & Kn & Ks & Ki & Ke & Hp & Hh).
  set (J := fun docs => keys_unique docs /\ exists k', k' ∈ docs /\ key_le k k' /\ k_status k' = key_active).
  assert (J (kw_docs w2)) as [Hu2 (k' & Hk' & [Hle _] & Ha')].
  { assert (pool_safe (on_docs J) (fun (_ : unit) (_ : outcome error (option VerifiedApiKey)) => True)
      (serve <$> requests) w1) as Hsafe.
    { exists (replicate (length requests) tt). split; [|split; [by rewrite length_replicate, length_fmap|]].
      - unfold on_docs, J. rewrite Hd. split.
        + eapply (step_unique (fun _ => True)); [|exact Hu]. by constructor.
        + exists k. split; [set_solver|done].
      - intros j p [] Hj _. apply list_lookup_fmap_Some in Hj as (rq & -> & Hj).
        eapply safe_mono; [|eapply (quietly_serve (fun b => b <> accountId))]; [done| |].
        + intros docs docs' Hst [Hu' (k' & Hk' & Hle & Ha')]. split; [by eapply step_unique|].
          destruct (step_grows _ _ _ _ Hst Hk') as (k2 & Hk2 & Hle2 & Hs). exists k2. split; [done|].
          split; [by etrans|]. rewrite Hs; [done|]. destruct Hle as [E _]. intros Hn. apply Hn. congruence.
        + intros b Hb ->. rewrite Forall_forall in Hrq. by apply (Hrq rq); [eapply list_elem_of_lookup_2|]. }
    apply (exec_safe _ _ sched) in Hsafe as (ss & HJ & _). exact HJ. }
  injection Hle as L1 L2 L3 L4 L5 L6 L7 L8 L9 L10 L11.
  exists k'. split; [|split_and!; congruence]. apply key_accepted_iff; [done..|]. exists k', a. split; [|done].
  split; [done|]. split; [done|]. split.
  { exists secret. rewrite L2, L5, Hh. split; [done|]. apply hex_roundtrip. }
  split_and!; [|by unfold ip_accepted; rewrite L7, Ki|congruence|congruence].
  unfold past_expiry. rewrite L11, Ke. destruct (cr_expiresAt r) as [t|]; [|done].
  apply Z.leb_gt. by apply Hexp.
Qed.

Section Rotation.
Context `{X : KeyExternal}.

Lemma active_of_app a l l' : active_of a (l ++ l') = active_of a l ++ active_of a l'.
Proof. apply List.filter_app. Qed.

Lemma active_of_cons a k l : active_of a (k :: l) =
  (if bool_decide (k_accountId k = a) && is_active k then [k] else []) ++ active_of a l.
Proof. unfold active_of. cbn. by destruct (_ && _). Qed.

(** The active keys of an account when one key is revoked. *)
Lemma active_of_revoke a id accountId docs k : NoDup (k_id <$> docs) -> k ∈ docs ->
  key_of id accountId k = true -> k_status k = key_active ->
  Z.of_nat (length (active_of a (update_key (key_of id accountId) (with_status key_revoked) docs))) =
  Z.of_nat (length (active_of a docs)) - (if bool_decide (accountId = a) then 1 else 0).
Proof.
  intros Hnd Hk Ho Ha. apply list_elem_of_split in Hk as (l1 & l2 & ->).
  assert (forall l, k_id k ∉ (k_id <$> l) ->
    update_key (key_of id accountId) (with_status key_revoked) l = l) as Hid.
  { intros l Hn. unfold update_key. rewrite <- (list_fmap_id l) at 2. apply list_fmap_ext.
    intros i k' Hi. destruct (key_of id accountId k') eqn:E; [|done]. exfalso. apply Hn.
    apply list_elem_of_fmap. exists k'. split; [|by eapply list_elem_of_lookup_2].
    apply andb_true_iff in E as [E%bool_decide_eq_true _]. apply andb_true_iff in Ho as [?%bool_decide_eq_true _].
    congruence. }
  rewrite fmap_app, fmap_cons in Hnd. apply NoDup_app in Hnd as (_ & Hd & Hn%NoDup_cons).
  replace (update_key _ _ (l1 ++ k :: l2)) with (l1 ++ with_status key_revoked k :: l2).
  - assert (is_active k = true) as Hact by (by apply bool_decide_eq_true).
    rewrite !active_of_app, !active_of_cons, !length_app, Hact, andb_true_r.
    apply andb_true_iff in Ho as [_ ->%bool_decide_eq_true].
    replace (is_active (with_status key_revoked k)) with false by done. rewrite andb_false_r.
    destruct (bool_decide (accountId = a)); cbn [length app]; lia.
  - rewrite <- (Hid l1) at 1 by (intros Hin; apply (Hd _ Hin); left).
    rewrite <- (Hid l2) at 1 by tauto. unfold update_key. by rewrite fmap_app, fmap_cons, Ho.
Qed.

Lemma findActive_Ok id accountId w k w' : run (findActiveByIdForAccount id accountId) w = (Ok k, w') ->
  k ∈ kw_docs w /\ key_of id accountId k = true /\ k_status k = key_active /\ kw_docs w' = kw_docs w.
Proof.
  intros Hr%run_stored_Ok. apply run_bind_Ok in Hr as (oid & w1 & [-> ->]%run_objectId_Ok & Hr).
  apply run_bind_Ok in Hr as (doc & w2 & Hd & Hr). apply run_keys_Ok in Hd as [Hd _].
  injection Hd as <- Hd. destruct (find_key _ (kw_docs w)) as [k0|] eqn:Hf; [|done].
  injection Hr as <- <-. apply find_key_Some in Hf as [Hk [Hf Ha%bool_decide_eq_true]%andb_true_iff]. done.
Qed.
End Rotation.

(** C32: a rotation that succeeds revokes the key it names, an active key of the
    account that asked, and adds one active key whose raw form is handed
    out, with the same name, scopes, addresses, rate and expiry; no other
    document changes, and every account has as many active keys as before. *)
Theorem rotation_replaces `{X : KeyExternal} `{!KeyLaws} (w w1 : kworld) (id accountId : string)
    (r : CreateApiKeyResult) (oldKeyId : string) :
  keys_unique (kw_docs w) ->
  run (rotateApiKey id accountId) w = (Ok (r, oldKeyId), w1) ->
  exists old new secret,
    old ∈ kw_docs w /\ key_of id accountId old = true /\ k_status old = key_active /\
    k_keyId old = oldKeyId /\
    kw_docs w1 = update_key (key_of id accountId) (with_status key_revoked) (kw_docs w) ++ [new] /\
    k_status new = key_active /\
    (k_accountId new, k_name new, k_scopes new, k_ipConstraints new, k_metadata new,
     k_rateLimitPerMinute new, k_expiresAt new) =
    (accountId, k_name old, k_scopes old, k_ipConstraints old, k_metadata old, k_rateLimitPerMinute old,
     k_expiresAt old) /\
    parseApiKey (cr_apiKey r) = Ok (k_keyId new, secret) /\ k_hashedKey new = hashApiKeySecret secret /\
    forall a, length (active_of a (kw_docs w1)) = length (active_of a (kw_docs w)).
Proof.
  intros (Hid & _) Hr. unfold rotateApiKey in Hr.
  apply run_bind_Ok in Hr as (old & w2 & (Hold & Ho & Ha & E2)%findActive_Ok & Hr).
  apply run_bind_Ok in Hr as (late & w3 & Hl & Hr).
  apply run_quiet_docs in Hl as E3; [|intros; apply (quietly_compared _ _ false Z.leb)].
  destruct late; [done|]. apply run_bind_Ok in Hr as (g & w4 & (Hp & Hh & E4)%generate_Ok & Hr).
  apply run_bind_Ok in Hr as (new & w5 & (Hd & Hc & _ & Hk & Hna)%keys_create_Ok & Hr).
  apply run_bind_Ok in Hr as (rv & w6 & Hrv & Hr). rewrite run_attempt in Hrv. unfold attempt in Hrv.
  destruct (run (keys_revoke _ _) w5) as [[k'|e|e] w6'] eqn:Hrev;
    [|..|discriminate Hrv]; injection Hrv as <- <-.
  2: { apply run_bind_Ok in Hr as (? & ? & _ & Hr). done. }
  apply keys_revoke_Ok in Hrev as (_ & _ & _ & _ & Hd6 & _). cbn in Hr, Hk. injection Hr as <- <- <-.
  injection Hk as K1 K2 K3 K4 K5 K6 K7 K8 K9. cbn [kw_docs log_audit cr_apiKey].
  assert (k_id old = id) as Hoid by (by apply andb_true_iff in Ho as [?%bool_decide_eq_true _]).
  rewrite E4, E3, E2 in Hd, Hc. rewrite Hoid in Hd6.
  assert (key_of id accountId new = false) as Hnew.
  { destruct (key_of id accountId new) eqn:E; [|done]. apply andb_true_iff in E as [E%bool_decide_eq_true _].
    exfalso. apply (clash_free k_id new (kw_docs w) Hc).
    - intros k0 E0. unfold clashes. by rewrite (bool_decide_true _ E0).
    - rewrite E, <- Hoid. apply list_elem_of_fmap. by exists old. }
  assert (kw_docs w6' = update_key (key_of id accountId) (with_status key_revoked) (kw_docs w) ++ [new]) as HD.
  { rewrite Hd6, Hd. unfold update_key. rewrite fmap_app. cbn. by rewrite Hnew. }
  exists old, new, (g_secret g). split_and!; try done; [congruence..|]. intros a. apply Nat2Z.inj.
  rewrite HD, active_of_app, length_app, Nat2Z.inj_add, (active_of_revoke a _ _ _ old) by done.
  rewrite active_of_cons, K2. unfold is_active. rewrite (bool_decide_true _ Hna), andb_true_r.
  destruct (bool_decide (accountId = a)); cbn [length app active_of List.filter]; lia.
Qed.
