(* ===== verification/ApiKeyAccess.v ===== *)
(** * What an API key may do

    A request with an API key is checked by the handler of
    [src/src/servers/authorization/api-key-check.ts], whose answer the gateway
    turns into the claims of a token ([src/dev/ory/oathkeeper_rules.yaml]); the
    token gives the context of the request ([src/src/servers/middlewares/session.ts]),
    and rules on the fields of the schema decide by that context
    ([src/src/servers/graphql-server.ts], [src/src/servers/graphql-main-server.ts],
    [src/src/domain/api-keys/scope-map.ts]). Also here: the limit on the requests
    of a key ([src/src/services/rate-limit/api-keys.ts] and the middleware in
    [src/src/servers/middlewares/api-key-rate-limit.ts]); the limiter itself is
    a parameter. *)

From stdpp Require Import base gmap list strings.
From Stdlib Require Import ZArith Lia Ascii.
From S2P Require Import Prelude JsStrings JsNumbers Processes Errors World Repos.
From S2P Require Import FygaroCheckout Json ApiKeys.

Open Scope Z_scope.
Open Scope flash_scope.

(** ** Scopes of the fields *)

Definition API_KEY_FIELD_BLOCKED : string := "BLOCKED".

Definition apiKeyScopeForField : list (string * string) := [
  ("me", "read:user"); ("transactionDetails", "read:transactions");
  ("latestAccountUpgradeRequest", "BLOCKED"); ("bridgeKycStatus", "BLOCKED");
  ("fygaroTopupAllowance", "BLOCKED"); ("fygaroTopupStatus", "BLOCKED"); ("cashoutRate", "BLOCKED");
  ("myReferrals", "BLOCKED"); ("bridgeVirtualAccount", "BLOCKED");
  ("bridgeExternalAccounts", "BLOCKED"); ("bridgeWithdrawalRequest", "BLOCKED");
  ("bridgeWithdrawals", "BLOCKED"); ("apiKeys", "BLOCKED"); ("onChainTxFee", "read:wallet");
  ("onChainUsdTxFee", "read:wallet"); ("onChainUsdTxFeeAsBtcDenominated", "read:wallet");
  ("userLoginUpgrade", "BLOCKED"); ("userEmailRegistrationInitiate", "BLOCKED");
  ("userEmailRegistrationValidate", "BLOCKED"); ("userEmailDelete", "BLOCKED");
  ("userPhoneRegistrationInitiate", "BLOCKED"); ("userPhoneRegistrationValidate", "BLOCKED");
  ("userPhoneDelete", "BLOCKED"); ("userTotpRegistrationInitiate", "BLOCKED");
  ("userTotpRegistrationValidate", "BLOCKED"); ("userTotpDelete", "BLOCKED");
  ("userQuizQuestionUpdateCompleted", "BLOCKED"); ("quizCompleted", "BLOCKED");
  ("deviceNotificationTokenCreate", "BLOCKED"); ("businessAccountUpgradeRequest", "BLOCKED");
  ("accountCapabilityUpgradeRequest", "BLOCKED"); ("createInvite", "BLOCKED");
  ("redeemInvite", "BLOCKED"); ("bankAccountUpdateRequest", "BLOCKED");
  ("accountDelete", "BLOCKED"); ("feedbackSubmit", "BLOCKED");
  ("idDocumentUploadUrlGenerate", "BLOCKED"); ("updateExternalWallet", "BLOCKED");
  ("bridgeInitiateKyc", "BLOCKED"); ("bridgeCreateVirtualAccount", "BLOCKED");
  ("bridgeAddExternalAccount", "BLOCKED"); ("bridgeExchangePlaidPublicToken", "BLOCKED");
  ("bridgeCreateExternalAccount", "BLOCKED"); ("bridgeSetDefaultExternalAccount", "BLOCKED");
  ("bridgeDeleteExternalAccount", "BLOCKED"); ("bridgeRequestWithdrawal", "BLOCKED");
  ("bridgeInitiateWithdrawal", "BLOCKED"); ("bridgeCancelWithdrawalRequest", "BLOCKED");
  ("fygaroCheckoutCreate", "BLOCKED"); ("requestCashout", "BLOCKED");
  ("initiateCashout", "BLOCKED"); ("apiKeyCreate", "BLOCKED"); ("apiKeyRevoke", "BLOCKED");
  ("apiKeyRotate", "BLOCKED"); ("userUpdateLanguage", "write:user");
  ("userUpdateUsername", "write:user"); ("userUpdateNpub", "write:user");
  ("userContactUpdateAlias", "write:user"); ("accountUpdateDefaultWalletId", "write:user");
  ("accountUpdateDisplayCurrency", "write:user");
  ("accountEnableNotificationCategory", "write:user");
  ("accountDisableNotificationCategory", "write:user");
  ("accountEnableNotificationChannel", "write:user");
  ("accountDisableNotificationChannel", "write:user"); ("callbackEndpointAdd", "admin");
  ("callbackEndpointDelete", "admin"); ("lnInvoiceFeeProbe", "read:wallet");
  ("lnUsdInvoiceFeeProbe", "read:wallet"); ("lnNoAmountInvoiceFeeProbe", "read:wallet");
  ("lnNoAmountUsdInvoiceFeeProbe", "read:wallet"); ("intraLedgerPaymentSend", "write:wallet");
  ("intraLedgerUsdPaymentSend", "write:wallet"); ("lnInvoiceCreate", "write:wallet");
  ("lnUsdInvoiceCreate", "write:wallet"); ("lnNoAmountInvoiceCreate", "write:wallet");
  ("lnInvoicePaymentSend", "write:wallet"); ("lnNoAmountInvoicePaymentSend", "write:wallet");
  ("lnNoAmountUsdInvoicePaymentSend", "write:wallet"); ("lnurlPaymentSend", "write:wallet");
  ("onChainAddressCreate", "write:wallet"); ("onChainAddressCurrent", "write:wallet");
  ("onChainPaymentSend", "write:wallet"); ("onChainUsdPaymentSend", "write:wallet");
  ("onChainUsdPaymentSendAsBtcDenominated", "write:wallet");
  ("onChainPaymentSendAll", "write:wallet")].

Definition apiKeyNestedFieldScopes : list (string * list (string * string)) := [
  ("ConsumerAccount", [("wallets", "read:wallet"); ("transactions", "read:transactions");
     ("csvTransactions", "read:transactions")]);
  ("UserContact", [("transactions", "read:transactions");
     ("transactionsCount", "read:transactions")]);
  ("BTCWallet", [("balance", "read:wallet"); ("pendingIncomingBalance", "read:wallet");
     ("transactions", "read:transactions"); ("transactionsByAddress", "read:transactions")]);
  ("UsdWallet", [("balance", "read:wallet"); ("pendingIncomingBalance", "read:wallet");
     ("transactions", "read:transactions"); ("transactionsByAddress", "read:transactions")]);
  ("UsdtWallet", [("balance", "read:wallet"); ("pendingIncomingBalance", "read:wallet");
     ("transactions", "read:transactions"); ("transactionsByAddress", "read:transactions")])].

(** [admin] grants every scope, and [write:X] implies [read:X]. *)
Definition hasApiKeyScope (grantedScopes : list string) (required : string) : bool :=
  bool_decide ("admin" ∈ grantedScopes) || bool_decide (required ∈ grantedScopes)
  || (String.prefix "read:" required
      && bool_decide (("write:" +:+ str_drop 5 required) ∈ grantedScopes)).

(** The fields of the schema that need an account: [queryFields.authed] and
    [mutationFields.authed], at both levels. *)
Definition authed_query_fields : list string := [
  "me"; "transactionDetails"; "latestAccountUpgradeRequest"; "bridgeKycStatus";
  "fygaroTopupAllowance"; "fygaroTopupStatus"; "bridgeVirtualAccount"; "bridgeExternalAccounts";
  "bridgeWithdrawalRequest"; "bridgeWithdrawals"; "apiKeys"; "cashoutRate"; "myReferrals";
  "onChainTxFee"; "onChainUsdTxFee"; "onChainUsdTxFeeAsBtcDenominated"].

Definition authed_mutation_fields : list string := [
  "userLoginUpgrade"; "userEmailRegistrationInitiate"; "userEmailRegistrationValidate";
  "userEmailDelete"; "userPhoneRegistrationInitiate"; "userPhoneRegistrationValidate";
  "userPhoneDelete"; "userTotpRegistrationInitiate"; "userTotpRegistrationValidate";
  "userTotpDelete"; "userQuizQuestionUpdateCompleted"; "quizCompleted";
  "deviceNotificationTokenCreate"; "userUpdateLanguage"; "userUpdateUsername"; "userUpdateNpub";
  "userContactUpdateAlias"; "accountUpdateDefaultWalletId"; "accountUpdateDisplayCurrency";
  "businessAccountUpgradeRequest"; "accountCapabilityUpgradeRequest"; "bankAccountUpdateRequest";
  "accountEnableNotificationCategory"; "accountDisableNotificationCategory";
  "accountEnableNotificationChannel"; "accountDisableNotificationChannel"; "accountDelete";
  "feedbackSubmit"; "createInvite"; "redeemInvite"; "callbackEndpointAdd"; "callbackEndpointDelete";
  "idDocumentUploadUrlGenerate"; "updateExternalWallet"; "bridgeInitiateKyc";
  "fygaroCheckoutCreate"; "bridgeCreateVirtualAccount"; "bridgeAddExternalAccount";
  "bridgeExchangePlaidPublicToken"; "bridgeCreateExternalAccount";
  "bridgeSetDefaultExternalAccount"; "bridgeDeleteExternalAccount"; "bridgeRequestWithdrawal";
  "bridgeInitiateWithdrawal"; "bridgeCancelWithdrawalRequest"; "apiKeyCreate"; "apiKeyRevoke";
  "apiKeyRotate"; "intraLedgerPaymentSend"; "intraLedgerUsdPaymentSend"; "lnInvoiceFeeProbe";
  "lnUsdInvoiceFeeProbe"; "lnNoAmountInvoiceFeeProbe"; "lnNoAmountUsdInvoiceFeeProbe";
  "lnInvoiceCreate"; "lnUsdInvoiceCreate"; "lnNoAmountInvoiceCreate"; "lnInvoicePaymentSend";
  "lnNoAmountInvoicePaymentSend"; "lnNoAmountUsdInvoicePaymentSend"; "lnurlPaymentSend";
  "onChainAddressCreate"; "onChainAddressCurrent"; "onChainPaymentSend"; "onChainUsdPaymentSend";
  "onChainUsdPaymentSendAsBtcDenominated"; "onChainPaymentSendAll"; "requestCashout";
  "initiateCashout"].

(** ** The check of a key *)

Definition API_KEY_SESSION_PREFIX : string := "apikey:".

Definition isApiKeySessionId (sessionId : option string) : bool :=
  match sessionId with Some s => String.prefix API_KEY_SESSION_PREFIX s | None => false end.

(** A header of a request: absent, one text or several. *)
Inductive header := NoHeader | OneHeader (s : string) | Headers (l : list string).

(** What the handler answers: the status, and the body of a success. *)
Record check_body := mkCheckBody {
  cb_identity : string;
  cb_id : string;
  cb_expires_at : string;
  cb_scope : string;
  cb_rate_limit : js_num
}.
Inductive check_response := Refused401 | Accepted200 (body : check_body).

(** [scopes.join(" ")] *)
Definition join_space (l : list string) : string := String.concat " " l.

Section Check.
Context `{X : KeyExternal}.

Definition toIpAddress (ip : string) : option string :=
  if nonempty ip then
    let ipTrimmed := js_trim ip in
    if ip_isValid ipTrimmed then Some ipTrimmed else None
  else None.

Definition parseIps (ips : header) : option string :=
  match ips with
  | NoHeader => None
  | Headers [] => None
  | Headers (ip :: _) => toIpAddress ip
  | OneHeader s =>
      if nonempty s then
        if str_includes "," s then toIpAddress (hd "" (split_on "," s)) else toIpAddress s
      else None
  end.

Definition apiKeyCheckHandler (x_api_key x_real_ip : header) : KApp check_response :=
  match x_api_key with
  | OneHeader rawKey =>
      if nonempty rawKey then
        let requestIp := parseIps x_real_ip in
        let* verified := pattempt (verifyApiKey rawKey requestIp) in
        match verified with
        | inl e =>
            let keyId := match parseApiKey rawKey with Ok p => Some p.1 | _ => None end in
            audited (AuditDenied keyId (error_name (err_class e))) ;;;
            pret Refused401
        | inr v =>
            let apiKey := v_apiKey v in
            pret (Accepted200 (mkCheckBody (v_kratosUserId v)
              (API_KEY_SESSION_PREFIX +:+ k_keyId apiKey) "" (join_space (k_scopes apiKey))
              (default (num_of_Z defaultRequestsPerMinute) (k_rateLimitPerMinute apiKey))))
        end
      else pret Refused401
  | _ => pret Refused401
  end.
End Check.

(** ** The context of a request *)

(** The claims of the gateway's token; an empty scope is left out. *)
Record claims := mkClaims {
  cl_sub : string;
  cl_session_id : option string;
  cl_expires_at : string;
  cl_scope : option string;
  cl_rate_limit : option js_num
}.

Definition id_token (b : check_body) : claims :=
  mkClaims (cb_identity b) (Some (cb_id b)) (cb_expires_at b)
    (if nonempty (cb_scope b) then Some (cb_scope b) else None)
    (if mant (cb_rate_limit b) =? 0 then None else Some (cb_rate_limit b)).

(** As much of the context as the rules read; [cx_account] is the account found
    for the subject of the token. *)
Record context := mkContext {
  cx_account : option account;
  cx_sessionId : option string;
  cx_scopes : option (list string)
}.

Definition sessionPublicContext (token : claims) (domainAccount : option account) : context :=
  mkContext domainAccount (cl_session_id token) (split_on " " <$> cl_scope token).

(** ** Rules *)

Definition isAuthenticated (ctx : context) : bool := bool_decide (is_Some (cx_account ctx)).

Definition scope_error (message : string) : error := new_error InsufficientApiKeyScopeError message.

Definition scopedApiKeyTypeField (required : string) (ctx : context) : outcome error bool :=
  if negb (isApiKeySessionId (cx_sessionId ctx)) then Ok true
  else if hasApiKeyScope (default [] (cx_scopes ctx)) required then Ok true
  else Err (scope_error ("API key missing required scope: " +:+ required)).

Definition field_scope (fieldName : string) : option string :=
  snd <$> (snd <$> list_find (fun p => p.1 = fieldName) apiKeyScopeForField).

Definition scopedApiKeyAccess (fieldName : string) (ctx : context) : outcome error bool :=
  if negb (isApiKeySessionId (cx_sessionId ctx)) then Ok true
  else match field_scope fieldName with
       | None => Err (scope_error ("API keys cannot access " +:+ fieldName))
       | Some required =>
           if String.eqb required API_KEY_FIELD_BLOCKED
           then Err (scope_error ("API keys cannot access " +:+ fieldName))
           else if hasApiKeyScope (default [] (cx_scopes ctx)) required then Ok true
           else Err (scope_error ("API key missing required scope: " +:+ required))
       end.

(** [and(isAuthenticated, scopedApiKeyAccess(key))] on a field of the account;
    a field that is open to everybody has no rule. *)
Definition root_rule (fieldName : string) (ctx : context) : outcome error bool :=
  if bool_decide (fieldName ∈ authed_query_fields) || bool_decide (fieldName ∈ authed_mutation_fields)
  then if isAuthenticated ctx then scopedApiKeyAccess fieldName ctx else Ok false
  else Ok true.

Definition nested_rule (typeName fieldName : string) (ctx : context) : outcome error bool :=
  match list_find (fun p => p.1 = typeName) apiKeyNestedFieldScopes with
  | None => Ok true
  | Some (_, (_, fieldScopes)) =>
      match list_find (fun p => p.1 = fieldName) fieldScopes with
      | None => Ok true
      | Some (_, (_, scope)) => scopedApiKeyTypeField scope ctx
      end
  end.

(** ** The rate of requests *)

(** What [consume] of the limiter does: it grants a point, refuses, or its
    store fails. *)
Inductive consumed :=
| Granted (remainingPoints msBeforeNext : Z)
| Exceeded (msBeforeNext : option Z)
| StoreFailed.

Record rate_result := mkRate {
  rr_allowed : bool;
  rr_limit : js_num;
  rr_remaining : js_num;
  rr_resetSeconds : Z
}.

Definition DURATION_SECONDS : Z := 60.

(** [Math.ceil(ms / 1000)] *)
Definition ceil_seconds (ms : Z) : Z := - ((- ms) / 1000).

Definition consumeApiKeyRequestRateLimit (limitPerMinute : js_num) (res : consumed) : rate_result :=
  match res with
  | Granted remaining ms => mkRate true limitPerMinute (num_of_Z remaining) (ceil_seconds ms)
  | StoreFailed => mkRate true limitPerMinute limitPerMinute DURATION_SECONDS
  | Exceeded ms =>
      let msBeforeNext := default (DURATION_SECONDS * 1000) ms in
      mkRate false limitPerMinute (num_of_Z 0) (Z.max 1 (ceil_seconds msBeforeNext))
  end.

(** A request goes on, or is answered at once. *)
Inductive limited := Next | TooManyRequests (retryAfterSeconds : Z) (limit remaining : js_num).

(** The limiter is asked with the public id of the key; a claim that is absent or
    zero falls back to the default. *)
Definition apiKeyRateLimitMiddleware (defaultRequests : Z) (consume : js_num -> string -> consumed)
    (ctx : context) (token : claims) : limited :=
  match cx_sessionId ctx with
  | Some sessionId =>
      if isApiKeySessionId (Some sessionId) then
        let keyId := str_drop 7 sessionId in
        let limitPerMinute :=
          match cl_rate_limit token with
          | Some n => if mant n =? 0 then num_of_Z defaultRequests else n
          | None => num_of_Z defaultRequests
          end in
        let result := consumeApiKeyRequestRateLimit limitPerMinute (consume limitPerMinute keyId) in
        if rr_allowed result then Next
        else TooManyRequests (rr_resetSeconds result) (rr_limit result) (rr_remaining result)
      else Next
  | None => Next
  end.

(** ** The scopes of a key reach the rules *)

Lemma split_join_space l : l <> [] -> Forall (fun s => no_char " " s = true) l ->
  split_on " " (join_space l) = l.
Proof.
  intros Hne Hl. unfold join_space. induction Hl as [|s l Hs Hl IH]; [done|].
  destruct l as [|t l]; [by apply split_on_none|].
  change (split_on " " (s +:+ String " " (String.concat " " (t :: l))) = s :: t :: l).
  rewrite split_on_app by done. by rewrite IH.
Qed.

Lemma known_scope_text s : known_scope s = true -> no_char " " s = true /\ s <> "".
Proof.
  unfold known_scope. rewrite bool_decide_eq_true. unfold API_KEY_SCOPES.
  rewrite !elem_of_cons, elem_of_nil. intros Hs. destruct_or!; by subst.
Qed.

Lemma join_nonempty s l : s <> "" -> nonempty (join_space (s :: l)) = true.
Proof. destruct s; [done|]. by destruct l. Qed.

(** What the schema asks of the scopes. *)
Lemma valid_key_scopes k : valid_key k = true ->
  k_scopes k <> [] /\ Forall (fun s => known_scope s = true) (k_scopes k).
Proof.
  unfold valid_key. rewrite !andb_true_iff. intros [[_ Hs] _]. destruct (k_scopes k) as [|s l]; [done|].
  split; [done|]. rewrite forallb_forall in Hs. apply Forall_forall. intros x Hx.
  by apply Hs, list_elem_of_In.
Qed.

Section Access.
Context `{X : KeyExternal}.

(** The body of a success. *)
Definition body_of (k : ApiKey) (identity : string) : check_body :=
  mkCheckBody identity (API_KEY_SESSION_PREFIX +:+ k_keyId k) "" (join_space (k_scopes k))
    (default (num_of_Z defaultRequestsPerMinute) (k_rateLimitPerMinute k)).

Lemma session_of_key k identity a : valid_key k = true ->
  sessionPublicContext (id_token (body_of k identity)) a =
  mkContext a (Some (API_KEY_SESSION_PREFIX +:+ k_keyId k)) (Some (k_scopes k)).
Proof.
  intros Hv. destruct (valid_key_scopes k Hv) as [Hne Hs]. unfold sessionPublicContext, id_token, body_of.
  cbn. f_equal. replace (nonempty (join_space (k_scopes k))) with true.
  - cbn. rewrite split_join_space; [done|done|]. eapply Forall_impl; [exact Hs|]. intros s Hk.
    by apply known_scope_text.
  - destruct (k_scopes k) as [|s l]; [done|]. inversion Hs as [|? ? H1 ?]; subst. symmetry.
    apply join_nonempty. by apply known_scope_text.
Qed.

Lemma prefix_app p s : String.prefix p (p +:+ s) = true.
Proof. induction p as [|c p IH]; [by destruct s|]. rewrite app_cons. cbn. by destruct (ascii_dec c c). Qed.

Lemma prefix_split p s : String.prefix p s = true -> s = p +:+ str_drop (String.length p) s.
Proof.
  revert s. induction p as [|c p IH]; intros s; [by rewrite app_nil_str|]. destruct s as [|d s]; [done|].
  cbn. destruct (ascii_dec c d) as [->|]; [|done]. intros H1. rewrite app_cons. f_equal. by apply IH.
Qed.

(** The scopes that open what asks for [required]. *)
Definition scopes_grant (scopes : list string) (required : string) : Prop :=
  "admin" ∈ scopes \/ required ∈ scopes \/ exists x, required = "read:" +:+ x /\ ("write:" +:+ x) ∈ scopes.

Lemma hasApiKeyScope_iff scopes required :
  hasApiKeyScope scopes required = true <-> scopes_grant scopes required.
Proof.
  unfold hasApiKeyScope, scopes_grant. rewrite !orb_true_iff, andb_true_iff, !bool_decide_eq_true. split.
  - intros [[?|?]|[Hp ?]]; [auto..|]. right. right. exists (str_drop 5 required). split; [|done].
    by apply (prefix_split "read:").
  - intros [?|[?|(x & -> & ?)]]; [auto..|]. right. by rewrite prefix_app.
Qed.

(** The key behind an answer, whatever the database does meanwhile. *)
Lemma verify_of_docs raw ip w v w' : run (verifyApiKey raw ip) w = (Ok v, w') ->
  v_apiKey v ∈ kw_docs w /\ k_status (v_apiKey v) = key_active.
Proof.
  intros Hr. destruct (keeps_run (on_docs (fun d => d = kw_docs w))
    (fun o => forall v, o = Ok v -> v_apiKey v ∈ kw_docs w /\ k_status (v_apiKey v) = key_active)
    (verifyApiKey raw ip) w) as [_ Hv]; [|done|by apply Hv; rewrite Hr].
  apply (verify_answers _ (fun k => k ∈ kw_docs w /\ k_status k = key_active)). intros keyId.
  unfold findByKeyId, stored.
  eapply keeps_catch with (phi := fun o => forall k, o = Ok k -> k ∈ kw_docs w /\ k_status k = key_active);
    [|intros [k|e|e] Ho; [exact Ho|done|by apply keeps_done]].
  eapply keeps_bind with (phi := fun o => forall k, o = Ok (Some k) -> k ∈ kw_docs w /\ k_status k = key_active).
  - apply keeps_keys; [|done]. intros docs ->. split; [done|]. cbn. intros k [= Hf].
    by apply find_key_Some in Hf as [Hk [_ Ha%bool_decide_eq_true]%andb_true_iff].
  - intros [[k|]|e|e] Ho; try done; apply keeps_done; try done. intros k' [= <-]. by apply Ho.
Qed.

(** Nothing of a verification throws. *)
Lemma kbase_accounts_no_throw accountId w e w' :
  run (kbase (accounts_findById accountId)) w <> (Throw e, w').
Proof.
  unfold kbase, atomic. cbn [run]. unfold accounts_findById, guarded, toObjectId, catch, bind, mongo, read.
  destruct (valid_object_id accountId); cbn; [|done].
  destruct (mongo_fault _) as [[]|]; cbn; try done; by destruct (_ !! accountId).
Qed.

Lemma verify_no_throw raw ip w e w' : run (verifyApiKey raw ip) w <> (Throw e, w').
Proof.
  unfold verifyApiKey, lifted, parseApiKey. case_match; [|done]. cbn [pbind]. rewrite run_bind. unfold bind at 1.
  destruct (run (findByKeyId _) w) as [[k|e1|e1] w1] eqn:Hf; [|done|].
  2: { unfold findByKeyId, stored in Hf. rewrite run_catch in Hf. unfold catch in Hf.
       by destruct (run _ w) as [[]?]. }
  rewrite run_bind. unfold bind at 1. destruct (run_late k w1) as (w2 & -> & _).
  destruct (past_expiry k _); [done|]. case_match; [done|]. destruct (ip_refused k ip); [done|].
  rewrite run_bind. unfold bind at 1.
  destruct (run (kbase _) w2) as [[a|e2|e2] w3] eqn:Ha; [|done|by apply kbase_accounts_no_throw in Ha].
  rewrite run_bind. unfold bind at 1. destruct (run_stale k w3) as (b & w4 & ->). by destruct b.
Qed.

(** The answer of the handler. *)
Lemma check_answer x_api_key x_real_ip w :
  exists resp w', run (apiKeyCheckHandler x_api_key x_real_ip) w = (Ok resp, w') /\
  (resp = Refused401 \/ exists k identity, k ∈ kw_docs w /\ k_status k = key_active /\
     resp = Accepted200 (body_of k identity)).
Proof.
  unfold apiKeyCheckHandler. destruct x_api_key as [|raw|l]; [by eauto 6|..|by eauto 6].
  destruct (nonempty raw); [|by eauto 6]. rewrite run_bind. unfold bind. rewrite run_attempt. unfold attempt.
  destruct (run (verifyApiKey raw _) w) as [[v|e|e] w1] eqn:Hv; [| |by apply verify_no_throw in Hv].
  - apply verify_of_docs in Hv as [Hk Ha]. do 2 eexists. split; [reflexivity|]. right.
    by exists (v_apiKey v), (v_kratosUserId v).
  - do 2 eexists. split; [reflexivity|]. by left.
Qed.
End Access.

(** The check of a key always answers, and answers either with the one
    refusal, the same for every reason, or with the identity, scopes and
    rate of an active key of the collection. *)
Theorem check_answers `{X : KeyExternal} (x_api_key x_real_ip : header) (w : kworld) :
  exists resp w', run (apiKeyCheckHandler x_api_key x_real_ip) w = (Ok resp, w') /\
  (resp = Refused401 \/
   exists k identity, k ∈ kw_docs w /\ k_status k = key_active /\
     resp = Accepted200 (mkCheckBody identity (API_KEY_SESSION_PREFIX +:+ k_keyId k) ""
       (join_space (k_scopes k))
       (default (num_of_Z defaultRequestsPerMinute) (k_rateLimitPerMinute k)))).
Proof. exact (check_answer x_api_key x_real_ip w). Qed.

(** C25: through the gateway's token and the session, a request with a key reaches
    a field of the account exactly when the field is open to keys and the scopes
    of an active key grant what it asks for; a field that is blocked, or not
    listed, is refused to every key. *)
Theorem key_session_confined `{X : KeyExternal} (x_api_key x_real_ip : header) (w w' : kworld)
    (body : check_body) (a : account) (field : string) :
  Forall (fun k => valid_key k = true) (kw_docs w) ->
  run (apiKeyCheckHandler x_api_key x_real_ip) w = (Ok (Accepted200 body), w') ->
  field ∈ authed_query_fields \/ field ∈ authed_mutation_fields ->
  exists k, k ∈ kw_docs w /\ k_status k = key_active /\
    cb_id body = API_KEY_SESSION_PREFIX +:+ k_keyId k /\
    (root_rule field (sessionPublicContext (id_token body) (Some a)) = Ok true <->
     exists required, field_scope field = Some required /\ required <> API_KEY_FIELD_BLOCKED /\
       scopes_grant (k_scopes k) required).
Proof.
  intros Hv Hr Hf. destruct (check_answer x_api_key x_real_ip w) as (resp & w1 & Hr' & Hresp).
  rewrite Hr in Hr'. injection Hr' as <- <-. destruct Hresp as [?|(k & identity & Hk & Ha & [= ->])]; [done|].
  exists k. split; [done|]. split; [done|]. split; [done|]. rewrite Forall_forall in Hv.
  rewrite session_of_key by auto. unfold root_rule.
  replace (bool_decide _ || bool_decide _) with true
    by (symmetry; apply orb_true_iff; rewrite !bool_decide_eq_true; done).
  replace (isAuthenticated _) with true by done. unfold scopedApiKeyAccess, isApiKeySessionId. cbn [cx_sessionId cx_scopes default].
  rewrite prefix_app. cbn [negb]. destruct (field_scope field) as [required|]; [|split; [done|naive_solver]].
  destruct (String.eqb_spec required API_KEY_FIELD_BLOCKED) as [->|Hb]; [split; [done|naive_solver]|].
  setoid_rewrite <- hasApiKeyScope_iff. cbn [from_option id].
  destruct (hasApiKeyScope (k_scopes k) required) eqn:E; split; try done; [by eauto|].
  intros (r & [= <-] & _ & Hr2). congruence.
Qed.

(** What no key may ever do. *)
Definition session_only : list string :=
  ["apiKeys"; "apiKeyCreate"; "apiKeyRevoke"; "apiKeyRotate"; "requestCashout"; "initiateCashout";
   "bridgeRequestWithdrawal"; "bridgeInitiateWithdrawal"; "bridgeCreateExternalAccount";
   "bridgeAddExternalAccount"; "bridgeSetDefaultExternalAccount"; "fygaroCheckoutCreate";
   "bankAccountUpdateRequest"; "userEmailRegistrationInitiate"; "userPhoneRegistrationInitiate";
   "userTotpDelete"; "userLoginUpgrade"; "redeemInvite"; "accountDelete"].

(** The table of scopes is complete and lists each field once: it has an entry
    for every field that needs an account, that entry is a scope or a block, it
    has no entry besides, and managing keys, cashing out, withdrawing, topping
    up and changing the means of login are blocked. *)
Theorem field_scopes_complete :
  apiKeyScopeForField.*1 ≡ₚ authed_query_fields ++ authed_mutation_fields /\
  NoDup (apiKeyScopeForField.*1) /\
  Forall (fun p => p.2 = API_KEY_FIELD_BLOCKED \/ p.2 ∈ API_KEY_SCOPES) apiKeyScopeForField /\
  Forall (fun f => field_scope f = Some API_KEY_FIELD_BLOCKED) session_only.
Proof.
  assert (NoDup (apiKeyScopeForField.*1)) as Hn by (by_computation; by vm_compute).
  split_and!; [|done|by_computation; by vm_compute..].
  apply NoDup_Permutation; [done|by_computation; by vm_compute|]. intros f. split; intros Hf.
  - assert (Forall (fun f => f ∈ authed_query_fields ++ authed_mutation_fields) (apiKeyScopeForField.*1)) as HF
      by (by_computation; by vm_compute). rewrite Forall_forall in HF. by apply HF.
  - assert (Forall (fun f => f ∈ apiKeyScopeForField.*1) (authed_query_fields ++ authed_mutation_fields)) as HF
      by (by_computation; by vm_compute). rewrite Forall_forall in HF. by apply HF.
Qed.

(** A rate the schema accepts is not zero. *)
Lemma rate_nonzero n : rate_in_range n = true -> mant n <> 0.
Proof.
  intros [Hr _]%andb_true_iff Hz. apply negb_true_iff in Hr. unfold num_ltb in Hr. rewrite Hz in Hr.
  unfold num_of_Z, API_KEY_RATE_LIMIT_MIN in Hr. cbn [mant expo] in Hr. apply Z.ltb_ge in Hr.
  pose proof (Z.pow_pos_nonneg 2 (0 - Z.min (expo n) 0) ltac:(lia) ltac:(lia)). lia.
Qed.

(** The requests of a key are counted under its public id and against its own
    rate, or the default when it has none, and a request is turned away only when
    the limiter says that this is exceeded, with at least a second to wait. *)
Theorem key_rate_enforced `{X : KeyExternal} (k : ApiKey) (identity : string) (a : option account)
    (consume : js_num -> string -> consumed) :
  valid_key k = true ->
  let token := id_token (body_of k identity) in
  let rate := default (num_of_Z defaultRequestsPerMinute) (k_rateLimitPerMinute k) in
  match apiKeyRateLimitMiddleware defaultRequestsPerMinute consume (sessionPublicContext token a) token with
  | Next => forall ms, consume rate (k_keyId k) <> Exceeded ms
  | TooManyRequests retryAfter limit _ =>
      limit = rate /\ 1 <= retryAfter /\ exists ms, consume rate (k_keyId k) = Exceeded ms
  end.
Proof.
  intros Hv token rate. unfold token. rewrite session_of_key by done. unfold apiKeyRateLimitMiddleware.
  cbn [cx_sessionId]. unfold isApiKeySessionId. rewrite prefix_app.
  rewrite (str_drop_app 7 API_KEY_SESSION_PREFIX) by done.
  assert ((match cl_rate_limit (id_token (body_of k identity)) with
    | Some n => if mant n =? 0 then num_of_Z defaultRequestsPerMinute else n
    | None => num_of_Z defaultRequestsPerMinute end) = rate) as ->.
  { unfold id_token, body_of. cbn [cl_rate_limit cb_rate_limit]. fold rate.
    destruct (mant rate =? 0) eqn:E; [|by rewrite E]. unfold rate in *.
    destruct (k_rateLimitPerMinute k) as [n|] eqn:En; [|done]. exfalso. apply Z.eqb_eq in E.
    unfold valid_key in Hv. rewrite En in Hv. apply andb_true_iff in Hv as [_ Hv].
    by apply rate_nonzero in Hv. }
  destruct (consume rate (k_keyId k)) as [|ms|]; cbn; [done| |done]. split; [done|]. split; [lia|]. by exists ms.
Qed.
