(* ===== verification/RequestGuards.v ===== *)
(** * Guards of GraphQL requests

    Model of two middlewares of the API server: the one on the header
    [X-Idempotency-Key] ([src/src/servers/middlewares/idempotency.ts]), over the
    lock of an idempotency key, and the one that checks the wallet a request
    names ([src/src/servers/middlewares/wallet-id.ts]) before its resolver runs. *)

From stdpp Require Import base gmap list strings.
From Stdlib Require Import ZArith Lia.
From S2P Require Import Prelude JsStrings JsNumbers Processes Errors World Ibex Repos.
From S2P Require Import CutoverRepo TopupWorld PaymentIdempotency Json ApiKeyAccess.

Open Scope Z_scope.
Open Scope flash_scope.

(** ** Idempotency keys *)

Definition checkedToIdempotencyKey (input : string) : outcome error string :=
  if re_uuid input then Ok input else Err (new_error InvalidIdempotencyKeyError input).

(** The answer of the middleware: the request goes on, with or without an error of the
    parser, or is answered with a status and a message. *)
Inductive guard_answer := NextHandler | NextWithError (e : error) | Answer (status : Z) (message : string).

(** A persisted query sent with its text. *)
Definition persisted_with_query (body : option json) : bool :=
  json_truthy (prop_opt "sha256Hash" (present (prop_opt "persistedQuery" (present (prop_opt "extensions" (present body))))))
  && json_truthy (prop_opt "query" (present body)).

Definition lock_name (key : string) (body : option json) : string :=
  key +:+ (if persisted_with_query body then "-persisted" else "").

(** Of the lock only an exception is looked at, not its answer. *)
Definition lock_and_go {W} (lock : proc W error unit) : proc W error guard_answer :=
  pcatch
    (pattempt lock ;;; pret NextHandler)
    (fun e => pret (match err_class e with
                    | ExecutionError => Answer 409 "the idempotency key already exist"
                    | _ => Answer 500 (err_message e)
                    end)).

Section Idempotency.
Context `{X : TopupExternal}.

(** [parse] is the JSON parser on the body of the request. *)
Definition idempotencyMiddleware (key : header) (parse : outcome error (option json)) : TApp guard_answer :=
  match key with
  | NoHeader => pret NextHandler
  | OneHeader key =>
      if negb (nonempty key) then pret NextHandler else
      match checkedToIdempotencyKey key with
      | Err _ | Throw _ => pret (Answer 400 "X-Idempotency-Key header must be a UUID-v4")
      | Ok key =>
          match parse with
          | Err e | Throw e => pret (NextWithError e)
          | Ok body => lock_and_go (lockIdempotencyKey (lock_name key body))
          end
      end
  | Headers _ => pret (Answer 400 "X-Idempotency-Key header must be a single string")
  end.
End Idempotency.

(** ** The wallet of a request *)

(** The argument [walletId]: absent, an error of its scalar, or an id. *)
Inductive wallet_arg := NoWalletId | WalletIdError (e : error) | WalletIdArg (walletId : string).

Inductive wallet_guard := Resolved | RefusedWith (e : error).

Section WalletId.
Context `{X : External}.

Definition hasPermissions (accountId walletId : string) : App bool :=
  let! wl := wallets_findById walletId in
  ret (bool_decide (accountId = wl_accountId wl)).

Definition validateWalletId (w : wallet_arg) (domainAccount : option account) : App wallet_guard :=
  match w with
  | NoWalletId => ret (RefusedWith (new_error0 InvalidWalletId))
  | WalletIdArg walletId =>
      if negb (nonempty walletId) then ret (RefusedWith (new_error0 InvalidWalletId)) else
      match domainAccount with
      | None => ret (RefusedWith (new_error0 InvalidAccountError))
      | Some acc =>
          let! permitted := attempt (hasPermissions (a_id acc) walletId) in
          ret (match permitted with
               | inl e => RefusedWith e
               | inr true => Resolved
               | inr false => RefusedWith (new_error0 InvalidWalletForAccountError)
               end)
      end
  | WalletIdError e => ret (RefusedWith e)
  end.
End WalletId.

(** The fields whose resolver is behind this check. *)
Definition wallet_query_fields : list string :=
  ["onChainTxFee"; "onChainUsdTxFee"; "onChainUsdTxFeeAsBtcDenominated"].

Definition wallet_mutation_fields : list string :=
  ["intraLedgerPaymentSend"; "intraLedgerUsdPaymentSend"; "lnInvoiceFeeProbe"; "lnUsdInvoiceFeeProbe";
   "lnNoAmountInvoiceFeeProbe"; "lnNoAmountUsdInvoiceFeeProbe"; "lnInvoiceCreate"; "lnUsdInvoiceCreate";
   "lnNoAmountInvoiceCreate"; "lnInvoicePaymentSend"; "lnNoAmountInvoicePaymentSend";
   "lnNoAmountUsdInvoicePaymentSend"; "lnurlPaymentSend"; "onChainAddressCreate"; "onChainAddressCurrent";
   "onChainPaymentSend"; "onChainUsdPaymentSend"; "onChainUsdPaymentSendAsBtcDenominated";
   "onChainPaymentSendAll"; "requestCashout"; "initiateCashout"].

Inductive operation := QueryField (name : string) | MutationField (name : string).

(** What a field answers when the check refuses: a query throws, and a mutation has the
    message among its errors; the error is the one before [mapError]. *)
Inductive gated (A : Type) := Ran (a : A) | QueryThrows (e : error) | MutationErrors (e : error).
Arguments Ran {A} a.
Arguments QueryThrows {A} e.
Arguments MutationErrors {A} e.

Section Gate.
Context `{X : External}.

Definition walletIdMiddleware {A} (op : operation) (w : wallet_arg) (domainAccount : option account)
    (resolve : App A) : App (gated A) :=
  let guarded_by answer :=
    let! g := validateWalletId w domainAccount in
    match g with
    | Resolved => let! a := resolve in ret (Ran a)
    | RefusedWith e => ret (answer e)
    end in
  match op with
  | QueryField name =>
      if bool_decide (name ∈ wallet_query_fields) then guarded_by (fun e => QueryThrows e)
      else let! a := resolve in ret (Ran a)
  | MutationField name =>
      if bool_decide (name ∈ wallet_mutation_fields) then guarded_by (fun e => MutationErrors e)
      else let! a := resolve in ret (Ran a)
  end.
End Gate.

(** ** What the guards do *)

Lemma run_timelock_try `{X : TopupExternal} path (w : tworld) :
  exists b, (run (timelock_try path) w).1 = Ok b.
Proof.
  unfold timelock_try. rewrite run_catch. unfold catch.
  match goal with |- context [run (redis ?op) w] => assert (forall e, (run (redis op) w).1 <> Err e) as He end.
  { intros e. unfold redis. rewrite run_atomic. cbv zeta.
    destruct (live _ _); destruct (redis_fault _) as [[]|]; done. }
  destruct (run (redis _) w) as [[b|e|e] w']; cbn in *; [by exists b|by destruct (He e)|by exists false].
Qed.

Lemma run_lock_never_throws `{X : TopupExternal} key (w : tworld) e : (run (lockIdempotencyKey key) w).1 <> Throw e.
Proof.
  unfold lockIdempotencyKey. cbv zeta. rewrite run_bind. unfold bind.
  destruct (run_timelock_try ("locks:idempotencykey:" +:+ key) w) as [b1 E1].
  destruct (run (timelock_try _) w) as [r1 w1]. cbn in E1. subst r1. rewrite run_bind. unfold bind.
  destruct b1; [done|].
  destruct (run_timelock_try ("locks:idempotencykey:" +:+ key) w1) as [b2 E2].
  destruct (run (timelock_try _) w1) as [r2 w2]. cbn in E2. subst r2. by destruct b2.
Qed.

(** C40: the guard on idempotency keys stops no repeated request. Whatever locks are
    held and however Redis answers, a request with a well-formed key goes on to
    its resolver, with the same key as often as it is sent, and the answer that
    the key exists is never given: the lock returns its refusal, and the
    middleware waits for an exception. *)
Theorem idempotency_never_refuses `{X : TopupExternal} (key : header) (parse : outcome error (option json))
    (w : tworld) :
  (forall message, (run (idempotencyMiddleware key parse) w).1 <> Ok (Answer 409 message)) /\
  (forall k body, key = OneHeader k -> re_uuid k = true -> parse = Ok body ->
     (run (idempotencyMiddleware key parse) w).1 = Ok NextHandler).
Proof.
  assert (forall k body, (run (lock_and_go (lockIdempotencyKey (lock_name k body))) w).1 = Ok NextHandler) as Hgo.
  { intros k body. unfold lock_and_go. rewrite run_catch. unfold catch. rewrite run_bind. unfold bind.
    rewrite run_attempt. unfold attempt. pose proof (run_lock_never_throws (lock_name k body) w) as Hn.
    destruct (run (lockIdempotencyKey _) w) as [[u|e|e] w']; [done..|]. by destruct (Hn e). }
  split.
  - intros message. destruct key as [|k|l]; cbn [idempotencyMiddleware]; [done| |done].
    destruct (negb (nonempty k)); [done|]. unfold checkedToIdempotencyKey. destruct (re_uuid k); [|done].
    destruct parse as [body|e|e]; [|done..]. by rewrite Hgo.
  - intros k body -> Hk ->. cbn [idempotencyMiddleware]. destruct (negb (nonempty k)); [done|].
    unfold checkedToIdempotencyKey. by rewrite Hk.
Qed.

(** Behind the check of the wallet the resolver runs only for a wallet of the
    session's account, whatever the request names and however the database fails. *)
Theorem wallet_gate_sound `{X : External} {A} (op : operation) (arg : wallet_arg) (domainAccount : option account)
    (resolve : App A) (w w' : world) (a : A) :
  match op with
  | QueryField name => name ∈ wallet_query_fields
  | MutationField name => name ∈ wallet_mutation_fields
  end ->
  walletIdMiddleware op arg domainAccount resolve w = (Ok (Ran a), w') ->
  exists walletId acc wl i w1, arg = WalletIdArg walletId /\ domainAccount = Some acc /\
    list_find (fun wl => wl_id wl = walletId) (w_wallets w) = Some (i, wl) /\
    wl_accountId wl = a_id acc /\ resolve w1 = (Ok a, w').
Proof.
  intros Hop H. assert (exists w1, validateWalletId arg domainAccount w = (Ok Resolved, w1) /\
    resolve w1 = (Ok a, w')) as (w1 & Hv & Hr).
  { unfold walletIdMiddleware in H. destruct op; rewrite bool_decide_true in H by done;
      apply bind_Ok in H as ([|e] & w1 & Hv & H); try done; apply bind_Ok in H as (a' & w2 & Hr & H);
      unfold ret in H; injection H as -> ->; by exists w1. }
  unfold validateWalletId in Hv. destruct arg as [|e|walletId]; [done..|].
  destruct (negb (nonempty walletId)); [done|]. destruct domainAccount as [acc|]; [|done].
  apply bind_Ok in Hv as ([e|[]] & w2 & Hp & Hv); try done. unfold ret in Hv. injection Hv as ->.
  unfold attempt in Hp. destruct (hasPermissions (a_id acc) walletId w) as [[b|e|e] w3] eqn:Eh; [|done..].
  injection Hp as -> ->. apply bind_Ok in Eh as (wl & w4 & Hf & Eh). unfold ret in Eh. injection Eh as Eb _.
  apply bool_decide_eq_true in Eb. apply guarded_Ok in Hf.
  apply bind_Ok in Hf as (o & w5 & Hm%mongo_Ok & Hf). unfold read in Hm. injection Hm as Ef _.
  destruct o as [[i wl']|]; [|done]. unfold ret in Hf. injection Hf as -> _.
  by exists walletId, acc, wl, i, w1.
Qed.
