(* ===== verification/Witnesses.v ===== *)
(** * Witnesses

    Each lemma applies a theorem of the development to a concrete run of the
    simulation, where its hypotheses are checked by evaluation. *)

From stdpp Require Import base gmap list strings.
From Stdlib Require Import ZArith Lia.
From S2P Require Import Prelude JsStrings JsNumbers Errors BigintMoney MoneyAmounts.
From S2P Require Import CutoverStateMachine CutoverAmounts World Ibex Repos CutoverRepo.
From S2P Require Import CutoverServices CutoverWorker CutoverRunner CutoverRollback CutoverRetry.
From S2P Require Import CutoverLifecycle CutoverPrepare CutoverRouting Simulation.

Open Scope Z_scope.

(** A collection checked by evaluation, a call that returns normally, and a
    decidable statement. *)
Ltac ok_run := apply migrations_okb_sound; vm_compute; reflexivity.
Ltac run_ok := apply run_Ok; vm_compute; reflexivity.
Ltac by_eval := by_computation; vm_compute; reflexivity.

Definition no_migration : migration :=
  mkMigration "" "" None "" "" 0 "" not_started "" 0 None None 0 None ∅ ∅.
Definition no_preflight : preflight_report := mkPreflight 0 "" 0 0 0 0 0 [] false.
Definition no_prepare : prepare_result := mkPrepare no_preflight [] [] None.

(** The only document of the scenario. *)
Definition doc (w : world) : migration := default no_migration (w_migrations w !! "id0").

(** The moments before the balance move, before the fee is read, and before
    the rollback finishes. *)
Definition before_move : world := forward 4 started_.
Definition before_fee : world := forward 7 started_.
Definition before_finish : world := backward 1 requested.

(** ** Forward *)

Lemma forward_batch_invariant_witness :
  migrations_ok (w_migrations before_move) /\ migrations_ok (w_migrations (runPrimaryCashWalletCutoverBatch runtime 1 "run" "worker" (Some 10%nat) 0 before_move).2).
Proof.
  assert (migrations_ok (w_migrations before_move)) as H by ok_run. split; [exact H|].
  exact (forward_batch_invariant runtime 1 "run" "worker" (Some 10%nat) 0 before_move H).
Defined.


Lemma forward_batch_evolves_witness :
  evolves forward_rel (w_migrations before_move) (w_migrations (runPrimaryCashWalletCutoverBatch runtime 1 "run" "worker" (Some 10%nat) 0 before_move).2).
Proof.
  exact (proj1 (forward_batch_evolves runtime 1 "run" "worker" (Some 10%nat) 0 before_move)).
Defined.

Lemma forward_step_payments_witness :
  w_paid (executeCashWalletMigrationStep runtime (doc before_move) before_move).2 = w_paid before_move \/
  exists p, forward_payment (doc before_move) p /\ w_paid (executeCashWalletMigrationStep runtime (doc before_move) before_move).2 = w_paid before_move ++ [p].
Proof.
  assert (w_migrations before_move !! m_id (doc before_move) = Some (doc before_move)) as H by by_eval.
  exact (forward_step_payments runtime (doc before_move) before_move H).
Defined.

Lemma step_advances_witness :
  stage (m_status (doc before_move)) < stage (m_status (value no_migration (executeCashWalletMigrationStep runtime (doc before_move) before_move))) <= 13.
Proof.
  assert ((executeCashWalletMigrationStep runtime (doc before_move) before_move) = (Ok (value no_migration (executeCashWalletMigrationStep runtime (doc before_move) before_move)), (executeCashWalletMigrationStep runtime (doc before_move) before_move).2)) as H by run_ok.
  pose proof (step_advances runtime (doc before_move) _ before_move _ H) as K.
  assert (includes terminalStatuses (m_status (doc before_move)) = false) as E by by_eval.
  rewrite E in K. exact K.
Defined.

Lemma fee_policy_witness :
  m_str (value no_migration (handle_balance_move_verified runtime (doc before_fee) before_fee)) !! feeAmountUsdtMicros = Some (bigint_toString 15625) /\
  m_status (value no_migration (handle_balance_move_verified runtime (doc before_fee) before_fee)) = fee_reimbursement_invoice_created.
Proof.
  assert ((handle_balance_move_verified runtime (doc before_fee) before_fee) = (Ok (value no_migration (handle_balance_move_verified runtime (doc before_fee) before_fee)), (handle_balance_move_verified runtime (doc before_fee) before_fee).2)) as H by run_ok.
  assert (readFeeAmountUsdtMicros runtime (doc before_fee) before_fee =
    (Ok (value "" (readFeeAmountUsdtMicros runtime (doc before_fee) before_fee)),
     (readFeeAmountUsdtMicros runtime (doc before_fee) before_fee).2)) as R by run_ok.
  assert (value "" (readFeeAmountUsdtMicros runtime (doc before_fee) before_fee) =
    bigint_toString 15625) as E by by_eval.
  rewrite E in R.
  destruct (fee_policy runtime (doc before_fee) _ 15625 before_fee _ _ ltac:(lia) R H)
    as [H1 [H2 _]].
  split; [exact H1|exact H2].
Defined.

(** ** Rollback *)

Lemma rollback_makes_whole_witness :
  dated rollbackPointerRestoredAt (value no_migration (executeCashWalletMigrationRollbackStep runtime (doc before_finish) before_finish)) /\
  (m_str (value no_migration (executeCashWalletMigrationRollbackStep runtime (doc before_finish) before_finish)) !! destinationAmountUsdtMicros = Some "0" \/
   has rollbackPaymentTransactionId (value no_migration (executeCashWalletMigrationRollbackStep runtime (doc before_finish) before_finish))).
Proof.
  assert (migrations_ok (w_migrations before_finish)) as Hok by ok_run.
  assert (w_migrations before_finish !! m_id (doc before_finish) = Some (doc before_finish)) as Hm
    by by_eval.
  assert (has balanceMovePaymentTransactionId (doc before_finish)) as Hb
    by by_eval.
  assert ((executeCashWalletMigrationRollbackStep runtime (doc before_finish) before_finish) = (Ok (value no_migration (executeCashWalletMigrationRollbackStep runtime (doc before_finish) before_finish)), (executeCashWalletMigrationRollbackStep runtime (doc before_finish) before_finish).2)) as H by run_ok.
  assert (m_status (value no_migration (executeCashWalletMigrationRollbackStep runtime (doc before_finish) before_finish)) = rolled_back) as Hs by by_eval.
  destruct (rollback_makes_whole runtime (doc before_finish) _ before_finish _ Hok Hm Hb H Hs)
    as (H1 & H2 & _).
  split; [exact H1|exact H2].
Defined.

Lemma rollback_step_payments_witness :
  exists rev top,
    w_paid (executeCashWalletMigrationRollbackStep runtime (doc requested) requested).2 = w_paid requested ++ rev ++ top /\
    (length rev <= 1)%nat /\ (length top <= 1)%nat /\
    Forall (reverse_payment runtime (doc requested)) rev /\
    Forall (topup_payment runtime (doc requested)) top.
Proof.
  assert (w_migrations requested !! m_id (doc requested) = Some (doc requested)) as H by by_eval.
  exact (rollback_step_payments runtime (doc requested) requested H).
Defined.

Lemma rollback_batch_invariant_witness :
  migrations_ok (w_migrations (runPrimaryCashWalletRollbackBatch runtime 1 "run" "worker" (Some 10%nat) 0 requested).2) /\ evolves rollback_rel (w_migrations requested) (w_migrations (runPrimaryCashWalletRollbackBatch runtime 1 "run" "worker" (Some 10%nat) 0 requested).2).
Proof.
  assert (migrations_ok (w_migrations requested)) as H by ok_run.
  destruct (rollback_batch_invariant runtime 1 "run" "worker" (Some 10%nat) 0 requested H) as (H1 & H2 & _).
  split; [exact H1|exact H2].
Defined.

Lemma rollback_request_covers_run_witness :
  migrations_ok (w_migrations (requestPrimaryCashWalletRollback 1 "run" None "test" "operator" false completed).2) /\
  forall id m, w_migrations (requestPrimaryCashWalletRollback 1 "run" None "test" "operator" false completed).2 !! id = Some m -> in_run 1 "run" m = true ->
    in_rollback (m_status m).
Proof.
  assert (migrations_ok (w_migrations completed)) as Hok by ok_run.
  assert ((requestPrimaryCashWalletRollback 1 "run" None "test" "operator" false completed) = (Ok (value (mkRollbackReport true 0 0 [] []) (requestPrimaryCashWalletRollback 1 "run" None "test" "operator" false completed)), (requestPrimaryCashWalletRollback 1 "run" None "test" "operator" false completed).2)) as H by run_ok.
  exact (rollback_request_covers_run 1 "run" "test" "operator" completed _ _ Hok H).
Defined.

Lemma rollback_completion_sound_witness : c_state (value defaultConfig (completePrimaryCashWalletRollback 1 "run" "operator" (backward 2 requested))) = state_rolled_back.
Proof.
  assert ((completePrimaryCashWalletRollback 1 "run" "operator" (backward 2 requested)) = (Ok (value defaultConfig (completePrimaryCashWalletRollback 1 "run" "operator" (backward 2 requested))), (completePrimaryCashWalletRollback 1 "run" "operator" (backward 2 requested)).2)) as H by run_ok.
  exact (proj1 (proj2 (rollback_completion_sound 1 "run" "operator" (backward 2 requested) _ _ H))).
Defined.

(** ** Lifecycle *)

Lemma start_sound_witness : c_state (value defaultConfig (startPrimaryCashWalletCutover 1 "run" "operator" prepared)) = state_in_progress.
Proof.
  assert ((startPrimaryCashWalletCutover 1 "run" "operator" prepared) = (Ok (value defaultConfig (startPrimaryCashWalletCutover 1 "run" "operator" prepared)), (startPrimaryCashWalletCutover 1 "run" "operator" prepared).2)) as H by run_ok.
  exact (proj1 (proj2 (start_sound 1 "run" "operator" prepared _ _ H))).
Defined.

Lemma completion_sound_witness :
  c_cutoverVersion (value defaultConfig (completePrimaryCashWalletCutover 1 "run" "operator" (forward 13 started_))) = 1 /\
  forall id m, w_migrations (forward 13 started_) !! id = Some m -> in_run 1 "run" m = true ->
    m_status m ∈ [complete; skipped_already_migrated; rollback_started; rolled_back].
Proof.
  assert ((completePrimaryCashWalletCutover 1 "run" "operator" (forward 13 started_)) = (Ok (value defaultConfig (completePrimaryCashWalletCutover 1 "run" "operator" (forward 13 started_))), (completePrimaryCashWalletCutover 1 "run" "operator" (forward 13 started_)).2)) as H by run_ok.
  exact (proj2 (proj2 (proj2 (proj2
    (completion_sound 1 "run" "operator" (forward 13 started_) _ _ H))))).
Defined.

Lemma status_report_census_witness :
  total [(complete, 1)] = Z.of_nat (length (List.filter (in_run 1 "run") (docs completed))).
Proof.
  assert ((getPrimaryCashWalletCutoverStatus 1 "run" completed) = (Ok (value (defaultConfig, []) (getPrimaryCashWalletCutoverStatus 1 "run" completed)), (getPrimaryCashWalletCutoverStatus 1 "run" completed).2)) as H by run_ok.
  assert (value (defaultConfig, []) (getPrimaryCashWalletCutoverStatus 1 "run" completed) =
    ((value (defaultConfig, []) (getPrimaryCashWalletCutoverStatus 1 "run" completed)).1, [(complete, 1)])) as E by by_eval.
  rewrite E in H.
  exact (proj2 (proj2 (proj2 (status_report_census 1 "run" completed _ _ _ H)))).
Defined.

(** ** Preparation *)

Lemma prepare_sound_witness :
  migrations_ok (w_migrations (preparePrimaryCashWalletCutover 1 "run" None world0).2) /\
  Forall (planned_for 1 "run" world0) (pr_plannedMigrations (value no_prepare (preparePrimaryCashWalletCutover 1 "run" None world0))).
Proof.
  assert (migrations_ok (w_migrations world0)) as Hok by ok_run.
  assert ((preparePrimaryCashWalletCutover 1 "run" None world0) = (Ok (value no_prepare (preparePrimaryCashWalletCutover 1 "run" None world0)), (preparePrimaryCashWalletCutover 1 "run" None world0).2)) as H by run_ok.
  destruct (prepare_sound 1 "run" None world0 _ _ Hok H) as (H1 & _ & H2).
  assert (existsb is_blocker (select_cohort None (discoveries world0)).1 = false) as E by by_eval.
  rewrite E in H2. split; [exact H1|exact (proj1 H2)].
Defined.

Lemma prepare_idempotent_witness : w_migrations (preparePrimaryCashWalletCutover 1 "run" None (preparePrimaryCashWalletCutover 1 "run" None world0).2).2 = w_migrations (preparePrimaryCashWalletCutover 1 "run" None world0).2.
Proof.
  assert (migrations_ok (w_migrations world0)) as Hok by ok_run.
  assert ((preparePrimaryCashWalletCutover 1 "run" None world0) = (Ok (value no_prepare (preparePrimaryCashWalletCutover 1 "run" None world0)), (preparePrimaryCashWalletCutover 1 "run" None world0).2)) as H1 by run_ok.
  assert ((preparePrimaryCashWalletCutover 1 "run" None (preparePrimaryCashWalletCutover 1 "run" None world0).2) = (Ok (value no_prepare (preparePrimaryCashWalletCutover 1 "run" None (preparePrimaryCashWalletCutover 1 "run" None world0).2)), (preparePrimaryCashWalletCutover 1 "run" None (preparePrimaryCashWalletCutover 1 "run" None world0).2).2)) as H2 by run_ok.
  exact (proj2 (prepare_idempotent 1 "run" None world0 _ _ _ _ Hok H1 H2)).
Defined.

Lemma prepared_resumes_flipped_witness :
  resume_status (failed_upd failed "boom" 7 (doc (preparePrimaryCashWalletCutover 1 "run" None world0).2)) = pointer_flipped.
Proof.
  assert (w_migrations world0 = ∅) as H0 by reflexivity.
  assert ((preparePrimaryCashWalletCutover 1 "run" None world0) = (Ok (value no_prepare (preparePrimaryCashWalletCutover 1 "run" None world0)), (preparePrimaryCashWalletCutover 1 "run" None world0).2)) as H1 by run_ok.
  assert (w_migrations (preparePrimaryCashWalletCutover 1 "run" None world0).2 !! "id0" = Some (doc (preparePrimaryCashWalletCutover 1 "run" None world0).2)) as H2 by by_eval.
  exact (proj2 (proj2 (prepared_resumes_flipped 1 "run" None world0 _ _ "id0" (doc (preparePrimaryCashWalletCutover 1 "run" None world0).2)
    "boom" 7 H0 H1 H2))).
Defined.

(** ** Retry *)

(** A migration that failed before the balance moved, and one after. *)
Definition mark_failed (w : world) : world :=
  (markMigrationFailed "id0" "worker" 1 "run" (new_error JsError "boom") failed
     (acquireMigrationLock "id0" "worker" 0 1 "run" w).2).2.
Definition broken : world := mark_failed (forward 2 started_).
Definition broken_late : world := mark_failed before_fee.

Definition no_retry : retry_report := mkRetry true 0 0 0 0 [] [].

Lemma retry_correct_witness :
  migrations_ok (w_migrations (retryFailedCashWalletMigrations 1 "run" None false broken).2) /\
  rt_retried (value no_retry (retryFailedCashWalletMigrations 1 "run" None false broken)) = rt_eligible (value no_retry (retryFailedCashWalletMigrations 1 "run" None false broken)) /\
  rt_eligible (value no_retry (retryFailedCashWalletMigrations 1 "run" None false broken)) = 1.
Proof.
  assert (migrations_ok (w_migrations broken)) as Hok by ok_run.
  assert ((retryFailedCashWalletMigrations 1 "run" None false broken) = (Ok (value no_retry (retryFailedCashWalletMigrations 1 "run" None false broken)), (retryFailedCashWalletMigrations 1 "run" None false broken).2)) as H by run_ok.
  destruct (retry_correct 1 "run" None broken _ _ Hok H) as (H1 & l & w1 & _ & _ & H2 & _).
  split; [exact H1|]. split; [exact H2|by_eval].
Defined.

Lemma retry_leaves_money_moved_witness :
  migrations_ok (w_migrations broken_late) /\
  w_migrations (retryFailedCashWalletMigrations 1 "run" None false broken_late).2 !! "id0" =
    Some (doc broken_late).
Proof.
  assert (migrations_ok (w_migrations broken_late)) as Hok by ok_run. split; [exact Hok|].
  assert (w_migrations broken_late !! "id0" = Some (doc broken_late)) as Hm by by_eval.
  assert (money_moved (doc broken_late) = true) as Hv by by_eval.
  destruct (retry_leaves_money_moved 1 "run" None false broken_late "id0" Hok)
    as [E|(m & t & E & _ & _ & H1 & H2 & _)]; [exact (eq_trans E Hm)|].
  pose proof (inj Some _ _ (eq_trans (eq_sym Hm) E)) as Ed. rewrite Ed in Hv.
  unfold money_moved, unset in Hv. rewrite H1, H2 in Hv. discriminate Hv.
Defined.

(** ** The repository *)

Definition plan : upsert_args :=
  mkUpsert "alice" None "usd-wallet" "usdt-wallet" (Some "usd-wallet") 1 "run" "key".
Definition other_plan : upsert_args :=
  mkUpsert "alice" None "other-usd" "other-usdt" None 2 "run" "other-key".

Lemma upsert_idempotent_witness :
  value no_migration (upsertMigration other_plan (upsertMigration plan world0).2) = value no_migration (upsertMigration plan world0).
Proof.
  assert (migrations_ok (w_migrations world0)) as Hok by ok_run.
  assert ((upsertMigration plan world0) = (Ok (value no_migration (upsertMigration plan world0)), (upsertMigration plan world0).2)) as H1 by run_ok.
  assert ((upsertMigration other_plan (upsertMigration plan world0).2) = (Ok (value no_migration (upsertMigration other_plan (upsertMigration plan world0).2)), (upsertMigration other_plan (upsertMigration plan world0).2).2)) as H2 by run_ok.
  exact (proj1 (upsert_idempotent plan other_plan world0 _ _ _ _ Hok H1 eq_refl eq_refl H2)).
Defined.

Lemma lock_exclusive_witness :
  is_ok (acquireMigrationLock "id0" "thief" 0 1 "run" (acquireMigrationLock "id0" "worker" 0 1 "run" prepared).2).1 = false.
Proof.
  assert ((acquireMigrationLock "id0" "worker" 0 1 "run" prepared) = (Ok (value no_migration (acquireMigrationLock "id0" "worker" 0 1 "run" prepared)), (acquireMigrationLock "id0" "worker" 0 1 "run" prepared).2)) as H by run_ok.
  assert (m_lockedAt (value no_migration (acquireMigrationLock "id0" "worker" 0 1 "run" prepared)) = Some 1) as Ht by by_eval.
  exact (proj1 (lock_exclusive "id0" "worker" "thief" 0 0 1 1 "run" "run" prepared _ _ 1
    (new_error JsError "boom") failed H Ht ltac:(lia) ltac:(discriminate))).
Defined.

(** ** Routing *)

Lemma guard_in_progress_witness :
  evaluateCashWalletCutoverGuard (default defaultConfig (w_config started_)) (Some (doc (forward 13 started_))) =
    Ok route_usdt.
Proof.
  assert (c_state (default defaultConfig (w_config started_)) = state_in_progress) as H by by_eval.
  apply (proj2 (proj1 (guard_in_progress _ (Some (doc (forward 13 started_))) H))).
  exists (doc (forward 13 started_)). split; [reflexivity|by_eval].
Defined.

Lemma cashout_selection_sound_witness : reads completed (resolveCashoutWalletSelection "alice" "usd-wallet" "treasury-usd" completed).2.
Proof.
  assert ((resolveCashoutWalletSelection "alice" "usd-wallet" "treasury-usd" completed) = (Ok (value (mkSelection route_legacy_usd "" "") (resolveCashoutWalletSelection "alice" "usd-wallet" "treasury-usd" completed)), (resolveCashoutWalletSelection "alice" "usd-wallet" "treasury-usd" completed).2)) as H by run_ok.
  destruct (cashout_selection_sound "alice" "usd-wallet" "treasury-usd" completed _ _ H) as [K _].
  exact K.
Defined.

Lemma complete_ignores_rollback_witness :
  cs_route (value (mkSelection route_legacy_usd "" "") (resolveCashoutWalletSelection "alice" "usd-wallet" "treasury-usd" completed)) = route_usdt.
Proof.
  assert (c_state (default defaultConfig (w_config completed)) = state_complete) as Hs by by_eval.
  assert (m_status (doc undone) = rolled_back) as Hm by by_eval.
  assert ((resolveCashoutWalletSelection "alice" "usd-wallet" "treasury-usd" completed) = (Ok (value (mkSelection route_legacy_usd "" "") (resolveCashoutWalletSelection "alice" "usd-wallet" "treasury-usd" completed)), (resolveCashoutWalletSelection "alice" "usd-wallet" "treasury-usd" completed).2)) as H by run_ok.
  exact (proj1 (complete_ignores_rollback "alice" "usd-wallet" "treasury-usd" completed _ _ _ Hs Hm H)).
Defined.

Definition usd_wallet : wallet := mkWallet "usd-wallet" "alice" Checking Usd None.
Definition usdt_wallet : wallet := mkWallet "usdt-wallet" "alice" Checking Usdt None.
Definition compat_view : presentation_result :=
  mkPresentation [usd_wallet] "usd-wallet" (Some usd_wallet) usdt_wallet.

Lemma presentation_sound_witness :
  resolveCashWalletPresentation present_legacy_usd_compat [usdt_wallet; usd_wallet] = Ok compat_view /\
  wl_currency (ps_activeSettlementWallet compat_view) = Usdt.
Proof.
  assert (resolveCashWalletPresentation present_legacy_usd_compat [usdt_wallet; usd_wallet] =
    Ok compat_view) as H by reflexivity.
  split; [exact H|].
  exact (proj2 (proj2 (proj2 (presentation_sound present_legacy_usd_compat _ compat_view H)))).
Defined.

Lemma history_ids_sound_witness :
  NoDup (cashWalletHistoryWalletIds ["usd-wallet"; "usd-wallet"] compat_view).
Proof.
  assert (ps_legacyUsdWallet compat_view = Some usd_wallet) as H by reflexivity.
  exact (proj1 (history_ids_sound ["usd-wallet"; "usd-wallet"] compat_view usd_wallet H)).
Defined.
