(* ===== verification/TopupWitnesses.v ===== *)
(** * Witnesses of the top-ups

    Each lemma applies a theorem about payments and card top-ups to the simulation
    of [TopupSimulation], where its hypotheses are checked by evaluation. *)

From stdpp Require Import base gmap list strings.
From Stdlib Require Import ZArith Lia Ascii.
From S2P Require Import Prelude JsStrings JsNumbers Processes Errors MoneyAmounts World Ibex.
From S2P Require Import FygaroGate CreatedAt FygaroCheckout Simulation TopupWorld FygaroIntents.
From S2P Require Import TransferRequests FygaroAuthorize FygaroReservations FygaroAllowance.
From S2P Require Import PaymentIdempotency PaymentOnce Json FygaroWebhook FygaroDelivery TopupSimulation.

Open Scope Z_scope.
Open Scope flash_scope.

#[local] Existing Instance simulated.
#[local] Existing Instance reliable.

Ltac by_value := vm_compute; reflexivity.

Lemma steady_reliable : steady.
Proof. split; [done|]. intros n m. vm_compute. reflexivity. Qed.

(** ** Webhook *)

Definition treasury : wallet := mkWallet bank_wallet "bank" Checking Usdt None.
Definition races : list nat := concat (replicate 100 [0%nat; 1%nat; 2%nat]).

Lemma deliveries_credit_once_witness :
  let '(ps, w') := exec races (paymentHandler <$> [bob_pays; bob_pays; bob_pays]) (opening reliable) in
  (length (w_paid (t_base w')) <= 1)%nat /\
  forall i r, ps !! i = Some (Done (Ok r)) -> rp_credited r = Some true ->
    length (w_paid (t_base w')) = 1%nat.
Proof.
  pose proof (deliveries_credit_once "tx1" [bob_pays; bob_pays; bob_pays] treasury (opening reliable)
    races steady_reliable ltac:(repeat constructor) ltac:(by_value) ltac:(by_value)
    ltac:(apply not_elem_of_empty)) as Hx.
  destruct (exec _ _ _) as [ps w']. destruct Hx as (H1 & H2). split; [exact H1|exact H2].
Defined.

(** A currency that is a number is not answered. *)
Definition numbered : FygaroPaymentPayload :=
  mkPayload (Some (JStr "tx1")) None (Some (JStr "100.00")) (Some (JNum (num_of_Z 840))) None None "raw".

Lemma delivery_answered_witness :
  answerable bob_pays = true /\
  (exists r, (run (paymentHandler bob_pays) (opening reliable)).1 = Ok r /\ rp_code r ∈ [200; 400; 500]) /\
  exists e, run (paymentHandler numbered) (opening reliable) = (Throw e, opening reliable).
Proof.
  split; [reflexivity|]. split.
  - destruct (proj1 (delivery_answered bob_pays (opening reliable)) eq_refl) as (r & Hr & Hc & _).
    exists r. split; [exact Hr|exact Hc].
  - exact (proj2 (delivery_answered numbered (opening reliable)) eq_refl).
Defined.

Definition credit_sent (p : @TApp simulated reliable credit_result) : bool :=
  match p with Done (Ok (CreditSent _ _)) => true | _ => false end.

Lemma credit_reported_once_witness :
  let ps := (exec races ((fun '(acc, cents) => creditFygaroTopup acc cents "tx1") <$>
    [("bob", 9500); ("bob", 9500)]) (opening reliable)).1 in
  credit_sent <$> ps = [true; false] /\
  forall i j wid wid' status status',
    ps !! i = Some (Done (Ok (CreditSent wid status))) ->
    ps !! j = Some (Done (Ok (CreditSent wid' status'))) -> i = j.
Proof.
  split; [by_value|].
  exact (credit_reported_once "tx1" [("bob", 9500); ("bob", 9500)] treasury (opening reliable) races
    steady_reliable ltac:(by_value) ltac:(by_value) ltac:(apply not_elem_of_empty)).
Defined.

(** ** Sends *)

Definition transfer : send_args := mkSendArgs bank_wallet bob_wallet 500 None (Some " key ").

Lemma one_key_one_payment_witness :
  let '(ps, w') := exec races (intraledgerPaymentSendWalletIdForUsdWallet <$> [transfer; transfer])
    (opening reliable) in
  (length (w_paid (t_base w')) <= 1)%nat.
Proof.
  pose proof (one_key_one_payment bank_wallet "key" [transfer; transfer] (opening reliable) races
    steady_reliable eq_refl ltac:(repeat constructor; by exists " key ") ltac:(by_value)
    ltac:(apply not_elem_of_empty)) as Hx.
  destruct (exec _ _ _) as [ps w']. exact (proj1 Hx).
Defined.

(** ** Checkouts *)

Definition requests : list (string * Z * Z) := [("bob", 10000, 0); ("bob", 10000, 1)].

Lemma calm_requests : calm "bob" 1 12500 0 900 requests (opening reliable).
Proof.
  assert (forall u a t, (u, a, t) ∈ requests -> a = 10000 /\ 0 <= t <= 1) as Hr.
  { intros u a t. unfold requests. rewrite !elem_of_cons. intros [E|[E|E]];
      [injection E; lia..|by apply not_elem_of_nil in E]. }
  split.
  - done.
  - intros n m. vm_compute. reflexivity.
  - by intros z e.
  - intros u a t u' a' t' Ha%Hr Hb%Hr. lia.
  - intros m Hm. vm_compute in Hm. by injection Hm as <-.
  - intros u a t Ha%Hr. lia.
  - intros n m [_ Hn] [_ Hm]. cbn in Hn, Hm.
    destruct n as [|[|[|n]]], m as [|[|[|m]]]; try done; try lia; by vm_compute.
  - intros n d s [= <-] Hs. vm_compute in Hs. injection Hs as <-. by_value.
  - by intros s at_.
  - intros since win Hw. vm_compute in Hw. by injection Hw as <-.
Qed.


Definition shown : FygaroTopupAllowance := mkAllowance 12500 0 0 12500 50000 1000 None None.
Definition shown_after : tworld := (run (getFygaroTopupAllowance "bob" 1 0) (opening reliable)).2.
Definition settings_read : FygaroSettings :=
  mkSettings "card" (num_of_Z 3) (num_of_Z 0) (num_of_Z 2) (num_of_Z 0) (num_of_Z 500) (num_of_Z 10)
    true (num_of_Z 125) (num_of_Z 500) (num_of_Z 1000).

Lemma shown_run :
  run (getFygaroTopupAllowance "bob" 1 0) (opening reliable) = (Ok (Available shown), shown_after).
Proof.
  assert ((run (getFygaroTopupAllowance "bob" 1 0) (opening reliable)).1 = Ok (Available shown)) as E
    by by_value.
  unfold shown_after. destruct (run _ _) as [o w]. cbn in E. by rewrite E.
Qed.

Lemma allowance_agrees_witness :
  exists c, (run (authorizeFygaroTopup "bob" "bob" 1 10000 0) (opening reliable)).1 =
    Ok (Authorized c 2500 false).
Proof.
  refine (proj1 (allowance_agrees "bob" "bob" 1 10000 0 900 shown settings_read (num_of_Z 0)
    (opening reliable) shown_after _ _ _ _ _ _ shown_run _ _ _) _ _).
  - done.
  - intros n m. vm_compute. reflexivity.
  - intros m Hm. vm_compute in Hm. by injection Hm as <-.
  - done.
  - by intros z e.
  - lia.
  - by_value.
  - by_value.
  - by_value.
  - unfold allows. by_computation; by_value.
  - by_value.
Defined.

Definition claimed_world : tworld :=
  set_redis (mkRedis ∅ ∅ {["intent" := ("intent", 1)]} ∅ ∅ ∅ ∅) (opening reliable).

Definition told_true (p : TApp bool) : bool := match p with Done (Ok true) => true | _ => false end.

Lemma redeemed_once_witness : exists i : nat,
  (exec [0; 0; 1; 1; 0; 1]%nat (replicate 2 (consumeIntent "intent")) claimed_world).1 !! 0%nat =
    Some (Done (Ok true)) /\ i = 0%nat.
Proof.
  assert ((exec [0; 0; 1; 1; 0; 1]%nat (replicate 2 (consumeIntent "intent")) claimed_world).1 !! 0%nat =
    Some (Done (Ok true))) as E.
  { assert (told_true <$> (exec [0; 0; 1; 1; 0; 1]%nat (replicate 2 (consumeIntent "intent"))
      claimed_world).1 !! 0%nat = Some true) as E by by_value.
    destruct (_ !! _) as [[[[]|e|e]|u k]|]; try discriminate E. reflexivity. }
  exists 0%nat. split; [exact E|].
  exact (redeemed_once "intent" 2 [0; 0; 1; 1; 0; 1]%nat claimed_world 0 0 E E).
Defined.

(** ** Rows *)

Definition completed_row : transfer_row :=
  default failed_deposit (t_rows (deliver reliable bob_pays (opening reliable)) !! fygaro_request "tx1").
Definition after_credit : tworld := set_rows {[fygaro_request "tx1" := completed_row]} (opening reliable).

Definition late_refusal : BridgeTransferRequestInput :=
  fygaro_input "tx1" FiatReceived "100.00" "USD" None None None None (Some "bob") None
    ["fygaro_webhook"] None "raw" (Some "over-limit").

Lemma topup_status_monotone_witness :
  exists row', t_rows (run (upsert late_refusal) after_credit).2 !! fygaro_request "tx1" = Some row' /\
    BRIDGE_TRANSFER_STATUS_RANK (row_status completed_row) <= BRIDGE_TRANSFER_STATUS_RANK (row_status row').
Proof.
  exact (topup_status_monotone late_refusal after_credit (fygaro_request "tx1") completed_row eq_refl
    (lookup_singleton_eq _ _)).
Defined.

Lemma redelivery_keeps_credit_witness :
  exists row', t_rows (run (writeFygaroTopupRequest "tx1" "100.00" "USD" (Some "bob") false None "raw")
      after_credit).2 !! fygaro_request "tx1" = Some row' /\
    row_status row' = TransferCompleted /\ final_amount row' = final_amount completed_row.
Proof.
  destruct (redelivery_keeps_credit after_credit "tx1" "100.00" "USD" "raw" (Some "bob") false None "bob"
    "over-limit" completed_row (lookup_singleton_eq _ _) ltac:(by_value)) as [(row' & H1 & H2 & _ & H3) _].
  exists row'. split; [exact H1|]. split; [exact H2|exact H3].
Defined.

Lemma window_sum_witness :
  (run (sumFygaroTopupGrossCentsLast24h "bob" None) after_credit).1 = Ok 10000.
Proof.
  pose proof (window_sum "bob" None after_credit eq_refl eq_refl) as Hs.
  assert (total_cents (counted_rows (window_rows "bob" None after_credit)) = Some 10000) as E by by_value.
  rewrite E in Hs. exact Hs.
Defined.

Definition email_row : transfer_row :=
  toErpnext 0 (fygaro_input "tx1" FiatReceived "100.00" "USD" None None None None (Some "eve") None
    ["fygaro_webhook"; EMAIL_ATTRIBUTION_SOURCE_SYSTEM] None "raw" None).

Lemma email_marker_witness :
  isEmailAttributedRow (source_systems_seen email_row) = true /\
  isEmailAttributedRow (source_systems_seen (upserted (toErpnext 0 late_refusal) email_row)) = false.
Proof.
  split; [by_value|].
  refine (email_marker (toErpnext 0 late_refusal) email_row _).
  exists "fygaro_webhook". split; [by_computation; by_value|discriminate].
Defined.

(** ** Amounts, references and times *)

Lemma fees_bounded_witness :
  0 <= flashFeeCents (computeFygaroFees 10000 settings_read (num_of_Z 50)) <= 200.
Proof.
  refine (proj1 (fees_bounded 10000 settings_read (num_of_Z 50) _)).
  by_computation; by_value.
Defined.

Lemma custom_reference_roundtrip_witness :
  parseCustomReference (Some (buildCustomReference "bob" (Some (newIntentId "abcabcabcabc")))) =
    Some (mkReference (Some "bob") (Some "YWJjYWJjYWJjYWJj")).
Proof.
  exact (proj2 (custom_reference_roundtrip "bob" "abcabcabcabc" eq_refl eq_refl)).
Defined.

Lemma signed_amount_roundtrip_witness :
  exists x, js_Number (jwt_amount (checkout_payload "bob" "id" 8050 "USD" 900 0)) = Some x /\ to_cents x = 8050.
Proof.
  apply (signed_amount_roundtrip "bob" "id" "USD" 8050 900 0). by_computation; by_value.
Defined.

Lemma created_at_units_witness :
  fygaroCreatedAtToIso (fun _ => None) (Some (CreatedText (bigint_toString 1786940395))) =
    Some 1786940395000.
Proof.
  refine (proj2 (created_at_units (fun _ => None) 1786940395 _)). by_computation; by_value.
Defined.
