(* ===== verification/BridgeWitnesses.v ===== *)
(** * The Bridge theorems on concrete inputs

    Each hypothesis of a theorem about the Bridge integration and its referrals
    holds of the simulated services of [BridgeSimulation], on inputs where the
    theorem has something to say. *)

From stdpp Require Import base gmap list strings.
From Stdlib Require Import ZArith Lia Ascii QArith.
From S2P Require Import Prelude JsStrings JsNumbers JsDecimals Processes Errors MoneyAmounts World.
From S2P Require Import Ibex Simulation TopupWorld TransferRequests TopupSimulation Json BridgeWorld.
From S2P Require Import BridgeRepo BridgeFees BridgeService Referrals Invites BridgeReconciliation.
From S2P Require Import BridgeWebhooks BridgeReplay BridgeWithdrawals ReferralRewards BridgeSettlement.
From S2P Require Import BridgeGates BridgeSimulation.

Open Scope Z_scope.

(** Two processes that take turns. *)
Definition turns (n : nat) : list nat := concat (replicate n [0; 1]%nat).

(** Carol's withdrawal, initiated twice at the same time. *)
Definition both_initiate : list bridge_request :=
  [InitiateWithdrawal carol_id (sim_object_id 9); InitiateWithdrawal carol_id (sim_object_id 9)].

Definition approved_world : @bworld simulated reliable sim_bridge :=
  bridge_start (Some "approved") one_row ∅.

Definition initiated_world : @bworld simulated reliable sim_bridge :=
  (exec (turns 60) (serve <$> both_initiate) approved_world).2.

Definition one_row_wf : rows_wf (s_withdrawals (b_store approved_world)).
Proof.
  change (rows_wf one_row). intros id r. unfold one_row. rewrite lookup_singleton_Some.
  by intros [<- <-].
Defined.

Lemma withdrawals_paid_once_witness :
  length (b_sent initiated_world) = 1%nat /\
  exists paid : list (string * string * crypto_send),
    (exists new, b_sent initiated_world = b_sent approved_world ++ new /\ new ≡ₚ paid.*2) /\
    NoDup paid.*1.*1 /\
    Forall (fun '(id, amount, c) =>
      number_of amount (cs_amount c) /\
      (forall r, s_withdrawals (b_store approved_world) !! id = Some r ->
         wd_status r = WPending /\ wd_amount r = amount) /\
      exists r, s_withdrawals (b_store initiated_world) !! id = Some r /\ wd_status r <> WPending) paid.
Proof.
  split; [vm_compute; reflexivity|]. unfold initiated_world.
  exact (withdrawals_paid_once both_initiate approved_world (turns 60) one_row_wf).
Defined.


(** The events of the transfer. *)
Definition transfer_done : json :=
  JObj [("event_id", JStr "e2"); ("event_type", JStr "transfer.payment_processed");
        ("event_object", JObj [("id", JStr "transfer0"); ("state", JStr "payment_processed")])].

Definition sent_world : @bworld simulated reliable sim_bridge :=
  (run (initiateWithdrawal carol_id (sim_object_id 9)) approved_world).2.

Lemma transfer_answer_truthful_witness :
  settled_row "transfer0" WUsdtSent sent_world /\
  settled_row "transfer0" WCompleted (run (transferHandler transfer_done) sent_world).2 /\
  audit_is "transfer0" TransferCompleted (run (transferHandler transfer_done) sent_world).2.
Proof.
  split.
  - exists (sim_object_id 9), (default carols_row (s_withdrawals (b_store sent_world) !! sim_object_id 9)).
    by split_and!; vm_compute.
  - apply (transfer_answer_truthful transfer_done "transfer0" "success" sent_world).
    + intros id r. assert (map_Forall (fun id r => wd_id r = id) (s_withdrawals (b_store sent_world))) as Hf.
      { apply (bool_decide_unpack _). vm_compute. exact I. }
      apply Hf.
    + reflexivity.
    + by left.
    + rewrite (surjective_pairing (run (transferHandler transfer_done) sent_world)) at 1.
      f_equal.
Defined.

(** A receipt whose currency has a [toString] of its own is not answered. *)
Definition odd_receipt : json := JObj [("currency", JObj [("toString", JStr "usdt")])].

Lemma webhooks_answered_witness :
  (exists a, (run (transferHandler transfer_done) sent_world).1 = Ok a) /\
  exists e, run (cryptoReceiveHandler odd_receipt) sent_world = (Throw e, sent_world).
Proof.
  split.
  - destruct (webhooks_answered transfer_done sent_world) as (_ & Ht & _). exact (Ht eq_refl).
  - destruct (webhooks_answered odd_receipt sent_world) as (_ & _ & _ & _ & _ & Hc). exact (Hc eq_refl).
Defined.

(** Carol is approved by two deliveries at the same time. *)
Definition approval (event : string) : json :=
  JObj [("event_id", JStr event);
        ("event_object", JObj [("customer_id", JStr "customer1"); ("kyc_status", JStr "approved")])].
Definition two_approvals : list referral_request :=
  [Integration (KycHook (approval "e1")); Integration (KycHook (approval "e3"))].

Definition reviewed_world : @bworld simulated reliable sim_bridge :=
  bridge_start (Some "under_review") ∅ one_invite.

Definition rewarded_world : @bworld simulated reliable sim_bridge :=
  (exec (turns 200) (serve_referral <$> two_approvals) reviewed_world).2.

Definition one_invite_ids : forall id i, s_invites (b_store reviewed_world) !! id = Some i -> iv_id i = id.
Proof.
  change (forall id i, one_invite !! id = Some i -> iv_id i = id).
  intros id i. unfold one_invite. rewrite lookup_singleton_Some. by intros [<- <-].
Defined.

Definition one_invite_indexes : indexes (s_invites (b_store reviewed_world)).
Proof.
  change (indexes one_invite). intros id id' i i' Hne Hi Hi'. unfold one_invite in *.
  rewrite lookup_singleton_Some in Hi, Hi'. destruct Hi as [<- _], Hi' as [<- _]. done.
Defined.

Lemma referrals_rewarded_once_witness :
  length (w_paid (t_base (b_top rewarded_world))) = 2%nat /\
  exists claimed : list string,
    NoDup claimed /\
    (length (w_paid (t_base (b_top rewarded_world))) <=
     length (w_paid (t_base (b_top reviewed_world))) + 2 * length claimed)%nat /\
    Forall (fun id =>
      (forall i, s_invites (b_store reviewed_world) !! id = Some i -> iv_rewardStatus i = None) /\
      exists i, s_invites (b_store rewarded_world) !! id = Some i /\ is_Some (iv_rewardStatus i)) claimed.
Proof.
  split; [vm_compute; reflexivity|]. unfold rewarded_world.
  exact (referrals_rewarded_once two_approvals reviewed_world (turns 200) one_invite_ids one_invite_indexes).
Defined.

(** Twenty dollars, with gas at one gwei and ether at 3000 dollars. *)
Definition twenty : js_num := JsNum 5629499534213120 (-48).

Lemma customer_fee_adds_up_witness :
  parseFloat "20" = Fin twenty /\
  let e := computeCustomerFeeEstimateFromGasMarket "20" (mkGas (Fin (num_of_Z 1)) (num_of_Z 3000))
    defaultWithdrawalFeeEstimateConfig (num_of_Z 1) in
  exists flash bridge gas,
    flashFee e = render_fixed 2 flash /\ estimatedBridgeFee e = render_fixed 2 bridge /\
    estimatedGasBuffer e = render_fixed 2 gas /\
    estimatedCustomerFee e = render_fixed 2 (flash + bridge + gas).
Proof.
  split; [vm_compute; reflexivity|].
  apply (customer_fee_adds_up "20" twenty (num_of_Z 1) (num_of_Z 3000) defaultWithdrawalFeeEstimateConfig (num_of_Z 1));
    [vm_compute; reflexivity|..]; split; vm_compute; discriminate.
Defined.
