(* ===== verification/PaymentWitnesses.v ===== *)
(** * A simulated ledger and Lightning node

    Concrete instances of the parameters of the ledger and of the payments: an
    entry that lists its transactions, a book that adds rows under a new
    journal, a node that fails the payment of one hash and settles the others,
    and fixed prices. On them the payments run, and the theorems about payment
    flows, ledger entries and Lightning sends are applied to the runs: the
    hypotheses of the theorems hold of real runs. *)

From stdpp Require Import base gmap list strings.
From Stdlib Require Import ZArith Lia Ascii.
From S2P Require Import Prelude JsStrings JsNumbers JsDecimals Processes Errors MoneyAmounts World Ibex.
From S2P Require Import Repos Json PaymentAmounts PaymentFlows LightningFlow OnChainFlow DisplayAmounts LedgerEntries LedgerFacade.
From S2P Require Import LedgerBalance LedgerService Lightning PendingPayments TopupWorld LightningSends SendSettlement Simulation.

Close Scope Q_scope.
Open Scope Z_scope.

(** ** The book *)

#[global] Instance sim_entry : MediciEntry := {|
  entry := list transaction;
  entry_new _ := [];
  entry_debit e account a m := e ++ [mkTransaction account a js_zero m];
  entry_credit e account a m := e ++ [mkTransaction account js_zero a m];
  transactions e := e;
  set_transactions _ l := l
|}.

#[global] Instance sim_entry_laws : MediciEntryLaws.
Proof. by split. Qed.

Definition sim_row (j : string) (i : nat) (t : transaction) : ledger_row :=
  mkLedgerRow (j +:+ "-" +:+ bigint_toString (Z.of_nat i)) j (tx_account t) "" 0 (tx_debit t) (tx_credit t) (tx_meta t).

Definition undo (r : ledger_row) : transaction := mkTransaction (r_accounts r) (r_credit r) (r_debit r) (r_meta r).

(** Rows under a new journal, unless its id is taken *)
Definition sim_post (ts : list transaction) (rows : list ledger_row) : (error + LedgerJournal) * list ledger_row :=
  let j := "j" +:+ bigint_toString (Z.of_nat (length rows)) in
  let news := imap (sim_row j) ts in
  if decide (fresh_journal j rows) then (inr (mkJournal j false (r_id <$> news)), rows ++ news)
  else (inl (new_error JsError "journal"), rows).

#[global] Instance sim_ledger : LedgerExternal := {|
  book_commit e rows := sim_post (transactions e) rows;
  book_void id _ rows := sim_post (undo <$> of_journal id rows) rows;
  book_ledger q rows := filter (fun r => row_matches q r) rows;
  book_balance account rows := Number_of (balance_of account rows);
  mongo_sum l := Number_of (whole_sum l);
  bankOwner_resolver := Ok "bank";
  dealerUsd_resolver := Ok "dealer-usd";
  dealerBtc_resolver := Ok "dealer-btc"
|}.

Lemma sim_rows (R : transaction -> ledger_row -> Prop) j ts : (forall i t, R t (sim_row j i t)) ->
  Forall2 R ts (imap (sim_row j) ts).
Proof.
  intros HR. apply Forall2_same_length_lookup_2; [by rewrite length_imap|].
  intros i t r Ht Hr. rewrite list_lookup_imap, Ht in Hr. by simplify_eq/=.
Qed.

#[global] Instance sim_book_laws : BookLaws.
Proof.
  split; [| |done..]; unfold book_commit, book_void; simpl; unfold sim_post.
  - intros e rows saved rows'. case_decide as Hj; [|done]. intros [= <- <-]. split; [done|]. eexists. split; [done|].
    apply sim_rows. by repeat split.
  - intros id _ rows saved rows'. case_decide as Hj; [|done]. intros [= <- <-]. split; [done|]. eexists. split; [done|].
    set (j := "j" +:+ _). clearbody j. clear Hj.
    assert (Forall2 (fun t r => r = sim_row j 0 t \/ exists i, r = sim_row j i t) (undo <$> of_journal id rows)
      (imap (sim_row j) (undo <$> of_journal id rows))) as Hr by (apply sim_rows; eauto).
    apply Forall2_fmap_l in Hr. eapply Forall2_impl; [exact Hr|]. intros old r [-> | [i ->]]; by repeat split.
Qed.

(** ** The node and the prices *)

#[global] Instance sim_node : LightningExternal := {|
  ln_state := unit;
  lndsConnect := [mkLnd "node" [Offchain; Onchain] true];
  ln_payViaRoutes _ _ _ s := (LnAnswer (mkPaid (Number_of 1) "secret"), s);
  ln_payViaPaymentDetails _ d s :=
    (if String.eqb (pd_id d) "refused" then LnReject (LndError (Some "PaymentRejectedByDestination") None None "")
     else LnAnswer (mkPaid (Number_of 1) "secret"), s);
  ln_getPayment _ _ s := (LnLate, s);
  ln_getWalletInfo _ s := (inr 800000, s);
  ln_getClosedChannels _ s := (inr [], s);
  ln_cancelHodlInvoice _ _ s := (inr tt, s);
  ln_settleHodlInvoice _ _ s := (inr tt, s);
  lock_answers _ := LockHeld
|}.

#[global] Instance sim_currencies : CurrencyData := {| minimumFractionDigits _ := Some 2 |}.

(** Two thousand sats a dollar *)
#[global] Instance sim_prices : PriceExternal := {|
  displayRatio c := DisplayPriceRatio_new (toDisplayAmount 100 c) (sats 2000);
  usdFromBtcMidPrice a := Ok (cents (amount a / 20));
  getAccountLimits _ := mkLimits (Number_of 100000) (Number_of 100000) (Number_of 100000);
  account_displayCurrency _ := "USD"
|}.

(** ** The scenario *)

Definition btc_wallet : WalletDescriptor := mkDescriptor "btc-wallet" Btc "alice".

(** Alice's wallet holds a hundred thousand sats, under the path the service
    reads. *)
Definition opening_row : ledger_row := mkLedgerRow "r0" "opening" (toLiabilitiesWalletId "btc-wallet") "" 0 js_zero
  (Number_of 100000) {["currency" := MText "BTC"]}.

Definition lworld_of (rows : list ledger_row) : lworld := mkLWorld _ world0 rows ∅ None None None [].
Definition pworld_of (rows : list ledger_row) : pworld := mkPWorld _ _ (lworld_of rows) tt None None 0.

(** A payment of 6000 sats, three dollars, and its prepaid fee *)
Definition three_dollars : AmountsAndFees := mkAmounts (sats 6000) (cents 300) (sats 30) (cents 2).

Definition flow_of (hash : string) : PaymentFlow :=
  mkFlow (Some hash) None "coffee" false (mkCommon btc_wallet no_recipient three_dollars 6000 SettleLightning InitLightning
    0 false None None).

Definition invoice_of (hash : string) : Invoice :=
  mkLnInvoice "peer" hash "coffee" (Some (sats 6000)) [] "lnbc" "payment-secret" None.

Definition send (hash : string) (rows : list ledger_row) : outcome error PaymentSendStatus * pworld :=
  executePaymentViaLn (invoice_of hash) (flow_of hash) btc_wallet "USD" None (pworld_of rows).

(** A payment the node settles, with its fee of one sat: the rest of the
    prepaid fee comes back. *)
Example settled_send : (send "settled" [opening_row]).1 = Ok PaymentSuccess /\
  map (fun r => (r_accounts r, whole (r_debit r), whole (r_credit r))) (rows_of (send "settled" [opening_row]).2) =
  [("Accounts Payable:btc-wallet", 0, 100000); ("Liabilities:btc-wallet", 6030, 0); ("Assets:Reserve:Lightning", 0, 6030);
   ("Assets:Reserve:Lightning", 29, 0); ("Liabilities:btc-wallet", 0, 29)].
Proof. vm_compute. split; reflexivity. Qed.

(** * Witnesses of the payments and the ledger *)

(** A run by its outcome *)
Definition ran {W A} (r : outcome error A * W) (a : A) : r.1 = Ok a -> r = (Ok a, r.2).
Proof. intros H. rewrite (surjective_pairing r), H. reflexivity. Defined.

(** ** Sends *)

Definition refused_send := send "refused" [opening_row].

Definition send_refused : payment_refused refused_send.1.
Proof. right. eexists. split; [vm_compute; reflexivity|vm_compute; reflexivity]. Defined.

(** The refused payment was recorded and reversed: four rows more. *)
Lemma failed_send_restores_witness :
  length (rows_of refused_send.2) = 5%nat /\ payment_refused refused_send.1 /\
  forall account c, account_net account c (rows_of refused_send.2) = account_net account c [opening_row].
Proof.
  split; [vm_compute; reflexivity|]. split; [exact send_refused|].
  exact (failed_send_restores (invoice_of "refused") (flow_of "refused") btc_wallet "USD" None (pworld_of [opening_row])
    refused_send.2 refused_send.1 (surjective_pairing _) send_refused).
Defined.

(** Money that only the facade recorded *)
Definition facade_row : ledger_row := mkLedgerRow "r0" "opening" (toLedgerAccountId "btc-wallet") "" 0 js_zero
  (Number_of 100000) {["currency" := MText "BTC"]}.

Definition facade_row_book : facade_book [facade_row].
Proof. constructor; [vm_compute; reflexivity|constructor]. Defined.

Lemma facade_sends_refused_witness :
  facade_book [facade_row] /\
  rows_of (send "settled" [facade_row]).2 = [facade_row] /\ is_ok (send "settled" [facade_row]).1 = false.
Proof.
  split; [exact facade_row_book|].
  exact (facade_sends_refused (invoice_of "settled") (flow_of "settled") "USD" None (pworld_of [facade_row])
    eq_refl eq_refl facade_row_book).
Defined.

(** ** The ledger *)

Definition three_dollars_sent : RecordSendArgs :=
  ln_send_args "coffee" btc_wallet three_dollars (LnSendLedgerMetadata "hash" "node" three_dollars
    (mkDisplayTxn (Number_of 300) (Number_of 2) "USD") false None).

Definition three_dollars_traded : RecordIntraledgerArgs :=
  mkRecordIntra "trade" btc_wallet (mkDescriptor "usd-wallet" Usd "alice") (sats 6000, cents 300) ∅ None None ∅.

Definition two_journals : list facade_op := [SendOffChain three_dollars_sent; Intraledger three_dollars_traded].
Definition two_journals_run := perform_all two_journals (lworld_of []).

Definition two_journals_ok : Forall op_ok two_journals.
Proof. repeat constructor; vm_compute; try discriminate; try reflexivity. Defined.

Definition empty_balanced : journals_balanced [].
Proof. intros j c. reflexivity. Defined.

Definition two_journals_Ok : two_journals_run = (Ok tt, two_journals_run.2).
Proof. apply ran. vm_compute. reflexivity. Defined.

Lemma facade_keeps_books_witness :
  length (l_rows two_journals_run.2) = 6%nat /\ journals_balanced (l_rows two_journals_run.2).
Proof.
  split; [vm_compute; reflexivity|].
  exact (facade_keeps_books two_journals (lworld_of []) two_journals_run.2 two_journals_ok empty_balanced two_journals_Ok).
Defined.

Definition usdt_sent : RecordSendArgs :=
  ln_send_args "coffee" (mkDescriptor "usdt-wallet" Usdt "alice") three_dollars
    (LnSendLedgerMetadata "hash" "node" three_dollars (mkDisplayTxn (Number_of 300) (Number_of 2) "USD") false None).

Lemma usdt_send_unbalanced_witness :
  d_currency (rs_sender usdt_sent) = Usdt /\
  forall ids, net Usd (transactions (creditOffChain (send_builder ids usdt_sent))) = -302 /\
              net Btc (transactions (creditOffChain (send_builder ids usdt_sent))) = 6030.
Proof.
  split; [reflexivity|]. intros ids. apply (usdt_send_unbalanced ids usdt_sent); [reflexivity|].
  repeat split; vm_compute; discriminate.
Defined.

Definition sent_run := recordSendOffChain three_dollars_sent (lworld_of []).
Definition sent_journal : LedgerJournal := match sent_run.1 with Ok j => j | _ => mkJournal "" false [] end.

Lemma recorded_send_reads_back_witness :
  sent_run = (Ok sent_journal, sent_run.2) /\
  exists r, r ∈ l_rows sent_run.2 /\ r_accounts r = toLedgerAccountId "btc-wallet" /\
    inputAmountFromLedgerTransaction (translateToLedgerTx r) = Ok 6000 /\
    PaymentFlowFromLedgerTransaction (translateToLedgerTx r) "alice" =
      Err (new_error0 MissingPropsInTransactionForPaymentFlowError).
Proof.
  assert (sent_run = (Ok sent_journal, sent_run.2)) as Hrun by (apply ran; vm_compute; reflexivity). split; [exact Hrun|].
  destruct (recorded_send_reads_back "coffee" "hash" "node" btc_wallet three_dollars
    (mkDisplayTxn (Number_of 300) (Number_of 2) "USD") false None "alice" (lworld_of []) sent_run.2 sent_journal)
    as (r & Hr & _ & Ha & _ & _ & Hi & _ & _ & _ & _ & _ & Hf); [reflexivity| |reflexivity|exact Hrun|].
  { repeat split; vm_compute; discriminate. }
  exists r. split; [exact Hr|]. split; [exact Ha|]. split; [exact Hi|exact Hf].
Defined.

Lemma facade_rows_unseen_witness :
  facade_book [] /\ length (l_rows two_journals_run.2) = 6%nat /\
  forall hash txs w2, getTransactionsByHash hash two_journals_run.2 = (Ok txs, w2) -> txs = [].
Proof.
  split; [constructor|]. split; [vm_compute; reflexivity|].
  exact (proj1 (facade_rows_unseen two_journals (lworld_of []) two_journals_run.2 (Forall_nil_2 _) two_journals_Ok)).
Defined.

(** ** Payment flows *)

(** Thirty sats a cent *)
Definition steady : ConversionFns :=
  mkConversions (fun a => Ok (cents (Z.max 0 (amount a) / 30))) (fun a => Ok (sats (Z.max 0 (amount a) * 30))).

Definition steady_ok : prices_ok steady.
Proof.
  split; intros a u [= <-]; split; try reflexivity; cbn [amount sats cents]; [apply Z.div_pos|]; lia.
Defined.

Definition config0 : BuilderConfig := mkBuilderConfig ["local"] [] [].
Definition usd_sender : WalletDescriptor := mkDescriptor "usd-wallet" Usd "alice".
Definition amountless : payment_source :=
  FromNoAmountInvoice (mkLnInvoice "peer" "hash" "" None [] "lnbc" "secret" None) (Fin (num_of_Z 350)).
Definition priced_run := build config0 amountless usd_sender None steady steady steady 0.
Definition priced : LPFBWithConversion := match priced_run with Ok c => c | _ => mkWithConversion
  (mkBase SettleLightning InitLightning None None None "" false) three_dollars usd_sender 0 no_recipient 0 end.
Definition priced_Ok : priced_run = Ok priced.
Proof. vm_compute. reflexivity. Defined.

Definition priced_flow_run := withoutRoute priced.
Definition priced_flow : PaymentFlow := match priced_flow_run with Ok f => f | _ => flow_of "" end.
Definition priced_flow_Ok : priced_flow_run = Ok priced_flow.
Proof. vm_compute. reflexivity. Defined.

Definition hash_given : source_ok amountless.
Proof. simpl. discriminate. Defined.


Lemma routeless_fee_accepted_witness :
  priced_run = Ok priced /\
  exists r, WalletPriceRatio (usdPaymentAmount (lc_amounts priced)) (btcPaymentAmount (lc_amounts priced)) = Ok r /\
    verifyMaxFee (btcProtocolAndBankFee (lc_amounts priced)) (btcPaymentAmount (lc_amounts priced))
      (usdPaymentAmount (lc_amounts priced)) r Usd true = Ok tt.
Proof.
  split; [exact priced_Ok|].
  exact (routeless_fee_accepted config0 amountless usd_sender steady steady steady 0 priced priced_Ok (or_intror eq_refl)).
Defined.

(** The fee of 350 cents is 2 cents, 60 sats; the payment cost 25 sats. *)
Definition priced_ratio : PriceRatio := mkRatio 350 (sats 10500).

Lemma reimbursement_within_fee_witness :
  getReimbursement (btcProtocolAndBankFee (lc_amounts priced)) priced_ratio (sats 25) = Ok (sats 35, cents 1) /\
  35 + 25 = amount (btcProtocolAndBankFee (lc_amounts priced)) /\
  1 <= amount (usdProtocolAndBankFee (lc_amounts priced)).
Proof.
  assert (getReimbursement (btcProtocolAndBankFee (lc_amounts priced)) priced_ratio (sats 25) = Ok (sats 35, cents 1)) as Hr
    by (vm_compute; reflexivity).
  split; [exact Hr|].
  destruct (reimbursement_within_fee config0 amountless usd_sender steady steady steady 0 priced priced_ratio (sats 25)
    (sats 35) (cents 1) hash_given steady_ok steady_ok steady_ok priced_Ok) as (Hb & _ & Hu);
    [vm_compute; reflexivity|vm_compute; discriminate|exact Hr|].
  split; [exact Hb|]. apply Hu. vm_compute. discriminate.
Defined.

Lemma flow_roundtrip_witness :
  flow_storable (flow_of "hash") /\
  exists r, rawFromPaymentFlow (flow_of "hash") = Ok r /\ paymentFlowFromRaw r = Ok (flow_of "hash").
Proof.
  assert (flow_storable (flow_of "hash")) as Hs.
  { split; [exists "hash"; split; [discriminate|constructor]|]. repeat split; vm_compute; discriminate. }
  split; [exact Hs|]. exact (flow_roundtrip (flow_of "hash") Hs).
Defined.

(** ** On-chain payments *)

Definition no_volume : VolumeFn := fun _ _ => Ok (js_zero, js_zero).
Definition fees0 : FeesConfig := mkFees MethodFlat (Fin (num_of_Z 2000)) 30 0 50.

(** Everything of a wallet of a million sats *)
Definition everything : OPFBWithConversion :=
  mkOConversion (mkOSender (mkOnChainConfig no_volume no_volume (fun _ => true) true 5000) "bc1" btc_wallet js_zero)
    SettleOnChain no_recipient 1000000 0 (sats 1000000) (cents 50000).
Definition everything_run := withMinerFee fees0 0 everything (sats 700).
Definition everything_flow : OnChainPaymentFlow := match everything_run with Ok f => f
  | _ => mkOnChain None ZERO_SATS ZERO_CENTS None (pf_common (flow_of "")) end.
Definition everything_Ok : everything_run = Ok everything_flow.
Proof. vm_compute. reflexivity. Defined.

Lemma send_all_exact_witness :
  everything_run = Ok everything_flow /\
  sender_total (of_common everything_flow) = 1000000 /\
  checkBalanceForSend (of_common everything_flow) (sats 1000000) = Ok tt /\
  0 < amount (btcPaymentAmount (fc_amounts (of_common everything_flow))).
Proof.
  split; [exact everything_Ok|].
  destruct (send_all_exact fees0 0 everything (sats 700) everything_flow (or_introl eq_refl) eq_refl eq_refl everything_Ok)
    as (Ht & Hb & Hp).
  split; [exact Ht|]. split; [exact Hb|]. apply Hp; [by split|by split|reflexivity|by vm_compute].
Defined.

Lemma onchain_fees_sound_witness :
  everything_run = Ok everything_flow /\
  exists r minBankFee,
    WalletPriceRatio (cents 50000) (sats 1000000) = Ok r /\
    amount (btcProtocolAndBankFee (fc_amounts (of_common everything_flow))) = amount (of_btcBankFee everything_flow) + 700 /\
    amount minBankFee <= amount (of_btcBankFee everything_flow).
Proof.
  split; [exact everything_Ok|].
  destruct (onchain_fees_sound fees0 0 everything (sats 700) everything_flow) as (r & m & Hr & Hf & Hm & _);
    [vm_compute; discriminate..|exact everything_Ok|].
  exists r, m. split; [exact Hr|]. split; [exact Hf|]. apply Hm.
Defined.

(** ** Shown amounts *)

Lemma shown_exactly_witness :
  0 <= 123456 <= MAX_CENTS_EXACT /\
  da_displayInMajor (toDisplayAmount 123456 "JMD") = "1234.56".
Proof.
  split; [split; vm_compute; discriminate|]. change "1234.56" with (render_fixed (Z.to_nat (getCurrencyMajorExponent "JMD")) 123456).
  apply (shown_exactly 123456 "JMD"). split; vm_compute; discriminate.
Defined.
