(* ===== verification/ApiKeyWitnesses.v ===== *)
(** * API keys on a simulated database

    A concrete instance of the parameters of [ApiKeys]: random bytes that count,
    a hash that is the identity, addresses compared as texts, and a database that
    fails as told. The theorems are applied to runs of it, and the examples show
    what the database can do to a rotation and to the limit on keys. At the end
    the guards of requests run, on the simulated services of the top-ups and of
    the cutover. *)

From stdpp Require Import base gmap list strings.
From Stdlib Require Import ZArith Lia Ascii.
From S2P Require Import Prelude JsStrings JsNumbers Processes Errors World Repos Json FygaroCheckout.
From S2P Require Import TopupWorld PaymentIdempotency Simulation TopupSimulation ApiKeys ApiKeyAccess RequestGuards.

Open Scope Z_scope.
Open Scope flash_scope.

Section Simulated.
Variable faults : nat -> option mongo_failure.

Local Instance keys_external : External := {|
  ibex_state := sim_ibex;
  sdk_getAccountDetails := sim_getAccountDetails;
  sdk_addInvoice := sim_addInvoice;
  sdk_payInvoiceV2 := sim_payInvoice;
  sdk_createAccount name currency s := (Resp (Some ("ibex-" +:+ name)), s);
  sdk_createLnurlPay a c s := (Resp (Some "lnurl"), s);
  parsePaymentRequest := sim_parse;
  mongo_fault := faults;
  sort_updatedAt l := l;
  valid_object_id _ := true;
  clock n := Z.of_nat n;
  uuid n := "id" +:+ bigint_toString (Z.of_nat n);
  funder_resolver := Ok "treasury-usd";
  mockIbexEnabled := false
|}.

(** [n] bytes with the value [i + 65]. *)
Fixpoint sim_bytes (i n : nat) : string :=
  match n with O => EmptyString | S m => String (chr (Z.of_nat i + 65)) (sim_bytes i m) end.

Local Instance sim_keys : KeyExternal := {|
  ip_addr := string;
  ip_isValid := nonempty;
  ip_process s := Some s;
  ip_kind_of _ := ipv4;
  ip_toString s := s;
  ip_parseCIDR _ := None;
  ip_match _ _ _ := None;
  sha256 s := s;
  key_bytes := sim_bytes;
  key_object_id n := "key" +:+ bigint_toString (Z.of_nat n);
  sort_createdAt l := l;
  configured_maxKeys := Some 2;
  configured_requests := None
|}.

Lemma sim_keys_laws : KeyLaws.
Proof. split; [|done]. cbn. intros i n. induction n as [|n IH]; [done|]. cbn. by rewrite IH. Defined.

Definition key_world0 : kworld :=
  mkKWorld _ _ (mkWorld _ None ∅ {["alice" := alice]} [] (mkSim ∅ [] 0) [] 0 0 0 None None) [] 0 0 [] [].

Definition create_key : KApp CreateApiKeyResult :=
  createApiKey "alice" "shop" ["read:wallet"; "write:user"] ["10.0.0.1"] JNull None None.

Definition created : outcome error CreateApiKeyResult * kworld := run create_key key_world0.

Definition active_keys (w : kworld) : list string := k_id <$> active_of "alice" (kw_docs w).

(** The active keys after the key made first is rotated. *)
Definition rotated : outcome error (CreateApiKeyResult * string) * kworld :=
  run (rotateApiKey "key0" "alice") created.2.

(** The active keys after requests at the same time. *)
Definition concurrent (requests : list key_request) (sched : list nat) (w : kworld) : list string :=
  active_keys (exec sched (serve <$> requests) w).2.
End Simulated.

Definition no_faults (_ : nat) : option mongo_failure := None.

(** ** What can go wrong *)

Fixpoint rounds (n : nat) (who : list nat) : list nat :=
  match n with O => [] | S m => who ++ rounds m who end.

(** The revocation of the old key takes effect and its answer is lost: the
    compensation revokes the new key, and the account has no key left. *)
Example rotation_loses_both_keys :
  let faults n := if Nat.eqb n 4 then Some (FaultAfter "timeout") else None in
  is_ok (rotated faults).1 = false /\ active_keys faults (created faults).2 = ["key0"] /\
  active_keys faults (rotated faults).2 = [].
Proof. vm_compute. done. Qed.

(** Two rotations of one key at the same time leave two keys, and three requests
    for a key exceed the limit of two. *)
Example limit_exceeded :
  let ask := CreateRequest "alice" "shop" ["read:user"] [] JNull None None in
  let w := (created no_faults).2 in
  concurrent no_faults [RotateRequest "key0" "alice"; RotateRequest "key0" "alice"] (rounds 20 [0; 1]%nat) w =
    ["key1"; "key2"] /\
  concurrent no_faults [ask; ask] (rounds 20 [0; 1]%nat) w = ["key0"; "key1"; "key2"].
Proof. vm_compute. done. Qed.

(** ** The theorems on runs *)

#[local] Instance ext0 : External := keys_external no_faults.
#[local] Instance keys0 : KeyExternal := sim_keys no_faults.
#[local] Instance laws0 : KeyLaws := sim_keys_laws no_faults.

(** A run by its outcome *)
Definition answered_with {W A} (r : outcome error A * W) (a : A) : r.1 = Ok a -> r = (Ok a, r.2).
Proof. intros H. rewrite (surjective_pairing r), H. reflexivity. Defined.

Definition value_of {A} (d : A) (o : outcome error A) : A := match o with Ok a => a | _ => d end.

Definition no_result : CreateApiKeyResult := mkCreated "" "" "" "" [] None None.
Definition first_key : CreateApiKeyResult := value_of no_result (created no_faults).1.
Definition one_key : kworld := (created no_faults).2.

Definition second : outcome error CreateApiKeyResult * kworld := run (create_key no_faults) one_key.
Definition second_key : CreateApiKeyResult := value_of no_result second.1.
Definition two_keys : kworld := second.2.

Definition doc (w : kworld) (i : nat) : ApiKey :=
  default (mkApiKey "" "" "" "" "" [] key_revoked [] JNull None None 0 None) (kw_docs w !! i).

Definition unique_two : keys_unique (kw_docs two_keys).
Proof. split; [by_computation; vm_compute; reflexivity|]. split; by_computation; vm_compute; reflexivity. Defined.
Definition unique_one : keys_unique (kw_docs one_key).
Proof. split; [by_computation; vm_compute; reflexivity|]. split; by_computation; vm_compute; reflexivity. Defined.

(** The outcome of a finished process. *)
Definition finished {W A} (ps : list (proc W error A)) (i : nat) : option (outcome error A) :=
  match ps !! i with Some (Done o) => Some o | _ => None end.

Definition finished_done {W A} (ps : list (proc W error A)) i o :
  finished ps i = Some o -> ps !! i = Some (Done o).
Proof. unfold finished. destruct (ps !! i) as [[o'|]|]; intros [= ->]. reflexivity. Defined.

(** The first of two keys is revoked, and a request with the second is verified
    while the first one is tried as well. *)
#[local] Abbreviation revoking := (run (revokeApiKey "key0" "alice") two_keys).
Definition revoked_key : ApiKey := with_status key_revoked (doc two_keys 0).
Definition tries : list key_request :=
  [VerifyRequest (cr_apiKey first_key) (Some "10.0.0.1"); VerifyRequest (cr_apiKey second_key) (Some "10.0.0.1")].
#[local] Abbreviation tried := (exec (rounds 20 [0; 1]%nat) (serve <$> tries) revoking.2).1.
Definition second_verified : VerifiedApiKey := mkVerified (doc two_keys 1) "alice-kratos".

Lemma revocation_is_final_witness :
  (finished tried 0 = Some (Err (new_error CouldNotFindError "API key not found"))) /\
  finished tried 1 = Some (Ok (Some second_verified)) /\
  k_keyId (v_apiKey second_verified) <> k_keyId revoked_key.
Proof.
  assert (finished tried 1 = Some (Ok (Some second_verified))) as H1 by (vm_compute; reflexivity).
  split; [vm_compute; reflexivity|]. split; [exact H1|].
  exact (revocation_is_final two_keys revoking.2 "key0" "alice" revoked_key tries (rounds 20 [0; 1]%nat) 1
    second_verified unique_two (answered_with revoking revoked_key ltac:(vm_compute; reflexivity))
    (finished_done _ _ _ H1)).
Defined.

(** A key from the address it is pinned to, and from another. *)
Definition first_verified : VerifiedApiKey := mkVerified (doc one_key 0) "alice-kratos".

Lemma key_accepted_iff_witness :
  (exists k a, genuine one_key (cr_apiKey first_key) (Some "10.0.0.1") k a /\
     first_verified = mkVerified k (a_kratosUserId a)) /\
  is_ok (run (verifyApiKey (cr_apiKey first_key) (Some "10.0.0.2")) one_key).1 = false.
Proof.
  split; [|vm_compute; reflexivity].
  apply (key_accepted_iff one_key (cr_apiKey first_key) (Some "10.0.0.1") first_verified unique_one eq_refl eq_refl).
  vm_compute. reflexivity.
Defined.

(** Bob's requests come in between. *)
Definition bobs : list key_request :=
  [CreateRequest "bob" "till" ["admin"] [] JNull None None; RevokeRequest "key0" "bob"; RevokeAllRequest "bob"].

Lemma created_key_accepted_witness :
  concurrent no_faults bobs (rounds 20 [0; 1; 2]%nat) one_key = ["key0"] /\
  exists k, (run (verifyApiKey (cr_apiKey first_key) (Some "10.0.0.1"))
      (exec (rounds 20 [0; 1; 2]%nat) (serve <$> bobs) one_key).2).1 = Ok (mkVerified k "alice-kratos") /\
    k_accountId k = "alice" /\ k_name k = "shop" /\ k_scopes k = ["read:wallet"; "write:user"].
Proof.
  split; [vm_compute; reflexivity|].
  apply (created_key_accepted (key_world0 no_faults) one_key "alice" "shop" ["read:wallet"; "write:user"]
    ["10.0.0.1"] JNull None None first_key bobs (rounds 20 [0; 1; 2]%nat) (Some "10.0.0.1") alice).
  - split; [constructor|split; constructor].
  - exact (answered_with (run (create_key no_faults) (key_world0 no_faults)) first_key ltac:(vm_compute; reflexivity)).
  - by_computation. vm_compute. reflexivity.
  - vm_compute. reflexivity.
  - vm_compute. reflexivity.
  - reflexivity.
  - vm_compute. reflexivity.
  - intros t Ht. vm_compute in Ht. discriminate Ht.
  - right. exists "10.0.0.1". split; [reflexivity|]. split; [discriminate|vm_compute; reflexivity].
Defined.

(** A rotation. *)
#[local] Abbreviation rotating := (run (rotateApiKey "key0" "alice") one_key).
Definition replacement : CreateApiKeyResult := (value_of (no_result, "") rotating.1).1.

Lemma rotation_replaces_witness :
  cr_id replacement = "key1" /\
  exists old new secret, old ∈ kw_docs one_key /\ key_of "key0" "alice" old = true /\
    k_status old = key_active /\ k_keyId old = "41414141" /\
    kw_docs rotating.2 =
      update_key (key_of "key0" "alice") (with_status key_revoked) (kw_docs one_key) ++ [new] /\
    k_status new = key_active /\
    (k_accountId new, k_name new, k_scopes new, k_ipConstraints new, k_metadata new,
     k_rateLimitPerMinute new, k_expiresAt new) =
    ("alice", k_name old, k_scopes old, k_ipConstraints old, k_metadata old, k_rateLimitPerMinute old,
     k_expiresAt old) /\
    parseApiKey (cr_apiKey replacement) = Ok (k_keyId new, secret) /\
    k_hashedKey new = hashApiKeySecret secret /\
    forall a, length (active_of a (kw_docs rotating.2)) = length (active_of a (kw_docs one_key)).
Proof.
  split; [vm_compute; reflexivity|].
  exact (rotation_replaces one_key rotating.2 "key0" "alice" replacement "41414141" unique_one
    (answered_with rotating (replacement, "41414141") ltac:(vm_compute; reflexivity))).
Defined.

(** A key for reading wallets and writing the profile. *)
#[local] Abbreviation checked :=
  (run (apiKeyCheckHandler (OneHeader (cr_apiKey first_key)) (OneHeader " 10.0.0.1, 10.0.0.9")) one_key).
Definition first_body : check_body := body_of (doc one_key 0) "alice-kratos".
Definition first_context : context := sessionPublicContext (id_token first_body) (Some alice).

Lemma key_session_confined_witness :
  (is_ok (root_rule "me" first_context), is_ok (root_rule "lnInvoicePaymentSend" first_context),
   is_ok (root_rule "apiKeyCreate" first_context)) = (true, false, false) /\
  exists k, k ∈ kw_docs one_key /\ k_status k = key_active /\
    cb_id first_body = API_KEY_SESSION_PREFIX +:+ k_keyId k /\
    (root_rule "me" first_context = Ok true <->
     exists required, field_scope "me" = Some required /\ required <> API_KEY_FIELD_BLOCKED /\
       scopes_grant (k_scopes k) required).
Proof.
  split; [vm_compute; reflexivity|].
  exact (key_session_confined (OneHeader (cr_apiKey first_key)) (OneHeader " 10.0.0.1, 10.0.0.9") one_key checked.2
    first_body alice "me" ltac:(by_computation; vm_compute; reflexivity)
    (answered_with checked (Accepted200 first_body) ltac:(vm_compute; reflexivity))
    ltac:(left; by_computation; vm_compute; reflexivity)).
Defined.

(** A limiter that refuses everything. *)
Lemma key_rate_enforced_witness :
  valid_key (doc one_key 0) = true /\
  match apiKeyRateLimitMiddleware defaultRequestsPerMinute (fun _ _ => Exceeded (Some 1500)) first_context
          (id_token first_body) with
  | Next => forall ms, Exceeded (Some 1500) <> Exceeded ms
  | TooManyRequests retryAfter limit _ =>
      limit = num_of_Z 120 /\ 1 <= retryAfter /\ exists ms, Exceeded (Some 1500) = Exceeded ms
  end.
Proof.
  split; [vm_compute; reflexivity|].
  exact (key_rate_enforced (doc one_key 0) "alice-kratos" (Some alice) (fun _ _ => Exceeded (Some 1500))
    ltac:(vm_compute; reflexivity)).
Defined.

(** ** The guards of requests *)

#[local] Abbreviation a_uuid := "123e4567-e89b-42d3-a456-426614174000".
#[local] Abbreviation guarded_request := (@idempotencyMiddleware simulated reliable (OneHeader a_uuid) (Ok None)).
#[local] Abbreviation after_first := (run guarded_request (opening reliable)).2.

(** The first request has locked its key, and the second with the same key goes on. *)
Lemma idempotency_never_refuses_witness :
  re_uuid a_uuid = true /\
  is_Some (r_timelocks (t_redis after_first) !! ("locks:idempotencykey:" +:+ a_uuid)) /\
  (run guarded_request after_first).1 = Ok NextHandler.
Proof.
  split; [reflexivity|]. split; [vm_compute; by eexists|].
  exact (proj2 (@idempotency_never_refuses simulated reliable (OneHeader a_uuid) (Ok None) after_first)
    a_uuid None eq_refl eq_refl eq_refl).
Defined.
