(* ===== verification/CashoutWitnesses.v ===== *)
(** * Cashouts and account requests that run

    A concrete instance of the parameters of the cashouts ([CashoutExternal]) over
    the simulated services of [Simulation] and [BridgeSimulation]: Alice asks for
    an offer of ten dollars to a Jamaican bank account and executes it. The
    theorems of [Cashouts] and [CashoutOffers] are applied to these runs. Over
    the same services an ERPNext that numbers its requests ([UpgradeExternal])
    runs the requests of [AccountUpgrades]. *)

From stdpp Require Import base gmap list strings.
From Stdlib Require Import ZArith Lia.
From S2P Require Import Prelude JsStrings JsNumbers JsDecimals Processes Errors BigintMoney MoneyAmounts World.
From S2P Require Import Ibex FygaroGate Json TopupWorld BridgeWorld Cashouts CashoutOffers AccountUpgrades Simulation.
From S2P Require Import TopupSimulation BridgeSimulation.

Open Scope Z_scope.

(** ** The parameters *)

#[local] Existing Instance reliable.
#[local] Existing Instance sim_bridge.

(** Two percent, from a dollar to a thousand, for accounts of level one. *)
#[local] Instance sim_cashout : CashoutExternal := {|
  cashout_fee := 200;
  cashout_duration := 600;
  cashout_minimum := 100;
  cashout_maximum := 100000;
  cashout_accountLevel := 1;
  cashout_skipPayment := false;
  cashout_bankOwner := Ok "treasury-usd";
  erp_bank_accounts _ _ := Some [mkBankAccount (Some "bank1") "JMD"];
  erp_exchange_rate _ := Some (SNumber (num_of_Z 160));
  erp_draft n _ := Ok ("cashout" +:+ bigint_toString (Z.of_nat n));
  erp_submit _ _ := None
|}.

Definition cash_services : world :=
  mkWorld _ None ∅ {["alice" := alice; "flash" := treasurer]}
    [mkWallet "usd-wallet" "alice" Checking Usd None; mkWallet "treasury-usd" "flash" Checking Usd None]
    (mkSim {["usd-wallet" := 3200; "treasury-usd" := 0]} [] 0) [] 0 0 0 None None.

Definition cash_world : cworld :=
  mkCWorld _ _ _ _
    (mkBWorld _ _ _ (mkTWorld _ _ cash_services empty_redis 0 ∅ 0 0 None None [])
       (mkStore ∅ [] [] [] [] ∅ [] ∅ 0 ∅) [] [] [] [] [] None 0 0 0)
    {["alice" := "party"]} ∅ None 0 [] [].

Definition ten_dollars : MoneyAmount :=
  match USD_cents (InBigint 1000) with Ok a => a | _ => usdt_micros 0 end.

Definition outcome_value {A} (d : A) (o : outcome error A) : A := match o with Ok a => a | _ => d end.

Definition no_details : CashoutDetails :=
  mkDetails "" "" (mkInvoice None "" 0 false None "" "" "" "" 0) ten_dollars "" ten_dollars ten_dollars None.

#[local] Abbreviation offered := (run (createOffer "usd-wallet" ten_dollars "bank1" "alice") cash_world).

Definition made : PersistedOffer := Eval vm_compute in outcome_value (mkPersisted "" no_details) offered.1.

Definition after_offer : cworld := offered.2.

(** ** What can happen *)

(** The amounts of the draft, and how often it is paid for and submitted, when the offer
    is executed twice: the offer is still there the second time, and this IBEX
    takes an invoice as often as it is paid. *)
Definition executions : cworld :=
  let w1 := (run (executeCashout (po_id made) "usd-wallet" "alice") after_offer).2 in
  (run (executeCashout (po_id made) "usd-wallet" "alice") w1).2.

Example offer_executed_twice :
  let b := mkDraft "party" "bank1" "hash" "usd-wallet" "treasury-usd" "1568.00" "10.00" "JMD" (Some "160.00") "0.20" in
  cw_log executions =
    [Drafted b (Ok "cashout0"); Paid "cashout0" "usd-wallet" "lnsim0" PaymentSuccess; Submitted "cashout0" None;
     Drafted b (Ok "cashout3"); Paid "cashout3" "usd-wallet" "lnsim0" PaymentSuccess; Submitted "cashout3" None].
Proof. vm_compute. reflexivity. Qed.

(** ** The theorems on runs *)

Lemma nothing_backed : backed [].
Proof. intros before id a after E. by destruct before. Defined.

#[local] Abbreviation three_requests :=
  [ExecuteRequest "id0" "usd-wallet" "alice"; ExecuteRequest "id0" "usd-wallet" "alice";
   OfferRequest "usd-wallet" ten_dollars "bank1" "alice"].

Definition turns (n : nat) : list nat := mjoin (replicate n [0; 1; 2]%nat).

#[local] Abbreviation after_requests := (exec (turns 50) (answer <$> three_requests) after_offer).2.

Definition submissions (log : list cashout_event) : list string :=
  omap (fun e => match e with Submitted id _ => Some id | _ => None end) log.

Lemma cashouts_backed_witness :
  cashout_skipPayment = false /\ backed (cw_log after_offer) /\
  submissions (cw_log after_requests) = ["cashout0"; "cashout1"] /\
  backed (cw_log after_requests).
Proof.
  assert (cw_log after_offer = []) as E by (vm_compute; reflexivity).
  assert (backed (cw_log after_offer)) as Hb by (rewrite E; exact nothing_backed).
  split; [reflexivity|]. split; [exact Hb|]. split; [vm_compute; reflexivity|].
  exact (cashouts_backed three_requests (turns 50) after_offer eq_refl Hb).
Defined.

(** The outcome of a finished process. *)
Definition ended {W A} (ps : list (proc W error A)) (i : nat) : option (outcome error A) :=
  match ps !! i with Some (Done o) => Some o | _ => None end.

Lemma ended_done {W A} (ps : list (proc W error A)) i o : ended ps i = Some o -> ps !! i = Some (Done o).
Proof. unfold ended. destruct (ps !! i) as [[o'|]|]; intros [= ->]. reflexivity. Defined.

#[local] Abbreviation two_executing :=
  ((fun '(id, walletId, accountId) => executeCashout id walletId accountId) <$>
     [("id0", "usd-wallet", "alice"); ("id0", "usd-wallet", "flash")]).

#[local] Abbreviation two_executions := (exec (turns 50) two_executing after_offer).1.

Definition done_by (o : option (outcome error InitiatedCashout)) : InitiatedCashout :=
  match o with
  | Some (Ok ic) => ic
  | _ => mkInitiated (mkValidOffer no_details (mkWallet "" "" Checking Usd None) alice) "" false
  end.

Definition execution : InitiatedCashout := Eval vm_compute in done_by (ended two_executions 0).
Definition execution_inputs : ValidationInputs :=
  mkInputs (vo_details (ic_offer execution)) (vo_wallet (ic_offer execution)) (vo_account (ic_offer execution)).

Lemma executions_checked_witness :
  ended two_executions 0 = Some (Ok execution) /\
  ended two_executions 1 = Some (Err (new_error ValidationError "Wallet does not belong to account")) /\
  a_id (vo_account (ic_offer execution)) = "alice" /\
  above_minimum execution_inputs /\ below_maximum execution_inputs /\
  funded (acts (turns 50) two_executing after_offer 0) execution_inputs /\
  bank_known (acts (turns 50) two_executing after_offer 0) execution_inputs.
Proof.
  assert (ended two_executions 0 = Some (Ok execution)) as E0 by (vm_compute; reflexivity).
  split; [exact E0|]. split; [vm_compute; reflexivity|].
  destruct (executions_checked [("id0", "usd-wallet", "alice"); ("id0", "usd-wallet", "flash")] (turns 50)
    after_offer 0 "id0" "usd-wallet" "alice" execution eq_refl (ended_done _ _ _ E0))
    as (_ & _ & _ & _ & Ha & _ & Hmin & Hmax & _ & _ & Hf & _ & Hb).
  exact (conj Ha (conj Hmin (conj Hmax (conj Hf Hb)))).
Defined.

#[local] Abbreviation two_offers :=
  (exec (turns 50) ((fun '(walletId, p, bank, accountId) => createOffer walletId p bank accountId) <$>
     [("usd-wallet", ten_dollars, "bank1", "alice"); ("usd-wallet", ten_dollars, "bank2", "alice")]) cash_world).1.

Lemma ten_dollars_fine r :
  r ∈ [("usd-wallet", ten_dollars, "bank1", "alice"); ("usd-wallet", ten_dollars, "bank2", "alice")] ->
  wf_amount r.1.1.2 /\ 0 <= BigintMoney.value (money r.1.1.2).
Proof.
  rewrite !elem_of_cons, elem_of_nil. intros [-> | [-> | []]]; (split; [split; reflexivity|]);
    apply Z.leb_le; vm_compute; reflexivity.
Defined.

Lemma nothing_cached : fair_cached (b_top (cw_bridge cash_world)).
Proof. intros m at_ [=]. Defined.

Lemma offers_fair_witness :
  ended two_offers 0 = Some (Ok made) /\
  ended two_offers 1 = Some (Err (new_error ValidationError "Bank account not found: bank2")) /\
  fair_terms ten_dollars (po_details made).
Proof.
  assert (ended two_offers 0 = Some (Ok made)) as E0 by (vm_compute; reflexivity).
  split; [exact E0|]. split; [vm_compute; reflexivity|].
  assert (0 <= cashout_fee <= 10000) as Hfee by (cbn; lia).
  exact (offers_fair _ (turns 50) cash_world 0 "usd-wallet" "bank1" "alice" ten_dollars made
    ten_dollars_fine Hfee nothing_cached eq_refl (ended_done _ _ _ E0)).
Defined.

Lemma answered {W A} (r : outcome error A * W) (a : A) : r.1 = Ok a -> r = (Ok a, r.2).
Proof. intros E. rewrite (surjective_pairing r), E. reflexivity. Defined.

#[local] Abbreviation stored := (run (Storage_add (ic_offer execution)) cash_world).
Definition stored_offer : PersistedOffer := Eval vm_compute in outcome_value (mkPersisted "" no_details) stored.1.

Lemma execution_cacheable : cacheable_offer (vo_details (ic_offer execution)).
Proof. split_and!; (split; [split; reflexivity|]); cbn; set_solver. Defined.

Lemma offer_kept_an_hour_witness :
  stored.1 = Ok stored_offer /\ (run (Storage_get (po_id stored_offer)) stored.2).1 = Ok stored_offer.
Proof.
  assert (stored.1 = Ok stored_offer) as E by (vm_compute; reflexivity). split; [exact E|].
  pose proof (offer_kept_an_hour (ic_offer execution) cash_world stored.2 stored_offer stored.2
    execution_cacheable (answered _ _ E) eq_refl eq_refl) as H.
  assert ((redis_time (t_redis_ops (b_top (cw_bridge stored.2)))
    <? redis_time (t_redis_ops (b_top (cw_bridge cash_world))) + 3600000) = true) as Hlt by (vm_compute; reflexivity).
  cbv zeta in H. rewrite Hlt in H. exact H.
Defined.

(** * Account requests that run *)

#[local] Instance sim_upgrades : UpgradeExternal := {|
  erp_name n := "request" +:+ bigint_toString (Z.of_nat n);
  erp_initial_status := "Pending";
  erp_failed_docs _ _ := None
|}.

#[local] Instance sim_upgrade_laws : UpgradeLaws.
Proof.
  split; [|reflexivity]. intros n m E. cbn [erp_name sim_upgrades] in E.
  apply (inj (String.append "request")) in E. rewrite !bigint_toString_nonneg in E by lia.
  apply (f_equal digits_val) in E. rewrite !print_nonneg_val in E by lia. lia.
Defined.

Definition home : Address := mkAddress "Home" "1 Main Street" None "Kingston" "St. Andrew" None "Jamaica".
Definition account_at (number : string) : bank_details := mkBankDetails "NCB" "Kingston" "Savings" "JMD" number.

Definition to_level (level : Z) : UpgradeRequest :=
  mkUpgrade level "Alice" home (Some (num_of_Z 0)) (Some (account_at "12345")) "id".

Definition upgrade_world : uworld := mkUWorld _ _ _ _ _ cash_world [] [] 0.

(** Alice has asked for level two, and for new bank details. *)
Definition asked_two : uworld := (run (createUpgradeRequest "alice" (to_level 2)) upgrade_world).2.
Definition asked_bank : uworld :=
  (run (createBankAccountUpdateRequest "alice" "bank1" (account_at "12345")) upgrade_world).2.

Definition pending_names (w : uworld) : list string := ur_name <$> pending_of (Some "alice") (uw_upgrades w).
Definition open_names (w : uworld) : list string :=
  bur_name <$> filter (fun r => open_update "bank1" r = true) (uw_updates w).

(** ** What can happen *)

(** A request that is refused by the checks has closed the one that was pending. *)
Example refused_request_closes_pending :
  let r := run (createUpgradeRequest "alice" (to_level 1)) asked_two in
  pending_names asked_two = ["request0"] /\ is_ok r.1 = false /\ pending_names r.2 = [].
Proof. vm_compute. done. Qed.

(** Two requests at the same time leave two pending. *)
Example two_pending :
  pending_names (exec (turns 20) (handle <$> [AskUpgrade "alice" (to_level 2); AskUpgrade "alice" (to_level 3)])
    upgrade_world).2 = ["request0"; "request1"].
Proof. vm_compute. done. Qed.

(** A request for no number of terminals at all is not refused: it throws. *)
Example null_terminals_throw :
  match (run (createUpgradeRequest "alice" (mkUpgrade 2 "Alice" home None None "id")) upgrade_world).1 with
  | Throw e => err_class e = JsTypeError
  | _ => False
  end.
Proof. vm_compute. done. Qed.

(** ** The theorems on runs *)

Definition asked_business : CapabilityUpgradeRequest :=
  mkCapabilityRequest Business "Alice" home (Some (num_of_Z 0)) (Some (account_at "12345")) None.

Lemma capability_requests_raise_witness :
  capability_refused (deriveCapabilitiesForAccount 1 false None) asked_business = None /\
  1 < deriveLevelFromCapabilities
        (with_capability (deriveCapabilitiesForAccount 1 false None) Business true).
Proof.
  split; [vm_compute; reflexivity|].
  assert (0 <= 1 <= 3) as Hl by lia.
  destruct (capability_requests_raise 1 false None asked_business Hl) as [_ H].
  exact (proj1 (H eq_refl)).
Defined.

#[local] Abbreviation mixed :=
  [AskUpgrade "alice" (to_level 2); AskCapability "alice" asked_business;
   AskBankUpdate "alice" "bank1" (account_at "67890")].
#[local] Abbreviation after_mixed := (exec (turns 30) (handle <$> mixed) asked_bank).2.

Definition nth_upgrade (i : nat) (w : uworld) : upgrade_row :=
  default (mkUpgradeRow "" "" (mkUpgradeBody "" None None None "" None None home "" None None None None None ""))
    (uw_upgrades w !! i).

Lemma upgrades_worth_review_witness :
  nth_upgrade 1 after_mixed ∈ uw_upgrades after_mixed /\
  ub_requested_level (ur_body (nth_upgrade 1 after_mixed)) = Some "THREE" /\
  ((exists r0, r0 ∈ uw_upgrades asked_bank /\ ur_name (nth_upgrade 1 after_mixed) = ur_name r0 /\
      ur_body (nth_upgrade 1 after_mixed) = ur_body r0) \/
   (exists i q id, mixed !! i = Some q /\ asks_for id q /\
      review_of (acts (turns 30) (handle <$> mixed) asked_bank i) id (ur_body (nth_upgrade 1 after_mixed)))).
Proof.
  assert (uw_upgrades after_mixed !! 1%nat = Some (nth_upgrade 1 after_mixed)) as E by (vm_compute; reflexivity).
  assert (nth_upgrade 1 after_mixed ∈ uw_upgrades after_mixed) as Hin by (by eapply list_elem_of_lookup_2).
  split; [exact Hin|]. split; [vm_compute; reflexivity|].
  exact (upgrades_worth_review mixed (turns 30) asked_bank _ Hin).
Defined.

Definition first_update (w : uworld) : BankAccountUpdateRequest :=
  default (mkUpdateRequest "" "" "" "" (account_at "")) (uw_updates w !! 0%nat).

Lemma asked_bank_named : named_apart asked_bank.
Proof.
  assert (uw_updates asked_bank = [first_update asked_bank]) as E by (vm_compute; reflexivity).
  split; rewrite E.
  - apply NoDup_singleton.
  - intros r Hr. apply list_elem_of_singleton in Hr as ->. exists 0%nat.
    split; [apply Nat.ltb_lt; vm_compute; reflexivity|vm_compute; reflexivity].
Defined.

Lemma asked_bank_open : exists r, r ∈ uw_updates asked_bank /\ open_update "bank1" r = true.
Proof.
  exists (first_update asked_bank). split; [|vm_compute; reflexivity].
  apply (list_elem_of_lookup_2 _ 0). vm_compute. reflexivity.
Defined.

Lemma update_never_lost_witness :
  open_names asked_bank = ["request0"] /\ open_names after_mixed = ["request2"] /\
  exists r, r ∈ uw_updates after_mixed /\ open_update "bank1" r = true.
Proof.
  split; [vm_compute; reflexivity|]. split; [vm_compute; reflexivity|].
  exact (update_never_lost mixed (turns 30) asked_bank "bank1" asked_bank_named asked_bank_open).
Defined.

#[local] Abbreviation asked_three := (run (createUpgradeRequest "alice" (to_level 3)) asked_two).

Lemma upgrade_supersedes_witness :
  asked_three.1 = Ok (mkUpgradeStatus "request1" "Pending") /\ pending_names asked_two = ["request0"] /\
  exists row, pending_of (Some "alice") (uw_upgrades asked_three.2) = [row] /\ ur_name row = "request1".
Proof.
  assert (asked_three.1 = Ok (mkUpgradeStatus "request1" "Pending")) as E by (vm_compute; reflexivity).
  split; [exact E|]. split; [vm_compute; reflexivity|].
  assert (length (pending_of (a_username alice) (uw_upgrades asked_two)) <= 20)%nat as Hl
    by (apply Nat.leb_le; vm_compute; reflexivity).
  assert (w_accounts (t_base (b_top (cw_bridge (uw_cash asked_two)))) !! "alice" = Some alice) as Ha
    by (vm_compute; reflexivity).
  destruct (upgrade_supersedes "alice" (to_level 3) asked_two asked_three.2 _ alice Ha Hl (answered _ _ E))
    as (_ & _ & row & Hrow & Hname & _).
  exact (ex_intro _ row (conj Hrow Hname)).
Defined.
